(* ===== verification/_CoqProject ===== *)
-Q . S2P
Prelude.v
RbTree.v
RbTreeRep.v
RbTreeInsert.v
RbTreeSearch.v
RbTreeSwap.v
RbTreeRemove.v
RbTreeSpec.v
TreeMap.v
Resource.v
Event.v
Pipe.v
Ring.v
Locks.v
Mutex.v
Bytes.v
MemUtil.v
StrEqual.v
Store.v
Kfs2Crc.v
Kfs2Io.v
Kfs2Levels.v
Kfs2Bitmap.v
Kfs2BitmapSpec.v
Kfs2File.v
Kfs2FileSpec.v
Compressor.v
CompressorSpec.v
Rsa.v
RsaArith.v
RsaSpec.v
Sort.v
Heap.v
HeapSpec.v
HeapAlloc.v
Sha256.v
Hmac.v
Random.v
AesTables.v
Aes.v
Acl.v
Handle.v
Id.v
AclSyscall.v
Pmm.v
PmmView.v
PmmInv.v
PmmSpec.v
Pages.v
Omm.v
OmmLists.v
OmmSpec.v
Vmm.v
VmmTree.v
VmmSpec.v
VmmApi.v
Mmap.v
MmapSpace.v
MmapPages.v
MmapSpec.v
Timer.v
TimerSpec.v
LoadBalancer.v
LoadBalancerSpec.v
Vfs.v
VfsSpec.v
VfsPath.v
VfsLock.v
Notification.v
NotificationSpec.v
Amm.v
Format.v
FormatSpec.v
Writer.v
Config.v
ConfigSpec.v
ConfigFile.v
ConfigFileSpec.v
ConfigText.v
ConfigTextSpec.v
