(* ===== verification/Prelude.v ===== *)
(** * A verification of the core libraries of the kernel

    The repository is an operating system for x86-64: a UEFI loader
    ([src/src/uefi]), a kernel ([src/src/kernel]), loadable kernel modules
    ([src/src/module]: file systems, drivers, network protocols), libraries and
    programs of user space ([src/src/lib], [src/src/user]) and host tools
    ([src/src/tool]).  This development models the part of the kernel that
    everything else stands on: the data structures, the memory allocators, the
    synchronisation primitives, paging and address spaces, timers and the
    queues of the scheduler, the access control, the lookup of paths, the
    cryptographic and textual libraries and the core of its own file system,
    each translated operation by operation from its C file.

    ** Conventions

    - A [w]-bit C integer is a [Z]; the C truncations are written with [wrap],
      [u8], [u16], [u32], [u64] (this file), signed casts with [sext].
    - A pointer is a [Z], [NULL] is [0].  Node memories are finite maps from
      addresses to records; byte buffers are functions [Z -> Z] ([mem]) when
      what lies beyond them matters, lists of bytes otherwise.
    - [None] (or a [Fault] constructor) stands for what C does not define or
      what the kernel turns into a [panic]: a load through a bad pointer, an
      explicit [panic] call, an access outside of a buffer.  Theorems of the
      form [f x = Some y] therefore also say that none of these happens.
    - Loops that are not structural take fuel.  The operations of the
      red-black tree run with [S (number of nodes)]; the digit loops of the
      printer with the length of their buffers; the text parser with one
      iteration per byte; the buddy allocator with one step per region or
      block; the loops over pages and blocks with one step per page or block;
      the quicksort with the number of elements; the lookup of a path with one
      step per byte.  The theorems show that this fuel is enough, so running
      out of it never hides a case; where the C loop really does not
      terminate, that is a theorem about every fuel.
    - Locks that make an operation atomic are left out of the operation;
      [Locks.v] models the locks themselves, at the granularity of single
      memory accesses.

    ** Files, and the code they model (paths below [src/src/kernel])

    - [Prelude.v]: fixed-width integers, bits, lists and memories; the hint
      databases [kernel] and [kernel_rw].
    - [RbTree.v] (every function of [tree/rb_tree.c], pointer by pointer, with
      the colour in bit 0 of the parent word).  [RbTreeRep.v] relates a node
      memory to an abstract tree, [RbTreeInsert.v], [RbTreeSwap.v],
      [RbTreeRemove.v] and [RbTreeSearch.v] give the effect of each operation
      on it, [RbTreeSpec.v] states the result for clients: a tree in memory is
      a finite map from keys to nodes, insertion and removal refine the map
      operations, lookups are logarithmic, nearest-key searches and iteration
      are right.
      [TreeMap.v] gives the nearest-key searches on that map.
    - [Resource.v] ([resource/resource.c]): a manager of numbers refines a set
      of used numbers.
    - [Event.v] ([mp/event.c], with the thread states of [mp/thread.c] and the
      enqueueing of [scheduler/scheduler.c]): waiters as the doubly linked
      container lists of the code; a dispatch resumes every waiter and removes
      its containers everywhere.
    - [Pipe.v] ([pipe/pipe.c]): a circular buffer as a byte queue, with its two
      events.  [Ring.v] ([ring/ring.c]): a queue of pointers, and the index
      overrun that ends its use.
    - [Locks.v] ([lock/rwlock.c], [lock/bitlock.c]): interleavings of the
      atomic accesses of any number of processors; writers exclude each other
      in every reachable state; a reachable state in which a reader and a
      writer overlap.  [Mutex.v] ([lock/mutex.c]): the sleeping lock built on
      the events.
    - [Bytes.v], [MemUtil.v], [StrEqual.v] ([util/*.c], [memory/smm.c]): the
      word-at-a-time copies, fills and comparisons agree with their
      byte-at-a-time definitions.
    - [Sha256.v] ([hash/sha256.c]), [Hmac.v] ([hmac/], [password/pbkdf2.c]),
      [AesTables.v] and [Aes.v] ([aes/aes.c]): the implementations equal FIPS
      180-4, RFC 2104 and RFC 8018 for any way of cutting the input; AES
      decryption, block-wise and in CBC mode, inverts encryption.
      [Random.v] ([random/random.c]): the generator, its stream, and what does
      not reach it.
    - [Handle.v] ([handle/handle.c], [handle/handle_list.c]), [Acl.v] and
      [AclSyscall.v] ([acl/acl.c]), [Id.v] ([id/], [vfs/permissions.c],
      [mp/process.c]): reference counting, permissions with their cache, the
      system calls over them, users and groups.
    - [Pmm.v] ([memory/pmm.c]), [PmmView.v], [PmmInv.v], [PmmSpec.v]: the buddy
      allocator over packed descriptors; the free lists and bitmaps stay
      consistent, an allocation returns an aligned zeroed block that was free
      and now is not, a deallocation makes exactly that block free again and
      merges it with free buddies as far as possible.
      [Pages.v] is the interface under which the allocators above use it.
      [Omm.v], [OmmLists.v], [OmmSpec.v] ([memory/omm.c]): objects of one size
      in pages; objects in use never overlap, empty pages are returned.
      [Amm.v] ([memory/amm.c]): size classes and reallocation.
    - [Vmm.v], [VmmTree.v], [VmmSpec.v], [VmmApi.v] ([memory/vmm.c]): page
      maps with four levels of tables and three page sizes over the memory of
      [Pages.v]; a page map refines a partial function from addresses to
      entries, the counts in the entries are right and empty tables are given
      back.  [Mmap.v], [MmapSpace.v], [MmapPages.v], [MmapSpec.v]
      ([mmap/mmap.c]): address spaces over the page maps; regions and free
      regions tile the address space, guard pages stay unmapped, page faults
      fill in just the page that was asked for with the rights of its region.
    - [Timer.v], [TimerSpec.v] ([timer/timer.c]): the tree of deadlines,
      updates and the dispatcher; a timer whose deadline another one waits for
      is lost.  [LoadBalancer.v],
      [LoadBalancerSpec.v] ([scheduler/load_balancer.c], [scheduler.c]): the
      queues of threads that wait for a processor refine 64 lists.
    - [Vfs.v], [VfsSpec.v], [VfsPath.v] ([vfs/node.c], [vfs/vfs.c]): the tree
      of nodes with its reference counts; a lookup stays below the root of its
      process and the path of a node leads back to it.  [VfsLock.v]
      ([vfs/lock.c]): the locks of files.
    - [Notification.v], [NotificationSpec.v] ([notification/notification.c]): a
      shared list of notifications refines one queue per consumer.
    - [Store.v], [Kfs2Crc.v], [Kfs2Io.v], [Kfs2Levels.v], [Kfs2Bitmap.v],
      [Kfs2BitmapSpec.v], [Kfs2File.v], [Kfs2FileSpec.v] ([common/kfs2]):
      checksums, node and block access, the allocation bitmaps (a set of free
      numbers) and reading and writing files (a string of bytes).
      [Compressor.v], [CompressorSpec.v] ([common/compressor]): what is
      compressed is decompressed to itself.
    - [Rsa.v], [RsaArith.v], [RsaSpec.v] ([rsa/rsa.c]): big integers, Barrett
      reduction and windowed exponentiation compute the power modulo the key;
      the reciprocal that [rsa_state_init] computes is exact when no trial digit
      of its long division is too big.
      [Sort.v] ([lib/sys/sys/util/sort.c]): the quicksort sorts.
    - [Heap.v], [HeapSpec.v], [HeapAlloc.v]
      ([lib/sys/sys/heap/heap.c]): the allocator of user programs; blocks in
      use are disjoint and keep their contents.
    - [Format.v], [FormatSpec.v] ([format/format.c]): the formatted printer
      stays inside its buffer and prints what a text-level specification says;
      numerals read back.
    - [Writer.v] ([writer/writer.c]): a buffered writer equals appending to its
      file, for every implementation of the class [Backend].
    - [Config.v], [ConfigSpec.v], [ConfigFile.v], [ConfigFileSpec.v],
      [ConfigText.v], [ConfigTextSpec.v] ([config/config.c]): the binary
      format (over [Writer.v], [Sha256.v], [Hmac.v] and [Aes.v]) and the text
      format; what is saved loads back.

    ** How the parts interact

    The configuration files use the writer, the hash, the cipher and the
    password function; their round trip is proved from the theorems of those
    components.  The writer is proved against an interface with two instances,
    a file and a memory block.  Handles and access lists see the red-black tree
    as the finite map that [RbTreeSpec.v] proves it to be.  Pipes and rings
    drive the events of [Event.v], and so do mutexes.  The object allocator is
    proved against the classes [PageAllocator] and [PageAllocatorLaws] of
    [Pages.v], which the physical memory manager is shown to satisfy; [amm]
    takes its blocks from a parameter.  Page maps take their tables from the
    same classes, and address spaces use the page maps through the functions
    of [VmmApi.v].  Resource managers, address spaces and timers see their
    trees as maps with the searches of [TreeMap.v].  The file system works on
    any device of the class [BlockDevice] with the laws [DeviceLaws].  The
    lookup of paths asks the permissions of [Id.v]; the file systems below it
    are parameters whose answers are new nodes ([fs_ok]).  File locks end with
    the handles of [Handle.v].  The heap takes the answers of the kernel to its
    requests for memory as an argument, with what [MmapSpec.v] proves of them
    as a hypothesis ([mapped]).

    ** What is not modelled, and why

    Drivers, interrupts and processor set-up ([acpi], [apic], [pci], [usb],
    [tpm], most modules) act on hardware that the sources only name.  The AML
    and GLSL interpreters, OpenGL, the network protocols, the other file
    systems, mounting and file descriptors, sockets, signals and the user
    programs are separate subsystems that use what is modelled here; they
    are listed with their reasons in the manifest of the development.  Code
    compiled only in debug builds (lock profiling, coverage, the verifier of
    the page allocator) is left out: the release build is modelled.

    The theorems that show defects state what the code does on the inputs
    named there; the rest of the library does not rely on the operations they
    concern outside of their stated preconditions. *)
From stdpp Require Import base tactics list numbers strings gmap.
From Stdlib Require Import ZArith Lia.
#[local] Open Scope Z_scope.

(** ** Fixed-width integers

    A [w]-bit unsigned C integer is a [Z] in [0, 2^w).  Arithmetic is done on
    [Z] and truncated where the C expression truncates, with [wrap]. *)

Definition wrap (w x : Z) : Z := x mod 2 ^ w.
Definition u8 (x : Z) : Z := wrap 8 x.
Definition u16 (x : Z) : Z := wrap 16 x.
Definition u32 (x : Z) : Z := wrap 32 x.
Definition u64 (x : Z) : Z := wrap 64 x.

(** Two's complement reading of a [w]-bit pattern ([s8] ... [s64] casts). *)
Definition sext (w x : Z) : Z := (x + 2 ^ (w - 1)) mod 2 ^ w - 2 ^ (w - 1).

Definition is_width (w x : Z) : Prop := 0 <= x < 2 ^ w.

(** C truth values. *)
Definition b2z (b : bool) : Z := if b then 1 else 0.
Definition z2b (x : Z) : bool := negb (x =? 0).

(** C operators at a fixed width, in a scope of their own. *)
Declare Scope cint_scope.
Delimit Scope cint_scope with C.
Notation "x & y" := (Z.land x y) (at level 40, left associativity) : cint_scope.
Notation "x .| y" := (Z.lor x y) (at level 50, left associativity) : cint_scope.
Notation "x ^^ y" := (Z.lxor x y) (at level 49, left associativity) : cint_scope.
Notation "x << n" := (Z.shiftl x n) (at level 38, left associativity) : cint_scope.
Notation "x >> n" := (Z.shiftr x n) (at level 38, left associativity) : cint_scope.

(** Bitwise negation of a [w]-bit value. *)
Definition lnot_w (w x : Z) : Z := Z.ones w - wrap w x.

Create HintDb kernel.
Create Rewrite HintDb kernel_rw.

(** *** Widths and masks *)

Lemma wrap_width w x : 0 <= w -> is_width w (wrap w x).
Proof. intros H. unfold is_width, wrap. apply Z.mod_pos_bound. lia. Qed.

Lemma wrap_id w x : is_width w x -> wrap w x = x.
Proof. intros H. unfold is_width, wrap in *. by apply Z.mod_small. Qed.

Lemma wrap_ones w x : 0 <= w -> Z.land x (Z.ones w) = wrap w x.
Proof. intros H. unfold wrap. by apply Z.land_ones. Qed.

Lemma u32_id x : 0 <= x < 2 ^ 32 -> u32 x = x.
Proof. apply wrap_id. Qed.
Lemma u64_id x : 0 <= x < 2 ^ 64 -> u64 x = x.
Proof. apply wrap_id. Qed.
Lemma u32_range x : 0 <= u32 x < 2 ^ 32.
Proof. by apply (wrap_width 32). Qed.
Lemma u64_range x : 0 <= u64 x < 2 ^ 64.
Proof. by apply (wrap_width 64). Qed.
Lemma u8_range x : 0 <= u8 x < 2 ^ 8.
Proof. by apply (wrap_width 8). Qed.

#[export] Hint Resolve u32_range u64_range u8_range wrap_width : kernel.

(** Truncating to [w] bits first does not matter to a mask of at most [w] bits. *)
Lemma wrap_wrap_le w v x : 0 <= v <= w -> wrap v (wrap w x) = wrap v x.
Proof.
  intros H. unfold wrap. rewrite (Z.mod_eq x (2 ^ w)) by (apply Z.pow_nonzero; lia).
  replace w with (v + (w - v)) by lia. rewrite Z.pow_add_r by lia.
  rewrite <- Z.mul_assoc. set (q := 2 ^ (w - v) * _). replace (x - 2 ^ v * q) with (x + (- q) * 2 ^ v) by lia.
  apply Z.mod_add. apply Z.pow_nonzero; lia.
Qed.

(** *** Single bits *)

Lemma land_pow2 x n : 0 <= n -> Z.land x (2 ^ n) = if Z.testbit x n then 2 ^ n else 0.
Proof.
  intros Hn. apply Z.bits_inj'. intros i Hi. rewrite Z.land_spec, Z.pow2_bits_eqb by lia.
  destruct (Z.eqb_spec n i) as [-> | Hne].
  - rewrite andb_true_r. destruct (Z.testbit x i) eqn:E0; [| by rewrite Z.bits_0].
    by rewrite Z.pow2_bits_true.
  - rewrite andb_false_r. destruct (Z.testbit x n); [| by rewrite Z.bits_0]. by rewrite Z.pow2_bits_false.
Qed.

Lemma lnot_testbit w x i : 0 <= i < w -> Z.testbit (lnot_w w x) i = negb (Z.testbit x i).
Proof.
  intros H. unfold lnot_w. pose proof (wrap_width w x ltac:(lia)) as [H1 H2].
  replace (Z.ones w - wrap w x) with (Z.ldiff (Z.ones w) (wrap w x)).
  - rewrite Z.ldiff_spec, Z.ones_spec_low by lia. simpl. unfold wrap. rewrite Z.mod_pow2_bits_low; [done | lia].
  - symmetry. apply Z.sub_nocarry_ldiff. apply Z.bits_inj'. intros j Hj.
    rewrite Z.ldiff_spec, Z.bits_0. destruct (Z.ltb_spec j w).
    + rewrite Z.ones_spec_low by lia. by rewrite andb_false_r.
    + unfold wrap. rewrite Z.mod_pow2_bits_high; [done | lia].
Qed.

(** A [w]-bit value has no bits from [w] on. *)
Lemma word_high w x i : 0 <= x < 2 ^ w -> w <= i -> Z.testbit x i = false.
Proof.
  intros [H1 H2] Hi. destruct (decide (x = 0)) as [-> | Hx]; [apply Z.bits_0|].
  apply Z.bits_above_log2; [done|]. apply Z.lt_le_trans with w; [| done]. apply Z.log2_lt_pow2; lia.
Qed.

Lemma width_of_bits w x : 0 <= w -> (forall i, w <= i -> Z.testbit x i = false) -> 0 <= x < 2 ^ w.
Proof.
  intros Hw H. assert (x = wrap w x) as ->; [| by apply wrap_width].
  apply Z.bits_inj'. intros i Hi. unfold wrap. destruct (Z.ltb_spec i w).
  - by rewrite Z.mod_pow2_bits_low by lia.
  - rewrite Z.mod_pow2_bits_high by lia. by apply H.
Qed.

(** Bits below [n] next to a value shifted up by [n]. *)
Lemma lor_shiftl_add a b n : 0 <= n -> 0 <= b < 2 ^ n -> Z.lor (Z.shiftl a n) b = a * 2 ^ n + b.
Proof.
  intros Hn Hb. rewrite <- Z.shiftl_mul_pow2 by done. rewrite Z.add_nocarry_lxor.
  - symmetry. apply Z.lxor_lor. apply Z.bits_inj'. intros i Hi. rewrite Z.land_spec, Z.bits_0.
    destruct (Z.ltb_spec i n).
    + rewrite Z.shiftl_spec, Z.testbit_neg_r by lia. done.
    + rewrite <- (Z.mod_small b (2 ^ n)), Z.mod_pow2_bits_high by lia. by rewrite andb_false_r.
  - apply Z.bits_inj'. intros i Hi. rewrite Z.land_spec, Z.bits_0. destruct (Z.ltb_spec i n).
    + rewrite Z.shiftl_spec, Z.testbit_neg_r by lia. done.
    + rewrite <- (Z.mod_small b (2 ^ n)), Z.mod_pow2_bits_high by lia. by rewrite andb_false_r.
Qed.

Lemma land_255 x : Z.land x 255 = x mod 256.
Proof. change 255 with (Z.ones 8). by rewrite Z.land_ones. Qed.

(** [x & -(1<<m)] rounds [x] down. *)
Lemma land_round_down x m : 0 <= x < 2 ^ 64 -> 0 <= m < 64 -> Z.land x (u64 (- 2 ^ m)) = x / 2 ^ m * 2 ^ m.
Proof.
  intros Hx Hm. assert (Hp : 0 < 2 ^ m < 2 ^ 64) by (split; [lia | apply Z.pow_lt_mono_r; lia]).
  assert (u64 (- 2 ^ m) = Z.shiftl (Z.ones (64 - m)) m) as ->.
  { unfold u64, wrap. rewrite <- (Z.mod_add _ 1), Z.mod_small by lia. rewrite Z.shiftl_mul_pow2, Z.ones_equiv by lia.
    replace (2 ^ 64) with (2 ^ (64 - m) * 2 ^ m) by (rewrite <- Z.pow_add_r by lia; f_equal; lia). lia. }
  rewrite <- Z.shiftl_mul_pow2, <- Z.shiftr_div_pow2 by lia. apply Z.bits_inj'. intros i Hi.
  rewrite Z.land_spec, !Z.shiftl_spec by lia. destruct (Z.ltb_spec i m).
  - rewrite !(Z.testbit_neg_r _ (i - m)) by lia. by rewrite andb_false_r.
  - rewrite Z.shiftr_spec by lia. replace (i - m + m) with i by lia. destruct (Z.ltb_spec i 64).
    + rewrite Z.ones_spec_low by lia. by rewrite andb_true_r.
    + rewrite (word_high 64 x i) by lia. done.
Qed.

(** [(x+2^m-1) & -(2^m)] rounds [x] up. *)
Definition round_up (m x : Z) : Z := (x + 2 ^ m - 1) / 2 ^ m * 2 ^ m.

Lemma round_up_spec m x : 0 <= m -> round_up m x mod 2 ^ m = 0 /\ x <= round_up m x < x + 2 ^ m.
Proof.
  intros Hm. assert (0 < 2 ^ m) by lia. unfold round_up. split; [by apply Z.mod_mul; lia|].
  pose proof (Z.div_mod (x + 2 ^ m - 1) (2 ^ m)). pose proof (Z.mod_pos_bound (x + 2 ^ m - 1) (2 ^ m)). lia.
Qed.

(** *** Lists *)

(** [__builtin_ctzll] of a non-zero word; [__builtin_ffsll x] is [ctz x + 1]. *)
Fixpoint pos_ctz (p : positive) : Z := match p with xO p => pos_ctz p + 1 | _ => 0 end.
Definition ctz (x : Z) : Z := match x with Zpos p | Zneg p => pos_ctz p | Z0 => 0 end.

Lemma ctz_spec x : 0 < x -> 0 <= ctz x /\ Z.testbit x (ctz x) = true /\ forall i, i < ctz x -> Z.testbit x i = false.
Proof.
  destruct x as [| p |]; try lia. intros _. simpl ctz. induction p as [p _ | p IH |]; simpl pos_ctz.
  - split_and!; [lia | done |]. intros i Hi. by apply Z.testbit_neg_r.
  - destruct IH as (H1 & H2 & H3). rewrite Pos2Z.inj_xO. split_and!; [lia | |].
    + by rewrite Z.add_1_r, Z.double_bits_succ.
    + intros i Hi. destruct (Z.ltb_spec i 1).
      * destruct (Z.eqb_spec i 0) as [-> | ?]; [done | by apply Z.testbit_neg_r; lia].
      * replace i with (Z.succ (i - 1)) by lia. rewrite Z.double_bits_succ. apply H3. lia.
  - split_and!; [lia | done |]. intros i Hi. by apply Z.testbit_neg_r.
Qed.

(** The bits of [x - 1]: those below the lowest set bit of [x] are set instead of it. *)
Lemma pred_testbit x i : 0 < x -> 0 <= i -> Z.testbit (x - 1) i = if i <? ctz x then true else if i =? ctz x then false else Z.testbit x i.
Proof.
  intros Hx Hi. destruct (ctz_spec x Hx) as (H0 & H1 & H2). set (c := ctz x) in *.
  assert (Hd : x = (2 * (x / 2 ^ (c + 1)) + 1) * 2 ^ c).
  { apply Z.bits_inj'. intros k Hk. rewrite Z.mul_pow2_bits by done. destruct (Z.ltb_spec k c).
    - rewrite H2 by done. by rewrite Z.testbit_neg_r by lia.
    - destruct (Z.eqb_spec k c) as [-> |]; [rewrite Z.sub_diag, H1; by rewrite Z.testbit_odd_0|].
      replace (k - c) with (Z.succ (k - c - 1)) by lia. rewrite Z.testbit_odd_succ by lia. rewrite Z.div_pow2_bits by lia. f_equal. lia. }
  set (q := x / 2 ^ (c + 1)) in *. assert (Hx1 : x - 1 = (2 * q) * 2 ^ c + Z.ones c) by (rewrite Z.ones_equiv; lia).
  rewrite Hx1, <- lor_shiftl_add, Z.lor_spec by (try rewrite Z.ones_equiv; lia). destruct (Z.ltb_spec i c).
  - by rewrite Z.ones_spec_low, orb_true_r by lia.
  - rewrite Z.shiftl_spec, Z.ones_spec_high, orb_false_r by lia. destruct (Z.eqb_spec i c) as [-> |]; [by rewrite Z.sub_diag, Z.testbit_even_0|].
    rewrite Hd, Z.mul_pow2_bits by lia. replace (i - c) with (Z.succ (i - c - 1)) by lia. by rewrite Z.testbit_even_succ, Z.testbit_odd_succ by lia.
Qed.

(** Clearing the lowest set bit. *)
Lemma clear_lowest x : 0 < x < 2 ^ 64 -> 0 <= Z.land x (u64 (x - 1)) < 2 ^ 64 /\
  forall i, 0 <= i -> Z.testbit (Z.land x (u64 (x - 1))) i = Z.testbit x i && negb (i =? ctz x).
Proof.
  intros Hx. rewrite u64_id by lia. assert (Hbits : forall i, 0 <= i -> Z.testbit (Z.land x (x - 1)) i = Z.testbit x i && negb (i =? ctz x)).
  { intros i Hi. rewrite Z.land_spec, pred_testbit by lia. destruct (ctz_spec x ltac:(lia)) as (H0 & _ & H2). destruct (Z.ltb_spec i (ctz x)).
    - by rewrite H2 by done.
    - destruct (Z.eqb_spec i (ctz x)); [done|]. by destruct (Z.testbit x i). }
  split; [| done]. apply width_of_bits; [lia|]. intros i Hi. rewrite Hbits, (word_high 64 x) by lia. done.
Qed.

(** Distinct keys of a map are at most as many as the map has. *)
Lemma nodup_size {A} (T : gmap Z A) (l : list Z) : NoDup l -> (forall m, m ∈ l -> is_Some (T !! m)) -> (length l <= size T)%nat.
Proof.
  intros Hn Hin. rewrite <- (size_list_to_set (C := gset Z) l Hn), <- (size_dom T). apply subseteq_size. intros m Hm%elem_of_list_to_set. apply elem_of_dom. by apply Hin.
Qed.

Lemma lookup_map {A B} (f : A -> B) (l : list A) i : map f l !! i = f <$> l !! i.
Proof. apply list_lookup_fmap. Qed.

(** *** Folds *)

(** Two folds agree when their steps agree under an invariant. *)
Lemma foldl_ext_inv {A B} (P : A -> Prop) (f g : A -> B -> A) (l : list B) (a : A) :
  (forall x b, P x -> f x b = g x b /\ P (g x b)) -> P a ->
  foldl f a l = foldl g a l /\ P (foldl g a l).
Proof.
  intros Hfg. revert a. induction l as [| b l IH]; intros a Ha; simpl; [done|].
  destruct (Hfg a b Ha) as [-> H']. auto.
Qed.

Lemma foldl_seq_groups {A} (f : A -> nat -> A) (m n : nat) (a : A) :
  foldl f a (seq 0 (m * n)) = foldl (fun a k => foldl (fun a i => f a (m * k + i)%nat) a (seq 0 m)) a (seq 0 n).
Proof.
  induction n as [| n IH]; [by rewrite Nat.mul_0_r|].
  replace (m * S n)%nat with (m * n + m)%nat by lia. rewrite seq_app, foldl_app, IH.
  rewrite seq_S, foldl_app. simpl. rewrite <- (Nat.add_0_r (m * n)) at 1.
  rewrite <- fmap_add_seq. by rewrite foldl_fmap.
Qed.

(** ** Memory regions as functions from offsets to bytes (or words) *)

Definition mem := Z -> Z.

(** The [n] cells from offset [off] on. *)
Definition mem_read (b : mem) (off n : Z) : list Z := (fun i => b (off + i)) <$> seqZ 0 n.

(** [b] with the cells from [off] on overwritten by [l]. *)
Definition mem_write (b : mem) (off : Z) (l : list Z) : mem :=
  fun i => if (off <=? i) && (i <? off + Z.of_nat (length l)) then nth (Z.to_nat (i - off)) l 0 else b i.

Lemma length_mem_read b off n : length (mem_read b off n) = Z.to_nat n.
Proof. unfold mem_read. by rewrite length_fmap, length_seqZ. Qed.

Lemma lookup_mem_read b off n i :
  mem_read b off n !! i = if Z.of_nat i <? n then Some (b (off + Z.of_nat i)) else None.
Proof.
  unfold mem_read. rewrite list_lookup_fmap. destruct (Z.ltb_spec (Z.of_nat i) n).
  - by rewrite lookup_seqZ_lt.
  - by rewrite lookup_seqZ_ge.
Qed.

Lemma mem_read_ext b b' off off' n :
  (forall i, 0 <= i < n -> b (off + i) = b' (off' + i)) -> mem_read b off n = mem_read b' off' n.
Proof.
  intros H. apply list_eq. intros i. rewrite !lookup_mem_read.
  destruct (Z.ltb_spec (Z.of_nat i) n); [rewrite H by lia|]; done.
Qed.

Lemma mem_read_add b off n m : 0 <= n -> 0 <= m ->
  mem_read b off (n + m) = mem_read b off n ++ mem_read b (off + n) m.
Proof.
  intros Hn Hm. apply list_eq. intros i. rewrite lookup_app, !lookup_mem_read, length_mem_read.
  destruct (Z.ltb_spec (Z.of_nat i) n), (Z.ltb_spec (Z.of_nat i) (n + m)); try done; try lia.
  - destruct (Z.ltb_spec (Z.of_nat (i - Z.to_nat n)) m); [do 2 f_equal; lia | lia].
  - destruct (Z.ltb_spec (Z.of_nat (i - Z.to_nat n)) m); [lia | done].
Qed.

Lemma mem_write_in b off l i x : l !! i = Some x -> mem_write b off l (off + Z.of_nat i) = x.
Proof.
  intros H. pose proof (lookup_lt_Some _ _ _ H). unfold mem_write.
  destruct (Z.leb_spec off (off + Z.of_nat i)), (Z.ltb_spec (off + Z.of_nat i) (off + Z.of_nat (length l)));
    simpl; try lia.
  replace (Z.to_nat (off + Z.of_nat i - off)) with i by lia. by apply nth_lookup_Some.
Qed.

Lemma mem_read_write b off l : mem_read (mem_write b off l) off (Z.of_nat (length l)) = l.
Proof.
  apply list_eq. intros i. rewrite lookup_mem_read. destruct (l !! i) as [x|] eqn:Hi.
  - rewrite (mem_write_in _ _ _ _ _ Hi). apply lookup_lt_Some in Hi.
    destruct (Z.ltb_spec (Z.of_nat i) (Z.of_nat (length l))); [done | lia].
  - apply lookup_ge_None in Hi. destruct (Z.ltb_spec (Z.of_nat i) (Z.of_nat (length l))); [lia | done].
Qed.

Lemma mem_write_out b off l i : i < off \/ off + Z.of_nat (length l) <= i -> mem_write b off l i = b i.
Proof.
  intros H. unfold mem_write. destruct (Z.leb_spec off i), (Z.ltb_spec i (off + Z.of_nat (length l))); simpl; try done; lia.
Qed.



(** Copying [m] cells from offset [a] of [src] to offset [off] of [b]. *)
Lemma mem_write_read b off src a m i : 0 <= m ->
  mem_write b off (mem_read src a m) i =
  if (off <=? i) && (i <? off + m) then src (a + (i - off)) else b i.
Proof.
  intros Hm. destruct ((off <=? i) && (i <? off + m)) eqn:E0.
  - apply andb_true_iff in E0 as [H1%Z.leb_le H2%Z.ltb_lt].
    replace i with (off + Z.of_nat (Z.to_nat (i - off))) at 1 by lia. apply mem_write_in.
    rewrite lookup_mem_read. destruct (Z.ltb_spec (Z.of_nat (Z.to_nat (i - off))) m); [do 2 f_equal; lia | lia].
  - apply mem_write_out. rewrite length_mem_read.
    apply andb_false_iff in E0 as [H1%Z.leb_gt | H2%Z.ltb_ge]; lia.
Qed.

(** ** Tactics *)

(** Decide the head [if] on an integer comparison. *)
Ltac zcase :=
  match goal with
  | |- context [?a =? ?b] => destruct (Z.eqb_spec a b)
  | |- context [?a <? ?b] => destruct (Z.ltb_spec a b)
  | |- context [?a <=? ?b] => destruct (Z.leb_spec a b)
  end.

Ltac zcases := repeat (zcase; simpl; try lia).
