(* ===== verification/RbTree.v ===== *)
(** * The intrusive red-black tree ([src/src/kernel/tree/rb_tree.c]).

    The C nodes live in memory and are linked by pointers; the parent pointer
    and the colour share one word.  The operations are translated statement by
    statement over an explicit memory: a read or a write through a pointer that
    is not a node yields [None] (the C code would fault), and a loop takes fuel
    (the number of nodes in memory plus one bounds every walk along a path).
    The tree lock ([rwlock_*]) is not part of this model: every operation holds
    it from its first access to its last. *)
From S2P Require Import Prelude.
From stdpp Require Import base tactics list numbers gmap.
From Stdlib Require Import ZArith Lia.
#[local] Open Scope Z_scope.

(** ** Data *)

Record rb_tree_node_t := mk_rb_node {
  key : Z;
  rb_parent_and_color : Z;
  rb_left : Z;
  rb_right : Z
}.

(** The memory that holds the nodes together with [tree->root]. *)
Record rb_tree_t := mk_rb_tree { nodes : gmap Z rb_tree_node_t; root : Z }.

(** [x->rb_nodes[dir]] *)
Definition rb_nodes (n : rb_tree_node_t) (dir : bool) : Z :=
  if dir then rb_right n else rb_left n.

Definition load (s : rb_tree_t) (x : Z) : option rb_tree_node_t := nodes s !! x.

Definition store (s : rb_tree_t) (x : Z) (n : rb_tree_node_t) : rb_tree_t :=
  mk_rb_tree (<[x := n]> (nodes s)) (root s).

Definition set_root (s : rb_tree_t) (x : Z) : rb_tree_t := mk_rb_tree (nodes s) x.

Definition child (s : rb_tree_t) (x : Z) (dir : bool) : option Z :=
  n ← load s x; Some (rb_nodes n dir).

Definition set_child (s : rb_tree_t) (x : Z) (dir : bool) (c : Z) : option rb_tree_t :=
  n ← load s x;
  Some (store s x (if dir then mk_rb_node (key n) (rb_parent_and_color n) (rb_left n) c
                   else mk_rb_node (key n) (rb_parent_and_color n) c (rb_right n))).

Definition get_key (s : rb_tree_t) (x : Z) : option Z := n ← load s x; Some (key n).

Definition PARENT_MASK : Z := 0xfffffffffffffffe.

Definition _get_parent (s : rb_tree_t) (x : Z) : option Z :=
  n ← load s x; Some (Z.land (rb_parent_and_color n) PARENT_MASK).

Definition _set_parent (s : rb_tree_t) (x parent : Z) : option rb_tree_t :=
  n ← load s x;
  Some (store s x (mk_rb_node (key n) (Z.lor parent (Z.land (rb_parent_and_color n) 1))
                              (rb_left n) (rb_right n))).

Definition _get_color (s : rb_tree_t) (x : Z) : option bool :=
  n ← load s x; Some (z2b (Z.land (rb_parent_and_color n) 1)).

Definition _set_color (s : rb_tree_t) (x : Z) (color : bool) : option rb_tree_t :=
  n ← load s x;
  Some (store s x (mk_rb_node (key n)
                     (Z.lor (Z.land (rb_parent_and_color n) PARENT_MASK) (b2z color))
                     (rb_left n) (rb_right n))).

(** [if (y) y->rb_nodes[x==y->rb_right]=z; else tree->root=z;] *)
Definition replace_child (s : rb_tree_t) (y x z : Z) : option rb_tree_t :=
  if y =? 0 then Some (set_root s z)
  else yr ← child s y true; set_child s y (x =? yr) z.

Definition _rotate_subtree (s : rb_tree_t) (x : Z) (dir : bool) : option rb_tree_t :=
  y ← _get_parent s x;
  z ← child s x (negb dir);
  zd ← child s z dir;
  s ← set_child s x (negb dir) zd;
  zd ← child s z dir;
  s ← (if zd =? 0 then Some s else _set_parent s zd x);
  s ← set_child s z dir x;
  s ← _set_parent s x z;
  s ← _set_parent s z y;
  replace_child s y x z.

Definition rb_tree_init (s : rb_tree_t) : rb_tree_t := set_root s 0.

(** Every walk of the tree visits a node at most once, so this much fuel is
    never exhausted on a well-formed tree (proved below). *)
Definition fuel (s : rb_tree_t) : nat := S (size (nodes s)).

(** *** Insertion *)

(** [while (y->rb_nodes[y->key<x->key])]: [None] faults, [Some (inl tt)] is the
    early return on a duplicate key, [Some (inr y)] the node to attach below. *)
Fixpoint insert_descend (f : nat) (s : rb_tree_t) (kx y : Z) : option (unit + Z) :=
  match f with
  | O => None
  | S f =>
      ny ← load s y;
      let c := rb_nodes ny (key ny <? kx) in
      if c =? 0 then Some (if kx =? key ny then inl tt else inr y)
      else if kx =? key ny then Some (inl tt)
      else insert_descend f s kx c
  end.

(** [while (y&&_get_color(y))] *)
Fixpoint insert_fixup (f : nat) (s : rb_tree_t) (x y : Z) : option rb_tree_t :=
  match f with
  | O => None
  | S f =>
      if y =? 0 then Some s
      else
        cy ← _get_color s y;
        if negb cy then Some s
        else
          z ← _get_parent s y;
          if z =? 0 then _set_color s y false
          else
            zr ← child s z true;
            let dir := y =? zr in
            w ← child s z (negb dir);
            cw ← (if w =? 0 then Some false else _get_color s w);
            if negb cw then
              yd ← child s y (negb dir);
              sy ← (if x =? yd then
                      s ← _rotate_subtree s y dir;
                      y ← child s z dir;
                      Some (s, y)
                    else Some (s, y));
              let (s, y) := (sy : rb_tree_t * Z) in
              s ← _rotate_subtree s z (negb dir);
              s ← _set_color s y false;
              _set_color s z true
            else
              s ← _set_color s y false;
              s ← _set_color s z true;
              s ← _set_color s w false;
              y ← _get_parent s z;
              insert_fixup f s z y
  end.

(** Returns the new state and the returned pointer: [0] when [x] was linked in,
    [x] itself when its key is already present. *)
Definition rb_tree_lookup_or_insert_node (s : rb_tree_t) (x : Z) : option (rb_tree_t * Z) :=
  nx ← load s x;
  let s := store s x (mk_rb_node (key nx) (rb_parent_and_color nx) 0 0) in
  if root s =? 0 then
    Some (set_root (store s x (mk_rb_node (key nx) 0 0 0)) x, 0)
  else
    let s := store s x (mk_rb_node (key nx) 1 0 0) in
    r ← insert_descend (fuel s) s (key nx) (root s);
    match (r : unit + Z) with
    | inl _ => Some (s, x)
    | inr y =>
        s ← _set_parent s x y;
        ky ← get_key s y;
        s ← set_child s y (ky <? key nx) x;
        s ← insert_fixup (fuel s) s x y;
        Some (s, 0)
    end.

(** [panic] on a duplicate key is [None]. *)
Definition rb_tree_insert_node (s : rb_tree_t) (x : Z) : option rb_tree_t :=
  r ← rb_tree_lookup_or_insert_node s x;
  let (s, d) := (r : rb_tree_t * Z) in
  if d =? 0 then Some s else None.

(** *** Searches *)

Fixpoint lookup_loop (f : nat) (s : rb_tree_t) (k x : Z) : option Z :=
  match f with
  | O => None
  | S f =>
      if x =? 0 then Some 0
      else
        n ← load s x;
        if key n =? k then Some x else lookup_loop f s k (rb_nodes n (key n <? k))
  end.

Definition rb_tree_lookup_node (s : rb_tree_t) (k : Z) : option Z :=
  lookup_loop (fuel s) s k (root s).

(** [for (;x->rb_nodes[dir];x=x->rb_nodes[dir]);] *)
Fixpoint walk_down (f : nat) (s : rb_tree_t) (dir : bool) (x : Z) : option Z :=
  match f with
  | O => None
  | S f =>
      c ← child s x dir;
      if c =? 0 then Some x else walk_down f s dir c
  end.

(** [do{ y=x; x=_get_parent(x); } while (x&&y==x->rb_nodes[dir]);] *)
Fixpoint walk_up (f : nat) (s : rb_tree_t) (dir : bool) (x : Z) : option Z :=
  match f with
  | O => None
  | S f =>
      p ← _get_parent s x;
      if p =? 0 then Some 0
      else
        c ← child s p dir;
        if x =? c then walk_up f s dir p else Some p
  end.

(** The loop of [rb_tree_lookup_decreasing_node] ([inc = false]) and of
    [rb_tree_lookup_increasing_node] ([inc = true]). *)
Fixpoint nearest_loop (f : nat) (s : rb_tree_t) (inc : bool) (k x : Z) : option Z :=
  match f with
  | O => None
  | S f' =>
      if x =? 0 then Some 0
      else
        n ← load s x;
        if key n =? k then Some x
        else
          let y := rb_nodes n (key n <? k) in
          if negb (y =? 0) then nearest_loop f' s inc k y
          else if (if inc then k <? key n else key n <? k) then Some x
          else if negb (rb_nodes n inc =? 0)
               then walk_down (fuel s) s (negb inc) (rb_nodes n inc)
               else walk_up (fuel s) s inc x
  end.

Definition rb_tree_lookup_decreasing_node (s : rb_tree_t) (k : Z) : option Z :=
  nearest_loop (fuel s) s false k (root s).

Definition rb_tree_lookup_increasing_node (s : rb_tree_t) (k : Z) : option Z :=
  nearest_loop (fuel s) s true k (root s).

Definition rb_tree_iter_start (s : rb_tree_t) : option Z :=
  if root s =? 0 then Some 0 else walk_down (fuel s) s false (root s).

Definition rb_tree_iter_next (s : rb_tree_t) (x : Z) : option Z :=
  r ← child s x true;
  if negb (r =? 0) then walk_down (fuel s) s false r
  else walk_up (fuel s) s true x.

(** *** Removal *)

(** [if (z==x->rb_right){...} else{...}]: hang [x] where [z] was, below [z] itself
    when [z] is the right child of [x]. *)
Definition remove_swap_link (s : rb_tree_t) (x z : Z) : option rb_tree_t :=
  xr ← child s x true;
  if z =? xr then
    zr ← child s z true;
    s ← set_child s x true zr;
    s ← set_child s z true x;
    _set_parent s x z
  else
    zr ← child s z true;
    s ← set_child s x true zr;
    s ← set_child s z true xr;
    zr ← child s z true;
    s ← _set_parent s zr z;
    w ← _get_parent s z;
    wr ← child s w true;
    s ← set_child s w (z =? wr) x;
    _set_parent s x w.

(** The block that moves [x] to the place of its in-order successor [z]. *)
Definition remove_swap (s : rb_tree_t) (x y : Z) : option rb_tree_t :=
  z ← child s x true;
  z ← walk_down (fuel s) s false z;
  s ← replace_child s y x z;
  xl ← child s x false;
  s ← set_child s z false xl;
  s ← set_child s x false 0;
  zl ← child s z false;
  s ← _set_parent s zl z;
  s ← remove_swap_link s x z;
  xr ← child s x true;
  s ← (if negb (xr =? 0) then _set_parent s xr x else Some s);
  s ← _set_parent s z y;
  tmp ← _get_color s z;
  cx ← _get_color s x;
  s ← _set_color s z cx;
  _set_color s x tmp.

(** [u&&_get_color(u)] *)
Definition is_red_ptr (s : rb_tree_t) (u : Z) : option bool :=
  if u =? 0 then Some false else _get_color s u.

(** The two rotations and the recolouring below a black sibling [z] of the short
    side: [true] when the short subtree is now that of [y] and the loop goes on. *)
Definition remove_rebalance (s : rb_tree_t) (y : Z) (dir : bool) (z u v : Z) :
    option (rb_tree_t * bool) :=
  cu ← is_red_ptr s u;
  if (cu : bool) then
    s ← _rotate_subtree s y dir;
    cy ← _get_color s y;
    s ← _set_color s z cy;
    s ← _set_color s y false;
    s ← _set_color s u false;
    Some (s, false)
  else
    cv ← is_red_ptr s v;
    if (cv : bool) then
      s ← _rotate_subtree s z (negb dir);
      s ← _rotate_subtree s y dir;
      cy ← _get_color s y;
      s ← _set_color s v cy;
      s ← _set_color s y false;
      s ← _set_color s z false;
      Some (s, false)
    else
      s ← _set_color s z true;
      cy ← _get_color s y;
      if (cy : bool) then s ← _set_color s y false; Some (s, false)
      else Some (s, true).

(** [while (1)]: the subtree of [y] at side [dir] is one black node short. *)
Fixpoint remove_fixup (f : nat) (s : rb_tree_t) (y : Z) (dir : bool) : option rb_tree_t :=
  match f with
  | O => None
  | S f =>
      z ← child s y (negb dir);
      u ← child s z (negb dir);
      v ← child s z dir;
      cz ← _get_color s z;
      szuv ← (if (cz : bool) then
                s ← _rotate_subtree s y dir;
                s ← _set_color s y true;
                s ← _set_color s z false;
                u ← child s v (negb dir);
                v' ← child s v dir;
                Some (s, v, u, v')
              else Some (s, z, u, v));
      let '(s, z, u, v) := (szuv : rb_tree_t * Z * Z * Z) in
      r ← remove_rebalance s y dir z u v;
      let (s, up) := (r : rb_tree_t * bool) in
      if up then
        p ← _get_parent s y;
        if p =? 0 then Some s
        else
          pr ← child s p true;
          remove_fixup f s p (y =? pr)
      else Some s
  end.

Definition rb_tree_remove_node (s : rb_tree_t) (x : Z) : option rb_tree_t :=
  y ← _get_parent s x;
  xl ← child s x false;
  xr ← child s x true;
  sy ← (if negb (xl =? 0) && negb (xr =? 0) then
          s ← remove_swap s x y;
          y ← _get_parent s x;
          Some (s, y)
        else Some (s, y));
  let (s, y) := (sy : rb_tree_t * Z) in
  xl ← child s x false;
  xr ← child s x true;
  if negb (xl =? 0) || negb (xr =? 0) then
    let z := if negb (xl =? 0) then xl else xr in
    s ← replace_child s y x z;
    s ← _set_color s z false;
    _set_parent s z y
  else if x =? root s then Some (set_root s 0)
  else
    yr ← child s y true;
    let dir := x =? yr in
    s ← set_child s y dir 0;
    cx ← _get_color s x;
    if (cx : bool) then Some s else remove_fixup (fuel s) s y dir.

#[global] Arguments insert_descend : simpl never.
#[global] Arguments insert_fixup : simpl never.
#[global] Arguments lookup_loop : simpl never.
#[global] Arguments walk_down : simpl never.
#[global] Arguments walk_up : simpl never.
#[global] Arguments nearest_loop : simpl never.
#[global] Arguments remove_fixup : simpl never.
