(* ===== verification/RbTreeRep.v ===== *)
(** * The red-black tree in memory: abstract trees, the representation
    predicate, and the effect of each pointer primitive on it. *)
From S2P Require Import Prelude RbTree.
From stdpp Require Import base tactics list numbers gmap sorting.
From Stdlib Require Import ZArith Lia.
#[local] Open Scope Z_scope.

(** ** Abstract trees and their representation in memory *)

(** [T c l p k r]: the node at address [p] with key [k]; [c] is true for red. *)
Inductive tree :=
| E
| T (c : bool) (l : tree) (p k : Z) (r : tree).

#[export] Instance tree_eq_dec : EqDecision tree.
Proof. solve_decision. Defined.

(** One level of the path from a subtree up to the root: the node it hangs
    from, on which side ([d = true]: right), and the other subtree. *)
Inductive frame := Fr (d c : bool) (p k : Z) (sib : tree).

(** A node with subtree [a] at side [d] and [b] at the other side. *)
Definition N (d c : bool) (p k : Z) (a b : tree) : tree :=
  if d then T c b p k a else T c a p k b.

Definition plug1 (f : frame) (t : tree) : tree :=
  match f with Fr d c p k sib => N d c p k t sib end.

Fixpoint plug (cx : list frame) (t : tree) : tree :=
  match cx with
  | [] => t
  | f :: cx => plug cx (plug1 f t)
  end.

Definition addr (t : tree) : Z := match t with E => 0 | T _ _ p _ _ => p end.

Definition top (cx : list frame) : Z :=
  match cx with [] => 0 | Fr _ _ p _ _ :: _ => p end.

Fixpoint addrs (t : tree) : list Z :=
  match t with E => [] | T _ l p _ r => addrs l ++ p :: addrs r end.

Fixpoint caddrs (cx : list frame) : list Z :=
  match cx with [] => [] | Fr _ _ p _ sib :: cx => p :: addrs sib ++ caddrs cx end.

(** Keys with their nodes, in key order. *)
Fixpoint inorder (t : tree) : list (Z * Z) :=
  match t with E => [] | T _ l p k r => inorder l ++ (k, p) :: inorder r end.

Definition pack (parent : Z) (c : bool) : Z := Z.lor parent (b2z c).

(** Node addresses are non-null, 64 bits wide and leave the colour bit free. *)
Definition aligned (p : Z) : Prop := 0 < p < 2 ^ 64 /\ Z.testbit p 0 = false.

Definition node_of (parent : Z) (c : bool) (l : tree) (k : Z) (r : tree) : rb_tree_node_t :=
  mk_rb_node k (pack parent c) (addr l) (addr r).

Fixpoint tree_at (h : gmap Z rb_tree_node_t) (parent : Z) (t : tree) : Prop :=
  match t with
  | E => True
  | T c l p k r =>
      h !! p = Some (node_of parent c l k r) /\ tree_at h p l /\ tree_at h p r
  end.

(** The frames of a context are in memory, with [a] at the hole. *)
Fixpoint ctx_at (h : gmap Z rb_tree_node_t) (rt a : Z) (cx : list frame) : Prop :=
  match cx with
  | [] => rt = a
  | Fr d c p k sib :: cx =>
      h !! p = Some (mk_rb_node k (pack (top cx) c)
                       (if d then addr sib else a) (if d then a else addr sib))
      /\ tree_at h p sib /\ ctx_at h rt p cx
  end.

(** The state holds the tree [plug cx t]. *)
Definition repz (s : rb_tree_t) (cx : list frame) (t : tree) : Prop :=
  ctx_at (nodes s) (root s) (addr t) cx /\ tree_at (nodes s) (top cx) t
  /\ NoDup (addrs t ++ caddrs cx) /\ Forall aligned (addrs t ++ caddrs cx).

Definition rep (s : rb_tree_t) (t : tree) : Prop := repz s [] t.

(** *** Words holding a parent and a colour *)

Lemma aligned_pack_parent p c : (p = 0 \/ aligned p) -> Z.land (pack p c) PARENT_MASK = p.
Proof.
  intros H. apply Z.bits_inj'. intros i Hi. unfold pack.
  rewrite Z.land_spec, Z.lor_spec.
  assert (Hm : Z.testbit PARENT_MASK i = ((1 <=? i) && (i <? 64))).
  { change PARENT_MASK with (Z.ones 64 - 1). change (Z.ones 64 - 1) with (Z.shiftl (Z.ones 63) 1).
    rewrite Z.shiftl_spec by lia. destruct (Z.leb_spec 1 i); simpl.
    - destruct (Z.ltb_spec i 64).
      + apply Z.ones_spec_low; lia.
      + apply Z.ones_spec_high; lia.
    - apply Z.testbit_neg_r; lia. }
  rewrite Hm. destruct H as [-> | [[H1 H2] H0]].
  - rewrite Z.bits_0. simpl. destruct c; simpl.
    + destruct (Z.leb_spec 1 i); simpl; [| by rewrite andb_false_r].
      rewrite (Z.bits_above_log2 1); [done | lia | simpl; lia].
    + by rewrite Z.bits_0.
  - destruct (Z.leb_spec 1 i); simpl.
    + assert (Hc : Z.testbit (b2z c) i = false).
      { destruct c; simpl; [apply Z.bits_above_log2; simpl; lia | apply Z.bits_0]. }
      rewrite Hc, orb_false_r. destruct (Z.ltb_spec i 64); simpl.
      * by rewrite andb_true_r.
      * rewrite andb_false_r. symmetry. apply Z.bits_above_log2; [lia|].
        apply Z.log2_lt_pow2; [lia|]. apply Z.lt_le_trans with (2 ^ 64); [lia|].
        apply Z.pow_le_mono_r; lia.
    + assert (i = 0) as -> by lia. by rewrite H0, andb_false_r.
Qed.

Lemma aligned_pack_color p c : (p = 0 \/ aligned p) -> Z.land (pack p c) 1 = b2z c.
Proof.
  intros H. apply Z.bits_inj'. intros i Hi. unfold pack. rewrite Z.land_spec, Z.lor_spec.
  destruct (decide (i = 0)) as [-> | Hne].
  - assert (Z.testbit p 0 = false) as -> by (destruct H as [-> | [_ H]]; done).
    by destruct c.
  - assert (Z.testbit 1 i = false) as -> by (apply Z.bits_above_log2; simpl; lia).
    rewrite andb_false_r. symmetry. destruct c; simpl;
      [apply Z.bits_above_log2; simpl; lia | apply Z.bits_0].
Qed.

(** *** Frames and footprints *)

Lemma addr_in_addrs c l p k r : p ∈ addrs (T c l p k r).
Proof. simpl. set_solver. Qed.

Lemma tree_at_frame h q n parent t :
  q ∉ addrs t -> tree_at h parent t -> tree_at (<[q := n]> h) parent t.
Proof.
  revert parent. induction t as [| c l IHl p k r IHr]; intros parent; simpl; [done|].
  intros Hq (H1 & H2 & H3). split_and!.
  - rewrite lookup_insert_ne; [done | set_solver].
  - apply IHl; [set_solver | done].
  - apply IHr; [set_solver | done].
Qed.

Lemma ctx_at_frame h rt a q n cx :
  q ∉ caddrs cx -> ctx_at h rt a cx -> ctx_at (<[q := n]> h) rt a cx.
Proof.
  revert a. induction cx as [| [d c p k sib] cx IH]; intros a; simpl; [done|].
  intros Hq (H1 & H2 & H3). split_and!.
  - rewrite lookup_insert_ne; [done | set_solver].
  - apply tree_at_frame; [set_solver | done].
  - apply IH; [set_solver | done].
Qed.

Create HintDb rbtree.
#[export] Hint Resolve tree_at_frame ctx_at_frame : rbtree.

Lemma addrs_N d c p k a b : addrs (N d c p k a b) ≡ₚ p :: addrs a ++ addrs b.
Proof. destruct d; simpl; solve_Permutation. Qed.

Lemma addr_N d c p k a b : addr (N d c p k a b) = p.
Proof. by destruct d. Qed.

Lemma tree_at_N h parent d c p k a b :
  tree_at h parent (N d c p k a b) <->
  h !! p = Some (mk_rb_node k (pack parent c) (if d then addr b else addr a) (if d then addr a else addr b))
  /\ tree_at h p a /\ tree_at h p b.
Proof. destruct d; simpl; unfold node_of; tauto. Qed.

Lemma repz_plug1 s f cx t : repz s (f :: cx) t <-> repz s cx (plug1 f t).
Proof.
  destruct f as [d c p k sib]. unfold repz. simpl.
  rewrite addr_N, tree_at_N.
  assert (Hp : addrs t ++ p :: addrs sib ++ caddrs cx ≡ₚ addrs (N d c p k t sib) ++ caddrs cx)
    by (rewrite addrs_N; solve_Permutation).
  rewrite Hp. tauto.
Qed.

Lemma repz_plug s cx t : repz s cx t <-> rep s (plug cx t).
Proof.
  revert t. induction cx as [| f cx IH]; intros t; simpl; [done|].
  by rewrite <- IH, repz_plug1.
Qed.

Lemma rep_plug s cx t : repz s cx t -> rep s (plug cx t).
Proof. apply repz_plug. Qed.

Lemma rep_unplug s cx t : rep s (plug cx t) -> repz s cx t.
Proof. apply repz_plug. Qed.

(** Addresses that occur in a well-formed state. *)
Lemma ctx_addr_aligned s cx t : repz s cx t -> top cx = 0 \/ aligned (top cx).
Proof.
  intros (_ & _ & _ & H). destruct cx as [| [d c p k sib] cx]; [by left|right]. simpl.
  rewrite Forall_app in H. destruct H as [_ H]. simpl in H. by inversion H.
Qed.

Lemma repz_node s cx c l p k r :
  repz s cx (T c l p k r) -> nodes s !! p = Some (node_of (top cx) c l k r).
Proof. intros (_ & H & _). simpl in H. tauto. Qed.

Lemma repz_nonnull s cx c l p k r : repz s cx (T c l p k r) -> p <> 0 /\ aligned p.
Proof.
  intros (_ & _ & _ & H). rewrite Forall_forall in H. specialize (H p).
  assert (aligned p) as Ha by (apply H; simpl; set_solver).
  split; [destruct Ha; lia | done].
Qed.

Lemma tree_at_agree h h' parent t :
  (forall q, q ∈ addrs t -> h' !! q = h !! q) -> tree_at h parent t -> tree_at h' parent t.
Proof.
  revert parent. induction t as [| c l IHl p k r IHr]; intros parent; simpl; [done|].
  intros Hq (H1 & H2 & H3). split_and!.
  - rewrite Hq; [done | set_solver].
  - apply IHl; [set_solver | done].
  - apply IHr; [set_solver | done].
Qed.

Lemma ctx_at_agree h h' rt a cx :
  (forall q, q ∈ caddrs cx -> h' !! q = h !! q) -> ctx_at h rt a cx -> ctx_at h' rt a cx.
Proof.
  revert a. induction cx as [| [d c p k sib] cx IH]; intros a; simpl; [done|].
  intros Hq (H1 & H2 & H3). split_and!.
  - rewrite Hq; [done | set_solver].
  - eapply tree_at_agree; [| done]. set_solver.
  - apply IH; [set_solver | done].
Qed.

(** ** Reads at the focus *)

Section Reads.
Context (s : rb_tree_t) (cx : list frame) (c : bool) (l : tree) (p k : Z) (r : tree).
Hypothesis Hrep : repz s cx (T c l p k r).

Lemma read_parent : _get_parent s p = Some (top cx).
Proof.
  unfold _get_parent, load. rewrite (repz_node _ _ _ _ _ _ _ Hrep). simpl. f_equal.
  apply aligned_pack_parent. by eapply ctx_addr_aligned.
Qed.

Lemma read_color : _get_color s p = Some c.
Proof.
  unfold _get_color, load. rewrite (repz_node _ _ _ _ _ _ _ Hrep). simpl.
  rewrite aligned_pack_color by (by eapply ctx_addr_aligned). by destruct c.
Qed.

Lemma read_child d : child s p d = Some (addr (if d then r else l)).
Proof.
  unfold child, load. rewrite (repz_node _ _ _ _ _ _ _ Hrep). by destruct d.
Qed.

Lemma read_key : get_key s p = Some k.
Proof. unfold get_key, load. by rewrite (repz_node _ _ _ _ _ _ _ Hrep). Qed.

End Reads.

Section ReadsN.
Context (s : rb_tree_t) (cx : list frame) (d c : bool) (a : tree) (p k : Z) (b : tree).
Hypothesis Hrep : repz s cx (N d c p k a b).

Lemma read_parent_N : _get_parent s p = Some (top cx).
Proof. destruct d; eapply read_parent, Hrep. Qed.

Lemma read_color_N : _get_color s p = Some c.
Proof. destruct d; eapply read_color, Hrep. Qed.

Lemma read_child_N : child s p d = Some (addr a).
Proof. destruct d; erewrite read_child; eauto. Qed.

Lemma read_child_N_other : child s p (negb d) = Some (addr b).
Proof. destruct d; erewrite read_child; eauto. Qed.

Lemma read_nonnull_N : p <> 0 /\ aligned p.
Proof. destruct d; eapply repz_nonnull, Hrep. Qed.

(** [q==p->rb_right] tells on which side the non-empty subtree [a] hangs. *)
Lemma read_side_N q : q = addr a -> q <> 0 ->
  exists pr, child s p true = Some pr /\ (q =? pr) = d.
Proof.
  intros -> Hq. destruct Hrep as (_ & _ & Hnd & _). destruct d; simpl in *.
  - erewrite read_child by exact Hrep. simpl. exists (addr a). by rewrite Z.eqb_refl.
  - erewrite read_child by exact Hrep. simpl. exists (addr b). split; [done|].
    apply Z.eqb_neq. intros E0. destruct a as [| ca la pa ka ra]; [done|].
    destruct b as [| cb lb pb kb rb]; [done|]. simpl in *. subst pb.
    apply NoDup_app in Hnd as (Hnd & _ & _). apply NoDup_app in Hnd as (_ & Hd & _).
    apply (Hd pa); set_solver.
Qed.

End ReadsN.

Lemma N_negb d c p k a b : N (negb d) c p k a b = N d c p k b a.
Proof. by destruct d. Qed.

Lemma tree_cases t : t = E \/ exists d c p k a b, t = N d c p k a b.
Proof. destruct t as [| c l p k r]; [by left | right]. exists true, c, p, k, r, l. done. Qed.

(** ** Writes at the focus *)

Lemma set_color_ok s cx d c p k a b c' :
  repz s cx (N d c p k a b) ->
  exists s', _set_color s p c' = Some s' /\ repz s' cx (N d c' p k a b).
Proof.
  intros H. pose proof (ctx_addr_aligned _ _ _ H) as Htop.
  destruct H as (H1 & H2 & H3 & H4).
  assert (Heq : addrs (N d c p k a b) = addrs (N d c' p k a b)) by (by destruct d).
  rewrite Heq in H3, H4. pose proof H3 as Hn. rewrite addrs_N in Hn.
  simpl in Hn. apply NoDup_cons in Hn as [Hn _].
  rewrite addr_N, tree_at_N in *. destruct H2 as (Hp & Ha & Hb).
  unfold _set_color, load. rewrite Hp. simpl.
  eexists. split; [reflexivity|]. unfold repz. simpl. rewrite addr_N, tree_at_N.
  split_and!; try done.
  - apply ctx_at_frame; [set_solver | done].
  - rewrite lookup_insert_eq. f_equal. f_equal. by rewrite aligned_pack_parent.
  - apply tree_at_frame; [set_solver | done].
  - apply tree_at_frame; [set_solver | done].
Qed.

(** Redirecting the pointer at the hole of a context. *)
Lemma replace_child_ok s cx a a' :
  ctx_at (nodes s) (root s) a cx -> NoDup (caddrs cx) -> Forall aligned (caddrs cx) ->
  a <> 0 -> a ∉ caddrs cx ->
  exists s', replace_child s (top cx) a a' = Some s'
    /\ ctx_at (nodes s') (root s') a' cx
    /\ (forall q, q ∉ caddrs cx -> nodes s' !! q = nodes s !! q)
    /\ (forall q, q <> top cx -> nodes s' !! q = nodes s !! q).
Proof.
  intros Hc Hnd Hal Ha0 Ha. unfold replace_child.
  destruct cx as [| [d c p k sib] cx]; simpl in *.
  { eexists. split; [reflexivity|]. simpl. done. }
  destruct Hc as (Hp & Hs & Hc). apply NoDup_cons in Hnd as [Hpn Hnd].
  assert (p <> 0) as Hp0 by (inversion Hal as [|?? [? ?]]; lia).
  rewrite (proj2 (Z.eqb_neq p 0) Hp0). unfold child, set_child, load. rewrite Hp. simpl.
  assert (Hside : (a =? (if d then a else addr sib)) = d).
  { destruct d; [apply Z.eqb_refl|]. apply Z.eqb_neq. intros ->.
    destruct sib; [done|]. simpl in Ha. set_solver. }
  rewrite Hside. eexists. split; [reflexivity|]. simpl.
  split_and!.
  - rewrite lookup_insert_eq. by destruct d.
  - apply tree_at_frame; [set_solver | done].
  - apply ctx_at_frame; [set_solver | done].
  - intros q Hq. rewrite lookup_insert_ne; [done | set_solver].
  - intros q Hq. by rewrite lookup_insert_ne.
Qed.

(** Equations for single accesses, used to run the code symbolically. *)
Definition with_child (n : rb_tree_node_t) (d : bool) (x : Z) : rb_tree_node_t :=
  if d then mk_rb_node (key n) (rb_parent_and_color n) (rb_left n) x
  else mk_rb_node (key n) (rb_parent_and_color n) x (rb_right n).

Definition with_parent (n : rb_tree_node_t) (x : Z) : rb_tree_node_t :=
  mk_rb_node (key n) (Z.lor x (Z.land (rb_parent_and_color n) 1)) (rb_left n) (rb_right n).

Lemma set_child_eq s x n d v :
  nodes s !! x = Some n -> set_child s x d v = Some (store s x (with_child n d v)).
Proof. intros H. unfold set_child, load. rewrite H. by destruct d. Qed.

Lemma set_parent_eq s x n v :
  nodes s !! x = Some n -> _set_parent s x v = Some (store s x (with_parent n v)).
Proof. intros H. unfold _set_parent, load. by rewrite H. Qed.

Lemma child_eq s x n d : nodes s !! x = Some n -> child s x d = Some (rb_nodes n d).
Proof. intros H. unfold child, load. by rewrite H. Qed.

Lemma NoDup_app_split {A} (a e c : list A) :
  NoDup (a ++ e ++ c) ->
  (forall q, q ∈ a -> q ∉ e) /\ (forall q, q ∈ a -> q ∉ c) /\ (forall q, q ∈ e -> q ∉ c).
Proof.
  rewrite !NoDup_app. intros (_ & H1 & _ & H2 & _). set_solver.
Qed.

(** Hanging a subtree from another parent. *)
Lemma reparent_ok s par par' b :
  tree_at (nodes s) par b -> par = 0 \/ aligned par ->
  NoDup (addrs b) -> Forall aligned (addrs b) ->
  exists s', (if addr b =? 0 then Some s else _set_parent s (addr b) par') = Some s'
    /\ tree_at (nodes s') par' b /\ root s' = root s
    /\ (forall q, q ∉ addrs b -> nodes s' !! q = nodes s !! q).
Proof.
  intros Hb Hpar Hnd Hal. destruct b as [| c l p k r]; simpl in *.
  { eexists; split_and!; [reflexivity|done|done|done]. }
  destruct Hb as (Hp & Hl & Hr).
  assert (Hp0 : p <> 0).
  { rewrite Forall_forall in Hal. destruct (Hal p) as [? _]; [set_solver | lia]. }
  rewrite (proj2 (Z.eqb_neq p 0) Hp0). unfold _set_parent, load. rewrite Hp. simpl.
  rewrite aligned_pack_color by done.
  eexists; split; [reflexivity|]; split; [|split; [done|]].
  - apply NoDup_app in Hnd as (_ & Hd & Hnd). apply NoDup_cons in Hnd as [Hpr _].
    simpl. split_and!; [by rewrite lookup_insert_eq| |]; apply tree_at_frame; try done.
    intros Hin. apply (Hd p Hin). set_solver.
  - intros q Hq. simpl. rewrite lookup_insert_ne; [done | set_solver].
Qed.

(** A left or right rotation at the focus. *)
Lemma rotate_ok s cx d c p k a c' p' k' b e :
  repz s cx (N d c p k a (N d c' p' k' b e)) ->
  exists s', _rotate_subtree s p d = Some s' /\ repz s' cx (N d c' p' k' (N d c p k a b) e).
Proof.
  intros H. pose proof (ctx_addr_aligned _ _ _ H) as Htop.
  pose proof (read_nonnull_N _ _ _ _ _ _ _ _ H) as [Hp0 Hpal].
  assert (Hrep2 : repz s (Fr (negb d) c p k a :: cx) (N d c' p' k' b e)).
  { apply repz_plug1. simpl. by rewrite N_negb. }
  pose proof (read_nonnull_N _ _ _ _ _ _ _ _ Hrep2) as [Hp0' Hpal'].
  unfold _rotate_subtree.
  rewrite (read_parent_N _ _ _ _ _ _ _ _ H). simpl.
  rewrite (read_child_N_other _ _ _ _ _ _ _ _ H), addr_N. simpl.
  rewrite (read_child_N _ _ _ _ _ _ _ _ Hrep2). simpl.
  destruct H as (Hcx & Ht & Hnd & Hal).
  assert (Hperm : addrs (N d c p k a (N d c' p' k' b e)) ++ caddrs cx
                  ≡ₚ p :: p' :: addrs b ++ addrs a ++ addrs e ++ caddrs cx)
    by (rewrite addrs_N, addrs_N; solve_Permutation).
  assert (Hperm' : addrs (N d c' p' k' (N d c p k a b) e) ++ caddrs cx
                  ≡ₚ p :: p' :: addrs b ++ addrs a ++ addrs e ++ caddrs cx)
    by (rewrite addrs_N, addrs_N; solve_Permutation).
  rewrite Hperm in Hnd, Hal. rewrite addr_N in Hcx.
  rewrite !tree_at_N, addr_N in Ht. destruct Ht as (Hp & Ha & Hp' & Hb & He).
  pose proof Hnd as Hnd0.
  apply NoDup_cons in Hnd as [Hpn Hnd]. apply NoDup_cons in Hnd as [Hpn' Hnd].
  apply NoDup_app in Hnd as (Hndb & Hdb & Hnd). pose proof Hnd as Hnd2.
  apply NoDup_app in Hnd as (_ & _ & Hnd). apply NoDup_app in Hnd as (_ & _ & Hndc).
  assert (Hpp' : p <> p') by set_solver.
  assert (Hal2 : Forall aligned (addrs b) /\ Forall aligned (caddrs cx)).
  { rewrite Forall_forall in Hal. split; apply Forall_forall; intros; apply Hal; set_solver. }
  rewrite (set_child_eq _ _ _ _ _ Hp). simpl.
  match goal with |- context [store s p ?n] => set (n1 := n) end. set (s1 := store s p n1).
  rewrite (child_eq s1 p' _ d) by (simpl; rewrite lookup_insert_ne; done). simpl.
  replace (rb_nodes _ d) with (addr b) by (by destruct d).
  assert (Hb1 : tree_at (nodes s1) p' b) by (apply tree_at_frame; [set_solver | done]).
  destruct (reparent_ok s1 p' p b Hb1 (or_intror Hpal') Hndb (proj1 Hal2)) as (s2 & -> & Hb2 & Hr2 & Hs2).
  simpl. rewrite (set_child_eq s2 p' _ _ _)
    by (rewrite (Hs2 p') by set_solver; simpl; rewrite lookup_insert_ne; done). simpl.
  erewrite (set_parent_eq _ p)
    by (simpl; rewrite lookup_insert_ne by done; rewrite (Hs2 p) by set_solver; apply lookup_insert_eq).
  simpl. erewrite (set_parent_eq _ p')
    by (simpl; rewrite lookup_insert_ne by done; apply lookup_insert_eq).
  simpl.
  match goal with |- context [replace_child ?st _ _ _] => set (s5 := st) end.
  assert (Hc5 : ctx_at (nodes s5) (root s5) p cx).
  { simpl. rewrite Hr2. simpl.
    repeat (apply ctx_at_frame; [set_solver|]).
    eapply ctx_at_agree; [intros q Hq; apply Hs2; set_solver|].
    apply ctx_at_frame; [set_solver | done]. }
  destruct (replace_child_ok s5 cx p p' Hc5 Hndc (proj2 Hal2) Hp0) as (s6 & -> & Hc6 & Ho6 & _);
    [set_solver|].
  eexists; split; [reflexivity|]. unfold repz. rewrite Hperm', !tree_at_N, !addr_N.
  assert (Hframe : forall par t, (forall q, q ∈ addrs t -> q ∉ p :: p' :: caddrs cx) ->
            tree_at (nodes s2) par t -> tree_at (nodes s6) par t).
  { intros par t Hq Ht. eapply tree_at_agree; [| exact Ht]. intros q Hin.
    specialize (Hq q Hin). rewrite Ho6 by set_solver. simpl.
    rewrite !lookup_insert_ne by set_solver. done. }
  assert (Hsub : forall par t, (forall q, q ∈ addrs t -> q ∉ p :: p' :: addrs b ++ caddrs cx) ->
            tree_at (nodes s) par t -> tree_at (nodes s6) par t).
  { intros par t Hq Ht. apply Hframe; [set_solver|]. eapply tree_at_agree; [| exact Ht].
    intros q Hin. specialize (Hq q Hin). rewrite Hs2 by set_solver. simpl.
    by rewrite lookup_insert_ne by set_solver. }
  destruct (NoDup_app_split _ _ _ Hnd2) as (Hae & Hac & Hec).
  split_and!; try done.
  - rewrite Ho6 by set_solver. simpl. rewrite lookup_insert_eq. f_equal.
    unfold with_parent, with_child. destruct d; simpl; rewrite aligned_pack_color by (by right); done.
  - rewrite Ho6 by set_solver. simpl. rewrite lookup_insert_ne, lookup_insert_eq by done. f_equal.
    subst n1. unfold with_parent, with_child. destruct d; simpl; rewrite aligned_pack_color by done; done.
  - apply Hsub; [| done]. intros q Hq. specialize (Hac q Hq). set_solver.
  - apply Hframe; [| done]. intros q Hq. specialize (Hdb q Hq). set_solver.
  - apply Hsub; [| done]. intros q Hq. specialize (Hec q Hq). set_solver.
Qed.

