(* ===== verification/RbTreeInsert.v ===== *)
(** * Insertion and the red-black balance. *)
From stdpp Require Import base tactics list numbers gmap sorting.
From Stdlib Require Import ZArith Lia Wf_nat.
From S2P Require Import Prelude RbTree RbTreeRep.
#[local] Open Scope Z_scope.

(** ** Insertion on abstract trees *)

Definition is_red (t : tree) : bool := match t with T c _ _ _ _ => c | E => false end.
Definition recolor (c : bool) (t : tree) : tree :=
  match t with T _ l p k r => T c l p k r | E => E end.
Definition sub (t : tree) (d : bool) : tree :=
  match t with T _ l _ _ r => if d then r else l | E => E end.
Definition tkey (t : tree) : Z := match t with T _ _ _ k _ => k | E => 0 end.

(** The rebalancing that [insert_fixup] performs above the new red node. *)
Fixpoint ins_fix (t : tree) (cx : list frame) : tree :=
  match cx with
  | Fr d1 true p1 k1 s1 :: cx1 =>
      match cx1 with
      | [] => N d1 false p1 k1 t s1
      | Fr d2 c2 p2 k2 s2 :: cx2 =>
          if is_red s2 then
            ins_fix (N d2 true p2 k2 (N d1 false p1 k1 t s1) (recolor false s2)) cx2
          else if Bool.eqb d1 d2 then
            plug cx2 (N d2 false p1 k1 t (N d2 true p2 k2 s1 s2))
          else
            plug cx2 (N d2 false (addr t) (tkey t) (N d2 true p1 k1 s1 (sub t d2))
                        (N d2 true p2 k2 (sub t (negb d2)) s2))
      end
  | _ => plug cx t
  end.

Lemma eta_N t d : t <> E -> t = N d (is_red t) (addr t) (tkey t) (sub t d) (sub t (negb d)).
Proof. destruct t as [| c l p k r]; [done|]. by destruct d. Qed.

Lemma read_is_red s cx t :
  repz s cx t -> (if addr t =? 0 then Some false else _get_color s (addr t)) = Some (is_red t).
Proof.
  destruct t as [| c l p k r]; simpl; [done|]. intros H.
  destruct (repz_nonnull _ _ _ _ _ _ _ H) as [H0 _].
  rewrite (proj2 (Z.eqb_neq p 0) H0). by erewrite read_color.
Qed.

Lemma repz_other s cx d c p k a b :
  repz s cx (N d c p k a b) -> repz s (Fr (negb d) c p k a :: cx) b.
Proof. intros H. apply repz_plug1. simpl. by rewrite N_negb. Qed.

Lemma repz_same s cx d c p k a b :
  repz s cx (N d c p k a b) -> repz s (Fr d c p k b :: cx) a.
Proof. intros H. by apply repz_plug1. Qed.

Lemma distinct_children s cx d c p k a b :
  repz s cx (N d c p k a b) -> a <> E -> addr a <> addr b.
Proof.
  intros H Ha Heq. destruct (read_side_N _ _ _ _ _ _ _ _ H (addr a) eq_refl) as (pr & H1 & H2).
  - destruct a as [| ca la pa ka ra]; [done|]. simpl.
    by destruct (repz_nonnull _ _ _ _ _ _ _ (repz_same _ _ _ _ _ _ _ _ H)).
  - destruct d.
    + apply repz_other in H. destruct b as [| cb lb pb kb rb]; simpl in *.
      * destruct a; [done|]. simpl in *. destruct H as (_ & _ & _ & Hal). simpl in Hal.
        rewrite Forall_forall in Hal. destruct (Hal p0) as [? _]; [set_solver | lia].
      * destruct H as (_ & _ & Hnd & _). simpl in Hnd. destruct a; [done|]. simpl in *. subst.
        apply NoDup_app in Hnd as (_ & Hd & _). apply (Hd pb); set_solver.
    + erewrite read_child in H1 by exact H. simpl in H1. simplify_eq.
      by rewrite Heq, Z.eqb_refl in H2.
Qed.

Lemma rotate_other_ok s cx d c p k a c' p' k' b e :
  repz s cx (N d c p k (N d c' p' k' e b) a) ->
  exists s', _rotate_subtree s p (negb d) = Some s' /\ repz s' cx (N d c' p' k' e (N d c p k b a)).
Proof.
  intros H. rewrite <- (N_negb d c), <- (N_negb d c') in H.
  destruct (rotate_ok _ _ _ _ _ _ _ _ _ _ _ _ H) as (s' & Hs' & H').
  exists s'. split; [done|]. by rewrite !N_negb in H'.
Qed.

Lemma recolor_pair_ok s cx d c p k a c' p' k' b e x y :
  repz s cx (N d c p k a (N d c' p' k' b e)) ->
  exists s', (s1 ← _set_color s p x; _set_color s1 p' y) = Some s'
    /\ repz s' cx (N d x p k a (N d y p' k' b e)).
Proof.
  intros H. destruct (set_color_ok _ _ _ _ _ _ _ _ x H) as (s1 & -> & H1). simpl.
  apply repz_other in H1. destruct (set_color_ok _ _ _ _ _ _ _ _ y H1) as (s2 & -> & H2).
  exists s2. split; [done|]. apply repz_plug1 in H2. simpl in H2. by rewrite N_negb in H2.
Qed.

Lemma insert_fixup_ok f : forall cx s t,
  (length cx < f)%nat -> repz s cx t -> t <> E -> is_red t = true ->
  exists s', insert_fixup f s (addr t) (top cx) = Some s' /\ rep s' (ins_fix t cx).
Proof.
  induction f as [| f IH]; intros cx s t Hf Hrep Ht Hred; [lia|].
  destruct cx as [| [d1 c1 p1 k1 s1] cx].
  { simpl. by exists s. }
  pose proof (proj1 (repz_plug1 _ _ _ _) Hrep) as H1. simpl in H1. unfold insert_fixup; fold insert_fixup. cbn [top].
  destruct (read_nonnull_N _ _ _ _ _ _ _ _ H1) as [Hp1 _].
  rewrite (proj2 (Z.eqb_neq p1 0) Hp1). rewrite (read_color_N _ _ _ _ _ _ _ _ H1). simpl.
  destruct c1; simpl; [| exists s; split; [done | exact (proj1 (repz_plug _ (_ :: _) _) Hrep)]].
  rewrite (read_parent_N _ _ _ _ _ _ _ _ H1). simpl.
  destruct cx as [| [d2 c2 p2 k2 s2] cx]; cbn [top].
  { destruct (set_color_ok _ _ _ _ _ _ _ _ false H1) as (s' & -> & H'). eauto. }
  pose proof (proj1 (repz_plug1 _ _ _ _) H1) as H2. simpl in H2.
  destruct (read_nonnull_N _ _ _ _ _ _ _ _ H2) as [Hp2 _].
  rewrite (proj2 (Z.eqb_neq p2 0) Hp2).
  destruct (read_side_N _ _ _ _ _ _ _ _ H2 p1) as (zr & -> & Hside); [by rewrite addr_N | done |].
  simpl. rewrite Hside. rewrite (read_child_N_other _ _ _ _ _ _ _ _ H2). simpl.
  rewrite (read_is_red _ _ _ (repz_other _ _ _ _ _ _ _ _ H2)). simpl.
  destruct (is_red s2) eqn:Hs2; simpl.
  - (* red uncle *)
    destruct (set_color_ok _ _ _ _ _ _ _ _ false H1) as (s3 & -> & H3). simpl.
    apply repz_plug1 in H3. simpl in H3.
    destruct (set_color_ok _ _ _ _ _ _ _ _ true H3) as (s4 & -> & H4). simpl.
    apply repz_other in H4. rewrite (eta_N s2 d1) in H4 by (by destruct s2).
    destruct (set_color_ok _ _ _ _ _ _ _ _ false H4) as (s5 & -> & H5). simpl.
    apply repz_plug1 in H5. simpl in H5. rewrite N_negb in H5.
    rewrite (read_parent_N _ _ _ _ _ _ _ _ H5). simpl.
    replace (N d1 false (addr s2) (tkey s2) (sub s2 d1) (sub s2 (negb d1)))
      with (recolor false s2) in H5 by (destruct s2; [done | by destruct d1]).
    edestruct (IH cx s5) as (s6 & Hs6 & H6); [simpl in Hf; lia | exact H5 | by destruct d2 | by destruct d2 |].
    rewrite addr_N in Hs6. eauto.
  - (* black uncle *)
    destruct (Bool.eqb d1 d2) eqn:Hd.
    + apply Bool.eqb_prop in Hd as ->.
      rewrite (read_child_N_other _ _ _ _ _ _ _ _ H1). simpl.
      rewrite (proj2 (Z.eqb_neq _ _) (distinct_children _ _ _ _ _ _ _ _ H1 Ht)). simpl.
      destruct (rotate_other_ok _ _ _ _ _ _ _ _ _ _ _ _ H2) as (s3 & -> & H3). simpl.
      destruct (recolor_pair_ok _ _ _ _ _ _ _ _ _ _ _ _ false true H3) as (s4 & -> & H4).
      exists s4. split; [done|]. by apply rep_plug.
    + assert (d1 = negb d2) as -> by (by destruct d1, d2). rewrite N_negb in H1, H2.
      rewrite (read_child_N_other _ _ _ _ _ _ _ _ H1). simpl. rewrite Z.eqb_refl. simpl.
      rewrite (eta_N t d2 Ht) in H1.
      destruct (rotate_ok _ _ _ _ _ _ _ _ _ _ _ _ H1) as (s3 & -> & H3). simpl.
      apply repz_plug1 in H3. simpl in H3. rewrite (read_child_N _ _ _ _ _ _ _ _ H3), addr_N. simpl.
      destruct (rotate_other_ok _ _ _ _ _ _ _ _ _ _ _ _ H3) as (s4 & -> & H4). simpl.
      destruct (recolor_pair_ok _ _ _ _ _ _ _ _ _ _ _ _ false true H4) as (s5 & -> & H5).
      exists s5. split; [done|]. by apply rep_plug.
Qed.

(** *** What the rebalancing preserves *)

Ltac norm_app := repeat (rewrite <- app_assoc; simpl).

Lemma inorder_plug_eq cx t t' : inorder t = inorder t' -> inorder (plug cx t) = inorder (plug cx t').
Proof.
  revert t t'. induction cx as [| [d c p k s] cx IH]; intros t t' H; [done|].
  simpl. apply IH. destruct d; simpl; by rewrite H.
Qed.

Lemma inorder_ins_fix cx : forall t, t <> E -> inorder (ins_fix t cx) = inorder (plug cx t).
Proof.
  induction cx as [cx IH] using (induction_ltof1 _ (@length _)); unfold ltof in IH.
  intros t Ht. destruct cx as [| [d1 [] p1 k1 s1] cx]; [done| |done]. simpl.
  destruct cx as [| [d2 c2 p2 k2 s2] cx]; [by destruct d1|].
  destruct (is_red s2).
  - rewrite IH; [| simpl; lia | by destruct d2]. simpl. apply inorder_plug_eq.
    destruct d1, d2, s2; simpl; norm_app; done.
  - simpl. destruct t as [| c l p k r]; [done|].
    destruct d1, d2; simpl; apply inorder_plug_eq; simpl; norm_app; done.
Qed.

(** Red-black balance: [rbt n t] when no red node of [t] has a red child and
    every path down crosses [n] black nodes. *)
Inductive rbt : nat -> tree -> Prop :=
| rbt_E : rbt 0 E
| rbt_R n l p k r : rbt n l -> rbt n r -> is_red l = false -> is_red r = false ->
    rbt n (T true l p k r)
| rbt_B n l p k r : rbt n l -> rbt n r -> rbt (S n) (T false l p k r).

(** [rctx b n cx]: filling the hole with a tree of black height [n] (red root
    allowed when [b]) gives a balanced tree. *)
Inductive rctx : bool -> nat -> list frame -> Prop :=
| rctx_nil n : rctx true n []
| rctx_R d p k s n cx : rbt n s -> is_red s = false -> rctx true n cx ->
    rctx false n (Fr d true p k s :: cx)
| rctx_B b d p k s n cx : rbt n s -> rctx b (S n) cx -> rctx true n (Fr d false p k s :: cx).

#[export] Hint Constructors rbt rctx : rbtree.

Lemma rbt_N_inv n d c p k a b : rbt n (N d c p k a b) ->
  if c then rbt n a /\ rbt n b /\ is_red a = false /\ is_red b = false
  else exists m, n = S m /\ rbt m a /\ rbt m b.
Proof. destruct d; simpl; intros H; inversion H; subst; eauto. Qed.

Lemma rbt_N_red n d p k a b :
  rbt n a -> rbt n b -> is_red a = false -> is_red b = false -> rbt n (N d true p k a b).
Proof. destruct d; simpl; auto with rbtree. Qed.

Lemma rbt_N_black n d p k a b : rbt n a -> rbt n b -> rbt (S n) (N d false p k a b).
Proof. destruct d; simpl; auto with rbtree. Qed.

#[export] Hint Resolve rbt_N_red rbt_N_black : rbtree.

Lemma is_red_N d c p k a b : is_red (N d c p k a b) = c.
Proof. by destruct d. Qed.

Lemma rctx_plug b n cx : rctx b n cx -> forall t, rbt n t -> (b = false -> is_red t = false) ->
  exists m, rbt m (plug cx t).
Proof.
  induction 1 as [n | d p k s n cx Hs Hr _ IH | b d p k s n cx Hs _ IH]; intros t Ht Hb; simpl.
  - eauto.
  - apply IH; [| done]. auto with rbtree.
  - apply IH; [by apply rbt_N_black |]. intros _. apply is_red_N.
Qed.

Lemma rctx_unplug cx : forall m t, rbt m (plug cx t) ->
  exists b n, rctx b n cx /\ rbt n t /\ (b = false -> is_red t = false).
Proof.
  induction cx as [| [d c p k s] cx IH]; intros m t H; simpl in *.
  { exists true, m. split_and!; [constructor | done | done]. }
  destruct (IH _ _ H) as (b & n & Hc & Ht & Hb). pose proof (rbt_N_inv _ _ _ _ _ _ _ Ht) as Hi.
  destruct c; simpl in Hi.
  - destruct Hi as (? & ? & ? & ?). exists false, n. split_and!; try done.
    constructor; try done. destruct b; [done|]. rewrite is_red_N in Hb. by specialize (Hb eq_refl).
  - destruct Hi as (m' & -> & ? & ?). exists true, m'. split_and!; try done.
    econstructor; done.
Qed.

Lemma rbt_blacken n t : rbt n t -> is_red t = true -> rbt (S n) (recolor false t).
Proof. intros H Hr. inversion H; subst; simpl in *; try done. auto with rbtree. Qed.

Lemma rbt_sub n t d : rbt n t -> is_red t = true -> rbt n (sub t d) /\ is_red (sub t d) = false.
Proof. intros H Hr. inversion H; subst; simpl in *; try done. by destruct d. Qed.

(** A red node under any balanced context becomes a balanced tree. *)
Lemma rbt_ins_fix cx : forall b n t, rctx b n cx -> rbt n t -> is_red t = true ->
  exists m, rbt m (ins_fix t cx).
Proof.
  induction cx as [cx IH] using (induction_ltof1 _ (@length _)); unfold ltof in IH.
  intros b n t Hc Ht Hred. destruct cx as [| [d1 [] p1 k1 s1] cx]; simpl.
  - eauto.
  - inversion Hc as [| ? ? ? ? ? ? Hs1 Hs1r Hc1 |]; subst.
    destruct cx as [| [d2 c2 p2 k2 s2] cx]; [eauto with rbtree|].
    inversion Hc1 as [| | b' ? ? ? ? ? ? Hs2 Hc2]; subst.
    destruct (is_red s2) eqn:Hr2.
    + eapply IH; [simpl; lia | exact Hc2 | | apply is_red_N].
      apply rbt_N_red; [by apply rbt_N_black | by apply rbt_blacken | apply is_red_N | by destruct s2].
    + destruct (rbt_sub _ _ d2 Ht Hred), (rbt_sub _ _ (negb d2) Ht Hred).
      destruct (Bool.eqb d1 d2); (eapply rctx_plug; [exact Hc2 | | intros _; apply is_red_N]);
        auto with rbtree.
  - eapply (rctx_plug _ _ (Fr d1 false p1 k1 s1 :: cx)); [exact Hc | done |]. by inversion Hc.
Qed.

(** *** Where the new node goes *)

Fixpoint search (k : Z) (t : tree) (cx : list frame) : option (list frame) :=
  match t with
  | E => Some cx
  | T c l p k' r =>
      if k =? k' then None
      else if k' <? k then search k r (Fr true c p k' l :: cx)
      else search k l (Fr false c p k' r :: cx)
  end.

(** The part of the key order before and after the hole of a context. *)
Fixpoint before (cx : list frame) : list (Z * Z) :=
  match cx with
  | [] => []
  | Fr d _ p k s :: cx => before cx ++ (if d then inorder s ++ [(k, p)] else [])
  end.
Fixpoint after (cx : list frame) : list (Z * Z) :=
  match cx with
  | [] => []
  | Fr d _ p k s :: cx => (if d then [] else (k, p) :: inorder s) ++ after cx
  end.

Lemma inorder_plug cx t : inorder (plug cx t) = before cx ++ inorder t ++ after cx.
Proof.
  revert t. induction cx as [| [d c p k s] cx IH]; intros t; simpl; [by rewrite app_nil_r|].
  rewrite IH. destruct d; simpl; norm_app; done.
Qed.

(** Search trees: keys strictly increase along the in-order walk. *)
Definition ordered (t : tree) : Prop := StronglySorted Z.lt (inorder t).*1.

Lemma sorted_app (l1 l2 : list Z) :
  StronglySorted Z.lt (l1 ++ l2) <->
  StronglySorted Z.lt l1 /\ StronglySorted Z.lt l2 /\ (forall x y, x ∈ l1 -> y ∈ l2 -> x < y).
Proof.
  induction l1 as [| a l1 IH]; simpl.
  - split; [intros H; split_and!; [constructor | done | set_solver] | tauto].
  - split.
    + intros H. apply StronglySorted_inv in H as [H Ha]. apply IH in H as (H1 & H2 & H3).
      rewrite Forall_forall in Ha. split_and!; [| done | set_solver].
      constructor; [done|]. apply Forall_forall. set_solver.
    + intros (H1 & H2 & H3). apply StronglySorted_inv in H1 as [H1 Ha]. constructor.
      * apply IH. split_and!; [done | done | set_solver].
      * rewrite Forall_forall in *. set_solver.
Qed.

Lemma ordered_plug_split cx c l p k r :
  ordered (plug cx (T c l p k r)) ->
  (forall x, x ∈ (inorder l).*1 -> x < k) /\ (forall x, x ∈ (inorder r).*1 -> k < x).
Proof.
  unfold ordered. rewrite inorder_plug. cbn [inorder]. rewrite !fmap_app, fmap_cons.
  rewrite !sorted_app. intros (_ & ((_ & Hr & Hlr) & _) & _).
  simpl in *. apply StronglySorted_inv in Hr as [_ Hr]. rewrite Forall_forall in Hr.
  split; [intros x Hx; apply Hlr; set_solver | done].
Qed.

(** [None]: the key is present; otherwise the hole is at its sorted position. *)
Lemma search_spec k t : forall cx,
  ordered (plug cx t) ->
  (forall x, x ∈ (before cx).*1 -> x < k) -> (forall x, x ∈ (after cx).*1 -> k < x) ->
  match search k t cx with
  | None => k ∈ (inorder t).*1
  | Some cx' => plug cx' E = plug cx t /\ ~ (k ∈ (inorder t).*1)
      /\ (forall x, x ∈ (before cx').*1 -> x < k) /\ (forall x, x ∈ (after cx').*1 -> k < x)
  end.
Proof.
  induction t as [| c l IHl p k' r IHr]; intros cx Ho Hb Ha; simpl.
  { split_and!; try done. set_solver. }
  destruct (ordered_plug_split _ _ _ _ _ _ Ho) as [Hl Hr].
  rewrite fmap_app, fmap_cons; simpl.
  destruct (Z.eqb_spec k k') as [-> | Hne]; [set_solver|].
  destruct (Z.ltb_spec k' k) as [Hlt | Hge].
  - assert (Hb' : forall x, x ∈ (before (Fr true c p k' l :: cx)).*1 -> x < k).
    { simpl. rewrite !fmap_app. simpl. intros x Hx. rewrite !elem_of_app, list_elem_of_singleton in Hx.
      destruct Hx as [Hx | [Hx | ->]]; [auto | specialize (Hl _ Hx); lia | done]. }
    specialize (IHr (Fr true c p k' l :: cx) Ho Hb' Ha).
    destruct (search k r _); [|set_solver]. destruct IHr as (-> & ? & ? & ?). split_and!; try done.
    intros Hin. apply elem_of_app in Hin as [Hin | Hin]; [specialize (Hl _ Hin); lia | set_solver].
  - assert (Hb' : forall x, x ∈ (before (Fr false c p k' r :: cx)).*1 -> x < k).
    { simpl. by rewrite app_nil_r. }
    assert (Ha' : forall x, x ∈ (after (Fr false c p k' r :: cx)).*1 -> k < x).
    { simpl. rewrite fmap_app. intros x Hx. rewrite elem_of_cons, elem_of_app in Hx.
      destruct Hx as [-> | [Hx | Hx]]; [lia | specialize (Hr _ Hx); lia | auto]. }
    specialize (IHl (Fr false c p k' r :: cx) Ho Hb' Ha').
    destruct (search k l _); [|set_solver]. destruct IHl as (-> & ? & ? & ?). split_and!; try done.
    intros Hin. apply elem_of_app in Hin as [Hin | Hin]; [done |].
    apply elem_of_cons in Hin as [-> | Hin]; [done | specialize (Hr _ Hin); lia].
Qed.

Lemma search_cons k t : forall cx cx', t <> E -> search k t cx = Some cx' ->
  exists d c p k' s cx0, cx' = Fr d c p k' s :: cx0 /\ d = (k' <? k) /\ k' <> k.
Proof.
  induction t as [| c l IHl p k' r IHr]; intros cx cx' Ht; simpl; [done|].
  destruct (Z.eqb_spec k k') as [-> | Hne]; [done|].
  destruct (Z.ltb_spec k' k) as [Hlt | Hge].
  - destruct r as [| c1 l1 p1 k1 r1]; [| by apply IHr].
    simpl. intros [= <-]. do 6 eexists. split_and!; [reflexivity | symmetry; by apply Z.ltb_lt | done].
  - destruct l as [| c1 l1 p1 k1 r1]; [| by apply IHl].
    simpl. intros [= <-]. do 6 eexists. split_and!; [reflexivity | symmetry; by apply Z.ltb_ge | done].
Qed.

(** *** The code of the insertion *)

Definition rb_inv (s : rb_tree_t) (t : tree) : Prop :=
  rep s t /\ ordered t /\ exists n, rbt n t.

Lemma repz_dom s cx t q : repz s cx t -> q ∈ addrs t ++ caddrs cx -> is_Some (nodes s !! q).
Proof.
  intros H. apply repz_plug in H. intros Hq.
  assert (Hin : q ∈ addrs (plug cx t)).
  { revert t Hq H. induction cx as [| [d c p k sib] cx IH]; intros t Hq H; simpl in *.
    - by rewrite app_nil_r in Hq.
    - apply IH; [| done]. rewrite addrs_N. set_solver. }
  destruct H as (_ & H & _). simpl in H. revert H. generalize 0.
  induction (plug cx t) as [| c l IHl p k r IHr]; intros par; simpl in *; [set_solver|].
  intros (H1 & H2 & H3). apply elem_of_app in Hin as [Hin | Hin]; [eauto|].
  apply elem_of_cons in Hin as [-> | Hin]; eauto.
Qed.

(** The nodes of a tree are distinct nodes of memory: the fuel suffices. *)
Lemma repz_size s cx t : repz s cx t -> (length (addrs t) + length cx < fuel s)%nat.
Proof.
  intros H. unfold fuel. rewrite <- size_dom.
  assert (Hsub : list_to_set (addrs t ++ caddrs cx) ⊆ dom (nodes s)).
  { intros q Hq. rewrite elem_of_list_to_set in Hq. apply elem_of_dom. by eapply repz_dom. }
  apply subseteq_size in Hsub. destruct H as (_ & _ & Hnd & _).
  rewrite size_list_to_set, length_app in Hsub by done.
  assert (length cx <= length (caddrs cx))%nat; [| lia].
  clear. induction cx as [| [d c p k s] cx IH]; simpl; [lia|]. rewrite length_app. lia.
Qed.

Lemma insert_descend_ok f : forall s k cx t,
  (length (addrs t) < f)%nat -> repz s cx t -> t <> E ->
  insert_descend f s k (addr t) =
    Some (match search k t cx with None => inl tt | Some cx' => inr (top cx') end).
Proof.
  induction f as [| f IH]; intros s k cx t Hf Hrep Ht; [lia|].
  destruct t as [| c l p k' r]; [done|]. unfold insert_descend; fold insert_descend. cbn [addr search]. unfold load.
  rewrite (repz_node _ _ _ _ _ _ _ Hrep). simpl. unfold rb_nodes. simpl.
  simpl in Hf. rewrite length_app in Hf. simpl in Hf.
  assert (Hr : repz s (Fr true c p k' l :: cx) r) by (by apply repz_plug1).
  assert (Hl : repz s (Fr false c p k' r :: cx) l) by (by apply repz_plug1).
  destruct (Z.ltb_spec k' k) as [Hlt | Hge].
  - destruct r as [| c1 l1 p1 k1 r1]; simpl.
    + by destruct (k =? k').
    + destruct (repz_nonnull _ _ _ _ _ _ _ Hr) as [H0 _].
      rewrite (proj2 (Z.eqb_neq p1 0) H0). destruct (k =? k'); [done|].
      apply (IH _ _ (Fr true c p k' l :: cx) (T c1 l1 p1 k1 r1)); [simpl in *; lia | done | done].
  - destruct l as [| c1 l1 p1 k1 r1]; simpl.
    + by destruct (k =? k').
    + destruct (repz_nonnull _ _ _ _ _ _ _ Hl) as [H0 _].
      rewrite (proj2 (Z.eqb_neq p1 0) H0). destruct (k =? k'); [done|].
      apply (IH _ _ (Fr false c p k' r :: cx) (T c1 l1 p1 k1 r1)); [simpl in *; lia | done | done].
Qed.

Lemma attach_ok s d c p k sib cx x kx :
  repz s (Fr d c p k sib :: cx) E -> aligned x -> x ∉ caddrs (Fr d c p k sib :: cx) ->
  nodes s !! x = Some (mk_rb_node kx 1 0 0) ->
  exists s1 s', _set_parent s x p = Some s1 /\ get_key s1 p = Some k
    /\ set_child s1 p d x = Some s' /\ repz s' (Fr d c p k sib :: cx) (T true E x kx E).
Proof.
  intros Hrep Hx Hn Hnx. rewrite (set_parent_eq _ _ _ _ Hnx). simpl in Hn.
  destruct Hrep as ((Hp & Hs & Hc) & _ & Hnd & Hal). simpl in *.
  assert (Hxp : x <> p) by set_solver.
  eexists _, _. split; [reflexivity|]. split.
  { unfold get_key, load. simpl. by rewrite lookup_insert_ne, Hp. }
  split; [apply set_child_eq; simpl; by rewrite lookup_insert_ne |].
  unfold repz. simpl. apply NoDup_cons in Hnd as [Hpn Hnd]. split_and!.
  - rewrite lookup_insert_eq. by destruct d.
  - apply tree_at_frame; [set_solver|]. apply tree_at_frame; [set_solver | done].
  - apply ctx_at_frame; [set_solver|]. apply ctx_at_frame; [set_solver | done].
  - rewrite lookup_insert_ne, lookup_insert_eq by done. done.
  - done.
  - done.
  - by rewrite !NoDup_cons.
  - by constructor.
Qed.

(** A node written outside the tree does not disturb it. *)
Lemma repz_store s cx t x n : x ∉ addrs t ++ caddrs cx -> repz s cx t -> repz (store s x n) cx t.
Proof.
  intros Hx (H1 & H2 & H3 & H4). split_and!; try done; simpl.
  - apply ctx_at_frame; [set_solver | done].
  - apply tree_at_frame; [set_solver | done].
Qed.

Lemma addrs_plug cx t : addrs (plug cx t) ≡ₚ addrs t ++ caddrs cx.
Proof.
  revert t. induction cx as [| [d c p k sib] cx IH]; intros t; simpl; [by rewrite app_nil_r|].
  rewrite IH, addrs_N. solve_Permutation.
Qed.

Section InsertNode.
Context (s : rb_tree_t) (t : tree) (x : Z) (nx : rb_tree_node_t).
Hypothesis Hinv : rb_inv s t.
Hypothesis Hx : aligned x.
Hypothesis Hfresh : x ∉ addrs t.
Hypothesis Hnx : nodes s !! x = Some nx.

Definition fresh_red : rb_tree_t := store (store s x (mk_rb_node (key nx) (rb_parent_and_color nx) 0 0))
                                          x (mk_rb_node (key nx) 1 0 0).

Lemma fresh_rep : rep fresh_red t.
Proof.
  unfold rep. do 2 (apply repz_store; [by rewrite app_nil_r|]). apply Hinv.
Qed.

(** The descent reaches the position that [search] computes. *)
Lemma insert_unfold : t <> E ->
  rb_tree_lookup_or_insert_node s x =
    match search (key nx) t [] with
    | None => Some (fresh_red, x)
    | Some cx =>
        s ← _set_parent fresh_red x (top cx);
        ky ← get_key s (top cx);
        s ← set_child s (top cx) (ky <? key nx) x;
        s ← insert_fixup (fuel s) s x (top cx);
        Some (s, 0)
    end.
Proof.
  intros Ht. pose proof fresh_rep as Hrep1. unfold rb_tree_lookup_or_insert_node, load. rewrite Hnx. simpl.
  fold fresh_red. pose proof Hinv as ((Hroot & _) & _). simpl in Hroot. rewrite Hroot.
  assert (Hp0 : addr t <> 0).
  { destruct t as [| c l p k r]; [done|]. by destruct (repz_nonnull _ _ _ _ _ _ _ Hrep1). }
  rewrite (proj2 (Z.eqb_neq (addr t) 0) Hp0).
  rewrite (insert_descend_ok _ _ _ [] t); [| pose proof (repz_size _ _ _ Hrep1); lia | done | done].
  simpl. by destruct (search (key nx) t []).
Qed.

Lemma insert_present : key nx ∈ (inorder t).*1 ->
  exists s', rb_tree_lookup_or_insert_node s x = Some (s', x) /\ rb_inv s' t.
Proof.
  intros Hin. rewrite insert_unfold by (intros ->; simpl in Hin; set_solver).
  pose proof Hinv as (_ & Ho & Hb).
  pose proof (search_spec (key nx) t [] Ho) as Hs. simpl in Hs.
  destruct (search (key nx) t []); [destruct Hs; set_solver|].
  exists fresh_red. split; [done|]. split; [apply fresh_rep | done].
Qed.

Lemma insert_absent : key nx ∉ (inorder t).*1 ->
  exists s' t' L R, rb_tree_lookup_or_insert_node s x = Some (s', 0) /\ rb_inv s' t'
    /\ inorder t = L ++ R /\ inorder t' = L ++ (key nx, x) :: R
    /\ (forall k, k ∈ L.*1 -> k < key nx) /\ (forall k, k ∈ R.*1 -> key nx < k).
Proof.
  intros Hin. destruct (decide (t = E)) as [Ht | Ht].
  { pose proof Hinv as ((Hroot & _) & _). subst t. simpl in Hroot.
    unfold rb_tree_lookup_or_insert_node, load. rewrite Hnx. simpl. rewrite Hroot. simpl.
    eexists _, (T false E x (key nx) E), [], []. split; [reflexivity|].
    split; [| set_solver]. split; [| split; [by repeat constructor | eauto with rbtree]].
    unfold rep, repz. simpl. rewrite lookup_insert_eq. repeat (split || constructor); try done.
    all: try apply Hx; set_solver. }
  rewrite insert_unfold by done. pose proof Hinv as (_ & Ho & n & Hb).
  pose proof (search_spec (key nx) t [] Ho) as Hs. simpl in Hs.
  destruct (search (key nx) t []) as [cx|] eqn:Hse; [| exfalso; apply Hin, Hs; set_solver].
  destruct Hs as (Hpl & _ & HL & HR); [set_solver | set_solver|].
  destruct (search_cons _ _ _ _ Ht Hse) as (d & c & p & k' & sib & cx0 & -> & Hd & Hk).
  pose proof fresh_rep as Hrep1. rewrite <- Hpl in Hrep1. apply rep_unplug in Hrep1.
  assert (Hxc : x ∉ caddrs (Fr d c p k' sib :: cx0)).
  { intros Hq. apply Hfresh. rewrite <- Hpl, (addrs_plug _ E). set_solver. }
  destruct (attach_ok _ _ _ _ _ _ _ x (key nx) Hrep1 Hx Hxc) as (s1 & s2 & E1 & E2 & E3 & H2);
    [apply lookup_insert_eq|].
  cbn [top]. rewrite E1. simpl. rewrite E2. simpl. rewrite <- Hd, E3. simpl.
  pose proof (repz_size _ _ _ H2) as Hf.
  destruct (insert_fixup_ok (fuel s2) (Fr d c p k' sib :: cx0) s2 (T true E x (key nx) E) ltac:(lia) H2 ltac:(done) eq_refl)
    as (s3 & E4 & H3).
  simpl in E4. rewrite E4. simpl.
  exists s3, (ins_fix (T true E x (key nx) E) (Fr d c p k' sib :: cx0)), 
    (before (Fr d c p k' sib :: cx0)), (after (Fr d c p k' sib :: cx0)).
  assert (Hio : inorder (ins_fix (T true E x (key nx) E) (Fr d c p k' sib :: cx0)) =
     before (Fr d c p k' sib :: cx0) ++ (key nx, x) :: after (Fr d c p k' sib :: cx0)).
  { rewrite inorder_ins_fix by done. apply (inorder_plug (_ :: _) (T true E x (key nx) E)). }
  split; [done|]. split; [split; [done|split] |].
  - unfold ordered. rewrite Hio, fmap_app, fmap_cons. simpl.
    rewrite <- Hpl in Ho. unfold ordered in Ho. rewrite inorder_plug, fmap_app in Ho.
    apply sorted_app in Ho as (Ho1 & Ho2 & Ho3). apply sorted_app. split_and!; [done | |].
    + constructor; [done | apply Forall_forall; set_solver].
    + intros a b Ha Hb'. apply elem_of_cons in Hb' as [-> | Hb']; [by apply HL | by apply Ho3].
  - rewrite <- Hpl in Hb. apply rctx_unplug in Hb as (b & m & Hc & He & _).
    inversion He; subst. eapply rbt_ins_fix; [exact Hc | | done]. auto with rbtree.
  - split_and!; try done. rewrite <- Hpl. by rewrite inorder_plug.
Qed.

End InsertNode.
