(* ===== verification/RbTreeSearch.v ===== *)
(** * Searches and iteration over the red-black tree. *)
From stdpp Require Import base tactics list numbers gmap sorting.
From Stdlib Require Import ZArith Lia Wf_nat.
From S2P Require Import Prelude RbTree RbTreeRep RbTreeInsert.
#[local] Open Scope Z_scope.

(** The node at the head (or the end) of a stretch of the in-order walk;
    [0], the null pointer, when it is empty. *)
Definition first_ptr (l : list (Z * Z)) : Z := default 0 (head l.*2).
Definition last_ptr (l : list (Z * Z)) : Z := default 0 (last l.*2).
Definition end_ptr (right : bool) (l : list (Z * Z)) : Z :=
  if right then last_ptr l else first_ptr l.

Fixpoint find (k : Z) (t : tree) : Z :=
  match t with
  | E => 0
  | T _ l p k' r => if k' =? k then p else find k (if k' <? k then r else l)
  end.

Lemma lookup_loop_ok f : forall s k cx t,
  (length (addrs t) < f)%nat -> repz s cx t -> lookup_loop f s k (addr t) = Some (find k t).
Proof.
  induction f as [| f IH]; intros s k cx t Hf Hrep; [lia|].
  unfold lookup_loop; fold lookup_loop. destruct t as [| c l p k' r]; [done|]. simpl.
  destruct (repz_nonnull _ _ _ _ _ _ _ Hrep) as [H0 _]. rewrite (proj2 (Z.eqb_neq p 0) H0).
  unfold load. rewrite (repz_node _ _ _ _ _ _ _ Hrep). simpl. destruct (k' =? k); [done|].
  simpl in Hf. rewrite length_app in Hf. simpl in Hf. unfold rb_nodes. simpl.
  destruct (k' <? k).
  - apply (IH _ _ (Fr true c p k' l :: cx)); [lia | by apply repz_plug1].
  - apply (IH _ _ (Fr false c p k' r :: cx)); [lia | by apply repz_plug1].
Qed.

Lemma sorted_key_unique (l : list (Z * Z)) k p q :
  StronglySorted Z.lt l.*1 -> (k, p) ∈ l -> (k, q) ∈ l -> p = q.
Proof.
  induction l as [| [k0 p0] l IH]; simpl; intros Hs Hp Hq; [set_solver|].
  apply StronglySorted_inv in Hs as [Hs Hf]. rewrite Forall_forall in Hf.
  assert (Hno : forall v, (k0, v) ∈ l -> False).
  { intros v Hv. apply (Z.lt_irrefl k0), Hf, list_elem_of_fmap. by exists (k0, v). }
  rewrite elem_of_cons in Hp, Hq. destruct Hp as [Hp | Hp], Hq as [Hq | Hq]; simplify_eq; auto;
    exfalso; eauto.
Qed.

Lemma find_in k t : find k t <> 0 -> (k, find k t) ∈ inorder t.
Proof.
  induction t as [| c l IHl p k' r IHr]; simpl; [done|].
  destruct (Z.eqb_spec k' k) as [-> | Hne]; [set_solver|]. destruct (k' <? k); set_solver.
Qed.

Lemma find_absent k t : Forall aligned (addrs t) -> ordered t -> find k t = 0 -> k ∉ (inorder t).*1.
Proof.
  intros Hal Ho. change t with (plug [] t) in Ho. revert Hal Ho. generalize (@nil frame).
  induction t as [| c l IHl p k' r IHr]; intros cx Hal Ho; simpl; [set_solver|].
  destruct (ordered_plug_split _ _ _ _ _ _ Ho) as [Hl Hr].
  simpl in Hal. rewrite Forall_app, Forall_cons in Hal. destruct Hal as (Hall & [Hp _] & Halr).
  rewrite fmap_app, fmap_cons. simpl.
  destruct (Z.eqb_spec k' k) as [-> | Hne]; [lia|]. rewrite elem_of_app, elem_of_cons.
  destruct (Z.ltb_spec k' k).
  - intros Hf. specialize (IHr (Fr true c p k' l :: cx) Halr Ho Hf).
    intros [Hin | [-> | Hin]]; [specialize (Hl _ Hin); lia | done | done].
  - intros Hf. specialize (IHl (Fr false c p k' r :: cx) Hall Ho Hf).
    intros [Hin | [-> | Hin]]; [done | done | specialize (Hr _ Hin); lia].
Qed.

(** *** Walking to the end of a subtree, and up to the next ancestor *)

Lemma first_ptr_app l1 l2 : l1 <> [] -> first_ptr (l1 ++ l2) = first_ptr l1.
Proof. by destruct l1. Qed.

Lemma last_ptr_app l1 l2 : l2 <> [] -> last_ptr (l1 ++ l2) = last_ptr l2.
Proof.
  intros H. unfold last_ptr. rewrite fmap_app, last_app.
  destruct l2 as [| a l2] using rev_ind; [done|]. rewrite fmap_app. simpl. by rewrite last_snoc.
Qed.

Lemma last_ptr_cons a l : l <> [] -> last_ptr (a :: l) = last_ptr l.
Proof. apply (last_ptr_app [a]). Qed.

Lemma inorder_nonempty c l p k r : inorder (T c l p k r) <> [].
Proof. simpl. by destruct (inorder l). Qed.

Lemma walk_down_ok f : forall s dir cx t,
  (length (addrs t) < f)%nat -> repz s cx t -> t <> E ->
  walk_down f s dir (addr t) = Some (end_ptr dir (inorder t)).
Proof.
  induction f as [| f IH]; intros s dir cx t Hf Hrep Ht; [lia|].
  destruct t as [| c l p k r]; [done|]. unfold walk_down; fold walk_down. cbn [addr].
  rewrite (read_child _ _ _ _ _ _ _ Hrep). simpl. simpl in Hf. rewrite length_app in Hf. simpl in Hf.
  destruct dir; simpl.
  - destruct r as [| c1 l1 p1 k1 r1].
    + simpl. rewrite last_ptr_app by done. done.
    + assert (Hr : repz s (Fr true c p k l :: cx) (T c1 l1 p1 k1 r1)) by (by apply repz_plug1).
      destruct (repz_nonnull _ _ _ _ _ _ _ Hr) as [H0 _]. simpl addr. rewrite (proj2 (Z.eqb_neq p1 0) H0).
      rewrite last_ptr_app, last_ptr_cons by (done || apply (inorder_nonempty c1)).
      apply (IH _ true (Fr true c p k l :: cx) (T c1 l1 p1 k1 r1)); [lia | done | done].
  - destruct l as [| c1 l1 p1 k1 r1]; [done|].
    assert (Hl : repz s (Fr false c p k r :: cx) (T c1 l1 p1 k1 r1)) by (by apply repz_plug1).
    destruct (repz_nonnull _ _ _ _ _ _ _ Hl) as [H0 _]. simpl addr. rewrite (proj2 (Z.eqb_neq p1 0) H0).
    rewrite first_ptr_app by apply (inorder_nonempty c1).
    apply (IH _ false (Fr false c p k r :: cx) (T c1 l1 p1 k1 r1)); [lia | done | done].
Qed.

(** Beyond the subtree at the hole, to the right ([dir = true]) or left. *)
Definition beyond (dir : bool) (cx : list frame) : Z :=
  if dir then first_ptr (after cx) else last_ptr (before cx).

Lemma walk_up_ok f : forall s dir cx t,
  (length cx < f)%nat -> repz s cx t -> t <> E ->
  walk_up f s dir (addr t) = Some (beyond dir cx).
Proof.
  induction f as [| f IH]; intros s dir cx t Hf Hrep Ht; [lia|].
  unfold walk_up; fold walk_up. pose proof Hrep as Hrep0. rewrite (eta_N t true Ht) in Hrep0.
  rewrite (read_parent_N _ _ _ _ _ _ _ _ Hrep0). simpl.
  destruct cx as [| [d c p k sib] cx]; simpl; [by destruct dir|].
  pose proof (proj1 (repz_plug1 _ _ _ _) Hrep) as H1. simpl in H1.
  destruct (read_nonnull_N _ _ _ _ _ _ _ _ H1) as [H0 _]. rewrite (proj2 (Z.eqb_neq p 0) H0).
  destruct (Bool.eqb d dir) eqn:Hd.
  - apply Bool.eqb_prop in Hd as ->. rewrite (read_child_N _ _ _ _ _ _ _ _ H1). simpl.
    rewrite Z.eqb_refl. pose proof (IH s dir cx (N dir c p k t sib)) as Hi. rewrite addr_N in Hi.
    rewrite Hi; [| simpl in Hf; lia | done | by destruct dir].
    destruct dir; simpl; [done | by rewrite app_nil_r].
  - assert (dir = negb d) as -> by (by destruct d, dir).
    rewrite (read_child_N_other _ _ _ _ _ _ _ _ H1). simpl.
    rewrite (proj2 (Z.eqb_neq _ _) (distinct_children _ _ _ _ _ _ _ _ H1 Ht)).
    destruct d; simpl; [| done].
    rewrite app_assoc, last_ptr_app by done. done.
Qed.

Lemma plug_app cx1 cx2 t : plug (cx1 ++ cx2) t = plug cx2 (plug cx1 t).
Proof. revert t. induction cx1 as [| f cx1 IH]; intros t; [done | apply IH]. Qed.

Lemma before_app cx1 cx2 : before (cx1 ++ cx2) = before cx2 ++ before cx1.
Proof.
  induction cx1 as [| [d c p k s] cx1 IH]; simpl; [by rewrite app_nil_r|].
  by rewrite IH, <- app_assoc.
Qed.

Lemma after_app cx1 cx2 : after (cx1 ++ cx2) = after cx1 ++ after cx2.
Proof. induction cx1 as [| [d c p k s] cx1 IH]; simpl; [done|]. by rewrite IH, app_assoc. Qed.

(** The in-order position of a node determines the path to it. *)
Lemma locate_node t : forall L k x R, inorder t = L ++ (k, x) :: R ->
  exists cx c l r, t = plug cx (T c l x k r)
    /\ L = before cx ++ inorder l /\ R = inorder r ++ after cx.
Proof.
  induction t as [| c l IHl p k' r IHr]; intros L k x R H; simpl in H; [by destruct L|].
  apply app_eq_app in H as [M [[Hl H] | [Hl H]]].
  - destruct M as [| m M]; simpl in H; simplify_eq.
    + rewrite app_nil_r in Hl. exists [], c, l, r. simpl. by rewrite app_nil_r.
    + destruct (IHl L k x M Hl) as (cx & c' & l' & r' & -> & -> & ->).
      exists (cx ++ [Fr false c p k' r]), c', l', r'.
      rewrite plug_app, before_app, after_app. simpl. rewrite app_nil_r. split_and!; try done.
      by rewrite <- app_assoc.
  - destruct M as [| m M]; simpl in H; injection H as Hm H.
    + simplify_eq. exists [], c, l, r. simpl. by rewrite !app_nil_r.
    + subst L m. destruct (IHr M k x R H) as (cx & c' & l' & r' & -> & -> & ->).
      exists (cx ++ [Fr true c p k' l]), c', l', r'.
      rewrite plug_app, before_app, after_app. simpl. rewrite app_nil_r. split_and!; try done.
      norm_app. done.
Qed.

(** *** The public searches *)

Section Search.
Context (s : rb_tree_t) (t : tree).
Hypothesis Hinv : rb_inv s t.

Lemma lookup_node_found k p : (k, p) ∈ inorder t -> rb_tree_lookup_node s k = Some p.
Proof.
  intros Hin. destruct Hinv as (Hrep & Ho & _). pose proof (repz_size _ _ _ Hrep) as Hf.
  pose proof Hrep as (Hroot & _ & _ & Hal). rewrite app_nil_r in Hal. simpl in Hroot.
  unfold rb_tree_lookup_node. rewrite Hroot, (lookup_loop_ok _ _ _ [] t); [| lia | done].
  f_equal. destruct (decide (find k t = 0)) as [H0 | H0].
  - exfalso. apply (find_absent _ _ Hal Ho H0). apply list_elem_of_fmap. by exists (k, p).
  - eapply sorted_key_unique; [exact Ho | by apply find_in | done].
Qed.

Lemma lookup_node_absent k : ~ (k ∈ (inorder t).*1) -> rb_tree_lookup_node s k = Some 0.
Proof.
  intros Hin. destruct Hinv as (Hrep & Ho & _). pose proof (repz_size _ _ _ Hrep) as Hf.
  pose proof Hrep as (Hroot & _). simpl in Hroot.
  unfold rb_tree_lookup_node. rewrite Hroot, (lookup_loop_ok _ _ _ [] t); [| lia | done].
  f_equal. destruct (decide (find k t = 0)) as [H0 | H0]; [done|].
  exfalso. apply Hin, list_elem_of_fmap. exists (k, find k t). split; [done | by apply find_in].
Qed.

Lemma iter_start_ok : rb_tree_iter_start s = Some (first_ptr (inorder t)).
Proof.
  destruct Hinv as (Hrep & _ & _). pose proof (repz_size _ _ _ Hrep) as Hf.
  pose proof Hrep as (Hroot & _). simpl in Hroot. unfold rb_tree_iter_start. rewrite Hroot.
  destruct t as [| c l p k r]; [done|].
  destruct (repz_nonnull _ _ _ _ _ _ _ Hrep) as [H0 _]. simpl addr. rewrite (proj2 (Z.eqb_neq p 0) H0).
  apply (walk_down_ok _ _ false [] (T c l p k r)); [lia | done | done].
Qed.

Lemma iter_next_ok L k x R :
  inorder t = L ++ (k, x) :: R -> rb_tree_iter_next s x = Some (first_ptr R).
Proof.
  intros H. destruct (locate_node _ _ _ _ _ H) as (cx & c & l & r & Ht & -> & ->).
  destruct Hinv as (Hrep & _ & _). rewrite Ht in Hrep. apply rep_unplug in Hrep.
  pose proof (repz_size _ _ _ Hrep) as Hf. unfold rb_tree_iter_next.
  rewrite (read_child _ _ _ _ _ _ _ Hrep). simpl.
  destruct r as [| c1 l1 p1 k1 r1].
  - simpl. apply (walk_up_ok _ _ true cx (T c l x k E)); [lia | done | done].
  - assert (Hr : repz s (Fr true c x k l :: cx) (T c1 l1 p1 k1 r1)) by (by apply repz_plug1).
    destruct (repz_nonnull _ _ _ _ _ _ _ Hr) as [H0 _]. cbn [addr]. rewrite (proj2 (Z.eqb_neq p1 0) H0).
    cbn [negb]. rewrite first_ptr_app by apply (inorder_nonempty c1).
    pose proof (repz_size _ _ _ Hr) as Hf'.
    apply (walk_down_ok _ _ false (Fr true c x k l :: cx) (T c1 l1 p1 k1 r1)); [lia | done | done].
Qed.

End Search.

(** *** Nearest keys *)

Lemma nearest_loop_ok f : forall s inc k cx t,
  (length (addrs t) < f)%nat -> repz s cx t -> t <> E ->
  nearest_loop f s inc k (addr t) =
    Some (match search k t cx with None => find k t | Some cx' => beyond inc cx' end).
Proof.
  induction f as [| f IH]; intros s inc k cx t Hf Hrep Ht; [lia|].
  destruct t as [| c l p k' r]; [done|]. unfold nearest_loop; fold nearest_loop. cbn [addr search find].
  pose proof (repz_size _ _ _ Hrep) as Hsz.
  destruct (repz_nonnull _ _ _ _ _ _ _ Hrep) as [H0 _]. rewrite (proj2 (Z.eqb_neq p 0) H0).
  unfold load. rewrite (repz_node _ _ _ _ _ _ _ Hrep). simpl. rewrite (Z.eqb_sym k k').
  destruct (Z.eqb_spec k' k) as [| Hne]; [done|].
  simpl in Hf. rewrite length_app in Hf. simpl in Hf. unfold rb_nodes. simpl.
  assert (Hr : repz s (Fr true c p k' l :: cx) r) by (by apply repz_plug1).
  assert (Hl : repz s (Fr false c p k' r :: cx) l) by (by apply repz_plug1).
  assert (Hup : forall dir, walk_up (fuel s) s dir p = Some (beyond dir cx)).
  { intros dir. apply (walk_up_ok _ _ dir cx (T c l p k' r)); [lia | done | done]. }
  destruct (Z.ltb_spec k' k) as [Hlt | Hge].
  - destruct r as [| c1 l1 p1 k1 r1]; simpl.
    + rewrite (proj2 (Z.ltb_ge k k')) by lia. destruct inc; simpl; [apply Hup|].
      by rewrite app_assoc, last_ptr_app.
    + destruct (repz_nonnull _ _ _ _ _ _ _ Hr) as [H1 _]. rewrite (proj2 (Z.eqb_neq p1 0) H1).
      apply (IH _ _ _ (Fr true c p k' l :: cx) (T c1 l1 p1 k1 r1)); [simpl in *; lia | done | done].
  - destruct l as [| c1 l1 p1 k1 r1]; simpl.
    + rewrite (proj2 (Z.ltb_lt k k')) by lia. destruct inc; simpl; [done|]. rewrite app_nil_r. apply Hup.
    + destruct (repz_nonnull _ _ _ _ _ _ _ Hl) as [H1 _]. rewrite (proj2 (Z.eqb_neq p1 0) H1).
      apply (IH _ _ _ (Fr false c p k' r :: cx) (T c1 l1 p1 k1 r1)); [simpl in *; lia | done | done].
Qed.

Definition upto (k : Z) (l : list (Z * Z)) : list (Z * Z) := filter (fun e => e.1 <= k) l.
Definition from (k : Z) (l : list (Z * Z)) : list (Z * Z) := filter (fun e => k <= e.1) l.

Lemma filter_split (P : Z * Z -> Prop) `{!forall x, Decision (P x)} l1 l2 :
  (forall e, e ∈ l1 -> P e) -> (forall e, e ∈ l2 -> ~ P e) -> filter P (l1 ++ l2) = l1.
Proof.
  intros H1 H2. rewrite filter_app. replace (filter P l2) with (@nil (Z * Z)).
  - rewrite app_nil_r. induction l1 as [| a l1 IH]; [done|].
    rewrite filter_cons_True by (apply H1; set_solver). rewrite IH; [done | set_solver].
  - symmetry. induction l2 as [| a l2 IH]; [done|].
    rewrite filter_cons_False by (apply H2; set_solver). apply IH. set_solver.
Qed.

Lemma filter_split_r (P : Z * Z -> Prop) `{!forall x, Decision (P x)} l1 l2 :
  (forall e, e ∈ l1 -> ~ P e) -> (forall e, e ∈ l2 -> P e) -> filter P (l1 ++ l2) = l2.
Proof.
  intros H1 H2. rewrite filter_app, <- (app_nil_r l2), (filter_split P l2 []) by set_solver.
  rewrite app_nil_r. by rewrite <- (app_nil_l l1), (filter_split P [] l1) by set_solver.
Qed.

Lemma key_in (l : list (Z * Z)) e : e ∈ l -> e.1 ∈ l.*1.
Proof. intros H. apply list_elem_of_fmap. eauto. Qed.

Section Nearest.
Context (s : rb_tree_t) (t : tree) (k : Z).
Hypothesis Hinv : rb_inv s t.

Lemma nearest_unfold inc : t <> E -> nearest_loop (fuel s) s inc k (root s) =
  Some (match search k t [] with None => find k t | Some cx' => beyond inc cx' end).
Proof.
  intros Ht. destruct Hinv as (Hrep & _ & _). pose proof (repz_size _ _ _ Hrep).
  pose proof Hrep as (Hroot & _). simpl in Hroot. rewrite Hroot.
  apply nearest_loop_ok; [lia | done | done].
Qed.

Lemma present_split : k ∈ (inorder t).*1 ->
  exists L R, inorder t = L ++ (k, find k t) :: R
    /\ (forall e, e ∈ L -> e.1 < k) /\ (forall e, e ∈ R -> k < e.1).
Proof.
  intros Hin. destruct Hinv as ((_ & _ & _ & Hal) & Ho & _). rewrite app_nil_r in Hal.
  assert (Hf : find k t <> 0) by (intros H0; by apply (find_absent _ _ Hal Ho H0)).
  apply find_in in Hf. apply list_elem_of_split in Hf as (L & R & Heq). exists L, R.
  split; [done|]. unfold ordered in Ho. rewrite Heq, fmap_app, fmap_cons in Ho. simpl in Ho.
  apply sorted_app in Ho as (_ & Ho & HL). apply StronglySorted_inv in Ho as [_ Ho].
  rewrite Forall_forall in Ho. split.
  - intros e He. apply HL; [by apply key_in | set_solver].
  - intros e He. apply Ho. by apply key_in.
Qed.

Lemma absent_split cx : search k t [] = Some cx ->
  inorder t = before cx ++ after cx
  /\ (forall e, e ∈ before cx -> e.1 < k) /\ (forall e, e ∈ after cx -> k < e.1).
Proof.
  intros Hs. destruct Hinv as (_ & Ho & _).
  pose proof (search_spec k t [] Ho) as H. rewrite Hs in H. simpl in H.
  destruct H as (Hpl & _ & HL & HR); [set_solver | set_solver |]. split_and!.
  - rewrite <- Hpl. by rewrite inorder_plug.
  - intros e He. apply HL. by apply key_in.
  - intros e He. apply HR. by apply key_in.
Qed.

Lemma lookup_decreasing_ok :
  rb_tree_lookup_decreasing_node s k = Some (last_ptr (upto k (inorder t))).
Proof.
  unfold rb_tree_lookup_decreasing_node. destruct (decide (t = E)) as [Ht | Ht].
  { destruct Hinv as ((Hroot & _) & _). subst t. simpl in Hroot. by rewrite Hroot. }
  rewrite nearest_unfold by done. f_equal. pose proof Hinv as (_ & Ho & _).
  pose proof (search_spec k t [] Ho) as H. simpl in H.
  destruct (search k t []) as [cx|] eqn:Hs.
  - destruct (absent_split _ Hs) as (-> & HL & HR). unfold upto. rewrite filter_split; [done| |].
    + intros e He. specialize (HL e He). lia.
    + intros e He. specialize (HR e He). lia.
  - destruct present_split as (L & R & -> & HL & HR); [apply H; set_solver|].
    unfold upto. rewrite cons_middle, app_assoc, filter_split; [by rewrite last_ptr_app| |].
    + intros e He. apply elem_of_app in He as [He | He].
      * specialize (HL e He). lia.
      * apply list_elem_of_singleton in He as ->. simpl. lia.
    + intros e He. specialize (HR e He). lia.
Qed.

Lemma lookup_increasing_ok :
  rb_tree_lookup_increasing_node s k = Some (first_ptr (from k (inorder t))).
Proof.
  unfold rb_tree_lookup_increasing_node. destruct (decide (t = E)) as [Ht | Ht].
  { destruct Hinv as ((Hroot & _) & _). subst t. simpl in Hroot. by rewrite Hroot. }
  rewrite nearest_unfold by done. f_equal. pose proof Hinv as (_ & Ho & _).
  pose proof (search_spec k t [] Ho) as H. simpl in H.
  destruct (search k t []) as [cx|] eqn:Hs.
  - destruct (absent_split _ Hs) as (-> & HL & HR). unfold from. rewrite filter_split_r; [done| |].
    + intros e He. specialize (HL e He). lia.
    + intros e He. specialize (HR e He). lia.
  - destruct present_split as (L & R & -> & HL & HR); [apply H; set_solver|].
    unfold from. rewrite filter_split_r; [done| |].
    + intros e He. specialize (HL e He). lia.
    + intros e He. apply elem_of_cons in He as [-> | He]; simpl; [lia|]. specialize (HR e He). lia.
Qed.

End Nearest.
