(* ===== verification/RbTreeSwap.v ===== *)
(** * Removal, part one: a node with two children trades places with its
    in-order successor. *)
From stdpp Require Import base tactics list numbers gmap sorting.
From Stdlib Require Import ZArith Lia Wf_nat.
From S2P Require Import Prelude RbTree RbTreeRep RbTreeInsert RbTreeSearch.
#[local] Open Scope Z_scope.

(** ** Moving a node to the place of its successor *)

(** The frames of a path segment in memory: hole pointer [a], and [par] the
    parent of the outermost frame. *)
Fixpoint seg_at (h : gmap Z rb_tree_node_t) (par a : Z) (cx : list frame) : Prop :=
  match cx with
  | [] => True
  | Fr d c p k sib :: cx' =>
      h !! p = Some (mk_rb_node k (pack (match cx' with [] => par | _ => top cx' end) c)
                       (if d then addr sib else a) (if d then a else addr sib))
      /\ tree_at h p sib /\ seg_at h par p cx'
  end.

(** The address at the outer end of a segment. *)
Fixpoint bot (a : Z) (cx : list frame) : Z :=
  match cx with [] => a | Fr _ _ p _ _ :: cx' => bot p cx' end.

Lemma ctx_at_app h rt d c p k sib cx2 cx1 : forall a,
  ctx_at h rt a (cx1 ++ Fr d c p k sib :: cx2) <->
  seg_at h p a cx1 /\ ctx_at h rt (bot a cx1) (Fr d c p k sib :: cx2).
Proof.
  induction cx1 as [| [d1 c1 p1 k1 s1] cx1 IH]; intros a; [simpl; tauto|].
  simpl. rewrite (IH p1). destruct cx1 as [| [] cx1]; simpl; tauto.
Qed.

Lemma caddrs_app cx1 cx2 : caddrs (cx1 ++ cx2) = caddrs cx1 ++ caddrs cx2.
Proof.
  induction cx1 as [| [d c p k s] cx1 IH]; simpl; [done|]. by rewrite IH, <- app_assoc.
Qed.

Definition agree (S : list Z) (h h' : gmap Z rb_tree_node_t) : Prop :=
  forall q, q ∉ S -> h' !! q = h !! q.

Lemma agree_refl S h : agree S h h.
Proof. by intros q. Qed.

Lemma agree_trans S h1 h2 h3 : agree S h1 h2 -> agree S h2 h3 -> agree S h1 h3.
Proof. intros H1 H2 q Hq. by rewrite H2, H1. Qed.

Lemma agree_weaken S S' h h' : (forall q, q ∈ S -> q ∈ S') -> agree S h h' -> agree S' h h'.
Proof. intros HS H q Hq. apply H. set_solver. Qed.

Lemma agree_store S s x n : x ∈ S -> agree S (nodes s) (nodes (store s x n)).
Proof. intros Hx q Hq. simpl. rewrite lookup_insert_ne; [done | set_solver]. Qed.

Lemma agree_tree S h h' par t :
  agree S h h' -> (forall q, q ∈ addrs t -> q ∉ S) -> tree_at h par t -> tree_at h' par t.
Proof. intros Ha Hd. apply tree_at_agree. auto. Qed.

Lemma agree_ctx S h h' rt a cx :
  agree S h h' -> (forall q, q ∈ caddrs cx -> q ∉ S) -> ctx_at h rt a cx -> ctx_at h' rt a cx.
Proof. intros Ha Hd. apply ctx_at_agree. auto. Qed.

Lemma agree_seg S h h' par a cx :
  agree S h h' -> (forall q, q ∈ caddrs cx -> q ∉ S) -> seg_at h par a cx -> seg_at h' par a cx.
Proof.
  intros Ha. revert a. induction cx as [| [d c p k sib] cx IH]; intros a Hd; simpl in *; [done|].
  intros (H1 & H2 & H3). split_and!.
  - rewrite Ha; [done | apply Hd; set_solver].
  - eapply agree_tree; [done | | done]. set_solver.
  - apply IH; [set_solver | done].
Qed.

(** Every frame of the segment hangs its hole to the left. *)
Definition all_left (cx : list frame) : Prop :=
  Forall (fun f => match f with Fr d _ _ _ _ => d = false end) cx.

Lemma all_left_before cx : all_left cx -> before cx = [].
Proof.
  induction cx as [| [d c p k s] cx IH]; intros H; [done|]. inversion H; subst.
  simpl. by rewrite IH.
Qed.

(** The leftmost node of a subtree. *)
Lemma leftmost t : t <> E -> exists cx c p k r, t = plug cx (T c E p k r) /\ all_left cx.
Proof.
  induction t as [| c l IHl p k r _]; [done|]. intros _.
  destruct l as [| c1 l1 p1 k1 r1]; [by exists [], c, p, k, r; split; [|constructor]|].
  destruct IHl as (cx & c' & p' & k' & r' & -> & Hl); [done|].
  exists (cx ++ [Fr false c p k r]), c', p', k', r'. rewrite plug_app. split; [done|].
  apply Forall_app. split; [done | by constructor].
Qed.

Lemma seg_set_hole s par a cx a' :
  cx <> [] -> all_left cx -> seg_at (nodes s) par a cx -> NoDup (caddrs cx) ->
  a <> 0 -> a ∉ caddrs cx ->
  exists wr s', child s (top cx) true = Some wr /\ set_child s (top cx) (a =? wr) a' = Some s'
    /\ seg_at (nodes s') par a' cx /\ root s' = root s /\ agree [top cx] (nodes s) (nodes s').
Proof.
  intros Hne Hl Hs Hnd Ha0 Ha. destruct cx as [| [d c p k sib] cx]; [done|].
  inversion Hl; subst. destruct Hs as (Hp & Hsib & Hs). cbn [top].
  exists (addr sib). rewrite (child_eq _ _ _ _ Hp). simpl.
  assert (Hside : (a =? addr sib) = false).
  { apply Z.eqb_neq. intros ->. destruct sib; [done|]. simpl in Ha. set_solver. }
  rewrite Hside, (set_child_eq _ _ _ _ _ Hp). eexists. split; [done|]. split; [done|]. split; [|split; [done|]].
  - simpl in Hnd. apply NoDup_cons in Hnd as [Hpn Hnd]. split_and!.
    + simpl. by rewrite lookup_insert_eq.
    + apply tree_at_frame; [set_solver | done].
    + eapply (agree_seg [p]); [apply agree_store; set_solver | set_solver | done].
  - apply agree_store. set_solver.
Qed.

Lemma seg_set_parent s par a cx par' :
  cx <> [] -> seg_at (nodes s) par a cx -> NoDup (caddrs cx) -> par = 0 \/ aligned par ->
  exists s', _set_parent s (bot a cx) par' = Some s' /\ seg_at (nodes s') par' a cx
    /\ root s' = root s /\ agree [bot a cx] (nodes s) (nodes s') /\ bot a cx ∈ caddrs cx.
Proof.
  intros Hne Hs Hnd Hpar. revert a Hs. induction cx as [| [d c p k sib] cx IH]; intros a Hs; [done|].
  destruct Hs as (Hp & Hsib & Hs). cbn [bot]. simpl in Hnd. apply NoDup_cons in Hnd as [Hpn Hnd].
  apply NoDup_app in Hnd as (Hnd1 & Hd & Hnd). destruct cx as [| f cx].
  - simpl. rewrite (set_parent_eq _ _ _ _ Hp). eexists. split; [done|]. cbn [seg_at]. split_and!.
    + simpl. rewrite lookup_insert_eq. unfold with_parent. simpl. by rewrite aligned_pack_color.
    + apply tree_at_frame; [set_solver | done].
    + done.
    + done.
    + apply agree_store. set_solver.
    + set_solver.
  - destruct (IH ltac:(done) Hnd p Hs) as (s' & E1 & H1 & H2 & H3 & H4). exists s'.
    split; [done|]. split; [split; [|split; [|done]] | split_and!; [done | done | simpl; set_solver]].
    + rewrite H3; [destruct f; exact Hp |]. set_solver.
    + eapply agree_tree; [exact H3 | | done]. intros q Hq. specialize (Hd q Hq). set_solver.
Qed.

Lemma aligned_nonzero p : aligned p -> p <> 0.
Proof. intros [? _]. lia. Qed.

Lemma bot_neq a cx : cx <> [] -> bot a cx ∈ caddrs cx.
Proof.
  revert a. induction cx as [| [d c0 p k0 sib] cx IH]; intros a H; [done|]. simpl.
  destruct cx as [| f cx]; [set_solver|]. specialize (IH p ltac:(done)). set_solver.
Qed.

Ltac notin := rewrite ?not_elem_of_cons, ?elem_of_nil; intuition congruence.

Section SwapLink.
Context (s : rb_tree_t) (x z k kz tp al rz : Z) (c cz : bool) (cxz : list frame).
Let pz := match cxz with [] => x | _ => top cxz end.
Hypothesis Hx : nodes s !! x = Some (mk_rb_node k (pack tp c) 0 (bot z cxz)).
Hypothesis Hz : nodes s !! z = Some (mk_rb_node kz (pack pz cz) al rz).
Hypothesis Hseg : seg_at (nodes s) x z cxz.
Hypothesis Hleft : all_left cxz.
Hypothesis Hnd : NoDup (x :: z :: caddrs cxz).
Hypothesis Hal : Forall aligned (x :: z :: caddrs cxz).
Hypothesis Htp : tp = 0 \/ aligned tp.

Lemma remove_swap_link_ok :
  exists s', remove_swap_link s x z = Some s'
    /\ nodes s' !! z = Some (mk_rb_node kz (pack pz cz) al (bot x cxz))
    /\ nodes s' !! x = Some (mk_rb_node k (pack (match cxz with [] => z | _ => top cxz end) c) 0 rz)
    /\ seg_at (nodes s') z x cxz /\ root s' = root s
    /\ agree (x :: z :: caddrs cxz) (nodes s) (nodes s').
Proof.
  unfold remove_swap_link. rewrite (child_eq _ _ _ _ Hx). simpl.
  apply NoDup_cons in Hnd as [Hxn Hnd']. apply NoDup_cons in Hnd' as [Hzn Hndc].
  rewrite !Forall_cons in Hal. destruct Hal as (Hxa & Hza & Hca).
  assert (Hxz : x <> z) by set_solver.
  destruct (decide (cxz = [])) as [-> | Hne].
  - simpl. rewrite Z.eqb_refl, (child_eq _ _ _ _ Hz). simpl.
    rewrite (set_child_eq _ _ _ _ _ Hx). simpl.
    erewrite set_child_eq by (simpl; rewrite lookup_insert_ne by done; exact Hz). simpl.
    erewrite set_parent_eq by (simpl; rewrite lookup_insert_ne by done; apply lookup_insert_eq).
    eexists. split; [done|]. simpl. split_and!; try done.
    + rewrite lookup_insert_ne, lookup_insert_eq by done. done.
    + rewrite lookup_insert_eq. unfold with_parent. simpl. by rewrite aligned_pack_color.
    + intros q Hq. simpl. rewrite !lookup_insert_ne by set_solver. done.
  - pose proof (bot_neq z cxz Hne) as Hbin.
    assert (Hzb : z <> bot z cxz) by (intros Heq; apply Hzn; by rewrite Heq).
    assert (Hxb : x <> bot z cxz) by (intros Heq; rewrite Heq in Hxn; set_solver).
    rewrite (proj2 (Z.eqb_neq z (bot z cxz)) Hzb).
    rewrite (child_eq _ _ _ _ Hz). simpl. rewrite (set_child_eq _ _ _ _ _ Hx). simpl.
    erewrite set_child_eq by (simpl; rewrite lookup_insert_ne by done; exact Hz). simpl.
    erewrite child_eq by (simpl; apply lookup_insert_eq). simpl.
    match goal with |- context [_set_parent ?st (bot z cxz) z] => set (s2 := st) end.
    assert (Ha2 : agree [x; z] (nodes s) (nodes s2)).
    { intros q Hq. simpl. rewrite !lookup_insert_ne by set_solver. done. }
    assert (Hseg2 : seg_at (nodes s2) x z cxz) by (eapply agree_seg; [exact Ha2 | set_solver | done]).
    destruct (seg_set_parent s2 x z cxz z Hne Hseg2 Hndc (or_intror Hxa)) as (s3 & -> & Hseg3 & Hr3 & Ha3 & _).
    simpl. assert (Hz3 : nodes s3 !! z = Some (mk_rb_node kz (pack pz cz) al (bot z cxz))).
    { rewrite Ha3 by notin. simpl. by rewrite lookup_insert_eq. }
    assert (Htop : top cxz ∈ caddrs cxz) by (destruct cxz as [| [] ?]; [done | simpl; set_solver]).
    assert (Htopa : aligned (top cxz)) by (rewrite Forall_forall in Hca; auto).
    assert (Hzt : z <> top cxz) by (intros Heq; apply Hzn; by rewrite Heq).
    assert (Hxt : x <> top cxz) by (intros Heq; rewrite Heq in Hxn; set_solver).
    unfold _get_parent, load. rewrite Hz3. simpl.
    rewrite aligned_pack_parent by (subst pz; destruct cxz; [done | by right]).
    replace pz with (top cxz) by (subst pz; by destruct cxz).
    destruct (seg_set_hole s3 z z cxz x Hne Hleft Hseg3 Hndc) as (wr & s4 & -> & Hset & Hseg4 & Hr4 & Ha4);
      [by apply aligned_nonzero | done |].
    simpl. rewrite Hset. simpl.
    assert (Hx4 : nodes s4 !! x = Some (mk_rb_node k (pack tp c) 0 rz)).
    { rewrite Ha4, Ha3 by notin. simpl. rewrite lookup_insert_ne, lookup_insert_eq by done. done. }
    rewrite (set_parent_eq _ _ _ _ Hx4). eexists. split; [done|].
    assert (Hbx : bot z cxz = bot x cxz) by (by destruct cxz as [| [] ?]). simpl. split_and!.
    + rewrite lookup_insert_ne by done. rewrite Ha4 by notin. rewrite Hz3, Hbx. subst pz. by destruct cxz.
    + rewrite lookup_insert_eq. unfold with_parent. simpl. rewrite aligned_pack_color by done.
      by destruct cxz.
    + eapply (agree_seg [x]); [apply agree_store; set_solver | set_solver | done].
    + rewrite Hr4, Hr3. done.
    + intros q Hq. rewrite lookup_insert_ne by set_solver. rewrite Ha4, Ha3 by set_solver.
      apply Ha2. set_solver.
Qed.

End SwapLink.

Lemma repz_app s cx1 cx2 t : repz s (cx1 ++ cx2) t <-> repz s cx2 (plug cx1 t).
Proof. by rewrite !repz_plug, plug_app. Qed.

Lemma addr_plug cx t : addr (plug cx t) = bot (addr t) cx.
Proof.
  revert t. induction cx as [| [d c p k sib] cx IH]; intros t; [done|].
  simpl. by rewrite IH, addr_N.
Qed.

Lemma seg_top_cons cx x : match cx with [] => x | _ => top cx end = top (cx ++ [Fr true true x 0 E]).
Proof. by destruct cx. Qed.

Lemma set_color_eq s x k par c l r c' :
  nodes s !! x = Some (mk_rb_node k (pack par c) l r) -> par = 0 \/ aligned par ->
  _set_color s x c' = Some (store s x (mk_rb_node k (pack par c') l r)).
Proof.
  intros H Hp. unfold _set_color, load. rewrite H. simpl. by rewrite aligned_pack_parent.
Qed.

Lemma get_color_eq s x k par c l r :
  nodes s !! x = Some (mk_rb_node k (pack par c) l r) -> par = 0 \/ aligned par ->
  _get_color s x = Some c.
Proof.
  intros H Hp. unfold _get_color, load. rewrite H. simpl. rewrite aligned_pack_color by done.
  by destruct c.
Qed.

(** The end of the swap: [z] takes the parent and the colour of [x]. *)
Lemma swap_finish s x z k kz px pz tp al ar arz c cz :
  nodes s !! z = Some (mk_rb_node kz (pack pz cz) al ar) ->
  nodes s !! x = Some (mk_rb_node k (pack px c) 0 arz) -> x <> z ->
  px = 0 \/ aligned px -> pz = 0 \/ aligned pz -> tp = 0 \/ aligned tp ->
  exists s', (s ← _set_parent s z tp; tmp ← _get_color s z; cx ← _get_color s x;
              s ← _set_color s z cx; _set_color s x tmp) = Some s'
    /\ nodes s' !! z = Some (mk_rb_node kz (pack tp c) al ar)
    /\ nodes s' !! x = Some (mk_rb_node k (pack px cz) 0 arz)
    /\ root s' = root s /\ agree [x; z] (nodes s) (nodes s').
Proof.
  intros Hz Hx Hxz Hpx Hpz Htp. rewrite (set_parent_eq _ _ _ _ Hz). simpl.
  set (s1 := store s z _).
  assert (Hz1 : nodes s1 !! z = Some (mk_rb_node kz (pack tp cz) al ar)).
  { simpl. rewrite lookup_insert_eq. unfold with_parent. simpl. by rewrite aligned_pack_color. }
  assert (Hx1 : nodes s1 !! x = Some (mk_rb_node k (pack px c) 0 arz)).
  { simpl. by rewrite lookup_insert_ne. }
  rewrite (get_color_eq _ _ _ _ _ _ _ Hz1 Htp). simpl.
  rewrite (get_color_eq _ _ _ _ _ _ _ Hx1 Hpx). simpl.
  rewrite (set_color_eq _ _ _ _ _ _ _ _ Hz1 Htp). simpl.
  erewrite set_color_eq by (done || (simpl; rewrite lookup_insert_ne by done; exact Hx1)).
  eexists. split; [done|]. simpl. split_and!; try done.
  - rewrite lookup_insert_ne by done. apply lookup_insert_eq.
  - apply lookup_insert_eq.
  - intros q Hq. rewrite !not_elem_of_cons in Hq. rewrite !lookup_insert_ne by intuition congruence. done.
Qed.

Section Swap.
Context (s : rb_tree_t) (cx : list frame) (c : bool) (l : tree) (x k : Z).
Context (cxz : list frame) (cz : bool) (z kz : Z) (rz : tree).
Hypothesis Hrep : repz s (cxz ++ Fr true c x k l :: cx) (T cz E z kz rz).
Hypothesis Hl : l <> E.
Hypothesis Hleft : all_left cxz.

(** The footprints that the operation keeps apart are disjoint. *)
Ltac disj :=
  match goal with
  | H1 : x ∉ _, H2 : z ∉ _, H3 : (forall q, q ∈ caddrs cxz -> _),
    H4 : (forall q, q ∈ addrs rz -> _), H5 : (forall q, q ∈ addrs l -> _) |- _ =>
      try match goal with Hq : _ ∈ _ |- _ => revert Hq end; clear - H1 H2 H3 H4 H5; set_solver
  end.

Lemma remove_swap_ok :
  exists s', remove_swap s x (top cx) = Some s'
    /\ repz s' (cxz ++ Fr true c z kz l :: cx) (T cz E x k rz).
Proof.
  pose proof (proj1 (repz_app _ _ _ _) Hrep) as H0. apply repz_plug1 in H0. simpl in H0.
  unfold remove_swap. rewrite (read_child _ _ _ _ _ _ _ H0). simpl.
  pose proof (repz_same _ _ true _ _ _ _ _ H0) as Hr.
  pose proof (repz_size _ _ _ Hr) as Hf.
  rewrite (walk_down_ok _ _ false (Fr true c x k l :: cx)); [| lia | done |];
    [| intros He; apply (f_equal inorder) in He; rewrite inorder_plug in He; simpl in He;
       by destruct (before cxz)].
  simpl. rewrite inorder_plug, all_left_before by done. cbn [inorder app first_ptr fmap list_fmap head default].
  change (first_ptr _) with z. simpl.
  pose proof (ctx_addr_aligned _ _ _ H0) as Htop. clear Hr Hf H0.
  destruct Hrep as (Hcx & Htr & Hnd & Hal).
  rewrite ctx_at_app in Hcx. destruct Hcx as (Hseg & Hx & Hlt & Hcx).
  destruct Htr as (Hz & _ & Hrz).
  assert (Hperm : addrs (T cz E z kz rz) ++ caddrs (cxz ++ Fr true c x k l :: cx)
     ≡ₚ x :: z :: caddrs cxz ++ addrs rz ++ addrs l ++ caddrs cx)
    by (rewrite caddrs_app; simpl; solve_Permutation).
  assert (Hperm' : addrs (T cz E x k rz) ++ caddrs (cxz ++ Fr true c z kz l :: cx)
     ≡ₚ x :: z :: caddrs cxz ++ addrs rz ++ addrs l ++ caddrs cx)
    by (rewrite caddrs_app; simpl; solve_Permutation).
  rewrite Hperm in Hnd, Hal. clear Hperm.
  assert (Hnd0 : NoDup (x :: z :: caddrs cxz)).
  { rewrite !app_comm_cons in Hnd. by apply NoDup_app in Hnd as (? & _). }
  assert (Hal0 : Forall aligned (x :: z :: caddrs cxz)).
  { rewrite !app_comm_cons in Hal. by apply Forall_app in Hal as (? & _). }
  pose proof Hnd as Hnd1. apply NoDup_cons in Hnd1 as [Hxn Hnd1]. apply NoDup_cons in Hnd1 as [Hzn Hnd1].
  apply NoDup_app in Hnd1 as (Hndz & Hdz & Hnd1). apply NoDup_app in Hnd1 as (Hndr & Hdr & Hnd1).
  apply NoDup_app in Hnd1 as (Hndl & Hdl & Hndc).
  pose proof Hal as Hal1. rewrite !Forall_cons, !Forall_app in Hal1.
  destruct Hal1 as (Hxa & Hza & Hzca & Hra & Hla & Hca).
  assert (Hxz : x <> z) by set_solver.
  (* the pointer to x becomes a pointer to z *)
  destruct (replace_child_ok s cx x z Hcx Hndc Hca (aligned_nonzero _ Hxa)) as (s1 & -> & Hc1 & Ha1 & _);
    [set_solver|]. simpl.
  assert (Hx1 : nodes s1 !! x = nodes s !! x) by (apply Ha1; set_solver).
  assert (Hz1 : nodes s1 !! z = nodes s !! z) by (apply Ha1; set_solver).
  rewrite Hx in Hx1. rewrite Hz in Hz1. rewrite (child_eq _ _ _ _ Hx1). simpl.
  rewrite (set_child_eq _ _ _ _ _ Hz1). simpl.
  erewrite set_child_eq by (simpl; rewrite lookup_insert_ne by done; exact Hx1). simpl.
  erewrite child_eq by (simpl; rewrite lookup_insert_ne by done; apply lookup_insert_eq). simpl.
  match goal with |- context [_set_parent ?st (addr l) z] => set (s3 := st) end.
  assert (Ha3 : agree [x; z] (nodes s1) (nodes s3)).
  { intros q Hq. simpl. rewrite !lookup_insert_ne by set_solver. done. }
  assert (Hl3 : tree_at (nodes s3) x l).
  { eapply agree_tree; [exact Ha3 | set_solver |]. eapply tree_at_agree; [| exact Hlt].
    intros q Hq. apply Ha1. by apply Hdl. }
  destruct (reparent_ok s3 x z l Hl3 (or_intror Hxa) Hndl Hla) as (s4 & Hs4 & Hl4 & Hr4 & Ha4).
  assert (Hal0' : addr l <> 0).
  { destruct l as [| c1 l1 p1 k1 r1]; [done|]. apply aligned_nonzero. rewrite Forall_forall in Hla.
    apply Hla. simpl. set_solver. }
  rewrite (proj2 (Z.eqb_neq _ _) Hal0') in Hs4. rewrite Hs4. simpl.
  (* x takes the place of z *)
  assert (Hagree4 : forall q, q ∉ x :: z :: addrs l ++ caddrs cx -> nodes s4 !! q = nodes s !! q).
  { intros q Hq. rewrite Ha4, Ha3, Ha1 by (clear - Hq; set_solver). done. }
  destruct (remove_swap_link_ok s4 x z k kz (top cx) (addr l) (addr rz) c cz cxz)
    as (s5 & -> & Hz5 & Hx5 & Hseg5 & Hr5 & Ha5); [| | | done | done | done | done |].
  { rewrite Ha4 by disj. simpl. by rewrite lookup_insert_eq. }
  { rewrite Ha4 by disj. simpl. rewrite lookup_insert_ne, lookup_insert_eq by done.
    unfold with_child. simpl. do 3 f_equal. by destruct cxz as [| [] ?]. }
  { eapply agree_seg; [exact Hagree4 | | done].
    disj. }
  simpl. rewrite (child_eq _ _ _ _ Hx5). simpl.
  (* the right subtree of z moves below x *)
  assert (Hrz5 : tree_at (nodes s5) z rz).
  { eapply agree_tree; [exact Ha5 | disj |].
    eapply tree_at_agree; [| exact Hrz]. intros q Hq. apply Hagree4. disj. }
  destruct (reparent_ok s5 z x rz Hrz5 (or_intror Hza) Hndr Hra) as (s6 & Hs6 & Hrz6 & Hr6 & Ha6).
  assert (Hif : (if negb (addr rz =? 0) then _set_parent s5 (addr rz) x else Some s5) = Some s6)
    by (by destruct (addr rz =? 0)).
  rewrite Hif. simpl. clear Hif Hs6.
  assert (Hz6 : nodes s6 !! z = nodes s5 !! z) by (apply Ha6; disj).
  assert (Hx6 : nodes s6 !! x = nodes s5 !! x) by (apply Ha6; disj).
  rewrite Hz5 in Hz6. rewrite Hx5 in Hx6.
  assert (Hpx : (match cxz with [] => z | _ => top cxz end) = 0 \/ aligned (match cxz with [] => z | _ => top cxz end)).
  { right. destruct cxz as [| [] ?]; [done|]. simpl in *. by inversion Hzca. }
  assert (Hpz : (match cxz with [] => x | _ => top cxz end) = 0 \/ aligned (match cxz with [] => x | _ => top cxz end)).
  { right. destruct cxz as [| [] ?]; [done|]. simpl in *. by inversion Hzca. }
  destruct (swap_finish s6 x z k kz _ _ (top cx) _ _ _ c cz Hz6 Hx6 Hxz Hpx Hpz Htop)
    as (s7 & -> & Hz7 & Hx7 & Hr7 & Ha7).
  exists s7. split; [done|]. unfold repz. rewrite Hperm', ctx_at_app. cbn [ctx_at tree_at addr].
  assert (Hagree7 : agree (x :: z :: addrs rz) (nodes s5) (nodes s7)).
  { intros q Hq. rewrite Ha7 by (clear - Hq; set_solver). apply Ha6. clear - Hq. set_solver. }
  assert (Hroot7 : root s7 = root s1) by (rewrite Hr7, Hr6, Hr5, Hr4; done).
  split_and!; try done.
  - eapply agree_seg; [exact Hagree7 | disj | done].
  - eapply agree_tree; [exact Hagree7 | disj |].
    eapply agree_tree; [exact Ha5 | disj | done].
  - rewrite Hroot7. eapply agree_ctx; [exact Hagree7 | disj |].
    eapply agree_ctx; [exact Ha5 | disj |].
    eapply ctx_at_agree; [intros q Hq; rewrite Ha4 by disj; apply Ha3; disj | done].
  - rewrite Hx7. unfold node_of. simpl. by destruct cxz as [| [] ?].
  - eapply (agree_tree [x; z]); [exact Ha7 | disj | done].
Qed.

End Swap.
