(* ===== verification/RbTreeRemove.v ===== *)
(** * Removal, part two: unlinking a node and restoring the balance. *)
From stdpp Require Import base tactics list numbers gmap sorting.
From Stdlib Require Import ZArith Lia Wf_nat.
From S2P Require Import Prelude RbTree RbTreeRep RbTreeInsert RbTreeSearch RbTreeSwap.
#[local] Open Scope Z_scope.

(** ** The rebalancing on abstract trees *)

(** [t] is the short subtree at side [d] of the node [p]; its sibling is black.
    [inl]: balanced again; [inr]: the whole subtree is now short. *)
Definition del_black (d c : bool) (p k : Z) (t sib : tree) : tree + tree :=
  let pz := addr sib in let kz := tkey sib in
  let u := sub sib (negb d) in let v := sub sib d in
  if is_red u then inl (N d c pz kz (N d false p k t v) (recolor false u))
  else if is_red v then
    inl (N d c (addr v) (tkey v) (N d false p k t (sub v d)) (N d false pz kz (sub v (negb d)) u))
  else if c then inl (N d false p k t (recolor true sib))
  else inr (N d false p k t (recolor true sib)).

Fixpoint del_fix (t : tree) (cx : list frame) : tree :=
  match cx with
  | [] => t
  | Fr d c p k sib :: cx =>
      if is_red sib then
        match del_black d true p k t (sub sib d) with
        | inl t' | inr t' => plug cx (N d false (addr sib) (tkey sib) t' (sub sib (negb d)))
        end
      else
        match del_black d c p k t sib with
        | inl t' => plug cx t'
        | inr t' => del_fix t' cx
        end
  end.

Lemma recolor_N c' d t : t <> E ->
  recolor c' t = N d c' (addr t) (tkey t) (sub t d) (sub t (negb d)).
Proof. destruct t; [done|]. by destruct d. Qed.

Lemma inorder_recolor c t : inorder (recolor c t) = inorder t.
Proof. by destruct t. Qed.

Lemma inorder_del_black d c p k t sib :
  sib <> E -> match del_black d c p k t sib with
  | inl t' | inr t' => inorder t' = inorder (N d c p k t sib)
  end.
Proof.
  intros Hs. destruct sib as [| cs ls ps ks rs]; [done|]. unfold del_black. simpl.
  destruct d; simpl.
  - destruct (is_red ls) eqn:E1; [by simpl; rewrite inorder_recolor; norm_app|].
    destruct rs as [| cv lv pv kv rv]; simpl.
    { destruct c; simpl; norm_app; done. }
    destruct cv; [simpl; norm_app; done |]. destruct c; simpl; norm_app; done.
  - destruct (is_red rs) eqn:E1; [by simpl; rewrite inorder_recolor; norm_app|].
    destruct ls as [| cv lv pv kv rv]; simpl.
    { destruct c; simpl; norm_app; done. }
    destruct cv; [simpl; norm_app; done |]. destruct c; simpl; norm_app; done.
Qed.

(** A context whose hole needs black height [S n] has non-empty siblings. *)
Lemma rbt_S_inv n t : rbt (S n) t -> is_red t = false ->
  t <> E /\ rbt n (sub t true) /\ rbt n (sub t false).
Proof. intros H Hr. inversion H; subst; simpl in *; done. Qed.

Lemma rbt_sub_black n t d : rbt (S n) t -> is_red t = false -> rbt n (sub t d).
Proof. intros H Hr. destruct (rbt_S_inv _ _ H Hr) as (_ & ? & ?). by destruct d. Qed.

Lemma rbt_redden n t : rbt (S n) t -> is_red t = false ->
  is_red (sub t true) = false -> is_red (sub t false) = false -> rbt n (recolor true t).
Proof. intros H Hr. inversion H; subst; simpl in *; try done. auto with rbtree. Qed.

Lemma is_red_recolor c t : t <> E -> is_red (recolor c t) = c.
Proof. by destruct t. Qed.

(** With a black sibling one black node higher, the black height is restored
    ([n] plus one, plus one more when the node itself was black), or the node
    was black and its subtree lost one level. *)
Lemma rbt_del_black n d c p k t sib :
  rbt n t -> is_red t = false -> rbt (S n) sib -> is_red sib = false ->
  match del_black d c p k t sib with
  | inl t' => rbt (if c then S n else S (S n)) t' /\ (c = false -> is_red t' = false)
  | inr t' => c = false /\ rbt (S n) t' /\ is_red t' = false
  end.
Proof.
  intros Ht Htr Hs Hsr. unfold del_black.
  pose proof (rbt_sub_black _ _ d Hs Hsr) as Hv. pose proof (rbt_sub_black _ _ (negb d) Hs Hsr) as Hu.
  destruct (is_red (sub sib (negb d))) eqn:E1.
  - split; [| intros ->; apply is_red_N]. pose proof (rbt_blacken _ _ Hu E1).
    destruct c; auto using rbt_N_black, rbt_N_red, is_red_N.
    apply rbt_N_red; auto using rbt_N_black, is_red_N. by destruct (sub sib (negb d)).
  - destruct (is_red (sub sib d)) eqn:E2.
    + split; [| intros ->; apply is_red_N].
      destruct (rbt_sub _ _ d Hv E2), (rbt_sub _ _ (negb d) Hv E2).
      destruct c; auto using rbt_N_black, rbt_N_red, is_red_N.
    + assert (Hred : rbt n (recolor true sib)).
      { apply rbt_redden; try done; by destruct d. }
      destruct c; split_and!; auto using rbt_N_black, is_red_N.
Qed.

Lemma rbt_del_fix cx : forall b n t, rctx b (S n) cx -> rbt n t -> is_red t = false ->
  exists m, rbt m (del_fix t cx).
Proof.
  induction cx as [| [d c p k sib] cx IH]; intros b n t Hc Ht Htr; simpl; [eauto|].
  inversion Hc as [| ? ? ? ? ? ? Hs Hsr Hc1 | b' ? ? ? ? ? ? Hs Hc1]; subst.
  - rewrite Hsr. pose proof (rbt_del_black n d true p k t sib Ht Htr Hs Hsr) as H.
    destruct (del_black d true p k t sib); [| by destruct H].
    destruct H as [H _]. by eapply rctx_plug.
  - destruct (is_red sib) eqn:Hsr.
    + destruct (rbt_sub _ _ d Hs Hsr) as [Hv Hvr], (rbt_sub _ _ (negb d) Hs Hsr) as [Hu Hur].
      pose proof (rbt_del_black n d true p k t (sub sib d) Ht Htr Hv Hvr) as H.
      destruct (del_black d true p k t (sub sib d)); [| by destruct H].
      destruct H as [H _]. eapply rctx_plug; [exact Hc1 | by apply rbt_N_black | intros _; apply is_red_N].
    + pose proof (rbt_del_black n d false p k t sib Ht Htr Hs Hsr) as H.
      destruct (del_black d false p k t sib).
      * destruct H as [H Hr]. eapply rctx_plug; [exact Hc1 | exact H | auto].
      * destruct H as (_ & H & Hr). eapply IH; [exact Hc1 | done | done].
Qed.

(** Siblings on the path are not empty when the hole is one level short. *)
Fixpoint sib_ok (cx : list frame) : Prop :=
  match cx with
  | [] => True
  | Fr d c p k sib :: cx =>
      sib <> E /\ (is_red sib = true -> c = false /\ sub sib d <> E /\ is_red (sub sib d) = false)
      /\ sib_ok cx
  end.

Lemma rctx_sib_ok b n cx : rctx b (S n) cx -> sib_ok cx.
Proof.
  intros H. remember (S n) as m. assert (Hm : m <> 0%nat) by lia. clear n Heqm. revert Hm.
  induction H as [m | d p k s m cx Hs Hsr Hc IH | b d p k s m cx Hs Hc IH]; intros Hm; simpl; [done| |].
  - split_and!; [by inversion Hs; subst; [lia | |] | by rewrite Hsr | by apply IH].
  - split_and!; [by inversion Hs; subst; [lia | |] | | apply IH; lia].
    intros Hr. destruct (rbt_sub _ _ d Hs Hr) as [Hv Hvr]. split_and!; try done.
    inversion Hv; subst; [lia | done | done].
Qed.

Lemma inorder_del_fix cx : forall t, sib_ok cx -> inorder (del_fix t cx) = inorder (plug cx t).
Proof.
  induction cx as [| [d c p k sib] cx IH]; intros t; simpl; [done|]. intros (Hs & Hrs & Hok).
  destruct (is_red sib) eqn:Hr.
  - destruct (Hrs eq_refl) as (_ & Hv & _).
    pose proof (inorder_del_black d true p k t (sub sib d) Hv) as H.
    assert (Hg : forall t', inorder t' = inorder (N d true p k t (sub sib d)) ->
       inorder (plug cx (N d false (addr sib) (tkey sib) t' (sub sib (negb d)))) =
       inorder (plug cx (N d c p k t sib))).
    { intros t' Ht'. apply inorder_plug_eq. destruct sib as [| cs ls ps ks rs]; [done|].
      destruct d; simpl in *; rewrite Ht'; norm_app; done. }
    destruct (del_black d true p k t (sub sib d)); by apply Hg.
  - pose proof (inorder_del_black d c p k t sib Hs) as H.
    destruct (del_black d c p k t sib).
    + by apply inorder_plug_eq.
    + rewrite IH by done. by apply inorder_plug_eq.
Qed.

(** ** The code of the rebalancing *)

Definition is_inr {A B} (x : A + B) : bool := match x with inl _ => false | inr _ => true end.
Definition both {A} (x : A + A) : A := match x with inl a | inr a => a end.

Lemma read_is_red_ptr s cx t : repz s cx t -> is_red_ptr s (addr t) = Some (is_red t).
Proof. apply read_is_red. Qed.

Lemma recolor_side_ok s cx d c p k a b c' :
  repz s cx (N d c p k a b) -> a <> E ->
  exists s', _set_color s (addr a) c' = Some s' /\ repz s' cx (N d c p k (recolor c' a) b).
Proof.
  intros H Ha. apply repz_same in H. rewrite (eta_N a d Ha) in H.
  destruct (set_color_ok _ _ _ _ _ _ _ _ c' H) as (s' & -> & H'). exists s'. split; [done|].
  rewrite (recolor_N c' d a Ha). exact (proj1 (repz_plug1 _ _ _ _) H').
Qed.

Lemma recolor_other_ok s cx d c p k a b c' :
  repz s cx (N d c p k a b) -> b <> E ->
  exists s', _set_color s (addr b) c' = Some s' /\ repz s' cx (N d c p k a (recolor c' b)).
Proof. rewrite <- !(N_negb d). apply recolor_side_ok. Qed.

Lemma remove_rebalance_ok s cx d c p k t sib :
  repz s cx (N d c p k t sib) -> sib <> E -> is_red sib = false ->
  let r := del_black d c p k t sib in
  exists s', remove_rebalance s p d (addr sib) (addr (sub sib (negb d))) (addr (sub sib d))
             = Some (s', is_inr r) /\ repz s' cx (both r).
Proof.
  intros H Hs Hsr. simpl. rewrite (eta_N sib d Hs) in H. rewrite Hsr in H.
  unfold remove_rebalance, del_black. pose proof (repz_other _ _ _ _ _ _ _ _ H) as Hz.
  rewrite (read_is_red_ptr _ _ _ (repz_other _ _ _ _ _ _ _ _ Hz)). simpl.
  destruct (is_red (sub sib (negb d))) eqn:E1.
  - destruct (rotate_ok _ _ _ _ _ _ _ _ _ _ _ _ H) as (s1 & -> & H1). simpl.
    rewrite (read_color_N _ _ _ _ _ _ _ _ (repz_same _ _ _ _ _ _ _ _ H1)). simpl.
    destruct (set_color_ok _ _ _ _ _ _ _ _ c H1) as (s2 & -> & H2). simpl.
    destruct (recolor_side_ok _ _ _ _ _ _ _ _ false H2) as (s3 & E3 & H3); [by destruct d|].
    rewrite addr_N in E3. rewrite E3. simpl.
    destruct (recolor_other_ok _ _ _ _ _ _ _ _ false H3) as (s4 & -> & H4); [by intros E0; rewrite E0 in E1|].
    simpl. exists s4. split; [done|]. by destruct d.
  - rewrite (read_is_red_ptr _ _ _ (repz_same _ _ _ _ _ _ _ _ Hz)). simpl.
    destruct (is_red (sub sib d)) eqn:E2; simpl.
    + rewrite (eta_N (sub sib d) d) in Hz by (by intros E0; rewrite E0 in E2).
      destruct (rotate_other_ok _ _ _ _ _ _ _ _ _ _ _ _ Hz) as (s1 & -> & H1). simpl.
      apply repz_plug1 in H1. simpl in H1. rewrite N_negb in H1.
      destruct (rotate_ok _ _ _ _ _ _ _ _ _ _ _ _ H1) as (s2 & -> & H2). simpl.
      rewrite (read_color_N _ _ _ _ _ _ _ _ (repz_same _ _ _ _ _ _ _ _ H2)). simpl.
      destruct (set_color_ok _ _ _ _ _ _ _ _ c H2) as (s3 & -> & H3). simpl.
      destruct (recolor_side_ok _ _ _ _ _ _ _ _ false H3) as (s4 & E4 & H4); [by destruct d|].
      rewrite addr_N in E4. rewrite E4. simpl.
      destruct (recolor_other_ok _ _ _ _ _ _ _ _ false H4) as (s5 & E5 & H5); [by destruct d|].
      rewrite addr_N in E5. rewrite E5. simpl. exists s5. split; [done|]. by destruct d.
    + destruct (recolor_other_ok _ _ _ _ _ _ _ _ true H) as (s1 & E3 & H1); [by destruct d|].
      rewrite addr_N in E3. rewrite E3. simpl. rewrite <- Hsr, <- (eta_N sib d Hs) in H1.
      rewrite (read_color_N _ _ _ _ _ _ _ _ H1). simpl. destruct c.
      * destruct (set_color_ok _ _ _ _ _ _ _ _ false H1) as (s2 & -> & H2). simpl. eauto.
      * simpl. eauto.
Qed.

(** The red sibling is rotated above the node, which then has a black one. *)
Lemma remove_red_sibling_ok s cx d p k t sib :
  repz s cx (N d false p k t sib) -> is_red sib = true ->
  exists s1 s2 s3, _rotate_subtree s p d = Some s1 /\ _set_color s1 p true = Some s2
    /\ _set_color s2 (addr sib) false = Some s3
    /\ repz s3 cx (N d false (addr sib) (tkey sib) (N d true p k t (sub sib d)) (sub sib (negb d))).
Proof.
  intros H Hr. rewrite (eta_N sib d) in H by (by intros ->).
  destruct (rotate_ok _ _ _ _ _ _ _ _ _ _ _ _ H) as (s1 & -> & H1).
  destruct (recolor_side_ok _ _ _ _ _ _ _ _ true H1) as (s2 & E2 & H2); [by destruct d|].
  rewrite addr_N in E2.
  destruct (set_color_ok _ _ _ _ _ _ _ _ false H2) as (s3 & E3 & H3).
  exists s1, s2, s3. split_and!; try done. by destruct d.
Qed.

Lemma del_black_red_inl d p k t sib : is_inr (del_black d true p k t sib) = false.
Proof. unfold del_black. by destruct (is_red (sub sib (negb d))), (is_red (sub sib d)). Qed.

Lemma both_inl {A} (x : A + A) : is_inr x = false -> x = inl (both x).
Proof. by destruct x. Qed.
Lemma both_inr {A} (x : A + A) : is_inr x = true -> x = inr (both x).
Proof. by destruct x. Qed.

Lemma addr_del_black_up d p k t sib : is_inr (del_black d false p k t sib) = true ->
  exists t' sib', both (del_black d false p k t sib) = N d false p k t' sib'.
Proof.
  unfold del_black. destruct (is_red (sub sib (negb d))); [done|].
  destruct (is_red (sub sib d)); [done|]. simpl. eauto.
Qed.

Lemma remove_fixup_ok f : forall cx s d c p k sib t,
  (length cx < f)%nat -> repz s (Fr d c p k sib :: cx) t -> sib_ok (Fr d c p k sib :: cx) ->
  exists s', remove_fixup f s p d = Some s' /\ rep s' (del_fix t (Fr d c p k sib :: cx)).
Proof.
  induction f as [| f IH]; intros cx s d c p k sib t Hf Hrep (Hs & Hrs & Hok); [lia|].
  apply repz_plug1 in Hrep. simpl in Hrep. unfold remove_fixup; fold remove_fixup. cbn [del_fix].
  rewrite (read_child_N_other _ _ _ _ _ _ _ _ Hrep). simpl.
  pose proof (repz_other _ _ _ _ _ _ _ _ Hrep) as Hz. rewrite (eta_N sib d Hs) in Hz.
  rewrite (read_child_N_other _ _ _ _ _ _ _ _ Hz). simpl.
  rewrite (read_child_N _ _ _ _ _ _ _ _ Hz). simpl. rewrite (read_color_N _ _ _ _ _ _ _ _ Hz). simpl.
  destruct (is_red sib) eqn:Hr.
  - destruct (Hrs eq_refl) as (-> & Hv & Hvr).
    destruct (remove_red_sibling_ok _ _ _ _ _ _ _ Hrep Hr) as (s1 & s2 & s3 & E1 & E2 & E3 & H3).
    rewrite E1. simpl. rewrite E2. simpl. rewrite E3. simpl.
    apply repz_same in H3. pose proof (repz_other _ _ _ _ _ _ _ _ H3) as Hv3.
    rewrite (eta_N _ d Hv) in Hv3.
    rewrite (read_child_N_other _ _ _ _ _ _ _ _ Hv3). simpl.
    rewrite (read_child_N _ _ _ _ _ _ _ _ Hv3). simpl.
    destruct (remove_rebalance_ok _ _ _ _ _ _ _ _ H3 Hv Hvr) as (s4 & E4 & H4). rewrite E4. simpl.
    rewrite del_black_red_inl. rewrite (both_inl _ (del_black_red_inl d p k t (sub sib d))).
    exists s4. split; [done|]. apply rep_plug. exact (proj1 (repz_plug1 _ _ _ _) H4).
  - simpl. destruct (remove_rebalance_ok _ _ _ _ _ _ _ _ Hrep Hs Hr) as (s4 & E4 & H4). rewrite E4. simpl.
    destruct (is_inr (del_black d c p k t sib)) eqn:Hup.
    + rewrite (both_inr _ Hup). destruct c; [by rewrite del_black_red_inl in Hup|].
      destruct (addr_del_black_up _ _ _ _ _ Hup) as (t' & sib' & Ht'). rewrite Ht' in *.
      rewrite (read_parent_N _ _ _ _ _ _ _ _ H4). simpl.
      destruct cx as [| [d2 c2 p2 k2 sib2] cx]; simpl.
      { exists s4. by split. }
      pose proof (proj1 (repz_plug1 _ _ _ _) H4) as H5. simpl in H5.
      destruct (read_nonnull_N _ _ _ _ _ _ _ _ H5) as [Hp2 _].
      rewrite (proj2 (Z.eqb_neq p2 0) Hp2).
      destruct (read_side_N _ _ _ _ _ _ _ _ H5 p) as (zr & -> & Hside);
        [by rewrite addr_N | by destruct (read_nonnull_N _ _ _ _ _ _ _ _ Hrep) |].
      simpl. rewrite Hside. apply IH; [simpl in Hf; lia | done | done].
    + rewrite (both_inl _ Hup). exists s4. split; [done|]. by apply rep_plug.
Qed.

(** ** The code of the removal *)

(** The sequel of [rb_tree_remove_node] once the node has at most one child. *)
Definition remove_tail (s : rb_tree_t) (x y : Z) : option rb_tree_t :=
  xl ← child s x false;
  xr ← child s x true;
  if negb (xl =? 0) || negb (xr =? 0) then
    let z := if negb (xl =? 0) then xl else xr in
    s ← replace_child s y x z;
    s ← _set_color s z false;
    _set_parent s z y
  else if x =? root s then Some (set_root s 0)
  else
    yr ← child s y true;
    let dir := x =? yr in
    s ← set_child s y dir 0;
    cx ← _get_color s x;
    if (cx : bool) then Some s else remove_fixup (fuel s) s y dir.

(** Unlinking a leaf below [p]. *)
Lemma unlink_leaf_ok s cx d c p k sib cx' c' x kx :
  cx = Fr d c p k sib :: cx' -> repz s cx (T c' E x kx E) ->
  exists s', set_child s p d 0 = Some s' /\ repz s' cx E /\ _get_color s' x = _get_color s x.
Proof.
  intros -> ((Hp & Hs & Hc) & Hx & Hnd & Hal). simpl in *.
  apply NoDup_cons in Hnd as [Hxn Hnd]. apply NoDup_cons in Hnd as [Hpn Hnd].
  inversion Hal as [| ? ? Hxal Hal']; subst.
  eexists. split; [by apply set_child_eq|]. split.
  - unfold repz. simpl. split_and!; try done.
    + rewrite lookup_insert_eq. by destruct d.
    + apply tree_at_frame; [set_solver | done].
    + apply ctx_at_frame; [set_solver | done].
    + by apply NoDup_cons.
  - unfold _get_color, load. simpl. rewrite lookup_insert_ne; [done | set_solver].
Qed.

Lemma recolor_tree_ok s par b c' :
  b <> E -> tree_at (nodes s) par b -> par = 0 \/ aligned par -> NoDup (addrs b) ->
  exists s', _set_color s (addr b) c' = Some s' /\ tree_at (nodes s') par (recolor c' b)
    /\ root s' = root s /\ (forall q, q ∉ addrs b -> nodes s' !! q = nodes s !! q).
Proof.
  intros Hb Hat Hpar Hnd. destruct b as [| c l p k r]; [done|]. simpl in *.
  destruct Hat as (Hp & Hl & Hr). rewrite (set_color_eq _ _ _ _ _ _ _ _ Hp Hpar).
  apply NoDup_app in Hnd as (_ & Hd & Hnd). apply NoDup_cons in Hnd as [Hpr _].
  assert (p ∉ addrs l) by (intros Hin; apply (Hd p Hin); set_solver).
  eexists. split; [done|]. simpl. split_and!; try done.
  - by rewrite lookup_insert_eq.
  - by apply tree_at_frame.
  - by apply tree_at_frame.
  - intros q Hq. rewrite lookup_insert_ne; [done | set_solver].
Qed.

Lemma addrs_recolor c t : addrs (recolor c t) = addrs t.
Proof. by destruct t. Qed.
Lemma addr_recolor c t : addr (recolor c t) = addr t.
Proof. by destruct t. Qed.

(** A node with one child is replaced by that child, painted black. *)
Lemma splice_ok s cx d c x k a :
  repz s cx (N d c x k a E) -> a <> E ->
  exists s1 s2 s', replace_child s (top cx) x (addr a) = Some s1
    /\ _set_color s1 (addr a) false = Some s2 /\ _set_parent s2 (addr a) (top cx) = Some s'
    /\ repz s' cx (recolor false a).
Proof.
  intros H Ha. pose proof (ctx_addr_aligned _ _ _ H) as Htop.
  destruct (read_nonnull_N _ _ _ _ _ _ _ _ H) as [Hx0 Hxal].
  destruct H as (Hcx & Hat & Hnd & Hal). rewrite addr_N in Hcx. apply tree_at_N in Hat as (Hx & Hat & _).
  rewrite addrs_N in Hnd, Hal. simpl in Hnd, Hal. rewrite app_nil_r in Hnd, Hal.
  apply NoDup_cons in Hnd as [Hxn Hnd]. inversion Hal as [| ? ? _ Hal']; subst. clear Hal.
  pose proof Hnd as Hnd0. pose proof Hal' as Hal0.
  apply NoDup_app in Hnd as (Hna & Hdis & Hnc). apply Forall_app in Hal' as [Haa Hac].
  destruct (replace_child_ok s cx x (addr a)) as (s1 & E1 & Hcx1 & Hfr1 & _); try done; [set_solver|].
  assert (Hat1 : tree_at (nodes s1) x a).
  { eapply tree_at_agree; [| exact Hat]. intros q Hq. apply Hfr1, Hdis, Hq. }
  destruct (recolor_tree_ok s1 x a false Ha Hat1 (or_intror Hxal) Hna) as (s2 & E2 & Hat2 & Hr2 & Hfr2).
  destruct (reparent_ok s2 x (top cx) (recolor false a)) as (s3 & E3 & Hat3 & Hr3 & Hfr3);
    rewrite ?addrs_recolor; try done; [by right|].
  rewrite addr_recolor in E3.
  assert (Ha0 : (addr a =? 0) = false).
  { apply Z.eqb_neq. destruct a as [| ca la pa ka ra]; [done|]. simpl.
    rewrite Forall_forall in Haa. destruct (Haa pa) as [? _]; [simpl; set_solver | lia]. }
  rewrite Ha0 in E3. exists s1, s2, s3. split_and!; try done. unfold repz.
  rewrite addrs_recolor, addr_recolor. split_and!; try done.
  rewrite Hr3, Hr2. eapply ctx_at_agree; [| exact Hcx1]. intros q Hq.
  rewrite Hfr3, Hfr2; [done | |]; rewrite ?addrs_recolor; clear - Hdis Hq; set_solver.
Qed.

Lemma root_in_ctx h rt a cx : ctx_at h rt a cx -> cx <> [] -> rt ∈ caddrs cx.
Proof.
  revert a. induction cx as [| [d c p k sib] cx IH]; intros a; simpl; [done|].
  intros (_ & _ & H) _. destruct cx; simpl in *; [set_solver|].
  specialize (IH _ H ltac:(done)). set_solver.
Qed.

Section Tail.
Context (s : rb_tree_t) (cx : list frame) (b : bool) (n : nat) (c : bool) (x k : Z).
Hypothesis Hctx : rctx b n cx.

Lemma remove_tail_splice d a :
  repz s cx (N d c x k a E) -> rbt n (N d c x k a E) -> a <> E ->
  exists s' t', remove_tail s x (top cx) = Some s' /\ rep s' t' /\ (exists m, rbt m t')
    /\ inorder t' = before cx ++ inorder a ++ after cx.
Proof.
  intros Hrep Hb Ha. unfold remove_tail.
  assert (Ha0 : addr a <> 0).
  { destruct a as [| ca la pa ka ra]; [done|]. simpl.
    by destruct (repz_nonnull _ _ _ _ _ _ _ (repz_same _ _ _ _ _ _ _ _ Hrep)). }
  assert (exists m, n = S m /\ rbt m a /\ rbt m E) as (m & -> & Hba & HE).
  { pose proof (rbt_N_inv _ _ _ _ _ _ _ Hb) as Hi. destruct c; [| done].
    destruct Hi as (H1 & H2 & H3 & _). inversion H2; subst. by inversion H1; subst. }
  assert (is_red a = true) by (inversion HE; subst; by inversion Hba; subst).
  destruct (splice_ok _ _ _ _ _ _ _ Hrep Ha) as (s1 & s2 & s3 & E1 & E2 & E3 & H3).
  assert (Hz : (x0 ← child s x false; x1 ← child s x true;
     Some (negb (x0 =? 0) || negb (x1 =? 0), if negb (x0 =? 0) then x0 else x1)) = Some (true, addr a)).
  { destruct d; erewrite !read_child by exact Hrep; simpl; rewrite (proj2 (Z.eqb_neq _ 0) Ha0); done. }
  destruct (child s x false) as [x0|]; [| done]. destruct (child s x true) as [x1|]; [| done]. simpl in *.
  injection Hz as Hz1 Hz2. rewrite Hz1, Hz2, E1. simpl. rewrite E2. simpl. rewrite E3.
  exists s3, (plug cx (recolor false a)). split_and!; [done | by apply rep_plug | |].
  - eapply rctx_plug; [exact Hctx | by apply rbt_blacken | by destruct a].
  - by rewrite inorder_plug, inorder_recolor.
Qed.

Lemma remove_tail_leaf :
  repz s cx (T c E x k E) -> rbt n (T c E x k E) ->
  exists s' t', remove_tail s x (top cx) = Some s' /\ rep s' t' /\ (exists m, rbt m t')
    /\ inorder t' = before cx ++ after cx.
Proof.
  intros Hrep Hb. unfold remove_tail. rewrite !(read_child _ _ _ _ _ _ _ Hrep). simpl.
  destruct cx as [| [d c1 p k1 sib] cx'].
  { destruct Hrep as (Hroot & _). simpl in Hroot. rewrite Hroot, Z.eqb_refl.
    exists (set_root s 0), E. split_and!; try done; [| eauto with rbtree].
    repeat split; simpl; constructor. }
  assert (Hxr : (x =? root s) = false).
  { apply Z.eqb_neq. intros E0. destruct Hrep as (Hc & _ & Hnd & _).
    apply root_in_ctx in Hc; [| done]. simpl in Hnd. apply NoDup_cons in Hnd as [Hn _].
    rewrite <- E0 in Hc. by apply Hn. }
  rewrite Hxr. cbn [top]. pose proof (proj1 (repz_plug1 _ _ _ _) Hrep) as H1. simpl in H1.
  destruct (repz_nonnull _ _ _ _ _ _ _ Hrep) as [Hx0 _].
  destruct (read_side_N _ _ _ _ _ _ _ _ H1 x) as (zr & -> & Hside); [done | done|].
  simpl. rewrite Hside. clear Hside.
  destruct (unlink_leaf_ok _ _ _ _ _ _ _ _ _ _ _ eq_refl Hrep) as (s1 & -> & H2 & Hcol). simpl.
  rewrite Hcol, (read_color _ _ _ _ _ _ _ Hrep). simpl. destruct c.
  - inversion Hb as [| ? ? ? ? ? HE |]; subst. inversion HE; subst.
    exists s1, (plug (Fr d c1 p k1 sib :: cx') E). split; [done|]. split; [by apply rep_plug|]. split.
    + eapply rctx_plug; [exact Hctx | constructor | done].
    + by rewrite inorder_plug.
  - inversion Hb as [| | ? ? ? ? ? HE]; subst. inversion HE; subst.
    pose proof (repz_size _ _ _ H2) as Hf. simpl in Hf. pose proof (rctx_sib_ok _ _ _ Hctx) as Hok.
    destruct (remove_fixup_ok (fuel s1) cx' s1 d c1 p k1 sib E ltac:(lia) H2 Hok) as (s2 & -> & H3).
    exists s2, (del_fix E (Fr d c1 p k1 sib :: cx')). split; [done|]. split; [done|]. split.
    + eapply rbt_del_fix; [exact Hctx | constructor | done].
    + rewrite inorder_del_fix by done. by rewrite inorder_plug.
Qed.

End Tail.

(** *** The whole operation *)

Lemma rctx_rename b n cxz d c x k z kz l cx :
  rctx b n (cxz ++ Fr d c x k l :: cx) -> rctx b n (cxz ++ Fr d c z kz l :: cx).
Proof.
  revert b n. induction cxz as [| [d1 c1 p1 k1 s1] cxz IH]; intros b n H; simpl in *;
    inversion H; subst; econstructor; eauto.
Qed.

Lemma rbt_rename n c l x k r z kz : rbt n (T c l x k r) -> rbt n (T c l z kz r).
Proof. intros H; inversion H; subst; eauto with rbtree. Qed.

(** With at most one child the tail alone removes the node. *)
Lemma remove_tail_ok s cx c l x k r m :
  repz s cx (T c l x k r) -> rbt m (plug cx (T c l x k r)) -> l = E \/ r = E ->
  exists s' t', remove_tail s x (top cx) = Some s' /\ rep s' t' /\ (exists m, rbt m t')
    /\ inorder t' = before cx ++ (inorder l ++ inorder r) ++ after cx.
Proof.
  intros Hrep Hm Hlr. destruct (rctx_unplug _ _ _ Hm) as (b & n & Hctx & Hb & _).
  destruct l as [| cl ll pl kl rl]; simpl in Hlr.
  - destruct r as [| cr lr pr kr rr].
    + eapply remove_tail_leaf; done.
    + eapply (remove_tail_splice _ _ _ _ _ _ _ Hctx true); done.
  - destruct Hlr as [? | ->]; [done|]. setoid_rewrite app_nil_r.
    eapply (remove_tail_splice _ _ _ _ _ _ _ Hctx false); done.
Qed.

Lemma remove_node_unfold s x :
  rb_tree_remove_node s x =
    (y ← _get_parent s x;
     xl ← child s x false;
     xr ← child s x true;
     if negb (xl =? 0) && negb (xr =? 0) then
       s ← remove_swap s x y; y ← _get_parent s x; remove_tail s x y
     else remove_tail s x y).
Proof.
  unfold rb_tree_remove_node. destruct (_get_parent s x) as [y|]; [| done]. simpl.
  destruct (child s x false) as [xl|] eqn:El; [| done]. simpl.
  destruct (child s x true) as [xr|] eqn:Er; [| done]. simpl.
  destruct (negb (xl =? 0) && negb (xr =? 0)).
  - destruct (remove_swap s x y) as [s1|]; [| done]. simpl.
    by destruct (_get_parent s1 x).
  - unfold remove_tail. simpl. by rewrite El, Er.
Qed.

Lemma ordered_remove t t' L R kx : ordered t -> inorder t = L ++ kx :: R -> inorder t' = L ++ R ->
  ordered t'.
Proof.
  unfold ordered. intros Ho Ht Ht'. rewrite Ht in Ho. rewrite Ht'. rewrite fmap_app in *. rewrite fmap_cons in Ho.
  apply sorted_app in Ho as (H1 & H2 & H3). apply StronglySorted_inv in H2 as [H2 _].
  apply sorted_app. split_and!; [done | done | set_solver].
Qed.

Lemma remove_ok s t L k x R :
  rb_inv s t -> inorder t = L ++ (k, x) :: R ->
  exists s' t', rb_tree_remove_node s x = Some s' /\ rb_inv s' t' /\ inorder t' = L ++ R.
Proof.
  intros (Hrep & Ho & m & Hm) Hin. pose proof (locate_node _ _ _ _ _ Hin) as (cx & c & l & r & -> & HL & HR).
  apply rep_unplug in Hrep. rewrite remove_node_unfold.
  rewrite (read_parent _ _ _ _ _ _ _ Hrep), !(read_child _ _ _ _ _ _ _ Hrep). simpl.
  assert (exists s' t', (if negb (addr l =? 0) && negb (addr r =? 0) then
       s ← remove_swap s x (top cx); y ← _get_parent s x; remove_tail s x y
     else remove_tail s x (top cx)) = Some s' /\ rep s' t' /\ (exists m, rbt m t') /\ inorder t' = L ++ R)
    as (s' & t' & E1 & H1 & H2 & H3).
  { destruct (decide (l = E \/ r = E)) as [Hlr | Hlr].
    - assert (negb (addr l =? 0) && negb (addr r =? 0) = false) as ->.
      { destruct Hlr as [-> | ->]; simpl; [done | by rewrite andb_false_r]. }
      destruct (remove_tail_ok _ _ _ _ _ _ _ _ Hrep Hm Hlr) as (s' & t' & E1 & H1 & H2 & H3).
      exists s', t'. split_and!; try done. rewrite H3, HL, HR. by norm_app.
    - assert (Hl : l <> E) by tauto. assert (Hr : r <> E) by tauto.
      assert (negb (addr l =? 0) && negb (addr r =? 0) = true) as ->.
      { destruct l as [| cl ll pl kl rl], r as [| cr lr pr kr rr]; try done. simpl.
        destruct (repz_nonnull _ _ _ _ _ _ _ (repz_same _ _ true _ _ _ _ _ Hrep)) as [Hr0 _].
        destruct (repz_nonnull _ _ _ _ _ _ _ (repz_same _ _ false _ _ _ _ _ Hrep)) as [Hl0 _].
        by rewrite (proj2 (Z.eqb_neq _ _) Hl0), (proj2 (Z.eqb_neq _ _) Hr0). }
      destruct (leftmost r Hr) as (cxz & cz & z & kz & rz & -> & Hleft).
      assert (Heq : plug cx (T c l x k (plug cxz (T cz E z kz rz)))
                    = plug (cxz ++ Fr true c x k l :: cx) (T cz E z kz rz)) by (by rewrite plug_app).
      apply rep_plug in Hrep. rewrite Heq in Hrep, Hm. apply rep_unplug in Hrep.
      destruct (remove_swap_ok _ _ _ _ _ _ _ _ _ _ _ Hrep Hl Hleft) as (s1 & -> & H1). simpl.
      rewrite (read_parent _ _ _ _ _ _ _ H1). simpl.
      assert (exists m, rbt m (plug (cxz ++ Fr true c z kz l :: cx) (T cz E x k rz))) as [m' Hm'].
      { destruct (rctx_unplug _ _ _ Hm) as (b & n & Hctx & Hb & Hbr).
        eapply rctx_plug; [eapply rctx_rename, Hctx | eapply rbt_rename, Hb | exact Hbr]. }
      destruct (remove_tail_ok _ _ _ _ _ _ _ _ H1 Hm' (or_introl eq_refl)) as (s' & t' & E1 & H2 & H3 & H4).
      exists s', t'. split_and!; try done. rewrite H4, HL, HR.
      rewrite inorder_plug, before_app, after_app, (all_left_before cxz) by done. simpl. norm_app. done. }
  exists s', t'. split; [done|]. split; [| done]. split; [done|]. split; [| done].
  by eapply ordered_remove.
Qed.
