(* ===== verification/RbTreeSpec.v ===== *)
(** * What the red-black tree promises to its clients.

    A tree in memory implements a finite map from 64-bit keys to node
    addresses.  [OrderedIndex] states the promise as an interface; the clients
    of the tree are verified against it, and the code of [rb_tree.c]
    discharges it. *)
From stdpp Require Import base tactics list numbers gmap sorting fin_maps.
From Stdlib Require Import ZArith Lia.
From S2P Require Import Prelude RbTree RbTreeRep RbTreeInsert RbTreeSearch RbTreeSwap RbTreeRemove.
#[local] Open Scope Z_scope.

(** [m] maps every key of the tree to the address of its node. *)
Definition rb_map (s : rb_tree_t) (m : gmap Z Z) : Prop :=
  exists t, rb_inv s t /\ m = list_to_map (inorder t).

(** ** The interface *)

(** An index of nodes by key: [ix_rep st m] when the state [st] holds the nodes
    of [m], and every operation on the state does what it does to the map. *)
Class OrderedIndex (St : Type) := {
  ix_rep : St -> gmap Z Z -> Prop;
  ix_keyof : St -> Z -> option Z;
  ix_insert : St -> Z -> option (St * Z);
  ix_lookup : St -> Z -> option Z;
  ix_remove : St -> Z -> option St;
  ix_next : St -> Z -> option Z;
  ix_insert_new st m x k :
    ix_rep st m -> aligned x -> (forall k', m !! k' <> Some x) -> ix_keyof st x = Some k ->
    m !! k = None ->
    exists st', ix_insert st x = Some (st', 0) /\ ix_rep st' (<[k := x]> m);
  ix_lookup_spec st m k : ix_rep st m -> ix_lookup st k = Some (default 0 (m !! k));
  ix_remove_spec st m k x : ix_rep st m -> m !! k = Some x ->
    exists st', ix_remove st x = Some st' /\ ix_rep st' (delete k m);
  ix_next_spec st m k : ix_rep st m ->
    exists x, ix_next st k = Some x /\
      if x =? 0 then forall k', is_Some (m !! k') -> k' < k
      else exists k', m !! k' = Some x /\ k <= k' /\ (forall q, is_Some (m !! q) -> k <= q -> k' <= q)
}.

(** ** From in-order lists to maps *)

Lemma sorted_NoDup (l : list Z) : StronglySorted Z.lt l -> NoDup l.
Proof.
  induction 1 as [| a l H IH Hf]; constructor; [| done].
  intros Hin. rewrite Forall_forall in Hf. specialize (Hf _ Hin). lia.
Qed.

Lemma ordered_NoDup t : ordered t -> NoDup (inorder t).*1.
Proof. apply sorted_NoDup. Qed.

Lemma inorder_addrs t : (inorder t).*2 = addrs t.
Proof.
  induction t as [| c l IHl p k r IHr]; simpl; [done|]. by rewrite fmap_app, fmap_cons, IHl, IHr.
Qed.

Lemma rb_map_lookup t k x : ordered t ->
  (list_to_map (inorder t) : gmap Z Z) !! k = Some x <-> (k, x) ∈ inorder t.
Proof. intros Ho. symmetry. apply elem_of_list_to_map, ordered_NoDup, Ho. Qed.

Lemma rb_map_None t k :
  (list_to_map (inorder t) : gmap Z Z) !! k = None <-> ~ (k ∈ (inorder t).*1).
Proof. symmetry. apply not_elem_of_list_to_map. Qed.

Lemma list_to_map_middle (L R : list (Z * Z)) k x :
  NoDup (L ++ (k, x) :: R).*1 ->
  (list_to_map (L ++ (k, x) :: R) : gmap Z Z) = <[k := x]> (list_to_map (L ++ R)).
Proof.
  intros Hnd. rewrite <- list_to_map_cons. apply list_to_map_proper; [done|]. solve_Permutation.
Qed.

Lemma inorder_key s t k x : rep s t -> (k, x) ∈ inorder t -> get_key s x = Some k.
Proof.
  intros (_ & H & _) Hin. simpl in H. revert H. generalize 0.
  induction t as [| c l IHl p k' r IHr]; intros par; simpl in *; [set_solver|].
  intros (H1 & H2 & H3). apply elem_of_app in Hin as [Hin | Hin]; [eauto|].
  apply elem_of_cons in Hin as [[= -> ->] | Hin]; [| eauto].
  unfold get_key, load. by rewrite H1.
Qed.

Section Map.
Context (s : rb_tree_t) (m : gmap Z Z).
Hypothesis Hm : rb_map s m.

Lemma map_lookup k : rb_tree_lookup_node s k = Some (default 0 (m !! k)).
Proof.
  destruct Hm as (t & Hinv & ->). pose proof Hinv as (_ & Ho & _).
  destruct (list_to_map (inorder t) !! k) as [x|] eqn:E0.
  - apply rb_map_lookup in E0; [| done]. by eapply lookup_node_found.
  - apply rb_map_None in E0. by eapply lookup_node_absent.
Qed.

Lemma map_insert_new x nx :
  aligned x -> (forall k, m !! k <> Some x) -> nodes s !! x = Some nx -> m !! key nx = None ->
  exists s', rb_tree_lookup_or_insert_node s x = Some (s', 0) /\ rb_map s' (<[key nx := x]> m).
Proof.
  destruct Hm as (t & Hinv & ->). pose proof Hinv as (_ & Ho & _). intros Hx Hfr Hnx Hk.
  assert (Hxa : x ∉ addrs t).
  { rewrite <- inorder_addrs. intros Hin. apply list_elem_of_fmap in Hin as ([k x'] & -> & Hin).
    apply (Hfr k). by apply rb_map_lookup. }
  apply rb_map_None in Hk.
  destruct (insert_absent s t x nx Hinv Hx Hxa Hnx Hk) as (s' & t' & L & R & E1 & Hinv' & HL & HR & _).
  exists s'. split; [done|]. exists t'. split; [done|]. rewrite HL, HR. symmetry. apply list_to_map_middle.
  rewrite <- HR. apply ordered_NoDup, Hinv'.
Qed.

Lemma map_insert_dup x nx y :
  aligned x -> (forall k, m !! k <> Some x) -> nodes s !! x = Some nx -> m !! key nx = Some y ->
  exists s', rb_tree_lookup_or_insert_node s x = Some (s', x) /\ rb_map s' m.
Proof.
  destruct Hm as (t & Hinv & ->). pose proof Hinv as (_ & Ho & _). intros Hx Hfr Hnx Hk.
  assert (Hxa : x ∉ addrs t).
  { rewrite <- inorder_addrs. intros Hin. apply list_elem_of_fmap in Hin as ([k x'] & -> & Hin).
    apply (Hfr k). by apply rb_map_lookup. }
  apply rb_map_lookup in Hk; [| done].
  destruct (insert_present s t x nx Hinv Hx Hxa Hnx) as (s' & E1 & Hinv').
  { apply list_elem_of_fmap. by exists (key nx, y). }
  exists s'. split; [done|]. by exists t.
Qed.

Lemma map_remove k x : m !! k = Some x ->
  exists s', rb_tree_remove_node s x = Some s' /\ rb_map s' (delete k m).
Proof.
  destruct Hm as (t & Hinv & ->). pose proof Hinv as (_ & Ho & _). intros Hk.
  apply rb_map_lookup in Hk; [| done]. apply list_elem_of_split in Hk as (L & R & Heq).
  destruct (remove_ok _ _ _ _ _ _ Hinv Heq) as (s' & t' & E1 & Hinv' & HLR).
  exists s'. split; [done|]. exists t'. split; [done|]. rewrite Heq, HLR, list_to_map_middle.
  - rewrite delete_insert_eq. rewrite delete_id; [done|]. apply not_elem_of_list_to_map.
    pose proof (ordered_NoDup _ Ho) as Hnd. rewrite Heq, fmap_app, fmap_cons in Hnd. simpl in Hnd.
    apply NoDup_app in Hnd as (_ & Hd & Hnd). apply NoDup_cons in Hnd as [Hn _].
    rewrite fmap_app. intros Hin. apply elem_of_app in Hin as [Hin | Hin]; [| done].
    apply (Hd _ Hin). set_solver.
  - rewrite <- Heq. by apply ordered_NoDup.
Qed.

Lemma map_key k x : m !! k = Some x -> get_key s x = Some k.
Proof.
  destruct Hm as (t & (Hrep & Ho & _) & ->). intros Hk. apply rb_map_lookup in Hk; [| done].
  by eapply inorder_key.
Qed.

Lemma map_aligned k x : m !! k = Some x -> aligned x.
Proof.
  destruct Hm as (t & ((_ & _ & _ & Hal) & Ho & _) & ->). intros Hk. apply rb_map_lookup in Hk; [| done].
  rewrite app_nil_r, <- inorder_addrs in Hal. rewrite Forall_forall in Hal. apply Hal.
  apply list_elem_of_fmap. by exists (k, x).
Qed.

End Map.

(** ** Nearest keys and iteration *)

Lemma filter_sorted (P : Z * Z -> Prop) `{forall e, Decision (P e)} (l : list (Z * Z)) :
  StronglySorted Z.lt l.*1 -> StronglySorted Z.lt (filter P l).*1.
Proof.
  induction l as [| a l IH]; intros Hs; [done|]. rewrite fmap_cons in Hs.
  apply StronglySorted_inv in Hs as [Hs Ha]. rewrite filter_cons. destruct (decide (P a)); [| auto].
  rewrite fmap_cons. constructor; [auto|]. rewrite Forall_forall in *. intros k Hk.
  apply Ha. apply list_elem_of_fmap in Hk as (e & -> & He). apply list_elem_of_filter in He as [_ He].
  apply list_elem_of_fmap. eauto.
Qed.

(** The first entry of a sorted list has the least key, the last the greatest. *)
Lemma first_least (l : list (Z * Z)) k x l' : StronglySorted Z.lt l.*1 -> l = (k, x) :: l' ->
  forall e, e ∈ l -> k <= e.1.
Proof.
  intros Hs -> e He. apply elem_of_cons in He as [-> | He]; [simpl; lia|].
  simpl in Hs. apply StronglySorted_inv in Hs as [_ Hf]. rewrite Forall_forall in Hf.
  specialize (Hf e.1). apply Z.lt_le_incl, Hf, list_elem_of_fmap. eauto.
Qed.

Lemma last_greatest (l : list (Z * Z)) k x l' : StronglySorted Z.lt l.*1 -> l = l' ++ [(k, x)] ->
  forall e, e ∈ l -> e.1 <= k.
Proof.
  intros Hs -> e He. rewrite fmap_app in Hs. apply sorted_app in Hs as (_ & _ & H).
  apply elem_of_app in He as [He | He]; [| apply list_elem_of_singleton in He as ->; simpl; lia].
  apply Z.lt_le_incl, H; [apply list_elem_of_fmap; eauto | set_solver].
Qed.

Section Nearest.
Context (s : rb_tree_t) (m : gmap Z Z) (k : Z).
Hypothesis Hm : rb_map s m.

Lemma map_increasing :
  exists x, rb_tree_lookup_increasing_node s k = Some x /\
    if x =? 0 then forall k', is_Some (m !! k') -> k' < k
    else exists k', m !! k' = Some x /\ k <= k' /\ (forall q, is_Some (m !! q) -> k <= q -> k' <= q).
Proof.
  pose proof Hm as (t & Hinv & ->). pose proof Hinv as (Hrep & Ho & _).
  rewrite (lookup_increasing_ok s t k Hinv). eexists. split; [reflexivity|].
  pose proof (filter_sorted (fun e => k <= e.1) (inorder t) Ho) as Hs. fold (from k (inorder t)) in Hs.
  destruct (from k (inorder t)) as [| [k' x] l] eqn:Hf.
  - simpl. intros k' [x Hx]. apply rb_map_lookup in Hx; [| done].
    destruct (Z.lt_ge_cases k' k) as [| Hge]; [done|]. exfalso.
    assert (Hin : (k', x) ∈ from k (inorder t)) by (apply list_elem_of_filter; done).
    rewrite Hf in Hin. set_solver.
  - assert (Hin : (k', x) ∈ from k (inorder t)) by (rewrite Hf; set_solver).
    apply list_elem_of_filter in Hin as [Hk Hin]. apply rb_map_lookup in Hin; [| done].
    destruct (map_aligned _ _ Hm _ _ Hin) as [Hx0 _].
    change (first_ptr ((k', x) :: l)) with x. destruct (Z.eqb_spec x 0) as [|_]; [lia|].
    exists k'. split_and!; [done | done |]. intros q [y Hq] Hkq. apply rb_map_lookup in Hq; [| done].
    apply (first_least _ _ _ _ Hs eq_refl (q, y)). rewrite <- Hf. by apply list_elem_of_filter.
Qed.

Lemma map_decreasing :
  exists x, rb_tree_lookup_decreasing_node s k = Some x /\
    if x =? 0 then forall k', is_Some (m !! k') -> k < k'
    else exists k', m !! k' = Some x /\ k' <= k /\ (forall q, is_Some (m !! q) -> q <= k -> q <= k').
Proof.
  pose proof Hm as (t & Hinv & ->). pose proof Hinv as (Hrep & Ho & _).
  rewrite (lookup_decreasing_ok s t k Hinv). eexists. split; [reflexivity|].
  pose proof (filter_sorted (fun e => e.1 <= k) (inorder t) Ho) as Hs. fold (upto k (inorder t)) in Hs.
  destruct (upto k (inorder t)) as [| [k' x] l _] eqn:Hf using rev_ind.
  - simpl. intros k' [x Hx]. apply rb_map_lookup in Hx; [| done].
    destruct (Z.lt_ge_cases k k') as [| Hge]; [done|]. exfalso.
    assert (Hin : (k', x) ∈ upto k (inorder t)) by (apply list_elem_of_filter; done).
    rewrite Hf in Hin. set_solver.
  - assert (Hin : (k', x) ∈ upto k (inorder t)) by (rewrite Hf; set_solver).
    apply list_elem_of_filter in Hin as [Hk Hin]. apply rb_map_lookup in Hin; [| done].
    destruct (map_aligned _ _ Hm _ _ Hin) as [Hx0 _].
    assert (last_ptr (l ++ [(k', x)]) = x) as ->.
    { unfold last_ptr. rewrite fmap_app. simpl. by rewrite last_snoc. }
    destruct (Z.eqb_spec x 0) as [|_]; [lia|].
    exists k'. split_and!; [done | done |]. intros q [y Hq] Hkq. apply rb_map_lookup in Hq; [| done].
    apply (last_greatest _ _ _ _ Hs eq_refl (q, y)). rewrite <- Hf. by apply list_elem_of_filter.
Qed.

End Nearest.

(** [for (x=rb_tree_iter_start(tree);x;x=rb_tree_iter_next(tree,x))]: the nodes
    visited from [x] on. *)
Fixpoint iter_from (f : nat) (s : rb_tree_t) (x : Z) : option (list Z) :=
  match f with
  | O => None
  | S f =>
      if x =? 0 then Some []
      else y ← rb_tree_iter_next s x; l ← iter_from f s y; Some (x :: l)
  end.

Definition iter_all (s : rb_tree_t) : option (list Z) :=
  x ← rb_tree_iter_start s; iter_from (fuel s) s x.

#[global] Arguments iter_from : simpl never.

Lemma iter_from_ok s t : rb_inv s t -> forall R L f, inorder t = L ++ R -> (length R < f)%nat ->
  iter_from f s (first_ptr R) = Some R.*2.
Proof.
  intros Hinv. induction R as [| [k x] R IH]; intros L f Heq Hf; destruct f as [| f]; try (simpl in Hf; lia).
  - done.
  - change (first_ptr ((k, x) :: R)) with x. unfold iter_from; fold iter_from.
    assert (Hx : aligned x).
    { destruct Hinv as ((_ & _ & _ & Hal) & _). rewrite app_nil_r, <- inorder_addrs, Heq in Hal.
      rewrite Forall_forall in Hal. apply Hal. rewrite fmap_app. set_solver. }
    destruct Hx as [Hx _]. destruct (Z.eqb_spec x 0) as [|_]; [lia|].
    rewrite (iter_next_ok _ _ Hinv _ _ _ _ Heq). simpl.
    rewrite (IH (L ++ [(k, x)]) f); [done | by rewrite Heq, <- app_assoc | simpl in Hf; lia].
Qed.

Lemma iter_all_inorder s t : rb_inv s t -> iter_all s = Some (inorder t).*2.
Proof.
  intros Hinv. unfold iter_all. rewrite (iter_start_ok _ _ Hinv). simpl.
  apply (iter_from_ok _ _ Hinv _ []); [done|]. destruct Hinv as (Hrep & _).
  pose proof (repz_size _ _ _ Hrep) as H. rewrite <- inorder_addrs, length_fmap in H. lia.
Qed.

#[export] Instance rb_tree_index : OrderedIndex rb_tree_t.
Proof.
  refine {| ix_rep := rb_map; ix_keyof := get_key; ix_insert := rb_tree_lookup_or_insert_node;
            ix_lookup := rb_tree_lookup_node; ix_remove := rb_tree_remove_node;
            ix_next := rb_tree_lookup_increasing_node |}.
  - intros s m x k Hm Hx Hfr Hk Hn. unfold get_key, load in Hk.
    destruct (nodes s !! x) as [nx|] eqn:E0; [| done]. injection Hk as <-.
    by eapply map_insert_new.
  - intros s m k Hm. by apply map_lookup.
  - intros s m k x Hm Hk. by eapply map_remove.
  - intros s m k Hm. by apply map_increasing.
Defined.

(** ** Height: searches are logarithmic *)

Fixpoint height (t : tree) : nat :=
  match t with E => 0 | T _ l _ _ r => S (Nat.max (height l) (height r)) end.

Lemma rbt_height n t : rbt n t ->
  (height t <= 2 * n + (if is_red t then 1 else 0) /\ 2 ^ n <= S (length (addrs t)))%nat.
Proof.
  induction 1 as [| n l p k r _ [Hl Hl'] _ [Hr Hr'] El Er | n l p k r _ [Hl Hl'] _ [Hr Hr']]; simpl.
  - lia.
  - rewrite El in Hl. rewrite Er in Hr. rewrite length_app. simpl. lia.
  - rewrite length_app. simpl. destruct (is_red l), (is_red r); lia.
Qed.

Lemma lookup_loop_height f : forall s k cx t, (height t < f)%nat -> repz s cx t ->
  lookup_loop f s k (addr t) = Some (find k t).
Proof.
  induction f as [| f IH]; intros s k cx t Hf Hrep; [lia|].
  destruct t as [| c l p k' r]; [done|]. unfold lookup_loop; fold lookup_loop. cbn [addr find].
  destruct (repz_nonnull _ _ _ _ _ _ _ Hrep) as [H0 _]. rewrite (proj2 (Z.eqb_neq p 0) H0).
  unfold load. rewrite (repz_node _ _ _ _ _ _ _ Hrep). simpl.
  destruct (k' =? k); [done|]. simpl in Hf. unfold rb_nodes. simpl. destruct (k' <? k).
  - apply (IH _ _ (Fr true c p k' l :: cx)); [lia | by apply repz_plug1].
  - apply (IH _ _ (Fr false c p k' r :: cx)); [lia | by apply repz_plug1].
Qed.

Lemma rb_map_size t : ordered t -> size (list_to_map (inorder t) : gmap Z Z) = length (addrs t).
Proof.
  intros Ho. rewrite <- inorder_addrs, length_fmap, <- length_map_to_list.
  apply Permutation_length, map_to_list_to_map, ordered_NoDup, Ho.
Qed.

(** ** The properties of the tree *)

(** A small tree: 5 at the root, 2 and 9 below it, and two unlinked nodes. *)
Definition demo : rb_tree_t :=
  mk_rb_tree (list_to_map [(16, mk_rb_node 5 0 32 48); (32, mk_rb_node 2 17 0 0); (48, mk_rb_node 9 17 0 0);
                           (64, mk_rb_node 7 0 0 0); (80, mk_rb_node 9 0 0 0)]) 16.
Definition demo_map : gmap Z Z := list_to_map [(2, 32); (5, 16); (9, 48)].

Lemma demo_ok : rb_map demo demo_map.
Proof.
  exists (T false (T true E 32 2 E) 16 5 (T true E 48 9 E)). split; [| done].
  split; [| split; [by repeat constructor | exists 1%nat; by repeat constructor]].
  unfold rep, repz. split; [done|]. split; [by vm_compute|]. split.
  - apply (bool_decide_unpack _). by vm_compute.
  - repeat constructor.
Defined.

Lemma demo_free x : x <> 16 -> x <> 32 -> x <> 48 -> forall k, demo_map !! k <> Some x.
Proof.
  intros H1 H2 H3 k Hk. apply elem_of_list_to_map_2 in Hk. set_solver.
Qed.

(** C1: inserting a node whose key is not in the tree links it in: the call
    returns [NULL], runs to completion on every well-formed tree, and leaves a
    tree that is again well-formed (search order, no red node with a red child,
    equal black heights, parent pointers) and holds one more entry. *)
Theorem rb_insert_refines (s : rb_tree_t) (m : gmap Z Z) (x : Z) (nx : rb_tree_node_t) :
  rb_map s m -> aligned x -> (forall k, m !! k <> Some x) -> nodes s !! x = Some nx ->
  m !! key nx = None ->
  exists s', rb_tree_lookup_or_insert_node s x = Some (s', 0) /\ rb_tree_insert_node s x = Some s'
    /\ rb_map s' (<[key nx := x]> m).
Proof.
  intros Hm Hx Hfr Hnx Hk. destruct (map_insert_new s m Hm x nx Hx Hfr Hnx Hk) as (s' & E1 & H1).
  exists s'. unfold rb_tree_insert_node. rewrite E1. done.
Qed.

Lemma rb_insert_refines_witness :
  exists s', rb_tree_lookup_or_insert_node demo 64 = Some (s', 0)
    /\ rb_tree_insert_node demo 64 = Some s' /\ rb_map s' (<[7 := 64]> demo_map).
Proof.
  apply (rb_insert_refines demo demo_map 64 (mk_rb_node 7 0 0 0)).
  - apply demo_ok.
  - by repeat split.
  - by apply demo_free.
  - reflexivity.
  - reflexivity.
Defined.

(** C2: removing a node of the tree deletes exactly its entry, always completes,
    and leaves a well-formed tree. *)
Theorem rb_remove_refines (s : rb_tree_t) (m : gmap Z Z) (k x : Z) :
  rb_map s m -> m !! k = Some x ->
  exists s', rb_tree_remove_node s x = Some s' /\ rb_map s' (delete k m).
Proof. intros Hm. by apply map_remove. Qed.

Lemma rb_remove_refines_witness :
  exists s', rb_tree_remove_node demo 16 = Some s' /\ rb_map s' (delete 5 demo_map).
Proof. apply (rb_remove_refines demo demo_map 5 16); [apply demo_ok | reflexivity]. Defined.

(** A lookup finds the node of its key or returns [NULL] when no node has
    it, after at most [2 * log2 (n + 1) + 2] iterations on a tree of [n]
    nodes. *)
Theorem rb_lookup_logarithmic (s : rb_tree_t) (m : gmap Z Z) (k : Z) :
  rb_map s m ->
  rb_tree_lookup_node s k = Some (default 0 (m !! k))
  /\ lookup_loop (2 * Nat.log2 (S (size m)) + 2) s k (root s) = Some (default 0 (m !! k)).
Proof.
  intros Hm. pose proof (map_lookup s m Hm k) as Hl. split; [done|]. rewrite <- Hl.
  destruct Hm as (t & Hinv & ->). destruct Hinv as (Hrep & Ho & n & Hn).
  rewrite rb_map_size by done. destruct (rbt_height _ _ Hn) as [H1 H2].
  pose proof Hrep as (Hroot & _). simpl in Hroot. unfold rb_tree_lookup_node.
  pose proof (repz_size _ _ _ Hrep) as Hf. rewrite Hroot, (lookup_loop_ok (fuel s) _ _ [] t); [| lia | done].
  apply (lookup_loop_height _ _ _ []); [| done].
  apply Nat.log2_le_pow2 in H2; [| lia]. destruct (is_red t); lia.
Qed.

Lemma rb_lookup_logarithmic_witness :
  rb_tree_lookup_node demo 9 = Some 48 /\ lookup_loop 6 demo 9 (root demo) = Some 48.
Proof. apply (rb_lookup_logarithmic demo demo_map 9). apply demo_ok. Defined.

(** Walking the tree with [rb_tree_iter_start] and [rb_tree_iter_next]
    visits every node exactly once, in strictly increasing key order. *)
Theorem rb_iteration_sorted (s : rb_tree_t) (m : gmap Z Z) :
  rb_map s m ->
  exists es, iter_all s = Some es.*2 /\ StronglySorted Z.lt es.*1 /\ es ≡ₚ map_to_list m.
Proof.
  intros (t & Hinv & ->). exists (inorder t). split; [by apply iter_all_inorder|].
  destruct Hinv as (_ & Ho & _). split; [done|].
  symmetry. apply map_to_list_to_map. by apply ordered_NoDup.
Qed.

Lemma rb_iteration_sorted_witness :
  exists es, iter_all demo = Some es.*2 /\ StronglySorted Z.lt es.*1 /\ es ≡ₚ map_to_list demo_map.
Proof. apply (rb_iteration_sorted demo demo_map). apply demo_ok. Defined.

(** [rb_tree_lookup_increasing_node] returns the node with the least key at
    or above its argument and [rb_tree_lookup_decreasing_node] the one with the
    greatest key at or below it; each returns [NULL] exactly when there is none. *)
Theorem rb_nearest_keys (s : rb_tree_t) (m : gmap Z Z) (k : Z) :
  rb_map s m ->
  (exists x, rb_tree_lookup_increasing_node s k = Some x /\
    if x =? 0 then forall k', is_Some (m !! k') -> k' < k
    else exists k', m !! k' = Some x /\ k <= k' /\ (forall q, is_Some (m !! q) -> k <= q -> k' <= q))
  /\ (exists x, rb_tree_lookup_decreasing_node s k = Some x /\
    if x =? 0 then forall k', is_Some (m !! k') -> k < k'
    else exists k', m !! k' = Some x /\ k' <= k /\ (forall q, is_Some (m !! q) -> q <= k -> q <= k')).
Proof. intros Hm. split; [by apply map_increasing | by apply map_decreasing]. Qed.

Lemma rb_nearest_keys_witness :
  (exists x, rb_tree_lookup_increasing_node demo 6 = Some x /\
    if x =? 0 then forall k', is_Some (demo_map !! k') -> k' < 6
    else exists k', demo_map !! k' = Some x /\ 6 <= k'
      /\ (forall q, is_Some (demo_map !! q) -> 6 <= q -> k' <= q)).
Proof. apply (rb_nearest_keys demo demo_map 6). apply demo_ok. Defined.

(** Inserting a node whose key is already taken leaves the tree as it was
    and returns the node that was passed in, not the node that holds the key. *)
Theorem rb_insert_duplicate (s : rb_tree_t) (m : gmap Z Z) (x : Z) (nx : rb_tree_node_t) (y : Z) :
  rb_map s m -> aligned x -> (forall k, m !! k <> Some x) -> nodes s !! x = Some nx ->
  m !! key nx = Some y ->
  exists s', rb_tree_lookup_or_insert_node s x = Some (s', x) /\ x <> y /\ rb_map s' m
    /\ rb_tree_insert_node s x = None.
Proof.
  intros Hm Hx Hfr Hnx Hk. destruct (map_insert_dup s m Hm x nx y Hx Hfr Hnx Hk) as (s' & E1 & H1).
  exists s'. split_and!; [done | intros -> ; by eapply Hfr | done |].
  unfold rb_tree_insert_node. rewrite E1. simpl. destruct Hx as [Hx _].
  destruct (Z.eqb_spec x 0); [lia | done].
Qed.

Lemma rb_insert_duplicate_witness :
  exists s', rb_tree_lookup_or_insert_node demo 80 = Some (s', 80) /\ 80 <> 48 /\ rb_map s' demo_map
    /\ rb_tree_insert_node demo 80 = None.
Proof.
  apply (rb_insert_duplicate demo demo_map 80 (mk_rb_node 9 0 0 0) 48).
  - apply demo_ok.
  - by repeat split.
  - by apply demo_free.
  - reflexivity.
  - reflexivity.
Defined.
