(* ===== verification/TreeMap.v ===== *)
(** * Nearest-key searches on the map of a red-black tree.

    The clients of the tree see it as a finite map ([RbTreeSpec]).  These are
    [rb_tree_lookup_increasing_node] and [rb_tree_lookup_decreasing_node] on
    that map: the entry with the least key from [k] on, and the entry with the
    greatest key up to [k]; and [rb_tree_lookup_or_insert_node]. *)
From stdpp Require Import base tactics list numbers gmap fin_maps option.
From Stdlib Require Import ZArith Lia.
From S2P Require Import Prelude RbTree RbTreeRep RbTreeSpec.
#[local] Open Scope Z_scope.

Section nearest.
Context {A : Type}.
Implicit Types (m : gmap Z A).

(** [better] says which of two admissible keys wins. *)
Definition nearest (admissible : Z -> bool) (better : Z -> Z -> bool) (m : gmap Z A) : option (Z * A) :=
  map_fold (fun k v acc =>
    if admissible k then
      match acc with
      | Some (q, _) => if better k q then Some (k, v) else acc
      | None => Some (k, v)
      end
    else acc) None m.

Definition lookup_increasing (m : gmap Z A) (k : Z) : option (Z * A) := nearest (fun q => k <=? q) Z.ltb m.
Definition lookup_decreasing (m : gmap Z A) (k : Z) : option (Z * A) := nearest (fun q => q <=? k) Z.gtb m.

Lemma nearest_spec ad better m :
  (forall x y, better x y = false -> better y x = true \/ x = y) -> (forall x y z, better x y = true -> better y z = true -> better x z = true) ->
  match nearest ad better m with
  | None => forall q, is_Some (m !! q) -> ad q = false
  | Some (k, v) => m !! k = Some v /\ ad k = true /\ forall q, is_Some (m !! q) -> ad q = true -> q = k \/ better k q = true
  end.
Proof.
  intros Htot Htr. unfold nearest. apply (map_fold_weak_ind (fun r m => match r with
    | None => forall q, is_Some (m !! q) -> ad q = false
    | Some (k, v) => m !! k = Some v /\ ad k = true /\ forall q, is_Some (m !! q) -> ad q = true -> q = k \/ better k q = true end)).
  { intros q [? Hq]. by rewrite lookup_empty in Hq. }
  intros k v m' acc Hk IH. destruct (ad k) eqn:Ea.
  - destruct acc as [[q w] |].
    + destruct IH as (H1 & H2 & H3). assert (Hkq : q <> k) by congruence. destruct (better k q) eqn:Eb.
      * split_and!; [by rewrite lookup_insert_eq | done |]. intros r Hr Har. destruct (decide (r = k)) as [| Hn]; [by left | right].
        rewrite lookup_insert_ne in Hr by done. destruct (H3 r Hr Har) as [-> | ?]; [done | by eapply Htr].
      * split_and!; [by rewrite lookup_insert_ne | done |]. intros r Hr Har. destruct (decide (r = k)) as [-> | Hn].
        -- destruct (Htot k q Eb); [by right | done].
        -- rewrite lookup_insert_ne in Hr by done. auto.
    + split_and!; [by rewrite lookup_insert_eq | done |]. intros r Hr Har. destruct (decide (r = k)) as [| Hn]; [by left|].
      rewrite lookup_insert_ne in Hr by done. rewrite IH in Har by done. done.
  - destruct acc as [[q w] |].
    + destruct IH as (H1 & H2 & H3). split_and!; [by rewrite lookup_insert_ne by congruence | done |].
      intros r Hr Har. rewrite lookup_insert_ne in Hr by congruence. auto.
    + intros r Hr. destruct (decide (r = k)) as [-> | Hn]; [done|]. rewrite lookup_insert_ne in Hr by done. auto.
Qed.

(** The two searches are what [rb_nearest_keys] says of the tree. *)
Lemma increasing_spec m k : match lookup_increasing m k with
  | None => forall q, is_Some (m !! q) -> q < k
  | Some (k', v) => m !! k' = Some v /\ k <= k' /\ forall q, is_Some (m !! q) -> k <= q -> k' <= q
  end.
Proof.
  unfold lookup_increasing. pose proof (nearest_spec (fun q => k <=? q) Z.ltb m) as H.
  destruct (nearest _ _ _) as [[k' v] |].
  - destruct H as (H1 & H2 & H3); [intros; lia..|]. split_and!; [done | lia |]. intros q Hq Hk. destruct (H3 q Hq); lia.
  - intros q Hq. specialize (H ltac:(lia) ltac:(lia) q Hq). lia.
Qed.

Lemma decreasing_spec m k : match lookup_decreasing m k with
  | None => forall q, is_Some (m !! q) -> k < q
  | Some (k', v) => m !! k' = Some v /\ k' <= k /\ forall q, is_Some (m !! q) -> q <= k -> q <= k'
  end.
Proof.
  unfold lookup_decreasing. pose proof (nearest_spec (fun q => q <=? k) Z.gtb m) as H.
  destruct (nearest _ _ _) as [[k' v] |].
  - destruct H as (H1 & H2 & H3); [intros; lia..|]. split_and!; [done | lia |]. intros q Hq Hk. destruct (H3 q Hq); lia.
  - intros q Hq. specialize (H ltac:(lia) ltac:(lia) q Hq). lia.
Qed.

Lemma increasing_is m k k' v : m !! k' = Some v -> k <= k' -> (forall q, is_Some (m !! q) -> k <= q -> k' <= q) ->
  lookup_increasing m k = Some (k', v).
Proof.
  intros Hk Hle Hmin. pose proof (increasing_spec m k) as H. destruct (lookup_increasing m k) as [[q w] |].
  - destruct H as (H1 & H2 & H3). assert (q = k') as -> by (pose proof (H3 k' ltac:(by eexists) Hle); pose proof (Hmin q ltac:(by eexists) H2); lia).
    congruence.
  - specialize (H k' ltac:(by eexists)). lia.
Qed.

Lemma increasing_none m k : (forall q, is_Some (m !! q) -> q < k) -> lookup_increasing m k = None.
Proof.
  intros Hall. pose proof (increasing_spec m k) as H. destruct (lookup_increasing m k) as [[q w] |]; [| done].
  destruct H as (H1 & H2 & _). specialize (Hall q ltac:(by eexists)). lia.
Qed.

Lemma decreasing_is m k k' v : m !! k' = Some v -> k' <= k -> (forall q, is_Some (m !! q) -> q <= k -> q <= k') ->
  lookup_decreasing m k = Some (k', v).
Proof.
  intros Hk Hle Hmin. pose proof (decreasing_spec m k) as H. destruct (lookup_decreasing m k) as [[q w] |].
  - destruct H as (H1 & H2 & H3). assert (q = k') as -> by (pose proof (H3 k' ltac:(by eexists) Hle); pose proof (Hmin q ltac:(by eexists) H2); lia).
    congruence.
  - specialize (H k' ltac:(by eexists)). lia.
Qed.

Lemma decreasing_none m k : (forall q, is_Some (m !! q) -> k < q) -> lookup_decreasing m k = None.
Proof.
  intros Hall. pose proof (decreasing_spec m k) as H. destruct (lookup_decreasing m k) as [[q w] |]; [| done].
  destruct H as (H1 & H2 & _). specialize (Hall q ltac:(by eexists)). lia.
Qed.
End nearest.

(** On the map of a tree in memory the searches find what the code finds. *)
Lemma tree_increasing s m k : rb_map s m ->
  rb_tree_lookup_increasing_node s k = Some (match lookup_increasing m k with Some (_, x) => x | None => 0 end).
Proof.
  intros Hm. destruct (map_increasing s m k Hm) as (x & Ex & Hx). rewrite Ex. f_equal. clear Ex. destruct (Z.eqb_spec x 0) as [E0 | H0].
  - by rewrite increasing_none.
  - destruct Hx as (k' & Hk & Hle & Hmin). by rewrite (increasing_is m k k' x).
Qed.

Lemma tree_decreasing s m k : rb_map s m ->
  rb_tree_lookup_decreasing_node s k = Some (match lookup_decreasing m k with Some (_, x) => x | None => 0 end).
Proof.
  intros Hm. destruct (map_decreasing s m k Hm) as (x & Ex & Hx). rewrite Ex. f_equal. clear Ex. destruct (Z.eqb_spec x 0) as [E0 | H0].
  - by rewrite decreasing_none.
  - destruct Hx as (k' & Hk & Hle & Hmin). by rewrite (decreasing_is m k k' x).
Qed.

(** [rb_tree_lookup_or_insert_node] on the map: the node that is returned when
    the key is taken is the one that was passed in, not the one in the tree. *)
Definition lookup_or_insert (m : gmap Z Z) (k x : Z) : gmap Z Z * Z :=
  match m !! k with None => (<[k := x]> m, 0) | Some _ => (m, x) end.

Lemma tree_lookup_or_insert s m x nx : rb_map s m -> aligned x -> (forall k, m !! k <> Some x) -> nodes s !! x = Some nx ->
  exists s', rb_tree_lookup_or_insert_node s x = Some (s', (lookup_or_insert m (key nx) x).2) /\ rb_map s' (lookup_or_insert m (key nx) x).1.
Proof.
  intros Hm Hx Hfree Hnx. unfold lookup_or_insert. destruct (m !! key nx) as [y |] eqn:Ek.
  - by apply (map_insert_dup s m Hm x nx y).
  - by apply (map_insert_new s m Hm x nx).
Qed.
