(* ===== verification/Resource.v ===== *)
(** * Resource managers: allocation of numbers from a range
    ([src/src/kernel/resource/resource.c]).

    The range is cut into regions that are used or unused by turns; the tree
    maps the first number of a region to its length.  The tree is seen through
    its map ([RbTreeSpec], [TreeMap]); a region that is removed from the tree is
    a local value until it is inserted again or freed.  [None] is an access
    through [NULL] or the panic of [rb_tree_insert_node] on a taken key.
    A failed [KERNEL_ASSERT] only logs. *)
From stdpp Require Import base tactics list numbers gmap fin_maps option.
From Stdlib Require Import ZArith Lia.
From S2P Require Import Prelude TreeMap.
#[local] Open Scope Z_scope.

Record resource_region_t := Region { r_length : Z; r_is_used : bool }.

Record resource_manager_t := Manager { r_tree : gmap Z resource_region_t; r_max : Z }.

Definition set_tree (rm : resource_manager_t) (t : gmap Z resource_region_t) : resource_manager_t := Manager t (r_max rm).

(** [rb_tree_insert_node] *)
Definition insert_region (t : gmap Z resource_region_t) (key : Z) (r : resource_region_t) : option (gmap Z resource_region_t) :=
  match t !! key with Some _ => None | None => Some (<[key := r]> t) end.

(** [region->length++] and the like, on a region in the tree. *)
Definition set_length (t : gmap Z resource_region_t) (key : Z) (f : Z -> Z) : gmap Z resource_region_t :=
  alter (fun r => Region (u64 (f (r_length r))) (r_is_used r)) key t.

(** [None]: the function returns [NULL]. *)
Definition resource_manager_create (min max : Z) : option resource_manager_t :=
  let min := if min =? 0 then 1 else min in
  if max <=? min then None else Some (Manager {[min := Region (u64 (max - min + 1)) false]} max).

(** [for (value=1;value<=max;)]: the regions are removed in order; the manager
    is freed when the loop ends. *)
Fixpoint resource_manager_delete (fuel : nat) (rm : resource_manager_t) (value : Z) : option resource_manager_t :=
  match fuel with
  | O => None
  | S fuel =>
    if value <=? r_max rm then
      '(key, region) ← lookup_increasing (r_tree rm) value;
      resource_manager_delete fuel (set_tree rm (delete key (r_tree rm))) (u64 (key + r_length region))
    else Some rm
  end.

(** The region in front of the number that is handed out; it is made if the
    first region is unused. *)
Definition alloc_from (rm : resource_manager_t) (prev_region : option Z) (out : Z) (region : resource_region_t) :
    option (resource_manager_t * Z) :=
  let t := delete out (r_tree rm) in
  '(t, prev) ← match prev_region with
               | Some prev => Some (t, prev)
               | None => t ← insert_region t out (Region 0 true); Some (t, out)
               end;
  let t := set_length t prev (fun n => n + 1) in
  let length := u64 (r_length region - 1) in
  if z2b length then
    t ← insert_region t (u64 (out + 1)) (Region length (r_is_used region));
    Some (set_tree rm t, out)
  else
    let t := match t !! u64 (out + 1) with
             | Some next => set_length (delete (u64 (out + 1)) t) prev (fun n => n + r_length next)
             | None => t
             end in
    Some (set_tree rm t, out).

Definition resource_alloc (rm : resource_manager_t) : option (resource_manager_t * Z) :=
  '(key, region) ← lookup_increasing (r_tree rm) 1;
  if r_is_used region then
    match r_tree rm !! u64 (key + r_length region) with
    | None => Some (rm, 0)
    | Some next => alloc_from rm (Some key) (u64 (key + r_length region)) next
    end
  else alloc_from rm None key region.

(** The three cases of [resource_dealloc]: the number is the first of its
    region, the last, or inside. *)
Definition dealloc_first (rm : resource_manager_t) (resource : Z) (region : resource_region_t) : option resource_manager_t :=
  let t := delete resource (r_tree rm) in
  '(t, prev) ← match lookup_decreasing t (u64 (resource - 1)) with
               | Some (prev, _) => Some (set_length t prev (fun n => n + 1), prev)
               | None => t ← insert_region t resource (Region 1 false); Some (t, resource)
               end;
  let length := u64 (r_length region - 1) in
  if z2b length then
    t ← insert_region t (u64 (resource + 1)) (Region length (r_is_used region));
    Some (set_tree rm t)
  else
    Some (set_tree rm match lookup_increasing t (u64 (resource + 1)) with
                      | Some (next, r) => set_length (delete next t) prev (fun n => n + r_length r)
                      | None => t
                      end).

Definition dealloc_last (rm : resource_manager_t) (resource key : Z) (region : resource_region_t) : option resource_manager_t :=
  let t := r_tree rm in
  let '(t, next) := match t !! u64 (resource + 1) with
                    | Some next => (delete (u64 (resource + 1)) t, next)
                    | None => (t, Region 0 false)
                    end in
  t ← insert_region t resource (Region (u64 (r_length next + 1)) (r_is_used next));
  Some (set_tree rm (set_length t key (fun n => n - 1))).

Definition dealloc_inside (rm : resource_manager_t) (resource key : Z) (region : resource_region_t) : option resource_manager_t :=
  t ← insert_region (r_tree rm) resource (Region 1 false);
  t ← insert_region t (u64 (resource + 1)) (Region (u64 (key + r_length region - resource - 1)) true);
  Some (set_tree rm (set_length t key (fun _ => resource - key))).

Definition resource_dealloc (rm : resource_manager_t) (resource : Z) : option (resource_manager_t * bool) :=
  if (resource =? 0) || (r_max rm <? resource) then Some (rm, false)
  else
    match lookup_decreasing (r_tree rm) resource with
    | None => Some (rm, false)
    | Some (key, region) =>
      if negb (r_is_used region) then Some (rm, false)
      else
        rm ← (if resource =? key then dealloc_first rm resource region
              else if resource =? u64 (key + r_length region - 1) then dealloc_last rm resource key region
              else dealloc_inside rm resource key region);
        Some (rm, true)
    end.

Definition resource_is_used (rm : resource_manager_t) (resource : Z) : bool :=
  match lookup_decreasing (r_tree rm) resource with
  | Some (_, region) => r_is_used region
  | None => false
  end.

(** ** The regions in order *)

(** A range from [lo] on, as lengths and whether they are used. *)
Fixpoint layout (lo : Z) (rs : list (Z * bool)) : list (Z * resource_region_t) :=
  match rs with
  | [] => []
  | (n, u) :: rs => (lo, Region n u) :: layout (lo + n) rs
  end.

Fixpoint total (rs : list (Z * bool)) : Z := match rs with [] => 0 | (n, _) :: rs => n + total rs end.

(** Regions are not empty, and used by turns. *)
Fixpoint by_turns (rs : list (Z * bool)) : Prop :=
  match rs with
  | [] => True
  | (n, u) :: rs => 0 < n /\ match rs with (_, u') :: _ => u' = negb u | [] => True end /\ by_turns rs
  end.

(** Is [x] used, in a range from [lo] on? *)
Fixpoint used_in (lo : Z) (rs : list (Z * bool)) (x : Z) : bool :=
  match rs with
  | [] => false
  | (n, u) :: rs => if x <? lo + n then (lo <=? x) && u else used_in (lo + n) rs x
  end.

Definition tree_of (lo : Z) (rs : list (Z * bool)) : gmap Z resource_region_t := list_to_map (layout lo rs).

Record manager_ok (rm : resource_manager_t) (lo : Z) (rs : list (Z * bool)) : Prop := {
  m_tree : r_tree rm = tree_of lo rs;
  m_turns : by_turns rs;
  m_total : lo + total rs = r_max rm + 1;
  m_range : 0 < lo <= r_max rm /\ r_max rm < 2 ^ 64 - 1
}.

Lemma turns_pos rs : by_turns rs -> 0 <= total rs.
Proof. induction rs as [| [n u] rs IH]; cbn; [lia|]. intros (H1 & _ & H2). specialize (IH H2). lia. Qed.

Lemma total_app a b : total (a ++ b) = total a + total b.
Proof. induction a as [| [n u] a IH]; cbn; lia. Qed.

Lemma layout_app lo a b : layout lo (a ++ b) = layout lo a ++ layout (lo + total a) b.
Proof.
  revert lo. induction a as [| [n u] a IH]; intros lo; cbn; [by rewrite Z.add_0_r|]. rewrite IH. do 3 f_equal. lia.
Qed.

(** Two runs of regions may follow each other. *)
Definition joins (a b : list (Z * bool)) : Prop :=
  forall a0 n u n' u' b0, a = a0 ++ [(n, u)] -> b = (n', u') :: b0 -> u' = negb u.

Lemma turns_app a b : by_turns (a ++ b) <-> by_turns a /\ by_turns b /\ joins a b.
Proof.
  induction a as [| [n u] a IH]; cbn [app by_turns].
  - split; [| tauto]. intros Hb. split_and!; [done | done |]. intros [| ? a0] *; done.
  - rewrite IH. destruct a as [| [n' u'] a]; cbn [app].
    + split.
      * intros (Hn & Hj & _ & Hb & _). split_and!; [done | done | done | done |]. intros [| ? [| ]] * [=] ->; by subst.
      * intros ((Hn & _) & Hb & Hj). split_and!; [done | | done | done | by intros [| ? a0] * ]. destruct b as [| [m w] b]; [done|].
        by apply (Hj [] n u m w b).
    + assert (Hjj : joins ((n, u) :: (n', u') :: a) b <-> joins ((n', u') :: a) b).
      { split; intros H a0 m w n2 u2 b0 E ->.
        - by apply (H ((n, u) :: a0) m w n2 u2 b0); [rewrite E |].
        - destruct a0 as [| x a0]; [done|]. injection E as _ E. by apply (H a0 m w n2 u2 b0). }
      rewrite Hjj. tauto.
Qed.

Lemma tree_nil lo q : tree_of lo [] !! q = None.
Proof. apply lookup_empty. Qed.

Lemma tree_cons lo n u rs q : tree_of lo ((n, u) :: rs) !! q = if q =? lo then Some (Region n u) else tree_of (lo + n) rs !! q.
Proof.
  unfold tree_of. cbn [layout]. rewrite list_to_map_cons. destruct (Z.eqb_spec q lo) as [-> | Hn]; [by rewrite lookup_insert_eq | by rewrite lookup_insert_ne].
Qed.

Lemma tree_range lo rs q r : by_turns rs -> tree_of lo rs !! q = Some r -> lo <= q < lo + total rs.
Proof.
  revert lo. induction rs as [| [n u] rs IH]; intros lo; [by rewrite tree_nil|]. rewrite tree_cons. intros (Hn & _ & Ht) Hq. cbn [total].
  pose proof (turns_pos _ Ht). destruct (Z.eqb_spec q lo); [lia|]. specialize (IH (lo + n) Ht Hq). lia.
Qed.

Lemma tree_out lo rs q : by_turns rs -> ~ (lo <= q < lo + total rs) -> tree_of lo rs !! q = None.
Proof. intros Ht Hq. destruct (tree_of lo rs !! q) eqn:E; [| done]. by apply tree_range in E. Qed.

Lemma tree_app lo a b q : by_turns (a ++ b) ->
  tree_of lo (a ++ b) !! q = if q <? lo + total a then tree_of lo a !! q else tree_of (lo + total a) b !! q.
Proof.
  revert lo. induction a as [| [n u] a IH]; intros lo Ht; cbn [app total].
  - rewrite Z.add_0_r, tree_nil. destruct (Z.ltb_spec q lo); [| done]. apply tree_out; [done | lia].
  - destruct Ht as (Hn & _ & Ht). rewrite !tree_cons, IH by done. apply turns_app in Ht as (Ha & _). pose proof (turns_pos _ Ha).
    replace (lo + (n + total a)) with (lo + n + total a) by lia. destruct (Z.eqb_spec q lo), (Z.ltb_spec q (lo + n + total a)); try done; lia.
Qed.

Lemma used_app lo a b x : by_turns (a ++ b) ->
  used_in lo (a ++ b) x = if x <? lo + total a then used_in lo a x else used_in (lo + total a) b x.
Proof.
  revert lo. induction a as [| [n u] a IH]; intros lo Ht; cbn [app total used_in].
  - rewrite Z.add_0_r. destruct (Z.ltb_spec x lo); [| done]. destruct b as [| [n u] b]; [done|]. cbn. destruct Ht as (Hn & _).
    destruct (Z.ltb_spec x (lo + n)); [| lia]. by rewrite (proj2 (Z.leb_gt lo x)).
  - destruct Ht as (Hn & _ & Ht). rewrite IH by done. apply turns_app in Ht as (Ha & _). pose proof (turns_pos _ Ha).
    replace (lo + (n + total a)) with (lo + n + total a) by lia. destruct (Z.ltb_spec x (lo + n)), (Z.ltb_spec x (lo + n + total a)); try done; lia.
Qed.

Lemma used_out lo rs x : by_turns rs -> ~ (lo <= x < lo + total rs) -> used_in lo rs x = false.
Proof.
  revert lo. induction rs as [| [n u] rs IH]; intros lo; cbn; [done|]. intros (Hn & _ & Ht) Hx. pose proof (turns_pos _ Ht).
  destruct (Z.ltb_spec x (lo + n)); [by rewrite (proj2 (Z.leb_gt lo x)) by lia | apply IH; [done | lia]].
Qed.

(** The region that holds [x]. *)
Lemma region_at lo rs x : by_turns rs -> lo <= x < lo + total rs ->
  exists a n u b, rs = a ++ (n, u) :: b /\ lo + total a <= x < lo + total a + n.
Proof.
  revert lo. induction rs as [| [n u] rs IH]; intros lo; cbn [total by_turns]; [lia|]. intros (Hn & _ & Ht) Hx.
  destruct (Z.ltb_spec x (lo + n)).
  - exists [], n, u, rs. cbn. split; [done | lia].
  - destruct (IH (lo + n) Ht ltac:(lia)) as (a & n' & u' & b & -> & Hx'). exists ((n, u) :: a), n', u', b. cbn. split; [done | lia].
Qed.

(** ** Trees after an operation *)

Lemma insert_if (t : gmap Z resource_region_t) k r q : <[k := r]> t !! q = if q =? k then Some r else t !! q.
Proof. destruct (Z.eqb_spec q k) as [-> |]; [by rewrite lookup_insert_eq | by rewrite lookup_insert_ne]. Qed.

Lemma delete_if (t : gmap Z resource_region_t) k q : delete k t !! q = if q =? k then None else t !! q.
Proof. destruct (Z.eqb_spec q k) as [-> |]; [by rewrite lookup_delete_eq | by rewrite lookup_delete_ne]. Qed.

Lemma set_length_if t k f q : set_length t k f !! q =
  if q =? k then (fun r => Region (u64 (f (r_length r))) (r_is_used r)) <$> t !! q else t !! q.
Proof. unfold set_length. destruct (Z.eqb_spec q k) as [-> |]; [by rewrite lookup_alter_eq | by rewrite lookup_alter_ne]. Qed.

(** Decide every comparison of [q] with a boundary; drop the runs of regions
    that [q] is outside of; align the offsets of the others. *)
Ltac tree_cases :=
  repeat (rewrite ?insert_if, ?delete_if, ?set_length_if, ?tree_cons, ?tree_nil; match goal with
    | |- context [?x =? ?y] => destruct (Z.eqb_spec x y); try lia
    | |- context [?x <? ?y] => destruct (Z.ltb_spec x y); try lia
    end); cbn [fmap option_fmap option_map r_length r_is_used].

Ltac tree_close :=
  repeat match goal with
    | |- context [tree_of ?lo ?rs !! ?q] => rewrite (tree_out lo rs q) by (try done; lia)
    end; cbn [fmap option_fmap option_map r_length r_is_used]; rewrite ?u64_id by lia;
  first [done | lia | do 2 f_equal; lia | do 3 f_equal; lia | congruence].

Lemma insert_region_new t k r : t !! k = None -> insert_region t k r = Some (<[k := r]> t).
Proof. intros E. unfold insert_region. by rewrite E. Qed.

Section manager.
Context (rm : resource_manager_t) (lo : Z).

Lemma lookup_at rs a n u b : manager_ok rm lo rs -> rs = a ++ (n, u) :: b -> r_tree rm !! (lo + total a) = Some (Region n u).
Proof.
  intros [-> Ht _ _] ->. rewrite tree_app by done. rewrite (proj2 (Z.ltb_ge _ _)) by lia. by rewrite tree_cons, Z.eqb_refl.
Qed.

Lemma decreasing_at rs a n u b x : manager_ok rm lo rs -> rs = a ++ (n, u) :: b -> lo + total a <= x < lo + total a + n ->
  lookup_decreasing (r_tree rm) x = Some (lo + total a, Region n u).
Proof.
  intros OK E Hx. apply decreasing_is; [by eapply lookup_at | lia |]. destruct OK as [-> Ht _ _]. subst rs. intros q [r Hq] Hqx.
  rewrite tree_app in Hq by done. apply turns_app in Ht as (Ha & (Hn & _ & Hb) & _). destruct (Z.ltb_spec q (lo + total a)); [lia|].
  rewrite tree_cons in Hq. destruct (Z.eqb_spec q (lo + total a)); [lia|]. apply tree_range in Hq; [lia | done].
Qed.

(** Replace what follows [a], starting with the same kind of region. *)
Lemma turns_splice a n n' u b c : by_turns (a ++ (n, u) :: b) -> by_turns ((n', u) :: c) -> by_turns (a ++ (n', u) :: c).
Proof.
  intros (Ha & _ & Hj)%turns_app Hc. apply turns_app. split_and!; [done | done|]. intros a0 m w m' w' b0 -> [= <- <- <-].
  by apply (Hj a0 m w n u b).
Qed.

(** The new tree [t] is that of the regions [rs'], which cover the same range. *)
Lemma manager_set rs rs' t : manager_ok rm lo rs -> by_turns rs' -> total rs' = total rs -> (forall q, t !! q = tree_of lo rs' !! q) ->
  manager_ok (set_tree rm t) lo rs'.
Proof. intros [E Ht Hs Hr] Ht' Hs' Hq. split; cbn [set_tree r_tree r_max]; [by apply map_eq | done | lia | done]. Qed.

(** Facts about a range [a ++ (n, u) :: b]. *)
Lemma manager_facts a n u b : manager_ok rm lo (a ++ (n, u) :: b) ->
  r_tree rm = tree_of lo (a ++ (n, u) :: b) /\ by_turns (a ++ (n, u) :: b) /\ by_turns a /\ by_turns b /\ 0 <= total a /\ 0 <= total b /\ 0 < n /\
  0 < lo /\ lo + total a + n + total b <= 2 ^ 64 - 1 /\ match b with (_, u') :: _ => u' = negb u | [] => True end.
Proof.
  intros [E Ht Hs Hr]. pose proof Ht as (Ha & (Hn & Hj & Hb) & _)%turns_app. rewrite total_app in Hs. cbn [total] in Hs.
  pose proof (turns_pos _ Ha). pose proof (turns_pos _ Hb). split_and!; try done; lia.
Qed.

(** [dealloc_inside] cuts a region in three. *)
Lemma inside_ok a n b x : manager_ok rm lo (a ++ (n, true) :: b) -> lo + total a < x < lo + total a + n - 1 ->
  exists rm', dealloc_inside rm x (lo + total a) (Region n true) = Some rm' /\
    manager_ok rm' lo (a ++ (x - (lo + total a), true) :: (1, false) :: (lo + total a + n - x - 1, true) :: b).
Proof.
  intros OK Hx. destruct (manager_facts _ _ _ _ OK) as (E & Ht & Ha & Hb & H1 & H2 & Hn & Hlo & Hmx & Hh).
  assert (Ht' : by_turns (a ++ (x - (lo + total a), true) :: (1, false) :: (lo + total a + n - x - 1, true) :: b)).
  { eapply turns_splice; [exact Ht|]. cbn [by_turns]. split_and!; try done; lia. }
  unfold dealloc_inside. cbn [r_length]. rewrite (u64_id (x + 1)), (u64_id (_ - x - 1)) by lia. rewrite insert_region_new; cycle 1.
  { rewrite E, tree_app by done. tree_cases. tree_close. }
  cbn [mbind option_bind]. rewrite insert_region_new; cycle 1.
  { rewrite E, insert_if, tree_app by done. tree_cases. tree_close. }
  cbn [mbind option_bind]. eexists. split; [done|]. eapply manager_set; [exact OK | done | rewrite !total_app; cbn [total]; lia |].
  intros q. rewrite E, (tree_app lo a) by done. tree_cases; rewrite ?tree_app by done; tree_cases; tree_close.
Qed.

(** [dealloc_last] moves the end of a region. *)
Lemma last_ok a n b : manager_ok rm lo (a ++ (n, true) :: b) -> 1 < n ->
  exists rm', dealloc_last rm (lo + total a + n - 1) (lo + total a) (Region n true) = Some rm' /\
    manager_ok rm' lo (a ++ (n - 1, true) :: match b with [] => [(1, false)] | (m, _) :: b => (m + 1, false) :: b end).
Proof.
  intros OK Hn1. destruct (manager_facts _ _ _ _ OK) as (E & Ht & Ha & Hb & H1 & H2 & Hn & Hlo & Hmx & Hh).
  unfold dealloc_last. replace (u64 (lo + total a + n - 1 + 1)) with (lo + total a + n) by (rewrite u64_id; lia).
  destruct b as [| [m w] b].
  - assert (Ht' : by_turns (a ++ [(n - 1, true); (1, false)])) by (eapply turns_splice; [exact Ht|]; cbn [by_turns]; split_and!; try done; lia).
    assert (r_tree rm !! (lo + total a + n) = None) as -> by (rewrite E, tree_app by done; tree_cases; tree_close).
    cbn [r_length r_is_used]. rewrite insert_region_new by (rewrite E, tree_app by done; tree_cases; tree_close).
    cbn [mbind option_bind]. eexists. split; [done|]. eapply manager_set; [exact OK | done | rewrite !total_app; cbn [total]; lia |].
    intros q. rewrite E, (tree_app lo a) by done. tree_cases; rewrite ?tree_app by done; tree_cases; tree_close.
  - subst w. destruct Hb as (Hm & Hh' & Hb). cbn [total] in *. pose proof (turns_pos _ Hb).
    assert (Ht' : by_turns (a ++ (n - 1, true) :: (m + 1, false) :: b)) by (eapply turns_splice; [exact Ht|]; cbn [by_turns]; split_and!; try done; lia).
    assert (r_tree rm !! (lo + total a + n) = Some (Region m false)) as -> by (rewrite E, tree_app by done; tree_cases; tree_close).
    cbn [r_length r_is_used]. rewrite insert_region_new by (rewrite E, delete_if, tree_app by done; tree_cases; tree_close).
    cbn [mbind option_bind]. eexists. split; [done|]. eapply manager_set; [exact OK | done | rewrite !total_app; cbn [total]; lia |].
    intros q. rewrite E, (tree_app lo a) by done. tree_cases; rewrite ?tree_app by done; tree_cases; tree_close.
Qed.

(** What is left when the first of [n] used numbers is freed: [p] unused numbers,
    then the rest, or the unused region behind if nothing is left. *)
Definition freed_first (p n : Z) (b : list (Z * bool)) : list (Z * bool) :=
  if n =? 1 then match b with [] => [(p, false)] | (m, _) :: b => (p + m, false) :: b end
  else (p, false) :: (n - 1, true) :: b.

Lemma freed_first_turns p n b : 0 < p -> by_turns ((n, true) :: b) -> by_turns (freed_first p n b) /\ total (freed_first p n b) = p + n - 1 + total b.
Proof.
  intros Hp (Hn & Hj & Hb). unfold freed_first. destruct (Z.eqb_spec n 1) as [-> |].
  - destruct b as [| [m w] b]; cbn [by_turns total] in *; [split_and!; try done; lia|]. subst w. destruct Hb as (Hm & Hj' & Hb). split_and!; try done; lia.
  - cbn [by_turns total]. split_and!; try done; lia.
Qed.

(** The second half of [dealloc_first]; [k] is the key of the unused region. *)
Definition after_grow (t : gmap Z resource_region_t) (k resource : Z) (region : resource_region_t) : option resource_manager_t :=
  let length := u64 (r_length region - 1) in
  if z2b length then
    t ← insert_region t (u64 (resource + 1)) (Region length (r_is_used region));
    Some (set_tree rm t)
  else
    Some (set_tree rm match lookup_increasing t (u64 (resource + 1)) with
                      | Some (next, r) => set_length (delete next t) k (fun n => n + r_length r)
                      | None => t
                      end).

Lemma after_grow_ok a p n b t : by_turns a -> by_turns (a ++ freed_first p n b) -> by_turns ((n, true) :: b) -> 0 < p -> 0 < lo ->
  lo + total a + p - 1 + n + total b <= 2 ^ 64 - 1 ->
  (forall q, t !! q = if q <? lo + total a then tree_of lo a !! q else if q =? lo + total a then Some (Region p false)
                     else tree_of (lo + total a + p - 1 + n) b !! q) ->
  exists t', after_grow t (lo + total a) (lo + total a + p - 1) (Region n true) = Some (set_tree rm t') /\
    forall q, t' !! q = tree_of lo (a ++ freed_first p n b) !! q.
Proof.
  intros Ha Ht (Hn & Hj & Hb) Hp Hlo Hmx Hq. pose proof (turns_pos _ Ha). pose proof (turns_pos _ Hb).
  unfold after_grow, freed_first in *. cbn [r_length r_is_used]. rewrite (u64_id (n - 1)) by lia.
  replace (u64 (lo + total a + p - 1 + 1)) with (lo + total a + p) by (rewrite u64_id; lia).
  unfold z2b. destruct (Z.eqb_spec n 1) as [-> | Hn1].
  - rewrite Z.sub_diag. cbn [negb Z.eqb]. destruct b as [| [m w] b].
    + rewrite increasing_none; [eexists; split; [done|]; intros q; rewrite Hq, tree_app by done; tree_cases; tree_close|].
      intros q [r Hr]. rewrite Hq in Hr. revert Hr. tree_cases; rewrite ?tree_nil; intros; (lia || done).
    + destruct Hb as (Hm & Hj' & Hb). cbn [total] in *. pose proof (turns_pos _ Hb).
      rewrite (increasing_is t _ (lo + total a + p) (Region m w)).
      * eexists. split; [done|]. intros q. cbn [r_length]. rewrite tree_app by done. tree_cases; rewrite ?Hq; tree_cases; tree_close.
      * rewrite Hq. tree_cases. done.
      * lia.
      * intros q _ Hle. lia.
  - rewrite (proj2 (Z.eqb_neq (n - 1) 0)) by lia. cbn [negb]. rewrite insert_region_new; cycle 1.
    { rewrite Hq. tree_cases. tree_close. }
    cbn [mbind option_bind]. eexists. split; [done|]. intros q. rewrite tree_app by done. tree_cases; rewrite ?Hq; tree_cases; tree_close.
Qed.

Lemma dealloc_first_ok a n b : manager_ok rm lo (a ++ (n, true) :: b) ->
  exists rm' rs', dealloc_first rm (lo + total a) (Region n true) = Some rm' /\ manager_ok rm' lo rs' /\
    ((a = [] /\ rs' = freed_first 1 n b) \/ exists a0 p, a = a0 ++ [(p, false)] /\ rs' = a0 ++ freed_first (p + 1) n b).
Proof.
  intros OK. destruct (manager_facts _ _ _ _ OK) as (E & Ht & Ha & Hb & H1 & H2 & Hn & Hlo & Hmx & Hh).
  pose proof Ht as (_ & Hnb & Hj)%turns_app. unfold dealloc_first. rewrite (u64_id (lo + total a - 1)) by lia.
  destruct a as [| [p w] a0 _] using rev_ind.
  - cbn [total app] in *. rewrite Z.add_0_r in *. rewrite decreasing_none; cycle 1.
    { intros q [r Hr]. rewrite E, delete_if in Hr. revert Hr. tree_cases; intros Hr; [done..|]. apply tree_range in Hr; [lia | done]. }
    rewrite insert_region_new by (by rewrite lookup_delete_eq). cbn [mbind option_bind].
    destruct (freed_first_turns 1 n b ltac:(lia) Hnb) as [Ht' Hs'].
    destruct (after_grow_ok [] 1 n b (<[lo := Region 1 false]> (delete lo (r_tree rm)))) as (t' & Et & Hq); [done | done | done | lia | done | cbn; lia | |].
    { intros q. rewrite E. cbn [total]. tree_cases; tree_close. }
    cbn [total app] in *. replace (lo + 0 + 1 - 1) with lo in Et by lia. rewrite Z.add_0_r in Et. unfold after_grow in Et. rewrite Et.
    eexists _, _. split_and!; [done | | left; by split]. eapply manager_set; [exact OK | done | cbn [total]; lia | exact Hq].
  - assert (w = false) as -> by (specialize (Hj a0 p w n true b eq_refl eq_refl); by destruct w).
    rewrite total_app in *. cbn [total] in *. pose proof Ha as (Ha0 & (Hp & _) & Hj0)%turns_app. pose proof (turns_pos _ Ha0).
    rewrite (decreasing_is _ _ (lo + total a0) (Region p false)); cycle 1.
    { rewrite E, <- app_assoc. cbn [app]. rewrite delete_if, tree_app by (by rewrite <- app_assoc in Ht). tree_cases; tree_close. }
    { lia. }
    { intros q [r Hr] Hle. rewrite <- app_assoc in Ht, E. cbn [app] in *. rewrite E, delete_if, tree_app in Hr by done. revert Hr. tree_cases; intros Hr; try done.
      apply tree_range in Hr; [lia | done]. }
    cbn [mbind option_bind]. destruct (freed_first_turns (p + 1) n b ltac:(lia) Hnb) as [Hf Hs'].
    assert (Ht' : by_turns (a0 ++ freed_first (p + 1) n b)).
    { rewrite <- app_assoc in Ht. cbn [app] in Ht. revert Hf. unfold freed_first. repeat case_match; intros Hf; eapply turns_splice; done. }
    destruct (after_grow_ok a0 (p + 1) n b (set_length (delete (lo + (total a0 + (p + 0))) (r_tree rm)) (lo + total a0) (fun n => n + 1))) as (t' & Et & Hq);
      [done | done | done | lia | done | lia | |].
    { intros q. rewrite <- app_assoc in Ht, E. cbn [app] in *. rewrite E, set_length_if, delete_if, tree_app by done. tree_cases; tree_close. }
    replace (lo + total a0 + (p + 1) - 1) with (lo + (total a0 + (p + 0))) in Et by lia. unfold after_grow in Et. rewrite Et.
    eexists _, _. split_and!; [done | | right; by exists a0, p]. eapply manager_set; [exact OK | done | rewrite !total_app; cbn [total]; lia | exact Hq].
Qed.

(** What is left when the first of [n] unused numbers is handed out. *)
Definition taken_first (p n : Z) (b : list (Z * bool)) : list (Z * bool) :=
  if n =? 1 then match b with [] => [(p, true)] | (m, _) :: b => (p + m, true) :: b end
  else (p, true) :: (n - 1, false) :: b.

Lemma taken_first_turns p n b : 0 < p -> by_turns ((n, false) :: b) -> by_turns (taken_first p n b) /\ total (taken_first p n b) = p + n - 1 + total b.
Proof.
  intros Hp (Hn & Hj & Hb). unfold taken_first. destruct (Z.eqb_spec n 1) as [-> |].
  - destruct b as [| [m w] b]; cbn [by_turns total] in *; [split_and!; try done; lia|]. subst w. destruct Hb as (Hm & Hj' & Hb). split_and!; try done; lia.
  - cbn [by_turns total]. split_and!; try done; lia.
Qed.

Definition after_take (t : gmap Z resource_region_t) (prev out : Z) (region : resource_region_t) : option (resource_manager_t * Z) :=
  let length := u64 (r_length region - 1) in
  if z2b length then
    t ← insert_region t (u64 (out + 1)) (Region length (r_is_used region));
    Some (set_tree rm t, out)
  else
    let t := match t !! u64 (out + 1) with
             | Some next => set_length (delete (u64 (out + 1)) t) prev (fun n => n + r_length next)
             | None => t
             end in
    Some (set_tree rm t, out).

Lemma after_take_ok p n b t : by_turns ((n, false) :: b) -> 0 < p -> 0 < lo -> lo + p - 1 + n + total b <= 2 ^ 64 - 1 ->
  (forall q, t !! q = if q =? lo then Some (Region p true) else tree_of (lo + p - 1 + n) b !! q) ->
  exists t', after_take t lo (lo + p - 1) (Region n false) = Some (set_tree rm t', lo + p - 1) /\
    forall q, t' !! q = tree_of lo (taken_first p n b) !! q.
Proof.
  intros (Hn & Hj & Hb) Hp Hlo Hmx Hq. pose proof (turns_pos _ Hb). unfold after_take, taken_first in *. cbn [r_length r_is_used].
  rewrite (u64_id (n - 1)) by lia. replace (u64 (lo + p - 1 + 1)) with (lo + p) by (rewrite u64_id; lia).
  unfold z2b. destruct (Z.eqb_spec n 1) as [-> | Hn1].
  - rewrite Z.sub_diag. cbn [negb Z.eqb]. destruct b as [| [m w] b].
    + assert (t !! (lo + p) = None) as -> by (rewrite Hq; tree_cases; tree_close). eexists. split; [done|]. intros q. rewrite Hq. tree_cases; tree_close.
    + destruct Hb as (Hm & Hj' & Hb). cbn [total] in *. pose proof (turns_pos _ Hb).
      assert (t !! (lo + p) = Some (Region m w)) as -> by (rewrite Hq; tree_cases; tree_close).
      eexists. split; [done|]. intros q. cbn [r_length]. tree_cases; rewrite ?Hq; tree_cases; tree_close.
  - rewrite (proj2 (Z.eqb_neq (n - 1) 0)) by lia. cbn [negb]. rewrite insert_region_new by (rewrite Hq; tree_cases; tree_close).
    cbn [mbind option_bind]. eexists. split; [done|]. intros q. tree_cases; rewrite ?Hq; tree_cases; tree_close.
Qed.
End manager.

(** ** What a manager promises *)

(** The manager hands out the numbers from [lo] to its maximum; [U] says which
    of them are in use. *)
Definition holds (rm : resource_manager_t) (lo : Z) (U : Z -> bool) : Prop :=
  exists rs, manager_ok rm lo rs /\ forall x, used_in lo rs x = U x.

Ltac used_cases :=
  cbn [used_in total]; repeat match goal with
    | |- context [?x <? ?y] => destruct (Z.ltb_spec x y); try lia
    | |- context [?x =? ?y] => destruct (Z.eqb_spec x y); try lia
    | |- context [?x <=? ?y] => destruct (Z.leb_spec x y); try lia
    end; cbn [andb orb negb].

Ltac used_close :=
  repeat match goal with
    | |- context [used_in ?lo ?rs ?q] => rewrite (used_out lo rs q) by (try done; lia)
    end; first [done | f_equal; lia].

Lemma used_taken lo p n b x : by_turns ((n, false) :: b) -> 0 < p -> used_in lo (taken_first p n b) x =
  (x =? lo + p - 1) || (if x <? lo + p - 1 then lo <=? x else used_in (lo + p - 1) ((n, false) :: b) x).
Proof.
  intros (Hn & Hj & Hb) Hp. unfold taken_first. destruct (Z.eqb_spec n 1) as [-> |].
  - destruct b as [| [m w] b]; [used_cases; used_close|]. destruct Hb as (Hm & _ & Hb). subst w. used_cases; used_close.
  - used_cases; used_close.
Qed.

Lemma used_freed lo p n b x : by_turns ((n, true) :: b) -> 0 < p -> used_in lo (freed_first p n b) x =
  negb (x =? lo + p - 1) && (if x <? lo + p - 1 then false else used_in (lo + p - 1) ((n, true) :: b) x).
Proof.
  intros (Hn & Hj & Hb) Hp. unfold freed_first. destruct (Z.eqb_spec n 1) as [-> |].
  - destruct b as [| [m w] b]; [used_cases; used_close|]. destruct Hb as (Hm & _ & Hb). subst w. used_cases; used_close.
  - used_cases; used_close.
Qed.

Lemma first_region rm lo n u b : manager_ok rm lo ((n, u) :: b) -> lookup_increasing (r_tree rm) 1 = Some (lo, Region n u).
Proof.
  intros OK. pose proof (lookup_at rm lo _ [] n u b OK eq_refl) as Hl. cbn in Hl. rewrite Z.add_0_r in Hl.
  destruct OK as [E Ht _ Hr]. apply increasing_is; [done | lia |]. intros q [r Hq] _. rewrite E in Hq. apply tree_range in Hq; [lia | done].
Qed.

Lemma resource_alloc_ok rm lo U : holds rm lo U -> exists rm' out, resource_alloc rm = Some (rm', out) /\
  ((out = 0 /\ rm' = rm /\ forall x, lo <= x <= r_max rm -> U x = true) \/
   (lo <= out <= r_max rm /\ U out = false /\ (forall x, lo <= x < out -> U x = true) /\ r_max rm' = r_max rm /\ holds rm' lo (fun x => (x =? out) || U x))).
Proof.
  intros (rs & OK & HU). destruct rs as [| [n u] b]; [destruct OK as [_ _ Hs Hr]; cbn in Hs; lia|].
  pose proof (first_region _ _ _ _ _ OK) as Ef. destruct (manager_facts rm lo [] n u b OK) as (E & Ht & _ & Hb & _ & H2 & Hn & Hlo & Hmx & Hh).
  cbn [total app] in *. rewrite Z.add_0_r in *. pose proof (m_total _ _ _ OK) as Hs. cbn [total] in Hs.
  unfold resource_alloc. rewrite Ef. cbn [mbind option_bind r_is_used]. destruct u.
  - rewrite (u64_id (lo + r_length _)) by (cbn [r_length]; lia). cbn [r_length]. destruct b as [| [m w] b].
    + cbn [total] in *. rewrite E, tree_cons, tree_nil. destruct (Z.eqb_spec (lo + n) lo); [lia|]. exists rm, 0. split; [done|]. left. split_and!; [done | done |].
      intros x Hx. rewrite <- HU. used_cases; used_close.
    + subst w. pose proof (lookup_at rm lo _ [(n, true)] m false b OK eq_refl) as Hl. cbn [total] in Hl. rewrite Z.add_0_r in Hl. rewrite Hl.
      pose proof Hb as (Hm & Hj' & Hb'). pose proof (turns_pos _ Hb'). cbn [total] in *.
      unfold alloc_from. cbn [mbind option_bind]. destruct (taken_first_turns (n + 1) m b ltac:(lia) Hb) as [Ht' Hs'].
      destruct (after_take_ok rm lo (n + 1) m b (set_length (delete (lo + n) (r_tree rm)) lo (fun n => n + 1)) Hb) as (t' & Et & Hq); [lia | lia | lia | |].
      { intros q. rewrite E. tree_cases; tree_close. }
      replace (lo + (n + 1) - 1) with (lo + n) in Et by lia. unfold after_take in Et. rewrite Et.
      eexists _, _. split; [done|]. right. split_and!; [lia | lia | rewrite <- HU; used_cases; used_close | | done |].
      * intros x Hx. rewrite <- HU. used_cases; used_close.
      * exists (taken_first (n + 1) m b). split; [eapply manager_set; [exact OK | done | cbn [total]; lia | exact Hq]|].
        intros x. rewrite used_taken, <- HU by (done || lia). used_cases; used_close.
  - unfold alloc_from. rewrite insert_region_new by (by rewrite lookup_delete_eq). cbn [mbind option_bind].
    destruct (taken_first_turns 1 n b ltac:(lia) Ht) as [Ht' Hs'].
    destruct (after_take_ok rm lo 1 n b (set_length (<[lo := Region 0 true]> (delete lo (r_tree rm))) lo (fun n => n + 1)) Ht) as (t' & Et & Hq); [lia | lia | lia | |].
    { intros q. rewrite E. tree_cases; tree_close. }
    replace (lo + 1 - 1) with lo in Et by lia. unfold after_take in Et. rewrite Et.
    eexists _, _. split; [done|]. right. split_and!; [lia | lia | rewrite <- HU; used_cases; used_close | lia | done |].
    exists (taken_first 1 n b). split; [eapply manager_set; [exact OK | done | cbn [total]; lia | exact Hq]|].
    intros x. rewrite used_taken, <- HU by (done || lia). used_cases; used_close.
Qed.

Lemma used_bounds rm lo rs x : manager_ok rm lo rs -> used_in lo rs x = true -> lo <= x <= r_max rm.
Proof.
  intros [_ Ht Hs _] Hu. destruct (decide (lo <= x < lo + total rs)) as [| Hn]; [lia|]. by rewrite used_out in Hu.
Qed.

(** The cases of [resource_dealloc] for a number in use. *)
Lemma dealloc_used rm lo a n b x : manager_ok rm lo (a ++ (n, true) :: b) -> lo + total a <= x < lo + total a + n ->
  exists rm' rs', (if x =? lo + total a then dealloc_first rm x (Region n true)
      else if x =? u64 (lo + total a + n - 1) then dealloc_last rm x (lo + total a) (Region n true)
      else dealloc_inside rm x (lo + total a) (Region n true)) = Some rm' /\ manager_ok rm' lo rs' /\
    forall y, used_in lo rs' y = negb (y =? x) && used_in lo (a ++ (n, true) :: b) y.
Proof.
  intros OK Hx. destruct (manager_facts _ _ _ _ _ _ OK) as (E & Ht & Ha & Hb & H1 & H2 & Hn & Hlo & Hmx & Hh). pose proof Ht as (_ & Hnb & _)%turns_app.
  rewrite (u64_id (lo + total a + n - 1)) by lia. destruct (Z.eqb_spec x (lo + total a)) as [-> | Hne].
  - destruct (dealloc_first_ok rm lo a n b OK) as (rm' & rs' & Ed & OK' & Hrs). exists rm', rs'. split_and!; [done | done |]. intros y.
    destruct Hrs as [[-> ->] | (a0 & p & -> & ->)].
    + cbn [total app]. rewrite used_freed by (done || lia). replace (lo + 1 - 1) with (lo + 0) by lia. rewrite Z.add_0_r. used_cases; used_close.
    + rewrite <- app_assoc in *. cbn [app] in *. pose proof (m_turns _ _ _ OK') as Ht'. rewrite total_app in *. cbn [total] in *.
      apply turns_app in Ha as (Ha0 & (Hp & _) & _). pose proof (turns_pos _ Ha0).
      rewrite !used_app by done. rewrite used_freed by (done || lia). used_cases; used_close.
  - destruct (Z.eqb_spec x (lo + total a + n - 1)) as [-> | Hne'].
    + destruct (last_ok rm lo a n b OK ltac:(lia)) as (rm' & Ed & OK'). eexists _, _. split_and!; [done | exact OK' |]. intros y.
      pose proof (m_turns _ _ _ OK') as Ht'. rewrite !used_app by done. destruct b as [| [m w] b]; [used_cases; used_close|].
      destruct Hb as (Hm & _ & Hb). subst w. used_cases; used_close.
    + destruct (inside_ok rm lo a n b x OK ltac:(lia)) as (rm' & Ed & OK'). eexists _, _. split_and!; [done | exact OK' |]. intros y.
      pose proof (m_turns _ _ _ OK') as Ht'. rewrite !used_app by done. used_cases; used_close.
Qed.

Lemma is_used_ok rm lo U x : holds rm lo U -> x <= r_max rm -> resource_is_used rm x = U x.
Proof.
  intros (rs & OK & HU) Hx. rewrite <- HU. unfold resource_is_used. destruct (OK) as [E Ht Hs Hr]. destruct (Z.ltb_spec x lo) as [Hlt | Hge].
  - rewrite used_out by (done || lia). rewrite decreasing_none; [done|]. intros q [r Hq]. rewrite E in Hq. apply tree_range in Hq; [lia | done].
  - destruct (region_at lo rs x Ht ltac:(lia)) as (a & n & u & b & -> & Hin). rewrite (decreasing_at rm lo _ a n u b x OK eq_refl Hin). cbn [r_is_used].
    rewrite used_app by done. used_cases; done.
Qed.

(** Every case keeps the end of the range. *)
Lemma bind_set_max {A} (o : option A) rm (f : A -> option resource_manager_t) rm' : (o ≫= f) = Some rm' ->
  (forall a, f a = Some rm' -> r_max rm' = r_max rm) -> r_max rm' = r_max rm.
Proof. destruct o; cbn; eauto; discriminate. Qed.

Lemma dealloc_max rm x key r rm' :
  (if x =? key then dealloc_first rm x r else if x =? u64 (key + r_length r - 1) then dealloc_last rm x key r
   else dealloc_inside rm x key r) = Some rm' -> r_max rm' = r_max rm.
Proof.
  unfold dealloc_first, dealloc_last, dealloc_inside. intros Ed.
  repeat first [by injection Ed as <- | done | apply (bind_set_max _ _ _ _ Ed); clear Ed; intros ? Ed | case_match].
Qed.

Lemma resource_dealloc_ok rm lo U x : holds rm lo U -> 0 <= x ->
  if U x then exists rm', resource_dealloc rm x = Some (rm', true) /\ r_max rm' = r_max rm /\ holds rm' lo (fun y => negb (y =? x) && U y)
  else resource_dealloc rm x = Some (rm, false).
Proof.
  intros HH Hx0. pose proof HH as (rs & OK & HU). destruct (OK) as [E Ht Hs Hr]. unfold resource_dealloc.
  destruct (Z.eqb_spec x 0) as [-> | Hx1]; cbn [orb]; [rewrite <- HU, used_out by (done || lia); done|].
  destruct (Z.ltb_spec (r_max rm) x); [rewrite <- HU, used_out by (done || lia); done|].
  pose proof (is_used_ok rm lo U x HH ltac:(lia)) as Hu. unfold resource_is_used in Hu.
  destruct (lookup_decreasing (r_tree rm) x) as [[key region] |] eqn:El; [| by rewrite <- Hu].
  destruct (U x) eqn:EU; rewrite Hu; cbn [negb]; [| done]. rewrite <- HU in EU. pose proof (used_bounds _ _ _ _ OK EU).
  destruct (region_at lo rs x Ht ltac:(lia)) as (a & n & u & b & -> & Hin). rewrite (decreasing_at rm lo _ a n u b x OK eq_refl Hin) in El.
  injection El as <- <-. cbn [r_is_used] in Hu. subst u. cbn [r_length].
  destruct (dealloc_used rm lo a n b x OK Hin) as (rm' & rs' & Ed & OK' & HU'). rewrite Ed. cbn [mbind option_bind]. exists rm'. split_and!; [done | |].
  - exact (dealloc_max _ _ _ (Region n true) _ Ed).
  - exists rs'. split; [done|]. intros y. by rewrite HU', HU.
Qed.

Lemma create_ok min max : 0 <= min -> max < 2 ^ 64 - 1 -> (if min =? 0 then 1 else min) < max ->
  exists rm, resource_manager_create min max = Some rm /\ r_max rm = max /\ holds rm (if min =? 0 then 1 else min) (fun _ => false).
Proof.
  intros H0 Hm Hlt. unfold resource_manager_create. set (lo := if min =? 0 then 1 else min) in *.
  assert (0 < lo) by (unfold lo; destruct (Z.eqb_spec min 0); lia).
  destruct (Z.leb_spec max lo); [lia|]. eexists. split; [done|]. split; [done|]. exists [(max - lo + 1, false)]. split.
  - constructor; cbn [r_max r_tree total by_turns]; [| lia | lia | lia]. rewrite u64_id by lia.
    apply map_eq. intros q. rewrite tree_cons, tree_nil. destruct (Z.eqb_spec q lo) as [-> | Hq].
    + by rewrite lookup_singleton_eq.
    + by rewrite lookup_singleton_ne by done.
  - intros x. used_cases; done.
Qed.

(** ** The contract: a set of numbers in use *)

Inductive request := Alloc | Dealloc (x : Z) | Is_used (x : Z).

Definition serve (rm : resource_manager_t) (r : request) : option (resource_manager_t * Z) :=
  match r with
  | Alloc => resource_alloc rm
  | Dealloc x => '(rm, ok) ← resource_dealloc rm x; Some (rm, Z.b2z ok)
  | Is_used x => Some (rm, Z.b2z (resource_is_used rm x))
  end.

Fixpoint serve_all (rm : resource_manager_t) (rs : list request) : option (resource_manager_t * list Z) :=
  match rs with
  | [] => Some (rm, [])
  | r :: rs =>
    '(rm, out) ← serve rm r;
    '(rm, outs) ← serve_all rm rs;
    Some (rm, out :: outs)
  end.

(** The least number that is not in use is handed out, and 0 when all are; a
    number that is not in use is not freed. *)
Inductive promised (lo max : Z) (used : gset Z) : request -> gset Z -> Z -> Prop :=
  | promised_alloc out : lo <= out <= max -> out ∉ used -> (forall x, lo <= x < out -> x ∈ used) ->
      promised lo max used Alloc ({[out]} ∪ used) out
  | promised_full : (forall x, lo <= x <= max -> x ∈ used) -> promised lo max used Alloc used 0
  | promised_dealloc x : promised lo max used (Dealloc x) (used ∖ {[x]}) (Z.b2z (bool_decide (x ∈ used)))
  | promised_is_used x : promised lo max used (Is_used x) used (Z.b2z (bool_decide (x ∈ used))).

Inductive promised_all (lo max : Z) : gset Z -> list request -> list Z -> Prop :=
  | promised_nil used : promised_all lo max used [] []
  | promised_cons used r used' out rs outs : promised lo max used r used' out -> promised_all lo max used' rs outs ->
      promised_all lo max used (r :: rs) (out :: outs).

(** The requests a caller may make: numbers are unsigned, and questions are
    about numbers up to the end of the range. *)
Definition request_ok (max : Z) (r : request) : Prop :=
  match r with Alloc => True | Dealloc x => 0 <= x | Is_used x => x <= max end.

Definition holds_set (rm : resource_manager_t) (lo : Z) (used : gset Z) : Prop := holds rm lo (fun x => bool_decide (x ∈ used)).

Lemma holds_ext rm lo U V : (forall x, U x = V x) -> holds rm lo U -> holds rm lo V.
Proof. intros E (rs & OK & H). exists rs. split; [done|]. intros x. by rewrite H, E. Qed.

Lemma serve_ok rm lo used r : holds_set rm lo used -> request_ok (r_max rm) r ->
  exists rm' out used', serve rm r = Some (rm', out) /\ r_max rm' = r_max rm /\ holds_set rm' lo used' /\ promised lo (r_max rm) used r used' out.
Proof.
  intros HH Hr. destruct r as [| x | x]; cbn [serve].
  - destruct (resource_alloc_ok _ _ _ HH) as (rm' & out & E & [(-> & -> & Hf) | (Ho & Hn & Hl & Hm & HH')]).
    + exists rm, 0, used. split_and!; [done | done | done |]. constructor. intros x Hx. apply (bool_decide_eq_true_1 _), Hf, Hx.
    + exists rm', out, ({[out]} ∪ used). split_and!; [done | done | |].
      * eapply holds_ext; [| exact HH']. intros x. cbn. destruct (Z.eqb_spec x out) as [-> | Hx]; cbn; [symmetry; apply bool_decide_eq_true_2; set_solver|].
        apply bool_decide_ext. set_solver.
      * constructor; [done | by apply (bool_decide_eq_false_1 _) |]. intros x Hx. by apply (bool_decide_eq_true_1 _), Hl.
  - pose proof (resource_dealloc_ok _ _ _ x HH Hr) as Hd. cbn in Hd. case_bool_decide as Hx.
    + destruct Hd as (rm' & -> & Hm & HH'). cbn [mbind option_bind Z.b2z]. eexists rm', _, (used ∖ {[x]}). split_and!; [done | done | |].
      * eapply holds_ext; [| exact HH']. intros y. cbn. destruct (Z.eqb_spec y x) as [-> | Hy]; cbn; [symmetry; apply bool_decide_eq_false_2; set_solver|].
        apply bool_decide_ext. set_solver.
      * replace 1 with (Z.b2z (bool_decide (x ∈ used))) by (by rewrite bool_decide_eq_true_2). constructor.
    + rewrite Hd. cbn [mbind option_bind Z.b2z]. eexists rm, _, (used ∖ {[x]}). split_and!; [done | done | |].
      * eapply holds_ext; [| exact HH]. intros y. cbn. apply bool_decide_ext. set_solver.
      * replace 0 with (Z.b2z (bool_decide (x ∈ used))) by (by rewrite bool_decide_eq_false_2). constructor.
  - exists rm. eexists _, used. split_and!; [done | done | done |]. rewrite (is_used_ok _ _ _ _ HH Hr). constructor.
Qed.

Lemma serve_all_ok rs : forall rm lo used, holds_set rm lo used -> Forall (request_ok (r_max rm)) rs ->
  exists rm' outs, serve_all rm rs = Some (rm', outs) /\ promised_all lo (r_max rm) used rs outs.
Proof.
  induction rs as [| r rs IH]; intros rm lo used HH HF; [exists rm, []; split; [done | constructor]|].
  apply Forall_cons_1 in HF as [Hr HF]. destruct (serve_ok _ _ _ _ HH Hr) as (rm1 & out & used1 & E & Hm & HH1 & Hp).
  rewrite <- Hm in HF. destruct (IH _ _ _ HH1 HF) as (rm2 & outs & E2 & Hp2). rewrite Hm in Hp2.
  exists rm2, (out :: outs). cbn [serve_all]. rewrite E. cbn [mbind option_bind]. rewrite E2. cbn [mbind option_bind]. split; [done|]. by econstructor.
Qed.

(** C15: a resource manager made for [min..max] answers any sequence of requests
    as a set of numbers does: an allocation returns the least number of the
    range that is not in use (0 when all are in use), a deallocation succeeds
    exactly for the numbers in use and frees that number alone, and
    [resource_is_used] tells whether a number is in use; no request reaches
    through [NULL] or inserts a key that is taken. *)
Theorem resource_refines min max rs : 0 <= min -> max < 2 ^ 64 - 1 -> (if min =? 0 then 1 else min) < max -> Forall (request_ok max) rs ->
  exists rm rm' outs, resource_manager_create min max = Some rm /\ serve_all rm rs = Some (rm', outs) /\
    promised_all (if min =? 0 then 1 else min) max ∅ rs outs.
Proof.
  intros H0 Hm Hlt HF. destruct (create_ok min max H0 Hm Hlt) as (rm & E & <- & HH).
  destruct (serve_all_ok rs rm _ ∅ (holds_ext _ _ _ _ (fun x => eq_sym (bool_decide_eq_false_2 _ (not_elem_of_empty x))) HH) HF) as (rm' & outs & E2 & Hp).
  by exists rm, rm', outs.
Qed.

Lemma resource_refines_witness : exists rm rm' outs, resource_manager_create 0 3 = Some rm /\
  serve_all rm [Alloc; Alloc; Dealloc 1; Is_used 1; Alloc; Alloc; Alloc; Dealloc 2] = Some (rm', outs) /\
  promised_all 1 3 ∅ [Alloc; Alloc; Dealloc 1; Is_used 1; Alloc; Alloc; Alloc; Dealloc 2] outs.
Proof. apply (resource_refines 0 3); [lia | lia | reflexivity |]. repeat constructor; cbn; lia. Defined.

Example resource_run :
  (rm ← resource_manager_create 0 3; '(_, outs) ← serve_all rm [Alloc; Alloc; Dealloc 1; Is_used 1; Alloc; Alloc; Alloc; Dealloc 2]; Some outs)
  = Some [1; 2; 1; 0; 1; 3; 0; 1].
Proof. vm_compute. reflexivity. Qed.

(** [resource_manager_delete] removes every region and ends. *)
Lemma delete_S fuel rm value : resource_manager_delete (S fuel) rm value =
  if value <=? r_max rm then
    '(key, region) ← lookup_increasing (r_tree rm) value;
    resource_manager_delete fuel (set_tree rm (delete key (r_tree rm))) (u64 (key + r_length region))
  else Some rm.
Proof. reflexivity. Qed.

Lemma delete_all rs : forall rm lo value, r_tree rm = tree_of lo rs -> by_turns rs -> lo + total rs = r_max rm + 1 -> 0 < value <= lo -> r_max rm < 2 ^ 64 - 1 ->
  (rs = [] -> value = lo) -> resource_manager_delete (S (length rs)) rm value = Some (set_tree rm ∅).
Proof.
  induction rs as [| [n u] rs IH]; intros rm lo value E Ht Hs Hv Hm Hnil.
  - cbn in Hs. cbn [length]. rewrite delete_S, Hnil by done. destruct (Z.leb_spec lo (r_max rm)); [lia|]. f_equal. destruct rm. cbn in *. by rewrite E.
  - pose proof (turns_pos _ Ht) as Hp. destruct Ht as (Hn & _ & Ht). pose proof (turns_pos _ Ht). cbn [total] in *.
    change (length ((n, u) :: rs)) with (S (length rs)). rewrite delete_S. destruct (Z.leb_spec value (r_max rm)); [| lia].
    assert (lookup_increasing (r_tree rm) value = Some (lo, Region n u)) as ->.
    { apply increasing_is; [rewrite E, tree_cons; by rewrite Z.eqb_refl | lia |]. intros q [r Hq] _. rewrite E, tree_cons in Hq.
      destruct (Z.eqb_spec q lo); [lia|]. apply tree_range in Hq; [lia | done]. }
    cbn [mbind option_bind r_length]. rewrite u64_id by lia. rewrite (IH _ (lo + n)); cbn [r_max r_tree set_tree]; [done | | done | lia | lia | lia | done].
    rewrite E. apply map_eq. intros q. destruct (decide (q = lo)) as [-> | Hq].
    + rewrite lookup_delete_eq. symmetry. apply eq_None_not_Some. intros [r Hr]. apply tree_range in Hr; [lia | done].
    + rewrite lookup_delete_ne by done. rewrite tree_cons. by destruct (Z.eqb_spec q lo).
Qed.

Lemma resource_manager_delete_ok rm lo U : holds rm lo U -> exists fuel, resource_manager_delete fuel rm 1 = Some (set_tree rm ∅).
Proof.
  intros (rs & [E Ht Hs Hr] & _). exists (S (length rs)). apply (delete_all rs rm lo 1); [done | done | done | lia | lia |].
  intros ->. cbn in Hs. lia.
Qed.

(** The number after [2^64-1] is 0: freeing the last number of a range that ends
    there looks for the next region from 0 on, finds the region just grown and
    removes it; the tree is empty, and the next allocation reads through [NULL]. *)
Lemma resource_top_lost :
  (rm ← resource_manager_create (2 ^ 64 - 2) (2 ^ 64 - 1);
   '(rm, _) ← serve_all rm [Alloc; Alloc; Dealloc (2 ^ 64 - 2); Dealloc (2 ^ 64 - 1)];
   Some (map_to_list (r_tree rm), serve rm Alloc)) = Some ([], None).
Proof. vm_compute. reflexivity. Qed.

(** Past the end of the range the last region answers. *)
Lemma resource_is_used_past_end :
  (rm ← resource_manager_create 1 2; '(_, outs) ← serve_all rm [Alloc; Alloc; Is_used 100; Dealloc 100]; Some outs) = Some [1; 2; 1; 0].
Proof. vm_compute. reflexivity. Qed.
