(* ===== verification/Event.v ===== *)
(** * Events and the threads that wait for them ([src/src/kernel/mp/event.c]).

    An event keeps its waiters in a doubly linked list of containers, modelled
    as the list itself (head first).  The threads live in a table, and the
    scheduler's queue records the order in which threads are made runnable.
    Every operation holds the event's lock, so it is one step.  The access
    check is an argument: [permitted] is the outcome of the test on the
    caller's access mask. *)
From stdpp Require Import base tactics list numbers gmap.
From Stdlib Require Import ZArith Lia.
From S2P Require Import Prelude.
#[local] Open Scope Z_scope.

Inductive thread_state :=
| THREAD_STATE_TYPE_NONE
| THREAD_STATE_TYPE_QUEUED
| THREAD_STATE_TYPE_RUNNING
| THREAD_STATE_TYPE_AWAITING_EVENT
| THREAD_STATE_TYPE_TERMINATED.

#[export] Instance thread_state_eq_dec : EqDecision thread_state.
Proof. solve_decision. Defined.

Record thread_t := mk_thread {
  state : thread_state;
  event_sequence_id : Z;
  event_wakeup_index : Z
}.

Record event_thread_container_t := mk_container {
  c_thread : Z;
  c_sequence_id : Z;
  c_index : Z
}.

Record event_t := mk_event {
  is_active : bool;
  is_deleted : bool;
  waiters : list event_thread_container_t
}.

(** The thread table (by handle) and the order in which threads were queued. *)
Record sched_t := mk_sched { threads : gmap Z thread_t; run_queue : list Z }.

Definition EVENT_DISPATCH_FLAG_DISPATCH_ALL : Z := 1.
Definition EVENT_DISPATCH_FLAG_SET_ACTIVE : Z := 2.
Definition EVENT_DISPATCH_FLAG_BYPASS_ACL : Z := 4.

Definition has_flag (flags f : Z) : bool := negb (Z.land flags f =? 0).

Definition event_create : event_t := mk_event false false [].

Definition set_thread (sc : sched_t) (h : Z) (t : thread_t) : sched_t :=
  mk_sched (<[h := t]> (threads sc)) (run_queue sc).

(** [scheduler_enqueue_thread] *)
Definition scheduler_enqueue_thread (sc : sched_t) (h : Z) : sched_t :=
  match threads sc !! h with
  | Some t =>
      if decide (state t = THREAD_STATE_TYPE_QUEUED) then sc
      else mk_sched (<[h := mk_thread THREAD_STATE_TYPE_QUEUED (event_sequence_id t) (event_wakeup_index t)]>
                       (threads sc)) (run_queue sc ++ [h])
  | None => sc
  end.

(** [true]: the event was already active; otherwise the thread was appended. *)
Definition _await_event (sc : sched_t) (h : Z) (ev : event_t) (index : Z) : event_t * bool :=
  if is_deleted ev then (ev, false)
  else if is_active ev then (ev, true)
  else match threads sc !! h with
       | Some t => (mk_event (is_active ev) (is_deleted ev)
                      (waiters ev ++ [mk_container h (event_sequence_id t) index]), false)
       | None => (ev, false)
       end.

(** A container is live when its thread still waits in the await that made it. *)
Definition live (sc : sched_t) (c : event_thread_container_t) : bool :=
  match threads sc !! c_thread c with
  | Some t => bool_decide (state t = THREAD_STATE_TYPE_AWAITING_EVENT)
              && (event_sequence_id t =? c_sequence_id c)
  | None => false
  end.

(** The body of the dispatch loop for a live container. *)
Definition wake (sc : sched_t) (c : event_thread_container_t) : sched_t :=
  match threads sc !! c_thread c with
  | Some t =>
      scheduler_enqueue_thread
        (set_thread sc (c_thread c)
           (mk_thread THREAD_STATE_TYPE_NONE (u64 (event_sequence_id t + 1)) (c_index c)))
        (c_thread c)
  | None => sc
  end.

(** [while (event->head)] *)
Fixpoint dispatch_loop (all : bool) (sc : sched_t) (q : list event_thread_container_t) :
    sched_t * list event_thread_container_t :=
  match q with
  | [] => (sc, [])
  | c :: q =>
      if live sc c then
        let sc := wake sc c in
        if all then dispatch_loop all sc q else (sc, q)
      else dispatch_loop all sc q
  end.

Definition event_dispatch (sc : sched_t) (ev : event_t) (permitted : bool) (flags : Z) : sched_t * event_t :=
  if negb (has_flag flags EVENT_DISPATCH_FLAG_BYPASS_ACL) && negb permitted then (sc, ev)
  else if is_deleted ev then (sc, ev)
  else
    let active := has_flag flags EVENT_DISPATCH_FLAG_SET_ACTIVE || is_active ev in
    let '(sc, q) := dispatch_loop (has_flag flags EVENT_DISPATCH_FLAG_DISPATCH_ALL) sc (waiters ev) in
    (sc, mk_event active (is_deleted ev) q).

Definition event_set_active (ev : event_t) (active permitted bypass_acl : bool) : event_t :=
  if negb bypass_acl && negb permitted then ev
  else if is_deleted ev then ev
  else mk_event active (is_deleted ev) (waiters ev).

(** Waiters of a deleted event are dropped; none of them is woken. *)
Definition event_delete (ev : event_t) (permitted : bool) : event_t :=
  if negb permitted then ev
  else if is_deleted ev then ev
  else mk_event (is_active ev) true [].

(** [event_await]: the calling thread [h] waits for the events [evs] (a table
    by event id); [Some i]: the call returns [i] at once, [None]: it yields. *)
Fixpoint await_loop (sc : sched_t) (h : Z) (evs : gmap Z event_t) (ids : list Z) (i : Z) :
    gmap Z event_t * option Z :=
  match ids with
  | [] => (evs, None)
  | e :: ids =>
      match evs !! e with
      | None => await_loop sc h evs ids (i + 1)
      | Some ev =>
          let '(ev, active) := _await_event sc h ev i in
          let evs := <[e := ev]> evs in
          if active then (evs, Some i) else await_loop sc h evs ids (i + 1)
      end
  end.

Definition event_await (sc : sched_t) (h : Z) (evs : gmap Z event_t) (ids : list Z) :
    sched_t * gmap Z event_t * option Z :=
  match ids, threads sc !! h with
  | [], _ | _, None => (sc, evs, Some 0)
  | _, Some t =>
      let sc := set_thread sc h (mk_thread THREAD_STATE_TYPE_AWAITING_EVENT (event_sequence_id t) (event_wakeup_index t)) in
      match await_loop sc h evs ids 0 with
      | (evs, Some i) =>
          (set_thread sc h (mk_thread THREAD_STATE_TYPE_RUNNING (event_sequence_id t) i), evs, Some i)
      | (evs, None) => (sc, evs, None)
      end
  end.

(** ** What a dispatch does *)

(** The threads that a pass over the queue wakes, with the index each reports. *)
Fixpoint woken (sc : sched_t) (seen : gset Z) (q : list event_thread_container_t) : list (Z * Z) :=
  match q with
  | [] => []
  | c :: q =>
      if live sc c && negb (bool_decide (c_thread c ∈ seen))
      then (c_thread c, c_index c) :: woken sc ({[c_thread c]} ∪ seen) q
      else woken sc seen q
  end.

Definition wake_thread (t : thread_t) (i : Z) : thread_t :=
  mk_thread THREAD_STATE_TYPE_QUEUED (u64 (event_sequence_id t + 1)) i.

Lemma wake_threads sc c : live sc c = true ->
  exists t, threads sc !! c_thread c = Some t
    /\ threads (wake sc c) = <[c_thread c := wake_thread t (c_index c)]> (threads sc)
    /\ run_queue (wake sc c) = run_queue sc ++ [c_thread c].
Proof.
  unfold live, wake. destruct (threads sc !! c_thread c) as [t|] eqn:E0; [| done]. intros _.
  exists t. split; [done|]. unfold scheduler_enqueue_thread, set_thread. simpl. rewrite lookup_insert_eq. simpl.
  by rewrite insert_insert_eq.
Qed.

Lemma live_wake sc c c' : live sc c = true ->
  live (wake sc c) c' = live sc c' && negb (bool_decide (c_thread c' = c_thread c)).
Proof.
  intros H. destruct (wake_threads _ _ H) as (t & Ht & Hth & _). unfold live. rewrite Hth.
  destruct (decide (c_thread c' = c_thread c)) as [-> | Hne].
  - rewrite lookup_insert_eq. simpl. rewrite bool_decide_true by done. by rewrite andb_false_r.
  - rewrite lookup_insert_ne by done. rewrite bool_decide_false by done. by rewrite andb_true_r.
Qed.

(** Threads already woken are the ones a later container finds not waiting. *)
Lemma woken_wake sc c q : live sc c = true -> forall seen,
  woken (wake sc c) seen q = woken sc ({[c_thread c]} ∪ seen) q.
Proof.
  intros H. induction q as [| c' q IH]; intros seen; simpl; [done|]. rewrite live_wake by done.
  destruct (decide (c_thread c' = c_thread c)) as [Hc | Hne].
  - rewrite Hc, (bool_decide_true (c_thread c = c_thread c)), andb_false_r by done. simpl.
    rewrite (bool_decide_true (c_thread c ∈ _)), andb_false_r by set_solver. apply IH.
  - rewrite (bool_decide_false (c_thread c' = _)), andb_true_r by done.
    rewrite (bool_decide_ext (c_thread c' ∈ {[c_thread c]} ∪ seen) (c_thread c' ∈ seen)) by set_solver.
    destruct (live sc c' && _); [| apply IH]. rewrite IH. do 2 f_equal. set_solver.
Qed.

Lemma woken_fresh sc q : forall seen x i, (x, i) ∈ woken sc seen q ->
  ~ (x ∈ seen) /\ exists c, c ∈ q /\ live sc c = true /\ c_thread c = x /\ c_index c = i.
Proof.
  induction q as [| c q IH]; intros seen x i; simpl; [set_solver|].
  destruct (live sc c && negb (bool_decide (c_thread c ∈ seen))) eqn:Hc; intros Hin.
  - apply andb_true_iff in Hc as [Hl Hs]. apply negb_true_iff, bool_decide_eq_false in Hs.
    apply elem_of_cons in Hin as [[= -> ->] | Hin].
    + split; [done|]. exists c. set_solver.
    + destruct (IH _ _ _ Hin) as (Hx & c' & ? & ? & ? & ?). split; [set_solver|]. exists c'. set_solver.
  - destruct (IH _ _ _ Hin) as (Hx & c' & ? & ? & ? & ?). split; [done|]. exists c'. set_solver.
Qed.

Lemma woken_NoDup sc q : forall seen, NoDup (woken sc seen q).*1.
Proof.
  induction q as [| c q IH]; intros seen; simpl; [constructor|].
  destruct (live sc c && _); [| done]. rewrite fmap_cons. constructor; [| done]. simpl.
  intros Hin. apply list_elem_of_fmap in Hin as ([x i] & Hx & Hin). apply woken_fresh in Hin as [Hin _].
  simpl in Hx. set_solver.
Qed.

Lemma woken_complete sc q : forall seen c, c ∈ q -> live sc c = true -> c_thread c ∉ seen ->
  c_thread c ∈ (woken sc seen q).*1.
Proof.
  induction q as [| c' q IH]; intros seen c Hin Hl Hs; simpl; [set_solver|].
  apply elem_of_cons in Hin as [-> | Hin].
  - rewrite Hl, bool_decide_false by done. simpl. set_solver.
  - destruct (live sc c' && _); [| by apply IH]. rewrite fmap_cons. simpl.
    destruct (decide (c_thread c = c_thread c')) as [-> | Hne]; [set_solver|].
    apply elem_of_cons. right. apply IH; [done | done | set_solver].
Qed.

Lemma dispatch_all_ok q : forall sc,
  let ws := woken sc ∅ q in
  (dispatch_loop true sc q).2 = []
  /\ run_queue (dispatch_loop true sc q).1 = run_queue sc ++ ws.*1
  /\ (forall x, threads (dispatch_loop true sc q).1 !! x =
       match (list_to_map ws : gmap Z Z) !! x, threads sc !! x with
       | Some i, Some t => Some (wake_thread t i)
       | _, o => o
       end).
Proof.
  induction q as [| c q IH]; intros sc; simpl.
  { rewrite app_nil_r. split_and!; done. }
  destruct (live sc c) eqn:Hl; [| apply IH].
  destruct (IH (wake sc c)) as (H1 & H2 & H3). destruct (wake_threads _ _ Hl) as (t & Ht & Hth & Hrq).
  rewrite woken_wake in H2, H3 by done. simpl. rewrite bool_decide_false by set_solver. simpl.
  split; [done|]. split.
  - rewrite H2, Hrq, <- app_assoc. done.
  - intros x. rewrite H3, Hth. destruct (decide (x = c_thread c)) as [-> | Hne].
    + rewrite !lookup_insert_eq, Ht.
      assert ((list_to_map (woken sc ({[c_thread c]} ∪ ∅) q) : gmap Z Z) !! c_thread c = None) as ->; [| done].
      apply not_elem_of_list_to_map. intros Hin. apply list_elem_of_fmap in Hin as ([y i] & Hy & Hin).
      apply woken_fresh in Hin as [Hin _]. simpl in Hy. set_solver.
    + by rewrite !lookup_insert_ne by done.
Qed.

Lemma dispatch_one_ok q : forall sc,
  match list_find (fun c => live sc c = true) q with
  | None => dispatch_loop false sc q = (sc, [])
  | Some (i, c) => dispatch_loop false sc q = (wake sc c, drop (S i) q)
  end.
Proof.
  induction q as [| c q IH]; intros sc; simpl; [done|]. destruct (decide (live sc c = true)) as [Hl | Hl].
  - rewrite Hl. done.
  - apply not_true_is_false in Hl. rewrite Hl. specialize (IH sc).
    destruct (list_find _ q) as [[i c']|]; simpl; done.
Qed.

(** ** Registration *)

Lemma await_event_inactive sc h t ev i :
  threads sc !! h = Some t -> (_await_event sc h ev i).2 = false -> is_deleted ev = false ->
  (_await_event sc h ev i).1 = mk_event false false (waiters ev ++ [mk_container h (event_sequence_id t) i]).
Proof. unfold _await_event. intros -> . destruct ev as [[] [] q]; simpl; done. Qed.

Lemma await_event_waiters sc h ev i :
  is_deleted (_await_event sc h ev i).1 = is_deleted ev
  /\ waiters ev `prefix_of` waiters (_await_event sc h ev i).1.
Proof.
  unfold _await_event. destruct (is_deleted ev) eqn:E1; [done|]. destruct (is_active ev); [done|].
  destruct (threads sc !! h); [| done]. simpl. split; [done | by apply prefix_app_r].
Qed.

(** Containers are only added while the loop runs. *)
Lemma await_loop_mono sc h ids : forall evs i evs' r e ev,
  await_loop sc h evs ids i = (evs', r) -> evs !! e = Some ev ->
  exists ev', evs' !! e = Some ev' /\ is_deleted ev' = is_deleted ev /\ waiters ev `prefix_of` waiters ev'.
Proof.
  induction ids as [| e0 ids IH]; intros evs i evs' r e ev; simpl.
  { intros [= <- <-] He. eauto. }
  destruct (evs !! e0) as [ev0|] eqn:E0; [| apply IH].
  destruct (await_event_waiters sc h ev0 i) as [Hd Hw].
  destruct (_await_event sc h ev0 i) as [ev1 act] eqn:E1. simpl in *.
  assert (Hstep : forall ev, evs !! e = Some ev -> exists ev', <[e0 := ev1]> evs !! e = Some ev'
     /\ is_deleted ev' = is_deleted ev /\ waiters ev `prefix_of` waiters ev').
  { intros ev2 He. destruct (decide (e = e0)) as [-> | Hne].
    - rewrite lookup_insert_eq. exists ev1. by simplify_eq.
    - rewrite lookup_insert_ne by done. eauto. }
  destruct act.
  - intros [= <- <-] He. eauto.
  - intros Hl He. destruct (Hstep _ He) as (ev2 & He2 & Hd2 & Hw2).
    destruct (IH _ _ _ _ _ _ Hl He2) as (ev3 & He3 & Hd3 & Hw3).
    exists ev3. split_and!; [done | congruence | by etrans].
Qed.

Lemma await_loop_registers sc h t ids : forall evs i evs' j e ev,
  threads sc !! h = Some t -> await_loop sc h evs ids i = (evs', None) ->
  ids !! j = Some e -> evs !! e = Some ev -> is_deleted ev = false ->
  exists ev', evs' !! e = Some ev'
    /\ mk_container h (event_sequence_id t) (i + Z.of_nat j) ∈ waiters ev'.
Proof.
  induction ids as [| e0 ids IH]; intros evs i evs' j e ev Ht; simpl; [done|]. intros Hl Hj He Hd.
  destruct j as [| j]; simpl in Hj.
  - injection Hj as ->. rewrite He in Hl.
    destruct (_await_event sc h ev i) as [ev1 act] eqn:E1. destruct act; [done|].
    pose proof (await_event_inactive _ _ _ ev i Ht) as H1. rewrite E1 in H1. simpl in H1.
    specialize (H1 eq_refl Hd).
    destruct (await_loop_mono _ _ _ _ _ _ _ e ev1 Hl) as (ev' & He' & _ & Hw); [apply lookup_insert_eq|].
    exists ev'. split; [done|]. eapply elem_of_prefix; [| exact Hw]. rewrite H1. simpl.
    rewrite Z.add_0_r. set_solver.
  - replace (i + Z.of_nat (S j)) with ((i + 1) + Z.of_nat j) by lia.
    destruct (evs !! e0) as [ev0|] eqn:E0; [| by eapply IH].
    destruct (await_event_waiters sc h ev0 i) as [Hd0 _].
    destruct (_await_event sc h ev0 i) as [ev1 act] eqn:E1. destruct act; [done|]. simpl in Hd0.
    destruct (decide (e = e0)) as [-> | Hne].
    + eapply IH; [done | exact Hl | done | apply lookup_insert_eq | congruence].
    + eapply IH; [done | exact Hl | done | by rewrite lookup_insert_ne | done].
Qed.

(** ** The properties of events *)

(** A thread that goes to sleep in [event_await] is registered, with the
    index of the event in its list, on every event it waits for that is not
    deleted, and each such registration is live: a dispatch of that event can
    wake the thread. *)
Theorem event_await_registers (sc : sched_t) (h : Z) (evs : gmap Z event_t) (ids : list Z)
    (sc' : sched_t) (evs' : gmap Z event_t) (j : nat) (e : Z) (ev : event_t) :
  event_await sc h evs ids = (sc', evs', None) ->
  ids !! j = Some e -> evs !! e = Some ev -> is_deleted ev = false ->
  exists ev' c, evs' !! e = Some ev' /\ c ∈ waiters ev' /\ live sc' c = true
    /\ c_thread c = h /\ c_index c = Z.of_nat j.
Proof.
  unfold event_await. intros Ha Hj He Hd. destruct ids as [| e0 ids]; [done|].
  destruct (threads sc !! h) as [t|] eqn:Ht; [| done].
  set (sc1 := set_thread sc h _) in Ha.
  assert (Hsc1 : threads sc1 !! h = Some (mk_thread THREAD_STATE_TYPE_AWAITING_EVENT (event_sequence_id t) (event_wakeup_index t)))
    by apply lookup_insert_eq. clearbody sc1.
  destruct (await_loop sc1 h evs (e0 :: ids) 0) as [evs1 r] eqn:El. destruct r; [done|]. injection Ha as <- <-.
  destruct (await_loop_registers _ _ _ _ _ _ _ _ _ _ Hsc1 El Hj He Hd) as (ev' & He' & Hin).
  exists ev', (mk_container h (event_sequence_id t) (Z.of_nat j)). split_and!; try done.
  unfold live. simpl. rewrite Hsc1. simpl. by rewrite Z.eqb_refl.
Qed.

Definition demo_sched : sched_t := mk_sched {[ 7 := mk_thread THREAD_STATE_TYPE_RUNNING 3 0 ]} [].
Definition demo_events : gmap Z event_t :=
  list_to_map [(100, event_create); (101, event_create); (102, mk_event true false [])].

Lemma event_await_registers_witness :
  exists ev' c, (event_await demo_sched 7 demo_events [100; 101]).1.2 !! 101 = Some ev' /\ c ∈ waiters ev'
    /\ live (event_await demo_sched 7 demo_events [100; 101]).1.1 c = true /\ c_thread c = 7 /\ c_index c = 1.
Proof.
  apply (event_await_registers demo_sched 7 demo_events [100; 101] _ _ 1 101 event_create);
    vm_compute; reflexivity.
Defined.

(** C38: Dispatching an event to all its waiters empties its queue, makes every
    thread that still waits runnable exactly once with the index of its first
    live registration, and leaves every other thread alone; stale registrations
    have no effect. *)
Theorem event_dispatch_wakes_all (sc : sched_t) (ev : event_t) (permitted : bool) (flags : Z) :
  is_deleted ev = false ->
  has_flag flags EVENT_DISPATCH_FLAG_DISPATCH_ALL = true ->
  has_flag flags EVENT_DISPATCH_FLAG_BYPASS_ACL || permitted = true ->
  let '(sc', ev') := event_dispatch sc ev permitted flags in
  let ws := woken sc ∅ (waiters ev) in
  waiters ev' = [] /\ NoDup ws.*1 /\ run_queue sc' = run_queue sc ++ ws.*1
  /\ (forall x, x ∈ ws.*1 <-> exists c, c ∈ waiters ev /\ live sc c = true /\ c_thread c = x)
  /\ (forall x, threads sc' !! x =
       match (list_to_map ws : gmap Z Z) !! x, threads sc !! x with
       | Some i, Some t => Some (wake_thread t i)
       | _, o => o
       end).
Proof.
  intros Hd Ha Hp. unfold event_dispatch. rewrite Hd, Ha.
  assert (negb (has_flag flags EVENT_DISPATCH_FLAG_BYPASS_ACL) && negb permitted = false) as ->.
  { rewrite <- negb_orb, Hp. done. }
  destruct (dispatch_all_ok (waiters ev) sc) as (H1 & H2 & H3).
  destruct (dispatch_loop true sc (waiters ev)) as [sc' q]. simpl in *. split_and!; try done.
  - apply woken_NoDup.
  - intros x. split.
    + intros Hin. apply list_elem_of_fmap in Hin as ([y i] & -> & Hin).
      apply woken_fresh in Hin as (_ & c & ? & ? & ? & _). eauto.
    + intros (c & Hc & Hl & <-). apply woken_complete; [done | done | set_solver].
Qed.

Definition demo_waiting : sched_t := mk_sched {[ 7 := mk_thread THREAD_STATE_TYPE_AWAITING_EVENT 3 0 ]} [].
Definition demo_event : event_t := mk_event false false [mk_container 7 2 5; mk_container 7 3 1; mk_container 7 3 2].

Lemma event_dispatch_wakes_all_witness :
  let '(sc', ev') := event_dispatch demo_waiting demo_event false 7 in
  run_queue sc' = [7] /\ waiters ev' = [].
Proof.
  pose proof (event_dispatch_wakes_all demo_waiting demo_event false 7 eq_refl eq_refl eq_refl) as H.
  destruct (event_dispatch demo_waiting demo_event false 7) as [sc' ev'].
  destruct H as (H1 & _ & H2 & _). split; [rewrite H2; vm_compute; reflexivity | exact H1].
Defined.

(** A call of [event_await] that returns at once because its second event is
    active leaves its registration on the first event in place under the
    thread's unchanged sequence number, so that a dispatch of the first event
    during the thread's next wait, for an unrelated third event, wakes the
    thread with the index of the abandoned registration. *)
Theorem event_await_stale_wakeup (sc : sched_t) (h : Z) (t : thread_t) (evs : gmap Z event_t) (e0 e1 e2 : Z) :
  threads sc !! h = Some t -> e0 <> e1 -> e0 <> e2 -> e1 <> e2 ->
  evs !! e0 = Some event_create -> evs !! e1 = Some (mk_event true false []) -> evs !! e2 = Some event_create ->
  exists sc1 evs1 sc2 evs2 ev0 sc3 ev0',
    event_await sc h evs [e0; e1] = (sc1, evs1, Some 1)
    /\ event_await sc1 h evs1 [e2] = (sc2, evs2, None)
    /\ evs2 !! e0 = Some ev0
    /\ event_dispatch sc2 ev0 true EVENT_DISPATCH_FLAG_DISPATCH_ALL = (sc3, ev0')
    /\ threads sc3 !! h = Some (wake_thread t 0) /\ run_queue sc3 = run_queue sc ++ [h].
Proof.
  intros Ht H01 H02 H12 E0 E1 E2. unfold event_await. rewrite Ht. simpl. rewrite E0. unfold _await_event. simpl.
  rewrite lookup_insert_eq. simpl. rewrite lookup_insert_ne, E1 by done. simpl.
  do 7 eexists. split; [reflexivity|]. simpl. rewrite lookup_insert_eq. simpl.
  rewrite !lookup_insert_ne, E2 by done. simpl. rewrite lookup_insert_eq. simpl.
  split; [reflexivity|]. split; [rewrite !lookup_insert_ne by done; apply lookup_insert_eq|].
  unfold event_dispatch. simpl. unfold live. simpl. rewrite lookup_insert_eq. simpl. rewrite Z.eqb_refl. simpl.
  unfold wake. simpl. rewrite lookup_insert_eq. unfold scheduler_enqueue_thread. simpl. rewrite lookup_insert_eq.
  split; [reflexivity|]. simpl. split; [apply lookup_insert_eq | done].
Qed.

Lemma event_await_stale_wakeup_witness :
  exists sc1 evs1 sc2 evs2 ev0 sc3 ev0',
    event_await demo_sched 7 demo_events [100; 102] = (sc1, evs1, Some 1)
    /\ event_await sc1 7 evs1 [101] = (sc2, evs2, None)
    /\ evs2 !! 100 = Some ev0
    /\ event_dispatch sc2 ev0 true EVENT_DISPATCH_FLAG_DISPATCH_ALL = (sc3, ev0')
    /\ threads sc3 !! 7 = Some (wake_thread (mk_thread THREAD_STATE_TYPE_RUNNING 3 0) 0)
    /\ run_queue sc3 = run_queue demo_sched ++ [7].
Proof.
  apply (event_await_stale_wakeup demo_sched 7 (mk_thread THREAD_STATE_TYPE_RUNNING 3 0) demo_events 100 102 101);
    (vm_compute; reflexivity) || lia.
Defined.
