(* ===== verification/Pipe.v ===== *)
(** * Pipes ([src/src/kernel/pipe/pipe.c]).

    A pipe is a circular buffer of [PIPE_BUFFER_SIZE] bytes with a read and a
    write offset; [is_full] tells a full buffer from an empty one.  [_pipe_read]
    and [_pipe_write] are modelled as one attempt under the pipe's lock: an
    attempt that would block ends in [Await], and the caller retries after its
    event was dispatched. *)
From stdpp Require Import base tactics list numbers gmap.
From Stdlib Require Import ZArith Lia.
From S2P Require Import Prelude Event.
#[local] Open Scope Z_scope.

Definition PIPE_BUFFER_SIZE : Z := 0x100000.
Definition VFS_NODE_FLAG_NONBLOCKING : Z := 128.
Definition VFS_NODE_FLAG_PIPE_PEEK : Z := 256.
Definition VFS_NODE_FLAG_CREATE : Z := 512.

Record pipe_vfs_node_t := mk_pipe {
  buffer : mem;
  write_offset : Z;
  read_offset : Z;
  is_full : bool;
  is_closed : bool;
  read_event : event_t;
  write_event : event_t
}.

(** One attempt: it returns a byte count (and the bytes read), or blocks. *)
Inductive pipe_result := Done (size : Z) (data : list Z) | Await.

Definition dispatch_active (sc : sched_t) (ev : event_t) : sched_t * event_t :=
  event_dispatch sc ev true
    (Z.lor (Z.lor EVENT_DISPATCH_FLAG_DISPATCH_ALL EVENT_DISPATCH_FLAG_SET_ACTIVE) EVENT_DISPATCH_FLAG_BYPASS_ACL).

(** [buf] is the memory that [pmm_alloc] returned. *)
Definition _pipe_create (buf : mem) (flags : Z) : option pipe_vfs_node_t :=
  if has_flag flags VFS_NODE_FLAG_CREATE then None
  else Some (mk_pipe buf 0 0 false false event_create (event_set_active event_create true true true)).

Definition clamp (size max : Z) : Z := if max <? size then max else size.

Definition _pipe_read (sc : sched_t) (p : pipe_vfs_node_t) (size flags : Z) :
    sched_t * pipe_vfs_node_t * pipe_result :=
  if negb (is_full p) && (write_offset p =? read_offset p) then
    if is_closed p then (sc, p, Done 0 [])
    else if has_flag flags VFS_NODE_FLAG_NONBLOCKING then (sc, p, Done 0 [])
    else (sc, p, Await)
  else
    let max_read_size := Z.land (u32 (write_offset p - read_offset p)) (PIPE_BUFFER_SIZE - 1) in
    let max_read_size := if max_read_size =? 0 then PIPE_BUFFER_SIZE else max_read_size in
    let size := clamp size max_read_size in
    let chunk_size := clamp (u32 (PIPE_BUFFER_SIZE - read_offset p)) size in
    let data := mem_read (buffer p) (read_offset p) chunk_size ++
                (if chunk_size <? size then mem_read (buffer p) 0 (size - chunk_size) else []) in
    if has_flag flags VFS_NODE_FLAG_PIPE_PEEK then (sc, p, Done size data)
    else
      let ro := Z.land (u64 (read_offset p + size)) (PIPE_BUFFER_SIZE - 1) in
      let rev := if write_offset p =? ro then event_set_active (read_event p) false true true
                 else read_event p in
      let '(sc, wev) := dispatch_active sc (write_event p) in
      (sc, mk_pipe (buffer p) (write_offset p) ro false (is_closed p) rev wev, Done size data).

(** [src] is the caller's buffer, of which [size] bytes are offered. *)
Definition _pipe_write (sc : sched_t) (p : pipe_vfs_node_t) (src : mem) (size flags : Z) :
    sched_t * pipe_vfs_node_t * pipe_result :=
  if is_closed p then (sc, p, Done 0 [])
  else if is_full p then
    if has_flag flags VFS_NODE_FLAG_NONBLOCKING then (sc, p, Done 0 []) else (sc, p, Await)
  else
    let max_write_size := Z.land (u32 (read_offset p - write_offset p)) (PIPE_BUFFER_SIZE - 1) in
    let max_write_size := if max_write_size =? 0 then PIPE_BUFFER_SIZE else max_write_size in
    let size := clamp size max_write_size in
    let chunk_size := clamp (u32 (PIPE_BUFFER_SIZE - write_offset p)) size in
    let buf := mem_write (buffer p) (write_offset p) (mem_read src 0 chunk_size) in
    let buf := if chunk_size <? size
               then mem_write buf 0 (mem_read src chunk_size (size - chunk_size)) else buf in
    let wo := Z.land (u64 (write_offset p + size)) (PIPE_BUFFER_SIZE - 1) in
    let full := wo =? read_offset p in
    let wev := if full then event_set_active (write_event p) false true true else write_event p in
    let '(sc, rev) := dispatch_active sc (read_event p) in
    (sc, mk_pipe buf wo (read_offset p) full (is_closed p) rev wev, Done size []).

(** [ERROR_OK] is [true], [ERROR_FAILED] (already closed) is [false]. *)
Definition pipe_close (p : pipe_vfs_node_t) : pipe_vfs_node_t * bool :=
  (mk_pipe (buffer p) (write_offset p) (read_offset p) (is_full p) true
     (event_set_active (read_event p) true true true) (event_set_active (write_event p) true true true),
   negb (is_closed p)).

Definition _pipe_event (p : pipe_vfs_node_t) (is_write : bool) : event_t :=
  if is_write then write_event p else read_event p.

(** ** The abstract pipe: a bounded queue of bytes *)

Definition count (p : pipe_vfs_node_t) : Z :=
  if is_full p then PIPE_BUFFER_SIZE else (write_offset p - read_offset p) mod PIPE_BUFFER_SIZE.

Definition contents (p : pipe_vfs_node_t) : list Z :=
  (fun i => buffer p ((read_offset p + i) mod PIPE_BUFFER_SIZE)) <$> seqZ 0 (count p).

(** The offsets stay inside the buffer, equal offsets are full or empty, and an
    event is active whenever the operation it announces would not block. *)
Record pipe_wf (p : pipe_vfs_node_t) : Prop := {
  wf_read : 0 <= read_offset p < PIPE_BUFFER_SIZE;
  wf_write : 0 <= write_offset p < PIPE_BUFFER_SIZE;
  wf_full : is_full p = true -> write_offset p = read_offset p;
  wf_events : is_deleted (read_event p) = false /\ is_deleted (write_event p) = false;
  wf_read_event : 0 < count p -> is_active (read_event p) = true;
  wf_write_event : count p < PIPE_BUFFER_SIZE -> is_active (write_event p) = true
}.

(** *** Offsets *)

Lemma mask_mod x : Z.land (u32 x) (PIPE_BUFFER_SIZE - 1) = x mod PIPE_BUFFER_SIZE.
Proof.
  change (PIPE_BUFFER_SIZE - 1) with (Z.ones 20). rewrite wrap_ones by lia.
  unfold u32. by rewrite wrap_wrap_le by lia.
Qed.

Lemma mask_mod64 x : Z.land (u64 x) (PIPE_BUFFER_SIZE - 1) = x mod PIPE_BUFFER_SIZE.
Proof.
  change (PIPE_BUFFER_SIZE - 1) with (Z.ones 20). rewrite wrap_ones by lia.
  unfold u64. by rewrite wrap_wrap_le by lia.
Qed.

#[local] Arguments PIPE_BUFFER_SIZE : simpl never.
Lemma pbs : PIPE_BUFFER_SIZE = 2 ^ 20.
Proof. done. Qed.

(** Reduce [a mod PIPE_BUFFER_SIZE] for operands that are already offsets. *)
Ltac offs := rewrite ?pbs in *; Z.div_mod_to_equations; lia.

Lemma count_range p : pipe_wf p -> 0 <= count p <= PIPE_BUFFER_SIZE.
Proof. intros H. unfold count. destruct (is_full p); [offs|]. offs. Qed.

Lemma count_empty p : pipe_wf p ->
  negb (is_full p) && (write_offset p =? read_offset p) = true <-> count p = 0.
Proof.
  intros H. destruct (wf_read _ H), (wf_write _ H). unfold count. destruct (is_full p); simpl.
  - split; [done | rewrite pbs; lia].
  - rewrite Z.eqb_eq. split; intros; offs.
Qed.

(** The number of bytes between the offsets, when the pipe is not empty. *)
Lemma available_ok p : pipe_wf p -> count p <> 0 ->
  (if Z.land (u32 (write_offset p - read_offset p)) (PIPE_BUFFER_SIZE - 1) =? 0 then PIPE_BUFFER_SIZE
   else Z.land (u32 (write_offset p - read_offset p)) (PIPE_BUFFER_SIZE - 1)) = count p.
Proof.
  intros H Hc. rewrite mask_mod. unfold count in *. destruct (is_full p) eqn:Hf.
  - rewrite (wf_full _ H Hf), Z.sub_diag. done.
  - zcase; [done | done].
Qed.

Lemma free_ok p : pipe_wf p -> is_full p = false ->
  (if Z.land (u32 (read_offset p - write_offset p)) (PIPE_BUFFER_SIZE - 1) =? 0 then PIPE_BUFFER_SIZE
   else Z.land (u32 (read_offset p - write_offset p)) (PIPE_BUFFER_SIZE - 1)) = PIPE_BUFFER_SIZE - count p.
Proof.
  intros H Hf. rewrite mask_mod. unfold count. rewrite Hf. destruct (wf_read _ H), (wf_write _ H).
  zcase; offs.
Qed.

Lemma chunk_ok o size : 0 <= o < PIPE_BUFFER_SIZE ->
  clamp (u32 (PIPE_BUFFER_SIZE - o)) size = Z.min (PIPE_BUFFER_SIZE - o) size.
Proof.
  intros H. rewrite u32_id by (rewrite pbs in *; lia). unfold clamp. zcase; lia.
Qed.

Lemma clamp_min a b : clamp a b = Z.min a b.
Proof. unfold clamp. zcase; lia. Qed.

(** A read that wraps around the end of the buffer is one circular read. *)
Definition circular_read (b : mem) (o n : Z) : list Z := 
  (fun i => b ((o + i) mod PIPE_BUFFER_SIZE)) <$> seqZ 0 n.

Lemma circular_read_as_mem b o n :
  circular_read b o n = mem_read (fun i => b (i mod PIPE_BUFFER_SIZE)) o n.
Proof. done. Qed.

Lemma circular_read_chunks b o n : 0 <= o < PIPE_BUFFER_SIZE -> 0 <= n <= PIPE_BUFFER_SIZE ->
  let chunk := Z.min (PIPE_BUFFER_SIZE - o) n in
  mem_read b o chunk ++ (if chunk <? n then mem_read b 0 (n - chunk) else []) = circular_read b o n.
Proof.
  intros Ho Hn chunk. rewrite circular_read_as_mem.
  assert (Hc : 0 <= chunk <= n) by (subst chunk; lia).
  replace n with (chunk + (n - chunk)) at 3 by lia. rewrite mem_read_add by lia. f_equal.
  - apply mem_read_ext. intros i Hi. f_equal. symmetry. apply Z.mod_small. subst chunk. lia.
  - destruct (Z.ltb_spec chunk n).
    + apply mem_read_ext. intros i Hi. f_equal. replace (o + chunk + i) with (i + 1 * PIPE_BUFFER_SIZE) by (subst chunk; lia).
      rewrite Z.mod_add by done. symmetry. apply Z.mod_small. subst chunk. lia.
    + replace (n - chunk) with 0 by lia. done.
Qed.

Definition circular_write (b src : mem) (o n : Z) : mem :=
  let chunk := Z.min (PIPE_BUFFER_SIZE - o) n in
  let b := mem_write b o (mem_read src 0 chunk) in
  if chunk <? n then mem_write b 0 (mem_read src chunk (n - chunk)) else b.

Lemma circular_write_spec b src o n k :
  0 <= o < PIPE_BUFFER_SIZE -> 0 <= n <= PIPE_BUFFER_SIZE -> 0 <= k < PIPE_BUFFER_SIZE ->
  circular_write b src o n k =
  let j := (k - o) mod PIPE_BUFFER_SIZE in if j <? n then src j else b k.
Proof.
  intros Ho Hn Hk. cbv zeta. unfold circular_write. set (chunk := Z.min (PIPE_BUFFER_SIZE - o) n).
  assert (Hj : (k - o) mod PIPE_BUFFER_SIZE = if o <=? k then k - o else k - o + PIPE_BUFFER_SIZE).
  { zcase; offs. }
  rewrite Hj. cbv zeta. destruct (Z.ltb_spec chunk n) as [Hw | Hw].
  - rewrite !mem_write_read by (subst chunk; lia).
    destruct (Z.leb_spec o k), (Z.leb_spec 0 k), (Z.ltb_spec k (0 + (n - chunk))), (Z.ltb_spec k (o + chunk));
      simpl; try (subst chunk; lia);
      zcase; try (subst chunk; lia); try done; f_equal; subst chunk; lia.
  - rewrite mem_write_read by (subst chunk; lia).
    destruct (Z.leb_spec o k), (Z.ltb_spec k (o + chunk)); simpl; zcase; try (subst chunk; lia); try done; f_equal; lia.
Qed.

Lemma contents_circular p : contents p = circular_read (buffer p) (read_offset p) (count p).
Proof. done. Qed.

Lemma circular_read_add b o n m : 0 <= n -> 0 <= m ->
  circular_read b o (n + m) = circular_read b o n ++ circular_read b (o + n) m.
Proof. intros. rewrite !circular_read_as_mem. by apply mem_read_add. Qed.

Lemma circular_read_mod b o n : circular_read b (o mod PIPE_BUFFER_SIZE) n = circular_read b o n.
Proof.
  apply list_fmap_ext. intros i x _. f_equal. apply Z.add_mod_idemp_l. done.
Qed.

Lemma circular_read_write b src o c n : 
  0 <= c -> 0 <= n -> c + n <= PIPE_BUFFER_SIZE -> 
  circular_read (circular_write b src ((o + c) mod PIPE_BUFFER_SIZE) n) o (c + n)
  = circular_read b o c ++ mem_read src 0 n.
Proof.
  intros Hc Hn Hcn. rewrite circular_read_add by lia.
  assert (Hp : PIPE_BUFFER_SIZE <> 0) by done. assert (Hpos : 0 < PIPE_BUFFER_SIZE) by done.
  assert (Hr : forall i, (((o + i) mod PIPE_BUFFER_SIZE) - (o + c) mod PIPE_BUFFER_SIZE) mod PIPE_BUFFER_SIZE
                         = (i - c) mod PIPE_BUFFER_SIZE).
  { intros i. rewrite <- Zminus_mod. f_equal. lia. }
  f_equal; rewrite !circular_read_as_mem; apply mem_read_ext; intros i Hi.
  - rewrite circular_write_spec by (apply Z.mod_pos_bound || lia; done). cbv zeta. rewrite Hr.
    replace ((i - c) mod PIPE_BUFFER_SIZE) with (i - c + PIPE_BUFFER_SIZE) by offs.
    zcase; [lia | done].
  - replace (o + c + i) with (o + (c + i)) by lia.
    rewrite circular_write_spec by (apply Z.mod_pos_bound || lia; done). cbv zeta. rewrite Hr.
    replace ((c + i - c) mod PIPE_BUFFER_SIZE) with i by offs. zcase; [f_equal; lia | lia].
Qed.

(** *** The two operations on the queue *)

Lemma dispatch_active_event sc ev : is_deleted ev = false ->
  exists sc' ev', dispatch_active sc ev = (sc', ev') /\ is_active ev' = true /\ is_deleted ev' = false.
Proof.
  intros Hd. unfold dispatch_active, event_dispatch. simpl. rewrite Hd. simpl.
  destruct (dispatch_loop _ sc (waiters ev)) as [sc' q]. eauto.
Qed.

Lemma set_active_event ev a : is_deleted ev = false ->
  is_active (event_set_active ev a true true) = a /\ is_deleted (event_set_active ev a true true) = false.
Proof. intros Hd. unfold event_set_active. simpl. by rewrite Hd. Qed.

Lemma write_ok sc p src size flags :
  pipe_wf p -> is_closed p = false -> count p < PIPE_BUFFER_SIZE -> 0 < size ->
  let n := Z.min size (PIPE_BUFFER_SIZE - count p) in
  exists sc' p', _pipe_write sc p src size flags = (sc', p', Done n []) /\ pipe_wf p'
    /\ is_closed p' = false /\ count p' = count p + n /\ contents p' = contents p ++ mem_read src 0 n.
Proof.
  intros H Hcl Hc Hs n. pose proof (count_range _ H) as Hcr. assert (Hn : 0 < n <= PIPE_BUFFER_SIZE - count p) by lia.
  assert (Hf : is_full p = false).
  { destruct (is_full p) eqn:E0; [| done]. unfold count in Hc. rewrite E0 in Hc. lia. }
  destruct (wf_read _ H), (wf_write _ H), (wf_events _ H) as [Hd1 Hd2].
  unfold _pipe_write. rewrite Hcl, Hf. cbv zeta. rewrite (free_ok _ H Hf), (clamp_min size). fold n. clearbody n.
  rewrite chunk_ok by done. fold (circular_write (buffer p) src (write_offset p) n). rewrite mask_mod64.
  destruct (dispatch_active_event sc _ Hd1) as (sc' & rev & -> & Ha & Hd).
  set (p' := mk_pipe _ _ _ _ _ _ _). exists sc', p'.
  assert (Hwo : write_offset p = (read_offset p + count p) mod PIPE_BUFFER_SIZE).
  { unfold count. rewrite Hf. offs. }
  assert (Hcnt : count p' = count p + n).
  { subst p'. unfold count at 1. simpl. rewrite Hwo, Z.add_mod_idemp_l by done.
    destruct (Z.eqb_spec ((read_offset p + count p + n) mod PIPE_BUFFER_SIZE) (read_offset p)); offs. }
  split; [done|]. split; [| split; [done|]; split; [done|]].
  - split; simpl; try done.
    + apply Z.mod_pos_bound. done.
    + intros E0. by apply Z.eqb_eq in E0.
    + split; [done|]. case_match; [by apply set_active_event | done].
    + rewrite Hcnt. intros Hlt. case_match eqn:E0; [| by apply (wf_write_event _ H)].
      exfalso. change (PIPE_BUFFER_SIZE = count p + n) in Hcnt. lia.
  - rewrite !contents_circular, Hcnt. subst p'. simpl. rewrite Hwo.
    apply circular_read_write; lia.
Qed.

Lemma read_ok sc p size flags :
  pipe_wf p -> 0 < count p -> 0 < size ->
  let n := Z.min size (count p) in
  exists sc' p', _pipe_read sc p size flags = (sc', p', Done n (take (Z.to_nat n) (contents p)))
    /\ pipe_wf p' /\ is_closed p' = is_closed p
    /\ contents p' = (if has_flag flags VFS_NODE_FLAG_PIPE_PEEK then contents p
                      else drop (Z.to_nat n) (contents p)).
Proof.
  intros H Hc Hs n. pose proof (count_range _ H) as Hcr. assert (Hn : 0 < n <= count p) by lia.
  destruct (wf_read _ H), (wf_write _ H), (wf_events _ H) as [Hd1 Hd2].
  unfold _pipe_read. destruct (negb (is_full p) && _) eqn:He; [apply count_empty in He; [lia | done]|].
  cbv zeta. rewrite (available_ok _ H), (clamp_min size) by lia. fold n. clearbody n. rewrite chunk_ok by done.
  rewrite circular_read_chunks by lia.
  assert (Hsplit : contents p = circular_read (buffer p) (read_offset p) n
                    ++ circular_read (buffer p) (read_offset p + n) (count p - n)).
  { rewrite contents_circular, <- circular_read_add by lia. f_equal. lia. }
  assert (Hlen : length (circular_read (buffer p) (read_offset p) n) = Z.to_nat n).
  { rewrite circular_read_as_mem. apply length_mem_read. }
  rewrite Hsplit, take_app_length' by done. rewrite drop_app_length' by done.
  destruct (has_flag flags VFS_NODE_FLAG_PIPE_PEEK).
  { exists sc, p. rewrite <- Hsplit. by split_and!. }
  rewrite mask_mod64. destruct (dispatch_active_event sc _ Hd2) as (sc' & wev & -> & Ha & Hd).
  set (p' := mk_pipe _ _ _ _ _ _ _). exists sc', p'.
  assert (Hcnt : count p' = count p - n).
  { subst p'. unfold count. simpl. destruct (is_full p) eqn:Hf; unfold count in *; rewrite Hf in *;
      [rewrite (wf_full _ H Hf) in *|]; offs. }
  split; [done|]. split; [| split; [done|]].
  - split; simpl; try done.
    + apply Z.mod_pos_bound. done.
    + split; [| done]. case_match; [by apply set_active_event | done].
    + rewrite Hcnt. intros Hlt. destruct (Z.eqb_spec (write_offset p) ((read_offset p + n) mod PIPE_BUFFER_SIZE));
        [| by apply (wf_read_event _ H); lia].
      exfalso. unfold count in Hcnt at 1. simpl in Hcnt. rewrite <- e, Z.sub_diag in Hcnt. simpl in Hcnt. 
      rewrite Z.mod_0_l in Hcnt by done. lia.
  - rewrite contents_circular, Hcnt. subst p'. simpl. apply circular_read_mod.
Qed.

(** ** Sequences of operations *)

Inductive pipe_op :=
| OpWrite (src : mem) (size flags : Z)
| OpRead (size flags : Z)
| OpClose.

Record pipe_run := mk_run { r_sched : sched_t; r_pipe : pipe_vfs_node_t; written : list Z; consumed : list Z }.

(** One operation by any thread, recording the bytes that went in and out. *)
Definition pipe_step (r : pipe_run) (o : pipe_op) : pipe_run :=
  match o with
  | OpWrite src size flags =>
      match _pipe_write (r_sched r) (r_pipe r) src size flags with
      | (sc, p, Done n _) => mk_run sc p (written r ++ mem_read src 0 n) (consumed r)
      | (sc, p, Await) => mk_run sc p (written r) (consumed r)
      end
  | OpRead size flags =>
      match _pipe_read (r_sched r) (r_pipe r) size flags with
      | (sc, p, Done _ data) =>
          mk_run sc p (written r)
            (if has_flag flags VFS_NODE_FLAG_PIPE_PEEK then consumed r else consumed r ++ data)
      | (sc, p, Await) => mk_run sc p (written r) (consumed r)
      end
  | OpClose => mk_run (r_sched r) (pipe_close (r_pipe r)).1 (written r) (consumed r)
  end.

Definition positive_size (o : pipe_op) : Prop :=
  match o with OpWrite _ size _ | OpRead size _ => 0 < size | OpClose => True end.

Definition run_inv (r : pipe_run) : Prop :=
  pipe_wf (r_pipe r) /\ written r = consumed r ++ contents (r_pipe r).

Lemma close_wf p : pipe_wf p -> pipe_wf (pipe_close p).1 /\ contents (pipe_close p).1 = contents p.
Proof.
  intros H. destruct (wf_events _ H) as [H1 H2]. split; [| done].
  split; simpl; try apply H; try (split; by apply set_active_event);
    intros _; by apply set_active_event.
Qed.

Lemma write_blocked sc p src size flags :
  pipe_wf p -> is_closed p = true \/ count p = PIPE_BUFFER_SIZE ->
  exists r, _pipe_write sc p src size flags = (sc, p, r) /\ (r = Done 0 [] \/ r = Await).
Proof.
  intros H Hc. unfold _pipe_write. destruct (is_closed p); [eauto|]. destruct Hc as [|Hc]; [done|].
  destruct (is_full p) eqn:Hf; [destruct (has_flag _ _); eauto|].
  exfalso. unfold count in Hc. rewrite Hf in Hc. offs.
Qed.

Lemma read_blocked sc p size flags : pipe_wf p -> count p = 0 ->
  exists r, _pipe_read sc p size flags = (sc, p, r) /\ (r = Done 0 [] \/ r = Await).
Proof.
  intros H Hc. unfold _pipe_read. apply count_empty in Hc; [| done]. rewrite Hc.
  destruct (is_closed p); [eauto|]. destruct (has_flag _ _); eauto.
Qed.

Lemma pipe_step_inv r o : run_inv r -> positive_size o -> run_inv (pipe_step r o).
Proof.
  intros [H Hw] Ho. destruct r as [sc p w c]. simpl in *. pose proof (count_range _ H) as Hcr.
  destruct o as [src size flags | size flags |]; simpl in *.
  - destruct (decide (is_closed p = true \/ count p = PIPE_BUFFER_SIZE)) as [Hb | Hb].
    + destruct (write_blocked sc p src size flags H Hb) as (r & -> & [-> | ->]); split; try done.
      simpl. change (mem_read src 0 0) with (@nil Z). by rewrite app_nil_r.
    + destruct (is_closed p) eqn:Hcl; [tauto|].
      destruct (write_ok sc p src size flags H Hcl ltac:(lia) Ho) as (sc' & p' & -> & H' & _ & _ & Hc').
      split; [done|]. simpl. rewrite Hw, Hc'. by rewrite <- app_assoc.
  - destruct (decide (count p = 0)) as [Hb | Hb].
    + destruct (read_blocked sc p size flags H Hb) as (r & -> & [-> | ->]); split; try done.
      simpl. destruct (has_flag _ _); by rewrite ?app_nil_r.
    + destruct (read_ok sc p size flags H ltac:(lia) Ho) as (sc' & p' & -> & H' & _ & Hc').
      split; [done|]. simpl. rewrite Hw, Hc'. destruct (has_flag _ _); [done|].
      by rewrite <- app_assoc, take_drop.
  - destruct (close_wf p H) as [H' Hc']. split; [done|]. change (w = c ++ contents (pipe_close p).1). by rewrite Hc'.
Qed.

Lemma pipe_create_wf buf flags p : _pipe_create buf flags = Some p -> pipe_wf p /\ contents p = [].
Proof.
  unfold _pipe_create. destruct (has_flag _ _); [done|]. intros [= <-]. split; [| done].
  split; simpl; try done.
Qed.

(** ** The properties of pipes *)

(** C35: a pipe is a first-in first-out byte queue: for every sequence of reads,
    peeks, writes and closes of positive sizes on a new pipe, whatever their
    flags, the bytes accepted by writes are exactly the bytes consumed by reads
    followed by the bytes still in the buffer, and the offsets, the full flag
    and both event states stay consistent. *)
Theorem pipe_fifo (sc : sched_t) (buf : mem) (flags : Z) (p : pipe_vfs_node_t) (ops : list pipe_op) :
  _pipe_create buf flags = Some p -> Forall positive_size ops ->
  let r := foldl pipe_step (mk_run sc p [] []) ops in
  written r = consumed r ++ contents (r_pipe r) /\ pipe_wf (r_pipe r)
  /\ count (r_pipe r) <= PIPE_BUFFER_SIZE.
Proof.
  intros Hp Hops. destruct (pipe_create_wf _ _ _ Hp) as [Hwf Hc].
  assert (Hinv : run_inv (mk_run sc p [] [])) by (split; simpl; [done | by rewrite Hc]).
  revert Hinv. generalize (mk_run sc p [] []). induction Hops as [| o ops Ho _ IH]; intros r Hr; simpl.
  - destruct Hr as [H1 H2]. split_and!; [done | done | by apply count_range].
  - apply IH, pipe_step_inv; done.
Qed.

Definition demo_ops : list pipe_op :=
  [OpWrite (fun i => 65 + i) 5 0; OpRead 2 256; OpRead 3 0; OpWrite (fun i => 97 + i) 2 128; OpClose; OpRead 9 0].

Lemma pipe_fifo_witness :
  let r := foldl pipe_step (mk_run demo_sched (mk_pipe (fun _ => 0) 0 0 false false event_create
             (event_set_active event_create true true true)) [] []) demo_ops in
  written r = [65; 66; 67; 68; 69; 97; 98] /\ written r = consumed r ++ contents (r_pipe r).
Proof.
  intros r. split; [vm_compute; reflexivity|].
  apply (pipe_fifo demo_sched (fun _ => 0) 0 _ demo_ops); [reflexivity | repeat constructor].
Defined.

(** What one write does on every branch: nothing to a closed pipe; on a
    full one it blocks, or returns 0 when non-blocking; otherwise it appends as
    many of the offered bytes as there is room for, at least one, and returns
    their number. *)
Theorem pipe_write_spec (sc : sched_t) (p : pipe_vfs_node_t) (src : mem) (size flags : Z) :
  pipe_wf p -> 0 < size ->
  if is_closed p then _pipe_write sc p src size flags = (sc, p, Done 0 [])
  else if count p =? PIPE_BUFFER_SIZE then
    _pipe_write sc p src size flags =
      (sc, p, if has_flag flags VFS_NODE_FLAG_NONBLOCKING then Done 0 [] else Await)
  else
    let n := Z.min size (PIPE_BUFFER_SIZE - count p) in
    exists sc' p', _pipe_write sc p src size flags = (sc', p', Done n []) /\ 0 < n
      /\ contents p' = contents p ++ mem_read src 0 n /\ is_active (read_event p') = true.
Proof.
  intros H Hs. pose proof (count_range _ H) as Hcr. destruct (is_closed p) eqn:Hcl.
  { unfold _pipe_write. by rewrite Hcl. }
  destruct (Z.eqb_spec (count p) PIPE_BUFFER_SIZE) as [Hf | Hf].
  - unfold _pipe_write. rewrite Hcl. destruct (is_full p) eqn:E0; [by destruct (has_flag _ _)|].
    exfalso. unfold count in Hf. rewrite E0 in Hf. offs.
  - destruct (write_ok sc p src size flags H Hcl ltac:(lia) Hs) as (sc' & p' & E1 & H' & _ & Hn & Hc').
    exists sc', p'. split_and!; [done | lia | done |]. apply (wf_read_event _ H'). lia.
Qed.

Lemma pipe_write_spec_witness :
  let p := mk_pipe (fun _ => 0) 0 0 true false (mk_event true false []) event_create in
  _pipe_write demo_sched p (fun _ => 1) 4 0 = (demo_sched, p, Await).
Proof.
  intros p. apply (pipe_write_spec demo_sched p (fun _ => 1) 4 0); [| lia].
  split; simpl; try done; lia.
Defined.

(** A transfer of zero bytes corrupts the queue at both ends: a zero-length
    read of a full pipe empties it, and a zero-length write to an empty pipe
    fills it with bytes that were never written. *)
Theorem pipe_zero_size (sc : sched_t) (p : pipe_vfs_node_t) (src : mem) :
  pipe_wf p -> is_closed p = false ->
  (count p = PIPE_BUFFER_SIZE -> count (_pipe_read sc p 0 0).1.2 = 0)
  /\ (count p = 0 -> count (_pipe_write sc p src 0 0).1.2 = PIPE_BUFFER_SIZE).
Proof.
  intros H Hcl. destruct (wf_read _ H), (wf_write _ H). split; intros Hc.
  - assert (Hf : is_full p = true).
    { unfold count in Hc. destruct (is_full p); [done|]. exfalso. offs. }
    unfold _pipe_read. rewrite Hf. cbv zeta. simpl negb. simpl andb. 
    assert (Hz : clamp 0 PIPE_BUFFER_SIZE = 0) by done.
    rewrite (wf_full _ H Hf), Z.sub_diag. simpl (if Z.land _ _ =? 0 then _ else _). rewrite Hz.
    rewrite Z.add_0_r, mask_mod64, (Z.mod_small (read_offset p)) by done.
    destruct (dispatch_active sc (write_event p)) as [sc' wev]. unfold count. simpl.
    by rewrite Z.sub_diag.
  - apply count_empty in Hc; [| done]. apply andb_true_iff in Hc as [Hf He].
    apply negb_true_iff in Hf. apply Z.eqb_eq in He.
    unfold _pipe_write. rewrite Hcl, Hf. cbv zeta.
    assert (Hz : clamp 0 PIPE_BUFFER_SIZE = 0) by done.
    rewrite He, Z.sub_diag. simpl (if Z.land _ _ =? 0 then _ else _). rewrite Hz.
    rewrite Z.add_0_r, mask_mod64, (Z.mod_small (read_offset p)), Z.eqb_refl by done.
    by destruct (dispatch_active sc (read_event p)) as [sc' rev].
Qed.

Lemma pipe_zero_size_witness :
  let p := mk_pipe (fun _ => 0) 0 0 true false (mk_event true false []) event_create in
  count (_pipe_read demo_sched p 0 0).1.2 = 0.
Proof.
  intros p. apply (pipe_zero_size demo_sched p (fun _ => 0)); [split; simpl; try done; lia | reflexivity | reflexivity].
Defined.

(** Closing a pipe marks its events active but wakes none of their waiters. *)
Lemma pipe_close_keeps_waiters p w :
  waiters (_pipe_event (pipe_close p).1 w) = waiters (_pipe_event p w).
Proof. destruct w; simpl; unfold event_set_active; simpl; by destruct (is_deleted _). Qed.
