(* ===== verification/Ring.v ===== *)
(** * Rings of pointers ([src/src/kernel/ring/ring.c]).

    [buffer] points to [slots] words that [pmm_alloc] returned: an access at or
    beyond [slots] is outside the allocation and yields [None]. *)
From stdpp Require Import base tactics list numbers gmap.
From Stdlib Require Import ZArith Lia.
From S2P Require Import Prelude Event.
#[local] Open Scope Z_scope.

Definition PAGE_SIZE : Z := 4096.

(** [pmm_align_up_address] *)
Definition pmm_align_up_address (a : Z) : Z := Z.land (u64 (a + (PAGE_SIZE - 1))) (lnot_w 64 (PAGE_SIZE - 1)).

Record ring_t := mk_ring {
  buffer : mem;
  slots : Z;
  capacity : Z;
  read_index : Z;
  read_count : Z;
  write_index : Z;
  write_count : Z;
  read_event : event_t;
  write_event : event_t
}.

Inductive ring_result := Returned (v : Z) | Await.

(** The number of words that fit in the pages allocated for [c] pointers. *)
Definition ring_slots (c : Z) : Z := pmm_align_up_address (u64 (c * 8)) / 8.

Definition ring_init (buf : mem) (c : Z) : option ring_t :=
  if c =? 0 then None
  else if negb (Z.land c (u32 (c - 1)) =? 0) then None
  else Some (mk_ring buf (ring_slots c) c 0 0 0 c event_create (event_set_active event_create true true true)).

Definition dispatch_one (sc : sched_t) (ev : event_t) : sched_t * event_t :=
  event_dispatch sc ev true (Z.lor EVENT_DISPATCH_FLAG_SET_ACTIVE EVENT_DISPATCH_FLAG_BYPASS_ACL).

Definition _get_item (sc : sched_t) (r : ring_t) (wait pop : bool) : option (sched_t * ring_t * ring_result) :=
  if read_count r =? 0 then Some (sc, r, if wait then Await else Returned 0)
  else if slots r <=? read_index r then None
  else
    let out := buffer r (read_index r) in
    if pop then
      let rc := u32 (read_count r - 1) in
      let rev := if rc =? 0 then event_set_active (read_event r) false true true else read_event r in
      let '(sc, wev) := dispatch_one sc (write_event r) in
      Some (sc, mk_ring (buffer r) (slots r) (capacity r) (u32 (read_index r + 1)) rc (write_index r)
                        (u32 (write_count r + 1)) rev wev, Returned out)
    else Some (sc, r, Returned out).

Definition ring_pop (sc : sched_t) (r : ring_t) (wait : bool) := _get_item sc r wait true.
Definition ring_peek (sc : sched_t) (r : ring_t) (wait : bool) := _get_item sc r wait false.

Definition ring_push (sc : sched_t) (r : ring_t) (item : Z) (wait : bool) :
    option (sched_t * ring_t * ring_result) :=
  if write_count r =? 0 then Some (sc, r, if wait then Await else Returned 0)
  else if slots r <=? write_index r then None
  else
    let wc := u32 (write_count r - 1) in
    let wev := if wc =? 0 then event_set_active (write_event r) false true true else write_event r in
    let '(sc, rev) := dispatch_one sc (read_event r) in
    Some (sc, mk_ring (mem_write (buffer r) (write_index r) [item]) (slots r) (capacity r) (read_index r)
                      (u32 (read_count r + 1)) (u32 (write_index r + 1)) wc rev wev, Returned 1).

(** ** The queue of a ring *)

Definition items (r : ring_t) : list Z := mem_read (buffer r) (read_index r) (read_count r).

(** The counts add up to the capacity, the indices never moved back, and an
    event is active whenever the operation it announces would not block. *)
Record ring_wf (r : ring_t) : Prop := {
  wf_cap : 0 < capacity r < 2 ^ 32;
  wf_slots : slots r < 2 ^ 32;
  wf_counts : 0 <= read_count r /\ 0 <= write_count r /\ read_count r + write_count r = capacity r;
  wf_indices : 0 <= read_index r /\ write_index r = read_index r + read_count r /\ write_index r <= slots r;
  wf_revent : is_deleted (read_event r) = false /\ (0 < read_count r -> is_active (read_event r) = true);
  wf_wevent : is_deleted (write_event r) = false /\ (0 < write_count r -> is_active (write_event r) = true)
}.

Lemma dispatch_one_event sc ev : is_deleted ev = false ->
  exists sc' ev', dispatch_one sc ev = (sc', ev') /\ is_active ev' = true /\ is_deleted ev' = false.
Proof.
  intros Hd. unfold dispatch_one, event_dispatch. simpl. rewrite Hd. simpl.
  destruct (dispatch_loop _ sc (waiters ev)) as [sc' q]. eauto.
Qed.

Lemma event_cleared ev (b : bool) : is_deleted ev = false ->
  is_deleted (if b then event_set_active ev false true true else ev) = false.
Proof. intros Hd. destruct b; [| done]. unfold event_set_active. simpl. by rewrite Hd. Qed.

Lemma items_peek r : ring_wf r -> 0 < read_count r -> exists l, items r = buffer r (read_index r) :: l
  /\ l = mem_read (buffer r) (read_index r + 1) (read_count r - 1).
Proof.
  intros H Hc. eexists. split; [| reflexivity]. unfold items.
  replace (read_count r) with (1 + (read_count r - 1)) at 1 by lia.
  rewrite mem_read_add by lia. unfold mem_read at 1. simpl. by rewrite Z.add_0_r.
Qed.

Lemma pop_ok sc r wait : ring_wf r -> 0 < read_count r ->
  exists sc' r', ring_pop sc r wait = Some (sc', r', Returned (buffer r (read_index r)))
    /\ ring_wf r' /\ items r = buffer r (read_index r) :: items r'
    /\ slots r' = slots r /\ write_index r' = write_index r /\ capacity r' = capacity r.
Proof.
  intros H Hc. pose proof (wf_slots _ H). destruct (wf_cap _ H), (wf_counts _ H) as (? & ? & Hcnt).
  destruct (wf_indices _ H) as (? & Hwi & ?), (wf_revent _ H) as [Hd1 Ha1], (wf_wevent _ H) as [Hd2 Ha2].
  unfold ring_pop, _get_item. destruct (Z.eqb_spec (read_count r) 0); [lia|].
  destruct (Z.leb_spec (slots r) (read_index r)); [lia|]. cbv zeta.
  rewrite !u32_id by lia. destruct (dispatch_one_event sc _ Hd2) as (sc' & wev & -> & Ha & Hd).
  do 2 eexists. split; [reflexivity|]. split; [| split].
  - split; simpl; try lia; try done. split; [by apply event_cleared|].
    intros Hp. destruct (Z.eqb_spec (read_count r - 1) 0); [lia | by apply Ha1].
  - destruct (items_peek _ H Hc) as (l & -> & ->). done.
  - done.
Qed.

Lemma push_ok sc r item wait : ring_wf r -> 0 < write_count r -> write_index r < slots r ->
  exists sc' r', ring_push sc r item wait = Some (sc', r', Returned 1)
    /\ ring_wf r' /\ items r' = items r ++ [item]
    /\ slots r' = slots r /\ write_index r' = write_index r + 1 /\ capacity r' = capacity r.
Proof.
  intros H Hc Hs. pose proof (wf_slots _ H). destruct (wf_cap _ H), (wf_counts _ H) as (? & ? & Hcnt).
  destruct (wf_indices _ H) as (? & Hwi & ?), (wf_revent _ H) as [Hd1 Ha1], (wf_wevent _ H) as [Hd2 Ha2].
  unfold ring_push. destruct (Z.eqb_spec (write_count r) 0); [lia|].
  destruct (Z.leb_spec (slots r) (write_index r)); [lia|]. cbv zeta.
  rewrite !u32_id by lia. destruct (dispatch_one_event sc _ Hd1) as (sc' & rev & -> & Ha & Hd).
  do 2 eexists. split; [reflexivity|]. split; [| split].
  - split; simpl; try lia; try done. split; [by apply event_cleared|].
    intros Hp. destruct (Z.eqb_spec (write_count r - 1) 0); [lia | by apply Ha2].
  - unfold items. simpl. rewrite mem_read_add by lia. f_equal.
    + apply mem_read_ext. intros i Hi. apply mem_write_out. lia.
    + rewrite <- Hwi. apply mem_read_write.
  - done.
Qed.

(** ** Sequences of operations *)

Inductive ring_op := Push (item : Z) (wait : bool) | Pop (wait : bool) | Peek (wait : bool).

Record ring_run := mk_ring_run { rr_sched : sched_t; rr_ring : ring_t; pushed : list Z; popped : list Z }.

Definition ring_step (s : option ring_run) (o : ring_op) : option ring_run :=
  s ← s;
  match o with
  | Push x w =>
      q ← ring_push (rr_sched s) (rr_ring s) x w;
      let '(sc, r, res) := (q : sched_t * ring_t * ring_result) in
      Some (mk_ring_run sc r (match res with Returned 1 => pushed s ++ [x] | _ => pushed s end) (popped s))
  | Pop w =>
      q ← ring_pop (rr_sched s) (rr_ring s) w;
      let '(sc, r, res) := (q : sched_t * ring_t * ring_result) in
      Some (mk_ring_run sc r (pushed s)
              (match res with Returned v => if read_count (rr_ring s) =? 0 then popped s else popped s ++ [v]
                            | Await => popped s end))
  | Peek w =>
      q ← ring_peek (rr_sched s) (rr_ring s) w;
      let '(sc, r, res) := (q : sched_t * ring_t * ring_result) in
      Some (mk_ring_run sc r (pushed s) (popped s))
  end.

Definition ring_inv (s : ring_run) : Prop :=
  ring_wf (rr_ring s) /\ pushed s = popped s ++ items (rr_ring s)
  /\ write_index (rr_ring s) = Z.of_nat (length (pushed s)).

Definition is_push (o : ring_op) : bool := match o with Push _ _ => true | _ => false end.

Lemma ring_step_inv s o : ring_inv s ->
  (is_push o = true -> write_index (rr_ring s) < slots (rr_ring s)) ->
  exists s', ring_step (Some s) o = Some s' /\ ring_inv s' /\ slots (rr_ring s') = slots (rr_ring s)
    /\ write_index (rr_ring s') <= write_index (rr_ring s) + (if is_push o then 1 else 0).
Proof.
  intros Hinv Hlt. pose proof Hinv as (H & Hq & Hw). destruct s as [sc r pu po]. simpl in *.
  destruct (wf_counts _ H) as (? & ? & ?), (wf_cap _ H). destruct o as [x w | w | w]; simpl in *.
  - destruct (Z.eqb_spec (write_count r) 0) as [E0 | E0].
    + unfold ring_push. rewrite E0. destruct w; simpl; (eexists; split; [done|]; split; [exact Hinv|]; simpl; lia).
    + destruct (push_ok sc r x w H ltac:(lia) (Hlt eq_refl)) as (sc' & r' & -> & H' & Hi & Hs & Hwi & _).
      simpl. eexists. split; [done|]. unfold ring_inv. simpl.
      rewrite Hq, Hi, Hs, Hwi, <- app_assoc. split_and!; try done; try lia.
      rewrite Hw, Hq, !length_app. simpl. lia.
  - destruct (Z.eqb_spec (read_count r) 0) as [E0 | E0].
    + unfold ring_pop, _get_item. rewrite E0. destruct w; simpl; (eexists; split; [done|]; split; [exact Hinv|]; simpl; lia).
    + destruct (pop_ok sc r w H ltac:(lia)) as (sc' & r' & -> & H' & Hi & Hs & Hwi & _).
      simpl. eexists. split; [done|]. unfold ring_inv. simpl. rewrite Hs, Hwi.
      split_and!; try done; try lia. rewrite Hq, Hi, <- app_assoc. done.
  - unfold ring_peek, _get_item. destruct (Z.eqb_spec (read_count r) 0).
    + simpl. eexists. split; [done|]. split; [exact Hinv|]. simpl. lia.
    + destruct (wf_indices _ H) as (? & ? & ?). destruct (Z.leb_spec (slots r) (read_index r)); [lia|].
      simpl. eexists. split; [done|]. split; [exact Hinv|]. simpl. lia.
Qed.

(** As long as the ring was pushed to less often than it has slots, every
    operation succeeds. *)
Lemma ring_run_inv ops : forall s, ring_inv s ->
  write_index (rr_ring s) + Z.of_nat (length (filter (fun o => is_push o = true) ops)) <= slots (rr_ring s) ->
  exists s', foldl ring_step (Some s) ops = Some s' /\ ring_inv s' /\ slots (rr_ring s') = slots (rr_ring s).
Proof.
  induction ops as [| o ops IH]; intros s Hi Hn; cbn [foldl]; [eauto|]. rewrite filter_cons in Hn.
  destruct (ring_step_inv s o Hi) as (s' & -> & Hi' & Hs & Hw).
  { intros Hp. rewrite Hp in Hn. destruct (decide (true = true)) as [_ |]; [| done]. simpl in Hn. lia. }
  destruct (IH s' Hi') as (s'' & E1 & ? & ?).
  { rewrite Hs. destruct (is_push o); destruct (decide _); try done; simpl in Hn; lia. }
  exists s''. split_and!; [done | done | congruence].
Qed.

(** *** Capacities *)

Lemma align_up_spec a : 0 <= a < 2 ^ 36 ->
  pmm_align_up_address a = (a + 4095) / 4096 * 4096.
Proof.
  intros Ha. unfold pmm_align_up_address, PAGE_SIZE. rewrite u64_id by lia.
  change (lnot_w 64 (4096 - 1)) with (Z.shiftl (Z.ones 52) 12). change (4096 - 1) with 4095.
  set (x := a + 4095). change 4096 with (2 ^ 12). rewrite <- Z.shiftr_div_pow2, <- Z.shiftl_mul_pow2 by lia.
  apply Z.bits_inj'. intros i Hi. rewrite Z.land_spec, !Z.shiftl_spec by lia.
  destruct (Z.ltb_spec i 12).
  - rewrite !(Z.testbit_neg_r _ (i - 12)) by lia. by rewrite andb_false_r.
  - rewrite Z.shiftr_spec by lia. replace (i - 12 + 12) with i by lia.
    destruct (Z.ltb_spec i 64).
    + rewrite Z.ones_spec_low by lia. by rewrite andb_true_r.
    + rewrite Z.ones_spec_high by lia. rewrite andb_false_r. symmetry.
      apply Z.bits_above_log2; [lia|]. apply Z.log2_lt_pow2; [lia|].
      apply Z.lt_le_trans with (2 ^ 64); [lia|]. apply Z.pow_le_mono_r; lia.
Qed.

Lemma ring_slots_bounds c : 0 < c < 2 ^ 31 -> c <= ring_slots c < 2 ^ 32 /\ ring_slots c < c + 512.
Proof.
  intros Hc. unfold ring_slots. rewrite (u64_id (c * 8)), align_up_spec by lia.
  Z.div_mod_to_equations. lia.
Qed.

Lemma ring_init_inv sc buf c r : ring_init buf c = Some r -> 0 < c < 2 ^ 31 ->
  ring_inv (mk_ring_run sc r [] []) /\ slots r = ring_slots c /\ capacity r = c /\ write_index r = 0.
Proof.
  unfold ring_init. intros Hr Hc. destruct (c =? 0); [done|]. destruct (negb _); [done|]. injection Hr as <-.
  pose proof (ring_slots_bounds c Hc). split; [| done]. split; [split; simpl; try lia; try done | done].
Qed.

(** ** The properties of rings *)

(** A ring created with a power-of-two capacity [c] is a bounded first-in
    first-out queue for as long as at most as many items are pushed as its
    allocation has slots (at least [c]): every sequence of pushes, pops and
    peeks runs without an access outside the buffer, what was popped followed
    by what is queued is what was pushed, and the counters add up to [c]. *)
Theorem ring_fifo (sc : sched_t) (buf : mem) (c : Z) (r : ring_t) (ops : list ring_op) :
  ring_init buf c = Some r -> 0 < c < 2 ^ 31 ->
  Z.of_nat (length (filter (fun o => is_push o = true) ops)) <= ring_slots c ->
  c <= ring_slots c /\
  exists s', foldl ring_step (Some (mk_ring_run sc r [] [])) ops = Some s'
    /\ pushed s' = popped s' ++ items (rr_ring s')
    /\ read_count (rr_ring s') + write_count (rr_ring s') = capacity (rr_ring s').
Proof.
  intros Hr Hc Hn. split; [pose proof (ring_slots_bounds c Hc); lia|].
  destruct (ring_init_inv sc buf c r Hr Hc) as (Hi & Hs & _ & Hw).
  destruct (ring_run_inv ops _ Hi) as (s' & E1 & (H & Hq & _) & _); [simpl; rewrite Hw, Hs; lia|].
  exists s'. split_and!; [done | done | by destruct (wf_counts _ H) as (_ & _ & ?)].
Qed.

Definition demo_ring (c : Z) : ring_t :=
  mk_ring (fun _ => 0) (ring_slots c) c 0 0 0 c event_create (event_set_active event_create true true true).

Lemma ring_fifo_witness :
  4 <= ring_slots 4 /\
  exists s', foldl ring_step (Some (mk_ring_run demo_sched (demo_ring 4) [] [])) [Push 11 false; Push 22 true; Pop false] = Some s'
    /\ pushed s' = popped s' ++ items (rr_ring s')
    /\ read_count (rr_ring s') + write_count (rr_ring s') = capacity (rr_ring s').
Proof. apply (ring_fifo demo_sched (fun _ => 0) 4); [reflexivity | lia | vm_compute; discriminate]. Defined.

(** The indices of a ring are never reduced modulo its capacity: once as
    many items have been pushed as the allocation has slots, the next push into
    the ring, even an empty one, writes outside the buffer. *)
Theorem ring_index_overrun (sc : sched_t) (buf : mem) (c : Z) (r : ring_t) (ops : list ring_op) (s' : ring_run) (x : Z) (w : bool) :
  ring_init buf c = Some r -> 0 < c < 2 ^ 31 ->
  foldl ring_step (Some (mk_ring_run sc r [] [])) ops = Some s' ->
  Z.of_nat (length (filter (fun o => is_push o = true) ops)) = ring_slots c ->
  Z.of_nat (length (pushed s')) = ring_slots c -> 0 < write_count (rr_ring s') ->
  ring_push (rr_sched s') (rr_ring s') x w = None.
Proof.
  intros Hr Hc Hrun Hn Hp Hwc. destruct (ring_init_inv sc buf c r Hr Hc) as (Hi & Hs & _ & Hw).
  destruct (ring_run_inv ops _ Hi) as (s'' & E1 & (H & _ & Hwi) & Hs'); [simpl; rewrite Hw, Hs; lia|].
  rewrite Hrun in E1. injection E1 as <-. simpl in Hs'. unfold ring_push.
  destruct (Z.eqb_spec (write_count (rr_ring s')) 0); [lia|].
  destruct (Z.leb_spec (slots (rr_ring s')) (write_index (rr_ring s'))); [done | lia].
Qed.

(** 512 pushes and pops on a ring for one item. *)
Definition demo_wrap : list ring_op := concat (replicate 512 [Push 7 false; Pop false]).

Lemma ring_index_overrun_witness :
  exists s', foldl ring_step (Some (mk_ring_run demo_sched (demo_ring 1) [] [])) demo_wrap = Some s'
    /\ ring_push (rr_sched s') (rr_ring s') 7 false = None.
Proof.
  assert (Hlen : (fun s => (length (pushed s), write_count (rr_ring s))) <$>
            foldl ring_step (Some (mk_ring_run demo_sched (demo_ring 1) [] [])) demo_wrap = Some (512%nat, 1))
    by (vm_compute; reflexivity).
  destruct (foldl ring_step (Some (mk_ring_run demo_sched (demo_ring 1) [] [])) demo_wrap) as [s'|] eqn:E0;
    [| discriminate].
  exists s'. split; [reflexivity|]. injection Hlen as Hl Hc.
  apply (ring_index_overrun demo_sched (fun _ => 0) 1 (demo_ring 1) demo_wrap s' 7 false);
    [reflexivity | lia | exact E0 | vm_compute; reflexivity | rewrite Hl; reflexivity | lia].
Defined.
