(* ===== verification/Locks.v ===== *)
(** * Locks ([src/src/kernel/lock/rwlock.c], [src/src/kernel/lock/bitlock.c]).

    A reader/writer lock is one 32-bit word: bit 0 is the lock bit, bit 1 marks
    a lock held by readers, the rest counts them.  Each atomic access is one
    step of one thread, and a schedule interleaves the steps of any number of
    threads.  The scheduler's pause counter and the profiling hooks around the
    accesses do not touch the word. *)
From stdpp Require Import base tactics list numbers gmap.
From Stdlib Require Import ZArith Lia.
From S2P Require Import Prelude.
#[local] Open Scope Z_scope.

Definition RWLOCK_LOCK_BIT : Z := 0.
Definition RWLOCK_READ_BIT : Z := 1.
Definition RWLOCK_FIRST_COUNTER_BIT : Z := 2.

Definition LOCK : Z := Z.shiftl 1 RWLOCK_LOCK_BIT.
Definition READ : Z := Z.shiftl 1 RWLOCK_READ_BIT.
Definition READER : Z := Z.shiftl 1 RWLOCK_FIRST_COUNTER_BIT.

(** ** Program points of a thread that uses one lock *)

Inductive pc :=
| Idle
| WriteSpin      (** in [rwlock_acquire_write], about to [fetch_or] *)
| WriteGot       (** saw the lock bit clear, about to store *)
| Writing        (** holds the lock for writing *)
| ReadSpin       (** in [rwlock_acquire_read], about to [fetch_or] *)
| ReadJoin       (** saw the read bit, about to add itself to the counter *)
| ReadFirst      (** saw the lock bit clear, about to store *)
| Reading        (** holds the lock for reading *)
| ReadLast.      (** in [rwlock_release_read], was the last reader, about to store 0 *)

#[export] Instance pc_eq_dec : EqDecision pc.
Proof. solve_decision. Defined.

(** What an idle or a holding thread chooses to do next. *)
Inductive request := AcquireWrite | TryAcquireWrite | AcquireRead | Continue.

Record lock_state := mk_lock { value : Z; pcs : list pc }.

(** One atomic access of [rwlock_acquire_write]. *)
Definition acquire_write_step (v : Z) : Z * pc :=
  (Z.lor v LOCK, if negb (Z.land v LOCK =? 0) then WriteSpin else WriteGot).

(** [rwlock_try_acquire_write] gives up instead of spinning. *)
Definition try_acquire_write_step (v : Z) : Z * pc :=
  (Z.lor v LOCK, if negb (Z.land v LOCK =? 0) then Idle else WriteGot).

Definition rwlock_release_write (v : Z) : Z * pc := (0, Idle).

(** One [fetch_or] of the loop of [rwlock_acquire_read]. *)
Definition acquire_read_step (v : Z) : Z * pc :=
  (Z.lor v LOCK,
   if negb (Z.land v READ =? 0) then ReadJoin
   else if Z.land v LOCK =? 0 then ReadFirst
   else ReadSpin).

Definition release_read_step (v : Z) : Z * pc :=
  let v := u32 (v - READER) in
  (v, if v =? Z.lor LOCK READ then ReadLast else Idle).

(** The step of one thread at the given point. *)
Definition pc_step (v : Z) (p : pc) (r : request) : Z * pc :=
  match p with
  | Idle => match r with
            | AcquireWrite => (v, WriteSpin)
            | TryAcquireWrite => try_acquire_write_step v
            | AcquireRead => (v, ReadSpin)
            | Continue => (v, Idle)
            end
  | WriteSpin => acquire_write_step v
  | WriteGot => (LOCK, Writing)
  | Writing => rwlock_release_write v
  | ReadSpin => acquire_read_step v
  | ReadJoin => (u32 (v + READER), Reading)
  | ReadFirst => (Z.lor (Z.lor LOCK READ) READER, Reading)
  | Reading => release_read_step v
  | ReadLast => (0, Idle)
  end.

Definition lock_step (s : lock_state) (m : nat * request) : lock_state :=
  match pcs s !! m.1 with
  | Some p => let '(v, p) := pc_step (value s) p m.2 in mk_lock v (<[m.1 := p]> (pcs s))
  | None => s
  end.

Definition rwlock_init (n : nat) : lock_state := mk_lock 0 (replicate n Idle).

Definition rwlock_is_held (s : lock_state) : bool := z2b (value s).

(** States that some schedule of [n] threads reaches; [allowed] restricts what
    the threads ask for. *)
Inductive reachable (allowed : request -> Prop) (n : nat) : lock_state -> Prop :=
| reach_init : reachable allowed n (rwlock_init n)
| reach_step s i r : reachable allowed n s -> allowed r -> reachable allowed n (lock_step s (i, r)).

(** ** Writers exclude each other *)

Definition holds_write (p : pc) : bool := match p with WriteGot | Writing => true | _ => false end.
Definition no_reader (p : pc) : bool :=
  match p with Idle | WriteSpin | WriteGot | Writing => true | _ => false end.

Definition holders (ps : list pc) : nat := length (filter (fun p => holds_write p = true) ps).

Lemma holders_cons p ps : holders (p :: ps) = ((if holds_write p then 1 else 0) + holders ps)%nat.
Proof. unfold holders. rewrite filter_cons. destruct (holds_write p), (decide _); done. Qed.

Lemma holders_insert ps i p q : ps !! i = Some p ->
  (holders (<[i := q]> ps) + (if holds_write p then 1 else 0)
   = holders ps + (if holds_write q then 1 else 0))%nat.
Proof.
  revert i. induction ps as [| a ps IH]; intros i Hi; [done|]. destruct i as [| i]; simpl in *.
  - injection Hi as ->. rewrite !holders_cons. lia.
  - rewrite !holders_cons. specialize (IH i Hi). lia.
Qed.

(** The lock word counts the writers that are past their [fetch_or]. *)
Definition writers_inv (s : lock_state) : Prop :=
  value s = Z.of_nat (holders (pcs s)) /\ (holders (pcs s) <= 1)%nat
  /\ Forall (fun p => no_reader p = true) (pcs s).

Definition writes_only (r : request) : Prop := r <> AcquireRead.

Lemma writers_step s i r : writers_inv s -> writes_only r -> writers_inv (lock_step s (i, r)).
Proof.
  intros (Hv & Hle & Hr) Hw. unfold lock_step. simpl.
  destruct (pcs s !! i) as [p|] eqn:Hi; [| done].
  pose proof (proj1 (Forall_lookup _ _) Hr i p Hi) as Hp.
  assert (Hpos : holds_write p = true -> (1 <= holders (pcs s))%nat).
  { intros E0. pose proof (holders_insert _ _ _ Idle Hi) as H0. rewrite E0 in H0. simpl in H0. lia. }
  assert (Hcase : exists v q, pc_step (value s) p r = (v, q) /\ no_reader q = true
     /\ v + (if holds_write p then 1 else 0) = value s + (if holds_write q then 1 else 0)
     /\ (holds_write q = true -> holds_write p = true \/ holders (pcs s) = 0%nat)).
  { assert (value s = 0 \/ value s = 1) as [E0 | E0] by lia; rewrite E0;
      destruct p; try discriminate; simpl;
      try (destruct r; simpl; try (by destruct (Hw eq_refl)));
      do 2 eexists; split; try reflexivity; simpl; split_and!; try done; auto; try lia;
      try (specialize (Hpos eq_refl); lia); try (intros _; right; lia). }
  destruct Hcase as (v & q & -> & Hq & Hcnt & Hnew). pose proof (holders_insert _ _ _ q Hi) as H0.
  split_and!; simpl; [| | by apply Forall_insert].
  - destruct (holds_write p), (holds_write q); lia.
  - destruct (holds_write p), (holds_write q); try lia.
Qed.

Lemma writers_init n : writers_inv (rwlock_init n).
Proof.
  assert (Hh : holders (replicate n Idle) = 0%nat).
  { induction n as [| n IH]; [done|]. simpl. rewrite holders_cons, IH. done. }
  split_and!; simpl; [by rewrite Hh | lia | by apply Forall_replicate].
Qed.

Lemma writers_reachable n s : reachable writes_only n s -> writers_inv s.
Proof. induction 1; [apply writers_init | by apply writers_step]. Qed.

(** C40: as long as a lock is only used for writing (blocking or with
    [rwlock_try_acquire_write]), no schedule of any number of threads lets two
    of them hold it at once, and the word is 1 exactly while one does. *)
Theorem rwlock_writers_exclude (n : nat) (s : lock_state) (i j : nat) :
  reachable writes_only n s -> pcs s !! i = Some Writing -> pcs s !! j = Some Writing ->
  i = j /\ rwlock_is_held s = true.
Proof.
  intros Hr Hi Hj. pose proof (writers_reachable _ _ Hr) as Hinv. destruct Hinv as (Hv & Hle & _). pose proof (holders_insert _ _ _ Idle Hi) as H1. simpl in H1.
  destruct (decide (i = j)) as [-> | Hne].
  - split; [done|]. unfold rwlock_is_held, z2b. apply negb_true_iff, Z.eqb_neq. lia.
  - exfalso. assert (Hj' : <[i := Idle]> (pcs s) !! j = Some Writing) by (by rewrite list_lookup_insert_ne).
    pose proof (holders_insert _ _ _ Idle Hj') as H2. simpl in H2. lia.
Qed.

Definition two_writers : list (nat * request) :=
  [(0, AcquireWrite); (1, AcquireWrite); (0, Continue); (1, Continue); (0, Continue)]%nat.

Lemma reachable_run (allowed : request -> Prop) n ops : Forall (fun m => allowed m.2) ops ->
  reachable allowed n (foldl lock_step (rwlock_init n) ops).
Proof.
  intros H. induction ops as [| [i r] ops IH] using rev_ind; [constructor|].
  apply Forall_app in H as [H1 H2]. inversion H2; subst. rewrite foldl_snoc. constructor; auto.
Qed.

Lemma rwlock_writers_exclude_witness :
  let s := foldl lock_step (rwlock_init 2) two_writers in
  pcs s = [Writing; WriteSpin] /\ rwlock_is_held s = true.
Proof.
  intros s. split; [reflexivity|].
  apply (rwlock_writers_exclude 2 s 0 0); [| reflexivity | reflexivity].
  apply reachable_run. repeat constructor; discriminate.
Defined.

(** With readers the lock does not exclude: releasing the last read hold
    takes two accesses, and a reader that joins between them is forgotten, so
    that a schedule of three threads ends with one thread reading while another
    writes. *)
Theorem rwlock_reader_writer_overlap :
  exists s, reachable (fun _ => True) 3 s /\ pcs s !! 1%nat = Some Reading /\ pcs s !! 2%nat = Some Writing.
Proof.
  exists (foldl lock_step (rwlock_init 3)
    [(0, AcquireRead); (0, Continue); (0, Continue); (0, Continue);
     (1, AcquireRead); (1, Continue); (1, Continue); (0, Continue);
     (2, AcquireWrite); (2, Continue); (2, Continue)]%nat).
  split; [| split; reflexivity]. apply reachable_run. apply Forall_forall. done.
Qed.

(** ** Bit locks *)

Definition bit_mask (bit : Z) : Z := u32 (Z.shiftl 1 bit).

Definition bitlock_init (field bit : Z) : Z := Z.land field (lnot_w 32 (bit_mask bit)).

(** One iteration of [bitlock_acquire]; [true] when the lock was taken. *)
Definition bitlock_try_acquire (field bit : Z) : Z * bool :=
  (Z.lor field (bit_mask bit), Z.land field (bit_mask bit) =? 0).

Definition bitlock_release (field bit : Z) : Z := Z.land field (lnot_w 32 (bit_mask bit)).

Definition bitlock_is_held (field bit : Z) : bool := z2b (Z.land (Z.shiftr field bit) 1).

Lemma bit_mask_pow bit : 0 <= bit < 32 -> bit_mask bit = 2 ^ bit.
Proof.
  intros H. unfold bit_mask. rewrite Z.shiftl_1_l. apply u32_id. split; [lia|].
  apply Z.pow_lt_mono_r; lia.
Qed.

Lemma is_held_testbit field bit : 0 <= bit -> bitlock_is_held field bit = Z.testbit field bit.
Proof.
  intros Hb. unfold bitlock_is_held, z2b. change 1 with (2 ^ 0). rewrite land_pow2, Z.shiftr_spec by lia.
  rewrite Z.add_0_l. by destruct (Z.testbit field bit).
Qed.

(** Taking a bit lock succeeds exactly when its bit was clear, leaves the
    bit set and the other 31 bits alone; releasing it clears the bit and again
    leaves the others alone. *)
Theorem bitlock_spec (field bit j : Z) :
  0 <= bit < 32 -> 0 <= j < 32 ->
  let '(taken, ok) := bitlock_try_acquire field bit in
  ok = negb (bitlock_is_held field bit)
  /\ bitlock_is_held taken j = (if j =? bit then true else bitlock_is_held field j)
  /\ bitlock_is_held (bitlock_release taken bit) j = (if j =? bit then false else bitlock_is_held field j).
Proof.
  intros Hb Hj. unfold bitlock_try_acquire. split_and!.
  - rewrite is_held_testbit, bit_mask_pow, land_pow2 by lia.
    destruct (Z.testbit field bit); simpl; [| done]. apply Z.eqb_neq, Z.pow_nonzero; lia.
  - rewrite !is_held_testbit, bit_mask_pow, Z.lor_spec, Z.pow2_bits_eqb by lia.
    rewrite (Z.eqb_sym bit j). destruct (j =? bit); by rewrite ?orb_true_r, ?orb_false_r.
  - unfold bitlock_release. rewrite !is_held_testbit, Z.land_spec, lnot_testbit, Z.lor_spec, !bit_mask_pow by lia.
    rewrite Z.pow2_bits_eqb by lia. rewrite (Z.eqb_sym bit j).
    destruct (j =? bit), (Z.testbit field j); done.
Qed.

Lemma bitlock_spec_witness :
  let '(taken, ok) := bitlock_try_acquire 5 1 in
  ok = negb (bitlock_is_held 5 1)
  /\ bitlock_is_held taken 2 = (if 2 =? 1 then true else bitlock_is_held 5 2)
  /\ bitlock_is_held (bitlock_release taken 1) 2 = (if 2 =? 1 then false else bitlock_is_held 5 2).
Proof. apply (bitlock_spec 5 1 2); lia. Defined.
