(* ===== verification/Mutex.v ===== *)
(** * Mutexes ([src/src/kernel/lock/mutex.c]).

    A mutex is a holder, guarded by a reader/writer lock, and an event on which
    the threads that find it held go to sleep.  Each section under the inner
    lock, each call of [event_await] and each call of [event_dispatch] is one
    step; between them any other thread may run.  The operations on the event
    are those of [Event.v]. *)
From stdpp Require Import base tactics list numbers gmap relations.
From Stdlib Require Import ZArith Lia.
From S2P Require Import Prelude Event.
#[local] Open Scope Z_scope.

Record mutex_t := mk_mutex { holder : Z; event : event_t }.

Definition mutex_create : mutex_t := mk_mutex 0 event_create.

(** [None]: the panic for a mutex that is held. *)
Definition mutex_delete (lock : mutex_t) : option event_t :=
  if z2b (holder lock) then None else Some (event_delete (event lock) true).

Definition mutex_is_held (lock : mutex_t) : bool := z2b (holder lock).

(** One pass of [while (lock->holder)] in [mutex_acquire], with the assignment
    after the loop: [false] when the thread has to wait. *)
Definition acquire_section (lock : mutex_t) (current : Z) : mutex_t * bool :=
  if z2b (holder lock) then (lock, false) else (mk_mutex current (event lock), true).

(** [event_await(&(lock->event),1,0)]; [true] when it returns at once. *)
Definition await_section (sc : sched_t) (lock : mutex_t) (current : Z) : sched_t * mutex_t * bool :=
  let '(sc, evs, r) := event_await sc current {[0 := event lock]} [0] in
  (sc, mk_mutex (holder lock) (default (event lock) (evs !! 0)), match r with Some _ => true | None => false end).

(** The section of [mutex_release]; [None]: the panic for a wrong thread. *)
Definition release_section (lock : mutex_t) (current : Z) : option mutex_t :=
  if negb (holder lock =? current) then None else Some (mk_mutex 0 (event lock)).

Definition dispatch_section (sc : sched_t) (lock : mutex_t) : sched_t * mutex_t :=
  let '(sc, ev) := event_dispatch sc (event lock) false EVENT_DISPATCH_FLAG_BYPASS_ACL in
  (sc, mk_mutex (holder lock) ev).

(** ** Threads *)

(** Where a thread is: outside, in [mutex_acquire] before the test or before
    [event_await], asleep, in its critical section, or in [mutex_release]
    before the dispatch. *)
Inductive pc := Outside | Testing | Awaiting | Asleep | Inside | Dispatching.

#[export] Instance pc_eq_dec : EqDecision pc.
Proof. solve_decision. Defined.

Record world := mk_world { lock : mutex_t; sched : sched_t; pcs : gmap Z pc }.

Definition at_pc (w : world) (t : Z) (p : pc) : Prop := pcs w !! t = Some p.
Definition goto (w : world) (t : Z) (p : pc) : gmap Z pc := <[t := p]> (pcs w).

(** The scheduler runs a queued thread again. *)
Definition run_thread (sc : sched_t) (t : Z) : sched_t :=
  match threads sc !! t with
  | Some th => mk_sched (<[t := mk_thread THREAD_STATE_TYPE_RUNNING (event_sequence_id th) (event_wakeup_index th)]> (threads sc))
                 (filter (fun x => x <> t) (run_queue sc))
  | None => sc
  end.

Definition thread_is (sc : sched_t) (t : Z) (st : thread_state) : Prop := exists th, threads sc !! t = Some th /\ state th = st.

Inductive step : world -> world -> Prop :=
| s_enter w t : at_pc w t Outside -> step w (mk_world (lock w) (sched w) (goto w t Testing))
| s_test w t l b : at_pc w t Testing -> acquire_section (lock w) t = (l, b) ->
    step w (mk_world l (sched w) (goto w t (if b then Inside else Awaiting)))
| s_await w t sc l b : at_pc w t Awaiting -> await_section (sched w) (lock w) t = (sc, l, b) ->
    step w (mk_world l sc (goto w t (if b then Testing else Asleep)))
| s_wake w t : at_pc w t Asleep -> thread_is (sched w) t THREAD_STATE_TYPE_QUEUED ->
    step w (mk_world (lock w) (run_thread (sched w) t) (goto w t Testing))
| s_release w t l : at_pc w t Inside -> release_section (lock w) t = Some l ->
    step w (mk_world l (sched w) (goto w t Dispatching))
| s_dispatch w t sc l : at_pc w t Dispatching -> dispatch_section (sched w) (lock w) = (sc, l) ->
    step w (mk_world l sc (goto w t Outside)).

(** The threads [ts] run, none of them uses the mutex yet. *)
Definition initial (ts : list Z) : world :=
  mk_world mutex_create
    (mk_sched (list_to_map ((fun t => (t, mk_thread THREAD_STATE_TYPE_RUNNING 0 0)) <$> ts)) [])
    (list_to_map ((fun t => (t, Outside)) <$> ts)).

Definition reachable (ts : list Z) (w : world) : Prop := rtc step (initial ts) w.

(** ** Mutual exclusion *)

(** The holder is exactly the thread in its critical section; a thread that
    sleeps without having been resumed is queued on the event; threads that
    are not asleep run. *)
Record world_ok (w : world) : Prop := {
  w_thread : forall t p, at_pc w t p -> t <> 0 /\ exists th, threads (sched w) !! t = Some th;
  w_holder : forall t, at_pc w t Inside <-> holder (lock w) = t /\ t <> 0;
  w_event : is_active (event (lock w)) = false /\ is_deleted (event (lock w)) = false;
  w_running : forall t p, at_pc w t p -> p <> Asleep -> thread_is (sched w) t THREAD_STATE_TYPE_RUNNING;
  w_asleep : forall t, at_pc w t Asleep -> thread_is (sched w) t THREAD_STATE_TYPE_QUEUED \/
    (thread_is (sched w) t THREAD_STATE_TYPE_AWAITING_EVENT /\ exists c, c ∈ waiters (event (lock w)) /\ c_thread c = t /\ live (sched w) c = true)
}.

Lemma initial_ok ts : NoDup ts -> 0 ∉ ts -> world_ok (initial ts).
Proof.
  intros Hnd H0. assert (Hpc : forall t p, at_pc (initial ts) t p -> t ∈ ts /\ p = Outside).
  { intros t p Ht%elem_of_list_to_map_2. apply list_elem_of_fmap in Ht as (x & [= -> ->] & Hx). done. }
  assert (Hth : forall t, t ∈ ts -> threads (sched (initial ts)) !! t = Some (mk_thread THREAD_STATE_TYPE_RUNNING 0 0)).
  { intros t Ht. apply elem_of_list_to_map_1; [by rewrite <- list_fmap_compose, (list_fmap_ext _ id), list_fmap_id|].
    apply list_elem_of_fmap. by exists t. }
  split.
  - intros t p [Ht _]%Hpc. split; [by intros -> | eauto].
  - intros t. split; [by intros [_ ?]%Hpc | by intros [<- ?]].
  - done.
  - intros t p [Ht _]%Hpc _. eexists. split; [by apply Hth | done].
  - by intros t [_ ?]%Hpc.
Qed.

Lemma at_goto w l sc t p u q : at_pc (mk_world l sc (goto w t p)) u q <-> (u = t /\ q = p) \/ (u <> t /\ at_pc w u q).
Proof.
  unfold at_pc, goto. cbn [pcs]. destruct (decide (u = t)) as [-> | Hu].
  - rewrite lookup_insert_eq. naive_solver.
  - rewrite lookup_insert_ne by done. naive_solver.
Qed.

Lemma live_ext sc sc' c : threads sc' !! c_thread c = threads sc !! c_thread c -> live sc' c = live sc c.
Proof. unfold live. by intros ->. Qed.

Lemma is_ext sc sc' t st : threads sc' !! t = threads sc !! t -> thread_is sc t st -> thread_is sc' t st.
Proof. unfold thread_is. by intros ->. Qed.

(** A step that only moves thread [t] and the holder. *)
Lemma local_ok w t p q l : world_ok w -> at_pc w t p -> p <> Asleep -> q <> Asleep -> event l = event (lock w) ->
  (forall u, (u = t /\ q = Inside) \/ (u <> t /\ at_pc w u Inside) <-> holder l = u /\ u <> 0) ->
  world_ok (mk_world l (sched w) (goto w t q)).
Proof.
  intros [H1 H2 H3 H4 H5] Ht Hp Hq He Hh. split; cbn [lock sched].
  - intros u r Hu%at_goto. destruct Hu as [[-> ->] | [_ Hu]]; eauto.
  - intros u. rewrite at_goto, <- Hh. intuition congruence.
  - by rewrite He.
  - intros u r Hu%at_goto Hr. destruct Hu as [[-> ->] | [_ Hu]]; eauto.
  - intros u Hu%at_goto. rewrite He. destruct Hu as [[-> <-] | [_ Hu]]; [done | auto].
Qed.

(** A dispatch skips dead containers and wakes the first live one. *)
Lemma dispatch_one sc q : (dispatch_loop false sc q = (sc, []) /\ forall c, c ∈ q -> live sc c = false) \/
  exists q1 c q2, q = q1 ++ c :: q2 /\ (forall c', c' ∈ q1 -> live sc c' = false) /\ live sc c = true /\ dispatch_loop false sc q = (wake sc c, q2).
Proof.
  induction q as [| c q IH]; cbn [dispatch_loop]; [left; split; [done | by intros c Hc%not_elem_of_nil]|].
  destruct (live sc c) eqn:Hl.
  - right. exists [], c, q. split_and!; [done | by intros c' Hc%not_elem_of_nil | done | done].
  - destruct IH as [[-> Hd] | (q1 & c1 & q2 & -> & Hd & Hl1 & ->)]; [left | right].
    + split; [done|]. intros c' [-> | Hc]%elem_of_cons; auto.
    + exists (c :: q1), c1, q2. split_and!; [done | | done | done]. intros c' [-> | Hc]%elem_of_cons; auto.
Qed.

Lemma dispatch_section_eq sc l : is_deleted (event l) = false ->
  dispatch_section sc l = (let '(sc, q) := dispatch_loop false sc (waiters (event l)) in
    (sc, mk_mutex (holder l) (mk_event (is_active (event l)) false q))).
Proof. intros E. unfold dispatch_section, event_dispatch. rewrite E. cbn. by destruct (dispatch_loop _ _ _). Qed.

Lemma dispatch_ok w t sc l : world_ok w -> at_pc w t Dispatching -> dispatch_section (sched w) (lock w) = (sc, l) ->
  world_ok (mk_world l sc (goto w t Outside)).
Proof.
  intros [H1 H2 [H3 H3'] H4 H5] Ht. rewrite dispatch_section_eq by done.
  destruct (dispatch_one (sched w) (waiters (event (lock w)))) as [[-> Hd] | (q1 & c & q2 & Hq & Hd & Hl & ->)]; intros [= <- <-].
  - split; cbn [lock sched event holder waiters is_active is_deleted].
    + intros u r Hu%at_goto. destruct Hu as [[-> ->] | [_ Hu]]; eauto.
    + intros u. rewrite at_goto, <- H2. unfold at_pc in *. naive_solver.
    + done.
    + intros u r Hu%at_goto Hr. destruct Hu as [[-> ->] | [_ Hu]]; eauto.
    + intros u Hu%at_goto. destruct Hu as [[-> ?] | [_ Hu]]; [done|]. destruct (H5 u Hu) as [? | (_ & c & Hc & _ & Hlc)]; [by left|].
      by rewrite Hd in Hlc.
  - destruct (wake_threads _ _ Hl) as (th & Eth & Ew & _).
    assert (Hoth : forall u, u <> c_thread c -> threads (wake (sched w) c) !! u = threads (sched w) !! u) by (intros u Hu; by rewrite Ew, lookup_insert_ne).
    assert (Haw : forall u r, at_pc w u r -> r <> Asleep -> u <> c_thread c).
    { intros u r Hu Hr ->. destruct (H4 _ _ Hu Hr) as (th' & E' & Hs). unfold live in Hl. rewrite E' in Hl. rewrite Hs in Hl. done. }
    split; cbn [lock sched event holder waiters is_active is_deleted].
    + intros u r Hu%at_goto. assert (Hu' : exists r, at_pc w u r) by (destruct Hu as [[-> ->] | [_ Hu]]; eauto). destruct Hu' as [r' Hu'].
      destruct (H1 u r' Hu') as (Hn & th' & E'). split; [done|]. destruct (decide (u = c_thread c)) as [-> |]; [rewrite Ew, lookup_insert_eq; eauto | rewrite Hoth; eauto].
    + intros u. rewrite at_goto, <- H2. unfold at_pc in *. naive_solver.
    + done.
    + intros u r Hu%at_goto Hr. assert (Hu' : exists r, at_pc w u r /\ r <> Asleep) by (destruct Hu as [[-> ->] | [_ Hu]]; eauto). destruct Hu' as (r' & Hu' & Hr').
      apply (is_ext (sched w)); [apply Hoth; by eapply Haw | by eapply H4].
    + intros u Hu%at_goto. destruct Hu as [[-> ?] | [_ Hu]]; [done|]. destruct (decide (u = c_thread c)) as [-> | Hn].
      * left. eexists. split; [by rewrite Ew, lookup_insert_eq | done].
      * destruct (H5 u Hu) as [Hqd | (Hst & c' & Hc' & <- & Hlc)]; [left; by apply (is_ext (sched w)); [apply Hoth |]|]. right.
        split; [by apply (is_ext (sched w)); [apply Hoth |]|]. exists c'. rewrite (live_ext (sched w)) by (by apply Hoth). split_and!; [| done | done].
        rewrite Hq in Hc'. apply elem_of_app in Hc' as [Hc' | [-> | Hc']%elem_of_cons]; [by rewrite Hd in Hlc | done | done].
Qed.

(** A thread that goes to sleep is queued on the event. *)
Lemma await_effect sc l t th : threads sc !! t = Some th -> is_active (event l) = false -> is_deleted (event l) = false ->
  let sc' := set_thread sc t (mk_thread THREAD_STATE_TYPE_AWAITING_EVENT (event_sequence_id th) (event_wakeup_index th)) in
  await_section sc l t =
    (sc', mk_mutex (holder l) (mk_event false false (waiters (event l) ++ [mk_container t (event_sequence_id th) 0])), false).
Proof.
  intros Et Ha Hd. unfold await_section, event_await. rewrite Et. cbn [await_loop]. rewrite lookup_singleton_eq. cbv beta iota zeta.
  unfold _await_event. rewrite Ha, Hd. unfold set_thread. cbn [threads]. rewrite lookup_insert_eq. cbn. by rewrite lookup_insert_eq.
Qed.

Lemma await_ok w t sc l b : world_ok w -> at_pc w t Awaiting -> await_section (sched w) (lock w) t = (sc, l, b) ->
  world_ok (mk_world l sc (goto w t (if b then Testing else Asleep))).
Proof.
  intros [H1 H2 [H3 H3'] H4 H5] Ht E. destruct (H1 t _ Ht) as (Hn & th & Eth). rewrite (await_effect _ _ _ _ Eth H3 H3') in E.
  injection E as <- <- <-. cbn iota. set (th' := mk_thread _ _ _).
  assert (Hoth : forall u, u <> t -> threads (set_thread (sched w) t th') !! u = threads (sched w) !! u) by (intros u Hu; by apply lookup_insert_ne).
  assert (Eth' : threads (set_thread (sched w) t th') !! t = Some th') by apply lookup_insert_eq.
  split; cbn [lock sched event holder waiters is_active is_deleted].
  - intros u r Hu%at_goto. destruct Hu as [[-> ->] | [Hu' Hu]]; [split; eauto | rewrite Hoth by done; eauto].
  - intros u. rewrite at_goto, <- H2. unfold at_pc in *. naive_solver.
  - done.
  - intros u r Hu%at_goto Hr. destruct Hu as [[-> ->] | [Hu' Hu]]; [done|]. apply (is_ext (sched w)); [by apply Hoth | eauto].
  - intros u Hu%at_goto. destruct Hu as [[-> _] | [Hu' Hu]].
    + right. split; [by exists th'|]. exists (mk_container t (event_sequence_id th) 0). split_and!; [set_solver | done|].
      unfold live. cbn [c_thread]. rewrite Eth'. cbn. by rewrite Z.eqb_refl.
    + destruct (H5 u Hu) as [Hqd | (Hst & c' & Hc' & <- & Hlc)]; [left | right]; [by apply (is_ext (sched w)); [apply Hoth |]|].
      split; [by apply (is_ext (sched w)); [apply Hoth |]|]. exists c'. rewrite (live_ext (sched w)) by (by apply Hoth). set_solver.
Qed.

Lemma wake_ok w t : world_ok w -> at_pc w t Asleep -> thread_is (sched w) t THREAD_STATE_TYPE_QUEUED ->
  world_ok (mk_world (lock w) (run_thread (sched w) t) (goto w t Testing)).
Proof.
  intros [H1 H2 H3 H4 H5] Ht (th & Eth & Hst).
  assert (Hoth : forall u, u <> t -> threads (run_thread (sched w) t) !! u = threads (sched w) !! u).
  { intros u Hu. unfold run_thread. rewrite Eth. by apply lookup_insert_ne. }
  assert (Hrun : thread_is (run_thread (sched w) t) t THREAD_STATE_TYPE_RUNNING).
  { unfold run_thread. rewrite Eth. eexists. split; [apply lookup_insert_eq | done]. }
  split; cbn [lock sched].
  - intros u r Hu%at_goto. destruct Hu as [[-> ->] | [Hu' Hu]]; [| rewrite Hoth by done; eauto].
    split; [by eapply H1 |]. destruct Hrun as (th' & E' & _). eauto.
  - intros u. rewrite at_goto, <- H2. unfold at_pc in *. naive_solver.
  - done.
  - intros u r Hu%at_goto Hr. destruct Hu as [[-> ->] | [Hu' Hu]]; [done|]. apply (is_ext (sched w)); [by apply Hoth | eauto].
  - intros u Hu%at_goto. destruct Hu as [[-> ?] | [Hu' Hu]]; [done|].
    destruct (H5 u Hu) as [Hqd | (Hsu & c' & Hc' & <- & Hlc)]; [left | right]; [by apply (is_ext (sched w)); [apply Hoth |]|].
    split; [by apply (is_ext (sched w)); [apply Hoth |]|]. exists c'. by rewrite (live_ext (sched w)) by (by apply Hoth).
Qed.

Lemma mutex_step_ok w w' : world_ok w -> step w w' -> world_ok w'.
Proof.
  intros Hw Hs. pose proof (w_holder _ Hw) as Hh. pose proof (w_thread _ Hw) as Ht0. destruct Hs as [w t Ht | w t l b Ht E | | | w t l Ht E |].
  - apply (local_ok w t Outside); try done. intros u. rewrite <- Hh. unfold at_pc in *. naive_solver.
  - destruct (Ht0 _ _ Ht) as [Hn _]. unfold acquire_section, z2b in E. destruct (Z.eqb_spec (holder (lock w)) 0) as [E0 | E0]; cbn [negb] in E; injection E as <- <-.
    + apply (local_ok w t Testing); try done. cbn [holder]. intros u. rewrite (Hh u). naive_solver.
    + apply (local_ok w t Testing); try done. intros u. rewrite <- Hh. unfold at_pc in *. naive_solver.
  - by eapply await_ok.
  - by apply wake_ok.
  - unfold release_section in E. destruct (Z.eqb_spec (holder (lock w)) t) as [Et |]; cbn [negb] in E; [| done]. injection E as <-.
    apply (local_ok w t Inside); try done. cbn [holder]. intros u. rewrite (Hh u). naive_solver.
  - by eapply dispatch_ok.
Qed.

Lemma reachable_ok ts w : NoDup ts -> 0 ∉ ts -> reachable ts w -> world_ok w.
Proof.
  intros Hn H0. apply (rtc_ind_r (fun w => world_ok w) (initial ts)); [by apply initial_ok|]. intros u v _ Hs Hu. by eapply mutex_step_ok.
Qed.

(** ** The properties *)

(** C39: in every state that any number of threads can reach, at most one
    thread is in its critical section; that thread can release the mutex and
    no other thread can; a thread that finds the mutex free gets it; and a
    dispatch resumes a sleeping thread whenever there is one. *)
Theorem mutex_correct (ts : list Z) (w : world) : NoDup ts -> 0 ∉ ts -> reachable ts w ->
  (forall t u, at_pc w t Inside -> at_pc w u Inside -> t = u) /\
  (forall t p, at_pc w t p -> (release_section (lock w) t <> None <-> p = Inside)) /\
  (forall t, at_pc w t Testing -> (acquire_section (lock w) t).2 = negb (mutex_is_held (lock w))) /\
  (forall u, at_pc w u Asleep -> thread_is (sched w) u THREAD_STATE_TYPE_AWAITING_EVENT ->
    exists v, thread_is (sched w) v THREAD_STATE_TYPE_AWAITING_EVENT /\
      thread_is (dispatch_section (sched w) (lock w)).1 v THREAD_STATE_TYPE_QUEUED).
Proof.
  intros Hn H0 Hr. destruct (reachable_ok ts w Hn H0 Hr) as [H1 H2 [H3 H3'] H4 H5]. split_and!.
  - intros t u [<- _]%H2 [<- _]%H2. done.
  - intros t p Ht. destruct (H1 t p Ht) as [Hn0 _]. unfold release_section. destruct (Z.eqb_spec (holder (lock w)) t) as [E | E]; cbn [negb].
    + split; [intros _ | done]. assert (Hi : at_pc w t Inside) by (by apply H2). unfold at_pc in *. congruence.
    + split; [done | intros ->]. by apply H2 in Ht as [? _].
  - intros t _. unfold acquire_section, mutex_is_held. by destruct (z2b _).
  - intros u Hu Haw. destruct (H5 u Hu) as [(th & E & Hq) | (_ & c & Hc & <- & Hl)]; [destruct Haw as (th' & E' & Hq'); congruence|].
    rewrite dispatch_section_eq by done.
    destruct (dispatch_one (sched w) (waiters (event (lock w)))) as [[-> Hd] | (q1 & c' & q2 & Hq & Hd & Hl' & E)]; [by rewrite Hd in Hl|].
    rewrite E.
    destruct (wake_threads _ _ Hl') as (th & Eth & Ew & _). exists (c_thread c'). split.
    + unfold live in Hl'. rewrite Eth in Hl'. apply andb_true_iff in Hl' as [Hs%bool_decide_eq_true _]. by exists th.
    + eexists. cbn. split; [by rewrite Ew, lookup_insert_eq | done].
Qed.

(** Thread 2 finds the mutex held, thread 1 releases it and dispatches the
    event, and only then thread 2 waits for the event. *)
Definition lost_wakeup : world :=
  mk_world (mk_mutex 0 (mk_event false false [mk_container 2 0 0]))
    (mk_sched (<[2 := mk_thread THREAD_STATE_TYPE_AWAITING_EVENT 0 0]> (threads (sched (initial [1; 2])))) [])
    (<[2 := Asleep]> (<[1 := Outside]> ∅)).

Lemma lost_wakeup_reachable : reachable [1; 2] lost_wakeup.
Proof.
  unfold reachable.
  eapply rtc_l; [apply (s_enter _ 1); reflexivity|]. eapply rtc_l; [apply (s_test _ 1); reflexivity|].
  eapply rtc_l; [apply (s_enter _ 2); reflexivity|]. eapply rtc_l; [apply (s_test _ 2); reflexivity|].
  eapply rtc_l; [apply (s_release _ 1); reflexivity|]. eapply rtc_l; [apply (s_dispatch _ 1); reflexivity|].
  eapply rtc_l; [apply (s_await _ 2); reflexivity|]. vm_compute. reflexivity.
Qed.

Lemma mutex_correct_witness : exists v, thread_is (sched lost_wakeup) v THREAD_STATE_TYPE_AWAITING_EVENT /\
  thread_is (dispatch_section (sched lost_wakeup) (lock lost_wakeup)).1 v THREAD_STATE_TYPE_QUEUED.
Proof.
  destruct (mutex_correct [1; 2] lost_wakeup) as (_ & _ & _ & H);
    [repeat constructor; set_solver | set_solver | apply lost_wakeup_reachable |].
  apply (H 2); [reflexivity | by eexists; split; [reflexivity |]].
Defined.

(** The mutex is free, thread 2 sleeps on it, and the only step left is that
    thread 1 uses the mutex again. *)
Lemma mutex_lost_wakeup : reachable [1; 2] lost_wakeup /\ mutex_is_held (lock lost_wakeup) = false /\
  at_pc lost_wakeup 2 Asleep /\ forall w, step lost_wakeup w -> pcs w = <[1 := Testing]> (pcs lost_wakeup).
Proof.
  split_and!; [apply lost_wakeup_reachable | done | done |]. intros w Hs.
  assert (Hpc : forall t p, at_pc lost_wakeup t p -> (t = 1 /\ p = Outside) \/ (t = 2 /\ p = Asleep)).
  { intros t p. unfold at_pc, lost_wakeup. cbn [pcs]. rewrite !lookup_insert_Some, lookup_empty. naive_solver. }
  inversion Hs as [w0 t Ht | w0 t l b Ht | w0 t sc l b Ht | w0 t Ht Hq | w0 t l Ht | w0 t sc l Ht]; subst; destruct (Hpc _ _ Ht) as [[-> ?] | [-> ?]]; try done.
  destruct Hq as (th & E & Hst). vm_compute in E. injection E as <-. done.
Qed.
