(* ===== verification/Bytes.v ===== *)
(** * Bytes and words in memory: loads, stores and byte swaps shared by the
    cryptographic and the storage code. *)
From stdpp Require Import base tactics list numbers.
From Stdlib Require Import ZArith Lia.
From S2P Require Import Prelude.
#[local] Open Scope Z_scope.

Definition bswap32 (x : Z) : Z :=
  Z.lor (Z.lor (Z.shiftl (Z.land x 0xff) 24) (Z.shiftl (Z.land (Z.shiftr x 8) 0xff) 16))
        (Z.lor (Z.shiftl (Z.land (Z.shiftr x 16) 0xff) 8) (Z.land (Z.shiftr x 24) 0xff)).

(** A little-endian load of the four bytes at offset [4 * i]. *)
Definition load32 (l : list Z) (i : nat) : Z :=
  nth (4 * i) l 0 + 2 ^ 8 * nth (4 * i + 1) l 0 + 2 ^ 16 * nth (4 * i + 2) l 0 + 2 ^ 24 * nth (4 * i + 3) l 0.

(** The four bytes of a word in memory (little-endian). *)
Definition store_le32 (x : Z) : list Z :=
  map (fun i => Z.land (Z.shiftr x (8 * Z.of_nat i)) 0xff) (seq 0 4).

Definition word32 (x : Z) : Prop := 0 <= x < 2 ^ 32.

Lemma word32_u32 x : word32 (u32 x).
Proof. apply u32_range. Qed.

Lemma word32_wrap x : word32 (wrap 32 x).
Proof. apply u32_range. Qed.

Lemma word32_high x i : word32 x -> 32 <= i -> Z.testbit x i = false.
Proof. apply word_high. Qed.

Lemma bswap32_bytes x : 0 <= x ->
  bswap32 x = (x mod 256) * 2 ^ 24 + (x / 2 ^ 8 mod 256) * 2 ^ 16 + (x / 2 ^ 16 mod 256) * 2 ^ 8 + x / 2 ^ 24 mod 256.
Proof.
  intros Hx. unfold bswap32. rewrite !land_255, !Z.shiftr_div_pow2, <- Z.lor_assoc by lia.
  assert (Hm : forall y, 0 <= y mod 256 < 256) by (intros; by apply Z.mod_pos_bound).
  pose proof (Hm x). pose proof (Hm (x / 2 ^ 8)). pose proof (Hm (x / 2 ^ 16)). pose proof (Hm (x / 2 ^ 24)).
  rewrite (lor_shiftl_add _ _ 8), (lor_shiftl_add _ _ 16), (lor_shiftl_add _ _ 24) by lia. lia.
Qed.

Definition bytes (l : list Z) : Prop := Forall (fun b => 0 <= b < 256) l.

Lemma bytes_nth l i : bytes l -> 0 <= nth i l 0 < 256.
Proof.
  intros H. destruct (nth_in_or_default i l 0) as [Hi | ->]; [| lia].
  unfold bytes in H. rewrite Forall_forall in H. apply H, Hi.
Qed.

Lemma bytes_take n l : bytes l -> bytes (take n l).
Proof. apply Forall_take. Qed.

Lemma bytes_drop n l : bytes l -> bytes (drop n l).
Proof. apply Forall_drop. Qed.

Lemma list_inserts_0 (l k : list Z) : (length k <= length l)%nat ->
  list_inserts 0 k l = k ++ drop (length k) l.
Proof.
  intros H. apply list_eq. intros i. destruct (decide (i < length k)%nat).
  - rewrite list_lookup_inserts, lookup_app_l by lia. f_equal. lia.
  - rewrite list_lookup_inserts_ge, lookup_app_r, lookup_drop by lia. f_equal. lia.
Qed.

Lemma list_inserts_at (l k : list Z) p : (p + length k <= length l)%nat ->
  list_inserts p k l = take p l ++ k ++ drop (p + length k) l.
Proof.
  intros H. apply list_eq. intros i. destruct (decide (i < p)%nat).
  - rewrite list_lookup_inserts_lt, lookup_app_l, lookup_take_lt by (rewrite ?length_take; lia). done.
  - rewrite lookup_app_r by (rewrite length_take; lia). rewrite length_take, Nat.min_l by lia.
    destruct (decide (i < p + length k)%nat).
    + rewrite list_lookup_inserts, lookup_app_l by lia. done.
    + rewrite list_lookup_inserts_ge, lookup_app_r, lookup_drop by lia. f_equal. lia.
Qed.

(** A byte-swapped word in memory is big-endian. *)
Lemma store_bswap_bytes x : word32 x ->
  store_le32 (bswap32 x) = [x / 2 ^ 24 mod 256; x / 2 ^ 16 mod 256; x / 2 ^ 8 mod 256; x mod 256].
Proof.
  intros [Hx1 Hx2]. rewrite bswap32_bytes by done. unfold store_le32.
  assert (Hm : forall y, 0 <= y mod 256 < 256) by (intros; apply Z.mod_pos_bound; lia).
  pose proof (Hm x). pose proof (Hm (x / 2 ^ 8)). pose proof (Hm (x / 2 ^ 16)). pose proof (Hm (x / 2 ^ 24)).
  generalize dependent (x mod 256). generalize dependent (x / 2 ^ 8 mod 256).
  generalize dependent (x / 2 ^ 16 mod 256). generalize dependent (x / 2 ^ 24 mod 256).
  intros b3 ? b2 ? b1 ? b0 ?. cbn [map seq]. rewrite !land_255, !Z.shiftr_div_pow2 by lia.
  change (8 * Z.of_nat 0) with 0. change (8 * Z.of_nat 1) with 8. change (8 * Z.of_nat 2) with 16.
  change (8 * Z.of_nat 3) with 24. repeat f_equal; Z.div_mod_to_equations; lia.
Qed.

(** Swapping a word given by its bytes. *)
Lemma bswap_of_bytes b0 b1 b2 b3 : 0 <= b0 < 256 -> 0 <= b1 < 256 -> 0 <= b2 < 256 -> 0 <= b3 < 256 ->
  bswap32 (b0 + 2 ^ 8 * b1 + 2 ^ 16 * b2 + 2 ^ 24 * b3) = ((b0 * 256 + b1) * 256 + b2) * 256 + b3.
Proof.
  intros H0 H1 H2 H3. set (x := b0 + _ + _ + _). rewrite bswap32_bytes by (subst x; lia).
  assert (x mod 256 = b0) as -> by (subst x; Z.div_mod_to_equations; lia).
  assert (x / 2 ^ 8 mod 256 = b1) as -> by (subst x; Z.div_mod_to_equations; lia).
  assert (x / 2 ^ 16 mod 256 = b2) as -> by (subst x; Z.div_mod_to_equations; lia).
  assert (x / 2 ^ 24 mod 256 = b3) as -> by (subst x; Z.div_mod_to_equations; lia). lia.
Qed.

(** The bytes of a word. *)
Lemma word_bytes w : word32 w ->
  ((w / 2 ^ 24 mod 256 * 256 + w / 2 ^ 16 mod 256) * 256 + w / 2 ^ 8 mod 256) * 256 + w mod 256 = w.
Proof. intros [H1 H2]. Z.div_mod_to_equations; lia. Qed.

Lemma bytes_of_word b0 b1 b2 b3 : 0 <= b0 < 256 -> 0 <= b1 < 256 -> 0 <= b2 < 256 -> 0 <= b3 < 256 ->
  let x := ((b0 * 256 + b1) * 256 + b2) * 256 + b3 in
  [x / 2 ^ 24 mod 256; x / 2 ^ 16 mod 256; x / 2 ^ 8 mod 256; x mod 256] = [b0; b1; b2; b3].
Proof.
  intros H0 H1 H2 H3 x.
  assert (x / 2 ^ 24 mod 256 = b0) as -> by (subst x; Z.div_mod_to_equations; lia).
  assert (x / 2 ^ 16 mod 256 = b1) as -> by (subst x; Z.div_mod_to_equations; lia).
  assert (x / 2 ^ 8 mod 256 = b2) as -> by (subst x; Z.div_mod_to_equations; lia).
  assert (x mod 256 = b3) as -> by (subst x; Z.div_mod_to_equations; lia). done.
Qed.

(** Bits [k] to [k + 7] are not affected by a reduction modulo [2 ^ 64]. *)
Lemma byte_of_wrap y k : 0 <= k <= 56 -> wrap 64 y / 2 ^ k mod 256 = y / 2 ^ k mod 256.
Proof.
  intros Hk. change 256 with (2 ^ 8). unfold wrap. rewrite <- !Z.shiftr_div_pow2 by lia.
  apply Z.bits_inj'. intros i Hi. destruct (Z.ltb_spec i 8).
  - rewrite !Z.mod_pow2_bits_low, !Z.shiftr_spec, Z.mod_pow2_bits_low by lia. done.
  - by rewrite !Z.mod_pow2_bits_high by lia.
Qed.
