(* ===== verification/MemUtil.v ===== *)
(** * Memory and string routines ([src/src/kernel/util/], [src/src/kernel/memory/smm.c]).

    Memory is one map from addresses to bytes, so that source and destination
    may alias; the routines work on aligned 64-bit words where they can. *)
From stdpp Require Import base tactics list numbers.
From Stdlib Require Import ZArith Lia.
From S2P Require Import Prelude Bytes.
#[local] Open Scope Z_scope.

(** ** The code *)

(** [case n: dst[n-1]=src[n-1]; ... case 1: dst[0]=src[0];] *)
Fixpoint copy_down (m : mem) (dst src : Z) (n : nat) : mem :=
  match n with
  | O => m
  | S n => copy_down (mem_write m (dst + Z.of_nat n) [m (src + Z.of_nat n)]) dst src n
  end.

(** [for (i=0;i<n;i++) dst[i]=src[i];] from [i] on. *)
Fixpoint copy_up (m : mem) (dst src : Z) (i n : nat) : mem :=
  match n with
  | O => m
  | S n => copy_up (mem_write m (dst + Z.of_nat i) [m (src + Z.of_nat i)]) dst src (S i) n
  end.

(** [n] copies of a 64-bit word from [src+i] to [dst+i], [i] in steps of 8. *)
Fixpoint copy_words (m : mem) (dst src : Z) (i n : nat) : mem :=
  match n with
  | O => m
  | S n => copy_words (mem_write m (dst + 8 * Z.of_nat i) (mem_read m (src + 8 * Z.of_nat i) 8)) dst src (S i) n
  end.

(** [(-((u64)p))&7] *)
Definition padding_of (p : Z) : Z := Z.land (u64 (- p)) 7.

Definition mem_copy (m : mem) (dst src length : Z) : mem :=
  if length <? 16 then copy_down m dst src (Z.to_nat length)
  else
    let padding := padding_of dst in
    let m := copy_up m dst src 0 (Z.to_nat padding) in
    let src := src + padding in
    let dst := dst + padding in
    let length := length - padding in
    let words := Z.land length 0xfffffffffffffff8 / 8 in
    let m := copy_words m dst src 0 (Z.to_nat words) in
    copy_down m (dst + 8 * words) (src + 8 * words) (Z.to_nat (Z.land length 7)).

(** The eight bytes of a 64-bit word in memory. *)
Definition store_le64 (x : Z) : list Z := map (fun i => x / 2 ^ (8 * Z.of_nat i) mod 256) (seq 0 8).

Fixpoint fill_down (m : mem) (p value : Z) (n : nat) : mem :=
  match n with
  | O => m
  | S n => fill_down (mem_write m (p + Z.of_nat n) [value]) p value n
  end.

Fixpoint fill_up (m : mem) (p value : Z) (i n : nat) : mem :=
  match n with
  | O => m
  | S n => fill_up (mem_write m (p + Z.of_nat i) [value]) p value (S i) n
  end.

Fixpoint fill_words (m : mem) (p value : Z) (i n : nat) : mem :=
  match n with
  | O => m
  | S n => fill_words (mem_write m (p + 8 * Z.of_nat i) (store_le64 value)) p value (S i) n
  end.

Definition mem_fill (m : mem) (ptr length value : Z) : mem :=
  if length <? 16 then fill_down m ptr value (Z.to_nat length)
  else
    let padding := padding_of ptr in
    let m := fill_up m ptr value 0 (Z.to_nat padding) in
    let ptr := ptr + padding in
    let length := length - padding in
    let extended_value := u64 (0x0101010101010101 * value) in
    let words := Z.land length 0xfffffffffffffff8 / 8 in
    let m := fill_words m ptr extended_value 0 (Z.to_nat words) in
    fill_down m (ptr + 8 * words) value (Z.to_nat (Z.land length 7)).

(** [for (i=0;i<max_length-1;i++)] of [str_copy], [n] iterations left. *)
Fixpoint str_copy_loop (m : mem) (src dst : Z) (i n : nat) : mem :=
  match n with
  | O => m
  | S n =>
      let c := m (src + Z.of_nat i) in
      let m := mem_write m (dst + Z.of_nat i) [c] in
      if m (src + Z.of_nat i) =? 0 then m else str_copy_loop m src dst (S i) n
  end.

Definition str_copy (m : mem) (src dst max_length : Z) : mem :=
  if max_length =? 0 then m
  else mem_write (str_copy_loop m src dst 0 (Z.to_nat (max_length - 1))) (dst + max_length - 1) [0].

(** [for (;length&&src[length-1]==32;length--);] *)
Fixpoint unpadded (m : mem) (src : Z) (n : nat) : nat :=
  match n with
  | O => O
  | S n' => if m (src + Z.of_nat n') =? 32 then unpadded m src n' else S n'
  end.

Definition str_copy_from_padded (m : mem) (src dst length : Z) : mem :=
  let n := Z.of_nat (unpadded m src (Z.to_nat length)) in
  mem_write (mem_copy m dst src n) (dst + n) [0].

(** A little-endian 64-bit load. *)
Definition load64 (m : mem) (a : Z) : Z :=
  foldr (fun i acc => m (a + i) + 256 * acc) 0 [0; 1; 2; 3; 4; 5; 6; 7].

(** The bytewise prefix of [str_equal]: [Some] is an early return. *)
Fixpoint str_equal_bytes (m : mem) (a b : Z) (n : nat) : option bool :=
  match n with
  | O => None
  | S n => if negb (m a =? m b) then Some false
           else if m a =? 0 then Some true
           else str_equal_bytes m (a + 1) (b + 1) n
  end.

(** [(va-0x0101...)&0x8080...&(~va)] *)
Definition zero_mask (va : Z) : Z :=
  Z.land (Z.land (u64 (va - 0x101010101010101)) 0x8080808080808080) (lnot_w 64 va).

(** One iteration of the word loop: [Some] is a return. *)
Definition str_equal_word (va vb : Z) : option bool :=
  let mask := zero_mask va in
  if negb (mask =? 0) then
    Some (Z.land (Z.lxor va vb) (u64 (u64 (Z.shiftl (Z.land mask (u64 (- mask))) 1) - 1)) =? 0)
  else if negb (va =? vb) then Some false
  else None.

(** [None]: out of fuel (the C loop has no bound of its own). *)
Fixpoint str_equal_words (fuel : nat) (m : mem) (a b : Z) : option bool :=
  match fuel with
  | O => None
  | S fuel =>
      match str_equal_word (load64 m a) (load64 m b) with
      | Some r => Some r
      | None => str_equal_words fuel m (a + 8) (b + 8)
      end
  end.

Definition str_equal (fuel : nat) (m : mem) (a b : Z) : option bool :=
  let padding := padding_of a in
  match str_equal_bytes m a b (Z.to_nat padding) with
  | Some r => Some r
  | None => str_equal_words fuel m (a + padding) (b + padding)
  end.

Fixpoint str_starts_with (fuel : nat) (m : mem) (str prefix : Z) : option bool :=
  match fuel with
  | O => None
  | S fuel =>
      if m prefix =? 0 then Some true
      else if negb (m str =? m prefix) then Some false
      else str_starts_with fuel m (str + 1) (prefix + 1)
  end.

(** *** Hashed strings *)

Definition FNV_OFFSET_BASIS : Z := 0x811c9dc5.
Definition FNV_PRIME : Z := 0x01000193.

(** A [char] is signed: it is sign-extended before it meets the 32-bit hash. *)
Record string_t := mk_string { s_length : Z; s_hash : Z; s_data : list Z }.

Definition hash_step (h c : Z) : Z := u32 (Z.lxor h (u32 (sext 8 c)) * FNV_PRIME).

(** [for (;data[out];out++);] *)
Fixpoint smm_length (fuel : nat) (m : mem) (data : Z) (out : Z) : option Z :=
  match fuel with
  | O => None
  | S fuel => if m (data + out) =? 0 then Some out else smm_length fuel m data (out + 1)
  end.

Definition smm_of (l : list Z) : string_t :=
  mk_string (Z.of_nat (length l)) (foldl hash_step FNV_OFFSET_BASIS l) l.

(** A length of 0 stands for the length of the C string. *)
Definition smm_alloc (fuel : nat) (m : mem) (data length : Z) : option string_t :=
  match (if length =? 0 then smm_length fuel m data 0 else Some length) with
  | None => None
  | Some n => Some (smm_of (mem_read m data n))
  end.

Definition smm_duplicate (s : string_t) : string_t := mk_string (s_length s) (s_hash s) (s_data s).

Definition smm_rehash (s : string_t) : string_t :=
  mk_string (s_length s) (foldl hash_step FNV_OFFSET_BASIS (take (Z.to_nat (s_length s)) (s_data s))) (s_data s).

Fixpoint bytes_equal (n : nat) (a b : list Z) : bool :=
  match n, a, b with
  | O, _, _ => true
  | S n, x :: a, y :: b => if negb (x =? y) then false else bytes_equal n a b
  | S _, _, _ => false
  end.

Definition smm_equal (a b : string_t) : bool :=
  if negb (s_length a =? s_length b) || negb (s_hash a =? s_hash b) then false
  else bytes_equal (Z.to_nat (s_length a)) (s_data a) (s_data b).

(** ** Copies and fills *)

Definition disjoint (p q n : Z) : Prop := p + n <= q \/ q + n <= p.

(** [m'] is [m] with the [n] bytes at [src] copied to [dst]. *)
Definition copied (m m' : mem) (dst src n : Z) : Prop :=
  forall x, m' x = if (dst <=? x) && (x <? dst + n) then m (src + (x - dst)) else m x.

Definition filled (m m' : mem) (p n v : Z) : Prop :=
  forall x, m' x = if (p <=? x) && (x <? p + n) then v else m x.

(** Decide membership in address ranges. *)
Ltac ranges :=
  repeat match goal with
  | |- context [?a <=? ?b] => destruct (Z.leb_spec a b)
  | |- context [?a <? ?b] => destruct (Z.ltb_spec a b)
  | |- context [?a =? ?b] => destruct (Z.eqb_spec a b)
  end; simpl; try lia; try done.

Lemma copied_app m m1 m2 dst src a b : 0 <= a -> 0 <= b -> disjoint dst src (a + b) ->
  copied m m1 dst src a -> copied m1 m2 (dst + a) (src + a) b -> copied m m2 dst src (a + b).
Proof.
  intros Ha Hb Hd H1 H2 x. rewrite H2, !H1. unfold disjoint in Hd. ranges; f_equal; lia.
Qed.

Lemma copied_nil m dst src : copied m m dst src 0.
Proof. intros x. ranges. Qed.

Lemma copied_write m dst src n : 0 <= n -> copied m (mem_write m dst (mem_read m src n)) dst src n.
Proof. intros Hn x. by rewrite mem_write_read. Qed.

Lemma mem_write_1 m p v x : mem_write m p [v] x = if x =? p then v else m x.
Proof.
  unfold mem_write. cbn [length]. destruct (Z.eqb_spec x p) as [-> | Hne].
  - rewrite Z.sub_diag. ranges.
  - ranges.
Qed.

(** Backwards, byte by byte: regions that do not overlap. *)
Lemma copy_down_ok n : forall m dst src, disjoint dst src (Z.of_nat n) ->
  copied m (copy_down m dst src n) dst src (Z.of_nat n).
Proof.
  induction n as [| n IH]; intros m dst src Hd x; cbn [copy_down]; [apply copied_nil|].
  unfold disjoint in *. rewrite IH by (unfold disjoint; lia). rewrite !mem_write_1.
  ranges; f_equal; lia.
Qed.

Lemma copy_up_ok n : forall m dst src i, disjoint dst src (Z.of_nat (i + n)) ->
  copied m (copy_up m dst src i n) (dst + Z.of_nat i) (src + Z.of_nat i) (Z.of_nat n).
Proof.
  induction n as [| n IH]; intros m dst src i Hd; cbn [copy_up]; [apply copied_nil|].
  replace (Z.of_nat (S n)) with (1 + Z.of_nat n) by lia.
  eapply (copied_app m (mem_write m (dst + Z.of_nat i) [m (src + Z.of_nat i)])); try lia.
  - unfold disjoint in *. lia.
  - intros x. rewrite mem_write_1. ranges; f_equal; lia.
  - replace (dst + Z.of_nat i + 1) with (dst + Z.of_nat (S i)) by lia.
    replace (src + Z.of_nat i + 1) with (src + Z.of_nat (S i)) by lia. apply IH.
    unfold disjoint in *. lia.
Qed.

Lemma copy_words_ok n : forall m dst src i, disjoint dst src (8 * Z.of_nat (i + n)) ->
  copied m (copy_words m dst src i n) (dst + 8 * Z.of_nat i) (src + 8 * Z.of_nat i) (8 * Z.of_nat n).
Proof.
  induction n as [| n IH]; intros m dst src i Hd; cbn [copy_words]; [apply copied_nil|].
  replace (8 * Z.of_nat (S n)) with (8 + 8 * Z.of_nat n) by lia.
  eapply copied_app; try lia; [unfold disjoint in *; lia | by apply copied_write |].
  replace (dst + 8 * Z.of_nat i + 8) with (dst + 8 * Z.of_nat (S i)) by lia.
  replace (src + 8 * Z.of_nat i + 8) with (src + 8 * Z.of_nat (S i)) by lia. apply IH.
  unfold disjoint in *. lia.
Qed.

Lemma padding_range p : 0 <= padding_of p <= 7.
Proof.
  unfold padding_of. assert (Z.land (u64 (- p)) 7 = wrap 3 (u64 (- p))) as -> by (by apply (wrap_ones 3)).
  pose proof (wrap_width 3 (u64 (- p)) ltac:(lia)) as H. unfold is_width in H. lia.
Qed.

(** [length&~7] bytes are copied as words, [length&7] remain. *)
Lemma split_words n : 0 <= n < 2 ^ 64 ->
  n = 8 * (Z.land n 0xfffffffffffffff8 / 8) + Z.land n 7 /\ 0 <= Z.land n 7 <= 7
  /\ 0 <= Z.land n 0xfffffffffffffff8 / 8.
Proof.
  intros Hn. assert (H7 : Z.land n 7 = n mod 8) by (change 7 with (Z.ones 3); by rewrite Z.land_ones).
  assert (H8 : Z.land n 0xfffffffffffffff8 = n / 8 * 8).
  { change 0xfffffffffffffff8 with (Z.shiftl (Z.ones 61) 3). change 8 with (2 ^ 3).
    rewrite <- Z.shiftr_div_pow2, <- Z.shiftl_mul_pow2 by lia. apply Z.bits_inj'. intros i Hi.
    rewrite Z.land_spec, !Z.shiftl_spec by lia. destruct (Z.ltb_spec i 3).
    - rewrite !(Z.testbit_neg_r _ (i - 3)) by lia. by rewrite andb_false_r.
    - rewrite Z.shiftr_spec by lia. replace (i - 3 + 3) with i by lia. destruct (Z.ltb_spec i 64).
      + rewrite Z.ones_spec_low by lia. by rewrite andb_true_r.
      + rewrite Z.ones_spec_high, andb_false_r by lia. symmetry. apply (word_high 64); [done | lia]. }
  rewrite H7, H8, Z.div_mul by lia. Z.div_mod_to_equations. lia.
Qed.

Lemma mem_copy_ok m dst src n : 0 <= n < 2 ^ 64 -> disjoint dst src n -> copied m (mem_copy m dst src n) dst src n.
Proof.
  intros Hn Hd. unfold mem_copy. destruct (Z.ltb_spec n 16).
  { replace n with (Z.of_nat (Z.to_nat n)) at 2 by lia. apply copy_down_ok. by replace (Z.of_nat (Z.to_nat n)) with n by lia. }
  cbv zeta. pose proof (padding_range dst) as Hp. set (p := padding_of dst) in *.
  destruct (split_words (n - p) ltac:(lia)) as (Hs & Hr & Hw). set (w := Z.land (n - p) _ / 8) in *.
  set (r := Z.land (n - p) 7) in *. clearbody p w r.
  replace n with (p + (8 * w + r)) by lia. unfold disjoint in Hd.
  pose proof (copy_up_ok (Z.to_nat p) m dst src 0) as H1. set (m1 := copy_up _ _ _ _ _) in *.
  pose proof (copy_words_ok (Z.to_nat w) m1 (dst + p) (src + p) 0) as H2. set (m2 := copy_words _ _ _ _ _) in *.
  pose proof (copy_down_ok (Z.to_nat r) m2 (dst + p + 8 * w) (src + p + 8 * w)) as H3.
  rewrite !Z.add_0_r, Z2Nat.id in H1 by lia. rewrite Z.mul_0_r, !Z.add_0_r, Z2Nat.id in H2 by lia.
  rewrite Z2Nat.id in H3 by lia.
  apply (copied_app m m1); try lia; [unfold disjoint; lia | apply H1; unfold disjoint; lia |].
  apply (copied_app m1 m2); try lia; [unfold disjoint; lia | apply H2; unfold disjoint; lia |].
  apply H3. unfold disjoint. lia.
Qed.

Lemma filled_app m m1 m2 p a b v : 0 <= a -> 0 <= b ->
  filled m m1 p a v -> filled m1 m2 (p + a) b v -> filled m m2 p (a + b) v.
Proof. intros Ha Hb H1 H2 x. rewrite H2, !H1. ranges. Qed.

Lemma filled_nil m p v : filled m m p 0 v.
Proof. intros x. ranges. Qed.

Lemma fill_down_ok n : forall m p v, filled m (fill_down m p v n) p (Z.of_nat n) v.
Proof.
  induction n as [| n IH]; intros m p v x; cbn [fill_down]; [apply filled_nil|]. rewrite IH, mem_write_1. ranges.
Qed.

Lemma fill_up_ok n : forall m p v i, filled m (fill_up m p v i n) (p + Z.of_nat i) (Z.of_nat n) v.
Proof.
  induction n as [| n IH]; intros m p v i; cbn [fill_up]; [apply filled_nil|].
  replace (Z.of_nat (S n)) with (1 + Z.of_nat n) by lia.
  apply (filled_app m (mem_write m (p + Z.of_nat i) [v])); try lia.
  - intros x. rewrite mem_write_1. ranges.
  - replace (p + Z.of_nat i + 1) with (p + Z.of_nat (S i)) by lia. apply IH.
Qed.

(** Multiplying by 0x0101... repeats a byte. *)
Lemma store_repeated v : 0 <= v < 256 -> store_le64 (u64 (0x0101010101010101 * v)) = replicate 8 v.
Proof.
  intros Hv. rewrite u64_id by lia. unfold store_le64.
  transitivity (map (fun _ : nat => v) (seq 0 8)); [| done]. apply map_ext_in. intros i Hi. apply in_seq in Hi.
  do 8 (destruct i as [| i]; [cbn -[Z.mul Z.div Z.modulo]; Z.div_mod_to_equations; lia|]). lia.
Qed.

Lemma fill_words_ok n : forall m p v w i, store_le64 w = replicate 8 v ->
  filled m (fill_words m p w i n) (p + 8 * Z.of_nat i) (8 * Z.of_nat n) v.
Proof.
  induction n as [| n IH]; intros m p v w i Hw; cbn [fill_words]; [apply filled_nil|].
  replace (8 * Z.of_nat (S n)) with (8 + 8 * Z.of_nat n) by lia.
  apply (filled_app m (mem_write m (p + 8 * Z.of_nat i) (store_le64 w))); try lia.
  - intros x. rewrite Hw. unfold mem_write. rewrite length_replicate. cbn [Z.of_nat Pos.of_succ_nat].
    change (Z.of_nat 8) with 8. destruct ((_ <=? x) && _) eqn:E0; [| done].
    apply andb_true_iff in E0 as [H1%Z.leb_le H2%Z.ltb_lt].
    assert (Hi : (Z.to_nat (x - (p + 8 * Z.of_nat i)) < 8)%nat) by lia.
    set (k := Z.to_nat _) in *. clearbody k. do 8 (destruct k as [| k]; [done|]). lia.
  - replace (p + 8 * Z.of_nat i + 8) with (p + 8 * Z.of_nat (S i)) by lia. by apply IH.
Qed.

Lemma mem_fill_ok m p n v : 0 <= n < 2 ^ 64 -> 0 <= v < 256 -> filled m (mem_fill m p n v) p n v.
Proof.
  intros Hn Hv. unfold mem_fill. destruct (Z.ltb_spec n 16).
  { replace n with (Z.of_nat (Z.to_nat n)) at 2 by lia. apply fill_down_ok. }
  cbv zeta. pose proof (padding_range p) as Hp. set (q := padding_of p) in *.
  destruct (split_words (n - q) ltac:(lia)) as (Hs & Hr & Hw). set (w := Z.land (n - q) _ / 8) in *.
  set (r := Z.land (n - q) 7) in *. clearbody q w r. replace n with (q + (8 * w + r)) by lia.
  pose proof (fill_up_ok (Z.to_nat q) m p v 0) as H1. set (m1 := fill_up _ _ _ _ _) in *.
  pose proof (fill_words_ok (Z.to_nat w) m1 (p + q) v _ 0 (store_repeated v Hv)) as H2. set (m2 := fill_words _ _ _ _ _) in *.
  pose proof (fill_down_ok (Z.to_nat r) m2 (p + q + 8 * w) v) as H3.
  rewrite Z.add_0_r, Z2Nat.id in H1 by lia. rewrite Z.mul_0_r, Z.add_0_r, Z2Nat.id in H2 by lia.
  rewrite Z2Nat.id in H3 by lia.
  apply (filled_app m m1); try lia; [done|]. apply (filled_app m1 m2); try lia; done.
Qed.

(** [mem_copy] between regions that do not overlap copies every byte, for
    every length and every alignment of the two pointers, and changes nothing
    else; [mem_fill] sets every byte of its region and nothing else. *)
Theorem mem_copy_fill_correct (m : mem) (dst src n v : Z) :
  0 <= n < 2 ^ 64 -> disjoint dst src n -> 0 <= v < 256 ->
  copied m (mem_copy m dst src n) dst src n /\ filled m (mem_fill m dst n v) dst n v.
Proof. intros Hn Hd Hv. split; [by apply mem_copy_ok | by apply mem_fill_ok]. Qed.

Lemma mem_copy_fill_correct_witness :
  copied (fun x => x mod 256) (mem_copy (fun x => x mod 256) 1003 2001 29) 1003 2001 29
  /\ filled (fun x => x mod 256) (mem_fill (fun x => x mod 256) 1003 29 7) 1003 29 7.
Proof. apply (mem_copy_fill_correct (fun x => x mod 256) 1003 2001 29 7); [lia | left; lia | lia]. Defined.
