(* ===== verification/StrEqual.v ===== *)
(** * [str_equal] compares C strings eight bytes at a time
    ([src/src/kernel/util/str_equal.c]). *)
From stdpp Require Import base tactics list numbers.
From Stdlib Require Import ZArith Lia.
From S2P Require Import Prelude Bytes MemUtil.
#[local] Open Scope Z_scope.

(** ** Little-endian values *)

Definition val (l : list Z) : Z := foldr (fun x acc => x + 256 * acc) 0 l.

Lemma val_app l1 l2 : val (l1 ++ l2) = val l1 + 256 ^ Z.of_nat (length l1) * val l2.
Proof.
  induction l1 as [| x l1 IH]; cbn [app length]; [unfold val at 2; simpl; lia|].
  change (val (x :: l1 ++ l2)) with (x + 256 * val (l1 ++ l2)). change (val (x :: l1)) with (x + 256 * val l1).
  rewrite IH, Nat2Z.inj_succ, Z.pow_succ_r by lia. lia.
Qed.

Lemma val_range l : bytes l -> 0 <= val l < 256 ^ Z.of_nat (length l).
Proof.
  induction 1 as [| x l Hx _ IH]; [done|]. cbn [length]. change (val (x :: l)) with (x + 256 * val l).
  rewrite Nat2Z.inj_succ, Z.pow_succ_r by lia. lia.
Qed.

Lemma val_inj l l' : bytes l -> bytes l' -> length l = length l' -> val l = val l' -> l = l'.
Proof.
  intros Hl. revert l'. induction Hl as [| x l Hx Hl IH]; intros l' Hl' Hlen Hv; [by destruct l'|].
  destruct Hl' as [| y l' Hy Hl']; [done|].
  change (val (x :: l)) with (x + 256 * val l) in Hv. change (val (y :: l')) with (y + 256 * val l') in Hv.
  assert (x = y) as -> by lia. f_equal. apply IH; [done | simpl in Hlen; lia | lia].
Qed.

Lemma val_take l n : bytes l -> (n <= length l)%nat -> val l mod 256 ^ Z.of_nat n = val (take n l).
Proof.
  intros Hl Hn. rewrite <- (take_drop n l) at 1. rewrite val_app, length_take, Nat.min_l by done.
  rewrite (Z.mul_comm (256 ^ _)), Z.mod_add by (apply Z.pow_nonzero; lia). apply Z.mod_small.
  pose proof (val_range (take n l) (Forall_take _ _ _ Hl)) as H. by rewrite length_take, Nat.min_l in H.
Qed.

Lemma pow256 n : 0 <= n -> 256 ^ n = 2 ^ (8 * n).
Proof. intros Hn. change 256 with (2 ^ 8). by rewrite <- Z.pow_mul_r by lia. Qed.

(** ** The zero-byte test *)

Lemma ones_gap pre : bytes pre -> Forall (fun b => 1 <= b) pre ->
  0 <= val pre - val (replicate (length pre) 1) < 256 ^ Z.of_nat (length pre).
Proof.
  induction 1 as [| x l Hx _ IH]; intros Hnz; [done|]. inversion Hnz; subst. cbn [length replicate].
  change (val (x :: l)) with (x + 256 * val l). change (val (1 :: ?k)) with (1 + 256 * val k).
  rewrite Nat2Z.inj_succ, Z.pow_succ_r by lia. specialize (IH ltac:(done)). lia.
Qed.

(** Below the first zero byte no borrow occurs. *)
Lemma borrow pre b post : bytes (pre ++ b :: post) -> Forall (fun b => 1 <= b) pre -> length (pre ++ b :: post) = 8%nat ->
  let j := Z.of_nat (length pre) in
  u64 (val (pre ++ b :: post) - 0x101010101010101) / 2 ^ (8 * j) mod 256 = (b - 1) mod 256.
Proof.
  intros Hb Hnz Hlen j. rewrite length_app in Hlen. cbn [length] in Hlen.
  unfold u64. rewrite byte_of_wrap by lia. rewrite <- pow256 by lia.
  assert (Hc : 0x101010101010101 = val (replicate (length pre) 1) + 256 ^ j * (1 + 256 * val (replicate (length post) 1))).
  { subst j. replace (length pre) with (length (replicate (length pre) 1)) at 2 by apply length_replicate.
    change (1 + 256 * val (replicate (length post) 1)) with (val (1 :: replicate (length post) 1)).
    rewrite <- val_app. change (1 :: replicate (length post) 1) with (replicate (S (length post)) 1).
    rewrite <- replicate_add. replace (length pre + S (length post))%nat with 8%nat by lia. done. }
  rewrite Hc, val_app. change (val (b :: post)) with (b + 256 * val post). fold j.
  apply Forall_app in Hb as [Hb1 _]. pose proof (ones_gap pre Hb1 Hnz) as Hg. fold j in Hg.
  set (g := val pre - val (replicate (length pre) 1)) in *.
  set (h := val post - val (replicate (length post) 1)).
  replace (val pre + 256 ^ j * (b + 256 * val post) - (val (replicate (length pre) 1) + 256 ^ j * (1 + 256 * val (replicate (length post) 1))))
    with (g + (b - 1 + h * 256) * 256 ^ j) by (subst g h; ring).
  rewrite Z.div_add by (apply Z.pow_nonzero; lia). rewrite (Z.div_small g) by done.
  rewrite Z.add_0_l. by rewrite Z.mod_add by lia.
Qed.

Lemma testbit_byte x j : 0 <= x -> 0 <= j -> Z.testbit x (8 * j + 7) = Z.testbit (x / 2 ^ (8 * j) mod 256) 7.
Proof.
  intros Hx Hj. change 256 with (2 ^ 8). rewrite Z.mod_pow2_bits_low by lia.
  rewrite <- Z.shiftr_div_pow2, Z.shiftr_spec by lia. f_equal. lia.
Qed.

Lemma high_mask_bits i : 0 <= i < 64 -> Z.testbit 0x8080808080808080 i = (i mod 8 =? 7).
Proof.
  intros Hi. assert (H : forallb (fun i => Bool.eqb (Z.testbit 0x8080808080808080 (Z.of_nat i)) (Z.of_nat i mod 8 =? 7)) (seq 0 64) = true)
    by (vm_compute; reflexivity).
  rewrite forallb_forall in H. specialize (H (Z.to_nat i) ltac:(apply in_seq; lia)).
  apply Bool.eqb_prop in H. by rewrite Z2Nat.id in H by lia.
Qed.

Lemma minus_one_bit b : 0 <= b < 256 -> Z.testbit ((b - 1) mod 256) 7 && negb (Z.testbit b 7) = (b =? 0).
Proof.
  intros Hb. assert (H : forallb (fun i => let b := Z.of_nat i in
     Bool.eqb (Z.testbit ((b - 1) mod 256) 7 && negb (Z.testbit b 7)) (b =? 0)) (seq 0 256) = true) by (vm_compute; reflexivity).
  rewrite forallb_forall in H. specialize (H (Z.to_nat b) ltac:(apply in_seq; lia)). cbv zeta in H.
  apply Bool.eqb_prop in H. by rewrite Z2Nat.id in H by lia.
Qed.

Section ZeroMask.
Context (l : list Z).
Hypothesis Hb : bytes l.
Hypothesis Hlen : length l = 8%nat.

Lemma val64 : 0 <= val l < 2 ^ 64.
Proof. pose proof (val_range l Hb) as H. by rewrite Hlen in H. Qed.

Lemma zero_mask_bit i : 0 <= i -> Z.testbit (zero_mask (val l)) i =
  (i <? 64) && (i mod 8 =? 7) && Z.testbit (u64 (val l - 0x101010101010101)) i && negb (Z.testbit (val l) i).
Proof.
  intros Hi. unfold zero_mask. rewrite !Z.land_spec. destruct (Z.ltb_spec i 64).
  - rewrite high_mask_bits, lnot_testbit by lia. simpl.
    destruct (i mod 8 =? 7); by rewrite ?andb_true_r, ?andb_false_r.
  - rewrite (word_high 64 0x8080808080808080) by (done || lia). simpl. by rewrite andb_false_r.
Qed.

(** At a byte with only non-zero bytes below it the test is exact. *)
Lemma zero_mask_at pre b post : l = pre ++ b :: post -> Forall (fun b => 1 <= b) pre ->
  Z.testbit (zero_mask (val l)) (8 * Z.of_nat (length pre) + 7) = (b =? 0).
Proof.
  intros Hl Hnz. set (j := Z.of_nat (length pre)).
  assert (Hj : 0 <= j <= 7) by (subst j; pose proof Hlen as H; rewrite Hl, length_app in H; simpl in H; lia).
  rewrite zero_mask_bit by lia. destruct (Z.ltb_spec (8 * j + 7) 64); [| lia].
  assert (((8 * j + 7) mod 8 =? 7) = true) as -> by (apply Z.eqb_eq; Z.div_mod_to_equations; lia). simpl.
  rewrite !testbit_byte by (apply u64_range || apply val64 || lia).
  rewrite Hl at 1. rewrite borrow by (rewrite <- Hl || done; done). 
  assert (val l / 2 ^ (8 * j) mod 256 = b) as ->.
  { rewrite <- pow256 by lia. rewrite Hl, val_app. fold j. change (val (b :: post)) with (b + 256 * val post).
    pose proof Hb as Hb'. rewrite Hl in Hb'. apply Forall_app in Hb' as [Hp Hq]. inversion Hq; subst.
    rewrite (Z.mul_comm (256 ^ j)), Z.div_add by (apply Z.pow_nonzero; lia).
    rewrite Z.div_small by (by apply val_range). rewrite Z.add_0_l, (Z.mul_comm 256), Z.mod_add by lia. by apply Z.mod_small. }
  apply minus_one_bit. pose proof Hb as Hb'. rewrite Hl in Hb'. apply Forall_app in Hb' as [_ Hq]. by inversion Hq.
Qed.

(** Bits below [8 * k] are clear when the first [k] bytes are not zero. *)
Lemma zero_mask_below k : (k <= 8)%nat -> Forall (fun b => 1 <= b) (take k l) ->
  forall i, 0 <= i < 8 * Z.of_nat k + 7 -> i <> 8 * Z.of_nat k + 7 -> Z.testbit (zero_mask (val l)) i = false.
Proof.
  intros Hk Hnz i Hi _. destruct (decide (i mod 8 = 7)) as [Hm | Hm].
  - set (j := Z.to_nat (i / 8)). assert (Hij : i = 8 * Z.of_nat j + 7) by (subst j; Z.div_mod_to_equations; lia).
    assert (Hjk : (j < k)%nat) by lia.
    destruct (lookup_lt_is_Some_2 l j) as [b Hbj]; [lia|].
    pose proof (take_drop_middle l j b Hbj) as Hsplit.
    rewrite Hij. replace j with (length (take j l)) by (rewrite length_take; lia).
    rewrite (zero_mask_at (take j l) b (drop (S j) l)); [| done |].
    + apply Z.eqb_neq. rewrite Forall_lookup in Hnz. specialize (Hnz j b). rewrite lookup_take_lt in Hnz by done.
      specialize (Hnz Hbj). lia.
    + replace (take j l) with (take j (take k l)) by (rewrite take_take; f_equal; lia). by apply Forall_take.
  - rewrite zero_mask_bit by lia. rewrite (proj2 (Z.eqb_neq _ _) Hm). by rewrite andb_false_r.
Qed.

End ZeroMask.

(** ** The lowest set bit *)

Lemma low_bit x n : 0 <= n < 64 -> 0 <= x < 2 ^ 64 -> Z.testbit x n = true ->
  (forall i, 0 <= i < n -> Z.testbit x i = false) -> Z.land x (u64 (- x)) = 2 ^ n.
Proof.
  intros Hn Hx Ht Hlow. assert (Hq : x = x / 2 ^ (n + 1) * 2 ^ (n + 1) + 2 ^ n).
  { assert (Hm : x mod 2 ^ (n + 1) = 2 ^ n).
    { apply Z.bits_inj'. intros i Hi. rewrite Z.pow2_bits_eqb by lia. destruct (Z.ltb_spec i (n + 1)).
      - rewrite Z.mod_pow2_bits_low by lia. destruct (Z.eqb_spec n i) as [<- | Hne]; [done|]. apply Hlow. lia.
      - rewrite Z.mod_pow2_bits_high by lia. symmetry. apply Z.eqb_neq. lia. }
    pose proof (Z.div_mod x (2 ^ (n + 1)) ltac:(apply Z.pow_nonzero; lia)). lia. }
  assert (Hpred : forall i, 0 <= i -> Z.testbit (Z.pred x) i = if i <? n then true else if i =? n then false else Z.testbit x i).
  { intros i Hi. assert (Hpn : 0 < 2 ^ n) by (apply Z.pow_pos_nonneg; lia).
    assert (Hpn1 : 2 ^ (n + 1) = 2 * 2 ^ n) by (rewrite Z.pow_add_r by lia; lia).
    replace (Z.pred x) with (Z.lor (Z.shiftl (x / 2 ^ (n + 1)) (n + 1)) (Z.ones n)).
    2: { rewrite Z.ones_equiv, lor_shiftl_add by lia. lia. }
    rewrite Z.lor_spec, Z.shiftl_spec by lia. destruct (Z.ltb_spec i n).
    - rewrite Z.ones_spec_low by lia. by rewrite orb_true_r.
    - rewrite Z.ones_spec_high, orb_false_r by lia. destruct (Z.eqb_spec i n).
      + apply Z.testbit_neg_r. lia.
      + rewrite <- Z.shiftr_div_pow2, Z.shiftr_spec by lia. f_equal. lia. }
  apply Z.bits_inj'. intros i Hi. rewrite Z.land_spec, Z.pow2_bits_eqb by lia. destruct (Z.ltb_spec i 64).
  - unfold u64, wrap. rewrite Z.mod_pow2_bits_low, Z.bits_opp, Hpred by lia.
    destruct (Z.ltb_spec i n), (Z.eqb_spec i n), (Z.eqb_spec n i); subst; try lia; simpl; rewrite ?Ht, ?Hlow by lia; try done.
    by destruct (Z.testbit x i).
  - rewrite (word_high 64 x) by done. symmetry. simpl. apply Z.eqb_neq. lia.
Qed.

(** ** One word is eight bytes *)

(** What comparing byte by byte decides. *)
Fixpoint cmp (l l' : list Z) : option bool :=
  match l, l' with
  | x :: l, y :: l' => if negb (x =? y) then Some false else if x =? 0 then Some true else cmp l l'
  | _, _ => None
  end.

Lemma cmp_nonzero l : forall l', Forall (fun b => 1 <= b) l -> length l = length l' ->
  cmp l l' = if decide (l = l') then None else Some false.
Proof.
  induction l as [| x l IH]; intros [| y l'] Hnz Hlen; try done. inversion Hnz; subst. cbn [cmp].
  destruct (Z.eqb_spec x y) as [-> | Hne]; simpl; [| by rewrite decide_False by congruence].
  destruct (Z.eqb_spec y 0); [lia|]. rewrite IH by (done || (simpl in Hlen; lia)).
  destruct (decide (l = l')) as [-> | Hne]; [by rewrite decide_True | by rewrite decide_False by congruence].
Qed.

Lemma cmp_zero pre : forall post l', Forall (fun b => 1 <= b) pre -> (length pre < length l')%nat ->
  cmp (pre ++ 0 :: post) l' = Some (bool_decide (pre ++ [0] = take (S (length pre)) l')).
Proof.
  induction pre as [| x pre IH]; intros post [| y l'] Hnz Hlen; cbn [length] in Hlen; try lia.
  - cbn [app cmp take]. destruct (Z.eqb_spec 0 y) as [<- | Hne]; cbn [negb Z.eqb]; [by rewrite bool_decide_true by done|].
    rewrite bool_decide_false; [done|]. by intros [=].
  - inversion Hnz; subst. cbn [app cmp take length]. destruct (Z.eqb_spec x y) as [-> | Hne]; cbn [negb].
    + destruct (Z.eqb_spec y 0); [lia|]. rewrite IH by (done || lia). f_equal.
      apply bool_decide_ext. split; [by intros -> | by intros [=]].
    + rewrite bool_decide_false; [done|]. by intros [=].
Qed.

Lemma first_zero (l : list Z) : bytes l ->
  Forall (fun b => 1 <= b) l \/ exists pre post, l = pre ++ 0 :: post /\ Forall (fun b => 1 <= b) pre.
Proof.
  induction 1 as [| x l Hx _ IH]; [left; constructor|]. destruct (decide (x = 0)) as [-> | Hne].
  - right. exists [], l. split; [done | constructor].
  - destruct IH as [IH | (pre & post & -> & IH)]; [left; constructor; [lia | done]|].
    right. exists (x :: pre), post. split; [done | constructor; [lia | done]].
Qed.

Lemma xor_low_zero x y m : 0 <= m -> (Z.land (Z.lxor x y) (Z.ones m) =? 0) = bool_decide (x mod 2 ^ m = y mod 2 ^ m).
Proof.
  intros Hm. rewrite Z.land_ones by done. apply eq_true_iff_eq. rewrite Z.eqb_eq, bool_decide_eq_true. split; intros H.
  - apply Z.bits_inj'. intros i Hi. destruct (Z.ltb_spec i m); [| by rewrite !Z.mod_pow2_bits_high by lia].
    assert (Hz : Z.testbit (Z.lxor x y mod 2 ^ m) i = false) by (rewrite H; apply Z.bits_0).
    rewrite Z.mod_pow2_bits_low, Z.lxor_spec in Hz by lia. rewrite !Z.mod_pow2_bits_low by lia.
    by destruct (Z.testbit x i), (Z.testbit y i).
  - apply Z.bits_inj'. intros i Hi. rewrite Z.bits_0. destruct (Z.ltb_spec i m); [| by rewrite Z.mod_pow2_bits_high by lia].
    rewrite Z.mod_pow2_bits_low, Z.lxor_spec by lia.
    assert (Hz : Z.testbit (x mod 2 ^ m) i = Z.testbit (y mod 2 ^ m) i) by (by rewrite H).
    rewrite !Z.mod_pow2_bits_low in Hz by lia. rewrite Hz. by destruct (Z.testbit y i).
Qed.

Lemma word_ok l l' : bytes l -> bytes l' -> length l = 8%nat -> length l' = 8%nat ->
  str_equal_word (val l) (val l') = cmp l l'.
Proof.
  intros Hb Hb' Hl Hl'. pose proof (val64 l Hb Hl) as Hv. unfold str_equal_word.
  assert (Hmr : 0 <= zero_mask (val l) < 2 ^ 64).
  { apply width_of_bits; [lia|]. intros i Hi. rewrite zero_mask_bit by (done || lia).
    destruct (Z.ltb_spec i 64); [lia | done]. }
  destruct (first_zero l Hb) as [Hnz | (pre & post & Heq & Hnz)].
  - assert (Hz : zero_mask (val l) = 0).
    { apply Z.bits_inj'. intros i Hi. rewrite Z.bits_0. destruct (Z.ltb_spec i 64).
      - apply (zero_mask_below l Hb Hl 8); [lia | by rewrite take_ge by lia | lia | lia].
      - apply (word_high 64); [done | lia]. }
    rewrite Hz. simpl. rewrite cmp_nonzero by (done || lia).
    destruct (Z.eqb_spec (val l) (val l')) as [E0 | E0]; simpl.
    + rewrite decide_True; [done|]. apply val_inj; [done | done | lia | done].
    + rewrite decide_False; [done | by intros ->].
  - set (k := length pre). assert (Hk : (k < 8)%nat) by (subst k; rewrite Heq, length_app in Hl; simpl in Hl; lia).
    assert (Hbit : Z.testbit (zero_mask (val l)) (8 * Z.of_nat k + 7) = true).
    { subst k. by rewrite (zero_mask_at l Hb Hl pre 0 post Heq Hnz). }
    assert (Hlow : Z.land (zero_mask (val l)) (u64 (- zero_mask (val l))) = 2 ^ (8 * Z.of_nat k + 7)).
    { apply low_bit; [lia | done | done |]. intros i Hi. apply (zero_mask_below l Hb Hl k); [lia | | lia | lia].
      rewrite Heq. subst k. by rewrite take_app_length. }
    destruct (Z.eqb_spec (zero_mask (val l)) 0) as [E0 | E0]; [by rewrite E0, Z.bits_0 in Hbit|]. cbn [negb].
    rewrite Hlow. rewrite Z.shiftl_mul_pow2 by lia. change (2 ^ 1) with 2.
    replace (2 ^ (8 * Z.of_nat k + 7) * 2) with (2 ^ (8 * Z.of_nat (S k))) by
      (replace (8 * Z.of_nat (S k)) with ((8 * Z.of_nat k + 7) + 1) by lia; rewrite (Z.pow_add_r 2 _ 1) by lia; lia).
    assert (Hones : u64 (u64 (2 ^ (8 * Z.of_nat (S k))) - 1) = Z.ones (8 * Z.of_nat (S k))).
    { clear - Hk. rewrite Z.ones_equiv. do 8 (destruct k as [| k]; [reflexivity|]). lia. }
    rewrite Hones, xor_low_zero by lia. rewrite <- pow256 by lia. rewrite !val_take by (done || lia).
    assert (Htk : take (S k) l = pre ++ [0]).
    { rewrite Heq, cons_middle, app_assoc. apply take_app_length'. rewrite length_app. simpl. subst k. lia. }
    replace (cmp l l') with (cmp (pre ++ 0 :: post) l') by (by rewrite Heq).
    rewrite cmp_zero by (done || (subst k; lia)). f_equal. fold k. rewrite Htk.
    apply bool_decide_ext. split; [| by intros ->].
    intros Hvv. apply val_inj; [| by apply Forall_take | | done].
    + rewrite <- Htk. by apply Forall_take.
    + rewrite <- Htk, !length_take. lia.
Qed.

(** ** The whole comparison *)

Definition byte_mem (m : mem) : Prop := forall x, 0 <= m x < 256.

Lemma load64_val m a : load64 m a = val (mem_read m a 8).
Proof. done. Qed.

Lemma mem_read_bytes m a n : byte_mem m -> bytes (mem_read m a n).
Proof.
  intros Hm. unfold mem_read. apply Forall_fmap, Forall_forall. intros i _. apply Hm.
Qed.

Lemma bytes_cmp m a b n : str_equal_bytes m a b n = cmp (mem_read m a (Z.of_nat n)) (mem_read m b (Z.of_nat n)).
Proof.
  revert a b. induction n as [| n IH]; intros a b; [done|]. rewrite Nat2Z.inj_succ, <- Z.add_1_l, !mem_read_add by lia.
  unfold mem_read at 1 3. cbn [str_equal_bytes]. rewrite IH. simpl. by rewrite !Z.add_0_r.
Qed.

Lemma str_equal_bytes_add m n : forall a b k,
  str_equal_bytes m a b (n + k) =
  match str_equal_bytes m a b n with
  | Some r => Some r
  | None => str_equal_bytes m (a + Z.of_nat n) (b + Z.of_nat n) k
  end.
Proof.
  induction n as [| n IH]; intros a b k; cbn [str_equal_bytes Nat.add]; [by rewrite !Z.add_0_r|].
  destruct (negb _); [done|]. destruct (_ =? 0); [done|]. rewrite IH.
  replace (a + 1 + Z.of_nat n) with (a + Z.of_nat (S n)) by lia. by replace (b + 1 + Z.of_nat n) with (b + Z.of_nat (S n)) by lia.
Qed.

(** Comparing words is comparing bytes, eight per iteration. *)
Lemma words_ok m fuel : byte_mem m -> forall a b, str_equal_words fuel m a b = str_equal_bytes m a b (8 * fuel).
Proof.
  intros Hm. induction fuel as [| fuel IH]; intros a b; [done|].
  replace (8 * S fuel)%nat with (8 + 8 * fuel)%nat by lia. rewrite str_equal_bytes_add, <- IH.
  cbn [str_equal_words]. rewrite !load64_val, word_ok by (by apply mem_read_bytes || by rewrite length_mem_read).
  by rewrite bytes_cmp.
Qed.

Lemma str_equal_as_bytes m fuel a b : byte_mem m ->
  str_equal fuel m a b = str_equal_bytes m a b (Z.to_nat (padding_of a) + 8 * fuel).
Proof.
  intros Hm. unfold str_equal. pose proof (padding_range a). rewrite str_equal_bytes_add, Z2Nat.id by lia.
  by rewrite words_ok.
Qed.

(** The C string at [a] is [l]. *)
Definition cstr (m : mem) (a : Z) (l : list Z) : Prop :=
  mem_read m a (Z.of_nat (length l)) = l /\ m (a + Z.of_nat (length l)) = 0 /\ Forall (fun b => b <> 0) l.

Lemma cstr_cons m a x l : cstr m a (x :: l) -> m a = x /\ x <> 0 /\ cstr m (a + 1) l.
Proof.
  intros (H1 & H2 & H3). cbn [length] in *. rewrite Nat2Z.inj_succ, <- Z.add_1_l, mem_read_add in H1 by lia.
  unfold mem_read at 1 in H1. simpl in H1. injection H1 as Hx Hl. rewrite Z.add_0_r in Hx.
  inversion H3; subst. split_and!; try done. split_and!; [done | | done]. rewrite <- H2. f_equal. lia.
Qed.

Lemma str_equal_bytes_ok m la : forall lb a b n, cstr m a la -> cstr m b lb -> (length la < n)%nat ->
  str_equal_bytes m a b n = Some (bool_decide (la = lb)).
Proof.
  induction la as [| x la IH]; intros lb a b n Ha Hb Hn; destruct n as [| n]; try lia; cbn [str_equal_bytes].
  - destruct Ha as (_ & Ha & _). simpl in Ha. rewrite Z.add_0_r in Ha. rewrite Ha.
    destruct lb as [| y lb].
    + destruct Hb as (_ & Hb & _). simpl in Hb. rewrite Z.add_0_r in Hb. by rewrite Hb.
    + destruct (cstr_cons _ _ _ _ Hb) as (Hy & Hy0 & _). rewrite Hy.
      destruct (Z.eqb_spec 0 y); [congruence|]. cbn [negb]. by rewrite bool_decide_false.
  - destruct (cstr_cons _ _ _ _ Ha) as (Hx & Hx0 & Ha'). rewrite Hx. destruct lb as [| y lb].
    + destruct Hb as (_ & Hb & _). simpl in Hb. rewrite Z.add_0_r in Hb. rewrite Hb.
      destruct (Z.eqb_spec x 0); [done|]. cbn [negb]. by rewrite bool_decide_false.
    + destruct (cstr_cons _ _ _ _ Hb) as (Hy & Hy0 & Hb'). rewrite Hy. destruct (Z.eqb_spec x y) as [-> | Hne]; cbn [negb].
      * destruct (Z.eqb_spec y 0); [done|]. rewrite (IH lb) by (done || (simpl in Hn; lia)). f_equal.
        apply bool_decide_ext. split; [by intros -> | by intros [=]].
      * rewrite bool_decide_false; [done|]. by intros [=].
Qed.

(** [str_equal] returns whether the two C strings are equal, whatever their
    alignment: it stops within one word of the end of the first string, and
    the word-sized comparison with its zero-byte test agrees with comparing
    byte by byte. *)
Theorem str_equal_correct (m : mem) (a b : Z) (la lb : list Z) (fuel : nat) :
  byte_mem m -> cstr m a la -> cstr m b lb -> (length la < 8 * fuel)%nat ->
  str_equal fuel m a b = Some (bool_decide (la = lb)).
Proof.
  intros Hm Ha Hb Hf. rewrite str_equal_as_bytes by done. apply str_equal_bytes_ok; [done | done | lia].
Qed.

(** "kernel.mount" at 1005 and "kernel.mounts" at 2000. *)
Definition demo_strings : mem :=
  mem_write (mem_write (fun _ => 0) 1005 [107; 101; 114; 110; 101; 108; 46; 109; 111; 117; 110; 116])
    2000 [107; 101; 114; 110; 101; 108; 46; 109; 111; 117; 110; 116; 115].

Lemma demo_strings_bytes : byte_mem demo_strings.
Proof.
  intros x. unfold demo_strings, mem_write.
  repeat match goal with |- context [if ?c then _ else _] => destruct c end; try lia;
  match goal with |- context [nth ?n ?l 0] => apply (bytes_nth l n) end;
  repeat (apply Forall_cons; [lia|]); apply Forall_nil.
Qed.

Lemma str_equal_correct_witness : str_equal 2 demo_strings 1005 2000 = Some false.
Proof.
  apply (str_equal_correct demo_strings 1005 2000 [107; 101; 114; 110; 101; 108; 46; 109; 111; 117; 110; 116]
    [107; 101; 114; 110; 101; 108; 46; 109; 111; 117; 110; 116; 115] 2).
  - exact demo_strings_bytes.
  - split_and!; [vm_compute; reflexivity | vm_compute; reflexivity |]. repeat (apply Forall_cons; [lia|]); apply Forall_nil.
  - split_and!; [vm_compute; reflexivity | vm_compute; reflexivity |]. repeat (apply Forall_cons; [lia|]); apply Forall_nil.
  - simpl. lia.
Defined.

(** ** Hashed strings *)

Definition string_wf (s : string_t) : Prop :=
  s_length s = Z.of_nat (length (s_data s)) /\ s_hash s = foldl hash_step FNV_OFFSET_BASIS (s_data s).

Lemma bytes_equal_ok n : forall a b, length a = n -> length b = n -> bytes_equal n a b = bool_decide (a = b).
Proof.
  induction n as [| n IH]; intros [| x a] [| y b] Ha Hb; try done; cbn [bytes_equal].
  destruct (Z.eqb_spec x y) as [-> | Hne]; cbn [negb].
  - rewrite IH by (simpl in *; lia). apply bool_decide_ext. split; [by intros -> | by intros [=]].
  - rewrite bool_decide_false; [done|]. by intros [=].
Qed.

Lemma smm_length_ok m a l fuel : forall pre, cstr m (a + Z.of_nat pre) l -> (length l < fuel)%nat ->
  smm_length fuel m a (Z.of_nat pre) = Some (Z.of_nat (pre + length l)).
Proof.
  revert fuel. induction l as [| x l IH]; intros fuel pre Hc Hf; destruct fuel as [| fuel]; try lia; cbn [smm_length].
  - destruct Hc as (_ & Hz & _). cbn [length] in Hz. rewrite Z.add_0_r in Hz. rewrite Hz. simpl. f_equal. lia.
  - destruct (cstr_cons _ _ _ _ Hc) as (Hx & Hx0 & Hc'). rewrite Hx. destruct (Z.eqb_spec x 0); [done|].
    replace (Z.of_nat pre + 1) with (Z.of_nat (S pre)) by lia. rewrite IH; [f_equal; simpl; lia | | simpl in Hf; lia].
    replace (a + Z.of_nat (S pre)) with (a + Z.of_nat pre + 1) by lia. done.
Qed.

(** A string allocated from a C string holds its characters, their number
    and their hash; comparing two allocated strings (length and hash first)
    tells exactly whether their characters are equal; and rehashing a
    well-formed string changes nothing. *)
Theorem smm_alloc_equal (m : mem) (a b : Z) (la lb : list Z) (fuel : nat) :
  cstr m a la -> cstr m b lb -> (length la < fuel)%nat -> (length lb < fuel)%nat ->
  exists sa sb, smm_alloc fuel m a 0 = Some sa /\ smm_alloc fuel m b 0 = Some sb
    /\ s_data sa = la /\ string_wf sa /\ smm_rehash sa = sa
    /\ smm_equal sa sb = bool_decide (la = lb).
Proof.
  intros Ha Hb Hfa Hfb.
  assert (Halloc : forall a l, cstr m a l -> (length l < fuel)%nat -> smm_alloc fuel m a 0 = Some (smm_of l)).
  { intros a' l Hc Hf. unfold smm_alloc. simpl (0 =? 0). cbv iota.
    pose proof (smm_length_ok m a' l fuel 0) as H. change (Z.of_nat 0) with 0 in H. rewrite Z.add_0_r in H. rewrite (H Hc Hf).
    f_equal. f_equal. apply Hc. }
  exists (smm_of la), (smm_of lb). rewrite (Halloc a la), (Halloc b lb) by done.
  split_and!; try done.
  - unfold smm_rehash, smm_of. cbn [s_length s_data s_hash]. by rewrite take_ge by lia.
  - unfold smm_equal, smm_of. cbn [s_length s_hash s_data].
    destruct (Z.eqb_spec (Z.of_nat (length la)) (Z.of_nat (length lb))) as [El | El]; cbn [negb orb].
    + destruct (Z.eqb_spec (foldl hash_step FNV_OFFSET_BASIS la) (foldl hash_step FNV_OFFSET_BASIS lb)) as [Eh | Eh]; cbn [negb orb].
      * rewrite Nat2Z.id. apply bytes_equal_ok; lia.
      * rewrite bool_decide_false; [done | by intros ->].
    + rewrite bool_decide_false; [done | by intros ->].
Qed.

Lemma smm_alloc_equal_witness :
  exists sa sb, smm_alloc 20 demo_strings 1005 0 = Some sa /\ smm_alloc 20 demo_strings 2000 0 = Some sb
    /\ s_data sa = [107; 101; 114; 110; 101; 108; 46; 109; 111; 117; 110; 116] /\ string_wf sa /\ smm_rehash sa = sa
    /\ smm_equal sa sb = bool_decide ([107; 101; 114; 110; 101; 108; 46; 109; 111; 117; 110; 116] =
         [107; 101; 114; 110; 101; 108; 46; 109; 111; 117; 110; 116; 115]).
Proof.
  apply (smm_alloc_equal demo_strings 1005 2000).
  - split_and!; [vm_compute; reflexivity | vm_compute; reflexivity |]. repeat (apply Forall_cons; [lia|]); apply Forall_nil.
  - split_and!; [vm_compute; reflexivity | vm_compute; reflexivity |]. repeat (apply Forall_cons; [lia|]); apply Forall_nil.
  - simpl. lia.
  - simpl. lia.
Defined.
