(* ===== verification/Store.v ===== *)
(** * Numbers in memory
    Little-endian fields of a byte memory: the loads and stores of the packed
    structures of the file system code. *)
From stdpp Require Import base tactics list numbers.
From Stdlib Require Import ZArith Lia.
From S2P Require Import Prelude Bytes.
#[local] Open Scope Z_scope.

Fixpoint le_bytes (n : nat) (x : Z) : list Z :=
  match n with O => [] | S n => x mod 256 :: le_bytes n (x / 256) end.

Fixpoint le_value (l : list Z) : Z :=
  match l with [] => 0 | b :: l => b + 256 * le_value l end.

(** The [n]-byte unsigned integer at [off]. *)
Definition load (n : nat) (b : mem) (off : Z) : Z := le_value (mem_read b off (Z.of_nat n)).
Definition store (n : nat) (b : mem) (off x : Z) : mem := mem_write b off (le_bytes n x).

(** A memory holds bytes. *)
Definition byte_mem (b : mem) : Prop := forall i, 0 <= b i < 256.

Lemma length_le_bytes n x : length (le_bytes n x) = n.
Proof. revert x. induction n as [| n IH]; intros x; cbn; [done | by rewrite IH]. Qed.

Lemma le_bytes_bytes n x : bytes (le_bytes n x).
Proof. revert x. induction n as [| n IH]; intros x; constructor; [apply Z.mod_pos_bound; lia | apply IH]. Qed.

Lemma le_value_range l : bytes l -> 0 <= le_value l < 2 ^ (8 * Z.of_nat (length l)).
Proof.
  induction l as [| b l IH]; intros Hl; [done|]. apply Forall_cons_1 in Hl as [Hb Hl]. specialize (IH Hl). cbn [le_value length].
  replace (8 * Z.of_nat (S (length l))) with (8 + 8 * Z.of_nat (length l)) by lia. rewrite Z.pow_add_r by lia. lia.
Qed.

Lemma le_value_bytes n x : 0 <= x < 2 ^ (8 * Z.of_nat n) -> le_value (le_bytes n x) = x.
Proof.
  revert x. induction n as [| n IH]; intros x Hx; [cbn in *; lia|]. cbn [le_bytes le_value].
  replace (8 * Z.of_nat (S n)) with (8 + 8 * Z.of_nat n) in Hx by lia. rewrite Z.pow_add_r in Hx by lia.
  rewrite IH by (split; [apply Z.div_pos; lia | apply Z.div_lt_upper_bound; lia]). pose proof (Z.div_mod x 256). lia.
Qed.

Lemma le_bytes_value l : bytes l -> le_bytes (length l) (le_value l) = l.
Proof.
  induction l as [| b l IH]; intros Hl; [done|]. apply Forall_cons_1 in Hl as [Hb Hl]. cbn [le_value length le_bytes].
  rewrite (Z.mul_comm 256), Z.mod_add, Z.div_add, Z.mod_small, Z.div_small, Z.add_0_l, IH by (done || lia). done.
Qed.

Lemma load_ext n b b' off off' : (forall i, 0 <= i < Z.of_nat n -> b (off + i) = b' (off' + i)) -> load n b off = load n b' off'.
Proof. intros H. unfold load. f_equal. by apply mem_read_ext. Qed.

Lemma bytes_mem_read b off n : byte_mem b -> bytes (mem_read b off n).
Proof. intros H. unfold mem_read. apply Forall_fmap, Forall_forall. intros i _. apply H. Qed.

Lemma load_range n b off : byte_mem b -> 0 <= load n b off < 2 ^ (8 * Z.of_nat n).
Proof.
  intros H. unfold load. pose proof (le_value_range _ (bytes_mem_read b off (Z.of_nat n) H)) as Hr. rewrite length_mem_read, Nat2Z.id in Hr. done.
Qed.

Lemma load_store n b off x : 0 <= x < 2 ^ (8 * Z.of_nat n) -> load n (store n b off x) off = x.
Proof.
  intros Hx. unfold load, store. replace (Z.of_nat n) with (Z.of_nat (length (le_bytes n x))) by (by rewrite length_le_bytes). rewrite mem_read_write. by apply le_value_bytes.
Qed.

Lemma store_out n b off x i : i < off \/ off + Z.of_nat n <= i -> store n b off x i = b i.
Proof. intros H. unfold store. apply mem_write_out. by rewrite length_le_bytes. Qed.

Lemma load_store_other n m b off off' x : off' + Z.of_nat n <= off \/ off + Z.of_nat m <= off' -> load n (store m b off x) off' = load n b off'.
Proof. intros H. apply load_ext. intros i Hi. apply store_out. lia. Qed.

Lemma store_byte_mem n b off x : byte_mem b -> byte_mem (store n b off x).
Proof.
  intros H i. destruct (decide (i < off \/ off + Z.of_nat n <= i)) as [Ho | Hi]; [rewrite store_out by done; apply H|].
  unfold store. replace i with (off + Z.of_nat (Z.to_nat (i - off))) by lia.
  destruct (le_bytes n x !! Z.to_nat (i - off)) as [y |] eqn:E.
  - rewrite (mem_write_in _ _ _ _ y) by done. by apply (Forall_lookup_1 _ _ _ _ (le_bytes_bytes n x) E).
  - apply lookup_ge_None in E. rewrite length_le_bytes in E. lia.
Qed.

(** Storing what is there changes nothing. *)
Lemma store_load n b off i : byte_mem b -> store n b off (load n b off) i = b i.
Proof.
  intros H. destruct (decide (i < off \/ off + Z.of_nat n <= i)) as [Ho | Hi]; [by apply store_out|].
  unfold store, load. pose proof (le_bytes_value _ (bytes_mem_read b off (Z.of_nat n) H)) as E.
  rewrite length_mem_read, Nat2Z.id in E. rewrite E. replace i with (off + Z.of_nat (Z.to_nat (i - off))) at 1 by lia.
  rewrite (mem_write_in _ _ _ _ (b i)); [done|]. rewrite lookup_mem_read. destruct (Z.ltb_spec (Z.of_nat (Z.to_nat (i - off))) (Z.of_nat n)); [| lia]. do 2 f_equal. lia.
Qed.

(** Decide comparisons of addresses without computing. *)
Ltac acases :=
  repeat match goal with
    | |- context [?x <=? ?y] => destruct (Z.leb_spec x y); try lia
    | |- context [?x <? ?y] => destruct (Z.ltb_spec x y); try lia
    | |- context [?x =? ?y] => destruct (Z.eqb_spec x y); try lia
    end; cbn [andb orb negb].
