(* ===== verification/Kfs2Crc.v ===== *)
(** * The checksum of the KFS2 file system
    ([src/src/common/kfs2/crc.c], [include/common/kfs2/crc.h]).

    A checksum goes over the bytes of a record; the table is compared with the
    shift register of the polynomial it was made from, from which the error
    detection of the checksum follows. *)
From stdpp Require Import base tactics list numbers.
From Stdlib Require Import ZArith Lia.
From S2P Require Import Prelude Bytes Store.
#[local] Open Scope Z_scope.

Definition _kfs2_crc_table : list Z :=
  [0x00000000; 0x77073096; 0xee0e612c; 0x990951ba; 0x076dc419; 0x706af48f; 0xe963a535; 0x9e6495a3;
   0x0edb8832; 0x79dcb8a4; 0xe0d5e91e; 0x97d2d988; 0x09b64c2b; 0x7eb17cbd; 0xe7b82d07; 0x90bf1d91;
   0x1db71064; 0x6ab020f2; 0xf3b97148; 0x84be41de; 0x1adad47d; 0x6ddde4eb; 0xf4d4b551; 0x83d385c7;
   0x136c9856; 0x646ba8c0; 0xfd62f97a; 0x8a65c9ec; 0x14015c4f; 0x63066cd9; 0xfa0f3d63; 0x8d080df5;
   0x3b6e20c8; 0x4c69105e; 0xd56041e4; 0xa2677172; 0x3c03e4d1; 0x4b04d447; 0xd20d85fd; 0xa50ab56b;
   0x35b5a8fa; 0x42b2986c; 0xdbbbc9d6; 0xacbcf940; 0x32d86ce3; 0x45df5c75; 0xdcd60dcf; 0xabd13d59;
   0x26d930ac; 0x51de003a; 0xc8d75180; 0xbfd06116; 0x21b4f4b5; 0x56b3c423; 0xcfba9599; 0xb8bda50f;
   0x2802b89e; 0x5f058808; 0xc60cd9b2; 0xb10be924; 0x2f6f7c87; 0x58684c11; 0xc1611dab; 0xb6662d3d;
   0x76dc4190; 0x01db7106; 0x98d220bc; 0xefd5102a; 0x71b18589; 0x06b6b51f; 0x9fbfe4a5; 0xe8b8d433;
   0x7807c9a2; 0x0f00f934; 0x9609a88e; 0xe10e9818; 0x7f6a0dbb; 0x086d3d2d; 0x91646c97; 0xe6635c01;
   0x6b6b51f4; 0x1c6c6162; 0x856530d8; 0xf262004e; 0x6c0695ed; 0x1b01a57b; 0x8208f4c1; 0xf50fc457;
   0x65b0d9c6; 0x12b7e950; 0x8bbeb8ea; 0xfcb9887c; 0x62dd1ddf; 0x15da2d49; 0x8cd37cf3; 0xfbd44c65;
   0x4db26158; 0x3ab551ce; 0xa3bc0074; 0xd4bb30e2; 0x4adfa541; 0x3dd895d7; 0xa4d1c46d; 0xd3d6f4fb;
   0x4369e96a; 0x346ed9fc; 0xad678846; 0xda60b8d0; 0x44042d73; 0x33031de5; 0xaa0a4c5f; 0xdd0d7cc9;
   0x5005713c; 0x270241aa; 0xbe0b1010; 0xc90c2086; 0x5768b525; 0x206f85b3; 0xb966d409; 0xce61e49f;
   0x5edef90e; 0x29d9c998; 0xb0d09822; 0xc7d7a8b4; 0x59b33d17; 0x2eb40d81; 0xb7bd5c3b; 0xc0ba6cad;
   0xedb88320; 0x9abfb3b6; 0x03b6e20c; 0x74b1d29a; 0xead54739; 0x9dd277af; 0x04db2615; 0x73dc1683;
   0xe3630b12; 0x94643b84; 0x0d6d6a3e; 0x7a6a5aa8; 0xe40ecf0b; 0x9309ff9d; 0x0a00ae27; 0x7d079eb1;
   0xf00f9344; 0x8708a3d2; 0x1e01f268; 0x6906c2fe; 0xf762575d; 0x806567cb; 0x196c3671; 0x6e6b06e7;
   0xfed41b76; 0x89d32be0; 0x10da7a5a; 0x67dd4acc; 0xf9b9df6f; 0x8ebeeff9; 0x17b7be43; 0x60b08ed5;
   0xd6d6a3e8; 0xa1d1937e; 0x38d8c2c4; 0x4fdff252; 0xd1bb67f1; 0xa6bc5767; 0x3fb506dd; 0x48b2364b;
   0xd80d2bda; 0xaf0a1b4c; 0x36034af6; 0x41047a60; 0xdf60efc3; 0xa867df55; 0x316e8eef; 0x4669be79;
   0xcb61b38c; 0xbc66831a; 0x256fd2a0; 0x5268e236; 0xcc0c7795; 0xbb0b4703; 0x220216b9; 0x5505262f;
   0xc5ba3bbe; 0xb2bd0b28; 0x2bb45a92; 0x5cb36a04; 0xc2d7ffa7; 0xb5d0cf31; 0x2cd99e8b; 0x5bdeae1d;
   0x9b64c2b0; 0xec63f226; 0x756aa39c; 0x026d930a; 0x9c0906a9; 0xeb0e363f; 0x72076785; 0x05005713;
   0x95bf4a82; 0xe2b87a14; 0x7bb12bae; 0x0cb61b38; 0x92d28e9b; 0xe5d5be0d; 0x7cdcefb7; 0x0bdbdf21;
   0x86d3d2d4; 0xf1d4e242; 0x68ddb3f8; 0x1fda836e; 0x81be16cd; 0xf6b9265b; 0x6fb077e1; 0x18b74777;
   0x88085ae6; 0xff0f6a70; 0x66063bca; 0x11010b5c; 0x8f659eff; 0xf862ae69; 0x616bffd3; 0x166ccf45;
   0xa00ae278; 0xd70dd2ee; 0x4e048354; 0x3903b3c2; 0xa7672661; 0xd06016f7; 0x4969474d; 0x3e6e77db;
   0xaed16a4a; 0xd9d65adc; 0x40df0b66; 0x37d83bf0; 0xa9bcae53; 0xdebb9ec5; 0x47b2cf7f; 0x30b5ffe9;
   0xbdbdf21c; 0xcabac28a; 0x53b39330; 0x24b4a3a6; 0xbad03605; 0xcdd70693; 0x54de5729; 0x23d967bf;
   0xb3667a2e; 0xc4614ab8; 0x5d681b02; 0x2a6f2b94; 0xb40bbe37; 0xc30c8ea1; 0x5a05df1b; 0x2d02ef8d].

Definition crc_step (out b : Z) : Z := Z.lxor (nth (Z.to_nat (Z.lxor (Z.land out 0xff) b)) _kfs2_crc_table 0) (Z.shiftr out 8).

Definition kfs2_calculate_crc (data : list Z) : Z := lnot_w 32 (foldl crc_step 0xffffffff data).

(** The record is [size] bytes at [data], the last four of which hold the
    checksum. *)
Definition kfs2_insert_crc (b : mem) (data size : Z) : mem :=
  store 4 b (data + size - 4) (kfs2_calculate_crc (mem_read b data (size - 4))).

Definition kfs2_verify_crc (b : mem) (data size : Z) : bool :=
  kfs2_calculate_crc (mem_read b data (size - 4)) =? load 4 b (data + size - 4).

(** ** The shift register *)

Definition polynomial : Z := 0xedb88320.

Definition shift_bit (x : Z) : Z := if Z.odd x then Z.lxor (Z.shiftr x 1) polynomial else Z.shiftr x 1.

Definition shift_byte (x : Z) : Z := Nat.iter 8 shift_bit x.

(** A checksum, a bit at a time. *)
Definition crc32 (data : list Z) : Z := lnot_w 32 (foldl (fun out b => shift_byte (Z.lxor out b)) 0xffffffff data).

Lemma shift_bit_lxor x y : shift_bit (Z.lxor x y) = Z.lxor (shift_bit x) (shift_bit y).
Proof.
  unfold shift_bit. rewrite <- !Z.bit0_odd, Z.lxor_spec, Z.shiftr_lxor.
  destruct (Z.testbit x 0), (Z.testbit y 0); cbn [xorb]; try done; apply Z.bits_inj'; intros i Hi; rewrite !Z.lxor_spec;
    destruct (Z.testbit (Z.shiftr x 1) i), (Z.testbit (Z.shiftr y 1) i), (Z.testbit polynomial i); done.
Qed.

Lemma iter_shift_lxor n x y : Nat.iter n shift_bit (Z.lxor x y) = Z.lxor (Nat.iter n shift_bit x) (Nat.iter n shift_bit y).
Proof. induction n as [| n IH]; [done|]. rewrite !Nat.iter_succ, IH. apply shift_bit_lxor. Qed.

Lemma shift_byte_lxor x y : shift_byte (Z.lxor x y) = Z.lxor (shift_byte x) (shift_byte y).
Proof. apply iter_shift_lxor. Qed.

(** Bits above the lowest eight only move down. *)
Lemma iter_shift_high n h : Nat.iter n shift_bit (Z.shiftl h (Z.of_nat n)) = h.
Proof.
  revert h. induction n as [| n IH]; intros h; [by rewrite Z.shiftl_0_r|].
  rewrite Nat.iter_succ_r. assert (shift_bit (Z.shiftl h (Z.of_nat (S n))) = Z.shiftl h (Z.of_nat n)) as ->; [| apply IH].
  unfold shift_bit. rewrite <- Z.bit0_odd, Z.shiftl_spec_low by lia. rewrite Z.shiftr_shiftl_l by lia. f_equal. lia.
Qed.

Lemma shift_byte_high h : shift_byte (Z.shiftl h 8) = h.
Proof. apply (iter_shift_high 8). Qed.

Lemma split_byte x : x = Z.lxor (Z.shiftl (Z.shiftr x 8) 8) (Z.land x 255).
Proof.
  apply Z.bits_inj'. intros i Hi. change 255 with (Z.ones 8). rewrite Z.lxor_spec, Z.land_spec. destruct (Z.ltb_spec i 8).
  - rewrite Z.shiftl_spec_low, Z.ones_spec_low by lia. by rewrite andb_true_r.
  - rewrite Z.shiftl_spec, Z.shiftr_spec, Z.ones_spec_high by lia. rewrite andb_false_r, xorb_false_r. f_equal. lia.
Qed.

Lemma table_correct i : 0 <= i < 256 -> nth (Z.to_nat i) _kfs2_crc_table 0 = shift_byte i.
Proof.
  intros Hi. assert (H : forallb (fun n => nth n _kfs2_crc_table 0 =? shift_byte (Z.of_nat n)) (seq 0 256) = true) by (vm_compute; reflexivity).
  rewrite forallb_forall in H. specialize (H (Z.to_nat i)). rewrite Z2Nat.id in H by lia. apply Z.eqb_eq, H. apply in_seq. lia.
Qed.

(** One lookup does the work of eight shifts. *)
Lemma crc_step_shift out b : 0 <= b < 256 -> crc_step out b = shift_byte (Z.lxor out b).
Proof.
  intros Hb. unfold crc_step. assert (Hr : 0 <= Z.lxor (Z.land out 255) b < 256).
  { apply (width_of_bits 8); [lia|]. intros i Hi. rewrite Z.lxor_spec, Z.land_spec. change 255 with (Z.ones 8).
    rewrite Z.ones_spec_high, (word_high 8 b) by lia. by rewrite andb_false_r. }
  rewrite table_correct by done. rewrite (split_byte out) at 3. rewrite Z.lxor_assoc, (shift_byte_lxor (Z.shiftl _ _)).
  rewrite shift_byte_high. apply Z.lxor_comm.
Qed.

(** ** Detection of errors *)

Lemma word_shiftr x : word32 x -> 0 <= Z.shiftr x 1 < 2 ^ 31.
Proof. intros H. unfold word32 in H. rewrite Z.shiftr_div_pow2 by lia. split; [apply Z.div_pos; lia | apply Z.div_lt_upper_bound; lia]. Qed.

Lemma shift_bit_word x : word32 x -> word32 (shift_bit x).
Proof.
  intros H. pose proof (word_shiftr x H). unfold word32, shift_bit. destruct (Z.odd x); [| lia].
  apply width_of_bits; [lia|]. intros i Hi. rewrite Z.lxor_spec, (word_high 31), (word_high 32 polynomial); [done | done | done | lia | lia].
Qed.

(** Only 0 is shifted to 0: a 1 shifted out sets the top bit. *)
Lemma shift_bit_zero x : word32 x -> shift_bit x = 0 -> x = 0.
Proof.
  intros H E. pose proof (word_shiftr x H) as Hs. unfold shift_bit in E. destruct (Z.odd x) eqn:Eo.
  - apply Z.lxor_eq in E. rewrite E in Hs. unfold polynomial in Hs. lia.
  - rewrite (Z.div_mod x 2) by lia. rewrite Z.shiftr_div_pow2 in E by lia. change (2 ^ 1) with 2 in E. rewrite E, Zmod_odd, Eo. done.
Qed.

Lemma iter_shift_word n x : word32 x -> word32 (Nat.iter n shift_bit x).
Proof. intros H. induction n as [| n IH]; [done|]. rewrite Nat.iter_succ. by apply shift_bit_word. Qed.

Lemma iter_shift_zero n x : word32 x -> Nat.iter n shift_bit x = 0 -> x = 0.
Proof.
  intros H. induction n as [| n IH]; [done|]. rewrite Nat.iter_succ. intros E.
  apply shift_bit_zero in E; [auto | by apply iter_shift_word].
Qed.

Lemma word_lxor x y : word32 x -> word32 y -> word32 (Z.lxor x y).
Proof.
  intros Hx Hy. apply width_of_bits; [lia|]. intros i Hi. by rewrite Z.lxor_spec, !(word_high 32) by done.
Qed.

Lemma byte_word b : 0 <= b < 256 -> word32 b.
Proof. unfold word32. lia. Qed.

#[local] Hint Resolve word_lxor iter_shift_word byte_word : core.

Definition shift_bytes (x : Z) (data : list Z) : Z := foldl (fun out b => shift_byte (Z.lxor out b)) x data.

Lemma shift_bytes_word data x : bytes data -> word32 x -> word32 (shift_bytes x data).
Proof.
  revert x. induction data as [| b data IH]; intros x Hd Hx; [done|]. apply Forall_cons_1 in Hd as [Hb Hd]. apply IH; [done|].
  unfold shift_byte. auto.
Qed.

(** Equal bytes keep two states apart. *)
Lemma shift_bytes_inj data x y : bytes data -> word32 x -> word32 y -> shift_bytes x data = shift_bytes y data -> x = y.
Proof.
  revert x y. induction data as [| b data IH]; intros x y Hd Hx Hy E; [done|]. apply Forall_cons_1 in Hd as [Hb Hd].
  apply IH in E; [| done | unfold shift_byte; auto | unfold shift_byte; auto].
  apply Z.lxor_eq. apply Z.lxor_eq_0_iff in E. rewrite <- shift_byte_lxor in E. apply iter_shift_zero in E; [| auto].
  rewrite <- E. apply Z.bits_inj'. intros i Hi. rewrite !Z.lxor_spec. destruct (Z.testbit x i), (Z.testbit y i), (Z.testbit b i); done.
Qed.

(** The bytes as a number, the first one lowest. *)
Fixpoint packed (data : list Z) : Z := match data with [] => 0 | b :: data => Z.lxor b (Z.shiftl (packed data) 8) end.

Lemma packed_range data : bytes data -> 0 <= packed data < 2 ^ (8 * Z.of_nat (length data)).
Proof.
  induction data as [| b data IH]; intros Hd; [done|]. apply Forall_cons_1 in Hd as [Hb Hd]. specialize (IH Hd). cbn [packed length].
  apply width_of_bits; [lia|]. intros i Hi. rewrite Z.lxor_spec, (word_high 8 b), Z.shiftl_spec by lia.
  by rewrite (word_high _ _ (i - 8) IH) by lia.
Qed.

Lemma packed_inj x : forall y, bytes x -> bytes y -> length x = length y -> packed x = packed y -> x = y.
Proof.
  induction x as [| b x IH]; intros [| c y] Hx Hy Hl E; [done | done | done |]. apply Forall_cons_1 in Hx as [Hb Hx], Hy as [Hc Hy].
  cbn [packed length] in *. assert (b = c) as ->.
  { apply Z.bits_inj'. intros i Hi. destruct (Z.ltb_spec i 8); [| by rewrite !(word_high 8) by lia].
    apply (f_equal (fun z => Z.testbit z i)) in E. rewrite !Z.lxor_spec, !Z.shiftl_spec_low in E by lia. by rewrite !xorb_false_r in E. }
  f_equal. apply IH; [done | done | lia |]. apply Z.bits_inj'. intros i Hi. apply (f_equal (fun z => Z.testbit z (i + 8))) in E.
  rewrite !Z.lxor_spec, !Z.shiftl_spec, Z.add_simpl_r in E by lia. by destruct (Z.testbit c (i + 8)), (Z.testbit (packed x) i), (Z.testbit (packed y) i).
Qed.

(** A run of bytes enters the register as one number. *)
Lemma shift_bytes_packed data x : shift_bytes x data = Nat.iter (8 * length data) shift_bit (Z.lxor x (packed data)).
Proof.
  revert x. induction data as [| b data IH]; intros x; [by rewrite Z.lxor_0_r|].
  change (shift_bytes x (b :: data)) with (shift_bytes (shift_byte (Z.lxor x b)) data). rewrite IH. cbn [packed length].
  replace (8 * S (length data))%nat with (8 * length data + 8)%nat by lia. rewrite Nat.iter_add. f_equal. unfold shift_byte.
  rewrite <- Z.lxor_assoc, (iter_shift_lxor 8 (Z.lxor x b)). f_equal. symmetry. apply shift_byte_high.
Qed.

Lemma shift_bytes_app x a b : shift_bytes x (a ++ b) = shift_bytes (shift_bytes x a) b.
Proof. apply foldl_app. Qed.

Lemma calculate_shift data : bytes data -> kfs2_calculate_crc data = lnot_w 32 (shift_bytes 0xffffffff data).
Proof.
  intros Hd. unfold kfs2_calculate_crc, shift_bytes. f_equal. generalize 0xffffffff. induction data as [| b data IH]; intros x; [done|].
  apply Forall_cons_1 in Hd as [Hb Hd]. cbn [foldl]. rewrite IH by done. by rewrite crc_step_shift.
Qed.

Lemma lnot_inj x y : word32 x -> word32 y -> lnot_w 32 x = lnot_w 32 y -> x = y.
Proof. unfold lnot_w. intros Hx Hy. rewrite !wrap_id by done. lia. Qed.

(** A changed run of at most four bytes changes the checksum. *)
Lemma crc_burst p x y q : bytes (p ++ x ++ q) -> bytes y -> length x = length y -> (length x <= 4)%nat -> x <> y ->
  kfs2_calculate_crc (p ++ x ++ q) <> kfs2_calculate_crc (p ++ y ++ q).
Proof.
  intros Hd Hy Hl Hle Hne E. apply Forall_app in Hd as [Hp Hd]. apply Forall_app in Hd as [Hx Hq].
  assert (Hw : word32 (shift_bytes 0xffffffff p)) by (apply shift_bytes_word; done).
  rewrite !calculate_shift in E by (repeat (apply Forall_app; split); done).
  apply lnot_inj in E; [| apply shift_bytes_word; [repeat (apply Forall_app; split); done | done] ..].
  rewrite !shift_bytes_app in E. apply shift_bytes_inj in E; [| done | by apply shift_bytes_word ..].
  set (s := shift_bytes 0xffffffff p) in *. clearbody s. rewrite !shift_bytes_packed, Hl in E. apply Hne, packed_inj; [done | done | done |]. apply Z.lxor_eq.
  assert (Hpk : forall d, bytes d -> (length d <= 4)%nat -> word32 (packed d)).
  { intros d Hb Hdl. pose proof (packed_range d Hb). unfold word32. assert (2 ^ (8 * Z.of_nat (length d)) <= 2 ^ 32) by (apply Z.pow_le_mono_r; lia). lia. }
  apply Z.lxor_eq_0_iff in E. rewrite <- iter_shift_lxor in E. apply iter_shift_zero in E; [| repeat apply word_lxor; auto; apply Hpk; done || lia].
  rewrite <- E. apply Z.bits_inj'. intros i Hi. rewrite !Z.lxor_spec. destruct (Z.testbit s i), (Z.testbit (packed x) i), (Z.testbit (packed y) i); done.
Qed.

Lemma mem_read_split b data off n size : 0 <= off -> 0 <= n -> off + n <= size ->
  mem_read b data size = mem_read b data off ++ mem_read b (data + off) n ++ mem_read b (data + off + n) (size - off - n).
Proof. intros H1 H2 H3. replace size with (off + (n + (size - off - n))) at 1 by lia. by rewrite !mem_read_add by lia. Qed.

Lemma crc_word data : word32 (kfs2_calculate_crc data).
Proof. unfold kfs2_calculate_crc, word32, lnot_w. pose proof (wrap_width 32 (foldl crc_step 0xffffffff data) ltac:(lia)) as [? ?]. change (Z.ones 32) with (2 ^ 32 - 1). lia. Qed.

Lemma verify_insert b data size : 4 <= size -> kfs2_verify_crc (kfs2_insert_crc b data size) data size = true.
Proof.
  intros Hs. unfold kfs2_verify_crc, kfs2_insert_crc. rewrite load_store by apply crc_word. apply Z.eqb_eq. f_equal.
  apply mem_read_ext. intros i Hi. apply store_out. lia.
Qed.

Lemma verify_ext b data b' data' size : (forall i, 0 <= i < size -> b (data + i) = b' (data' + i)) -> 4 <= size ->
  kfs2_verify_crc b data size = kfs2_verify_crc b' data' size.
Proof.
  intros H Hs. unfold kfs2_verify_crc. rewrite (mem_read_ext b b' data data') by (intros; apply H; lia). f_equal.
  apply load_ext. intros i Hi. replace (data + size - 4 + i) with (data + (size - 4 + i)) by lia.
  replace (data' + size - 4 + i) with (data' + (size - 4 + i)) by lia. apply H. lia.
Qed.

(** The table-driven checksum is the shift register of the reflected
    polynomial [0xedb88320] run over the bits; a record with its checksum
    inserted is accepted; and when up to four consecutive bytes of the record
    are changed under the stored checksum, it is refused. *)
Theorem kfs2_crc_correct :
  (forall data, bytes data -> kfs2_calculate_crc data = crc32 data) /\
  (forall b data size, 4 <= size -> kfs2_verify_crc (kfs2_insert_crc b data size) data size = true) /\
  (forall b data off l size, byte_mem b -> 4 <= size -> 0 <= off -> off + Z.of_nat (length l) <= size - 4 -> (length l <= 4)%nat -> bytes l ->
    mem_read b (data + off) (Z.of_nat (length l)) <> l -> kfs2_verify_crc (mem_write (kfs2_insert_crc b data size) (data + off) l) data size = false).
Proof.
  split_and!; [intros data Hd; by apply calculate_shift | by apply verify_insert |].
  intros b data off l size Hb Hs Ho Hl Hl4 Hbl Hne. unfold kfs2_verify_crc. apply Z.eqb_neq.
  assert (load 4 (mem_write (kfs2_insert_crc b data size) (data + off) l) (data + size - 4) = kfs2_calculate_crc (mem_read b data (size - 4))) as ->.
  { unfold kfs2_insert_crc. rewrite <- (load_store 4 b (data + size - 4)) by apply crc_word. apply load_ext. intros i Hi. apply mem_write_out. lia. }
  rewrite !(mem_read_split _ _ off (Z.of_nat (length l)) (size - 4)) by lia.
  assert (Hk : forall p n, (p + n <= data + off \/ data + off + Z.of_nat (length l) <= p) -> p + n <= data + size - 4 ->
    mem_read (mem_write (kfs2_insert_crc b data size) (data + off) l) p n = mem_read b p n).
  { intros p n H1 H2. apply mem_read_ext. intros i Hi. rewrite mem_write_out by lia. apply store_out. lia. }
  rewrite (Hk data off), (Hk (data + off + _)) by lia. rewrite mem_read_write. intros E. symmetry in E. revert E.
  apply crc_burst; [repeat (apply Forall_app; split); by apply bytes_mem_read | done | | | done]; rewrite length_mem_read; lia.
Qed.

Lemma kfs2_crc_correct_witness : kfs2_verify_crc (mem_write (kfs2_insert_crc (fun _ => 7) 0 12) (0 + 2) [9]) 0 12 = false.
Proof.
  apply (proj2 (proj2 kfs2_crc_correct)); [intros i; lia | lia | lia | cbn; lia | cbn; lia | repeat constructor; lia | discriminate].
Defined.

Example crc_check : kfs2_calculate_crc [49; 50; 51; 52; 53; 54; 55; 56; 57] = 0xcbf43926.
Proof. vm_compute. reflexivity. Qed.
