(* ===== verification/Kfs2Io.v ===== *)
(** * KFS2: structures and block access
    ([src/src/common/kfs2/io.c], [include/common/kfs2/structures.h],
    [bitmap.h], [api.h]).

    The packed structures are byte images with their fields at fixed offsets,
    so that the union of a node's data is one run of 48 bytes.  The device under
    a file system is the caller's: its callbacks and the content of a fresh
    page are a class, and what a working device does is its laws.  [None] is a
    panic. *)
From stdpp Require Import base tactics list numbers option.
From Stdlib Require Import ZArith Lia.
From S2P Require Import Prelude Bytes Store Kfs2Crc.
#[local] Open Scope Z_scope.

Definition KFS2_BLOCK_SIZE : Z := 4096.
Definition KFS2_BITMAP_LEVEL_COUNT : nat := 5.
Definition KFS2_ROOT_BLOCK_SIGNATURE : Z := 0x544f4f523253464b.
Definition KFS2_INODE_TYPE_DIRECTORY : Z := 1.
Definition KFS2_INODE_TYPE_MASK : Z := 3.
Definition KFS2_INODE_STORAGE_MASK : Z := 0x1c.
Definition KFS2_INODE_STORAGE_TYPE_INLINE : Z := 0.
Definition KFS2_INODE_STORAGE_TYPE_SINGLE : Z := 4.
Definition KFS2_INODE_STORAGE_TYPE_DOUBLE : Z := 8.
Definition KFS2_INODE_STORAGE_TYPE_TRIPLE : Z := 0xc.
Definition KFS2_INODE_STORAGE_TYPE_QUADRUPLE : Z := 0x10.

(** [kfs2_root_block_t], 216 bytes. *)
Definition kfs2_root_block_t : Type := mem.
Definition sizeof_root_block : Z := 216.
Definition signature (r : kfs2_root_block_t) : Z := load 8 r 0.
Definition first_inode_block (r : kfs2_root_block_t) : Z := load 8 r 112.
Definition first_data_block (r : kfs2_root_block_t) : Z := load 8 r 120.
Definition inode_allocation_bitmap_offsets (r : kfs2_root_block_t) (i : nat) : Z := load 8 r (128 + 8 * Z.of_nat i).
Definition data_block_allocation_bitmap_offsets (r : kfs2_root_block_t) (i : nat) : Z := load 8 r (168 + 8 * Z.of_nat i).
Definition inode_allocation_bitmap_highest_level_length (r : kfs2_root_block_t) : Z := load 2 r 208.
Definition data_block_allocation_bitmap_highest_level_length (r : kfs2_root_block_t) : Z := load 2 r 210.

(** [kfs2_node_t], 128 bytes; [data] is at 8 and [crc] shares its place with
    [inode]. *)
Definition kfs2_node_t : Type := mem.
Definition sizeof_node : Z := 128.
Definition n_size (n : kfs2_node_t) : Z := load 8 n 0.
Definition n_data : Z := 8.
Definition n_single (n : kfs2_node_t) (i : Z) : Z := load 8 n (n_data + 8 * i).
Definition n_double (n : kfs2_node_t) : Z := load 8 n n_data.
Definition n_flags (n : kfs2_node_t) : Z := load 4 n 56.
Definition n_rc (n : kfs2_node_t) : Z := load 8 n 100.
Definition n_inode (n : kfs2_node_t) : Z := load 4 n 124.
Definition set_size (n : kfs2_node_t) (x : Z) : kfs2_node_t := store 8 n 0 x.
Definition set_single (n : kfs2_node_t) (i x : Z) : kfs2_node_t := store 8 n (n_data + 8 * i) x.
Definition set_double (n : kfs2_node_t) (x : Z) : kfs2_node_t := store 8 n n_data x.
Definition set_flags (n : kfs2_node_t) (x : Z) : kfs2_node_t := store 4 n 56 x.
Definition set_rc (n : kfs2_node_t) (x : Z) : kfs2_node_t := store 8 n 100 x.
Definition set_inode (n : kfs2_node_t) (x : Z) : kfs2_node_t := store 4 n 124 x.

Record kfs2_bitmap_cache_entry_t := Cache { c_offset : Z; c_block_index : Z; c_data : mem }.

Record kfs2_bitmap_t := Bitmap {
  highest_level_length : Z;
  highest_level_offset : Z;
  cache : list kfs2_bitmap_cache_entry_t
}.

Record kfs2_filesystem_t := Filesystem {
  config_block_size : Z;
  config_start_lba : Z;
  config_end_lba : Z;
  root_block : kfs2_root_block_t;
  block_size_shift : Z;
  data_block_allocator : kfs2_bitmap_t;
  inode_allocator : kfs2_bitmap_t
}.

(** The callbacks of [kfs2_filesystem_config_t]: blocks are moved between the
    device and a buffer, and the number of blocks moved is returned.
    [alloc_callback] is the content of a new page; giving a page back changes
    nothing that is modelled. *)
Class BlockDevice (D : Type) := {
  read_callback : D -> Z -> mem -> Z -> mem * Z;
  write_callback : D -> Z -> mem -> Z -> D * Z;
  alloc_callback : D -> mem
}.

Section io.
Context {D : Type} `{BlockDevice D}.

Definition block_lba (fs : kfs2_filesystem_t) (block_index : Z) : Z :=
  u64 (config_start_lba fs + u64 (Z.shiftl block_index (block_size_shift fs))).

(** A whole block, or a panic. *)
Definition block_read (fs : kfs2_filesystem_t) (d : D) (block_index : Z) (buffer : mem) : option mem :=
  let '(buffer, n) := read_callback d (block_lba fs block_index) buffer (Z.shiftl 1 (block_size_shift fs)) in
  if n =? Z.shiftl 1 (block_size_shift fs) then Some buffer else None.

Definition block_write (fs : kfs2_filesystem_t) (d : D) (block_index : Z) (buffer : mem) : option D :=
  let '(d, n) := write_callback d (block_lba fs block_index) buffer (Z.shiftl 1 (block_size_shift fs)) in
  if n =? Z.shiftl 1 (block_size_shift fs) then Some d else None.

Definition KFS2_INODE_GET_BLOCK_INDEX (inode : Z) : Z := inode / (KFS2_BLOCK_SIZE / sizeof_node).
Definition KFS2_INODE_GET_NODE_INDEX (inode : Z) : Z := inode mod (KFS2_BLOCK_SIZE / sizeof_node).

Definition inode_block (fs : kfs2_filesystem_t) (inode : Z) : Z :=
  u64 (first_inode_block (root_block fs) + KFS2_INODE_GET_BLOCK_INDEX inode).

Definition kfs2_io_inode_read (fs : kfs2_filesystem_t) (d : D) (inode : Z) : option kfs2_node_t :=
  buffer ← block_read fs d (inode_block fs inode) (alloc_callback d);
  let node := KFS2_INODE_GET_NODE_INDEX inode * sizeof_node in
  if kfs2_verify_crc buffer node sizeof_node then Some (set_inode (fun i => buffer (node + i)) inode) else None.

Definition kfs2_io_inode_write (fs : kfs2_filesystem_t) (d : D) (node : kfs2_node_t) : option D :=
  buffer ← block_read fs d (inode_block fs (n_inode node)) (alloc_callback d);
  let tmp_node := KFS2_INODE_GET_NODE_INDEX (n_inode node) * sizeof_node in
  let buffer := mem_write buffer tmp_node (mem_read node 0 sizeof_node) in
  let buffer := kfs2_insert_crc buffer tmp_node sizeof_node in
  block_write fs d (inode_block fs (n_inode node)) buffer.

Definition data_block (fs : kfs2_filesystem_t) (block_index : Z) : Z := u64 (first_data_block (root_block fs) + block_index).

Definition kfs2_io_data_block_read (fs : kfs2_filesystem_t) (d : D) (block_index : Z) (buffer : mem) : option mem :=
  block_read fs d (data_block fs block_index) buffer.

Definition kfs2_io_data_block_write (fs : kfs2_filesystem_t) (d : D) (block_index : Z) (buffer : mem) : option D :=
  block_write fs d (data_block fs block_index) buffer.
End io.

(** ** A working device *)

Class DeviceLaws (D : Type) `{BlockDevice D} (block_size end_lba : Z) := {
  content : D -> mem;
  content_bytes d : byte_mem (content d);
  page_bytes d : byte_mem (alloc_callback d);
  read_ok d lba buffer count : 0 <= lba -> 0 <= count -> lba + count <= end_lba ->
    exists buffer', read_callback d lba buffer count = (buffer', count) /\
      forall i, buffer' i = if (0 <=? i) && (i <? count * block_size) then content d (lba * block_size + i) else buffer i;
  write_ok' d lba buffer count : byte_mem buffer -> 0 <= lba -> 0 <= count -> lba + count <= end_lba ->
    exists d', write_callback d lba buffer count = (d', count) /\
      forall i, content d' i = if (lba * block_size <=? i) && (i <? (lba + count) * block_size) then buffer (i - lba * block_size) else content d i
}.

Section laws.
Context {D : Type} `{BlockDevice D} {block_size end_lba : Z} `{!DeviceLaws D block_size end_lba}.

(** The file system lies on the device, as [blocks] blocks of 4096 bytes. *)
Record placed (fs : kfs2_filesystem_t) (blocks : Z) : Prop := {
  p_size : 0 < block_size /\ block_size * 2 ^ block_size_shift fs = KFS2_BLOCK_SIZE;
  p_shift : 0 <= block_size_shift fs;
  p_start : 0 <= config_start_lba fs;
  p_end : config_start_lba fs + blocks * 2 ^ block_size_shift fs <= end_lba /\ end_lba < 2 ^ 64
}.

(** The bytes of the file system. *)
Definition image (fs : kfs2_filesystem_t) (d : D) : mem := fun a => content d (config_start_lba fs * block_size + a).

Lemma image_bytes fs d : byte_mem (image fs d).
Proof. intros i. apply content_bytes. Qed.

Lemma block_lba_ok fs blocks i : placed fs blocks -> 0 <= i < blocks ->
  block_lba fs i = config_start_lba fs + i * 2 ^ block_size_shift fs /\ block_lba fs i + 2 ^ block_size_shift fs <= end_lba /\
  0 <= block_lba fs i /\ block_lba fs i * block_size = config_start_lba fs * block_size + KFS2_BLOCK_SIZE * i.
Proof.
  intros [[Hs E] Hh H0 [He Hl]] Hi. unfold block_lba. rewrite Z.shiftl_mul_pow2 by done.
  assert (0 < 2 ^ block_size_shift fs) by lia. assert (i * 2 ^ block_size_shift fs + 2 ^ block_size_shift fs <= blocks * 2 ^ block_size_shift fs) by nia.
  rewrite (u64_id (i * _)) by nia. rewrite u64_id by nia. nia.
Qed.

Lemma block_read_ok fs blocks d i buffer : placed fs blocks -> 0 <= i < blocks -> exists buffer', block_read fs d i buffer = Some buffer' /\
  forall a, buffer' a = if (0 <=? a) && (a <? KFS2_BLOCK_SIZE) then image fs d (KFS2_BLOCK_SIZE * i + a) else buffer a.
Proof.
  intros HP Hi. destruct (block_lba_ok _ _ _ HP Hi) as (_ & H2 & H3 & H4). destruct HP as [[Hs E] Hh H0 He].
  unfold block_read. rewrite Z.shiftl_1_l. destruct (read_ok d (block_lba fs i) buffer (2 ^ block_size_shift fs)) as (b' & -> & Hb); [lia | lia | lia |].
  rewrite Z.eqb_refl. exists b'. split; [done|]. intros a. rewrite Hb, H4. rewrite Z.mul_comm, E. unfold image.
  replace (config_start_lba fs * block_size + KFS2_BLOCK_SIZE * i + a) with (config_start_lba fs * block_size + (KFS2_BLOCK_SIZE * i + a)) by lia. done.
Qed.

Lemma block_write_ok fs blocks d i buffer : placed fs blocks -> 0 <= i < blocks -> byte_mem buffer -> exists d', block_write fs d i buffer = Some d' /\
  forall a, image fs d' a = if (KFS2_BLOCK_SIZE * i <=? a) && (a <? KFS2_BLOCK_SIZE * i + KFS2_BLOCK_SIZE) then buffer (a - KFS2_BLOCK_SIZE * i) else image fs d a.
Proof.
  intros HP Hi Hb. destruct (block_lba_ok _ _ _ HP Hi) as (_ & H2 & H3 & H4). destruct HP as [[Hs E] Hh H0 He].
  unfold block_write. rewrite Z.shiftl_1_l. destruct (write_ok' d (block_lba fs i) buffer (2 ^ block_size_shift fs)) as (d' & -> & Hd); [done | lia | lia | lia |].
  rewrite Z.eqb_refl. exists d'. split; [done|]. intros a. unfold image. rewrite Hd, Z.mul_add_distr_r, H4, (Z.mul_comm (2 ^ _)), E.
  replace (config_start_lba fs * block_size + a - (config_start_lba fs * block_size + KFS2_BLOCK_SIZE * i)) with (a - KFS2_BLOCK_SIZE * i) by lia.
  repeat match goal with |- context [?x <=? ?y] => destruct (Z.leb_spec x y) | |- context [?x <? ?y] => destruct (Z.ltb_spec x y) end; cbn; try lia; done.
Qed.

(** ** Nodes on the device *)

(** Where the node [inode] is stored. *)
Definition node_at (fs : kfs2_filesystem_t) (inode : Z) : Z := KFS2_BLOCK_SIZE * first_inode_block (root_block fs) + sizeof_node * inode.

Definition has_node (fs : kfs2_filesystem_t) (blocks inode : Z) : Prop :=
  0 <= first_inode_block (root_block fs) /\ 0 <= inode < 2 ^ 32 /\ first_inode_block (root_block fs) + inode / 32 < blocks /\ blocks < 2 ^ 64.

Lemma inode_block_ok fs blocks inode : has_node fs blocks inode ->
  0 <= inode_block fs inode < blocks /\ 0 <= KFS2_INODE_GET_NODE_INDEX inode < 32 /\
  node_at fs inode = KFS2_BLOCK_SIZE * inode_block fs inode + KFS2_INODE_GET_NODE_INDEX inode * sizeof_node.
Proof.
  intros (H1 & H2 & H3 & H4). unfold inode_block, KFS2_INODE_GET_BLOCK_INDEX, KFS2_INODE_GET_NODE_INDEX, node_at, KFS2_BLOCK_SIZE, sizeof_node.
  change (4096 / 128) with 32. assert (0 <= inode / 32) by (apply Z.div_pos; lia). rewrite u64_id by lia.
  pose proof (Z.div_mod inode 32). pose proof (Z.mod_pos_bound inode 32). lia.
Qed.

(** The new image: the node with its checksum, in its place. *)
Definition with_node (m : mem) (at_ : Z) (node : kfs2_node_t) : mem := kfs2_insert_crc (mem_write m at_ (mem_read node 0 sizeof_node)) at_ sizeof_node.

(** Inside of the node, the memory around it does not matter. *)
Lemma with_node_local m m' a a' node i j : i - a = j - a' -> 0 <= i - a < sizeof_node -> with_node m a node i = with_node m' a' node j.
Proof.
  intros E Hi. unfold with_node, kfs2_insert_crc, store, sizeof_node in *.
  assert (Hw : forall x y, x - a = y - a' -> 0 <= x - a < 128 -> mem_write m a (mem_read node 0 128) x = mem_write m' a' (mem_read node 0 128) y).
  { intros x y Exy Hx. unfold mem_write. rewrite !length_mem_read. acases. f_equal. lia. }
  rewrite (mem_read_ext _ (mem_write m' a' (mem_read node 0 128)) a a') by (intros; apply Hw; lia).
  unfold mem_write at 1 4. rewrite !length_le_bytes. acases; first [f_equal; lia | apply Hw; lia].
Qed.

Lemma with_node_out m a node i : i < a \/ a + sizeof_node <= i -> with_node m a node i = m i.
Proof.
  intros Hi. unfold with_node, kfs2_insert_crc. unfold sizeof_node in *. rewrite store_out by lia. apply mem_write_out. rewrite length_mem_read. lia.
Qed.

Lemma with_node_in m a node i : 0 <= i < 124 -> with_node m a node (a + i) = node i.
Proof.
  intros Hi. unfold with_node, kfs2_insert_crc, sizeof_node. rewrite store_out by lia.
  replace (a + i) with (a + Z.of_nat (Z.to_nat i)) by lia. rewrite (mem_write_in _ _ _ _ (node i)); [done|].
  rewrite lookup_mem_read. destruct (Z.ltb_spec (Z.of_nat (Z.to_nat i)) 128); [| lia]. do 2 f_equal. lia.
Qed.

Lemma mem_write_bytes b off l : byte_mem b -> bytes l -> byte_mem (mem_write b off l).
Proof.
  intros Hb Hl i. unfold mem_write. destruct ((off <=? i) && (i <? off + Z.of_nat (length l))); [by apply bytes_nth | apply Hb].
Qed.

Lemma with_node_bytes m a node : byte_mem m -> byte_mem node -> byte_mem (with_node m a node).
Proof. intros Hm Hn. apply store_byte_mem, mem_write_bytes; [done | by apply bytes_mem_read]. Qed.

Lemma inode_write_ok fs blocks d node : placed fs blocks -> has_node fs blocks (n_inode node) -> byte_mem node ->
  exists d', kfs2_io_inode_write fs d node = Some d' /\ forall a, image fs d' a = with_node (image fs d) (node_at fs (n_inode node)) node a.
Proof.
  intros HP HN Hb. destruct (inode_block_ok _ _ _ HN) as (Hi & Hx & Ea). unfold kfs2_io_inode_write. set (ib := inode_block fs (n_inode node)) in *.
  destruct (block_read_ok fs blocks d ib (alloc_callback d) HP Hi) as (b & -> & Hr). cbn [mbind option_bind]. fold (with_node b (KFS2_INODE_GET_NODE_INDEX (n_inode node) * sizeof_node) node).
  set (tn := KFS2_INODE_GET_NODE_INDEX (n_inode node) * sizeof_node) in *.
  assert (Hbb : byte_mem b). { intros i. rewrite Hr. destruct ((0 <=? i) && (i <? KFS2_BLOCK_SIZE)); [apply image_bytes | apply page_bytes]. }
  destruct (block_write_ok fs blocks d ib (with_node b tn node) HP Hi (with_node_bytes _ _ _ Hbb Hb)) as (d' & -> & Hd). exists d'. split; [done|].
  intros a. rewrite Hd. unfold KFS2_BLOCK_SIZE, sizeof_node in *.
  destruct (Z.leb_spec (4096 * ib) a), (Z.ltb_spec a (4096 * ib + 4096)); cbn [andb]; try (rewrite with_node_out by (unfold sizeof_node; lia); done).
  destruct (decide (node_at fs (n_inode node) <= a < node_at fs (n_inode node) + 128)).
  - replace a with (4096 * ib + (a - 4096 * ib)) at 2 by lia. rewrite Ea.
    rewrite (with_node_local b (image fs d) tn (4096 * ib + tn) node (a - 4096 * ib) a); [f_equal; lia | lia | unfold sizeof_node; lia].
  - rewrite !with_node_out by (unfold sizeof_node; lia). rewrite Hr. destruct (Z.leb_spec 0 (a - 4096 * ib)), (Z.ltb_spec (a - 4096 * ib) 4096); try lia. cbn. f_equal. lia.
Qed.

(** Equal as nodes: on the 128 bytes of the structure. *)
Definition same_node (m n : kfs2_node_t) : Prop := forall i, 0 <= i < sizeof_node -> m i = n i.

Lemma inode_read_ok fs blocks d inode : placed fs blocks -> has_node fs blocks inode -> exists n,
  kfs2_io_inode_read fs d inode = (if kfs2_verify_crc (image fs d) (node_at fs inode) sizeof_node then Some n else None) /\
  same_node n (set_inode (fun i => image fs d (node_at fs inode + i)) inode).
Proof.
  intros HP HN. destruct (inode_block_ok _ _ _ HN) as (Hi & Hx & Ea). unfold kfs2_io_inode_read. set (ib := inode_block fs inode) in *.
  destruct (block_read_ok fs blocks d ib (alloc_callback d) HP Hi) as (b & -> & Hr). cbn [mbind option_bind].
  set (tn := KFS2_INODE_GET_NODE_INDEX inode * sizeof_node) in *. unfold KFS2_BLOCK_SIZE in *.
  assert (Hs : forall i, 0 <= i < sizeof_node -> b (tn + i) = image fs d (node_at fs inode + i)).
  { intros i Hs. rewrite Hr. unfold sizeof_node in *. acases. f_equal. lia. }
  eexists. rewrite (verify_ext b tn (image fs d) (node_at fs inode)) by (done || unfold sizeof_node; lia). split; [done|].
  intros i Hi'. unfold set_inode, store, mem_write. rewrite length_le_bytes. acases; [done | by apply Hs | by apply Hs].
Qed.

Lemma set_inode_range n x : 0 <= x < 2 ^ 32 -> n_inode (set_inode n x) = x.
Proof. intros Hx. by apply (load_store 4). Qed.

Lemma node_at_apart fs i j : 0 <= i -> 0 <= j -> i <> j -> node_at fs i + sizeof_node <= node_at fs j \/ node_at fs j + sizeof_node <= node_at fs i.
Proof. unfold node_at, sizeof_node. lia. Qed.

Lemma inode_written_read fs blocks d d' node : placed fs blocks -> has_node fs blocks (n_inode node) -> byte_mem node ->
  (forall a, image fs d' a = with_node (image fs d) (node_at fs (n_inode node)) node a) ->
  exists node', kfs2_io_inode_read fs d' (n_inode node) = Some node' /\ same_node node' node.
Proof.
  intros HP HN Hb Hd. destruct (inode_read_ok fs blocks d' _ HP HN) as (n & -> & Hn). exists n.
  rewrite (verify_ext _ _ _ (node_at fs (n_inode node)) _ (fun i _ => Hd _)) by (unfold sizeof_node; lia).
  unfold with_node. rewrite verify_insert by (unfold sizeof_node; lia). split; [done|]. intros i Hi. rewrite Hn by done.
  unfold set_inode, n_inode. destruct (decide (i < 124)).
  - rewrite store_out by lia. rewrite Hd. apply with_node_in. lia.
  - rewrite <- (store_load 4 node 124 i Hb). unfold store, mem_write. rewrite length_le_bytes. unfold sizeof_node in *. acases. done.
Qed.

(** A node that is written to the device is read back byte for byte, with
    its number in place of the checksum; the other nodes, damaged ones
    included, are read as before, and nothing outside of the node's place on
    the device changes. *)
Theorem kfs2_inode_roundtrip fs blocks d node : placed fs blocks -> has_node fs blocks (n_inode node) -> byte_mem node ->
  exists d', kfs2_io_inode_write fs d node = Some d' /\
    (exists node', kfs2_io_inode_read fs d' (n_inode node) = Some node' /\ same_node node' node) /\
    (forall inode, has_node fs blocks inode -> inode <> n_inode node ->
      option_Forall2 same_node (kfs2_io_inode_read fs d' inode) (kfs2_io_inode_read fs d inode)) /\
    (forall a, a < node_at fs (n_inode node) \/ node_at fs (n_inode node) + sizeof_node <= a -> image fs d' a = image fs d a).
Proof.
  intros HP HN Hb. destruct (inode_write_ok fs blocks d node HP HN Hb) as (d' & -> & Hd). exists d'. split_and!; [done | | |].
  - by apply (inode_written_read fs blocks d).
  - intros inode HNi Hne. destruct (node_at_apart fs inode (n_inode node)) as [Ha | Ha]; [apply HNi | apply HN | done | |];
      (assert (Hk : forall i, 0 <= i < sizeof_node -> image fs d' (node_at fs inode + i) = image fs d (node_at fs inode + i)) by
        (intros i Hi; rewrite Hd; apply with_node_out; lia);
       destruct (inode_read_ok fs blocks d inode HP HNi) as (n & -> & Hn), (inode_read_ok fs blocks d' inode HP HNi) as (n' & -> & Hn');
       rewrite (verify_ext _ _ _ _ _ Hk) by (unfold sizeof_node; lia); destruct (kfs2_verify_crc _ _ _); constructor;
       intros i Hi; rewrite Hn, Hn' by done; unfold set_inode, store, mem_write; rewrite length_le_bytes; acases; [done | by apply Hk | by apply Hk]).
  - intros a Ha. rewrite Hd. by apply with_node_out.
Qed.
End laws.

(** ** A RAM disk *)

Module Ram.
(** Blocks of 4096 bytes; fresh pages hold what the disk holds at its start. *)
#[export] Instance ram_device : BlockDevice mem := {
  read_callback d lba buffer count := (mem_write buffer 0 (mem_read (fun i => d i mod 256) (lba * 4096) (count * 4096)), count);
  write_callback d lba buffer count := (mem_write d (lba * 4096) (mem_read buffer 0 (count * 4096)), count);
  alloc_callback d := fun i => d i mod 256
}.

Lemma ram_bytes (d : mem) : byte_mem (fun i => d i mod 256).
Proof. intros i. apply Z.mod_pos_bound. lia. Qed.

#[export, refine] Instance ram_laws : DeviceLaws mem 4096 100 := { content := fun (d : mem) i => d i mod 256; content_bytes := ram_bytes; page_bytes := ram_bytes }.
Proof.
  - intros d lba buffer count H1 H2 H3. eexists. split; [done|]. intros i. unfold mem_write. rewrite length_mem_read, Z2Nat.id, Z.add_0_l by lia.
    acases; [| done | done]. rewrite (nth_lookup_Some _ _ _ (d (lba * 4096 + i) mod 256)); [done|].
    rewrite lookup_mem_read. acases. do 3 f_equal. lia.
  - intros d lba buffer count Hb H1 H2 H3. eexists. split; [done|]. intros i. unfold mem_write. rewrite length_mem_read, Z2Nat.id by lia.
    replace ((lba + count) * 4096) with (lba * 4096 + count * 4096) by lia. acases; [| done | done].
    rewrite (nth_lookup_Some _ _ _ (buffer (i - lba * 4096))); [apply Z.mod_small, Hb|].
    rewrite lookup_mem_read. acases. do 2 f_equal. lia.
Defined.
End Ram.

(** A file system of 100 blocks, its nodes from block 1 on and its data from
    block 10 on. *)
Definition ram_root : kfs2_root_block_t := store 8 (store 8 (fun _ => 0) 112 1) 120 10.
Definition empty_disk : mem := fun _ => 0.
Definition ram_fs : kfs2_filesystem_t := Filesystem 4096 0 100 ram_root 0 (Bitmap 0 0 []) (Bitmap 0 0 []).

Import Ram.

Lemma ram_placed : placed (block_size := 4096) (end_lba := 100) ram_fs 100.
Proof. constructor; vm_compute; repeat split; congruence. Qed.

Lemma kfs2_inode_roundtrip_witness : exists d', kfs2_io_inode_write ram_fs empty_disk (set_inode (fun _ => 7) 5) = Some d' /\
  exists node', kfs2_io_inode_read ram_fs d' 5 = Some node' /\ same_node node' (set_inode (fun _ => 7) 5).
Proof.
  destruct (kfs2_inode_roundtrip ram_fs 100 empty_disk (set_inode (fun _ => 7) 5)) as (d' & H1 & H2 & _).
  - exact ram_placed.
  - repeat split; vm_compute; congruence.
  - apply store_byte_mem. intros i. lia.
  - exists d'. split; [exact H1 | exact H2].
Defined.
