(* ===== verification/Kfs2Levels.v ===== *)
(** * Hierarchical bitmaps
    The words of all levels, as a function, against the set of free items: a bit
    is set exactly if an item below it is free.  The steps of an allocation and
    of a deallocation, a level at a time. *)
From stdpp Require Import base tactics list numbers.
From Stdlib Require Import ZArith Lia.
From S2P Require Import Prelude.
#[local] Open Scope Z_scope.

Section levels.
(** The number of levels, and word [j] of level [k]. *)
Context (n : nat).
Implicit Types (w : nat -> Z -> Z) (F : Z -> Prop).

(** The bit of item [y] of level [k], and the item of level [k] above [x]. *)
Definition bit w (k : nat) (y : Z) : bool := Z.testbit (w k (y / 64)) (y mod 64).
Definition above (k : nat) (x : Z) : Z := x / 64 ^ Z.of_nat k.

Lemma above_0 x : above 0 x = x.
Proof. unfold above. apply Z.div_1_r. Qed.

Lemma pow64_pos k : 0 < 64 ^ Z.of_nat k.
Proof. apply Z.pow_pos_nonneg; lia. Qed.

Lemma above_S k x : above (S k) x = above k x / 64.
Proof.
  unfold above. replace (64 ^ Z.of_nat (S k)) with (64 ^ Z.of_nat k * 64) by (rewrite Nat2Z.inj_succ, Z.pow_succ_r by lia; lia).
  rewrite Z.div_div by (pose proof (pow64_pos k); lia). done.
Qed.

Lemma above_mono k x y : x <= y -> above k x <= above k y.
Proof. intros Hl. apply Z.div_le_mono; [apply pow64_pos | done]. Qed.

Lemma above_pos k x : 0 <= x -> 0 <= above k x.
Proof. intros Hx. apply Z.div_pos; [done | apply pow64_pos]. Qed.

Lemma above_le k m x y : (k <= m)%nat -> above k x = above k y -> above m x = above m y.
Proof. intros Hl E. induction Hl as [| m Hl IH]; [done|]. by rewrite !above_S, IH. Qed.

Lemma above_decr k m x : 0 <= x -> (k <= m)%nat -> above m x <= above k x.
Proof.
  intros Hx Hl. induction Hl as [| m Hl IH]; [done|]. etransitivity; [| exact IH]. rewrite above_S.
  pose proof (above_pos m x Hx). apply Z.div_le_upper_bound; lia.
Qed.

(** Words of 64 bits. *)
Definition words_ok w : Prop := forall k j, 0 <= w k j < 2 ^ 64.

(** Level [k] says which of its items have a free item below. *)
Definition level_ok w F (k : nat) : Prop := forall y, 0 <= y -> bit w k y = true <-> exists x, 0 <= x /\ F x /\ above k x = y.

Definition represents w F : Prop := words_ok w /\ forall k, (k < n)%nat -> level_ok w F k.

Lemma divmod_64 j b : 0 <= b < 64 -> (64 * j + b) / 64 = j /\ (64 * j + b) mod 64 = b.
Proof. intros Hb. rewrite (Z.mul_comm 64), Z.add_comm, Z.div_add, Z.mod_add, Z.div_small, Z.mod_small by lia. lia. Qed.

Lemma word_bit w k j b : 0 <= b < 64 -> Z.testbit (w k j) b = bit w k (64 * j + b).
Proof. intros Hb. unfold bit. by destruct (divmod_64 j b Hb) as [-> ->]. Qed.

(** A word is not zero if an item below one of its bits is free. *)
Lemma nonzero_word w F k j : words_ok w -> level_ok w F k -> 0 <= j -> w k j <> 0 <-> exists x, 0 <= x /\ F x /\ above (S k) x = j.
Proof.
  intros Hw HL Hj. split.
  - intros Hne. pose proof (Hw k j). destruct (ctz_spec (w k j) ltac:(lia)) as (H0 & H1 & _).
    assert (ctz (w k j) < 64). { destruct (Z.ltb_spec (ctz (w k j)) 64); [done|]. rewrite (word_high 64) in H1 by done. done. }
    rewrite word_bit in H1 by lia. apply HL in H1 as (x & Hx & HF & E); [| lia]. exists x. split_and!; [done | done |].
    rewrite above_S, E. by apply divmod_64.
  - intros (x & Hx & HF & E) Hz. rewrite above_S in E. pose proof (above_pos k x Hx) as Hp.
    assert (bit w k (above k x) = true) as Hb by (apply HL; eauto). unfold bit in Hb. rewrite E, Hz, Z.bits_0 in Hb. done.
Qed.

(** *** Down to the first free item *)

Fixpoint down w (i : nat) (out : Z) : Z := match i with O => out | S i => down w i (64 * out + ctz (w i out)) end.

(** [x] is below the lowest set bit of a word that is not zero, on levels below [i]. *)
Definition lowest_path w (i : nat) (x : Z) : Prop :=
  forall k, (k < i)%nat -> w k (above (S k) x) <> 0 /\ ctz (w k (above (S k) x)) = above k x mod 64.

Lemma ctz_range w k j : words_ok w -> w k j <> 0 -> 0 <= ctz (w k j) < 64 /\ Z.testbit (w k j) (ctz (w k j)) = true.
Proof.
  intros Hw Hne. pose proof (Hw k j). destruct (ctz_spec (w k j) ltac:(lia)) as (H0 & H1 & _). split; [| done]. split; [done|].
  destruct (Z.ltb_spec (ctz (w k j)) 64); [done|]. rewrite (word_high 64) in H1 by done. done.
Qed.

Lemma down_spec w F : represents w F -> forall i out, (i <= n)%nat -> 0 <= out ->
  match i with O => F out | S k => w k out <> 0 end ->
  let x := down w i out in 0 <= x /\ above i x = out /\ F x /\ lowest_path w i x /\ forall y, 0 <= y -> F y -> above i y = out -> x <= y.
Proof.
  intros [Hw HL]. induction i as [| i IH]; intros out Hi Ho Hne; cbn [down].
  - rewrite above_0. split_and!; [done | done | done | intros k Hk; lia |]. intros y _ _ E. rewrite above_0 in E. lia.
  - destruct (ctz_range w i out Hw Hne) as [Hc Hbt]. set (o := 64 * out + ctz (w i out)) in *. destruct (divmod_64 out (ctz (w i out)) Hc) as [Eq Em].
    fold o in Eq, Em. rewrite word_bit in Hbt by done. fold o in Hbt. apply HL in Hbt as Hex; [| lia | lia].
    destruct (IH o ltac:(lia) ltac:(lia)) as (H1 & H2 & H3 & H4 & H5).
    { destruct i as [| k]; [destruct Hex as (x & _ & HF & E); by rewrite above_0 in E; subst x|]. apply (nonzero_word w F); [done | apply HL; lia | lia | done]. }
    set (x := down w i o) in *. assert (Ea : above (S i) x = out) by (by rewrite above_S, H2). split_and!; [done | done | done | |].
    + intros k Hk. destruct (decide (k = i)) as [-> |]; [| apply H4; lia]. rewrite Ea, H2. split; [done | by rewrite Em].
    + intros y Hy HFy Ey. rewrite above_S in Ey. destruct (Z.lt_trichotomy (above i y) o) as [Hlt | [Heq | Hgt]].
      * exfalso. assert (Hb : bit w i (above i y) = true) by (apply HL; [lia | by apply above_pos | eauto]). unfold bit in Hb. rewrite Ey in Hb.
        destruct (ctz_spec (w i out)) as (_ & _ & Hmin); [pose proof (Hw i out); lia|]. rewrite Hmin in Hb; [done|].
        pose proof (Z.div_mod (above i y) 64). pose proof (Z.mod_pos_bound (above i y) 64). lia.
      * by apply H5.
      * destruct (Z.le_gt_cases x y) as [| Hgt']; [done|]. assert (above i y <= above i x) by (apply above_mono; lia). lia.
Qed.

(** *** Taking an item *)

Definition without F (x : Z) : Z -> Prop := fun y => F y /\ y <> x.
Definition with_item F (x : Z) : Z -> Prop := fun y => F y \/ y = x.

(** Only word [j] of level [k] differs, and is [v]. *)
Definition changed w w' (k : nat) (j v : Z) : Prop := forall k' j', w' k' j' = if decide (k' = k /\ j' = j) then v else w k' j'.

Lemma changed_ok w w' k j v : words_ok w -> changed w w' k j v -> 0 <= v < 2 ^ 64 -> words_ok w'.
Proof. intros Hw Hc Hv k' j'. rewrite Hc. destruct (decide _); [done | apply Hw]. Qed.

(** Before level [k] is done: the levels below know that [x] is taken, and no
    other item below its item of level [k] is free. *)
Record taking w F (x : Z) (k : nat) : Prop := {
  tk_words : words_ok w;
  tk_low : forall k', (k' < k)%nat -> level_ok w (without F x) k';
  tk_high : forall k', (k <= k' < n)%nat -> level_ok w F k' /\ w k' (above (S k') x) <> 0 /\ ctz (w k' (above (S k') x)) = above k' x mod 64;
  tk_alone : forall z, 0 <= z -> F z -> above k z = above k x -> z = x
}.

Lemma taking_start w F x : represents w F -> lowest_path w n x -> taking w F x 0.
Proof.
  intros [Hw HL] HP. split; [done | lia | intros k Hk; split; [apply HL; lia | apply HP; lia] |]. intros z _ _ E. by rewrite !above_0 in E.
Qed.

Lemma bit_changed w w' k j v y k' : changed w w' k j v -> bit w' k' y = if decide (k' = k /\ y / 64 = j) then Z.testbit v (y mod 64) else bit w k' y.
Proof. intros Hc. unfold bit. rewrite Hc. by destruct (decide _). Qed.

Lemma level_same w w' k j v F k' : changed w w' k j v -> k' <> k -> level_ok w F k' -> level_ok w' F k'.
Proof. intros Hc Hne HL y Hy. rewrite (bit_changed _ _ _ _ _ _ _ Hc), decide_False by tauto. by apply HL. Qed.

(** One level of an allocation. *)
Lemma taking_step w w' F x k : 0 <= x -> taking w F x k -> (k < n)%nat ->
  let j := above (S k) x in let v := Z.land (w k j) (u64 (w k j - 1)) in changed w w' k j v ->
  if v =? 0 then taking w' F x (S k) else represents w' (without F x).
Proof.
  intros Hx [Hw Hlow Hhigh Hal] Hk j v Hc. destruct (Hhigh k ltac:(lia)) as (HLk & Hne & Hctz). fold j in Hne, Hctz.
  destruct (clear_lowest (w k j)) as [Hv Hbits]; [pose proof (Hw k j); lia|]. fold v in Hv, Hbits.
  pose proof (above_pos k x Hx) as Hpk. pose proof (changed_ok _ _ _ _ _ Hw Hc Hv) as Hw'.
  assert (Hdone : level_ok w' (without F x) k).
  { intros y Hy. rewrite (bit_changed _ _ _ _ _ _ _ Hc). pose proof (Z.mod_pos_bound y 64 ltac:(lia)) as Hm. destruct (decide (k = k /\ y / 64 = j)) as [[_ Ey] | Hn].
    - rewrite Hbits by lia. rewrite Hctz, andb_true_iff, negb_true_iff, Z.eqb_neq. rewrite <- Ey. fold (bit w k y). rewrite (HLk y Hy).
      unfold j in Ey. rewrite above_S in Ey. pose proof (Z.div_mod y 64). pose proof (Z.div_mod (above k x) 64). split.
      + intros [(z & Hz & HF & E) Hd]. exists z. split_and!; [done | split; [done|] | done]. intros ->. subst y. done.
      + intros (z & Hz & [HF Hzx] & E). split; [eauto|]. intros Em. apply Hzx, Hal; [done | done |]. lia.
    - rewrite (HLk y Hy). split; [| intros (z & Hz & [HF _] & E); eauto]. intros (z & Hz & HF & E). exists z. split_and!; [done | split; [done|] | done].
      intros ->. apply Hn. split; [done|]. rewrite <- E. symmetry. apply above_S. }
  assert (Hlow' : forall k', (k' < S k)%nat -> level_ok w' (without F x) k').
  { intros k' Hk'. destruct (decide (k' = k)) as [-> |]; [done|]. eapply level_same; [done | done | apply Hlow; lia]. }
  destruct (Z.eqb_spec v 0) as [Hz | Hnz].
  - split; [done | done | |].
    + intros k' Hk'. destruct (Hhigh k' ltac:(lia)) as (H1 & H2 & H3). rewrite !(Hc k'), !decide_False by lia. split; [| done].
      eapply level_same; [done | lia | done].
    + intros z Hz' HF E. destruct (decide (z = x)); [done|]. exfalso.
      assert (w' k j <> 0) as Hw0 by (apply (nonzero_word w' (without F x)); [done | done | unfold j; by apply above_pos | exists z; done]).
      rewrite Hc, decide_True in Hw0 by done. done.
  - split; [done|]. intros k' Hk'. destruct (decide (k' <= k)%nat); [apply Hlow'; lia|].
    assert (w' k j <> 0) as Hw0 by (by rewrite Hc, decide_True). apply (nonzero_word w' (without F x)) in Hw0 as (z & Hz & HFz & Ez); [| done | done | by apply above_pos].
    intros y Hy. destruct (Hhigh k' ltac:(lia)) as (HL' & _ & _). rewrite (bit_changed _ _ _ _ _ _ _ Hc), decide_False by lia. rewrite (HL' y Hy).
    split; [| intros (z' & Hz' & [HF _] & E); eauto]. intros (z' & Hz' & HF & E). destruct (decide (z' = x)) as [-> |]; [| by exists z'].
    exists z. split_and!; [done | done |]. rewrite <- E. apply (above_le (S k)); [lia | done].
Qed.

Lemma taking_end w F x : 0 <= x -> taking w F x n -> (0 < n)%nat -> represents w (without F x) /\ w (pred n) (above n x) = 0.
Proof.
  intros Hx [Hw Hlow _ Hal] Hn. split; [split; [done | exact Hlow]|].
  destruct (decide (w (pred n) (above n x) = 0)) as [| Hne]; [done|]. exfalso.
  apply (nonzero_word w (without F x)) in Hne as (z & Hz & [HF Hzx] & E); [| done | apply Hlow; lia | by apply above_pos].
  replace (S (pred n)) with n in E by lia. by apply Hzx, Hal.
Qed.

(** *** Giving an item back *)

Record giving w F (x : Z) (k : nat) : Prop := {
  gv_words : words_ok w;
  gv_low : forall k', (k' < k)%nat -> level_ok w (with_item F x) k';
  gv_high : forall k', (k <= k' < n)%nat -> level_ok w F k'
}.

Lemma giving_stop w F x k : 0 <= x -> giving w F x k -> (k < n)%nat -> bit w k (above k x) = true -> represents w (with_item F x).
Proof.
  intros Hx [Hw Hlow Hhigh] Hk Hb. apply (Hhigh k) in Hb as (z & Hz & HFz & Ez); [| lia | by apply above_pos].
  split; [done|]. intros k' Hk'. destruct (decide (k' < k)%nat); [by apply Hlow|]. intros y Hy. rewrite (Hhigh k' ltac:(lia) y Hy). split.
  - intros (z' & Hz' & HF & E). exists z'. split_and!; [done | by left | done].
  - intros (z' & Hz' & [HF | ->] & E); [eauto|]. exists z. split_and!; [done | done |]. rewrite <- E. apply (above_le k); [lia | done].
Qed.

Lemma giving_step w w' F x k : 0 <= x -> giving w F x k -> (k < n)%nat ->
  let j := above (S k) x in changed w w' k j (Z.lor (w k j) (Z.shiftl 1 (above k x mod 64))) -> giving w' F x (S k).
Proof.
  intros Hx [Hw Hlow Hhigh] Hk j Hc. pose proof (Z.mod_pos_bound (above k x) 64 ltac:(lia)) as Hm.
  assert (Hv : 0 <= Z.lor (w k j) (Z.shiftl 1 (above k x mod 64)) < 2 ^ 64).
  { apply width_of_bits; [lia|]. intros i Hi. rewrite Z.lor_spec, (word_high 64) by (done || apply Hw). rewrite Z.shiftl_1_l, Z.pow2_bits_false by lia. done. }
  split; [by eapply changed_ok | |].
  - intros k' Hk'. destruct (decide (k' = k)) as [-> |]; [| eapply level_same; [done | done | apply Hlow; lia]].
    intros y Hy. rewrite (bit_changed _ _ _ _ _ _ _ Hc). pose proof (Z.mod_pos_bound y 64 ltac:(lia)). pose proof (Z.div_mod y 64). pose proof (Z.div_mod (above k x) 64).
    assert (HLk := Hhigh k ltac:(lia) y Hy). destruct (decide (k = k /\ y / 64 = j)) as [[_ Ey] | Hn].
    + rewrite Z.lor_spec, Z.shiftl_1_l, Z.pow2_bits_eqb, orb_true_iff, Z.eqb_eq by lia. rewrite <- Ey. fold (bit w k y). rewrite HLk. unfold j in Ey. rewrite above_S in Ey. split.
      * intros [(z & Hz & HF & E) | E]; [exists z; split_and!; [done | by left | done]|]. exists x. split_and!; [done | by right | lia].
      * intros (z & Hz & [HF | ->] & E); [left; eauto | right; by rewrite E].
    + rewrite HLk. split; [intros (z & Hz & HF & E); exists z; split_and!; [done | by left | done]|].
      intros (z & Hz & [HF | ->] & E); [eauto|]. exfalso. apply Hn. split; [done|]. rewrite <- E. symmetry. apply above_S.
  - intros k' Hk'. eapply level_same; [done | lia | apply Hhigh; lia].
Qed.
End levels.
