(* ===== verification/Kfs2Bitmap.v ===== *)
(** * KFS2: allocation bitmaps ([src/src/common/kfs2/bitmap.c])

    Free blocks and nodes are the set bits of the words of level 0; a bit of the
    next level says that a word below is not zero, up to the words of the highest
    level, which are searched in order.  Each level has one block in memory that
    is written through.  A pointer [ptr] into the block of a level is the index
    of its word.  [None] is a panic. *)
From stdpp Require Import base tactics list numbers option.
From Stdlib Require Import ZArith Lia.
From S2P Require Import Prelude Bytes Store Kfs2Crc Kfs2Io.
#[local] Open Scope Z_scope.

(** [__builtin_ffsll(x)-1] *)
Definition ffs_1 (x : Z) : Z := if x =? 0 then -1 else ctz x.

Definition set_entry (a : kfs2_bitmap_t) (level : nat) (e : kfs2_bitmap_cache_entry_t) : kfs2_bitmap_t :=
  Bitmap (highest_level_length a) (highest_level_offset a) (<[level := e]> (cache a)).

Definition set_highest_level_offset (a : kfs2_bitmap_t) (x : Z) : kfs2_bitmap_t := Bitmap (highest_level_length a) x (cache a).

(** [*ptr], in the block of a level. *)
Definition get_word (a : kfs2_bitmap_t) (level : nat) (ptr : Z) : option Z :=
  e ← cache a !! level; Some (load 8 (c_data e) (8 * ptr)).

Definition set_word (a : kfs2_bitmap_t) (level : nat) (ptr x : Z) : option kfs2_bitmap_t :=
  e ← cache a !! level; Some (set_entry a level (Cache (c_offset e) (c_block_index e) (store 8 (c_data e) (8 * ptr) x))).

Section bitmap.
Context {D : Type} `{BlockDevice D} (fs : kfs2_filesystem_t).

Definition _store_data (d : D) (a : kfs2_bitmap_t) (level : nat) : option D :=
  e ← cache a !! level; block_write fs d (c_block_index e) (c_data e).

Definition _fetch_data (d : D) (a : kfs2_bitmap_t) (level : nat) (offset : Z) : option (kfs2_bitmap_t * Z) :=
  e ← cache a !! level;
  let block_index := u64 (c_offset e + u64 (offset * 8) / KFS2_BLOCK_SIZE) in
  a ← (if negb (c_block_index e =? block_index) then
         data ← block_read fs d block_index (c_data e);
         Some (set_entry a level (Cache (c_offset e) block_index data))
       else Some a);
  Some (a, Z.land offset (KFS2_BLOCK_SIZE / 8 - 1)).

(** [for (;offset<length&&!*_fetch_data(...);offset++)]; the fuel is the number
    of words that are left. *)
Fixpoint find_next (fuel : nat) (d : D) (a : kfs2_bitmap_t) : option kfs2_bitmap_t :=
  if highest_level_offset a <? highest_level_length a then
    '(a, ptr) ← _fetch_data d a (KFS2_BITMAP_LEVEL_COUNT - 1) (highest_level_offset a);
    x ← get_word a (KFS2_BITMAP_LEVEL_COUNT - 1) ptr;
    if z2b x then Some a
    else match fuel with
         | O => None
         | S fuel => find_next fuel d (set_highest_level_offset a (u32 (highest_level_offset a + 1)))
         end
  else Some a.

Definition _find_next_highest_level_offset (d : D) (a : kfs2_bitmap_t) : option kfs2_bitmap_t :=
  find_next (Z.to_nat (highest_level_length a - highest_level_offset a)) d a.

Definition kfs2_bitmap_init (d : D) (bitmap_offsets : nat -> Z) (length : Z) : option kfs2_bitmap_t :=
  _find_next_highest_level_offset d
    (Bitmap length 0 ((fun i => Cache (bitmap_offsets i) 0xffffffffffffffff (alloc_callback d)) <$> seq 0 KFS2_BITMAP_LEVEL_COUNT)).

(** From the highest level down to the free item; the pointers, lowest level
    first. *)
Fixpoint alloc_down (d : D) (a : kfs2_bitmap_t) (i : nat) (out : Z) (ptr : list Z) : option (kfs2_bitmap_t * Z * list Z) :=
  match i with
  | O => Some (a, out, ptr)
  | S i =>
    '(a, p) ← _fetch_data d a i out;
    x ← get_word a i p;
    alloc_down d a i (u64 (Z.lor (Z.shiftl out 6) (ffs_1 x))) (p :: ptr)
  end.

(** Back up while words become zero; [true]: [i==KFS2_BITMAP_LEVEL_COUNT]. *)
Fixpoint alloc_up (d : D) (a : kfs2_bitmap_t) (i : nat) (ptr : list Z) : option (D * kfs2_bitmap_t * bool) :=
  match ptr with
  | [] => Some (d, a, true)
  | p :: ptr =>
    x ← get_word a i p;
    let x := Z.land x (u64 (x - 1)) in
    a ← set_word a i p x;
    d ← _store_data d a i;
    if z2b x then Some (d, a, false) else alloc_up d a (S i) ptr
  end.

Definition kfs2_bitmap_alloc (d : D) (a : kfs2_bitmap_t) : option (D * kfs2_bitmap_t * Z) :=
  if highest_level_offset a =? highest_level_length a then Some (d, a, 0)
  else
    '(a, out, ptr) ← alloc_down d a KFS2_BITMAP_LEVEL_COUNT (highest_level_offset a) [];
    '(d, a, top) ← alloc_up d a 0 ptr;
    a ← (if top : bool then _find_next_highest_level_offset d (set_highest_level_offset a (u32 (highest_level_offset a + 1))) else Some a);
    Some (d, a, out).

(** [n] levels from [i] on. *)
Fixpoint dealloc_up (n : nat) (d : D) (a : kfs2_bitmap_t) (i : nat) (index : Z) : option (D * kfs2_bitmap_t * Z) :=
  match n with
  | O => Some (d, a, index)
  | S n =>
    let mask := Z.shiftl 1 (Z.land index 63) in
    let index := Z.shiftr index 6 in
    '(a, p) ← _fetch_data d a i index;
    x ← get_word a i p;
    if z2b (Z.land x mask) then Some (d, a, index)
    else
      a ← set_word a i p (Z.lor x mask);
      d ← _store_data d a i;
      dealloc_up n d a (S i) index
  end.

Definition kfs2_bitmap_dealloc (d : D) (a : kfs2_bitmap_t) (index : Z) : option (D * kfs2_bitmap_t) :=
  '(d, a, index) ← dealloc_up KFS2_BITMAP_LEVEL_COUNT d a 0 index;
  Some (d, if index <? highest_level_offset a then set_highest_level_offset a (u32 index) else a).
End bitmap.
