(* ===== verification/Kfs2BitmapSpec.v ===== *)
(** * KFS2: correctness of the allocation bitmaps
    The blocks in memory agree with the device, and the levels on the device
    represent the set of free items ([Kfs2Levels]); allocation and deallocation
    take an item out of the set and put it back. *)
From stdpp Require Import base tactics list numbers option gmap.
From Stdlib Require Import ZArith Lia.
From S2P Require Import Prelude Bytes Store Kfs2Crc Kfs2Io Kfs2Levels Kfs2Bitmap.
#[local] Open Scope Z_scope.

(** The number of blocks of [m] words. *)
Definition word_blocks (m : Z) : Z := (8 * m + 4095) / 4096.

(** The areas of the levels on the device: [len k] words from block [off k] on. *)
Record areas_ok (blocks : Z) (off len : nat -> Z) : Prop := {
  ar_off k : (k < 5)%nat -> 0 <= off k /\ off k + word_blocks (len k) <= blocks;
  ar_apart k k' : (k < 5)%nat -> (k' < 5)%nat -> k <> k' -> off k + word_blocks (len k) <= off k' \/ off k' + word_blocks (len k') <= off k;
  ar_len k : (k < 5)%nat -> 0 <= len k /\ 64 * len k < 2 ^ 64;
  ar_next k : (S k < 5)%nat -> len k <= 64 * len (S k);
  ar_top : len 4%nat < 2 ^ 32;
  ar_blocks : blocks < 2 ^ 64
}.

Section spec.
Context {D : Type} `{BlockDevice D} {block_size end_lba : Z} `{!DeviceLaws D block_size end_lba}.
Context (fs : kfs2_filesystem_t) (blocks : Z) (HP : placed (block_size := block_size) (end_lba := end_lba) fs blocks).
Context (off len : nat -> Z) (HA : areas_ok blocks off len).

Definition words (d : D) (k : nat) (j : Z) : Z :=
  if (0 <=? j) && (j <? len k) && (k <? 5)%nat then load 8 (image fs d) (4096 * off k + 8 * j) else 0.

(** A block in memory: not loaded yet, or as on the device. *)
Definition entry_ok (d : D) (k : nat) (e : kfs2_bitmap_cache_entry_t) : Prop :=
  c_offset e = off k /\ byte_mem (c_data e) /\
  (c_block_index e = 2 ^ 64 - 1 \/
   off k <= c_block_index e < off k + word_blocks (len k) /\ forall i, 0 <= i < 4096 -> c_data e i = image fs d (4096 * c_block_index e + i)).

Definition cache_ok (d : D) (a : kfs2_bitmap_t) : Prop := forall k, (k < 5)%nat -> exists e, cache a !! k = Some e /\ entry_ok d k e.

(** Word [j] of level [k] is in memory. *)
Definition cached (a : kfs2_bitmap_t) (k : nat) (j : Z) : Prop := exists e, cache a !! k = Some e /\ c_block_index e = off k + j / 512.

Lemma block_of_word k j : (k < 5)%nat -> 0 <= j < len k -> off k <= off k + j / 512 < off k + word_blocks (len k) /\ off k + j / 512 < blocks /\ 0 <= off k.
Proof.
  intros Hk Hj. destruct (ar_off _ _ _ HA k Hk) as [H1 H2]. assert (0 <= j / 512) by (apply Z.div_pos; lia).
  assert (j / 512 < word_blocks (len k)); [| lia]. unfold word_blocks. Z.div_mod_to_equations. lia.
Qed.

Lemma word_place k j : 0 <= j -> 4096 * (off k + j / 512) + 8 * (j mod 512) = 4096 * off k + 8 * j.
Proof. intros Hj. pose proof (Z.div_mod j 512). lia. Qed.

Lemma words_ok_image d : words_ok (words d).
Proof. intros k j. unfold words. destruct (_ && _); [| lia]. apply (load_range 8), image_bytes. Qed.

Lemma words_eq d k j : (k < 5)%nat -> 0 <= j < len k -> words d k j = load 8 (image fs d) (4096 * off k + 8 * j).
Proof. intros Hk Hj. unfold words. acases. destruct (Nat.ltb_spec k 5); [done | lia]. Qed.

Lemma words_in d k j : words d k j <> 0 -> (k < 5)%nat /\ 0 <= j < len k.
Proof. unfold words. destruct (Z.leb_spec 0 j), (Z.ltb_spec j (len k)), (Nat.ltb_spec k 5); cbn; done || lia. Qed.

Lemma set_entry_lookup a k e k' : cache (set_entry a k e) !! k' = if decide (k' = k) then (fun _ => e) <$> cache a !! k else cache a !! k'.
Proof.
  cbn [set_entry cache]. destruct (decide (k' = k)) as [-> |]; [| by apply list_lookup_insert_ne].
  destruct (cache a !! k) as [e0 |] eqn:E; cbn.
  - apply list_lookup_insert_eq. apply lookup_lt_Some in E. done.
  - apply lookup_ge_None. rewrite length_insert. by apply lookup_ge_None.
Qed.

(** What stays when a level is fetched. *)
Definition keeps (a a' : kfs2_bitmap_t) : Prop := highest_level_length a' = highest_level_length a /\ highest_level_offset a' = highest_level_offset a.

Lemma fetch_ok d a k j : cache_ok d a -> (k < 5)%nat -> 0 <= j < len k -> exists a', _fetch_data fs d a k j = Some (a', j mod 512) /\
  cache_ok d a' /\ cached a' k j /\ keeps a a' /\ forall k', k' <> k -> cache a' !! k' = cache a !! k'.
Proof.
  intros Hc Hk Hj. destruct (Hc k Hk) as (e & Ee & Eo & Hb & Hi). unfold _fetch_data. rewrite Ee. cbn [mbind option_bind].
  destruct (block_of_word k j Hk Hj) as (H1 & H2 & H0). destruct (ar_len _ _ _ HA k Hk) as [_ Hl]. pose proof (ar_blocks _ _ _ HA) as Hbl. unfold KFS2_BLOCK_SIZE.
  assert (u64 (c_offset e + u64 (j * 8) / 4096) = off k + j / 512) as ->.
  { rewrite Eo, (u64_id (j * 8)) by lia. assert (j * 8 / 4096 = j / 512) as -> by (rewrite (Z.mul_comm j), <- (Z.div_mul_cancel_l j 512 8) by lia; done). apply u64_id. lia. }
  assert (Z.land j (4096 / 8 - 1) = j mod 512) as -> by (change (4096 / 8 - 1) with (Z.ones 9); by apply Z.land_ones).
  destruct (Z.eqb_spec (c_block_index e) (off k + j / 512)) as [Eb | Hne]; cbn [negb mbind option_bind].
  - exists a. split_and!; [done | done | by exists e | done | done].
  - destruct (block_read_ok fs blocks d (off k + j / 512) (c_data e) HP ltac:(lia)) as (b & -> & Hr). cbn [mbind option_bind].
    eexists. split; [done|]. unfold KFS2_BLOCK_SIZE in Hr. split_and!.
    + intros k' Hk'. rewrite set_entry_lookup. destruct (decide (k' = k)) as [-> |]; [| by apply Hc]. rewrite Ee. eexists. split; [done|].
      split_and!; cbn [c_offset c_data c_block_index]; [done | |].
      * intros i. rewrite Hr. destruct (_ && _); [apply image_bytes | apply Hb].
      * right. split; [lia|]. intros i Hi'. rewrite Hr. acases. done.
    + eexists. rewrite set_entry_lookup, decide_True, Ee by done. split; done.
    + done.
    + intros k' Hk'. by rewrite set_entry_lookup, decide_False.
Qed.

Lemma get_word_ok d a k j : cache_ok d a -> (k < 5)%nat -> 0 <= j < len k -> cached a k j -> get_word a k (j mod 512) = Some (words d k j).
Proof.
  intros Hc Hk Hj (e & Ee & Eb). unfold get_word. rewrite Ee. cbn [mbind option_bind]. f_equal. rewrite words_eq by done.
  destruct (Hc k Hk) as (e' & Ee' & _ & _ & Hi). rewrite Ee in Ee'. injection Ee' as <-. destruct (block_of_word k j Hk Hj) as (H1 & H2 & H0).
  pose proof (ar_blocks _ _ _ HA). destruct Hi as [Hi | [_ Hi]]; [lia|]. rewrite Eb in Hi.
  pose proof (Z.mod_pos_bound j 512 ltac:(lia)). apply load_ext. intros i Hi'. rewrite Hi by lia. f_equal. pose proof (word_place k j ltac:(lia)). lia.
Qed.

(** The bytes of a word, on the device. *)
Definition at_word (k : nat) (j x : Z) : Prop := 4096 * off k + 8 * j <= x < 4096 * off k + 8 * j + 8.

Lemma area_of_word k j : (k < 5)%nat -> 0 <= j < len k -> 8 * j + 8 <= 4096 * word_blocks (len k).
Proof. intros Hk Hj. unfold word_blocks. Z.div_mod_to_equations. lia. Qed.

Lemma store_word_ok d a k j v : cache_ok d a -> (k < 5)%nat -> 0 <= j < len k -> cached a k j -> 0 <= v < 2 ^ 64 ->
  exists a' d', set_word a k (j mod 512) v = Some a' /\ _store_data fs d a' k = Some d' /\ cache_ok d' a' /\ changed (words d) (words d') k j v /\
    keeps a a' /\ (forall k' j', cached a k' j' -> cached a' k' j') /\ forall x, ~ at_word k j x -> image fs d' x = image fs d x.
Proof.
  intros Hc Hk Hj (e & Ee & Eb) Hv. unfold set_word. rewrite Ee. cbn [mbind option_bind].
  exists (set_entry a k (Cache (c_offset e) (c_block_index e) (store 8 (c_data e) (8 * (j mod 512)) v))).
  destruct (Hc k Hk) as (e' & Ee' & Eo & Hb & Hi). rewrite Ee in Ee'. injection Ee' as <-. destruct (block_of_word k j Hk Hj) as (H1 & H2 & H0).
  pose proof (ar_blocks _ _ _ HA) as Hbl. destruct Hi as [Hi | [_ Hi]]; [lia|]. pose proof (Z.mod_pos_bound j 512 ltac:(lia)) as Hm. pose proof (word_place k j ltac:(lia)) as Hpl.
  unfold _store_data. rewrite set_entry_lookup, decide_True, Ee by done. cbn [fmap option_fmap option_map mbind option_bind c_block_index c_data].
  set (b := store 8 (c_data e) (8 * (j mod 512)) v). assert (Hbb : byte_mem b) by (by apply store_byte_mem).
  destruct (block_write_ok fs blocks d (c_block_index e) b HP ltac:(lia) Hbb) as (d' & -> & Hd). exists d'. unfold KFS2_BLOCK_SIZE in Hd.
  assert (Him : forall x, image fs d' x = store 8 (image fs d) (4096 * off k + 8 * j) v x).
  { intros x. rewrite Hd. unfold b, store, mem_write. rewrite !length_le_bytes. acases; try (f_equal; lia).
    - rewrite Hi by lia. f_equal. lia.
    - rewrite Hi by lia. f_equal. lia. }
  split_and!; [done | done | | | done | |].
  - intros k' Hk'. rewrite set_entry_lookup. destruct (decide (k' = k)) as [-> |].
    + rewrite Ee. eexists. split; [done|]. split_and!; cbn [c_offset c_data c_block_index]; [done | done |]. right. split; [lia|]. intros i Hi'. rewrite Hd. acases. f_equal. lia.
    + destruct (Hc k' Hk') as (e' & Ee' & Eo' & Hb' & Hi''). exists e'. split; [done|]. split_and!; [done | done |]. destruct Hi'' as [| [Hr Hi'']]; [by left|].
      right. split; [done|]. intros i Hi'. rewrite Hi'' by done. rewrite Him. symmetry. apply store_out.
      pose proof (area_of_word k j Hk Hj). destruct (ar_apart _ _ _ HA k k' Hk Hk'); [done | lia | lia].
  - intros k' j'. destruct (decide (k' = k /\ j' = j)) as [[-> ->] | Hne].
    + rewrite words_eq by done. rewrite (load_ext 8 _ _ _ _ (fun i _ => Him _)). by apply (load_store 8).
    + unfold words. destruct (Z.leb_spec 0 j'), (Z.ltb_spec j' (len k')), (Nat.ltb_spec k' 5); cbn [andb]; try done.
      rewrite (load_ext 8 _ _ _ _ (fun i _ => Him _)). apply load_store_other. destruct (decide (k' = k)) as [-> |]; [lia|].
      pose proof (area_of_word k j Hk Hj). pose proof (area_of_word k' j' ltac:(lia) ltac:(lia)). destruct (ar_apart _ _ _ HA k k' Hk ltac:(lia)); [done | lia | lia].
  - intros k' j' (e' & Ee' & Eb'). unfold cached. rewrite set_entry_lookup. destruct (decide (k' = k)) as [-> |]; [| by exists e'].
    rewrite Ee in Ee'. injection Ee' as <-. rewrite Ee. by eexists.
  - intros x Hx. rewrite Him. apply store_out. unfold at_word in Hx. lia.
Qed.

(** ** The operations *)

(** [j] is the first word of the highest level that is not zero, or their number. *)
Definition first_word (d : D) (j : Z) : Prop := 0 <= j <= len 4%nat /\ (forall i, 0 <= i < j -> words d 4 i = 0) /\ (j < len 4%nat -> words d 4 j <> 0).

(** The device, outside of the bitmap. *)
Definition same_outside (d d' : D) : Prop := forall x, (forall k j, (k < 5)%nat -> 0 <= j < len k -> ~ at_word k j x) -> image fs d' x = image fs d x.

Record bitmap_ok (d : D) (a : kfs2_bitmap_t) (F : Z -> Prop) : Prop := {
  bm_cache : cache_ok d a;
  bm_levels : represents 5 (words d) F;
  bm_length : highest_level_length a = len 4%nat;
  bm_first : first_word d (highest_level_offset a)
}.

Lemma z2b_spec x : z2b x = negb (x =? 0).
Proof. done. Qed.

Lemma find_next_ok d fuel : forall a, cache_ok d a -> highest_level_length a = len 4%nat -> 0 <= highest_level_offset a <= len 4%nat ->
  len 4%nat - highest_level_offset a <= Z.of_nat fuel -> (forall i, 0 <= i < highest_level_offset a -> words d 4 i = 0) ->
  exists a', find_next fs fuel d a = Some a' /\ cache_ok d a' /\ highest_level_length a' = len 4%nat /\ first_word d (highest_level_offset a').
Proof.
  pose proof (ar_top _ _ _ HA) as Ht. induction fuel as [| fuel IH]; intros a Hc Hl Ho Hf Hz; unfold find_next; fold (find_next (D := D) fs);
    (destruct (Z.ltb_spec (highest_level_offset a) (highest_level_length a)) as [Hlt |]; [| exists a; repeat split; done || lia]).
  - lia.
  - rewrite Hl in Hlt. change (KFS2_BITMAP_LEVEL_COUNT - 1)%nat with 4%nat. destruct (fetch_ok d a 4 (highest_level_offset a) Hc ltac:(lia) ltac:(lia)) as (a1 & -> & Hc1 & Hin & [Kl Ko] & _).
    cbn [mbind option_bind]. rewrite (get_word_ok d a1 4 (highest_level_offset a)) by (done || lia). cbn [mbind option_bind]. rewrite z2b_spec.
    destruct (Z.eqb_spec (words d 4 (highest_level_offset a)) 0) as [E0 | Hne]; cbn [negb].
    + rewrite u32_id by (rewrite Ko; lia). rewrite Ko. apply IH; cbn [set_highest_level_offset highest_level_length highest_level_offset]; [done | lia | lia | lia |].
      intros i Hi. destruct (decide (i = highest_level_offset a)) as [-> |]; [done | apply Hz; lia].
    + exists a1. split_and!; [done | done | lia |]. rewrite Ko. repeat split; done || lia.
Qed.

Lemma find_next_highest_ok d a : cache_ok d a -> highest_level_length a = len 4%nat -> 0 <= highest_level_offset a <= len 4%nat ->
  (forall i, 0 <= i < highest_level_offset a -> words d 4 i = 0) ->
  exists a', _find_next_highest_level_offset fs d a = Some a' /\ cache_ok d a' /\ highest_level_length a' = len 4%nat /\ first_word d (highest_level_offset a').
Proof. intros Hc Hl Ho Hz. apply find_next_ok; [done | done | done | lia | done]. Qed.

(** The pointers of the words above [x], from level [i] on. *)
Definition pointers (x : Z) (i m : nat) : list Z := (fun k => above (S k) x mod 512) <$> seq i m.

Lemma down_last w i out : above i (down w i out) = out -> above (S i) (down w i out) = out / 64.
Proof. intros E. by rewrite above_S, E. Qed.

Lemma alloc_down_ok d F : represents 5 (words d) F -> forall i a out ptr, cache_ok d a -> (i <= 5)%nat -> 0 <= out ->
  match i with O => F out | S k => words d k out <> 0 end -> let x := down (words d) i out in
  exists a', alloc_down fs d a i out ptr = Some (a', x, pointers x 0 i ++ ptr) /\ cache_ok d a' /\ keeps a a' /\
    (forall k, (k < i)%nat -> cached a' k (above (S k) x)) /\ forall k, (i <= k)%nat -> cache a' !! k = cache a !! k.
Proof.
  intros HR. induction i as [| i IH]; intros a out ptr Hc Hi Ho Hne.
  - exists a. split_and!; [done | done | done | lia | done].
  - destruct (words_in d i out Hne) as [_ Hj]. destruct (down_spec 5 _ F HR (S i) out Hi Ho Hne) as (Hx0 & Hxa & HFx & _). cbn [down] in *.
    destruct (ctz_range (words d) i out (proj1 HR) Hne) as [Hct _]. set (o := 64 * out + ctz (words d i out)) in *.
    destruct (fetch_ok d a i out Hc ltac:(lia) Hj) as (a1 & E1 & Hc1 & Hin & [Kl Ko] & Kc). cbn [alloc_down]. rewrite E1. cbn [mbind option_bind].
    rewrite (get_word_ok d a1 i out Hc1 ltac:(lia) Hj Hin). cbn [mbind option_bind]. pose proof (ar_len _ _ _ HA i ltac:(lia)) as [_ Hl].
    assert (u64 (Z.lor (Z.shiftl out 6) (ffs_1 (words d i out))) = o) as ->.
    { unfold ffs_1. destruct (Z.eqb_spec (words d i out) 0); [done|]. rewrite lor_shiftl_add by lia. change (2 ^ 6) with 64. rewrite u64_id; unfold o; lia. }
    assert (Hb : bit (words d) i o = true) by (unfold o; rewrite <- word_bit by done; by apply ctz_range; [apply HR|]).
    destruct (IH a1 o (out mod 512 :: ptr) Hc1 ltac:(lia) ltac:(lia)) as (a2 & E2 & Hc2 & [Kl2 Ko2] & Hin2 & Kc2).
    { apply (proj2 HR i ltac:(lia)) in Hb as Hex; [| lia]. destruct i as [| k]; [destruct Hex as (z & _ & HF & E); by rewrite above_0 in E; subst z|].
      apply (nonzero_word (words d) F); [apply HR | apply (proj2 HR); lia | lia | done]. }
    exists a2. rewrite E2. split_and!; [| done | split; lia | |].
    + do 2 f_equal. unfold pointers. rewrite seq_S, fmap_app, <- app_assoc. cbn. by rewrite Hxa.
    + intros k Hk. destruct (decide (k = i)) as [-> |]; [| apply Hin2; lia]. rewrite Hxa. destruct Hin as (e & Ee & Eb). exists e. by rewrite Kc2.
    + intros k Hk. rewrite Kc2 by lia. apply Kc. lia.
Qed.

Lemma alloc_up_ok F x m : forall i d a, 0 <= x -> (i + m = 5)%nat -> taking 5 (words d) F x i -> cache_ok d a ->
  (forall k, (i <= k < 5)%nat -> cached a k (above (S k) x)) -> exists d' a' top, alloc_up fs d a i (pointers x i m) = Some (d', a', top) /\
    cache_ok d' a' /\ keeps a a' /\ represents 5 (words d') (without F x) /\ same_outside d d' /\
    (if top : bool then words d' 4 (above 5 x) = 0 else words d' 4 (above 5 x) <> 0).
Proof.
  induction m as [| m IH]; intros i d a Hx Him HT Hc Hin.
  - replace i with 5%nat in * by lia. destruct (taking_end 5 _ F x Hx HT) as [HR Hz]; [lia|]. exists d, a, true. repeat (split; [done|]). done.
  - destruct (tk_high _ _ _ _ _ HT i ltac:(lia)) as (_ & Hne & _). destruct (words_in d i _ Hne) as [Hi Hj]. set (j := above (S i) x) in *.
    unfold pointers. cbn [seq fmap list_fmap alloc_up]. fold (pointers x (S i) m). fold j. rewrite (get_word_ok d a i j Hc Hi Hj (Hin i ltac:(lia))). cbn [mbind option_bind].
    set (v := Z.land (words d i j) (u64 (words d i j - 1))).
    assert (Hv : 0 <= v < 2 ^ 64) by (apply clear_lowest; pose proof (tk_words _ _ _ _ _ HT i j); lia).
    destruct (store_word_ok d a i j v Hc Hi Hj (Hin i ltac:(lia)) Hv) as (a1 & d1 & E1 & E2 & Hc1 & Hch & [Kl Ko] & Hk1 & Hs).
    rewrite E1. cbn [mbind option_bind]. rewrite E2. cbn [mbind option_bind]. pose proof (taking_step 5 _ _ F x i Hx HT Hi Hch) as Hst. cbv zeta in Hst. fold j v in Hst.
    assert (Hso : same_outside d d1) by (intros y Hy; apply Hs, Hy; done). rewrite z2b_spec. destruct (Z.eqb_spec v 0) as [Hv0 | Hvn]; cbn [negb].
    + destruct (IH (S i) d1 a1 Hx ltac:(lia) Hst Hc1) as (d2 & a2 & top & E3 & Hc2 & [Kl2 Ko2] & HR & Hs2 & Ht).
      { intros k Hk. apply Hk1, Hin. lia. }
      exists d2, a2, top. rewrite E3. split_and!; [done | done | split; lia | done | | done]. intros y Hy. by rewrite Hs2, Hso.
    + exists d1, a1, false. split_and!; [done | done | done | done | done |].
      assert (words d1 i j <> 0) as Hw by (rewrite Hch, decide_True by done; done).
      apply (nonzero_word _ (without F x)) in Hw as (z & Hz & HFz & Ez); [| apply Hst | apply Hst; lia | lia].
      apply (nonzero_word _ (without F x)); [apply Hst | apply Hst; lia | by apply above_pos |]. exists z. split_and!; [done | done |]. apply (above_le (S i)); [lia | done].
Qed.

Lemma bitmap_alloc_ok d a F : bitmap_ok d a F -> exists d' a' out, kfs2_bitmap_alloc fs d a = Some (d', a', out) /\ same_outside d d' /\
  ((out = 0 /\ d' = d /\ a' = a /\ forall x, 0 <= x -> ~ F x) \/
   (0 <= out /\ F out /\ (forall y, 0 <= y -> F y -> out <= y) /\ bitmap_ok d' a' (without F out))).
Proof.
  intros [Hc HR Hl (Ho & Hz & Hf)]. unfold kfs2_bitmap_alloc. set (ho := highest_level_offset a) in *.
  assert (Htop : forall y, 0 <= y -> F y -> ho <= above 5 y /\ above 5 y < len 4%nat).
  { intros y Hy HF. pose proof (above_pos 5 y Hy). assert (words d 4 (above 5 y) <> 0) as Hw by (apply (nonzero_word _ F); [apply HR | apply HR; lia | done | eauto]).
    destruct (words_in _ _ _ Hw) as [_ ?]. destruct (Z.lt_ge_cases (above 5 y) ho); [| lia]. by rewrite Hz in Hw by lia. }
  destruct (Z.eqb_spec ho (highest_level_length a)) as [E | Hne].
  - exists d, a, 0. split_and!; [done | done |]. left. split_and!; [done | done | done |]. intros y Hy HF. specialize (Htop y Hy HF). lia.
  - specialize (Hf ltac:(lia)). change KFS2_BITMAP_LEVEL_COUNT with 5%nat. destruct (down_spec 5 _ F HR 5 ho ltac:(lia) ltac:(lia) Hf) as (Hx & Hxa & HFx & Hlp & Hmin).
    destruct (alloc_down_ok d F HR 5 a ho [] Hc ltac:(lia) ltac:(lia) Hf) as (a1 & -> & Hc1 & [Kl1 Ko1] & Hin & _). set (x := down (words d) 5 ho) in *.
    cbn [mbind option_bind]. rewrite app_nil_r.
    destruct (alloc_up_ok F x 5 0 d a1 Hx ltac:(lia) (taking_start 5 _ _ _ HR Hlp) Hc1) as (d2 & a2 & top & -> & Hc2 & [Kl2 Ko2] & HR2 & Hs & Ht); [intros k Hk; apply Hin; lia|].
    cbn [mbind option_bind]. rewrite Hxa in Ht.
    assert (Hlow : forall i, 0 <= i < ho -> words d2 4 i = 0).
    { intros i Hi. destruct (decide (words d2 4 i = 0)) as [| Hw]; [done|]. exfalso. apply (nonzero_word _ (without F x)) in Hw as (z & Hz' & [HF _] & E); [| apply HR2 | apply HR2; lia | lia].
      specialize (Htop z Hz' HF). lia. }
    assert (Hleast : forall y, 0 <= y -> F y -> x <= y).
    { intros y Hy HF. destruct (Htop y Hy HF). destruct (decide (above 5 y = ho)) as [E |]; [by apply Hmin|].
      destruct (Z.le_gt_cases x y); [done|]. pose proof (above_mono 5 y x ltac:(lia)). lia. }
    pose proof (ar_top _ _ _ HA). destruct top.
    + rewrite u32_id by lia. destruct (find_next_highest_ok d2 (set_highest_level_offset a2 (highest_level_offset a2 + 1))) as (a3 & -> & Hc3 & Kl3 & Hfw);
        cbn [set_highest_level_offset highest_level_length highest_level_offset]; [done | lia | lia | |].
      { intros i Hi. destruct (decide (i = ho)) as [-> |]; [done | apply Hlow; lia]. }
      cbn [mbind option_bind]. exists d2, a3, x. split_and!; [done | done |]. right. split_and!; [done | done | done |]. split; done.
    + cbn [mbind option_bind]. exists d2, a2, x. split_and!; [done | done |]. right. split_and!; [done | done | done |].
      split; [done | done | lia |]. rewrite Ko2, Ko1. fold ho. repeat split; [lia | lia | done | done].
Qed.

Lemma dealloc_up_ok F x m : forall i d a, 0 <= x -> above 1 x < len 0%nat -> (i + m = 5)%nat -> giving 5 (words d) F x i -> cache_ok d a ->
  exists d' a' index, dealloc_up fs m d a i (above i x) = Some (d', a', index) /\ cache_ok d' a' /\ keeps a a' /\
    represents 5 (words d') (with_item F x) /\ same_outside d d' /\ (index = above 5 x \/ above 5 x <= index /\ exists z, 0 <= z /\ F z /\ above 5 z = above 5 x).
Proof.
  induction m as [| m IH]; intros i d a Hx Hlen Him HG Hc.
  - replace i with 5%nat in * by lia. exists d, a, (above 5 x). split_and!; [done | done | done | | done | by left]. split; [apply HG|]. intros k Hk. by apply HG.
  - cbn [dealloc_up]. assert (Z.shiftr (above i x) 6 = above (S i) x) as -> by (rewrite above_S, Z.shiftr_div_pow2 by lia; done).
    assert (Z.land (above i x) 63 = above i x mod 64) as -> by (change 63 with (Z.ones 6); by apply Z.land_ones).
    assert (Hj : 0 <= above (S i) x < len i).
    { split; [by apply above_pos|]. assert (Hi : (i < 5)%nat) by lia. clear -Hlen Hi HA Hx. induction i as [| i IHi]; [done|].
      specialize (IHi ltac:(lia)). pose proof (ar_next _ _ _ HA i ltac:(lia)). rewrite above_S. apply Z.div_lt_upper_bound; lia. }
    set (j := above (S i) x) in *. destruct (fetch_ok d a i j Hc ltac:(lia) Hj) as (a1 & -> & Hc1 & Hin & [Kl Ko] & _). cbn [mbind option_bind].
    rewrite (get_word_ok d a1 i j Hc1 ltac:(lia) Hj Hin). cbn [mbind option_bind]. pose proof (Z.mod_pos_bound (above i x) 64 ltac:(lia)) as Hm.
    assert (Hbit : z2b (Z.land (words d i j) (Z.shiftl 1 (above i x mod 64))) = bit (words d) i (above i x)).
    { rewrite Z.shiftl_1_l, land_pow2 by lia. unfold bit. rewrite <- above_S. fold j. destruct (Z.testbit _ _); [| done]. rewrite z2b_spec. destruct (Z.eqb_spec (2 ^ (above i x mod 64)) 0); [lia | done]. }
    rewrite Hbit. destruct (bit (words d) i (above i x)) eqn:Eb.
    + exists d, a1, j. split_and!; [done | done | done | apply (giving_stop 5 _ _ _ i); done || lia | done |]. right. split.
      * apply above_decr; [done | lia].
      * apply (gv_high _ _ _ _ _ HG i) in Eb as (z & Hz & HF & E); [| lia | by apply above_pos]. exists z. split_and!; [done | done |]. apply (above_le i); [lia | done].
    + assert (Hv : 0 <= Z.lor (words d i j) (Z.shiftl 1 (above i x mod 64)) < 2 ^ 64).
      { apply width_of_bits; [lia|]. intros b Hb. rewrite Z.lor_spec, (word_high 64) by (done || apply words_ok_image). rewrite Z.shiftl_1_l, Z.pow2_bits_false by lia. done. }
      destruct (store_word_ok d a1 i j _ Hc1 ltac:(lia) Hj Hin Hv) as (a2 & d2 & E1 & E2 & Hc2 & Hch & [Kl2 Ko2] & _ & Hs).
      rewrite E1. cbn [mbind option_bind]. rewrite E2. cbn [mbind option_bind].
      destruct (IH (S i) d2 a2 Hx Hlen ltac:(lia) (giving_step 5 _ _ F x i Hx HG ltac:(lia) Hch) Hc2) as (d3 & a3 & ix & E3 & Hc3 & [Kl3 Ko3] & HR & Hs3 & Hix).
      exists d3, a3, ix. fold j in E3. split_and!; [done | done | split; lia | done | | done]. intros y Hy. rewrite Hs3, Hs; [done | apply Hy; lia || done | done].
Qed.

Lemma bitmap_dealloc_ok d a F x : bitmap_ok d a F -> 0 <= x < 64 * len 0%nat -> exists d' a', kfs2_bitmap_dealloc fs d a x = Some (d', a') /\
  bitmap_ok d' a' (with_item F x) /\ same_outside d d'.
Proof.
  intros [Hc HR Hl (Ho & Hz & Hf)] Hx. unfold kfs2_bitmap_dealloc. change KFS2_BITMAP_LEVEL_COUNT with 5%nat.
  assert (HG : giving 5 (words d) F x 0) by (split; [apply HR | lia | intros; apply HR; lia]).
  assert (Hx1 : above 1 x < len 0%nat) by (rewrite above_S, above_0; apply Z.div_lt_upper_bound; lia).
  destruct (dealloc_up_ok F x 5 0 d a ltac:(lia) Hx1 ltac:(lia) HG Hc) as (d' & a' & ix & E & Hc' & [Kl Ko] & HR' & Hs & Hix).
  rewrite above_0 in E. rewrite E. cbn [mbind option_bind]. eexists _, _. split; [done|]. split; [| done]. pose proof (ar_top _ _ _ HA).
  assert (Hcls : forall y, 0 <= y -> words d' 4 y <> 0 <-> exists z, 0 <= z /\ with_item F x z /\ above 5 z = y).
  { intros y Hy. apply nonzero_word; [apply HR' | apply HR'; lia | done]. }
  assert (Hold : forall y, 0 <= y -> words d 4 y <> 0 <-> exists z, 0 <= z /\ F z /\ above 5 z = y).
  { intros y Hy. apply nonzero_word; [apply HR | apply HR; lia | done]. }
  pose proof (above_pos 5 x ltac:(lia)) as Hx5. assert (Hin : above 5 x < len 4%nat).
  { assert (Hw : words d' 4 (above 5 x) <> 0) by (apply Hcls; [done | exists x; split_and!; [lia | by right | done]]). apply words_in in Hw. lia. }
  destruct (Z.ltb_spec ix (highest_level_offset a')) as [Hlt | Hge].
  - destruct Hix as [-> | [Hle (z & Hz' & HF & Ez)]].
    + rewrite u32_id by lia. split; [done | done | cbn; lia |]. cbn [set_highest_level_offset highest_level_offset]. repeat split; [lia | lia | |].
      * intros i Hi. destruct (decide (words d' 4 i = 0)) as [| Hw]; [done|]. exfalso. apply Hcls in Hw as (z & Hz' & [HF | ->] & E'); [| lia | lia].
        assert (words d 4 i <> 0) as Hw by (apply Hold; [lia | eauto]). by rewrite Hz in Hw by lia.
      * intros _. apply Hcls; [lia|]. exists x. split_and!; [lia | by right | done].
    + exfalso. assert (words d 4 (above 5 x) <> 0) as Hw by (apply Hold; [done | eauto]). by rewrite Hz in Hw by lia.
  - split; [done | done | lia |]. rewrite Ko. repeat split; [lia | lia | |].
    + intros i Hi. destruct (decide (words d' 4 i = 0)) as [| Hw]; [done|]. exfalso. apply Hcls in Hw as (z & Hz' & [HF | ->] & E'); [| | lia].
      * assert (words d 4 i <> 0) as Hw by (apply Hold; [lia | eauto]). by rewrite Hz in Hw by lia.
      * destruct Hix as [-> | [Hle (z & Hz2 & HF & Ez)]]; [lia|]. assert (words d 4 i <> 0) as Hw by (apply Hold; [lia | subst i; eauto]). by rewrite Hz in Hw by lia.
    + intros Hlt. specialize (Hf Hlt). apply Hold in Hf as (z & Hz' & HF & E'); [| lia]. apply Hcls; [lia|]. exists z. split_and!; [done | by left | done].
Qed.

(** The allocator that is set up for a bitmap on the device. *)
Lemma bitmap_init_ok d F : represents 5 (words d) F -> exists a, kfs2_bitmap_init fs d off (len 4%nat) = Some a /\ bitmap_ok d a F.
Proof.
  intros HR. destruct (ar_len _ _ _ HA 4%nat ltac:(lia)). unfold kfs2_bitmap_init. change KFS2_BITMAP_LEVEL_COUNT with 5%nat.
  edestruct (find_next_highest_ok d) as (a & E & Hc & Hl & Hf); cycle 4; [exists a; rewrite E; split; [done | by split] | | done | cbn; lia | cbn; lia].
  intros k Hk. eexists. cbn [cache]. rewrite list_lookup_fmap, lookup_seq_lt by done. split; [done|]. split_and!; cbn [c_offset c_data c_block_index]; [done | apply page_bytes | by left].
Qed.

(** ** The contract: a set of free items *)

Inductive bitmap_request := Take | Give (x : Z).

Definition bitmap_serve (d : D) (a : kfs2_bitmap_t) (r : bitmap_request) : option (D * kfs2_bitmap_t * Z) :=
  match r with
  | Take => kfs2_bitmap_alloc fs d a
  | Give x => '(d, a) ← kfs2_bitmap_dealloc fs d a x; Some (d, a, x)
  end.

Fixpoint bitmap_serve_all (d : D) (a : kfs2_bitmap_t) (rs : list bitmap_request) : option (D * kfs2_bitmap_t * list Z) :=
  match rs with
  | [] => Some (d, a, [])
  | r :: rs =>
    '(d, a, out) ← bitmap_serve d a r;
    '(d, a, outs) ← bitmap_serve_all d a rs;
    Some (d, a, out :: outs)
  end.

Lemma bitmap_ok_ext d a F G : (forall x, F x <-> G x) -> bitmap_ok d a F -> bitmap_ok d a G.
Proof.
  intros E [H1 [Hw HL] H3 H4]. split; [done | split; [done|] | done | done]. intros k Hk y Hy. rewrite (HL k Hk y Hy).
  split; intros (x & ? & ? & ?); exists x; rewrite E in *; done || by rewrite <- E.
Qed.
End spec.

(** The least free item is taken, and 0 is returned when none is free. *)
Inductive bitmap_promised (free : gset Z) : bitmap_request -> gset Z -> Z -> Prop :=
  | promised_take x : x ∈ free -> (forall y, y ∈ free -> x <= y) -> bitmap_promised free Take (free ∖ {[x]}) x
  | promised_none : free = ∅ -> bitmap_promised free Take free 0
  | promised_give x : bitmap_promised free (Give x) ({[x]} ∪ free) x.

Inductive bitmap_promised_all : gset Z -> list bitmap_request -> gset Z -> list Z -> Prop :=
  | promised_all_nil free : bitmap_promised_all free [] free []
  | promised_all_cons free r free' out rs free'' outs : bitmap_promised free r free' out -> bitmap_promised_all free' rs free'' outs ->
      bitmap_promised_all free (r :: rs) free'' (out :: outs).

Section contract.
Context {D : Type} `{BlockDevice D} {block_size end_lba : Z} `{!DeviceLaws D block_size end_lba}.
Context (fs : kfs2_filesystem_t) (blocks : Z) (HP : placed (block_size := block_size) (end_lba := end_lba) fs blocks).
Context (off len : nat -> Z) (HA : areas_ok blocks off len).

Definition free_items (free : gset Z) : Z -> Prop := fun x => x ∈ free.

Definition bitmap_request_ok (r : bitmap_request) : Prop := match r with Take => True | Give x => 0 <= x < 64 * len 0%nat end.

Lemma bitmap_serve_ok d a free r : bitmap_ok fs off len d a (free_items free) -> set_Forall (fun x => 0 <= x) free -> bitmap_request_ok r ->
  exists d' a' free' out, bitmap_serve fs d a r = Some (d', a', out) /\ bitmap_ok fs off len d' a' (free_items free') /\ set_Forall (fun x => 0 <= x) free' /\
    same_outside fs off len d d' /\ bitmap_promised free r free' out.
Proof.
  intros HB Hpos Hr. destruct r as [| x]; cbn [bitmap_serve].
  - destruct (bitmap_alloc_ok fs blocks HP off len HA d a _ HB) as (d' & a' & out & E & Hs & [(-> & -> & -> & Hn) | (H0 & HF & Hmin & HB')]).
    + exists d, a, free, 0. split_and!; [done | done | done | done |]. constructor. apply set_eq. intros y. split; [| set_solver]. intros Hy. exfalso. by apply (Hn y (Hpos y Hy)).
    + exists d', a', (free ∖ {[out]}), out. split_and!; [done | | | done |].
      * eapply bitmap_ok_ext; [| exact HB']. intros y. unfold without, free_items. set_solver.
      * intros y Hy. apply Hpos. set_solver.
      * constructor; [done|]. intros y Hy. apply Hmin; [by apply Hpos | done].
  - destruct (bitmap_dealloc_ok fs blocks HP off len HA d a _ x HB Hr) as (d' & a' & -> & HB' & Hs). cbn [mbind option_bind].
    exists d', a', ({[x]} ∪ free), x. split_and!; [done | | | done | constructor].
    + eapply bitmap_ok_ext; [| exact HB']. intros y. unfold with_item, free_items. set_solver.
    + intros y Hy. apply elem_of_union in Hy as [->%elem_of_singleton | Hy]; [cbn in Hr; lia | by apply Hpos].
Qed.

Lemma bitmap_serve_all_ok rs : forall d a free, bitmap_ok fs off len d a (free_items free) -> set_Forall (fun x => 0 <= x) free -> Forall bitmap_request_ok rs ->
  exists d' a' free' outs, bitmap_serve_all fs d a rs = Some (d', a', outs) /\ bitmap_ok fs off len d' a' (free_items free') /\
    same_outside fs off len d d' /\ bitmap_promised_all free rs free' outs.
Proof.
  induction rs as [| r rs IH]; intros d a free HB Hpos HF; [exists d, a, free, []; split_and!; [done | done | done | constructor]|].
  apply Forall_cons_1 in HF as [Hr HF]. destruct (bitmap_serve_ok d a free r HB Hpos Hr) as (d1 & a1 & free1 & out & E1 & HB1 & Hp1 & Hs1 & Hx1).
  destruct (IH d1 a1 free1 HB1 Hp1 HF) as (d2 & a2 & free2 & outs & E2 & HB2 & Hs2 & Hx2). exists d2, a2, free2, (out :: outs). cbn [bitmap_serve_all].
  rewrite E1. cbn [mbind option_bind]. rewrite E2. split_and!; [done | done | | by econstructor]. intros y Hy. by rewrite Hs2, Hs1.
Qed.

(** C13: an allocator set up over the levels of a bitmap on a working device
    answers every sequence of allocations and deallocations as a set of free
    items does: the least free item is handed out and leaves the set, 0 is
    returned when the set is empty, an item that is given back is free again,
    the levels on the device keep describing that set, and nothing outside of
    them is written. *)
Theorem kfs2_bitmap_refines d free rs : represents 5 (words fs off len d) (free_items free) -> set_Forall (fun x => 0 <= x) free -> Forall bitmap_request_ok rs ->
  exists a d' a' free' outs, kfs2_bitmap_init fs d off (len 4%nat) = Some a /\ bitmap_serve_all fs d a rs = Some (d', a', outs) /\
    bitmap_promised_all free rs free' outs /\ represents 5 (words fs off len d') (free_items free') /\ same_outside fs off len d d'.
Proof.
  intros HR Hpos HF. destruct (bitmap_init_ok fs blocks HP off len HA d _ HR) as (a & E & HB).
  destruct (bitmap_serve_all_ok rs d a free HB Hpos HF) as (d' & a' & free' & outs & E2 & HB' & Hs & Hx).
  exists a, d', a', free', outs. split_and!; [done | done | done | apply HB' | done].
Qed.
End contract.

(** ** A small bitmap: three words, in blocks 20 to 24 *)

Definition small_off (k : nat) : Z := 20 + Z.of_nat k.
Definition small_len (k : nat) : Z := match k with O => 3 | _ => 1 end.

Lemma small_areas : areas_ok 100 small_off small_len.
Proof.
  assert (Hb : forall k, word_blocks (small_len k) = 1) by (intros [|]; done). split; [| | | | done | lia].
  - intros k Hk. rewrite Hb. unfold small_off. lia.
  - intros k k' Hk Hk' Hne. rewrite !Hb. unfold small_off. lia.
  - intros [| k]; cbn; lia.
  - intros [| k]; cbn; lia.
Qed.

Import Ram.

Lemma small_empty : represents 5 (words ram_fs small_off small_len empty_disk) (free_items ∅).
Proof.
  assert (Hz : forall k j, words ram_fs small_off small_len empty_disk k j = 0).
  { intros k j. unfold words. destruct (_ && _); [| done]. unfold load, image, content, ram_laws, empty_disk. generalize (4096 * small_off k + 8 * j). intros x. reflexivity. }
  split; [intros k j; rewrite Hz; lia|]. intros k Hk y Hy. unfold bit. rewrite Hz, Z.bits_0. split; [done|]. intros (x & _ & Hx & _). unfold free_items in Hx. set_solver.
Qed.

Lemma kfs2_bitmap_refines_witness : exists a d' a' free' outs, kfs2_bitmap_init ram_fs empty_disk small_off 1 = Some a /\
  bitmap_serve_all ram_fs empty_disk a [Give 70; Give 3; Take; Take; Take] = Some (d', a', outs) /\
  bitmap_promised_all ∅ [Give 70; Give 3; Take; Take; Take] free' outs.
Proof.
  destruct (kfs2_bitmap_refines ram_fs 100 ram_placed small_off small_len small_areas empty_disk ∅ [Give 70; Give 3; Take; Take; Take])
    as (a & d' & a' & free' & outs & H1 & H2 & H3 & _).
  - exact small_empty.
  - apply set_Forall_empty.
  - repeat constructor; vm_compute; congruence.
  - exists a, d', a', free', outs. split; [exact H1 | split; [exact H2 | exact H3]].
Defined.
