(* ===== verification/Kfs2File.v ===== *)
(** * KFS2: reading and writing files
    ([src/src/common/kfs2/chunk.c], [kfs2_node_read] and [kfs2_node_write] of
    [api.c]).

    A chunk is the part of a file that is in memory: the 48 bytes inside of the
    node, or one block.  [None] is a panic. *)
From stdpp Require Import base tactics list numbers option.
From Stdlib Require Import ZArith Lia.
From S2P Require Import Prelude Bytes Store Kfs2Crc Kfs2Io.
#[local] Open Scope Z_scope.

(** [chunk.data]: [NULL], [node->data.inline_], or a page. *)
Inductive chunk_data := Null | Inline | Page (b : mem).

Record kfs2_data_chunk_t := Chunk {
  ch_offset : Z;
  ch_quadruple_cache : option mem;
  ch_triple_cache : option mem;
  ch_double_cache : option mem;
  ch_data : chunk_data;
  ch_length : Z;
  ch_data_offset : Z
}.

Definition kfs2_chunk_init : kfs2_data_chunk_t := Chunk 0 None None None Null 0 0.

Definition storage (node : kfs2_node_t) : Z := Z.land (n_flags node) KFS2_INODE_STORAGE_MASK.

Section file.
Context {D : Type} `{BlockDevice D} (fs : kfs2_filesystem_t).

(** [if (!out->data) out->data=alloc(1)] *)
Definition with_page (d : D) (data : chunk_data) : chunk_data := match data with Null => Page (alloc_callback d) | _ => data end.

(** After the [switch]: the block is loaded. *)
Definition chunk_fetch (d : D) (fetch_data : bool) (out : kfs2_data_chunk_t) : option kfs2_data_chunk_t :=
  if ch_data_offset out =? 0 then None
  else if fetch_data then
    match ch_data out with
    | Page b =>
      b ← kfs2_io_data_block_read fs d (ch_data_offset out) b;
      Some (Chunk (ch_offset out) (ch_quadruple_cache out) (ch_triple_cache out) (ch_double_cache out) (Page b) (ch_length out) (ch_data_offset out))
    | _ => None
    end
  else Some out.

Definition kfs2_chunk_read (d : D) (node : kfs2_node_t) (offset : Z) (fetch_data : bool) (out : kfs2_data_chunk_t) : option kfs2_data_chunk_t :=
  let index := offset / KFS2_BLOCK_SIZE in
  let start := Z.land offset (u64 (- KFS2_BLOCK_SIZE)) in
  if storage node =? KFS2_INODE_STORAGE_TYPE_INLINE then
    if 48 <=? offset then None
    else Some (Chunk 0 (ch_quadruple_cache out) (ch_triple_cache out) (ch_double_cache out) Inline 48 0)
  else if storage node =? KFS2_INODE_STORAGE_TYPE_SINGLE then
    if 6 <=? index then None
    else chunk_fetch d fetch_data
           (Chunk start (ch_quadruple_cache out) (ch_triple_cache out) (ch_double_cache out) (with_page d (ch_data out)) KFS2_BLOCK_SIZE (n_single node index))
  else if storage node =? KFS2_INODE_STORAGE_TYPE_DOUBLE then
    if KFS2_BLOCK_SIZE / 8 <=? index then None
    else
      double_cache ← match ch_double_cache out with
                     | Some c => Some c
                     | None => kfs2_io_data_block_read fs d (n_double node) (alloc_callback d)
                     end;
      chunk_fetch d fetch_data
        (Chunk start (ch_quadruple_cache out) (ch_triple_cache out) (Some double_cache) (with_page d (ch_data out)) KFS2_BLOCK_SIZE (load 8 double_cache (8 * index)))
  else if storage node =? KFS2_INODE_STORAGE_TYPE_TRIPLE then None
  else if storage node =? KFS2_INODE_STORAGE_TYPE_QUADRUPLE then None
  else chunk_fetch d fetch_data out.

Definition kfs2_chunk_write (d : D) (node : kfs2_node_t) (chunk : kfs2_data_chunk_t) : option D :=
  if storage node =? KFS2_INODE_STORAGE_TYPE_INLINE then kfs2_io_inode_write fs d node
  else match ch_data chunk with
       | Page b => kfs2_io_data_block_write fs d (ch_data_offset chunk) b
       | _ => None
       end.

(** [mem_copy] out of a chunk and into it; a chunk inside of the node is
    changed with the node. *)
Definition chunk_get (node : kfs2_node_t) (chunk : kfs2_data_chunk_t) (pos n : Z) : option (list Z) :=
  match ch_data chunk with
  | Null => None
  | Inline => Some (mem_read node (n_data + pos) n)
  | Page b => Some (mem_read b pos n)
  end.

Definition chunk_put (node : kfs2_node_t) (chunk : kfs2_data_chunk_t) (pos : Z) (l : list Z) : option (kfs2_node_t * kfs2_data_chunk_t) :=
  match ch_data chunk with
  | Null => None
  | Inline => Some (mem_write node (n_data + pos) l, chunk)
  | Page b =>
    Some (node, Chunk (ch_offset chunk) (ch_quadruple_cache chunk) (ch_triple_cache chunk) (ch_double_cache chunk) (Page (mem_write b pos l)) (ch_length chunk) (ch_data_offset chunk))
  end.

(** The loop of [kfs2_node_read]; [acc] is what is in [buffer]. *)
Fixpoint read_loop (fuel : nat) (d : D) (node : kfs2_node_t) (offset size : Z) (chunk : kfs2_data_chunk_t) (acc : list Z) : option (list Z) :=
  if offset <? size then
    match fuel with
    | O => None
    | S fuel =>
      chunk ← (if ch_length chunk <=? u64 (offset - ch_offset chunk) then kfs2_chunk_read d node offset true chunk else Some chunk);
      let padding := u64 (offset - ch_offset chunk) in
      let read_size := if u64 (size - offset) <? u64 (ch_length chunk - padding) then u64 (size - offset) else u64 (ch_length chunk - padding) in
      l ← chunk_get node chunk padding read_size;
      read_loop fuel d node (u64 (offset + u64 (ch_length chunk - padding))) size chunk (acc ++ l)
    end
  else Some acc.

(** The number of bytes moved, or 0: the checks at the start of both functions. *)
Definition clipped (node : kfs2_node_t) (offset size : Z) : Z :=
  if (n_inode node =? 0xffffffff) || (n_size node <=? offset) then 0
  else if n_size node <=? u64 (offset + size) then u64 (n_size node - offset) else size.

Definition kfs2_node_read (d : D) (node : kfs2_node_t) (offset size : Z) : option (Z * list Z) :=
  let size := clipped node offset size in
  if size =? 0 then Some (0, [])
  else
    l ← read_loop (Z.to_nat size) d node offset (u64 (size + offset)) kfs2_chunk_init [];
    Some (size, l).

(** The loop of [kfs2_node_write]; [buffer] is what is left to write. *)
Fixpoint write_loop (fuel : nat) (d : D) (node : kfs2_node_t) (offset size : Z) (chunk : kfs2_data_chunk_t) (buffer : list Z) : option (D * kfs2_node_t) :=
  if offset <? size then
    match fuel with
    | O => None
    | S fuel =>
      chunk ← kfs2_chunk_read d node offset (z2b (Z.land offset (KFS2_BLOCK_SIZE - 1)) || (u64 (size - offset) <? KFS2_BLOCK_SIZE)) chunk;
      let padding := u64 (offset - ch_offset chunk) in
      let write_size := if u64 (size - offset) <? u64 (ch_length chunk - padding) then u64 (size - offset) else u64 (ch_length chunk - padding) in
      '(node, chunk) ← chunk_put node chunk padding (take (Z.to_nat write_size) buffer);
      d ← kfs2_chunk_write d node chunk;
      write_loop fuel d node (u64 (offset + write_size)) size chunk (drop (Z.to_nat write_size) buffer)
    end
  else Some (d, node).

Definition kfs2_node_write (d : D) (node : kfs2_node_t) (offset : Z) (buffer : list Z) (size : Z) : option (D * kfs2_node_t * Z) :=
  let size := clipped node offset size in
  if size =? 0 then Some (d, node, 0)
  else
    '(d, node) ← write_loop (Z.to_nat size) d node offset (u64 (size + offset)) kfs2_chunk_init buffer;
    Some (d, node, size).
End file.
