(* ===== verification/Kfs2FileSpec.v ===== *)
(** * KFS2: files are byte arrays
    Reading and writing through the inline, single and double storage against
    the bytes of a file: position [p] of a file is a byte of its node or a byte
    of one of its data blocks. *)
From stdpp Require Import base tactics list numbers option.
From Stdlib Require Import ZArith Lia.
From S2P Require Import Prelude Bytes Store Kfs2Crc Kfs2Io Kfs2File.
#[local] Open Scope Z_scope.

Lemma mem_write_app m o l1 l2 p : mem_write (mem_write m o l1) (o + Z.of_nat (length l1)) l2 p = mem_write m o (l1 ++ l2) p.
Proof.
  unfold mem_write. rewrite length_app, Nat2Z.inj_add. acases; try done.
  - rewrite app_nth2 by lia. f_equal. lia.
  - by rewrite app_nth1 by lia.
Qed.

Lemma mem_write_nil m o p : mem_write m o [] p = m p.
Proof. apply mem_write_out. cbn [length]. lia. Qed.

Lemma mem_write_ext m m' o l p : m p = m' p -> mem_write m o l p = mem_write m' o l p.
Proof. intros E. unfold mem_write. by destruct (_ && _). Qed.

Lemma unaligned offset : offset mod 4096 <> 0 -> z2b (Z.land offset (4096 - 1)) = true.
Proof.
  intros Ho. change (4096 - 1) with (Z.ones 12). rewrite Z.land_ones by lia. change (2 ^ 12) with 4096. unfold z2b.
  destruct (Z.eqb_spec (offset mod 4096) 0); done.
Qed.

Section spec.
Context {D : Type} `{BlockDevice D} {block_size end_lba : Z} `{!DeviceLaws D block_size end_lba}.
Context (fs : kfs2_filesystem_t) (blocks : Z) (HP : placed (block_size := block_size) (end_lba := end_lba) fs blocks).

Abbreviation first := (first_data_block (root_block fs)).
Context (Hfirst : 0 <= first) (Hblocks : blocks < 2 ^ 64).

(** The number of data block [i] of a file, and where position [p] is. *)
Definition dblock (d : D) (node : kfs2_node_t) (i : Z) : Z :=
  if storage node =? KFS2_INODE_STORAGE_TYPE_SINGLE then n_single node i
  else load 8 (image fs d) (4096 * (first + n_double node) + 8 * i).

Definition place (d : D) (node : kfs2_node_t) (p : Z) : Z := 4096 * (first + dblock d node (p / 4096)) + p mod 4096.

Definition file_mem (d : D) (node : kfs2_node_t) : mem := fun p =>
  if storage node =? KFS2_INODE_STORAGE_TYPE_INLINE then node (n_data + p) else image fs d (place d node p).

Definition in_file (node : kfs2_node_t) (i : Z) : Prop := 0 <= i /\ 4096 * i < n_size node.

(** The three kinds of storage, with the sizes they are used for. *)
Inductive storage_ok (node : kfs2_node_t) : Prop :=
  | stored_inline : storage node = KFS2_INODE_STORAGE_TYPE_INLINE -> n_size node <= 48 -> storage_ok node
  | stored_single : storage node = KFS2_INODE_STORAGE_TYPE_SINGLE -> n_size node <= 6 * 4096 -> storage_ok node
  | stored_double : storage node = KFS2_INODE_STORAGE_TYPE_DOUBLE -> n_size node <= 512 * 4096 -> first + n_double node < blocks -> storage_ok node.

Record file_ok (d : D) (node : kfs2_node_t) : Prop := {
  fi_bytes : byte_mem node;
  fi_node : has_node fs blocks (n_inode node) /\ n_inode node <> 0xffffffff;
  fi_storage : storage_ok node;
  fi_blocks : storage node <> KFS2_INODE_STORAGE_TYPE_INLINE -> forall i, in_file node i -> dblock d node i <> 0 /\ first + dblock d node i < blocks;
  fi_apart : storage node <> KFS2_INODE_STORAGE_TYPE_INLINE -> forall i j, in_file node i -> in_file node j -> dblock d node i = dblock d node j -> i = j;
  fi_index : storage node = KFS2_INODE_STORAGE_TYPE_DOUBLE -> forall i, in_file node i -> dblock d node i <> n_double node
}.

(** The bytes of the device that belong to a file. *)
Definition owns (d : D) (node : kfs2_node_t) (x : Z) : Prop :=
  if storage node =? KFS2_INODE_STORAGE_TYPE_INLINE then node_at fs (n_inode node) <= x < node_at fs (n_inode node) + sizeof_node
  else exists i, in_file node i /\ 4096 * (first + dblock d node i) <= x < 4096 * (first + dblock d node i) + 4096.

Lemma size_range d node : file_ok d node -> 0 <= n_size node <= 512 * 4096.
Proof. intros [Hb _ Hs _ _ _]. pose proof (load_range 8 node 0 Hb). unfold n_size. destruct Hs as [? Hs | ? Hs | ? Hs]; unfold n_size in Hs; lia. Qed.

Lemma dblock_pos d node i : byte_mem node -> 0 <= dblock d node i.
Proof. intros Hb. unfold dblock. destruct (_ =? _); apply (load_range 8); [done | apply image_bytes]. Qed.

Lemma data_block_ok i : 0 <= i -> first + i < blocks -> data_block fs i = first + i.
Proof. intros H1 H2. unfold data_block. apply u64_id. lia. Qed.

(** ** Chunks *)

(** The block of numbers of a file with double storage, if it was loaded. *)
Definition caches_ok (d : D) (node : kfs2_node_t) (c : kfs2_data_chunk_t) : Prop :=
  (storage node = KFS2_INODE_STORAGE_TYPE_DOUBLE -> forall b, ch_double_cache c = Some b -> forall k, 0 <= k < 4096 -> b k = image fs d (4096 * (first + n_double node) + k)) /\
  (ch_data c = Null \/ exists b, ch_data c = Page b /\ byte_mem b).

Lemma caches_init d node : caches_ok d node kfs2_chunk_init.
Proof. split; [done | by left]. Qed.

(** A chunk of a file in blocks, at the block of [offset]. *)
Definition block_chunk (d : D) (node : kfs2_node_t) (offset : Z) (fetched : bool) (c : kfs2_data_chunk_t) : Prop :=
  ch_offset c = 4096 * (offset / 4096) /\ ch_length c = 4096 /\ ch_data_offset c = dblock d node (offset / 4096) /\ caches_ok d node c /\
  exists b, ch_data c = Page b /\ byte_mem b /\
    (fetched = true -> forall k, 0 <= k < 4096 -> b k = image fs d (4096 * (first + dblock d node (offset / 4096)) + k)).

Lemma chunk_fetch_ok d node i fetch c : file_ok d node -> storage node <> KFS2_INODE_STORAGE_TYPE_INLINE -> in_file node i -> caches_ok d node c ->
  ch_data_offset c = dblock d node i -> ch_length c = 4096 -> ch_offset c = 4096 * i -> ch_data c <> Null ->
  exists c', chunk_fetch fs d fetch c = Some c' /\ ch_offset c' = 4096 * i /\ ch_length c' = 4096 /\ ch_data_offset c' = dblock d node i /\ caches_ok d node c' /\
    exists b, ch_data c' = Page b /\ byte_mem b /\ (fetch = true -> forall k, 0 <= k < 4096 -> b k = image fs d (4096 * (first + dblock d node i) + k)).
Proof.
  intros HF Hs Hi [Hd Hb] Eo El Ec Hn. destruct (fi_blocks _ _ HF Hs i Hi) as [H1 H2]. pose proof (dblock_pos d node i (fi_bytes _ _ HF)) as H0.
  destruct Hb as [| (b & Eb & Hb)]; [done|]. unfold chunk_fetch. rewrite Eo. destruct (Z.eqb_spec (dblock d node i) 0); [done|]. destruct fetch.
  - rewrite Eb. unfold kfs2_io_data_block_read. rewrite data_block_ok by lia. unfold KFS2_BLOCK_SIZE in *.
    destruct (block_read_ok fs blocks d (first + dblock d node i) b HP ltac:(lia)) as (b' & -> & Hr). unfold KFS2_BLOCK_SIZE in Hr. cbn [mbind option_bind].
    assert (Hb' : byte_mem b') by (intros k; rewrite Hr; destruct (_ && _); [apply image_bytes | apply Hb]).
    eexists. split; [done|]. cbn [ch_offset ch_length ch_data_offset ch_data]. split_and!; [done | done | done | split; [exact Hd | right; by exists b'] |].
    exists b'. split_and!; [done | done |]. intros _ k Hk. rewrite Hr. acases. done.
  - exists c. split_and!; [done | done | done | done | split; [exact Hd | right; by exists b] |]. exists b. split_and!; done.
Qed.

Lemma round_down_block offset : 0 <= offset < 2 ^ 64 -> Z.land offset (u64 (- KFS2_BLOCK_SIZE)) = 4096 * (offset / 4096).
Proof. intros Ho. unfold KFS2_BLOCK_SIZE. change 4096 with (2 ^ 12) at 1. rewrite land_round_down by lia. change (2 ^ 12) with 4096. lia. Qed.

Lemma chunk_read_ok d node offset fetch c : file_ok d node -> storage node <> KFS2_INODE_STORAGE_TYPE_INLINE -> 0 <= offset < n_size node -> caches_ok d node c ->
  exists c', kfs2_chunk_read fs d node offset fetch c = Some c' /\ block_chunk d node offset fetch c'.
Proof.
  intros HF Hs Ho Hc. pose proof (size_range d node HF) as Hr. pose proof (fi_bytes _ _ HF) as Hnb. unfold kfs2_chunk_read, block_chunk. rewrite round_down_block by lia. unfold KFS2_BLOCK_SIZE.
  assert (Hi : in_file node (offset / 4096)) by (split; [apply Z.div_pos; lia | pose proof (Z.mul_div_le offset 4096); lia]).
  assert (Hpage : forall data, ch_data c = data -> with_page d data <> Null /\ (with_page d data = Null \/ exists b, with_page d data = Page b /\ byte_mem b)).
  { intros data <-. destruct Hc as [_ [-> | (b & -> & Hb)]]; cbn; (split; [done | right]); eexists; (split; [done|]); [apply page_bytes | done]. }
  destruct (Hpage _ eq_refl) as [Hp1 Hp2]. destruct (Z.eqb_spec (storage node) KFS2_INODE_STORAGE_TYPE_INLINE); [done|].
  destruct (fi_storage _ _ HF) as [Es Hsz | Es Hsz | Es Hsz Hdb]; [done | |]; rewrite Es; cbn [Z.eqb KFS2_INODE_STORAGE_TYPE_SINGLE KFS2_INODE_STORAGE_TYPE_DOUBLE].
  - destruct (Z.leb_spec 6 (offset / 4096)) as [Hge |]; [destruct Hi; lia|].
    apply chunk_fetch_ok; cbn [ch_offset ch_length ch_data_offset ch_data]; try done.
    + split; [apply Hc | exact Hp2].
    + unfold dblock. rewrite Es. done.
  - change (4096 / 8) with 512. destruct (Z.leb_spec 512 (offset / 4096)) as [Hge |]; [destruct Hi; lia|].
    assert (exists dc, match ch_double_cache c with Some x => Some x | None => kfs2_io_data_block_read fs d (n_double node) (alloc_callback d) end = Some dc /\
      forall k, 0 <= k < 4096 -> dc k = image fs d (4096 * (first + n_double node) + k)) as (dc & -> & Hdc).
    { destruct (ch_double_cache c) as [x |] eqn:Ex; [exists x; split; [done | by apply Hc]|]. pose proof (load_range 8 node n_data Hnb) as Hl. unfold kfs2_io_data_block_read.
      rewrite data_block_ok by (unfold n_double in *; lia).
      destruct (block_read_ok fs blocks d (first + n_double node) (alloc_callback d) HP) as (b & -> & Hb); [unfold n_double in *; lia|]. exists b. split; [done|].
      intros k Hk. rewrite Hb. unfold KFS2_BLOCK_SIZE. acases. done. }
    cbn [mbind option_bind]. apply chunk_fetch_ok; cbn [ch_offset ch_length ch_data_offset ch_data]; try done.
    + split; [intros _ b [= <-]; exact Hdc | exact Hp2].
    + unfold dblock. rewrite Es. cbn. apply load_ext. intros k Hk. destruct Hi. rewrite Hdc by lia. f_equal. lia.
Qed.

(** ** Reading *)

Lemma block_pos p : 0 <= p -> 0 <= p mod 4096 < 4096 /\ p = 4096 * (p / 4096) + p mod 4096 /\ 0 <= p / 4096.
Proof. intros Hp. pose proof (Z.mod_pos_bound p 4096). pose proof (Z.div_mod p 4096). pose proof (Z.div_pos p 4096). lia. Qed.

Lemma same_block p q : 4096 * (p / 4096) <= q < 4096 * (p / 4096) + 4096 -> q / 4096 = p / 4096 /\ q mod 4096 = q - 4096 * (p / 4096).
Proof. intros Hq. Z.div_mod_to_equations. lia. Qed.

Lemma file_block d node p k : storage node <> KFS2_INODE_STORAGE_TYPE_INLINE -> 0 <= k < 4096 ->
  file_mem d node (4096 * (p / 4096) + k) = image fs d (4096 * (first + dblock d node (p / 4096)) + k).
Proof.
  intros Hs Hk. unfold file_mem, place. destruct (Z.eqb_spec (storage node) KFS2_INODE_STORAGE_TYPE_INLINE); [done|].
  destruct (same_block p (4096 * (p / 4096) + k) ltac:(lia)) as [-> ->]. f_equal. lia.
Qed.

Lemma read_loop_S fuel d node offset size c acc : read_loop fs (S fuel) d node offset size c acc =
  if offset <? size then
    chunk ← (if ch_length c <=? u64 (offset - ch_offset c) then kfs2_chunk_read fs d node offset true c else Some c);
    let padding := u64 (offset - ch_offset chunk) in
    let read_size := if u64 (size - offset) <? u64 (ch_length chunk - padding) then u64 (size - offset) else u64 (ch_length chunk - padding) in
    l ← chunk_get node chunk padding read_size;
    read_loop fs fuel d node (u64 (offset + u64 (ch_length chunk - padding))) size chunk (acc ++ l)
  else Some acc.
Proof. done. Qed.

Lemma read_loop_done fuel d node offset size c acc : size <= offset -> read_loop fs fuel d node offset size c acc = Some acc.
Proof. intros Hl. destruct fuel; cbn; by destruct (Z.ltb_spec offset size); [lia|]. Qed.

Lemma read_loop_blocks d node fuel : forall offset size c acc, file_ok d node -> storage node <> KFS2_INODE_STORAGE_TYPE_INLINE -> caches_ok d node c ->
  0 <= offset <= size -> size <= n_size node -> size - offset <= Z.of_nat fuel -> ch_length c <= u64 (offset - ch_offset c) ->
  read_loop fs fuel d node offset size c acc = Some (acc ++ mem_read (file_mem d node) offset (size - offset)).
Proof.
  induction fuel as [| fuel IH]; intros offset size c acc HF Hs Hc Ho Hz Hf Hl; pose proof (size_range d node HF) as Hr;
    (destruct (Z.eqb_spec offset size) as [-> | Hne]; [rewrite read_loop_done, Z.sub_diag, app_nil_r by lia; done|]); [lia|].
  rewrite read_loop_S. destruct (Z.ltb_spec offset size); [| lia]. destruct (Z.leb_spec (ch_length c) (u64 (offset - ch_offset c))); [| lia].
  destruct (chunk_read_ok d node offset true c HF Hs ltac:(lia) Hc) as (c' & -> & (Eo & El & Ed & Hc' & b & Eb & Hbb & Hb)). cbn [mbind option_bind].
  destruct (block_pos offset ltac:(lia)) as (Hm & Ep & Hq). rewrite Eo, El. unfold chunk_get. rewrite Eb. cbn [mbind option_bind].
  rewrite (u64_id (offset - _)), (u64_id (size - offset)), (u64_id (4096 - _)) by lia. set (i := offset / 4096) in *. rewrite (u64_id (offset + _)) by lia.
  set (n := if size - offset <? 4096 - (offset - 4096 * i) then size - offset else 4096 - (offset - 4096 * i)).
  assert (Hn : n = Z.min (size - offset) (4096 - (offset - 4096 * i))) by (unfold n; destruct (Z.ltb_spec (size - offset) (4096 - (offset - 4096 * i))); lia).
  assert (mem_read b (offset - 4096 * i) n = mem_read (file_mem d node) offset n) as ->.
  { apply mem_read_ext. intros k Hk. rewrite (Hb eq_refl) by lia. unfold i. rewrite <- file_block by (done || lia). f_equal. lia. }
  destruct (Z.leb_spec (size - offset) (4096 - (offset - 4096 * i))).
  - replace n with (size - offset) by lia. apply read_loop_done. lia.
  - rewrite IH; [| done | done | done | lia | lia | lia | rewrite El, Eo; rewrite u64_id by lia; lia]. f_equal. rewrite <- app_assoc. f_equal.
    replace (size - offset) with (n + (size - (offset + (4096 - (offset - 4096 * i))))) by lia. rewrite mem_read_add by lia. do 2 f_equal. lia.
Qed.

Lemma read_loop_inline d node fuel offset size : file_ok d node -> storage node = KFS2_INODE_STORAGE_TYPE_INLINE -> 0 <= offset < size -> size <= n_size node ->
  0 < Z.of_nat fuel -> read_loop fs fuel d node offset size kfs2_chunk_init [] = Some (mem_read (file_mem d node) offset (size - offset)).
Proof.
  intros HF Hs Ho Hz Hf. destruct fuel as [| fuel]; [lia|]. rewrite read_loop_S. destruct (Z.ltb_spec offset size); [| lia].
  assert (Hz' : n_size node <= 48) by (destruct (fi_storage _ _ HF) as [? ? | E' ? | E' ? ?]; [done | rewrite Hs in E'; done | rewrite Hs in E'; done]).
  cbn [kfs2_chunk_init ch_length ch_offset]. rewrite Z.sub_0_r. destruct (Z.leb_spec 0 (u64 offset)) as [_ | Hneg]; [| pose proof (u64_range offset); lia].
  unfold kfs2_chunk_read. rewrite Hs, Z.eqb_refl. destruct (Z.leb_spec 48 offset); [lia|]. cbn [mbind option_bind ch_offset ch_length].
  rewrite Z.sub_0_r, (u64_id offset), (u64_id (size - offset)), (u64_id (48 - offset)) by lia. unfold chunk_get. cbn [ch_data mbind option_bind]. cbn zeta. cbn [mbind option_bind app].
  assert ((if size - offset <? 48 - offset then size - offset else 48 - offset) = size - offset) as -> by (destruct (Z.ltb_spec (size - offset) (48 - offset)); lia).
  rewrite read_loop_done by (rewrite u64_id; lia). f_equal. apply mem_read_ext. intros k Hk. unfold file_mem. rewrite Hs, Z.eqb_refl. f_equal. lia.
Qed.

(** The number of bytes that a transfer moves. *)
Definition moved (node : kfs2_node_t) (offset size : Z) : Z := if n_size node <=? offset then 0 else Z.min size (n_size node - offset).

Lemma clipped_ok d node offset size : file_ok d node -> 0 <= offset -> 0 <= size -> offset + size < 2 ^ 64 -> clipped node offset size = moved node offset size.
Proof.
  intros HF Ho Hz Hs. pose proof (size_range d node HF). unfold clipped, moved. destruct (fi_node _ _ HF) as [_ Hi]. destruct (Z.eqb_spec (n_inode node) 0xffffffff); [done|]. cbn [orb].
  destruct (Z.leb_spec (n_size node) offset); [done|]. rewrite u64_id by lia. destruct (Z.leb_spec (n_size node) (offset + size)); [rewrite u64_id by lia; lia | lia].
Qed.

Lemma node_read_ok d node offset size : file_ok d node -> 0 <= offset -> 0 <= size -> offset + size < 2 ^ 64 ->
  kfs2_node_read fs d node offset size = Some (moved node offset size, mem_read (file_mem d node) offset (moved node offset size)).
Proof.
  intros HF Ho Hz Hs. pose proof (size_range d node HF) as Hr. unfold kfs2_node_read. rewrite (clipped_ok d) by done.
  destruct (Z.eqb_spec (moved node offset size) 0) as [E | Hne]; [rewrite E; done|].
  assert (Hm : 0 < moved node offset size /\ offset + moved node offset size <= n_size node).
  { revert Hne. unfold moved. destruct (Z.leb_spec (n_size node) offset); lia. }
  set (n := moved node offset size) in *. rewrite u64_id by lia.
  assert (read_loop fs (Z.to_nat n) d node offset (n + offset) kfs2_chunk_init [] = Some (mem_read (file_mem d node) offset n)) as ->; [| done].
  replace n with (n + offset - offset) at 3 by lia. destruct (Z.eqb_spec (storage node) KFS2_INODE_STORAGE_TYPE_INLINE) as [Es | Es].
  - apply read_loop_inline; done || lia.
  - rewrite read_loop_blocks; [done | done | done | apply caches_init | lia | lia | lia |]. cbn. pose proof (u64_range (offset - 0)). lia.
Qed.

(** ** Writing *)

(** Block [i] of the file is replaced by [b]. *)
Definition block_replaced (d d' : D) (node : kfs2_node_t) (i : Z) (b : mem) : Prop :=
  forall x, image fs d' x = if (4096 * (first + dblock d node i) <=? x) && (x <? 4096 * (first + dblock d node i) + 4096)
                            then b (x - 4096 * (first + dblock d node i)) else image fs d x.

Section replaced.
Context (d d' : D) (node : kfs2_node_t) (i : Z) (b : mem).
Context (HF : file_ok d node) (Hs : storage node <> KFS2_INODE_STORAGE_TYPE_INLINE) (Hi : in_file node i) (HR : block_replaced d d' node i b).

Lemma replaced_index k : storage node = KFS2_INODE_STORAGE_TYPE_DOUBLE -> 0 <= k < 4096 ->
  image fs d' (4096 * (first + n_double node) + k) = image fs d (4096 * (first + n_double node) + k).
Proof. intros E Hk. rewrite HR. pose proof (fi_index _ _ HF E i Hi). acases; done. Qed.

Lemma replaced_dblock j : in_file node j -> dblock d' node j = dblock d node j.
Proof.
  intros [Hj Hj']. unfold dblock. destruct (Z.eqb_spec (storage node) KFS2_INODE_STORAGE_TYPE_SINGLE); [done|].
  destruct (fi_storage _ _ HF) as [| | Es Hz _]; [congruence | congruence |]. apply load_ext. intros k Hk. rewrite <- !Z.add_assoc. apply replaced_index; [done | lia].
Qed.

Lemma replaced_file_ok : file_ok d' node.
Proof.
  destruct HF as [H1 H2 H3 H4 H5 H6]. split; [done | done | done | | |].
  - intros _ j Hj. rewrite replaced_dblock by done. by apply H4.
  - intros _ j k Hj Hk. rewrite !replaced_dblock by done. by apply H5.
  - intros E j Hj. rewrite replaced_dblock by done. by apply H6.
Qed.

Lemma replaced_mem p : 0 <= p < n_size node -> file_mem d' node p = if p / 4096 =? i then b (p mod 4096) else file_mem d node p.
Proof.
  intros Hp. destruct (block_pos p ltac:(lia)) as (Hm & Ep & Hq). assert (Hj : in_file node (p / 4096)) by (split; lia).
  rewrite Ep at 1 4. rewrite !file_block by done. rewrite replaced_dblock by done. rewrite HR. destruct (Z.eqb_spec (p / 4096) i) as [-> | Hne].
  - acases. f_equal. lia.
  - assert (dblock d node (p / 4096) <> dblock d node i) by (intros E; by apply Hne, (fi_apart _ _ HF Hs)). acases; done.
Qed.

Lemma replaced_owns x : owns d' node x <-> owns d node x.
Proof.
  unfold owns. destruct (_ =? _); [done|]. split; intros (j & Hj & Hx); exists j; (split; [done|]); [rewrite replaced_dblock in Hx | rewrite replaced_dblock]; done.
Qed.

Lemma replaced_frame x : ~ owns d node x -> image fs d' x = image fs d x.
Proof.
  intros Hx. rewrite HR. destruct (Z.leb_spec (4096 * (first + dblock d node i)) x), (Z.ltb_spec x (4096 * (first + dblock d node i) + 4096)); try done. cbn.
  exfalso. apply Hx. unfold owns. destruct (Z.eqb_spec (storage node) KFS2_INODE_STORAGE_TYPE_INLINE); [done | by exists i].
Qed.
End replaced.

Lemma write_loop_S fuel d node offset size c buffer : write_loop fs (S fuel) d node offset size c buffer =
  if offset <? size then
    chunk ← kfs2_chunk_read fs d node offset (z2b (Z.land offset (KFS2_BLOCK_SIZE - 1)) || (u64 (size - offset) <? KFS2_BLOCK_SIZE)) c;
    let padding := u64 (offset - ch_offset chunk) in
    let write_size := if u64 (size - offset) <? u64 (ch_length chunk - padding) then u64 (size - offset) else u64 (ch_length chunk - padding) in
    '(node, chunk) ← chunk_put node chunk padding (take (Z.to_nat write_size) buffer);
    d ← kfs2_chunk_write fs d node chunk;
    write_loop fs fuel d node (u64 (offset + write_size)) size chunk (drop (Z.to_nat write_size) buffer)
  else Some (d, node).
Proof. done. Qed.

Lemma write_loop_done fuel d node offset size c buffer : size <= offset -> write_loop fs fuel d node offset size c buffer = Some (d, node).
Proof. intros Hl. destruct fuel; cbn; by destruct (Z.ltb_spec offset size); [lia|]. Qed.

(** A write of [l] at [offset], as seen through the file and through the device. *)
Definition file_written (d d' : D) (node node' : kfs2_node_t) (offset : Z) (l : list Z) : Prop :=
  file_ok d' node' /\ n_size node' = n_size node /\ n_inode node' = n_inode node /\ (forall x, owns d' node' x <-> owns d node x) /\
  (forall p, 0 <= p < n_size node -> file_mem d' node' p = mem_write (file_mem d node) offset l p) /\
  (forall x, ~ owns d node x -> image fs d' x = image fs d x).

Lemma write_loop_blocks fuel : forall d node offset size c buffer, file_ok d node -> storage node <> KFS2_INODE_STORAGE_TYPE_INLINE -> caches_ok d node c ->
  0 <= offset <= size -> size <= n_size node -> size - offset <= Z.of_nat fuel -> bytes buffer -> size - offset <= Z.of_nat (length buffer) ->
  exists d', write_loop fs fuel d node offset size c buffer = Some (d', node) /\ file_written d d' node node offset (take (Z.to_nat (size - offset)) buffer).
Proof.
  induction fuel as [| fuel IH]; intros d node offset size c buffer HF Hs Hc Ho Hz Hf Hbuf Hlen; pose proof (size_range d node HF) as Hr;
    (destruct (Z.eqb_spec offset size) as [-> | Hne];
      [exists d; rewrite write_loop_done, Z.sub_diag by lia; split; [done|]; split_and!; [done | done | done | done | | done];
       intros p Hp; symmetry; apply mem_write_nil |]); [lia|].
  rewrite write_loop_S. destruct (Z.ltb_spec offset size); [| lia]. unfold KFS2_BLOCK_SIZE. rewrite (u64_id (size - offset)) by lia.
  set (fetch := z2b (Z.land offset (4096 - 1)) || (size - offset <? 4096)).
  assert (Hfetch : offset mod 4096 <> 0 \/ size - offset < 4096 -> fetch = true).
  { intros [Hx | Hx]; unfold fetch; apply orb_true_iff; [left; by apply unaligned | right; by apply Z.ltb_lt]. }
  destruct (chunk_read_ok d node offset fetch c HF Hs ltac:(lia) Hc) as (c' & -> & (Eo & El & Ed & Hc' & b & Eb & Hbb & Hb)). cbn [mbind option_bind].
  destruct (block_pos offset ltac:(lia)) as (Hm & Ep & Hq). rewrite Eo, El. unfold chunk_put. rewrite Eb. cbn [mbind option_bind].
  rewrite (u64_id (offset - _)), (u64_id (4096 - _)) by lia. set (i := offset / 4096) in *.
  set (n := if size - offset <? 4096 - (offset - 4096 * i) then size - offset else 4096 - (offset - 4096 * i)).
  assert (Hn : n = Z.min (size - offset) (4096 - (offset - 4096 * i))) by (unfold n; destruct (Z.ltb_spec (size - offset) (4096 - (offset - 4096 * i))); lia).
  clearbody n. rewrite (u64_id (offset + n)) by lia. set (l := take (Z.to_nat n) buffer). assert (Hll : Z.of_nat (length l) = n) by (unfold l; rewrite length_take; lia).
  set (b' := mem_write b (offset - 4096 * i) l). assert (Hbb' : byte_mem b') by (apply mem_write_bytes; [done | by apply bytes_take]).
  assert (Hi : in_file node i) by (split; lia). destruct (fi_blocks _ _ HF Hs i Hi) as [Hd0 Hdb]. pose proof (dblock_pos d node i (fi_bytes _ _ HF)).
  unfold kfs2_chunk_write. destruct (Z.eqb_spec (storage node) KFS2_INODE_STORAGE_TYPE_INLINE); [done|]. cbn [ch_data ch_data_offset]. rewrite Ed.
  unfold kfs2_io_data_block_write. rewrite data_block_ok by lia.
  destruct (block_write_ok fs blocks d (first + dblock d node i) b' HP ltac:(lia) Hbb') as (d1 & -> & Hd1). unfold KFS2_BLOCK_SIZE in Hd1. cbn [mbind option_bind].
  assert (HR : block_replaced d d1 node i b') by exact Hd1.
  assert (Hw : forall p, 0 <= p < n_size node -> file_mem d1 node p = mem_write (file_mem d node) offset l p).
  { intros p Hp. rewrite (replaced_mem d d1 node i b') by done. destruct (block_pos p ltac:(lia)) as (Hpm & Epp & Hpq).
    destruct (Z.eqb_spec (p / 4096) i) as [E | Hne'].
    - unfold b', mem_write. rewrite Hll. rewrite E in Epp. acases; [f_equal; lia | | ];
        (rewrite Hb by (lia || (apply Hfetch; lia)); rewrite <- (file_block d node offset) by (done || lia); f_equal; lia).
    - unfold mem_write. rewrite Hll. acases; done. }
  pose proof (replaced_file_ok d d1 node i b' HF Hs Hi HR) as HF1.
  destruct (IH d1 node (offset + n) size (Chunk (4096 * i) (ch_quadruple_cache c') (ch_triple_cache c') (ch_double_cache c') (Page b') 4096 (dblock d node i)) (drop (Z.to_nat n) buffer))
    as (d2 & E2 & HF2 & _ & _ & Ho2 & Hw2 & Hfr2); [done | done | | lia | lia | lia | by apply bytes_drop | rewrite length_drop; lia |].
  { split; cbn [ch_double_cache ch_data]; [| right; by exists b']. intros Es dc Edc k Hk. rewrite (replaced_index d d1 node i b') by done. by apply Hc'. }
  exists d2. rewrite Eo, El. split; [exact E2|]. split_and!; [done | done | done | | |].
  - intros x. rewrite Ho2. by apply (replaced_owns d d1 node i b').
  - intros p Hp. rewrite Hw2 by done. rewrite (mem_write_ext _ _ _ _ _ (Hw p Hp)). rewrite <- Hll at 1. rewrite mem_write_app. f_equal.
    unfold l. replace (Z.to_nat (size - offset)) with (Z.to_nat n + Z.to_nat (size - (offset + n)))%nat by lia. apply take_take_drop.
  - intros x Hx. rewrite Hfr2 by (by rewrite (replaced_owns d d1 node i b')). by apply (replaced_frame d d1 node i b').
Qed.

(** Writing into the data of a node keeps its other fields. *)
Lemma put_inline_field n node pos l off : 0 <= pos -> pos + Z.of_nat (length l) <= 48 -> off + Z.of_nat n <= n_data \/ n_data + 48 <= off ->
  load n (mem_write node (n_data + pos) l) off = load n node off.
Proof. intros H1 H2 H3. apply load_ext. intros k Hk. apply mem_write_out. unfold n_data in *. lia. Qed.

Lemma write_loop_inline fuel d node offset size buffer : file_ok d node -> storage node = KFS2_INODE_STORAGE_TYPE_INLINE -> 0 <= offset < size -> size <= n_size node ->
  0 < Z.of_nat fuel -> bytes buffer -> size - offset <= Z.of_nat (length buffer) ->
  exists d' node', write_loop fs fuel d node offset size kfs2_chunk_init buffer = Some (d', node') /\
    file_written d d' node node' offset (take (Z.to_nat (size - offset)) buffer) /\
    exists n, kfs2_io_inode_read fs d' (n_inode node') = Some n /\ same_node n node'.
Proof.
  intros HF Hs Ho Hz Hf Hbuf Hlen. destruct fuel as [| fuel]; [lia|]. rewrite write_loop_S. destruct (Z.ltb_spec offset size); [| lia].
  assert (Hz' : n_size node <= 48) by (destruct (fi_storage _ _ HF) as [? ? | E' ? | E' ? ?]; [done | rewrite Hs in E'; done | rewrite Hs in E'; done]).
  unfold kfs2_chunk_read at 1. rewrite Hs, Z.eqb_refl. destruct (Z.leb_spec 48 offset); [lia|]. cbn [mbind option_bind ch_offset ch_length].
  rewrite Z.sub_0_r, (u64_id offset), (u64_id (size - offset)), (u64_id (48 - offset)) by lia.
  assert ((if size - offset <? 48 - offset then size - offset else 48 - offset) = size - offset) as -> by (destruct (Z.ltb_spec (size - offset) (48 - offset)); lia).
  unfold chunk_put. cbn [ch_data mbind option_bind]. set (l := take (Z.to_nat (size - offset)) buffer). assert (Hll : Z.of_nat (length l) = size - offset) by (unfold l; rewrite length_take; lia).
  set (node1 := mem_write node (n_data + offset) l). assert (Hb1 : byte_mem node1) by (apply mem_write_bytes; [apply HF | by apply bytes_take]).
  assert (Hfl : forall n off, off + Z.of_nat n <= n_data \/ n_data + 48 <= off -> load n node1 off = load n node off) by (intros n off Hoff; apply put_inline_field; [lia | lia | done]).
  assert (Ef : storage node1 = KFS2_INODE_STORAGE_TYPE_INLINE) by (unfold storage, n_flags; rewrite Hfl by (unfold n_data; lia); exact Hs).
  assert (Ei : n_inode node1 = n_inode node) by (unfold n_inode; apply Hfl; unfold n_data; lia).
  assert (Ez : n_size node1 = n_size node) by (unfold n_size; apply Hfl; unfold n_data; lia).
  unfold kfs2_chunk_write. rewrite Ef, Z.eqb_refl. destruct (fi_node _ _ HF) as [HN Hni]. rewrite <- Ei in HN.
  destruct (inode_write_ok fs blocks d node1 HP HN Hb1) as (d1 & -> & Hd1). cbn [mbind option_bind]. rewrite write_loop_done by (rewrite u64_id; lia).
  exists d1, node1. split; [done|]. split; [| by apply (inode_written_read fs blocks d)]. split_and!; [| done | done | | |].
  - split; [done | by rewrite Ei in * | apply stored_inline; [done | lia] | done | done |]. intros E. rewrite Ef in E. done.
  - intros x. unfold owns. by rewrite Ef, Hs, Ei.
  - intros p Hp. unfold file_mem, mem_write. rewrite Ef, Hs. cbn [Z.eqb KFS2_INODE_STORAGE_TYPE_INLINE]. unfold node1, mem_write. rewrite Hll. acases; try done. f_equal. lia.
  - intros x Hx. rewrite Hd1. apply with_node_out. unfold owns in Hx. rewrite Hs in Hx. cbn in Hx. rewrite Ei. lia.
Qed.

Lemma node_write_ok d node offset buffer : file_ok d node -> 0 <= offset -> bytes buffer -> offset + Z.of_nat (length buffer) < 2 ^ 64 ->
  let n := moved node offset (Z.of_nat (length buffer)) in
  exists d' node', kfs2_node_write fs d node offset buffer (Z.of_nat (length buffer)) = Some (d', node', n) /\
    file_written d d' node node' offset (take (Z.to_nat n) buffer) /\
    (storage node = KFS2_INODE_STORAGE_TYPE_INLINE -> 0 < n -> exists n', kfs2_io_inode_read fs d' (n_inode node') = Some n' /\ same_node n' node').
Proof.
  intros HF Ho Hbuf Hs n. pose proof (size_range d node HF) as Hr. unfold kfs2_node_write. rewrite (clipped_ok d) by (done || lia). fold n.
  destruct (Z.eqb_spec n 0) as [E | Hne].
  - exists d, node. rewrite E. split; [done|]. split; [| lia]. split_and!; [done | done | done | done | | done]. intros p Hp. symmetry. apply mem_write_nil.
  - assert (Hm : 0 < n /\ offset + n <= n_size node /\ n <= Z.of_nat (length buffer)) by (revert Hne; unfold n, moved; destruct (Z.leb_spec (n_size node) offset); lia).
    clearbody n. rewrite u64_id by lia. destruct (Z.eqb_spec (storage node) KFS2_INODE_STORAGE_TYPE_INLINE) as [Es | Es].
    + destruct (write_loop_inline (Z.to_nat n) d node offset (n + offset) buffer HF Es) as (d' & node' & -> & Hw & Hrd); [lia | lia | lia | done | lia |].
      cbn [mbind option_bind]. replace (n + offset - offset) with n in Hw by lia. exists d', node'. done.
    + destruct (write_loop_blocks (Z.to_nat n) d node offset (n + offset) kfs2_chunk_init buffer HF Es) as (d' & -> & Hw); [apply caches_init | lia | lia | lia | done | lia |].
      cbn [mbind option_bind]. replace (n + offset - offset) with n in Hw by lia. exists d', node. split_and!; [done | done |]. intros Es'. done.
Qed.
End spec.

(** ** The contract: a file is a list of bytes *)

Inductive file_request := Read (offset size : Z) | Write (offset : Z) (data : list Z).

Definition read_bytes (c : list Z) (offset size : Z) : list Z := take (Z.to_nat size) (drop (Z.to_nat offset) c).

(** A file does not grow. *)
Definition write_bytes (c : list Z) (offset : Z) (data : list Z) : list Z :=
  take (Z.to_nat offset) c ++ take (length c - Z.to_nat offset) data ++ drop (Z.to_nat offset + length data) c.

(** What a request returns: the bytes read and the number of bytes moved. *)
Definition byte_array (c : list Z) (r : file_request) : list Z * (list Z * Z) :=
  match r with
  | Read offset size => let l := read_bytes c offset size in (c, (l, Z.of_nat (length l)))
  | Write offset data => (write_bytes c offset data, ([], Z.of_nat (Nat.min (length data) (length c - Z.to_nat offset))))
  end.

Fixpoint byte_array_all (c : list Z) (rs : list file_request) : list Z * list (list Z * Z) :=
  match rs with
  | [] => (c, [])
  | r :: rs => let '(c, out) := byte_array c r in let '(c, outs) := byte_array_all c rs in (c, out :: outs)
  end.

Definition request_fits (r : file_request) : Prop :=
  match r with
  | Read offset size => 0 <= offset /\ 0 <= size /\ offset + size < 2 ^ 64
  | Write offset data => 0 <= offset /\ bytes data /\ offset + Z.of_nat (length data) < 2 ^ 64
  end.

Lemma mem_read_part m n offset size : 0 <= offset -> 0 <= size -> offset + size <= n -> mem_read m offset size = read_bytes (mem_read m 0 n) offset size.
Proof.
  intros H1 H2 H3. unfold read_bytes. apply list_eq. intros i. rewrite lookup_mem_read. destruct (Z.ltb_spec (Z.of_nat i) size).
  - rewrite lookup_take_lt by lia. rewrite lookup_drop, lookup_mem_read. acases. do 2 f_equal. lia.
  - by rewrite lookup_take_ge by lia.
Qed.

Lemma mem_read_written m m' n offset data : 0 <= offset -> 0 <= n ->
  (forall p, 0 <= p < n -> m' p = mem_write m offset (take (Z.to_nat (n - offset)) data) p) -> mem_read m' 0 n = write_bytes (mem_read m 0 n) offset data.
Proof.
  intros Ho Hn Hw. unfold write_bytes. rewrite length_mem_read. apply list_eq. intros i. rewrite lookup_mem_read. destruct (Z.ltb_spec (Z.of_nat i) n).
  - rewrite Hw by lia. rewrite Z.add_0_l. destruct (decide (Z.of_nat i < offset)).
    + rewrite mem_write_out by lia. rewrite lookup_app_l by (rewrite length_take, length_mem_read; lia). rewrite lookup_take_lt, lookup_mem_read by lia. acases. done.
    + rewrite lookup_app_r by (rewrite length_take, length_mem_read; lia). rewrite length_take, length_mem_read.
      replace (i - Nat.min (Z.to_nat offset) (Z.to_nat n))%nat with (i - Z.to_nat offset)%nat by lia. destruct (decide (i - Z.to_nat offset < length data)%nat).
      * rewrite lookup_app_l by (rewrite length_take; lia). rewrite lookup_take_lt by lia.
        replace (Z.of_nat i) with (offset + Z.of_nat (i - Z.to_nat offset)) by lia.
        destruct (data !! (i - Z.to_nat offset)%nat) as [x |] eqn:Ex; [| apply lookup_ge_None in Ex; lia].
        rewrite (mem_write_in _ _ _ _ x); [done|]. rewrite lookup_take_lt by lia. done.
      * rewrite mem_write_out by (rewrite length_take; lia). rewrite lookup_app_r by (rewrite length_take; lia). rewrite length_take, lookup_drop, lookup_mem_read. acases. do 2 f_equal. lia.
  - rewrite lookup_app_r by (rewrite length_take, length_mem_read; lia). rewrite lookup_app_r by (rewrite !length_take, length_mem_read; lia).
    rewrite lookup_drop, lookup_mem_read. rewrite !length_take, length_mem_read. acases. done.
Qed.

Section contract.
Context {D : Type} `{BlockDevice D} {block_size end_lba : Z} `{!DeviceLaws D block_size end_lba}.
Context (fs : kfs2_filesystem_t) (blocks : Z) (HP : placed (block_size := block_size) (end_lba := end_lba) fs blocks).
Context (Hfirst : 0 <= first_data_block (root_block fs)) (Hblocks : blocks < 2 ^ 64).

Definition file_serve (d : D) (node : kfs2_node_t) (r : file_request) : option (D * kfs2_node_t * (list Z * Z)) :=
  match r with
  | Read offset size => '(out, l) ← kfs2_node_read fs d node offset size; Some (d, node, (l, out))
  | Write offset data => '(d, node, out) ← kfs2_node_write fs d node offset data (Z.of_nat (length data)); Some (d, node, ([], out))
  end.

Fixpoint file_serve_all (d : D) (node : kfs2_node_t) (rs : list file_request) : option (D * kfs2_node_t * list (list Z * Z)) :=
  match rs with
  | [] => Some (d, node, [])
  | r :: rs =>
    '(d, node, out) ← file_serve d node r;
    '(d, node, outs) ← file_serve_all d node rs;
    Some (d, node, out :: outs)
  end.

Definition file_content (d : D) (node : kfs2_node_t) : list Z := mem_read (file_mem fs d node) 0 (n_size node).

(** What a file needs of the device: its own blocks and its block of numbers. *)
Definition uses (d : D) (node : kfs2_node_t) (x : Z) : Prop :=
  owns fs d node x \/ storage node = KFS2_INODE_STORAGE_TYPE_DOUBLE /\
    4096 * (first_data_block (root_block fs) + n_double node) <= x < 4096 * (first_data_block (root_block fs) + n_double node) + 4096.

(** The bytes a file does not use may change. *)
Lemma content_frame d d' node : file_ok fs blocks d node -> (forall x, uses d node x -> image fs d' x = image fs d x) -> file_content d' node = file_content d node.
Proof.
  intros HF Hx. unfold file_content. apply mem_read_ext. intros p Hp. rewrite !Z.add_0_l. unfold file_mem. destruct (Z.eqb_spec (storage node) KFS2_INODE_STORAGE_TYPE_INLINE) as [| Hs]; [done|].
  destruct (block_pos p ltac:(lia)) as (Hm & Ep & Hq). assert (Hi : in_file node (p / 4096)) by (split; lia).
  assert (dblock fs d' node (p / 4096) = dblock fs d node (p / 4096)) as Ed.
  { unfold dblock. destruct (Z.eqb_spec (storage node) KFS2_INODE_STORAGE_TYPE_SINGLE) as [| Hs']; [done|]. destruct (fi_storage _ _ _ _ HF) as [| | Es Hz _]; [congruence | congruence |].
    apply load_ext. intros k Hk. apply Hx. right. split; [done|]. lia. }
  unfold place. rewrite Ed. apply Hx. left. unfold owns. destruct (Z.eqb_spec (storage node) KFS2_INODE_STORAGE_TYPE_INLINE); [done|]. exists (p / 4096). split; [done | lia].
Qed.

Lemma file_serve_ok d node r : file_ok fs blocks d node -> request_fits r -> exists d' node' out, file_serve d node r = Some (d', node', out) /\
  byte_array (file_content d node) r = (file_content d' node', out) /\ file_ok fs blocks d' node' /\ (forall x, owns fs d' node' x <-> owns fs d node x) /\
  (forall x, ~ owns fs d node x -> image fs d' x = image fs d x).
Proof.
  intros HF Hr. pose proof (size_range fs blocks d node HF) as Hz. assert (Hl : length (file_content d node) = Z.to_nat (n_size node)) by (unfold file_content; apply length_mem_read).
  destruct r as [offset size | offset data]; cbn [file_serve byte_array request_fits] in *.
  - destruct Hr as (H1 & H2 & H3). rewrite (node_read_ok fs blocks HP Hfirst Hblocks) by done. cbn [mbind option_bind]. eexists d, node, _. split; [done|].
    assert (E : mem_read (file_mem fs d node) offset (moved node offset size) = read_bytes (file_content d node) offset size).
    { unfold moved. destruct (Z.leb_spec (n_size node) offset).
      - unfold read_bytes. rewrite drop_ge by lia. by rewrite take_nil.
      - rewrite (mem_read_part _ (n_size node)) by lia. fold (file_content d node). unfold read_bytes. rewrite Z2Nat.inj_min by lia.
        rewrite (Z2Nat.inj_sub (n_size node)) by lia. rewrite <- Hl, <- length_drop. rewrite <- take_take, (take_ge (drop _ _)) by done. done. }
    rewrite <- E, length_mem_read. split_and!; [| done | done | done]. do 3 f_equal. unfold moved. destruct (Z.leb_spec (n_size node) offset); lia.
  - destruct Hr as (H1 & H2 & H3). destruct (node_write_ok fs blocks HP Hfirst Hblocks d node offset data HF H1 H2 H3) as (d' & node' & -> & (HF' & Ez & _ & Ho & Hw & Hfr) & _).
    cbn [mbind option_bind]. eexists d', node', _. split; [done|]. split_and!; [| done | done | done]. f_equal.
    + unfold file_content. rewrite Ez. symmetry. apply mem_read_written; [done | lia |]. intros p Hp. rewrite Hw by done. f_equal.
      unfold moved. destruct (Z.leb_spec (n_size node) offset); [rewrite (Z2Nat.inj_sub _ offset) by lia; replace (Z.to_nat (n_size node) - Z.to_nat offset)%nat with 0%nat by lia; done|].
      rewrite Z2Nat.inj_min, Nat2Z.id, Nat.min_comm by lia. rewrite <- take_take, (take_ge data) by done. done.
    + f_equal. unfold moved. destruct (Z.leb_spec (n_size node) offset); lia.
Qed.

Lemma file_serve_all_ok rs : forall d node, file_ok fs blocks d node -> Forall request_fits rs -> exists d' node' outs, file_serve_all d node rs = Some (d', node', outs) /\
  byte_array_all (file_content d node) rs = (file_content d' node', outs) /\ (forall x, owns fs d' node' x <-> owns fs d node x) /\
  (forall x, ~ owns fs d node x -> image fs d' x = image fs d x).
Proof.
  induction rs as [| r rs IH]; intros d node HF HR; [exists d, node, []; done|]. apply Forall_cons_1 in HR as [Hr HR].
  destruct (file_serve_ok d node r HF Hr) as (d1 & node1 & out & E1 & S1 & HF1 & Ho1 & Hx1). destruct (IH d1 node1 HF1 HR) as (d2 & node2 & outs & E2 & S2 & Ho2 & Hx2).
  exists d2, node2, (out :: outs). cbn [file_serve_all byte_array_all]. rewrite E1, S1. cbn [mbind option_bind]. rewrite E2, S2. split_and!; [done | done | |].
  - intros x. by rewrite Ho2.
  - intros x Hx. rewrite Hx2 by (by rewrite Ho1). by apply Hx1.
Qed.

End contract.

(** A file of 5000 bytes in the data blocks 3 and 5 of the RAM disk. *)
Import Ram.

Definition small_node : kfs2_node_t := set_inode (set_flags (set_single (set_single (set_size (fun _ => 0) 5000) 0 3) 1 5) KFS2_INODE_STORAGE_TYPE_SINGLE) 5.

Lemma small_file_ok : file_ok ram_fs 100 empty_disk small_node.
Proof.
  assert (Hs : storage small_node = KFS2_INODE_STORAGE_TYPE_SINGLE) by reflexivity. assert (Hz : n_size small_node = 5000) by reflexivity.
  assert (Hd : forall i, in_file small_node i -> i = 0 /\ dblock ram_fs empty_disk small_node i = 3 \/ i = 1 /\ dblock ram_fs empty_disk small_node i = 5).
  { intros i [Hi Hi']. rewrite Hz in Hi'. assert (i = 0 \/ i = 1) as [-> | ->] by lia; [left | right]; split; reflexivity. }
  split.
  - repeat apply store_byte_mem. intros i. lia.
  - split; [repeat split; vm_compute; congruence | vm_compute; congruence].
  - apply stored_single; [done | rewrite Hz; lia].
  - intros _ i Hi. destruct (Hd i Hi) as [[_ ->] | [_ ->]]; (split; [done|]); reflexivity.
  - intros _ i j Hi Hj. destruct (Hd i Hi) as [[-> ->] | [-> ->]], (Hd j Hj) as [[-> ->] | [-> ->]]; done.
  - rewrite Hs. done.
Qed.


(** Block number 0 stands for a missing block, but it is also the number of the
    first data block, the first one that the bitmap hands out: a file that
    begins there cannot be read. *)
Lemma block_zero_panics {D : Type} `{BlockDevice D} fs (d : D) node offset size : storage node = KFS2_INODE_STORAGE_TYPE_SINGLE -> n_single node (offset / 4096) = 0 ->
  clipped node offset size <> 0 -> 0 <= offset < u64 (clipped node offset size + offset) -> 0 < clipped node offset size -> kfs2_node_read fs d node offset size = None.
Proof.
  intros Hs Hb Hc Ho Hp. unfold kfs2_node_read. set (n := clipped node offset size) in *. destruct (Z.eqb_spec n 0); [done|].
  destruct (Z.to_nat n) as [| fuel] eqn:E; [lia|]. rewrite read_loop_S. destruct (Z.ltb_spec offset (u64 (n + offset))); [| lia].
  cbn [kfs2_chunk_init ch_length ch_offset]. pose proof (u64_range (offset - 0)). destruct (Z.leb_spec 0 (u64 (offset - 0))); [| lia].
  unfold kfs2_chunk_read. rewrite Hs. cbn [Z.eqb KFS2_INODE_STORAGE_TYPE_SINGLE KFS2_INODE_STORAGE_TYPE_INLINE]. unfold KFS2_BLOCK_SIZE. rewrite Hb.
  destruct (6 <=? offset / 4096); [done|]. done.
Qed.

(** [offset+size] wraps: a length of [2^64-1] is not clipped, nothing is read, and
    the whole length is reported. *)
Lemma huge_read_reported : kfs2_node_read ram_fs empty_disk small_node 1 (2 ^ 64 - 1) = Some (2 ^ 64 - 1, []).
Proof.
  unfold kfs2_node_read. assert (clipped small_node 1 (2 ^ 64 - 1) = 2 ^ 64 - 1) as -> by reflexivity. cbn [Z.eqb].
  rewrite (read_loop_done ram_fs) by (vm_compute; congruence). reflexivity.
Qed.
