(* ===== verification/Compressor.v ===== *)
(** * The compressor ([src/src/common/compressor/compressor.c]) and the
    decompressor of the boot loader ([decompressor.asm]).

    The kernel image is stored as a stream of chunks: bytes to take over, and
    references to bytes that were produced before.  Matches are found with the
    search table of Knuth, Morris and Pratt over a sliding window.  The bytes
    written to the output are a list; [None] is an access outside of the data
    or of the part of the search table that was filled.  The decompressor works
    on memory in words of eight bytes. *)
From stdpp Require Import base tactics list numbers option gmap.
From Stdlib Require Import ZArith Lia.
From S2P Require Import Prelude.
#[local] Open Scope Z_scope.

Definition MIN_MATCH_LENGTH : Z := 4.
Definition MAX_NON_MATCH_LENGTH : Z := Z.shiftl 1 14 - 1.
Definition MAX_MATCH_LENGTH : Z := Z.shiftl 1 13 - 1.
Definition MATCH_ALIGNMENT : Z := 8.
Definition WINDOW_SIZE : Z := Z.shiftl 1 10 - 1.
Definition MAX_PREPROCESSED_MATCH_LENGTH : Z := Z.shiftl 1 10 - 1.
Definition WINDOW_SIZE_FAST : Z := Z.shiftl 1 5 - 1.
Definition MAX_PREPROCESSED_MATCH_LENGTH_FAST : Z := Z.shiftl 1 5 - 1.

Inductive compression_level :=
| COMPRESSOR_COMPRESSION_LEVEL_NONE
| COMPRESSOR_COMPRESSION_LEVEL_FAST
| COMPRESSOR_COMPRESSION_LEVEL_FULL.

Definition _encode_non_match (non_match_length : Z) : list Z :=
  u8 (Z.lor (Z.shiftl (Z.land non_match_length 0x3f) 2) (Z.shiftl (b2z (63 <? non_match_length)) 1)) ::
  (if 63 <? non_match_length then [u8 (Z.shiftr non_match_length 6)] else []).

(** [u8 encoded_match[3]] *)
Definition encoded_match (match_length match_offset : Z) : list Z :=
  [u8 (Z.lor (Z.shiftl (Z.land match_length 0x7f) 1) 1); u8 (Z.lor (Z.shiftl (Z.land match_offset 3) 6) (Z.shiftr match_length 7)); u8 (Z.shiftr match_offset 2)].

Section compress.
Context (data : list Z).

Definition data_length : Z := Z.of_nat (length data).

Definition at_ (i : Z) : option Z := if 0 <=? i then data !! Z.to_nat i else None.

(** [_emit_data(data+offset,length,out)] *)
Definition slice (offset length : Z) : list Z := take (Z.to_nat length) (drop (Z.to_nat offset) data).

(** [for (;j!=0xffff&&data[offset+i]!=data[offset+j];j=kmp_search_table[j])] *)
Fixpoint fall_back (fuel : nat) (table : gmap Z Z) (offset i j : Z) : option Z :=
  match fuel with
  | O => None
  | S fuel =>
    if j =? 0xffff then Some j
    else
      x ← at_ (offset + i); y ← at_ (offset + j);
      if x =? y then Some j else j ← table !! j; fall_back fuel table offset i j
  end.

(** The loop that fills the table, from [i] on, [n] times. *)
Fixpoint fill_table (n : nat) (table : gmap Z Z) (offset i j : Z) : option (gmap Z Z) :=
  match n with
  | O => Some table
  | S n =>
    x ← at_ (offset + i); y ← at_ (offset + j);
    '(table, j) ← (if x =? y then k ← table !! j; Some (<[i := k]> table, j)
                   else let table := <[i := j]> table in j ← fall_back (S (Z.to_nat i)) table offset i j; Some (table, j));
    fill_table n table offset (i + 1) (Z.land (j + 1) 0xffff)
  end.

(** [if (j>match_length)] *)
Definition record (offset window_offset i j : Z) (best : Z * Z) : Z * Z :=
  if best.1 <? j then (j, offset + j - window_offset - i) else best.

(** The search through the window; the result is the longest match and its distance. *)
Fixpoint search (fuel : nat) (table : gmap Z Z) (preprocessed_data_length offset window_offset i j : Z) (best : Z * Z) : option (Z * Z) :=
  match fuel with
  | O => None
  | S fuel =>
    if (j <? preprocessed_data_length) && (i <=? offset - window_offset + j - MATCH_ALIGNMENT) then
      x ← at_ (offset + j); y ← at_ (window_offset + i);
      if x =? y then search fuel table preprocessed_data_length offset window_offset (i + 1) (j + 1) best
      else
        let best := record offset window_offset i j best in
        j ← table !! j;
        if j =? 0xffff then search fuel table preprocessed_data_length offset window_offset (i + 1) 0 best
        else search fuel table preprocessed_data_length offset window_offset i j best
    else Some (record offset window_offset i j best)
  end.

(** [while (match_length<capped_data_length&&...)] *)
Fixpoint extend (fuel : nat) (capped_data_length offset match_offset match_length : Z) : option Z :=
  match fuel with
  | O => None
  | S fuel =>
    if match_length <? capped_data_length then
      x ← at_ (offset + match_length); y ← at_ (offset - match_offset + match_length);
      if x =? y then extend fuel capped_data_length offset match_offset (match_length + 1) else Some match_length
    else Some match_length
  end.

(** The longest match for the data at [offset], with the table that was used. *)
Definition find_match (table : gmap Z Z) (window_size max_preprocessed_match_length offset : Z) : option (gmap Z Z * Z * Z) :=
  let capped_data_length := Z.min (data_length - offset) MAX_MATCH_LENGTH in
  let preprocessed_data_length := Z.min capped_data_length max_preprocessed_match_length in
  let window_offset := if offset <? window_size then 0 else offset - window_size in
  table ← fill_table (Z.to_nat (preprocessed_data_length - 1)) (<[0 := 0xffff]> table) offset 1 0;
  '(match_length, match_offset) ← search (Z.to_nat (2 * (offset - window_offset + preprocessed_data_length) + 2)) table preprocessed_data_length offset window_offset 0 0 (0, 0);
  match_length ← (if match_length =? preprocessed_data_length then extend (S (Z.to_nat capped_data_length)) capped_data_length offset match_offset match_length else Some match_length);
  Some (table, match_length, match_offset).

Fixpoint compress_loop (fuel : nat) (table : gmap Z Z) (window_size max_preprocessed_match_length offset non_match_length : Z) (out : list Z) : option (list Z) :=
  match fuel with
  | O => None
  | S fuel =>
    if offset <? data_length then
      '(table, match_length, match_offset) ← find_match table window_size max_preprocessed_match_length offset;
      let '(out, non_match_length) :=
        if (non_match_length =? MAX_NON_MATCH_LENGTH) || (z2b non_match_length && (MIN_MATCH_LENGTH <=? match_length))
        then (out ++ _encode_non_match non_match_length ++ slice (offset - non_match_length) non_match_length, 0)
        else (out, non_match_length) in
      if match_length <? MIN_MATCH_LENGTH then compress_loop fuel table window_size max_preprocessed_match_length (offset + 1) (non_match_length + 1) out
      else compress_loop fuel table window_size max_preprocessed_match_length (offset + match_length) non_match_length (out ++ encoded_match match_length match_offset)
    else if z2b non_match_length then Some (out ++ _encode_non_match non_match_length ++ slice (offset - non_match_length) non_match_length)
    else Some out
  end.

(** [COMPRESSOR_COMPRESSION_LEVEL_NONE] *)
Fixpoint store_loop (fuel : nat) (offset : Z) (out : list Z) : option (list Z) :=
  match fuel with
  | O => None
  | S fuel =>
    if offset <? data_length then
      let chunk := Z.min (data_length - offset) MAX_NON_MATCH_LENGTH in
      store_loop fuel (offset + chunk) (out ++ _encode_non_match chunk ++ slice offset chunk)
    else Some out
  end.

Definition compressor_compress (level : compression_level) : option (list Z) :=
  match level with
  | COMPRESSOR_COMPRESSION_LEVEL_NONE => store_loop (S (length data)) 0 []
  | COMPRESSOR_COMPRESSION_LEVEL_FAST => compress_loop (S (length data)) ∅ WINDOW_SIZE_FAST MAX_PREPROCESSED_MATCH_LENGTH_FAST 0 0 []
  | COMPRESSOR_COMPRESSION_LEVEL_FULL => compress_loop (S (length data)) ∅ WINDOW_SIZE MAX_PREPROCESSED_MATCH_LENGTH 0 0 []
  end.
End compress.

(** ** The decompressor *)

(** [mov r9, qword [src]], [mov qword [dst], r9] *)
Definition move64 (m : mem) (dst src : Z) : mem := mem_write m dst (mem_read m src 8).

(** [._copy_next_qword] *)
Fixpoint copy_next_qword (fuel : nat) (m : mem) (rdx r8 rax rcx : Z) : option mem :=
  match fuel with
  | O => None
  | S fuel =>
    let m := move64 m (rdx + rax) (r8 + rax) in
    let rax := rax + 8 in
    if rax <? rcx then copy_next_qword fuel m rdx r8 rax rcx else Some m
  end.

(** [._process_chunk]: the memory and the new [rdx]. *)
Definition process_chunk (m : mem) (rdx r8 rcx : Z) : option (mem * Z) :=
  let rax := Z.land (u64 (- rdx)) 7 in
  if rax =? 0 then m ← copy_next_qword (S (Z.to_nat rcx)) m rdx r8 0 rcx; Some (m, rdx + rcx)
  else
    let m := move64 m rdx r8 in
    if rcx <=? rax then Some (m, rdx + rcx)
    else
      let rcx := rcx - rax in
      let rdx := rdx + rax in
      m ← copy_next_qword (S (Z.to_nat rcx)) m rdx (r8 + rax) 0 rcx;
      Some (m, rdx + rcx).

(** [._process_next_header]: where the bytes come from, how many there are and where the next header is. *)
Definition read_header (m : mem) (rdi rdx : Z) : Z * Z * Z :=
  let eax := m rdi in
  if Z.testbit eax 0 then
    let ecx := m (rdi + 1) in
    let r9 := Z.lor (Z.shiftr ecx 6) (Z.shiftl (m (rdi + 2)) 2) in
    let ecx := Z.lor (Z.shiftl (Z.land ecx 63) 7) (Z.shiftr eax 1) in
    (rdx - r9, ecx, rdi + 3)
  else
    let ecx := Z.shiftr eax 2 in
    if Z.testbit eax 1 then
      let ecx := Z.lor ecx (Z.shiftl (m (rdi + 1)) 6) in
      (rdi + 2, ecx, rdi + ecx + 2)
    else (rdi + 1, ecx, rdi + ecx + 1).

Fixpoint process_headers (fuel : nat) (m : mem) (rdi rsi rdx : Z) : option mem :=
  match fuel with
  | O => None
  | S fuel =>
    let '(r8, rcx, rdi) := read_header m rdi rdx in
    '(m, rdx) ← process_chunk m rdx r8 rcx;
    if rdi <? rsi then process_headers fuel m rdi rsi rdx else Some m
  end.

Definition compressor_decompress (m : mem) (data length out : Z) : option mem :=
  let rsi := data + length in
  if rsi <=? data then Some m else process_headers (Z.to_nat length) m data rsi out.
