(* ===== verification/CompressorSpec.v ===== *)
(** * The compressor and the decompressor are inverse to each other
    The search finds real matches at a distance of at least a word, so the
    stream describes the data; the decompressor, which copies whole words past
    the end of a chunk, restores it. *)
From stdpp Require Import base tactics list numbers option gmap.
From Stdlib Require Import ZArith Lia.
From S2P Require Import Prelude Compressor.
#[local] Open Scope Z_scope.

(** ** The search table *)

Section search.
Context (data : list Z).

Abbreviation at_ := (at_ data).
Abbreviation N := (data_length data).

Lemma at_in i : 0 <= i < N -> is_Some (at_ i).
Proof. intros H. unfold Compressor.at_. destruct (Z.leb_spec 0 i); [| lia]. apply lookup_lt_is_Some. unfold data_length in H. lia. Qed.

Lemma at_eq i j x y : at_ i = Some x -> at_ j = Some y -> (at_ i = at_ j <-> x = y).
Proof. intros -> ->. split; [by intros [= ->] | by intros ->]. Qed.

(** The [n] bytes at [a] and at [b] are the same. *)
Definition same (a b n : Z) : Prop := forall k, 0 <= k < n -> at_ (a + k) = at_ (b + k).

(** The first [k] bytes of the pattern at [offset] are also the last ones of its first [q] bytes. *)
Definition border (offset q k : Z) : Prop := 0 <= k < q /\ same offset (offset + q - k) k.

Lemma border_trans offset q k k' : border offset q k -> border offset k k' -> border offset q k'.
Proof.
  intros [H1 S1] [H2 S2]. split; [lia|]. intros x Hx. rewrite (S2 x Hx). replace (offset + k - k' + x) with (offset + (k - k' + x)) by lia. rewrite S1 by lia. f_equal. lia.
Qed.

Lemma border_succ offset i j : border offset i j -> at_ (offset + i) = at_ (offset + j) -> border offset (i + 1) (j + 1).
Proof.
  intros [H1 S1] E. split; [lia|]. intros x Hx. destruct (decide (x = j)) as [-> | Hne]; [rewrite <- E; f_equal; lia|]. rewrite S1 by lia. f_equal. lia.
Qed.

Definition table_ok (t : gmap Z Z) (offset n : Z) : Prop := forall q, 0 <= q < n -> exists v, t !! q = Some v /\ (v = 0xffff \/ border offset q v).

Lemma fall_back_ok fuel t offset i j : table_ok t offset i -> border offset i j -> 0 <= offset -> offset + i < N -> j + 1 < Z.of_nat fuel ->
  exists j', fall_back data fuel t offset i j = Some j' /\ (j' = 0xffff \/ border offset i j' /\ at_ (offset + i) = at_ (offset + j')).
Proof.
  intros Ht. revert j. induction fuel as [| fuel IH]; intros j Hb H0 Hi Hf; [destruct Hb; lia|]. cbn [fall_back]. destruct (Z.eqb_spec j 0xffff) as [-> | Hj]; [by eexists; split; [| left]|].
  destruct (at_in (offset + i)) as [x Ex]; [destruct Hb; lia|]. destruct (at_in (offset + j)) as [y Ey]; [destruct Hb; lia|]. rewrite Ex, Ey. cbn [mbind option_bind]. destruct (Z.eqb_spec x y) as [-> | Hne].
  - eexists. split; [done|]. right. by rewrite Ey.
  - destruct (Ht j) as (v & Ev & Hv); [destruct Hb; lia|]. rewrite Ev. cbn [mbind option_bind]. destruct Hv as [-> | Hv].
    + destruct fuel as [| fuel]; [destruct Hb; lia|]. cbn. eexists. split; [done | by left].
    + rewrite <- Ex. apply IH; [by eapply border_trans | done | done | destruct Hv; lia].
Qed.

Lemma fill_table_ok n t offset i j : table_ok t offset i -> border offset i j -> 0 <= offset -> offset + i + Z.of_nat n <= N -> i + Z.of_nat n < 0xffff ->
  exists t', fill_table data n t offset i j = Some t' /\ table_ok t' offset (i + Z.of_nat n).
Proof.
  revert t i j. induction n as [| n IH]; intros t i j Ht Hb H0 Hn Hs; cbn [fill_table]; [exists t; split; [done|]; by rewrite Z.add_0_r|].
  destruct (at_in (offset + i)) as [x Ex]; [destruct Hb; lia|]. destruct (at_in (offset + j)) as [y Ey]; [destruct Hb; lia|]. rewrite Ex, Ey. cbn [mbind option_bind].
  assert (Hins : forall v, v = 0xffff \/ border offset i v -> table_ok (<[i := v]> t) offset (i + 1)).
  { intros v Hv q Hq. destruct (decide (q = i)) as [-> | Hne]; [exists v; by rewrite lookup_insert_eq|]. rewrite lookup_insert_ne by done. apply Ht. lia. }
  assert (Hmask : forall z, 0 <= z < 0xffff -> Z.land (z + 1) 0xffff = z + 1) by (intros z Hz; change 0xffff with (Z.ones 16); rewrite Z.land_ones by lia; apply Z.mod_small; lia).
  replace (i + Z.of_nat (S n)) with (i + 1 + Z.of_nat n) by lia. destruct (Z.eqb_spec x y) as [-> | Hne].
  - destruct (Ht j) as (v & Ev & Hv); [destruct Hb; lia|]. rewrite Ev. cbn [mbind option_bind]. rewrite Hmask by (destruct Hb; lia). apply IH; [apply Hins | apply border_succ; [done | by rewrite Ex, Ey] | lia | lia | lia].
    destruct Hv as [-> | Hv]; [by left | right; by eapply border_trans].
  - destruct (fall_back_ok (S (Z.to_nat i)) (<[i := j]> t) offset i j) as (j' & -> & Hj'); [| done | done | lia | destruct Hb; lia |].
    { intros q Hq. rewrite lookup_insert_ne by lia. by apply Ht. }
    cbn [mbind option_bind]. destruct Hj' as [-> | [Hb' E']].
    + change (Z.land (0xffff + 1) 0xffff) with 0. apply IH; [apply Hins; by right | | lia | lia | lia]. split; [destruct Hb; lia|]. intros k Hk. lia.
    + rewrite Hmask by (destruct Hb'; lia). apply IH; [apply Hins; by right | by apply border_succ | lia | lia | lia].
Qed.

(** ** Matches *)

(** A match of [best.1] bytes at the distance [best.2]. *)
Definition found (offset window preprocessed : Z) (best : Z * Z) : Prop :=
  best.1 = 0 \/ 0 < best.1 <= preprocessed /\ MATCH_ALIGNMENT <= best.2 <= window /\ same offset (offset - best.2) best.1.

Lemma record_ok offset wo i j pre best : found offset (offset - wo) pre best -> 0 <= best.1 -> 0 <= j <= pre -> 0 <= i - j -> same offset (wo + i - j) j -> (MATCH_ALIGNMENT <= offset + j - wo - i \/ j <= best.1) ->
  found offset (offset - wo) pre (record offset wo i j best) /\ j <= (record offset wo i j best).1 /\ 0 <= (record offset wo i j best).1.
Proof.
  intros Hf Hp Hj Hi Hs Hd. unfold record. destruct (Z.ltb_spec best.1 j); [| by split_and!]. split; [| cbn; lia]. right. cbn [fst snd]. split; [lia|]. split; [lia|]. by replace (offset - (offset + j - wo - i)) with (wo + i - j) by lia.
Qed.

Lemma search_ok fuel t pre offset wo i j best : table_ok t offset pre -> 0 <= wo <= offset -> offset + pre <= N -> pre < 0xffff ->
  found offset (offset - wo) pre best -> 0 <= best.1 -> 0 <= j <= pre -> 0 <= i - j -> same offset (wo + i - j) j -> (MATCH_ALIGNMENT <= offset + j - wo - i \/ j <= best.1) ->
  1 <= Z.of_nat fuel -> 2 * (offset - wo + pre) + 2 - (2 * i - j) <= Z.of_nat fuel ->
  exists best', search data fuel t pre offset wo i j best = Some best' /\ found offset (offset - wo) pre best' /\ 0 <= best'.1.
Proof.
  intros Ht Hwo Hn Hpre. revert i j best. induction fuel as [| fuel IH]; intros i j best Hf Hp Hj Hi Hs Hd H1 Hfuel; [lia|]. cbn [search]. destruct (record_ok offset wo i j pre best Hf Hp Hj Hi Hs Hd) as (R1 & R2 & R3).
  destruct (Z.ltb_spec j pre) as [Hjp | Hjp]; [| cbn; by eexists]. destruct (Z.leb_spec i (offset - wo + j - MATCH_ALIGNMENT)) as [Hg | Hg]; cbn [andb]; [| by eexists]. unfold MATCH_ALIGNMENT in *.
  destruct (at_in (offset + j)) as [x Ex]; [lia|]. destruct (at_in (wo + i)) as [y Ey]; [lia|]. rewrite Ex, Ey. cbn [mbind option_bind]. destruct (Z.eqb_spec x y) as [-> | Hne].
  - apply IH; try lia; try done. intros k Hk. destruct (decide (k = j)) as [-> | Hkj]; [rewrite Ex, <- Ey; f_equal; lia|]. rewrite Hs by lia. f_equal. lia.
  - destruct (Ht j ltac:(lia)) as (v & Ev & Hv). rewrite Ev. cbn [mbind option_bind]. destruct Hv as [-> | [Hv1 Hv2]].
    + change (0xffff =? 0xffff) with true. cbn iota. apply IH; try lia; try done. intros k Hk. lia.
    + destruct (Z.eqb_spec v 0xffff); [lia|]. apply IH; try lia; try done. intros k Hk. rewrite Hv2 by lia. replace (offset + j - v + k) with (offset + (j - v + k)) by lia. rewrite Hs by lia. f_equal. lia.
Qed.

Lemma extend_ok fuel capped offset mo ml : same offset (offset - mo) ml -> 0 <= ml <= capped -> offset + capped <= N -> 0 <= offset -> 0 <= mo <= offset -> capped - ml < Z.of_nat fuel ->
  exists ml', extend data fuel capped offset mo ml = Some ml' /\ ml <= ml' <= capped /\ same offset (offset - mo) ml'.
Proof.
  revert ml. induction fuel as [| fuel IH]; intros ml Hs Hml Hn H0 Hmo Hf; [lia|]. cbn [extend]. destruct (Z.ltb_spec ml capped); [| exists ml; split_and!; (done || lia)].
  destruct (at_in (offset + ml)) as [x Ex]; [lia|]. destruct (at_in (offset - mo + ml)) as [y Ey]; [lia|]. rewrite Ex, Ey. cbn [mbind option_bind]. destruct (Z.eqb_spec x y) as [-> | Hne]; [| exists ml; split_and!; (done || lia)].
  destruct (IH (ml + 1)) as (ml' & E' & H1 & H2); [| lia.. |].
  - intros k Hk. destruct (decide (k = ml)) as [-> |]; [by rewrite Ex, Ey | apply Hs; lia].
  - exists ml'. split; [done|]. split; [lia | done].
Qed.

Lemma find_match_ok t window maxpre offset : 0 <= offset < N -> 0 < window <= WINDOW_SIZE -> 0 < maxpre <= MAX_PREPROCESSED_MATCH_LENGTH ->
  exists t' ml mo, find_match data t window maxpre offset = Some (t', ml, mo) /\ 0 <= ml <= MAX_MATCH_LENGTH /\ offset + ml <= N /\ (ml = 0 \/ MATCH_ALIGNMENT <= mo <= window /\ mo <= offset /\ same offset (offset - mo) ml).
Proof.
  intros Ho Hw Hm. unfold find_match. unfold MAX_MATCH_LENGTH, WINDOW_SIZE, MAX_PREPROCESSED_MATCH_LENGTH in *. change (Z.shiftl 1 13 - 1) with 8191 in *. change (Z.shiftl 1 10 - 1) with 1023 in *.
  set (capped := Z.min (N - offset) 8191). set (pre := Z.min capped maxpre). set (wo := if offset <? window then 0 else offset - window). assert (Hwo : 0 <= wo <= offset /\ offset - wo <= window) by (unfold wo; destruct (Z.ltb_spec offset window); lia).
  destruct (fill_table_ok (Z.to_nat (pre - 1)) (<[0 := 0xffff]> t) offset 1 0) as (t' & -> & Ht'); [| split; [lia | intros k Hk; lia] | lia | lia | lia |].
  { intros q Hq. exists 0xffff. assert (q = 0) as -> by lia. rewrite lookup_insert_eq. by split; [| left]. }
  cbn [mbind option_bind]. replace (1 + Z.of_nat (Z.to_nat (pre - 1))) with pre in Ht' by lia.
  destruct (search_ok (Z.to_nat (2 * (offset - wo + pre) + 2)) t' pre offset wo 0 0 (0, 0)) as ([ml mo] & -> & Hf & Hml); try lia; try done; [by left | intros k Hk; lia | right; cbn; lia |]. cbn [mbind option_bind]. unfold found in Hf. cbn [fst snd] in Hf, Hml.
  destruct (Z.eqb_spec ml pre) as [-> | Hne].
  - destruct Hf as [Hf | (Hf1 & Hf2 & Hf3)]; [lia|]. unfold MATCH_ALIGNMENT in *. destruct (extend_ok (S (Z.to_nat capped)) capped offset mo pre) as (ml' & -> & H1 & H2); [done | lia.. |].
    cbn [mbind option_bind]. exists t', ml', mo. split; [done|]. split; [lia|]. split; [lia|]. right. split; [lia|]. split; [lia | done].
  - cbn [mbind option_bind]. exists t', ml, mo. split; [done|]. unfold MATCH_ALIGNMENT in *. split; [lia|]. split; [lia|]. destruct Hf as [Hf | (Hf1 & Hf2 & Hf3)]; [by left | right]. split; [lia|]. split; [lia | done].
Qed.
End search.

(** ** Streams *)

(** A chunk of the stream, with the bytes it stands for. *)
Inductive chunk :=
| Literal (l : list Z)
| Match (l : list Z) (distance : Z).

Definition text (c : chunk) : list Z := match c with Literal l | Match l _ => l end.

Definition encode (c : chunk) : list Z :=
  match c with
  | Literal l => _encode_non_match (Z.of_nat (length l)) ++ l
  | Match l d => encoded_match (Z.of_nat (length l)) d
  end.

(** A chunk is good behind the bytes [t]: a match repeats bytes in front of it. *)
Definition chunk_ok (t : list Z) (c : chunk) : Prop :=
  match c with
  | Literal l => 0 < Z.of_nat (length l) <= MAX_NON_MATCH_LENGTH
  | Match l d => 0 < Z.of_nat (length l) <= MAX_MATCH_LENGTH /\ MATCH_ALIGNMENT <= d <= WINDOW_SIZE /\ d <= Z.of_nat (length t) /\
      forall i, (i < length l)%nat -> (t ++ l) !! (length t + i)%nat = (t ++ l) !! (length t + i - Z.to_nat d)%nat
  end.

Fixpoint stream_ok (t : list Z) (cs : list chunk) : Prop :=
  match cs with
  | [] => True
  | c :: cs => chunk_ok t c /\ stream_ok (t ++ text c) cs
  end.

Definition stream_text (cs : list chunk) : list Z := flat_map text cs.
Definition stream_bytes (cs : list chunk) : list Z := flat_map encode cs.

Lemma stream_ok_app t cs cs' : stream_ok t (cs ++ cs') <-> stream_ok t cs /\ stream_ok (t ++ stream_text cs) cs'.
Proof. revert t. induction cs as [| c cs IH]; intros t; cbn [stream_ok app stream_text flat_map]; [rewrite app_nil_r; tauto|]. rewrite IH, (assoc (++)). tauto. Qed.

(** The bytes [out] describe the first [n] bytes of the data. *)
Definition describes (data out : list Z) (n : Z) : Prop := exists cs, stream_ok [] cs /\ stream_bytes cs = out /\ stream_text cs = take (Z.to_nat n) data.

Lemma describes_snoc data out n c : describes data out n -> 0 <= n -> chunk_ok (take (Z.to_nat n) data) c -> take (Z.to_nat n) data ++ text c = take (Z.to_nat n + length (text c)) data -> describes data (out ++ encode c) (n + Z.of_nat (length (text c))).
Proof.
  intros (cs & H1 & H2 & H3) Hn Hc Ht. exists (cs ++ [c]). unfold stream_bytes, stream_text in *. rewrite !flat_map_app, H2, H3. cbn [flat_map]. rewrite !app_nil_r. split; [| split; [done|]].
  - apply stream_ok_app. split; [done|]. cbn [stream_ok app]. unfold stream_text. rewrite H3. by split.
  - rewrite Ht. f_equal. lia.
Qed.

Lemma slice_length data o n : 0 <= o -> 0 <= n -> o + n <= data_length data -> length (slice data o n) = Z.to_nat n.
Proof. intros. unfold slice, data_length in *. rewrite length_take, length_drop. lia. Qed.

Lemma take_slice data o n : 0 <= o -> 0 <= n -> take (Z.to_nat o) data ++ slice data o n = take (Z.to_nat o + Z.to_nat n) data.
Proof. intros. unfold slice. by rewrite take_take_drop. Qed.

Lemma describes_literal data out o n : describes data out o -> 0 <= o -> 0 < n <= MAX_NON_MATCH_LENGTH -> o + n <= data_length data -> describes data (out ++ _encode_non_match n ++ slice data o n) (o + n).
Proof.
  intros Hd Ho Hn Hl. pose proof (slice_length data o n ltac:(lia) ltac:(lia) Hl) as El. pose proof (describes_snoc data out o (Literal (slice data o n)) Hd Ho) as H. cbn [text encode chunk_ok] in H. rewrite El, take_slice, Z2Nat.id in H by lia. by apply H.
Qed.

Lemma describes_match data out o n d : describes data out o -> 0 <= o -> 0 < n <= MAX_MATCH_LENGTH -> o + n <= data_length data -> MATCH_ALIGNMENT <= d <= WINDOW_SIZE -> d <= o -> same data o (o - d) n ->
  describes data (out ++ encoded_match n d) (o + n).
Proof.
  intros Hd Ho Hn Hl Hd1 Hd2 Hs. pose proof (slice_length data o n ltac:(lia) ltac:(lia) Hl) as El. pose proof (describes_snoc data out o (Match (slice data o n) d) Hd Ho) as H. cbn [text encode chunk_ok] in H. rewrite El, take_slice, Z2Nat.id in H by lia. apply H; [| done].
  unfold data_length in Hl. rewrite length_take_le by lia. unfold MATCH_ALIGNMENT in *. split; [lia|]. split; [lia|]. split; [lia|]. intros i Hi. rewrite !lookup_take_lt by lia. specialize (Hs (Z.of_nat i) ltac:(lia)). unfold at_ in Hs.
  destruct (Z.leb_spec 0 (o + Z.of_nat i)), (Z.leb_spec 0 (o - d + Z.of_nat i)); try lia. by replace (Z.to_nat o + i)%nat with (Z.to_nat (o + Z.of_nat i)) by lia; replace (Z.to_nat (o + Z.of_nat i) - Z.to_nat d)%nat with (Z.to_nat (o - d + Z.of_nat i)) by lia.
Qed.

(** ** The compressor writes a stream of its data *)

Lemma store_loop_ok data fuel o out : describes data out o -> 0 <= o <= data_length data -> data_length data - o < Z.of_nat fuel ->
  exists out', store_loop data fuel o out = Some out' /\ describes data out' (data_length data).
Proof.
  revert o out. induction fuel as [| fuel IH]; intros o out Hd Ho Hf; [lia|]. cbn [store_loop]. destruct (Z.ltb_spec o (data_length data)); [| exists out; split; [done|]; by replace (data_length data) with o by lia].
  assert (0 < MAX_NON_MATCH_LENGTH) by done. apply IH; [apply describes_literal; [done | lia..] | lia | lia].
Qed.

Lemma compress_loop_ok data fuel t window maxpre o nml out : 0 < window <= WINDOW_SIZE -> 0 < maxpre <= MAX_PREPROCESSED_MATCH_LENGTH ->
  describes data out (o - nml) -> 0 <= nml <= MAX_NON_MATCH_LENGTH -> nml <= o <= data_length data -> data_length data - o < Z.of_nat fuel ->
  exists out', compress_loop data fuel t window maxpre o nml out = Some out' /\ describes data out' (data_length data).
Proof.
  intros Hw Hm. assert (Hmax : 0 < MAX_NON_MATCH_LENGTH) by done. revert t o nml out. induction fuel as [| fuel IH]; intros t o nml out Hd Hn Ho Hf; [lia|]. cbn [compress_loop]. destruct (Z.ltb_spec o (data_length data)) as [Hlt | Hge].
  - destruct (find_match_ok data t window maxpre o) as (t' & ml & mo & -> & M1 & M2 & M3); [lia | done | done |]. cbn [mbind option_bind].
    destruct ((nml =? MAX_NON_MATCH_LENGTH) || (z2b nml && (MIN_MATCH_LENGTH <=? ml))) eqn:Eflush.
    + assert (Hnml : 0 < nml) by (unfold z2b in Eflush; destruct (Z.eqb_spec nml MAX_NON_MATCH_LENGTH), (Z.eqb_spec nml 0); cbn in Eflush; lia).
      pose proof (describes_literal data out (o - nml) nml Hd ltac:(lia) ltac:(lia) ltac:(lia)) as Hd'. replace (o - nml + nml) with o in Hd' by lia. destruct (Z.ltb_spec ml MIN_MATCH_LENGTH) as [Hs | Hs].
      * apply IH; [by replace (o + 1 - (0 + 1)) with o by lia | lia..].
      * unfold MIN_MATCH_LENGTH in Hs. destruct M3 as [| (M3 & M4 & M5)]; [lia|]. apply IH; [| lia..]. rewrite Z.sub_0_r. apply describes_match; (done || lia).
    + destruct (Z.eqb_spec nml MAX_NON_MATCH_LENGTH) as [| Hnm]; [done|]. cbn [orb] in Eflush. destruct (Z.ltb_spec ml MIN_MATCH_LENGTH) as [Hs | Hs].
      * apply IH; [by replace (o + 1 - (nml + 1)) with (o - nml) by lia | lia..].
      * assert (nml = 0) as -> by (unfold z2b in Eflush; destruct (Z.eqb_spec nml 0), (Z.leb_spec MIN_MATCH_LENGTH ml); cbn in Eflush; (done || lia)). unfold MIN_MATCH_LENGTH in Hs. destruct M3 as [| (M3 & M4 & M5)]; [lia|]. rewrite Z.sub_0_r in Hd. apply IH; [| lia..]. rewrite Z.sub_0_r. apply describes_match; (done || lia).
  - unfold z2b. destruct (Z.eqb_spec nml 0) as [-> | Hnz]; cbn [negb].
    + exists out. split; [done|]. by replace (data_length data) with (o - 0) by lia.
    + eexists. split; [done|]. replace (data_length data) with (o - nml + nml) by lia. apply describes_literal; (done || lia).
Qed.

Lemma compress_ok data level : exists out, compressor_compress data level = Some out /\ describes data out (data_length data).
Proof.
  assert (H0 : describes data [] 0) by (exists []; by rewrite take_0). unfold compressor_compress. destruct level.
  - apply store_loop_ok; [done | unfold data_length; lia..].
  - apply compress_loop_ok; try done; unfold data_length; lia.
  - apply compress_loop_ok; try done; unfold data_length; lia.
Qed.

(** ** The decompressor *)

Definition holds (m : mem) (a : Z) (l : list Z) : Prop := forall i x, l !! i = Some x -> m (a + Z.of_nat i) = x.

Lemma holds_app m a l l' : holds m a (l ++ l') <-> holds m a l /\ holds m (a + Z.of_nat (length l)) l'.
Proof.
  unfold holds. split.
  - intros H. split; intros i x E; [apply H; by apply lookup_app_l_Some|]. replace (a + Z.of_nat (length l) + Z.of_nat i) with (a + Z.of_nat (length l + i)) by lia. apply H. by rewrite lookup_app_r, Nat.add_comm, Nat.add_sub by lia.
  - intros [H1 H2] i x [E | [Hi E]]%lookup_app_Some; [by apply H1|]. replace (a + Z.of_nat i) with (a + Z.of_nat (length l) + Z.of_nat (i - length l)) by lia. by apply H2.
Qed.

Lemma holds_bytes_ext m m' a l : (forall b, a <= b < a + Z.of_nat (length l) -> m' b = m b) -> holds m a l -> holds m' a l.
Proof. intros E H i x Hx. pose proof (lookup_lt_Some _ _ _ Hx). rewrite E by lia. by apply H. Qed.

Lemma holds_cons m a x l : holds m a (x :: l) <-> m a = x /\ holds m (a + 1) l.
Proof.
  change (x :: l) with ([x] ++ l). rewrite holds_app. cbn [length]. change (Z.of_nat 1) with 1. split; (intros [H1 H2]; split; [| done]).
  - rewrite <- (H1 0%nat x eq_refl). f_equal. lia.
  - intros i y Hy. destruct i; [| done]. injection Hy as <-. by rewrite Z.add_0_r.
Qed.

(** [n] bytes at [dst] are those at [src], at most [lim] bytes were written. *)
Definition copied_to (m m' : mem) (dst src n lim : Z) : Prop :=
  (forall k, 0 <= k < n -> m' (dst + k) = m' (src + k)) /\ forall a, a < dst \/ dst + lim <= a -> m' a = m a.

(** The source is a word in front of the target, or away from it. *)
Definition apart (dst src n : Z) : Prop := src + 8 <= dst \/ dst + n + 8 <= src.

Lemma move64_at m dst src a : move64 m dst src a = if (dst <=? a) && (a <? dst + 8) then m (src + (a - dst)) else m a.
Proof. apply mem_write_read. lia. Qed.

Lemma move64_ok m m' dst src n len n' : copied_to m m' dst src n (n + 8) -> apart dst src len -> 0 <= n <= len -> n' <= n + 8 -> copied_to m (move64 m' (dst + n) (src + n)) dst src n' (n + 8).
Proof.
  intros [H1 H2] Ha Hn Hn'. split.
  - intros k Hk. rewrite !move64_at. destruct (Z.leb_spec (dst + n) (src + k)), (Z.ltb_spec (src + k) (dst + n + 8)); cbn [andb]; try (unfold apart in Ha; lia).
    all: destruct (Z.leb_spec (dst + n) (dst + k)); [| by rewrite H1 by lia]; destruct (Z.ltb_spec (dst + k) (dst + n + 8)); [| lia]; cbn [andb]; f_equal; lia.
  - intros a Hout. rewrite move64_at. destruct (Z.leb_spec (dst + n) a), (Z.ltb_spec a (dst + n + 8)); cbn [andb]; try lia; apply H2; lia.
Qed.

Lemma copied_to_le m m' dst src n lim lim' : copied_to m m' dst src n lim -> lim <= lim' -> copied_to m m' dst src n lim'.
Proof. intros [H1 H2] Hl. split; [done|]. intros a Ha. apply H2. lia. Qed.

Lemma copy_qwords_ok fuel m m' dst src len p rax : apart dst src len -> copied_to m m' dst src (p + rax) (p + rax + 8) -> 0 <= p -> 0 <= rax < len - p -> len - p - rax < Z.of_nat fuel ->
  exists m'', copy_next_qword fuel m' (dst + p) (src + p) rax (len - p) = Some m'' /\ copied_to m m'' dst src len (len + 8).
Proof.
  intros Ha. revert m' rax. induction fuel as [| fuel IH]; intros m' rax Hc Hp Hr Hf; [lia|]. cbn [copy_next_qword]. replace (dst + p + rax) with (dst + (p + rax)) by lia. replace (src + p + rax) with (src + (p + rax)) by lia. destruct (Z.ltb_spec (rax + 8) (len - p)).
  - apply IH; [| lia..]. replace (p + (rax + 8)) with (p + rax + 8) by lia. eapply copied_to_le; [apply (move64_ok m m' dst src (p + rax) len); (done || lia) | lia].
  - eexists. split; [done|]. eapply copied_to_le; [apply (move64_ok m m' dst src (p + rax) len); (done || lia) | lia].
Qed.

Lemma copy_chunk_ok m dst src len : 0 < len -> apart dst src len -> exists m', process_chunk m dst src len = Some (m', dst + len) /\ copied_to m m' dst src len (len + 8).
Proof.
  intros Hl Ha. assert (Hrefl : forall p, p <= 0 -> copied_to m m dst src p (p + 8)) by (intros p Hp; split; [intros; lia | done]).
  unfold process_chunk. set (pad := Z.land (u64 (- dst)) 7). assert (Hpad : 0 <= pad < 8) by (unfold pad; change 7 with (Z.ones 3); rewrite Z.land_ones by lia; by apply Z.mod_pos_bound).
  destruct (Z.eqb_spec pad 0) as [E0 | E0].
  - destruct (copy_qwords_ok (S (Z.to_nat len)) m m dst src len 0 0) as (m' & E & H'); [done | by apply Hrefl | lia | lia | lia |]. rewrite Z.sub_0_r, !Z.add_0_r in E. rewrite E. cbn. eexists. by split.
  - assert (H1 : forall n', n' <= 8 -> copied_to m (move64 m dst src) dst src n' 8) by (intros n' Hn'; pose proof (move64_ok m m dst src 0 len n') as H; rewrite !Z.add_0_r, Z.add_0_l in H; apply H; [by apply (Hrefl 0) | done | lia | lia]).
    destruct (Z.leb_spec len pad).
    + eexists. split; [done|]. eapply copied_to_le; [apply H1; lia | lia].
    + destruct (copy_qwords_ok (S (Z.to_nat (len - pad))) m (move64 m dst src) dst src len pad 0) as (m' & -> & H'); [done | eapply copied_to_le; [apply H1; lia | lia] | lia | lia | lia |]. cbn. eexists. split; [do 2 f_equal; lia | done].
Qed.

(** ** Headers *)

Lemma split_low x n : 0 <= n -> x = x / 2 ^ n * 2 ^ n + x mod 2 ^ n.
Proof. intros Hn. pose proof (Z.div_mod x (2 ^ n)). lia. Qed.

Lemma non_match_small n : 0 <= n <= 63 -> _encode_non_match n = [4 * n].
Proof.
  intros Hn. unfold _encode_non_match. destruct (Z.ltb_spec 63 n); [lia|]. change 0x3f with (Z.ones 6). rewrite Z.land_ones, Z.mod_small, Z.lor_0_r, Z.shiftl_mul_pow2 by lia. unfold u8, wrap. rewrite Z.mod_small by lia. f_equal. lia.
Qed.

Lemma non_match_large n : 63 < n <= MAX_NON_MATCH_LENGTH -> _encode_non_match n = [4 * (n mod 64) + 2; n / 64].
Proof.
  unfold MAX_NON_MATCH_LENGTH. change (Z.shiftl 1 14 - 1) with 16383. intros Hn. unfold _encode_non_match. destruct (Z.ltb_spec 63 n); [| lia]. change 0x3f with (Z.ones 6). pose proof (Z.mod_pos_bound n 64). assert (n / 64 < 256) by (apply Z.div_lt_upper_bound; lia). pose proof (Z.div_pos n 64).
  rewrite Z.land_ones by lia. change (2 ^ 6) with 64. cbn [b2z]. change (Z.shiftl 1 1) with 2. rewrite lor_shiftl_add, Z.shiftr_div_pow2 by lia. unfold u8, wrap. change (2 ^ 6) with 64. rewrite (Z.mod_small (n / 64)), Z.mod_small by lia. f_equal. lia.
Qed.

Lemma match_bytes n d : 0 <= n <= MAX_MATCH_LENGTH -> 0 <= d <= WINDOW_SIZE -> encoded_match n d = [2 * (n mod 128) + 1; 64 * (d mod 4) + n / 128; d / 4].
Proof.
  unfold MAX_MATCH_LENGTH, WINDOW_SIZE. change (Z.shiftl 1 13 - 1) with 8191. change (Z.shiftl 1 10 - 1) with 1023. intros Hn Hd. unfold encoded_match. pose proof (Z.mod_pos_bound n 128). pose proof (Z.mod_pos_bound d 4). assert (n / 128 < 64) by (apply Z.div_lt_upper_bound; lia). assert (d / 4 < 256) by (apply Z.div_lt_upper_bound; lia). pose proof (Z.div_pos n 128). pose proof (Z.div_pos d 4).
  change 0x7f with (Z.ones 7). change 3 with (Z.ones 2). rewrite !Z.land_ones by lia. change (2 ^ 7) with 128. change (2 ^ 2) with 4. rewrite !Z.shiftr_div_pow2 by lia. change (2 ^ 7) with 128. change (2 ^ 2) with 4. rewrite !lor_shiftl_add by lia. unfold u8, wrap. rewrite (Z.mod_small (d / 4)), (Z.mod_small (n mod 128 * 2 ^ 1 + 1)), (Z.mod_small (d mod 4 * 2 ^ 6 + n / 128)) by lia. f_equal; [lia | f_equal; lia].
Qed.

(** What the header of a chunk says. *)
Lemma read_header_ok m rdi rdx t c : holds m rdi (encode c) -> chunk_ok t c ->
  read_header m rdi rdx = match c with
    | Literal l => (rdi + Z.of_nat (length (encode c)) - Z.of_nat (length l), Z.of_nat (length l), rdi + Z.of_nat (length (encode c)))
    | Match l d => (rdx - d, Z.of_nat (length l), rdi + Z.of_nat (length (encode c)))
    end.
Proof.
  destruct c as [l | l d]; cbn [encode chunk_ok]; set (n := Z.of_nat (length l)).
  - intros Hh Hn. destruct (Z.ltb_spec 63 n).
    + rewrite non_match_large in * by lia. cbn [app] in *. apply holds_cons in Hh as [E0 Hh]. apply holds_cons in Hh as [E1 _]. unfold read_header. rewrite E0, E1. pose proof (Z.mod_pos_bound n 64). rewrite Z.bit0_odd. replace (Z.odd (4 * (n mod 64) + 2)) with false by (rewrite Z.odd_add, Z.odd_mul; done).
      replace (Z.testbit (4 * (n mod 64) + 2) 1) with true by (rewrite Z.testbit_eqb by lia; change (2 ^ 1) with 2; replace (4 * (n mod 64) + 2) with ((2 * (n mod 64) + 1) * 2) by lia; rewrite Z.div_mul by lia; rewrite Zmod_odd, Z.odd_add, Z.odd_mul; done).
      rewrite Z.shiftr_div_pow2 by lia. change (2 ^ 2) with 4. replace ((4 * (n mod 64) + 2) / 4) with (n mod 64) by (apply Z.div_unique with 2; lia). rewrite Z.lor_comm, lor_shiftl_add by lia. change (2 ^ 6) with 64. replace (n / 64 * 64 + n mod 64) with n by (pose proof (Z.div_mod n 64); lia). cbn [length]. rewrite !Nat2Z.inj_succ. unfold n. f_equal; [f_equal|]; lia.
    + rewrite non_match_small in * by lia. cbn [app] in *. apply holds_cons in Hh as [E0 _]. unfold read_header. rewrite E0. rewrite Z.bit0_odd. replace (Z.odd (4 * n)) with false by (rewrite Z.odd_mul; done).
      replace (Z.testbit (4 * n) 1) with false by (rewrite Z.testbit_eqb by lia; change (2 ^ 1) with 2; replace (4 * n) with (2 * n * 2) by lia; rewrite Z.div_mul by lia; rewrite Zmod_odd, Z.odd_mul; done).
      rewrite Z.shiftr_div_pow2 by lia. change (2 ^ 2) with 4. rewrite Z.mul_comm, Z.div_mul by lia. cbn [length]. rewrite !Nat2Z.inj_succ. unfold n. f_equal; [f_equal|]; lia.
  - intros Hh (Hn & Hd & _ & _). unfold MATCH_ALIGNMENT in Hd. rewrite match_bytes in * by lia. apply holds_cons in Hh as [E0 Hh]. apply holds_cons in Hh as [E1 Hh]. apply holds_cons in Hh as [E2 _]. replace (rdi + 1 + 1) with (rdi + 2) in E2 by lia.
    unfold read_header. rewrite E0, E1, E2. pose proof (Z.mod_pos_bound n 128). pose proof (Z.mod_pos_bound d 4). pose proof (Z.div_pos n 128). pose proof (Z.div_pos d 4). assert (n / 128 < 64) by (unfold MAX_MATCH_LENGTH in Hn; change (Z.shiftl 1 13 - 1) with 8191 in Hn; apply Z.div_lt_upper_bound; lia).
    rewrite Z.bit0_odd. replace (Z.odd (2 * (n mod 128) + 1)) with true by (rewrite Z.odd_add, Z.odd_mul; done). change 63 with (Z.ones 6). rewrite Z.land_ones, !Z.shiftr_div_pow2 by lia. change (2 ^ 6) with 64. change (2 ^ 1) with 2.
    replace ((64 * (d mod 4) + n / 128) / 64) with (d mod 4) by (apply Z.div_unique with (n / 128); lia). replace ((64 * (d mod 4) + n / 128) mod 64) with (n / 128) by (apply Z.mod_unique with (d mod 4); lia). replace ((2 * (n mod 128) + 1) / 2) with (n mod 128) by (apply Z.div_unique with 1; lia).
    rewrite (Z.lor_comm (d mod 4)), !lor_shiftl_add by lia. change (2 ^ 7) with 128. change (2 ^ 2) with 4. replace (d / 4 * 4 + d mod 4) with d by (pose proof (Z.div_mod d 4); lia). replace (n / 128 * 128 + n mod 128) with n by (pose proof (Z.div_mod n 128); lia). done.
Qed.

(** ** The loop over the chunks *)

Lemma chunk_written m m' out t c src : copied_to m m' (out + Z.of_nat (length t)) src (Z.of_nat (length (text c))) (Z.of_nat (length (text c)) + 8) -> chunk_ok t c -> holds m out t ->
  match c with Literal l => holds m' src l | Match _ d => src = out + Z.of_nat (length t) - d end -> holds m' out (t ++ text c).
Proof.
  intros [H1 H2] Hc Ht Hsrc. assert (Ht' : holds m' out t) by (eapply holds_bytes_ext; [| done]; intros b Hb; apply H2; lia). destruct c as [l | l d]; cbn [text] in *.
  - apply holds_app. split; [done|]. intros i x Hx. pose proof (lookup_lt_Some _ _ _ Hx). rewrite H1 by lia. by apply Hsrc.
  - destruct Hc as (_ & Hd & Hdt & Hrep). unfold MATCH_ALIGNMENT in Hd. subst src. intros i. induction i as [i IH] using lt_wf_ind. intros x Hx. destruct (decide (i < length t)%nat) as [Hlt | Hge].
    + apply Ht'. by rewrite lookup_app_l in Hx.
    + pose proof (lookup_lt_Some _ _ _ Hx) as Hlen. rewrite length_app in Hlen. replace i with (length t + (i - length t))%nat in Hx by lia. rewrite Hrep in Hx by lia.
      specialize (H1 (Z.of_nat (i - length t)) ltac:(lia)). replace (out + Z.of_nat i) with (out + Z.of_nat (length t) + Z.of_nat (i - length t)) by lia. rewrite H1. rewrite <- (IH (length t + (i - length t) - Z.to_nat d)%nat ltac:(lia) x Hx). f_equal. lia.
Qed.

Lemma process_headers_ok fuel m cs t rdi rsi out : cs <> [] -> stream_ok t cs -> holds m out t -> holds m rdi (stream_bytes cs) -> rsi = rdi + Z.of_nat (length (stream_bytes cs)) ->
  rsi + 8 <= out \/ out + Z.of_nat (length (t ++ stream_text cs)) + 8 <= rdi -> (length cs <= fuel)%nat ->
  exists m', process_headers fuel m rdi rsi (out + Z.of_nat (length t)) = Some m' /\ holds m' out (t ++ stream_text cs) /\ forall a, a < out + Z.of_nat (length t) \/ out + Z.of_nat (length (t ++ stream_text cs)) + 8 <= a -> m' a = m a.
Proof.
  revert fuel m t rdi. induction cs as [| c cs IH]; intros fuel m t rdi Hne Hok Ht Hb Hrsi Hap Hf; [done|]. destruct fuel as [| fuel]; cbn [length] in Hf; [lia|]. cbn [process_headers]. cbn [stream_bytes stream_text flat_map] in *. fold (stream_bytes cs) (stream_text cs) in *. cbn [stream_ok] in Hok. destruct Hok as [Hc Hcs].
  apply holds_app in Hb as [Hb1 Hb2]. rewrite (read_header_ok m rdi _ t c Hb1 Hc). rewrite length_app in Hrsi. do 2 rewrite length_app in Hap. set (dst := out + Z.of_nat (length t)). set (n := Z.of_nat (length (text c))).
  assert (A : exists src, match c with Literal l => (rdi + Z.of_nat (length (encode c)) - Z.of_nat (length l), Z.of_nat (length l), rdi + Z.of_nat (length (encode c))) | Match l d => (dst - d, Z.of_nat (length l), rdi + Z.of_nat (length (encode c))) end = (src, n, rdi + Z.of_nat (length (encode c))) /\
    apart dst src n /\ 0 < n /\ match c with Literal l => rdi <= src /\ src + Z.of_nat (length l) = rdi + Z.of_nat (length (encode c)) | Match _ d => src = dst - d end).
  { unfold apart, dst, n. destruct c as [l | l d]; cbn [text chunk_ok] in *; (eexists; split; [done|]).
    - assert (Hle : (length l <= length (encode (Literal l)))%nat) by (cbn [encode]; rewrite length_app; lia). split; [lia|]. split; [lia|]. split; [lia | lia].
    - unfold MATCH_ALIGNMENT in Hc. split; [lia|]. split; [lia | done]. }
  destruct A as (src & -> & Hapart & Hn & Hsrc). destruct (copy_chunk_ok m dst src n Hn Hapart) as (m1 & -> & Hcopy). cbn [mbind option_bind].
  assert (Hsame : forall a, a < dst \/ dst + n + 8 <= a -> m1 a = m a) by (intros a Ha; apply Hcopy; lia).
  assert (Hin : forall a, rdi <= a < rsi -> m1 a = m a) by (intros a Ha; apply Hsame; unfold dst, n; lia).
  assert (Ht1 : holds m1 out (t ++ text c)).
  { eapply (chunk_written m m1 out t c src); [exact Hcopy | done | done |]. destruct c as [l | l d]; [| done]. destruct Hsrc as [Hs1 Hs2]. cbn [encode] in *. apply holds_app in Hb1 as [_ Hb1]. rewrite length_app in Hs2. replace src with (rdi + Z.of_nat (length (_encode_non_match (Z.of_nat (length l))))) by lia.
    eapply holds_bytes_ext; [| exact Hb1]. intros b Hbb. apply Hin. rewrite length_app in Hrsi. lia. }
  assert (Hn' : dst + n = out + Z.of_nat (length (t ++ text c))) by (unfold dst, n; rewrite length_app; lia). destruct cs as [| c' cs'].
  - cbn [stream_bytes flat_map length] in Hrsi. rewrite Nat.add_0_r in Hrsi. destruct (Z.ltb_spec (rdi + Z.of_nat (length (encode c))) rsi); [lia|]. exists m1. unfold stream_text. cbn [flat_map]. rewrite app_nil_r. split; [done|]. split; [done|]. intros a Ha. apply Hsame. lia.
  - assert (Hpos : (0 < length (stream_bytes (c' :: cs')))%nat) by (destruct c'; cbn; lia). destruct (Z.ltb_spec (rdi + Z.of_nat (length (encode c))) rsi); [| lia]. rewrite Hn'.
    destruct (IH fuel m1 (t ++ text c) (rdi + Z.of_nat (length (encode c)))) as (m2 & E2 & H2 & H3); [done | done | done | | lia | rewrite !length_app; lia | cbn [length] in *; lia |].
    { eapply holds_bytes_ext; [| exact Hb2]. intros b Hbb. apply Hin. lia. }
    exists m2. split; [done|]. rewrite (assoc (++)). split; [done|]. intros a Ha. rewrite H3, Hsame; [done | |]; rewrite ?length_app in *; unfold dst, n; lia.
Qed.

(** The decompressor on the stream of some data. *)
Lemma decompress_ok data bytes m src out : describes data bytes (data_length data) -> holds m src bytes -> src + Z.of_nat (length bytes) + 8 <= out \/ out + data_length data + 8 <= src ->
  exists m', compressor_decompress m src (Z.of_nat (length bytes)) out = Some m' /\ holds m' out data /\ forall a, a < out \/ out + data_length data + 8 <= a -> m' a = m a.
Proof.
  intros (cs & H1 & H2 & H3) Hb Hap. unfold data_length in *. rewrite Nat2Z.id, firstn_all in H3. unfold compressor_decompress. destruct (decide (cs = [])) as [-> | Hne].
  - cbn in H2, H3. subst. cbn in *. destruct (Z.leb_spec (src + Z.of_nat 0) src); [| lia]. exists m. split; [done|]. split; [by intros i x Hx | done].
  - assert (Hlen : (length cs <= length bytes)%nat) by (rewrite <- H2; clear; induction cs as [| c cs IH]; cbn [stream_bytes flat_map length]; [lia|]; fold (stream_bytes cs); rewrite length_app; destruct c; cbn [encode]; rewrite ?length_app; cbn; lia).
    assert (Hpos : (0 < length cs)%nat) by (destruct cs; [done | cbn; lia]). destruct (Z.leb_spec (src + Z.of_nat (length bytes)) src); [lia|].
    destruct (process_headers_ok (Z.to_nat (Z.of_nat (length bytes))) m cs [] src (src + Z.of_nat (length bytes)) out) as (m' & E & A1 & A2); [done | done | intros i x Hx; by rewrite lookup_nil in Hx | by rewrite H2 | by rewrite H2 | cbn [app]; rewrite H3; lia | lia |].
    cbn [length app Z.of_nat] in E, A1, A2. rewrite Z.add_0_r in E, A2. rewrite H3 in A1, A2. by exists m'.
Qed.

(** C25: Compression, at every level, succeeds on every input without reading outside of it or a part of the search table that was not filled, and the decompressor of the boot loader restores the input: after it ran on memory that holds the compressed bytes, the target holds the data, and nothing was written in front of the target or eight bytes or more behind it. *)
Theorem compressor_roundtrip data level m src out : exists bytes, compressor_compress data level = Some bytes /\
  (holds m src bytes -> src + Z.of_nat (length bytes) + 8 <= out \/ out + data_length data + 8 <= src ->
   exists m', compressor_decompress m src (Z.of_nat (length bytes)) out = Some m' /\ holds m' out data /\ forall a, a < out \/ out + data_length data + 8 <= a -> m' a = m a).
Proof. destruct (compress_ok data level) as (bytes & E & Hd). exists bytes. split; [done|]. intros Hb Hap. by apply decompress_ok. Qed.

(** A run of bytes with a long match, three bytes of their own and an end that is not aligned. *)
Lemma compressor_roundtrip_witness : exists bytes m', compressor_compress ([5; 6; 7] ++ replicate 40 1 ++ [9; 8]) COMPRESSOR_COMPRESSION_LEVEL_FULL = Some bytes /\
  compressor_decompress (mem_write (fun _ => 0) 0 bytes) 0 (Z.of_nat (length bytes)) 4096 = Some m' /\ holds m' 4096 ([5; 6; 7] ++ replicate 40 1 ++ [9; 8]).
Proof.
  destruct (compressor_roundtrip ([5; 6; 7] ++ replicate 40 1 ++ [9; 8]) COMPRESSOR_COMPRESSION_LEVEL_FULL (mem_write (fun _ => 0) 0 (default [] (compressor_compress ([5; 6; 7] ++ replicate 40 1 ++ [9; 8]) COMPRESSOR_COMPRESSION_LEVEL_FULL))) 0 4096) as (bytes & E & H).
  exists bytes. rewrite E in H. cbn [default] in H. destruct H as (m' & H1 & H2 & _).
  - intros i x Hx. by apply mem_write_in.
  - left. vm_compute in E. injection E as <-. vm_compute. discriminate.
  - exists m'. by split_and!.
Defined.

(** *** The end of the target *)

(** [(out_length+PAGE_SIZE)>>PAGE_SIZE_SHIFT] pages, as the boot loader allocates them for the data. *)
Definition loader_pages (out_length : Z) : Z := Z.shiftr (out_length + 4096) 12.

(** The boot loader allocates one byte more than the data, rounded up to pages; a short last chunk makes the decompressor write behind these pages. *)
Theorem decompress_overrun : let data := replicate 4090 0 ++ [1; 2; 3; 4; 5] in
  match compressor_compress data COMPRESSOR_COMPRESSION_LEVEL_FAST with
  | Some bytes =>
    let m := mem_write (fun _ => 0xaa) 0x1000 bytes in
    match compressor_decompress (mem_write m 0x101000 [0; 0]) 0x1000 (Z.of_nat (length bytes)) 0x100000 with
    | Some m' => loader_pages 4095 * 4096 = 4096 /\ m' (0x100000 + 4096) = 0xaa
    | None => False
    end
  | None => False
  end.
Proof. vm_compute. by split. Qed.
