(* ===== verification/Rsa.v ===== *)
(** * RSA: big integers and modular exponentiation
    ([src/src/kernel/rsa/rsa.c], [include/kernel/rsa/rsa.h]).

    A number is an array of 32-bit limbs, the lowest one first, of which the
    first [length] count.  A function that writes a number takes the old
    content of its destination and returns the new one; where the source passes
    a number as its own destination, every limb is read before it is written.
    [None] is an access outside of an array, or a panic.  A failed
    [KERNEL_ASSERT] only logs. *)
From stdpp Require Import base tactics list numbers option.
From Stdlib Require Import ZArith Lia.
From S2P Require Import Prelude.
#[local] Open Scope Z_scope.

Definition LOOKUP_TABLE_SIZE_SHIFT : Z := 5.

(** [capacity] is the length of [data]. *)
Record rsa_number_t := Number { rn_length : nat; rn_data : list Z }.

Record rsa_state_t := State {
  max_number_length : nat;
  modulus_bit_length : Z;
  public_key : option rsa_number_t;
  private_key : option rsa_number_t;
  modulus : rsa_number_t;
  _mu : rsa_number_t
}.

(** Array accesses. *)
Definition aget (l : list Z) (i : nat) : option Z := l !! i.
Definition aput (l : list Z) (i : nat) (x : Z) : option (list Z) := if (i <? length l)%nat then Some (<[i := x]> l) else None.

(** The first [n] limbs, all of which are accessed. *)
Definition limbs (n : nat) (l : list Z) : option (list Z) := if (n <=? length l)%nat then Some (take n l) else None.

Definition capacity (a : rsa_number_t) : nat := length (rn_data a).

Definition _clear (a : rsa_number_t) : rsa_number_t := Number (rn_length a) (replicate (capacity a) 0).

(** [for (;length>1&&!data[length-1];length--)] *)
Fixpoint trim (n : nat) (data : list Z) : nat :=
  match n with
  | O => O
  | S m => if (m =? 0)%nat then n else if nth m data 0 =? 0 then trim m data else n
  end.

Definition _normalize (a : rsa_number_t) : rsa_number_t :=
  let data := take (rn_length a) (rn_data a) ++ replicate (capacity a - rn_length a) 0 in
  Number (trim (rn_length a) data) data.

(** The comparison of the limbs below [i]. *)
Fixpoint less_from (i : nat) (a b : list Z) : option bool :=
  match i with
  | O => Some false
  | S i =>
    x ← aget a i;
    y ← aget b i;
    if x <? y then Some true else if y <? x then Some false else less_from i a b
  end.

Definition _is_less_than (a b : rsa_number_t) : option bool :=
  if (rn_length a <? rn_length b)%nat then Some true
  else if (rn_length b <? rn_length a)%nat then Some false
  else less_from (rn_length a) (rn_data a) (rn_data b).

(** [carry+=a->data[i]+b->data[i-b_offset]]: the sum of the limbs has 32 bits. *)
Fixpoint add_loop (carry : Z) (a b : list Z) : list Z :=
  match a, b with
  | x :: a, y :: b => let carry := u64 (carry + u32 (x + y)) in u32 carry :: add_loop (Z.shiftr carry 32) a b
  | _, _ => []
  end.

Definition _add (a b : rsa_number_t) (b_offset : nat) (out : rsa_number_t) : option rsa_number_t :=
  la ← limbs (rn_length a) (rn_data a);
  lb ← limbs (rn_length a - b_offset) (rn_data b);
  _ ← limbs (rn_length a) (rn_data out);
  Some (_normalize (Number (S (rn_length a)) (take b_offset la ++ add_loop 0 (drop b_offset la) lb ++ drop (rn_length a) (rn_data out)))).

(** [value=(s64)a-b-carry] *)
Fixpoint sub_loop (carry : Z) (a b : list Z) : list Z :=
  match a, b with
  | x :: a, y :: b => let value := x - y - carry in u32 value :: sub_loop (b2z (value <? 0)) a b
  | _, _ => []
  end.

Definition _subtract_fixed_length (a b : rsa_number_t) (n : nat) (out : rsa_number_t) : option rsa_number_t :=
  la ← limbs n (rn_data a);
  lb ← limbs n (rn_data b);
  _ ← limbs n (rn_data out);
  Some (_normalize (Number n (sub_loop 0 la lb ++ drop n (rn_data out)))).

Definition _subtract (a b out : rsa_number_t) : option rsa_number_t := _subtract_fixed_length a b (rn_length a) out.

(** The inner loop: [x] times the limbs of [b] is added from limb [i] on, and
    the last carry is stored. *)
Fixpoint mult_row (x carry : Z) (b out : list Z) (i : nat) : option (list Z) :=
  match b with
  | [] => aput out i carry
  | y :: b =>
    o ← aget out i;
    let carry := u64 (carry + u64 (o + u64 (x * y))) in
    out ← aput out i (u32 carry);
    mult_row x (Z.shiftr carry 32) b out (S i)
  end.

Fixpoint mult_rows (a b out : list Z) (i : nat) : option (list Z) :=
  match a with
  | [] => Some out
  | x :: a => out ← mult_row x 0 b out i; mult_rows a b out (S i)
  end.

Definition _mult (a : rsa_number_t) (a_right_shift : nat) (b out : rsa_number_t) : option rsa_number_t :=
  let out := _clear out in
  if (rn_length a <=? a_right_shift)%nat then Some (Number 1 (rn_data out))
  else
    la ← limbs (rn_length a) (rn_data a);
    lb ← limbs (rn_length b) (rn_data b);
    data ← mult_rows (drop a_right_shift la) lb (rn_data out) 0;
    Some (_normalize (Number (rn_length a - a_right_shift + rn_length b) data)).

Fixpoint mult_int_loop (carry : Z) (a : list Z) (b : Z) : list Z :=
  match a with
  | [] => [carry]
  | x :: a => let carry := u64 (carry + x * b) in u32 carry :: mult_int_loop (Z.shiftr carry 32) a b
  end.

Definition _mult_int (a : rsa_number_t) (b : Z) (out : rsa_number_t) (out_offset : nat) : option rsa_number_t :=
  la ← limbs (rn_length a) (rn_data a);
  _ ← limbs (rn_length a + out_offset + 1) (rn_data out);
  Some (_normalize (Number (rn_length a + out_offset + 1) (replicate out_offset 0 ++ mult_int_loop 0 la b ++ drop (rn_length a + out_offset + 1) (rn_data out)))).

Definition _square (a out : rsa_number_t) : option rsa_number_t :=
  let out := _clear out in
  la ← limbs (rn_length a) (rn_data a);
  data ← mult_rows la la (rn_data out) 0;
  Some (_normalize (Number (2 * rn_length a) data)).

Definition rsa_number_create (max_number_length : nat) : rsa_number_t := Number 0 (replicate max_number_length 0).

(** [while (_is_less_than(modulus,a)) _subtract(a,modulus,a)] *)
Fixpoint reduce_loop (fuel : nat) (a modulus : rsa_number_t) : option rsa_number_t :=
  less ← _is_less_than modulus a;
  if less : bool then
    match fuel with
    | O => None
    | S fuel => a ← _subtract a modulus a; reduce_loop fuel a modulus
    end
  else Some a.

(** The reduction needs at most two subtractions. *)
Definition _modulo (a : rsa_number_t) (state : rsa_state_t) : option rsa_number_t :=
  less ← _is_less_than a (modulus state);
  if less : bool then Some a
  else
    let k := rn_length (modulus state) in
    tmp1 ← _mult a (k - 1) (_mu state) (rsa_number_create (max_number_length state));
    tmp2 ← _mult tmp1 (k + 1) (modulus state) (rsa_number_create (max_number_length state));
    a ← _subtract_fixed_length a tmp2 (k + 1) a;
    reduce_loop 2 a (modulus state).

Fixpoint shift_loop (carry : Z) (a : list Z) (b : Z) : list Z :=
  match a with
  | [] => []
  | x :: a => let carry := Z.lor carry (u64 (Z.shiftl x b)) in u32 carry :: shift_loop (Z.shiftr carry 32) a b
  end.

Definition _shift_left_nooverflow (a : rsa_number_t) (b : Z) (out : rsa_number_t) : option rsa_number_t :=
  la ← limbs (rn_length a) (rn_data a);
  _ ← limbs (rn_length a) (rn_data out);
  Some (Number (rn_length a) (shift_loop 0 la b ++ drop (rn_length a) (rn_data out))).

(** [__builtin_clz] *)
Definition clz32 (x : Z) : Z := 31 - Z.log2 x.

(** [for (u128 k=b64*q;a128<k;k-=b64) q--]; at most two digits too much. *)
Fixpoint correct_digit (fuel : nat) (a128 b64 k q : Z) : option Z :=
  if a128 <? k then
    match fuel with
    | O => None
    | S fuel => correct_digit fuel a128 b64 (wrap 128 (k - b64)) (u32 (q - 1))
    end
  else Some q.

(** One digit of the quotient, at limb [i] of [a]. *)
Definition mu_digit (a b tmp : rsa_number_t) (b32 b64 : Z) (mu : list Z) (i : nat) : option (rsa_number_t * rsa_number_t * list Z) :=
  let j := (i - rn_length b)%nat in
  a0 ← aget (rn_data a) i;
  a1 ← aget (rn_data a) (i - 1);
  a2 ← aget (rn_data a) (i - 2);
  let a64 := Z.lor (Z.shiftl a0 32) a1 in
  let a128 := Z.lor (Z.shiftl a64 32) a2 in
  let q := if a0 =? b32 then 0xffffffff else u32 (a64 / b32) in
  q ← correct_digit 4 a128 b64 (wrap 128 (b64 * q)) q;
  tmp ← _mult_int b q tmp j;
  less ← _is_less_than a tmp;
  '(a, q) ← (if less : bool then a ← _add a b j a; Some (a, u32 (q - 1)) else Some (a, q));
  mu ← aput mu j q;
  a ← _subtract a tmp a;
  Some (a, tmp, mu).

(** [for (i=2*b->length;i>=b->length;i--)]; [n] digits, at limb [i] first. *)
Fixpoint mu_loop (n : nat) (a b tmp : rsa_number_t) (b32 b64 : Z) (mu : list Z) (i : nat) : option (list Z) :=
  match n with
  | O => Some mu
  | S n =>
    '(a, tmp, mu) ← mu_digit a b tmp b32 b64 mu i;
    mu_loop n a b tmp b32 b64 mu (i - 1)
  end.

(** The index [b->length-2] is outside of the array for a modulus of one limb. *)
Definition _calculate_mu (max_number_length : nat) (modulus : rsa_number_t) : option rsa_number_t :=
  let k := rn_length modulus in
  top ← aget (rn_data modulus) (k - 1);
  let shift := clz32 top in
  let zero := rsa_number_create max_number_length in
  data ← aput (rn_data zero) (2 * k) (Z.shiftl 1 shift);
  let a := Number (2 * k + 1) data in
  b ← _shift_left_nooverflow modulus shift zero;
  b32 ← aget (rn_data b) (rn_length b - 1);
  b0 ← (if (rn_length b <? 2)%nat then None else aget (rn_data b) (rn_length b - 2));
  let b64 := Z.lor (Z.shiftl b32 32) b0 in
  mu ← mu_loop (S (rn_length b)) a b zero b32 b64 (rn_data zero) (2 * rn_length b);
  Some (_normalize (Number (rn_length b + 2) mu)).

Definition rsa_number_create_from_bytes (max_number_length : nat) (fresh : list Z) (data : list Z) (n : nat) : option rsa_number_t :=
  let n := Nat.min n max_number_length in
  l ← limbs n data;
  Some (_normalize (Number n (l ++ drop n fresh))).

(** The last partial word is masked; the index is one past the limbs when the
    bit length is a multiple of 32, and the limb there is zero. *)
Definition rsa_state_init (modulus : list Z) (modulus_bit_length : Z) : option rsa_state_t :=
  let modulus_length := Z.to_nat (Z.shiftr (modulus_bit_length + 31) 5) in
  let max_number_length := (2 * modulus_length + 3)%nat in
  l ← limbs modulus_length modulus;
  let data := l ++ replicate (max_number_length - modulus_length) 0 in
  let top := Z.to_nat (Z.shiftr modulus_bit_length 5) in
  x ← aget data top;
  data ← aput data top (Z.land x (u32 (Z.shiftl 1 (Z.land modulus_bit_length 31) - 1)));
  let modulus := _normalize (Number modulus_length data) in
  mu ← _calculate_mu max_number_length modulus;
  Some (State max_number_length modulus_bit_length None None modulus mu).

Section process.
Context (state : rsa_state_t).

(** [tmp[j]] and [tmp[j^1]]; a step leaves the result in the first one. *)
Definition square_step (tmp : rsa_number_t * rsa_number_t) : option (rsa_number_t * rsa_number_t) :=
  out ← _square (fst tmp) (snd tmp);
  out ← _modulo out state;
  Some (out, fst tmp).

Definition mult_step (b : rsa_number_t) (tmp : rsa_number_t * rsa_number_t) : option (rsa_number_t * rsa_number_t) :=
  out ← _mult (fst tmp) 0 b (snd tmp);
  out ← _modulo out state;
  Some (out, fst tmp).

Fixpoint squares (n : nat) (tmp : rsa_number_t * rsa_number_t) : option (rsa_number_t * rsa_number_t) :=
  match n with O => Some tmp | S n => tmp ← square_step tmp; squares n tmp end.

(** [table[i]=table[i-1]*value_sq], [n] entries after [last]. *)
Fixpoint make_table (n : nat) (last value_sq : rsa_number_t) : option (list rsa_number_t) :=
  match n with
  | O => Some []
  | S n =>
    x ← _mult last 0 value_sq (rsa_number_create (max_number_length state));
    x ← _modulo x state;
    l ← make_table n x value_sq;
    Some (x :: l)
  end.

(** [__builtin_ffs(mask)-1] of a mask that is not zero. *)
Definition window_step (table : list rsa_number_t) (mask mask_length : Z) (tmp : rsa_number_t * rsa_number_t) : option (rsa_number_t * rsa_number_t) :=
  let padding := ctz mask in
  let mask := Z.shiftr mask padding in
  tmp ← squares (Z.to_nat (mask_length - padding)) tmp;
  entry ← table !! Z.to_nat (Z.shiftr mask 1);
  tmp ← mult_step entry tmp;
  squares (Z.to_nat padding) tmp.

(** The bits below [i]. *)
Fixpoint exponent_loop (i : nat) (exponent : list Z) (table : list rsa_number_t) (mask mask_length : Z) (tmp : rsa_number_t * rsa_number_t) :
    option (rsa_number_t * rsa_number_t) :=
  match i with
  | O => Some tmp
  | S i =>
    x ← aget exponent (Nat.div i 32);
    let mask := Z.lor (u32 (Z.shiftl mask 1)) (Z.land (Z.shiftr x (Z.of_nat (Nat.modulo i 32))) 1) in
    let mask_length := mask_length + b2z (z2b mask) in
    if (i =? 0)%nat && (mask_length =? 0) then square_step tmp
    else if negb (i =? 0)%nat && (mask =? 0) then
      tmp ← square_step tmp; exponent_loop i exponent table mask mask_length tmp
    else if negb (i =? 0)%nat && (mask_length <? LOOKUP_TABLE_SIZE_SHIFT + 1) then exponent_loop i exponent table mask mask_length tmp
    else
      tmp ← window_step table mask mask_length tmp;
      exponent_loop i exponent table 0 0 tmp
  end.

(** [key]: [RSA_PUBLIC_KEY] is 1, [RSA_PRIVATE_KEY] is 2.  [value] is normalized
    in place. *)
Definition rsa_state_process (value : rsa_number_t) (key : Z) (out : rsa_number_t) : option (rsa_number_t * rsa_number_t) :=
  if negb (capacity value =? max_number_length state)%nat then None
  else
    let value := _normalize value in
    less ← _is_less_than value (modulus state);
    if negb less then None
    else
      exponent ← (if key =? 1 then public_key state else if key =? 2 then private_key state else None);
      less ← _is_less_than exponent (modulus state);
      if negb less then None
      else if negb (capacity out =? max_number_length state)%nat then None
      else
        let zero := rsa_number_create (max_number_length state) in
        value_sq ← _square value zero;
        value_sq ← _modulo value_sq state;
        table ← make_table 31 value value_sq;
        one ← aput (rn_data zero) 0 1;
        '(tmp, _) ← exponent_loop (32 * rn_length exponent) (rn_data exponent) (value :: table) 0 0 (Number 1 one, zero);
        Some (value, Number (rn_length tmp) (rn_data tmp)).
End process.
