(* ===== verification/RsaArith.v ===== *)
(** * RSA: the big-integer operations compute on numbers
    The value of an array of limbs, what comparison, subtraction,
    multiplication, squaring and shifting do to it, and the long division of
    [_calculate_mu]: it is exact when no trial digit is too big. *)
From stdpp Require Import base tactics list numbers option.
From Stdlib Require Import ZArith Lia.
From S2P Require Import Prelude Rsa.
#[local] Open Scope Z_scope.

Definition limb (x : Z) : Prop := 0 <= x < 2 ^ 32.

(** The base of the representation; kept folded so that arithmetic stays symbolic. *)
Definition base : Z := 2 ^ 32.

Definition val (l : list Z) : Z := foldr (fun x a => x + base * a) 0 l.

Definition power (n : nat) : Z := base ^ Z.of_nat n.

Lemma base_pos : 0 < base.
Proof. done. Qed.

Lemma power_pos n : 0 < power n.
Proof. apply Z.pow_pos_nonneg; [apply base_pos | lia]. Qed.

Lemma power_S n : power (S n) = base * power n.
Proof. unfold power. rewrite Nat2Z.inj_succ, Z.pow_succ_r; [done | lia]. Qed.

Lemma power_add n m : power (n + m) = power n * power m.
Proof. unfold power. rewrite Nat2Z.inj_add, Z.pow_add_r; [done | lia | lia]. Qed.

Lemma power_le n m : (n <= m)%nat -> power n <= power m.
Proof. intros Hl. apply Z.pow_le_mono_r; [apply base_pos | lia]. Qed.

Lemma val_cons x l : val (x :: l) = x + base * val l.
Proof. done. Qed.

Lemma limbs_val_app a b : val (a ++ b) = val a + power (length a) * val b.
Proof. induction a as [| x a IH]; [cbn; rewrite Z.mul_1_l; done|]. cbn [app length]. rewrite !val_cons, IH, power_S. ring. Qed.

Lemma val_zeros n : val (replicate n 0) = 0.
Proof. induction n as [| n IH]; [done|]. cbn [replicate]. rewrite val_cons, IH. lia. Qed.

Lemma limbs_val_range l : Forall limb l -> 0 <= val l < power (length l).
Proof.
  induction l as [| x l IH]; intros Hl; [done|]. apply Forall_cons_1 in Hl as [Hx Hl]. specialize (IH Hl). rewrite val_cons. cbn [length]. rewrite power_S.
  unfold limb in Hx. fold base in Hx. nia.
Qed.

Lemma limbs_zeros n : Forall limb (replicate n 0).
Proof. apply Forall_replicate. done. Qed.

Lemma val_split n l : val l = val (take n l) + power (length (take n l)) * val (drop n l).
Proof. rewrite <- limbs_val_app. by rewrite take_drop. Qed.

Lemma limbs_val_take n l : Forall limb l -> (n <= length l)%nat -> val (take n l) = val l mod power n.
Proof.
  intros Hl Hn. rewrite (val_split n l), length_take_le by done. pose proof (limbs_val_range _ (Forall_take _ n _ Hl)) as Hr. rewrite length_take_le in Hr by done.
  rewrite Z.mul_comm, Z.mod_add, Z.mod_small; [done | done | pose proof (power_pos n); lia].
Qed.

Lemma val_drop n l : Forall limb l -> (n <= length l)%nat -> val (drop n l) = val l / power n.
Proof.
  intros Hl Hn. rewrite (val_split n l), length_take_le by done. pose proof (limbs_val_range _ (Forall_take _ n _ Hl)) as Hr. rewrite length_take_le in Hr by done.
  rewrite Z.mul_comm, Z.div_add, Z.div_small; [done | done | pose proof (power_pos n); lia].
Qed.

Lemma u32_limb x : limb (u32 x).
Proof. apply u32_range. Qed.

#[local] Hint Resolve u32_limb limbs_zeros Forall_take Forall_drop : core.

(** ** Numbers *)

(** A number of [cap] limbs: nothing above its length, and no leading zeros. *)
Record num_ok (cap : nat) (a : rsa_number_t) : Prop := {
  nk_cap : length (rn_data a) = cap;
  nk_limbs : Forall limb (rn_data a);
  nk_length : (1 <= rn_length a <= cap)%nat;
  nk_high : val (drop (rn_length a) (rn_data a)) = 0;
  nk_top : (1 < rn_length a)%nat -> nth (rn_length a - 1) (rn_data a) 0 <> 0
}.

Definition value (a : rsa_number_t) : Z := val (rn_data a).

Lemma value_low cap a : num_ok cap a -> value a = val (take (rn_length a) (rn_data a)).
Proof. intros HA. unfold value. rewrite (val_split (rn_length a)), (nk_high _ _ HA). lia. Qed.

Lemma value_range cap a : num_ok cap a -> 0 <= value a < power (rn_length a).
Proof.
  intros HA. rewrite (value_low cap) by done. pose proof (limbs_val_range _ (Forall_take _ (rn_length a) _ (nk_limbs _ _ HA))) as Hr.
  rewrite length_take_le in Hr; [done|]. pose proof (nk_length _ _ HA). rewrite (nk_cap _ _ HA). lia.
Qed.

Lemma lookup_nth (l : list Z) n : (n < length l)%nat -> l !! n = Some (nth n l 0).
Proof. intros Hn. destruct (l !! n) as [x |] eqn:E; [by rewrite (nth_lookup_Some _ _ _ _ E) | apply lookup_ge_None in E; lia]. Qed.

Lemma val_last l n : Forall limb l -> (n < length l)%nat -> nth n l 0 * power n <= val l.
Proof.
  intros Hl Hn. rewrite (val_split n l), length_take_le by lia. pose proof (limbs_val_range _ (Forall_take _ n _ Hl)).
  destruct (drop n l) as [| x r] eqn:E; [apply (f_equal length) in E; rewrite length_drop in E; cbn in E; lia|].
  assert (nth n l 0 = x) as ->. { rewrite <- (take_drop n l), E, app_nth2 by (rewrite length_take; lia). rewrite length_take_le, Nat.sub_diag by lia. done. }
  rewrite val_cons. assert (Forall limb r) as Hr by (pose proof (Forall_drop _ n _ Hl) as Hd; rewrite E in Hd; by inversion Hd). pose proof (limbs_val_range r Hr).
  pose proof base_pos. pose proof (power_pos n). nia.
Qed.

Lemma value_top cap a : num_ok cap a -> (1 < rn_length a)%nat -> power (rn_length a - 1) <= value a.
Proof.
  intros HA Hl. pose proof (nk_length _ _ HA). pose proof (nk_cap _ _ HA). pose proof (val_last (rn_data a) (rn_length a - 1) (nk_limbs _ _ HA) ltac:(lia)) as Hv.
  pose proof (nk_top _ _ HA Hl) as Ht. assert (limb (nth (rn_length a - 1) (rn_data a) 0)) as [Hn _].
  { apply Forall_nth; [apply (nk_limbs _ _ HA) | lia]. }
  pose proof (power_pos (rn_length a - 1)). unfold value. nia.
Qed.

Lemma trim_spec data n : (1 <= n <= length data)%nat -> Forall limb data -> (1 <= trim n data <= n)%nat /\ val (take (trim n data) data) = val (take n data) /\
  ((1 < trim n data)%nat -> nth (trim n data - 1) data 0 <> 0) /\ val (take (n - trim n data) (drop (trim n data) data)) = 0.
Proof.
  intros Hn Hl. induction n as [| n IH]; [lia|]. cbn [trim]. destruct (Nat.eqb_spec n 0) as [-> | Hn0]; [rewrite Nat.sub_diag; repeat split; lia|].
  destruct (Z.eqb_spec (nth n data 0) 0) as [E | Hne]; [| rewrite Nat.sub_diag; cbn [Nat.sub]; rewrite Nat.sub_0_r; repeat split; done || lia].
  destruct (IH ltac:(lia)) as (H1 & H2 & H3 & H4). split; [lia|].
  assert (Ht : take (S n) data = take n data ++ [0]).
  { rewrite <- E. apply take_S_r, lookup_nth. lia. }
  split_and!; [| done |].
  - rewrite H2, Ht, limbs_val_app. cbn. lia.
  - replace (S n - trim n data)%nat with (n - trim n data + 1)%nat by lia. rewrite <- take_take_drop, limbs_val_app, H4, drop_drop. replace (trim n data + (n - trim n data))%nat with n by lia.
    assert (take 1 (drop n data) = [0]) as ->; [| cbn; lia].
    apply (f_equal (drop n)) in Ht. rewrite drop_app_length' in Ht by (rewrite length_take; lia). rewrite <- Ht. by rewrite skipn_firstn_comm, Nat.sub_succ_l, Nat.sub_diag by lia.
Qed.

Lemma trim_le data n : (trim n data <= n)%nat.
Proof. induction n as [| n IH]; [done|]. cbn [trim]. destruct (_ =? _)%nat; [done|]. destruct (_ =? _); lia. Qed.

Lemma normalize_ok cap n data : length data = cap -> Forall limb data -> (1 <= n <= cap)%nat ->
  num_ok cap (_normalize (Number n data)) /\ value (_normalize (Number n data)) = val (take n data).
Proof.
  intros Hc Hl Hn. unfold _normalize, value, capacity. cbn [rn_length rn_data]. set (data' := take n data ++ replicate (length data - n) 0).
  assert (Hd : length data' = cap) by (unfold data'; rewrite length_app, length_take, length_replicate; lia).
  assert (Hl' : Forall limb data') by (apply Forall_app; auto).
  assert (Htk : take n data' = take n data) by (unfold data'; apply take_app_length'; rewrite length_take; lia).
  destruct (trim_spec data' n ltac:(lia) Hl') as (H1 & H2 & H3 & H4). rewrite Htk in H2.
  assert (Hz : val (drop (trim n data') data') = 0).
  { rewrite <- (take_drop (n - trim n data') (drop (trim n data') data')), limbs_val_app, H4, drop_drop. replace (trim n data' + (n - trim n data'))%nat with n by lia.
    assert (drop n data' = replicate (length data - n) 0) as -> by (apply drop_app_length'; rewrite length_take; lia). rewrite val_zeros. lia. }
  split; [split; cbn [rn_data rn_length]; [done | done | lia | done | done]|]. cbn [rn_data].
  unfold data' at 1. rewrite limbs_val_app, val_zeros. lia.
Qed.

(** *** Comparison *)

Lemma less_from_ok i a b : Forall limb a -> Forall limb b -> (i <= length a)%nat -> (i <= length b)%nat ->
  less_from i a b = Some (val (take i a) <? val (take i b)).
Proof.
  intros Ha Hb. induction i as [| i IH]; intros Hi Hj; [done|]. cbn [less_from]. unfold aget. rewrite (lookup_nth a), (lookup_nth b) by lia. cbn [mbind option_bind].
  rewrite (take_S_r a i _ (lookup_nth a i ltac:(lia))), (take_S_r b i _ (lookup_nth b i ltac:(lia))). rewrite !limbs_val_app, !length_take_le by lia. rewrite IH by lia.
  set (x := nth i a 0). set (y := nth i b 0). cbn [val foldr]. rewrite !Z.mul_0_r, !Z.add_0_r.
  pose proof (limbs_val_range _ (Forall_take _ i _ Ha)) as Hra. pose proof (limbs_val_range _ (Forall_take _ i _ Hb)) as Hrb. rewrite length_take_le in Hra, Hrb by lia.
  destruct (Z.ltb_spec x y); [f_equal; symmetry; apply Z.ltb_lt; nia|]. destruct (Z.ltb_spec y x); [f_equal; symmetry; apply Z.ltb_ge; nia|].
  assert (x = y) as -> by lia. f_equal. destruct (Z.ltb_spec (val (take i a)) (val (take i b))); symmetry; [apply Z.ltb_lt | apply Z.ltb_ge]; lia.
Qed.

Lemma is_less_than_ok ca cb a b : num_ok ca a -> num_ok cb b -> _is_less_than a b = Some (value a <? value b).
Proof.
  intros HA HB. unfold _is_less_than. pose proof (nk_length _ _ HA). pose proof (nk_length _ _ HB). pose proof (value_range _ _ HA). pose proof (value_range _ _ HB).
  destruct (Nat.ltb_spec (rn_length a) (rn_length b)).
  { f_equal. symmetry. apply Z.ltb_lt. pose proof (value_top _ _ HB ltac:(lia)). pose proof (power_le (rn_length a) (rn_length b - 1) ltac:(lia)). lia. }
  destruct (Nat.ltb_spec (rn_length b) (rn_length a)).
  { f_equal. symmetry. apply Z.ltb_ge. pose proof (value_top _ _ HA ltac:(lia)). pose proof (power_le (rn_length b) (rn_length a - 1) ltac:(lia)). lia. }
  rewrite less_from_ok; [| apply (nk_limbs _ _ HA) | apply (nk_limbs _ _ HB) | rewrite (nk_cap _ _ HA); lia | rewrite (nk_cap _ _ HB); lia].
  rewrite <- (value_low _ _ HA). replace (rn_length a) with (rn_length b) by lia. by rewrite <- (value_low _ _ HB).
Qed.

(** *** Subtraction *)

Lemma sub_loop_ok a : forall b carry, Forall limb a -> Forall limb b -> length b = length a -> carry = 0 \/ carry = 1 ->
  Forall limb (sub_loop carry a b) /\ length (sub_loop carry a b) = length a /\
  val (sub_loop carry a b) = (val a - val b - carry) mod power (length a).
Proof.
  induction a as [| x a IH]; intros [| y b] carry Ha Hb Hlen Hc; try done; [cbn; rewrite Z.mod_1_r; done|].
  apply Forall_cons_1 in Ha as [Hx Ha], Hb as [Hy Hb]. cbn [length] in Hlen. cbn [sub_loop length].
  destruct (IH b (b2z (x - y - carry <? 0)) Ha Hb ltac:(lia) ltac:(destruct (_ <? _); auto)) as (H1 & H2 & H3).
  split; [auto|]. split; [lia|]. rewrite !val_cons, H3, power_S. set (c := b2z (x - y - carry <? 0)).
  assert (Hu : u32 (x - y - carry) = x - y - carry + base * c /\ 0 <= x - y - carry + base * c < base).
  { unfold limb in *. fold base in *. unfold c. destruct (Z.ltb_spec (x - y - carry) 0); cbn [b2z].
    - split; [| lia]. unfold u32, wrap. fold base. rewrite <- (Z.mod_add _ 1), Z.mod_small; lia.
    - split; [| lia]. unfold u32, wrap. fold base. rewrite Z.mod_small; lia. }
  destruct Hu as [-> Hu]. set (R := val a - val b - c).
  replace (x + base * val a - (y + base * val b) - carry) with (base * R + (x - y - carry + base * c)) by (unfold R; ring).
  pose proof (Z.div_mod R (power (length a)) ltac:(pose proof (power_pos (length a)); lia)) as Hd. pose proof (Z.mod_pos_bound R (power (length a)) (power_pos _)) as Hm.
  generalize dependent (R mod power (length a)). intros M Hd Hm. generalize dependent (R / power (length a)). intros Q Hd. rewrite Hd.
  replace (base * (power (length a) * Q + M) + (x - y - carry + base * c)) with ((x - y - carry + base * c + base * M) + Q * (base * power (length a))) by ring.
  pose proof base_pos. pose proof (power_pos (length a)). rewrite Z.mod_add by nia. rewrite Z.mod_small; [ring | nia].
Qed.

Lemma limbs_some n l : (n <= length l)%nat -> limbs n l = Some (take n l).
Proof. intros Hn. unfold limbs. destruct (Nat.leb_spec n (length l)); [done | lia]. Qed.

Lemma subtract_fixed_ok cap a b n out : num_ok cap a -> num_ok cap b -> num_ok cap out -> (1 <= n <= cap)%nat ->
  exists r, _subtract_fixed_length a b n out = Some r /\ num_ok cap r /\ value r = (value a - value b) mod power n.
Proof.
  intros HA HB HO Hn. pose proof (nk_cap _ _ HA) as Ca. pose proof (nk_cap _ _ HB) as Cb. pose proof (nk_cap _ _ HO) as Co.
  unfold _subtract_fixed_length. rewrite !limbs_some by lia. cbn [mbind option_bind]. eexists. split; [done|].
  destruct (sub_loop_ok (take n (rn_data a)) (take n (rn_data b)) 0) as (H1 & H2 & H3);
    [apply Forall_take, HA | apply Forall_take, HB | rewrite !length_take; lia | by left |]. rewrite length_take_le in H2, H3 by lia.
  set (l := sub_loop 0 _ _) in *.
  destruct (normalize_ok cap n (l ++ drop n (rn_data out))) as [HN HV];
    [rewrite length_app, length_drop; lia | apply Forall_app; split; [done | apply Forall_drop, HO] | done |].
  split; [done|]. rewrite HV, take_app_length' by done. rewrite H3, !limbs_val_take by (try apply HA; try apply HB; lia). rewrite Z.sub_0_r. unfold value. by rewrite <- Zminus_mod.
Qed.

Lemma subtract_ok cap a b : num_ok cap a -> num_ok cap b -> value b <= value a -> exists r, _subtract a b a = Some r /\ num_ok cap r /\ value r = value a - value b.
Proof.
  intros HA HB Hle. unfold _subtract. destruct (subtract_fixed_ok cap a b (rn_length a) a HA HB HA) as (r & -> & HR & HV); [apply HA|]. exists r. split_and!; [done | done |].
  rewrite HV. apply Z.mod_small. pose proof (value_range _ _ HA). pose proof (value_range _ _ HB). lia.
Qed.

(** *** Multiplication *)

Lemma aput_at (pre : list Z) y post x i : i = length pre -> aput (pre ++ y :: post) i x = Some (pre ++ x :: post).
Proof.
  intros ->. unfold aput. rewrite length_app. cbn [length]. destruct (Nat.ltb_spec (length pre) (length pre + S (length post))); [| lia].
  f_equal. by rewrite insert_app_r_alt, Nat.sub_diag by lia.
Qed.

Lemma mult_row_ok x b : limb x -> Forall limb b -> forall carry pre mid post i, limb carry -> Forall limb mid -> length mid = length b -> i = length pre ->
  exists mid' c, mult_row x carry b (pre ++ mid ++ 0 :: post) i = Some (pre ++ mid' ++ c :: post) /\ Forall limb mid' /\ limb c /\ length mid' = length b /\
    val mid' + power (length b) * c = val mid + x * val b + carry.
Proof.
  intros Hx. induction b as [| y b IH]; intros Hb carry pre mid post i Hc Hm Hlen Hi.
  - destruct mid; [| done]. exists [], carry. cbn [mult_row app]. rewrite aput_at by done. split_and!; [done | done | done | done |]. cbn. rewrite Z.mul_1_l. lia.
  - destruct mid as [| o mid]; [done|]. apply Forall_cons_1 in Hb as [Hy Hb], Hm as [Ho Hm]. cbn [length] in Hlen. cbn [mult_row app].
    unfold aget. rewrite lookup_app_r by lia. rewrite Hi, Nat.sub_diag. cbn [lookup list_lookup mbind option_bind].
    unfold limb in Hx, Hy, Ho, Hc. set (t := carry + (o + x * y)).
    assert (Ht : 0 <= t < 2 ^ 64) by (unfold t; nia). assert (u64 (carry + u64 (o + u64 (x * y))) = t) as -> by (rewrite (u64_id (x * y)) by nia; rewrite (u64_id (o + _)) by nia; apply u64_id; exact Ht).
    rewrite aput_at by done. cbn [mbind option_bind]. rewrite Z.shiftr_div_pow2 by lia. fold base.
    assert (Hq : limb (t / base)) by (unfold limb, base; split; [apply Z.div_pos; lia | apply Z.div_lt_upper_bound; lia]).
    destruct (IH Hb (t / base) (pre ++ [u32 t]) mid post (S (length pre)) Hq Hm ltac:(lia)) as (mid' & c & E & H1 & H2 & H3 & H4); [rewrite length_app; cbn; lia|].
    exists (u32 t :: mid'), c. rewrite <- !app_assoc in E. cbn [app] in E. split_and!; [done | auto | done | cbn; lia |].
    cbn [length]. rewrite !val_cons, power_S. pose proof (Z.div_mod t base ltac:(done)) as Hd. unfold u32, wrap. fold base. unfold t in *. nia.
Qed.

Lemma mult_rows_ok b : Forall limb b -> forall a acc m i, Forall limb a -> Forall limb acc -> length acc = (i + length b)%nat -> (length a <= m)%nat ->
  exists acc', mult_rows a b (acc ++ replicate m 0) i = Some (acc' ++ replicate (m - length a) 0) /\ Forall limb acc' /\ length acc' = (i + length a + length b)%nat /\
    val acc' = val acc + power i * (val a * val b).
Proof.
  intros Hb. induction a as [| x a IH]; intros acc m i Ha Hacc Hlen Hm.
  - exists acc. cbn. rewrite Nat.sub_0_r, Nat.add_0_r, Z.mul_0_r, Z.add_0_r. done.
  - apply Forall_cons_1 in Ha as [Hx Ha]. cbn [length] in *. destruct m as [| m]; [lia|]. cbn [mult_rows replicate].
    rewrite <- (take_drop i acc), <- app_assoc.
    destruct (mult_row_ok x b Hx Hb 0 (take i acc) (drop i acc) (replicate m 0) i) as (mid & c & -> & H1 & H2 & H3 & H4); [done | by apply Forall_drop | rewrite length_drop; lia | rewrite length_take; lia |].
    cbn [mbind option_bind]. rewrite cons_middle, app_assoc, app_assoc.
    destruct (IH ((take i acc ++ mid) ++ [c]) m (S i)) as (acc' & -> & K1 & K2 & K3).
    + done.
    + repeat (apply Forall_app; split); auto.
    + rewrite !length_app, length_take. cbn. lia.
    + lia.
    + exists acc'. split_and!; [done | done | lia |]. rewrite K3, !limbs_val_app, length_app, H3, length_take_le by lia.
      rewrite power_add, power_S, val_cons. cbn [val foldr]. rewrite Z.mul_0_r, Z.add_0_r. change (foldr _ _ ?l) with (val l) in *. nia.
Qed.

Lemma mult_rows_clear a b cap : Forall limb a -> Forall limb b -> (length a + length b <= cap)%nat ->
  exists data, mult_rows a b (replicate cap 0) 0 = Some data /\ length data = cap /\ Forall limb data /\ val (take (length a + length b) data) = val a * val b.
Proof.
  intros Ha Hb Hc. assert (replicate cap 0 = replicate (length b) 0 ++ replicate (cap - length b) 0) as -> by (rewrite <- replicate_add; f_equal; lia).
  destruct (mult_rows_ok b Hb a (replicate (length b) 0) (cap - length b) 0) as (acc & -> & H1 & H2 & H3); [done | auto | by rewrite length_replicate | lia |].
  eexists. split; [done|]. rewrite length_app, length_replicate, H2. split_and!; [lia | apply Forall_app; auto |].
  rewrite take_app_length' by (cbn in H2; lia). rewrite H3, val_zeros. change (power 0) with 1. lia.
Qed.

(** What a destination has to be: an array of the right length. *)
Lemma mult_ok cap a s b out : num_ok cap a -> num_ok cap b -> length (rn_data out) = cap -> (rn_length a - s + rn_length b <= cap)%nat ->
  exists r, _mult a s b out = Some r /\ num_ok cap r /\ value r = value a / power s * value b.
Proof.
  intros HA HB HO Hc. pose proof (nk_cap _ _ HA) as Ca. pose proof (nk_cap _ _ HB) as Cb. pose proof (nk_length _ _ HA) as La. pose proof (nk_length _ _ HB) as Lb.
  unfold _mult, _clear, capacity. cbn [rn_data rn_length]. rewrite HO. destruct (Nat.leb_spec (rn_length a) s) as [Hs | Hs].
  - eexists. split; [done|]. split; [split; cbn [rn_data rn_length]; [by rewrite length_replicate | auto | lia | by rewrite drop_replicate, val_zeros | lia]|].
    unfold value. cbn [rn_data]. rewrite val_zeros. pose proof (value_range _ _ HA). pose proof (power_le _ _ Hs). unfold value in *. rewrite Z.div_small by lia. done.
  - rewrite !limbs_some by lia. cbn [mbind option_bind].
    destruct (mult_rows_clear (drop s (take (rn_length a) (rn_data a))) (take (rn_length b) (rn_data b)) cap) as (data & -> & H1 & H2 & H3);
      [apply Forall_drop, Forall_take, HA | apply Forall_take, HB | rewrite length_drop, !length_take_le by lia; lia |].
    cbn [mbind option_bind]. eexists. split; [done|]. rewrite length_drop, !length_take_le in H3 by lia.
    destruct (normalize_ok cap (rn_length a - s + rn_length b) data) as [HN HV]; [done | done | lia |]. split; [done|]. rewrite HV, H3.
    rewrite val_drop by (rewrite ?length_take_le by lia; lia || apply Forall_take, HA). by rewrite <- (value_low _ _ HA), <- (value_low _ _ HB).
Qed.

Lemma square_ok cap a out : num_ok cap a -> length (rn_data out) = cap -> (2 * rn_length a <= cap)%nat ->
  exists r, _square a out = Some r /\ num_ok cap r /\ value r = value a * value a.
Proof.
  intros HA HO Hc. pose proof (nk_cap _ _ HA) as Ca. pose proof (nk_length _ _ HA) as La.
  unfold _square, _clear, capacity. cbn [rn_data]. rewrite HO, limbs_some by lia. cbn [mbind option_bind].
  destruct (mult_rows_clear (take (rn_length a) (rn_data a)) (take (rn_length a) (rn_data a)) cap) as (data & -> & H1 & H2 & H3);
    [apply Forall_take, HA | apply Forall_take, HA | rewrite !length_take_le by lia; lia |].
  cbn [mbind option_bind]. eexists. split; [done|]. rewrite !length_take_le in H3 by lia. replace (rn_length a + rn_length a)%nat with (2 * rn_length a)%nat in H3 by lia.
  destruct (normalize_ok cap (2 * rn_length a) data) as [HN HV]; [done | done | lia |]. split; [done|]. rewrite HV, H3. by rewrite <- (value_low _ _ HA).
Qed.

(** *** Limbs of a number *)

Lemma nth_limb l i : Forall limb l -> limb (nth i l 0).
Proof. intros Hl. destruct (decide (i < length l)%nat); [by apply Forall_nth | by rewrite nth_overflow by lia]. Qed.

Lemma limb_digit l i : Forall limb l -> (i < length l)%nat -> val l / power i = nth i l 0 + base * (val l / power (S i)).
Proof.
  intros Hl Hi. rewrite <- !val_drop by (done || lia). rewrite (drop_S l (nth i l 0) i) by (by apply lookup_nth). done.
Qed.

(** A number below [power (S i)] read from its limbs [i], [i-1] and [i-2]. *)
Lemma top_limbs l i : Forall limb l -> (2 <= i < length l)%nat -> val l < power (S i) ->
  nth i l 0 = val l / power i /\ Z.lor (Z.shiftl (nth i l 0) 32) (nth (i - 1) l 0) = val l / power (i - 1) /\
  Z.lor (Z.shiftl (val l / power (i - 1)) 32) (nth (i - 2) l 0) = val l / power (i - 2).
Proof.
  intros Hl Hi Hv. pose proof (limbs_val_range _ Hl) as [H0 _].
  pose proof (limb_digit l i Hl ltac:(lia)) as E0. rewrite (Z.div_small _ (power (S i))), Z.mul_0_r, Z.add_0_r in E0 by done.
  pose proof (limb_digit l (i - 1) Hl ltac:(lia)) as E1. pose proof (limb_digit l (i - 2) Hl ltac:(lia)) as E2.
  replace (S (i - 1)) with i in E1 by lia. replace (S (i - 2)) with (i - 1)%nat in E2 by lia.
  pose proof (nth_limb l (i - 1) Hl). pose proof (nth_limb l (i - 2) Hl). unfold limb in *. unfold base in *.
  rewrite <- E0. rewrite !lor_shiftl_add by lia. split_and!; lia.
Qed.

Lemma num_ok_intro cap n data : length data = cap -> Forall limb data -> (1 <= n <= cap)%nat -> power (n - 1) <= val data < power n -> num_ok cap (Number n data).
Proof.
  intros Hc Hl Hn Hv. pose proof (power_pos n). split; cbn [rn_data rn_length]; [done | done | done | |].
  - rewrite val_drop by (done || lia). apply Z.div_small. pose proof (power_pos (n - 1)). lia.
  - intros Hn1 E. pose proof (limb_digit data (n - 1) Hl ltac:(lia)) as D. replace (S (n - 1)) with n in D by lia.
    rewrite E, (Z.div_small _ (power n)) in D by (pose proof (power_pos (n - 1)); lia). pose proof (Z.div_str_pos (val data) (power (n - 1)) ltac:(pose proof (power_pos (n - 1)); lia)). lia.
Qed.

(** *** Multiplication by a limb, and the shift *)

Lemma mult_int_loop_ok b : limb b -> forall a carry, Forall limb a -> limb carry -> Forall limb (mult_int_loop carry a b) /\ length (mult_int_loop carry a b) = S (length a) /\
  val (mult_int_loop carry a b) = carry + val a * b.
Proof.
  intros Hb. induction a as [| x a IH]; intros carry Ha Hc; [split_and!; [by constructor | done | cbn; lia]|]. apply Forall_cons_1 in Ha as [Hx Ha]. cbn [mult_int_loop].
  unfold limb in Hx, Hb, Hc. assert (Ht : 0 <= carry + x * b < 2 ^ 64) by nia. rewrite u64_id by done. set (t := carry + x * b) in *. rewrite Z.shiftr_div_pow2 by lia. fold base.
  assert (Hq : limb (t / base)) by (unfold limb, base; split; [apply Z.div_pos; lia | apply Z.div_lt_upper_bound; lia]).
  destruct (IH (t / base) Ha Hq) as (H1 & H2 & H3). split_and!; [auto | cbn [length]; lia |]. rewrite !val_cons, H3.
  pose proof (Z.div_mod t base ltac:(done)) as Hd. unfold u32, wrap. fold base. unfold t in *. nia.
Qed.

Lemma mult_int_ok cap a b out off : num_ok cap a -> limb b -> length (rn_data out) = cap -> Forall limb (rn_data out) -> (rn_length a + off + 1 <= cap)%nat ->
  exists r, _mult_int a b out off = Some r /\ num_ok cap r /\ value r = b * (value a * power off).
Proof.
  intros HA Hb Co Lo Hc. pose proof (nk_cap _ _ HA) as Ca. unfold _mult_int. rewrite !limbs_some by lia. cbn [mbind option_bind]. eexists. split; [done|].
  destruct (mult_int_loop_ok b Hb (take (rn_length a) (rn_data a)) 0) as (H1 & H2 & H3); [apply Forall_take, HA | done |]. rewrite length_take_le in H2 by lia.
  set (l := mult_int_loop 0 _ b) in *. rewrite app_assoc. assert (Hlen : length (replicate off 0 ++ l) = (rn_length a + off + 1)%nat) by (rewrite length_app, length_replicate; lia).
  destruct (normalize_ok cap (rn_length a + off + 1) ((replicate off 0 ++ l) ++ drop (rn_length a + off + 1) (rn_data out))) as [HN HV];
    [rewrite length_app, length_drop; lia | repeat (apply Forall_app; split); auto | lia |].
  split; [done|]. rewrite HV, take_app_length' by done. rewrite limbs_val_app, val_zeros, length_replicate, H3, <- (value_low _ _ HA). lia.
Qed.

Lemma shift_loop_ok s : 0 <= s <= 31 -> forall a carry, Forall limb a -> 0 <= carry < 2 ^ s -> Forall limb (shift_loop carry a s) /\ length (shift_loop carry a s) = length a /\
  exists c, 0 <= c < 2 ^ s /\ val (shift_loop carry a s) + power (length a) * c = val a * 2 ^ s + carry.
Proof.
  intros Hs. assert (P : 0 < 2 ^ s <= 2 ^ 31) by (split; [apply Z.pow_pos_nonneg; lia | apply Z.pow_le_mono_r; lia]).
  induction a as [| x a IH]; intros carry Ha Hc; [split_and!; [auto | done | exists carry; cbn; rewrite Z.mul_1_l; lia]|]. apply Forall_cons_1 in Ha as [Hx Ha]. cbn [shift_loop].
  unfold limb in Hx. rewrite u64_id by (rewrite Z.shiftl_mul_pow2 by lia; nia). rewrite Z.lor_comm, lor_shiftl_add by lia. set (t := x * 2 ^ s + carry).
  rewrite Z.shiftr_div_pow2 by lia. fold base. pose proof (Z.div_mod t base ltac:(done)) as Hd.
  assert (Hq : 0 <= t / base < 2 ^ s) by (unfold base; split; [apply Z.div_pos; unfold t; nia | apply Z.div_lt_upper_bound; unfold t; nia]).
  destruct (IH (t / base) Ha Hq) as (H1 & H2 & c & Hc1 & Hc2). split_and!; [auto | cbn [length]; lia |]. exists c. split; [done|].
  rewrite !val_cons. cbn [length]. rewrite power_S. unfold u32, wrap. fold base. unfold t in *. nia.
Qed.

Lemma shift_left_ok cap a s out : num_ok cap a -> 0 <= s <= 31 -> length (rn_data out) = cap -> Forall limb (rn_data out) -> val (drop (rn_length a) (rn_data out)) = 0 ->
  power (rn_length a - 1) <= value a * 2 ^ s < power (rn_length a) ->
  exists r, _shift_left_nooverflow a s out = Some r /\ num_ok cap r /\ rn_length r = rn_length a /\ value r = value a * 2 ^ s.
Proof.
  intros HA Hs Co Lo Zo Hv. pose proof (nk_cap _ _ HA) as Ca. pose proof (nk_length _ _ HA) as Na. unfold _shift_left_nooverflow. rewrite !limbs_some by lia. cbn [mbind option_bind]. eexists. split; [done|].
  assert (P : 0 < 2 ^ s) by (apply Z.pow_pos_nonneg; lia).
  destruct (shift_loop_ok s Hs (take (rn_length a) (rn_data a)) 0) as (H1 & H2 & c & Hc & H3); [apply Forall_take, HA | lia |]. rewrite length_take_le in H2, H3 by lia.
  rewrite <- (value_low _ _ HA) in H3. set (l := shift_loop 0 _ s) in *. pose proof (limbs_val_range _ H1) as Hr. rewrite H2 in Hr.
  assert (c = 0) as -> by (pose proof (power_pos (rn_length a)); nia).
  assert (E : val (l ++ drop (rn_length a) (rn_data out)) = value a * 2 ^ s) by (rewrite limbs_val_app, Zo; lia).
  split_and!; [| done | exact E]. apply num_ok_intro; [rewrite length_app, length_drop; lia | apply Forall_app; auto | done | by rewrite E].
Qed.

(** ** The reciprocal of the modulus *)

(** [correct_digit] ends at the largest digit that the two top limbs of the
    divisor allow. *)
Lemma correct_digit_ok a128 b64 fuel : forall q, 0 <= a128 -> 0 < b64 < 2 ^ 64 -> 0 <= q < 2 ^ 32 -> b64 * (q - Z.of_nat fuel) <= a128 ->
  correct_digit fuel a128 b64 (wrap 128 (b64 * q)) q = Some (Z.min q (a128 / b64)).
Proof.
  induction fuel as [| fuel IH]; intros q Ha Hb Hq Hf; rewrite wrap_id by (unfold is_width; nia); cbn [correct_digit]; destruct (Z.ltb_spec a128 (b64 * q)) as [Hl | Hl].
  1: lia. 1, 3: f_equal; rewrite Z.min_l; [done | apply Z.div_le_lower_bound; lia].
  assert (1 <= q) by nia. rewrite (u32_id (q - 1)) by lia. replace (b64 * q - b64) with (b64 * (q - 1)) by lia. rewrite IH by lia.
  assert (a128 / b64 < q) by (apply Z.div_lt_upper_bound; lia). f_equal. lia.
Qed.

(** The digit that the code tries first for the remainder [R], the divisor [B]
    of [k] limbs and the position [j]. *)
Definition trial_digit (k j : nat) (B R : Z) : Z := Z.min (base - 1) (R / power (k + j - 2) / (B / power (k - 2))).

Section digit.
Context (cap k : nat) (b : rsa_number_t) (B : Z) (HB : num_ok cap b) (Eb : value b = B) (Hk : (2 <= k)%nat) (Ek : rn_length b = k) (Hcap : (2 * k + 3 <= cap)%nat).
Context (HB2 : power k <= 2 * B).

Let b32 := nth (k - 1) (rn_data b) 0.
Let b64 := B / power (k - 2).

Lemma divisor_range : 0 < B < power k.
Proof. rewrite <- Eb, <- Ek. pose proof (value_range _ _ HB) as H. rewrite <- Ek in HB2. rewrite Eb in *. pose proof (power_pos (rn_length b)). lia. Qed.

Lemma divisor_limbs : b32 = B / power (k - 1) /\ Z.lor (Z.shiftl b32 32) (nth (k - 2) (rn_data b) 0) = b64 /\ 2 ^ 31 <= b32 < base /\ b32 * base <= b64 < (b32 + 1) * base.
Proof.
  pose proof divisor_range as Hr. pose proof (nk_cap _ _ HB) as Cb. pose proof (nk_limbs _ _ HB) as Lb. unfold value in Eb.
  pose proof (limb_digit (rn_data b) (k - 1) Lb ltac:(lia)) as E1. pose proof (limb_digit (rn_data b) (k - 2) Lb ltac:(lia)) as E2.
  replace (S (k - 1)) with k in E1 by lia. replace (S (k - 2)) with (k - 1)%nat in E2 by lia. rewrite Eb in E1, E2. rewrite (Z.div_small B (power k)), Z.mul_0_r, Z.add_0_r in E1 by lia.
  pose proof (nth_limb _ (k - 2) Lb) as L2. pose proof (nth_limb _ (k - 1) Lb) as L1. fold b32 in L1, E1. rewrite E1 in E2. fold b64 in E2. unfold limb in L1, L2.
  split_and!; [done | rewrite lor_shiftl_add by lia; rewrite E2; unfold base; lia | | unfold base; lia | unfold base in *; lia | unfold base in *; lia].
  rewrite <- E1. apply Z.div_le_lower_bound; [apply power_pos|]. replace k with (S (k - 1)) in HB2 by lia. rewrite power_S in HB2. unfold base in HB2. lia.
Qed.

Context (a : rsa_number_t) (j : nat) (HA : num_ok cap a) (Hj : (j <= k)%nat) (HR : value a < B * power (S j)).

Let R := value a.

(** The first estimate, from three limbs of the remainder. *)
Lemma first_digit a0 a64 a128 : a0 = R / power (k + j) -> a64 = R / power (k + j - 1) -> a128 = R / power (k + j - 2) ->
  let q := if a0 =? b32 then 0xffffffff else u32 (a64 / b32) in
  0 <= q < 2 ^ 32 /\ b64 * (q - 4) <= a128 /\ Z.min q (a128 / b64) = trial_digit k j B R.
Proof.
  intros E0 E1 E2. pose proof divisor_range as Hr. destruct divisor_limbs as (D1 & _ & D3 & D4). pose proof (value_range _ _ HA) as [R0 _]. fold R in R0.
  pose proof (power_pos (k + j)) as P0. pose proof (power_pos (k + j - 1)) as P1. pose proof (power_pos (k + j - 2)) as P2.
  assert (Q1 : power (k + j) = base * power (k + j - 1)) by (rewrite <- power_S; f_equal; lia). assert (Q2 : power (k + j - 1) = base * power (k + j - 2)) by (rewrite <- power_S; f_equal; lia).
  assert (F1 : a0 = a64 / base) by (rewrite E0, E1, Z.div_div, (Z.mul_comm _ base), <- Q1 by (done || lia); done).
  assert (F2 : a64 = a128 / base) by (rewrite E1, E2, Z.div_div, (Z.mul_comm _ base), <- Q2 by (done || lia); done).
  assert (A0 : a0 <= b32).
  { rewrite E0. apply Z.lt_succ_r, Z.div_lt_upper_bound; [done|]. pose proof (Z.div_mod B (power (k - 1)) ltac:(pose proof (power_pos (k - 1)); lia)) as DB. rewrite <- D1 in DB.
    pose proof (Z.mod_pos_bound B (power (k - 1)) (power_pos _)). replace (k + j)%nat with (k - 1 + S j)%nat by lia. rewrite power_add. pose proof (power_pos (S j)). unfold R. nia. }
  assert (N0 : 0 <= a128) by (rewrite E2; apply Z.div_pos; lia).
  pose proof (Z.div_mod a128 base ltac:(done)) as M2. rewrite <- F2 in M2. pose proof (Z.mod_pos_bound a128 base base_pos). pose proof (Z.div_mod a64 base ltac:(done)) as M1. rewrite <- F1 in M1. pose proof (Z.mod_pos_bound a64 base base_pos).
  assert (N1 : 0 <= a64) by (rewrite E1; apply Z.div_pos; lia). assert (N2 : 0 <= a0) by (rewrite E0; apply Z.div_pos; lia).
  unfold trial_digit. rewrite <- E2. fold b64. clear E0 E1 E2 D1 Q1 Q2 P0 P1 P2. clearbody b32 b64 R.
  destruct (Z.eqb_spec a0 b32) as [-> | Hne]; cbv zeta.
  - split_and!; [done | done | | done]. unfold base in *. nia.
  - assert (Hq : 0 <= a64 / b32 < base) by (split; [apply Z.div_pos; lia | apply Z.div_lt_upper_bound; [lia|]; nia]). rewrite u32_id by done.
    pose proof (Z.div_mod a64 b32 ltac:(lia)) as M3. pose proof (Z.mod_pos_bound a64 b32 ltac:(lia)). set (q := a64 / b32) in *.
    split_and!; [apply Hq | apply Hq | unfold base in *; nia |].
    assert (a128 / b64 <= q).
    { apply Z.lt_succ_r. apply Z.div_lt_upper_bound; [unfold base in D4; lia|]. assert (a64 + 1 <= b32 * (q + 1)) by lia.
      assert (base * (a64 + 1) <= base * (b32 * (q + 1))) by (apply Z.mul_le_mono_nonneg_l; lia). assert (b32 * base * (q + 1) <= b64 * (q + 1)) by (apply Z.mul_le_mono_nonneg_r; lia). lia. }
    rewrite !Z.min_r; lia.
Qed.

(** One digit, where the trial digit is not too big. *)
Lemma mu_digit_ok tmp mu : trial_digit k j B R * (B * power j) <= R -> length (rn_data tmp) = cap -> Forall limb (rn_data tmp) -> length mu = cap ->
  exists a' tmp', mu_digit a b tmp b32 b64 mu (k + j) = Some (a', tmp', <[j := R / (B * power j)]> mu) /\ num_ok cap a' /\ num_ok cap tmp' /\
    value a' = R mod (B * power j) /\ 0 <= R / (B * power j) < base.
Proof.
  intros Hex Ct Lt Cm. pose proof divisor_range as Hr. pose proof divisor_limbs as (_ & _ & D3 & D4). pose proof (value_range _ _ HA) as [R0 _]. fold R in R0. pose proof (nk_cap _ _ HA) as Ca.
  pose proof (power_pos j) as Pj. assert (HR' : R < power (S (k + j))).
  { replace (S (k + j)) with (k + S j)%nat by lia. rewrite power_add. pose proof (power_pos (S j)). unfold R. nia. }
  destruct (top_limbs (rn_data a) (k + j) (nk_limbs _ _ HA) ltac:(lia) HR') as (T0 & T1 & T2). change (val (rn_data a)) with R in T0, T1, T2.
  unfold mu_digit, aget. rewrite !lookup_nth by lia. cbn [mbind option_bind]. rewrite T1, T2, T0.
  destruct (first_digit _ _ _ eq_refl eq_refl eq_refl) as (F1 & F2 & F3). cbv zeta in F1, F2, F3.
  rewrite correct_digit_ok; [| apply Z.div_pos; [done | apply power_pos] | unfold base in *; lia | done | done]. rewrite F3. cbn [mbind option_bind].
  rewrite Ek. replace (k + j - k)%nat with j by lia. set (q := trial_digit k j B R) in *.
  assert (Hq : 0 <= q < base).
  { unfold q, trial_digit. split; [apply Z.min_glb; [done|] | lia]. apply Z.div_pos; [apply Z.div_pos; [done | apply power_pos] | fold b64; unfold base in *; lia]. }
  assert (Eq : R / (B * power j) = q).
  { symmetry. apply Z.div_unique_pos with (R - q * (B * power j)); [| lia]. split; [lia|].
    assert (Hn : R / (B * power j) <= q); [| pose proof (Z.div_mod R (B * power j) ltac:(nia)); pose proof (Z.mod_pos_bound R (B * power j) ltac:(nia)); nia].
    unfold q, trial_digit. apply Z.min_glb.
    - apply Z.lt_le_pred, Z.div_lt_upper_bound; [nia|]. fold R in HR. rewrite power_S in HR. lia.
    - fold b64. rewrite Z.div_div by (unfold base in *; try pose proof (power_pos (k + j - 2)); lia). apply Z.div_le_lower_bound; [apply Z.mul_pos_pos; [apply power_pos | unfold base in *; lia]|].
      pose proof (Z.mul_div_le R (B * power j) ltac:(nia)) as Hle. pose proof (Z.mul_div_le B (power (k - 2)) (power_pos _)) as Hb. fold b64 in Hb.
      assert (0 <= R / (B * power j)) by (apply Z.div_pos; nia). replace (k + j - 2)%nat with (k - 2 + j)%nat by lia. rewrite power_add.
      apply Z.le_trans with (B * power j * (R / (B * power j))); [| done]. apply Z.mul_le_mono_nonneg_r; [done|]. nia. }
  destruct (mult_int_ok cap b q tmp j HB Hq Ct Lt) as (t & -> & HT & VT); [lia|]. cbn [mbind option_bind]. rewrite (is_less_than_ok _ _ _ _ HA HT). cbn [mbind option_bind].
  rewrite VT, Eb. fold R. destruct (Z.ltb_spec R (q * (B * power j))); [lia|]. cbn [mbind option_bind]. unfold aput. destruct (Nat.ltb_spec j (length mu)); [| lia]. cbn [mbind option_bind].
  destruct (subtract_ok cap a t HA HT) as (a' & -> & HA' & VA'); [rewrite VT, Eb; done|]. cbn [mbind option_bind]. exists a', t. rewrite Eq. split_and!; [done | done | done | | lia | lia].
  rewrite VA', VT, Eb. fold R. rewrite Z.mod_eq by nia. rewrite Eq. lia.
Qed.
End digit.

Section reciprocal.
Context (cap k : nat) (b : rsa_number_t) (B : Z) (HB : num_ok cap b) (Eb : value b = B) (Hk : (2 <= k)%nat) (Ek : rn_length b = k) (Hcap : (2 * k + 3 <= cap)%nat).
Context (HB2 : power k <= 2 * B).

Abbreviation b32 := (nth (k - 1) (rn_data b) 0).
Abbreviation b64 := (B / power (k - 2)).

(** The remainder at position [j] of the division of [T]. *)
Definition exact_at (T : Z) (j : nat) : Prop := let R := T mod (B * power (S j)) in trial_digit k j B R * (B * power j) <= R.

Lemma mu_loop_ok T n : (n <= S k)%nat -> (forall j, (j < n)%nat -> exact_at T j) -> forall a tmp mu, num_ok cap a -> value a = T mod (B * power n) ->
  length (rn_data tmp) = cap -> Forall limb (rn_data tmp) -> length mu = cap -> Forall limb mu ->
  exists mu', mu_loop n a b tmp b32 b64 mu (k + n - 1) = Some mu' /\ length mu' = cap /\ Forall limb mu' /\ drop n mu' = drop n mu /\ val (take n mu') = value a / B.
Proof.
  pose proof (divisor_range cap k b B HB Eb Hk Ek Hcap HB2) as Hr. induction n as [| n IH]; intros Hn Hex a tmp mu HA EA Ct Lt Cm Lm.
  - exists mu. split_and!; try done. rewrite EA. change (power 0) with 1. rewrite Z.mul_1_r, Z.div_small; [done | apply Z.mod_pos_bound; lia].
  - cbn [mu_loop]. replace (k + S n - 1)%nat with (k + n)%nat by lia. pose proof (Hex n ltac:(lia)) as Hn1. unfold exact_at in Hn1. cbv zeta in Hn1. rewrite <- EA in Hn1.
    pose proof (power_pos n) as Pn. pose proof (power_pos (S n)) as PS.
    destruct (mu_digit_ok cap k b B HB Eb Hk Ek Hcap HB2 a n HA ltac:(lia)) with (tmp := tmp) (mu := mu) as (a' & tmp' & -> & HA' & HT' & VA' & Hq); [| done | done | done | done |].
    { rewrite EA. apply Z.mod_pos_bound. nia. }
    cbn [mbind option_bind]. set (q := value a / (B * power n)) in *.
    destruct (IH ltac:(lia) ltac:(intros; apply Hex; lia) a' tmp' (<[n := q]> mu)) as (mu' & E & Cm' & Lm' & Dm & Vm).
    + done.
    + rewrite VA', EA, power_S. replace (B * (base * power n)) with (B * power n * base) by ring. rewrite (Z.rem_mul_r _ (B * power n) base), (Z.mul_comm (B * power n) (_ mod base)), Z.mod_add, Z.mod_mod by (pose proof base_pos; nia). done.
    + apply HT'.
    + apply HT'.
    + by rewrite length_insert.
    + apply Forall_insert; [done | exact Hq].
    + replace (k + n - 1)%nat with (k + n - 1)%nat in E by lia. rewrite E. exists mu'. split_and!; [done | done | done | |].
      * change (S n) with (1 + n)%nat. replace (1 + n)%nat with (n + 1)%nat by lia. rewrite <- !drop_drop, Dm, !drop_drop. apply drop_insert_lt. lia.
      * assert (Hl : mu' !! n = Some q).
        { rewrite <- (Nat.add_0_r n), <- lookup_drop, Dm, lookup_drop, Nat.add_0_r. apply list_lookup_insert_eq. lia. }
        rewrite (take_S_r _ _ _ Hl), limbs_val_app, length_take_le, Vm, VA' by lia. cbn [val foldr]. rewrite Z.mul_0_r, Z.add_0_r.
        rewrite (Z.div_mod (value a) (B * power n)) at 2 by nia. fold q. replace (B * power n * q + value a mod (B * power n)) with (value a mod (B * power n) + power n * q * B) by ring.
        rewrite Z.div_add by lia. lia.
Qed.
End reciprocal.

(** *** The whole division *)

(** The limbs of a number, and the shift that makes its top bit the top bit of
    its top limb. *)
Definition limb_count (n : Z) : nat := S (Z.to_nat (Z.log2 n / 32)).
Definition scale (n : Z) : Z := clz32 (n / power (limb_count n - 1)).

(** No trial digit of the division of [base^(2*k)] by [n] is too big, so that
    the divisor is never added back. *)
Definition trials_exact (n : Z) : bool :=
  let k := limb_count n in
  let B := n * 2 ^ scale n in
  forallb (fun j => let R := (2 ^ scale n * power (2 * k)) mod (B * power (S j)) in trial_digit k j B R * (B * power j) <=? R) (seq 0 (S k)).

Lemma limb_count_ok n k : (1 <= k)%nat -> power (k - 1) <= n < power k -> limb_count n = k.
Proof.
  intros Hk Hn. unfold limb_count, power, base in *. rewrite <- !Z.pow_mul_r in Hn by lia. assert (0 < 2 ^ (32 * Z.of_nat (k - 1))) by (apply Z.pow_pos_nonneg; lia).
  assert (32 * Z.of_nat (k - 1) <= Z.log2 n < 32 * Z.of_nat k) by (split; [apply Z.log2_le_pow2 | apply Z.log2_lt_pow2]; lia).
  assert (Z.log2 n / 32 = Z.of_nat (k - 1)) as -> by (symmetry; apply Z.div_unique with (Z.log2 n - 32 * Z.of_nat (k - 1)); lia). lia.
Qed.

Lemma scale_ok n k : (1 <= k)%nat -> power (k - 1) <= n < power k -> 0 <= scale n <= 31 /\ power (k - 1) <= n * 2 ^ scale n < power k /\ power k <= 2 * (n * 2 ^ scale n).
Proof.
  intros Hk Hn. unfold scale, clz32. rewrite (limb_count_ok n k) by done. pose proof (power_pos (k - 1)) as P. set (t := n / power (k - 1)).
  assert (Pk : power k = base * power (k - 1)) by (rewrite <- power_S; f_equal; lia).
  assert (Ht : 0 < t < 2 ^ 32) by (unfold t; split; [apply Z.div_str_pos; lia | apply Z.div_lt_upper_bound; [done|]; unfold base in Pk; lia]).
  pose proof (Z.div_mod n (power (k - 1)) ltac:(lia)) as Dn. pose proof (Z.mod_pos_bound n (power (k - 1)) P). fold t in Dn.
  pose proof (Z.log2_spec t ltac:(lia)) as [L1 L2]. pose proof (Z.log2_nonneg t). assert (Z.log2 t < 32) by (apply Z.log2_lt_pow2; lia). set (l := Z.log2 t) in *.
  assert (E1 : 2 ^ 31 = 2 ^ l * 2 ^ (31 - l)) by (rewrite <- Z.pow_add_r by lia; f_equal; lia). rewrite Z.pow_succ_r in L2 by done.
  assert (0 < 2 ^ l) by (apply Z.pow_pos_nonneg; lia). assert (Q : 0 < 2 ^ (31 - l)) by (apply Z.pow_pos_nonneg; lia). set (s := 2 ^ (31 - l)) in *.
  assert (T1 : 2 ^ 31 <= t * s) by (rewrite E1; apply Z.mul_le_mono_nonneg_r; lia). assert (T2 : (t + 1) * s <= base) by (apply Z.le_trans with (2 * 2 ^ l * s); [apply Z.mul_le_mono_nonneg_r; lia | unfold base; lia]).
  assert (N1 : t * s * power (k - 1) <= n * s) by nia. assert (N2 : n * s < (t + 1) * s * power (k - 1)) by nia. rewrite Pk. unfold base in *. split_and!; [lia | lia | nia | nia | nia].
Qed.

Lemma calculate_mu_ok cap m n : num_ok cap m -> value m = n -> (2 <= rn_length m)%nat -> (2 * rn_length m + 3 <= cap)%nat -> power (rn_length m - 1) < n -> trials_exact n = true ->
  exists mu, _calculate_mu cap m = Some mu /\ num_ok cap mu /\ value mu = power (2 * rn_length m) / n.
Proof.
  intros HM Vm Hk Hc Hn Hex. pose proof (value_range _ _ HM) as Hr. rewrite Vm in Hr. pose proof (nk_cap _ _ HM) as Cm. pose proof (limb_count_ok n (rn_length m) ltac:(lia) ltac:(lia)) as Elc.
  destruct (scale_ok n (rn_length m) ltac:(lia) ltac:(lia)) as (S1 & S2 & S3). unfold _calculate_mu, aget. set (k := rn_length m) in *. rewrite lookup_nth by lia. cbn [mbind option_bind].
  assert (nth (k - 1) (rn_data m) 0 = n / power (k - 1)) as ->.
  { rewrite <- Vm. symmetry. unfold value. rewrite limb_digit by (apply HM || lia). replace (S (k - 1)) with k by lia. rewrite (Z.div_small _ (power k)); [lia|]. fold (value m). by rewrite Vm. }
  assert (clz32 (n / power (k - 1)) = scale n) as -> by (unfold scale; by rewrite Elc). set (s := scale n) in *. rewrite Z.shiftl_1_l.
  assert (P2 : 0 < 2 ^ s) by (apply Z.pow_pos_nonneg; lia). assert (P2' : 2 ^ s < 2 ^ 32) by (apply Z.pow_lt_mono_r; lia).
  set (zero := rsa_number_create cap). set (data := replicate (2 * k) 0 ++ 2 ^ s :: replicate (cap - 2 * k - 1) 0).
  assert (aput (rn_data zero) (2 * k) (2 ^ s) = Some data) as ->.
  { replace (rn_data zero) with (replicate (2 * k) 0 ++ 0 :: replicate (cap - 2 * k - 1) 0); [apply aput_at; by rewrite length_replicate|].
    cbn [rn_data rsa_number_create zero]. change (0 :: ?l) with (replicate 1 0 ++ l). rewrite <- !replicate_add. f_equal. lia. }
  cbn [mbind option_bind].
  assert (Vd : val data = 2 ^ s * power (2 * k)) by (unfold data; rewrite limbs_val_app, val_zeros, val_cons, val_zeros, length_replicate; lia).
  pose proof (power_pos (2 * k)) as P2k.
  assert (HA : num_ok cap (Number (2 * k + 1) data)).
  { apply num_ok_intro; [unfold data; rewrite length_app; cbn [length]; rewrite !length_replicate; lia | apply Forall_app; split; [auto|]; constructor; [unfold limb; lia | auto] | lia |].
    rewrite Vd. replace (2 * k + 1 - 1)%nat with (2 * k)%nat by lia. replace (2 * k + 1)%nat with (S (2 * k)) by lia. rewrite power_S. unfold base. nia. }
  assert (Cz : length (rn_data zero) = cap) by apply length_replicate. assert (Lz : Forall limb (rn_data zero)) by apply limbs_zeros.
  destruct (shift_left_ok cap m s zero HM S1 Cz Lz) as (b & -> & HB & Lb & Vb); [cbn; by rewrite drop_replicate, val_zeros | by rewrite Vm |]. cbn [mbind option_bind]. fold k in Lb. rewrite Vm in Vb.
  rewrite Lb. pose proof (nk_cap _ _ HB) as Cb. rewrite lookup_nth by lia. cbn [mbind option_bind]. destruct (Nat.ltb_spec k 2); [lia|]. rewrite lookup_nth by lia. cbn [mbind option_bind].
  destruct (divisor_limbs cap k b (n * 2 ^ s) HB Vb Hk Lb Hc S3) as (_ & -> & _).
  assert (HT : 2 ^ s * power (2 * k) < n * 2 ^ s * power (S k)).
  { replace (2 * k)%nat with (k - 1 + S k)%nat by lia. rewrite power_add. pose proof (power_pos (S k)). nia. }
  destruct (mu_loop_ok cap k b (n * 2 ^ s) HB Vb Hk Lb Hc S3 (2 ^ s * power (2 * k)) (S k) ltac:(lia)) with (a := Number (2 * k + 1) data) (tmp := zero) (mu := rn_data zero) as (mu & E & Cmu & Lmu & Dmu & Vmu).
  { intros j Hj. unfold trials_exact in Hex. cbv zeta in Hex. rewrite Elc in Hex. fold s in Hex. pose proof (proj1 (forallb_forall _ _) Hex j ltac:(apply in_seq; lia)) as Hj'. by apply Z.leb_le in Hj'. }
  { done. } { unfold value. cbn [rn_data]. rewrite Vd. symmetry. apply Z.mod_small. nia. } { done. } { done. } { done. } { done. }
  replace (k + S k - 1)%nat with (2 * k)%nat in E by lia. rewrite E. cbn [mbind option_bind]. eexists. split; [done|].
  destruct (normalize_ok cap (k + 2) mu Cmu Lmu ltac:(lia)) as [HN HV]. split; [done|]. rewrite HV. replace (k + 2)%nat with (S k + 1)%nat by lia.
  rewrite <- take_take_drop, limbs_val_app, Dmu. cbn [rn_data zero rsa_number_create]. rewrite drop_replicate, take_replicate, val_zeros, Vmu, Z.mul_0_r, Z.add_0_r.
  unfold value. cbn [rn_data]. rewrite Vd, (Z.mul_comm (2 ^ s)). apply Z.div_mul_cancel_r; [pose proof (power_pos (k - 1)); lia | lia].
Qed.
