(* ===== verification/RsaSpec.v ===== *)
(** * RSA: Barrett reduction and windowed exponentiation
    [_modulo] reduces modulo the modulus with the precomputed quotient [_mu],
    [rsa_state_process] raises a value to the power of a key, and
    [rsa_state_init] makes a state with the quotient that this needs. *)
From stdpp Require Import base tactics list numbers option.
From Stdlib Require Import ZArith Lia.
From S2P Require Import Prelude Rsa RsaArith.
#[local] Open Scope Z_scope.

(** A state with modulus [n] of [k] limbs and the quotient that Barrett
    reduction needs. *)
Record state_ok (state : rsa_state_t) (n : Z) : Prop := {
  so_modulus : num_ok (max_number_length state) (modulus state);
  so_value : value (modulus state) = n;
  so_length : (1 < rn_length (modulus state))%nat /\ (2 * rn_length (modulus state) + 3 <= max_number_length state)%nat;
  so_mu : num_ok (max_number_length state) (_mu state);
  so_quotient : value (_mu state) = power (2 * rn_length (modulus state)) / n
}.

(** ** The quotient estimate *)

Section barrett.
Context (a n k : Z) (Hk : 1 <= k) (Hn : base ^ (k - 1) <= n < base ^ k) (Ha : 0 <= a < base ^ (2 * k)).

Let mu := base ^ (2 * k) / n.
Let q := a / base ^ (k - 1) * mu / base ^ (k + 1).

Lemma base_pow m : 0 <= m -> 0 < base ^ m.
Proof. intros Hm. apply Z.pow_pos_nonneg; [apply base_pos | done]. Qed.

(** At most two too small, and never too big. *)
Lemma quotient_estimate : q * n <= a < (q + 3) * n.
Proof.
  pose proof (base_pow (k - 1) ltac:(lia)) as P1. pose proof (base_pow (k + 1) ltac:(lia)) as P2. pose proof (base_pow (2 * k) ltac:(lia)) as P3.
  assert (E : base ^ (2 * k) = base ^ (k - 1) * base ^ (k + 1)) by (rewrite <- Z.pow_add_r by lia; f_equal; lia).
  set (L := base ^ (k - 1)) in *. set (H := base ^ (k + 1)) in *. set (T := base ^ (2 * k)) in *. set (a1 := a / L) in *.
  pose proof (Z.div_mod a L ltac:(lia)) as D1. pose proof (Z.mod_pos_bound a L P1) as M1. fold a1 in D1.
  pose proof (Z.div_mod T n ltac:(lia)) as D2. pose proof (Z.mod_pos_bound T n ltac:(lia)) as M2. fold mu in D2.
  pose proof (Z.div_mod (a1 * mu) H ltac:(lia)) as D3. pose proof (Z.mod_pos_bound (a1 * mu) H P2) as M3. fold q in D3.
  assert (A0 : 0 <= a1) by (apply Z.div_pos; lia). assert (U0 : 0 <= mu) by (apply Z.div_pos; lia). assert (Ha1 : a1 < H) by (apply Z.div_lt_upper_bound; lia).
  assert (Hmu : mu <= H) by (apply Z.div_le_upper_bound; [lia|]; rewrite E; apply Z.mul_le_mono_nonneg_r; lia).
  assert (Q0 : 0 <= q) by (apply Z.div_pos; [by apply Z.mul_nonneg_nonneg | done]).
  assert (S1 : a1 * L <= a < (a1 + 1) * L) by lia. assert (S2 : mu * n <= T < (mu + 1) * n) by lia. assert (S3 : q * H <= a1 * mu < (q + 1) * H) by lia.
  assert (N0 : 0 < n * L) by (apply Z.mul_pos_pos; lia). clear D1 D2 D3 M1 M2 M3. clearbody q mu a1 L H T. split.
  - apply (Z.mul_le_mono_pos_r _ _ T P3). transitivity (a1 * L * (mu * n)); [| apply Z.mul_le_mono_nonneg; lia].
    replace (q * n * T) with (q * H * (n * L)) by (rewrite E; ring). replace (a1 * L * (mu * n)) with (a1 * mu * (n * L)) by ring. apply Z.mul_le_mono_nonneg_r; lia.
  - apply (Z.mul_lt_mono_pos_r T _ _ P3). apply Z.lt_le_trans with ((a1 + 1) * L * ((mu + 1) * n)); [apply Z.mul_lt_mono_nonneg; lia|].
    replace ((q + 3) * n * T) with ((q + 3) * H * (n * L)) by (rewrite E; ring). replace ((a1 + 1) * L * ((mu + 1) * n)) with ((a1 + 1) * (mu + 1) * (n * L)) by ring.
    apply Z.mul_le_mono_nonneg_r; lia.
Qed.
End barrett.

Lemma power_pow k : power k = base ^ Z.of_nat k.
Proof. done. Qed.

Section ops.
Context (state : rsa_state_t) (n : Z) (HS : state_ok state n).

Abbreviation cap := (max_number_length state).
Abbreviation k := (rn_length (modulus state)).

Lemma modulus_range : power (k - 1) <= n < power k /\ 0 < n.
Proof.
  pose proof (so_length _ _ HS) as [Hk _]. rewrite <- (so_value _ _ HS). pose proof (value_top _ _ (so_modulus _ _ HS) Hk). pose proof (value_range _ _ (so_modulus _ _ HS)).
  pose proof (power_pos (k - 1)). lia.
Qed.

Lemma length_bound c a m : num_ok c a -> value a < power m -> (0 < m)%nat -> (rn_length a <= m)%nat.
Proof.
  intros HA Hv Hm. destruct (decide (rn_length a <= m)%nat); [done|]. pose proof (value_top _ _ HA ltac:(lia)). pose proof (power_le m (rn_length a - 1) ltac:(lia)). lia.
Qed.

Lemma length_create m : length (rn_data (rsa_number_create m)) = m.
Proof. apply length_replicate. Qed.

(** [_modulo]: a number of twice the length is reduced, except that the modulus
    itself stays. *)
Lemma reduce_loop_ok fuel : forall a, num_ok cap a -> value a <= Z.of_nat (S fuel) * n -> exists r, reduce_loop fuel a (modulus state) = Some r /\
  num_ok cap r /\ value r mod n = value a mod n /\ value r <= n.
Proof.
  pose proof modulus_range as [_ Hn]. induction fuel as [| fuel IH]; intros a HA Hv; cbn [reduce_loop]; rewrite (is_less_than_ok _ _ _ _ (so_modulus _ _ HS) HA); cbn [mbind option_bind];
    rewrite (so_value _ _ HS); (destruct (Z.ltb_spec n (value a)); [| exists a; split_and!; done]); [lia|].
  destruct (subtract_ok _ _ _ HA (so_modulus _ _ HS)) as (a' & -> & HA' & Hv'); [rewrite (so_value _ _ HS); lia|]. rewrite (so_value _ _ HS) in Hv'. cbn [mbind option_bind].
  destruct (IH a' HA') as (r & -> & HR & Hm & Hr); [lia|]. exists r. split_and!; [done | done | | done]. rewrite Hm, Hv'.
  replace (value a - n) with (value a + (-1) * n) by lia. apply Z.mod_add. lia.
Qed.

Lemma modulo_ok a : num_ok cap a -> value a < power (2 * k) -> exists r, _modulo a state = Some r /\ num_ok cap r /\ value r mod n = value a mod n /\ value r <= n.
Proof.
  intros HA Hv. pose proof modulus_range as [Hn Hn0]. pose proof (so_length _ _ HS) as [Hk Hc]. pose proof (value_range _ _ HA) as Hr. unfold _modulo.
  rewrite (is_less_than_ok _ _ _ _ HA (so_modulus _ _ HS)). cbn [mbind option_bind]. rewrite (so_value _ _ HS). destruct (Z.ltb_spec (value a) n); [exists a; split_and!; done || lia|].
  assert (La : (rn_length a <= 2 * k)%nat) by (apply (length_bound cap); [done | done | lia]).
  assert (Hq : 0 <= value (_mu state) <= power (k + 1)).
  { rewrite (so_quotient _ _ HS). split; [apply Z.div_pos; [pose proof (power_pos (2 * k)); lia | lia]|].
    apply Z.div_le_upper_bound; [lia|]. replace (2 * k)%nat with (k - 1 + (k + 1))%nat by lia. rewrite power_add. pose proof (power_pos (k + 1)). nia. }
  assert (Lm : (rn_length (_mu state) <= k + 2)%nat).
  { apply (length_bound cap); [apply HS | | lia]. replace (k + 2)%nat with (S (k + 1)) by lia. rewrite power_S. pose proof (power_pos (k + 1)). unfold base. lia. }
  destruct (mult_ok cap a (k - 1) (_mu state) (rsa_number_create cap) HA (so_mu _ _ HS)) as (t1 & -> & H1 & V1); [apply length_create | lia |]. cbn [mbind option_bind].
  pose proof (nk_length _ _ H1) as L1. destruct (mult_ok cap t1 (k + 1) (modulus state) (rsa_number_create cap) H1 (so_modulus _ _ HS)) as (t2 & -> & H2 & V2); [apply length_create | lia |].
  cbn [mbind option_bind]. destruct (subtract_fixed_ok cap a t2 (k + 1) a HA H2 HA) as (r & -> & HR & VR); [lia|]. cbn [mbind option_bind].
  rewrite (so_value _ _ HS) in V2. rewrite V2, V1, (so_quotient _ _ HS) in VR.
  pose proof (quotient_estimate (value a) n (Z.of_nat k) ltac:(lia)) as HQ. rewrite !power_pow in *. rewrite !Nat2Z.inj_add, !Nat2Z.inj_sub, !Nat2Z.inj_mul in * by lia.
  change (Z.of_nat 1) with 1 in *. change (Z.of_nat 2) with 2 in *.
  specialize (HQ ltac:(lia) ltac:(lia)). set (q := value a / base ^ (Z.of_nat k - 1) * (base ^ (2 * Z.of_nat k) / n) / base ^ (Z.of_nat k + 1)) in *.
  assert (E3 : base ^ (Z.of_nat k + 1) = base * base ^ Z.of_nat k) by (rewrite Z.pow_add_r, Z.pow_1_r by lia; lia).
  assert (VR' : value r = value a - q * n). { rewrite VR. apply Z.mod_small. rewrite E3. unfold base in *. lia. }
  destruct (reduce_loop_ok 2 r HR) as (s & -> & HS' & Hs & Hs'); [lia|]. exists s. split_and!; [done | done | | done].
  rewrite Hs, VR'. replace (value a - q * n) with (value a + (- q) * n) by lia. apply Z.mod_add. lia.
Qed.

(** ** Steps of the exponentiation *)

(** A reduced number that is congruent to [x]. *)
Definition congruent (a : rsa_number_t) (x : Z) : Prop := num_ok cap a /\ value a <= n /\ value a mod n = x mod n.

(** The two temporaries: the second one is only a destination. *)
Definition tmp_ok (tmp : rsa_number_t * rsa_number_t) (x : Z) : Prop := congruent (fst tmp) x /\ length (rn_data (snd tmp)) = cap.

Lemma product_bound x y : 0 <= x <= n -> 0 <= y <= n -> 0 <= x * y < power (2 * k).
Proof.
  intros Hx Hy. pose proof modulus_range as [[_ Hn] Hn0]. replace (2 * k)%nat with (k + k)%nat by lia. rewrite power_add. split; [apply Z.mul_nonneg_nonneg; lia|].
  apply Z.le_lt_trans with (n * n); [apply Z.mul_le_mono_nonneg; lia | apply Z.mul_lt_mono_nonneg; lia].
Qed.

Lemma congruent_length a x : congruent a x -> 0 <= value a <= n /\ (rn_length a <= k)%nat.
Proof.
  intros (HA & Hv & _). pose proof (value_range _ _ HA). pose proof modulus_range as [[_ Hn] _]. split; [lia|]. apply (length_bound cap); [done | lia |].
  destruct (so_length _ _ HS). lia.
Qed.

Lemma reduced a x y : num_ok cap a -> value a = x -> 0 <= x < power (2 * k) -> x mod n = y mod n -> exists r, _modulo a state = Some r /\ congruent r y.
Proof.
  intros HA Hv Hx Hm. destruct (modulo_ok a HA ltac:(lia)) as (r & -> & HR & Hr & Hle). exists r. split; [done|]. split_and!; [done | done |]. by rewrite Hr, Hv.
Qed.

Lemma congruent_mult a x b y out : congruent a x -> congruent b y -> length (rn_data out) = cap ->
  exists r, (t ← _mult a 0 b out; _modulo t state) = Some r /\ congruent r (x * y).
Proof.
  intros HA HB HO. pose proof modulus_range as [_ Hn]. destruct (congruent_length _ _ HA) as [Va La], (congruent_length _ _ HB) as [Vb Lb]. destruct HA as (HA & _ & Ma), HB as (HB & _ & Mb).
  destruct (so_length _ _ HS) as [_ Hc]. destruct (mult_ok cap a 0 b out HA HB HO) as (t & -> & HT & VT); [lia|]. cbn [mbind option_bind].
  rewrite Z.div_1_r in VT. apply (reduced t _ _ HT VT); [by apply product_bound|]. rewrite Z.mul_mod, Ma, Mb, <- Z.mul_mod by lia. done.
Qed.

Lemma congruent_square a x out : congruent a x -> length (rn_data out) = cap -> exists r, (t ← _square a out; _modulo t state) = Some r /\ congruent r (x * x).
Proof.
  intros HA HO. pose proof modulus_range as [_ Hn]. destruct (congruent_length _ _ HA) as [Va La]. destruct HA as (HA & _ & Ma). destruct (so_length _ _ HS) as [_ Hc].
  destruct (square_ok cap a out HA HO) as (t & -> & HT & VT); [lia|]. cbn [mbind option_bind]. apply (reduced t _ _ HT VT); [by apply product_bound|].
  rewrite Z.mul_mod, Ma, <- Z.mul_mod by lia. done.
Qed.

Lemma square_step_ok tmp x : tmp_ok tmp x -> exists tmp', square_step state tmp = Some tmp' /\ tmp_ok tmp' (x * x).
Proof.
  intros [H1 H2]. destruct (congruent_square _ _ _ H1 H2) as (r & E & HR). unfold square_step. destruct (_square (fst tmp) (snd tmp)) as [t |]; [| done].
  cbn [mbind option_bind] in *. rewrite E. cbn [mbind option_bind]. eexists. split; [done|]. split; [done | apply H1].
Qed.

Lemma mult_step_ok b y tmp x : congruent b y -> tmp_ok tmp x -> exists tmp', mult_step state b tmp = Some tmp' /\ tmp_ok tmp' (x * y).
Proof.
  intros HB [H1 H2]. destruct (congruent_mult _ _ _ _ _ H1 HB H2) as (r & E & HR). unfold mult_step. destruct (_mult (fst tmp) 0 b (snd tmp)) as [t |]; [| done].
  cbn [mbind option_bind] in *. rewrite E. cbn [mbind option_bind]. eexists. split; [done|]. split; [done | apply H1].
Qed.

Lemma squares_ok v m : forall tmp h, 0 <= h -> tmp_ok tmp (v ^ h) -> exists tmp', squares state m tmp = Some tmp' /\ tmp_ok tmp' (v ^ (h * 2 ^ Z.of_nat m)).
Proof.
  induction m as [| m IH]; intros tmp h Hh HT; [exists tmp; rewrite Z.mul_1_r; done|].
  destruct (square_step_ok _ _ HT) as (t1 & E1 & H1). cbn [squares]. rewrite E1. cbn [mbind option_bind]. rewrite <- Z.pow_add_r in H1 by lia.
  destruct (IH t1 (h + h) ltac:(lia) H1) as (t2 & -> & H2). exists t2. split; [done|]. rewrite Nat2Z.inj_succ, Z.pow_succ_r by lia.
  replace (h * (2 * 2 ^ Z.of_nat m)) with ((h + h) * 2 ^ Z.of_nat m) by ring. done.
Qed.

(** Entry [i] of the table is the power [2*i+1]. *)
Definition table_ok (v : Z) (table : list rsa_number_t) : Prop := length table = 32%nat /\ forall i x, table !! i = Some x -> congruent x (v ^ (2 * Z.of_nat i + 1)).

Lemma make_table_ok v sq m : congruent sq (v * v) -> forall e last, 0 <= e -> congruent last (v ^ e) -> exists l, make_table state m last sq = Some l /\
  length l = m /\ forall i x, l !! i = Some x -> congruent x (v ^ (e + 2 * (Z.of_nat i + 1))).
Proof.
  intros Hsq. induction m as [| m IH]; intros e last He Hl; [exists []; done|]. cbn [make_table].
  destruct (congruent_mult _ _ _ _ (rsa_number_create cap) Hl Hsq (length_create _)) as (r & E & HR). destruct (_mult last 0 sq _) as [t |]; [| done].
  cbn [mbind option_bind] in *. rewrite E. cbn [mbind option_bind]. replace (v ^ e * (v * v)) with (v ^ (e + 2)) in HR by (rewrite Z.pow_add_r, Z.pow_2_r by lia; ring).
  destruct (IH (e + 2) r ltac:(lia) HR) as (l & -> & Hlen & Hi). cbn [mbind option_bind]. exists (r :: l). split_and!; [done | cbn; lia |].
  intros [| i] x Hx; [injection Hx as <-; by rewrite Z.mul_1_r|]. apply Hi in Hx. replace (e + 2 * (Z.of_nat (S i) + 1)) with (e + 2 + 2 * (Z.of_nat i + 1)) by lia. done.
Qed.

(** A window: [mask] has [ml] bits, the first of which is set. *)
Lemma window_step_ok v table h mask ml tmp : table_ok v table -> 0 <= h -> 1 <= ml <= 6 -> 2 ^ (ml - 1) <= mask < 2 ^ ml -> tmp_ok tmp (v ^ h) ->
  exists tmp', window_step state table mask ml tmp = Some tmp' /\ tmp_ok tmp' (v ^ (h * 2 ^ ml + mask)).
Proof.
  intros [Hlen Htab] Hh Hml Hm HT. unfold window_step. assert (0 < 2 ^ (ml - 1)) by (apply Z.pow_pos_nonneg; lia).
  destruct (ctz_spec mask ltac:(lia)) as (C0 & C1 & C2). set (p := ctz mask) in *. rewrite Z.shiftr_div_pow2 by done.
  assert (Hp : p < ml). { destruct (Z.ltb_spec p ml); [done|]. rewrite (word_high ml mask p) in C1 by lia. done. }
  assert (P2 : 2 ^ ml = 2 ^ (ml - p) * 2 ^ p) by (rewrite <- Z.pow_add_r by lia; f_equal; lia). assert (P0 : 0 < 2 ^ p) by (apply Z.pow_pos_nonneg; lia).
  assert (Hdiv : mask = mask / 2 ^ p * 2 ^ p).
  { rewrite <- Z.shiftr_div_pow2, <- Z.shiftl_mul_pow2 by done. apply Z.bits_inj'. intros i Hi. destruct (Z.ltb_spec i p).
    - rewrite Z.shiftl_spec_low by done. by apply C2.
    - rewrite Z.shiftl_spec, Z.shiftr_spec by lia. f_equal. lia. }
  set (o := mask / 2 ^ p) in *. assert (Hodd : Z.odd o = true). { rewrite <- Z.bit0_odd. unfold o. rewrite <- Z.shiftr_div_pow2, Z.shiftr_spec, Z.add_0_l by lia. done. }
  assert (Ho : 0 <= o < 2 ^ (ml - p)) by (split; [apply Z.div_pos; lia | apply Z.div_lt_upper_bound; lia]).
  assert (2 ^ (ml - p) <= 2 ^ 6) by (apply Z.pow_le_mono_r; lia).
  pose proof (Z.div_mod o 2 ltac:(lia)) as Do. rewrite Zmod_odd, Hodd in Do. rewrite !Z.shiftr_div_pow2 by lia. change (2 ^ 1) with 2. fold o.
  destruct (squares_ok v (Z.to_nat (ml - p)) tmp h Hh HT) as (t1 & -> & H1). cbn [mbind option_bind]. rewrite Z2Nat.id in H1 by lia.
  destruct (table !! Z.to_nat (o / 2)) as [e |] eqn:Ee; [| apply lookup_ge_None in Ee; lia]. cbn [mbind option_bind].
  pose proof (Htab _ _ Ee) as He. rewrite Z2Nat.id in He by lia. rewrite <- Do in He. destruct (mult_step_ok _ _ _ _ He H1) as (t2 & -> & H2). cbn [mbind option_bind].
  rewrite <- Z.pow_add_r in H2 by lia.
  destruct (squares_ok v (Z.to_nat p) t2 (h * 2 ^ (ml - p) + o)) as (t3 & -> & H3); [lia | done |]. exists t3. split; [done|]. rewrite Z2Nat.id in H3 by done.
  replace (h * 2 ^ ml + mask) with ((h * 2 ^ (ml - p) + o) * 2 ^ p) by (rewrite P2, Hdiv at 1; ring). done.
Qed.
End ops.

(** ** The bits of the exponent *)

Lemma val_bit l i : Forall limb l -> (i < 32 * length l)%nat -> Z.testbit (val l) (Z.of_nat i) = Z.testbit (nth (i / 32) l 0) (Z.of_nat (i mod 32)).
Proof.
  intros Hl Hi. pose proof (Nat.div_mod_eq i 32) as Ed. pose proof (Nat.mod_upper_bound i 32 ltac:(lia)) as Hm. set (q := (i / 32)%nat) in *. set (m := (i mod 32)%nat) in *.
  assert (Hq : (q < length l)%nat) by lia. assert (Hv : val (drop q l) = nth q l 0 + base * val (drop (S q) l)).
  { rewrite (drop_S l (nth q l 0) q) by (by apply lookup_nth). done. }
  rewrite val_drop in Hv by (done || lia). assert (E : power q = 2 ^ Z.of_nat (32 * q)). { rewrite power_pow. unfold base. rewrite <- Z.pow_mul_r by lia. f_equal. lia. }
  rewrite E in Hv. replace (Z.of_nat i) with (Z.of_nat m + Z.of_nat (32 * q)) by lia. rewrite <- Z.div_pow2_bits by lia. rewrite Hv.
  rewrite <- (Z.mod_pow2_bits_low (_ + _) 32) by lia. fold base. rewrite (Z.mul_comm base), Z.mod_add by done. unfold base. rewrite Z.mod_pow2_bits_low by lia. done.
Qed.

Lemma land_1_bit x m : Z.land (Z.shiftr x m) 1 = Z.b2z (Z.testbit x m) \/ m < 0.
Proof.
  destruct (Z.ltb_spec m 0); [by right | left]. change 1 with (Z.ones 1). rewrite Z.land_ones by lia. change (2 ^ 1) with 2. rewrite Zmod_odd, <- Z.bit0_odd, Z.shiftr_spec, Z.add_0_l by lia.
  by destruct (Z.testbit x m).
Qed.

Lemma shiftr_step e i : Z.shiftr e (Z.of_nat i) = 2 * Z.shiftr e (Z.of_nat (S i)) + Z.b2z (Z.testbit e (Z.of_nat i)).
Proof.
  replace (Z.of_nat (S i)) with (Z.of_nat i + 1) by lia. rewrite <- Z.shiftr_shiftr by lia. rewrite (Z.shiftr_div_pow2 (Z.shiftr _ _) 1) by lia. change (2 ^ 1) with 2.
  rewrite (Z.div_mod (Z.shiftr e (Z.of_nat i)) 2) at 1 by lia. f_equal. rewrite Zmod_odd, <- Z.bit0_odd, Z.shiftr_spec, Z.add_0_l by lia. by destruct (Z.testbit e _).
Qed.

Section process.
Context (state : rsa_state_t) (n : Z) (HS : state_ok state n) (v : Z) (exponent : list Z) (table : list rsa_number_t).
Context (HE : Forall limb exponent) (HT : table_ok state n v table).

(** [i] bits are left: [h] is done, and [ml] bits of a window are read. *)
Definition windowed (i : nat) (h mask ml : Z) : Prop :=
  0 <= h /\ h * 2 ^ ml + mask = Z.shiftr (val exponent) (Z.of_nat i) /\ (ml = 0 /\ mask = 0 \/ 1 <= ml <= 5 /\ 2 ^ (ml - 1) <= mask < 2 ^ ml).

Lemma exponent_loop_ok i : forall h mask ml tmp, (i <= 32 * length exponent)%nat -> windowed i h mask ml -> (i = 0%nat -> ml = 0) -> tmp_ok state n tmp (v ^ h) ->
  exists tmp', exponent_loop state i exponent table mask ml tmp = Some tmp' /\ tmp_ok state n tmp' (v ^ val exponent).
Proof.
  induction i as [| i IH]; intros h mask ml tmp Hi (Hh & He & Hw) H0 HTmp.
  - exists tmp. split; [done|]. destruct Hw as [[-> ->] | Hw]; [| lia]. rewrite Z.mul_1_r, Z.add_0_r, Z.shiftr_0_r in He. by rewrite <- He.
  - cbn [exponent_loop]. pose proof (Nat.div_mod_eq i 32). unfold aget. rewrite lookup_nth by (apply Nat.Div0.div_lt_upper_bound; lia). cbn [mbind option_bind].
    destruct (land_1_bit (nth (i / 32) exponent 0) (Z.of_nat (i mod 32))) as [-> |]; [| lia]. rewrite <- val_bit by (done || lia). set (b := Z.b2z (Z.testbit (val exponent) (Z.of_nat i))).
    assert (Hb : b = 0 \/ b = 1) by (unfold b; destruct (Z.testbit _ _); auto).
    assert (Hmr : 0 <= mask < 32). { destruct Hw as [[-> ->] | [Hl Hm]]; [lia|]. assert (2 ^ ml <= 2 ^ 5) by (apply Z.pow_le_mono_r; lia). assert (0 < 2 ^ (ml - 1)) by (apply Z.pow_pos_nonneg; lia). lia. }
    assert (Z.lor (u32 (Z.shiftl mask 1)) b = 2 * mask + b) as ->.
    { rewrite u32_id by (rewrite Z.shiftl_mul_pow2 by lia; lia). rewrite lor_shiftl_add by lia. lia. }
    pose proof (shiftr_step (val exponent) i) as Hs. fold b in Hs.
    rewrite <- He in Hs.
    unfold z2b. destruct Hw as [[-> ->] | [Hl Hm]].
    + rewrite !Z.mul_0_r, !Z.add_0_l, Z.mul_1_r, Z.add_0_r in *. destruct Hb as [-> | ->]; cbn [Z.eqb negb b2z].
      * destruct (Nat.eqb_spec i 0) as [-> | Hne]; cbn [negb andb].
        -- destruct (square_step_ok _ _ HS _ _ HTmp) as (t & -> & H1). exists t. split; [done|]. rewrite <- Z.pow_add_r in H1 by lia. cbn in Hs. rewrite Z.shiftr_0_r in Hs. replace (val exponent) with (h + h) by lia. done.
        -- destruct (square_step_ok _ _ HS _ _ HTmp) as (t & -> & H1). cbn [mbind option_bind]. rewrite <- Z.pow_add_r in H1 by lia. apply (IH (h + h)); [lia | | done | done].
           split_and!; [lia | rewrite Hs; change (2 ^ 0) with 1; lia | by left].
      * rewrite andb_false_r. destruct (Nat.eqb_spec i 0) as [-> | Hne]; cbn [negb andb].
        -- destruct (window_step_ok _ _ HS v table h 1 1 tmp HT Hh) as (t & -> & H1); [lia | lia | done |]. cbn [mbind option_bind exponent_loop]. exists t. split; [done|].
           cbn in Hs. rewrite Z.shiftr_0_r in Hs. replace (val exponent) with (h * 2 ^ 1 + 1) by lia. done.
        -- cbn [Z.ltb Z.compare]. apply (IH h); [lia | | lia | done]. split_and!; [done | rewrite Hs; change (2 ^ 1) with 2; lia | right; lia].
    + assert (0 < 2 ^ (ml - 1)) by (apply Z.pow_pos_nonneg; lia). destruct (Z.eqb_spec (2 * mask + b) 0); [lia|]. cbn [negb b2z]. destruct (Z.eqb_spec (ml + 1) 0); [lia|]. rewrite !andb_false_r.
      assert (P : 2 ^ (ml + 1) = 2 * 2 ^ ml /\ 2 ^ ml = 2 * 2 ^ (ml - 1)) by (rewrite <- !Z.pow_succ_r by lia; split; f_equal; lia). destruct P as [P1 P2].
      assert (W : forall q, (q < i \/ q = i)%nat -> h * 2 ^ (ml + 1) + (2 * mask + b) = Z.shiftr (val exponent) (Z.of_nat i)) by (intros; rewrite Hs, P1; lia). specialize (W i ltac:(by right)).
      assert (Hm' : 2 ^ (ml + 1 - 1) <= 2 * mask + b < 2 ^ (ml + 1)) by (replace (ml + 1 - 1) with ml by lia; lia).
      destruct (negb (i =? 0)%nat && (ml + 1 <? LOOKUP_TABLE_SIZE_SHIFT + 1)) eqn:Ec.
      * apply andb_true_iff in Ec as [Hi0 Hl6]. apply negb_true_iff, Nat.eqb_neq in Hi0. apply Z.ltb_lt in Hl6. unfold LOOKUP_TABLE_SIZE_SHIFT in Hl6.
        apply (IH h); [lia | | lia | done]. split_and!; [done | done | right; split; [lia | done]].
      * destruct (window_step_ok _ _ HS v table h (2 * mask + b) (ml + 1) tmp HT Hh) as (t & -> & K1); [lia | done | done |]. cbn [mbind option_bind].
        apply (IH (h * 2 ^ (ml + 1) + (2 * mask + b))); [lia | | done | done]. split_and!; [lia | rewrite <- W; change (2 ^ 0) with 1; lia | by left].
Qed.
End process.

(** ** The contract of [rsa_state_process] *)

Section contract.
Context (state : rsa_state_t) (n : Z) (HS : state_ok state n).

Abbreviation cap := (max_number_length state).

(** A number that a caller passes: an array of the right length, whose limbs
    above its length do not count. *)
Definition argument_ok (a : rsa_number_t) : Prop := capacity a = cap /\ Forall limb (rn_data a) /\ (1 <= rn_length a <= cap)%nat.

Definition key_of (key : Z) : option rsa_number_t := if key =? 1 then public_key state else if key =? 2 then private_key state else None.

Lemma high_bits c e : num_ok c e -> Z.shiftr (val (rn_data e)) (Z.of_nat (32 * rn_length e)) = 0.
Proof.
  intros HE. pose proof (value_range _ _ HE) as Hr. unfold value in Hr. rewrite Z.shiftr_div_pow2 by lia. apply Z.div_small. rewrite power_pow in Hr. unfold base in Hr.
  rewrite <- Z.pow_mul_r in Hr by lia. replace (Z.of_nat (32 * rn_length e)) with (32 * Z.of_nat (rn_length e)) by lia. done.
Qed.

Lemma one_ok : exists one, aput (rn_data (rsa_number_create cap)) 0 1 = Some one /\ num_ok cap (Number 1 one) /\ value (Number 1 one) = 1.
Proof.
  destruct (so_length _ _ HS) as [_ Hc]. unfold rsa_number_create, aput. cbn [rn_data]. rewrite length_replicate. destruct (Nat.ltb_spec 0 cap); [| lia]. eexists. split; [done|].
  destruct cap as [| c]; [lia|]. cbn [replicate insert list_insert]. split.
  - split; cbn [rn_data rn_length]; [cbn; by rewrite length_replicate | constructor; [done | apply limbs_zeros] | lia | cbn [drop]; apply val_zeros | lia].
  - unfold value. cbn [rn_data]. rewrite val_cons, val_zeros. lia.
Qed.

Lemma rsa_process_ok a key e out : argument_ok a -> key_of key = Some e -> num_ok cap e -> length (rn_data out) = cap ->
  let v := val (take (rn_length a) (rn_data a)) in
  if (v <? n) && (value e <? n) then
    exists r, rsa_state_process state a key out = Some (_normalize a, r) /\ num_ok cap r /\ value r <= n /\ value r mod n = v ^ value e mod n
  else rsa_state_process state a key out = None.
Proof.
  intros (Ca & La & Ra) Hk HE HO v. pose proof (modulus_range _ _ HS) as [_ Hn]. unfold rsa_state_process. rewrite Ca, Nat.eqb_refl. cbn [negb].
  destruct a as [len data]. cbn [rn_length rn_data capacity] in *. unfold capacity in Ca. cbn [rn_data] in Ca.
  destruct (normalize_ok cap len data Ca La Ra) as [HN HV]. fold v in HV. set (a := _normalize (Number len data)) in *.
  rewrite (is_less_than_ok _ _ _ _ HN (so_modulus _ _ HS)). cbn [mbind option_bind]. rewrite (so_value _ _ HS), HV. fold (key_of key). rewrite Hk.
  destruct (Z.ltb_spec v n) as [Hv |]; cbn [negb andb mbind option_bind]; [| done].
  rewrite (is_less_than_ok _ _ _ _ HE (so_modulus _ _ HS)). cbn [mbind option_bind]. rewrite (so_value _ _ HS).
  destruct (Z.ltb_spec (value e) n) as [He |]; cbn [negb]; [| done]. unfold capacity. rewrite HO, Nat.eqb_refl. cbn [negb].
  assert (HC : congruent state n a v) by (split_and!; [done | lia | by rewrite HV]).
  destruct (congruent_square _ _ HS _ _ (rsa_number_create cap) HC (length_create _)) as (sq & Esq & Hsq). destruct (_square a _) as [t |]; [| done]. cbn [mbind option_bind] in *. rewrite Esq. cbn [mbind option_bind].
  assert (HC1 : congruent state n a (v ^ 1)) by (by rewrite Z.pow_1_r).
  destruct (make_table_ok _ _ HS v sq 31 Hsq 1 a ltac:(lia) HC1) as (table & -> & Hlen & Htab). cbn [mbind option_bind].
  destruct one_ok as (one & -> & H1 & V1). cbn [mbind option_bind].
  assert (HT : table_ok state n v (a :: table)).
  { split; [cbn; lia|]. intros [| i] x Hx; [injection Hx as <-; exact HC1|]. apply Htab in Hx. replace (2 * Z.of_nat (S i) + 1) with (1 + 2 * (Z.of_nat i + 1)) by lia. done. }
  pose proof (high_bits _ _ HE) as He2.
  destruct (exponent_loop_ok state n HS v (rn_data e) (a :: table) (nk_limbs _ _ HE) HT (32 * rn_length e) 0 0 0 (Number 1 one, rsa_number_create cap)) as ([r other] & -> & Hr & _).
  - pose proof (nk_length _ _ HE). rewrite (nk_cap _ _ HE). lia.
  - split_and!; [lia | rewrite He2; lia | by left].
  - done.
  - split; [split_and!; [done | cbn [fst]; lia | cbn [fst]; by rewrite V1] | apply length_create].
  - cbn [mbind option_bind fst] in *. exists r. destruct Hr as (HR & Hle & Hm). destruct r. split_and!; done.
Qed.

(** Every other argument is refused. *)
Lemma rsa_process_refuses a key out : Forall limb (rn_data a) -> (1 <= rn_length a)%nat -> (rn_length a <= capacity a)%nat -> (forall e, key_of key = Some e -> num_ok cap e) ->
  capacity a <> cap \/ capacity out <> cap \/ key_of key = None -> rsa_state_process state a key out = None.
Proof.
  intros La Ra Rc HE Hbad. unfold rsa_state_process. destruct (Nat.eqb_spec (capacity a) cap) as [Ca |]; cbn [negb]; [| done]. fold (key_of key).
  destruct a as [len data]. unfold capacity in Ca, Rc. cbn [rn_length rn_data] in *. destruct (normalize_ok cap len data Ca La ltac:(lia)) as [HN _].
  rewrite (is_less_than_ok _ _ _ _ HN (so_modulus _ _ HS)). cbn [mbind option_bind]. destruct (_ <? _); cbn [negb]; [| done].
  destruct (key_of key) as [e |]; cbn [mbind option_bind]; [| done]. rewrite (is_less_than_ok _ _ _ _ (HE e eq_refl) (so_modulus _ _ HS)). cbn [mbind option_bind]. destruct (_ <? _); cbn [negb]; [| done].
  destruct (Nat.eqb_spec (capacity out) cap); cbn [negb]; [| done]. by destruct Hbad as [? | [? | ?]].
Qed.

Lemma cong_pow x y m : 0 <= m -> 0 < n -> x mod n = y mod n -> x ^ m mod n = y ^ m mod n.
Proof.
  intros Hm Hn E. revert m Hm. apply natlike_ind; [done|]. intros m Hm IH. rewrite !Z.pow_succ_r by done. rewrite (Z.mul_mod x), (Z.mul_mod y) by lia. by rewrite E, IH.
Qed.

(** If the public and the private key undo each other on a value [v]
    between 0 and [n], decrypting what was encrypted returns [v]. *)
Theorem rsa_roundtrip a e d out out' : argument_ok a -> public_key state = Some e -> private_key state = Some d -> num_ok cap e -> num_ok cap d ->
  length (rn_data out) = cap -> length (rn_data out') = cap -> value e < n -> 0 < value d < n ->
  let v := val (take (rn_length a) (rn_data a)) in 0 < v < n -> v ^ (value e * value d) mod n = v mod n ->
  exists x c y r, rsa_state_process state a 1 out = Some (x, c) /\ rsa_state_process state c 2 out' = Some (y, r) /\ value r = v.
Proof.
  intros HA He Hd HE HD HO HO' Le Ld v Hv Hinv. pose proof (modulus_range _ _ HS) as [_ Hn]. pose proof (value_range _ _ HE).
  pose proof (rsa_process_ok a 1 e out HA He HE HO) as P1. cbv zeta in P1. fold v in P1. destruct (Z.ltb_spec v n); [| lia]. destruct (Z.ltb_spec (value e) n); [| lia]. cbn [andb] in P1.
  destruct P1 as (c & E1 & HC & Lc & Mc). exists (_normalize a), c.
  assert (Ec : val (take (rn_length c) (rn_data c)) = value c) by (symmetry; by apply (value_low cap)).
  assert (HAc : argument_ok c) by (split_and!; apply HC).
  pose proof (rsa_process_ok c 2 d out' HAc Hd HD HO') as P2. cbv zeta in P2. rewrite Ec in P2.
  assert (Hpow : value c ^ value d mod n = v mod n).
  { rewrite <- Hinv, Z.pow_mul_r by lia. apply cong_pow; [lia | done | done]. }
  assert (Hcn : value c <> n).
  { intros Ex. rewrite (cong_pow (value c) 0), Z.pow_0_l, Z.mod_0_l, (Z.mod_small v) in Hpow by (try rewrite Ex, Z.mod_same, Z.mod_0_l; lia). lia. }
  destruct (Z.ltb_spec (value c) n); [| lia]. destruct (Z.ltb_spec (value d) n); [| lia]. cbn [andb] in P2. destruct P2 as (r & E2 & HR & Lr & Mr).
  exists (_normalize c), r. split_and!; [done | done |]. rewrite Hpow, (Z.mod_small v) in Mr by lia.
  destruct (decide (value r = n)) as [Ex | Hne]; [rewrite Ex, Z.mod_same in Mr by lia; lia|]. pose proof (value_range _ _ HR). rewrite Z.mod_small in Mr by lia. done.
Qed.
End contract.

(** ** States made by [rsa_state_init] *)

(** The words of a modulus of [bits] bits, and the number they stand for. *)
Definition modulus_words (bits : Z) : nat := Z.to_nat (Z.shiftr (bits + 31) 5).
Definition modulus_number (words : list Z) (bits : Z) : Z := val (take (modulus_words bits) words) mod 2 ^ bits.

(** An odd modulus of at least two limbs, in the division for which no trial
    digit is too big. *)
Definition modulus_ok (words : list Z) (bits : Z) : Prop :=
  0 < bits /\ Forall limb words /\ (modulus_words bits <= length words)%nat /\ base <= modulus_number words bits /\ Z.odd (modulus_number words bits) = true /\
  trials_exact (modulus_number words bits) = true.

(** The keys, which the caller puts into the state. *)
Definition with_keys (state : rsa_state_t) (public private : option rsa_number_t) : rsa_state_t :=
  State (max_number_length state) (modulus_bit_length state) public private (modulus state) (_mu state).

Lemma power_two k : power k = 2 ^ (32 * Z.of_nat k).
Proof. unfold power, base. by rewrite <- Z.pow_mul_r by lia. Qed.

(** The mask on the last word. *)
Lemma mask_words words bits m : 0 < bits -> Forall limb words -> (modulus_words bits <= length words)%nat -> (1 <= m)%nat ->
  let data := take (modulus_words bits) words ++ replicate m 0 in let top := Z.to_nat (Z.shiftr bits 5) in
  exists x, data !! top = Some x /\ let data' := <[top := Z.land x (u32 (Z.shiftl 1 (Z.land bits 31) - 1))]> data in
    Forall limb data' /\ val (take (modulus_words bits) data') = modulus_number words bits.
Proof.
  intros Hb Hw Hl Hm data top. unfold modulus_number. set (L := modulus_words bits) in *.
  assert (Lt : length (take L words) = L) by (rewrite length_take; lia).
  assert (EL : Z.of_nat L = (bits + 31) / 32) by (unfold L, modulus_words; rewrite Z.shiftr_div_pow2 by lia; change (2 ^ 5) with 32; rewrite Z2Nat.id; [done | apply Z.div_pos; lia]).
  assert (Et : Z.of_nat top = bits / 32) by (unfold top; rewrite Z.shiftr_div_pow2 by lia; change (2 ^ 5) with 32; rewrite Z2Nat.id; [done | apply Z.div_pos; lia]).
  assert (Hd : Forall limb data) by (apply Forall_app; split; [by apply Forall_take | apply limbs_zeros]).
  pose proof (Z.div_mod bits 32 ltac:(lia)) as Db. pose proof (Z.mod_pos_bound bits 32 ltac:(lia)) as Mb.
  set (r := bits mod 32) in *. set (t := bits / 32) in *. assert (Pr : 1 <= 2 ^ r <= 2 ^ 31) by (split; [apply (Z.pow_le_mono_r 2 0) | apply Z.pow_le_mono_r]; lia).
  assert (Em : u32 (Z.shiftl 1 (Z.land bits 31) - 1) = Z.ones r).
  { change 31 with (Z.ones 5). rewrite Z.land_ones by lia. change (2 ^ 5) with 32. fold r. rewrite Z.shiftl_1_l, u32_id, Z.sub_1_r, <- Z.ones_equiv by lia. done. }
  assert (Htop : (top < length data)%nat).
  { unfold data. rewrite length_app, Lt, length_replicate. assert ((bits + 31) / 32 >= t) by (apply Z.le_ge, Z.div_le_mono; lia). lia. }
  exists (nth top data 0). split; [by apply lookup_nth|]. cbv zeta. rewrite Em, Z.land_ones by lia. pose proof (nth_limb data top Hd) as Hx. set (x := nth top data 0) in *.
  split; [apply Forall_insert; [done|]; unfold limb in *; pose proof (Z.mod_pos_bound x (2 ^ r) ltac:(lia)); lia|].
  destruct (decide (r = 0)) as [Hr | Hr].
  - assert (L = top) as ->.
    { apply Nat2Z.inj. rewrite EL, Et. symmetry. apply Z.div_unique with 31; lia. }
    rewrite take_insert_ge by lia. unfold data. rewrite take_app_length' by done. rewrite Z.mod_small; [done|]. pose proof (limbs_val_range _ (Forall_take _ top _ Hw)) as Hv. rewrite Lt, power_two in Hv.
    replace (32 * Z.of_nat top) with bits in Hv by lia. done.
  - assert (EL' : L = S top).
    { apply Nat2Z.inj. rewrite EL, Nat2Z.inj_succ, Et. symmetry. apply Z.div_unique with (r - 1); lia. }
    assert (Ex : take L words = take top data ++ [x]).
    { transitivity (take L data); [unfold data; by rewrite take_app_length'|]. rewrite EL'. apply take_S_r. by apply lookup_nth. }
    rewrite EL' at 1. rewrite (take_S_r _ top (x mod 2 ^ r)) by (by apply list_lookup_insert_eq). rewrite take_insert_ge by lia. rewrite Ex, !limbs_val_app.
    assert (Ltop : length (take top data) = top) by (rewrite length_take; lia). rewrite Ltop. pose proof (limbs_val_range _ (Forall_take _ top _ Hd)) as Hv. rewrite Ltop in Hv. cbn [val foldr]. rewrite !Z.mul_0_r, !Z.add_0_r.
    assert (2 ^ bits = power top * 2 ^ r) as -> by (rewrite power_two, <- Z.pow_add_r by lia; f_equal; lia). set (lo := val (take top data)) in *.
    rewrite Z.rem_mul_r by (pose proof (power_pos top); lia). rewrite (Z.mul_comm (power top) x), Z.mod_add, Z.div_add, (Z.mod_small lo), (Z.div_small lo), Z.add_0_l by (pose proof (power_pos top); lia). done.
Qed.

(** [rsa_state_init] makes a state with the exact quotient. *)
Lemma rsa_state_init_ok words bits public private : modulus_ok words bits ->
  exists state, rsa_state_init words bits = Some state /\ max_number_length state = (2 * modulus_words bits + 3)%nat /\ state_ok (with_keys state public private) (modulus_number words bits).
Proof.
  intros (Hb & Hw & Hl & Hn & Ho & Hex). unfold rsa_state_init. fold (modulus_words bits). rewrite limbs_some by done. cbn [mbind option_bind]. set (L := modulus_words bits) in *. unfold aget.
  destruct (mask_words words bits (2 * L + 3 - L) Hb Hw Hl ltac:(lia)) as (x & Ex & Hd & Hv). fold L in Ex, Hd, Hv. rewrite Ex. cbn [mbind option_bind]. unfold aput. pose proof (lookup_lt_Some _ _ _ Ex) as Hlt.
  destruct (Nat.ltb_spec (Z.to_nat (Z.shiftr bits 5)) (length (take L words ++ replicate (2 * L + 3 - L) 0))); [| lia]. cbn [mbind option_bind]. cbv zeta in Hd, Hv.
  set (data := <[_ := _]> _) in *. assert (Cd : length data = (2 * L + 3)%nat) by (unfold data; rewrite length_insert, length_app, length_take, length_replicate; lia).
  assert (HL : (1 <= L)%nat).
  { unfold L, modulus_words. rewrite Z.shiftr_div_pow2 by lia. change (2 ^ 5) with 32. assert (1 <= (bits + 31) / 32) by (apply Z.div_le_lower_bound; lia). lia. }
  destruct (normalize_ok (2 * L + 3) L data Cd Hd ltac:(lia)) as [HM VM]. rewrite Hv in VM. set (m := _normalize (Number L data)) in *. set (n := modulus_number words bits) in *.
  assert (Lm : (rn_length m <= L)%nat) by apply trim_le.
  pose proof (value_range _ _ HM) as Hr. rewrite VM in Hr.
  assert (Hk : (2 <= rn_length m)%nat).
  { destruct (decide (2 <= rn_length m)%nat); [done|]. pose proof (power_le (rn_length m) 1 ltac:(lia)). change (power 1) with base in *. lia. }
  assert (Hk1 : power (rn_length m - 1) < n).
  { pose proof (value_top _ _ HM ltac:(lia)) as Ht. rewrite VM in Ht. destruct (decide (power (rn_length m - 1) = n)) as [E |]; [| lia]. rewrite <- E in Ho.
    rewrite power_two, Z.odd_pow in Ho by lia. done. }
  destruct (calculate_mu_ok (2 * L + 3) m n HM VM Hk ltac:(lia) Hk1 Hex) as (mu & -> & HU & VU). cbn [mbind option_bind]. eexists. split_and!; [done | done |].
  split; cbn [with_keys max_number_length modulus _mu]; [done | done | lia | done | done].
Qed.

(** C31: for an odd modulus [n] above [2^32], no trial digit of whose reciprocal
    is too big ([trials_exact]; otherwise a carry can be lost, see
    [rsa_mu_lost_carry]), [rsa_state_init] makes a state; with keys that are
    normalized numbers of that state, a value below [n] is raised to the power of
    the chosen key below [n]: the result is congruent to the power and at most
    [n], no array is accessed out of bounds and every loop ends.  A value or a
    destination of another capacity, a missing key, and a value or key that is
    not below [n] are panics. *)
Theorem rsa_process_correct words bits public private : modulus_ok words bits ->
  let n := modulus_number words bits in
  exists made, rsa_state_init words bits = Some made /\ max_number_length made = (2 * modulus_words bits + 3)%nat /\
    let state := with_keys made public private in
    let cap := max_number_length made in
    forall a key out, Forall limb (rn_data a) -> (1 <= rn_length a <= capacity a)%nat -> (forall e, key_of state key = Some e -> num_ok cap e) ->
      let v := val (take (rn_length a) (rn_data a)) in
      match key_of state key with
      | Some e =>
        if (capacity a =? cap)%nat && (capacity out =? cap)%nat && (v <? n) && (value e <? n) then
          exists r, rsa_state_process state a key out = Some (_normalize a, r) /\ num_ok cap r /\ value r <= n /\ value r mod n = v ^ value e mod n
        else rsa_state_process state a key out = None
      | None => rsa_state_process state a key out = None
      end.
Proof.
  intros HM n. destruct (rsa_state_init_ok words bits public private HM) as (made & E & Hc & HS). exists made. split_and!; [done | done |]. intros state cap a key out La Ra HE v.
  pose proof (rsa_process_refuses state n HS a key out La (proj1 Ra) (proj2 Ra) HE) as Hbad. destruct (key_of state key) as [e |] eqn:Ek; [| auto].
  destruct (Nat.eqb_spec (capacity a) cap) as [Ca | Ca]; cbn [andb]; [| auto]. destruct (Nat.eqb_spec (capacity out) cap) as [Co | Co]; cbn [andb]; [| auto].
  apply (rsa_process_ok state n HS a key e out); [split_and!; [done | done | apply Ra | change (rn_length a <= cap)%nat; lia] | done | by apply HE | done].
Qed.

(** ** A small modulus *)

(** Two limbs, with the keys 3 and 5, which undo each other on [n-1]. *)
Definition small_modulus : list Z := [3735928559; 2309737967].
Definition small_key (x : Z) : rsa_number_t := Number 1 (x :: replicate 6 0).
Definition small_state : rsa_state_t :=
  State 7 64 (Some (small_key 3)) (Some (small_key 5)) (Number 2 (small_modulus ++ replicate 5 0)) (Number 3 [1746740784; 3691542139; 1; 0; 0; 0; 0]).
Definition small_value : rsa_number_t := Number 2 [3735928558; 2309737967; 0; 0; 0; 0; 0].

(** The state that [rsa_state_init] makes for it. *)
Example small_init : rsa_state_init small_modulus 64 = Some (State 7 64 None None (modulus small_state) (_mu small_state)).
Proof. vm_compute. reflexivity. Qed.

Ltac concrete_limbs := cbn; repeat (apply Forall_cons_2; [split; vm_compute; congruence|]); apply Forall_nil_2.
Ltac concrete_num := split; [reflexivity | concrete_limbs | vm_compute; lia | reflexivity | vm_compute; congruence].

Lemma small_state_ok : state_ok small_state 9920249034330455791.
Proof. split; [concrete_num | reflexivity | vm_compute; lia | concrete_num | reflexivity]. Qed.

Lemma small_key_ok x : 0 <= x < 2 ^ 32 -> num_ok 7 (small_key x).
Proof. intros Hx. split; [reflexivity | | cbn; lia | reflexivity | cbn; lia]. constructor; [done | apply limbs_zeros]. Qed.

Lemma small_value_ok : argument_ok small_state small_value.
Proof. split_and!; [reflexivity | concrete_limbs | vm_compute; lia | vm_compute; lia]. Qed.

Lemma small_modulus_ok : modulus_ok small_modulus 64.
Proof. split_and!; [done | concrete_limbs | vm_compute; lia | vm_compute; congruence | reflexivity | vm_compute; reflexivity]. Qed.

Lemma rsa_process_correct_witness : exists made r, rsa_state_init small_modulus 64 = Some made /\
  rsa_state_process (with_keys made (Some (small_key 3)) None) small_value 1 (small_key 0) = Some (_normalize small_value, r) /\ value r <= 9920249034330455791 /\
  value r mod 9920249034330455791 = 9920249034330455790 ^ 3 mod 9920249034330455791 /\
  rsa_state_process (with_keys made (Some (small_key 3)) None) small_value 2 (small_key 0) = None.
Proof.
  destruct (rsa_process_correct small_modulus 64 (Some (small_key 3)) None small_modulus_ok) as (made & E & Hc & H). change (2 * modulus_words 64 + 3)%nat with 7%nat in Hc.
  cbv zeta in H. rewrite Hc in H. destruct small_value_ok as (_ & La & Ra).
  destruct (H small_value 1 (small_key 0) La Ra) as (r & Er & _ & Hle & Hm); [intros e [= <-]; apply small_key_ok; lia|].
  exists made, r. split_and!; [exact E | exact Er | exact Hle | exact Hm | apply (H small_value 2 (small_key 0) La Ra); intros e [=]].
Defined.

Lemma rsa_roundtrip_witness : exists x c y r, rsa_state_process small_state small_value 1 (small_key 0) = Some (x, c) /\
  rsa_state_process small_state c 2 (small_key 0) = Some (y, r) /\ value r = 9920249034330455790.
Proof.
  apply (rsa_roundtrip small_state _ small_state_ok small_value (small_key 3) (small_key 5) (small_key 0) (small_key 0) small_value_ok eq_refl eq_refl
    (small_key_ok 3 ltac:(lia)) (small_key_ok 5 ltac:(lia)) eq_refl eq_refl); vm_compute; repeat split; congruence.
Defined.

(** ** Where the quotient is wrong *)

(** The sum of two limbs in [_add] has 32 bits: when a digit of the quotient is
    one too big and the divisor is added back, the carries are lost, and [_mu] is
    not the quotient that [_modulo] relies on. *)
Lemma rsa_mu_lost_carry : match rsa_state_init [1193046435; 1908874361; 2863311528] 96 with
  | Some state => trials_exact 0xaaaaaaa871c71c79471c71a3 = false /\ val (rn_data (modulus state)) = 0xaaaaaaa871c71c79471c71a3 /\ val (rn_data (_mu state)) <> 2 ^ 192 / 0xaaaaaaa871c71c79471c71a3
  | None => False
  end.
Proof. vm_compute. split_and!; [reflexivity | reflexivity | discriminate]. Qed.

(** A modulus of one limb makes the division read [b->data[-1]]. *)
Lemma rsa_one_limb : rsa_state_init [3735928559] 32 = None.
Proof. vm_compute. reflexivity. Qed.
