(* ===== verification/Sort.v ===== *)
(** * Sorting in the user-space library
    ([src/src/lib/sys/sys/util/sort.c], [sys_memory_exchange] of
    [lib/sys/sys/memory/memory.c]).

    An array of [count] elements of [size] bytes in memory; the callback sees the
    bytes of two elements. *)
From stdpp Require Import base tactics list numbers option sorting.
From Stdlib Require Import ZArith Lia.
From S2P Require Import Prelude Bytes Store.
#[local] Open Scope Z_scope.

Definition put (m : mem) (a x : Z) : mem := fun b => if b =? a then x else m b.

Fixpoint exchange_loop (n : nat) (m : mem) (a b : Z) : mem :=
  match n with
  | O => m
  | S n => let tmp := m a in exchange_loop n (put (put m a (m b)) b tmp) (a + 1) (b + 1)
  end.

Definition sys_memory_exchange (m : mem) (a b length : Z) : mem := exchange_loop (Z.to_nat length) m a b.

Section sort.
Context (size : Z) (switch_callback : list Z -> list Z -> bool).

Definition element (m : mem) (data i : Z) : list Z := mem_read m (data + size * i) size.

(** [for (j=0;j<count;j++)], [n] rounds from [j] on. *)
Fixpoint partition_loop (n : nat) (m : mem) (data count i j : Z) : mem * Z :=
  match n with
  | O => (m, i)
  | S n =>
    if switch_callback (element m data j) (element m data count)
    then partition_loop n (sys_memory_exchange m (data + size * i) (data + size * j) size) data count (i + 1) (j + 1)
    else partition_loop n m data count i (j + 1)
  end.

(** [None]: the fuel is used up. *)
Fixpoint sys_sort (fuel : nat) (m : mem) (data count : Z) : option mem :=
  match fuel with
  | O => None
  | S fuel =>
    if count <=? 1 then Some m
    else
      let count := count - 1 in
      let '(m, i) := partition_loop (Z.to_nat count) m data count 0 0 in
      let m := sys_memory_exchange m (data + size * i) (data + size * count) size in
      m ← (if 1 <? i then sys_sort fuel m data i else Some m);
      let i := i + 1 in
      if i <? count then sys_sort fuel m (data + size * i) (count - i + 1) else Some m
  end.

(** The array as a list. *)
Definition elements (m : mem) (data count : Z) : list (list Z) := element m data <$> seqZ 0 count.
End sort.

(** ** Exchanging elements *)

Lemma exchange_loop_ok n : forall m a b x, a = b \/ a + Z.of_nat n <= b \/ b + Z.of_nat n <= a ->
  exchange_loop n m a b x = if (a <=? x) && (x <? a + Z.of_nat n) then m (b + (x - a)) else if (b <=? x) && (x <? b + Z.of_nat n) then m (a + (x - b)) else m x.
Proof.
  induction n as [| n IH]; intros m a b x Hd; cbn [exchange_loop]; [acases; done|].
  rewrite IH by lia. unfold put. acases; try done; try (f_equal; lia); subst; try lia; f_equal; lia.
Qed.

Section proofs.
Context (size : Z) (Hsize : 0 <= size) (lt : list Z -> list Z -> bool).

Abbreviation el := (element size).

Definition swap (i j k : Z) : Z := if k =? i then j else if k =? j then i else k.

Lemma apart i j : i = j \/ size * i + size <= size * j \/ size * j + size <= size * i.
Proof. destruct (Z.lt_trichotomy i j) as [? | [? | ?]]; [right; left; nia | by left | right; right; nia]. Qed.

Lemma exchange_ok m data i j x : let m' := sys_memory_exchange m (data + size * i) (data + size * j) size in
  (forall k, el m' data k = el m data (swap i j k)) /\
  ((forall k, k = i \/ k = j -> ~ (data + size * k <= x < data + size * k + size)) -> m' x = m x).
Proof.
  intros m'. assert (Hm : forall x, m' x = if (data + size * i <=? x) && (x <? data + size * i + size) then m (data + size * j + (x - (data + size * i)))
    else if (data + size * j <=? x) && (x <? data + size * j + size) then m (data + size * i + (x - (data + size * j))) else m x).
  { intros y. unfold m', sys_memory_exchange. rewrite exchange_loop_ok; rewrite Z2Nat.id by done; [done|].
    destruct (apart i j) as [-> | ?]; lia. }
  split.
  - intros k. unfold element, swap. apply mem_read_ext. intros q Hq. rewrite Hm.
    assert (Hin : forall c, (data + size * c <=? data + size * k + q) && (data + size * k + q <? data + size * c + size) = (k =? c)).
    { intros c. destruct (Z.eqb_spec k c) as [-> | Hne]; acases; try done. exfalso. destruct (apart k c); [done | lia]. }
    rewrite !Hin. destruct (Z.eqb_spec k i) as [-> |]; [f_equal; lia|]. destruct (Z.eqb_spec k j) as [-> |]; [f_equal; lia | done].
  - intros Hx. rewrite Hm. pose proof (Hx i ltac:(auto)). pose proof (Hx j ltac:(auto)). acases; done.
Qed.

Lemma swap_swap i j x : swap i j (swap i j x) = x.
Proof. unfold swap at 2. destruct (Z.eqb_spec x i); [| destruct (Z.eqb_spec x j)]; unfold swap; acases; lia. Qed.

Lemma swap_perm i j n : 0 <= i < n -> 0 <= j < n -> Permutation (swap i j <$> seqZ 0 n) (seqZ 0 n).
Proof.
  intros Hi Hj. apply NoDup_Permutation.
  - apply NoDup_fmap_2_strong; [| apply NoDup_seqZ]. intros x y _ _ E. apply (f_equal (swap i j)) in E. by rewrite !swap_swap in E.
  - apply NoDup_seqZ.
  - intros x. rewrite list_elem_of_fmap. setoid_rewrite elem_of_seqZ. split.
    + intros (y & -> & Hy). unfold swap. acases; lia.
    + intros Hx. exists (swap i j x). split; [by rewrite swap_swap|]. unfold swap. acases; lia.
Qed.

Lemma exchange_perm m m' data i j n : 0 <= i < n -> 0 <= j < n -> (forall k, el m' data k = el m data (swap i j k)) ->
  Permutation (elements size m' data n) (elements size m data n).
Proof.
  intros Hi Hj Hm. unfold elements. rewrite (list_fmap_ext (el m' data) (el m data ∘ swap i j)) by (intros; apply Hm).
  rewrite list_fmap_compose. by apply Permutation_map, swap_perm.
Qed.

(** The bytes of the array. *)
Definition in_array (data n x : Z) : Prop := data <= x < data + size * n.

Definition same_beside (m m' : mem) (data n : Z) : Prop := forall x, ~ in_array data n x -> m' x = m x.

Lemma exchange_beside m data i j n : 0 <= i < n -> 0 <= j < n -> same_beside m (sys_memory_exchange m (data + size * i) (data + size * j) size) data n.
Proof.
  intros Hi Hj x Hx. apply exchange_ok. intros k Hk Hin. apply Hx. unfold in_array. destruct Hk as [-> | ->]; nia.
Qed.

(** ** Partitioning *)

(** Smaller elements come first, up to [i]. *)
Definition parted (m : mem) (data : Z) (p : list Z) (i j : Z) : Prop :=
  (forall k, 0 <= k < i -> lt (el m data k) p = true) /\ (forall k, i <= k < j -> lt (el m data k) p = false).

Lemma partition_ok n : forall m data c i j, 0 <= i <= j -> j + Z.of_nat n = c -> parted m data (el m data c) i j ->
  exists m' i', partition_loop size lt n m data c i j = (m', i') /\ 0 <= i' <= c /\ el m' data c = el m data c /\ parted m' data (el m data c) i' c /\
    Permutation (elements size m' data (c + 1)) (elements size m data (c + 1)) /\ same_beside m m' data (c + 1).
Proof.
  induction n as [| n IH]; intros m data c i j Hij Hc [H1 H2]; cbn [partition_loop].
  - replace c with j in * by lia. exists m, i. split_and!; try done; lia.
  - destruct (lt (el m data j) (el m data c)) eqn:Ej.
    + set (m1 := sys_memory_exchange m (data + size * i) (data + size * j) size).
      assert (He : forall k, el m1 data k = el m data (swap i j k)) by (intros k; by apply (exchange_ok m data i j 0)).
      assert (Hp : el m1 data c = el m data c) by (rewrite He; unfold swap; acases; done).
      destruct (IH m1 data c (i + 1) (j + 1)) as (m2 & i2 & -> & Hi2 & E2 & P2 & Q2 & F2); [lia | lia | |].
      { rewrite Hp. split; intros k Hk; rewrite He; unfold swap; acases; subst; try done; first [by apply H1; lia | apply H2; lia]. }
      rewrite Hp in *. exists m2, i2. split_and!; [done | lia | lia | done | done | |].
      * rewrite Q2. apply (exchange_perm m m1 data i j); [lia | lia | done].
      * intros x Hx. rewrite F2 by done. apply (exchange_beside m data i j (c + 1)); [lia | lia | done].
    + apply IH; [lia | lia |]. split; [done|]. intros k Hk. destruct (decide (k = j)) as [-> |]; [done | apply H2; lia].
Qed.

(** ** Sorting *)

Lemma elements_app m data a b : 0 <= a -> 0 <= b -> elements size m data (a + b) = elements size m data a ++ elements size m (data + size * a) b.
Proof.
  intros Ha Hb. unfold elements. rewrite seqZ_app by lia. rewrite fmap_app. f_equal. rewrite Z.add_0_l. rewrite <- (Z.add_0_r a) at 1. rewrite <- fmap_add_seqZ.
  rewrite <- list_fmap_compose. apply list_fmap_ext. intros _ k _. unfold compose, element. f_equal. lia.
Qed.

Lemma elements_one m data : elements size m data 1 = [el m data 0].
Proof. done. Qed.

Lemma elements_same m m' data n data' n' : 0 <= n -> 0 <= n' -> same_beside m m' data' n' -> data + size * n <= data' \/ data' + size * n' <= data ->
  elements size m' data n = elements size m data n.
Proof.
  intros Hn Hn' Hs Hd. unfold elements. apply list_fmap_ext. intros i k Hk. apply list_elem_of_lookup_2, elem_of_seqZ in Hk. apply mem_read_ext. intros q Hq.
  apply Hs. unfold in_array. nia.
Qed.

Lemma elements_all (P : list Z -> Prop) m data n : (forall k, 0 <= k < n -> P (el m data k)) -> Forall P (elements size m data n).
Proof. intros HP. apply Forall_fmap, Forall_forall. intros k Hk%elem_of_seqZ. apply HP. lia. Qed.

(** What a caller relies on. *)
Definition sorted_to (m m' : mem) (data n : Z) : Prop :=
  Permutation (elements size m' data n) (elements size m data n) /\ StronglySorted (fun x y => lt y x = false) (elements size m' data n) /\ same_beside m m' data n.

Context (Hirr : forall x, lt x x = false) (Htrans : forall x y z, lt x y = true -> lt y z = true -> lt x z = true).

Lemma sorted_join (p : list Z) l r : StronglySorted (fun x y => lt y x = false) l -> StronglySorted (fun x y => lt y x = false) r ->
  Forall (fun x => lt x p = true) l -> Forall (fun x => lt x p = false) r -> StronglySorted (fun x y => lt y x = false) (l ++ p :: r).
Proof.
  intros Hl Hr Hlp Hrp. induction l as [| x l IH]; cbn [app]; [by constructor|].
  inversion Hl as [| ? ? Hl' Hx]; subst. apply Forall_cons_1 in Hlp as [Hxp Hlp]. constructor; [by apply IH|].
  apply Forall_app. split; [done|]. constructor.
  - destruct (lt p x) eqn:E; [| done]. specialize (Hirr x). by rewrite (Htrans _ _ _ Hxp E) in Hirr.
  - apply Forall_forall. intros y Hy. rewrite Forall_forall in Hrp. specialize (Hrp y Hy). destruct (lt y x) eqn:E; [| done]. by rewrite (Htrans _ _ _ E Hxp) in Hrp.
Qed.

Lemma sort_ok fuel : forall m data n, n <= Z.of_nat fuel -> 0 <= n -> exists m', sys_sort size lt (S fuel) m data n = Some m' /\ sorted_to m m' data n.
Proof.
  induction fuel as [| fuel IH]; intros m data n Hf Hn.
  - assert (n = 0) as -> by lia. exists m. split; [done|]. split_and!; [done | constructor | done].
  - change (sys_sort size lt (S (S fuel)) m data n) with (if n <=? 1 then Some m else
      let '(m, i) := partition_loop size lt (Z.to_nat (n - 1)) m data (n - 1) 0 0 in
      m ← (if 1 <? i then sys_sort size lt (S fuel) (sys_memory_exchange m (data + size * i) (data + size * (n - 1)) size) data i
           else Some (sys_memory_exchange m (data + size * i) (data + size * (n - 1)) size));
      if i + 1 <? n - 1 then sys_sort size lt (S fuel) m (data + size * (i + 1)) (n - 1 - (i + 1) + 1) else Some m).
    destruct (Z.leb_spec n 1) as [Hle | Hgt].
    { exists m. split; [done|]. split_and!; [done | | done]. assert (n = 0 \/ n = 1) as [-> | ->] by lia; [constructor | rewrite elements_one; repeat constructor]. }
    set (c := n - 1). replace n with (c + 1) in * by lia. clearbody c.
    destruct (partition_ok (Z.to_nat c) m data c 0 0) as (m1 & i & -> & Hi & Ep & [Hl Hr] & P1 & F1); [lia | lia | split; lia |]. set (p := el m data c) in *.
    set (m2 := sys_memory_exchange m1 (data + size * i) (data + size * c) size).
    assert (He : forall k, el m2 data k = el m1 data (swap i c k)) by (intros k; by apply (exchange_ok m1 data i c 0)).
    assert (P2 : Permutation (elements size m2 data (c + 1)) (elements size m data (c + 1))) by (rewrite <- P1; apply (exchange_perm m1 m2 data i c); [lia | lia | done]).
    assert (F2 : same_beside m m2 data (c + 1)) by (intros x Hx; unfold m2; rewrite (exchange_beside m1 data i c (c + 1)) by (done || lia); by apply F1).
    assert (L2 : Forall (fun x => lt x p = true) (elements size m2 data i)) by (apply elements_all; intros k Hk; rewrite He; unfold swap; acases; apply Hl; lia).
    assert (M2 : el m2 data i = p) by (rewrite He; unfold swap; rewrite Z.eqb_refl; done).
    assert (R2 : Forall (fun x => lt x p = false) (elements size m2 (data + size * (i + 1)) (c - i))).
    { apply elements_all. intros k Hk. replace (el m2 (data + size * (i + 1)) k) with (el m2 data (i + 1 + k)) by (unfold element; f_equal; lia).
      rewrite He. unfold swap. acases; [apply Hr; lia | apply Hr; lia]. }
    assert (Hleft : exists m3, (if 1 <? i then sys_sort size lt (S fuel) m2 data i else Some m2) = Some m3 /\ sorted_to m2 m3 data i).
    { destruct (Z.ltb_spec 1 i); [apply IH; lia|]. exists m2. split; [done|]. split_and!; [done | | done].
      assert (i = 0 \/ i = 1) as [-> | ->] by lia; [constructor | rewrite elements_one; repeat constructor]. }
    destruct Hleft as (m3 & -> & P3 & S3 & F3). cbn [mbind option_bind].
    assert (Hright : exists m4, (if i + 1 <? c then sys_sort size lt (S fuel) m3 (data + size * (i + 1)) (c - (i + 1) + 1) else Some m3) = Some m4 /\ sorted_to m3 m4 (data + size * (i + 1)) (c - i)).
    { replace (c - (i + 1) + 1) with (c - i) by lia. destruct (Z.ltb_spec (i + 1) c); [apply IH; lia|]. exists m3. split; [done|]. split_and!; [done | | done].
      assert (c - i = 0 \/ c - i = 1) as [-> | ->] by lia; [constructor | rewrite elements_one; repeat constructor]. }
    destruct Hright as (m4 & -> & P4 & S4 & F4). exists m4. split; [done|].
    assert (Esplit : forall w, elements size w data (c + 1) = elements size w data i ++ el w data i :: elements size w (data + size * (i + 1)) (c - i)).
    { intros w. replace (c + 1) with (i + (1 + (c - i))) by lia. rewrite !elements_app by lia. rewrite elements_one. cbn [app]. do 2 f_equal; [unfold element; f_equal; lia | f_equal; lia]. }
    assert (E4l : elements size m4 data i = elements size m3 data i) by (eapply elements_same; [lia | | exact F4 | left]; lia).
    assert (E3r : elements size m3 (data + size * (i + 1)) (c - i) = elements size m2 (data + size * (i + 1)) (c - i)) by (eapply elements_same; [lia | | exact F3 | right]; lia).
    assert (E4p : el m4 data i = p).
    { rewrite <- M2. apply mem_read_ext. intros q Hq. rewrite F4, F3 by (unfold in_array; nia). done. }
    split_and!.
    + rewrite <- P2, !Esplit, E4l, E4p, M2, P3. apply Permutation_app_head, perm_skip. by rewrite P4, E3r.
    + rewrite Esplit, E4p, E4l. apply sorted_join; [done | done | by rewrite P3 | by rewrite P4, E3r].
    + intros x Hx. assert (0 <= size * i <= size * c) by nia. assert (Ho : ~ in_array (data + size * (i + 1)) (c - i) x /\ ~ in_array data i x) by (unfold in_array in *; split; lia).
      rewrite F4, F3 by apply Ho. by apply F2.
Qed.
End proofs.

(** C32: for a callback that is a strict order (irreflexive and transitive),
    sorting ends, rearranges the elements of the array so that no element comes
    after one that has to follow it, and writes nothing beside the array. *)
Theorem sys_sort_correct size lt m data count : 0 <= size -> 0 <= count ->
  (forall x, lt x x = false) -> (forall x y z, lt x y = true -> lt y z = true -> lt x z = true) ->
  exists m', sys_sort size lt (S (Z.to_nat count)) m data count = Some m' /\
    Permutation (elements size m' data count) (elements size m data count) /\
    StronglySorted (fun x y => lt y x = false) (elements size m' data count) /\
    forall x, ~ (data <= x < data + size * count) -> m' x = m x.
Proof.
  intros Hs Hc Hi Ht. destruct (sort_ok size Hs lt Hi Ht (Z.to_nat count) m data count) as (m' & E & P & S & F); [lia | done |]. exists m'. by split_and!.
Qed.

(** Two-byte elements by their first byte. *)
Lemma sys_sort_correct_witness : exists m', sys_sort 2 (fun x y => nth 0 x 0 <? nth 0 y 0) 6 (fun i => nth (Z.to_nat i) [5; 0; 3; 1; 9; 2; 3; 3; 1; 4] 0) 0 5 = Some m' /\
  elements 2 m' 0 5 = [[1; 4]; [3; 3]; [3; 1]; [5; 0]; [9; 2]].
Proof.
  destruct (sys_sort_correct 2 (fun x y => nth 0 x 0 <? nth 0 y 0) (fun i => nth (Z.to_nat i) [5; 0; 3; 1; 9; 2; 3; 3; 1; 4] 0) 0 5) as (m' & E & _).
  - lia.
  - lia.
  - intros x. apply Z.ltb_irrefl.
  - intros x y z H1 H2. apply Z.ltb_lt in H1, H2. apply Z.ltb_lt. lia.
  - exists m'. split; [exact E|]. vm_compute in E. injection E as <-. vm_compute. reflexivity.
Defined.
