(* ===== verification/Heap.v ===== *)
(** * The heap of user programs ([src/src/lib/sys/sys/heap/heap.c]).

    Blocks lie one behind the other in arenas of 256 KiB, each with a header of
    32 bytes in front; free blocks are in twelve lists by size.  Headers are a
    finite map from addresses, the bytes of the memory a function; storing a
    header destroys the bytes where it is stored (they read as zero).  A header
    stays in the map when its block is merged, as its bytes stay in memory.
    The answers of [sys_memory_map] are an argument of the operations, a list
    of addresses in the order of the calls.  One heap is modelled ([NULL] names
    the default one).  [None] is the use of a header that was never stored, an
    undefined [__builtin_clz(0)] or a missing answer; [Stops] is
    [sys_thread_stop]. *)
From stdpp Require Import base tactics list numbers option gmap.
From Stdlib Require Import ZArith Lia.
From S2P Require Import Prelude.
#[local] Open Scope Z_scope.

Definition SYS_HEAP_GROW_SIZE : Z := 262144.
Definition SYS_HEAP_BLOCK_HEADER_FLAG_USED : Z := 1.
Definition SYS_HEAP_BLOCK_HEADER_FLAG_DEDICATED : Z := 2.
Definition SYS_HEAP_MIN_ALIGNMENT : Z := 16.
Definition SYS_HEAP_BUCKET_COUNT : Z := 12.
Definition SYS_PAGE_SIZE : Z := 4096.
Definition sizeof_header : Z := 32.

Record sys_heap_block_header_t := Header { prev : Z; next : Z; size_and_flags : Z; prev_size : Z; offset : Z }.

Record sys_heap_t := Heap {
  buckets : list Z;
  bucket_bitmap : Z;
  headers : gmap Z sys_heap_block_header_t;
  memory : mem
}.

Definition set_prev (x : Z) (h : sys_heap_block_header_t) : sys_heap_block_header_t := Header x (next h) (size_and_flags h) (prev_size h) (offset h).
Definition set_next (x : Z) (h : sys_heap_block_header_t) : sys_heap_block_header_t := Header (prev h) x (size_and_flags h) (prev_size h) (offset h).
Definition set_size (x : Z) (h : sys_heap_block_header_t) : sys_heap_block_header_t := Header (prev h) (next h) x (prev_size h) (offset h).
Definition set_prev_size (x : Z) (h : sys_heap_block_header_t) : sys_heap_block_header_t := Header (prev h) (next h) (size_and_flags h) (u32 x) (offset h).

(** A store to a header that exists. *)
Definition update (s : sys_heap_t) (a : Z) (f : sys_heap_block_header_t -> sys_heap_block_header_t) : option sys_heap_t :=
  h ← headers s !! a; Some (Heap (buckets s) (bucket_bitmap s) (<[a := f h]> (headers s)) (memory s)).

Definition set_bucket (s : sys_heap_t) (i a bitmap : Z) : sys_heap_t := Heap (<[Z.to_nat i := a]> (buckets s)) bitmap (headers s) (memory s).
Definition bucket (s : sys_heap_t) (i : Z) : Z := nth (Z.to_nat i) (buckets s) 0.

(** [31-__builtin_clz(size/SYS_HEAP_MIN_ALIGNMENT)] is the position of the highest bit. *)
Definition _get_bucket_index (size : Z) : option Z :=
  let x := u32 (size / SYS_HEAP_MIN_ALIGNMENT) in
  if x =? 0 then None else Some (if SYS_HEAP_BUCKET_COUNT <=? Z.log2 x then SYS_HEAP_BUCKET_COUNT - 1 else Z.log2 x).

Definition _heap_block_header_init (size prev_size flags : Z) (s : sys_heap_t) (a : Z) : sys_heap_t :=
  Heap (buckets s) (bucket_bitmap s) (<[a := Header 0 0 (Z.lor size flags) (u32 prev_size) sizeof_header]> (headers s)) (mem_write (memory s) a (replicate 32 0)).

Definition _heap_block_header_get_size (h : sys_heap_block_header_t) : Z := Z.land (size_and_flags h) (u64 (- SYS_HEAP_MIN_ALIGNMENT)).
Definition is_used (h : sys_heap_block_header_t) : bool := z2b (Z.land (size_and_flags h) SYS_HEAP_BLOCK_HEADER_FLAG_USED).
Definition is_dedicated (h : sys_heap_block_header_t) : bool := z2b (Z.land (size_and_flags h) SYS_HEAP_BLOCK_HEADER_FLAG_DEDICATED).

Definition _insert_block (s : sys_heap_t) (header : Z) : option sys_heap_t :=
  h ← headers s !! header;
  i ← _get_bucket_index (_heap_block_header_get_size h);
  let first := bucket s i in
  s ← update s header (fun h => set_next first (set_prev 0 h));
  if negb (first =? 0) then s ← update s first (set_prev header); Some (set_bucket s i header (bucket_bitmap s))
  else Some (set_bucket s i header (u16 (Z.lor (bucket_bitmap s) (Z.shiftl 1 i)))).

Definition _remove_block (s : sys_heap_t) (header : Z) : option sys_heap_t :=
  h ← headers s !! header;
  i ← _get_bucket_index (_heap_block_header_get_size h);
  s ← (if negb (next h =? 0) then update s (next h) (set_prev (prev h)) else Some s);
  if negb (prev h =? 0) then update s (prev h) (set_next (next h))
  else Some (set_bucket s i (next h) (if next h =? 0 then Z.land (bucket_bitmap s) (lnot_w 16 (Z.shiftl 1 i)) else bucket_bitmap s)).

Definition sys_heap_init (headers : gmap Z sys_heap_block_header_t) (memory : mem) : sys_heap_t :=
  Heap (replicate (Z.to_nat SYS_HEAP_BUCKET_COUNT) 0) 0 headers memory.

Definition sys_memory_align_up_address (base : Z) : Z := Z.land (u64 (base + SYS_PAGE_SIZE - 1)) (u64 (- SYS_PAGE_SIZE)).

(** The size of the block for a request. *)
Definition block_size (size : Z) : Z := Z.land (u64 (size + sizeof_header + SYS_HEAP_MIN_ALIGNMENT - 1)) (u64 (- SYS_HEAP_MIN_ALIGNMENT)).

Definition is_large (size : Z) : bool := Z.shiftl SYS_HEAP_MIN_ALIGNMENT SYS_HEAP_BUCKET_COUNT <=? size.

(** A new arena, at the address that [sys_memory_map] returned: two small blocks that are never free around a free one. *)
Definition _grow_heap (s : sys_heap_t) (data : Z) : option sys_heap_t :=
  let s := _heap_block_header_init sizeof_header 0 SYS_HEAP_BLOCK_HEADER_FLAG_USED s data in
  let s := _heap_block_header_init (SYS_HEAP_GROW_SIZE - 2 * sizeof_header) sizeof_header 0 s (data + sizeof_header) in
  let s := _heap_block_header_init sizeof_header (SYS_HEAP_GROW_SIZE - 2 * sizeof_header) SYS_HEAP_BLOCK_HEADER_FLAG_USED s (data + SYS_HEAP_GROW_SIZE - sizeof_header) in
  _insert_block s (data + sizeof_header).

(** The first block of a list that is large enough, 0 if there is none. *)
Fixpoint search_list (fuel : nat) (s : sys_heap_t) (header size : Z) : option Z :=
  match fuel with
  | O => None
  | S fuel =>
    if header =? 0 then Some 0
    else h ← headers s !! header; if size <=? _heap_block_header_get_size h then Some header else search_list fuel s (next h) size
  end.

(** The free block to use; growing the heap ([goto _grow_heap]) takes an answer of [sys_memory_map]. *)
Fixpoint choose_block (answers : list Z) (s : sys_heap_t) (i size : Z) : option (sys_heap_t * Z * list Z) :=
  header ← (if Z.testbit (bucket_bitmap s) i then search_list (S (base.size (headers s))) s (bucket s i) size else Some 0);
  if negb (header =? 0) then Some (s, header, answers)
  else
    let larger := Z.shiftr (bucket_bitmap s) (i + 1) in
    if larger =? 0 then
      match answers with
      | [] => None
      | data :: answers => s ← _grow_heap s data; choose_block answers s i size
      end
    else Some (s, bucket s (ctz larger + 1 + i), answers).

(** The block is taken out of its list; what is left over of it, if that is more than a header, becomes a free block. *)
Definition carve_block (s : sys_heap_t) (header size : Z) : option sys_heap_t :=
  s ← _remove_block s header;
  h ← headers s !! header;
  let total_size := _heap_block_header_get_size h in
  '(s, size) ← (if total_size <=? size + sizeof_header then Some (s, total_size)
                else let s := _heap_block_header_init (total_size - size) size 0 s (header + size) in s ← _insert_block s (header + size); Some (s, size));
  h ← headers s !! header;
  Some (_heap_block_header_init size (prev_size h) SYS_HEAP_BLOCK_HEADER_FLAG_USED s header).

Definition sys_heap_alloc (answers : list Z) (s : sys_heap_t) (size : Z) : option (sys_heap_t * Z * list Z) :=
  if size =? 0 then Some (s, 0, answers)
  else
    let size := block_size size in
    if is_large size then
      let size := sys_memory_align_up_address size in
      match answers with
      | [] => None
      | header :: answers => Some (_heap_block_header_init size 0 (Z.lor SYS_HEAP_BLOCK_HEADER_FLAG_USED SYS_HEAP_BLOCK_HEADER_FLAG_DEDICATED) s header, header + sizeof_header, answers)
      end
    else
      i ← _get_bucket_index size;
      '(s, answers) ← (if Z.shiftr (bucket_bitmap s) i =? 0 then match answers with [] => None | data :: answers => s ← _grow_heap s data; Some (s, answers) end else Some (s, answers));
      '(s, header, answers) ← choose_block answers s i size;
      s ← carve_block s header size;
      Some (s, header + sizeof_header, answers).

(** The header of a pointer: its [offset] is stored right in front of it, at the end of the header. *)
Definition header_of (s : sys_heap_t) (ptr : Z) : option Z := h ← headers s !! (ptr - sizeof_header); Some (ptr - offset h).

(** Joining a free block [header] with the block behind it if that is free too. *)
Definition merge_next (s : sys_heap_t) (header : Z) : option sys_heap_t :=
  h ← headers s !! header;
  let next_header := header + _heap_block_header_get_size h in
  n ← headers s !! next_header;
  if is_used n then Some s
  else
    s ← _remove_block s next_header;
    s ← update s header (fun h => set_size (u64 (size_and_flags h + _heap_block_header_get_size n)) h);
    h ← headers s !! header;
    update s (next_header + _heap_block_header_get_size n) (set_prev_size (_heap_block_header_get_size h)).

(** The header goes with the memory of a large block. *)
Definition sys_memory_unmap (s : sys_heap_t) (header : Z) : sys_heap_t := Heap (buckets s) (bucket_bitmap s) (delete header (headers s)) (memory s).

(** The test whether the previous block is free has an empty body. *)
Definition sys_heap_dealloc (s : sys_heap_t) (ptr : Z) : option sys_heap_t :=
  if ptr =? 0 then Some s
  else
    header ← header_of s ptr;
    h ← headers s !! header;
    if is_dedicated h then Some (sys_memory_unmap s header)
    else
      s ← update s header (fun h => set_size (Z.land (size_and_flags h) (lnot_w 64 SYS_HEAP_BLOCK_HEADER_FLAG_USED)) h);
      s ← merge_next s header;
      _insert_block s header.

Definition sys_memory_copy (s : sys_heap_t) (src dst length : Z) : sys_heap_t :=
  Heap (buckets s) (bucket_bitmap s) (headers s) (mem_write (memory s) dst (mem_read (memory s) src length)).

Inductive realloc_result := Moved (s : sys_heap_t) (ptr : Z) (answers : list Z) | Stops.

Definition moved (r : sys_heap_t * Z * list Z) : realloc_result := let '(s, ptr, answers) := r in Moved s ptr answers.

Definition sys_heap_realloc (answers : list Z) (s : sys_heap_t) (ptr size : Z) : option realloc_result :=
  if ptr =? 0 then moved <$> sys_heap_alloc answers s size
  else if size =? 0 then s ← sys_heap_dealloc s ptr; Some (Moved s 0 answers)
  else
    let size := block_size size in
    header ← header_of s ptr;
    h ← headers s !! header;
    let old := _heap_block_header_get_size h in
    if is_large size then
      let size := sys_memory_align_up_address size in
      if old =? size then Some (Moved s ptr answers)
      else if size <? old then Some Stops
      else
        match answers with
        | [] => None
        | new_header :: answers =>
          let s := _heap_block_header_init size 0 (Z.lor SYS_HEAP_BLOCK_HEADER_FLAG_USED SYS_HEAP_BLOCK_HEADER_FLAG_DEDICATED) s new_header in
          let s := sys_memory_copy s ptr (new_header + sizeof_header) (old - sizeof_header) in
          s ← sys_heap_dealloc s ptr;
          Some (Moved s (new_header + sizeof_header) answers)
        end
    else if is_dedicated h then
      let size := size - sizeof_header in
      '(s, out, answers) ← sys_heap_alloc answers s size;
      Some (Moved (sys_memory_unmap (sys_memory_copy s ptr out size) header) out answers)
    else if old =? size then Some (Moved s ptr answers)
    else
      let next_header := header + old in
      if size <? old then
        let extra_space := old - size in
        if extra_space <=? sizeof_header then Some (Moved s ptr answers)
        else
          s ← update s next_header (set_prev_size extra_space);
          s ← update s header (set_size (Z.lor size SYS_HEAP_BLOCK_HEADER_FLAG_USED));
          let s := _heap_block_header_init extra_space size 0 s (header + size) in
          s ← merge_next s (header + size);
          s ← _insert_block s (header + size);
          Some (Moved s ptr answers)
      else
        '(s, out, answers) ← sys_heap_alloc answers s (size - sizeof_header);
        let s := sys_memory_copy s ptr out (old - sizeof_header) in
        s ← sys_heap_dealloc s ptr;
        Some (Moved s out answers).
