(* ===== verification/HeapSpec.v ===== *)
(** * What the heap promises
    The blocks of a heap tile its arenas; the free ones are in the lists.  An
    allocation returns memory that no other allocation uses, releasing gives
    it back, and the contents of the other allocations do not change.  This
    file holds the lists of free blocks and the invariant. *)
From stdpp Require Import base tactics list numbers option gmap fin_maps.
From Stdlib Require Import ZArith Lia.
From S2P Require Import Prelude Heap.
#[local] Open Scope Z_scope.

(** ** Sizes and flags *)

Inductive kind := Free | Used | Fence | Last | Dedicated.

#[export] Instance kind_eq_dec : EqDecision kind.
Proof. solve_decision. Defined.

Definition flag (k : kind) : Z := match k with Free => 0 | Dedicated => 3 | _ => 1 end.

Definition sized (sz : Z) : Prop := 0 <= sz < 2 ^ 63 /\ sz mod 16 = 0.

Lemma lor_flag sz f : sized sz -> 0 <= f < 16 -> Z.lor sz f = sz + f.
Proof.
  intros [Hr Hm] Hf. pose proof (lor_shiftl_add (sz / 16) f 4 ltac:(lia) ltac:(lia)) as H. rewrite Z.shiftl_mul_pow2 in H by lia. change (2 ^ 4) with 16 in H. replace (sz / 16 * 16) with sz in H by (pose proof (Z.div_mod sz 16); lia). done.
Qed.

Lemma flag_range k : 0 <= flag k < 16.
Proof. destruct k; cbn; lia. Qed.

Lemma get_size_ok h sz k : size_and_flags h = sz + flag k -> sized sz -> _heap_block_header_get_size h = sz.
Proof.
  intros E [Hr Hm]. unfold _heap_block_header_get_size. rewrite E. change (u64 (- SYS_HEAP_MIN_ALIGNMENT)) with (u64 (- 2 ^ 4)). pose proof (flag_range k). rewrite land_round_down by lia. change (2 ^ 4) with 16. pose proof (Z.div_mod sz 16 ltac:(lia)). replace (sz + flag k) with (flag k + sz / 16 * 16) by lia. rewrite Z.div_add, Z.div_small by lia. lia.
Qed.

Lemma land_low16 x n : 0 <= n < 16 -> Z.land x n = Z.land (x mod 16) n.
Proof. intros H. change 16 with (2 ^ 4). rewrite <- Z.land_ones by lia. rewrite <- Z.land_assoc. f_equal. change (Z.ones 4) with 15. rewrite Z.land_comm. change 15 with (Z.ones 4). rewrite Z.land_ones by lia. symmetry. by apply Z.mod_small. Qed.

Lemma flag_mod sz k : sz mod 16 = 0 -> (sz + flag k) mod 16 = flag k.
Proof. intros H. pose proof (flag_range k). rewrite Z.add_mod, H, Z.add_0_l, Z.mod_mod by lia. by apply Z.mod_small. Qed.

Lemma header_used_ok h sz k : size_and_flags h = sz + flag k -> sized sz -> is_used h = bool_decide (k <> Free).
Proof. intros E [_ Hm]. unfold is_used, SYS_HEAP_BLOCK_HEADER_FLAG_USED. rewrite E, land_low16, flag_mod by (done || lia). by destruct k. Qed.

Lemma is_dedicated_ok h sz k : size_and_flags h = sz + flag k -> sized sz -> is_dedicated h = bool_decide (k = Dedicated).
Proof. intros E [_ Hm]. unfold is_dedicated, SYS_HEAP_BLOCK_HEADER_FLAG_DEDICATED. rewrite E, land_low16, flag_mod by (done || lia). by destruct k. Qed.

Lemma clear_used sz : sized sz -> Z.land (sz + 1) (lnot_w 64 SYS_HEAP_BLOCK_HEADER_FLAG_USED) = sz.
Proof.
  intros [Hr Hm]. change (lnot_w 64 SYS_HEAP_BLOCK_HEADER_FLAG_USED) with (u64 (- 2 ^ 1)). rewrite land_round_down by lia. change (2 ^ 1) with 2. pose proof (Z.div_mod sz 16 ltac:(lia)). replace (sz + 1) with (1 + sz / 16 * 8 * 2) by lia. rewrite Z.div_add, Z.div_small by lia. lia.
Qed.

Definition idx (sz : Z) : Z := Z.min 11 (Z.log2 (sz / 16)).

Lemma index_ok sz : 16 <= sz < 2 ^ 36 -> _get_bucket_index sz = Some (idx sz) /\ 0 <= idx sz < 12.
Proof.
  intros H. unfold _get_bucket_index, idx, SYS_HEAP_MIN_ALIGNMENT, SYS_HEAP_BUCKET_COUNT. assert (Hd : 1 <= sz / 16 < 2 ^ 32) by (split; [apply Z.div_le_lower_bound; lia | apply Z.div_lt_upper_bound; lia]). rewrite u32_id by lia. destruct (Z.eqb_spec (sz / 16) 0); [lia|]. pose proof (Z.log2_nonneg (sz / 16)).
  split; [| lia]. f_equal. destruct (Z.leb_spec 12 (Z.log2 (sz / 16))); lia.
Qed.

(** A block of a list further up is large enough. *)
Lemma idx_fits size sz : 0 < size -> sz mod 16 = 0 -> size mod 16 = 0 -> 16 <= size < 2 ^ 16 -> 16 <= sz -> idx size < idx sz -> size <= sz.
Proof.
  intros H0 Hm Hm' Hs Hz Hi. unfold idx in Hi. assert (Hl : Z.log2 (size / 16) < Z.log2 (sz / 16)) by lia. apply Z.log2_lt_cancel in Hl. pose proof (Z.div_mod size 16 ltac:(lia)). pose proof (Z.div_mod sz 16 ltac:(lia)). lia.
Qed.

(** ** Lists *)

Fixpoint dll (H : gmap Z sys_heap_block_header_t) (p a : Z) (l : list Z) : Prop :=
  match l with
  | [] => a = 0
  | m :: l => a = m /\ m <> 0 /\ exists h, H !! m = Some h /\ prev h = p /\ dll H m (next h) l
  end.

Definition links (h : sys_heap_block_header_t) : Z * Z := (prev h, next h).
Definition core (h : sys_heap_block_header_t) : Z * Z := (size_and_flags h, offset h).

Record lists (s : sys_heap_t) (F : Z -> list Z) : Prop := {
  ls_buckets : length (buckets s) = 12%nat;
  ls_bitmap : 0 <= bucket_bitmap s < 2 ^ 12;
  ls_bit : forall i, 0 <= i < 12 -> Z.testbit (bucket_bitmap s) i = bool_decide (F i <> []);
  ls_dll : forall i, 0 <= i < 12 -> dll (headers s) 0 (bucket s i) (F i);
  ls_nodup : forall i, 0 <= i < 12 -> NoDup (F i);
  ls_unique : forall i j a, 0 <= i < 12 -> 0 <= j < 12 -> a ∈ F i -> a ∈ F j -> i = j
}.

Definition upd (F : Z -> list Z) (i : Z) (l : list Z) : Z -> list Z := fun j => if decide (j = i) then l else F j.

Lemma upd_here F i l : upd F i l i = l.
Proof. unfold upd. by destruct (decide (i = i)). Qed.
Lemma upd_other F i l j : j <> i -> upd F i l j = F j.
Proof. intros H. unfold upd. by destruct (decide (j = i)). Qed.

Lemma links_Some (H H' : gmap Z sys_heap_block_header_t) m h : links <$> H' !! m = links <$> H !! m -> H !! m = Some h -> exists h', H' !! m = Some h' /\ prev h' = prev h /\ next h' = next h.
Proof. intros E Eh. rewrite Eh in E. destruct (H' !! m) as [h' |]; [| done]. injection E as E1 E2. by exists h'. Qed.

Lemma dll_frame H H' p a l : dll H p a l -> (forall m, m ∈ l -> links <$> H' !! m = links <$> H !! m) -> dll H' p a l.
Proof.
  revert p a. induction l as [| m l IH]; intros p a; [done|]. cbn. intros (-> & Hm & h & Eh & Hp & Hl) Hf. destruct (links_Some H H' m h) as (h' & Eh' & Hp' & Hn'); [apply Hf; left | done |]. split; [done|]. split; [done|]. exists h'. split; [done|]. split; [congruence|]. rewrite Hn'. apply IH; [done|]. intros m' Hm'. apply Hf. by right.
Qed.

(** The lists do not change with what is not in them. *)
Lemma lists_frame s s' F : lists s F -> buckets s' = buckets s -> bucket_bitmap s' = bucket_bitmap s -> (forall i m, 0 <= i < 12 -> m ∈ F i -> links <$> headers s' !! m = links <$> headers s !! m) -> lists s' F.
Proof.
  intros [H1 H2 H3 H4 H5 H6] Hb Hm Hf. split; rewrite ?Hb, ?Hm; try done. intros i Hi. unfold bucket. rewrite Hb. eapply dll_frame; [by apply H4|]. intros m. by apply Hf.
Qed.

Lemma update_header s a f h : headers s !! a = Some h -> update s a f = Some (Heap (buckets s) (bucket_bitmap s) (<[a := f h]> (headers s)) (memory s)).
Proof. unfold update. by intros ->. Qed.

Lemma bucket_set s i a b j : length (buckets s) = 12%nat -> 0 <= i < 12 -> 0 <= j < 12 -> bucket (set_bucket s i a b) j = (if decide (j = i) then a else bucket s j).
Proof.
  intros Hl Hi Hj. unfold bucket, set_bucket. cbn [buckets]. destruct (decide (j = i)) as [-> | Hne]; rewrite !nth_lookup; [rewrite list_lookup_insert_eq by lia; done | rewrite list_lookup_insert_ne by lia; done].
Qed.

(** A state that differs in the links of headers only. *)
Record relinked (s s' : sys_heap_t) : Prop := {
  rl_memory : memory s' = memory s;
  rl_core : forall a, core <$> headers s' !! a = core <$> headers s !! a
}.

Lemma relinked_update s a f h : headers s !! a = Some h -> core (f h) = core h -> relinked s (Heap (buckets s) (bucket_bitmap s) (<[a := f h]> (headers s)) (memory s)).
Proof. intros E Ec. split; [done|]. intros b. cbn [headers]. destruct (decide (b = a)) as [-> | Hb]; [rewrite lookup_insert_eq, E; cbn; by f_equal | by rewrite lookup_insert_ne]. Qed.

#[export] Instance relinked_preorder : PreOrder relinked.
Proof. split; [by split|]. intros s1 s2 s3 [H1 H2] [H3 H4]. split; [congruence|]. intros a. by rewrite H4, H2. Qed.

Lemma bit_set b i j : 0 <= b < 2 ^ 12 -> 0 <= i < 12 -> 0 <= j -> Z.testbit (u16 (Z.lor b (Z.shiftl 1 i))) j = (if decide (j = i) then true else Z.testbit b j).
Proof.
  intros Hb Hi Hj. unfold u16, wrap. destruct (Z.lt_ge_cases j 16).
  - rewrite Z.mod_pow2_bits_low, Z.lor_spec, Z.shiftl_1_l, Z.pow2_bits_eqb by lia. destruct (decide (j = i)) as [-> | Hne]; [rewrite Z.eqb_refl; apply orb_true_r|]. rewrite (proj2 (Z.eqb_neq i j)) by lia. apply orb_false_r.
  - rewrite Z.mod_pow2_bits_high by lia. destruct (decide (j = i)); [lia|]. symmetry. apply (word_high 12); [done | lia].
Qed.

Lemma bit_clear b i j : 0 <= b < 2 ^ 12 -> 0 <= i < 12 -> 0 <= j -> Z.testbit (Z.land b (lnot_w 16 (Z.shiftl 1 i))) j = (if decide (j = i) then false else Z.testbit b j).
Proof.
  intros Hb Hi Hj. rewrite Z.land_spec. destruct (Z.lt_ge_cases j 16).
  - rewrite lnot_testbit by lia. rewrite Z.shiftl_1_l, Z.pow2_bits_eqb by lia. destruct (decide (j = i)) as [-> | Hne]; [rewrite Z.eqb_refl; apply andb_false_r|]. rewrite (proj2 (Z.eqb_neq i j)) by lia. apply andb_true_r.
  - rewrite (word_high 12 b j) by (done || lia). destruct (decide (j = i)); [lia | done].
Qed.

Lemma bits_range b : (forall j, 12 <= j -> Z.testbit b j = false) -> 0 <= b < 2 ^ 12.
Proof. intros H. by apply width_of_bits. Qed.

(** ** Inserting and removing *)

Lemma insert_block_ok s F a h sz k : lists s F -> headers s !! a = Some h -> a <> 0 -> size_and_flags h = sz + flag k -> sized sz -> 16 <= sz < 2 ^ 36 -> (forall j, 0 <= j < 12 -> a ∉ F j) ->
  exists s', _insert_block s a = Some s' /\ lists s' (upd F (idx sz) (a :: F (idx sz))) /\ relinked s s'.
Proof.
  intros Hl Eh Ha Hsz Hs Hr Hn. destruct (index_ok sz Hr) as [Hix Hi]. set (i := idx sz) in *. unfold _insert_block. rewrite Eh. cbn [mbind option_bind]. rewrite (get_size_ok h sz k Hsz Hs), Hix. cbn [mbind option_bind].
  rewrite (update_header s a _ h Eh). cbn [mbind option_bind]. set (g := set_next (bucket s i) (set_prev 0 h)). set (H1 := <[a := g]> (headers s)). pose proof (ls_dll _ _ Hl i Hi) as Hd. pose proof (ls_buckets _ _ Hl) as Hlen.
  assert (Hrl : relinked s (Heap (buckets s) (bucket_bitmap s) H1 (memory s))) by (unfold H1; by apply (relinked_update s a (fun _ => g) h)).
  assert (Hout : forall j m, 0 <= j < 12 -> m ∈ F j -> m <> a) by (intros j m Hj Hm ->; by apply (Hn j Hj)).
  destruct (F i) as [| f l] eqn:EF; cbn [dll] in Hd.
  - rewrite Hd. cbn [Z.eqb negb]. eexists. split; [done|]. split; [| by transitivity (Heap (buckets s) (bucket_bitmap s) H1 (memory s))]. cbn [bucket_bitmap]. split; cbn [set_bucket buckets bucket_bitmap headers].
    + by rewrite length_insert.
    + apply bits_range. intros j Hj. rewrite bit_set by (apply Hl || lia). destruct (decide (j = i)); [lia|]. apply (word_high 12); [apply Hl | done].
    + intros j Hj. rewrite bit_set by (apply Hl || lia). destruct (decide (j = i)) as [-> | Hne]; [by rewrite upd_here|]. rewrite upd_other by done. by apply Hl.
    + intros j Hj. change (Heap (<[Z.to_nat i := a]> (buckets s)) (u16 (Z.lor (bucket_bitmap s) (Z.shiftl 1 i))) H1 (memory s)) with (set_bucket (Heap (buckets s) (bucket_bitmap s) H1 (memory s)) i a (u16 (Z.lor (bucket_bitmap s) (Z.shiftl 1 i)))). rewrite bucket_set by done. destruct (decide (j = i)) as [-> | Hne].
      * rewrite upd_here. cbn [dll]. split; [done|]. split; [done|]. exists g. split; [unfold H1; by rewrite lookup_insert_eq|]. split; [done|]. unfold g. cbn. done.
      * rewrite upd_other by done. eapply dll_frame; [by apply Hl|]. intros m Hm. unfold H1. by rewrite lookup_insert_ne by (apply not_eq_sym; by eapply Hout).
    + intros j Hj. destruct (decide (j = i)) as [-> | Hne]; [rewrite upd_here; apply NoDup_singleton | rewrite upd_other by done; by apply Hl].
    + intros j j' m Hj Hj'. destruct (decide (j = i)) as [-> | Hne], (decide (j' = i)) as [-> | Hne']; rewrite ?upd_here, ?upd_other by done; try done; [intros ->%list_elem_of_singleton Hm | intros Hm ->%list_elem_of_singleton | by apply Hl]; exfalso; by eapply Hn; [| exact Hm].
  - destruct Hd as (Hf & Hf0 & hf & Ehf & Hpf & Hdl). rewrite Hf. destruct (Z.eqb_spec f 0); [done|]. cbn [negb]. assert (Hfa : f <> a) by (apply (Hout i); [done | rewrite EF; left]).
    rewrite (update_header _ f _ hf) by (cbn [headers]; unfold H1; by rewrite lookup_insert_ne). cbn [mbind option_bind buckets bucket_bitmap headers memory]. eexists. split; [done|]. set (H2 := <[f := set_prev a hf]> H1).
    assert (Hrl2 : relinked s (Heap (buckets s) (bucket_bitmap s) H2 (memory s))).
    { transitivity (Heap (buckets s) (bucket_bitmap s) H1 (memory s)); [done|]. unfold H2. apply (relinked_update (Heap (buckets s) (bucket_bitmap s) H1 (memory s)) f (set_prev a) hf); [cbn [headers]; unfold H1; by rewrite lookup_insert_ne | done]. }
    split; [| by transitivity (Heap (buckets s) (bucket_bitmap s) H2 (memory s))]. pose proof (ls_nodup _ _ Hl i Hi) as Hnd. rewrite EF in Hnd. split; cbn [set_bucket buckets bucket_bitmap headers].
    + by rewrite length_insert.
    + apply Hl.
    + intros j Hj. rewrite (ls_bit _ _ Hl j Hj). destruct (decide (j = i)) as [-> | Hne]; [by rewrite upd_here, EF | by rewrite upd_other].
    + intros j Hj. change (Heap (<[Z.to_nat i := a]> (buckets s)) (bucket_bitmap s) H2 (memory s)) with (set_bucket (Heap (buckets s) (bucket_bitmap s) H2 (memory s)) i a (bucket_bitmap s)). rewrite bucket_set by done. destruct (decide (j = i)) as [-> | Hne].
      * rewrite upd_here. cbn [dll]. split; [done|]. split; [done|]. exists g. split; [unfold H2; rewrite lookup_insert_ne by done; unfold H1; by rewrite lookup_insert_eq|]. split; [done|]. unfold g. cbn [next set_next]. split; [done|]. split; [done|]. exists (set_prev a hf). split; [unfold H2; by rewrite lookup_insert_eq|]. split; [done|]. cbn [next set_prev]. eapply dll_frame; [exact Hdl|].
        intros m Hm. apply NoDup_cons in Hnd as [Hfn _]. unfold H2, H1. rewrite !lookup_insert_ne; [done | apply not_eq_sym; apply (Hout i); [done | rewrite EF; by right] | intros ->; done].
      * rewrite upd_other by done. eapply dll_frame; [by apply Hl|]. intros m Hm. unfold H2, H1. rewrite !lookup_insert_ne; [done | apply not_eq_sym; by eapply Hout | intros ->; apply Hne; apply (ls_unique _ _ Hl j i m Hj Hi Hm); rewrite EF; left].
    + intros j Hj. destruct (decide (j = i)) as [-> | Hne]; [rewrite upd_here; apply NoDup_cons; split; [rewrite <- EF; by apply Hn | done] | rewrite upd_other by done; by apply Hl].
    + intros j j' m Hj Hj' Hm Hm'. destruct (decide (m = a)) as [-> | Hma].
      * destruct (decide (j = i)) as [-> | Hne]; [| rewrite upd_other in Hm by done; by destruct (Hn j Hj)]. destruct (decide (j' = i)) as [-> | Hne']; [done | rewrite upd_other in Hm' by done; by destruct (Hn j' Hj')].
      * assert (Hin : forall q, 0 <= q < 12 -> m ∈ upd F i (a :: f :: l) q -> m ∈ F q) by (intros q Hq Hmq; destruct (decide (q = i)) as [-> | Hq']; [rewrite upd_here in Hmq; rewrite EF; apply elem_of_cons in Hmq as [? | ?]; done | by rewrite upd_other in Hmq]).
        by apply (ls_unique _ _ Hl j j' m); [done | done | apply Hin | apply Hin].
Qed.

(** The headers around a block that is taken out of its list. *)
Definition unlink_next (h : sys_heap_block_header_t) (l2 : list Z) (H : gmap Z sys_heap_block_header_t) : gmap Z sys_heap_block_header_t :=
  match l2 with [] => H | b :: _ => alter (set_prev (prev h)) b H end.
Definition unlink_prev (h : sys_heap_block_header_t) (l1 : list Z) (H : gmap Z sys_heap_block_header_t) : gmap Z sys_heap_block_header_t :=
  match last l1 with None => H | Some c => alter (set_next (next h)) c H end.

Lemma alter_insert (H : gmap Z sys_heap_block_header_t) f a h : H !! a = Some h -> <[a := f h]> H = alter f a H.
Proof. intros E. apply map_eq. intros b. destruct (decide (b = a)) as [-> | Hb]; [by rewrite lookup_insert_eq, lookup_alter_eq, E | by rewrite lookup_insert_ne, lookup_alter_ne]. Qed.

Lemma unlink_next_ne h l2 H m : m ∉ l2 -> unlink_next h l2 H !! m = H !! m.
Proof. destruct l2 as [| b l2]; [done|]. intros [Hb _]%not_elem_of_cons. cbn. by rewrite lookup_alter_ne. Qed.

Lemma unlink_prev_ne h l1 H m : m ∉ l1 -> unlink_prev h l1 H !! m = H !! m.
Proof. unfold unlink_prev. destruct (last l1) as [c |] eqn:E; [| done]. intros Hm. rewrite lookup_alter_ne; [done|]. intros ->. apply Hm. by apply last_Some_elem_of. Qed.

(** Where a block stands in its list. *)
Lemma dll_middle H p x l1 a l2 : dll H p x (l1 ++ a :: l2) -> exists h, H !! a = Some h /\ prev h = default p (last l1) /\ next h = default 0 (head l2) /\ (forall m, m ∈ l1 ++ a :: l2 -> m <> 0).
Proof.
  revert p x. induction l1 as [| c l1 IH]; intros p x; cbn [app dll].
  - intros (-> & Ha & h & Eh & Hp & Hl). exists h. split; [done|]. split; [done|]. destruct l2 as [| b l2]; cbn [dll] in Hl; [split; [done|]; intros m ->%list_elem_of_singleton; done|]. destruct Hl as (Hb & Hb0 & hb & Eb & _ & Hl). split; [done|].
    intros m [-> | [-> | Hm]%elem_of_cons]%elem_of_cons; [done | done |]. clear -Hl Hm. revert b hb Hl. induction l2 as [| q l2 IH]; intros b hb Hl; [by apply not_elem_of_nil in Hm|]. cbn [dll] in Hl. destruct Hl as (_ & Hq & hq & _ & _ & Hl). apply elem_of_cons in Hm as [-> | Hm]; [done|]. by eapply (IH Hm q hq).
  - intros (-> & Hc & hc & Ec & Hp & Hl). destruct (IH _ _ Hl) as (h & Eh & Hph & Hnh & Hne). exists h. split; [done|]. split; [| split; [done|]; intros m [-> | Hm]%elem_of_cons; [done | by apply Hne]]. rewrite Hph, last_cons. by destruct (last l1).
Qed.

Lemma dll_remove H p x l1 a l2 h : dll H p x (l1 ++ a :: l2) -> NoDup (l1 ++ a :: l2) -> H !! a = Some h ->
  dll (unlink_prev h l1 (unlink_next h l2 H)) p (if decide (l1 = []) then next h else x) (l1 ++ l2).
Proof.
  intros Hd Hn Eh. revert p x Hd Hn. induction l1 as [| c l1 IH]; intros p x Hd Hn; cbn [app dll] in *.
  - destruct Hd as (-> & Ha & h' & Eh' & Hp & Hl). rewrite Eh in Eh'. injection Eh' as <-. destruct (decide ([] = [])); [| done]. change (unlink_prev h [] (unlink_next h l2 H)) with (unlink_next h l2 H). apply NoDup_cons in Hn as [_ Hn]. destruct l2 as [| b l2]; [done|]. cbn [dll unlink_next] in *.
    destruct Hl as (-> & Hb & hb & Eb & _ & Hl). apply NoDup_cons in Hn as [Hbn _]. split; [done|]. split; [done|]. exists (set_prev (prev h) hb). split; [by rewrite lookup_alter_eq, Eb|]. split; [done|]. cbn [next set_prev]. eapply dll_frame; [exact Hl|]. intros m Hm. rewrite lookup_alter_ne; [done | intros ->; done].
  - destruct Hd as (-> & Hc & hc & Ec & Hp & Hl). apply NoDup_cons in Hn as [Hcn Hn]. assert (Hc12 : (c ∉ l1) /\ (c ∉ l2)) by (rewrite not_elem_of_app, not_elem_of_cons in Hcn; tauto). destruct Hc12 as [Hc1 Hc2]. destruct (decide (c :: l1 = [])); [done|]. split; [done|]. split; [done|]. specialize (IH _ _ Hl Hn). destruct l1 as [| d l1].
    + destruct (decide ([] = [])); [| done]. change (unlink_prev h [] (unlink_next h l2 H)) with (unlink_next h l2 H) in IH. change (unlink_prev h [c] (unlink_next h l2 H)) with (alter (set_next (next h)) c (unlink_next h l2 H)). exists (set_next (next h) hc). split; [rewrite lookup_alter_eq, unlink_next_ne, Ec by done; done|]. split; [done|]. cbn [next set_next]. eapply dll_frame; [exact IH|]. intros m Hm. rewrite lookup_alter_ne; [done | intros ->; done].
    + destruct (decide (d :: l1 = [])); [done|]. change (unlink_prev h (c :: d :: l1) (unlink_next h l2 H)) with (unlink_prev h (d :: l1) (unlink_next h l2 H)). exists hc. split; [by rewrite unlink_prev_ne, unlink_next_ne by done|]. split; [done|]. exact IH.
Qed.

Lemma core_unlink h l1 l2 H m : core <$> unlink_prev h l1 (unlink_next h l2 H) !! m = core <$> H !! m.
Proof.
  assert (Ha : forall f b G, (forall x, core (f x) = core x) -> core <$> (alter f b G : gmap Z sys_heap_block_header_t) !! m = core <$> G !! m).
  { intros f b G Hf. destruct (decide (m = b)) as [-> | Hm]; [rewrite lookup_alter_eq; destruct (G !! b); [cbn; f_equal; apply Hf | done] | by rewrite lookup_alter_ne]. }
  unfold unlink_prev, unlink_next. destruct (last l1), l2; rewrite ?Ha; done.
Qed.

Lemma remove_block_ok s F a h sz k l1 l2 : lists s F -> headers s !! a = Some h -> size_and_flags h = sz + flag k -> sized sz -> 16 <= sz < 2 ^ 36 -> F (idx sz) = l1 ++ a :: l2 ->
  exists s', _remove_block s a = Some s' /\ lists s' (upd F (idx sz) (l1 ++ l2)) /\ relinked s s'.
Proof.
  intros Hl Eh Hsz Hs Hr EF. destruct (index_ok sz Hr) as [Hix Hi]. set (i := idx sz) in *. unfold _remove_block. rewrite Eh. cbn [mbind option_bind]. rewrite (get_size_ok h sz k Hsz Hs), Hix. cbn [mbind option_bind].
  pose proof (ls_dll _ _ Hl i Hi) as Hd. rewrite EF in Hd. pose proof (ls_nodup _ _ Hl i Hi) as Hn. rewrite EF in Hn. pose proof (dll_remove _ _ _ _ _ _ h Hd Hn Eh) as Hd'. destruct (dll_middle _ _ _ _ _ _ Hd) as (h' & Eh' & Hp & Hnx & Hne). rewrite Eh in Eh'. injection Eh' as <-.
  set (H2 := unlink_prev h l1 (unlink_next h l2 (headers s))) in *. pose proof (ls_buckets _ _ Hl) as Hlen.
  assert (Hnd : NoDup (l1 ++ l2)) by (apply NoDup_app in Hn as (H1 & Hd1 & H3); apply NoDup_cons in H3 as [_ H3]; apply NoDup_app; split; [done|]; split; [| done]; intros m Hm Hm2; apply (Hd1 m Hm); by right).
  assert (Hfr : forall j m, 0 <= j < 12 -> j <> i -> m ∈ F j -> H2 !! m = headers s !! m).
  { intros j m Hj Hji Hm. unfold H2. assert (Hm' : m ∉ F i) by (intros Hm'; apply Hji; by apply (ls_unique _ _ Hl j i m)). rewrite EF, not_elem_of_app, not_elem_of_cons in Hm'. destruct Hm' as (Hm1 & _ & Hm2). by rewrite unlink_prev_ne, unlink_next_ne. }
  assert (Hs1 : (if negb (next h =? 0) then update s (next h) (set_prev (prev h)) else Some s) = Some (Heap (buckets s) (bucket_bitmap s) (unlink_next h l2 (headers s)) (memory s))).
  { rewrite Hnx. destruct l2 as [| b l2]; cbn [head default Z.eqb negb from_option]; [by destruct s|]. unfold id. destruct (Z.eqb_spec b 0) as [E | E]; [exfalso; apply (Hne b); [apply elem_of_app; right; right; left | done]|]. cbn [negb].
    assert (exists hb, headers s !! b = Some hb) as [hb Eb]. { destruct (dll_middle (headers s) 0 (bucket s i) (l1 ++ [a]) b l2) as (hb & Eb & _); [by rewrite <- (assoc_L (++))|]. by exists hb. }
    rewrite (update_header _ _ _ hb Eb). cbn [unlink_next]. by rewrite (alter_insert _ _ _ _ Eb). }
  rewrite Hs1. cbn [mbind option_bind]. assert (Hrl : forall b m, relinked s (Heap b m H2 (memory s))) by (intros b m; split; [done | intros q; apply core_unlink]).
  assert (Hin : forall q m, m ∈ upd F i (l1 ++ l2) q -> m ∈ F q) by (intros q m; destruct (decide (q = i)) as [-> | Hq]; [rewrite upd_here, EF, !elem_of_app, elem_of_cons; tauto | by rewrite upd_other]).
  assert (Hu : forall j j' m, 0 <= j < 12 -> 0 <= j' < 12 -> m ∈ upd F i (l1 ++ l2) j -> m ∈ upd F i (l1 ++ l2) j' -> j = j') by (intros j j' m Hj Hj' H1 H3; apply (ls_unique _ _ Hl j j' m); [done | done | by apply Hin | by apply Hin]).
  assert (Hndj : forall j, 0 <= j < 12 -> NoDup (upd F i (l1 ++ l2) j)) by (intros j Hj; destruct (decide (j = i)) as [-> | Hq]; [by rewrite upd_here | rewrite upd_other by done; by apply Hl]).
  destruct (last l1) as [c |] eqn:El.
  - assert (Hl1 : l1 <> []) by by intros ->. destruct (decide (l1 = [])); [done|]. rewrite Hp. cbn [default from_option]. unfold id. assert (Hcin : c ∈ l1) by by apply last_Some_elem_of. destruct (Z.eqb_spec c 0) as [E | E]; [exfalso; apply (Hne c); [apply elem_of_app; by left | done]|]. cbn [negb id].
    assert (exists hc, unlink_next h l2 (headers s) !! c = Some hc) as [hc Ec].
    { apply list_elem_of_split in Hcin as (la & lb & E1). destruct (dll_middle (headers s) 0 (bucket s i) la c (lb ++ a :: l2)) as (hc & Ec & _); [by rewrite E1, <- (assoc_L (++)) in Hd|]. exists hc. rewrite unlink_next_ne; [done|]. intros Hc2. apply NoDup_app in Hn as (_ & Hd1 & _). apply (Hd1 c); [rewrite E1; apply elem_of_app; right; left | by right]. }
    rewrite (update_header _ _ _ hc) by exact Ec. cbn [buckets bucket_bitmap headers memory]. rewrite (alter_insert _ _ _ _ Ec). assert (EH2 : alter (set_next (next h)) c (unlink_next h l2 (headers s)) = H2) by (unfold H2, unlink_prev; by rewrite El). rewrite EH2. eexists. split; [done|]. split; [| apply Hrl].
    split; cbn [buckets bucket_bitmap headers]; [done | apply Hl | | | done | done].
    + intros j Hj. rewrite (ls_bit _ _ Hl j Hj). destruct (decide (j = i)) as [-> | Hq]; [rewrite upd_here, EF | by rewrite upd_other]. apply bool_decide_ext. split; intros _; destruct l1; done.
    + intros j Hj. destruct (decide (j = i)) as [-> | Hq]; [rewrite upd_here; exact Hd'|]. rewrite upd_other by done. eapply dll_frame; [by apply (ls_dll _ _ Hl j)|]. intros m Hm. by rewrite (Hfr j m).
  - apply last_None in El. subst l1. destruct (decide ([] = [])); [| done]. rewrite Hp. cbn [default from_option last Z.eqb negb bucket_bitmap]. change (unlink_next h l2 (headers s)) with H2. eexists. split; [done|]. split; [| apply (Hrl _ _)].
    split; [cbn; by rewrite length_insert | | | | done | done].
    + cbn [set_bucket bucket_bitmap]. destruct (next h =? 0); [| apply Hl]. apply bits_range. intros j Hj. rewrite bit_clear by (apply Hl || lia). destruct (decide (j = i)); [done|]. apply (word_high 12); [apply Hl | done].
    + intros j Hj. cbn [set_bucket bucket_bitmap]. cbn [app] in *. destruct (Z.eqb_spec (next h) 0) as [E | E].
      * rewrite bit_clear by (apply Hl || lia). destruct (decide (j = i)) as [-> | Hq]; [rewrite upd_here|rewrite upd_other by done; by apply Hl]. destruct l2 as [| b l2]; [done|]. exfalso. apply (Hne b); [right; left|]. rewrite Hnx in E. done.
      * rewrite (ls_bit _ _ Hl j Hj). destruct (decide (j = i)) as [-> | Hq]; [rewrite upd_here, EF | by rewrite upd_other]. destruct l2; [by rewrite Hnx in E | done].
    + intros j Hj. rewrite bucket_set by done. cbn [set_bucket headers]. destruct (decide (j = i)) as [-> | Hq]; [rewrite upd_here; exact Hd'|]. rewrite upd_other by done. eapply dll_frame; [by apply (ls_dll _ _ Hl j)|]. intros m Hm. by rewrite (Hfr j m).
Qed.

(** ** Blocks *)

(** [bbase]: the arena of the block.  The first and the last block of an arena are a [Fence] and the [Last]. *)
Record blk := Blk { bsize : Z; bkind : kind; bbase : Z }.

Definition inner (k : kind) : Prop := k <> Last /\ k <> Dedicated.
Definition live (k : kind) : Prop := k = Used \/ k = Dedicated.

Definition apart (a n c m : Z) : Prop := a + n <= c \/ c + m <= a.

Record shape (H : gmap Z sys_heap_block_header_t) (B : gmap Z blk) : Prop := {
  sh_core : forall a b, B !! a = Some b -> core <$> (H !! a) = Some (bsize b + flag (bkind b), sizeof_header);
  sh_addr : forall a b, B !! a = Some b -> 0 < a /\ a mod 16 = 0 /\ sized (bsize b) /\ 32 <= bsize b;
  sh_arena : forall a b, B !! a = Some b -> bkind b <> Dedicated -> bbase b <= a /\ a + bsize b <= bbase b + SYS_HEAP_GROW_SIZE;
  sh_min : forall a b, B !! a = Some b -> bkind b = Free \/ bkind b = Used -> 48 <= bsize b;
  sh_large : forall a b, B !! a = Some b -> bkind b = Dedicated -> 2 ^ 16 <= bsize b;
  sh_disj : forall a b c d, B !! a = Some b -> B !! c = Some d -> a <> c -> apart a (bsize b) c (bsize d);
  sh_succ : forall a b, B !! a = Some b -> inner (bkind b) -> exists n, B !! (a + bsize b) = Some n /\ bkind n <> Dedicated /\ bbase n = bbase b
}.

(** All free blocks but [x] are in the lists of their sizes. *)
Definition linked (B : gmap Z blk) (F : Z -> list Z) (x : Z) : Prop :=
  forall i a, 0 <= i < 12 -> a ∈ F i <-> a <> x /\ exists b, B !! a = Some b /\ bkind b = Free /\ idx (bsize b) = i.

Record inv (s : sys_heap_t) (B : gmap Z blk) (F : Z -> list Z) (x : Z) : Prop := {
  iv_shape : shape (headers s) B;
  iv_lists : lists s F;
  iv_linked : linked B F x
}.

(** The contents of the live blocks. *)
Definition keeps (B : gmap Z blk) (s s' : sys_heap_t) : Prop :=
  forall a b, B !! a = Some b -> live (bkind b) -> forall x, a + 32 <= x < a + bsize b -> memory s' x = memory s x.

(** The live blocks but [p] stay. *)
Definition stays (B B' : gmap Z blk) (p : Z) : Prop := forall a b, B !! a = Some b -> live (bkind b) -> a <> p -> B' !! a = Some b.

(** No block uses the memory from [a] on. *)
Definition unused (B : gmap Z blk) (a n : Z) : Prop := forall c d, B !! c = Some d -> apart a n c (bsize d).

(** An answer of [sys_memory_map]: pages that were not mapped. *)
Definition mapped (B : gmap Z blk) (a n : Z) : Prop := 0 < a /\ a mod 4096 = 0 /\ a + n <= 2 ^ 62 /\ unused B a n.

Lemma shape_frame H H' B : shape H B -> (forall a, is_Some (B !! a) -> core <$> (H' !! a) = core <$> (H !! a)) -> shape H' B.
Proof. intros [H1 H2 H3 H4 H5 H6 H7] Hf. split; try done. intros a b E. rewrite Hf by by eexists. by apply H1. Qed.

Lemma block_header s B F x a b : inv s B F x -> B !! a = Some b -> exists h, headers s !! a = Some h /\ size_and_flags h = bsize b + flag (bkind b) /\ offset h = sizeof_header.
Proof. intros Hi E. pose proof (sh_core _ _ (iv_shape _ _ _ _ Hi) a b E) as Hc. destruct (headers s !! a) as [h |]; [| done]. injection Hc as H1 H2. by exists h. Qed.

Lemma inner_bound H B a b : shape H B -> B !! a = Some b -> bkind b <> Dedicated -> 16 <= bsize b < 2 ^ 36.
Proof. intros Hs E Hk. destruct (sh_addr _ _ Hs a b E) as (_ & _ & _ & ?). destruct (sh_arena _ _ Hs a b E Hk). unfold SYS_HEAP_GROW_SIZE in *. lia. Qed.

(** A block that becomes free or used. *)
Lemma shape_kind H H' B a b k : shape H B -> B !! a = Some b -> bkind b = Free \/ bkind b = Used -> k = Free \/ k = Used -> core <$> (H' !! a) = Some (bsize b + flag k, sizeof_header) -> (forall c, c <> a -> core <$> (H' !! c) = core <$> (H !! c)) ->
  shape H' (<[a := Blk (bsize b) k (bbase b)]> B).
Proof.
  intros Hs E Hk Hk' Ha Hf. assert (Hb : forall c d, <[a := Blk (bsize b) k (bbase b)]> B !! c = Some d -> exists d0, B !! c = Some d0 /\ bsize d = bsize d0 /\ bbase d = bbase d0 /\ (bkind d = bkind d0 \/ c = a /\ d0 = b /\ bkind d = k)).
  { intros c d [[<- <-] | [Hne Ed]]%lookup_insert_Some; [exists b; split; [done|]; split; [done|]; split; [done|]; by right | exists d; split; [done|]; split; [done|]; split; [done|]; by left]. }
  assert (Hded : forall c d d0, <[a := Blk (bsize b) k (bbase b)]> B !! c = Some d -> B !! c = Some d0 -> bkind d <> Dedicated -> bkind d0 <> Dedicated).
  { intros c d d0 Ed E0 Hd. destruct (Hb c d Ed) as (d1 & E1 & _ & _ & [H1 | (_ & -> & H1)]); simplify_eq; [congruence | by destruct Hk as [-> | ->]]. }
  split.
  - intros c d [[<- <-] | [Hne Ed]]%lookup_insert_Some; [done|]. rewrite Hf by done. by apply (sh_core _ _ Hs).
  - intros c d Ed. destruct (Hb c d Ed) as (d0 & E0 & -> & _ & _). by apply (sh_addr _ _ Hs).
  - intros c d Ed Hd. destruct (Hb c d Ed) as (d0 & E0 & -> & -> & _). apply (sh_arena _ _ Hs); [done | by eapply Hded].
  - intros c d Ed Hd. destruct (Hb c d Ed) as (d0 & E0 & -> & _ & [H1 | (-> & -> & _)]); [apply (sh_min _ _ Hs c d0 E0); by rewrite <- H1 | by apply (sh_min _ _ Hs a b)].
  - intros c d [[<- <-] | [Hne Ed]]%lookup_insert_Some Hd; [by destruct Hk' as [-> | ->] | by apply (sh_large _ _ Hs c)].
  - intros c d c' d' Ed Ed' Hne. destruct (Hb c d Ed) as (d0 & E0 & -> & _ & _). destruct (Hb c' d' Ed') as (d0' & E0' & -> & _ & _). by apply (sh_disj _ _ Hs).
  - intros c d Ed Hd. destruct (Hb c d Ed) as (d0 & E0 & -> & -> & Hkd). assert (Hin : inner (bkind d0)) by (destruct Hkd as [H1 | (-> & -> & _)]; [by rewrite <- H1 | unfold inner; destruct Hk as [-> | ->]; done]). destruct (sh_succ _ _ Hs c d0 E0 Hin) as (n & En & Hn & Hbase).
    destruct (decide (c + bsize d0 = a)) as [Ea | Ea]; [rewrite Ea, lookup_insert_eq; rewrite Ea in En; simplify_eq; eexists; split; [done|]; split; [by destruct Hk' as [-> | ->] | done] | rewrite lookup_insert_ne by done; by exists n].
Qed.

(** A block that is cut in two. *)
Lemma shape_split H H' B a b sz k : shape H B -> B !! a = Some b -> bkind b = Free \/ bkind b = Used -> k = Free \/ k = Used -> 48 <= sz -> 48 <= bsize b - sz -> sz mod 16 = 0 ->
  core <$> (H' !! a) = Some (sz + flag k, sizeof_header) -> core <$> (H' !! (a + sz)) = Some (bsize b - sz, sizeof_header) -> (forall c, c <> a -> c <> a + sz -> core <$> (H' !! c) = core <$> (H !! c)) ->
  B !! (a + sz) = None /\ shape H' (<[a := Blk sz k (bbase b)]> (<[a + sz := Blk (bsize b - sz) Free (bbase b)]> B)).
Proof.
  intros Hs E Hk Hk' Hz Hz' Hm Ha Ha' Hf. destruct (sh_addr _ _ Hs a b E) as (A1 & A2 & [A3 A3'] & A4). assert (Hnd : bkind b <> Dedicated) by by destruct Hk as [-> | ->]. destruct (sh_arena _ _ Hs a b E Hnd) as [A5 A6]. pose proof (Z.div_mod sz 16 ltac:(lia)). pose proof (Z.div_mod (bsize b) 16 ltac:(lia)). pose proof (Z.div_mod a 16 ltac:(lia)).
  assert (Hno : B !! (a + sz) = None). { destruct (B !! (a + sz)) as [d |] eqn:Ed; [| done]. destruct (sh_disj _ _ Hs a b _ d E Ed ltac:(lia)); destruct (sh_addr _ _ Hs _ d Ed) as (_ & _ & _ & ?); lia. }
  split; [done|]. set (B' := <[a := _]> _).
  assert (Hb : forall c d, B' !! c = Some d -> c = a /\ d = Blk sz k (bbase b) \/ c = a + sz /\ d = Blk (bsize b - sz) Free (bbase b) \/ c <> a /\ c <> a + sz /\ B !! c = Some d).
  { intros c d [[<- <-] | [Hne Ed]]%lookup_insert_Some; [by left|]. apply lookup_insert_Some in Ed as [[<- <-] | [Hne' Ed]]; [right; by left | right; right; done]. }
  split.
  - intros c d Ed. destruct (Hb c d Ed) as [[-> ->] | [[-> ->] | (G1 & G2 & E0)]]; cbn [bsize bkind flag]; [done | by rewrite Z.add_0_r | rewrite Hf by done; by apply (sh_core _ _ Hs)].
  - intros c d Ed. destruct (Hb c d Ed) as [[-> ->] | [[-> ->] | (_ & _ & E0)]]; [| | by apply (sh_addr _ _ Hs)]; cbn [bsize]; unfold sized; (split; [lia|]).
    + split; [done|]. split; [split; [lia | done] | lia].
    + split; [replace (a + sz) with ((a / 16 + sz / 16) * 16) by lia; apply Z.mod_mul; lia|]. split; [split; [lia|] | lia]. replace (bsize b - sz) with ((bsize b / 16 - sz / 16) * 16) by lia. apply Z.mod_mul. lia.
  - intros c d Ed Hd. destruct (Hb c d Ed) as [[-> ->] | [[-> ->] | (_ & _ & E0)]]; cbn [bsize bbase]; [lia | lia | by apply (sh_arena _ _ Hs)].
  - intros c d Ed Hd. destruct (Hb c d Ed) as [[-> ->] | [[-> ->] | (_ & _ & E0)]]; cbn [bsize]; [done | done | by apply (sh_min _ _ Hs c)].
  - intros c d Ed Hd. destruct (Hb c d Ed) as [[-> ->] | [[-> ->] | (_ & _ & E0)]]; cbn [bkind] in Hd; [by destruct Hk' as [-> | ->] | done | by apply (sh_large _ _ Hs c)].
  - intros c d c' d' Ed Ed' Hne. unfold apart. destruct (Hb c d Ed) as [[-> ->] | [[-> ->] | (G1 & _ & E0)]], (Hb c' d' Ed') as [[-> ->] | [[-> ->] | (G1' & _ & E0')]]; cbn [bsize]; try lia.
    + destruct (sh_disj _ _ Hs a b c' d' E E0' ltac:(lia)); lia.
    + destruct (sh_disj _ _ Hs a b c' d' E E0' ltac:(lia)); lia.
    + destruct (sh_disj _ _ Hs c d a b E0 E ltac:(lia)); lia.
    + destruct (sh_disj _ _ Hs c d a b E0 E ltac:(lia)); lia.
    + by apply (sh_disj _ _ Hs c d c' d' E0 E0').
  - intros c d Ed Hd. assert (HB' : forall q n, B !! q = Some n -> q <> a -> B' !! q = Some n) by (intros q n En Hq; unfold B'; rewrite lookup_insert_ne by done; rewrite lookup_insert_ne; [done | intros E1; congruence]).
    destruct (Hb c d Ed) as [[-> ->] | [[-> ->] | (G1 & _ & E0)]]; cbn [bsize bbase].
    + exists (Blk (bsize b - sz) Free (bbase b)). split; [unfold B'; rewrite lookup_insert_ne by lia; by rewrite lookup_insert_eq | done].
    + replace (a + sz + (bsize b - sz)) with (a + bsize b) by lia. destruct (sh_succ _ _ Hs a b E) as (n & En & Hn); [unfold inner; destruct Hk as [-> | ->]; done|]. exists n. split; [apply HB'; [done | lia] | done].
    + destruct (sh_succ _ _ Hs c d E0 Hd) as (n & En & Hn & Hbase). destruct (decide (c + bsize d = a)) as [Ea | Ea]; [rewrite Ea, E in En; injection En as <-; exists (Blk sz k (bbase b)); split; [unfold B'; rewrite Ea; by rewrite lookup_insert_eq|]; split; [by destruct Hk' as [-> | ->] | done] | exists n; split; [by apply HB' | done]].
Qed.

(** A free block that takes in the free block behind it. *)
Lemma shape_merge H H' B a b n : shape H B -> B !! a = Some b -> bkind b = Free -> B !! (a + bsize b) = Some n -> bkind n = Free -> bbase n = bbase b ->
  core <$> (H' !! a) = Some (bsize b + bsize n, sizeof_header) -> (forall c, c <> a -> core <$> (H' !! c) = core <$> (H !! c)) ->
  shape H' (<[a := Blk (bsize b + bsize n) Free (bbase b)]> (delete (a + bsize b) B)).
Proof.
  intros Hs E Hk En Hkn Hbase Ha Hf. destruct (sh_addr _ _ Hs a b E) as (A1 & A2 & [A3 A3'] & A4). destruct (sh_addr _ _ Hs _ n En) as (N1 & N2 & [N3 N3'] & N4). destruct (sh_arena _ _ Hs a b E) as [A5 A6]; [by rewrite Hk|]. destruct (sh_arena _ _ Hs _ n En) as [N5 N6]; [by rewrite Hkn|]. pose proof (sh_min _ _ Hs a b E (or_introl Hk)) as Hmin. rewrite Hbase in *. unfold SYS_HEAP_GROW_SIZE in *.
  set (B' := <[a := _]> _). assert (Hb : forall c d, B' !! c = Some d -> c = a /\ d = Blk (bsize b + bsize n) Free (bbase b) \/ c <> a /\ c <> a + bsize b /\ B !! c = Some d).
  { intros c d [[<- <-] | [Hne Ed]]%lookup_insert_Some; [by left|]. apply lookup_delete_Some in Ed as [Hne' Ed]. by right. }
  split.
  - intros c d Ed. destruct (Hb c d Ed) as [[-> ->] | (G1 & G2 & E0)]; cbn [bsize bkind flag]; [by rewrite Z.add_0_r | rewrite Hf by done; by apply (sh_core _ _ Hs)].
  - intros c d Ed. destruct (Hb c d Ed) as [[-> ->] | (_ & _ & E0)]; [| by apply (sh_addr _ _ Hs)]. cbn [bsize]. unfold sized. split; [done|]. split; [done|]. split; [split; [lia|] | lia]. by rewrite Z.add_mod, A3', N3' by lia.
  - intros c d Ed Hd. destruct (Hb c d Ed) as [[-> ->] | (_ & _ & E0)]; cbn [bsize bbase]; [unfold SYS_HEAP_GROW_SIZE; lia | by apply (sh_arena _ _ Hs)].
  - intros c d Ed Hd. destruct (Hb c d Ed) as [[-> ->] | (_ & _ & E0)]; cbn [bsize]; [lia | by apply (sh_min _ _ Hs c)].
  - intros c d Ed Hd. destruct (Hb c d Ed) as [[-> ->] | (_ & _ & E0)]; [done | by apply (sh_large _ _ Hs c)].
  - intros c d c' d' Ed Ed' Hne. unfold apart. destruct (Hb c d Ed) as [[-> ->] | (G1 & G2 & E0)], (Hb c' d' Ed') as [[-> ->] | (G1' & G2' & E0')]; cbn [bsize]; [done | | |].
    + destruct (sh_disj _ _ Hs a b c' d' E E0' ltac:(lia)), (sh_disj _ _ Hs _ n c' d' En E0' ltac:(lia)); destruct (sh_addr _ _ Hs _ d' E0') as (_ & _ & _ & ?); lia.
    + destruct (sh_disj _ _ Hs c d a b E0 E ltac:(lia)), (sh_disj _ _ Hs c d _ n E0 En ltac:(lia)); destruct (sh_addr _ _ Hs _ d E0) as (_ & _ & _ & ?); lia.
    + by apply (sh_disj _ _ Hs c d c' d' E0 E0').
  - intros c d Ed Hd. assert (HB' : forall q m, B !! q = Some m -> q <> a -> q <> a + bsize b -> B' !! q = Some m) by (intros q m Em Hq Hq'; unfold B'; rewrite lookup_insert_ne by done; by rewrite lookup_delete_ne).
    destruct (Hb c d Ed) as [[-> ->] | (G1 & G2 & E0)]; cbn [bsize bbase].
    + rewrite Z.add_assoc. destruct (sh_succ _ _ Hs _ n En) as (m & Em & Hm & Hbm); [unfold inner; by rewrite Hkn|]. exists m. split; [apply HB'; [done | lia | lia]|]. split; [done | congruence].
    + destruct (sh_succ _ _ Hs c d E0 Hd) as (m & Em & Hm & Hbm). destruct (decide (c + bsize d = a)) as [Ea | Ea]; [rewrite Ea, E in Em; injection Em as <-; eexists; split; [unfold B'; rewrite Ea; by rewrite lookup_insert_eq | done]|].
      exists m. split; [| done]. apply HB'; [done | done |]. intros E1. destruct (sh_disj _ _ Hs c d a b E0 E ltac:(lia)); destruct (sh_addr _ _ Hs _ d E0) as (_ & _ & _ & ?); lia.
Qed.

Lemma unused_none H B a n : shape H B -> unused B a n -> 0 < n -> forall x, a <= x < a + n -> B !! x = None.
Proof. intros Hs Hu Hn x Hx. destruct (B !! x) as [d |] eqn:E; [| done]. destruct (sh_addr _ _ Hs _ d E) as (_ & _ & _ & ?). destruct (Hu x d E); lia. Qed.

(** Adding blocks in unused memory keeps what there was. *)
Lemma succ_insert (B : gmap Z blk) c b q d : B !! c = None -> (exists n, B !! q = Some n /\ bkind n <> Dedicated /\ bbase n = d) -> exists n, <[c := b]> B !! q = Some n /\ bkind n <> Dedicated /\ bbase n = d.
Proof. intros Hc (n & En & Hn). exists n. split; [| done]. rewrite lookup_insert_ne; [done | intros ->; congruence]. Qed.

(** A block of its own. *)
Lemma shape_dedicated H H' B a n : shape H B -> 0 < a -> a mod 16 = 0 -> sized n -> 2 ^ 16 <= n -> unused B a n -> core <$> (H' !! a) = Some (n + 3, sizeof_header) -> (forall c, c <> a -> core <$> (H' !! c) = core <$> (H !! c)) -> shape H' (<[a := Blk n Dedicated a]> B).
Proof.
  intros Hs A1 A2 Hz A4 Hu Ha Hf. pose proof (unused_none _ _ _ _ Hs Hu ltac:(lia) a ltac:(lia)) as Hno. split.
  - intros c d [[<- <-] | [Hne Ed]]%lookup_insert_Some; [done|]. rewrite Hf by done. by apply (sh_core _ _ Hs).
  - intros c d [[<- <-] | [Hne Ed]]%lookup_insert_Some; [split; [done|]; split; [done|]; split; [done | cbn; lia] | by apply (sh_addr _ _ Hs)].
  - intros c d [[<- <-] | [Hne Ed]]%lookup_insert_Some; [done | by apply (sh_arena _ _ Hs)].
  - intros c d [[<- <-] | [Hne Ed]]%lookup_insert_Some; [by intros [? | ?] | by apply (sh_min _ _ Hs c)].
  - intros c d [[<- <-] | [Hne Ed]]%lookup_insert_Some; [done | by apply (sh_large _ _ Hs c)].
  - intros c d c' d' [[<- <-] | [Hne Ed]]%lookup_insert_Some [[<- <-] | [Hne' Ed']]%lookup_insert_Some Hcc; [done | by apply Hu | | by apply (sh_disj _ _ Hs)]. destruct (Hu c d Ed); [by right | by left].
  - intros c d [[<- <-] | [Hne Ed]]%lookup_insert_Some Hd; [by destruct Hd|]. apply succ_insert; [done|]. by apply (sh_succ _ _ Hs).
Qed.

Lemma shape_unmap H B a b : shape H B -> B !! a = Some b -> bkind b = Dedicated -> shape (delete a H) (delete a B).
Proof.
  intros Hs E Hk. split.
  - intros c d [Hne Ed]%lookup_delete_Some. rewrite lookup_delete_ne by done. by apply (sh_core _ _ Hs).
  - intros c d [Hne Ed]%lookup_delete_Some. by apply (sh_addr _ _ Hs).
  - intros c d [Hne Ed]%lookup_delete_Some. by apply (sh_arena _ _ Hs).
  - intros c d [Hne Ed]%lookup_delete_Some. by apply (sh_min _ _ Hs c).
  - intros c d [Hne Ed]%lookup_delete_Some. by apply (sh_large _ _ Hs c).
  - intros c d c' d' [Hne Ed]%lookup_delete_Some [Hne' Ed']%lookup_delete_Some. by apply (sh_disj _ _ Hs).
  - intros c d [Hne Ed]%lookup_delete_Some Hd. destruct (sh_succ _ _ Hs c d Ed Hd) as (n & En & Hn & Hb). exists n. split; [| done]. rewrite lookup_delete_ne; [done|]. intros ->. congruence.
Qed.

(** The three blocks of a new arena. *)
Definition arena_blocks (a : Z) (B : gmap Z blk) : gmap Z blk :=
  <[a := Blk 32 Fence a]> (<[a + 32 := Blk 262080 Free a]> (<[a + 262112 := Blk 32 Last a]> B)).

Lemma shape_arena H H' B a : shape H B -> mapped B a SYS_HEAP_GROW_SIZE ->
  core <$> (H' !! a) = Some (33, sizeof_header) -> core <$> (H' !! (a + 32)) = Some (262080, sizeof_header) -> core <$> (H' !! (a + 262112)) = Some (33, sizeof_header) ->
  (forall c, c <> a -> c <> a + 32 -> c <> a + 262112 -> core <$> (H' !! c) = core <$> (H !! c)) -> shape H' (arena_blocks a B).
Proof.
  intros Hs (A1 & A2 & A3 & Hu) Ha Ha1 Ha2 Hf. unfold SYS_HEAP_GROW_SIZE in *. pose proof (unused_none _ _ _ _ Hs Hu ltac:(lia)) as Hno.
  assert (Hb : forall c d, arena_blocks a B !! c = Some d -> c = a /\ d = Blk 32 Fence a \/ c = a + 32 /\ d = Blk 262080 Free a \/ c = a + 262112 /\ d = Blk 32 Last a \/ c <> a /\ c <> a + 32 /\ c <> a + 262112 /\ B !! c = Some d).
  { unfold arena_blocks. intros c d [[<- <-] | [Hne Ed]]%lookup_insert_Some; [by left|]. apply lookup_insert_Some in Ed as [[<- <-] | [Hne' Ed]]; [right; by left|]. apply lookup_insert_Some in Ed as [[<- <-] | [Hne'' Ed]]; [right; right; by left | right; right; by right]. }
  assert (Hm16 : a mod 16 = 0) by (pose proof (Z.div_mod a 4096 ltac:(lia)); replace a with (a / 4096 * 256 * 16) by lia; apply Z.mod_mul; lia).
  assert (Hm : forall x, x mod 16 = 0 -> (a + x) mod 16 = 0) by (intros x Hx; by rewrite Z.add_mod, Hm16, Hx by lia).
  split.
  - intros c d Ed. destruct (Hb c d Ed) as [[-> ->] | [[-> ->] | [[-> ->] | (G1 & G2 & G3 & E0)]]]; cbn [bsize bkind flag]; [done | done | done | rewrite Hf by done; by apply (sh_core _ _ Hs)].
  - intros c d Ed. destruct (Hb c d Ed) as [[-> ->] | [[-> ->] | [[-> ->] | (_ & _ & _ & E0)]]]; [| | | by apply (sh_addr _ _ Hs)]; cbn [bsize]; (split; [lia|]); (split; [first [done | by apply Hm]|]); (split; [split; [lia | done] | lia]).
  - intros c d Ed Hd. destruct (Hb c d Ed) as [[-> ->] | [[-> ->] | [[-> ->] | (_ & _ & _ & E0)]]]; cbn [bsize bbase]; unfold SYS_HEAP_GROW_SIZE; [lia | lia | lia | by apply (sh_arena _ _ Hs)].
  - intros c d Ed Hd. destruct (Hb c d Ed) as [[-> ->] | [[-> ->] | [[-> ->] | (_ & _ & _ & E0)]]]; cbn [bsize bkind] in *; [by destruct Hd | lia | by destruct Hd | by apply (sh_min _ _ Hs c)].
  - intros c d Ed Hd. destruct (Hb c d Ed) as [[-> ->] | [[-> ->] | [[-> ->] | (_ & _ & _ & E0)]]]; [done | done | done | by apply (sh_large _ _ Hs c)].
  - intros c d c' d' Ed Ed' Hne. unfold apart. destruct (Hb c d Ed) as [[-> ->] | [[-> ->] | [[-> ->] | (_ & _ & _ & E0)]]], (Hb c' d' Ed') as [[-> ->] | [[-> ->] | [[-> ->] | (_ & _ & _ & E0')]]]; cbn [bsize]; try lia;
      try (destruct (Hu _ _ E0'); lia); try (destruct (Hu _ _ E0); lia). by apply (sh_disj _ _ Hs c d c' d' E0 E0').
  - intros c d Ed Hd. unfold arena_blocks. destruct (Hb c d Ed) as [[-> ->] | [[-> ->] | [[-> ->] | (_ & _ & _ & E0)]]]; cbn [bsize bbase bkind] in *.
    + exists (Blk 262080 Free a). split; [rewrite lookup_insert_ne by lia; by rewrite lookup_insert_eq | done].
    + replace (a + 32 + 262080) with (a + 262112) by lia. exists (Blk 32 Last a). split; [rewrite !lookup_insert_ne by lia; by rewrite lookup_insert_eq | done].
    + by destruct Hd.
    + assert (H1 : B !! (a + 262112) = None) by (apply Hno; lia). assert (H2 : <[a + 262112 := Blk 32 Last a]> B !! (a + 32) = None) by (rewrite lookup_insert_ne by lia; apply Hno; lia). assert (H3 : <[a + 32 := Blk 262080 Free a]> (<[a + 262112 := Blk 32 Last a]> B) !! a = None) by (rewrite !lookup_insert_ne by lia; apply Hno; lia).
      apply succ_insert; [done|]. apply succ_insert; [done|]. apply succ_insert; [done|]. by apply (sh_succ _ _ Hs).
Qed.
