(* ===== verification/HeapAlloc.v ===== *)
(** * Allocating from the heap, releasing and resizing *)
From stdpp Require Import base tactics list numbers option gmap fin_maps.
From Stdlib Require Import ZArith Lia.
From S2P Require Import Prelude Heap HeapSpec.
#[local] Open Scope Z_scope.

(** ** Steps on headers *)

Lemma keeps_trans B s1 s2 s3 : keeps B s1 s2 -> keeps B s2 s3 -> keeps B s1 s3.
Proof. intros H1 H2 a b E Hl x Hx. by rewrite (H2 a b), (H1 a b). Qed.

Lemma keeps_relinked B s s' : relinked s s' -> keeps B s s'.
Proof. intros [H _] a b _ _ x _. by rewrite H. Qed.

Lemma init_core n p f s a : core <$> (headers (_heap_block_header_init n p f s a) !! a) = Some (Z.lor n f, sizeof_header).
Proof. cbn. by rewrite lookup_insert_eq. Qed.

Lemma init_other n p f s a c : c <> a -> headers (_heap_block_header_init n p f s a) !! c = headers s !! c.
Proof. intros H. cbn. by rewrite lookup_insert_ne. Qed.

Lemma init_keeps B n p f s a : (forall c b, B !! c = Some b -> live (bkind b) -> apart a 32 (c + 32) (bsize b - 32)) -> keeps B s (_heap_block_header_init n p f s a).
Proof. intros H c b E Hl x Hx. cbn [_heap_block_header_init memory]. apply mem_write_out. rewrite length_replicate. destruct (H c b E Hl); lia. Qed.

(** A header at the front of a block, or inside of a block that is not live, is outside of all contents. *)
Lemma front_apart H B a b c d : shape H B -> B !! a = Some b -> B !! c = Some d -> apart a 32 (c + 32) (bsize d - 32).
Proof.
  intros Hs E Ed. unfold apart. destruct (decide (a = c)) as [-> | Hne]; [lia|]. destruct (sh_disj _ _ Hs a b c d E Ed Hne); destruct (sh_addr _ _ Hs a b E) as (_ & _ & _ & ?); lia.
Qed.

Lemma inside_apart H B a b c d q : shape H B -> B !! a = Some b -> ~ live (bkind b) -> a <= q -> q + 32 <= a + bsize b -> B !! c = Some d -> live (bkind d) -> apart q 32 (c + 32) (bsize d - 32).
Proof. intros Hs E Hn H1 H2 Ed Hl. unfold apart. destruct (sh_disj _ _ Hs a b c d E Ed); [intros ->; simplify_eq; done | lia | lia]. Qed.

Lemma unused_apart H B a n c d q : shape H B -> unused B a n -> a <= q -> q + 32 <= a + n -> B !! c = Some d -> apart q 32 (c + 32) (bsize d - 32).
Proof. intros Hs Hu H1 H2 Ed. unfold apart. destruct (Hu c d Ed); lia. Qed.

(** ** The lists and the blocks *)

Lemma in_list s B F x i a : inv s B F x -> 0 <= i < 12 -> a ∈ F i <-> a <> x /\ exists b, B !! a = Some b /\ bkind b = Free /\ idx (bsize b) = i.
Proof. intros Hi. apply (iv_linked _ _ _ _ Hi). Qed.

Lemma free_in s B F x i a : inv s B F x -> 0 <= i < 12 -> a ∈ F i -> exists b, B !! a = Some b /\ bkind b = Free /\ idx (bsize b) = i.
Proof. intros Hi H0 Ha. by apply (iv_linked _ _ _ _ Hi) in Ha as [_ ?]. Qed.

Lemma free_idx s B F x a b : inv s B F x -> B !! a = Some b -> bkind b = Free -> 0 <= idx (bsize b) < 12.
Proof. intros Hi E Hk. apply index_ok. eapply inner_bound; [apply Hi | exact E | by rewrite Hk]. Qed.

Lemma insert_inv s B F a b : inv s B F a -> B !! a = Some b -> bkind b = Free -> exists s' F', _insert_block s a = Some s' /\ inv s' B F' 0 /\ relinked s s' /\ a ∈ F' (idx (bsize b)) /\ (forall i c, c ∈ F i -> c ∈ F' i).
Proof.
  intros Hi E Hk. destruct (block_header _ _ _ _ _ _ Hi E) as (h & Eh & Hsz & _). destruct (sh_addr _ _ (iv_shape _ _ _ _ Hi) a b E) as (Ha0 & _ & Hz & _). pose proof (free_idx _ _ _ _ _ _ Hi E Hk) as Hix.
  destruct (insert_block_ok s F a h (bsize b) (bkind b) (iv_lists _ _ _ _ Hi) Eh ltac:(lia) Hsz Hz) as (s' & Es & Hl & Hr); [eapply inner_bound; [apply Hi | exact E | by rewrite Hk] | intros j Hj Hin; apply (iv_linked _ _ _ _ Hi) in Hin as [? _]; done |].
  exists s', (upd F (idx (bsize b)) (a :: F (idx (bsize b)))). split; [done|]. split; [split; [| done |] | split; [done|]; split; [rewrite upd_here; left|]].
  - eapply shape_frame; [apply Hi|]. intros c _. apply Hr.
  - intros i c H0. destruct (decide (i = idx (bsize b))) as [-> | Hne].
    + rewrite upd_here, elem_of_cons, (in_list s B F a) by done. split.
      * intros [-> | [_ (d & Ed & Hd)]]; [split; [lia | by exists b]|]. split; [| by exists d]. destruct (sh_addr _ _ (iv_shape _ _ _ _ Hi) c d Ed). lia.
      * intros [_ Hd]. destruct (decide (c = a)); [by left | by right].
    + rewrite upd_other by done. rewrite (in_list s B F a) by done. split.
      * intros [_ (d & Ed & Hd)]. split; [| by exists d]. destruct (sh_addr _ _ (iv_shape _ _ _ _ Hi) c d Ed). lia.
      * intros [_ (d & Ed & Hd & Hj)]. split; [intros ->; simplify_eq; done | by exists d].
  - intros i c Hc. destruct (decide (i = idx (bsize b))) as [-> | Hne]; [rewrite upd_here; by right | by rewrite upd_other].
Qed.

Lemma remove_inv s B F x a b : inv s B F x -> B !! a = Some b -> bkind b = Free -> a <> x ->
  exists s' F', _remove_block s a = Some s' /\ lists s' F' /\ relinked s s' /\ forall i c, 0 <= i < 12 -> c ∈ F' i <-> c ∈ F i /\ c <> a.
Proof.
  intros Hi E Hk Hx. destruct (block_header _ _ _ _ _ _ Hi E) as (h & Eh & Hsz & _). destruct (sh_addr _ _ (iv_shape _ _ _ _ Hi) a b E) as (Ha0 & _ & Hz & _). pose proof (free_idx _ _ _ _ _ _ Hi E Hk) as Hix.
  assert (Hin : a ∈ F (idx (bsize b))) by (apply (iv_linked _ _ _ _ Hi); [done | split; [done | by exists b]]). apply list_elem_of_split in Hin as (l1 & l2 & EF).
  destruct (remove_block_ok s F a h (bsize b) (bkind b) l1 l2 (iv_lists _ _ _ _ Hi) Eh Hsz Hz) as (s' & Es & Hl & Hr); [eapply inner_bound; [apply Hi | exact E | by rewrite Hk] | done |].
  exists s', (upd F (idx (bsize b)) (l1 ++ l2)). split; [done|]. split; [done|]. split; [done|]. intros i c H0. destruct (decide (i = idx (bsize b))) as [-> | Hne].
  - rewrite upd_here, EF, !elem_of_app, elem_of_cons. pose proof (ls_nodup _ _ (iv_lists _ _ _ _ Hi) _ Hix) as Hn. rewrite EF in Hn. apply NoDup_app in Hn as (_ & Hd & Hn). apply NoDup_cons in Hn as [Hn _]. split.
    + intros [Hc | Hc]; (split; [tauto|]); intros ->; [apply (Hd a Hc); left | done].
    + tauto.
  - rewrite upd_other by done. split; [| tauto]. intros Hc. split; [done|]. intros ->. apply Hne. apply (ls_unique _ _ (iv_lists _ _ _ _ Hi) i (idx (bsize b)) a); [done | done | done | rewrite EF; apply elem_of_app; right; left].
Qed.

(** The lists after a header was stored that is in none of them. *)
Lemma init_lists n p f s a F : lists s F -> (forall i, 0 <= i < 12 -> a ∉ F i) -> lists (_heap_block_header_init n p f s a) F.
Proof. intros Hl Hn. eapply lists_frame; [exact Hl | done | done |]. intros i m Hi Hm. rewrite init_other; [done | intros ->; by apply (Hn i)]. Qed.

(** The live blocks but [p] are the same. *)
Definition same_live (B B' : gmap Z blk) (p : Z) : Prop := forall c b, c <> p -> live (bkind b) -> B' !! c = Some b <-> B !! c = Some b.

(** ** Growing *)

Lemma grow_heap_ok s B F a : inv s B F 0 -> mapped B a SYS_HEAP_GROW_SIZE ->
  exists s' F', _grow_heap s a = Some s' /\ inv s' (arena_blocks a B) F' 0 /\ keeps B s s' /\ a + 32 ∈ F' 11.
Proof.
  intros Hi Hm. pose proof Hm as (A1 & A2 & A3 & Hu). unfold SYS_HEAP_GROW_SIZE in Hu, A3. pose proof (unused_none _ _ _ _ (iv_shape _ _ _ _ Hi) Hu ltac:(lia)) as Hno. unfold _grow_heap, SYS_HEAP_GROW_SIZE, sizeof_header, SYS_HEAP_BLOCK_HEADER_FLAG_USED. replace (a + 262144 - 32) with (a + 262112) by lia. change (262144 - 2 * 32) with 262080.
  set (s1 := _heap_block_header_init 32 0 1 s a). set (s2 := _heap_block_header_init 262080 32 0 s1 (a + 32)). set (s3 := _heap_block_header_init 32 262080 1 s2 (a + 262112)).
  assert (Hnot : forall q i, a <= q < a + 262144 -> 0 <= i < 12 -> q ∉ F i) by (intros q i Hq H0 Hin; destruct (free_in _ _ _ _ _ _ Hi H0 Hin) as (b & Eb & _); rewrite Hno in Eb by lia; done).
  assert (Hsh : shape (headers s3) (arena_blocks a B)).
  { apply (shape_arena (headers s)); [apply Hi | exact Hm | | | |].
    - unfold s3. rewrite init_other by lia. unfold s2. rewrite init_other by lia. apply init_core.
    - unfold s3. rewrite init_other by lia. apply init_core.
    - apply init_core.
    - intros c H1 H2 H3. unfold s3. rewrite init_other by lia. unfold s2. rewrite init_other by lia. unfold s1. by rewrite init_other by lia. }
  assert (Hi3 : inv s3 (arena_blocks a B) F (a + 32)).
  { split; [done | repeat (apply init_lists; [| intros i H0; apply Hnot; lia]); apply Hi |]. intros i c H0. rewrite (in_list s B F 0) by done. split.
    - intros [_ (b & Eb & Hb)]. assert (Hc : ~ a <= c < a + 262144) by (intros Hc; by rewrite Hno in Eb). split; [lia|]. exists b. split; [| done]. unfold arena_blocks. by rewrite !lookup_insert_ne by lia.
    - intros [Hc (b & Eb & Hb & Hj)]. assert (EB : B !! c = Some b).
      { unfold arena_blocks in Eb. apply lookup_insert_Some in Eb as [[<- <-] | [_ Eb]]; [done|]. apply lookup_insert_Some in Eb as [[<- _] | [_ Eb]]; [done|]. apply lookup_insert_Some in Eb as [[<- <-] | [_ Eb]]; [done | done]. }
      split; [| by exists b]. destruct (sh_addr _ _ (iv_shape _ _ _ _ Hi) c b EB). lia. }
  assert (Ea : arena_blocks a B !! (a + 32) = Some (Blk 262080 Free a)) by (unfold arena_blocks; rewrite lookup_insert_ne by lia; by rewrite lookup_insert_eq).
  destruct (insert_inv s3 _ F (a + 32) _ Hi3 Ea eq_refl) as (s' & F' & Es & Hi' & Hr & Hin & _). exists s', F'. split; [done|]. split; [done|]. split; [| done].
  assert (Hk : forall q n p f t, a <= q -> q + 32 <= a + 262144 -> keeps B t (_heap_block_header_init n p f t q)) by (intros q n p f t H1 H2; apply init_keeps; intros c d Ed _; eapply unused_apart; [apply Hi | exact Hu | lia | lia | done]).
  apply (keeps_trans B s s1); [apply Hk; lia|]. apply (keeps_trans B s1 s2); [apply Hk; lia|]. apply (keeps_trans B s2 s3); [apply Hk; lia | by apply keeps_relinked].
Qed.

Lemma grow_live a B : (forall x, a <= x < a + 262144 -> B !! x = None) -> forall p, same_live B (arena_blocks a B) p.
Proof.
  intros Hno p c b _ Hl. unfold arena_blocks. split.
  - intros [[<- <-] | [_ E]]%lookup_insert_Some; [by destruct Hl|]. apply lookup_insert_Some in E as [[<- <-] | [_ E]]; [by destruct Hl|]. apply lookup_insert_Some in E as [[<- <-] | [_ E]]; [by destruct Hl | done].
  - intros E. assert (Hc : ~ a <= c < a + 262144) by (intros Hc; by rewrite Hno in E). by rewrite !lookup_insert_ne by lia.
Qed.

(** ** Taking a block *)

Lemma sized_sub x y : sized x -> y mod 16 = 0 -> 0 <= y <= x -> sized (x - y).
Proof. intros [Hr Hm] Hy H. split; [lia|]. by rewrite Zminus_mod, Hm, Hy. Qed.

Lemma carve_block_ok s B F a b size : inv s B F 0 -> B !! a = Some b -> bkind b = Free -> 48 <= size <= bsize b -> size mod 16 = 0 ->
  exists s' B' F' sz, carve_block s a size = Some s' /\ inv s' B' F' 0 /\ B' !! a = Some (Blk sz Used (bbase b)) /\ size <= sz /\ same_live B B' a /\ keeps B s s'.
Proof.
  intros Hi E Hk Hsz Hm. pose proof (iv_shape _ _ _ _ Hi) as Hs. destruct (sh_addr _ _ Hs a b E) as (A1 & A2 & A3 & A4). pose proof (inner_bound _ _ a b Hs E ltac:(by rewrite Hk)) as Hib. assert (Hnl : ~ live (bkind b)) by (rewrite Hk; by intros [? | ?]).
  destruct (remove_inv s B F 0 a b Hi E Hk ltac:(lia)) as (s1 & F1 & Er & Hl1 & Hr1 & HF1). unfold carve_block. rewrite Er. cbn [mbind option_bind].
  assert (Hs1 : shape (headers s1) B) by (eapply shape_frame; [exact Hs | intros c _; apply Hr1]). pose proof (sh_core _ _ Hs1 a b E) as Hc1. destruct (headers s1 !! a) as [h |] eqn:Eh; [| done]. injection Hc1 as Hh _. cbn [mbind option_bind]. rewrite (get_size_ok h _ _ Hh A3).
  assert (Ha1 : forall i, 0 <= i < 12 -> a ∉ F1 i) by (intros i H0 Hin; apply HF1 in Hin as [_ ?]; done).
  assert (Hk1 : keeps B s s1) by by apply keeps_relinked. unfold sizeof_header at 1. destruct (Z.leb_spec (bsize b) (size + 32)) as [Hw | Hw]; cbn [mbind option_bind].
  - rewrite Eh. cbn [mbind option_bind]. set (s2 := _heap_block_header_init _ _ _ s1 a). exists s2, (<[a := Blk (bsize b) Used (bbase b)]> B), F1, (bsize b). split; [done|]. split; [| split; [by rewrite lookup_insert_eq | split; [lia|]; split]].
    + split; [| by apply init_lists |].
      * apply (shape_kind (headers s1)); [done | done | by left | by right | unfold s2; rewrite init_core; by rewrite lor_flag by (done || (unfold SYS_HEAP_BLOCK_HEADER_FLAG_USED; lia)) | intros c Hc; unfold s2; by rewrite init_other].
      * intros i c H0. rewrite HF1, (in_list s B F 0) by done. split; [intros [[H1 (d & Ed & Hd)] H2]; split; [done|]; exists d; by rewrite lookup_insert_ne | intros [H1 (d & Ed & Hd & Hj)]; apply lookup_insert_Some in Ed as [[<- <-] | [Hne Ed]]; [done | split; [split; [done | by exists d] | done]]].
    + intros c d Hc _. by rewrite lookup_insert_ne.
    + apply (keeps_trans B s s1); [done|]. apply init_keeps. intros c d Ed _. exact (front_apart _ _ _ _ _ _ Hs E Ed).
  - set (s2 := _heap_block_header_init (bsize b - size) size 0 s1 (a + size)). pose proof (Z.div_mod size 16 ltac:(lia)) as Hdm. assert (Hge : 48 <= bsize b - size) by (destruct A3 as [_ A3]; pose proof (Z.div_mod (bsize b) 16 ltac:(lia)); lia).
    assert (Hno : B !! (a + size) = None) by (destruct (B !! (a + size)) as [d |] eqn:Ed; [| done]; destruct (sh_disj _ _ Hs a b _ d E Ed ltac:(lia)); destruct (sh_addr _ _ Hs _ d Ed) as (_ & _ & _ & ?); lia).
    assert (Hq : forall i, 0 <= i < 12 -> a + size ∉ F1 i) by (intros i H0 Hin; apply HF1 in Hin as [Hin _]; [| done]; destruct (free_in _ _ _ _ _ _ Hi H0 Hin) as (d & Ed & _); congruence).
    assert (Hz2 : sized (bsize b - size)) by (apply sized_sub; [done | done | lia]).
    destruct (insert_block_ok s2 F1 (a + size) (Header 0 0 (Z.lor (bsize b - size) 0) (u32 size) 32) (bsize b - size) Free) as (s3 & E3 & Hl3 & Hr3); [by apply init_lists | cbn; by rewrite lookup_insert_eq | lia | cbn; by rewrite Z.lor_0_r, Z.add_0_r | done | lia | done |].
    rewrite E3. cbn [mbind option_bind]. assert (Hc3 : core <$> (headers s3 !! a) = core <$> (headers s1 !! a)) by (rewrite (rl_core _ _ Hr3 a); unfold s2; by rewrite init_other by lia). rewrite Eh in Hc3. destruct (headers s3 !! a) as [h3 |] eqn:Eh3; [| done]. cbn [mbind option_bind].
    set (s4 := _heap_block_header_init size (prev_size h3) SYS_HEAP_BLOCK_HEADER_FLAG_USED s3 a). set (j := idx (bsize b - size)) in *. assert (Hj : 0 <= j < 12) by (apply index_ok; lia).
    destruct (shape_split (headers s1) (headers s4) B a b size Used Hs1 E (or_introl Hk) (or_intror eq_refl)) as [_ Hs4]; [lia | lia | done | | | |].
    { unfold s4. rewrite init_core. rewrite lor_flag; [done | split; [unfold sized in A3; lia | done] | unfold SYS_HEAP_BLOCK_HEADER_FLAG_USED; lia]. }
    { unfold s4. rewrite init_other by lia. rewrite (rl_core _ _ Hr3). unfold s2. rewrite init_core. by rewrite Z.lor_0_r. }
    { intros c Hc1 Hc2. unfold s4. rewrite init_other by done. rewrite (rl_core _ _ Hr3). unfold s2. by rewrite init_other. }
    eexists s4, _, (upd F1 j (a + size :: F1 j)), size. split; [done|]. split; [split; [exact Hs4 | |] | split; [by rewrite lookup_insert_eq | split; [lia|]; split]].
    + apply init_lists; [done|]. intros i H0. destruct (decide (i = j)) as [-> | Hne]; [rewrite upd_here, not_elem_of_cons; split; [lia | by apply Ha1] | rewrite upd_other by done; by apply Ha1].
    + intros i c H0. assert (Hup : c ∈ upd F1 j (a + size :: F1 j) i <-> (i = j /\ c = a + size) \/ c ∈ F1 i) by (destruct (decide (i = j)) as [-> | Hne]; [rewrite upd_here, elem_of_cons; tauto | rewrite upd_other by done; tauto]). rewrite Hup, HF1, (in_list s B F 0) by done. split.
      * intros [[-> ->] | [[H1 (d & Ed & Hd)] H2]]; [split; [lia|]; eexists; rewrite lookup_insert_ne by lia; by rewrite lookup_insert_eq|]. split; [done|]. exists d. rewrite lookup_insert_ne by done. rewrite lookup_insert_ne; [done | intros <-; congruence].
      * intros [H1 (d & Ed & Hd & Hid)]. apply lookup_insert_Some in Ed as [[<- <-] | [Hne Ed]]; [done|]. apply lookup_insert_Some in Ed as [[<- <-] | [Hne' Ed]]; [left; by rewrite <- Hid | right]. split; [split; [done | by exists d] | done].
    + intros c d Hc Hl. rewrite lookup_insert_ne by done. split; [intros [[<- <-] | [_ Ed]]%lookup_insert_Some; [by destruct Hl | done] | intros Ed; rewrite lookup_insert_ne; [done | intros <-; congruence]].
    + apply (keeps_trans B s s1); [done|]. apply (keeps_trans B s1 s2); [apply init_keeps; intros c d Ed Hl; eapply inside_apart; [exact Hs | exact E | done | lia | lia | done | done]|]. apply (keeps_trans B s2 s3); [by apply keeps_relinked|]. apply init_keeps. intros c d Ed _. exact (front_apart _ _ _ _ _ _ Hs E Ed).
Qed.

(** ** Choosing a block *)

Lemma dll_elems H p x l : dll H p x l -> forall m, m ∈ l -> is_Some (H !! m).
Proof. intros Hd m (l1 & l2 & ->)%list_elem_of_split. destruct (dll_middle _ _ _ _ _ _ Hd) as (h & Eh & _). by exists h. Qed.

(** The search finds a block that is large enough if the list has one. *)
Lemma search_list_ok fuel s p x l size : dll (headers s) p x l -> (length l < fuel)%nat ->
  exists r, search_list fuel s x size = Some r /\ (r = 0 /\ (forall m h, m ∈ l -> headers s !! m = Some h -> _heap_block_header_get_size h < size) \/ r <> 0 /\ r ∈ l /\ exists h, headers s !! r = Some h /\ size <= _heap_block_header_get_size h).
Proof.
  revert p x l. induction fuel as [| fuel IH]; intros p x l Hd Hf; [lia|]. cbn [search_list]. destruct l as [| m l]; cbn [dll] in Hd.
  - subst x. exists 0. split; [done|]. left. split; [done|]. by intros m h ?%not_elem_of_nil.
  - destruct Hd as (-> & Hm & h & Eh & _ & Hd). destruct (Z.eqb_spec m 0); [done|]. rewrite Eh. cbn [mbind option_bind]. destruct (Z.leb_spec size (_heap_block_header_get_size h)) as [Hle | Hlt]; [exists m; split; [done|]; right; split; [done|]; split; [left | by exists h]|].
    destruct (IH m (next h) l Hd) as (r & -> & Hr); [cbn in Hf; lia|]. exists r. split; [done|]. destruct Hr as [[-> Hall] | (H1 & H2 & H3)]; [left; split; [done|]; intros m' h' [-> | Hm']%elem_of_cons Eh'; [congruence | by apply (Hall m')] | right; split; [done|]; split; [by right | done]].
Qed.

Definition fits (B : gmap Z blk) (size a : Z) : Prop := exists b, B !! a = Some b /\ bkind b = Free /\ size <= bsize b.

Lemma first_of_bucket s B F x i : inv s B F x -> 0 <= i < 12 -> F i <> [] -> bucket s i ∈ F i.
Proof. intros Hi H0 Hne. pose proof (ls_dll _ _ (iv_lists _ _ _ _ Hi) i H0) as Hd. destruct (F i) as [| m l]; [done|]. cbn [dll] in Hd. destruct Hd as (-> & _). left. Qed.

(** Either a block is chosen, whatever answers are left, or the heap has to grow and no list further up has a block. *)
Lemma choose_step s B F size : inv s B F 0 -> 48 <= size < 2 ^ 16 -> size mod 16 = 0 ->
  (exists a, fits B size a /\ forall ans, choose_block ans s (idx size) size = Some (s, a, ans)) \/
  (forall d ans, choose_block (d :: ans) s (idx size) size = (s' ← _grow_heap s d; choose_block ans s' (idx size) size)) /\ (forall j m, idx size < j < 12 -> m ∉ F j) /\ (forall m, m ∈ F (idx size) -> ~ fits B size m).
Proof.
  intros Hi Hz Hm. destruct (index_ok size ltac:(lia)) as [_ H0]. set (i := idx size) in *. pose proof (iv_lists _ _ _ _ Hi) as Hl. pose proof (iv_shape _ _ _ _ Hi) as Hs.
  assert (Hget : forall m h j, 0 <= j < 12 -> m ∈ F j -> headers s !! m = Some h -> exists b, B !! m = Some b /\ bkind b = Free /\ idx (bsize b) = j /\ _heap_block_header_get_size h = bsize b).
  { intros m h j Hj Hin Eh. destruct (free_in _ _ _ _ _ _ Hi Hj Hin) as (b & Eb & Hk & Hjb). exists b. split; [done|]. split; [done|]. split; [done|]. destruct (block_header _ _ _ _ _ _ Hi Eb) as (h' & Eh' & Hsz & _). rewrite Eh in Eh'. injection Eh' as <-. apply (get_size_ok h _ _ Hsz). by destruct (sh_addr _ _ Hs m b Eb) as (_ & _ & ? & _). }
  assert (Hsearch : exists r, (if Z.testbit (bucket_bitmap s) i then search_list (S (base.size (headers s))) s (bucket s i) size else Some 0) = Some r /\ (r <> 0 /\ fits B size r \/ r = 0 /\ forall m, m ∈ F i -> ~ fits B size m)).
  { rewrite (ls_bit _ _ Hl i H0). destruct (F i) as [| f l] eqn:EF; cbn [bool_decide]; [exists 0; split; [done|]; right; split; [done|]; by intros m ?%not_elem_of_nil|]. rewrite bool_decide_eq_true_2 by done. rewrite <- EF. pose proof (ls_dll _ _ Hl i H0) as Hd.
    destruct (search_list_ok (S (base.size (headers s))) s 0 (bucket s i) (F i) size Hd) as (r & -> & Hr); [pose proof (nodup_size (headers s) (F i) (ls_nodup _ _ Hl i H0) (dll_elems _ _ _ _ Hd)); lia|]. exists r. split; [done|]. destruct Hr as [[-> Hall] | (Hr0 & Hin & h & Eh & Hle)].
    - right. split; [done|]. intros m Hin (b & Eb & _ & Hle). destruct (dll_elems _ _ _ _ Hd m Hin) as [h Eh]. destruct (Hget m h i H0 Hin Eh) as (b' & Eb' & _ & _ & Hsz). simplify_eq. specialize (Hall m h Hin Eh). lia.
    - left. split; [done|]. destruct (Hget r h i H0 Hin Eh) as (b & Eb & Hk & _ & Hsz). exists b. split; [done|]. split; [done | lia]. }
  destruct Hsearch as (r & Er & [[Hr0 Hfit] | [-> Hnone]]).
  - left. exists r. split; [done|]. intros ans. destruct ans; cbn [choose_block]; rewrite Er; cbn [mbind option_bind]; by destruct (Z.eqb_spec r 0).
  - destruct (Z.eqb_spec (Z.shiftr (bucket_bitmap s) (i + 1)) 0) as [Hlarger | Hlarger].
    + right. split; [intros d ans; cbn [choose_block]; rewrite Er; cbn [mbind option_bind Z.eqb negb]; by rewrite Hlarger|]. split; [| done]. intros j m Hj Hin. assert (Hbit : Z.testbit (Z.shiftr (bucket_bitmap s) (i + 1)) (j - (i + 1)) = false) by (rewrite Hlarger; apply Z.bits_0). rewrite Z.shiftr_spec in Hbit by lia. replace (j - (i + 1) + (i + 1)) with j in Hbit by lia. rewrite (ls_bit _ _ Hl j) in Hbit by lia. apply bool_decide_eq_false in Hbit. apply Hbit. intros E. rewrite E in Hin. by apply not_elem_of_nil in Hin.
    + left. set (larger := Z.shiftr (bucket_bitmap s) (i + 1)) in *. assert (Hpos : 0 < larger) by (assert (0 <= larger) by (apply Z.shiftr_nonneg; apply Hl); lia). destruct (ctz_spec larger Hpos) as (Hc0 & Hcb & _). set (j := ctz larger + 1 + i). assert (Hj12 : Z.testbit (bucket_bitmap s) j = true) by (unfold larger in Hcb at 1; rewrite Z.shiftr_spec in Hcb by lia; unfold j; by replace (ctz larger + 1 + i) with (ctz larger + (i + 1)) by lia).
      assert (Hj : 0 <= j < 12) by (split; [lia|]; destruct (Z.lt_ge_cases j 12) as [? | Hge]; [done|]; rewrite (word_high 12) in Hj12; [done | apply Hl | done]). rewrite (ls_bit _ _ Hl j Hj) in Hj12. apply bool_decide_eq_true in Hj12. pose proof (first_of_bucket _ _ _ _ _ Hi Hj Hj12) as Hin. destruct (free_in _ _ _ _ _ _ Hi Hj Hin) as (b & Eb & Hk & Hjb).
      exists (bucket s j). split.
      * exists b. split; [done|]. split; [done|]. destruct (sh_addr _ _ Hs _ b Eb) as (_ & _ & [_ Hzm] & H32). apply idx_fits; [lia | done | done | lia | lia |]. rewrite Hjb. unfold j. fold i. lia.
      * intros ans. destruct ans; cbn [choose_block]; rewrite Er; cbn [mbind option_bind Z.eqb negb]; fold larger; by rewrite (proj2 (Z.eqb_neq larger 0) Hlarger).
Qed.

(** One new arena is enough. *)
Lemma choose_grown s B F size m : inv s B F 0 -> 48 <= size < 2 ^ 16 -> size mod 16 = 0 -> m ∈ F 11 -> fits B size m -> exists a, fits B size a /\ forall ans, choose_block ans s (idx size) size = Some (s, a, ans).
Proof.
  intros Hi Hz Hm Hin Hfit. destruct (index_ok size ltac:(lia)) as [_ H0]. destruct (choose_step s B F size Hi Hz Hm) as [? | (_ & Hnone & Hno)]; [done|]. exfalso. destruct (decide (idx size = 11)) as [E | E]; [apply (Hno m); [by rewrite E | done] | apply (Hnone 11 m); [lia | done]].
Qed.

(** ** Allocation *)

Lemma round16 x : 0 <= x < 2 ^ 62 -> Z.land (u64 (x + 15)) (u64 (- SYS_HEAP_MIN_ALIGNMENT)) mod 16 = 0 /\ x <= Z.land (u64 (x + 15)) (u64 (- SYS_HEAP_MIN_ALIGNMENT)) < x + 16.
Proof. intros H. change (u64 (- SYS_HEAP_MIN_ALIGNMENT)) with (u64 (- 2 ^ 4)). rewrite u64_id by lia. rewrite land_round_down by lia. replace (x + 15) with (x + 2 ^ 4 - 1) by lia. apply (round_up_spec 4 x). lia. Qed.

Lemma block_size_ok size : 0 < size < 2 ^ 61 -> block_size size mod 16 = 0 /\ size + 32 <= block_size size < size + 48 /\ 48 <= block_size size.
Proof.
  intros H. unfold block_size, sizeof_header. replace (size + 32 + SYS_HEAP_MIN_ALIGNMENT - 1) with (size + 32 + 15) by (unfold SYS_HEAP_MIN_ALIGNMENT; lia). destruct (round16 (size + 32)) as [H1 H2]; [lia|]. split; [done|]. split; [lia|]. set (x := Z.land _ _) in *. pose proof (Z.div_mod x 16 ltac:(lia)). lia.
Qed.

Lemma align_up_ok x : 0 <= x < 2 ^ 62 -> sys_memory_align_up_address x mod 4096 = 0 /\ x <= sys_memory_align_up_address x < x + 4096.
Proof.
  intros H. unfold sys_memory_align_up_address. change (u64 (- SYS_PAGE_SIZE)) with (u64 (- 2 ^ 12)). replace (x + SYS_PAGE_SIZE - 1) with (x + 2 ^ 12 - 1) by (unfold SYS_PAGE_SIZE; lia). rewrite u64_id by lia. rewrite land_round_down by lia. apply (round_up_spec 12 x). lia.
Qed.

Lemma mapped_le B a n m : mapped B a n -> m <= n -> mapped B a m.
Proof. intros (H1 & H2 & H3 & Hu) Hm. split; [done|]. split; [done|]. split; [lia|]. intros c d Ed. destruct (Hu c d Ed); [left; lia | by right]. Qed.

(** The result of an allocation: [a] was not in use, and is a live block of at least [n] bytes now. *)
Record allocated (s : sys_heap_t) (B : gmap Z blk) (s' : sys_heap_t) (B' : gmap Z blk) (a n : Z) : Prop := {
  al_block : exists b, B' !! a = Some b /\ live (bkind b) /\ n <= bsize b;
  al_new : forall b, B !! a = Some b -> ~ live (bkind b);
  al_live : same_live B B' a;
  al_keeps : keeps B s s'
}.

Lemma take_allocated s B s1 B1 F1 a size : inv s1 B1 F1 0 -> (forall p, same_live B B1 p) -> keeps B s s1 -> fits B1 size a -> 48 <= size -> size mod 16 = 0 ->
  exists s' B' F', carve_block s1 a size = Some s' /\ inv s' B' F' 0 /\ allocated s B s' B' a size.
Proof.
  intros Hi Hlive Hk (b & E & Hf & Hle) Hz Hm. destruct (carve_block_ok s1 B1 F1 a b size Hi E Hf ltac:(lia) Hm) as (s' & B' & F' & sz & Et & Hi' & Ea & Hsz & Hl & Hk'). exists s', B', F'. split; [done|]. split; [done|]. split.
  - exists (Blk sz Used (bbase b)). split; [done|]. split; [by left | done].
  - intros b0 E0 Hl0. apply (Hlive (a + 1) a b0) in E0; [| lia | done]. simplify_eq. rewrite Hf in Hl0. by destruct Hl0.
  - intros c d Hc Hd. by rewrite (Hl c d Hc Hd), (Hlive a c d Hc Hd).
  - apply (keeps_trans B s s1); [done|]. intros c d Ed Hd. apply (Hk' c d); [| done]. by apply (Hlive (c + 1)); [lia | |].
Qed.

Lemma map_dedicated s B F d n : inv s B F 0 -> mapped B d n -> n mod 4096 = 0 -> 2 ^ 16 <= n -> let s' := _heap_block_header_init n 0 (Z.lor SYS_HEAP_BLOCK_HEADER_FLAG_USED SYS_HEAP_BLOCK_HEADER_FLAG_DEDICATED) s d in
  inv s' (<[d := Blk n Dedicated d]> B) F 0 /\ allocated s B s' (<[d := Blk n Dedicated d]> B) d n.
Proof.
  intros Hi (H1 & H2 & H3 & Hu) Hn Hn0 s'. pose proof (iv_shape _ _ _ _ Hi) as Hs. pose proof (unused_none _ _ _ _ Hs Hu ltac:(lia) d ltac:(lia)) as Hno. assert (Hm : forall x, x mod 4096 = 0 -> x mod 16 = 0) by (intros x Hx; pose proof (Z.div_mod x 4096 ltac:(lia)); replace x with (x / 4096 * 256 * 16) by lia; apply Z.mod_mul; lia).
  assert (Hz : sized n) by (split; [lia | by apply Hm]). split.
  - split.
    + apply (shape_dedicated (headers s)); [done | done | by apply Hm | done | lia | done | unfold s'; rewrite init_core; change (Z.lor SYS_HEAP_BLOCK_HEADER_FLAG_USED SYS_HEAP_BLOCK_HEADER_FLAG_DEDICATED) with 3; by rewrite lor_flag by (done || lia) | intros c Hc; unfold s'; by rewrite init_other].
    + apply init_lists; [apply Hi|]. intros i H0 Hin. destruct (free_in _ _ _ _ _ _ Hi H0 Hin) as (b & Eb & _). congruence.
    + intros i c H0. rewrite (in_list s B F 0) by done. split; intros [Hc (b & Eb & Hb & Hj)]; (split; [done|]); exists b; [rewrite lookup_insert_ne; [done | intros <-; congruence] | apply lookup_insert_Some in Eb as [[<- <-] | [_ Eb]]; done].
  - split.
    + exists (Blk n Dedicated d). split; [by rewrite lookup_insert_eq|]. split; [by right | done].
    + intros b Eb. congruence.
    + intros c b Hc _. by rewrite lookup_insert_ne.
    + apply init_keeps. intros c b Eb _. eapply unused_apart; [exact Hs | exact Hu | lia | lia | done].
Qed.

Lemma heap_alloc_ok s B F size d r : inv s B F 0 -> 0 < size < 2 ^ 61 -> mapped B d (Z.max SYS_HEAP_GROW_SIZE (size + 8192)) ->
  exists s' B' F' a ans, sys_heap_alloc (d :: r) s size = Some (s', a + sizeof_header, ans) /\ inv s' B' F' 0 /\ allocated s B s' B' a (block_size size) /\ (ans = d :: r \/ ans = r).
Proof.
  intros Hi Hsz Hmap. destruct (block_size_ok size Hsz) as (Hm & Hr & H48). unfold sys_heap_alloc. destruct (Z.eqb_spec size 0); [lia|]. unfold is_large. change (Z.shiftl SYS_HEAP_MIN_ALIGNMENT SYS_HEAP_BUCKET_COUNT) with (2 ^ 16). destruct (Z.leb_spec (2 ^ 16) (block_size size)) as [Hl | Hl].
  - destruct (align_up_ok (block_size size)) as [Ha1 Ha2]; [lia|]. destruct (map_dedicated s B F d (sys_memory_align_up_address (block_size size)) Hi) as [Hi' Hal]; [eapply mapped_le; [exact Hmap | lia] | done | lia |]. eexists _, _, F, d, r. split; [done|]. split; [exact Hi'|]. split; [| by right].
    destruct Hal as [(b & Eb & Hb & Hn) H2 H3 H4]. split; [exists b; split; [done|]; split; [done | lia] | done | done | done].
  - destruct (index_ok (block_size size)) as [-> H0]; [lia|]. cbn [mbind option_bind]. assert (Hgrow : mapped B d SYS_HEAP_GROW_SIZE) by (eapply mapped_le; [exact Hmap | lia]). destruct (grow_heap_ok s B F d Hi Hgrow) as (s1 & F1 & Eg & Hi1 & Hk1 & Hin1).
    assert (Hlive1 : forall p, same_live B (arena_blocks d B) p) by (apply grow_live; destruct Hgrow as (_ & _ & _ & Hu); unfold SYS_HEAP_GROW_SIZE in Hu; apply (unused_none _ _ _ _ (iv_shape _ _ _ _ Hi) Hu); lia).
    assert (Hfit1 : fits (arena_blocks d B) (block_size size) (d + 32)) by (exists (Blk 262080 Free d); split; [unfold arena_blocks; rewrite lookup_insert_ne by lia; by rewrite lookup_insert_eq|]; split; [done | cbn; lia]).
    destruct (choose_grown s1 _ F1 (block_size size) (d + 32) Hi1 ltac:(lia) Hm Hin1 Hfit1) as (a1 & Hfa1 & Hch1). destruct (take_allocated s B s1 _ F1 a1 (block_size size) Hi1 Hlive1 Hk1 Hfa1 H48 Hm) as (s2 & B2 & F2 & Et & Hi2 & Hal2).
    assert (Hafter : forall ans, ('(s, header, answers) ← choose_block ans s1 (idx (block_size size)) (block_size size); s ← carve_block s header (block_size size); Some (s, header + sizeof_header, answers)) = Some (s2, a1 + sizeof_header, ans)) by (intros ans; rewrite Hch1; cbn [mbind option_bind]; by rewrite Et).
    destruct (Z.shiftr (bucket_bitmap s) (idx (block_size size)) =? 0); [rewrite Eg; cbn [mbind option_bind]; rewrite Hafter; exists s2, B2, F2, a1, r; split; [done|]; split; [done|]; split; [done | by right]|]. cbn [mbind option_bind].
    destruct (choose_step s B F (block_size size) Hi ltac:(lia) Hm) as [(a & Hfa & Hch) | (Hch & _)].
    + rewrite Hch. cbn [mbind option_bind]. destruct (take_allocated s B s B F a (block_size size) Hi ltac:(done) ltac:(done) Hfa H48 Hm) as (s3 & B3 & F3 & -> & Hi3 & Hal3). cbn [mbind option_bind]. exists s3, B3, F3, a, (d :: r). split; [done|]. split; [done|]. split; [done | by left].
    + rewrite Hch, Eg. cbn [mbind option_bind]. rewrite Hafter. exists s2, B2, F2, a1, r. split; [done|]. split; [done|]. split; [done | by right].
Qed.

(** ** Changing headers *)

(** A store that keeps the links of a header. *)
Lemma update_lists s F a f h : lists s F -> headers s !! a = Some h -> links (f h) = links h -> lists (Heap (buckets s) (bucket_bitmap s) (<[a := f h]> (headers s)) (memory s)) F.
Proof.
  intros Hl E Hf. eapply lists_frame; [exact Hl | done | done |]. intros i m _ _. cbn [headers]. destruct (decide (m = a)) as [-> | Hm]; [rewrite lookup_insert_eq, E; cbn; by rewrite Hf | by rewrite lookup_insert_ne].
Qed.

(** The contents of the live blocks but [p]. *)
Definition keeps_but (B : gmap Z blk) (p : Z) (s s' : sys_heap_t) : Prop :=
  forall a b, B !! a = Some b -> live (bkind b) -> a <> p -> forall x, a + 32 <= x < a + bsize b -> memory s' x = memory s x.

(** A free block joined with the next one. *)
Lemma merge_block_ok s B F a b : inv s B F a -> B !! a = Some b -> bkind b = Free ->
  exists s' B' F' b', merge_next s a = Some s' /\ inv s' B' F' a /\ B' !! a = Some b' /\ bkind b' = Free /\ (forall p, same_live B B' p) /\ memory s' = memory s.
Proof.
  intros Hi E Hk. pose proof (iv_shape _ _ _ _ Hi) as Hs. destruct (block_header _ _ _ _ _ _ Hi E) as (h & Eh & Hsz & Hoff). destruct (sh_addr _ _ Hs a b E) as (A1 & A2 & A3 & A4). destruct (sh_succ _ _ Hs a b E) as (n & En & Hnd & Hbase); [by rewrite Hk|]. destruct (block_header _ _ _ _ _ _ Hi En) as (hn & Ehn & Hszn & _). destruct (sh_addr _ _ Hs _ n En) as (N1 & N2 & N3 & N4).
  unfold merge_next. rewrite Eh. cbn [mbind option_bind]. rewrite (get_size_ok h _ _ Hsz A3), Ehn. cbn [mbind option_bind]. rewrite (header_used_ok hn _ _ Hszn N3). destruct (bool_decide_reflect (bkind n <> Free)) as [Hu | Hu]; [exists s, B, F, b; done|].
  assert (Hkn : bkind n = Free) by (destruct (decide (bkind n = Free)); [done | by destruct Hu]). destruct (remove_inv s B F a _ n Hi En Hkn ltac:(lia)) as (s1 & F1 & -> & Hl1 & Hr1 & HF1). cbn [mbind option_bind].
  assert (Hs1 : shape (headers s1) B) by (eapply shape_frame; [exact Hs | intros c _; apply Hr1]). pose proof (sh_core _ _ Hs1 a b E) as Hc. destruct (headers s1 !! a) as [h1 |] eqn:Eh1; [| done]. injection Hc as Hsz1 Hoff1. rewrite Hk in Hsz1. cbn [flag] in Hsz1.
  rewrite (update_header s1 a _ h1 Eh1). cbn [mbind option_bind headers]. rewrite lookup_insert_eq. cbn [mbind option_bind]. rewrite (get_size_ok hn _ _ Hszn N3), Hsz1. destruct (sh_arena _ _ Hs _ n En) as [_ N6]; [by rewrite Hkn|]. destruct (sh_arena _ _ Hs a b E) as [A5 A6]; [by rewrite Hk|]. rewrite Hbase in N6. unfold SYS_HEAP_GROW_SIZE in *. rewrite u64_id by (destruct A3, N3; lia).
  assert (Hz : sized (bsize b + bsize n)) by (destruct A3 as [? A3], N3 as [? N3]; split; [lia | by rewrite Z.add_mod, A3, N3 by lia]). set (h2 := set_size (bsize b + 0 + bsize n) h1). rewrite (get_size_ok h2 (bsize b + bsize n) Free) by (done || (cbn; lia)).
  destruct (sh_succ _ _ Hs _ n En) as (q & Eq & _); [by rewrite Hkn|]. destruct (sh_addr _ _ Hs _ q Eq) as (Q1 & _). pose proof (sh_core _ _ Hs1 _ q Eq) as Hcq. destruct (headers s1 !! (a + bsize b + bsize n)) as [hq |] eqn:Ehq; [| done].
  rewrite (update_header _ _ _ hq) by (cbn [headers]; rewrite lookup_insert_ne by lia; done). cbn [buckets bucket_bitmap headers memory]. set (H3 := <[a + bsize b + bsize n := set_prev_size (bsize b + bsize n) hq]> (<[a := h2]> (headers s1))).
  set (B' := <[a := Blk (bsize b + bsize n) Free (bbase b)]> (delete (a + bsize b) B)). eexists _, B', F1, _. split; [done|]. split; [| split; [unfold B'; by rewrite lookup_insert_eq | split; [done | split; [| cbn; apply Hr1]]]].
  - split.
    + cbn [headers]. apply (shape_merge (headers s1) H3 B a b n Hs1 E Hk En Hkn Hbase); [unfold H3; rewrite lookup_insert_ne by lia; rewrite lookup_insert_eq; unfold core, h2; cbn [set_size size_and_flags offset fmap option_fmap option_map]; rewrite Hoff1; repeat f_equal; lia|]. intros c Hc. unfold H3. destruct (decide (c = a + bsize b + bsize n)) as [-> | Hc']; [rewrite lookup_insert_eq, Ehq; done | by rewrite !lookup_insert_ne by lia].
    + change (Heap (buckets s1) (bucket_bitmap s1) H3 (memory s1)) with (Heap (buckets (Heap (buckets s1) (bucket_bitmap s1) (<[a := h2]> (headers s1)) (memory s1))) (bucket_bitmap (Heap (buckets s1) (bucket_bitmap s1) (<[a := h2]> (headers s1)) (memory s1))) (<[a + bsize b + bsize n := (set_prev_size (bsize b + bsize n)) hq]> (headers (Heap (buckets s1) (bucket_bitmap s1) (<[a := h2]> (headers s1)) (memory s1)))) (memory (Heap (buckets s1) (bucket_bitmap s1) (<[a := h2]> (headers s1)) (memory s1)))).
      apply update_lists; [by apply (update_lists s1 F1 a (fun _ => h2) h1) | cbn [headers]; by rewrite lookup_insert_ne by lia | done].
    + intros i c H0. rewrite HF1, (in_list s B F a) by done. unfold B'. split.
      * intros [[H1 (d & Ed & Hd)] H2]. split; [done|]. exists d. rewrite lookup_insert_ne by done. by rewrite lookup_delete_ne.
      * intros [H1 (d & Ed & Hd)]. rewrite lookup_insert_ne in Ed by done. apply lookup_delete_Some in Ed as [Hne Ed]. split; [split; [done | by exists d] | done].
  - intros p c d _ Hl. unfold B'. split.
    + intros [[<- <-] | [_ Ed]]%lookup_insert_Some; [by destruct Hl|]. by apply lookup_delete_Some in Ed as [_ ?].
    + intros Ed. assert (c <> a) by (intros ->; rewrite E in Ed; injection Ed as <-; rewrite Hk in Hl; by destruct Hl). assert (c <> a + bsize b) by (intros ->; rewrite En in Ed; injection Ed as <-; rewrite Hkn in Hl; by destruct Hl). rewrite lookup_insert_ne by done. by rewrite lookup_delete_ne.
Qed.

(** ** Releasing *)

Lemma header_of_ok s B F x a b : inv s B F x -> B !! a = Some b -> header_of s (a + sizeof_header) = Some a.
Proof. intros Hi E. destruct (block_header _ _ _ _ _ _ Hi E) as (h & Eh & _ & Hoff). unfold header_of. replace (a + sizeof_header - sizeof_header) with a by lia. rewrite Eh. cbn [mbind option_bind]. rewrite Hoff. f_equal. lia. Qed.

(** A block that was released. *)
Record released (s : sys_heap_t) (B : gmap Z blk) (s' : sys_heap_t) (B' : gmap Z blk) (a : Z) : Prop := {
  re_gone : forall b, B' !! a = Some b -> ~ live (bkind b);
  re_live : same_live B B' a;
  re_memory : memory s' = memory s
}.

Lemma unmap_block_ok s B F a b : inv s B F 0 -> B !! a = Some b -> bkind b = Dedicated -> inv (sys_memory_unmap s a) (delete a B) F 0 /\ released s B (sys_memory_unmap s a) (delete a B) a.
Proof.
  intros Hi E Hk. assert (Hno : forall i, 0 <= i < 12 -> a ∉ F i) by (intros i H0 Hin; destruct (free_in _ _ _ _ _ _ Hi H0 Hin) as (d & Ed & Hd & _); simplify_eq; congruence). split.
  - split; [by apply (shape_unmap _ _ _ b); [apply Hi | |] | |].
    + eapply lists_frame; [apply Hi | done | done |]. intros i m H0 Hm. cbn. rewrite lookup_delete_ne; [done | intros ->; by apply (Hno i)].
    + intros i c H0. rewrite (in_list s B F 0) by done. split; intros [Hc (d & Ed & Hd & Hj)]; (split; [done|]); exists d; [rewrite lookup_delete_ne; [done | intros ->; simplify_eq; congruence] | by apply lookup_delete_Some in Ed as [_ ?]].
  - split; [by intros d; rewrite lookup_delete_eq | intros c d Hc _; by rewrite lookup_delete_ne | done].
Qed.

Lemma heap_dealloc_ok s B F a b : inv s B F 0 -> B !! a = Some b -> live (bkind b) -> exists s' B' F', sys_heap_dealloc s (a + sizeof_header) = Some s' /\ inv s' B' F' 0 /\ released s B s' B' a.
Proof.
  intros Hi E Hl. pose proof (iv_shape _ _ _ _ Hi) as Hs. destruct (block_header _ _ _ _ _ _ Hi E) as (h & Eh & Hsz & Hoff). destruct (sh_addr _ _ Hs a b E) as (A1 & A2 & A3 & A4). unfold sys_heap_dealloc. destruct (Z.eqb_spec (a + sizeof_header) 0); [unfold sizeof_header in *; lia|]. rewrite (header_of_ok _ _ _ _ _ _ Hi E). cbn [mbind option_bind]. rewrite Eh. cbn [mbind option_bind]. rewrite (is_dedicated_ok h _ _ Hsz A3).
  destruct (bool_decide_reflect (bkind b = Dedicated)) as [Hd | Hd].
  - destruct (unmap_block_ok s B F a b Hi E Hd) as [Hi' Hre]. eexists _, _, F. split; [done|]. done.
  - assert (Hk : bkind b = Used) by by destruct Hl. rewrite (update_header _ _ _ h Eh). cbn [mbind option_bind]. rewrite Hsz, Hk. cbn [flag]. rewrite clear_used by done. set (s1 := Heap _ _ _ _). set (B1 := <[a := Blk (bsize b) Free (bbase b)]> B).
    assert (Hno : forall i, 0 <= i < 12 -> a ∉ F i) by (intros i H0 Hin; destruct (free_in _ _ _ _ _ _ Hi H0 Hin) as (d & Ed & Hdk & _); simplify_eq; congruence).
    assert (Hi1 : inv s1 B1 F a).
    { split.
      - apply (shape_kind (headers s)); [done | done | by right | by left | unfold s1; cbn [headers]; rewrite lookup_insert_eq; unfold core; cbn [fmap option_fmap option_map set_size size_and_flags offset flag]; by rewrite Z.add_0_r, Hoff | intros c Hc; cbn; by rewrite lookup_insert_ne].
      - apply (update_lists s F a (set_size (bsize b)) h); [apply Hi | done | done].
      - intros i c H0. rewrite (in_list s B F 0) by done. unfold B1. split.
        + intros [Hc (d & Ed & Hdk & Hj)]. assert (c <> a) by (intros ->; simplify_eq; congruence). split; [done|]. exists d. by rewrite lookup_insert_ne.
        + intros [Hc (d & Ed & Hdk)]. rewrite lookup_insert_ne in Ed by done. split; [| by exists d]. destruct (sh_addr _ _ Hs c d Ed). lia. }
    assert (E1 : B1 !! a = Some (Blk (bsize b) Free (bbase b))) by (unfold B1; by rewrite lookup_insert_eq). destruct (merge_block_ok s1 B1 F a _ Hi1 E1 eq_refl) as (s2 & B2 & F2 & b2 & -> & Hi2 & E2 & Hk2 & Hl2 & Hm2). cbn [mbind option_bind].
    destruct (insert_inv s2 B2 F2 a b2 Hi2 E2 Hk2) as (s3 & F3 & -> & Hi3 & Hr3 & _). exists s3, B2, F3. split; [done|]. split; [done|]. split.
    + intros d Ed. rewrite E2 in Ed. injection Ed as <-. rewrite Hk2. by intros [? | ?].
    + intros c d Hc Hld. rewrite (Hl2 a c d Hc Hld). unfold B1. by rewrite lookup_insert_ne.
    + rewrite (rl_memory _ _ Hr3), Hm2. done.
Qed.

(** ** Resizing *)

(** The block [a] became the block [a'], with its first [n] bytes. *)
Record resized (s : sys_heap_t) (B : gmap Z blk) (s' : sys_heap_t) (B' : gmap Z blk) (a a' n size : Z) : Prop := {
  rs_block : exists b, B' !! a' = Some b /\ live (bkind b) /\ size <= bsize b;
  rs_new : a' <> a -> (forall b, B !! a' = Some b -> ~ live (bkind b)) /\ (forall b, B' !! a = Some b -> ~ live (bkind b));
  rs_live : forall c b, c <> a -> c <> a' -> live (bkind b) -> B' !! c = Some b <-> B !! c = Some b;
  rs_contents : forall i, 0 <= i < n -> memory s' (a' + 32 + i) = memory s (a + 32 + i);
  rs_keeps : keeps_but B a s s'
}.

Lemma block_size_again n : n mod 16 = 0 -> 48 <= n < 2 ^ 60 -> block_size (n - sizeof_header) = n.
Proof.
  intros Hm Hr. destruct (block_size_ok (n - sizeof_header)) as (H1 & H2 & _); [unfold sizeof_header; lia|]. unfold sizeof_header in *. pose proof (Z.div_mod n 16 ltac:(lia)). pose proof (Z.div_mod (block_size (n - 32)) 16 ltac:(lia)). lia.
Qed.

Lemma copy_inv s B F x a c n : inv s B F x -> inv (sys_memory_copy s a c n) B F x.
Proof. intros [H1 H2 H3]. split; [done | by eapply lists_frame | done]. Qed.

Lemma dealloc_dedicated s B F a b : inv s B F 0 -> B !! a = Some b -> bkind b = Dedicated -> sys_heap_dealloc s (a + sizeof_header) = Some (sys_memory_unmap s a).
Proof.
  intros Hi E Hd. destruct (block_header _ _ _ _ _ _ Hi E) as (h & Eh & Hh & _). destruct (sh_addr _ _ (iv_shape _ _ _ _ Hi) a b E) as (A1 & _ & A3 & _). unfold sys_heap_dealloc. destruct (Z.eqb_spec (a + sizeof_header) 0); [unfold sizeof_header in *; lia|]. rewrite (header_of_ok _ _ _ _ _ _ Hi E). cbn [mbind option_bind]. rewrite Eh. cbn [mbind option_bind]. by rewrite (is_dedicated_ok h _ _ Hh A3), bool_decide_eq_true_2.
Qed.

(** Copying to a new block and releasing the old one. *)
Lemma move_block_ok s B s1 B1 F1 a b a1 n len size : B !! a = Some b -> live (bkind b) -> inv s1 B1 F1 0 -> allocated s B s1 B1 a1 n -> 0 <= len -> len + 32 <= n -> len + 32 <= bsize b -> size <= n ->
  exists s' B' F', sys_heap_dealloc (sys_memory_copy s1 (a + sizeof_header) (a1 + sizeof_header) len) (a + sizeof_header) = Some s' /\ inv s' B' F' 0 /\ resized s B s' B' a a1 len size.
Proof.
  intros E Hl Hi1 [(b1 & E1 & Hl1 & Hn) Hnew Hlive Hkeeps] H0 Hlen Hlenb Hsize. assert (Hne : a1 <> a) by (intros ->; by apply (Hnew b)). assert (E1a : B1 !! a = Some b) by by apply Hlive. set (s2 := sys_memory_copy s1 _ _ len). pose proof (copy_inv s1 B1 F1 0 (a + sizeof_header) (a1 + sizeof_header) len Hi1) as Hi2. fold s2 in Hi2.
  destruct (heap_dealloc_ok s2 B1 F1 a b Hi2 E1a Hl) as (s3 & B3 & F3 & -> & Hi3 & [Hg Hl3 Hm3]). exists s3, B3, F3. split; [done|]. split; [done|].
  assert (Hout : forall x, x < a1 + 32 \/ a1 + 32 + len <= x -> memory s2 x = memory s1 x) by (intros x Hx; unfold s2, sys_memory_copy, sizeof_header; cbn [memory]; apply mem_write_out; rewrite length_mem_read; lia). split.
  - exists b1. split; [by apply Hl3 | split; [done | lia]].
  - intros _. split; [exact Hnew | exact Hg].
  - intros c d Hca Hc1 Hd. by rewrite (Hl3 c d Hca Hd), (Hlive c d Hc1 Hd).
  - intros i Hx. rewrite Hm3. unfold s2, sys_memory_copy, sizeof_header. cbn [memory]. rewrite mem_write_read by lia. destruct (Z.leb_spec (a1 + 32) (a1 + 32 + i)), (Z.ltb_spec (a1 + 32 + i) (a1 + 32 + len)); cbn [andb]; try lia. rewrite (Hkeeps a b E Hl) by lia. f_equal. lia.
  - intros c d Ed Hd Hca x Hx. rewrite Hm3, Hout; [by apply (Hkeeps c d)|]. assert (Hc1 : c <> a1) by (intros ->; by apply (Hnew d)). assert (Ed1 : B1 !! c = Some d) by by apply Hlive. destruct (sh_disj _ _ (iv_shape _ _ _ _ Hi1) c d a1 b1 Ed1 E1 Hc1); lia.
Qed.

(** Cutting off the end of a block. *)
Lemma shrink_block_ok s B F a b h size : inv s B F 0 -> B !! a = Some b -> bkind b = Used -> headers s !! a = Some h -> 48 <= size -> 48 <= bsize b - size -> size mod 16 = 0 ->
  exists s' B' F', (s ← update s (a + bsize b) (set_prev_size (bsize b - size)); s ← update s a (set_size (Z.lor size SYS_HEAP_BLOCK_HEADER_FLAG_USED)); s ← merge_next (_heap_block_header_init (bsize b - size) size 0 s (a + size)) (a + size); _insert_block s (a + size)) = Some s' /\
    inv s' B' F' 0 /\ resized s B s' B' a a (size - 32) size.
Proof.
  intros Hi E Hk Eh Hz Hz' Hm. pose proof (iv_shape _ _ _ _ Hi) as Hs. destruct (sh_addr _ _ Hs a b E) as (A1 & A2 & A3 & A4). destruct (sh_succ _ _ Hs a b E) as (n & En & _); [by rewrite Hk|]. destruct (block_header _ _ _ _ _ _ Hi En) as (hn & Ehn & _). rewrite (update_header _ _ _ hn Ehn). cbn [mbind option_bind]. rewrite (update_header _ _ _ h) by (cbn [headers]; by rewrite lookup_insert_ne by lia). cbn [mbind option_bind buckets bucket_bitmap headers memory].
  set (s1 := Heap (buckets s) (bucket_bitmap s) (<[a + bsize b := set_prev_size (bsize b - size) hn]> (headers s)) (memory s)). set (s2 := Heap (buckets s) (bucket_bitmap s) (<[a := set_size (Z.lor size SYS_HEAP_BLOCK_HEADER_FLAG_USED) h]> (<[a + bsize b := set_prev_size (bsize b - size) hn]> (headers s))) (memory s)). set (s3 := _heap_block_header_init (bsize b - size) size 0 s2 (a + size)).
  assert (Hzs : sized size) by (unfold sized in *; split; [lia | done]). destruct (shape_split (headers s) (headers s3) B a b size Used Hs E (or_intror Hk) (or_intror eq_refl) Hz Hz' Hm) as [Hno Hs3].
  { unfold s3. rewrite init_other by lia. cbn [s2 headers]. unfold s2. cbn [headers]. rewrite lookup_insert_eq. unfold core. cbn [fmap option_fmap option_map set_size size_and_flags offset]. destruct (block_header _ _ _ _ _ _ Hi E) as (h' & Eh' & _ & Hoff). rewrite Eh in Eh'. injection Eh' as <-. by rewrite Hoff, lor_flag by (done || (unfold SYS_HEAP_BLOCK_HEADER_FLAG_USED; lia)). }
  { unfold s3. rewrite init_core. by rewrite Z.lor_0_r. }
  { intros c Hc1 Hc2. unfold s3. rewrite init_other by done. unfold s2. cbn [headers]. rewrite lookup_insert_ne by done. destruct (decide (c = a + bsize b)) as [-> | Hc3]; [by rewrite lookup_insert_eq, Ehn | by rewrite lookup_insert_ne]. }
  set (B1 := <[a := _]> _) in Hs3. assert (Hq : forall i, 0 <= i < 12 -> a + size ∉ F i) by (intros i H0 Hin; destruct (free_in _ _ _ _ _ _ Hi H0 Hin) as (d & Ed & _); congruence). assert (Ha : forall i, 0 <= i < 12 -> a ∉ F i) by (intros i H0 Hin; destruct (free_in _ _ _ _ _ _ Hi H0 Hin) as (d & Ed & Hd & _); simplify_eq; congruence).
  assert (Hi3 : inv s3 B1 F (a + size)).
  { split; [done | |].
    - apply init_lists; [| done]. apply (update_lists s1 F a (set_size (Z.lor size SYS_HEAP_BLOCK_HEADER_FLAG_USED)) h); [apply (update_lists s F (a + bsize b) (set_prev_size (bsize b - size)) hn); [apply Hi | done | done] | unfold s1; cbn [headers]; by rewrite lookup_insert_ne by lia | done].
    - intros i c H0. rewrite (in_list s B F 0) by done. unfold B1. split.
      + intros [H1 (d & Ed & Hd & Hj)]. assert (c <> a) by (intros ->; simplify_eq; congruence). assert (c <> a + size) by (intros ->; congruence). split; [done|]. exists d. by rewrite !lookup_insert_ne.
      + intros [H1 (d & Ed & Hd & Hj)]. apply lookup_insert_Some in Ed as [[<- <-] | [Hne Ed]]; [done|]. rewrite lookup_insert_ne in Ed by done. split; [| by exists d]. destruct (sh_addr _ _ Hs c d Ed). lia. }
  assert (E1 : B1 !! (a + size) = Some (Blk (bsize b - size) Free (bbase b))) by (unfold B1; rewrite lookup_insert_ne by lia; by rewrite lookup_insert_eq). destruct (merge_block_ok s3 B1 F (a + size) _ Hi3 E1 eq_refl) as (s4 & B4 & F4 & b4 & -> & Hi4 & E4 & Hk4 & Hl4 & Hm4). cbn [mbind option_bind].
  destruct (insert_inv s4 B4 F4 (a + size) b4 Hi4 E4 Hk4) as (s5 & F5 & -> & Hi5 & Hr5 & _). exists s5, B4, F5. split; [done|]. split; [done|].
  assert (Hmem : forall x, x < a + size \/ a + size + 32 <= x -> memory s5 x = memory s x) by (intros x Hx; rewrite (rl_memory _ _ Hr5), Hm4; unfold s3, s2; cbn [_heap_block_header_init memory]; apply mem_write_out; rewrite length_replicate; lia).
  assert (E1a : B1 !! a = Some (Blk size Used (bbase b))) by (unfold B1; by rewrite lookup_insert_eq). split.
  - exists (Blk size Used (bbase b)). split; [apply (Hl4 (a + 1)); [lia | by left | done] | split; [by left | done]].
  - done.
  - intros c d Hc _ Hd. rewrite (Hl4 a c d Hc Hd). unfold B1. rewrite lookup_insert_ne by done. split; [intros [[<- <-] | [_ Ed]]%lookup_insert_Some; [by destruct Hd | done] | intros Ed; rewrite lookup_insert_ne; [done | intros <-; congruence]].
  - intros i Hx. apply Hmem. lia.
  - intros c d Ed Hd Hc x Hx. apply Hmem. destruct (sh_disj _ _ Hs c d a b Ed E Hc); lia.
Qed.

Lemma stay_resized s B a b n size : B !! a = Some b -> live (bkind b) -> size <= bsize b -> resized s B s B a a n size.
Proof. intros E Hl Hs. split; [by exists b | done | done | done | done]. Qed.

(** The rounded size a request needs. *)
Definition needed (size : Z) : Z := if is_large (block_size size) then sys_memory_align_up_address (block_size size) else block_size size.

(** ** The heap *)

Lemma heap_init_inv H m : inv (sys_heap_init H m) ∅ (fun _ => []) 0.
Proof.
  split.
  - split; intros a b; rewrite lookup_empty; done.
  - split; [done | done | | | intros; apply NoDup_nil_2 | by intros i j a _ _ ?%not_elem_of_nil].
    + intros i _. cbn [sys_heap_init bucket_bitmap]. by rewrite Z.bits_0.
    + intros i Hi. cbn [dll]. unfold bucket. cbn [sys_heap_init buckets]. rewrite nth_lookup. destruct (replicate _ _ !! _) eqn:E; [by apply lookup_replicate in E as [-> _] | done].
  - intros i a _. split; [by intros ?%not_elem_of_nil | intros [_ (b & E & _)]; by rewrite lookup_empty in E].
Qed.

(** C23: The heap of user programs gives out disjoint memory.  An allocation ends after at most one call to the kernel for memory and returns a block that was not in use, with room for the request; the blocks in use are disjoint, aligned to 16 bytes, and keep their places and their contents.  Releasing a block makes exactly that block unused and changes no byte. *)
Theorem sys_heap_correct s B F : inv s B F 0 ->
  (forall size d r, 0 < size < 2 ^ 61 -> mapped B d (Z.max SYS_HEAP_GROW_SIZE (size + 8192)) ->
     exists s' B' F' a ans, sys_heap_alloc (d :: r) s size = Some (s', a + sizeof_header, ans) /\ inv s' B' F' 0 /\ allocated s B s' B' a (size + sizeof_header) /\ (ans = d :: r \/ ans = r)) /\
  (forall a b, B !! a = Some b -> live (bkind b) ->
     exists s' B' F', sys_heap_dealloc s (a + sizeof_header) = Some s' /\ inv s' B' F' 0 /\ released s B s' B' a) /\
  (forall a b c d, B !! a = Some b -> B !! c = Some d -> a <> c -> a mod 16 = 0 /\ apart (a + 32) (bsize b - 32) (c + 32) (bsize d - 32)).
Proof.
  intros Hi. split; [| split].
  - intros size d r Hs Hm. destruct (heap_alloc_ok s B F size d r Hi Hs Hm) as (s' & B' & F' & a & ans & E & Hi' & [(b & Eb & Hb & Hn) H2 H3 H4] & Hans). destruct (block_size_ok size Hs) as (_ & Hr & _). exists s', B', F', a, ans. split; [done|]. split; [done|]. split; [| done]. split; [exists b; split; [done|]; split; [done | unfold sizeof_header; lia] | done | done | done].
  - intros a b E Hl. by eapply heap_dealloc_ok.
  - intros a b c d E Ed Hne. pose proof (iv_shape _ _ _ _ Hi) as Hs. destruct (sh_addr _ _ Hs a b E) as (_ & Ha & _ & ?). destruct (sh_addr _ _ Hs c d Ed) as (_ & _ & _ & ?). split; [done|]. unfold apart. destruct (sh_disj _ _ Hs a b c d E Ed Hne); lia.
Qed.

Lemma sys_heap_correct_witness : exists s' B' F' a ans, sys_heap_alloc [1048576] (sys_heap_init ∅ (fun _ => 0)) 100 = Some (s', a + sizeof_header, ans) /\ inv s' B' F' 0 /\ allocated (sys_heap_init ∅ (fun _ => 0)) ∅ s' B' a (100 + sizeof_header).
Proof.
  destruct (sys_heap_correct (sys_heap_init ∅ (fun _ => 0)) ∅ (fun _ => []) (heap_init_inv ∅ (fun _ => 0))) as (H & _).
  destruct (H 100 1048576 []) as (s' & B' & F' & a & ans & E & Hi & Ha & _); [lia | | exists s', B', F', a, ans; split; [exact E | split; [exact Hi | exact Ha]]].
  split; [lia|]. split; [reflexivity|]. split; [vm_compute; discriminate|]. intros c d Hd. rewrite lookup_empty in Hd. discriminate Hd.
Defined.

(** C24: Resizing a block returns a block with room for the new size that holds the old contents up to the smaller of the two sizes; if it is another block, that was not in use before and the old one is unused now.  The other blocks in use keep their places and contents.  The thread is stopped only when a block is made smaller than it is and still large. *)
Theorem sys_heap_realloc_correct s B F a b size d r : inv s B F 0 -> B !! a = Some b -> live (bkind b) -> 0 < size < 2 ^ 59 -> mapped B d (Z.max SYS_HEAP_GROW_SIZE (size + 16384)) ->
  exists res, sys_heap_realloc (d :: r) s (a + sizeof_header) size = Some res /\
    match res with
    | Stops => is_large (block_size size) = true /\ needed size < bsize b
    | Moved s' ptr ans => exists a' B' F', ptr = a' + sizeof_header /\ inv s' B' F' 0 /\ resized s B s' B' a a' (Z.min size (bsize b - 32)) (size + 32) /\ (ans = d :: r \/ ans = r)
    end.
Proof.
  intros Hi E Hl Hsz Hmap. pose proof (iv_shape _ _ _ _ Hi) as Hs. destruct (block_header _ _ _ _ _ _ Hi E) as (h & Eh & Hh & _). destruct (sh_addr _ _ Hs a b E) as (A1 & A2 & A3 & A4). destruct (block_size_ok size ltac:(lia)) as (Hm & Hr & H48). unfold needed.
  assert (Hweak : forall s' B' a' n m, resized s B s' B' a a' n m -> Z.min size (bsize b - 32) <= n -> size + 32 <= m -> resized s B s' B' a a' (Z.min size (bsize b - 32)) (size + 32)).
  { intros s' B' a' n m [(b' & Eb' & Hb' & Hbm) H2 H3 H4 H5] Hn Hmm. split; [exists b'; split; [done|]; split; [done | lia] | done | done | intros i Hx; apply H4; lia | done]. }
  unfold sys_heap_realloc. destruct (Z.eqb_spec (a + sizeof_header) 0); [unfold sizeof_header in *; lia|]. destruct (Z.eqb_spec size 0); [lia|]. rewrite (header_of_ok _ _ _ _ _ _ Hi E). cbn [mbind option_bind]. rewrite Eh. cbn [mbind option_bind]. rewrite (get_size_ok h _ _ Hh A3), (is_dedicated_ok h _ _ Hh A3).
  assert (Hlg : is_large (block_size size) = (2 ^ 16 <=? block_size size)) by done. destruct (is_large (block_size size)) eqn:Elg.
  - destruct (align_up_ok (block_size size)) as [Ha1 Ha2]; [lia|]. set (z := sys_memory_align_up_address (block_size size)) in *. destruct (Z.eqb_spec (bsize b) z) as [Hz | Hz]; [eexists; split; [done|]; exists a, B, F; split; [done|]; split; [done|]; split; [eapply (stay_resized _ _ _ _ _ _ E Hl); lia | by left]|].
    destruct (Z.ltb_spec z (bsize b)) as [Hlt | Hge]; [eexists; split; [done|]; split; [done | done]|].
    destruct (map_dedicated s B F d z Hi) as [Hi1 Hal1]; [eapply mapped_le; [exact Hmap | lia] | done | lia |]. set (s1 := _heap_block_header_init _ _ _ s d) in *.
    destruct (move_block_ok s B s1 _ F a b d z (bsize b - 32) z E Hl Hi1 Hal1) as (s' & B' & F' & Ed & Hi' & Hres); [lia | lia | lia | lia |]. change (bsize b - sizeof_header) with (bsize b - 32). rewrite Ed. cbn [mbind option_bind]. eexists. split; [done|]. exists d, B', F'. split; [done|]. split; [done|]. split; [by eapply Hweak; [exact Hres | lia | lia] | by right].
  - symmetry in Hlg. apply Z.leb_gt in Hlg. assert (Hagain : block_size (block_size size - sizeof_header) = block_size size) by (apply block_size_again; [done | lia]).
    assert (Halloc : exists s1 B1 F1 a1 ans, sys_heap_alloc (d :: r) s (block_size size - sizeof_header) = Some (s1, a1 + sizeof_header, ans) /\ inv s1 B1 F1 0 /\ allocated s B s1 B1 a1 (block_size size) /\ (ans = d :: r \/ ans = r)).
    { assert (Hmap' : mapped B d (Z.max SYS_HEAP_GROW_SIZE (block_size size - sizeof_header + 8192))) by (eapply mapped_le; [exact Hmap | unfold sizeof_header; lia]). pose proof (heap_alloc_ok s B F (block_size size - sizeof_header) d r Hi ltac:(unfold sizeof_header; lia) Hmap') as Hal. by rewrite Hagain in Hal. }
    destruct Halloc as (s1 & B1 & F1 & a1 & ans & Eal & Hi1 & Hal1 & Hans). destruct (bool_decide_reflect (bkind b = Dedicated)) as [Hd | Hd].
    + rewrite Eal. cbn [mbind option_bind]. pose proof (sh_large _ _ Hs a b E Hd) as Hbig. destruct (move_block_ok s B s1 B1 F1 a b a1 (block_size size) (block_size size - 32) (block_size size) E Hl Hi1 Hal1) as (s' & B' & F' & Ed & Hi' & Hres); [lia | lia | lia | lia |].
      assert (Eu : sys_heap_dealloc (sys_memory_copy s1 (a + sizeof_header) (a1 + sizeof_header) (block_size size - 32)) (a + sizeof_header) = Some (sys_memory_unmap (sys_memory_copy s1 (a + sizeof_header) (a1 + sizeof_header) (block_size size - 32)) a)) by (eapply dealloc_dedicated; [by apply copy_inv | | exact Hd]; apply (al_live _ _ _ _ _ _ Hal1); [intros ->; by apply (al_new _ _ _ _ _ _ Hal1 b) | done | done]).
      rewrite Eu in Ed. injection Ed as <-. eexists. split; [done|]. exists a1, B', F'. split; [done|]. split; [done|]. split; [by eapply Hweak; [exact Hres | lia | lia] | done].
    + assert (Hk : bkind b = Used) by by destruct Hl. destruct (Z.eqb_spec (bsize b) (block_size size)) as [Hz | Hz]; [eexists; split; [done|]; exists a, B, F; split; [done|]; split; [done|]; split; [eapply (stay_resized _ _ _ _ _ _ E Hl); lia | by left]|].
      destruct (Z.ltb_spec (block_size size) (bsize b)) as [Hlt | Hge].
      * unfold sizeof_header at 1. destruct (Z.leb_spec (bsize b - block_size size) 32) as [Hx | Hx]; [eexists; split; [done|]; exists a, B, F; split; [done|]; split; [done|]; split; [eapply (stay_resized _ _ _ _ _ _ E Hl); lia | by left]|].
        assert (Hx48 : 48 <= bsize b - block_size size) by (destruct A3 as [_ A3]; pose proof (Z.div_mod (bsize b) 16 ltac:(lia)); pose proof (Z.div_mod (block_size size) 16 ltac:(lia)); lia).
        destruct (shrink_block_ok s B F a b h (block_size size) Hi E Hk Eh H48 Hx48 Hm) as (s' & B' & F' & Es & Hi' & Hres). exists (Moved s' (a + sizeof_header) (d :: r)). split; [| exists a, B', F'; split; [done|]; split; [done|]; split; [by eapply Hweak; [exact Hres | lia | lia] | by left]].
        destruct (update s (a + bsize b) _) as [t1 |]; [| done]. cbn [mbind option_bind] in *. destruct (update t1 a _) as [t2 |]; [| done]. cbn [mbind option_bind] in *. destruct (merge_next _ _) as [t3 |]; [| done]. cbn [mbind option_bind] in *. by rewrite Es.
      * rewrite Eal. cbn [mbind option_bind]. destruct (move_block_ok s B s1 B1 F1 a b a1 (block_size size) (bsize b - 32) (block_size size) E Hl Hi1 Hal1) as (s' & B' & F' & Ed & Hi' & Hres); [lia | lia | lia | lia |]. change (bsize b - sizeof_header) with (bsize b - 32). rewrite Ed. cbn [mbind option_bind]. eexists. split; [done|]. exists a1, B', F'. split; [done|]. split; [done|]. split; [by eapply Hweak; [exact Hres | lia | lia] | done].
Qed.

(** A heap with one large block. *)
Definition large_heap : sys_heap_t := _heap_block_header_init 200704 0 3 (sys_heap_init ∅ (fun _ => 7)) 1048576.
Definition large_blocks : gmap Z blk := <[1048576 := Blk 200704 Dedicated 1048576]> ∅.

Lemma large_heap_inv : inv large_heap large_blocks (fun _ => []) 0.
Proof.
  destruct (map_dedicated (sys_heap_init ∅ (fun _ => 7)) ∅ (fun _ => []) 1048576 200704 (heap_init_inv _ _)) as [H _]; [| done | lia | exact H]. split; [lia|]. split; [done|]. split; [lia|]. intros c d Hd. by rewrite lookup_empty in Hd.
Qed.

Lemma sys_heap_realloc_correct_witness : exists res, sys_heap_realloc [4194304] large_heap (1048576 + sizeof_header) 1000 = Some res /\
  match res with Stops => False | Moved s' ptr _ => exists a', ptr = a' + sizeof_header /\ forall i, 0 <= i < 1000 -> memory s' (a' + 32 + i) = 7 end.
Proof.
  destruct (sys_heap_realloc_correct large_heap large_blocks (fun _ => []) 1048576 (Blk 200704 Dedicated 1048576) 1000 4194304 []) as (res & E & H); [exact large_heap_inv | reflexivity | right; reflexivity | lia | |].
  - split; [lia|]. split; [reflexivity|]. split; [vm_compute; discriminate|]. intros c d Hd. unfold large_blocks in Hd. apply lookup_insert_Some in Hd as [[<- <-] | [_ Hd]]; [right; vm_compute; discriminate | rewrite lookup_empty in Hd; discriminate Hd].
  - exists res. split; [exact E|]. destruct res as [s' ptr ans |]; [| destruct H as [H _]; vm_compute in H; discriminate H]. destruct H as (a' & B' & F' & Hp & _ & Hr & _). exists a'. split; [exact Hp|]. intros i Hi. rewrite (rs_contents _ _ _ _ _ _ _ _ Hr i); [| cbn [bsize]; lia].
    unfold large_heap. cbn [_heap_block_header_init memory]. rewrite mem_write_out; [reflexivity|]. rewrite length_replicate. lia.
Defined.

(** ** What the heap does not do *)

(** A size close to 2^64 wraps around: the block is not larger than its header, and the allocation succeeds. *)
Theorem heap_size_overflow size : 2 ^ 64 - 47 <= size < 2 ^ 64 -> block_size size <= sizeof_header.
Proof.
  intros H. unfold block_size, SYS_HEAP_MIN_ALIGNMENT, sizeof_header. assert (Hu : u64 (size + 32 + 16 - 1) = size + 47 - 2 ^ 64) by (unfold u64, wrap; replace (size + 32 + 16 - 1) with (size + 47 - 2 ^ 64 + 1 * 2 ^ 64) by lia; rewrite Z.mod_add, Z.mod_small by lia; done). rewrite Hu. change (u64 (- (16))) with (u64 (- 2 ^ 4)). rewrite land_round_down by lia.
  pose proof (Z.mod_pos_bound (size + 47 - 2 ^ 64) (2 ^ 4) ltac:(lia)). pose proof (Z.div_mod (size + 47 - 2 ^ 64) (2 ^ 4) ltac:(lia)). pose proof (Z.div_lt_upper_bound (size + 47 - 2 ^ 64) (2 ^ 4) 3 ltac:(lia) ltac:(lia)). lia.
Qed.

Theorem heap_overflow_succeeds : (fun r => (r.1.2, _heap_block_header_get_size <$> headers r.1.1 !! 1048608)) <$> sys_heap_alloc [1048576] (sys_heap_init ∅ (fun _ => 0)) (2 ^ 64 - 1) = Some (1048640, Some 32).
Proof. vm_compute. reflexivity. Qed.

(** Making a large block smaller stops the thread. *)
Theorem heap_shrink_stops : sys_heap_realloc [] large_heap (1048576 + sizeof_header) 100000 = Some Stops.
Proof. vm_compute. reflexivity. Qed.
