(* ===== verification/Sha256.v ===== *)
(** * SHA-256 ([src/src/kernel/hash/sha256.c]).

    The code hashes a message incrementally, with a partial block buffered
    between calls and the eight working variables renamed from step to step
    instead of moved.  It is shown to compute the function of FIPS 180-4,
    written here from the standard, for every way to cut a message into
    pieces. *)
From stdpp Require Import base tactics list numbers.
From Stdlib Require Import ZArith Lia.
From S2P Require Import Prelude Bytes.
#[local] Open Scope Z_scope.

(** ** The code *)

Definition _rotate_bits_right (a b : Z) : Z := Z.lor (Z.shiftr a b) (u32 (Z.shiftl a (32 - b))).

(** Eight words: [a] to [h], also [result32]. *)
Record words8 := W8 { ra : Z; rb : Z; rc : Z; rd : Z; re : Z; rf : Z; rg : Z; rh : Z }.

Record hash_sha256_state_t := mk_sha {
  regs : words8;
  length_ : Z;
  buffer : list Z
}.

(** The new values of [d] and [h]. *)
Definition SHA256_STEP (a b c d e f g h v : Z) : Z * Z :=
  let t := u32 (Z.lxor (Z.lxor (_rotate_bits_right e 6) (_rotate_bits_right e 11)) (_rotate_bits_right e 25)
                + Z.lxor g (Z.land e (Z.lxor f g)) + h + v) in
  (u32 (d + t),
   u32 (t + Z.lxor (Z.lxor (_rotate_bits_right a 2) (_rotate_bits_right a 13)) (_rotate_bits_right a 22)
          + Z.lor (Z.land a b) (Z.land (Z.lor a b) c))).

Definition sha256_constants : list Z :=
  concat
    [[0x428a2f98; 0x71374491; 0xb5c0fbcf; 0xe9b5dba5];
     [0x3956c25b; 0x59f111f1; 0x923f82a4; 0xab1c5ed5];
     [0xd807aa98; 0x12835b01; 0x243185be; 0x550c7dc3];
     [0x72be5d74; 0x80deb1fe; 0x9bdc06a7; 0xc19bf174];
     [0xe49b69c1; 0xefbe4786; 0x0fc19dc6; 0x240ca1cc];
     [0x2de92c6f; 0x4a7484aa; 0x5cb0a9dc; 0x76f988da];
     [0x983e5152; 0xa831c66d; 0xb00327c8; 0xbf597fc7];
     [0xc6e00bf3; 0xd5a79147; 0x06ca6351; 0x14292967];
     [0x27b70a85; 0x2e1b2138; 0x4d2c6dfc; 0x53380d13];
     [0x650a7354; 0x766a0abb; 0x81c2c92e; 0x92722c85];
     [0xa2bfe8a1; 0xa81a664b; 0xc24b8b70; 0xc76c51a3];
     [0xd192e819; 0xd6990624; 0xf40e3585; 0x106aa070];
     [0x19a4c116; 0x1e376c08; 0x2748774c; 0x34b0bcb5];
     [0x391c0cb3; 0x4ed8aa4a; 0x5b9cca4f; 0x682e6ff3];
     [0x748f82ee; 0x78a5636f; 0x84c87814; 0x8cc70208];
     [0x90befffa; 0xa4506ceb; 0xbef9a3f7; 0xc67178f2]].

(** [for (u32 j=16;j<64;j++)] computes one word from the words before it. *)
Definition schedule_word (w : list Z) (j : nat) : Z :=
  let w2 := nth (j - 2) w 0 in
  let w15 := nth (j - 15) w 0 in
  u32 (Z.lxor (Z.lxor (_rotate_bits_right w2 17) (_rotate_bits_right w2 19)) (Z.shiftr w2 10)
       + nth (j - 7) w 0
       + Z.lxor (Z.lxor (_rotate_bits_right w15 7) (_rotate_bits_right w15 18)) (Z.shiftr w15 3)
       + nth (j - 16) w 0).

Fixpoint schedule_loop (n : nat) (w : list Z) : list Z :=
  match n with
  | O => w
  | S n => schedule_loop n (w ++ [schedule_word w (length w)])
  end.

(** Eight consecutive steps: after them every variable has its own name again.
    [v i] is [w[i]+K[i]]. *)
Definition eight_steps (v : nat -> Z) (s : words8) : words8 :=
  let '(W8 a b c d e f g h) := s in
  let '(d, h) := SHA256_STEP a b c d e f g h (v 0%nat) in
  let '(c, g) := SHA256_STEP h a b c d e f g (v 1%nat) in
  let '(b, f) := SHA256_STEP g h a b c d e f (v 2%nat) in
  let '(a, e) := SHA256_STEP f g h a b c d e (v 3%nat) in
  let '(h, d) := SHA256_STEP e f g h a b c d (v 4%nat) in
  let '(g, c) := SHA256_STEP d e f g h a b c (v 5%nat) in
  let '(f, b) := SHA256_STEP c d e f g h a b (v 6%nat) in
  let '(e, a) := SHA256_STEP b c d e f g h a (v 7%nat) in
  W8 a b c d e f g h.

Definition add8 (s t : words8) : words8 :=
  W8 (u32 (ra s + ra t)) (u32 (rb s + rb t)) (u32 (rc s + rc t)) (u32 (rd s + rd t))
     (u32 (re s + re t)) (u32 (rf s + rf t)) (u32 (rg s + rg t)) (u32 (rh s + rh t)).

Definition _process_chunk (s : words8) (chunk : list Z) : words8 :=
  let w := schedule_loop 48 (map (fun j => bswap32 (load32 chunk j)) (seq 0 16)) in
  let v j := u32 (nth j w 0 + nth j sha256_constants 0) in
  add8 s (foldl (fun s k => eight_steps (fun i => v (8 * k + i)%nat) s) s (seq 0 8)).

Definition sha256_iv : words8 :=
  W8 0x6a09e667 0xbb67ae85 0x3c6ef372 0xa54ff53a 0x510e527f 0x9b05688c 0x1f83d9ab 0x5be0cd19.

(** [buf] is the uninitialised buffer. *)
Definition hash_sha256_init (buf : list Z) : hash_sha256_state_t := mk_sha sha256_iv 0 buf.

(** [for (;length>=64;length-=64)]: the state and the bytes that remain; one
    unit of fuel per block. *)
Fixpoint full_chunks (n : nat) (s : words8) (chunk : list Z) : words8 * list Z :=
  match n with
  | O => (s, chunk)
  | S n => if (64 <=? length chunk)%nat then full_chunks n (_process_chunk s (take 64 chunk)) (drop 64 chunk)
           else (s, chunk)
  end.

(** The code after the buffered fragment was completed. *)
Definition process_rest (s : words8) (len : Z) (buf chunk : list Z) : hash_sha256_state_t :=
  let len := u64 (len + Z.of_nat (length chunk)) in
  let '(s, rest) := full_chunks (length chunk) s chunk in
  mk_sha s len (list_inserts 0 rest buf).

Definition hash_sha256_process_chunk (st : hash_sha256_state_t) (chunk : list Z) : hash_sha256_state_t :=
  if (length chunk =? 0)%nat then st
  else
    let padding := Z.to_nat (Z.land (length_ st) 63) in
    if (padding =? 0)%nat then process_rest (regs st) (length_ st) (buffer st) chunk
    else
      let fragment := (if 64 - padding <? length chunk then 64 - padding else length chunk)%nat in
      let buf := list_inserts padding (take fragment chunk) (buffer st) in
      let len := u64 (length_ st + Z.of_nat fragment) in
      if negb (padding + fragment =? 64)%nat then mk_sha (regs st) len buf
      else process_rest (_process_chunk (regs st) buf) len buf (drop fragment chunk).

(** The eight bytes of [__builtin_bswap64(x)] in memory. *)
Definition store_be64 (x : Z) : list Z :=
  map (fun i => Z.land (Z.shiftr x (56 - 8 * Z.of_nat i)) 0xff) (seq 0 8).

Definition result (s : words8) : list Z :=
  concat (map store_le32 [ra s; rb s; rc s; rd s; re s; rf s; rg s; rh s]).

Definition hash_sha256_finalize (st : hash_sha256_state_t) : hash_sha256_state_t :=
  let padding := Z.to_nat (Z.land (u64 (- length_ st - 9)) 63) in
  let tail := [0x80] ++ replicate padding 0 ++ store_be64 (u64 (Z.shiftl (length_ st) 3)) in
  let st := hash_sha256_process_chunk st tail in
  let s := regs st in
  mk_sha (W8 (bswap32 (ra s)) (bswap32 (rb s)) (bswap32 (rc s)) (bswap32 (rd s))
             (bswap32 (re s)) (bswap32 (rf s)) (bswap32 (rg s)) (bswap32 (rh s)))
         (length_ st) (buffer st).

(** ** FIPS 180-4 *)

Module Fips.

(** The integer cube root, bit by bit (35 bits cover the roots below). *)
Fixpoint cbrt_bits (n : nat) (x r : Z) : Z :=
  match n with
  | O => r
  | S n => let r' := r + 2 ^ Z.of_nat n in cbrt_bits n x (if r' ^ 3 <=? x then r' else r)
  end.

(** The first [n] primes, by trial division from [p] on. *)
Fixpoint primes (fuel n : nat) (p : Z) (acc : list Z) : list Z :=
  match fuel, n with
  | S fuel, S n' => if forallb (fun q => negb (p mod q =? 0)) acc then primes fuel n' (p + 1) (acc ++ [p])
                    else primes fuel n (p + 1) acc
  | _, _ => acc
  end.

(** Section 4.2.2: 32 bits of the fractional parts of the cube roots of the
    first 64 primes; section 5.3.3: of the square roots of the first eight. *)
Definition K : list Z := map (fun p => wrap 32 (cbrt_bits 36 (p * 2 ^ 96) 0)) (primes 400 64 2 []).
Definition H0 : list Z := map (fun p => wrap 32 (Z.sqrt (p * 2 ^ 64))) (primes 400 8 2 []).

Definition Ch (x y z : Z) : Z := Z.lxor (Z.land x y) (Z.land (lnot_w 32 x) z).
Definition Maj (x y z : Z) : Z := Z.lxor (Z.lxor (Z.land x y) (Z.land x z)) (Z.land y z).
Definition Rotr (n x : Z) : Z := Z.lor (Z.shiftr x n) (wrap 32 (Z.shiftl x (32 - n))).
Definition Sigma0 (x : Z) : Z := Z.lxor (Z.lxor (Rotr 2 x) (Rotr 13 x)) (Rotr 22 x).
Definition Sigma1 (x : Z) : Z := Z.lxor (Z.lxor (Rotr 6 x) (Rotr 11 x)) (Rotr 25 x).
Definition sigma0 (x : Z) : Z := Z.lxor (Z.lxor (Rotr 7 x) (Rotr 18 x)) (Z.shiftr x 3).
Definition sigma1 (x : Z) : Z := Z.lxor (Z.lxor (Rotr 17 x) (Rotr 19 x)) (Z.shiftr x 10).

(** Section 5.1.1: the padded message. *)
Definition pad (m : list Z) : list Z :=
  let l := Z.of_nat (length m) in
  m ++ [0x80] ++ replicate (Z.to_nat ((55 - l) mod 64)) 0
    ++ map (fun i => (8 * l / 2 ^ (56 - 8 * Z.of_nat i)) mod 256) (seq 0 8).

(** Big-endian words of a block. *)
Definition word (b : list Z) (j : nat) : Z :=
  ((nth (4 * j) b 0 * 256 + nth (4 * j + 1) b 0) * 256 + nth (4 * j + 2) b 0) * 256 + nth (4 * j + 3) b 0.

(** Section 6.2.2, step 1, by recursion on the index. *)
Fixpoint schedule (n : nat) (w : list Z) : list Z :=
  match n with
  | O => w
  | S n =>
      let t := length w in
      schedule n (w ++ [wrap 32 (sigma1 (nth (t - 2) w 0) + nth (t - 7) w 0
                                 + sigma0 (nth (t - 15) w 0) + nth (t - 16) w 0)])
  end.

(** Step 3 for one [t]. *)
Definition T1 (e f g h kt wt : Z) : Z := wrap 32 (h + Sigma1 e + Ch e f g + kt + wt).
Definition T2 (a b c : Z) : Z := wrap 32 (Sigma0 a + Maj a b c).
Definition round (s : words8) (kt wt : Z) : words8 :=
  let '(W8 a b c d e f g h) := s in
  W8 (wrap 32 (T1 e f g h kt wt + T2 a b c)) a b c (wrap 32 (d + T1 e f g h kt wt)) e f g.

Definition compress (s : words8) (b : list Z) : words8 :=
  let w := schedule 48 (map (word b) (seq 0 16)) in
  add8 s (foldl (fun s t => round s (nth t K 0) (nth t w 0)) s (seq 0 64)).

Fixpoint hash_blocks (n : nat) (s : words8) (m : list Z) : words8 :=
  match n with
  | O => s
  | S n => hash_blocks n (compress s (take 64 m)) (drop 64 m)
  end.

Definition be_bytes (x : Z) : list Z := [x / 2 ^ 24 mod 256; x / 2 ^ 16 mod 256; x / 2 ^ 8 mod 256; x mod 256].

Definition digest (s : words8) : list Z :=
  concat (map be_bytes [ra s; rb s; rc s; rd s; re s; rf s; rg s; rh s]).

Definition initial : words8 :=
  W8 (nth 0 H0 0) (nth 1 H0 0) (nth 2 H0 0) (nth 3 H0 0) (nth 4 H0 0) (nth 5 H0 0) (nth 6 H0 0) (nth 7 H0 0).

Definition sha256 (m : list Z) : list Z :=
  let p := pad m in digest (hash_blocks (length p / 64) initial p).

End Fips.

(** ** The compression function *)

Lemma constants_ok : sha256_constants = Fips.K.
Proof. vm_compute. reflexivity. Qed.

Lemma iv_ok : sha256_iv = Fips.initial.
Proof. vm_compute. reflexivity. Qed.

#[local] Opaque Fips.K Fips.H0.

Definition words_ok (s : words8) : Prop :=
  word32 (ra s) /\ word32 (rb s) /\ word32 (rc s) /\ word32 (rd s)
  /\ word32 (re s) /\ word32 (rf s) /\ word32 (rg s) /\ word32 (rh s).

Create HintDb sha.
#[local] Hint Resolve word32_u32 word32_wrap : sha.

Lemma ch_ok e f g : word32 e -> word32 g -> Z.lxor g (Z.land e (Z.lxor f g)) = Fips.Ch e f g.
Proof.
  intros He Hg. apply Z.bits_inj'. intros i Hi. unfold Fips.Ch.
  rewrite !Z.lxor_spec, !Z.land_spec, Z.lxor_spec. destruct (Z.ltb_spec i 32).
  - rewrite lnot_testbit by lia. destruct (Z.testbit e i), (Z.testbit f i), (Z.testbit g i); done.
  - rewrite (word32_high e), (word32_high g) by done. by rewrite andb_false_r.
Qed.

Lemma maj_ok a b c : Z.lor (Z.land a b) (Z.land (Z.lor a b) c) = Fips.Maj a b c.
Proof.
  apply Z.bits_inj'. intros i Hi. unfold Fips.Maj.
  rewrite !Z.lor_spec, !Z.lxor_spec, !Z.land_spec, !Z.lor_spec.
  destruct (Z.testbit a i), (Z.testbit b i), (Z.testbit c i); done.
Qed.

Lemma step_ok a b c d e f g h w k : word32 e -> word32 g ->
  SHA256_STEP a b c d e f g h (u32 (w + k)) =
  (wrap 32 (d + Fips.T1 e f g h k w), wrap 32 (Fips.T1 e f g h k w + Fips.T2 a b c)).
Proof.
  intros He Hg. unfold SHA256_STEP. rewrite ch_ok, maj_ok by done.
  assert (Ht : u32 (Z.lxor (Z.lxor (_rotate_bits_right e 6) (_rotate_bits_right e 11)) (_rotate_bits_right e 25)
             + Fips.Ch e f g + h + u32 (w + k)) = Fips.T1 e f g h k w).
  { unfold u32, Fips.T1, wrap. rewrite Z.add_mod_idemp_r by lia. f_equal.
    unfold Fips.Sigma1, Fips.Rotr, _rotate_bits_right, u32. lia. }
  rewrite Ht. f_equal. unfold u32, Fips.T2, wrap. rewrite Z.add_mod_idemp_r by lia. f_equal.
  unfold Fips.Sigma0, Fips.Rotr, _rotate_bits_right, u32, wrap. lia.
Qed.

Lemma round_eq a b c d e f g h k w :
  Fips.round (W8 a b c d e f g h) k w =
  W8 (wrap 32 (Fips.T1 e f g h k w + Fips.T2 a b c)) a b c (wrap 32 (d + Fips.T1 e f g h k w)) e f g.
Proof. done. Qed.

Lemma round_words_ok s k w : words_ok s -> words_ok (Fips.round s k w).
Proof. destruct s. unfold words_ok. simpl. intuition auto with sha. Qed.

Lemma rounds_words_ok l (w k : nat -> Z) : forall s, words_ok s ->
  words_ok (foldl (fun s i => Fips.round s (k i) (w i)) s l).
Proof. induction l as [| i l IH]; intros s Hs; simpl; [done|]. by apply IH, round_words_ok. Qed.

(** Advance the renamed variables of the code and the round of the standard. *)
Ltac sha_step :=
  rewrite step_ok, round_eq by assumption;
  match goal with
  | |- context [W8 (wrap 32 ?y) _ _ _ (wrap 32 ?x) _ _ _] =>
      let X := fresh "x" in let Y := fresh "y" in
      pose proof (word32_wrap x); pose proof (word32_wrap y);
      set (X := wrap 32 x) in *; set (Y := wrap 32 y) in *; clearbody X Y; cbv beta iota
  end.

Lemma eight_steps_ok (w k : nat -> Z) s : words_ok s ->
  eight_steps (fun i => u32 (w i + k i)) s = foldl (fun s i => Fips.round s (k i) (w i)) s (seq 0 8).
Proof.
  intros H. destruct s as [a b c d e f g h]. destruct H as (Ha & Hb & Hc & Hd & He & Hf & Hg & Hh).
  cbn [ra rb rc rd re rf rg rh] in *. unfold eight_steps. cbn [foldl seq].
  sha_step. sha_step. sha_step. sha_step. sha_step. sha_step. sha_step. sha_step. reflexivity.
Qed.

Lemma load_word l j : bytes l -> bswap32 (load32 l j) = Fips.word l j.
Proof. intros Hl. unfold load32, Fips.word. apply bswap_of_bytes; by apply bytes_nth. Qed.

Lemma schedule_ok n : forall w, schedule_loop n w = Fips.schedule n w.
Proof. induction n as [| n IH]; intros w; [done|]. simpl. rewrite IH. done. Qed.

Lemma add8_ok s t : words_ok (add8 s t).
Proof. unfold words_ok, add8. simpl. auto 10 with sha. Qed.

Lemma process_chunk_ok s chunk : words_ok s -> bytes chunk -> _process_chunk s chunk = Fips.compress s chunk.
Proof.
  intros Hs Hb. unfold _process_chunk, Fips.compress. rewrite <- constants_ok, schedule_ok.
  rewrite (map_ext _ (Fips.word chunk)) by (intros; by apply load_word).
  f_equal. change (seq 0 64) with (seq 0 (8 * 8)). rewrite foldl_seq_groups.
  refine (proj1 (foldl_ext_inv words_ok _ _ _ _ _ Hs)). intros x k Hx. split.
  - by rewrite (eight_steps_ok (fun i => nth (8 * k + i) _ 0) (fun i => nth (8 * k + i) _ 0)).
  - by apply (rounds_words_ok _ (fun i => nth (8 * k + i) _ 0) (fun i => nth (8 * k + i) _ 0)).
Qed.

(** ** Incremental hashing *)

Lemma compress_words_ok s b : words_ok (Fips.compress s b).
Proof. apply add8_ok. Qed.

Lemma hash_blocks_app n : forall k s m,
  Fips.hash_blocks (n + k) s m = Fips.hash_blocks k (Fips.hash_blocks n s m) (drop (64 * n) m).
Proof.
  induction n as [| n IH]; intros k s m; [done|]. cbn [Nat.add Fips.hash_blocks]. rewrite IH, drop_drop.
  do 2 f_equal. lia.
Qed.

Lemma hash_blocks_prefix n : forall s m c, (64 * n <= length m)%nat ->
  Fips.hash_blocks n s (m ++ c) = Fips.hash_blocks n s m.
Proof.
  induction n as [| n IH]; intros s m c Hn; [done|]. cbn [Fips.hash_blocks].
  rewrite take_app_le, drop_app_le by lia. apply IH. rewrite length_drop. lia.
Qed.

Lemma hash_blocks_words_ok n : forall s m, words_ok s -> words_ok (Fips.hash_blocks n s m).
Proof. induction n as [| n IH]; intros s m Hs; [done|]. apply IH, compress_words_ok. Qed.

#[local] Hint Resolve bytes_take bytes_drop : sha.

Lemma full_chunks_ok n : forall s c, words_ok s -> bytes c -> (length c <= n)%nat ->
  full_chunks n s c = (Fips.hash_blocks (length c / 64) s c, drop (64 * (length c / 64)) c).
Proof.
  induction n as [| n IH]; intros s c Hs Hc Hn; cbn [full_chunks].
  { by destruct c; [| simpl in Hn; lia]. }
  destruct (Nat.leb_spec 64 (length c)) as [H64 | H64].
  - rewrite process_chunk_ok by auto with sha.
    rewrite IH by (auto using compress_words_ok with sha; rewrite ?length_drop; lia).
    assert (Hd : (length c / 64 = S (length (drop 64 c) / 64))%nat).
    { rewrite length_drop. replace (length c) with ((length c - 64) + 1 * 64)%nat at 1 by lia.
      rewrite Nat.div_add by lia. lia. }
    rewrite Hd. cbn [Fips.hash_blocks]. rewrite drop_drop. do 2 f_equal. lia.
  - rewrite Nat.div_small by done. done.
Qed.

(** The state after hashing [m]: the full blocks are compressed and the buffer
    starts with the bytes of the last, partial block. *)
Definition tail_of (m : list Z) : list Z := drop (64 * (length m / 64)) m.

Record sha_inv (st : hash_sha256_state_t) (m : list Z) : Prop := {
  inv_regs : regs st = Fips.hash_blocks (length m / 64) Fips.initial m;
  inv_len : length_ st = u64 (Z.of_nat (length m));
  inv_buf : length (buffer st) = 64%nat /\ take (length (tail_of m)) (buffer st) = tail_of m;
  inv_bytes : bytes m /\ bytes (buffer st)
}.

Lemma length_tail m : length (tail_of m) = (length m mod 64)%nat.
Proof. unfold tail_of. rewrite length_drop. pose proof (Nat.div_mod_eq (length m) 64). lia. Qed.

Lemma initial_words_ok : words_ok Fips.initial.
Proof. rewrite <- iv_ok. by repeat split. Qed.

Lemma sha_inv_words st m : sha_inv st m -> words_ok (regs st).
Proof. intros H. rewrite (inv_regs _ _ H). apply hash_blocks_words_ok, initial_words_ok. Qed.

Lemma blocks_app_aligned q m c : length m = (64 * q)%nat ->
  (length (m ++ c) / 64 = q + length c / 64)%nat
  /\ Fips.hash_blocks (length (m ++ c) / 64) Fips.initial (m ++ c)
     = Fips.hash_blocks (length c / 64) (Fips.hash_blocks q Fips.initial m) c
  /\ tail_of (m ++ c) = tail_of c.
Proof.
  intros Hm. assert (Hq : (length (m ++ c) / 64 = q + length c / 64)%nat).
  { rewrite length_app, Hm. rewrite (Nat.mul_comm 64 q), Nat.add_comm, Nat.div_add by lia. lia. }
  assert (Hd : drop (64 * q) (m ++ c) = c) by (rewrite <- Hm; by rewrite drop_app_length).
  split_and!; [done | |].
  - rewrite Hq, hash_blocks_app, Hd, hash_blocks_prefix by lia. done.
  - unfold tail_of. rewrite Hq, Nat.mul_add_distr_l, <- drop_drop, Hd. done.
Qed.

Lemma process_rest_ok q m c s len buf : length m = (64 * q)%nat ->
  s = Fips.hash_blocks q Fips.initial m -> len = u64 (Z.of_nat (length m)) ->
  length buf = 64%nat -> bytes m -> bytes c -> bytes buf ->
  sha_inv (process_rest s len buf c) (m ++ c).
Proof.
  intros Hm -> -> Hb Hbm Hbc Hbb. unfold process_rest.
  rewrite full_chunks_ok by (auto using hash_blocks_words_ok, initial_words_ok).
  destruct (blocks_app_aligned q m c Hm) as (Hq & Hbl & Ht). fold (tail_of c).
  assert (Hlt : (length (tail_of c) < 64)%nat) by (rewrite length_tail; apply Nat.mod_upper_bound; lia).
  split; simpl.
  - done.
  - unfold u64, wrap. rewrite Z.add_mod_idemp_l, length_app by lia. f_equal. lia.
  - rewrite Ht, length_inserts. split; [done|]. rewrite list_inserts_0 by lia. by rewrite take_app_length.
  - split; [by apply Forall_app|]. rewrite list_inserts_0 by lia. apply Forall_app.
    split; [by apply Forall_drop | by apply Forall_drop].
Qed.

Lemma tail_app_short m c : (length m mod 64 + length c < 64)%nat ->
  (length (m ++ c) / 64 = length m / 64)%nat /\ tail_of (m ++ c) = tail_of m ++ c.
Proof.
  intros H. assert (Hq : (length (m ++ c) / 64 = length m / 64)%nat).
  { rewrite length_app. symmetry. apply (Nat.div_unique _ _ _ (length m mod 64 + length c)); [done|].
    pose proof (Nat.div_mod_eq (length m) 64). lia. }
  split; [done|]. unfold tail_of. rewrite Hq, drop_app_le; [done|].
  pose proof (Nat.div_mod_eq (length m) 64). lia.
Qed.

Lemma hash_blocks_snoc q m c : (length m = 64 * q + length m mod 64)%nat ->
  (length m mod 64 + length c = 64)%nat ->
  Fips.hash_blocks (S q) Fips.initial (m ++ c)
  = Fips.compress (Fips.hash_blocks q Fips.initial m) (drop (64 * q) m ++ c).
Proof.
  intros Hm Hc. replace (S q) with (q + 1)%nat by lia. rewrite hash_blocks_app, hash_blocks_prefix by lia.
  cbn [Fips.hash_blocks]. rewrite drop_app_le by lia. f_equal. rewrite take_ge; [done|].
  rewrite length_app, length_drop. lia.
Qed.

Lemma padding_ok st m : sha_inv st m -> Z.to_nat (Z.land (length_ st) 63) = (length m mod 64)%nat.
Proof.
  intros H. rewrite (inv_len _ _ H). change 63 with (Z.ones 6). rewrite wrap_ones by lia. unfold u64.
  rewrite wrap_wrap_le by lia. unfold wrap. change (2 ^ 6) with (Z.of_nat 64). rewrite <- Nat2Z.inj_mod. lia.
Qed.

(** Hashing one more piece. *)
Lemma process_ok st m c : sha_inv st m -> bytes c -> sha_inv (hash_sha256_process_chunk st c) (m ++ c).
Proof.
  intros H Hc. unfold hash_sha256_process_chunk. rewrite (padding_ok _ _ H). cbv zeta.
  destruct (inv_buf _ _ H) as [Hbl Hbt], (inv_bytes _ _ H) as [Hbm Hbb].
  pose proof (Nat.div_mod_eq (length m) 64) as Hdm. pose proof (Nat.mod_upper_bound (length m) 64 ltac:(lia)) as Hr.
  destruct (Nat.eqb_spec (length c) 0) as [E0 | E0].
  { destruct c; [| done]. by rewrite app_nil_r. }
  destruct (Nat.eqb_spec (length m mod 64) 0) as [E1 | E1].
  { apply (process_rest_ok (length m / 64)); try done; [lia | by apply inv_regs | by apply inv_len]. }
  rewrite length_tail in Hbt.
  set (f := (if 64 - length m mod 64 <? length c then _ else _)%nat).
  assert (Hf : (f = Nat.min (64 - length m mod 64) (length c))%nat).
  { subst f. destruct (Nat.ltb_spec (64 - length m mod 64) (length c)); lia. }
  clearbody f. assert (Hft : length (take f c) = f) by (rewrite length_take; lia).
  rewrite list_inserts_at, Hbt by lia. rewrite Hft.
  destruct (Nat.eqb_spec (length m mod 64 + f) 64) as [E2 | E2]; simpl negb; cbv iota.
  - assert (Hblk : tail_of m ++ take f c ++ drop (length m mod 64 + f) (buffer st) = tail_of m ++ take f c).
    { rewrite E2, drop_ge by lia. by rewrite app_nil_r. }
    rewrite Hblk. rewrite process_chunk_ok; [| by eapply sha_inv_words |
      apply Forall_app; split; [by apply Forall_drop | by apply Forall_take]].
    replace (m ++ c) with ((m ++ take f c) ++ drop f c) by (by rewrite <- app_assoc, take_drop).
    apply (process_rest_ok (S (length m / 64))); auto with sha.
    + rewrite length_app, Hft. lia.
    + rewrite hash_blocks_snoc by lia. by rewrite (inv_regs _ _ H).
    + rewrite (inv_len _ _ H). unfold u64, wrap. rewrite Z.add_mod_idemp_l, length_app, Hft by lia. f_equal. lia.
    + rewrite length_app, length_tail, Hft. lia.
    + apply Forall_app. split; [done | by apply Forall_take].
    + apply Forall_app. split; [by apply Forall_drop | by apply Forall_take].
  - assert (Hfl : f = length c) by lia. rewrite take_ge by lia.
    destruct (tail_app_short m c ltac:(lia)) as [Hq Ht]. split; cbn [regs length_ buffer].
    + rewrite Hq, hash_blocks_prefix by lia. apply (inv_regs _ _ H).
    + rewrite (inv_len _ _ H). unfold u64, wrap. rewrite Z.add_mod_idemp_l, length_app by lia. f_equal. lia.
    + rewrite Ht, !length_app, length_tail, length_drop, Hbl. split; [lia|].
      rewrite app_assoc. apply take_app_length'. rewrite length_app, length_tail. lia.
    + split; [by apply Forall_app|]. apply Forall_app. split; [by apply Forall_drop|].
      apply Forall_app. split; [done | by apply Forall_drop].
Qed.

Lemma init_ok buf : length buf = 64%nat -> bytes buf -> sha_inv (hash_sha256_init buf) [].
Proof. intros Hl Hb. split; cbn [regs length_ buffer hash_sha256_init];
  [apply iv_ok | done | by split | by split; [constructor|]]. Qed.

Lemma process_all_ok cs : forall st m, sha_inv st m -> Forall bytes cs ->
  sha_inv (foldl hash_sha256_process_chunk st cs) (m ++ concat cs).
Proof.
  induction cs as [| c cs IH]; intros st m H Hcs; simpl; [by rewrite app_nil_r|].
  inversion Hcs; subst. rewrite app_assoc. apply IH; [by apply process_ok | done].
Qed.

(** *** Finalisation *)

Lemma store_be64_ok x :
  store_be64 (u64 (Z.shiftl (u64 x) 3)) = map (fun i => (8 * x / 2 ^ (56 - 8 * Z.of_nat i)) mod 256) (seq 0 8).
Proof.
  unfold store_be64. apply map_ext_in. intros i Hi. apply in_seq in Hi. change 0xff with 255.
  rewrite land_255, Z.shiftr_div_pow2 by lia. unfold u64. rewrite byte_of_wrap by lia.
  rewrite <- (byte_of_wrap (8 * x)), <- (byte_of_wrap (Z.shiftl _ 3)) by lia. do 2 f_equal.
  rewrite Z.shiftl_mul_pow2 by lia. unfold wrap. rewrite Z.mul_mod_idemp_l by lia. f_equal. lia.
Qed.

Lemma finalize_tail m :
  m ++ [0x80] ++ replicate (Z.to_nat (Z.land (u64 (- u64 (Z.of_nat (length m)) - 9)) 63)) 0
    ++ store_be64 (u64 (Z.shiftl (u64 (Z.of_nat (length m))) 3)) = Fips.pad m.
Proof.
  unfold Fips.pad. rewrite store_be64_ok. do 4 f_equal.
  change 63 with (Z.ones 6). rewrite wrap_ones by lia. unfold u64. rewrite wrap_wrap_le by lia.
  set (x := Z.of_nat (length m)). f_equal.
  replace (- wrap 64 x - 9) with (0 - (wrap 64 x + 9)) by lia. unfold wrap at 1.
  rewrite Zminus_mod, Zplus_mod. change (wrap 64 x mod 2 ^ 6) with (wrap 6 (wrap 64 x)).
  rewrite wrap_wrap_le by lia. unfold wrap. rewrite <- Zplus_mod, <- Zminus_mod.
  change (2 ^ 6) with 64. replace (55 - x) with (0 - (x + 9) + 1 * 64) by lia. by rewrite Z.mod_add.
Qed.

Lemma pad_aligned m : exists q, length (Fips.pad m) = (64 * q)%nat.
Proof.
  unfold Fips.pad. rewrite !length_app, length_replicate, length_map, length_seq. cbn [length].
  exists (Z.to_nat ((Z.of_nat (length m) + 9 + (55 - Z.of_nat (length m)) mod 64) / 64)).
  Z.div_mod_to_equations. lia.
Qed.

Lemma store_bswap x : word32 x -> store_le32 (bswap32 x) = Fips.be_bytes x.
Proof. apply store_bswap_bytes. Qed.

Lemma result_ok s : words_ok s ->
  result (W8 (bswap32 (ra s)) (bswap32 (rb s)) (bswap32 (rc s)) (bswap32 (rd s))
             (bswap32 (re s)) (bswap32 (rf s)) (bswap32 (rg s)) (bswap32 (rh s))) = Fips.digest s.
Proof.
  intros H. pose proof store_bswap as Hw.
  destruct H as (? & ? & ? & ? & ? & ? & ? & ?). unfold result, Fips.digest. cbn [map ra rb rc rd re rf rg rh].
  by rewrite !Hw.
Qed.

Lemma finalize_ok st m : sha_inv st m ->
  result (regs (hash_sha256_finalize st)) = Fips.sha256 m.
Proof.
  intros H. unfold hash_sha256_finalize. cbv zeta. rewrite (inv_len _ _ H). cbn [regs].
  set (tail := [0x80] ++ _).
  assert (Ht : bytes tail).
  { subst tail. apply Forall_app. split; [by repeat constructor|]. apply Forall_app. split.
    - apply Forall_replicate. lia.
    - unfold store_be64. apply Forall_forall. intros b Hb.
      apply in_map_iff in Hb as (i & <- & _). change 0xff with 255. rewrite land_255. apply Z.mod_pos_bound. lia. }
  pose proof (process_ok _ _ _ H Ht) as H'. rewrite (finalize_tail m : m ++ tail = _) in H'. clearbody tail.
  rewrite result_ok by (by eapply sha_inv_words). unfold Fips.sha256. by rewrite (inv_regs _ _ H').
Qed.

(** C33: the incremental hash is SHA-256: for every message and every way to
    cut it into pieces, initialising, processing the
    pieces in order and finalising leaves in [result] the digest that FIPS
    180-4 defines (padding, message schedule, 64 rounds per block, constants
    from the roots of the primes). *)
Theorem sha256_incremental (buf : list Z) (pieces : list (list Z)) :
  length buf = 64%nat -> bytes buf -> Forall bytes pieces ->
  result (regs (hash_sha256_finalize (foldl hash_sha256_process_chunk (hash_sha256_init buf) pieces)))
  = Fips.sha256 (concat pieces).
Proof.
  intros Hl Hb Hp. apply finalize_ok.
  apply (process_all_ok pieces _ [] (init_ok buf Hl Hb) Hp).
Qed.

Lemma sha256_incremental_witness :
  result (regs (hash_sha256_finalize
    (foldl hash_sha256_process_chunk (hash_sha256_init (replicate 64 170)) [[97]; []; [98; 99]])))
  = Fips.sha256 [97; 98; 99].
Proof.
  apply (sha256_incremental (replicate 64 170) [[97]; []; [98; 99]]).
  - reflexivity.
  - apply Forall_replicate. lia.
  - repeat constructor; lia.
Defined.

(** The digest of the test vector "abc". *)
Example sha256_abc : Fips.sha256 [97; 98; 99] =
  [0xba; 0x78; 0x16; 0xbf; 0x8f; 0x01; 0xcf; 0xea; 0x41; 0x41; 0x40; 0xde; 0x5d; 0xae; 0x22; 0x23;
   0xb0; 0x03; 0x61; 0xa3; 0x96; 0x17; 0x7a; 0x9c; 0xb4; 0x10; 0xff; 0x61; 0xf2; 0x00; 0x15; 0xad].
Proof. vm_compute. reflexivity. Qed.
