(* ===== verification/Hmac.v ===== *)
(** * HMAC and PBKDF2 ([src/src/kernel/hmac/], [src/src/kernel/password/pbkdf2.c]).

    [hmac_compute] works in one stack buffer that it overwrites in place;
    [pbkdf2_compute] iterates a keyed function over a buffer that first holds
    the salt and a block counter.  They are compared with RFC 2104 and RFC
    8018; the hash and the keyed function are the arguments they are in C. *)
From stdpp Require Import base tactics list numbers.
From Stdlib Require Import ZArith Lia.
From S2P Require Import Prelude Bytes Sha256.
#[local] Open Scope Z_scope.

(** ** The code *)

Definition BUFFER_SIZE : nat := 265.

(** [callback data1 data2] is what the C callback stores at its last argument. *)
Record hmac_hash_function_t := mk_hash_function {
  callback : list Z -> list Z -> list Z;
  block_size : nat;
  output_size : nat
}.

Definition _hmac_sha256_callback (data1 data2 : list Z) : list Z :=
  let st := hash_sha256_init (replicate 64 0) in
  let st := hash_sha256_process_chunk st data1 in
  let st := hash_sha256_process_chunk st data2 in
  result (regs (hash_sha256_finalize st)).

Definition _hmac_sha256_function_data : hmac_hash_function_t := mk_hash_function _hmac_sha256_callback 64 32.

(** [for (i=0;i<n;i++) buffer[i]^=x;] *)
Fixpoint xor_bytes (x : Z) (n : nat) (l : list Z) : list Z :=
  match n, l with
  | S n, b :: l => Z.lxor b x :: xor_bytes x n l
  | _, _ => l
  end.

(** [stack] is the uninitialised content of the buffer; [None] is the panic. *)
Definition hmac_compute (stack key message : list Z) (func : hmac_hash_function_t) : option (list Z) :=
  if (BUFFER_SIZE <? block_size func + output_size func)%nat then None
  else
    let '(buffer, key_length) :=
      if (block_size func <? length key)%nat
      then (list_inserts 0 (callback func key []) stack, output_size func)
      else (list_inserts 0 key stack, length key) in
    let buffer := xor_bytes 0x36 key_length buffer in
    let buffer := list_inserts key_length (replicate (block_size func - key_length) 0x36) buffer in
    let buffer := list_inserts (block_size func) (callback func (take (block_size func) buffer) message) buffer in
    let buffer := xor_bytes 0x6a (block_size func) buffer in
    Some (callback func (take (block_size func + output_size func) buffer) []).

Record prf_t := mk_prf { prf_callback : list Z -> list Z -> list Z; prf_output_size : nat }.

(** [hmac_compute] never panics for SHA-256; its stack buffer is irrelevant. *)
Definition _pbkdf2_hmac_sha256_callback (data1 data2 : list Z) : list Z :=
  default [] (hmac_compute (replicate BUFFER_SIZE 0) data1 data2 _hmac_sha256_function_data).

Definition _pbkdf2_prf_hmac_sha256_data : prf_t := mk_prf _pbkdf2_hmac_sha256_callback 32.

(** [for (k=0;k<chunk_length;k++) out[out_offset+k]^=buffer[k];] *)
Fixpoint xor_prefix (out l : list Z) : list Z :=
  match out, l with
  | b :: out, x :: l => Z.lxor b x :: xor_prefix out l
  | _, _ => out
  end.
Fixpoint xor_at (out : list Z) (off : nat) (l : list Z) : list Z :=
  match off, out with
  | O, _ => xor_prefix out l
  | S off, b :: out => b :: xor_at out off l
  | S _, [] => []
  end.

(** [for (j=0;j<iterations;j++)]: [input] is the length of the callback's data. *)
Fixpoint pbkdf2_inner (n : nat) (prf : prf_t) (password : list Z) (input : nat) (buffer out : list Z)
    (out_offset chunk_length : nat) : list Z * list Z :=
  match n with
  | O => (buffer, out)
  | S n =>
      let buffer := list_inserts 0 (prf_callback prf password (take input buffer)) buffer in
      let out := xor_at out out_offset (take chunk_length buffer) in
      pbkdf2_inner n prf password (prf_output_size prf) buffer out out_offset chunk_length
  end.

(** [for (i=1;out_offset<out_length;i++)] *)
Fixpoint pbkdf2_outer (fuel : nat) (prf : prf_t) (password salt : list Z) (iterations : nat)
    (buffer out : list Z) (i : Z) (out_offset out_length : nat) : option (list Z) :=
  match fuel with
  | O => None
  | S fuel =>
      if (out_length <=? out_offset)%nat then Some out
      else
        let chunk_length := (out_length - out_offset)%nat in
        let chunk_length := if (prf_output_size prf <? chunk_length)%nat then prf_output_size prf else chunk_length in
        let buffer := list_inserts 0 salt buffer in
        let buffer := list_inserts (length salt) (store_le32 (bswap32 i)) buffer in
        let '(buffer, out) :=
          pbkdf2_inner iterations prf password (length salt + 4) buffer out out_offset chunk_length in
        pbkdf2_outer fuel prf password salt iterations buffer out (u32 (i + 1)) (out_offset + chunk_length) out_length
  end.

(** [mem] is the content of the block that [amm_alloc] returned. *)
Definition pbkdf2_compute (mem password salt : list Z) (prf : prf_t) (iterations out_length : nat) : option (list Z) :=
  let size := (if length salt + 4 <? prf_output_size prf then prf_output_size prf else length salt + 4)%nat in
  pbkdf2_outer (S out_length) prf password salt iterations (take size mem) (replicate out_length 0) 1 0 out_length.

(** ** RFC 2104 *)

Module Rfc2104.
Section Hmac.
Context (H : list Z -> list Z) (B : nat).

Definition pad_key (k : list Z) : list Z :=
  let k := if (B <? length k)%nat then H k else k in k ++ replicate (B - length k) 0.
Definition xor_all (x : Z) (l : list Z) : list Z := (fun b => Z.lxor b x) <$> l.
Definition hmac (k m : list Z) : list Z :=
  H (xor_all 0x5c (pad_key k) ++ H (xor_all 0x36 (pad_key k) ++ m)).
End Hmac.
End Rfc2104.

Section Hmac.
Context (func : hmac_hash_function_t) (H : list Z -> list Z).
Hypothesis Hcb : forall a b, bytes a -> bytes b -> callback func a b = H (a ++ b).
Hypothesis Hlen : forall l, length (H l) = output_size func.
Hypothesis Hbytes : forall l, bytes (H l).
Hypothesis Hsize : (output_size func <= block_size func)%nat.
Hypothesis Hfit : (block_size func + output_size func <= BUFFER_SIZE)%nat.

Lemma xor_bytes_app x l1 l2 : xor_bytes x (length l1) (l1 ++ l2) = Rfc2104.xor_all x l1 ++ l2.
Proof. induction l1 as [| b l1 IH]; simpl; [by destruct l2 | by rewrite IH]. Qed.

Lemma xor_all_xor x y l : Rfc2104.xor_all y (Rfc2104.xor_all x l) = Rfc2104.xor_all (Z.lxor x y) l.
Proof. unfold Rfc2104.xor_all. rewrite <- list_fmap_compose. apply list_fmap_ext. intros i b _. simpl. by rewrite Z.lxor_assoc. Qed.

Lemma xor_all_bytes x l : 0 <= x < 256 -> bytes l -> bytes (Rfc2104.xor_all x l).
Proof.
  intros Hx. unfold bytes, Rfc2104.xor_all. intros Hl. apply Forall_fmap. eapply Forall_impl; [| exact Hl].
  intros b Hb. cbv beta in Hb |- *. simpl. assert (0 <= Z.lxor b x) by (apply Z.lxor_nonneg; lia). split; [done|].
  destruct (decide (Z.lxor b x = 0)) as [-> | Hne]; [lia|].
  change 256 with (2 ^ 8). apply Z.log2_lt_pow2; [lia|].
  eapply Z.le_lt_trans; [apply Z.log2_lxor; lia|].
  apply Z.max_lub_lt; (destruct (decide (0 < b)), (decide (0 < x)); try (apply Z.log2_lt_pow2; lia));
    rewrite ?Z.log2_nonpos by lia; lia.
Qed.

(** The buffer after the key was padded and masked. *)
Lemma key_block stack k : length stack = BUFFER_SIZE -> (length k <= block_size func)%nat ->
  list_inserts (length k) (replicate (block_size func - length k) 0x36)
    (xor_bytes 0x36 (length k) (list_inserts 0 k stack))
  = Rfc2104.xor_all 0x36 (k ++ replicate (block_size func - length k) 0) ++ drop (block_size func) stack.
Proof.
  intros Hs Hk. rewrite list_inserts_0 by (unfold BUFFER_SIZE in *; lia). rewrite xor_bytes_app.
  assert (Hx : length (Rfc2104.xor_all 0x36 k) = length k) by (unfold Rfc2104.xor_all; by rewrite length_fmap).
  rewrite list_inserts_at by (rewrite length_app, Hx, length_drop, length_replicate; lia).
  rewrite length_replicate. rewrite take_app_length' by done. rewrite drop_app_ge by lia.
  rewrite drop_drop, Hx. unfold Rfc2104.xor_all. rewrite fmap_app, <- app_assoc. f_equal.
  f_equal; [by rewrite fmap_replicate|]. f_equal. lia.
Qed.

Lemma hmac_ok stack key message : length stack = BUFFER_SIZE -> bytes key -> bytes message ->
  hmac_compute stack key message func = Some (Rfc2104.hmac H (block_size func) key message).
Proof.
  intros Hs Hk Hm. unfold hmac_compute.
  destruct (Nat.ltb_spec BUFFER_SIZE (block_size func + output_size func)); [lia|].
  set (k := if (block_size func <? length key)%nat then H key else key).
  assert (Hkl : (length k <= block_size func)%nat).
  { subst k. destruct (Nat.ltb_spec (block_size func) (length key)); [by rewrite Hlen | done]. }
  assert (Hkb : bytes k) by (subst k; destruct (_ <? _)%nat; auto).
  assert (Hsel : (if (block_size func <? length key)%nat
      then (list_inserts 0 (callback func key []) stack, output_size func)
      else (list_inserts 0 key stack, length key)) = (list_inserts 0 k stack, length k)).
  { subst k. destruct (_ <? _)%nat; [| done]. rewrite Hcb, app_nil_r, Hlen by (done || constructor). done. }
  rewrite Hsel. cbv zeta. rewrite key_block by done. unfold Rfc2104.hmac, Rfc2104.pad_key. fold k.
  set (kp := k ++ _).
  assert (Hkp : length kp = block_size func) by (subst kp; rewrite length_app, length_replicate; lia).
  assert (Hkpb : bytes kp) by (subst kp; apply Forall_app; split; [done | apply Forall_replicate; lia]).
  assert (Hi : length (Rfc2104.xor_all 0x36 kp) = block_size func) by (unfold Rfc2104.xor_all; by rewrite length_fmap).
  rewrite take_app_length' by done. rewrite (Hcb (Rfc2104.xor_all 0x36 kp) message) by (done || by apply xor_all_bytes).
  set (inner := H (_ ++ message)).
  rewrite list_inserts_at by (rewrite length_app, Hi, length_drop; subst inner; rewrite Hlen; lia).
  rewrite take_app_length' by done. rewrite <- Hi at 1 2. rewrite xor_bytes_app, xor_all_xor.
  change (Z.lxor 0x36 0x6a) with 0x5c. subst inner.
  rewrite Hi, app_assoc, take_app_length'.
  2: { rewrite length_app, Hlen. unfold Rfc2104.xor_all. rewrite length_fmap. lia. }
  rewrite Hcb, app_nil_r; [done | | constructor]. apply Forall_app. split; [by apply xor_all_bytes | apply Hbytes].
Qed.

End Hmac.

(** ** RFC 8018 *)

Module Rfc8018.
Section Pbkdf2.
Context (PRF : list Z -> list Z -> list Z) (hLen : nat).

(** [U_1] xor ... xor [U_c], starting from the previous [U] and the sum so far. *)
Fixpoint iterate (P : list Z) (n : nat) (u acc : list Z) : list Z :=
  match n with
  | O => acc
  | S n => let u := PRF P u in iterate P n u (zip_with Z.lxor acc u)
  end.

Definition INT (i : Z) : list Z := Fips.be_bytes i.
Definition F (P S : list Z) (c : nat) (i : Z) : list Z := iterate P c (S ++ INT i) (replicate hLen 0).
Definition pbkdf2 (P S : list Z) (c dkLen : nat) : list Z :=
  take dkLen (concat (map (fun i => F P S c (Z.of_nat i)) (seq 1 (dkLen / hLen + 1)))).
End Pbkdf2.
End Rfc8018.

Section Pbkdf2.
Context (prf : prf_t) (password salt : list Z) (iterations : nat).
Let h := prf_output_size prf.
Hypothesis Hlen : forall a b, length (prf_callback prf a b) = h.
Hypothesis Hpos : (0 < h)%nat.

Lemma xor_at_app pre t l : xor_at (pre ++ t) (length pre) l = pre ++ xor_prefix t l.
Proof. induction pre as [| b pre IH]; simpl; [by destruct t | by rewrite IH]. Qed.

Lemma xor_prefix_app acc post l : length acc = length l ->
  xor_prefix (acc ++ post) l = zip_with Z.lxor acc l ++ post.
Proof.
  revert l. induction acc as [| b acc IH]; intros [| x l] H; simpl in *; try done; [by destruct post|].
  rewrite IH by lia. done.
Qed.

(** The inner loop xors the prefixes of the successive outputs into the block. *)
Lemma inner_ok n : forall input buffer pre acc post,
  (input <= length buffer)%nat -> (h <= length buffer)%nat -> (length acc <= h)%nat ->
  exists buffer', length buffer' = length buffer /\
    forall full, length full = h -> take (length acc) full = acc ->
    pbkdf2_inner n prf password input buffer (pre ++ acc ++ post) (length pre) (length acc)
    = (buffer', pre ++ take (length acc) (Rfc8018.iterate (prf_callback prf) password n (take input buffer) full) ++ post).
Proof.
  induction n as [| n IH]; intros input buffer pre acc post Hi Hh Ha.
  { exists buffer. split; [done|]. intros full _ Hf. simpl. by rewrite Hf. }
  set (u := prf_callback prf password (take input buffer)).
  assert (Hu : length u = h) by apply Hlen.
  set (buffer1 := list_inserts 0 u buffer).
  assert (Hb1 : buffer1 = u ++ drop h buffer) by (subst buffer1; rewrite list_inserts_0 by lia; by rewrite Hu).
  assert (Hl1 : length buffer1 = length buffer) by apply length_inserts.
  set (acc1 := zip_with Z.lxor acc (take (length acc) u)).
  assert (Ha1 : length acc1 = length acc) by (subst acc1; rewrite length_zip_with, length_take; lia).
  destruct (IH h buffer1 pre acc1 post) as (buffer' & Hl' & H'); try lia.
  exists buffer'. split; [lia|]. intros full Hfl Hf. cbn [pbkdf2_inner Rfc8018.iterate]. fold u. fold buffer1.
  rewrite Hb1 at 2. rewrite take_app_le by lia.
  rewrite xor_at_app, xor_prefix_app by (rewrite length_take; lia). fold acc1.
  specialize (H' (zip_with Z.lxor full u)). rewrite Ha1 in H'. fold h. rewrite H'.
  - rewrite Hb1 at 1. by rewrite take_app_length' by done.
  - rewrite length_zip_with. lia.
  - rewrite zip_with_take, Hf. done.
Qed.

Definition stream (n : nat) (i : Z) : list Z :=
  concat (map (fun j => Rfc8018.F (prf_callback prf) h password salt iterations (i + Z.of_nat j)) (seq 0 n)).

Lemma iterate_length n : forall u acc, length acc = h ->
  length (Rfc8018.iterate (prf_callback prf) password n u acc) = h.
Proof.
  induction n as [| n IH]; intros u acc Ha; simpl; [done|]. apply IH. rewrite length_zip_with, Hlen. lia.
Qed.

Lemma stream_S n i : stream (S n) i =
  Rfc8018.F (prf_callback prf) h password salt iterations i ++ stream n (i + 1).
Proof.
  unfold stream. cbn [seq map concat]. rewrite Z.add_0_r. f_equal. f_equal.
  rewrite <- seq_shift, map_map. apply map_ext. intros j. f_equal. lia.
Qed.

Lemma outer_block buffer i : (length salt + 4 <= length buffer)%nat -> word32 i ->
  let buffer1 := list_inserts (length salt) (store_le32 (bswap32 i)) (list_inserts 0 salt buffer) in
  length buffer1 = length buffer /\ take (length salt + 4) buffer1 = salt ++ Rfc8018.INT i.
Proof.
  intros Hb Hi buffer1. subst buffer1. rewrite !length_inserts. split; [done|].
  rewrite store_bswap by done. rewrite list_inserts_0 by lia.
  rewrite list_inserts_at by (rewrite length_app, length_drop; simpl; lia).
  rewrite take_app_length, app_assoc. apply take_app_length'. rewrite length_app. done.
Qed.

Lemma outer_ok fuel : forall buffer pre i rem n,
  (length salt + 4 <= length buffer)%nat -> (h <= length buffer)%nat ->
  (rem < fuel)%nat -> (rem <= n * h)%nat -> 0 <= i -> i + Z.of_nat rem < 2 ^ 32 ->
  pbkdf2_outer fuel prf password salt iterations buffer (pre ++ replicate rem 0) i (length pre) (length pre + rem)
  = Some (pre ++ take rem (stream n i)).
Proof.
  induction fuel as [| fuel IH]; intros buffer pre i rem n Hb Hh Hf Hn Hi0 Hi; [lia|]. cbn [pbkdf2_outer].
  destruct (Nat.leb_spec (length pre + rem) (length pre)) as [Hz | Hz].
  { replace rem with 0%nat by lia. done. }
  destruct n as [| n]; [lia|]. replace (length pre + rem - length pre)%nat with rem by lia. fold h.
  set (chunk := (if h <? rem then h else rem)%nat).
  assert (Hc : chunk = Nat.min h rem) by (subst chunk; destruct (Nat.ltb_spec h rem); lia). clearbody chunk.
  destruct (outer_block buffer i Hb) as [Hl1 Ht1]; [split; lia|].
  set (buffer1 := list_inserts _ _ _) in *. cbv zeta in Hl1, Ht1. clearbody buffer1.
  assert (Hrep : replicate rem 0 = replicate chunk 0 ++ replicate (rem - chunk) 0).
  { rewrite <- replicate_add. f_equal. lia. }
  rewrite Hrep.
  destruct (inner_ok iterations (length salt + 4) buffer1 pre (replicate chunk 0) (replicate (rem - chunk) 0))
    as (buffer2 & Hl2 & Hin); rewrite ?length_replicate; try lia.
  rewrite length_replicate in Hin. rewrite (Hin (replicate h 0)).
  2: apply length_replicate. 2: { rewrite take_replicate. f_equal. lia. }
  rewrite Ht1. set (blk := Rfc8018.iterate _ _ _ _ _).
  assert (Hblk : length blk = h) by (apply iterate_length, length_replicate).
  assert (HF : Rfc8018.F (prf_callback prf) h password salt iterations i = blk) by done. clearbody blk.
  specialize (IH buffer2 (pre ++ take chunk blk) (u32 (i + 1)) (rem - chunk)%nat n).
  rewrite length_app, length_take, Hblk in IH. replace (chunk `min` h)%nat with chunk in IH by lia.
  replace (length pre + rem)%nat with (length pre + chunk + (rem - chunk))%nat by lia.
  rewrite <- app_assoc in IH. rewrite u32_id in IH by lia. rewrite u32_id by lia.
  rewrite IH by lia. f_equal. rewrite stream_S, HF, <- app_assoc. f_equal.
  destruct (decide (h <= rem)%nat).
  - replace chunk with h by lia. rewrite take_ge by lia. rewrite take_app_ge by lia. by rewrite Hblk.
  - replace chunk with rem by lia. rewrite Nat.sub_diag, take_app_le, app_nil_r by lia. done.
Qed.

Lemma pbkdf2_ok mem out_length :
  (length salt + 4 <= length mem)%nat -> (h <= length mem)%nat -> Z.of_nat out_length < 2 ^ 32 - 1 ->
  pbkdf2_compute mem password salt prf iterations out_length
  = Some (Rfc8018.pbkdf2 (prf_callback prf) h password salt iterations out_length).
Proof.
  intros Hm Hh Ho. unfold pbkdf2_compute. fold h.
  set (size := (if length salt + 4 <? h then h else length salt + 4)%nat).
  assert (Hs : size = Nat.max h (length salt + 4)).
  { subst size. destruct (Nat.ltb_spec (length salt + 4) h); lia. }
  pose proof (outer_ok (S out_length) (take size mem) [] 1 out_length (out_length / h + 1)) as Hout.
  rewrite length_take in Hout. cbn [app length Nat.add] in Hout. rewrite Hout; try lia.
  - f_equal. unfold Rfc8018.pbkdf2, stream. do 2 f_equal.
    rewrite <- seq_shift, map_map. apply map_ext. intros j. f_equal. lia.
  - pose proof (Nat.div_mod_eq out_length h). pose proof (Nat.mod_upper_bound out_length h). nia.
Qed.

End Pbkdf2.

(** ** The instances with SHA-256 *)

Lemma digest_length s : length (Fips.digest s) = 32%nat.
Proof. done. Qed.

Lemma digest_bytes s : bytes (Fips.digest s).
Proof.
  unfold Fips.digest, Fips.be_bytes. simpl. repeat (constructor; [apply Z.mod_pos_bound; lia|]). constructor.
Qed.

Lemma sha256_callback_ok a b : bytes a -> bytes b -> _hmac_sha256_callback a b = Fips.sha256 (a ++ b).
Proof.
  intros Ha Hb. unfold _hmac_sha256_callback. apply finalize_ok.
  apply process_ok; [| done]. apply (process_ok _ [] a); [| done]. apply init_ok; [done|].
  apply Forall_replicate. lia.
Qed.

Lemma hmac_sha256_ok stack key message : length stack = BUFFER_SIZE -> bytes key -> bytes message ->
  hmac_compute stack key message _hmac_sha256_function_data = Some (Rfc2104.hmac Fips.sha256 64 key message).
Proof.
  intros Hs Hk Hm. apply (hmac_ok _hmac_sha256_function_data Fips.sha256); try done.
  - apply sha256_callback_ok.
  - intros l. apply digest_bytes.
  - simpl. lia.
  - unfold BUFFER_SIZE. simpl. lia.
Qed.

(** [hmac_compute] with the kernel's SHA-256 is HMAC-SHA-256 as RFC 2104
    defines it, for keys shorter than, equal to and longer than a block, and
    whatever the stack buffer held before. *)
Theorem hmac_sha256_correct (stack key message : list Z) :
  length stack = BUFFER_SIZE -> bytes key -> bytes message ->
  hmac_compute stack key message _hmac_sha256_function_data = Some (Rfc2104.hmac Fips.sha256 64 key message).
Proof. apply hmac_sha256_ok. Qed.

Lemma hmac_sha256_correct_witness :
  hmac_compute (replicate BUFFER_SIZE 9) [74; 101; 102; 101] [119; 104; 97; 116] _hmac_sha256_function_data
  = Some (Rfc2104.hmac Fips.sha256 64 [74; 101; 102; 101] [119; 104; 97; 116]).
Proof.
  apply (hmac_sha256_correct (replicate BUFFER_SIZE 9)); [reflexivity | |]; repeat constructor; lia.
Defined.

(** C34: [pbkdf2_compute] terminates and computes PBKDF2 as RFC 8018 defines it
    for the keyed function it is given, for every output length (the last
    block cut short) and every iteration count. *)
Theorem pbkdf2_correct (mem password salt : list Z) (prf : prf_t) (iterations out_length : nat) :
  (forall a b, length (prf_callback prf a b) = prf_output_size prf) -> (0 < prf_output_size prf)%nat ->
  (length salt + 4 <= length mem)%nat -> (prf_output_size prf <= length mem)%nat ->
  Z.of_nat out_length < 2 ^ 32 - 1 ->
  pbkdf2_compute mem password salt prf iterations out_length
  = Some (Rfc8018.pbkdf2 (prf_callback prf) (prf_output_size prf) password salt iterations out_length).
Proof. intros. by apply pbkdf2_ok. Qed.

Lemma prf_sha256_length a b : length (prf_callback _pbkdf2_prf_hmac_sha256_data a b) = 32%nat.
Proof.
  change (length (default [] (hmac_compute (replicate BUFFER_SIZE 0) a b _hmac_sha256_function_data)) = 32%nat).
  unfold hmac_compute. change (BUFFER_SIZE <? _)%nat with false. cbv iota.
  destruct (if (_ <? length a)%nat then _ else _) as [buf n]. reflexivity.
Qed.

Lemma pbkdf2_correct_witness :
  pbkdf2_compute (replicate 36 1) [112; 119] [115; 97; 108; 116] _pbkdf2_prf_hmac_sha256_data 2 40
  = Some (Rfc8018.pbkdf2 _pbkdf2_hmac_sha256_callback 32 [112; 119] [115; 97; 108; 116] 2 40).
Proof.
  apply (pbkdf2_correct (replicate 36 1) [112; 119] [115; 97; 108; 116] _pbkdf2_prf_hmac_sha256_data 2 40);
    [exact prf_sha256_length | simpl; lia | simpl; lia | simpl; lia | vm_compute; reflexivity].
Defined.
