(* ===== verification/Random.v ===== *)
(** * Random numbers ([src/src/kernel/random/random.c]).

    The generator keeps sixteen words of state and a buffer of sixteen words,
    to which the rounds of ChaCha are applied.  The pool of entropy is read as
    [random.asm] does it; how interrupts fill it is not modelled.  The output
    is the list of the bytes written; [None] is a store outside of a buffer. *)
From stdpp Require Import base tactics list numbers.
From Stdlib Require Import ZArith Lia.
From S2P Require Import Prelude Bytes.
#[local] Open Scope Z_scope.

(** ** The code *)

Definition MIN_ENTROPY_POOL_SIZE : Z := 128.

Record random_t := Random {
  _random_entropy_pool : list Z;         (* sixteen words *)
  _random_entropy_pool_length : Z;
  _random_chacha_state : list Z;
  _random_chacha_buffer : list Z
}.

Abbreviation word l i := (nth i l 0).

Definition _rotate_bits (a b : Z) : Z := Z.lor (u32 (Z.shiftl a b)) (Z.shiftr a (32 - b)).

(** [out[a]+=out[b]; out[d]^=out[a]; out[d]=_rotate_bits(out[d],n);] *)
Definition mix (n : Z) (a b d : nat) (out : list Z) : list Z :=
  let out := <[a := u32 (word out a + word out b)]> out in
  let out := <[d := Z.lxor (word out d) (word out a)]> out in
  <[d := _rotate_bits (word out d) n]> out.

Definition _chacha_block_quarter (out : list Z) (a b c d : nat) : list Z :=
  mix 7 c d b (mix 8 a b d (mix 12 c d b (mix 16 a b d out))).

(** The body of the loop of [_chacha_block]. *)
Definition double_round (out : list Z) : list Z :=
  let out := _chacha_block_quarter out 0 4 8 12 in
  let out := _chacha_block_quarter out 1 5 9 13 in
  let out := _chacha_block_quarter out 2 6 10 14 in
  let out := _chacha_block_quarter out 3 7 11 15 in
  let out := _chacha_block_quarter out 0 5 10 15 in
  let out := _chacha_block_quarter out 1 6 11 12 in
  let out := _chacha_block_quarter out 2 7 8 13 in
  _chacha_block_quarter out 3 4 9 14.

(** The 64-bit counter in the words 4 and 5. *)
Definition count_up (state : list Z) : list Z :=
  let n := u64 (word state 4 + 2 ^ 32 * word state 5 + 1) in
  <[5%nat := n / 2 ^ 32]> (<[4%nat := n mod 2 ^ 32]> state).

(** The sixteen bytes that [mem_copy(out,state,16)] copies are four words. *)
Definition _chacha_block (state out : list Z) : list Z * list Z :=
  (count_up state, Nat.iter 10 double_round (take 4 state ++ drop 4 out)).

Definition _random_get_entropy (g : random_t) (buffer : list Z) : random_t * list Z :=
  if sext 64 (_random_entropy_pool_length g) <? MIN_ENTROPY_POOL_SIZE then (g, buffer)
  else (Random (_random_entropy_pool g) 0 (_random_chacha_state g) (_random_chacha_buffer g), _random_entropy_pool g).

Definition set_state (g : random_t) (state : list Z) : random_t := Random (_random_entropy_pool g) (_random_entropy_pool_length g) state (_random_chacha_buffer g).
Definition set_chacha (g : random_t) (state buffer : list Z) : random_t := Random (_random_entropy_pool g) (_random_entropy_pool_length g) state buffer.

Definition reseed (g : random_t) : random_t := let '(g, state) := _random_get_entropy g (_random_chacha_state g) in set_state g state.

(** [random_init], after the pool was initialised. *)
Definition random_init (g : random_t) : random_t := reseed g.

Fixpoint generate_loop (fuel : nat) (g : random_t) (length : Z) : option (random_t * list Z) :=
  if length =? 0 then Some (g, [])
  else
    match fuel with
    | O => None
    | S fuel =>
      let '(state, buffer) := _chacha_block (_random_chacha_state g) (_random_chacha_buffer g) in
      let chunk_size := if 32 <? length then 32 else length in
      '(g, out) ← generate_loop fuel (set_chacha g state buffer) (length - chunk_size);
      Some (g, take (Z.to_nat chunk_size) (flat_map store_le32 buffer) ++ out)
    end.

Definition random_generate (g : random_t) (length : Z) : option (random_t * list Z) :=
  generate_loop (Z.to_nat length) (reseed g) length.

Definition _random_password_characters : list Z :=
  seqZ 65 26 ++ seqZ 97 26 ++ seqZ 48 10 ++ [43; 47].

(** [memory]: the bytes from the address of the buffer to the end of its block. *)
Definition random_generate_password (g : random_t) (memory : list Z) (length : Z) : option (random_t * list Z) :=
  '(g, out) ← random_generate g (u64 (length - 1));
  if Z.of_nat (base.length memory) <? u64 (length - 1) then None
  else
    let memory := out ++ drop (base.length out) memory in
    if Z.of_nat (base.length memory) <=? length then None
    else Some (g, map (fun c => word _random_password_characters (Z.to_nat (Z.land c 0x3f))) (take (Z.to_nat length) memory) ++ [0] ++ drop (S (Z.to_nat length)) memory).

(** The quarter round of RFC 8439, section 2.2.1. *)
Example quarter_round_rfc : _chacha_block_quarter [0x11111111; 0x01020304; 0x9b8d6f43; 0x01234567] 0 1 2 3 = [0xea2a92f4; 0xcb1cf8ce; 0x4581472e; 0x5881c4bb].
Proof. vm_compute. reflexivity. Qed.

(** ** The rounds can be undone *)

Definition words (l : list Z) : Prop := length l = 16%nat /\ Forall word32 l.

Definition unmix (n : Z) (a b d : nat) (out : list Z) : list Z :=
  let out := <[d := Z.lxor (_rotate_bits (word out d) (32 - n)) (word out a)]> out in
  <[a := u32 (word out a - word out b)]> out.

Definition unquarter (a b c d : nat) (out : list Z) : list Z :=
  unmix 16 a b d (unmix 12 c d b (unmix 8 a b d (unmix 7 c d b out))).

Definition undouble_round (out : list Z) : list Z :=
  unquarter 0 4 8 12 (unquarter 1 5 9 13 (unquarter 2 6 10 14 (unquarter 3 7 11 15 (unquarter 0 5 10 15 (unquarter 1 6 11 12 (unquarter 2 7 8 13 (unquarter 3 4 9 14 out))))))).

Lemma rotate_testbit x n i : word32 x -> 0 < n < 32 -> 0 <= i < 32 -> Z.testbit (_rotate_bits x n) i = Z.testbit x ((i - n) mod 32).
Proof.
  intros Hx Hn Hi. unfold _rotate_bits, u32, wrap. rewrite Z.lor_spec, Z.mod_pow2_bits_low, Z.shiftl_spec, Z.shiftr_spec by lia. destruct (Z.lt_ge_cases i n) as [H | H].
  - rewrite (Z.testbit_neg_r x (i - n)) by lia. rewrite <- (Z.mod_add (i - n) 1 32), Z.mod_small by lia. cbn [orb]. f_equal. lia.
  - rewrite Z.mod_small by lia. rewrite (word32_high x (i + (32 - n))) by (done || lia). by rewrite orb_false_r.
Qed.

Lemma rotate_word x n : word32 x -> 0 < n < 32 -> word32 (_rotate_bits x n).
Proof.
  intros Hx Hn. apply width_of_bits; [lia|]. intros i Hi. unfold _rotate_bits, u32, wrap. rewrite Z.lor_spec, Z.mod_pow2_bits_high, Z.shiftr_spec by lia. apply word32_high; [done | lia].
Qed.

Lemma word_bits x y : word32 x -> word32 y -> (forall i, 0 <= i < 32 -> Z.testbit x i = Z.testbit y i) -> x = y.
Proof. intros Hx Hy H. apply Z.bits_inj'. intros i Hi. destruct (Z.lt_ge_cases i 32); [by apply H|]. by rewrite !word32_high. Qed.

Lemma rotate_back x n : word32 x -> 0 < n < 32 -> _rotate_bits (_rotate_bits x n) (32 - n) = x.
Proof.
  intros Hx Hn. pose proof (rotate_word x n Hx Hn) as Hr. apply word_bits; [apply rotate_word; [done | lia] | done |]. intros i Hi. rewrite rotate_testbit by (done || lia). pose proof (Z.mod_pos_bound (i - (32 - n)) 32 ltac:(lia)). rewrite rotate_testbit by (done || lia). f_equal.
  rewrite Zminus_mod_idemp_l. replace (i - (32 - n) - n) with (i + (-1) * 32) by lia. rewrite Z.mod_add by lia. by apply Z.mod_small.
Qed.

Lemma lxor_word x y : word32 x -> word32 y -> word32 (Z.lxor x y).
Proof. intros Hx Hy. apply width_of_bits; [lia|]. intros i Hi. by rewrite Z.lxor_spec, !word32_high by (done || lia). Qed.

Lemma words_nth l i : words l -> word32 (word l i).
Proof. intros [_ H]. destruct (nth_in_or_default i l 0) as [Hin | ->]; [| done]. rewrite Forall_forall in H. by apply H. Qed.

Lemma words_insert l i x : words l -> word32 x -> words (<[i := x]> l).
Proof. intros [Hl H] Hx. split; [by rewrite length_insert | by apply Forall_insert]. Qed.

Lemma nth_insert_eq (l : list Z) i x : (i < length l)%nat -> word (<[i := x]> l) i = x.
Proof. intros H. rewrite nth_lookup, list_lookup_insert_eq by done. done. Qed.

Lemma nth_insert_ne (l : list Z) i j x : i <> j -> word (<[i := x]> l) j = word l j.
Proof. intros H. by rewrite !nth_lookup, list_lookup_insert_ne. Qed.

Lemma insert_nth (l : list Z) i : <[i := word l i]> l = l.
Proof. destruct (decide (i < length l)%nat); [| by rewrite list_insert_ge by lia]. apply list_insert_id. rewrite nth_lookup. destruct (l !! i) eqn:E; [done | apply lookup_ge_None in E; lia]. Qed.

(** What [mix] does, as two stores. *)
Lemma mix_words n a b d l : words l -> 0 < n < 32 -> words (mix n a b d l).
Proof.
  intros Hl Hn. unfold mix. assert (H1 : words (<[a := u32 (word l a + word l b)]> l)) by (apply words_insert; [done | apply word32_u32]).
  assert (H2 : words (<[d := Z.lxor (word (<[a := u32 (word l a + word l b)]> l) d) (word (<[a := u32 (word l a + word l b)]> l) a)]> (<[a := u32 (word l a + word l b)]> l))) by (apply words_insert; [done | apply lxor_word; by apply words_nth]).
  apply words_insert; [done|]. apply rotate_word; [by apply words_nth | done].
Qed.

Lemma unmix_mix n a b d l : words l -> 0 < n < 32 -> (a < 16)%nat -> (d < 16)%nat -> a <> b -> a <> d -> b <> d -> unmix n a b d (mix n a b d l) = l.
Proof.
  intros Hl Hn Ha Hd Hab Had Hbd. pose proof Hl as [Hlen _]. unfold mix, unmix. set (s := u32 (word l a + word l b)). rewrite (nth_insert_ne l a d), (nth_insert_eq l a), !list_insert_insert_eq by (done || lia).
  rewrite !(nth_insert_eq _ d) by (rewrite length_insert; lia). rewrite !(nth_insert_ne _ d a) by done. rewrite !(nth_insert_eq l a) by lia. rewrite !(nth_insert_ne _ d b), !(nth_insert_ne l a b) by done.
  assert (Hs : word32 s) by apply word32_u32. rewrite rotate_back by first [done | apply lxor_word; [by apply words_nth | done]]. rewrite Z.lxor_assoc, Z.lxor_nilpotent, Z.lxor_0_r.
  rewrite (list_insert_insert_ne l d a) by done. rewrite list_insert_insert_eq. rewrite (insert_nth l d).
  replace (u32 (s - word l b)) with (word l a); [apply insert_nth|]. unfold s, u32, wrap. rewrite Zminus_mod_idemp_l. replace (word l a + word l b - word l b) with (word l a) by lia. symmetry. apply Z.mod_small. by apply words_nth.
Qed.

Lemma quarter_words l a b c d : words l -> words (_chacha_block_quarter l a b c d).
Proof. intros H. unfold _chacha_block_quarter. repeat (apply mix_words; [| lia]). done. Qed.

Lemma unquarter_quarter l a b c d : words l -> (a < b < c)%nat -> (b < d < 16)%nat -> (c < 16)%nat -> a <> c -> a <> d -> c <> d -> unquarter a b c d (_chacha_block_quarter l a b c d) = l.
Proof.
  intros Hl H1 H2 Hc Hac Had Hcd. unfold unquarter, _chacha_block_quarter. rewrite !unmix_mix; try done; try lia; repeat (apply mix_words; [| lia]); done.
Qed.

Lemma double_round_words l : words l -> words (double_round l).
Proof. intros H. unfold double_round. by repeat apply quarter_words. Qed.

Lemma undouble_double l : words l -> undouble_round (double_round l) = l.
Proof. intros H. unfold undouble_round, double_round. rewrite !unquarter_quarter; try lia; repeat apply quarter_words; done. Qed.

Lemma rounds_words n l : words l -> words (Nat.iter n double_round l).
Proof. intros H. induction n; [done | by apply double_round_words]. Qed.

Lemma unrounds n l : words l -> Nat.iter n undouble_round (Nat.iter n double_round l) = l.
Proof. intros H. induction n as [| n IH]; [done|]. rewrite (Nat.iter_succ_r n _ undouble_round), (Nat.iter_succ n _ double_round), undouble_double; [done | by apply rounds_words]. Qed.

(** ** The stream of random bytes *)

#[local] Opaque double_round.

Definition random_ok (g : random_t) : Prop := words (_random_entropy_pool g) /\ words (_random_chacha_state g) /\ words (_random_chacha_buffer g).

(** The next buffer: four words of the state enter it, in front of what was there. *)
Definition next_block (key buffer : list Z) : list Z := Nat.iter 10 double_round (key ++ drop 4 buffer).

(** The first half of each of [n] buffers. *)
Fixpoint stream (n : nat) (key buffer : list Z) : list Z :=
  match n with
  | O => []
  | S n => take 32 (flat_map store_le32 (next_block key buffer)) ++ stream n key (next_block key buffer)
  end.

Definition blocks (length : Z) : nat := Z.to_nat ((length + 31) / 32).

Lemma key_block_words (state buffer : list Z) : words state -> words buffer -> words (take 4 state ++ drop 4 buffer).
Proof.
  intros [H1 H2] [H3 H4]. split; [rewrite length_app, length_take, length_drop; lia|]. apply Forall_app_2; [by apply Forall_take | by apply Forall_drop].
Qed.

Lemma count_up_words state : words state -> words (count_up state) /\ take 4 (count_up state) = take 4 state.
Proof.
  intros H. pose proof (words_nth state 4 H) as H4. pose proof (words_nth state 5 H) as H5. unfold count_up. set (n := u64 _). assert (Hn : 0 <= n < 2 ^ 64) by apply u64_range. split.
  - repeat apply words_insert; [done | unfold word32; apply Z.mod_pos_bound; lia |]. unfold word32. change (2 ^ 64) with (2 ^ 32 * 2 ^ 32) in Hn. split; [apply Z.div_pos; lia | apply Z.div_lt_upper_bound; lia].
  - by rewrite !take_insert_ge by lia.
Qed.

Lemma length_bytes (l : list Z) : length (flat_map store_le32 l) = (4 * length l)%nat.
Proof. induction l as [| x l IH]; [done|]. cbn [flat_map length]. rewrite length_app, IH. cbn [store_le32 map seq length]. lia. Qed.

Lemma chacha_block_eq state buffer : _chacha_block state buffer = (count_up state, next_block (take 4 state) buffer).
Proof. unfold _chacha_block, next_block. reflexivity. Qed.

Lemma blocks_step len : 0 < len -> blocks len = S (blocks (len - (if 32 <? len then 32 else len))).
Proof.
  intros H. unfold blocks. destruct (Z.ltb_spec 32 len).
  - replace (len + 31) with (len - 32 + 31 + 1 * 32) by lia. rewrite Z.div_add by lia. pose proof (Z.div_pos (len - 32 + 31) 32). lia.
  - rewrite Z.sub_diag. replace (len + 31) with (len - 1 + 1 * 32) by lia. rewrite Z.div_add, Z.div_small by lia. done.
Qed.

Lemma generate_loop_ok fuel g len : random_ok g -> 0 <= len -> (Z.to_nat len <= fuel)%nat ->
  let key := take 4 (_random_chacha_state g) in
  exists g', generate_loop fuel g len = Some (g', take (Z.to_nat len) (stream (blocks len) key (_random_chacha_buffer g))) /\ random_ok g' /\
    _random_chacha_buffer g' = Nat.iter (blocks len) (next_block key) (_random_chacha_buffer g) /\ take 4 (_random_chacha_state g') = key.
Proof.
  revert g len. induction fuel as [| fuel IH]; intros g len Hg H0 Hf; cbn [generate_loop].
  { assert (len = 0) as -> by lia. by exists g. }
  destruct (Z.eqb_spec len 0) as [-> | Hne]; [by exists g|]. destruct Hg as (Hp & Hs & Hb). rewrite chacha_block_eq.
  set (key := take 4 (_random_chacha_state g)). set (b := next_block key (_random_chacha_buffer g)). destruct (count_up_words _ Hs) as [Hs' Hkey]. assert (Hb' : words b) by (unfold b, next_block; apply rounds_words; by apply key_block_words).
  pose proof (blocks_step len ltac:(lia)) as Hbl. set (ch := if 32 <? len then 32 else len) in *. assert (Hch : 0 < ch <= 32 /\ ch <= len /\ (ch = len \/ ch = 32)) by (unfold ch; destruct (Z.ltb_spec 32 len); lia).
  destruct (IH (set_chacha g (count_up (_random_chacha_state g)) b) (len - ch)) as (g' & Eg & Hg' & Hbuf & Hst); [done | lia | lia |]. cbn [_random_chacha_state _random_chacha_buffer set_chacha] in *. rewrite Hkey in *. fold key in Eg, Hbuf, Hst. rewrite Eg. cbn [mbind option_bind].
  assert (Hlen : length (take 32 (flat_map store_le32 b)) = 32%nat) by (rewrite length_take, length_bytes; destruct Hb' as [-> _]; lia).
  exists g'. split; [| split; [done|]; split; [by rewrite Hbl, Nat.iter_succ_r | done]]. f_equal. f_equal. rewrite Hbl. cbn [stream]. change (next_block key (_random_chacha_buffer g)) with b. rewrite take_app, take_take, Hlen. f_equal; [f_equal; lia|]. f_equal. lia.
Qed.

Lemma stream_length n state buffer : words state -> words buffer -> length (stream n (take 4 state) buffer) = (32 * n)%nat.
Proof.
  intros Hs. revert buffer. induction n as [| n IH]; intros buffer Hb; [done|]. cbn [stream]. assert (Hw : words (next_block (take 4 state) buffer)) by (unfold next_block; apply rounds_words; by apply key_block_words).
  rewrite length_app, IH, length_take, length_bytes by done. destruct Hw as [-> _]. lia.
Qed.

Lemma reseed_ok g : random_ok g -> random_ok (reseed g) /\ _random_chacha_buffer (reseed g) = _random_chacha_buffer g.
Proof. intros (? & ? & ?). unfold reseed, _random_get_entropy. by destruct (_ <? _). Qed.

Lemma generate_ok g len : random_ok g -> 0 <= len ->
  let key := take 4 (_random_chacha_state (reseed g)) in
  exists g', random_generate g len = Some (g', take (Z.to_nat len) (stream (blocks len) key (_random_chacha_buffer g))) /\ random_ok g' /\
    Z.of_nat (length (take (Z.to_nat len) (stream (blocks len) key (_random_chacha_buffer g)))) = len /\
    _random_chacha_buffer g' = Nat.iter (blocks len) (next_block key) (_random_chacha_buffer g) /\ take 4 (_random_chacha_state g') = key.
Proof.
  intros Hg H0. destruct (reseed_ok g Hg) as [Hr Hb]. destruct (generate_loop_ok (Z.to_nat len) (reseed g) len Hr H0 (le_n _)) as (g' & E & Hg' & Hbuf & Hk). rewrite Hb in *. exists g'. split; [exact E|]. split; [done|]. split; [| done].
  rewrite length_take, stream_length by (done || apply Hr || apply Hg). unfold blocks. pose proof (Z.mod_pos_bound (len + 31) 32 ltac:(lia)). pose proof (Z.div_mod (len + 31) 32 ltac:(lia)). lia.
Qed.

Lemma stream_bytes n key buffer : bytes (stream n key buffer).
Proof.
  revert buffer. induction n as [| n IH]; intros buffer; [apply Forall_nil_2|]. cbn [stream]. apply Forall_app_2; [apply Forall_take | apply IH]. generalize (next_block key buffer) as l. induction l as [| x l IHl]; [apply Forall_nil_2|]. cbn [flat_map]. apply Forall_app_2; [| done].
  cbn [store_le32 map seq]. repeat apply Forall_cons_2; try apply Forall_nil_2; rewrite land_255; apply Z.mod_pos_bound; lia.
Qed.

Lemma stream_add n m key buffer : stream (n + m) key buffer = stream n key buffer ++ stream m key (Nat.iter n (next_block key) buffer).
Proof. revert buffer. induction n as [| n IH]; intros buffer; [done|]. cbn [stream Nat.add]. by rewrite IH, Nat.iter_succ_r, <- (assoc_L (++)). Qed.

Lemma blocks_whole len : 0 <= len -> len mod 32 = 0 -> Z.to_nat len = (32 * blocks len)%nat.
Proof. intros H Hm. pose proof (Z.div_mod len 32 ltac:(lia)). pose proof (Z.div_pos len 32). unfold blocks. replace (len + 31) with (31 + len / 32 * 32) by lia. rewrite Z.div_add, Z.div_small by lia. lia. Qed.

Lemma blocks_add len m : 0 <= len -> 0 <= m -> len mod 32 = 0 -> blocks (len + m) = (blocks len + blocks m)%nat.
Proof.
  intros H Hm Hd. pose proof (blocks_whole len H Hd). pose proof (Z.div_mod len 32 ltac:(lia)). pose proof (Z.div_pos (m + 31) 32). pose proof (Z.div_pos len 32). unfold blocks in *. replace (len + m + 31) with (m + 31 + len / 32 * 32) by lia. rewrite Z.div_add by lia. lia.
Qed.

(** [random_generate] always ends and writes exactly the bytes that were asked for: the stream in which each block is the first half of the buffer after ten double rounds of ChaCha, started from four words of the state and the last twelve words of the buffer before.  The generator stays well formed, and goes on in the stream: what two calls write is what one call of the sum of whole blocks writes, if no entropy arrives between them. *)
Theorem random_generate_stream g len : random_ok g -> 0 <= len ->
  let key := take 4 (_random_chacha_state (reseed g)) in
  exists g' out, random_generate g len = Some (g', out) /\ random_ok g' /\ Z.of_nat (length out) = len /\ bytes out /\
    out = take (Z.to_nat len) (stream (blocks len) key (_random_chacha_buffer g)) /\
    (0 <= _random_entropy_pool_length g' < MIN_ENTROPY_POOL_SIZE -> forall m, 0 <= m -> len mod 32 = 0 ->
       exists g2 out2, random_generate g' m = Some (g2, out2) /\ out ++ out2 = take (Z.to_nat (len + m)) (stream (blocks (len + m)) key (_random_chacha_buffer g))).
Proof.
  intros Hg H0 key. destruct (generate_ok g len Hg H0) as (g' & E & Hg' & Hl & Hb & Hk). fold key in E, Hb, Hk, Hl. eexists g', _. split; [exact E|]. split; [done|]. split; [done|]. split; [apply Forall_take, stream_bytes|]. split; [done|].
  intros Hpool m Hm Hmod. destruct (generate_ok g' m Hg' Hm) as (g2 & E2 & _). eexists g2, _. split; [exact E2|].
  assert (Hkey : take 4 (_random_chacha_state (reseed g')) = key).
  { rewrite <- Hk. unfold reseed, _random_get_entropy. assert (sext 64 (_random_entropy_pool_length g') = _random_entropy_pool_length g') as ->.
    { unfold sext, MIN_ENTROPY_POOL_SIZE in *. rewrite Z.mod_small; lia. } by rewrite (proj2 (Z.ltb_lt _ _) (proj2 Hpool)). }
  rewrite Hkey, Hb. replace (blocks (len + m)) with (blocks len + blocks m)%nat by (symmetry; apply blocks_add; lia). rewrite stream_add, take_app.
  assert (Hsl : length (stream (blocks len) key (_random_chacha_buffer g)) = Z.to_nat len) by (unfold key; rewrite stream_length; [rewrite (blocks_whole len) by lia; lia | apply (reseed_ok g Hg) | apply Hg]).
  rewrite Hsl, (take_ge (stream (blocks len) _ _) (Z.to_nat len)), (take_ge (stream (blocks len) _ _) (Z.to_nat (len + m))) by lia. f_equal. f_equal. lia.
Qed.

Lemma random_generate_stream_witness : exists g' out, random_generate (Random (replicate 16 1) 128 (replicate 16 0) (replicate 16 0)) 40 = Some (g', out) /\ length out = 40%nat /\ take 4 out = [191; 175; 145; 163].
Proof.
  destruct (random_generate_stream (Random (replicate 16 1) 128 (replicate 16 0) (replicate 16 0)) 40) as (g' & out & E & _ & Hl & _ & Ho & _); [| lia |].
  - repeat split; apply Forall_replicate; split; vm_compute; congruence.
  - exists g', out. split; [exact E|]. split; [lia|]. rewrite Ho. vm_compute. reflexivity.
Defined.

(** ** What the generator does not do *)

(** Of the sixteen words of the state only four reach the output: whatever entropy the others hold, and the counter, the bytes are the same. *)
Theorem random_ignores_entropy g1 g2 len : random_ok g1 -> random_ok g2 -> 0 <= len -> _random_chacha_buffer g1 = _random_chacha_buffer g2 ->
  take 4 (_random_chacha_state (reseed g1)) = take 4 (_random_chacha_state (reseed g2)) -> snd <$> random_generate g1 len = snd <$> random_generate g2 len.
Proof.
  intros H1 H2 H0 Hb Hk. destruct (generate_ok g1 len H1 H0) as (? & -> & _). destruct (generate_ok g2 len H2 H0) as (? & -> & _). cbn. by rewrite Hb, Hk.
Qed.

(** The rounds are not followed by an addition of what they started from, so they can be undone: who sees the buffer after a call knows the four words of the key, and twelve of the sixteen words of the buffer before it, of which four were handed out. *)
Theorem random_backtracks g len : random_ok g -> 0 < len <= 32 ->
  exists g' out, random_generate g len = Some (g', out) /\ Nat.iter 10 undouble_round (_random_chacha_buffer g') = take 4 (_random_chacha_state (reseed g)) ++ drop 4 (_random_chacha_buffer g).
Proof.
  intros Hg H. destruct (generate_ok g len Hg) as (g' & E & _ & _ & Hb & _); [lia|]. eexists g', _. split; [exact E|]. rewrite Hb. replace (blocks len) with 1%nat by (unfold blocks; replace (len + 31) with (len - 1 + 1 * 32) by lia; by rewrite Z.div_add, Z.div_small by lia).
  rewrite (Nat.iter_succ 0 _ (next_block _)). change (Nat.iter 0 (next_block (take 4 (_random_chacha_state (reseed g)))) (_random_chacha_buffer g)) with (_random_chacha_buffer g). unfold next_block. rewrite (unrounds 10); [done|]. apply key_block_words; [apply (reseed_ok g Hg) | apply Hg].
Qed.

(** [random_generate_password] stores the end of the string behind the [length] bytes it was given. *)
Theorem password_overruns g memory len : 0 <= len < 2 ^ 64 -> Z.of_nat (length memory) = len -> random_ok g -> random_generate_password g memory len = None.
Proof.
  intros Hl Hm Hg. unfold random_generate_password. destruct (generate_ok g (u64 (len - 1)) Hg) as (g' & -> & _ & Ho & _); [apply u64_range|]. cbn [mbind option_bind]. revert Ho. generalize (take (Z.to_nat (u64 (len - 1))) (stream (blocks (u64 (len - 1))) (take 4 (_random_chacha_state (reseed g))) (_random_chacha_buffer g))) as out. intros out Ho. destruct (Z.ltb_spec (Z.of_nat (length memory)) (u64 (len - 1))); [done|].
  rewrite length_app, length_drop. destruct (Z.leb_spec (Z.of_nat (length out + (length memory - length out))) len); [done | lia].
Qed.
