(* ===== verification/Aes.v ===== *)
(** * AES ([src/src/kernel/aes/aes.c]): key expansion, block encryption and
    decryption by tables, and CBC mode.

    A block is four 32-bit words, most significant byte first.  The working
    array [s[8]] is a pair of halves; round [i] reads one and writes the
    other. *)
From stdpp Require Import base tactics list numbers.
From Stdlib Require Import ZArith Lia.
From S2P Require Import Prelude Bytes AesTables.
#[local] Open Scope Z_scope.

(** ** The code *)

Definition AES_FLAG_ENCRYPTION : Z := 1.
Definition AES_FLAG_DECRYPTION : Z := 2.

Record aes_state_t := mk_aes {
  encryption_key : list Z;
  decryption_key : list Z;
  rounds : nat
}.

Definition tbl (t : list Z) (i : Z) : Z := nth (Z.to_nat i) t 0.

(** [(w>>(24-8*k))&0xff] *)
Definition byte (k : Z) (w : Z) : Z := Z.land (Z.shiftr w (24 - 8 * k)) 0xff.

(** [_aes_encryption_table[x+0x100]&0xff]: the substitution box. *)
Definition sub (x : Z) : Z := Z.land (tbl _aes_encryption_table (x + 0x100)) 0xff.

(** One word of the expanded key from the words before it, [j = i mod width]. *)
Definition next_key_word (width : nat) (key : list Z) (i j : nat) : Z :=
  let prev := nth (i - 1) key 0 in
  let base := nth (i - width) key 0 in
  if (j =? 0)%nat then
    let v := Z.lxor base (nth (i / width - 1) _aes_rcon 0) in
    let v := Z.lxor v (Z.shiftl (sub (byte 1 prev)) 24) in
    let v := Z.lxor v (Z.shiftl (sub (byte 2 prev)) 16) in
    let v := Z.lxor v (Z.shiftl (sub (byte 3 prev)) 8) in
    Z.lxor v (sub (byte 0 prev))
  else if (width =? 8)%nat && (j =? 4)%nat then
    let v := Z.lxor base (Z.shiftl (sub (byte 0 prev)) 24) in
    let v := Z.lxor v (Z.shiftl (sub (byte 1 prev)) 16) in
    let v := Z.lxor v (Z.shiftl (sub (byte 2 prev)) 8) in
    Z.lxor v (sub (byte 3 prev))
  else Z.lxor base prev.

(** [for (u32 i=width;i<((rounds+1)<<2);i++)], [n] words still to compute. *)
Fixpoint expand_key (n : nat) (width : nat) (key : list Z) (j : nat) : list Z :=
  match n with
  | O => key
  | S n => expand_key n width (key ++ [next_key_word width key (length key) j])
             (if (S j =? width)%nat then 0%nat else S j)
  end.

Definition _generate_encryption_key (rounds : nat) (key : list Z) : list Z :=
  let width := (rounds - 6)%nat in
  expand_key (4 * (rounds + 1) - width) width
    (map (fun i => bswap32 (load32 key i)) (seq 0 (length key / 4))) 0.

(** The inner loop of the key inversion: [value ^= Td[S[byte j]+256*j]]. *)
Definition inv_mix (w : Z) : Z :=
  foldl (fun value j => Z.lxor value (tbl _aes_decryption_table (sub (byte j w) + Z.shiftl j 8))) 0 [0; 1; 2; 3].

Definition _generate_decryption_key (rounds : nat) (ek : list Z) : list Z :=
  let dk := concat (map (fun r => map (fun j => nth (4 * rounds - 4 * r + j) ek 0) (seq 0 4)) (seq 0 (rounds + 1))) in
  imap (fun i w => if (4 <=? i)%nat && (i <? 4 * rounds)%nat then inv_mix w else w) dk.

Definition _xor_cbc_block (a b : list Z) : list Z := zip_with Z.lxor a b.

(** [None] is a panic. *)
Definition aes_init (key : list Z) (flags : Z) : option aes_state_t :=
  if (flags =? 0) || negb (Z.land flags (lnot_w 32 (Z.lor AES_FLAG_ENCRYPTION AES_FLAG_DECRYPTION)) =? 0) then None
  else if negb (length key =? 16)%nat && negb (length key =? 24)%nat && negb (length key =? 32)%nat then None
  else
    let rounds := (6 + length key / 4)%nat in
    let ek := _generate_encryption_key rounds key in
    let dk := if negb (Z.land flags AES_FLAG_DECRYPTION =? 0) then _generate_decryption_key rounds ek else [] in
    let ek := if Z.land flags AES_FLAG_ENCRYPTION =? 0 then replicate 60 0 else ek in
    Some (mk_aes ek dk rounds).

(** [s[i]=key[i]^__builtin_bswap32(data[i])] *)
Definition load_block (rk data : list Z) : list Z :=
  map (fun i => Z.lxor (nth i rk 0) (bswap32 (load32 data i))) (seq 0 4).

(** [out[i]=__builtin_bswap32(value[i])] *)
Definition store_block (s : list Z) : list Z := concat (map (fun w => store_le32 (bswap32 w)) s).

Definition word_at (s : list Z) (j : Z) : Z := nth (Z.to_nat (Z.land j 3)) s 0.

(** One round: [s[j+dst]] from the words of the other half. *)
Definition encrypt_round (rk s : list Z) : list Z :=
  map (fun j => foldl (fun v k => Z.lxor v (tbl _aes_encryption_table (byte k (word_at s (Z.of_nat j + k)) + Z.shiftl k 8)))
                  (nth j rk 0) [0; 1; 2; 3]) (seq 0 4).

Definition decrypt_round (rk s : list Z) : list Z :=
  map (fun j => foldl (fun v k => Z.lxor v (tbl _aes_decryption_table (byte k (word_at s (Z.of_nat j - k)) + Z.shiftl k 8)))
                  (nth j rk 0) [0; 1; 2; 3]) (seq 0 4).

Definition encrypt_last (rk s : list Z) : list Z :=
  map (fun j => foldl (fun v k => Z.lxor v (Z.shiftl (sub (byte k (word_at s (Z.of_nat j + k)))) (24 - 8 * k)))
                  (nth j rk 0) [0; 1; 2; 3]) (seq 0 4).

Definition decrypt_last (rk s : list Z) : list Z :=
  map (fun j => foldl (fun v k => Z.lxor v (Z.shiftl (tbl _aes_single_decryption_table (byte k (word_at s (Z.of_nat j - k)))) (24 - 8 * k)))
                  (nth j rk 0) [0; 1; 2; 3]) (seq 0 4).

Definition round_key (key : list Z) (i : nat) : list Z := take 4 (drop (4 * i) key).

(** [dst=(i&1)<<2]: odd rounds write the upper half from the lower. *)
Definition half_round (f : list Z -> list Z) (i : nat) (s : list Z * list Z) : list Z * list Z :=
  if Nat.odd i then (s.1, f s.1) else (f s.2, s.2).

Definition aes_encrypt_block (st : aes_state_t) (data : list Z) : list Z :=
  let s := (load_block (round_key (encryption_key st) 0) data, []) in
  let s := foldl (fun s i => half_round (encrypt_round (round_key (encryption_key st) i)) i s) s (seq 1 (rounds st - 1)) in
  store_block (encrypt_last (round_key (encryption_key st) (rounds st)) s.2).

Definition aes_decrypt_block (st : aes_state_t) (data : list Z) : list Z :=
  let s := (load_block (round_key (decryption_key st) 0) data, []) in
  let s := foldl (fun s i => half_round (decrypt_round (round_key (decryption_key st) i)) i s) s (seq 1 (rounds st - 1)) in
  store_block (decrypt_last (round_key (decryption_key st) (rounds st)) s.2).

(** The two loops of [aes_cbc_process] over 16-byte blocks; [prev] is the block
    to xor with (the IV, then the previous ciphertext block). *)
Fixpoint cbc_encrypt (n : nat) (st : aes_state_t) (prev data : list Z) : list Z :=
  match n with
  | O => []
  | S n =>
      let c := aes_encrypt_block st (_xor_cbc_block (take 16 data) prev) in
      c ++ cbc_encrypt n st c (drop 16 data)
  end.

Fixpoint cbc_decrypt (n : nat) (st : aes_state_t) (prev data : list Z) : list Z :=
  match n with
  | O => []
  | S n =>
      let c := take 16 data in
      _xor_cbc_block (aes_decrypt_block st c) prev ++ cbc_decrypt n st c (drop 16 data)
  end.

(** [aliased] is [data==out]. *)
Definition aes_cbc_process (key iv : list Z) (flags : Z) (data : list Z) (aliased : bool) : option (list Z) :=
  let mode := Z.land flags (Z.lor AES_FLAG_ENCRYPTION AES_FLAG_DECRYPTION) in
  if (length data =? 0)%nat then Some []
  else if negb (length iv =? 16)%nat then None
  else if negb (mode =? AES_FLAG_ENCRYPTION) && negb (mode =? AES_FLAG_DECRYPTION) then None
  else if negb (length data mod 16 =? 0)%nat then None
  else if negb (Z.land flags AES_FLAG_DECRYPTION =? 0) && aliased then None
  else match aes_init key flags with
       | None => None
       | Some st =>
           if negb (Z.land flags AES_FLAG_ENCRYPTION =? 0)
           then Some (cbc_encrypt (length data / 16) st iv data)
           else Some (cbc_decrypt (length data / 16) st iv data)
       end.

(** ** Bytes of a word *)

Definition join (b0 b1 b2 b3 : Z) : Z :=
  Z.lxor (Z.lxor (Z.lxor (Z.shiftl b0 24) (Z.shiftl b1 16)) (Z.shiftl b2 8)) b3.

Definition is_byte (b : Z) : Prop := 0 <= b < 256.

Lemma byte_div k w : 0 <= k <= 3 -> byte k w = w / 2 ^ (24 - 8 * k) mod 256.
Proof. intros Hk. unfold byte. change 0xff with 255. by rewrite land_255, Z.shiftr_div_pow2 by lia. Qed.

Lemma byte_range k w : is_byte (byte k w).
Proof. unfold byte, is_byte. change 0xff with 255. rewrite land_255. apply Z.mod_pos_bound. lia. Qed.

Lemma byte_xor k a b : byte k (Z.lxor a b) = Z.lxor (byte k a) (byte k b).
Proof.
  unfold byte. rewrite Z.shiftr_lxor. apply Z.bits_inj'. intros i Hi. rewrite Z.lxor_spec, !Z.land_spec, Z.lxor_spec.
  by destruct (Z.testbit 255 i), (Z.testbit (Z.shiftr a _) i), (Z.testbit (Z.shiftr b _) i).
Qed.

Lemma lxor_shiftl_add a b n : 0 <= n -> 0 <= b < 2 ^ n -> Z.lxor (Z.shiftl a n) b = a * 2 ^ n + b.
Proof.
  intros Hn Hb. rewrite <- Z.shiftl_mul_pow2 by done. symmetry. apply Z.add_nocarry_lxor.
  apply Z.bits_inj'. intros i Hi. rewrite Z.land_spec, Z.bits_0. destruct (Z.ltb_spec i n).
  - rewrite Z.shiftl_spec, Z.testbit_neg_r by lia. done.
  - rewrite <- (Z.mod_small b (2 ^ n)), Z.mod_pow2_bits_high by lia. by rewrite andb_false_r.
Qed.

Lemma join_arith b0 b1 b2 b3 : is_byte b0 -> is_byte b1 -> is_byte b2 -> is_byte b3 ->
  join b0 b1 b2 b3 = b0 * 2 ^ 24 + b1 * 2 ^ 16 + b2 * 2 ^ 8 + b3.
Proof.
  intros H0 H1 H2 H3. unfold join, is_byte in *. rewrite !Z.lxor_assoc.
  rewrite (lxor_shiftl_add b2), (lxor_shiftl_add b1), (lxor_shiftl_add b0) by lia. lia.
Qed.

Lemma byte_join b0 b1 b2 b3 : is_byte b0 -> is_byte b1 -> is_byte b2 -> is_byte b3 ->
  byte 0 (join b0 b1 b2 b3) = b0 /\ byte 1 (join b0 b1 b2 b3) = b1
  /\ byte 2 (join b0 b1 b2 b3) = b2 /\ byte 3 (join b0 b1 b2 b3) = b3.
Proof.
  intros H0 H1 H2 H3. rewrite join_arith, !byte_div by (done || lia). unfold is_byte in *.
  change (24 - 8 * 0) with 24. change (24 - 8 * 1) with 16. change (24 - 8 * 2) with 8. change (24 - 8 * 3) with 0.
  split_and!; Z.div_mod_to_equations; lia.
Qed.

Lemma join_byte w : word32 w -> join (byte 0 w) (byte 1 w) (byte 2 w) (byte 3 w) = w.
Proof.
  intros [H1 H2]. rewrite join_arith by apply byte_range. rewrite !byte_div by lia.
  change (24 - 8 * 0) with 24. change (24 - 8 * 1) with 16. change (24 - 8 * 2) with 8. change (24 - 8 * 3) with 0.
  Z.div_mod_to_equations; lia.
Qed.

Lemma word32_xor a b : word32 a -> word32 b -> word32 (Z.lxor a b).
Proof.
  intros Ha Hb. assert (H0 : 0 <= Z.lxor a b) by (apply Z.lxor_nonneg; unfold word32 in *; lia).
  split; [done|]. destruct (decide (Z.lxor a b = 0)) as [-> | Hne]; [lia|].
  apply Z.log2_lt_pow2; [lia|]. destruct (Z.lt_ge_cases (Z.log2 (Z.lxor a b)) 32) as [| Hge]; [done|].
  exfalso. assert (Hbit : Z.testbit (Z.lxor a b) (Z.log2 (Z.lxor a b)) = true) by (apply Z.bit_log2; lia).
  rewrite Z.lxor_spec, (word32_high a), (word32_high b) in Hbit by done. done.
Qed.

Lemma word32_join b0 b1 b2 b3 : is_byte b0 -> is_byte b1 -> is_byte b2 -> is_byte b3 -> word32 (join b0 b1 b2 b3).
Proof. intros. rewrite join_arith by done. unfold is_byte, word32 in *. lia. Qed.

(** ** Facts about the tables, by computation over all entries *)

Definition all_bytes : list Z := map Z.of_nat (seq 0 256).

Lemma all_bytes_spec (P : Z -> bool) : forallb P all_bytes = true -> forall x, is_byte x -> P x = true.
Proof.
  intros H x Hx. rewrite forallb_forall in H. apply H. unfold all_bytes. apply in_map_iff.
  unfold is_byte in Hx. exists (Z.to_nat x). split; [lia|]. apply in_seq. lia.
Qed.

Definition four (P : Z -> Z -> bool) : bool := forallb (fun k => forallb (P k) all_bytes) [0; 1; 2; 3].

Lemma four_spec (P : Z -> Z -> bool) : four P = true -> forall k x, 0 <= k <= 3 -> is_byte x -> P k x = true.
Proof.
  intros H k x Hk Hx. unfold four in H. rewrite forallb_forall in H.
  apply all_bytes_spec; [| done]. apply H. assert (k = 0 \/ k = 1 \/ k = 2 \/ k = 3) by lia. simpl. intuition.
Qed.

Definition Te (k x : Z) : Z := tbl _aes_encryption_table (x + Z.shiftl k 8).
Definition Td (k x : Z) : Z := tbl _aes_decryption_table (x + Z.shiftl k 8).
Definition inv_sub (x : Z) : Z := tbl _aes_single_decryption_table x.

Lemma sub_facts x : is_byte x -> is_byte (sub x) /\ inv_sub (sub x) = x /\ is_byte (inv_sub x) /\ sub (inv_sub x) = x.
Proof.
  intros Hx. pose proof (all_bytes_spec (fun x => (0 <=? sub x) && (sub x <? 256) && (inv_sub (sub x) =? x)
     && (0 <=? inv_sub x) && (inv_sub x <? 256) && (sub (inv_sub x) =? x)) ltac:(vm_compute; reflexivity) x Hx) as H.
  cbv beta in H. rewrite !andb_true_iff, !Z.leb_le, !Z.ltb_lt, !Z.eqb_eq in H. unfold is_byte. lia.
Qed.

Lemma Te_facts k x : 0 <= k <= 3 -> is_byte x ->
  word32 (Te k x) /\ inv_mix (Te k x) = Z.shiftl (sub x) (24 - 8 * k).
Proof.
  intros Hk Hx. pose proof (four_spec (fun k x => (0 <=? Te k x) && (Te k x <? 2 ^ 32)
     && (inv_mix (Te k x) =? Z.shiftl (sub x) (24 - 8 * k))) ltac:(vm_compute; reflexivity) k x Hk Hx) as H.
  cbv beta in H. rewrite !andb_true_iff, !Z.leb_le, !Z.ltb_lt, !Z.eqb_eq in H. unfold word32. lia.
Qed.

#[local] Opaque _aes_encryption_table _aes_decryption_table _aes_single_decryption_table.

(** *** The inverse column mix is linear *)

Definition bits8 : list Z := [0; 1; 2; 3; 4; 5; 6; 7].

(** [f] summed over the bits of [b]. *)
Definition by_bits (f : Z -> Z) (b : Z) : Z :=
  foldr (fun i acc => Z.lxor (if Z.testbit b i then f (2 ^ i) else 0) acc) 0 bits8.

Lemma by_bits_xor f a b : by_bits f (Z.lxor a b) = Z.lxor (by_bits f a) (by_bits f b).
Proof.
  unfold by_bits. generalize bits8. intros l. induction l as [| i l IH]; simpl; [done|].
  rewrite IH, Z.lxor_spec.
  set (u := foldr _ 0 l). set (v := foldr _ 0 l). set (x := f (2 ^ i)).
  destruct (Z.testbit a i), (Z.testbit b i); simpl; rewrite ?Z.lxor_0_l; 
    rewrite ?(Z.lxor_assoc x), ?(Z.lxor_comm u (Z.lxor x v)), ?(Z.lxor_assoc x), ?(Z.lxor_comm v u); try done.
  by rewrite <- (Z.lxor_assoc x x), Z.lxor_nilpotent, Z.lxor_0_l.
Qed.

Lemma Td_facts k x : 0 <= k <= 3 -> is_byte x ->
  word32 (Td k x) /\ Td k (sub x) = by_bits (fun b => Td k (sub b)) x.
Proof.
  intros Hk Hx. pose proof (four_spec (fun k x => (0 <=? Td k x) && (Td k x <? 2 ^ 32)
     && (Td k (sub x) =? by_bits (fun b => Td k (sub b)) x)) ltac:(vm_compute; reflexivity) k x Hk Hx) as H.
  cbv beta in H. rewrite !andb_true_iff, !Z.leb_le, !Z.ltb_lt, !Z.eqb_eq in H. unfold word32. lia.
Qed.

Lemma Td_sub_xor k a b : 0 <= k <= 3 ->
  Td k (sub (byte k (Z.lxor a b))) = Z.lxor (Td k (sub (byte k a))) (Td k (sub (byte k b))).
Proof.
  intros Hk. rewrite !(proj2 (Td_facts k _ Hk (byte_range _ _))). by rewrite byte_xor, by_bits_xor.
Qed.

Definition xor4 (a b c d : Z) : Z := Z.lxor (Z.lxor (Z.lxor a b) c) d.

Lemma xor4_xor a b c d a' b' c' d' :
  xor4 (Z.lxor a a') (Z.lxor b b') (Z.lxor c c') (Z.lxor d d') = Z.lxor (xor4 a b c d) (xor4 a' b' c' d').
Proof.
  unfold xor4. apply Z.bits_inj'. intros i Hi. rewrite !Z.lxor_spec.
  destruct (Z.testbit a i), (Z.testbit b i), (Z.testbit c i), (Z.testbit d i),
    (Z.testbit a' i), (Z.testbit b' i), (Z.testbit c' i), (Z.testbit d' i); done.
Qed.

Lemma inv_mix_Td w : inv_mix w = xor4 (Td 0 (sub (byte 0 w))) (Td 1 (sub (byte 1 w)))
                                      (Td 2 (sub (byte 2 w))) (Td 3 (sub (byte 3 w))).
Proof. unfold inv_mix, xor4. cbn [foldl]. by rewrite Z.lxor_0_l. Qed.

Lemma inv_mix_xor a b : inv_mix (Z.lxor a b) = Z.lxor (inv_mix a) (inv_mix b).
Proof. rewrite !inv_mix_Td, !Td_sub_xor by lia. apply xor4_xor. Qed.

Lemma inv_mix_word32 w : word32 (inv_mix w).
Proof.
  rewrite inv_mix_Td. unfold xor4.
  repeat apply word32_xor; apply Td_facts; try lia; apply sub_facts, byte_range.
Qed.

(** ** Rounds *)

(** Four 32-bit words. *)
Definition block (s : list Z) : Prop := length s = 4%nat /\ Forall word32 s.

(** Substituted and shifted words: the state before the column mix. *)
Definition sub_shift (s : list Z) : list Z :=
  map (fun j => join (sub (byte 0 (word_at s j))) (sub (byte 1 (word_at s (j + 1))))
                     (sub (byte 2 (word_at s (j + 2)))) (sub (byte 3 (word_at s (j + 3))))) [0; 1; 2; 3].

Lemma block_inv s : block s -> exists a b c d, s = [a; b; c; d] /\ word32 a /\ word32 b /\ word32 c /\ word32 d.
Proof.
  intros [Hl Hw]. destruct s as [| a [| b [| c [| d [|]]]]]; try done. exists a, b, c, d.
  rewrite !Forall_cons_iff in Hw. tauto.
Qed.

Lemma sub_byte k w : is_byte (sub (byte k w)).
Proof. apply sub_facts, byte_range. Qed.
Create HintDb aes.
#[local] Hint Resolve sub_byte byte_range word32_join word32_xor inv_mix_word32 : aes.

Lemma foldl_xor4 (f : Z -> Z) (r : Z) :
  foldl (fun v k => Z.lxor v (f k)) r [0; 1; 2; 3] = Z.lxor r (xor4 (f 0) (f 1) (f 2) (f 3)).
Proof. unfold xor4. cbn [foldl]. by rewrite !Z.lxor_assoc. Qed.

(** The table lookups of one word of an encryption round. *)
Definition mixed (b0 b1 b2 b3 : Z) : Z := xor4 (Te 0 b0) (Te 1 b1) (Te 2 b2) (Te 3 b3).

Lemma mixed_word32 b0 b1 b2 b3 : is_byte b0 -> is_byte b1 -> is_byte b2 -> is_byte b3 -> word32 (mixed b0 b1 b2 b3).
Proof. intros. unfold mixed, xor4. repeat apply word32_xor; apply Te_facts; (lia || done). Qed.

Lemma inv_mix_mixed b0 b1 b2 b3 : is_byte b0 -> is_byte b1 -> is_byte b2 -> is_byte b3 ->
  inv_mix (mixed b0 b1 b2 b3) = join (sub b0) (sub b1) (sub b2) (sub b3).
Proof.
  intros H0 H1 H2 H3. unfold mixed, xor4, join. rewrite !inv_mix_xor.
  rewrite !(fun k x Hk Hx => proj2 (Te_facts k x Hk Hx)) by (lia || done).
  change (24 - 8 * 3) with 0. by rewrite Z.shiftl_0_r.
Qed.

Lemma encrypt_round_eq rk a b c d :
  encrypt_round rk [a; b; c; d] =
  [Z.lxor (nth 0 rk 0) (mixed (byte 0 a) (byte 1 b) (byte 2 c) (byte 3 d));
   Z.lxor (nth 1 rk 0) (mixed (byte 0 b) (byte 1 c) (byte 2 d) (byte 3 a));
   Z.lxor (nth 2 rk 0) (mixed (byte 0 c) (byte 1 d) (byte 2 a) (byte 3 b));
   Z.lxor (nth 3 rk 0) (mixed (byte 0 d) (byte 1 a) (byte 2 b) (byte 3 c))].
Proof. unfold encrypt_round. cbn [map seq]. rewrite !foldl_xor4. reflexivity. Qed.

Lemma decrypt_round_eq rk a b c d :
  decrypt_round rk [a; b; c; d] =
  [Z.lxor (nth 0 rk 0) (xor4 (Td 0 (byte 0 a)) (Td 1 (byte 1 d)) (Td 2 (byte 2 c)) (Td 3 (byte 3 b)));
   Z.lxor (nth 1 rk 0) (xor4 (Td 0 (byte 0 b)) (Td 1 (byte 1 a)) (Td 2 (byte 2 d)) (Td 3 (byte 3 c)));
   Z.lxor (nth 2 rk 0) (xor4 (Td 0 (byte 0 c)) (Td 1 (byte 1 b)) (Td 2 (byte 2 a)) (Td 3 (byte 3 d)));
   Z.lxor (nth 3 rk 0) (xor4 (Td 0 (byte 0 d)) (Td 1 (byte 1 c)) (Td 2 (byte 2 b)) (Td 3 (byte 3 a)))].
Proof. unfold decrypt_round. cbn [map seq]. rewrite !foldl_xor4. reflexivity. Qed.

Lemma sub_shift_eq a b c d :
  sub_shift [a; b; c; d] =
  [join (sub (byte 0 a)) (sub (byte 1 b)) (sub (byte 2 c)) (sub (byte 3 d));
   join (sub (byte 0 b)) (sub (byte 1 c)) (sub (byte 2 d)) (sub (byte 3 a));
   join (sub (byte 0 c)) (sub (byte 1 d)) (sub (byte 2 a)) (sub (byte 3 b));
   join (sub (byte 0 d)) (sub (byte 1 a)) (sub (byte 2 b)) (sub (byte 3 c))].
Proof. reflexivity. Qed.

Lemma block4 a b c d : word32 a -> word32 b -> word32 c -> word32 d -> block [a; b; c; d].
Proof. intros. split; [done|]. repeat (apply Forall_cons; [done|]). apply Forall_nil. Qed.

Lemma encrypt_round_block rk s : block rk -> block s -> block (encrypt_round rk s).
Proof.
  intros (k0 & k1 & k2 & k3 & -> & ? & ? & ? & ?)%block_inv (a & b & c & d & -> & ? & ? & ? & ?)%block_inv.
  rewrite encrypt_round_eq. simpl nth. apply block4; apply word32_xor; auto using mixed_word32 with aes.
Qed.

(** The bytes that a decryption round looks up in a substituted, shifted state. *)
Ltac unshift :=
  repeat match goal with
  | |- context [byte ?k (join ?b0 ?b1 ?b2 ?b3)] =>
      let H := fresh in
      pose proof (byte_join b0 b1 b2 b3 (sub_byte _ _) (sub_byte _ _) (sub_byte _ _) (sub_byte _ _)) as H;
      destruct H as (? & ? & ? & ?);
      repeat match goal with E : byte _ (join b0 b1 b2 b3) = _ |- _ => rewrite E; clear E end
  end.

(** A decryption round undoes an encryption round up to the last substitution. *)
Lemma decrypt_round_ok rk s : block rk -> block s ->
  decrypt_round (map inv_mix rk) (sub_shift (encrypt_round rk s)) = sub_shift s.
Proof.
  intros (k0 & k1 & k2 & k3 & -> & ? & ? & ? & ?)%block_inv (a & b & c & d & -> & ? & ? & ? & ?)%block_inv.
  rewrite encrypt_round_eq. simpl nth. rewrite sub_shift_eq, decrypt_round_eq. simpl nth.
  unshift. rewrite <- !inv_mix_Td, !inv_mix_xor.
  assert (Hc : forall x y, Z.lxor x (Z.lxor x y) = y) by (intros; by rewrite <- Z.lxor_assoc, Z.lxor_nilpotent, Z.lxor_0_l).
  rewrite !Hc, !inv_mix_mixed by apply byte_range. by rewrite sub_shift_eq.
Qed.

Lemma xor4_join b0 b1 b2 b3 :
  xor4 (Z.shiftl b0 (24 - 8 * 0)) (Z.shiftl b1 (24 - 8 * 1)) (Z.shiftl b2 (24 - 8 * 2)) (Z.shiftl b3 (24 - 8 * 3))
  = join b0 b1 b2 b3.
Proof. unfold xor4, join. by rewrite (Z.shiftl_0_r b3 : Z.shiftl b3 (24 - 8 * 3) = _). Qed.

Lemma encrypt_last_eq rk a b c d : encrypt_last rk [a; b; c; d] =
  zip_with Z.lxor [nth 0 rk 0; nth 1 rk 0; nth 2 rk 0; nth 3 rk 0] (sub_shift [a; b; c; d]).
Proof.
  unfold encrypt_last. cbn [map seq]. rewrite !foldl_xor4, !xor4_join. reflexivity.
Qed.

Lemma decrypt_last_eq rk s : block s -> decrypt_last rk (sub_shift s) =
  zip_with Z.lxor [nth 0 rk 0; nth 1 rk 0; nth 2 rk 0; nth 3 rk 0] s.
Proof.
  intros (a & b & c & d & -> & ? & ? & ? & ?)%block_inv. rewrite sub_shift_eq. unfold decrypt_last.
  cbn [map seq]. rewrite !foldl_xor4. unfold word_at. simpl nth. unshift. fold inv_sub.
  change (tbl _aes_single_decryption_table) with inv_sub.
  rewrite !(fun k w => proj1 (proj2 (sub_facts (byte k w) (byte_range k w)))).
  rewrite !xor4_join, !join_byte by done. reflexivity.
Qed.

(** ** Round keys *)

Lemma length_round_key key i : (4 * i + 4 <= length key)%nat -> length (round_key key i) = 4%nat.
Proof. intros H. unfold round_key. rewrite length_take, length_drop. lia. Qed.

Lemma round_key_block key i : (4 * i + 4 <= length key)%nat -> Forall word32 key -> block (round_key key i).
Proof. intros H Hw. split; [by apply length_round_key|]. by apply Forall_take, Forall_drop. Qed.

Lemma lookup_round_key key i j : (j < 4)%nat -> round_key key i !! j = key !! (4 * i + j)%nat.
Proof. intros Hj. unfold round_key. by rewrite lookup_take_lt, lookup_drop. Qed.

(** Groups of four in a concatenation. *)
Lemma lookup_concat4 (L : list (list Z)) i j : Forall (fun l => length l = 4%nat) L -> (j < 4)%nat ->
  concat L !! (4 * i + j)%nat = (L !! i ≫= fun l => l !! j).
Proof.
  intros HL Hj. revert i. induction HL as [| l L Hl _ IH]; intros i; [by destruct i|]. cbn [concat].
  destruct i as [| i].
  - rewrite lookup_app_l by lia. done.
  - rewrite lookup_app_r by lia. rewrite Hl. replace (4 * S i + j - 4)%nat with (4 * i + j)%nat by lia. apply IH.
Qed.

Section DecryptionKey.
Context (R : nat) (ek : list Z).
Hypothesis Hlen : length ek = (4 * (R + 1))%nat.
Hypothesis HR : (1 <= R)%nat.
Let dk := _generate_decryption_key R ek.

Lemma lookup_decryption_key r j : (r <= R)%nat -> (j < 4)%nat ->
  dk !! (4 * r + j)%nat =
  ((fun w => if (1 <=? r)%nat && (r <? R)%nat then inv_mix w else w) <$> ek !! (4 * (R - r) + j)%nat).
Proof.
  intros Hr Hj. unfold dk, _generate_decryption_key. rewrite list_lookup_imap.
  rewrite lookup_concat4; [| apply Forall_forall; intros l Hl; apply in_map_iff in Hl as (x & <- & _); done | done].
  rewrite lookup_map, lookup_seq_lt by lia. cbn [fmap option_fmap option_map mbind option_bind].
  rewrite lookup_map, lookup_seq_lt by lia. cbn [fmap option_fmap option_map mbind option_bind].
  assert (Hin : (4 * (R - r) + j < length ek)%nat) by lia.
  apply lookup_lt_is_Some in Hin as [w Hw]. rewrite Hw. cbn [fmap option_fmap option_map]. f_equal.
  rewrite (nth_lookup_Some _ _ _ w) by (rewrite <- Hw; f_equal; lia).
  destruct (Nat.leb_spec 4 (4 * r + j)), (Nat.leb_spec 1 r), (Nat.ltb_spec (4 * r + j) (4 * R)), (Nat.ltb_spec r R);
    simpl; try done; lia.
Qed.

Lemma length_decryption_key : length dk = length ek.
Proof.
  unfold dk, _generate_decryption_key. rewrite length_imap, Hlen.
  assert (H : forall n a, length (concat (map (fun r => map (fun j => nth (4 * R - 4 * r + j) ek 0) (seq 0 4)) (seq a n))) = (4 * n)%nat).
  { induction n as [| n IH]; intros a; [done|]. cbn [seq map concat]. rewrite length_app, IH. simpl. lia. }
  by rewrite H.
Qed.

Lemma round_key_eq key key' i i' (f : Z -> Z) :
  (forall j, (j < 4)%nat -> key !! (4 * i + j)%nat = f <$> key' !! (4 * i' + j)%nat) ->
  round_key key i = map f (round_key key' i').
Proof.
  intros H. apply list_eq. intros j. rewrite lookup_map.
  destruct (decide (j < 4)%nat) as [Hj | Hj].
  - by rewrite !lookup_round_key, H.
  - unfold round_key. by rewrite !lookup_take_ge by lia.
Qed.

Lemma decryption_key_first : round_key dk 0 = round_key ek R.
Proof.
  rewrite (round_key_eq dk ek 0 R id), map_id; [done|]. intros j Hj.
  rewrite (lookup_decryption_key 0 j) by lia. by rewrite Nat.sub_0_r.
Qed.

Lemma decryption_key_last : round_key dk R = round_key ek 0.
Proof.
  rewrite (round_key_eq dk ek R 0 id), map_id; [done|]. intros j Hj.
  rewrite (lookup_decryption_key R j) by lia. rewrite Nat.sub_diag.
  destruct (Nat.ltb_spec R R); [lia|]. by rewrite andb_false_r.
Qed.

Lemma decryption_key_middle r : (1 <= r < R)%nat -> round_key dk r = map inv_mix (round_key ek (R - r)).
Proof.
  intros Hr. apply round_key_eq. intros j Hj. rewrite lookup_decryption_key by lia.
  destruct (Nat.leb_spec 1 r), (Nat.ltb_spec r R); try lia. done.
Qed.

End DecryptionKey.

(** ** One block *)

(** The rounds without the double buffer. *)
Definition run_rounds (f : nat -> list Z -> list Z) (s : list Z) (n : nat) : list Z :=
  foldl (fun s i => f i s) s (seq 1 n).

Lemma run_rounds_S f s n : run_rounds f s (S n) = f (S n) (run_rounds f s n).
Proof. unfold run_rounds. rewrite seq_S, foldl_app. simpl. done. Qed.

(** After [n] rounds the current half holds the state: the upper after an odd
    number of rounds. *)
Lemma half_rounds_ok f s0 n :
  let s := foldl (fun s i => half_round (f i) i s) (s0, []) (seq 1 n) in
  (if Nat.odd n then s.2 else s.1) = run_rounds f s0 n.
Proof.
  induction n as [| n IH]; [done|]. cbv zeta in *. rewrite run_rounds_S, seq_S, foldl_app, <- IH.
  change (1 + n)%nat with (S n). cbn [foldl]. unfold half_round at 1 3. rewrite Nat.odd_succ.
  rewrite <- Nat.negb_odd. by destruct (Nat.odd n).
Qed.

Lemma word32_bswap x : 0 <= x -> word32 (bswap32 x).
Proof.
  intros Hx. rewrite bswap32_bytes by done.
  assert (Hm : forall y, 0 <= y mod 256 < 256) by (intros; apply Z.mod_pos_bound; lia).
  pose proof (Hm x). pose proof (Hm (x / 2 ^ 8)). pose proof (Hm (x / 2 ^ 16)). pose proof (Hm (x / 2 ^ 24)).
  unfold word32. lia.
Qed.

Lemma bytes_word l i : bytes l -> word32 (bswap32 (load32 l i)).
Proof.
  intros Hl. apply word32_bswap. unfold load32.
  pose proof (bytes_nth l (4 * i) Hl). pose proof (bytes_nth l (4 * i + 1) Hl).
  pose proof (bytes_nth l (4 * i + 2) Hl). pose proof (bytes_nth l (4 * i + 3) Hl). lia.
Qed.

Lemma load_block_ok rk data : block rk -> bytes data -> block (load_block rk data).
Proof.
  intros (k0 & k1 & k2 & k3 & -> & ? & ? & ? & ?)%block_inv Hd. unfold load_block. cbn [map seq nth].
  apply block4; auto using word32_xor, bytes_word.
Qed.

(** Loading what was stored. *)
Lemma load_store_word w (l2 : list Z) : word32 w ->
  bswap32 (load32 (store_le32 (bswap32 w) ++ l2) 0) = w
  /\ (forall i, load32 (store_le32 (bswap32 w) ++ l2) (S i) = load32 l2 i).
Proof.
  intros Hw. split.
  - rewrite store_bswap_bytes by done. unfold load32. cbn [nth app Nat.mul Nat.add].
    rewrite bswap_of_bytes by (apply Z.mod_pos_bound; lia). by apply word_bytes.
  - intros i. unfold load32. replace (4 * S i)%nat with (4 + 4 * i)%nat by lia. done.
Qed.

Lemma load_store_block rk a b c d :
  word32 a -> word32 b -> word32 c -> word32 d ->
  load_block rk (store_block [a; b; c; d]) = zip_with Z.lxor [nth 0 rk 0; nth 1 rk 0; nth 2 rk 0; nth 3 rk 0] [a; b; c; d].
Proof.
  intros Ha Hb Hc Hd. unfold load_block, store_block. cbn [map seq concat].
  destruct (load_store_word a (store_le32 (bswap32 b) ++ store_le32 (bswap32 c) ++ store_le32 (bswap32 d) ++ []) Ha) as [E0 N0].
  destruct (load_store_word b (store_le32 (bswap32 c) ++ store_le32 (bswap32 d) ++ []) Hb) as [E1 N1].
  destruct (load_store_word c (store_le32 (bswap32 d) ++ []) Hc) as [E2 N2].
  destruct (load_store_word d [] Hd) as [E3 N3].
  rewrite E0, !N0, E1, !N1, E2, !N2, E3. reflexivity.
Qed.

(** Storing what was loaded. *)
Lemma store_load_word b0 b1 b2 b3 l : is_byte b0 -> is_byte b1 -> is_byte b2 -> is_byte b3 ->
  store_le32 (bswap32 (bswap32 (load32 (b0 :: b1 :: b2 :: b3 :: l) 0))) = [b0; b1; b2; b3].
Proof.
  intros H0 H1 H2 H3. unfold is_byte in *. rewrite store_bswap_bytes by (apply word32_bswap; unfold load32; simpl nth; lia).
  unfold load32. cbn [nth Nat.mul Nat.add]. rewrite bswap_of_bytes by done. by apply bytes_of_word.
Qed.

Lemma store_load_block data : length data = 16%nat -> bytes data ->
  store_block (map (fun i => bswap32 (load32 data i)) (seq 0 4)) = data.
Proof.
  intros Hl Hb. do 16 (destruct data as [| ?b data]; [done|]). destruct data; [| done].
  unfold bytes in Hb. rewrite !Forall_cons_iff in Hb. unfold store_block. cbn [map seq concat].
  change (load32 (b :: ?l) 1) with (load32 (b :: l) 1).
  assert (N : forall a0 a1 a2 a3 l i, load32 (a0 :: a1 :: a2 :: a3 :: l) (S i) = load32 l i).
  { intros. unfold load32. replace (4 * S i)%nat with (4 + 4 * i)%nat by lia. done. }
  rewrite !N, !store_load_word by (unfold is_byte; tauto). reflexivity.
Qed.

Section Block.
Context (R : nat) (ek : list Z).
Hypothesis Hlen : length ek = (4 * (R + 1))%nat.
Hypothesis Hwords : Forall word32 ek.
Hypothesis HR : (2 <= R)%nat.
Hypothesis Heven : Nat.odd (R - 1) = true.
Let dk := _generate_decryption_key R ek.

(** The state of the encryption after [i] rounds. *)
Definition enc_state (data : list Z) (i : nat) : list Z :=
  run_rounds (fun i => encrypt_round (round_key ek i)) (load_block (round_key ek 0) data) i.

Lemma enc_state_block data i : bytes data -> (i < R)%nat -> block (enc_state data i).
Proof.
  intros Hd. induction i as [| i IH]; intros Hi.
  - apply load_block_ok; [| done]. apply round_key_block; [lia | done].
  - unfold enc_state. rewrite run_rounds_S. apply encrypt_round_block; [apply round_key_block; [lia | done]|].
    apply IH. lia.
Qed.

Lemma encrypt_block_state st data : encryption_key st = ek -> rounds st = R ->
  aes_encrypt_block st data = store_block (encrypt_last (round_key ek R) (enc_state data (R - 1))).
Proof.
  intros Hk Hr. unfold aes_encrypt_block. rewrite Hk, Hr. cbv zeta. do 2 f_equal.
  pose proof (half_rounds_ok (fun i => encrypt_round (round_key ek i)) (load_block (round_key ek 0) data) (R - 1)) as H.
  cbv zeta in H. rewrite Heven in H. exact H.
Qed.

Lemma round_key_eta i : (i <= R)%nat ->
  round_key ek i = [nth 0 (round_key ek i) 0; nth 1 (round_key ek i) 0; nth 2 (round_key ek i) 0; nth 3 (round_key ek i) 0].
Proof.
  intros Hi. destruct (block_inv (round_key ek i)) as (a & b & c & d & -> & _); [| done].
  apply round_key_block; [lia | done].
Qed.

Lemma xor_cancel (a b : list Z) : length a = length b -> zip_with Z.lxor a (zip_with Z.lxor a b) = b.
Proof.
  revert b. induction a as [| x a IH]; intros [| y b] Hl; simpl in *; try done.
  rewrite <- Z.lxor_assoc, Z.lxor_nilpotent, Z.lxor_0_l, IH by lia. done.
Qed.

Lemma sub_shift_block s : block s -> block (sub_shift s).
Proof.
  intros (a & b & c & d & -> & ? & ? & ? & ?)%block_inv. rewrite sub_shift_eq.
  apply block4; apply word32_join; apply sub_byte.
Qed.

(** Decrypting what was encrypted starts from the last substituted state. *)
Lemma dec_start data : bytes data ->
  load_block (round_key dk 0) (store_block (encrypt_last (round_key ek R) (enc_state data (R - 1))))
  = sub_shift (enc_state data (R - 1)).
Proof.
  intros Hd. pose proof (enc_state_block data (R - 1) Hd ltac:(lia)) as Hb.
  pose proof (sub_shift_block _ Hb) as (p & q & r & t & Hs & ? & ? & ? & ?)%block_inv.
  apply block_inv in Hb as (a & b & c & d & He & ? & ? & ? & ?). rewrite He in Hs |- *.
  rewrite encrypt_last_eq, Hs, <- (round_key_eta R) by lia.
  destruct (block_inv (round_key ek R)) as (k0 & k1 & k2 & k3 & Hk & ? & ? & ? & ?); [apply round_key_block; [lia | done]|].
  rewrite Hk. cbn [zip_with]. rewrite load_store_block by (by apply word32_xor).
  unfold dk. rewrite decryption_key_first, Hk by (done || lia).
  exact (xor_cancel [k0; k1; k2; k3] [p; q; r; t] eq_refl).
Qed.

Lemma dec_state data i : bytes data -> (i < R)%nat ->
  run_rounds (fun i => decrypt_round (round_key dk i)) (sub_shift (enc_state data (R - 1))) i
  = sub_shift (enc_state data (R - 1 - i)).
Proof.
  intros Hd. induction i as [| i IH]; intros Hi; [by rewrite Nat.sub_0_r|].
  rewrite run_rounds_S, IH by lia. unfold dk. rewrite decryption_key_middle by (done || lia).
  replace (R - 1 - i)%nat with (S (R - 1 - S i)) by lia. unfold enc_state at 1. rewrite run_rounds_S.
  replace (R - S i)%nat with (S (R - 1 - S i)) by lia.
  apply decrypt_round_ok; [apply round_key_block; [lia | done] | apply enc_state_block; [done | lia]].
Qed.

Lemma block_roundtrip st st' data : encryption_key st = ek -> rounds st = R ->
  decryption_key st' = dk -> rounds st' = R -> length data = 16%nat -> bytes data ->
  aes_decrypt_block st' (aes_encrypt_block st data) = data.
Proof.
  intros Hk Hr Hk' Hr' Hl Hd. rewrite (encrypt_block_state st data Hk Hr).
  unfold aes_decrypt_block. rewrite Hk', Hr'. cbv zeta. rewrite dec_start by done.
  pose proof (half_rounds_ok (fun i => decrypt_round (round_key dk i)) (sub_shift (enc_state data (R - 1))) (R - 1)) as H.
  cbv zeta in H. rewrite Heven in H. rewrite H, dec_state, Nat.sub_diag by (done || lia).
  rewrite decrypt_last_eq by (apply enc_state_block; [done | lia]).
  unfold dk. rewrite decryption_key_last, <- (round_key_eta 0) by (done || lia).
  unfold enc_state, run_rounds. cbn [seq foldl]. unfold load_block at 1.
  destruct (block_inv (round_key ek 0)) as (k0 & k1 & k2 & k3 & -> & _); [apply round_key_block; [lia | done]|].
  etransitivity; [| by apply (store_load_block data)]. f_equal.
  exact (xor_cancel [k0; k1; k2; k3] (map (fun i => bswap32 (load32 data i)) (seq 0 4)) eq_refl).
Qed.

End Block.

(** ** Key expansion *)

Lemma word32_nth l i : Forall word32 l -> word32 (nth i l 0).
Proof.
  intros H. destruct (nth_in_or_default i l 0) as [Hi | ->]; [| split; lia].
  rewrite Forall_forall in H. by apply H.
Qed.

Lemma word32_shift b n : is_byte b -> 0 <= n <= 24 -> word32 (Z.shiftl b n).
Proof.
  intros Hb Hn. unfold is_byte, word32 in *. rewrite Z.shiftl_mul_pow2 by lia.
  assert (2 ^ n <= 2 ^ 24) by (apply Z.pow_le_mono_r; lia). assert (0 < 2 ^ n) by (apply Z.pow_pos_nonneg; lia). nia.
Qed.

Lemma next_key_word_ok width key i j : Forall word32 key -> word32 (next_key_word width key i j).
Proof.
  intros Hk. assert (Hn : forall i, word32 (nth i key 0)) by (intros; by apply word32_nth).
  assert (Hrc : forall i, word32 (nth i _aes_rcon 0)).
  { intros i0. apply word32_nth. unfold _aes_rcon. repeat (apply Forall_cons; [split; lia|]). apply Forall_nil. }
  assert (Hs : forall k w n, 0 <= n <= 24 -> word32 (Z.shiftl (sub (byte k w)) n)).
  { intros. apply word32_shift; [apply sub_byte | done]. }
  assert (Hs0 : forall k w, word32 (sub (byte k w))).
  { intros k w. pose proof (sub_byte k w). unfold is_byte, word32 in *. lia. }
  unfold next_key_word. destruct (j =? 0)%nat; [| destruct ((width =? 8)%nat && (j =? 4)%nat)];
    repeat apply word32_xor; auto; apply Hs; lia.
Qed.

Lemma expand_key_ok n width : forall key j, Forall word32 key ->
  Forall word32 (expand_key n width key j) /\ length (expand_key n width key j) = (length key + n)%nat.
Proof.
  induction n as [| n IH]; intros key j Hk; cbn [expand_key]; [split; [done | lia]|].
  destruct (IH (key ++ [next_key_word width key (length key) j]) (if (S j =? width)%nat then 0%nat else S j)) as [H1 H2].
  { apply Forall_app. split; [done|]. apply Forall_cons; [by apply next_key_word_ok | apply Forall_nil]. }
  split; [done|]. rewrite H2, length_app. simpl. lia.
Qed.

Definition valid_key (key : list Z) : Prop :=
  bytes key /\ (length key = 16 \/ length key = 24 \/ length key = 32)%nat.

Lemma encryption_key_ok key : valid_key key ->
  let R := (6 + length key / 4)%nat in
  length (_generate_encryption_key R key) = (4 * (R + 1))%nat
  /\ Forall word32 (_generate_encryption_key R key) /\ (2 <= R)%nat /\ Nat.odd (R - 1) = true.
Proof.
  intros [Hb Hl] R. unfold _generate_encryption_key.
  set (ws := map _ (seq 0 (length key / 4))).
  assert (Hw : Forall word32 ws).
  { subst ws. apply Forall_forall. intros w Hw. apply in_map_iff in Hw as (i & <- & _). by apply bytes_word. }
  assert (Hwl : length ws = (length key / 4)%nat) by (subst ws; by rewrite length_map, length_seq).
  destruct (expand_key_ok (4 * (R + 1) - (R - 6)) (R - 6) ws 0 Hw) as [H1 H2].
  rewrite Hwl in H2. split; [rewrite H2; subst R; lia|]. split; [exact H1|]. split; [subst R; lia|].
  subst R. clear - Hl. destruct Hl as [-> | [-> | ->]]; reflexivity.
Qed.

Lemma init_encrypt key flags st : aes_init key flags = Some st ->
  rounds st = (6 + length key / 4)%nat
  /\ (Z.land flags AES_FLAG_ENCRYPTION <> 0 -> encryption_key st = _generate_encryption_key (rounds st) key)
  /\ (Z.land flags AES_FLAG_DECRYPTION <> 0 ->
      decryption_key st = _generate_decryption_key (rounds st) (_generate_encryption_key (rounds st) key)).
Proof.
  unfold aes_init. destruct (_ || _); [done|]. destruct (_ && _); [done|]. intros [= <-]. simpl.
  split_and!; [done | |]; intros H; apply Z.eqb_neq in H; by rewrite H.
Qed.

Lemma aes_roundtrip key f1 f2 st1 st2 data : valid_key key ->
  aes_init key f1 = Some st1 -> Z.land f1 AES_FLAG_ENCRYPTION <> 0 ->
  aes_init key f2 = Some st2 -> Z.land f2 AES_FLAG_DECRYPTION <> 0 ->
  length data = 16%nat -> bytes data ->
  aes_decrypt_block st2 (aes_encrypt_block st1 data) = data.
Proof.
  intros Hk H1 Hf1 H2 Hf2 Hl Hd. destruct (init_encrypt _ _ _ H1) as (Hr1 & He & _).
  destruct (init_encrypt _ _ _ H2) as (Hr2 & _ & Hdk). specialize (He Hf1). specialize (Hdk Hf2).
  destruct (encryption_key_ok key Hk) as (Hlen & Hw & HR & Hodd). rewrite <- Hr1 in Hlen, Hw, HR, Hodd.
  rewrite Hr2, <- Hr1 in Hdk.
  apply (block_roundtrip (rounds st1) (_generate_encryption_key (rounds st1) key) Hlen Hw HR Hodd); try assumption;
    congruence.
Qed.

(** ** CBC *)

Lemma store_block_ok s : block s -> length (store_block s) = 16%nat /\ bytes (store_block s).
Proof.
  intros (a & b & c & d & -> & ? & ? & ? & ?)%block_inv. unfold store_block. cbn [map concat].
  rewrite !store_bswap_bytes by done. split; [done|].
  repeat (apply Forall_cons; [apply Z.mod_pos_bound; lia|]). apply Forall_nil.
Qed.

Lemma encrypt_block_ok key f1 st1 data : valid_key key -> aes_init key f1 = Some st1 ->
  Z.land f1 AES_FLAG_ENCRYPTION <> 0 -> bytes data ->
  length (aes_encrypt_block st1 data) = 16%nat /\ bytes (aes_encrypt_block st1 data).
Proof.
  intros Hk H1 Hf1 Hd. destruct (init_encrypt _ _ _ H1) as (Hr1 & He & _). specialize (He Hf1).
  destruct (encryption_key_ok key Hk) as (Hlen & Hw & HR & Hodd). rewrite <- Hr1 in Hlen, Hw, HR, Hodd.
  set (R := rounds st1) in *. set (ek := _generate_encryption_key R key) in *.
  rewrite (encrypt_block_state R ek Hodd st1 data He eq_refl). apply store_block_ok.
  pose proof (enc_state_block R ek Hlen Hw HR data (R - 1) Hd ltac:(lia)) as Hb.
  pose proof (sub_shift_block _ Hb) as (p & q & r & t & Hs & ? & ? & ? & ?)%block_inv.
  apply block_inv in Hb as (a & b & c & d & Hst & ? & ? & ? & ?). rewrite Hst in *.
  rewrite encrypt_last_eq, Hs.
  destruct (block_inv (round_key ek R)) as (k0 & k1 & k2 & k3 & -> & ? & ? & ? & ?); [apply round_key_block; [lia | done]|].
  cbn [nth zip_with]. apply block4; by apply word32_xor.
Qed.

Lemma bytes_xor a b : bytes a -> bytes b -> bytes (_xor_cbc_block a b).
Proof.
  intros Ha Hb. unfold _xor_cbc_block. revert b Hb.
  induction Ha as [| x a Hx _ IH]; intros b Hb; [apply Forall_nil|].
  destruct Hb as [| y b Hy Hb]; [apply Forall_nil|]. cbn [zip_with]. apply Forall_cons; [| by apply IH].
  change 256 with (2 ^ 8) in *.
  assert (0 <= Z.lxor x y) by (apply Z.lxor_nonneg; lia). split; [done|].
  destruct (decide (Z.lxor x y = 0)) as [-> | Hne]; [lia|]. apply Z.log2_lt_pow2; [lia|].
  eapply Z.le_lt_trans; [apply Z.log2_lxor; lia|].
  apply Z.max_lub_lt; (destruct (decide (0 < x)), (decide (0 < y)); try (apply Z.log2_lt_pow2; lia));
    rewrite ?Z.log2_nonpos by lia; lia.
Qed.

Lemma xor_block_cancel a b : length a = length b -> _xor_cbc_block (_xor_cbc_block a b) b = a.
Proof.
  unfold _xor_cbc_block. revert b. induction a as [| x a IH]; intros [| y b] Hl; simpl in *; try done.
  rewrite Z.lxor_assoc, Z.lxor_nilpotent, Z.lxor_0_r, IH by lia. done.
Qed.

Section Cbc.
Context (key : list Z) (st1 st2 : aes_state_t).
Hypothesis Hkey : valid_key key.
Hypothesis H1 : aes_init key AES_FLAG_ENCRYPTION = Some st1.
Hypothesis H2 : aes_init key AES_FLAG_DECRYPTION = Some st2.

Lemma cbc_encrypt_length n : forall prev data, bytes prev -> bytes data -> (16 * n <= length data)%nat ->
  length prev = 16%nat -> length (cbc_encrypt n st1 prev data) = (16 * n)%nat.
Proof.
  induction n as [| n IH]; intros prev data Hp Hd Hl Hpl; [done|]. cbn [cbc_encrypt]. rewrite length_app.
  destruct (encrypt_block_ok key _ st1 (_xor_cbc_block (take 16 data) prev) Hkey H1 ltac:(done)) as [Hcl Hcb].
  { apply bytes_xor; [by apply Forall_take | done]. }
  rewrite Hcl, IH; [lia | done | by apply Forall_drop | rewrite length_drop; lia | done].
Qed.

Lemma cbc_roundtrip n : forall prev data, bytes prev -> bytes data -> length data = (16 * n)%nat ->
  length prev = 16%nat -> cbc_decrypt n st2 prev (cbc_encrypt n st1 prev data) = data.
Proof.
  induction n as [| n IH]; intros prev data Hp Hd Hl Hpl; [by destruct data|].
  cbn [cbc_encrypt cbc_decrypt].
  set (x := _xor_cbc_block (take 16 data) prev).
  assert (Hxb : bytes x) by (apply bytes_xor; [by apply Forall_take | done]).
  assert (Hxl : length x = 16%nat) by (unfold x, _xor_cbc_block; rewrite length_zip_with, length_take; lia).
  destruct (encrypt_block_ok key _ st1 x Hkey H1 ltac:(done) Hxb) as [Hcl Hcb].
  rewrite take_app_length', drop_app_length' by done.
  rewrite (aes_roundtrip key _ _ st1 st2 x Hkey H1 ltac:(done) H2 ltac:(done) Hxl Hxb).
  rewrite IH by (done || (by apply Forall_drop) || (rewrite length_drop; lia)).
  unfold x. rewrite xor_block_cancel by (rewrite length_take; lia). apply take_drop.
Qed.

End Cbc.

Lemma cbc_process_encrypt key iv data st aliased :
  length iv = 16%nat -> length data <> 0%nat -> (length data mod 16 = 0)%nat -> aes_init key AES_FLAG_ENCRYPTION = Some st ->
  aes_cbc_process key iv AES_FLAG_ENCRYPTION data aliased = Some (cbc_encrypt (length data / 16) st iv data).
Proof.
  intros Hi Hz Hm Hs. unfold aes_cbc_process. by rewrite (proj2 (Nat.eqb_neq _ _) Hz), Hi, Hm, Hs.
Qed.

Lemma cbc_process_decrypt key iv data st :
  length iv = 16%nat -> length data <> 0%nat -> (length data mod 16 = 0)%nat -> aes_init key AES_FLAG_DECRYPTION = Some st ->
  aes_cbc_process key iv AES_FLAG_DECRYPTION data false = Some (cbc_decrypt (length data / 16) st iv data).
Proof.
  intros Hi Hz Hm Hs. unfold aes_cbc_process. by rewrite (proj2 (Nat.eqb_neq _ _) Hz), Hi, Hm, Hs.
Qed.

(** ** The properties of AES *)

(** For every 128, 192 and 256 bit key, decrypting an encrypted block gives
    the block back: the table-driven rounds, the inverse tables and the
    transformed decryption key are inverse to each other. *)
Theorem aes_block_roundtrip (key data : list Z) (st : aes_state_t) :
  valid_key key -> aes_init key (Z.lor AES_FLAG_ENCRYPTION AES_FLAG_DECRYPTION) = Some st ->
  length data = 16%nat -> bytes data ->
  aes_decrypt_block st (aes_encrypt_block st data) = data.
Proof. intros Hk Hi. by apply (aes_roundtrip key _ _ st st data Hk Hi ltac:(done) Hi). Qed.

Definition demo_key : list Z := map Z.of_nat (seq 0 16).
Definition demo_block : list Z := map (fun i => 17 * Z.of_nat i) (seq 0 16).
Definition demo_aes : aes_state_t := default (mk_aes [] [] 0) (aes_init demo_key 3).

Lemma demo_key_valid : valid_key demo_key.
Proof. split; [repeat (apply Forall_cons; [lia|]); apply Forall_nil | by left]. Qed.

Lemma demo_block_bytes : bytes demo_block.
Proof. repeat (apply Forall_cons; [lia|]); apply Forall_nil. Qed.

Lemma aes_block_roundtrip_witness :
  aes_encrypt_block demo_aes demo_block =
    [0x69; 0xc4; 0xe0; 0xd8; 0x6a; 0x7b; 0x04; 0x30; 0xd8; 0xcd; 0xb7; 0x80; 0x70; 0xb4; 0xc5; 0x5a]
  /\ aes_decrypt_block demo_aes (aes_encrypt_block demo_aes demo_block) = demo_block.
Proof.
  split; [vm_compute; reflexivity|].
  apply (aes_block_roundtrip demo_key demo_block demo_aes);
    [exact demo_key_valid | vm_compute; reflexivity | reflexivity | exact demo_block_bytes].
Defined.

(** Both directions of a CBC call succeed and cancel. *)
Lemma cbc_process_roundtrip (key iv data : list Z) (aliased : bool) :
  valid_key key -> bytes iv -> length iv = 16%nat -> bytes data -> (length data mod 16 = 0)%nat ->
  exists c, aes_cbc_process key iv AES_FLAG_ENCRYPTION data aliased = Some c
    /\ length c = length data
    /\ aes_cbc_process key iv AES_FLAG_DECRYPTION c false = Some data.
Proof.
  intros Hk Hiv Hivl Hd Hm.
  assert (Hinit : forall f, f = 1 \/ f = 2 -> exists st, aes_init key f = Some st).
  { intros f Hf. unfold aes_init. destruct Hk as [_ Hl].
    destruct Hf as [-> | ->], Hl as [-> | [-> | ->]]; eauto. }
  destruct (Hinit 1) as [st1 E1]; [by left|]. destruct (Hinit 2) as [st2 E2]; [by right|].
  destruct (Nat.eqb_spec (length data) 0) as [Hz | Hz].
  { destruct data; [| done]. exists []. done. }
  assert (Hq : length data = (16 * (length data / 16))%nat).
  { pose proof (Nat.div_mod_eq (length data) 16). lia. }
  assert (Hcl : length (cbc_encrypt (length data / 16) st1 iv data) = length data).
  { rewrite (cbc_encrypt_length key st1 Hk E1) by (done || lia). lia. }
  exists (cbc_encrypt (length data / 16) st1 iv data). split; [by apply cbc_process_encrypt|]. split; [done|].
  rewrite (cbc_process_decrypt key iv _ st2) by (by rewrite ?Hcl). rewrite Hcl.
  f_equal. by apply (cbc_roundtrip key st1 st2 Hk E1 E2).
Qed.

(** Decrypting in CBC mode what was encrypted in CBC mode with the same key
    and initialisation vector gives the data back, for every whole number of
    blocks; both calls succeed. *)
Theorem aes_cbc_roundtrip (key iv data : list Z) (aliased : bool) :
  valid_key key -> bytes iv -> length iv = 16%nat -> bytes data -> (length data mod 16 = 0)%nat ->
  exists c, aes_cbc_process key iv AES_FLAG_ENCRYPTION data aliased = Some c
    /\ length c = length data
    /\ aes_cbc_process key iv AES_FLAG_DECRYPTION c false = Some data.
Proof. apply cbc_process_roundtrip. Qed.

Lemma aes_cbc_roundtrip_witness :
  exists c, aes_cbc_process demo_key demo_block AES_FLAG_ENCRYPTION (demo_block ++ demo_key) true = Some c
    /\ length c = length (demo_block ++ demo_key)
    /\ aes_cbc_process demo_key demo_block AES_FLAG_DECRYPTION c false = Some (demo_block ++ demo_key).
Proof.
  apply (aes_cbc_roundtrip demo_key demo_block (demo_block ++ demo_key) true);
    [exact demo_key_valid | exact demo_block_bytes | reflexivity | | reflexivity].
  apply Forall_app. split; [exact demo_block_bytes | apply demo_key_valid].
Defined.
