(* ===== verification/Acl.v ===== *)
(** * Access control lists: kernel/acl.

    An ACL maps process handles to permission flags.  It is kept as a tree
    keyed by the index part of the handle (seen here through its map, see
    [RbTreeSpec]) with a direct-mapped cache of 16 entries in front of it.
    [acl_refines] shows that the cache is never observable. *)
From stdpp Require Import base tactics list numbers gmap fin_maps.
From Stdlib Require Import ZArith Lia.
From S2P Require Import Prelude.
#[local] Open Scope Z_scope.

(** ** Handle identifiers (handle.h) *)

Definition HANDLE_TYPE_ANY : Z := 0.
Definition HANDLE_ID_CREATE (type index : Z) : Z := Z.lor type (u64 (Z.shiftl index 16)).
Definition HANDLE_ID_GET_TYPE (id : Z) : Z := Z.land id 0xffff.
Definition HANDLE_ID_GET_INDEX (id : Z) : Z := Z.shiftr id 16.

(** ** Data *)

Definition ACL_PROCESS_CACHE_SIZE : Z := 16.
Definition ACL_PERMISSION_MASK : Z := 0x7fffffffffffffff.

Record acl_cache_entry_t := mk_entry { ce_key : Z; ce_flags : Z }.

Record acl_t := mk_acl {
  acl_cache : list acl_cache_entry_t;
  acl_tree : gmap Z Z          (* key -> flags of its acl_tree_node_t *)
}.

Definition acl_create : acl_t := mk_acl (replicate (Z.to_nat ACL_PROCESS_CACHE_SIZE) (mk_entry 0 0)) ∅.

Definition cache_slot (key : Z) : nat := Z.to_nat (Z.land key (ACL_PROCESS_CACHE_SIZE - 1)).
Definition cache_entry (a : acl_t) (key : Z) : acl_cache_entry_t := nth (cache_slot key) (acl_cache a) (mk_entry 0 0).
Definition set_entry (a : acl_t) (key : Z) (e : acl_cache_entry_t) : acl_t :=
  mk_acl (<[cache_slot key := e]> (acl_cache a)) (acl_tree a).

(** ** Operations; a process is given by its handle id *)

Definition acl_get (a : acl_t) (process : Z) : acl_t * Z :=
  let key := HANDLE_ID_GET_INDEX process in
  if key =? 0 then (a, ACL_PERMISSION_MASK)
  else if ce_key (cache_entry a key) =? key then (a, ce_flags (cache_entry a key))
  else match acl_tree a !! key with
       | Some flags => (set_entry a key (mk_entry key flags), flags)
       | None => (a, 0)
       end.

Definition tree_update (t : gmap Z Z) (key clear set : Z) : gmap Z Z * option Z :=
  match t !! key with
  | None => if set =? 0 then (t, None) else (<[key := set]> t, Some set)
  | Some flags =>
      let flags := Z.lor (Z.land flags (lnot_w 64 clear)) set in
      if flags =? 0 then (delete key t, None) else (<[key := flags]> t, Some flags)
  end.

Definition acl_set (a : acl_t) (process clear set : Z) : acl_t :=
  let key := HANDLE_ID_GET_INDEX process in
  if key =? 0 then a
  else
    let '(t, node) := tree_update (acl_tree a) key clear set in
    let a := mk_acl (acl_cache a) t in
    let e := cache_entry a key in
    match node with
    | Some flags => if (ce_key e =? 0) || (ce_key e =? key) then set_entry a key (mk_entry key flags) else a
    | None => if ce_key e =? key then set_entry a key (mk_entry 0 (ce_flags e)) else a
    end.

(** The request callback is registered once; NULL unregisters it. *)
Definition acl_register_request_callback {C : Type} (current callback : option C) : option C * bool :=
  match callback, current with
  | Some _, Some _ => (current, false)
  | _, _ => (callback, true)
  end.

(** ** The promise: a map from processes to permissions *)

(** A used cache entry sits in the slot of its key and agrees with the tree. *)
Definition entry_ok (t : gmap Z Z) (i : nat) (e : acl_cache_entry_t) : Prop :=
  ce_key e <> 0 -> t !! ce_key e = Some (ce_flags e) /\ cache_slot (ce_key e) = i.

Record acl_wf (a : acl_t) : Prop := {
  wf_size : length (acl_cache a) = 16%nat;
  wf_cache : forall i e, acl_cache a !! i = Some e -> entry_ok (acl_tree a) i e;
  wf_flags : forall k f, acl_tree a !! k = Some f -> f <> 0
}.

(** The permissions the list gives to the process with index [key]. *)
Definition perms (a : acl_t) (key : Z) : Z := default 0 (acl_tree a !! key).

Definition word_update (f clear set : Z) : Z := Z.lor (Z.land f (lnot_w 64 clear)) set.

Lemma cache_slot_lt key : (cache_slot key < 16)%nat.
Proof.
  unfold cache_slot. change (ACL_PROCESS_CACHE_SIZE - 1) with (Z.ones 4). rewrite Z.land_ones by lia.
  pose proof (Z.mod_pos_bound key (2 ^ 4)). lia.
Qed.

Lemma cache_entry_lookup a key : acl_wf a -> acl_cache a !! cache_slot key = Some (cache_entry a key).
Proof.
  intros Hw. unfold cache_entry. pose proof (cache_slot_lt key). pose proof (wf_size a Hw).
  destruct (lookup_lt_is_Some_2 (acl_cache a) (cache_slot key)) as [e He]; [lia|].
  by rewrite He, (nth_lookup_Some _ _ _ _ He).
Qed.

Lemma set_entry_wf a key e : acl_wf a -> entry_ok (acl_tree a) (cache_slot key) e -> acl_wf (set_entry a key e).
Proof.
  intros [H1 H2 H3] He. split; simpl; [by rewrite length_insert | | done].
  intros i e' Hl. apply list_lookup_insert_Some in Hl as [(<- & <- & _) | (_ & Hl)]; [done | by apply H2].
Qed.

Lemma acl_create_wf : acl_wf acl_create.
Proof.
  split; [done | | by intros k f Hk]. intros i e Hl Hk. apply lookup_replicate in Hl as [-> _]. by destruct Hk.
Qed.

Lemma acl_get_ok a p : acl_wf a ->
  acl_wf (acl_get a p).1 /\ acl_tree (acl_get a p).1 = acl_tree a /\
  (acl_get a p).2 = if HANDLE_ID_GET_INDEX p =? 0 then ACL_PERMISSION_MASK else perms a (HANDLE_ID_GET_INDEX p).
Proof.
  intros Hw. unfold acl_get. destruct (Z.eqb_spec (HANDLE_ID_GET_INDEX p) 0) as [E0 | E0]; [done|].
  set (key := HANDLE_ID_GET_INDEX p) in *. clearbody key.
  pose proof (wf_cache a Hw _ _ (cache_entry_lookup a key Hw)) as Hc.
  destruct (Z.eqb_spec (ce_key (cache_entry a key)) key) as [Ek | Ek].
  - cbn [fst snd]. split_and!; [done | done |]. unfold entry_ok in Hc. rewrite Ek in Hc.
    unfold perms. by destruct (Hc E0) as [-> _].
  - unfold perms. destruct (acl_tree a !! key) as [f|] eqn:Et; [| done].
    cbn [fst snd]. split_and!; [| done | done]. by apply set_entry_wf.
Qed.

Lemma tree_update_ok t key clear set :
  (forall k f, t !! k = Some f -> f <> 0) ->
  let '(t', node) := tree_update t key clear set in
  (forall k, k <> key -> t' !! k = t !! k) /\ t' !! key = node /\ node <> Some 0 /\
  default 0 node = word_update (default 0 (t !! key)) clear set.
Proof.
  intros Hnz. unfold tree_update, word_update. destruct (t !! key) as [f|] eqn:Et; cbn [default].
  - destruct (Z.eqb_spec (Z.lor (Z.land f (lnot_w 64 clear)) set) 0) as [E0 | E0].
    + split_and!; [intros; by rewrite lookup_delete_ne | by rewrite lookup_delete_eq | done | by simpl].
    + split_and!; [intros; by rewrite lookup_insert_ne | by rewrite lookup_insert_eq | congruence | done].
  - simpl. destruct (Z.eqb_spec set 0) as [-> | E0].
    + split_and!; done.
    + split_and!; [intros; by rewrite lookup_insert_ne | by rewrite lookup_insert_eq | congruence | done].
Qed.

Lemma acl_set_ok a p clear set : acl_wf a ->
  acl_wf (acl_set a p clear set) /\
  (forall key, perms (acl_set a p clear set) key =
     if (HANDLE_ID_GET_INDEX p =? 0) || negb (key =? HANDLE_ID_GET_INDEX p) then perms a key
     else word_update (perms a key) clear set).
Proof.
  intros Hw. unfold acl_set. destruct (Z.eqb_spec (HANDLE_ID_GET_INDEX p) 0) as [E0 | E0]; [done|].
  set (key := HANDLE_ID_GET_INDEX p) in *. clearbody key.
  pose proof (tree_update_ok (acl_tree a) key clear set (wf_flags a Hw)) as Ht.
  destruct (tree_update (acl_tree a) key clear set) as [t node]. destruct Ht as (Hne & Hk & Hnz & Hv).
  assert (Hp : forall c, forall k, perms (mk_acl c t) k = if negb (k =? key) then perms a k else word_update (perms a k) clear set).
  { intros c k. unfold perms. simpl. destruct (Z.eqb_spec k key) as [-> | Hd]; simpl; [by rewrite Hk | by rewrite Hne]. }
  assert (Hf : forall k f, t !! k = Some f -> f <> 0).
  { intros k f Hl. destruct (decide (k = key)) as [-> | Hd]; [congruence|]. rewrite Hne in Hl by done. by eapply wf_flags. }
  assert (Hset : forall e, entry_ok t (cache_slot key) e -> acl_wf (set_entry (mk_acl (acl_cache a) t) key e)).
  { intros e He. split; simpl; [rewrite length_insert; apply (wf_size a Hw) | | done].
    intros i e' Hl. apply list_lookup_insert_Some in Hl as [(<- & <- & _) | (Hi & Hl)]; [done|].
    intros Hz. destruct (wf_cache a Hw _ _ Hl Hz) as [Ht Hs]. by rewrite Hne by congruence. }
  assert (Hskip : ce_key (cache_entry a key) <> key -> acl_wf (mk_acl (acl_cache a) t)).
  { intros Hd. pose proof (cache_entry_lookup a key Hw) as Hl.
    pose proof (Hset (cache_entry a key)) as H. unfold set_entry in H. cbn [acl_cache acl_tree] in H.
    rewrite list_insert_id in H by done. apply H. intros Hz. rewrite Hne by done. by apply (wf_cache a Hw). }
  change (cache_entry (mk_acl (acl_cache a) t) key) with (cache_entry a key).
  split; [| intros k; cbn [orb]; destruct node; match goal with |- perms (if ?c then _ else _) _ = _ => destruct c end; apply Hp].
  destruct node as [f|].
  - destruct (Z.eqb_spec (ce_key (cache_entry a key)) key) as [Ek | Ek]; cbn [orb].
    + rewrite orb_true_r. by apply Hset.
    + destruct (_ || _); [by apply Hset | by apply Hskip].
  - destruct (Z.eqb_spec (ce_key (cache_entry a key)) key) as [Ek | Ek]; [| by apply Hskip].
    apply Hset. by intros [].
Qed.

(** ** The whole life of a list *)

Inductive acl_op := Get (process : Z) | Set_ (process clear set : Z).

Definition acl_step (a : acl_t) (o : acl_op) : acl_t :=
  match o with Get p => (acl_get a p).1 | Set_ p c s => acl_set a p c s end.

(** The specification: a total map from process indices to permissions. *)
Definition spec_step (m : Z -> Z) (o : acl_op) : Z -> Z :=
  match o with
  | Get _ => m
  | Set_ p c s => fun key =>
      if (HANDLE_ID_GET_INDEX p =? 0) || negb (key =? HANDLE_ID_GET_INDEX p) then m key else word_update (m key) c s
  end.

Lemma acl_run ops a m : acl_wf a -> (forall k, perms a k = m k) ->
  acl_wf (foldl acl_step a ops) /\ forall k, perms (foldl acl_step a ops) k = foldl spec_step m ops k.
Proof.
  revert a m. induction ops as [| [p | p c s] ops IH]; intros a m Hw Hm; [done | |]; cbn [foldl acl_step spec_step]; apply IH.
  - by apply acl_get_ok.
  - intros k. rewrite <- Hm. unfold perms. by rewrite (proj1 (proj2 (acl_get_ok a p Hw))).
  - by apply acl_set_ok.
  - intros k. rewrite (proj2 (acl_set_ok a p c s Hw)). by rewrite !Hm.
Qed.

(** C29: after any sequence of reads and updates of a new list, reading the
    permissions of a process gives exactly what the updates say it should hold
    (everything for the kernel process, index 0): the cache in front of the
    tree, its replacement and its invalidation are never observable, and a
    list never keeps an entry without permissions. *)
Theorem acl_refines (ops : list acl_op) (p : Z) :
  let a := foldl acl_step acl_create ops in
  (acl_get a p).2 = (if HANDLE_ID_GET_INDEX p =? 0 then ACL_PERMISSION_MASK
                     else foldl spec_step (fun _ => 0) ops (HANDLE_ID_GET_INDEX p))
  /\ forall k f, acl_tree a !! k = Some f -> f <> 0.
Proof.
  intros a. destruct (acl_run ops acl_create (fun _ => 0)) as [Hw Hm]; [apply acl_create_wf | done|].
  split; [| apply (wf_flags _ Hw)]. rewrite (proj2 (proj2 (acl_get_ok a p Hw))). by rewrite Hm.
Qed.

(** Indices 3 and 19 share a cache slot. *)
Example acl_conflict :
  let a := foldl acl_step acl_create [Set_ 0x30001 0 5; Set_ 0x130001 0 9; Get 0x130001; Set_ 0x130001 1 2; Get 0x30001] in
  (acl_get a 0x130001).2 = 10 /\ (acl_get a 0x30001).2 = 5.
Proof. by vm_compute. Qed.

Lemma acl_refines_witness :
  (acl_get (foldl acl_step acl_create [Set_ 0x30001 0 5; Set_ 0x130001 0 9; Get 0x130001]) 0x30001).2 = 5.
Proof.
  pose proof (acl_refines [Set_ 0x30001 0 5; Set_ 0x130001 0 9; Get 0x130001] 0x30001) as H.
  destruct H as [H _]. rewrite H. reflexivity.
Defined.
