(* ===== verification/Handle.v ===== *)
(** * Handles: kernel/handle.

    Every kernel object that user space can name embeds a [handle_t]: a
    reference count, an optional ACL and the key it has in the tree of its
    type.  A handle object is identified here by that key; the tree of a type
    is seen through its map (see [RbTreeSpec]).  [None] stands for a panic, a
    use of a handle that was deleted, or a spin loop that does not exit. *)
From stdpp Require Import base tactics list numbers gmap fin_maps option.
From Stdlib Require Import ZArith Lia.
From S2P Require Import Prelude Acl.
#[local] Open Scope Z_scope.

Record handle_t := mk_handle { rc : Z; acl : option acl_t }.

Record handle_descriptor_t := mk_descriptor {
  d_name : list Z;
  d_callback : bool;                (* delete_callback is not NULL *)
  d_handle : Z;                     (* handle.rb_node.key *)
  d_flags : Z;
  d_tree : gmap Z handle_t;
  d_count : Z;
  d_active_count : Z
}.

Record handles := mk_handles {
  _handle_type_tree : gmap Z handle_descriptor_t;
  _handle_max_type : Z;
  handle_handle_type : Z;
  omm_handle_type : Z;
  booted : bool;                    (* _handle_descriptor_allocator is not NULL *)
  deleted : list Z                  (* handles whose delete callback has run *)
}.

Definition no_handles : handles := mk_handles ∅ HANDLE_TYPE_ANY 0 0 false [].

Definition set_types (s : handles) (t : gmap Z handle_descriptor_t) : handles :=
  mk_handles t (_handle_max_type s) (handle_handle_type s) (omm_handle_type s) (booted s) (deleted s).

Definition set_tree (d : handle_descriptor_t) (t : gmap Z handle_t) (count active : Z) : handle_descriptor_t :=
  mk_descriptor (d_name d) (d_callback d) (d_handle d) (d_flags d) t count active.

Definition with_handle (d : handle_descriptor_t) (key : Z) : handle_descriptor_t :=
  mk_descriptor (d_name d) (d_callback d) key (d_flags d) (d_tree d) (d_count d) (d_active_count d).

Definition handle_get_descriptor (s : handles) (type : Z) : option handle_descriptor_t := _handle_type_tree s !! type.

(** The new handle's key is returned. *)
Definition handle_new (s : handles) (type : Z) : option (handles * Z) :=
  d ← handle_get_descriptor s type;
  let key := HANDLE_ID_CREATE type (d_count d) in
  match d_tree d !! key with
  | Some _ => None                  (* rb_tree_insert_node panics on a duplicate key *)
  | None =>
      Some (set_types s (<[type := set_tree d (<[key := mk_handle 1 None]> (d_tree d)) (u64 (d_count d + 1))
                                    (u64 (d_active_count d + 1))]> (_handle_type_tree s)), key)
  end.

(** The part of [handle_alloc] that registers a type. *)
Definition register_type (s : handles) (name : list Z) (flags : Z) (callback : bool) : option (handles * Z) :=
  let out := wrap 16 (_handle_max_type s + 1) in
  let s := mk_handles (_handle_type_tree s) out (handle_handle_type s) (omm_handle_type s) (booted s) (deleted s) in
  '(s, key) ← (if negb (handle_handle_type s =? 0) then handle_new s (handle_handle_type s) else Some (s, 0));
  match _handle_type_tree s !! out with
  | Some _ => None
  | None => Some (set_types s (<[out := mk_descriptor name callback key flags ∅ 0 0]> (_handle_type_tree s)), out)
  end.

(** The types in increasing order, as [rb_tree_iter_next] visits them. *)
Fixpoint keys_from {A : Type} (n : nat) (k : Z) (m : gmap Z A) : list Z :=
  match n with
  | O => []
  | S n => match m !! k with Some _ => k :: keys_from n (k + 1) m | None => keys_from n (k + 1) m end
  end.

(** Give a handle to the types registered before there was a type of handles. *)
Fixpoint name_types (s : handles) (ts : list Z) : option handles :=
  match ts with
  | [] => Some s
  | t :: ts =>
      d ← handle_get_descriptor s t;
      if d_handle d =? 0 then
        '(s, key) ← handle_new s (handle_handle_type s);
        d ← handle_get_descriptor s t;
        name_types (set_types s (<[t := with_handle d key]> (_handle_type_tree s))) ts
      else name_types s ts
  end.

Definition omm_init_handle_type (s : handles) (name : list Z) : option handles :=
  '(s, t) ← register_type s name 0 false;
  let s := mk_handles (_handle_type_tree s) (_handle_max_type s) (handle_handle_type s) t (booted s) (deleted s) in
  '(s, _) ← handle_new s t;
  '(s, _) ← handle_new s t;
  Some s.

Definition name_omm_allocator : list Z :=
  [107; 101; 114; 110; 101; 108; 46; 111; 109; 109; 46; 97; 108; 108; 111; 99; 97; 116; 111; 114].
Definition name_handle : list Z := [107; 101; 114; 110; 101; 108; 46; 104; 97; 110; 100; 108; 101].

(** The first call brings the handle system up. *)
Definition handle_init (s : handles) : option handles :=
  let s := mk_handles ∅ (_handle_max_type s) (handle_handle_type s) (omm_handle_type s) true (deleted s) in
  s ← omm_init_handle_type s name_omm_allocator;
  '(s, t) ← register_type s name_handle 0 false;
  let s := mk_handles (_handle_type_tree s) (_handle_max_type s) t (omm_handle_type s) (booted s) (deleted s) in
  name_types s (keys_from (Z.to_nat (_handle_max_type s)) 1 (_handle_type_tree s)).

Definition handle_alloc (s : handles) (name : list Z) (flags : Z) (callback : bool) : option (handles * Z) :=
  s ← (if booted s then Some s else handle_init s);
  register_type s name flags callback.

(** ** Reference counting *)

Definition lookup_handle (s : handles) (id : Z) : option handle_t :=
  d ← handle_get_descriptor s (HANDLE_ID_GET_TYPE id); d_tree d !! id.

Definition store_handle (s : handles) (id : Z) (h : handle_t) : handles :=
  match handle_get_descriptor s (HANDLE_ID_GET_TYPE id) with
  | Some d => set_types s (<[HANDLE_ID_GET_TYPE id := set_tree d (<[id := h]> (d_tree d)) (d_count d) (d_active_count d)]>
                             (_handle_type_tree s))
  | None => s
  end.

Definition handle_acquire (s : handles) (id : Z) : option handles :=
  h ← lookup_handle s id; Some (store_handle s id (mk_handle (u64 (rc h + 1)) (acl h))).

Definition handle_lookup_and_acquire (s : handles) (id type : Z) : option (handles * bool) :=
  match handle_get_descriptor s (HANDLE_ID_GET_TYPE id) with
  | None => Some (s, false)
  | Some d =>
      if negb (type =? HANDLE_TYPE_ANY) && negb (type =? HANDLE_ID_GET_TYPE id) then Some (s, false)
      else match d_tree d !! id with
           | Some _ => s ← handle_acquire s id; Some (s, true)
           | None => Some (s, false)
           end
  end.

Definition _handle_delete_internal (s : handles) (id : Z) : option handles :=
  h ← lookup_handle s id;
  if negb (rc h =? 0) then Some s
  else
    d ← handle_get_descriptor s (HANDLE_ID_GET_TYPE id);
    let s := set_types s (<[HANDLE_ID_GET_TYPE id := set_tree d (delete id (d_tree d)) (d_count d) (u64 (d_active_count d - 1))]>
                            (_handle_type_tree s)) in
    Some (mk_handles (_handle_type_tree s) (_handle_max_type s) (handle_handle_type s) (omm_handle_type s) (booted s)
            (if d_callback d then deleted s ++ [id] else deleted s)).

(** True while other references remain. *)
Definition handle_release (s : handles) (id : Z) : option (handles * bool) :=
  h ← lookup_handle s id;
  let n := u64 (rc h - 1) in
  let s := store_handle s id (mk_handle n (acl h)) in
  if negb (n =? 0) then Some (s, true)
  else s ← _handle_delete_internal s id; Some (s, false).

Definition handle_destroy (s : handles) (id : Z) : option handles :=
  h ← lookup_handle s id;
  if 1 <? rc h then None
  else _handle_delete_internal (store_handle s id (mk_handle 0 (acl h))) id.

(** ** Iteration over the handles of a type *)

(** The smallest key at or above [k]. *)
Definition next_key {A : Type} (m : gmap Z A) (k : Z) : option Z :=
  foldr (fun q best => if q <? k then best else match best with Some b => Some (Z.min q b) | None => Some q end)
    None (map_to_list m).*1.

Definition acquire_opt (s : handles) (id : option Z) : option (handles * option Z) :=
  match id with
  | Some k => s ← handle_acquire s k; Some (s, Some k)
  | None => Some (s, None)
  end.

Definition handle_iter_start (s : handles) (type : Z) : option (handles * option Z) :=
  d ← handle_get_descriptor s type; acquire_opt s (next_key (d_tree d) 0).

(** The read lock of the type is held: releasing the last reference awaits the
    write lock of the same type and never returns. *)
Definition handle_iter_next (s : handles) (type id : Z) : option (handles * option Z) :=
  d ← handle_get_descriptor s type;
  let out := next_key (d_tree d) (id + 1) in
  h ← lookup_handle s id;
  if u64 (rc h - 1) =? 0 then None
  else acquire_opt (store_handle s id (mk_handle (u64 (rc h - 1)) (acl h))) out.

(** ** Handle lists: the handles a process owns *)

Definition handle_list_init : gmap Z unit := ∅.

Definition handle_list_push (l : gmap Z unit) (id : Z) : option (gmap Z unit) :=
  match l !! id with Some _ => None | None => Some (<[id := tt]> l) end.

Definition handle_list_pop (l : gmap Z unit) (id : Z) : gmap Z unit := delete id l.

Fixpoint handle_list_destroy (fuel : nat) (s : handles) (l : gmap Z unit) : option (handles * gmap Z unit) :=
  match fuel with
  | O => None
  | S fuel =>
      match next_key l 0 with
      | None => Some (s, l)
      | Some id =>
          let l := delete id l in
          '(s, found) ← handle_lookup_and_acquire s id HANDLE_TYPE_ANY;
          if found : bool then
            '(s, more) ← handle_release s id;
            if more : bool then '(s, _) ← handle_release s id; handle_list_destroy fuel s l
            else handle_list_destroy fuel s l
          else handle_list_destroy fuel s l
      end
  end.

(** ** Invariant *)

Record descriptor_wf (t : Z) (d : handle_descriptor_t) : Prop := {
  wf_count : 0 <= d_count d < 2 ^ 64;
  wf_active : d_active_count d = u64 (Z.of_nat (size (d_tree d)));
  wf_ids : forall id h, d_tree d !! id = Some h ->
    HANDLE_ID_GET_TYPE id = t /\ 0 <= HANDLE_ID_GET_INDEX id < d_count d /\ 0 < rc h < 2 ^ 64
}.

Definition handles_wf (s : handles) : Prop :=
  forall t d, _handle_type_tree s !! t = Some d -> 0 < t < 2 ^ 16 /\ descriptor_wf t d.

Lemma id_type t i : 0 <= t < 2 ^ 16 -> 0 <= i -> HANDLE_ID_GET_TYPE (HANDLE_ID_CREATE t i) = t.
Proof.
  intros Ht Hi. unfold HANDLE_ID_GET_TYPE, HANDLE_ID_CREATE. change 0xffff with (Z.ones 16).
  apply Z.bits_inj'. intros j Hj. rewrite Z.land_spec, Z.lor_spec, Z.testbit_ones_nonneg by lia. unfold u64, wrap.
  destruct (Z.ltb_spec j 16).
  - rewrite andb_true_r, Z.mod_pow2_bits_low, Z.shiftl_spec by lia. rewrite (Z.testbit_neg_r i) by lia. by rewrite orb_false_r.
  - rewrite andb_false_r. symmetry. by apply (word_high 16).
Qed.

Lemma id_index t i : 0 <= t < 2 ^ 16 -> 0 <= i < 2 ^ 48 -> HANDLE_ID_GET_INDEX (HANDLE_ID_CREATE t i) = i.
Proof.
  intros Ht Hi. unfold HANDLE_ID_GET_INDEX, HANDLE_ID_CREATE. rewrite Z.shiftr_lor, Z.shiftr_div_pow2 by lia.
  rewrite Z.div_small by lia. unfold u64, wrap. rewrite Z.mod_small.
  - by rewrite Z.shiftr_shiftl_l, Z.sub_diag, Z.shiftl_0_r by lia.
  - rewrite Z.shiftl_mul_pow2 by lia. lia.
Qed.

(** ** Iteration *)

Lemma next_key_spec {A : Type} (m : gmap Z A) (k : Z) :
  match next_key m k with
  | Some q => is_Some (m !! q) /\ k <= q /\ forall q', is_Some (m !! q') -> k <= q' -> q <= q'
  | None => forall q', is_Some (m !! q') -> q' < k
  end.
Proof.
  assert (Hin : forall q, is_Some (m !! q) <-> q ∈ (map_to_list m).*1).
  { intros q. rewrite list_elem_of_fmap. split.
    - intros [x Hx]. exists (q, x). split; [done | by apply elem_of_map_to_list].
    - intros ([q' x] & -> & Hx). exists x. by apply elem_of_map_to_list in Hx. }
  assert (Hl : forall l : list Z, match foldr (fun q best => if q <? k then best else
                 match best with Some b => Some (Z.min q b) | None => Some q end) None l with
    | Some q => q ∈ l /\ k <= q /\ forall q', q' ∈ l -> k <= q' -> q <= q'
    | None => forall q', q' ∈ l -> q' < k end).
  { intros l. induction l as [| x l IH]; simpl; [set_solver|]. set (b := foldr _ _ l) in *. clearbody b.
    destruct (Z.ltb_spec x k).
    - destruct b as [q|]; [| set_solver by lia]. destruct IH as (H1 & H2 & H3).
      split_and!; [by right | done |]. intros q' [-> | Hq]%elem_of_cons Hk; [lia | by apply H3].
    - destruct b as [q|].
      + destruct IH as (H1 & H2 & H3). split_and!; [| lia |].
        * destruct (Z.min_spec x q) as [[_ ->] | [_ ->]]; [left | by right].
        * intros q' [-> | Hq]%elem_of_cons Hk; [lia |]. specialize (H3 _ Hq Hk). lia.
      + split_and!; [left | done |]. intros q' [-> | Hq]%elem_of_cons Hk; [lia |]. specialize (IH _ Hq). lia. }
  specialize (Hl (map_to_list m).*1). unfold next_key. destruct (foldr _ _ _) as [q|].
  - destruct Hl as (H1 & H2 & H3). split_and!; [by apply Hin | done |]. intros q' Hq. apply H3, Hin, Hq.
  - intros q' Hq. apply Hl, Hin, Hq.
Qed.

(** ** The store of handles *)

Lemma lookup_handle_Some s id h : lookup_handle s id = Some h ->
  exists d, _handle_type_tree s !! HANDLE_ID_GET_TYPE id = Some d /\ d_tree d !! id = Some h.
Proof. unfold lookup_handle, handle_get_descriptor. destruct (_ !! _) as [d|]; simpl; [eauto | done]. Qed.

Lemma lookup_store_eq s id h h0 : lookup_handle s id = Some h0 -> lookup_handle (store_handle s id h) id = Some h.
Proof.
  intros (d & Hd & Ht)%lookup_handle_Some. unfold lookup_handle, store_handle, handle_get_descriptor. rewrite Hd.
  cbn [_handle_type_tree set_types]. by rewrite lookup_insert_eq; simpl; rewrite lookup_insert_eq.
Qed.

Lemma lookup_store_ne s id h id' : id' <> id -> lookup_handle (store_handle s id h) id' = lookup_handle s id'.
Proof.
  intros Hne. unfold lookup_handle, store_handle, handle_get_descriptor.
  destruct (_ !! HANDLE_ID_GET_TYPE id) as [d|] eqn:Hd; [| done]. cbn [_handle_type_tree set_types].
  destruct (decide (HANDLE_ID_GET_TYPE id' = HANDLE_ID_GET_TYPE id)) as [-> | E0].
  - rewrite lookup_insert_eq, Hd. simpl. by rewrite lookup_insert_ne.
  - by rewrite lookup_insert_ne.
Qed.

Lemma types_wf_insert s t d : handles_wf s -> 0 < t < 2 ^ 16 -> descriptor_wf t d ->
  handles_wf (set_types s (<[t := d]> (_handle_type_tree s))).
Proof.
  intros Hw Ht Hd t' d' Hl. cbn [_handle_type_tree set_types] in Hl.
  apply lookup_insert_Some in Hl as [(<- & <-) | (_ & Hl)]; [done | by apply Hw].
Qed.

Lemma store_wf s id h h0 : handles_wf s -> lookup_handle s id = Some h0 -> 0 < rc h < 2 ^ 64 ->
  handles_wf (store_handle s id h).
Proof.
  intros Hw (d & Hd & Ht)%lookup_handle_Some Hr. unfold store_handle, handle_get_descriptor. rewrite Hd.
  destruct (Hw _ _ Hd) as [Hrange [H1 H2 H3]]. apply types_wf_insert; [done | done |].
  split; simpl; [done | rewrite H2; do 2 f_equal; symmetry; apply map_size_insert_Some; eauto |].
  intros id' h' [(<- & <-) | (_ & Hl)]%lookup_insert_Some; [| by apply H3].
  destruct (H3 _ _ Ht) as (? & ? & _). done.
Qed.

Lemma deleted_store s id h : deleted (store_handle s id h) = deleted s.
Proof. unfold store_handle. by destruct (handle_get_descriptor _ _). Qed.

Lemma descriptor_store s id h t : exists d0, handle_get_descriptor (store_handle s id h) t = d0 /\
  d_callback <$> d0 = d_callback <$> handle_get_descriptor s t.
Proof.
  eexists; split; [done|]. unfold store_handle, handle_get_descriptor.
  destruct (_ !! HANDLE_ID_GET_TYPE id) as [d|] eqn:Hd; [| done]. cbn [_handle_type_tree set_types].
  destruct (decide (t = HANDLE_ID_GET_TYPE id)) as [-> | E0]; [by rewrite lookup_insert_eq, Hd | by rewrite lookup_insert_ne].
Qed.

(** Does the type of a handle have a delete callback? *)
Definition has_callback (s : handles) (id : Z) : bool :=
  default false (d_callback <$> handle_get_descriptor s (HANDLE_ID_GET_TYPE id)).

Lemma callback_store s id h id' : has_callback (store_handle s id h) id' = has_callback s id'.
Proof. unfold has_callback. destruct (descriptor_store s id h (HANDLE_ID_GET_TYPE id')) as (d0 & -> & ->). done. Qed.

Lemma store_store s id h h' : store_handle (store_handle s id h) id h' = store_handle s id h'.
Proof.
  unfold store_handle at 2 3, handle_get_descriptor. destruct (_ !! _) as [d|] eqn:Hd;
    [| unfold store_handle, handle_get_descriptor; by rewrite Hd].
  unfold store_handle, handle_get_descriptor. cbn [_handle_type_tree set_types].
  rewrite lookup_insert_eq. unfold set_types, set_tree. simpl. by rewrite !insert_insert_eq.
Qed.

(** ** The operations on registered handles *)

Lemma acquire_ok s id h : lookup_handle s id = Some h -> 0 < rc h < 2 ^ 64 - 1 ->
  handle_acquire s id = Some (store_handle s id (mk_handle (rc h + 1) (acl h))).
Proof.
  intros Hl Hr. unfold handle_acquire. rewrite Hl. simpl. unfold u64, wrap. by rewrite Z.mod_small by lia.
Qed.

Lemma release_more s id h : lookup_handle s id = Some h -> 1 < rc h < 2 ^ 64 ->
  handle_release s id = Some (store_handle s id (mk_handle (rc h - 1) (acl h)), true).
Proof.
  intros Hl Hr. unfold handle_release. rewrite Hl. cbn [mbind option_bind]. unfold u64, wrap. rewrite Z.mod_small by lia.
  by destruct (Z.eqb_spec (rc h - 1) 0); [lia|].
Qed.

(** What deleting the registered handle [id] does to the state. *)
Record deletes (s s' : handles) (id : Z) : Prop := {
  del_wf : handles_wf s';
  del_gone : lookup_handle s' id = None;
  del_other : forall id', id' <> id -> lookup_handle s' id' = lookup_handle s id';
  del_callback : deleted s' = deleted s ++ (if has_callback s id then [id] else [])
}.

Lemma delete_ok s id h : handles_wf s -> lookup_handle s id = Some h ->
  exists s', _handle_delete_internal (store_handle s id (mk_handle 0 (acl h))) id = Some s' /\ deletes s s' id.
Proof.
  intros Hw Hl. destruct (lookup_handle_Some _ _ _ Hl) as (d & Hd & Ht). destruct (Hw _ _ Hd) as [Hrange [H1 H2 H3]].
  unfold _handle_delete_internal. rewrite (lookup_store_eq _ _ _ _ Hl). simpl (mk_handle 0 _ ≫= _). cbn [rc Z.eqb negb].
  unfold store_handle, handle_get_descriptor. rewrite Hd. cbn [_handle_type_tree set_types]. rewrite lookup_insert_eq. simpl.
  eexists; split; [done|]. rewrite insert_insert_eq. split; simpl.
  - intros t' d' Hl'. cbn [_handle_type_tree] in Hl'.
    apply lookup_insert_Some in Hl' as [(<- & <-) | (_ & Hl')]; [| by apply Hw]. split; [done|].
    split; simpl; [done | |].
    + rewrite delete_insert_eq, map_size_delete, Ht, H2. unfold u64, wrap.
      assert (size (d_tree d) <> 0%nat) by (intros Hs%map_size_empty_iff; by rewrite Hs, lookup_empty in Ht).
      rewrite Zminus_mod_idemp_l. f_equal. lia.
    + intros id' h'. rewrite delete_insert_eq. intros [_ Hl']%lookup_delete_Some. by apply H3.
  - unfold lookup_handle, handle_get_descriptor. simpl. rewrite lookup_insert_eq. simpl. by rewrite lookup_delete_eq.
  - intros id' Hne. unfold lookup_handle, handle_get_descriptor. simpl.
    destruct (decide (HANDLE_ID_GET_TYPE id' = HANDLE_ID_GET_TYPE id)) as [-> | E0].
    + rewrite lookup_insert_eq, Hd. simpl. by rewrite delete_insert_eq, lookup_delete_ne.
    + by rewrite lookup_insert_ne.
  - unfold has_callback, handle_get_descriptor. rewrite Hd. simpl. destruct (d_callback d); [done | by rewrite app_nil_r].
Qed.

Lemma release_last s id h : handles_wf s -> lookup_handle s id = Some h -> rc h = 1 ->
  exists s', handle_release s id = Some (s', false) /\ deletes s s' id.
Proof.
  intros Hw Hl Hr. destruct (delete_ok s id h Hw Hl) as (s' & Hd & H). exists s'. split; [| done].
  unfold handle_release. rewrite Hl. cbn [mbind option_bind]. rewrite Hr. change (u64 (1 - 1)) with 0. cbn [Z.eqb negb].
  by rewrite Hd.
Qed.

Lemma new_ok s t d : handles_wf s -> handle_get_descriptor s t = Some d -> d_count d < 2 ^ 48 ->
  exists s' id, handle_new s t = Some (s', id) /\ id = HANDLE_ID_CREATE t (d_count d) /\ handles_wf s' /\
    lookup_handle s id = None /\ lookup_handle s' id = Some (mk_handle 1 None) /\
    (forall id', id' <> id -> lookup_handle s' id' = lookup_handle s id') /\ deleted s' = deleted s.
Proof.
  intros Hw Hd Hc. destruct (Hw _ _ Hd) as [Hrange [H1 H2 H3]]. unfold handle_new. rewrite Hd. cbn [mbind option_bind].
  set (id := HANDLE_ID_CREATE t (d_count d)).
  assert (Hty : HANDLE_ID_GET_TYPE id = t) by (apply id_type; lia).
  assert (Hix : HANDLE_ID_GET_INDEX id = d_count d) by (apply id_index; lia).
  assert (Hfresh : d_tree d !! id = None).
  { destruct (d_tree d !! id) as [h|] eqn:E0; [| done]. destruct (H3 _ _ E0) as (_ & Hi & _). lia. }
  clearbody id. rewrite Hfresh. unfold lookup_handle, handle_get_descriptor. cbn [_handle_type_tree set_types].
  do 2 eexists. split_and!; [done | done | | | | | done].
  - apply types_wf_insert; [done | done |]. split; simpl.
    + unfold u64, wrap. rewrite Z.mod_small; lia.
    + rewrite map_size_insert_None, H2 by done. unfold u64, wrap. rewrite Zplus_mod_idemp_l. f_equal. lia.
    + intros id' h' [(<- & <-) | (_ & Hl)]%lookup_insert_Some.
      * unfold u64, wrap. rewrite Z.mod_small by lia. simpl. lia.
      * destruct (H3 _ _ Hl) as (? & ? & ?). unfold u64, wrap. rewrite Z.mod_small by lia. split_and!; [done | lia | lia | lia | lia].
  - rewrite Hty. unfold handle_get_descriptor in Hd. by rewrite Hd.
  - cbn [_handle_type_tree set_types]. rewrite Hty, lookup_insert_eq. simpl. by rewrite lookup_insert_eq.
  - intros id' Hne. cbn [_handle_type_tree set_types]. destruct (decide (HANDLE_ID_GET_TYPE id' = t)) as [-> | E0].
    + unfold handle_get_descriptor in Hd. rewrite lookup_insert_eq, Hd. simpl. by rewrite lookup_insert_ne.
    + by rewrite lookup_insert_ne.
Qed.

(** The state once the handle system is up and the type "kernel.event" is registered. *)
Definition demo_boot : handles := default no_handles (fst <$> handle_alloc no_handles [107; 46; 101] 1 true).

(** The invariant, as a decidable statement over the entries. *)
Lemma wf_of_entries s :
  Forall (fun td => 0 < td.1 < 2 ^ 16 /\ 0 <= d_count td.2 < 2 ^ 64 /\
      d_active_count td.2 = u64 (Z.of_nat (size (d_tree td.2))) /\
      Forall (fun ih => HANDLE_ID_GET_TYPE ih.1 = td.1 /\ 0 <= HANDLE_ID_GET_INDEX ih.1 < d_count td.2 /\ 0 < rc ih.2 < 2 ^ 64)
        (map_to_list (d_tree td.2))) (map_to_list (_handle_type_tree s)) -> handles_wf s.
Proof.
  intros Hall t d Hl. rewrite Forall_lookup in Hall. apply elem_of_map_to_list, list_elem_of_lookup in Hl as [i Hl].
  destruct (Hall _ _ Hl) as (H1 & H2 & H3 & H4). split; [done|]. split; [done | done |].
  intros id h Hh. rewrite Forall_lookup in H4. apply elem_of_map_to_list, list_elem_of_lookup in Hh as [k Hh].
  by apply (H4 _ _ Hh).
Qed.

Lemma demo_boot_wf : handles_wf demo_boot.
Proof. apply wf_of_entries, (bool_decide_unpack _). vm_compute. exact I. Qed.

(** Creating a handle of a registered type that has handed out fewer than
    2^48 handles succeeds; the identifier encodes the type and the number of
    handles created before it, names no existing handle of any type, the new
    handle has one reference, and no other handle changes. *)
Theorem handle_new_fresh (s : handles) (t : Z) (d : handle_descriptor_t) :
  handles_wf s -> handle_get_descriptor s t = Some d -> d_count d < 2 ^ 48 ->
  exists s' id, handle_new s t = Some (s', id) /\ handles_wf s'
    /\ HANDLE_ID_GET_TYPE id = t /\ HANDLE_ID_GET_INDEX id = d_count d
    /\ lookup_handle s id = None /\ lookup_handle s' id = Some (mk_handle 1 None)
    /\ forall id', id' <> id -> lookup_handle s' id' = lookup_handle s id'.
Proof.
  intros Hw Hd Hc. destruct (new_ok s t d Hw Hd Hc) as (s' & id & Hn & -> & Hw' & H1 & H2 & H3 & _).
  destruct (Hw _ _ Hd) as [Hrange [H4 _ _]].
  exists s', (HANDLE_ID_CREATE t (d_count d)). split_and!; try done; [apply id_type; lia | apply id_index; lia].
Qed.

Lemma handle_new_fresh_witness : exists s' id, handle_new demo_boot 3 = Some (s', id) /\ handles_wf s'
    /\ HANDLE_ID_GET_TYPE id = 3 /\ HANDLE_ID_GET_INDEX id = 0
    /\ lookup_handle demo_boot id = None /\ lookup_handle s' id = Some (mk_handle 1 None)
    /\ forall id', id' <> id -> lookup_handle s' id' = lookup_handle demo_boot id'.
Proof.
  apply (handle_new_fresh demo_boot 3 (mk_descriptor [107; 46; 101] true (2 + 2 * 65536) 1 ∅ 0 0)).
  - exact demo_boot_wf.
  - vm_compute. reflexivity.
  - reflexivity.
Defined.

(** ** The life of a handle *)

Fixpoint acquire_times (n : nat) (s : handles) (id : Z) : option handles :=
  match n with O => Some s | S n => s ← handle_acquire s id; acquire_times n s id end.

(** [n] releases, each of which reports remaining references. *)
Fixpoint release_times (n : nat) (s : handles) (id : Z) : option handles :=
  match n with
  | O => Some s
  | S n => '(s, more) ← handle_release s id; if more : bool then release_times n s id else None
  end.

(** States that differ from [s] at most in the reference count of [id]. *)
Definition counted (s s' : handles) (id : Z) (h : handle_t) (n : Z) : Prop :=
  handles_wf s' /\ lookup_handle s' id = Some (mk_handle n (acl h)) /\ deleted s' = deleted s /\
  has_callback s' id = has_callback s id /\ forall id', id' <> id -> lookup_handle s' id' = lookup_handle s id'.

Lemma counted_store s s' id h n m : counted s s' id h n -> 0 < m < 2 ^ 64 ->
  counted s (store_handle s' id (mk_handle m (acl h))) id h m.
Proof.
  intros (Hw & Hl & Hdel & Hcb & Ho) Hm.
  split_and!; [by eapply store_wf | by eapply lookup_store_eq | by rewrite deleted_store | by rewrite callback_store |].
  intros id' Hne. rewrite lookup_store_ne by done. by apply Ho.
Qed.

Lemma acquire_counted s id h k : forall s0 n, counted s s0 id h n -> 0 < n -> n + Z.of_nat k < 2 ^ 64 ->
  exists s1, acquire_times k s0 id = Some s1 /\ counted s s1 id h (n + Z.of_nat k).
Proof.
  induction k as [| k IH]; intros s0 n Hc H0 Hn; [exists s0; by rewrite Z.add_0_r|]. cbn [acquire_times].
  rewrite (acquire_ok _ _ _ (proj1 (proj2 Hc))) by (cbn [rc]; lia). cbn [mbind option_bind rc acl].
  destruct (IH _ _ (counted_store _ _ _ _ _ (n + 1) Hc ltac:(lia))) as (s1 & Ha & H1); [lia | lia |].
  exists s1. split; [done|]. by replace (n + Z.of_nat (S k)) with (n + 1 + Z.of_nat k) by lia.
Qed.

Lemma release_counted s id h k : forall s0 n, counted s s0 id h n -> Z.of_nat k < n < 2 ^ 64 ->
  exists s1, release_times k s0 id = Some s1 /\ counted s s1 id h (n - Z.of_nat k).
Proof.
  induction k as [| k IH]; intros s0 n Hc Hn; [exists s0; by rewrite Z.sub_0_r|]. cbn [release_times].
  rewrite (release_more _ _ _ (proj1 (proj2 Hc))) by (cbn [rc]; lia). cbn [mbind option_bind rc acl].
  destruct (IH _ _ (counted_store _ _ _ _ _ (n - 1) Hc ltac:(lia))) as (s1 & Ha & H1); [lia |].
  exists s1. split; [done|]. by replace (n - Z.of_nat (S k)) with (n - 1 - Z.of_nat k) by lia.
Qed.

Lemma lookup_gone s id type : lookup_handle s id = None -> handle_lookup_and_acquire s id type = Some (s, false).
Proof.
  unfold handle_lookup_and_acquire, lookup_handle. destruct (handle_get_descriptor s _); [| done]. simpl. intros ->.
  by destruct (_ && _).
Qed.

(** A registered handle survives as long as it has references: after [k]
    more acquisitions, all but the last of the matching releases report that
    references remain and delete nothing; the last one reports that none does,
    unregisters the handle, runs the delete callback of its type exactly once
    and leaves every other handle alone, and looking the handle up then fails. *)
Theorem handle_lifetime (s : handles) (id : Z) (h : handle_t) (k : nat) :
  handles_wf s -> lookup_handle s id = Some h -> rc h + Z.of_nat k < 2 ^ 64 ->
  exists s1 s2 s3, acquire_times k s id = Some s1
    /\ release_times (Z.to_nat (rc h) + k - 1) s1 id = Some s2
    /\ deleted s2 = deleted s /\ is_Some (lookup_handle s2 id)
    /\ handle_release s2 id = Some (s3, false)
    /\ deleted s3 = deleted s ++ (if has_callback s id then [id] else [])
    /\ handle_lookup_and_acquire s3 id HANDLE_TYPE_ANY = Some (s3, false)
    /\ forall id', id' <> id -> lookup_handle s3 id' = lookup_handle s id'.
Proof.
  intros Hw Hl Hk. destruct (lookup_handle_Some _ _ _ Hl) as (d & Hd & Ht).
  destruct (wf_ids _ _ (proj2 (Hw _ _ Hd)) _ _ Ht) as (_ & _ & Hrc).
  assert (H0 : counted s s id h (rc h)) by (split_and!; try done; by destruct h).
  destruct (acquire_counted s id h k s _ H0) as (s1 & Ha & H1); [lia | lia |].
  destruct (release_counted s id h (Z.to_nat (rc h) + k - 1) s1 _ H1) as (s2 & Hr & H2); [lia|].
  replace (rc h + Z.of_nat k - Z.of_nat (Z.to_nat (rc h) + k - 1)) with 1 in H2 by lia.
  destruct H2 as (Hw2 & Hl2 & Hdel & Hcb & Ho). destruct (release_last s2 id _ Hw2 Hl2 eq_refl) as (s3 & Hrel & [D1 D2 D3 D4]).
  exists s1, s2, s3. split_and!; try done; [by rewrite D4, Hdel, Hcb | by apply lookup_gone |].
  intros id' Hne. rewrite D3 by done. by apply Ho.
Qed.

Lemma handle_lifetime_witness : exists s1 s2 s3, acquire_times 2 demo_boot 0x00010002 = Some s1
    /\ release_times (Z.to_nat 1 + 2 - 1) s1 0x00010002 = Some s2
    /\ deleted s2 = [] /\ is_Some (lookup_handle s2 0x00010002)
    /\ handle_release s2 0x00010002 = Some (s3, false)
    /\ deleted s3 = [] ++ (if has_callback demo_boot 0x00010002 then [0x00010002] else [])
    /\ handle_lookup_and_acquire s3 0x00010002 HANDLE_TYPE_ANY = Some (s3, false)
    /\ forall id', id' <> 0x00010002 -> lookup_handle s3 id' = lookup_handle demo_boot id'.
Proof.
  apply (handle_lifetime demo_boot 0x00010002 (mk_handle 1 None) 2).
  - exact demo_boot_wf.
  - vm_compute. reflexivity.
  - reflexivity.
Defined.

(** ** Two releases at once

    [handle_release] decrements the count and then reads it again, and
    [_handle_delete_internal] only checks that it is still zero.  The steps of
    one call, as the accesses to the shared count: *)
Inductive release_pc := Held | Decremented | Deleting | Locked | Released.

Record release_state := mk_release { r_rc : Z; r_pcs : list release_pc; r_removals : list nat }.

Definition release_step (s : release_state) (i : nat) : release_state :=
  let goto p := <[i := p]> (r_pcs s) in
  match r_pcs s !! i with
  | Some Held => mk_release (u64 (r_rc s - 1)) (goto Decremented) (r_removals s)          (* handle->rc--; *)
  | Some Decremented =>                                                                   (* if (handle->rc) return 1; *)
      mk_release (r_rc s) (goto (if z2b (r_rc s) then Released else Deleting)) (r_removals s)
  | Some Deleting =>                                                                      (* if (handle->rc) return; *)
      mk_release (r_rc s) (goto (if z2b (r_rc s) then Released else Locked)) (r_removals s)
  | Some Locked =>                                         (* under the write lock: if (handle->rc) return; remove *)
      mk_release (r_rc s) (goto Released) (if z2b (r_rc s) then r_removals s else r_removals s ++ [i])
  | _ => s
  end.

(** When two processors release the last two references of a handle, both
    can read the count after both decrements, find it zero and delete the
    handle: it is removed from its tree and destroyed twice. *)
Theorem handle_release_race : exists schedule : list nat,
  let s := foldl release_step (mk_release 2 [Held; Held] []) schedule in
  r_pcs s = [Released; Released] /\ r_removals s = [0; 1]%nat.
Proof. exists [0; 1; 0; 1; 0; 0; 1; 1]%nat. by vm_compute. Qed.
