(* ===== verification/Id.v ===== *)
(** * Users, groups and permissions: kernel/id, kernel/vfs/permissions, and the
    process identity of kernel/mp/process.

    The user and group trees are seen through their maps (see [RbTreeSpec]);
    user and group numbers are 32-bit. *)
From stdpp Require Import base tactics list numbers gmap fin_maps.
From Stdlib Require Import ZArith Lia.
From S2P Require Import Prelude MemUtil Acl Handle.
#[local] Open Scope Z_scope.

(** ** Error values (error.h) *)

Definition _ERROR (x : Z) : Z := u64 (- x).
Definition ERROR_OK : Z := _ERROR 0.
Definition ERROR_INVALID_ARGUMENT (index : Z) : Z := _ERROR (Z.lor 2 (Z.shiftl index 16)).
Definition ERROR_NOT_FOUND : Z := _ERROR 3.
Definition ERROR_INVALID_HANDLE : Z := _ERROR 4.
Definition ERROR_NO_ACL : Z := _ERROR 5.
Definition ERROR_DENIED : Z := _ERROR 6.
Definition ERROR_ALREADY_PRESENT : Z := _ERROR 0xe.

Definition ID_FLAG_BYPASS_VFS_PERMISSIONS : Z := 1.
Definition ID_FLAG_ROOT_ACL : Z := 2.

(** ** Data *)

Record gid_data_t := mk_gid { g_name : string_t; g_flags : Z }.
Record uid_data_t := mk_uid { u_name : string_t; u_group_tree : gmap Z unit; u_flags : Z }.
Record ids := mk_ids { _gid_tree : gmap Z gid_data_t; _uid_tree : gmap Z uid_data_t }.

Definition set_gids (s : ids) (t : gmap Z gid_data_t) : ids := mk_ids t (_uid_tree s).
Definition set_uids (s : ids) (t : gmap Z uid_data_t) : ids := mk_ids (_gid_tree s) t.

(** ** Groups *)

Definition gid_create (s : ids) (gid : Z) (name : list Z) : ids * Z :=
  match _gid_tree s !! gid with
  | Some _ => (s, ERROR_ALREADY_PRESENT)
  | None => (set_gids s (<[gid := mk_gid (smm_of name) 0]> (_gid_tree s)), ERROR_OK)
  end.

Definition gid_delete (s : ids) (gid : Z) : ids * Z :=
  match _gid_tree s !! gid with
  | Some _ => (set_gids s (delete gid (_gid_tree s)), ERROR_OK)
  | None => (s, ERROR_NOT_FOUND)
  end.

Definition gid_get_flags (s : ids) (gid : Z) : Z :=
  match _gid_tree s !! gid with Some g => g_flags g | None => ERROR_NOT_FOUND end.

Definition gid_set_flags (s : ids) (gid clear set : Z) : ids * Z :=
  match _gid_tree s !! gid with
  | Some g => (set_gids s (<[gid := mk_gid (g_name g) (word_update (g_flags g) clear set)]> (_gid_tree s)), ERROR_OK)
  | None => (s, ERROR_NOT_FOUND)
  end.

(** ** Users *)

Definition uid_create (s : ids) (uid : Z) (name : list Z) : ids * Z :=
  match _uid_tree s !! uid with
  | Some _ => (s, ERROR_ALREADY_PRESENT)
  | None => (set_uids s (<[uid := mk_uid (smm_of name) ∅ 0]> (_uid_tree s)), ERROR_OK)
  end.

(** The loop of [uid_delete] that frees the groups of the user one by one. *)
Fixpoint remove_groups (fuel : nat) (t : gmap Z unit) : option (gmap Z unit) :=
  match fuel with
  | O => None
  | S fuel => match next_key t 0 with Some gid => remove_groups fuel (delete gid t) | None => Some t end
  end.

Definition uid_delete (fuel : nat) (s : ids) (uid : Z) : option (ids * Z) :=
  match _uid_tree s !! uid with
  | None => Some (s, ERROR_NOT_FOUND)
  | Some u =>
      _ ← remove_groups fuel (u_group_tree u);
      Some (set_uids s (delete uid (_uid_tree s)), ERROR_OK)
  end.

Definition uid_add_group (s : ids) (uid gid : Z) : ids * Z :=
  match _uid_tree s !! uid with
  | None => (s, ERROR_NOT_FOUND)
  | Some u =>
      match u_group_tree u !! gid with
      | Some _ => (s, ERROR_ALREADY_PRESENT)
      | None => (set_uids s (<[uid := mk_uid (u_name u) (<[gid := tt]> (u_group_tree u)) (u_flags u)]> (_uid_tree s)), ERROR_OK)
      end
  end.

Definition uid_has_group (s : ids) (uid gid : Z) : Z :=
  match _uid_tree s !! uid with
  | Some u => match u_group_tree u !! gid with Some _ => 1 | None => 0 end
  | None => ERROR_NOT_FOUND
  end.

Definition uid_remove_group (s : ids) (uid gid : Z) : ids * Z :=
  match _uid_tree s !! uid with
  | None => (s, ERROR_NOT_FOUND)
  | Some u =>
      match u_group_tree u !! gid with
      | None => (s, ERROR_NOT_FOUND)
      | Some _ => (set_uids s (<[uid := mk_uid (u_name u) (delete gid (u_group_tree u)) (u_flags u)]> (_uid_tree s)), ERROR_OK)
      end
  end.

Definition uid_get_flags (s : ids) (uid : Z) : Z :=
  match _uid_tree s !! uid with Some u => u_flags u | None => ERROR_NOT_FOUND end.

Definition uid_set_flags (s : ids) (uid clear set : Z) : ids * Z :=
  match _uid_tree s !! uid with
  | Some u => (set_uids s (<[uid := mk_uid (u_name u) (u_group_tree u) (word_update (u_flags u) clear set)]> (_uid_tree s)), ERROR_OK)
  | None => (s, ERROR_NOT_FOUND)
  end.

Definition name_root : list Z := [114; 111; 111; 116].

(** The two initialisers: the root group, then the root user in it. *)
Definition init_ids : ids :=
  let s := mk_ids ∅ ∅ in
  let s := (gid_create s 0 name_root).1 in
  let s := (uid_create s 0 name_root).1 in
  (uid_add_group s 0 0).1.

(** ** The identity of a process *)

Record process_id := mk_pid { p_uid : Z; p_gid : Z }.

Definition process_is_root (s : ids) (p : process_id) : bool :=
  (p_uid p =? 0) || (p_gid p =? 0) || (uid_has_group s (p_uid p) 0 =? 1).

Definition process_get_id_flags (s : ids) (p : process_id) : Z :=
  Z.lor (uid_get_flags s (p_uid p)) (gid_get_flags s (p_gid p)).

Definition syscall_uid_set (s : ids) (p : process_id) (uid : Z) : process_id * Z :=
  if process_is_root s p then (mk_pid (u32 uid) (p_gid p), ERROR_OK) else (p, ERROR_DENIED).

Definition syscall_gid_set (s : ids) (p : process_id) (gid : Z) : process_id * Z :=
  if process_is_root s p then (mk_pid (p_uid p) (u32 gid), ERROR_OK) else (p, ERROR_DENIED).

(** ** File permissions *)

Definition VFS_NODE_PERMISSION_SHIFT : Z := 13.
Definition VFS_NODE_PERMISSION_MASK : Z := Z.shiftl 0x1ff VFS_NODE_PERMISSION_SHIFT.
Definition VFS_PERMISSION_READ : Z := 4.
Definition VFS_LOOKUP_FLAG_CHECK_PERMISSIONS : Z := 2.

(** [node] is given by its flags, owner and group. *)
Definition vfs_permissions_get (s : ids) (node_flags node_uid node_gid uid gid : Z) : Z :=
  let permissions := Z.shiftr (Z.land node_flags VFS_NODE_PERMISSION_MASK) VFS_NODE_PERMISSION_SHIFT in
  let permissions := if (uid =? 0) || (gid =? 0) then Z.lor permissions (Z.shiftr permissions 6) else permissions in
  let permissions :=
    if (node_uid =? uid) || (node_gid =? gid) || z2b (uid_has_group s uid node_gid)
    then Z.lor permissions (Z.shiftr permissions 3) else permissions in
  Z.land permissions 7.

(** The first step of a path lookup: may the caller skip the checks? *)
Definition lookup_flags (s : ids) (flags uid gid : Z) : Z :=
  if z2b (Z.land flags VFS_LOOKUP_FLAG_CHECK_PERMISSIONS) &&
     z2b (Z.land (Z.lor (uid_get_flags s uid) (gid_get_flags s gid)) ID_FLAG_BYPASS_VFS_PERMISSIONS)
  then Z.land flags (lnot_w 32 VFS_LOOKUP_FLAG_CHECK_PERMISSIONS) else flags.

Definition _has_read_permissions (s : ids) (node_flags node_uid node_gid flags uid gid : Z) : bool :=
  if negb (z2b (Z.land flags VFS_LOOKUP_FLAG_CHECK_PERMISSIONS)) then true
  else z2b (Z.land (vfs_permissions_get s node_flags node_uid node_gid uid gid) VFS_PERMISSION_READ).

(** ** Deleting users *)

(** Group numbers are unsigned. *)
Definition gids_ok (t : gmap Z unit) : Prop := forall g, is_Some (t !! g) -> 0 <= g.

Lemma remove_groups_ok fuel : forall t, gids_ok t -> (size t < fuel)%nat -> remove_groups fuel t = Some ∅.
Proof.
  induction fuel as [| fuel IH]; intros t Ht Hf; [lia|]. cbn [remove_groups]. pose proof (next_key_spec t 0) as Hn.
  destruct (next_key t 0) as [g|].
  - destruct Hn as (Hg & _ & _). apply IH.
    + intros g' [x Hx]. apply lookup_delete_Some in Hx as [_ Hx]. apply Ht. by exists x.
    + destruct Hg as [x Hx]. rewrite map_size_delete, Hx.
      assert (size t <> 0%nat) by (intros Hs%map_size_empty_iff; by rewrite Hs, lookup_empty in Hx). lia.
  - f_equal. apply map_empty. intros g. apply eq_None_not_Some. intros Hg. specialize (Hn g Hg). specialize (Ht g Hg). lia.
Qed.

(** C37: deleting a user terminates within one iteration per group it is in,
    after which the user is unknown and no other user or group has changed; a
    user created again under the same number is in no group and has no flag. *)
Theorem uid_delete_clean (s : ids) (uid : Z) (u : uid_data_t) (name : list Z) (fuel : nat) :
  _uid_tree s !! uid = Some u -> gids_ok (u_group_tree u) -> (size (u_group_tree u) < fuel)%nat ->
  exists s', uid_delete fuel s uid = Some (s', ERROR_OK)
    /\ _gid_tree s' = _gid_tree s /\ (forall x, x <> uid -> _uid_tree s' !! x = _uid_tree s !! x)
    /\ uid_get_flags s' uid = ERROR_NOT_FOUND
    /\ let '(s2, e) := uid_create s' uid name in
       e = ERROR_OK /\ uid_get_flags s2 uid = 0 /\ forall g, uid_has_group s2 uid g = 0.
Proof.
  intros Hu Hg Hf. unfold uid_delete. rewrite Hu, remove_groups_ok by done. cbn [mbind option_bind].
  eexists; split; [done|]. cbn [set_uids _gid_tree _uid_tree]. split_and!; [done | | |].
  - intros x Hx. by rewrite lookup_delete_ne.
  - unfold uid_get_flags. cbn [set_uids _uid_tree]. by rewrite lookup_delete_eq.
  - unfold uid_create. cbn [set_uids _gid_tree _uid_tree]. rewrite lookup_delete_eq.
    unfold uid_get_flags, uid_has_group. cbn [set_uids _uid_tree]. by rewrite lookup_insert_eq.
Qed.

Definition demo_ids : ids := (uid_add_group (uid_add_group (uid_create init_ids 1000 [97]).1 1000 7).1 1000 0).1.

Lemma uid_delete_clean_witness : exists s', uid_delete 3 demo_ids 1000 = Some (s', ERROR_OK)
    /\ _gid_tree s' = _gid_tree demo_ids /\ (forall x, x <> 1000 -> _uid_tree s' !! x = _uid_tree demo_ids !! x)
    /\ uid_get_flags s' 1000 = ERROR_NOT_FOUND
    /\ let '(s2, e) := uid_create s' 1000 [98] in
       e = ERROR_OK /\ uid_get_flags s2 1000 = 0 /\ forall g, uid_has_group s2 1000 g = 0.
Proof.
  apply (uid_delete_clean demo_ids 1000 (mk_uid (smm_of [97]) (<[0 := tt]> (<[7 := tt]> ∅)) 0)).
  - vm_compute. reflexivity.
  - intros g [x Hx]. cbn [u_group_tree] in Hx. apply lookup_insert_Some in Hx as [[<- _] | [_ Hx]]; [lia|].
    apply lookup_insert_Some in Hx as [[<- _] | [_ Hx]]; [lia|]. by rewrite lookup_empty in Hx.
  - vm_compute. lia.
Defined.

(** ** Permissions *)

Definition is_root_id (uid gid : Z) : bool := (uid =? 0) || (gid =? 0).
Definition is_member (s : ids) (node_uid node_gid uid gid : Z) : bool :=
  (node_uid =? uid) || (node_gid =? gid) || (uid_has_group s uid node_gid =? 1).

Lemma has_group_bool s uid g : is_Some (_uid_tree s !! uid) -> z2b (uid_has_group s uid g) = (uid_has_group s uid g =? 1).
Proof. intros [u Hu]. unfold uid_has_group. rewrite Hu. by destruct (u_group_tree u !! g). Qed.

(** For a registered user, permission bit [b] (read, write or execute) of
    a file is granted exactly when the file grants it to everyone, or to its
    owner and group and the user is one of them, or to root and the caller is
    root. *)
Theorem vfs_permissions_spec (s : ids) (node_flags node_uid node_gid uid gid b : Z) :
  is_Some (_uid_tree s !! uid) -> 0 <= b < 3 ->
  Z.testbit (vfs_permissions_get s node_flags node_uid node_gid uid gid) b =
    Z.testbit node_flags (13 + b)
    || (is_member s node_uid node_gid uid gid && Z.testbit node_flags (13 + b + 3))
    || (is_root_id uid gid && Z.testbit node_flags (13 + b + 6)).
Proof.
  intros Hu Hb. unfold vfs_permissions_get. rewrite (has_group_bool _ _ _ Hu).
  fold (is_member s node_uid node_gid uid gid). fold (is_root_id uid gid).
  set (p := Z.shiftr _ VFS_NODE_PERMISSION_SHIFT).
  assert (Hp : forall i, 0 <= i -> Z.testbit p i = Z.testbit node_flags (13 + i) && (i <? 9)).
  { intros i Hi. subst p. unfold VFS_NODE_PERMISSION_SHIFT, VFS_NODE_PERMISSION_MASK.
    rewrite Z.shiftr_spec, Z.land_spec, Z.shiftl_spec by lia. change 0x1ff with (Z.ones 9).
    rewrite Z.testbit_ones by lia. rewrite (Z.add_comm i 13). f_equal.
    replace (13 + i - VFS_NODE_PERMISSION_SHIFT) with i by (unfold VFS_NODE_PERMISSION_SHIFT; lia).
    by rewrite (proj2 (Z.leb_le 0 i) Hi). }
  clearbody p. rewrite Z.land_spec. change 7 with (Z.ones 3). rewrite Z.testbit_ones by lia.
  rewrite (proj2 (Z.leb_le 0 b)), (proj2 (Z.ltb_lt b 3)), andb_true_r by lia.
  replace (13 + b + 3) with (13 + (b + 3)) by lia. replace (13 + b + 6) with (13 + (b + 6)) by lia.
  assert (H0 : Z.testbit p b = Z.testbit node_flags (13 + b)).
  { rewrite Hp by lia. rewrite (proj2 (Z.ltb_lt b 9)) by lia. apply andb_true_r. }
  assert (H3 : Z.testbit p (b + 3) = Z.testbit node_flags (13 + (b + 3))).
  { rewrite Hp by lia. rewrite (proj2 (Z.ltb_lt (b + 3) 9)) by lia. apply andb_true_r. }
  assert (H6 : Z.testbit p (b + 6) = Z.testbit node_flags (13 + (b + 6))).
  { rewrite Hp by lia. rewrite (proj2 (Z.ltb_lt (b + 6) 9)) by lia. apply andb_true_r. }
  assert (H9 : Z.testbit p (b + 3 + 6) = false).
  { rewrite Hp by lia. rewrite (proj2 (Z.ltb_ge (b + 3 + 6) 9)) by lia. apply andb_false_r. }
  destruct (is_root_id uid gid), (is_member s node_uid node_gid uid gid);
    rewrite ?Z.lor_spec, ?Z.shiftr_spec by lia; rewrite ?Z.lor_spec, ?Z.shiftr_spec by lia;
    rewrite ?H9, ?H0, ?H3, ?H6; cbn [andb orb]; rewrite ?orb_false_r; try done.
  rewrite <- !orb_assoc. f_equal. apply orb_comm.
Qed.

Lemma vfs_permissions_spec_witness :
  Z.testbit (vfs_permissions_get demo_ids (Z.shiftl 0x38 13) 5 7 1000 9) 2 =
    Z.testbit (Z.shiftl 0x38 13) (13 + 2)
    || (is_member demo_ids 5 7 1000 9 && Z.testbit (Z.shiftl 0x38 13) (13 + 2 + 3))
    || (is_root_id 1000 9 && Z.testbit (Z.shiftl 0x38 13) (13 + 2 + 6)).
Proof. apply (vfs_permissions_spec demo_ids); [vm_compute; eauto | lia]. Defined.

(** A user or group number that is not registered passes every check of a
    path lookup: [uid_get_flags] and [gid_get_flags] answer it with the error
    value [ERROR_NOT_FOUND], whose lowest bit is the flag that bypasses the
    permissions of files; and [vfs_permissions_get] takes the error value of
    [uid_has_group] for membership in the group of every file. *)
Theorem unknown_id_bypass (s : ids) (flags uid gid node_flags node_uid node_gid : Z) :
  _uid_tree s !! uid = None \/ _gid_tree s !! gid = None ->
  _has_read_permissions s node_flags node_uid node_gid (lookup_flags s flags uid gid) uid gid = true
  /\ (_uid_tree s !! uid = None ->
      forall b, 0 <= b < 3 -> Z.testbit node_flags (13 + b + 3) = true ->
      Z.testbit (vfs_permissions_get s node_flags node_uid node_gid uid gid) b = true).
Proof.
  intros Hun. split.
  - unfold _has_read_permissions, lookup_flags.
    assert (Hbit : z2b (Z.land (Z.lor (uid_get_flags s uid) (gid_get_flags s gid)) ID_FLAG_BYPASS_VFS_PERMISSIONS) = true).
    { unfold z2b, ID_FLAG_BYPASS_VFS_PERMISSIONS. apply negb_true_iff, Z.eqb_neq. intros H0.
      assert (Hb : Z.testbit (Z.land (Z.lor (uid_get_flags s uid) (gid_get_flags s gid)) 1) 0 = true); [| by rewrite H0 in Hb].
      rewrite Z.land_spec, Z.lor_spec. unfold uid_get_flags, gid_get_flags. destruct Hun as [-> | ->].
      - done.
      - by rewrite orb_true_r. }
    rewrite Hbit, andb_true_r. destruct (z2b (Z.land flags _)) eqn:Ef.
    + assert (Hc : Z.land (Z.land flags (lnot_w 32 VFS_LOOKUP_FLAG_CHECK_PERMISSIONS)) VFS_LOOKUP_FLAG_CHECK_PERMISSIONS = 0).
      { rewrite <- Z.land_assoc. replace (Z.land (lnot_w 32 _) _) with 0 by reflexivity. apply Z.land_0_r. }
      by rewrite Hc.
    + by rewrite Ef.
  - intros Hu b Hb Hbit. unfold vfs_permissions_get. unfold uid_has_group. rewrite Hu.
    change (z2b ERROR_NOT_FOUND) with true. rewrite orb_true_r. rewrite Z.land_spec. change 7 with (Z.ones 3).
    rewrite Z.testbit_ones, (proj2 (Z.leb_le 0 b)), (proj2 (Z.ltb_lt b 3)), andb_true_r by lia.
    set (p := Z.shiftr _ VFS_NODE_PERMISSION_SHIFT).
    assert (Hp : Z.testbit p (b + 3) = true).
    { subst p. unfold VFS_NODE_PERMISSION_SHIFT, VFS_NODE_PERMISSION_MASK. rewrite Z.shiftr_spec, Z.land_spec, Z.shiftl_spec by lia.
      change 0x1ff with (Z.ones 9). unfold VFS_NODE_PERMISSION_SHIFT. rewrite Z.testbit_ones by lia.
      replace (b + 3 + 13) with (13 + b + 3) by lia. rewrite Hbit. simpl. apply andb_true_iff. lia. }
    clearbody p. destruct ((uid =? 0) || (gid =? 0)); rewrite Z.lor_spec, (Z.shiftr_spec _ 3) by lia;
      rewrite ?Z.lor_spec, Hp; by rewrite ?orb_true_r.
Qed.

Lemma unknown_id_bypass_witness :
  _has_read_permissions init_ids 0 5 7 (lookup_flags init_ids 2 1234 0) 1234 0 = true
  /\ (_uid_tree init_ids !! 1234 = None ->
      forall b, 0 <= b < 3 -> Z.testbit 0 (13 + b + 3) = true ->
      Z.testbit (vfs_permissions_get init_ids 0 5 7 1234 0) b = true).
Proof. apply (unknown_id_bypass init_ids 2 1234 0 0 5 7). left. vm_compute. reflexivity. Defined.
