(* ===== verification/AclSyscall.v ===== *)
(** * The system calls on access control lists: kernel/acl.

    The caller is the process with handle [cur] and identity [me].  The type of
    process handles and the callback that decides permission requests are
    parameters: both are set up at run time. *)
From stdpp Require Import base tactics list numbers gmap fin_maps option.
From Stdlib Require Import ZArith Lia.
From S2P Require Import Prelude MemUtil Acl Handle Id.
#[local] Open Scope Z_scope.

Section Syscalls.
Variable process_handle_type : Z.
Variable st_ids : ids.
Variable cur : Z.
Variable me : process_id.

(** The prologue the three calls share: acquire the object and, if one is
    named, the process.  [inl e]: return the error [e]. *)
Definition acquire_target (s : handles) (handle_id process_handle_id : Z) : option (handles * (Z + unit)) :=
  '(s, found) ← handle_lookup_and_acquire s handle_id HANDLE_TYPE_ANY;
  if negb found then Some (s, inl ERROR_INVALID_HANDLE)
  else
    h ← lookup_handle s handle_id;
    match acl h with
    | None => Some (s, inl ERROR_NO_ACL)
    | Some _ =>
        if z2b process_handle_id then
          '(s, found) ← handle_lookup_and_acquire s process_handle_id process_handle_type;
          if negb found then '(s, _) ← handle_release s handle_id; Some (s, inl ERROR_INVALID_HANDLE)
          else Some (s, inr tt)
        else Some (s, inr tt)
    end.

Definition target_process (process_handle_id : Z) : Z := if z2b process_handle_id then process_handle_id else cur.

Definition release_target (s : handles) (handle_id process_handle_id : Z) : option handles :=
  s ← (if z2b process_handle_id then '(s, _) ← handle_release s process_handle_id; Some s else Some s);
  '(s, _) ← handle_release s handle_id;
  Some s.

(** [acl_get] and [acl_set] on the list of a handle. *)
Definition handle_acl_get (s : handles) (id process : Z) : option (handles * Z) :=
  h ← lookup_handle s id;
  a ← acl h;
  let '(a, out) := acl_get a process in
  Some (store_handle s id (mk_handle (rc h) (Some a)), out).

Definition handle_acl_set (s : handles) (id process clear set : Z) : option handles :=
  h ← lookup_handle s id;
  a ← acl h;
  Some (store_handle s id (mk_handle (rc h) (Some (acl_set a process clear set)))).

Definition syscall_acl_get_permissions (s : handles) (handle_id process_handle_id : Z) : option (handles * Z) :=
  '(s, t) ← acquire_target s handle_id process_handle_id;
  match t with
  | inl e => Some (s, e)
  | inr _ =>
      '(s, out) ← handle_acl_get s handle_id (target_process process_handle_id);
      s ← release_target s handle_id process_handle_id;
      Some (s, out)
  end.

Definition syscall_acl_set_permissions (s : handles) (handle_id process_handle_id clear set : Z) : option (handles * Z) :=
  if z2b (Z.land clear (lnot_w 64 ACL_PERMISSION_MASK)) then Some (s, ERROR_INVALID_ARGUMENT 2)
  else if z2b (Z.land set (lnot_w 64 ACL_PERMISSION_MASK)) then Some (s, ERROR_INVALID_ARGUMENT 3)
  else
    '(s, t) ← acquire_target s handle_id process_handle_id;
    match t with
    | inl e => Some (s, e)
    | inr _ =>
        '(s, set) ← (if negb (z2b (Z.land (process_get_id_flags st_ids me) ID_FLAG_ROOT_ACL))
                     then '(s, own) ← handle_acl_get s handle_id cur; Some (s, Z.land set own)
                     else Some (s, set));
        s ← handle_acl_set s handle_id (target_process process_handle_id) clear set;
        s ← release_target s handle_id process_handle_id;
        Some (s, ERROR_OK)
    end.

(** [callback handle process flags]: the registered callback, if any. *)
Definition syscall_acl_request_permissions (callback : option (Z -> Z -> Z -> Z)) (s : handles)
    (handle_id process_handle_id flags : Z) : option (handles * Z) :=
  if z2b (Z.land flags (lnot_w 64 ACL_PERMISSION_MASK)) then Some (s, ERROR_INVALID_ARGUMENT 2)
  else
    '(s, t) ← acquire_target s handle_id process_handle_id;
    match t with
    | inl e => Some (s, e)
    | inr _ =>
        let process := target_process process_handle_id in
        let out := match callback with Some f => f handle_id process flags | None => ERROR_DENIED end in
        s ← (if out =? ERROR_OK then handle_acl_set s handle_id process 0 flags else Some s);
        s ← release_target s handle_id process_handle_id;
        Some (s, out)
    end.

(** ** What a process may do to an object *)

Definition acl_of (s : handles) (id : Z) : option acl_t := h ← lookup_handle s id; acl h.

Definition perms_of (s : handles) (id key : Z) : Z :=
  match acl_of s id with Some a => perms a key | None => 0 end.

Definition acls_wf (s : handles) : Prop := forall id a, acl_of s id = Some a -> acl_wf a.

Definition state_wf (s : handles) : Prop := handles_wf s /\ acls_wf s.

(** [s'] gives no process a permission it did not have in [s]. *)
Definition no_more (s s' : handles) : Prop :=
  state_wf s' /\ forall id, acl_of s' id = acl_of s id \/ acl_of s' id = None.

Lemma rc_range s id h : handles_wf s -> lookup_handle s id = Some h -> 0 < rc h < 2 ^ 64.
Proof. intros Hw (d & Hd & Ht)%lookup_handle_Some. apply (wf_ids _ _ (proj2 (Hw _ _ Hd)) _ _ Ht). Qed.

Lemma acl_of_store s id h h0 id' : lookup_handle s id = Some h0 ->
  acl_of (store_handle s id h) id' = if decide (id' = id) then acl h else acl_of s id'.
Proof.
  intros Hl. unfold acl_of. destruct (decide (id' = id)) as [-> | E0].
  - by rewrite (lookup_store_eq _ _ _ _ Hl).
  - by rewrite lookup_store_ne.
Qed.

Lemma store_state_wf s id h h0 : state_wf s -> lookup_handle s id = Some h0 -> 0 < rc h < 2 ^ 64 ->
  (forall a, acl h = Some a -> acl_wf a) -> state_wf (store_handle s id h).
Proof.
  intros [Hw Ha] Hl Hr Hh. split; [by eapply store_wf|]. intros id' a. rewrite (acl_of_store _ _ _ _ _ Hl).
  destruct (decide _); [apply Hh | apply Ha].
Qed.

Lemma no_more_trans s s1 s2 : no_more s s1 -> no_more s1 s2 -> no_more s s2.
Proof.
  intros [_ H1] [Hw H2]. split; [done|]. intros id. destruct (H2 id) as [-> | ->]; [apply H1 | by right].
Qed.

Lemma no_more_refl s : state_wf s -> no_more s s.
Proof. intros Hw. split; [done | by left]. Qed.

Lemma recount_no_more s id h n : state_wf s -> lookup_handle s id = Some h -> 0 < n < 2 ^ 64 ->
  no_more s (store_handle s id (mk_handle n (acl h))).
Proof.
  intros Hw Hl Hn. split.
  - eapply store_state_wf; [done | done | done |]. intros a Ha. apply (proj2 Hw id). unfold acl_of. by rewrite Hl.
  - intros id'. left. rewrite (acl_of_store _ _ _ _ _ Hl). destruct (decide (id' = id)) as [-> |]; [| done].
    unfold acl_of. by rewrite Hl.
Qed.

Lemma release_no_more s id s' b : state_wf s -> handle_release s id = Some (s', b) -> no_more s s'.
Proof.
  intros Hw Hr. destruct (lookup_handle s id) as [h|] eqn:Hl; [| unfold handle_release in Hr; by rewrite Hl in Hr].
  pose proof (rc_range _ _ _ (proj1 Hw) Hl) as Hrc. destruct (decide (rc h = 1)) as [E0 | E0].
  - destruct (release_last s id h (proj1 Hw) Hl E0) as (s1 & H1 & [D1 D2 D3 _]). rewrite H1 in Hr. injection Hr as <- <-.
    assert (Hacl : forall i, acl_of s1 i = acl_of s i \/ acl_of s1 i = None).
    { intros i. unfold acl_of. destruct (decide (i = id)) as [-> | Hne]; [right; by rewrite D2 | left; by rewrite D3]. }
    split; [| done]. split; [done|]. intros i a Ha. destruct (Hacl i) as [E1 | E1]; [| congruence].
    apply (proj2 Hw i). congruence.
  - rewrite (release_more s id h Hl ltac:(lia)) in Hr. injection Hr as <- <-. apply recount_no_more; [done | done | lia].
Qed.

(** ** Counting headroom *)

(** No reference count is within [k] of the top of its 64-bit range. *)
Definition headroom (s : handles) (k : Z) : Prop := forall id h, lookup_handle s id = Some h -> rc h + k < 2 ^ 64.

Lemma acquire_no_more s id type s' b k : state_wf s -> headroom s (k + 1) -> 0 <= k ->
  handle_lookup_and_acquire s id type = Some (s', b) ->
  no_more s s' /\ headroom s' k /\ forall i, acl_of s' i = acl_of s i.
Proof.
  intros Hw Hk H0 Ha. assert (Hlow : headroom s k) by (intros i h Hl; specialize (Hk i h Hl); lia).
  unfold handle_lookup_and_acquire in Ha. destruct (handle_get_descriptor s _) as [d|] eqn:Hd; [| injection Ha as <- <-; eauto using no_more_refl].
  destruct (_ && _); [injection Ha as <- <-; eauto using no_more_refl|].
  destruct (d_tree d !! id) as [h|] eqn:Ht; [| injection Ha as <- <-; eauto using no_more_refl].
  assert (Hl : lookup_handle s id = Some h) by (unfold lookup_handle; by rewrite Hd).
  pose proof (rc_range _ _ _ (proj1 Hw) Hl) as Hrc. pose proof (Hk _ _ Hl) as Hh.
  rewrite (acquire_ok s id h Hl ltac:(lia)) in Ha. injection Ha as <- <-. split_and!.
  - apply recount_no_more; [done | done | lia].
  - intros i h'. destruct (decide (i = id)) as [-> | Hne].
    + rewrite (lookup_store_eq _ _ _ _ Hl). intros [= <-]. simpl. lia.
    + rewrite lookup_store_ne by done. apply Hlow.
  - intros i. rewrite (acl_of_store _ _ _ _ _ Hl). destruct (decide (i = id)) as [-> |]; [| done].
    unfold acl_of. by rewrite Hl.
Qed.

Lemma acquire_target_ok s hid pid s' t : state_wf s -> headroom s 2 -> acquire_target s hid pid = Some (s', t) ->
  no_more s s' /\ (t = inr tt -> forall i, acl_of s' i = acl_of s i).
Proof.
  intros Hw Hk Ha. unfold acquire_target in Ha.
  destruct (handle_lookup_and_acquire s hid _) as [[s1 f1]|] eqn:H1; [| done].
  destruct (acquire_no_more _ _ _ _ _ 1 Hw Hk ltac:(lia) H1) as (Hm1 & Hk1 & He1). cbn [mbind option_bind] in Ha.
  destruct f1; cbn [negb] in Ha; [| by injection Ha as <- <-].
  destruct (lookup_handle s1 hid) as [h|] eqn:Hl; [| done]. cbn [mbind option_bind] in Ha.
  destruct (acl h); [| by injection Ha as <- <-].
  destruct (z2b pid); [| by injection Ha as <- <-].
  destruct (handle_lookup_and_acquire s1 pid _) as [[s2 f2]|] eqn:H2; [| done].
  destruct (acquire_no_more _ _ _ _ _ 0 (proj1 Hm1) Hk1 ltac:(lia) H2) as (Hm2 & _ & He2). cbn [mbind option_bind] in Ha.
  assert (Hm : no_more s s2) by eauto using no_more_trans.
  destruct f2; cbn [negb] in Ha.
  - injection Ha as <- <-. split; [done|]. intros _ i. by rewrite He2.
  - destruct (handle_release s2 hid) as [[s3 b]|] eqn:H3; [| done]. injection Ha as <- <-.
    split; [| done]. eapply no_more_trans; [exact Hm|]. by eapply release_no_more, H3; destruct Hm.
Qed.

Lemma release_target_ok s hid pid s' : state_wf s -> release_target s hid pid = Some s' -> no_more s s'.
Proof.
  intros Hw Hr. unfold release_target in Hr.
  assert (Hgo : forall s1, no_more s s1 -> ('(s2, _) ← handle_release s1 hid; Some s2) = Some s' -> no_more s s').
  { intros s1 Hm H. destruct (handle_release s1 hid) as [[s2 b]|] eqn:H2; [| done]. injection H as <-.
    eapply no_more_trans; [exact Hm|]. eapply release_no_more; [apply Hm | exact H2]. }
  destruct (z2b pid); [| by apply (Hgo s); [apply no_more_refl|]].
  destruct (handle_release s pid) as [[s1 b]|] eqn:H1; [| done]. apply (Hgo s1); [by eapply release_no_more | done].
Qed.

Lemma handle_acl_get_ok s id p s' out : state_wf s -> handle_acl_get s id p = Some (s', out) ->
  state_wf s' /\ (forall i key, perms_of s' i key = perms_of s i key) /\
  out = if HANDLE_ID_GET_INDEX p =? 0 then ACL_PERMISSION_MASK else perms_of s id (HANDLE_ID_GET_INDEX p).
Proof.
  intros Hw Hg. unfold handle_acl_get in Hg. destruct (lookup_handle s id) as [h|] eqn:Hl; [| done].
  destruct (acl h) as [a|] eqn:Ea; [| by cbn in Hg; rewrite Ea in Hg]. cbn [mbind option_bind] in Hg. rewrite Ea in Hg. cbn [mbind option_bind] in Hg.
  assert (Hacl : acl_of s id = Some a) by (unfold acl_of; by rewrite Hl).
  destruct (acl_get_ok a p (proj2 Hw _ _ Hacl)) as (G1 & G2 & G3). destruct (acl_get a p) as [a' o]. cbn [fst snd] in *.
  injection Hg as <- <-. split_and!.
  - eapply store_state_wf; [done | done | exact (rc_range _ _ _ (proj1 Hw) Hl) |]. by intros a0 [= <-].
  - intros i key. unfold perms_of. rewrite (acl_of_store _ _ _ _ _ Hl). destruct (decide (i = id)) as [-> |]; [| done].
    rewrite Hacl. simpl. unfold perms. by rewrite G2.
  - rewrite G3. unfold perms_of. by rewrite Hacl.
Qed.

Lemma handle_acl_set_ok s id p clear set s' : state_wf s -> handle_acl_set s id p clear set = Some s' ->
  state_wf s' /\ forall i key, perms_of s' i key = perms_of s i key \/
    i = id /\ perms_of s' i key = word_update (perms_of s i key) clear set.
Proof.
  intros Hw Hg. unfold handle_acl_set in Hg. destruct (lookup_handle s id) as [h|] eqn:Hl; [| done].
  destruct (acl h) as [a|] eqn:Ea; [| by cbn in Hg; rewrite Ea in Hg]. cbn [mbind option_bind] in Hg. rewrite Ea in Hg. cbn [mbind option_bind] in Hg.
  assert (Hacl : acl_of s id = Some a) by (unfold acl_of; by rewrite Hl).
  destruct (acl_set_ok a p clear set (proj2 Hw _ _ Hacl)) as (G1 & G2). injection Hg as <-. split.
  - eapply store_state_wf; [done | done | exact (rc_range _ _ _ (proj1 Hw) Hl) |]. by intros a0 [= <-].
  - intros i key. unfold perms_of. rewrite (acl_of_store _ _ _ _ _ Hl). destruct (decide (i = id)) as [-> |]; [| by left].
    rewrite Hacl. cbn [acl]. rewrite G2. destruct (_ || _); [by left | by right].
Qed.

(** The permissions the caller may hand out on an object. *)
Definition may_grant (s : handles) (handle_id set : Z) : Z :=
  if z2b (Z.land (process_get_id_flags st_ids me) ID_FLAG_ROOT_ACL) then set
  else if HANDLE_ID_GET_INDEX cur =? 0 then ACL_PERMISSION_MASK else perms_of s handle_id (HANDLE_ID_GET_INDEX cur).

Lemma no_more_perms s s' i key b : no_more s s' -> Z.testbit (perms_of s' i key) b = true -> Z.testbit (perms_of s i key) b = true.
Proof. intros [_ Hm] Hb. unfold perms_of in *. destruct (Hm i) as [E0 | E0]; rewrite E0 in Hb; [done|]. by rewrite Z.bits_0 in Hb. Qed.

Lemma word_update_bit f clear set b : Z.testbit (word_update f clear set) b = true ->
  Z.testbit f b = true \/ Z.testbit set b = true.
Proof. unfold word_update. rewrite Z.lor_spec, Z.land_spec. destruct (Z.testbit f b), (Z.testbit set b); auto. Qed.

Lemma acl_set_confined s hid pid clear set s' e : state_wf s -> headroom s 2 ->
  syscall_acl_set_permissions s hid pid clear set = Some (s', e) ->
  forall i key b, Z.testbit (perms_of s' i key) b = true ->
    Z.testbit (perms_of s i key) b = true \/
    (i = hid /\ Z.testbit set b = true /\ Z.testbit (may_grant s hid set) b = true).
Proof.
  intros Hw Hk Hs i key b Hb. unfold syscall_acl_set_permissions in Hs.
  destruct (z2b _) in Hs; [injection Hs as <- <-; by left|]. destruct (z2b (Z.land set _)) in Hs; [injection Hs as <- <-; by left|].
  destruct (acquire_target s hid pid) as [[s1 t]|] eqn:H1; [| done].
  destruct (acquire_target_ok _ _ _ _ _ Hw Hk H1) as [Hm1 He1]. cbn [mbind option_bind] in Hs.
  destruct t as [e1 | []]; [injection Hs as <- <-; left; by eapply no_more_perms|]. specialize (He1 eq_refl).
  assert (Hp1 : forall i key, perms_of s1 i key = perms_of s i key) by (intros; unfold perms_of; by rewrite He1).
  set (step := if negb _ then _ else _) in Hs. destruct step as [[s2 set2]|] eqn:H2; [| done]. subst step.
  assert (Hgrant : state_wf s2 /\ (forall i key, perms_of s2 i key = perms_of s i key) /\
    forall b, Z.testbit set2 b = true -> Z.testbit set b = true /\ Z.testbit (may_grant s hid set) b = true).
  { unfold may_grant. destruct (z2b (Z.land (process_get_id_flags _ _) _)); cbn [negb] in H2.
    - injection H2 as <- <-. split_and!; [apply Hm1 | done | auto].
    - destruct (handle_acl_get s1 hid cur) as [[s3 own]|] eqn:H3; [| done]. injection H2 as <- <-.
      destruct (handle_acl_get_ok _ _ _ _ _ (proj1 Hm1) H3) as (G1 & G2 & ->).
      split_and!; [done | intros; by rewrite G2 |]. intros b0. rewrite Z.land_spec, Hp1. intros Hand%andb_true_iff. done. }
  destruct Hgrant as (Hw2 & Hp2 & Hg). cbn [mbind option_bind] in Hs.
  destruct (handle_acl_set s2 hid _ clear set2) as [s3|] eqn:H3; [| done]. cbn [mbind option_bind] in Hs.
  destruct (handle_acl_set_ok _ _ _ _ _ _ Hw2 H3) as [Hw3 Hp3].
  destruct (release_target s3 hid pid) as [s4|] eqn:H4; [| done]. injection Hs as <- <-.
  apply (no_more_perms _ _ _ _ _ (release_target_ok _ _ _ _ Hw3 H4)) in Hb.
  destruct (Hp3 i key) as [E0 | [-> E0]]; rewrite E0, ?Hp2 in Hb; [by left|].
  destruct (word_update_bit _ _ _ _ Hb) as [? | Hb2]; [by left | right]. split; [done | by apply Hg].
Qed.

End Syscalls.

(** ** The properties *)

(** A thread handle type 4 with a process 0x30004 that owns an object 0x0003. *)
Definition demo_acl : acl_t := acl_set acl_create 0x30004 0 5.
Definition demo_handles : handles :=
  mk_handles (list_to_map [(3, mk_descriptor [] true 0 0 {[ 3 := mk_handle 1 (Some demo_acl); 0x10003 := mk_handle 1 None ]} 2 2);
                           (4, mk_descriptor [] true 0 0 {[ 0x30004 := mk_handle 1 None; 0x40004 := mk_handle 2 None ]} 9 2)]) 4 2 1 true [].
Definition demo_user : ids := (gid_create (uid_create init_ids 1000 [97]).1 1000 [98]).1.

Lemma demo_handles_wf : state_wf demo_handles.
Proof.
  split; [apply wf_of_entries, (bool_decide_unpack _); vm_compute; exact I|].
  intros id a Ha. unfold acl_of in Ha. destruct (lookup_handle demo_handles id) as [h|] eqn:Hl; [| done].
  simpl in Ha. unfold lookup_handle, handle_get_descriptor, demo_handles in Hl. cbn [_handle_type_tree list_to_map foldr uncurry fst snd] in Hl.
  destruct (decide (3 = HANDLE_ID_GET_TYPE id)) as [E3 | E3]; [rewrite <- E3, lookup_insert_eq in Hl | rewrite lookup_insert_ne in Hl by done].
  - simpl in Hl. apply lookup_insert_Some in Hl as [[_ <-] | [_ Hl]]; [injection Ha as <-; by apply acl_set_ok, acl_create_wf|].
    apply lookup_singleton_Some in Hl as [_ <-]. done.
  - destruct (decide (4 = HANDLE_ID_GET_TYPE id)) as [E4 | E4]; [rewrite <- E4, lookup_insert_eq in Hl | by rewrite lookup_insert_ne, lookup_empty in Hl].
    simpl in Hl. apply lookup_insert_Some in Hl as [[_ <-] | [_ Hl]]; [done|].
    apply lookup_singleton_Some in Hl as [_ <-]. done.
Qed.

Lemma headroom_of_entries s k :
  Forall (fun td => Forall (fun ih => rc ih.2 + k < 2 ^ 64) (map_to_list (d_tree td.2))) (map_to_list (_handle_type_tree s)) ->
  headroom s k.
Proof.
  intros Hall id h (d & Hd & Ht)%lookup_handle_Some. rewrite Forall_lookup in Hall.
  apply elem_of_map_to_list, list_elem_of_lookup in Hd as [i Hd]. specialize (Hall _ _ Hd). rewrite Forall_lookup in Hall.
  apply elem_of_map_to_list, list_elem_of_lookup in Ht as [j Ht]. apply (Hall _ _ Ht).
Qed.

(** C36: changing permissions cannot escalate: whatever the call returns, a
    permission some process holds afterwards on some object was held before,
    or the object is the one named in the call, the permission was asked for,
    and the caller holds it itself on that object or is privileged. *)
Theorem acl_no_escalation (process_handle_type : Z) (st_ids : ids) (cur : Z) (me : process_id)
    (s : handles) (handle_id process_handle_id clear set : Z) (s' : handles) (e : Z) :
  state_wf s -> headroom s 2 ->
  syscall_acl_set_permissions process_handle_type st_ids cur me s handle_id process_handle_id clear set = Some (s', e) ->
  forall i key b, Z.testbit (perms_of s' i key) b = true ->
    Z.testbit (perms_of s i key) b = true \/
    (i = handle_id /\ Z.testbit set b = true /\ Z.testbit (may_grant st_ids cur me s handle_id set) b = true).
Proof. apply acl_set_confined. Qed.

(** Process 0x30004 holds 5 on object 3 and tries to give 15 to process 0x40004. *)
Lemma acl_no_escalation_witness : exists s' e,
  syscall_acl_set_permissions 4 demo_user 0x30004 (mk_pid 1000 1000) demo_handles 3 0x40004 0 15 = Some (s', e) /\
  forall i key b, Z.testbit (perms_of s' i key) b = true ->
    Z.testbit (perms_of demo_handles i key) b = true \/
    (i = 3 /\ Z.testbit 15 b = true /\ Z.testbit (may_grant demo_user 0x30004 (mk_pid 1000 1000) demo_handles 3 15) b = true).
Proof.
  destruct (syscall_acl_set_permissions 4 demo_user 0x30004 (mk_pid 1000 1000) demo_handles 3 0x40004 0 15) as [[s' e]|] eqn:E0;
    [| vm_compute in E0; discriminate].
  exists s', e. split; [reflexivity|].
  apply (acl_no_escalation 4 demo_user 0x30004 (mk_pid 1000 1000) demo_handles 3 0x40004 0 15 s' e).
  - exact demo_handles_wf.
  - apply headroom_of_entries, (bool_decide_unpack _). vm_compute. exact I.
  - exact E0.
Defined.

(** A permission call on an object without a list fails with [ERROR_NO_ACL]
    but keeps the reference it took: the count of the object is one higher
    after every such call, so its owner's last release no longer deletes it. *)
Theorem acl_no_list_leak (process_handle_type : Z) (st_ids : ids) (cur : Z) (me : process_id)
    (s : handles) (id process_handle_id : Z) (h : handle_t) :
  lookup_handle s id = Some h -> acl h = None -> 0 < rc h < 2 ^ 64 - 1 ->
  exists s', syscall_acl_get_permissions process_handle_type cur s id process_handle_id = Some (s', ERROR_NO_ACL)
    /\ syscall_acl_set_permissions process_handle_type st_ids cur me s id process_handle_id 0 0 = Some (s', ERROR_NO_ACL)
    /\ lookup_handle s' id = Some (mk_handle (rc h + 1) None)
    /\ (rc h = 1 -> exists s'', handle_release s' id = Some (s'', true)).
Proof.
  intros Hl Ha Hr. destruct (lookup_handle_Some _ _ _ Hl) as (d & Hd & Ht).
  set (s1 := store_handle s id (mk_handle (rc h + 1) (acl h))).
  assert (Hl1 : lookup_handle s1 id = Some (mk_handle (rc h + 1) None)) by (rewrite <- Ha; by eapply lookup_store_eq).
  assert (Hacq : acquire_target process_handle_type s id process_handle_id = Some (s1, inl ERROR_NO_ACL)).
  { unfold acquire_target, handle_lookup_and_acquire, handle_get_descriptor. rewrite Hd. cbn [Z.eqb HANDLE_TYPE_ANY negb andb].
    rewrite Ht, (acquire_ok s id h Hl Hr). cbn [mbind option_bind negb]. fold s1. by rewrite Hl1. }
  exists s1. unfold syscall_acl_get_permissions, syscall_acl_set_permissions. rewrite Hacq. split_and!; [done | done | done |].
  intros E0. rewrite (release_more s1 id _ Hl1) by (simpl; lia). eauto.
Qed.

Lemma acl_no_list_leak_witness : exists s',
  syscall_acl_get_permissions 4 0x30004 demo_handles 0x10003 0 = Some (s', ERROR_NO_ACL)
    /\ syscall_acl_set_permissions 4 demo_user 0x30004 (mk_pid 1000 1000) demo_handles 0x10003 0 0 0 = Some (s', ERROR_NO_ACL)
    /\ lookup_handle s' 0x10003 = Some (mk_handle (1 + 1) None)
    /\ (1 = 1 -> exists s'', handle_release s' 0x10003 = Some (s'', true)).
Proof.
  apply (acl_no_list_leak 4 demo_user 0x30004 (mk_pid 1000 1000) demo_handles 0x10003 0 (mk_handle 1 None)).
  - vm_compute. reflexivity.
  - reflexivity.
  - simpl. lia.
Defined.
