(* ===== verification/Pmm.v ===== *)
(** * The physical memory manager: kernel/memory/pmm.

    A buddy allocator.  Physical memory is divided into regions of 2^28 bytes,
    each with its own allocator; an allocator keeps sixteen doubly linked lists
    of free blocks of 2^0 .. 2^15 pages, threaded through an array with one
    descriptor per page.  A descriptor packs the address of the previous block
    of the list with the size index of the block, the size index of the block
    before it in memory, a cache flag and a lock bit.  The model follows the
    release build (KERNEL_RELEASE); [None] stands for a panic or for a loop
    that does not end within the given fuel. *)
From stdpp Require Import base tactics list numbers option.
From Stdlib Require Import ZArith Lia.
From S2P Require Import Prelude.
#[local] Open Scope Z_scope.

(** ** Constants and data (pmm.h) *)

Definition PAGE_SIZE : Z := 4096.
Definition PAGE_SIZE_SHIFT : Z := 12.
Definition PMM_ALLOCATOR_BUCKET_COUNT : Z := 16.
Definition PMM_ALLOCATOR_BUCKET_COUNT_MASK_SHIFT : Z := 5.
Definition PMM_ALLOCATOR_BUCKET_COUNT_MASK : Z := Z.shiftl 1 PMM_ALLOCATOR_BUCKET_COUNT_MASK_SHIFT - 1.
Definition PMM_ALLOCATOR_MAX_REGION_SIZE_SHIFT : Z := PMM_ALLOCATOR_BUCKET_COUNT + PAGE_SIZE_SHIFT.
Definition PMM_ALLOCATOR_BLOCK_DESCRIPTOR_FLAG_IS_CACHE : Z := Z.shiftl 1 (Z.shiftl PMM_ALLOCATOR_BUCKET_COUNT_MASK_SHIFT 1).
Definition PMM_ALLOCATOR_BLOCK_DESCRIPTOR_INDEX_USED : Z := PMM_ALLOCATOR_BUCKET_COUNT_MASK.
Definition PMM_LOW_ALLOCATOR_LIMIT : Z := 0x40000000.
Definition COOKIE_PAGE_DIRTY : Z := 0.
Definition COOKIE_PAGE_CLEAN : Z := 1.

Record pmm_block_descriptor_t := mk_block { bd_data : Z; bd_next : Z; bd_cookie : Z }.
Record pmm_allocator_bucket_t := mk_bucket { head : Z; tail : Z }.
Record pmm_allocator_t := mk_allocator { buckets : list pmm_allocator_bucket_t; bucket_bitmap : Z }.

(** The descriptor array is indexed by page number; [memory] is physical memory
    in 64-bit words, by word number. *)
Record pmm_t := mk_pmm {
  _pmm_allocators : list pmm_allocator_t;
  _pmm_block_descriptors : Z -> pmm_block_descriptor_t;
  memory : Z -> Z;
  balancer_index : Z
}.

(** ** Descriptors *)

Definition _get_block_size (index : Z) : Z := u64 (Z.shiftl 1 (PAGE_SIZE_SHIFT + index)).

Definition page (address : Z) : Z := Z.shiftr address PAGE_SIZE_SHIFT.

Definition _get_block_descriptor (s : pmm_t) (address : Z) : pmm_block_descriptor_t := _pmm_block_descriptors s (page address).

Definition set_descriptor (s : pmm_t) (address : Z) (d : pmm_block_descriptor_t) : pmm_t :=
  mk_pmm (_pmm_allocators s) (fun p => if p =? page address then d else _pmm_block_descriptors s p) (memory s) (balancer_index s).

Definition set_data (d : pmm_block_descriptor_t) (x : Z) : pmm_block_descriptor_t := mk_block x (bd_next d) (bd_cookie d).
Definition set_next (d : pmm_block_descriptor_t) (x : Z) : pmm_block_descriptor_t := mk_block (bd_data d) x (bd_cookie d).

Definition _block_descriptor_deinit (s : pmm_t) (address : Z) : pmm_t :=
  let d := _get_block_descriptor s address in
  set_descriptor s address (set_data d (Z.lor (bd_data d) PMM_ALLOCATOR_BLOCK_DESCRIPTOR_INDEX_USED)).

Definition _block_descriptor_init (s : pmm_t) (address prev idx : Z) : pmm_t :=
  let d := _get_block_descriptor s address in
  set_descriptor s address
    (mk_block (Z.lor (Z.lor prev (Z.land (Z.land (bd_data d) (PAGE_SIZE - 1)) (lnot_w 64 PMM_ALLOCATOR_BUCKET_COUNT_MASK))) idx)
       0 (bd_cookie d)).

Definition _block_descriptor_get_idx (s : pmm_t) (address : Z) : Z :=
  Z.land (bd_data (_get_block_descriptor s address)) PMM_ALLOCATOR_BUCKET_COUNT_MASK.

Definition _block_descriptor_get_prev_idx (s : pmm_t) (address : Z) : Z :=
  Z.land (Z.shiftr (bd_data (_get_block_descriptor s address)) PMM_ALLOCATOR_BUCKET_COUNT_MASK_SHIFT) PMM_ALLOCATOR_BUCKET_COUNT_MASK.

Definition _block_descriptor_get_prev (s : pmm_t) (address : Z) : Z :=
  Z.land (bd_data (_get_block_descriptor s address)) (lnot_w 64 (PAGE_SIZE - 1)).

Definition _block_descriptor_set_prev_idx (s : pmm_t) (address prev_idx : Z) : pmm_t :=
  let d := _get_block_descriptor s address in
  set_descriptor s address
    (set_data d (Z.lor (Z.land (bd_data d) (lnot_w 64 (Z.shiftl PMM_ALLOCATOR_BUCKET_COUNT_MASK PMM_ALLOCATOR_BUCKET_COUNT_MASK_SHIFT)))
                       (Z.shiftl prev_idx PMM_ALLOCATOR_BUCKET_COUNT_MASK_SHIFT))).

Definition _block_descriptor_set_prev (s : pmm_t) (address prev : Z) : pmm_t :=
  let d := _get_block_descriptor s address in
  set_descriptor s address (set_data d (Z.lor (Z.land (bd_data d) (PAGE_SIZE - 1)) prev)).

Definition set_block_next (s : pmm_t) (address next : Z) : pmm_t :=
  set_descriptor s address (set_next (_get_block_descriptor s address) next).

(** ** Allocators *)

Definition allocator_of (address : Z) : nat := Z.to_nat (Z.shiftr address PMM_ALLOCATOR_MAX_REGION_SIZE_SHIFT).

Definition no_allocator : pmm_allocator_t := mk_allocator [] 0.
Definition get_allocator (s : pmm_t) (k : nat) : pmm_allocator_t := nth k (_pmm_allocators s) no_allocator.
Definition get_bucket (s : pmm_t) (k : nat) (idx : Z) : pmm_allocator_bucket_t :=
  nth (Z.to_nat idx) (buckets (get_allocator s k)) (mk_bucket 0 0).

Definition set_allocator (s : pmm_t) (k : nat) (a : pmm_allocator_t) : pmm_t :=
  mk_pmm (<[k := a]> (_pmm_allocators s)) (_pmm_block_descriptors s) (memory s) (balancer_index s).

Definition set_bucket (s : pmm_t) (k : nat) (idx : Z) (b : pmm_allocator_bucket_t) : pmm_t :=
  set_allocator s k (mk_allocator (<[Z.to_nat idx := b]> (buckets (get_allocator s k))) (bucket_bitmap (get_allocator s k))).
Definition set_head (s : pmm_t) (k : nat) (idx h : Z) : pmm_t := set_bucket s k idx (mk_bucket h (tail (get_bucket s k idx))).
Definition set_tail (s : pmm_t) (k : nat) (idx t : Z) : pmm_t := set_bucket s k idx (mk_bucket (head (get_bucket s k idx)) t).
Definition set_bitmap (s : pmm_t) (k : nat) (b : Z) : pmm_t := set_allocator s k (mk_allocator (buckets (get_allocator s k)) b).

Definition bitmap_set (s : pmm_t) (k : nat) (idx : Z) : pmm_t :=
  set_bitmap s k (wrap 16 (Z.lor (bucket_bitmap (get_allocator s k)) (Z.shiftl 1 idx))).
Definition bitmap_clear (s : pmm_t) (k : nat) (idx : Z) : pmm_t :=
  set_bitmap s k (wrap 16 (Z.land (bucket_bitmap (get_allocator s k)) (lnot_w 32 (Z.shiftl 1 idx)))).

(** Append a block to the list of its size; [_add_memory_range] and
    [pmm_dealloc] contain the same statements. *)
Definition push_block (s : pmm_t) (k : nat) (address idx : Z) : pmm_t :=
  let s := _block_descriptor_set_prev_idx s (address + _get_block_size idx) idx in
  let s := _block_descriptor_init s address (tail (get_bucket s k idx)) idx in
  let s := if z2b (tail (get_bucket s k idx)) then set_block_next s (tail (get_bucket s k idx)) address
           else set_head s k idx address in
  let s := set_tail s k idx address in
  bitmap_set s k idx.

(** ** Registering memory *)

Definition clz64 (x : Z) : Z := 63 - Z.log2 x.
Definition clamp_idx (idx : Z) : Z := if PMM_ALLOCATOR_BUCKET_COUNT <=? idx then PMM_ALLOCATOR_BUCKET_COUNT - 1 else idx.

Fixpoint add_range_loop (fuel : nat) (s : pmm_t) (address end_ : Z) : option pmm_t :=
  match fuel with
  | O => None
  | S fuel =>
      let idx := clamp_idx (u32 (ctz address - PAGE_SIZE_SHIFT)) in
      let length := u64 (end_ - address) in
      let idx := if length <? _get_block_size idx then clamp_idx (u32 (63 - clz64 length - PAGE_SIZE_SHIFT)) else idx in
      let s := push_block s (allocator_of address) address idx in
      let address := u64 (address + _get_block_size idx) in
      if address <? end_ then add_range_loop fuel s address end_ else Some s
  end.

Definition _add_memory_range (fuel : nat) (s : pmm_t) (address end_ : Z) : option pmm_t :=
  if end_ <=? address then Some s else add_range_loop fuel s address end_.

(** ** Allocation *)

(** The size index of a request for [count] pages. *)
Definition request_index (count : Z) : Z := 63 - clz64 count + b2z (z2b (Z.land count (u64 (count - 1)))).

(** The load balancer: the first allocator, from its index on, that has a block
    large enough. *)
Fixpoint balance (fuel : nat) (s : pmm_t) (i : Z) : option (pmm_t * Z) :=
  match fuel with
  | O => None
  | S fuel =>
      let index := balancer_index s in
      let count := Z.of_nat (length (_pmm_allocators s)) in
      let next := u32 (index + 1) in
      let next := if count <=? next then u32 (next - count) else next in
      let s := mk_pmm (_pmm_allocators s) (_pmm_block_descriptors s) (memory s) next in
      if z2b (Z.shiftr (bucket_bitmap (get_allocator s (Z.to_nat index))) i) then Some (s, index) else balance fuel s i
  end.

(** The [_retry_allocator] loop; [None] also when every allocator was tried. *)
Fixpoint retry_allocator (fuel : nat) (s : pmm_t) (i wrap_ base index : Z) : option Z :=
  match fuel with
  | O => None
  | S fuel =>
      if z2b (Z.shiftr (bucket_bitmap (get_allocator s (Z.to_nat index))) i) then Some index
      else
        let index := Z.land (u32 (index + 1)) wrap_ in
        let index := if index =? Z.of_nat (length (_pmm_allocators s)) then 0 else index in
        if index =? base then None else retry_allocator fuel s i wrap_ base index
  end.

(** Split a block of index [j] down to index [i], freeing the upper halves. *)
Fixpoint split_block (n : nat) (s : pmm_t) (k : nat) (out j : Z) : pmm_t :=
  match n with
  | O => s
  | S n =>
      let j := j - 1 in
      let b := out + _get_block_size j in
      let s := _block_descriptor_set_prev_idx s (b + _get_block_size j) j in
      let s := _block_descriptor_init s b 0 j in
      let s := set_bucket s k j (mk_bucket b b) in
      let s := bitmap_set s k j in
      split_block n s k out j
  end.

(** Take the first block of the list [j]. *)
Definition pop_block (s : pmm_t) (k : nat) (j : Z) : pmm_t * Z :=
  let out := head (get_bucket s k j) in
  let s := set_head s k j (bd_next (_get_block_descriptor s out)) in
  let s := if negb (z2b (head (get_bucket s k j))) then bitmap_clear (set_tail s k j 0) k j
           else _block_descriptor_set_prev s (head (get_bucket s k j)) 0 in
  (_block_descriptor_deinit s out, out).

(** Zero a page. *)
Definition clear_page (s : pmm_t) (address : Z) : pmm_t :=
  mk_pmm (_pmm_allocators s) (_pmm_block_descriptors s)
    (fun w => if (Z.shiftr address 3 <=? w) && (w <? Z.shiftr address 3 + PAGE_SIZE / 8) then 0 else memory s w) (balancer_index s).

(** Hand out the page at [address]: clean pages are zero already. *)
Definition prepare_page (s : pmm_t) (address : Z) : option pmm_t :=
  let d := _get_block_descriptor s address in
  let d := if z2b (Z.land (bd_data d) PMM_ALLOCATOR_BLOCK_DESCRIPTOR_FLAG_IS_CACHE)
           then mk_block (Z.land (bd_data d) (lnot_w 64 PMM_ALLOCATOR_BLOCK_DESCRIPTOR_FLAG_IS_CACHE)) (bd_next d) COOKIE_PAGE_DIRTY
           else d in
  let s := set_descriptor s address d in
  if bd_cookie d =? COOKIE_PAGE_CLEAN then Some s
  else if bd_cookie d =? COOKIE_PAGE_DIRTY then Some (clear_page s address)
  else None.

Fixpoint prepare_pages (n : nat) (s : pmm_t) (address : Z) : option pmm_t :=
  match n with
  | O => Some s
  | S n => s ← prepare_page s address; prepare_pages n s (address + PAGE_SIZE)
  end.

(** The counter of the caller is returned with the address. *)
Definition pmm_alloc (fuel : nat) (s : pmm_t) (count counter : Z) (low_memory : bool) : option (pmm_t * Z * Z) :=
  if count =? 0 then None
  else
    let i := request_index count in
    if PMM_ALLOCATOR_BUCKET_COUNT <=? i then None
    else
      '(s, index) ← balance fuel s i;
      let wrap_ := if low_memory then PMM_LOW_ALLOCATOR_LIMIT / 2 ^ PMM_ALLOCATOR_MAX_REGION_SIZE_SHIFT - 1 else 0xffffffff in
      let index := Z.land index wrap_ in
      index ← retry_allocator fuel s i wrap_ index index;
      let k := Z.to_nat index in
      let j := ctz (Z.shiftr (bucket_bitmap (get_allocator s k)) i) + 1 + i - 1 in
      let '(s, out) := pop_block s k j in
      let s := _block_descriptor_set_prev_idx s (out + _get_block_size i) i in
      let s := split_block (Z.to_nat (j - i)) s k out j in
      s ← prepare_pages (Z.to_nat (Z.shiftr (_get_block_size i) PAGE_SIZE_SHIFT)) s out;
      Some (s, u64 (counter + Z.shiftr (_get_block_size i) PAGE_SIZE_SHIFT), out).

(** ** Deallocation *)

Fixpoint dirty_pages (n : nat) (s : pmm_t) (address : Z) : pmm_t :=
  match n with
  | O => s
  | S n =>
      let d := _get_block_descriptor s address in
      dirty_pages n (set_descriptor s address (mk_block (bd_data d) (bd_next d) COOKIE_PAGE_DIRTY)) (address + PAGE_SIZE)
  end.

(** Unlink the free block [buddy] from the list [i]. *)
Definition unlink_block (s : pmm_t) (k : nat) (buddy i : Z) : pmm_t :=
  let buddy_prev := _block_descriptor_get_prev s buddy in
  let buddy_next := bd_next (_get_block_descriptor s buddy) in
  let s := _block_descriptor_deinit s buddy in
  let s := if z2b buddy_prev then set_block_next s buddy_prev buddy_next
           else let s := set_head s k i buddy_next in
                if negb (z2b buddy_next) then bitmap_clear s k i else s in
  if z2b buddy_next then _block_descriptor_set_prev s buddy_next buddy_prev else set_tail s k i buddy_prev.

(** Merge the block with free buddies: at most one step per size. *)
Fixpoint coalesce (n : nat) (s : pmm_t) (k : nat) (address i : Z) : pmm_t * Z * Z :=
  match n with
  | O => (s, address, i)
  | S n =>
      if z2b (Z.land address (_get_block_size i)) && negb (_block_descriptor_get_prev_idx s address =? i) then (s, address, i)
      else
        let buddy := Z.lxor address (_get_block_size i) in
        if negb (_block_descriptor_get_idx s buddy =? i) then (s, address, i)
        else coalesce n (unlink_block s k buddy i) k (Z.land address (lnot_w 64 (_get_block_size i))) (i + 1)
  end.

Definition pmm_dealloc (s : pmm_t) (address count counter : Z) : option (pmm_t * Z) :=
  if count =? 0 then None
  else
    let i := request_index count in
    if PMM_ALLOCATOR_BUCKET_COUNT <=? i then None
    else
      let s := dirty_pages (Z.to_nat (Z.shiftr (_get_block_size i) PAGE_SIZE_SHIFT)) s address in
      let counter := u64 (counter - Z.shiftr (_get_block_size i) PAGE_SIZE_SHIFT) in
      let k := allocator_of address in
      let '(s, address, i) := coalesce (Z.to_nat (PMM_ALLOCATOR_BUCKET_COUNT - 1 - i)) s k address i in
      Some (push_block s k address i, counter).

(** ** The background thread that clears free pages *)

Definition reset_page (s : pmm_t) (address : Z) : pmm_t :=
  let d := _get_block_descriptor s address in
  if negb (z2b (Z.land (bd_data d) PMM_ALLOCATOR_BLOCK_DESCRIPTOR_FLAG_IS_CACHE)) && (bd_cookie d =? COOKIE_PAGE_DIRTY)
  then set_descriptor (clear_page s address) address (mk_block (bd_data d) (bd_next d) COOKIE_PAGE_CLEAN)
  else s.

Fixpoint reset_block (n : nat) (s : pmm_t) (address : Z) : pmm_t :=
  match n with O => s | S n => reset_block n (reset_page s address) (address + PAGE_SIZE) end.

(** One pass over a list: it stops at the first block that has left the list. *)
Fixpoint reset_bucket (fuel : nat) (s : pmm_t) (address bucket_index : Z) : pmm_t :=
  match fuel with
  | O => s
  | S fuel =>
      if address =? 0 then s
      else
        let next := bd_next (_get_block_descriptor s address) in
        if negb (_block_descriptor_get_idx s address =? bucket_index) then s
        else reset_bucket fuel (reset_block (Z.to_nat (Z.shiftr (_get_block_size bucket_index) PAGE_SIZE_SHIFT)) s address) next bucket_index
  end.

(** Two regions of which the pages 1 to 1023 of the first and four pages of the second are registered. *)
Definition empty_allocator : pmm_allocator_t := mk_allocator (replicate 16 (mk_bucket 0 0)) 0.
Definition empty_pmm (n : nat) : pmm_t :=
  mk_pmm (replicate n empty_allocator) (fun _ => mk_block PMM_ALLOCATOR_BLOCK_DESCRIPTOR_INDEX_USED 0 COOKIE_PAGE_DIRTY) (fun _ => 0xde) 0.

Example pmm_demo :
  (s ← _add_memory_range 40 (empty_pmm 2) 0x1000 0x400000;
   '(s', c, a) ← pmm_alloc 4 s 3 0 false;
   '(s'', c') ← pmm_dealloc s' a 3 c;
   Some (a, c, c', bucket_bitmap (get_allocator s' 0), bucket_bitmap (get_allocator s'' 0),
     map (fun j => head (get_bucket s'' 0 j)) [0; 1; 2; 3]))
  = Some (0x4000, 4, 0, 0x3fb, 0x3ff, [0x1000; 0x2000; 0x4000; 0x8000]).
Proof. vm_compute. reflexivity. Qed.
