(* ===== verification/PmmView.v ===== *)
(** * Descriptors of the physical memory manager, decoded.

    The free lists only depend on three fields of a descriptor: the previous
    and next block of the list and the size index.  This file computes these
    fields after every operation on descriptors and allocators. *)
From stdpp Require Import base tactics list numbers option.
From Stdlib Require Import ZArith Lia.
From S2P Require Import Prelude Pmm.
#[local] Open Scope Z_scope.

Definition prev_of (s : pmm_t) (a : Z) : Z := _block_descriptor_get_prev s a.
Definition idx_of (s : pmm_t) (a : Z) : Z := _block_descriptor_get_idx s a.
Definition next_of (s : pmm_t) (a : Z) : Z := bd_next (_get_block_descriptor s a).

(** Addresses of pages, and 64-bit descriptor words. *)
Definition paged (a : Z) : Prop := 0 <= a < 2 ^ 64 /\ a mod 4096 = 0.
Definition data_ok (s : pmm_t) : Prop := forall p, 0 <= bd_data (_pmm_block_descriptors s p) < 2 ^ 64.

(** ** Bits of the packed word *)

Lemma ones5 i : 0 <= i -> Z.testbit PMM_ALLOCATOR_BUCKET_COUNT_MASK i = (i <? 5).
Proof.
  intros Hi. change PMM_ALLOCATOR_BUCKET_COUNT_MASK with (Z.ones 5). rewrite Z.testbit_ones by lia.
  by rewrite (proj2 (Z.leb_le 0 i)) by lia.
Qed.

Lemma ones12 i : 0 <= i -> Z.testbit (PAGE_SIZE - 1) i = (i <? 12).
Proof.
  intros Hi. change (PAGE_SIZE - 1) with (Z.ones 12). rewrite Z.testbit_ones by lia. by rewrite (proj2 (Z.leb_le 0 i)) by lia.
Qed.

Lemma paged_bits a i : paged a -> 0 <= i -> Z.testbit a i = Z.testbit a i && negb (i <? 12) && (i <? 64).
Proof.
  intros [Hr Hm] Hi. destruct (Z.ltb_spec i 12); cbn [negb].
  - rewrite andb_false_r. replace a with (a / 2 ^ 12 * 2 ^ 12).
    + by rewrite Z.mul_pow2_bits_low by lia.
    + change (2 ^ 12) with 4096. pose proof (Z.div_mod a 4096). lia.
  - destruct (Z.ltb_spec i 64); cbn [andb]; rewrite ?andb_true_r, ?andb_false_r; [done|]. apply (word_high 64); [lia | lia].
Qed.

Lemma lnot64_bit x i : 0 <= i -> Z.testbit (lnot_w 64 x) i = negb (Z.testbit x i) && (i <? 64).
Proof.
  intros Hi. destruct (Z.ltb_spec i 64); [by rewrite lnot_testbit, andb_true_r by lia|]. rewrite andb_false_r.
  apply (word_high 64); [| lia]. unfold lnot_w. pose proof (wrap_width 64 x ltac:(lia)) as H1.
  unfold is_width in H1. change (Z.ones 64) with (2 ^ 64 - 1). lia.
Qed.

Lemma small_bit x n i : 0 <= x < 2 ^ n -> Z.testbit x i = Z.testbit x i && (i <? n).
Proof. intros Hx. destruct (Z.ltb_spec i n); [by rewrite andb_true_r|]. rewrite andb_false_r. by apply (word_high n). Qed.

Lemma shl5_bit x i : 0 <= i -> 0 <= x < 2 ^ 5 -> Z.testbit (Z.shiftl x PMM_ALLOCATOR_BUCKET_COUNT_MASK_SHIFT) i =
  Z.testbit x (i - 5) && negb (i <? 5) && (i <? 10).
Proof.
  intros Hi Hx. rewrite Z.shiftl_spec by lia. unfold PMM_ALLOCATOR_BUCKET_COUNT_MASK_SHIFT.
  destruct (Z.ltb_spec i 5); cbn [negb]; [rewrite andb_false_r; by rewrite Z.testbit_neg_r by lia|].
  destruct (Z.ltb_spec i 10); rewrite ?andb_true_r, ?andb_false_r; [done|]. apply (word_high 5); lia.
Qed.

Lemma mask_range : 0 <= PMM_ALLOCATOR_BUCKET_COUNT_MASK < 2 ^ 5.
Proof. change PMM_ALLOCATOR_BUCKET_COUNT_MASK with 31. lia. Qed.

(** Prove an equation between words field by field. *)
Ltac bitwise i :=
  apply Z.bits_inj'; intros i ?Hi; repeat (rewrite Z.land_spec || rewrite Z.lor_spec);
  rewrite ?lnot64_bit by lia; rewrite ?shl5_bit by (lia || exact mask_range); rewrite ?(ones12 i) by lia; rewrite ?(ones5 i) by lia.

Ltac bit_cases i :=
  destruct (Z.ltb_spec i 5), (Z.ltb_spec i 10), (Z.ltb_spec i 12), (Z.ltb_spec i 64); try lia;
  cbn [andb negb orb]; rewrite ?andb_false_r, ?andb_true_r, ?orb_false_r; cbn [andb orb]; try done; try (by rewrite ?orb_true_r).

Section Words.
Variables x : Z.
Hypothesis Hx : 0 <= x < 2 ^ 64.

Lemma deinit_idx : Z.land (Z.lor x PMM_ALLOCATOR_BLOCK_DESCRIPTOR_INDEX_USED) PMM_ALLOCATOR_BUCKET_COUNT_MASK = 31.
Proof. change 31 with PMM_ALLOCATOR_BUCKET_COUNT_MASK. unfold PMM_ALLOCATOR_BLOCK_DESCRIPTOR_INDEX_USED. bitwise i. bit_cases i. Qed.

Lemma deinit_prev : Z.land (Z.lor x PMM_ALLOCATOR_BLOCK_DESCRIPTOR_INDEX_USED) (lnot_w 64 (PAGE_SIZE - 1)) =
  Z.land x (lnot_w 64 (PAGE_SIZE - 1)).
Proof. unfold PMM_ALLOCATOR_BLOCK_DESCRIPTOR_INDEX_USED. bitwise i. bit_cases i. Qed.

Variables prev idx : Z.
Hypothesis Hprev : paged prev.
Hypothesis Hidx : 0 <= idx < 2 ^ 5.

Definition init_word : Z :=
  Z.lor (Z.lor prev (Z.land (Z.land x (PAGE_SIZE - 1)) (lnot_w 64 PMM_ALLOCATOR_BUCKET_COUNT_MASK))) idx.
Definition prev_idx_word : Z :=
  Z.lor (Z.land x (lnot_w 64 (Z.shiftl PMM_ALLOCATOR_BUCKET_COUNT_MASK PMM_ALLOCATOR_BUCKET_COUNT_MASK_SHIFT)))
    (Z.shiftl idx PMM_ALLOCATOR_BUCKET_COUNT_MASK_SHIFT).
Definition prev_word : Z := Z.lor (Z.land x (PAGE_SIZE - 1)) prev.

Lemma init_idx : Z.land init_word PMM_ALLOCATOR_BUCKET_COUNT_MASK = idx.
Proof.
  unfold init_word. bitwise i. rewrite (paged_bits prev) by (done || lia). rewrite (small_bit idx 5) by done. bit_cases i.
Qed.

Lemma init_prev : Z.land init_word (lnot_w 64 (PAGE_SIZE - 1)) = prev.
Proof.
  unfold init_word. bitwise i. rewrite (paged_bits prev) by (done || lia). rewrite (small_bit idx 5) by done. bit_cases i.
Qed.

Lemma prev_idx_idx : Z.land prev_idx_word PMM_ALLOCATOR_BUCKET_COUNT_MASK = Z.land x PMM_ALLOCATOR_BUCKET_COUNT_MASK.
Proof. unfold prev_idx_word. bitwise i. bit_cases i. Qed.

Lemma prev_idx_prev : Z.land prev_idx_word (lnot_w 64 (PAGE_SIZE - 1)) = Z.land x (lnot_w 64 (PAGE_SIZE - 1)).
Proof. unfold prev_idx_word. bitwise i. bit_cases i. Qed.

Lemma prev_word_idx : Z.land prev_word PMM_ALLOCATOR_BUCKET_COUNT_MASK = Z.land x PMM_ALLOCATOR_BUCKET_COUNT_MASK.
Proof. unfold prev_word. bitwise i. rewrite (paged_bits prev) by (done || lia). bit_cases i. Qed.

Lemma prev_word_prev : Z.land prev_word (lnot_w 64 (PAGE_SIZE - 1)) = prev.
Proof. unfold prev_word. bitwise i. rewrite (paged_bits prev) by (done || lia). bit_cases i. Qed.

Lemma deinit_range : 0 <= Z.lor x PMM_ALLOCATOR_BLOCK_DESCRIPTOR_INDEX_USED < 2 ^ 64.
Proof.
  apply width_of_bits; [lia|]. intros i Hi. unfold PMM_ALLOCATOR_BLOCK_DESCRIPTOR_INDEX_USED.
  rewrite Z.lor_spec, ones5, (word_high 64 x) by lia. by apply Z.ltb_ge; lia.
Qed.

Lemma init_range : 0 <= init_word < 2 ^ 64.
Proof.
  apply width_of_bits; [lia|]. intros i Hi. unfold init_word. destruct Hprev as [Hp _].
  rewrite !Z.lor_spec, !Z.land_spec, (word_high 64 x), (word_high 64 prev), (word_high 5 idx) by lia. done.
Qed.

Lemma prev_idx_range : 0 <= prev_idx_word < 2 ^ 64.
Proof.
  apply width_of_bits; [lia|]. intros i Hi. unfold prev_idx_word.
  rewrite Z.lor_spec, Z.land_spec, (word_high 64 x), shl5_bit by (lia || done). simpl. bit_cases i.
Qed.

Lemma prev_word_range : 0 <= prev_word < 2 ^ 64.
Proof.
  apply width_of_bits; [lia|]. intros i Hi. unfold prev_word. destruct Hprev as [Hp _].
  by rewrite Z.lor_spec, Z.land_spec, (word_high 64 x), (word_high 64 prev) by lia.
Qed.
End Words.

(** ** Fields after each operation on descriptors *)

Lemma page_inj a b : paged a -> paged b -> page a = page b -> a = b.
Proof.
  intros [_ Ha] [_ Hb]. unfold page, PAGE_SIZE_SHIFT. rewrite !Z.shiftr_div_pow2 by lia. change (2 ^ 12) with 4096.
  pose proof (Z.div_mod a 4096). pose proof (Z.div_mod b 4096). lia.
Qed.

Lemma get_set_descriptor s a d b : paged a -> paged b ->
  _get_block_descriptor (set_descriptor s a d) b = if decide (b = a) then d else _get_block_descriptor s b.
Proof.
  intros Ha Hb. unfold _get_block_descriptor, set_descriptor. simpl. destruct (decide (b = a)) as [-> | Hne]; [by rewrite Z.eqb_refl|].
  destruct (Z.eqb_spec (page b) (page a)) as [E0 | E0]; [| done]. destruct Hne. by apply page_inj.
Qed.

Definition view (s : pmm_t) (b : Z) : Z * Z * Z := (prev_of s b, idx_of s b, next_of s b).

Lemma data_ok_set s a d : data_ok s -> 0 <= bd_data d < 2 ^ 64 -> data_ok (set_descriptor s a d).
Proof. intros Hs Hd p. unfold set_descriptor. simpl. destruct (p =? page a); [done | apply Hs]. Qed.

Section View.
Variables (s : pmm_t) (a b : Z).
Hypothesis Hs : data_ok s.
Hypothesis Ha : paged a.
Hypothesis Hb : paged b.

Lemma desc_ok : 0 <= bd_data (_get_block_descriptor s a) < 2 ^ 64.
Proof. apply Hs. Qed.

Ltac fields := unfold view, prev_of, idx_of, next_of, _block_descriptor_get_prev, _block_descriptor_get_idx;
  rewrite get_set_descriptor by done; destruct (decide (b = a)) as [-> |]; [| done]; cbn [bd_data bd_next set_data set_next].

Lemma view_deinit : view (_block_descriptor_deinit s a) b =
  if decide (b = a) then (prev_of s a, 31, next_of s a) else view s b.
Proof. unfold _block_descriptor_deinit. fields. by rewrite deinit_idx, deinit_prev. Qed.

Lemma view_init prev idx : paged prev -> 0 <= idx < 2 ^ 5 ->
  view (_block_descriptor_init s a prev idx) b = if decide (b = a) then (prev, idx, 0) else view s b.
Proof.
  intros Hp Hi. unfold _block_descriptor_init. fields.
  fold (init_word (bd_data (_get_block_descriptor s a)) prev idx).
  by rewrite init_idx, init_prev by done.
Qed.

Lemma view_set_prev_idx idx : 0 <= idx < 2 ^ 5 -> view (_block_descriptor_set_prev_idx s a idx) b = view s b.
Proof.
  intros Hi. unfold _block_descriptor_set_prev_idx. fields.
  fold (prev_idx_word (bd_data (_get_block_descriptor s a)) idx).
  by rewrite prev_idx_idx, prev_idx_prev by done.
Qed.

Lemma view_set_prev prev : paged prev -> view (_block_descriptor_set_prev s a prev) b =
  if decide (b = a) then (prev, idx_of s a, next_of s a) else view s b.
Proof.
  intros Hp. unfold _block_descriptor_set_prev. fields.
  fold (prev_word (bd_data (_get_block_descriptor s a)) prev).
  by rewrite prev_word_idx, prev_word_prev by done.
Qed.

Lemma view_set_next next : view (set_block_next s a next) b =
  if decide (b = a) then (prev_of s a, idx_of s a, next) else view s b.
Proof. unfold set_block_next. by fields. Qed.

Lemma ok_deinit : data_ok (_block_descriptor_deinit s a).
Proof. apply data_ok_set; [done|]. apply deinit_range, desc_ok. Qed.
Lemma ok_init prev idx : paged prev -> 0 <= idx < 2 ^ 5 -> data_ok (_block_descriptor_init s a prev idx).
Proof. intros. apply data_ok_set; [done|]. by apply init_range; [apply desc_ok | |]. Qed.
Lemma ok_set_prev_idx idx : 0 <= idx < 2 ^ 5 -> data_ok (_block_descriptor_set_prev_idx s a idx).
Proof. intros. apply data_ok_set; [done|]. by apply prev_idx_range; [apply desc_ok |]. Qed.
Lemma ok_set_prev prev : paged prev -> data_ok (_block_descriptor_set_prev s a prev).
Proof. intros. apply data_ok_set; [done|]. by apply prev_word_range; [apply desc_ok |]. Qed.
Lemma ok_set_next next : data_ok (set_block_next s a next).
Proof. apply data_ok_set; [done|]. apply desc_ok. Qed.
End View.

(** ** Lists and bitmaps after each operation on allocators *)

Definition bit (s : pmm_t) (k : nat) (j : Z) : bool := Z.testbit (bucket_bitmap (get_allocator s k)) j.

(** [n] allocators of sixteen lists each. *)
Definition shape (s : pmm_t) (n : nat) : Prop :=
  length (_pmm_allocators s) = n /\
  forall k, (k < n)%nat -> length (buckets (get_allocator s k)) = 16%nat /\ 0 <= bucket_bitmap (get_allocator s k) < 2 ^ 16.

Lemma get_set_allocator s n k a k' : shape s n -> (k < n)%nat ->
  get_allocator (set_allocator s k a) k' = if decide (k' = k) then a else get_allocator s k'.
Proof.
  intros [Hn _] Hk. unfold get_allocator, set_allocator. cbn [_pmm_allocators]. destruct (decide (k' = k)) as [-> | Hne].
  - apply nth_lookup_Some, list_lookup_insert_eq. lia.
  - rewrite !nth_lookup. by rewrite list_lookup_insert_ne.
Qed.

Lemma shape_set_allocator s n k a : shape s n -> (k < n)%nat -> length (buckets a) = 16%nat -> 0 <= bucket_bitmap a < 2 ^ 16 ->
  shape (set_allocator s k a) n.
Proof.
  intros Hs Hk Ha Hb. split; [unfold set_allocator; cbn [_pmm_allocators]; rewrite length_insert; apply Hs|].
  intros k' Hk'. rewrite (get_set_allocator s n) by done. destruct (decide (k' = k)); [done | by apply Hs].
Qed.

Section Allocators.
Variables (s : pmm_t) (n k : nat) (j : Z).
Hypothesis Hs : shape s n.
Hypothesis Hk : (k < n)%nat.
Hypothesis Hj : 0 <= j < 16.

Lemma get_set_bucket b k' j' : 0 <= j' < 16 ->
  get_bucket (set_bucket s k j b) k' j' = if decide (k' = k /\ j' = j) then b else get_bucket s k' j'.
Proof.
  intros Hj'. unfold get_bucket at 1, set_bucket. rewrite (get_set_allocator s n) by done.
  destruct (decide (k' = k)) as [-> | Hne]; [| by rewrite decide_False by (intros [? _]; done)].
  cbn [buckets]. destruct (proj2 Hs k Hk) as [Hl _]. destruct (decide (j' = j)) as [-> | Hne].
  - rewrite decide_True by done. apply nth_lookup_Some, list_lookup_insert_eq. lia.
  - rewrite decide_False by (intros [_ ?]; done). unfold get_bucket. rewrite !nth_lookup, list_lookup_insert_ne by lia. done.
Qed.

Lemma bit_set_bucket b k' j' : bit (set_bucket s k j b) k' j' = bit s k' j'.
Proof.
  unfold bit, set_bucket. rewrite (get_set_allocator s n) by done. by destruct (decide (k' = k)) as [-> |].
Qed.

Lemma shape_set_bucket b : shape (set_bucket s k j b) n.
Proof.
  destruct (proj2 Hs k Hk). apply shape_set_allocator; [done | done | cbn [buckets]; by rewrite length_insert | done].
Qed.

Lemma get_set_bitmap x k' j' : get_bucket (set_bitmap s k x) k' j' = get_bucket s k' j'.
Proof.
  unfold get_bucket, set_bitmap. rewrite (get_set_allocator s n) by done. by destruct (decide (k' = k)) as [-> |].
Qed.

Lemma shape_set_bitmap x : shape (set_bitmap s k (wrap 16 x)) n.
Proof.
  destruct (proj2 Hs k Hk). apply shape_set_allocator; [done | done | done |]. cbn [bucket_bitmap].
  apply (wrap_width 16); lia.
Qed.

Lemma bit_bitmap_set k' j' : 0 <= j' < 16 ->
  bit (bitmap_set s k j) k' j' = if decide (k' = k /\ j' = j) then true else bit s k' j'.
Proof.
  intros Hj'. unfold bit, bitmap_set, set_bitmap. rewrite (get_set_allocator s n) by done.
  destruct (decide (k' = k)) as [-> | Hne]; [| by rewrite decide_False by (intros [? _]; done)].
  cbn [bucket_bitmap]. unfold wrap. rewrite Z.mod_pow2_bits_low, Z.lor_spec, Z.shiftl_spec by lia.
  destruct (decide (j' = j)) as [-> | Hne].
  - rewrite decide_True by done. rewrite Z.sub_diag. apply orb_true_r.
  - rewrite decide_False by (intros [_ ?]; done). destruct (Z.ltb_spec j' j).
    + rewrite (Z.testbit_neg_r 1) by lia. apply orb_false_r.
    + rewrite (word_high 1 1) by lia. apply orb_false_r.
Qed.

Lemma bit_bitmap_clear k' j' : 0 <= j' < 16 ->
  bit (bitmap_clear s k j) k' j' = if decide (k' = k /\ j' = j) then false else bit s k' j'.
Proof.
  intros Hj'. unfold bit, bitmap_clear, set_bitmap. rewrite (get_set_allocator s n) by done.
  destruct (decide (k' = k)) as [-> | Hne]; [| by rewrite decide_False by (intros [? _]; done)].
  cbn [bucket_bitmap]. unfold wrap. rewrite Z.mod_pow2_bits_low, Z.land_spec, lnot_testbit, Z.shiftl_spec by lia.
  destruct (decide (j' = j)) as [-> | Hne].
  - rewrite decide_True by done. rewrite Z.sub_diag. apply andb_false_r.
  - rewrite decide_False by (intros [_ ?]; done). destruct (Z.ltb_spec j' j).
    + rewrite (Z.testbit_neg_r 1) by lia. apply andb_true_r.
    + rewrite (word_high 1 1) by lia. apply andb_true_r.
Qed.
End Allocators.

(** ** What the list operations leave alone: the cookie and cache flag of every page *)

Definition is_cache (d : pmm_block_descriptor_t) : bool := Z.testbit (bd_data d) 10.

Definition page_state (s : pmm_t) (b : Z) : Z * bool := (bd_cookie (_get_block_descriptor s b), is_cache (_get_block_descriptor s b)).

Definition same_pages (s s' : pmm_t) : Prop := memory s' = memory s /\ balancer_index s' = balancer_index s /\
  forall b, page_state s' b = page_state s b.

Lemma same_pages_refl s : same_pages s s.
Proof. done. Qed.

Lemma same_pages_trans s s1 s2 : same_pages s s1 -> same_pages s1 s2 -> same_pages s s2.
Proof. intros (H1 & H2 & H3) (H4 & H5 & H6). split_and!; [congruence | congruence |]. intros b. by rewrite H6. Qed.

Lemma same_set_descriptor s a d : bd_cookie d = bd_cookie (_get_block_descriptor s a) -> is_cache d = is_cache (_get_block_descriptor s a) ->
  same_pages s (set_descriptor s a d).
Proof.
  intros Hc Hb. split_and!; [done | done |]. intros b. unfold page_state, _get_block_descriptor, set_descriptor in *. simpl.
  destruct (Z.eqb_spec (page b) (page a)) as [-> | _]; [by rewrite Hc, Hb | done].
Qed.

Lemma same_deinit s a : same_pages s (_block_descriptor_deinit s a).
Proof.
  apply same_set_descriptor; [done|]. unfold is_cache. cbn [bd_data set_data]. by rewrite Z.lor_spec, orb_false_r.
Qed.

Lemma same_init s a prev idx : paged prev -> 0 <= idx < 2 ^ 5 -> same_pages s (_block_descriptor_init s a prev idx).
Proof.
  intros Hp Hi. apply same_set_descriptor; [done|]. unfold is_cache. cbn [bd_data].
  rewrite !Z.lor_spec, !Z.land_spec, lnot64_bit, ones12, ones5 by lia. rewrite (paged_bits prev 10) by (done || lia).
  rewrite (word_high 5 idx) by lia. cbn. by rewrite andb_false_r, !andb_true_r, orb_false_r.
Qed.

Lemma same_set_prev_idx s a idx : 0 <= idx < 2 ^ 5 -> same_pages s (_block_descriptor_set_prev_idx s a idx).
Proof.
  intros Hi. apply same_set_descriptor; [done|]. unfold is_cache. cbn [bd_data set_data].
  rewrite Z.lor_spec, Z.land_spec, lnot64_bit, !shl5_bit by (lia || exact mask_range). cbn. by rewrite !andb_false_r, andb_true_r, orb_false_r.
Qed.

Lemma same_set_prev s a prev : paged prev -> same_pages s (_block_descriptor_set_prev s a prev).
Proof.
  intros Hp. apply same_set_descriptor; [done|]. unfold is_cache. cbn [bd_data set_data].
  rewrite Z.lor_spec, Z.land_spec, ones12 by lia. rewrite (paged_bits prev 10) by (done || lia). cbn.
  by rewrite andb_false_r, andb_true_r, orb_false_r.
Qed.

Lemma same_set_next s a next : same_pages s (set_block_next s a next).
Proof. by apply same_set_descriptor. Qed.

Lemma same_set_allocator s k a : same_pages s (set_allocator s k a).
Proof. done. Qed.

(** ** The size of the block in front of a page, as the descriptor has it *)

Definition tag_of (s : pmm_t) (b : Z) : Z := _block_descriptor_get_prev_idx s b.

Definition same_tags (s s' : pmm_t) : Prop := forall b, tag_of s' b = tag_of s b.

Definition tag_word (x : Z) : Z := Z.land (Z.shiftr x PMM_ALLOCATOR_BUCKET_COUNT_MASK_SHIFT) PMM_ALLOCATOR_BUCKET_COUNT_MASK.

Lemma tag_word_eq x y : (forall i, 5 <= i < 10 -> Z.testbit x i = Z.testbit y i) -> tag_word x = tag_word y.
Proof.
  intros H. apply Z.bits_inj'. intros i Hi. unfold tag_word. rewrite !Z.land_spec, !Z.shiftr_spec, ones5 by lia. change PMM_ALLOCATOR_BUCKET_COUNT_MASK_SHIFT with 5.
  destruct (Z.ltb_spec i 5); [by rewrite !andb_true_r, H by lia | by rewrite !andb_false_r].
Qed.

Lemma same_tags_set s a d : tag_word (bd_data d) = tag_word (bd_data (_get_block_descriptor s a)) -> same_tags s (set_descriptor s a d).
Proof.
  intros Hd b. unfold tag_of, _block_descriptor_get_prev_idx. fold (tag_word (bd_data (_get_block_descriptor (set_descriptor s a d) b))) (tag_word (bd_data (_get_block_descriptor s b))).
  unfold _get_block_descriptor, set_descriptor in *. simpl. by destruct (Z.eqb_spec (page b) (page a)) as [-> |].
Qed.

Lemma same_tags_trans s s1 s2 : same_tags s s1 -> same_tags s1 s2 -> same_tags s s2.
Proof. intros H1 H2 b. by rewrite H2. Qed.

Lemma tags_deinit s a : same_tags s (_block_descriptor_deinit s a).
Proof.
  apply same_tags_set, tag_word_eq. intros i Hi. cbn [bd_data set_data]. unfold PMM_ALLOCATOR_BLOCK_DESCRIPTOR_INDEX_USED. rewrite Z.lor_spec, ones5 by lia.
  by destruct (Z.ltb_spec i 5); [lia | rewrite orb_false_r].
Qed.

Lemma tags_init s a prev idx : paged prev -> 0 <= idx < 2 ^ 5 -> same_tags s (_block_descriptor_init s a prev idx).
Proof.
  intros Hp Hx. apply same_tags_set, tag_word_eq. intros i Hi. cbn [bd_data]. rewrite !Z.lor_spec, !Z.land_spec, lnot64_bit, ones12, ones5 by lia.
  rewrite (paged_bits prev i), (word_high 5 idx) by (done || lia). destruct (Z.ltb_spec i 12), (Z.ltb_spec i 5), (Z.ltb_spec i 64); try lia. cbn. by rewrite andb_false_r, !andb_true_r, orb_false_r.
Qed.

Lemma tags_set_prev s a prev : paged prev -> same_tags s (_block_descriptor_set_prev s a prev).
Proof.
  intros Hp. apply same_tags_set, tag_word_eq. intros i Hi. cbn [bd_data set_data]. rewrite Z.lor_spec, Z.land_spec, ones12 by lia. rewrite (paged_bits prev i) by (done || lia).
  destruct (Z.ltb_spec i 12); [| lia]. cbn. by rewrite andb_false_r, andb_true_r, orb_false_r.
Qed.

Lemma tags_set_next s a next : same_tags s (set_block_next s a next).
Proof. by apply same_tags_set. Qed.

Lemma tag_set_prev_idx s a idx b : paged a -> paged b -> 0 <= idx < 2 ^ 5 -> tag_of (_block_descriptor_set_prev_idx s a idx) b = if decide (b = a) then idx else tag_of s b.
Proof.
  intros Ha Hb Hx. unfold tag_of, _block_descriptor_get_prev_idx, _block_descriptor_set_prev_idx. rewrite get_set_descriptor by done. destruct (decide (b = a)) as [-> |]; [| done]. cbn [bd_data set_data].
  apply Z.bits_inj'. intros i Hi. change PMM_ALLOCATOR_BUCKET_COUNT_MASK_SHIFT with 5 at 3.
  rewrite Z.land_spec, Z.shiftr_spec, Z.lor_spec, Z.land_spec, lnot64_bit, !shl5_bit, !ones5 by (lia || exact mask_range).
  destruct (Z.ltb_spec i 5) as [H5 | H5]; [| by rewrite andb_false_r, (word_high 5 idx) by lia].
  replace (i + 5 - 5) with i by lia. destruct (Z.ltb_spec i 5), (Z.ltb_spec (i + 5) 5), (Z.ltb_spec (i + 5) 10), (Z.ltb_spec (i + 5) 64); try lia.
  cbn. by rewrite andb_false_r, !andb_true_r.
Qed.
