(* ===== verification/PmmInv.v ===== *)
(** * The free lists of the physical memory manager.

    [pmm_inv s n L]: the state [s] of [n] allocators holds the free lists [L],
    where [L k j] are the free blocks of 2^j pages of allocator [k], in list
    order.  Every operation on a list does what it does to [L]. *)
From stdpp Require Import base tactics list numbers option sets.
From Stdlib Require Import ZArith Lia.
From S2P Require Import Prelude Pmm PmmView.
#[local] Open Scope Z_scope.

Definition free_lists : Type := nat -> Z -> list Z.

Definition blk (j : Z) : Z := 2 ^ (12 + j).

Lemma block_size j : 0 <= j < 52 -> _get_block_size j = blk j.
Proof.
  intros Hj. unfold _get_block_size, blk, PAGE_SIZE_SHIFT. rewrite Z.shiftl_1_l. apply u64_id. split; [lia|].
  apply Z.pow_lt_mono_r; lia.
Qed.

Lemma blk_pos j : 0 <= j -> 4096 <= blk j.
Proof. intros. unfold blk. change 4096 with (2 ^ 12). apply Z.pow_le_mono_r; lia. Qed.

Lemma blk_succ j : 0 <= j -> blk (j + 1) = 2 * blk j.
Proof. intros. unfold blk. replace (12 + (j + 1)) with (Z.succ (12 + j)) by lia. apply Z.pow_succ_r. lia. Qed.

Lemma blk_max j : 0 <= j < 16 -> blk j <= 2 ^ 27.
Proof. intros. unfold blk. apply Z.pow_le_mono_r; lia. Qed.

Lemma blk_paged j : 0 <= j -> blk j mod 4096 = 0.
Proof. intros. unfold blk. rewrite Z.pow_add_r by lia. change (2 ^ 12) with 4096. rewrite Z.mul_comm. apply Z.mod_mul. lia. Qed.

Definition last_of (l : list Z) (d : Z) : Z := List.last l d.
Definition first_of (l : list Z) (d : Z) : Z := match l with [] => d | a :: _ => a end.

(** [l] is linked forwards and backwards between [prev] and [next]. *)
Fixpoint seg (s : pmm_t) (prev : Z) (l : list Z) (next : Z) : Prop :=
  match l with
  | [] => True
  | a :: l => prev_of s a = prev /\ next_of s a = first_of l next /\ seg s a l next
  end.

Definition apart (a j a' j' : Z) : Prop := a + blk j <= a' \/ a' + blk j' <= a.

(** A block of size index [j] of allocator [k]. *)
Definition block_of (n k : nat) (j a : Z) : Prop :=
  (k < n)%nat /\ 0 <= j < 16 /\ 0 < a /\ a mod blk j = 0 /\ allocator_of a = k.

Record pmm_inv (s : pmm_t) (n : nat) (L : free_lists) : Prop := {
  i_shape : shape s n;
  i_n : Z.of_nat n <= 2 ^ 35;
  i_data : data_ok s;
  i_bucket : forall k j, (k < n)%nat -> 0 <= j < 16 ->
    get_bucket s k j = mk_bucket (first_of (L k j) 0) (last_of (L k j) 0) /\ bit s k j = negb (bool_decide (L k j = []));
  i_seg : forall k j, (k < n)%nat -> 0 <= j < 16 -> seg s 0 (L k j) 0 /\ NoDup (L k j);
  i_mem : forall k j a, a ∈ L k j -> block_of n k j a;
  i_idx : forall k j a, a ∈ L k j -> idx_of s a = j;
  i_used : forall a, paged a -> idx_of s a < 16 -> exists k j, a ∈ L k j;
  i_apart : forall k j a k' j' a', a ∈ L k j -> a' ∈ L k' j' -> a <> a' -> apart a j a' j'
}.

Definition upd (L : free_lists) (k : nat) (j : Z) (l : list Z) : free_lists :=
  fun k' j' => if decide (k' = k /\ j' = j) then l else L k' j'.

Lemma upd_eq L k j l : upd L k j l k j = l.
Proof. unfold upd. by rewrite decide_True. Qed.

Lemma upd_in L k j l k' j' a : a ∈ upd L k j l k' j' -> (k' = k /\ j' = j /\ a ∈ l) \/ (~ (k' = k /\ j' = j) /\ a ∈ L k' j').
Proof. unfold upd. destruct (decide _) as [[-> ->] | Hne]; auto. Qed.

(** ** Linked lists *)

Lemma seg_ext s s' l : forall prev next, (forall b, b ∈ l -> view s' b = view s b) -> seg s prev l next -> seg s' prev l next.
Proof.
  induction l as [| a l IH]; intros prev next Hv; [done|]. intros (H1 & H2 & H3). pose proof (Hv a ltac:(left)) as Ha.
  injection Ha as E1 _ E2. simpl. rewrite E1, E2. split_and!; [done | done |]. apply IH; [| done]. intros b Hb. apply Hv. by right.
Qed.

Lemma last_cons a l : forall d, last_of (a :: l) d = last_of l a.
Proof.
  unfold last_of. revert a. induction l as [| b l IH]; intros a d; [done|].
  change (List.last (b :: l) d = List.last (b :: l) a). by rewrite !IH.
Qed.

Lemma last_tail a l d : l <> [] -> last_of (a :: l) d = last_of l d.
Proof. destruct l as [| b l]; [done|]. intros _. by rewrite !last_cons. Qed.

Lemma seg_app s l1 : forall prev l2 next,
  seg s prev (l1 ++ l2) next <-> seg s prev l1 (first_of l2 next) /\ seg s (last_of l1 prev) l2 next.
Proof.
  induction l1 as [| a l1 IH]; intros prev l2 next; [split; [intros H; split; done | by intros [_ H]]|].
  cbn [app seg]. rewrite IH.
  assert (E0 : first_of (l1 ++ l2) next = first_of l1 (first_of l2 next)) by (by destruct l1).
  rewrite E0, last_cons. tauto.
Qed.

Lemma last_snoc l a d : last_of (l ++ [a]) d = a.
Proof. apply List.last_last. Qed.

Lemma snoc_cases (l : list Z) : l = [] \/ exists l0 t, l = l0 ++ [t].
Proof. destruct l as [| t l0 _] using rev_ind; [by left | right; eauto]. Qed.

Lemma last_in l d : l <> [] -> last_of l d ∈ l.
Proof.
  intros Hl. destruct l as [| x l] using rev_ind; [done|]. rewrite last_snoc. apply elem_of_app. right. by left.
Qed.

Lemma first_in l d : l <> [] -> first_of l d ∈ l.
Proof. destruct l; [done | by left]. Qed.

(** ** Addresses *)

Lemma mod_4096 j a : 0 <= j -> a mod blk j = 0 -> a mod 4096 = 0.
Proof.
  intros Hj Ha. apply Z.mod_divide; [lia|]. apply Z.mod_divide in Ha; [| pose proof (blk_pos j); lia].
  eapply Z.divide_trans; [| exact Ha]. apply Z.mod_divide; [lia|]. by apply blk_paged.
Qed.

Lemma allocator_range a : 0 <= a -> Z.of_nat (allocator_of a) * 2 ^ 28 <= a < (Z.of_nat (allocator_of a) + 1) * 2 ^ 28.
Proof.
  intros Ha. unfold allocator_of, PMM_ALLOCATOR_MAX_REGION_SIZE_SHIFT, PMM_ALLOCATOR_BUCKET_COUNT, PAGE_SIZE_SHIFT.
  change (16 + 12) with 28. rewrite Z.shiftr_div_pow2 by lia. rewrite Z2Nat.id by (apply Z.div_pos; lia).
  pose proof (Z.div_mod a (2 ^ 28)). pose proof (Z.mod_pos_bound a (2 ^ 28)). lia.
Qed.

Lemma block_paged n k j a : Z.of_nat n <= 2 ^ 35 -> block_of n k j a -> paged a /\ a + blk j <= 2 ^ 63 /\ paged (a + blk j).
Proof.
  intros Hn (Hk & Hj & Ha & Hm & Hr). pose proof (allocator_range a ltac:(lia)) as Hra. rewrite Hr in Hra.
  pose proof (mod_4096 j a ltac:(lia) Hm) as H4. pose proof (blk_max j Hj). pose proof (blk_pos j ltac:(lia)).
  assert (Hlt : a + blk j <= (Z.of_nat k + 1) * 2 ^ 28).
  { assert (Hd : exists q, (Z.of_nat k + 1) * 2 ^ 28 = q * blk j).
    { exists ((Z.of_nat k + 1) * 2 ^ (16 - j)). rewrite <- Z.mul_assoc. f_equal. unfold blk.
      rewrite <- Z.pow_add_r by lia. f_equal. lia. }
    destruct Hd as [q Hq]. apply Z.mod_divide in Hm as [m Hm]; [| lia].
    assert (m < q) by nia. nia. }
  split_and!; [split; [lia | done] | lia |]. split; [lia|].
  rewrite Zplus_mod, H4, (blk_paged j) by lia. done.
Qed.

(** ** Replacing one list *)

(** [a] is a block that overlaps no free block. *)
Definition fresh (n k : nat) (L : free_lists) (j a : Z) : Prop :=
  block_of n k j a /\ forall k' j' a', a' ∈ L k' j' -> apart a j a' j'.

Lemma apart_sym a j a' j' : apart a j a' j' -> apart a' j' a j.
Proof. unfold apart. tauto. Qed.

Lemma apart_neq a j a' j' : 0 <= j -> 0 <= j' -> apart a j a' j' -> a <> a'.
Proof. unfold apart. intros ? ? H ->. pose proof (blk_pos j). pose proof (blk_pos j'). lia. Qed.

Lemma fresh_not_in n k L j a k' j' : fresh n k L j a -> (forall k j a, a ∈ L k j -> 0 <= j) -> ~ (a ∈ L k' j').
Proof. intros [(_ & Hj & _) Hf] Hp Hin. apply (apart_neq a j a j'); [lia | eauto | eauto | done]. Qed.

(** What an operation on list [j] of allocator [k] does to the lists and bitmaps. *)
Definition replaces (s s' : pmm_t) (n k : nat) (j : Z) (l : list Z) : Prop :=
  shape s' n /\ data_ok s' /\
  forall k' j', (k' < n)%nat -> 0 <= j' < 16 ->
    get_bucket s' k' j' = (if decide (k' = k /\ j' = j) then mk_bucket (first_of l 0) (last_of l 0) else get_bucket s k' j') /\
    bit s' k' j' = (if decide (k' = k /\ j' = j) then negb (bool_decide (l = [])) else bit s k' j').

Lemma inv_update s s' n L k j l :
  pmm_inv s n L -> (k < n)%nat -> 0 <= j < 16 -> replaces s s' n k j l ->
  (forall b, paged b -> ~ (b ∈ L k j) -> ~ (b ∈ l) -> view s' b = view s b) ->
  seg s' 0 l 0 -> NoDup l ->
  (forall b, b ∈ l -> idx_of s' b = j) ->
  (forall b, b ∈ L k j -> ~ (b ∈ l) -> idx_of s' b = 31) ->
  (forall b, b ∈ l -> b ∈ L k j \/ fresh n k L j b) ->
  (forall b b', b ∈ l -> b' ∈ l -> b <> b' -> b ∈ L k j \/ b' ∈ L k j) ->
  pmm_inv s' n (upd L k j l).
Proof.
  intros Hi Hk Hj (Hsh & Hd & Hrep) Hv Hseg Hnd Hidx Hout Hnew Hpair. pose proof (i_n _ _ _ Hi) as Hn.
  assert (Hpos : forall k j a, a ∈ L k j -> 0 <= j) by (intros ? ? ? Ha; apply (i_mem _ _ _ Hi) in Ha as (_ & ? & _); lia).
  assert (Hpg : forall k j a, a ∈ L k j -> paged a) by (intros ? ? ? Ha; eapply block_paged, (i_mem _ _ _ Hi); done).
  assert (Hother : forall k' j' b, ~ (k' = k /\ j' = j) -> b ∈ L k' j' -> ~ (b ∈ L k j) /\ ~ (b ∈ l)).
  { intros k' j' b Hne Hb. assert (H1 : ~ (b ∈ L k j)).
    { intros Hb'. apply Hne. split.
      - destruct (i_mem _ _ _ Hi _ _ _ Hb) as (_ & _ & _ & _ & <-). destruct (i_mem _ _ _ Hi _ _ _ Hb') as (_ & _ & _ & _ & <-). done.
      - rewrite <- (i_idx _ _ _ Hi _ _ _ Hb). by rewrite (i_idx _ _ _ Hi _ _ _ Hb'). }
    split; [done|]. intros Hl. destruct (Hnew b Hl) as [? | Hf]; [done|]. by eapply fresh_not_in. }
  assert (Hkeep : forall k' j' b, ~ (k' = k /\ j' = j) -> b ∈ L k' j' -> view s' b = view s b).
  { intros k' j' b Hne Hb. destruct (Hother _ _ _ Hne Hb). apply Hv; eauto. }
  split; try done.
  - intros k' j' Hk' Hj'. destruct (Hrep k' j' Hk' Hj') as [-> ->]. unfold upd.
    destruct (decide _) as [[-> ->] | Hne]; [done|]. by apply (i_bucket _ _ _ Hi).
  - intros k' j' Hk' Hj'. unfold upd. destruct (decide _) as [[-> ->] | Hne]; [done|].
    destruct (i_seg _ _ _ Hi k' j' Hk' Hj') as [H1 H2]. split; [| done]. eapply seg_ext; [| exact H1]. intros b Hb. by eapply Hkeep.
  - intros k' j' a [(-> & -> & Ha) | [Hne Ha]]%upd_in; [| by apply (i_mem _ _ _ Hi)].
    destruct (Hnew a Ha) as [Ha' | [Ha' _]]; [by apply (i_mem _ _ _ Hi) | done].
  - intros k' j' a [(-> & -> & Ha) | [Hne Ha]]%upd_in; [by apply Hidx|].
    pose proof (Hkeep _ _ _ Hne Ha) as [= _ E0 _]. rewrite E0. by apply (i_idx _ _ _ Hi k').
  - intros a Hpa Hlt. destruct (decide (a ∈ l)) as [Hal | Hal]; [exists k, j; by rewrite upd_eq|].
    destruct (decide (a ∈ L k j)) as [HaL | HaL]; [rewrite Hout in Hlt by done; lia|].
    pose proof (Hv a Hpa HaL Hal) as [= _ E0 _]. rewrite E0 in Hlt. destruct (i_used _ _ _ Hi a Hpa Hlt) as (k' & j' & Ha).
    exists k', j'. unfold upd. rewrite decide_False; [done|]. by intros [-> ->].
  - assert (Hcross : forall k' j' a a', a ∈ l -> a' ∈ L k' j' -> ~ (k' = k /\ j' = j) \/ a' ∈ l -> a <> a' -> apart a j a' j').
    { intros k' j' a a' Ha Ha' _ Hne. destruct (Hnew a Ha) as [HaL | [_ Hf]]; [by eapply (i_apart _ _ _ Hi) | by eapply Hf]. }
    intros k1 j1 a1 k2 j2 a2 [(-> & -> & H1) | [Hn1 H1]]%upd_in [(-> & -> & H2) | [Hn2 H2]]%upd_in Hne.
    + destruct (Hpair a1 a2 H1 H2 Hne) as [H3 | H3]; [apply apart_sym; eapply Hcross; eauto | eapply Hcross; eauto].
    + by eapply Hcross; eauto.
    + apply apart_sym. by eapply Hcross; eauto.
    + by eapply (i_apart _ _ _ Hi).
Qed.

Lemma paged_0 : paged 0.
Proof. split; [lia | done]. Qed.

Lemma inv_paged s n L k j a : pmm_inv s n L -> a ∈ L k j -> paged a.
Proof. intros Hi Ha. eapply block_paged, (i_mem _ _ _ Hi); [apply Hi | done]. Qed.

Lemma z2b_pos a : 0 < a -> z2b a = true.
Proof. unfold z2b. destruct (Z.eqb_spec a 0); [lia | done]. Qed.

(** ** Appending a block *)

Lemma view_push s k a j b : data_ok s -> paged a -> paged (a + blk j) -> 0 <= j < 16 -> paged b ->
  let t := tail (get_bucket s k j) in paged t -> t <> a ->
  view (push_block s k a j) b =
    if decide (b = a) then (t, j, 0) else if decide (t <> 0 /\ b = t) then (prev_of s t, idx_of s t, a) else view s b.
Proof.
  intros Hd Ha Hab Hj Hb t Ht Hne. unfold push_block. rewrite block_size by lia.
  set (s1 := _block_descriptor_set_prev_idx s (a + blk j) j). 
  assert (Ht1 : tail (get_bucket s1 k j) = t) by reflexivity. rewrite Ht1.
  assert (Hv1 : forall x, paged x -> view s1 x = view s x) by (intros x Hx; apply view_set_prev_idx; done || lia).
  assert (Hd1 : data_ok s1) by (apply ok_set_prev_idx; done || lia). clearbody s1.
  set (s2 := _block_descriptor_init s1 a t j).
  assert (Hv2 : forall x, paged x -> view s2 x = if decide (x = a) then (t, j, 0) else view s x).
  { intros x Hx. unfold s2. rewrite view_init by (done || lia). destruct (decide _); [done | by apply Hv1]. }
  assert (Hd2 : data_ok s2) by (apply ok_init; done || lia).
  assert (Ht2 : tail (get_bucket s2 k j) = tail (get_bucket s1 k j)) by reflexivity. clearbody s2.
  match goal with |- view (bitmap_set (set_tail ?s3 _ _ _) _ _) _ = _ => change (view s3 b = if decide (b = a) then (t, j, 0)
    else if decide (t <> 0 /\ b = t) then (prev_of s t, idx_of s t, a) else view s b) end.
  rewrite Ht2, Ht1. unfold z2b. destruct (Z.eqb_spec t 0) as [E0 | E0]; cbn [negb].
  - rewrite (decide_False (P := t <> 0 /\ b = t)) by tauto. apply (Hv2 b Hb).
  - rewrite view_set_next by done. pose proof (Hv2 t Ht) as Hvt. rewrite decide_False in Hvt by done. injection Hvt as E1 E2 _.
    destruct (decide (b = t)) as [-> | Hbt].
    + rewrite decide_False, decide_True by done. by rewrite E1, E2.
    + rewrite Hv2 by done. destruct (decide (b = a)); [done|]. by rewrite decide_False by tauto.
Qed.

(** The lists and bitmaps after appending. *)
Lemma replaces_push s n k a j l : shape s n -> data_ok s -> (k < n)%nat -> 0 <= j < 16 -> paged a -> paged (a + blk j) ->
  get_bucket s k j = mk_bucket (first_of l 0) (last_of l 0) -> paged (last_of l 0) -> (last_of l 0 = 0 -> l = []) ->
  replaces s (push_block s k a j) n k j (l ++ [a]).
Proof.
  intros Hs Hd Hk Hj Ha Hab Hb Hpl Hl0. unfold push_block. rewrite block_size by lia.
  set (s1 := _block_descriptor_set_prev_idx s (a + blk j) j).
  assert (G1 : forall k j, get_bucket s1 k j = get_bucket s k j) by reflexivity.
  assert (B1 : forall k j, bit s1 k j = bit s k j) by reflexivity.
  assert (S1 : shape s1 n) by exact Hs.
  assert (D1 : data_ok s1) by (apply ok_set_prev_idx; done || lia). clearbody s1. rewrite G1, Hb. cbn [tail].
  set (s2 := _block_descriptor_init s1 a (last_of l 0) j).
  assert (G2 : forall k j, get_bucket s2 k j = get_bucket s k j) by (intros; exact (G1 _ _)).
  assert (B2 : forall k j, bit s2 k j = bit s k j) by (intros; exact (B1 _ _)).
  assert (S2 : shape s2 n) by exact S1.
  assert (D2 : data_ok s2) by (apply ok_init; done || lia). clearbody s2. rewrite G2, Hb. cbn [tail].
  set (s3 := if z2b (last_of l 0) then _ else _).
  assert (H3 : shape s3 n /\ data_ok s3 /\ forall k' j', 0 <= j' < 16 -> bit s3 k' j' = bit s k' j' /\
    get_bucket s3 k' j' = if decide (k' = k /\ j' = j) then mk_bucket (first_of (l ++ [a]) 0) (last_of l 0) else get_bucket s k' j').
  { unfold s3, z2b. destruct (Z.eqb_spec (last_of l 0) 0) as [E0 | E0]; cbn [negb].
    - rewrite (Hl0 E0) in *. split_and!; [by apply shape_set_bucket | exact D2 |]. intros k' j' Hj'. unfold set_head.
      rewrite (bit_set_bucket s2 n), (get_set_bucket s2 n), !G2, Hb by done. split; [apply B2 | done].
    - split_and!; [exact S2 | by apply ok_set_next |]. intros k' j' Hj'. split; [exact (B2 _ _)|].
      change (get_bucket s2 k' j' = if decide (k' = k /\ j' = j) then mk_bucket (first_of (l ++ [a]) 0) (last_of l 0) else get_bucket s k' j').
      rewrite G2. destruct (decide _) as [[-> ->] |]; [| done]. rewrite Hb. by destruct l. }
  destruct H3 as (S3 & D3 & H3). clearbody s3. unfold set_tail. destruct (H3 k j Hj) as [_ G3]. rewrite decide_True in G3 by done. rewrite G3.
  cbn [head]. set (s4 := set_bucket s3 k j _). assert (S4 : shape s4 n) by (by apply shape_set_bucket).
  split_and!; [by apply shape_set_bitmap | exact D3 |]. intros k' j' Hk' Hj'. unfold bitmap_set at 1.
  rewrite (get_set_bitmap s4 n), (bit_bitmap_set s4 n) by done. unfold s4. rewrite (get_set_bucket s3 n), (bit_set_bucket s3 n) by done.
  destruct (H3 k' j' Hj') as [-> ->]. destruct (decide _) as [[-> ->] |]; [| done].
  rewrite last_snoc. split; [done|]. rewrite bool_decide_false; [done|]. by destruct l.
Qed.

Lemma bucket_push_ok s n L k a j : pmm_inv s n L -> fresh n k L j a -> pmm_inv (push_block s k a j) n (upd L k j (L k j ++ [a])).
Proof.
  intros Hi Hf. destruct (Hf) as [(Hk & Hj & Ha0 & Ham & Har) Hap]. pose proof (i_n _ _ _ Hi) as Hn.
  destruct (block_paged n k j a Hn (proj1 Hf)) as (Hpa & _ & Hpe).
  destruct (i_bucket _ _ _ Hi k j Hk Hj) as [Hb Hbit]. destruct (i_seg _ _ _ Hi k j Hk Hj) as [Hseg Hnd].
  set (l := L k j) in *. assert (Hna : ~ (a ∈ l)).
  { eapply fresh_not_in; [done|]. intros ? ? ? Hx. apply (i_mem _ _ _ Hi) in Hx as (_ & ? & _). lia. }
  assert (Hpl : paged (last_of l 0) /\ last_of l 0 <> a /\ (last_of l 0 = 0 -> l = [])).
  { destruct (decide (l = [])) as [-> | Hl]; [split_and!; [apply paged_0 | unfold last_of; simpl; lia | done]|].
    pose proof (last_in l 0 Hl) as Hin. split_and!; [by eapply inv_paged | congruence |].
    intros E0. rewrite E0 in Hin. apply (i_mem _ _ _ Hi) in Hin as (_ & _ & ? & _). lia. }
  destruct Hpl as (Hpl & Hla & Hl0).
  assert (Ht : tail (get_bucket s k j) = last_of l 0) by (by rewrite Hb).
  assert (Hview : forall b, paged b -> view (push_block s k a j) b = if decide (b = a) then (last_of l 0, j, 0)
     else if decide (last_of l 0 <> 0 /\ b = last_of l 0) then (prev_of s (last_of l 0), idx_of s (last_of l 0), a) else view s b).
  { intros b Hpb. rewrite view_push; rewrite ?Ht; try done. apply (i_data _ _ _ Hi). }
  apply (inv_update s _ n L k j); try done.
  - apply replaces_push; try done; [apply Hi | apply Hi].
  - fold l. intros b Hpb Hb1 Hb2. rewrite Hview by done. rewrite decide_False by set_solver.
    rewrite decide_False; [done|]. intros [E0 ->]. apply Hb1, last_in. intros ->. by destruct E0.
  - apply seg_app. cbn [seg first_of]. pose proof (Hview a Hpa) as Hva. rewrite decide_True in Hva by done. injection Hva as -> _ ->.
    split; [| done]. destruct (snoc_cases l) as [E0 | (l0 & t & E0)]; [by rewrite E0|]. rewrite E0 in *. rewrite last_snoc in *.
    apply seg_app in Hseg as [Hs1 (Hp & Hx & _)]. apply seg_app.
    assert (Htin : t ∈ L k j) by (fold l; rewrite E0; set_solver).
    assert (Ht0 : t <> 0) by (intros E1; destruct (i_mem _ _ _ Hi _ _ _ Htin) as (_ & _ & ? & _); lia).
    pose proof (Hview t ltac:(by eapply inv_paged)) as Hvt. rewrite decide_False, decide_True in Hvt by done. injection Hvt as Hvp _ Hvn.
    split.
    + cbn [first_of] in *. eapply seg_ext; [| exact Hs1]. intros b Hbin. rewrite Hview by (apply (inv_paged s n L k j b Hi); fold l; rewrite E0; apply elem_of_app; by left).
      rewrite !decide_False; [done | | set_solver]. apply NoDup_app in Hnd as (_ & Hdisj & _). set_solver.
    + cbn [seg first_of]. by rewrite Hvp, Hvn, Hp.
  - apply NoDup_app. split_and!; [done | set_solver | apply NoDup_singleton].
  - intros b [Hbl | ->%list_elem_of_singleton]%elem_of_app.
    + pose proof (Hview b ltac:(by eapply inv_paged)) as Hvb. rewrite decide_False in Hvb by congruence.
      destruct (decide _) as [[_ ->] |] in Hvb; injection Hvb as _ -> _; by eapply (i_idx _ _ _ Hi).
    + pose proof (Hview a Hpa) as Hva. rewrite decide_True in Hva by done. by injection Hva as _ -> _.
  - fold l. intros b Hb1 Hb2. set_solver.
  - fold l. intros b [Hbl | ->%list_elem_of_singleton]%elem_of_app; [by left | by right].
  - fold l. intros b b' [Hbl | ->%list_elem_of_singleton]%elem_of_app [Hbl' | ->%list_elem_of_singleton]%elem_of_app Hne; auto. done.
Qed.

(** ** Removing a block *)

(** The descriptors after [b], between [bp] and [nx], left its list. *)
Definition unlinked (s s' : pmm_t) (b bp nx : Z) : Prop := forall x, paged x ->
  view s' x = if decide (x = b) then (prev_of s b, 31, next_of s b)
    else if decide (bp <> 0 /\ x = bp) then (prev_of s bp, idx_of s bp, nx)
    else if decide (nx <> 0 /\ x = nx) then (bp, idx_of s nx, next_of s nx) else view s x.

Lemma seg_last s l : forall prev next, l <> [] -> seg s prev l next -> next_of s (last_of l 0) = next.
Proof.
  destruct (snoc_cases l) as [-> | (l0 & t & ->)]; [done|]. intros prev next _ H. apply seg_app in H as [_ (_ & H & _)].
  by rewrite last_snoc.
Qed.

Lemma bucket_remove_ok s s' n L k j l1 b l2 : pmm_inv s n L -> (k < n)%nat -> 0 <= j < 16 -> L k j = l1 ++ b :: l2 ->
  replaces s s' n k j (l1 ++ l2) -> unlinked s s' b (last_of l1 0) (first_of l2 0) ->
  pmm_inv s' n (upd L k j (l1 ++ l2)).
Proof.
  intros Hi Hk Hj HL Hrep Hun. destruct (i_seg _ _ _ Hi k j Hk Hj) as [Hseg Hnd]. rewrite HL in Hseg, Hnd.
  apply NoDup_app in Hnd as (Hnd1 & Hnd2 & [Hb2 Hnd3]%NoDup_cons).
  assert (Hin : forall x, x ∈ l1 ++ l2 -> x ∈ L k j) by (intros x Hx; rewrite HL; set_solver).
  assert (Hnb : forall x, x ∈ l1 ++ l2 -> x <> b) by (intros x Hx ->; set_solver).
  assert (Hp : forall x, x ∈ l1 ++ l2 -> paged x) by (intros x Hx; apply (inv_paged s n L k j x Hi), Hin, Hx).
  assert (Hidx : forall x, x ∈ l1 ++ l2 -> idx_of s x = j) by (intros x Hx; by apply (i_idx _ _ _ Hi k j), Hin).
  assert (Hbin : b ∈ L k j) by (rewrite HL; set_solver).
  apply seg_app in Hseg as [Hs1 (Hpb & Hnb' & Hs2)]. cbn [first_of] in Hs1.
  apply (inv_update s s' n L k j); try done.
  - intros x Hx Hx1 Hx2. rewrite Hun by done. rewrite decide_False by congruence.
    rewrite decide_False by (intros [E0 ->]; apply Hx2, elem_of_app; left; apply last_in; intros ->; done).
    rewrite decide_False; [done|]. intros [E0 ->]. apply Hx2, elem_of_app. right. apply first_in. intros ->. done.
  - apply seg_app. split.
    + destruct (snoc_cases l1) as [-> | (l0 & t & ->)]; [done|]. rewrite last_snoc in *.
      assert (Ht : t ∈ (l0 ++ [t]) ++ l2) by set_solver. pose proof (Hun t (Hp t Ht)) as Hvt.
      rewrite decide_False in Hvt by (by apply Hnb). destruct (i_mem _ _ _ Hi _ _ _ (Hin t Ht)) as (_ & _ & Ht0 & _).
      rewrite decide_True in Hvt by (split; [lia | done]). injection Hvt as Hvp _ Hvn.
      apply seg_app in Hs1 as [Hs1 (Hpt & _ & _)]. apply seg_app. split; [| cbn [seg first_of]; by rewrite Hvp, Hvn].
      eapply seg_ext; [| exact Hs1]. intros x Hx. assert (Hx' : x ∈ (l0 ++ [t]) ++ l2) by set_solver.
      rewrite Hun by (by apply Hp). rewrite decide_False by (by apply Hnb).
      apply NoDup_app in Hnd1 as (_ & Hd1 & _). rewrite decide_False by (intros [_ ->]; apply (Hd1 t Hx); by left).
      rewrite decide_False; [done|]. intros [E0 ->]. destruct l2 as [| y l2]; [done|]. cbn [first_of] in *.
      apply (Hnd2 y); set_solver.
    + destruct l2 as [| y l2]; [done|]. cbn [first_of] in *. destruct Hs2 as (Hpy & Hny & Hs2).
      assert (Hy : y ∈ l1 ++ y :: l2) by set_solver. pose proof (Hun y (Hp y Hy)) as Hvy.
      destruct (i_mem _ _ _ Hi _ _ _ (Hin y Hy)) as (_ & _ & Hy0 & _).
      assert (Hny1 : ~ (last_of l1 0 <> 0 /\ y = last_of l1 0)).
      { intros [E0 E1]. apply (Hnd2 y); [| set_solver]. rewrite E1. apply last_in. intros ->. done. }
      rewrite decide_False in Hvy by (by apply Hnb). rewrite decide_False, decide_True in Hvy by (done || (split; [lia | done])).
      injection Hvy as Hvp _ Hvn. cbn [seg]. rewrite Hvp, Hvn, Hny. split_and!; [done | done |].
      eapply seg_ext; [| exact Hs2]. intros x Hx. assert (Hx' : x ∈ l1 ++ y :: l2) by set_solver.
      rewrite Hun by (by apply Hp). rewrite decide_False by (by apply Hnb). apply NoDup_cons in Hnd3 as [Hd3 _].
      rewrite decide_False, decide_False; [done | intros [_ ->]; done |].
      intros [E0 E1]. apply (Hnd2 x); [| set_solver]. rewrite E1. apply last_in. intros ->. done.
  - apply NoDup_app. split_and!; [done | set_solver | done].
  - intros x Hx. pose proof (Hun x (Hp x Hx)) as Hvx. rewrite decide_False in Hvx by (by apply Hnb).
    destruct (decide _) as [[_ ->] |] in Hvx; [injection Hvx as _ -> _; by apply Hidx|].
    destruct (decide _) as [[_ ->] |] in Hvx; injection Hvx as _ -> _; by apply Hidx.
  - rewrite HL. intros x Hx Hx'. assert (x = b) as -> by set_solver. pose proof (Hun b (inv_paged _ _ _ _ _ _ Hi Hbin)) as Hvb.
    rewrite decide_True in Hvb by done. by injection Hvb as _ -> _.
  - intros x Hx. left. by apply Hin.
  - intros x x' Hx _ _. left. by apply Hin.
Qed.

(** Facts about the neighbours of a listed block. *)
Lemma neighbours s n L k j l1 b l2 : pmm_inv s n L -> (k < n)%nat -> 0 <= j < 16 -> L k j = l1 ++ b :: l2 ->
  let bp := last_of l1 0 in let nx := first_of l2 0 in
  prev_of s b = bp /\ next_of s b = nx /\ paged b /\ paged bp /\ paged nx /\ bp <> b /\ nx <> b /\ (bp <> 0 -> bp <> nx) /\
  (bp = 0 <-> l1 = []) /\ (nx = 0 <-> l2 = []).
Proof.
  intros Hi Hk Hj HL bp nx. destruct (i_seg _ _ _ Hi k j Hk Hj) as [Hseg Hnd]. rewrite HL in Hseg, Hnd.
  apply NoDup_app in Hnd as (Hnd1 & Hnd2 & [Hb2 Hnd3]%NoDup_cons).
  apply seg_app in Hseg as [Hs1 (Hpb & Hnb & Hs2)].
  assert (Hb : b ∈ L k j) by (rewrite HL; set_solver).
  assert (Hpos : forall x, x ∈ L k j -> 0 < x) by (intros x Hx; apply (i_mem _ _ _ Hi) in Hx; apply Hx).
  assert (H1 : l1 <> [] -> bp ∈ l1) by apply last_in.
  assert (H2 : l2 <> [] -> nx ∈ l2) by apply first_in.
  assert (E1 : l1 = [] -> bp = 0) by (intros E0; subst bp; by rewrite E0).
  assert (E2 : l2 = [] -> nx = 0) by (intros E0; subst nx; by rewrite E0).
  pose proof (Hpos b Hb) as Hb0. split; [exact Hpb|]. split; [exact Hnb|]. clearbody bp nx. clear Hpb Hnb.
  assert (P1 : l1 <> [] -> 0 < bp /\ paged bp).
  { intros Hne. assert (bp ∈ L k j) by (rewrite HL; set_solver). split; [by apply Hpos | by eapply inv_paged]. }
  assert (P2 : l2 <> [] -> 0 < nx /\ paged nx).
  { intros Hne. assert (nx ∈ L k j) by (rewrite HL; set_solver). split; [by apply Hpos | by eapply inv_paged]. }
  assert (Hpd : paged b) by (by eapply inv_paged).
  destruct (decide (l1 = [])) as [D1 | D1], (decide (l2 = [])) as [D2 | D2];
    try (rewrite (E1 D1)); try (rewrite (E2 D2)); try (specialize (H1 D1); destruct (P1 D1)); try (specialize (H2 D2); destruct (P2 D2));
    split_and!; try done; try lia; try apply paged_0; try (by auto); try (intros ->; set_solver); try (intros _ ->; set_solver).
  all: try (split; intros; [lia | done]).
Qed.

Lemma unlink_ok s n L k j l1 b l2 : pmm_inv s n L -> (k < n)%nat -> 0 <= j < 16 -> L k j = l1 ++ b :: l2 ->
  pmm_inv (unlink_block s k b j) n (upd L k j (l1 ++ l2)).
Proof.
  intros Hi Hk Hj HL.
  destruct (neighbours s n L k j l1 b l2 Hi Hk Hj HL) as (Hpb & Hnb & Pb & Pp & Pn & N1 & N2 & N3 & Z1 & Z2).
  pose proof (i_data _ _ _ Hi) as Hd. pose proof (i_shape _ _ _ Hi) as Hs.
  destruct (i_bucket _ _ _ Hi k j Hk Hj) as [Hbk Hbt]. rewrite HL in Hbk, Hbt.
  rewrite bool_decide_false in Hbt by (by destruct l1). cbn [negb] in Hbt.
  apply (bucket_remove_ok s _ n L k j l1 b l2); try done; unfold unlink_block; fold (prev_of s b); fold (next_of s b); rewrite Hpb, Hnb.
  - (* lists and bitmaps *)
    set (s1 := _block_descriptor_deinit s b).
    assert (S1 : shape s1 n) by exact Hs. assert (D1 : data_ok s1) by (by apply ok_deinit).
    assert (G1 : forall k j, get_bucket s1 k j = get_bucket s k j) by reflexivity.
    assert (B1 : forall k j, bit s1 k j = bit s k j) by reflexivity. clearbody s1.
    set (s2 := if z2b (last_of l1 0) then _ else _).
    assert (H2 : shape s2 n /\ data_ok s2 /\ forall k' j', 0 <= j' < 16 ->
      bit s2 k' j' = (if decide (k' = k /\ j' = j) then negb (bool_decide (l1 ++ l2 = [])) else bit s k' j') /\
      get_bucket s2 k' j' = if decide (k' = k /\ j' = j) then mk_bucket (first_of (l1 ++ l2) 0) (last_of (l1 ++ b :: l2) 0) else get_bucket s k' j').
    { unfold s2, z2b. destruct (Z.eqb_spec (last_of l1 0) 0) as [E0 | E0]; cbn [negb].
      - rewrite (proj1 Z1 E0) in *. cbn [app] in *. unfold set_head. rewrite G1, Hbk. cbn [tail].
        set (s3 := set_bucket s1 k j _). assert (S3 : shape s3 n) by (by apply shape_set_bucket).
        assert (G3 : forall k' j', 0 <= j' < 16 -> bit s3 k' j' = bit s k' j' /\ get_bucket s3 k' j' =
          if decide (k' = k /\ j' = j) then mk_bucket (first_of l2 0) (last_of (b :: l2) 0) else get_bucket s k' j').
        { intros k' j' Hj'. unfold s3. rewrite (bit_set_bucket s1 n), (get_set_bucket s1 n), G1, B1 by done. done. }
        assert (D3 : data_ok s3) by exact D1. clearbody s3.
        destruct (Z.eqb_spec (first_of l2 0) 0) as [E1 | E1]; cbn [negb].
        + rewrite (proj1 Z2 E1) in *. split_and!; [by apply shape_set_bitmap | exact D3 |]. intros k' j' Hj'.
          rewrite (bit_bitmap_clear s3 n) by done. unfold bitmap_clear at 1. rewrite (get_set_bitmap s3 n) by done.
          destruct (G3 k' j' Hj') as [-> ->]. by destruct (decide _).
        + split_and!; [done | done |]. intros k' j' Hj'. destruct (G3 k' j' Hj') as [-> ->]. split; [| done].
          destruct (decide _) as [[-> ->] |]; [| done]. rewrite bool_decide_false; [done|]. intros E2. by apply E1, Z2.
      - assert (Hl1 : l1 <> []) by (intros E1; by apply E0, Z1).
        split_and!; [exact S1 | by apply ok_set_next |]. intros k' j' Hj'.
        change (bit s1 k' j' = (if decide (k' = k /\ j' = j) then negb (bool_decide (l1 ++ l2 = [])) else bit s k' j') /\
          get_bucket s1 k' j' = if decide (k' = k /\ j' = j) then mk_bucket (first_of (l1 ++ l2) 0) (last_of (l1 ++ b :: l2) 0) else get_bucket s k' j').
        rewrite B1, G1. destruct (decide _) as [[-> ->] |]; [| done]. rewrite Hbt, Hbk. destruct l1; [done|]. split; [| done].
        by rewrite bool_decide_false. }
    clearbody s2. destruct H2 as (S2 & D2 & H2). unfold z2b. destruct (Z.eqb_spec (first_of l2 0) 0) as [E1 | E1]; cbn [negb].
    + rewrite (proj1 Z2 E1), app_nil_r in *. unfold set_tail. destruct (H2 k j Hj) as [_ G2]. rewrite decide_True in G2 by done. rewrite G2.
      cbn [head]. split_and!; [by apply shape_set_bucket | exact D2 |]. intros k' j' Hk' Hj'.
      rewrite (get_set_bucket s2 n), (bit_set_bucket s2 n) by done. destruct (H2 k' j' Hj') as [-> ->]. by destruct (decide _).
    + assert (Hl2 : l2 <> []) by (intros E2; by apply E1, Z2).
      split_and!; [exact S2 | by apply ok_set_prev |]. intros k' j' Hk' Hj'. destruct (H2 k' j' Hj') as [HB HG].
      split; [| exact HB]. etransitivity; [exact HG|]. destruct (decide _); [| done]. f_equal.
      destruct (snoc_cases l2) as [-> | (l0 & t & ->)]; [done|]. rewrite app_comm_cons, !app_assoc, !last_snoc. done.
  - (* descriptors *)
    intros x Px. set (s1 := _block_descriptor_deinit s b).
    assert (V1 : forall y, paged y -> view s1 y = if decide (y = b) then (prev_of s b, 31, next_of s b) else view s y)
      by (intros y Py; by apply view_deinit). assert (D1 : data_ok s1) by (by apply ok_deinit). clearbody s1.
    set (s2 := if z2b (last_of l1 0) then _ else _).
    assert (H2 : data_ok s2 /\ forall y, paged y -> view s2 y = if decide (y = b) then (prev_of s b, 31, next_of s b)
       else if decide (last_of l1 0 <> 0 /\ y = last_of l1 0) then (prev_of s (last_of l1 0), idx_of s (last_of l1 0), first_of l2 0) else view s y).
    { unfold s2, z2b. destruct (Z.eqb_spec (last_of l1 0) 0) as [E0 | E0]; cbn [negb].
      - assert (HV : forall y, paged y -> view s1 y = if decide (y = b) then (prev_of s b, 31, next_of s b)
          else if decide (last_of l1 0 <> 0 /\ y = last_of l1 0) then (prev_of s (last_of l1 0), idx_of s (last_of l1 0), first_of l2 0) else view s y).
        { intros y Py. rewrite V1 by done. destruct (decide (y = b)); [done|]. by rewrite decide_False by tauto. }
        destruct (Z.eqb_spec (first_of l2 0) 0); split; exact D1 || exact HV.
      - split; [by apply ok_set_next|]. intros y Py. rewrite view_set_next by done.
        pose proof (V1 _ Pp) as Hvp. rewrite decide_False in Hvp by done. injection Hvp as E1 E2 _.
        destruct (decide (y = last_of l1 0)) as [-> | Hne].
        + rewrite decide_False, decide_True by done. by rewrite E1, E2.
        + rewrite V1 by done. destruct (decide (y = b)); [done|]. by rewrite decide_False by tauto. }
    clearbody s2. destruct H2 as [D2 V2]. unfold z2b. destruct (Z.eqb_spec (first_of l2 0) 0) as [E1 | E1]; cbn [negb].
    + change (view s2 x = if decide (x = b) then (prev_of s b, 31, next_of s b)
        else if decide (last_of l1 0 <> 0 /\ x = last_of l1 0) then (prev_of s (last_of l1 0), idx_of s (last_of l1 0), first_of l2 0)
        else if decide (first_of l2 0 <> 0 /\ x = first_of l2 0) then (last_of l1 0, idx_of s (first_of l2 0), next_of s (first_of l2 0)) else view s x).
      rewrite V2 by done. destruct (decide (x = b)); [done|]. destruct (decide _); [done|]. by rewrite decide_False by tauto.
    + rewrite view_set_prev by done. pose proof (V2 _ Pn) as Hvn. rewrite decide_False, decide_False in Hvn by (done || (intros [A B]; by apply N3)).
      injection Hvn as _ E2 E3. destruct (decide (x = first_of l2 0)) as [-> | Hne].
      * rewrite decide_False, decide_False, decide_True by (done || (intros [A B]; by apply N3)). by rewrite E2, E3.
      * rewrite V2 by done. destruct (decide (x = b)); [done|]. destruct (decide _); [done|]. by rewrite decide_False by tauto.
Qed.

Lemma bucket_pop_ok s n L k j b l : pmm_inv s n L -> (k < n)%nat -> 0 <= j < 16 -> L k j = b :: l ->
  (pop_block s k j).2 = b /\ pmm_inv (pop_block s k j).1 n (upd L k j l).
Proof.
  intros Hi Hk Hj HL.
  destruct (neighbours s n L k j [] b l Hi Hk Hj HL) as (Hpb & Hnb & Pb & _ & Pn & _ & N2 & _ & _ & Z2).
  pose proof (i_data _ _ _ Hi) as Hd. pose proof (i_shape _ _ _ Hi) as Hs.
  destruct (i_bucket _ _ _ Hi k j Hk Hj) as [Hbk Hbt]. rewrite HL in Hbk, Hbt.
  rewrite bool_decide_false in Hbt by done. cbn [negb first_of] in Hbk, Hbt.
  unfold pop_block. rewrite Hbk. cbn [head fst snd]. split; [done|]. fold (next_of s b). rewrite Hnb.
  unfold set_head at 1 2 3 4. rewrite Hbk. cbn [tail]. set (s1 := set_bucket s k j _).
  assert (S1 : shape s1 n) by (by apply shape_set_bucket). assert (D1 : data_ok s1) by exact Hd.
  assert (V1 : forall x, view s1 x = view s x) by reflexivity.
  assert (G1 : forall k' j', 0 <= j' < 16 -> bit s1 k' j' = bit s k' j' /\ get_bucket s1 k' j' =
    if decide (k' = k /\ j' = j) then mk_bucket (first_of l 0) (last_of (b :: l) 0) else get_bucket s k' j').
  { intros k' j' Hj'. unfold s1. rewrite (bit_set_bucket s n), (get_set_bucket s n) by done. done. }
  clearbody s1. destruct (G1 k j Hj) as [_ G1k]. rewrite decide_True in G1k by done. rewrite G1k. cbn [head].
  set (s2 := if negb (z2b (first_of l 0)) then _ else _).
  assert (H2 : replaces s s2 n k j l /\ forall x, paged x ->
     view s2 x = if decide (first_of l 0 <> 0 /\ x = first_of l 0) then (0, idx_of s (first_of l 0), next_of s (first_of l 0)) else view s x).
  { unfold s2, z2b. destruct (Z.eqb_spec (first_of l 0) 0) as [E0 | E0]; cbn [negb].
    - rewrite (proj1 Z2 E0) in *. unfold set_tail. rewrite G1k. cbn [head]. set (s3 := set_bucket s1 k j _).
      assert (S3 : shape s3 n) by (by apply shape_set_bucket). split.
      + split_and!; [by apply shape_set_bitmap | exact D1 |]. intros k' j' Hk' Hj'. unfold bitmap_clear at 1.
        rewrite (get_set_bitmap s3 n), (bit_bitmap_clear s3 n) by done. unfold s3. rewrite (get_set_bucket s1 n), (bit_set_bucket s1 n) by done.
        destruct (G1 k' j' Hj') as [-> ->]. by destruct (decide _).
      + intros x Px. rewrite decide_False by tauto. exact (V1 x).
    - assert (Hl : l <> []) by (intros E1; by apply E0, Z2). split.
      + split_and!; [exact S1 | by apply ok_set_prev |]. intros k' j' Hk' Hj'. destruct (G1 k' j' Hj') as [HB HG]. split.
        * etransitivity; [exact HG|]. destruct (decide _); [| done]. f_equal. by apply last_tail.
        * etransitivity; [exact HB|]. destruct (decide _) as [[-> ->] |]; [| done]. by rewrite Hbt, bool_decide_false.
      + intros x Px. rewrite view_set_prev by (done || apply paged_0). pose proof (V1 (first_of l 0)) as [= _ E1 E2]. rewrite E1, E2.
        destruct (decide (x = first_of l 0)) as [-> |]; [by rewrite decide_True | by rewrite decide_False by tauto]. }
  clearbody s2. destruct H2 as [(S2 & D2 & R2) V2]. apply (bucket_remove_ok s _ n L k j [] b l); try done.
  - split_and!; [exact S2 | by apply ok_deinit | exact R2].
  - intros x Px. rewrite view_deinit by done. pose proof (V2 b Pb) as Vb. rewrite decide_False in Vb by (intros [_ E0]; by apply N2).
    injection Vb as E1 _ E2. rewrite E1, E2. destruct (decide (x = b)); [done|]. rewrite V2 by done. by rewrite (decide_False (P := last_of [] 0 <> 0 /\ _)) by (intros [? _]; done).
Qed.

(** ** A split-off block becomes the only one of its list *)

Lemma single_ok s n L k j b : pmm_inv s n L -> fresh n k L j b -> L k j = [] ->
  pmm_inv (bitmap_set (set_bucket (_block_descriptor_init (_block_descriptor_set_prev_idx s (b + _get_block_size j) j) b 0 j) k j (mk_bucket b b)) k j)
    n (upd L k j [b]).
Proof.
  intros Hi Hf HL. destruct (Hf) as [(Hk & Hj & _) _]. destruct (block_paged n k j b (i_n _ _ _ Hi) (proj1 Hf)) as (Pb & _ & Pe).
  rewrite block_size by lia. set (s1 := _block_descriptor_set_prev_idx s (b + blk j) j).
  assert (V1 : forall x, paged x -> view s1 x = view s x) by (intros x Px; apply view_set_prev_idx; done || lia || apply Hi).
  assert (D1 : data_ok s1) by (apply ok_set_prev_idx; lia || apply Hi).
  assert (A1 : _pmm_allocators s1 = _pmm_allocators s) by reflexivity. clearbody s1.
  set (s2 := _block_descriptor_init s1 b 0 j).
  assert (V2 : forall x, paged x -> view s2 x = if decide (x = b) then (0, j, 0) else view s x).
  { intros x Px. unfold s2. rewrite view_init by (done || lia || apply paged_0). destruct (decide _); [done | by apply V1]. }
  assert (D2 : data_ok s2) by (apply ok_init; done || lia || apply paged_0).
  assert (A2 : _pmm_allocators s2 = _pmm_allocators s) by (exact A1). clearbody s2.
  assert (S2 : shape s2 n) by (unfold shape, get_allocator; rewrite A2; apply (i_shape _ _ _ Hi)).
  assert (G2 : forall k j, get_bucket s2 k j = get_bucket s k j /\ bit s2 k j = bit s k j) by (intros; unfold get_bucket, bit, get_allocator; by rewrite A2).
  set (s3 := set_bucket s2 k j _). assert (S3 : shape s3 n) by (by apply shape_set_bucket).
  apply (inv_update s _ n L k j); try done.
  - split_and!; [by apply shape_set_bitmap | exact D2 |]. intros k' j' Hk' Hj'. unfold bitmap_set at 1.
    rewrite (get_set_bitmap s3 n), (bit_bitmap_set s3 n) by done. unfold s3. rewrite (get_set_bucket s2 n), (bit_set_bucket s2 n) by done.
    destruct (G2 k' j') as [-> ->]. by destruct (decide _).
  - intros x Px _ Hx. change (view s2 x = view s x). rewrite V2 by done. rewrite decide_False; [done | set_solver].
  - pose proof (V2 b Pb) as Vb. rewrite decide_True in Vb by done. injection Vb as E1 _ E2. cbn [seg first_of]. split_and!; done.
  - apply NoDup_singleton.
  - intros x ->%list_elem_of_singleton. pose proof (V2 b Pb) as Vb. rewrite decide_True in Vb by done. by injection Vb as _ E1 _.
  - rewrite HL. set_solver.
  - intros x ->%list_elem_of_singleton. by right.
  - intros x y ->%list_elem_of_singleton ->%list_elem_of_singleton. done.
Qed.
