(* ===== verification/PmmSpec.v ===== *)
(** * What the physical memory manager promises.

    [free L x]: the byte at physical address [x] belongs to a free block.
    Allocation takes an aligned block of free, zeroed memory out of the free
    set, deallocation puts it back, registering a range adds exactly that
    range. *)
From stdpp Require Import base tactics list numbers option sets.
From Stdlib Require Import ZArith Lia.
From S2P Require Import Prelude Pmm PmmView PmmInv.
#[local] Open Scope Z_scope.

Definition inside (x a j : Z) : Prop := a <= x < a + blk j.

Definition free (L : free_lists) (x : Z) : Prop := exists k j a, a ∈ L k j /\ inside x a j.

(** ** Free memory when one list changes *)

Lemma free_upd_add L k j l a x : (forall b, b ∈ l <-> b = a \/ b ∈ L k j) ->
  free (upd L k j l) x <-> free L x \/ inside x a j.
Proof.
  intros Hl. split.
  - intros (k' & j' & b & [(-> & -> & Hb) | [Hne Hb]]%upd_in & Hx).
    + apply Hl in Hb as [-> | Hb]; [by right | left; by exists k, j, b].
    + left. by exists k', j', b.
  - intros [(k' & j' & b & Hb & Hx) | Hx].
    + exists k', j', b. split; [| done]. unfold upd. destruct (decide _) as [[-> ->] |]; [apply Hl; by right | done].
    + exists k, j, a. rewrite upd_eq. split; [apply Hl; by left | done].
Qed.

Lemma free_upd_remove s n L k j l a x : pmm_inv s n L -> a ∈ L k j -> ~ (a ∈ l) -> (forall b, b ∈ L k j <-> b = a \/ b ∈ l) ->
  free (upd L k j l) x <-> free L x /\ ~ inside x a j.
Proof.
  intros Hi Ha Hal Hl. split.
  - intros (k' & j' & b & Hb & Hx). assert (Hb' : b ∈ L k' j' /\ b <> a).
    { apply upd_in in Hb as [(-> & -> & Hb) | [Hne Hb]].
      - split; [apply Hl; by right | by intros ->].
      - split; [done|]. intros ->. apply Hne. split.
        + destruct (i_mem _ _ _ Hi _ _ _ Hb) as (_ & _ & _ & _ & <-). by destruct (i_mem _ _ _ Hi _ _ _ Ha) as (_ & _ & _ & _ & <-).
        + rewrite <- (i_idx _ _ _ Hi _ _ _ Hb). by rewrite (i_idx _ _ _ Hi _ _ _ Ha). }
    destruct Hb' as [Hb' Hne]. split; [by exists k', j', b|]. intros Hxa.
    pose proof (i_apart _ _ _ Hi _ _ _ _ _ _ Hb' Ha Hne) as Hap. unfold apart, inside in *. lia.
  - intros [(k' & j' & b & Hb & Hx) Hn]. exists k', j', b. split; [| done]. unfold upd.
    destruct (decide _) as [[-> ->] |]; [| done]. apply Hl in Hb as [-> |]; [by destruct Hn | done].
Qed.

(** ** States that agree on the lists *)

Lemma inv_same s s' n L : pmm_inv s n L -> _pmm_allocators s' = _pmm_allocators s -> data_ok s' ->
  (forall b, paged b -> view s' b = view s b) -> pmm_inv s' n L.
Proof.
  intros Hi Ha Hd Hv.
  assert (Hg : forall k j, get_bucket s' k j = get_bucket s k j /\ bit s' k j = bit s k j)
    by (intros; unfold get_bucket, bit, get_allocator; by rewrite Ha).
  assert (Hx : forall b, paged b -> idx_of s' b = idx_of s b) by (intros b Pb; by injection (Hv b Pb)).
  split; try apply Hi; try done.
  - unfold shape, get_allocator. rewrite Ha. apply (i_shape _ _ _ Hi).
  - intros k j Hk Hj. destruct (Hg k j) as [-> ->]. by apply (i_bucket _ _ _ Hi).
  - intros k j Hk Hj. destruct (i_seg _ _ _ Hi k j Hk Hj) as [H1 H2]. split; [| done]. eapply seg_ext; [| exact H1].
    intros b Hb. apply Hv. by eapply inv_paged.
  - intros k j a Hin. rewrite Hx by (by eapply inv_paged). by apply (i_idx _ _ _ Hi k).
  - intros a Pa Hlt. rewrite Hx in Hlt by done. by apply (i_used _ _ _ Hi).
Qed.

Lemma inv_prev_idx s n L a i : pmm_inv s n L -> paged a -> 0 <= i < 16 -> pmm_inv (_block_descriptor_set_prev_idx s a i) n L.
Proof.
  intros Hi Ha Hr. apply (inv_same s); [done | done | apply ok_set_prev_idx; [apply Hi | lia] |].
  intros b Pb. apply view_set_prev_idx; done || lia || apply Hi.
Qed.

(** ** Tags *)

(** The page behind a free block has the size of the block. *)
Definition tagged (s : pmm_t) (L : free_lists) : Prop := forall k j a, a ∈ L k j -> tag_of s (a + blk j) = j.

Lemma tagged_sub s s' L L' : same_tags s s' -> (forall k j a, a ∈ L' k j -> a ∈ L k j) -> tagged s L -> tagged s' L'.
Proof. intros Ht Hs H k j a Ha. rewrite Ht. by apply (H k), Hs. Qed.

(** A tag is set inside or at the end of a block that is not free; a block that ends there may become free. *)
Lemma tagged_step s0 s s' n k L L' j a e v : pmm_inv s0 n L -> fresh n k L j a -> a < e <= a + blk j ->
  (forall b, paged b -> tag_of s' b = if decide (b = e) then v else tag_of s b) ->
  (forall k' j' b, b ∈ L' k' j' -> b ∈ L k' j' \/ (b + blk j' = e /\ j' = v /\ paged e)) -> tagged s L -> tagged s' L'.
Proof.
  intros Hi [_ Hap] He Hs' Hsub H k' j' b Hb. destruct (Hsub _ _ _ Hb) as [Hin | (Hbe & -> & Pe)]; [| by rewrite Hbe, Hs', decide_True].
  pose proof (i_mem _ _ _ Hi _ _ _ Hin) as Hblk. destruct (block_paged n k' j' b (i_n _ _ _ Hi) Hblk) as (_ & _ & Pb). destruct Hblk as (_ & Hj' & _). pose proof (blk_pos j' ltac:(lia)).
  rewrite Hs' by done. rewrite decide_False; [by apply (H k')|]. pose proof (Hap _ _ _ Hin). unfold apart in *. lia.
Qed.

Lemma tags_push s k a j x : paged (tail (get_bucket s k j)) -> paged (a + blk j) -> 0 <= j < 16 -> paged x ->
  tag_of (push_block s k a j) x = if decide (x = a + blk j) then j else tag_of s x.
Proof.
  intros Ht Pe Hj Px. rewrite <- tag_set_prev_idx by (done || lia). unfold push_block. rewrite block_size by lia. set (s1 := _block_descriptor_set_prev_idx s (a + blk j) j).
  change (tail (get_bucket s1 k j)) with (tail (get_bucket s k j)). rewrite <- (tags_init s1 a (tail (get_bucket s k j)) j) by (done || lia).
  set (s2 := _block_descriptor_init s1 a _ j). change (tail (get_bucket s2 k j)) with (tail (get_bucket s k j)). destruct (z2b _); [| done]. by rewrite <- (tags_set_next s2 (tail (get_bucket s k j)) a).
Qed.

Lemma tags_unlink s k b j : paged (prev_of s b) -> same_tags s (unlink_block s k b j).
Proof.
  intros Hp. unfold unlink_block. fold (prev_of s b). set (nx := bd_next _). eapply same_tags_trans; [apply (tags_deinit s b)|].
  set (s1 := _block_descriptor_deinit s b). eapply (same_tags_trans _ (if z2b (prev_of s b) then set_block_next s1 (prev_of s b) nx
    else let s2 := set_head s1 k j nx in if negb (z2b nx) then bitmap_clear s2 k j else s2)).
  - destruct (z2b (prev_of s b)); [apply tags_set_next|]. cbv zeta. by destruct (negb _).
  - destruct (z2b nx); [by apply tags_set_prev | done].
Qed.

Lemma tags_pop s k j : same_tags s (pop_block s k j).1.
Proof.
  unfold pop_block. cbn [fst]. eapply same_tags_trans; [| apply tags_deinit].
  destruct (negb _); [done|]. eapply same_tags_trans; [| apply tags_set_prev, paged_0]. done.
Qed.

(** ** Splitting *)

Lemma half_block n k j a : 1 <= j < 16 -> block_of n k j a ->
  block_of n k (j - 1) a /\ block_of n k (j - 1) (a + blk (j - 1)) /\ blk j = 2 * blk (j - 1).
Proof.
  intros Hj (Hk & _ & Ha & Hm & Hr). pose proof (blk_succ (j - 1) ltac:(lia)) as Hb. replace (j - 1 + 1) with j in Hb by lia.
  pose proof (blk_pos (j - 1) ltac:(lia)) as Hp. apply Z.mod_divide in Hm as [q Hm]; [| lia].
  assert (H1 : a mod blk (j - 1) = 0) by (rewrite Hm, Hb; replace (q * (2 * blk (j - 1))) with (q * 2 * blk (j - 1)) by lia; apply Z.mod_mul; lia).
  split_and!; [by repeat split; try lia | repeat split; try lia | done].
  - rewrite Zplus_mod, H1, Z.mod_same by lia. done.
  - (* the halves of a block are in one region *)
    pose proof (allocator_range a ltac:(lia)) as Hra. rewrite Hr in Hra.
    assert (Hd : exists c, (Z.of_nat k + 1) * 2 ^ 28 = c * blk j).
    { exists ((Z.of_nat k + 1) * 2 ^ (16 - j)). rewrite <- Z.mul_assoc. f_equal. unfold blk. rewrite <- Z.pow_add_r by lia. f_equal. lia. }
    destruct Hd as [c Hc]. assert (q < c) by nia. assert (Hlt : a + blk j <= (Z.of_nat k + 1) * 2 ^ 28) by nia.
    pose proof (allocator_range (a + blk (j - 1)) ltac:(lia)) as Hrb. lia.
Qed.

Lemma split_ok m : forall s n L k out j,
  pmm_inv s n L -> fresh n k L j out -> tagged s L -> Z.of_nat m <= j -> (forall j', j - Z.of_nat m <= j' < j -> L k j' = []) ->
  let i := j - Z.of_nat m in
  exists L', pmm_inv (split_block m s k out j) n L' /\ fresh n k L' i out /\ tagged (split_block m s k out j) L' /\
    (forall x, free L' x <-> free L x \/ (inside x out j /\ ~ inside x out i)).
Proof.
  induction m as [| m IH]; intros s n L k out j Hi Hf Htg Hm Hemp i.
  - exists L. subst i. rewrite Z.sub_0_r. split_and!; [done | done | done |]. intros x. tauto.
  - pose proof Hf as Hfo. destruct Hf as [Hblk Hap]. assert (Hj : 1 <= j < 16) by (destruct Hblk as (_ & ? & _); lia).
    destruct (half_block n k j out Hj Hblk) as (Hlo & Hhi & Hb). pose proof (blk_pos (j - 1) ltac:(lia)) as Hpos.
    assert (Hfb : fresh n k L (j - 1) (out + blk (j - 1))).
    { split; [done|]. intros k' j' a' Ha'. specialize (Hap _ _ _ Ha'). unfold apart in *. lia. }
    assert (HL0 : L k (j - 1) = []) by (apply Hemp; lia).
    pose proof (single_ok s n L k (j - 1) (out + blk (j - 1)) Hi Hfb HL0) as Hi1.
    cbn [split_block]. rewrite (block_size (j - 1)) in * by lia.
    match type of Hi1 with pmm_inv ?t _ _ => set (s1 := t) in * end.
    set (L1 := upd L k (j - 1) [out + blk (j - 1)]) in *.
    assert (Htg1 : tagged s1 L1).
    { destruct (block_paged n k j out (i_n _ _ _ Hi) Hblk) as (_ & _ & Pe). apply (tagged_step s s s1 n k L L1 j out (out + blk j) (j - 1) Hi Hfo); [lia | | | done].
      - intros b Pb. rewrite <- tag_set_prev_idx by (done || lia). replace (out + blk j) with (out + blk (j - 1) + blk (j - 1)) by lia. symmetry. unfold s1. symmetry. by apply (tags_init _ (out + blk (j - 1)) 0 (j - 1)); [apply paged_0 | lia].
      - intros k' j' b [(-> & -> & ->%list_elem_of_singleton) | [_ Hb']]%upd_in; [right; split_and!; [lia | done | done] | by left]. }
    destruct (IH s1 n L1 k out (j - 1) Hi1) as (L' & H1 & H2 & Ht' & H3).
    + split; [done|]. intros k' j' a' [(-> & -> & ->%list_elem_of_singleton) | [_ Ha']]%upd_in; [unfold apart; lia|].
      specialize (Hap _ _ _ Ha'). unfold apart in *. lia.
    + done.
    + lia.
    + intros j' Hj'. subst L1. unfold upd. rewrite decide_False by (intros [_ ?]; lia). apply Hemp. lia.
    + replace (j - 1 - Z.of_nat m) with i in * by lia. exists L'. split_and!; [done | done | done |]. intros x. rewrite H3.
      assert (Hfree : free L1 x <-> free L x \/ inside x (out + blk (j - 1)) (j - 1)).
      { apply free_upd_add. intros b. rewrite HL0. set_solver. }
      rewrite Hfree. assert (Hij : blk i <= blk (j - 1)) by (unfold blk; apply Z.pow_le_mono_r; lia).
      unfold inside. assert (Hdec : x < out + blk (j - 1) \/ out + blk (j - 1) <= x) by lia. split.
      * intros [[? | ?] | ?]; [by left | right; lia | right; lia].
      * intros [? | ?]; [by left; left|]. destruct Hdec; [right; lia | left; right; lia].
Qed.

(** ** Pages *)

Definition in_page (a w : Z) : Prop := Z.shiftr a 3 <= w < Z.shiftr a 3 + PAGE_SIZE / 8.

(** A page that [pmm_alloc] can hand out: cached, dirty, or clean and really zero. *)
Definition page_ready (s : pmm_t) (a : Z) : Prop :=
  let d := _get_block_descriptor s a in
  is_cache d = true \/ bd_cookie d = COOKIE_PAGE_DIRTY \/ (bd_cookie d = COOKIE_PAGE_CLEAN /\ forall w, in_page a w -> memory s w = 0).

Definition pages_ok (s : pmm_t) (L : free_lists) : Prop := forall a, paged a -> free L a -> page_ready s a.

Lemma ready_same s s' a : page_state s' a = page_state s a -> (forall w, in_page a w -> memory s' w = memory s w) ->
  page_ready s a -> page_ready s' a.
Proof.
  intros Hp Hm. unfold page_state in Hp. injection Hp as Hc Hf. unfold page_ready. rewrite Hc, Hf.
  intros [? | [? | [? Hz]]]; [by left | by right; left | right; right]. split; [done|]. intros w Hw. rewrite Hm by done. by apply Hz.
Qed.

Lemma pages_ok_same s s' L L' : same_pages s s' -> (forall x, free L' x -> free L x) -> pages_ok s L -> pages_ok s' L'.
Proof.
  intros (Hm & _ & Hp) Hf Hok a Pa Ha. apply (ready_same s); [done | intros w _; by rewrite Hm |]. apply Hok; auto.
Qed.

Lemma cache_flag d : z2b (Z.land (bd_data d) PMM_ALLOCATOR_BLOCK_DESCRIPTOR_FLAG_IS_CACHE) = is_cache d.
Proof.
  change PMM_ALLOCATOR_BLOCK_DESCRIPTOR_FLAG_IS_CACHE with (2 ^ 10). rewrite land_pow2 by lia. unfold is_cache. by destruct (Z.testbit _ 10).
Qed.

Definition flag_clear (x : Z) : Z := Z.land x (lnot_w 64 PMM_ALLOCATOR_BLOCK_DESCRIPTOR_FLAG_IS_CACHE).

Lemma flag_clear_bit x i : 0 <= i -> Z.testbit (flag_clear x) i = Z.testbit x i && negb (i =? 10) && (i <? 64).
Proof.
  intros Hi. unfold flag_clear. rewrite Z.land_spec, lnot64_bit by done.
  change PMM_ALLOCATOR_BLOCK_DESCRIPTOR_FLAG_IS_CACHE with (2 ^ 10). rewrite Z.pow2_bits_eqb, Z.eqb_sym by lia. apply andb_assoc.
Qed.

Lemma flag_clear_fields x : 0 <= x < 2 ^ 64 ->
  Z.land (flag_clear x) PMM_ALLOCATOR_BUCKET_COUNT_MASK = Z.land x PMM_ALLOCATOR_BUCKET_COUNT_MASK /\
  Z.land (flag_clear x) (lnot_w 64 (PAGE_SIZE - 1)) = Z.land x (lnot_w 64 (PAGE_SIZE - 1)) /\ 0 <= flag_clear x < 2 ^ 64.
Proof.
  intros Hx. split_and!.
  - apply Z.bits_inj'. intros i Hi. rewrite !Z.land_spec, flag_clear_bit, ones5 by lia.
    destruct (Z.eqb_spec i 10) as [-> |]; [by rewrite !andb_false_r|]. bit_cases i.
  - apply Z.bits_inj'. intros i Hi. rewrite !Z.land_spec, flag_clear_bit, lnot64_bit, ones12 by lia.
    destruct (Z.eqb_spec i 10) as [-> |]; [by rewrite !andb_false_r|]. bit_cases i.
  - unfold flag_clear. apply Z.land_nonneg. left. lia.
  - apply (width_of_bits 64); [lia|]. intros i Hi. rewrite flag_clear_bit by lia. rewrite (proj2 (Z.ltb_ge i 64)) by lia. apply andb_false_r.
Qed.

Lemma in_page_apart a b w : paged a -> paged b -> in_page a w -> in_page b w -> a = b.
Proof.
  intros [? Ha] [? Hb]. unfold in_page. rewrite !Z.shiftr_div_pow2 by lia. change (PAGE_SIZE / 8) with 512. change (2 ^ 3) with 8.
  apply Z.mod_divide in Ha as [qa ->]; [| lia]. apply Z.mod_divide in Hb as [qb ->]; [| lia].
  replace (qa * 4096) with (qa * 512 * 8) by lia. replace (qb * 4096) with (qb * 512 * 8) by lia. rewrite !Z.div_mul by lia. lia.
Qed.

(** What preparing the pages in [a, e) does. *)
Definition prepared (s s' : pmm_t) (a e : Z) : Prop :=
  _pmm_allocators s' = _pmm_allocators s /\ balancer_index s' = balancer_index s /\ data_ok s' /\
  (forall b, paged b -> view s' b = view s b) /\
  (forall b, paged b -> a <= b < e -> forall w, in_page b w -> memory s' w = 0) /\
  (forall b, paged b -> ~ (a <= b < e) -> page_state s' b = page_state s b /\ forall w, in_page b w -> memory s' w = memory s w).

Lemma prepare_page_ok s a : data_ok s -> paged a -> page_ready s a ->
  exists s', prepare_page s a = Some s' /\ prepared s s' a (a + 4096).
Proof.
  intros Hd Pa Hr. unfold prepare_page. rewrite cache_flag. set (d0 := _get_block_descriptor s a) in *. fold (flag_clear (bd_data d0)).
  set (d := if is_cache d0 then _ else _).
  assert (Hdok : 0 <= bd_data d0 < 2 ^ 64) by apply Hd. destruct (flag_clear_fields _ Hdok) as (F1 & F2 & F3).
  assert (Hf : 0 <= bd_data d < 2 ^ 64 /\ bd_next d = bd_next d0 /\
    Z.land (bd_data d) PMM_ALLOCATOR_BUCKET_COUNT_MASK = Z.land (bd_data d0) PMM_ALLOCATOR_BUCKET_COUNT_MASK /\
    Z.land (bd_data d) (lnot_w 64 (PAGE_SIZE - 1)) = Z.land (bd_data d0) (lnot_w 64 (PAGE_SIZE - 1)) /\
    (bd_cookie d = COOKIE_PAGE_DIRTY \/ (bd_cookie d = COOKIE_PAGE_CLEAN /\ forall w, in_page a w -> memory s w = 0))).
  { subst d. unfold page_ready in Hr. fold d0 in Hr. destruct (is_cache d0); cbn [bd_data bd_next bd_cookie].
    - split_and!; try done; try lia; by left.
    - split_and!; try done; try lia. destruct Hr as [? | Hr]; [done | exact Hr]. }
  clearbody d. destruct Hf as (G1 & G2 & G3 & G4 & G5).
  set (s1 := set_descriptor s a d). assert (D1 : data_ok s1) by (by apply data_ok_set).
  assert (V1 : forall b, paged b -> view s1 b = view s b).
  { intros b Pb. unfold view, prev_of, idx_of, next_of, _block_descriptor_get_prev, _block_descriptor_get_idx, s1.
    rewrite get_set_descriptor by done. destruct (decide (b = a)) as [-> |]; [| done]. fold d0. by rewrite G2, G3, G4. }
  assert (P1 : forall b, paged b -> ~ (a <= b < a + 4096) -> page_state s1 b = page_state s b).
  { intros b Pb Hn. unfold page_state, s1. rewrite get_set_descriptor by done. rewrite decide_False; [done|]. intros ->. lia. }
  assert (Hone : forall b, paged b -> a <= b < a + 4096 -> b = a).
  { intros b [? Hb] Hr'. destruct Pa as [? Ha]. pose proof (Z.div_mod a 4096). pose proof (Z.div_mod b 4096). lia. }
  destruct G5 as [G5 | [G5 Hz]]; rewrite G5; cbn [Z.eqb COOKIE_PAGE_DIRTY COOKIE_PAGE_CLEAN].
  - (* dirty: the page is cleared *)
    eexists. split; [done|]. split_and!; try done.
    + intros b Pb Hr' w Hw. rewrite (Hone b Pb Hr') in Hw. cbn [memory clear_page]. destruct Hw as [Hw1 Hw2].
      by rewrite (proj2 (Z.leb_le _ _) Hw1), (proj2 (Z.ltb_lt _ _) Hw2).
    + intros b Pb Hn. split; [exact (P1 b Pb Hn)|]. intros w Hw. cbn [memory clear_page].
      destruct (Z.leb_spec (Z.shiftr a 3) w); cbn [andb]; [| done]. destruct (Z.ltb_spec w (Z.shiftr a 3 + PAGE_SIZE / 8)); [| done].
      exfalso. apply Hn. rewrite (in_page_apart a b w) by done. lia.
  - eexists. split; [done|]. split_and!; try done.
    + intros b Pb Hr' w Hw. rewrite (Hone b Pb Hr') in Hw. by apply Hz.
    + intros b Pb Hn. split; [exact (P1 b Pb Hn) | done].
Qed.

Lemma prepare_pages_ok m : forall s a, data_ok s -> paged a -> a + 4096 * Z.of_nat m <= 2 ^ 63 ->
  (forall b, paged b -> a <= b < a + 4096 * Z.of_nat m -> page_ready s b) ->
  exists s', prepare_pages m s a = Some s' /\ prepared s s' a (a + 4096 * Z.of_nat m).
Proof.
  induction m as [| m IH]; intros s a Hd Pa Hle Hr; cbn [prepare_pages].
  - exists s. split; [done|]. split_and!; try done. intros b _ ?. lia.
  - destruct (prepare_page_ok s a Hd Pa) as (s1 & E1 & (A1 & B1 & D1 & V1 & Z1 & O1)); [apply Hr; [done | lia]|]. rewrite E1. cbn [mbind option_bind].
    assert (Pa' : paged (a + PAGE_SIZE)).
    { destruct Pa as [? Ha]. change PAGE_SIZE with 4096. split; [lia|]. by rewrite Zplus_mod, Ha. }
    change PAGE_SIZE with 4096 in *.
    destruct (IH s1 (a + 4096) D1 Pa') as (s2 & E2 & (A2 & B2 & D2 & V2 & Z2 & O2)); [lia | |].
    { intros b Pb Hb. destruct (O1 b Pb ltac:(lia)) as [H1 H2]. apply (ready_same s); [done | done |]. apply Hr; [done | lia]. }
    exists s2. split; [done|]. replace (a + 4096 * Z.of_nat (S m)) with (a + 4096 + 4096 * Z.of_nat m) by lia.
    split_and!; [congruence | congruence | done | | |].
    + intros b Pb. by rewrite V2, V1.
    + intros b Pb Hb w Hw. destruct (decide (a + 4096 <= b)) as [Hge | Hlt]; [apply (Z2 b Pb); [lia | done]|].
      destruct (O2 b Pb ltac:(lia)) as [_ H2]. rewrite H2 by done. apply (Z1 b Pb); [lia | done].
    + intros b Pb Hb. destruct (O2 b Pb ltac:(lia)) as [H1 H2]. destruct (O1 b Pb ltac:(lia)) as [H3 H4].
      split; [congruence|]. intros w Hw. by rewrite H2, H4.
Qed.

(** The pages that are handed out keep their tags. *)
Lemma tags_prepare m : forall s a s', prepare_pages m s a = Some s' -> same_tags s s'.
Proof.
  induction m as [| m IH]; intros s a s'; cbn [prepare_pages]; [by intros [= <-]|]. destruct (prepare_page s a) as [s1 |] eqn:E; [| done]. cbn [mbind option_bind]. intros H. eapply same_tags_trans; [| by eapply IH].
  unfold prepare_page in E. set (d0 := _get_block_descriptor s a) in *. set (d := if z2b _ then _ else d0) in *.
  assert (Hd : same_tags s (set_descriptor s a d)).
  { apply same_tags_set, tag_word_eq. intros i Hi. unfold d. destruct (z2b _); [| done]. cbn [bd_data]. fold (flag_clear (bd_data d0)). rewrite flag_clear_bit by lia.
    destruct (Z.eqb_spec i 10), (Z.ltb_spec i 64); try lia. cbn. by rewrite !andb_true_r. }
  clearbody d. repeat case_match; simplify_eq; [exact Hd | exact Hd].
Qed.

(** ** The list operations leave the pages alone *)

Lemma same_pop s k j : same_pages s (pop_block s k j).1.
Proof.
  unfold pop_block. cbn [fst]. eapply same_pages_trans; [| apply same_deinit].
  destruct (negb _); [done|]. eapply same_pages_trans; [| apply same_set_prev, paged_0]. done.
Qed.

Lemma same_split m : forall s k out j, 0 <= j - Z.of_nat m -> j < 32 -> same_pages s (split_block m s k out j).
Proof.
  induction m as [| m IH]; intros s k out j Hj Hj'; [done|]. cbn [split_block]. eapply same_pages_trans; [| apply IH; lia].
  set (s1 := _block_descriptor_set_prev_idx s (out + _get_block_size (j - 1) + _get_block_size (j - 1)) (j - 1)).
  apply (same_pages_trans _ s1); [apply same_set_prev_idx; lia|].
  apply (same_pages_trans _ (_block_descriptor_init s1 (out + _get_block_size (j - 1)) 0 (j - 1))); [| done].
  apply same_init; [apply paged_0 | lia].
Qed.

Lemma same_push s k a j : paged (tail (get_bucket s k j)) -> 0 <= j < 16 -> same_pages s (push_block s k a j).
Proof.
  intros Ht Hj. unfold push_block.
  eapply (same_pages_trans _ (_block_descriptor_set_prev_idx s (a + _get_block_size j) j)); [apply same_set_prev_idx; lia|].
  set (s1 := _block_descriptor_set_prev_idx s (a + _get_block_size j) j).
  change (tail (get_bucket s1 k j)) with (tail (get_bucket s k j)).
  eapply same_pages_trans; [apply (same_init s1 a (tail (get_bucket s k j)) j); [done | lia]|].
  destruct (z2b _); [| done]. eapply same_pages_trans; [apply same_set_next | done].
Qed.

Lemma same_unlink s k b j : paged (prev_of s b) -> same_pages s (unlink_block s k b j).
Proof.
  intros Hp. unfold unlink_block. fold (prev_of s b). set (nx := bd_next _). eapply same_pages_trans; [apply (same_deinit s b)|].
  set (s1 := _block_descriptor_deinit s b). eapply (same_pages_trans _ (if z2b (prev_of s b) then set_block_next s1 (prev_of s b) nx
    else let s2 := set_head s1 k j nx in if negb (z2b nx) then bitmap_clear s2 k j else s2)).
  - destruct (z2b (prev_of s b)); [apply same_set_next|]. cbv zeta. by destruct (negb _).
  - destruct (z2b nx); [by apply same_set_prev | done].
Qed.

(** ** Choosing an allocator *)

(** Allocator [k] has a block of at least [2^i] pages. *)
Definition has_block (s : pmm_t) (k : nat) (i : Z) : bool := z2b (Z.shiftr (bucket_bitmap (get_allocator s k)) i).

Lemma has_block_bit s n k i j : shape s n -> (k < n)%nat -> 0 <= i <= j -> bit s k j = true -> has_block s k i = true.
Proof.
  intros Hs Hk Hij Hb. unfold has_block, z2b. destruct (Z.eqb_spec (Z.shiftr (bucket_bitmap (get_allocator s k)) i) 0) as [E0 | E0]; [| done].
  exfalso. unfold bit in Hb. replace j with (j - i + i) in Hb by lia. rewrite <- Z.shiftr_spec, E0, Z.bits_0 in Hb by lia. done.
Qed.

(** The balancer reaches allocator [t] in at most [(t - index) mod n + 1] rounds. *)
Lemma balance_ok i fuel : forall s n t, length (_pmm_allocators s) = n -> Z.of_nat n < 2 ^ 32 -> 0 <= balancer_index s < Z.of_nat n ->
  (t < n)%nat -> has_block s t i = true -> (Z.of_nat t - balancer_index s) mod Z.of_nat n < Z.of_nat fuel ->
  exists b index, balance fuel s i = Some (mk_pmm (_pmm_allocators s) (_pmm_block_descriptors s) (memory s) b, index) /\
    0 <= b < Z.of_nat n /\ 0 <= index < Z.of_nat n /\ has_block s (Z.to_nat index) i = true.
Proof.
  induction fuel as [| fuel IH]; intros s n t Hn Hbig Hb Ht Hh Hf; [pose proof (Z.mod_pos_bound (Z.of_nat t - balancer_index s) (Z.of_nat n)); lia|].
  cbn [balance]. rewrite Hn. set (nxt := if Z.of_nat n <=? u32 (balancer_index s + 1) then _ else _).
  assert (Hnext : nxt = (balancer_index s + 1) mod Z.of_nat n /\ 0 <= nxt < Z.of_nat n).
  { subst nxt. rewrite u32_id by lia. destruct (Z.leb_spec (Z.of_nat n) (balancer_index s + 1)).
    - replace (balancer_index s + 1) with (Z.of_nat n) by lia. rewrite Z.sub_diag, Z.mod_same by lia. change (u32 0) with 0. lia.
    - rewrite Z.mod_small by lia. lia. }
  clearbody nxt. destruct Hnext as [Hnx Hrange].
  change (bucket_bitmap (get_allocator (mk_pmm (_pmm_allocators s) (_pmm_block_descriptors s) (memory s) nxt) (Z.to_nat (balancer_index s))))
    with (bucket_bitmap (get_allocator s (Z.to_nat (balancer_index s)))).
  fold (has_block s (Z.to_nat (balancer_index s)) i). destruct (has_block s (Z.to_nat (balancer_index s)) i) eqn:E0.
  - exists nxt, (balancer_index s). done.
  - set (s1 := mk_pmm _ _ _ nxt). destruct (IH s1 n t Hn Hbig Hrange Ht Hh) as (b & index & H1 & H2 & H3 & H4); [| by exists b, index].
    change (balancer_index s1) with nxt. assert (Hne : Z.of_nat t <> balancer_index s).
    { intros E1. rewrite <- E1, Nat2Z.id in E0. congruence. }
    rewrite Hnx, Zminus_mod_idemp_r. replace (Z.of_nat t - (balancer_index s + 1)) with (Z.of_nat t - balancer_index s - 1) by lia.
    destruct (Z.ltb_spec (Z.of_nat t) (balancer_index s)).
    + rewrite <- (Z_mod_plus_full _ 1), Z.mul_1_l in Hf. rewrite <- (Z_mod_plus_full _ 1), Z.mul_1_l. rewrite Z.mod_small in Hf by lia. rewrite Z.mod_small by lia. lia.
    + rewrite Z.mod_small in Hf by lia. rewrite Z.mod_small by lia. lia.
Qed.

Lemma retry_sound i wrap_ base fuel : forall s index r, retry_allocator fuel s i wrap_ base index = Some r -> has_block s (Z.to_nat r) i = true.
Proof.
  induction fuel as [| fuel IH]; intros s index r; [done|]. cbn [retry_allocator]. fold (has_block s (Z.to_nat index) i).
  destruct (has_block s (Z.to_nat index) i) eqn:E0; [by intros [= <-]|]. by destruct (_ =? base); [| apply IH].
Qed.

(** The first non-empty list at or above [i]. *)
Lemma first_list s n L k i : pmm_inv s n L -> 0 <= i < 16 -> has_block s k i = true ->
  let j := ctz (Z.shiftr (bucket_bitmap (get_allocator s k)) i) + 1 + i - 1 in
  (k < n)%nat /\ i <= j < 16 /\ L k j <> [] /\ forall j', i <= j' < j -> L k j' = [].
Proof.
  intros Hi Hr Hh j. destruct (i_shape _ _ _ Hi) as [Hn Hsh].
  assert (Hk : (k < n)%nat).
  { destruct (decide (k < n)%nat); [done|]. unfold has_block, get_allocator in Hh. rewrite nth_overflow in Hh by lia. by rewrite Z.shiftr_0_l in Hh. }
  destruct (Hsh k Hk) as [_ Hbm]. set (x := Z.shiftr _ i) in *.
  assert (Hx : 0 < x).
  { subst x. unfold has_block, z2b in Hh. assert (0 <= Z.shiftr (bucket_bitmap (get_allocator s k)) i) by (apply Z.shiftr_nonneg; lia).
    destruct (Z.eqb_spec (Z.shiftr (bucket_bitmap (get_allocator s k)) i) 0); [done | lia]. }
  destruct (ctz_spec x Hx) as (H1 & H2 & H3). subst j. replace (ctz x + 1 + i - 1) with (ctz x + i) by lia.
  assert (Hbit : forall y, 0 <= y -> Z.testbit x y = bit s k (y + i)) by (intros y Hy; subst x; by rewrite Z.shiftr_spec).
  assert (Hlt : ctz x + i < 16).
  { destruct (Z.ltb_spec (ctz x + i) 16); [done|]. exfalso. rewrite Hbit in H2 by done. unfold bit in H2. by rewrite (word_high 16) in H2 by lia. }
  split_and!; [done | lia | done | |].
  - rewrite Hbit in H2 by done. destruct (i_bucket _ _ _ Hi k (ctz x + i) Hk) as [_ E0]; [lia|]. rewrite E0 in H2. intros E1.
    by rewrite bool_decide_true in H2.
  - intros j' Hj'. destruct (i_bucket _ _ _ Hi k j' Hk) as [_ E0]; [lia|].
    assert (E1 : bit s k j' = false) by (replace j' with (j' - i + i) by lia; rewrite <- Hbit by lia; apply H3; lia).
    rewrite E0 in E1. apply negb_false_iff, bool_decide_eq_true in E1. done.
Qed.

(** ** Allocation *)

Lemma request_index_spec count : 0 < count < 2 ^ 64 ->
  let i := request_index count in 0 <= i /\ count <= 2 ^ i /\ 2 ^ i < 2 * count.
Proof.
  intros Hc. unfold request_index, clz64. replace (63 - (63 - Z.log2 count)) with (Z.log2 count) by lia.
  rewrite u64_id by lia. set (m := Z.log2 count). pose proof (Z.log2_spec count ltac:(lia)) as Hm. fold m in Hm.
  pose proof (Z.log2_nonneg count) as Hm0. fold m in Hm0. rewrite Z.pow_succ_r in Hm by done.
  destruct (decide (count = 2 ^ m)) as [E0 | E0].
  - assert (Hz : Z.land count (count - 1) = 0).
    { rewrite E0. replace (2 ^ m - 1) with (Z.ones m) by (rewrite Z.ones_equiv; lia). rewrite Z.land_ones by done. apply Z.mod_same. lia. }
    rewrite Hz. cbn. rewrite Z.add_0_r. lia.
  - assert (Hz : z2b (Z.land count (count - 1)) = true).
    { unfold z2b. destruct (Z.eqb_spec (Z.land count (count - 1)) 0) as [E1 | E1]; [| done]. exfalso.
      assert (Hb : Z.testbit (Z.land count (count - 1)) m = true); [| by rewrite E1, Z.bits_0 in Hb].
      rewrite Z.land_spec. apply andb_true_iff. split; [apply Z.bit_log2; lia|].
      replace m with (Z.log2 (count - 1)); [apply Z.bit_log2; lia|]. apply Z.log2_unique; [done|]. rewrite Z.pow_succ_r by done. lia. }
    rewrite Hz. cbn. rewrite Z.pow_add_r by lia. lia.
Qed.

(** Take a block of [2^i] pages from allocator [k]: the body of [pmm_alloc]. *)
Definition take_block (s : pmm_t) (k : nat) (i : Z) : option (pmm_t * Z) :=
  let j := ctz (Z.shiftr (bucket_bitmap (get_allocator s k)) i) + 1 + i - 1 in
  let '(s, out) := pop_block s k j in
  let s := _block_descriptor_set_prev_idx s (out + _get_block_size i) i in
  let s := split_block (Z.to_nat (j - i)) s k out j in
  s ← prepare_pages (Z.to_nat (Z.shiftr (_get_block_size i) PAGE_SIZE_SHIFT)) s out;
  Some (s, out).

Lemma size_pages i : 0 <= i < 16 -> Z.shiftr (_get_block_size i) PAGE_SIZE_SHIFT = 2 ^ i.
Proof.
  intros Hi. rewrite block_size by lia. unfold PAGE_SIZE_SHIFT, blk.
  rewrite Z.shiftr_div_pow2, Z.pow_add_r, Z.mul_comm, Z.div_mul by lia. done.
Qed.

Lemma block_pages i : 0 <= i < 16 -> 4096 * Z.of_nat (Z.to_nat (Z.shiftr (_get_block_size i) PAGE_SIZE_SHIFT)) = blk i.
Proof. intros Hi. rewrite size_pages, Z2Nat.id by lia. unfold blk. rewrite Z.pow_add_r by lia. change (2 ^ 12) with 4096. lia. Qed.

(** What an allocation of [2^i] pages at [out] does to the state. *)
Record allocated (s s' : pmm_t) (n : nat) (L L' : free_lists) (i out : Z) : Prop := {
  al_inv : pmm_inv s' n L';
  al_pages : pages_ok s' L';
  al_block : 0 < out /\ out mod blk i = 0 /\ out + blk i <= Z.of_nat n * 2 ^ 28;
  al_was_free : forall x, inside x out i -> free L x;
  al_free : forall x, free L' x <-> free L x /\ ~ inside x out i;
  al_zero : forall a w, paged a -> inside a out i -> in_page a w -> memory s' w = 0;
  al_same : forall a w, paged a -> ~ inside a out i -> in_page a w -> memory s' w = memory s w
}.

Lemma take_ok s n L k i : pmm_inv s n L -> pages_ok s L -> tagged s L -> 0 <= i < 16 -> has_block s k i = true ->
  exists s' L' out, take_block s k i = Some (s', out) /\ balancer_index s' = balancer_index s /\ tagged s' L' /\ allocated s s' n L L' i out.
Proof.
  intros Hi Hp Htg Hr Hh. unfold take_block. destruct (first_list s n L k i Hi Hr Hh) as (Hk & Hj & Hne & Hemp). set (j := _ + 1 + i - 1) in *. clearbody j.
  destruct (L k j) as [| out l] eqn:EL; [done|].
  destruct (bucket_pop_ok s n L k j out l Hi Hk ltac:(lia) EL) as [Hout Hi1]. pose proof (same_pop s k j) as Hs1. pose proof (tags_pop s k j) as Ht1.
  destruct (pop_block s k j) as [s1 out0]. cbn [fst snd] in *. subst out0. set (L1 := upd L k j l) in *.
  assert (Hin : out ∈ L k j) by (rewrite EL; by left). pose proof (i_mem _ _ _ Hi _ _ _ Hin) as Hblk.
  assert (Hnd : ~ (out ∈ l)) by (destruct (i_seg _ _ _ Hi k j Hk ltac:(lia)) as [_ Hnd]; rewrite EL in Hnd; by apply NoDup_cons in Hnd as [? _]).
  assert (Hf1 : forall x, free L1 x <-> free L x /\ ~ inside x out j).
  { intros x. apply (free_upd_remove s n); try done. intros b. rewrite EL. set_solver. }
  destruct (block_paged n k j out (i_n _ _ _ Hi) Hblk) as (Pout & Hend & _).
  assert (Hij : blk i <= blk j) by (unfold blk; apply Z.pow_le_mono_r; lia).
  assert (Hal : out mod blk i = 0).
  { destruct Hblk as (_ & _ & _ & Hm & _). apply Z.mod_divide in Hm as [q Hq]; [| pose proof (blk_pos j); lia].
    rewrite Hq. replace (blk j) with (2 ^ (j - i) * blk i) by (unfold blk; rewrite <- Z.pow_add_r by lia; f_equal; lia).
    rewrite Z.mul_assoc. apply Z.mod_mul. pose proof (blk_pos i). lia. }
  assert (Pmid : paged (out + blk i)).
  { pose proof (blk_pos i ltac:(lia)). destruct Pout as [? Hm]. split; [lia|]. rewrite Zplus_mod, Hm, (blk_paged i) by lia. done. }
  assert (Htg1 : tagged s1 L1) by (apply (tagged_sub s s1 L L1); [done | | done]; intros k' j' b [(-> & -> & Hb) | [_ Hb]]%upd_in; [rewrite EL; by right | done]).
  set (s2 := _block_descriptor_set_prev_idx s1 (out + _get_block_size i) i).
  assert (Et2 : forall b, paged b -> tag_of s2 b = if decide (b = out + blk i) then i else tag_of s1 b) by (intros b Pb; unfold s2; rewrite block_size by lia; apply tag_set_prev_idx; done || lia).
  assert (Hi2 : pmm_inv s2 n L1) by (unfold s2; rewrite block_size by lia; apply inv_prev_idx; [done | done | lia]).
  assert (Hs2 : same_pages s s2) by (eapply same_pages_trans; [exact Hs1 | apply same_set_prev_idx; lia]). clearbody s2.
  assert (Hfr : fresh n k L1 j out).
  { split; [done|]. intros k' j' a' Ha'. assert (Ha'' : a' ∈ L k' j' /\ a' <> out).
    { apply upd_in in Ha' as [(-> & -> & Ha') | [Hd Ha']]; [split; [rewrite EL; by right | by intros ->]|]. split; [done|]. intros ->. apply Hd. split.
      - destruct (i_mem _ _ _ Hi _ _ _ Ha') as (_ & _ & _ & _ & <-). by destruct Hblk as (_ & _ & _ & _ & <-).
      - rewrite <- (i_idx _ _ _ Hi _ _ _ Ha'). by rewrite (i_idx _ _ _ Hi _ _ _ Hin). }
    destruct Ha'' as [Ha'' Hd]. apply (i_apart _ _ _ Hi _ _ _ _ _ _ Hin Ha''). done. }
  assert (Htg2 : tagged s2 L1) by (apply (tagged_step s2 s1 s2 n k L1 L1 j out (out + blk i) i Hi2 Hfr); [pose proof (blk_pos i); lia | done | by left | done]).
  destruct (split_ok (Z.to_nat (j - i)) s2 n L1 k out j Hi2 Hfr Htg2) as (L2 & Hi3 & _ & Htg3 & Hf2); [lia | |].
  { intros j' Hj'. subst L1. unfold upd. rewrite decide_False by (intros [_ ?]; lia). apply Hemp. lia. }
  replace (j - Z.of_nat (Z.to_nat (j - i))) with i in Hf2 by lia.
  assert (Hs3 : same_pages s (split_block (Z.to_nat (j - i)) s2 k out j)) by (eapply same_pages_trans; [exact Hs2 | apply same_split; lia]).
  set (s3 := split_block _ s2 k out j) in *. clearbody s3.
  assert (Hfree2 : forall x, free L2 x <-> free L x /\ ~ inside x out i).
  { intros x. rewrite Hf2, Hf1. unfold inside in *. assert (Hsub : out <= x < out + blk j -> free L x) by (intros Hx; by exists k, j, out).
    assert (Hdec : (out <= x < out + blk j) \/ ~ (out <= x < out + blk j)) by lia. split.
    - intros [[H1 H2] | [H1 H2]]; [split; [done | lia] | split; [by apply Hsub | done]].
    - intros [H1 H2]. destruct Hdec; [by right | by left]. }
  assert (Hok3 : pages_ok s3 L) by (by eapply pages_ok_same; [exact Hs3 | |]).
  destruct (prepare_pages_ok (Z.to_nat (Z.shiftr (_get_block_size i) PAGE_SIZE_SHIFT)) s3 out) as (s4 & E4 & (A4 & B4 & D4 & V4 & Z4 & O4)).
  - apply (i_data _ _ _ Hi3).
  - done.
  - rewrite block_pages by lia. lia.
  - rewrite block_pages by lia. intros b Pb Hb. apply Hok3; [done|]. exists k, j, out. split; [done | unfold inside; lia].
  - rewrite E4. rewrite block_pages in Z4, O4 by lia. cbn [mbind option_bind]. exists s4, L2, out. destruct Hs3 as (Hm3 & Hb3 & Hp3). split_and!; [done | congruence | apply (tagged_sub s3 s4 L2 L2); [by eapply tags_prepare | done | done] |]. split.
    + by apply (inv_same s3).
    + intros a Pa Ha. apply Hfree2 in Ha as [Ha Hn]. destruct (O4 a Pa Hn) as [H1 H2]. apply (ready_same s3); [done | done | by apply Hok3].
    + destruct Hblk as (_ & _ & Hpos & _ & Hal'). split_and!; [done | done |].
      pose proof (allocator_range out ltac:(lia)) as Hra. rewrite Hal' in Hra.
      assert (Hd : exists c, (Z.of_nat k + 1) * 2 ^ 28 = c * blk i).
      { exists ((Z.of_nat k + 1) * 2 ^ (16 - i)). rewrite <- Z.mul_assoc. f_equal. unfold blk. rewrite <- Z.pow_add_r by lia. f_equal. lia. }
      destruct Hd as [c Hc]. pose proof (blk_pos i ltac:(lia)). apply Z.mod_divide in Hal as [q Hq]; [| lia]. assert (q < c) by nia. nia.
    + intros x Hx. exists k, j, out. split; [done | unfold inside in *; lia].
    + done.
    + intros a w Pa Ha Hw. by apply (Z4 a).
    + intros a w Pa Ha Hw. destruct (O4 a Pa Ha) as [_ H2]. rewrite H2 by done. by rewrite Hm3.
Qed.

Definition pmm_state (s : pmm_t) (n : nat) (L : free_lists) : Prop :=
  pmm_inv s n L /\ pages_ok s L /\ Z.of_nat n < 2 ^ 32 /\ 0 <= balancer_index s < Z.of_nat n /\ tagged s L.

Lemma state_balance s n L b : pmm_state s n L -> 0 <= b < Z.of_nat n ->
  pmm_state (mk_pmm (_pmm_allocators s) (_pmm_block_descriptors s) (memory s) b) n L.
Proof. intros (Hi & Hp & Hn & _ & Ht) Hb. split; [apply (inv_same s); [done | done | apply Hi | done]|]. split; [exact Hp|]. split; [done|]. split; [exact Hb | exact Ht]. Qed.

Lemma alloc_ok s n L count counter k j :
  pmm_state s n L -> 0 < count < 2 ^ 64 -> request_index count < 16 -> request_index count <= j -> L k j <> [] ->
  exists s' L' out, pmm_alloc (S n) s count counter false = Some (s', u64 (counter + 2 ^ request_index count), out)
    /\ allocated s s' n L L' (request_index count) out /\ pmm_state s' n L'.
Proof.
  intros Hst Hc Hr Hj Hne. pose proof (request_index_spec count Hc) as (Hi0 & _). unfold pmm_alloc.
  destruct (Z.eqb_spec count 0); [lia|]. set (i := request_index count) in *. clearbody i.
  destruct (Z.leb_spec PMM_ALLOCATOR_BUCKET_COUNT i) as [Hx | Hx]; [unfold PMM_ALLOCATOR_BUCKET_COUNT in Hx; lia|].
  destruct (Hst) as (Hi & Hp & Hn & Hb & Htg). destruct (L k j) as [| a0 l0] eqn:EL; [done|].
  destruct (i_mem _ _ _ Hi k j a0 ltac:(rewrite EL; by left)) as (Hk & Hj16 & _).
  assert (Hh : has_block s k i = true).
  { apply (has_block_bit s n k i j); [apply Hi | done | lia |]. destruct (i_bucket _ _ _ Hi k j Hk Hj16) as [_ ->]. by rewrite EL. }
  destruct (balance_ok i (S n) s n k (proj1 (i_shape _ _ _ Hi)) Hn Hb Hk Hh) as (b & index & E1 & Hb' & Hix & Hh').
  { pose proof (Z.mod_pos_bound (Z.of_nat k - balancer_index s) (Z.of_nat n)). lia. }
  rewrite E1. cbn [mbind option_bind]. set (s1 := mk_pmm _ _ _ b).
  assert (Hst1 : pmm_state s1 n L) by (by apply state_balance). change (has_block s1 (Z.to_nat index) i = true) in Hh'.
  replace (Z.land index 0xffffffff) with index by (change 0xffffffff with (Z.ones 32); rewrite Z.land_ones, Z.mod_small by lia; done).
  cbn [retry_allocator]. fold (has_block s1 (Z.to_nat index) i). rewrite Hh'. cbn [mbind option_bind].
  destruct (take_ok s1 n L (Z.to_nat index) i (proj1 Hst1) (proj1 (proj2 Hst1)) ltac:(apply Hst1) ltac:(lia) Hh') as (s' & L' & out & E2 & Hbal & Htg' & Hal).
  unfold take_block in E2. destruct (pop_block s1 (Z.to_nat index) _) as [s2 out2].
  destruct (prepare_pages _ _ out2) as [s3|]; [| done]. injection E2 as -> ->. cbn [mbind option_bind].
  rewrite size_pages by lia. exists s', L', out. split_and!; [done | |].
  - destruct Hal as [H1 H2 H3 H4 H5 H6 H7]. by split.
  - split_and!; [apply Hal | apply Hal | done | rewrite Hbal; apply Hst1 | rewrite Hbal; apply Hst1 | exact Htg'].
Qed.

(** ** Deallocation *)

Lemma dirty_ok m : forall s a, data_ok s -> paged a -> a + 4096 * Z.of_nat m <= 2 ^ 63 ->
  let s' := dirty_pages m s a in
  _pmm_allocators s' = _pmm_allocators s /\ balancer_index s' = balancer_index s /\ memory s' = memory s /\ data_ok s' /\
  (forall b, paged b -> view s' b = view s b) /\
  (forall b, paged b -> a <= b < a + 4096 * Z.of_nat m -> page_ready s' b) /\
  (forall b, paged b -> ~ (a <= b < a + 4096 * Z.of_nat m) -> page_state s' b = page_state s b).
Proof.
  induction m as [| m IH]; intros s a Hd Pa Hle; cbn [dirty_pages].
  - split_and!; try done. intros b _ ?. lia.
  - set (d0 := _get_block_descriptor s a). set (s1 := set_descriptor s a _).
    assert (D1 : data_ok s1) by (apply data_ok_set; [done | apply Hd]).
    assert (V1 : forall b, paged b -> view s1 b = view s b).
    { intros b Pb. unfold view, prev_of, idx_of, next_of, _block_descriptor_get_prev, _block_descriptor_get_idx, s1.
      rewrite get_set_descriptor by done. by destruct (decide (b = a)) as [-> |]. }
    assert (R1 : forall b, paged b -> bd_cookie (_get_block_descriptor s1 b) = (if decide (b = a) then COOKIE_PAGE_DIRTY else bd_cookie (_get_block_descriptor s b))
       /\ is_cache (_get_block_descriptor s1 b) = is_cache (_get_block_descriptor s b)).
    { intros b Pb. unfold s1. rewrite get_set_descriptor by done. by destruct (decide (b = a)) as [-> |]. }
    assert (Pa' : paged (a + PAGE_SIZE)).
    { destruct Pa as [? Ha]. change PAGE_SIZE with 4096. split; [lia|]. by rewrite Zplus_mod, Ha. }
    change PAGE_SIZE with 4096 in *. destruct (IH s1 (a + 4096) D1 Pa') as (A2 & B2 & M2 & D2 & V2 & Z2 & O2); [lia|].
    set (s2 := dirty_pages m s1 (a + 4096)) in *. clearbody s2.
    split_and!; [done | done | done | done | intros b Pb; by rewrite V2, V1 | |].
    + intros b Pb Hb. destruct (decide (a + 4096 <= b)) as [Hge | Hlt]; [apply Z2; [done | lia]|].
      assert (b = a) as -> by (destruct Pa as [? Ha], Pb as [? Hb']; pose proof (Z.div_mod a 4096); pose proof (Z.div_mod b 4096); lia).
      apply (ready_same s1); [apply O2; [done | lia] | intros; by rewrite M2 |]. right. left. destruct (R1 a Pa) as [E0 _]. by rewrite E0, decide_True.
    + intros b Pb Hb. rewrite O2 by (done || lia). destruct (R1 b Pb) as [E0 E1]. unfold page_state. rewrite E0, E1, decide_False; [done|]. intros ->. lia.
Qed.

Lemma tags_dirty m : forall s a, same_tags s (dirty_pages m s a).
Proof. induction m as [| m IH]; intros s a; cbn [dirty_pages]; [done|]. eapply same_tags_trans; [| apply IH]. by apply same_tags_set. Qed.

Lemma buddy_cases a i : 0 <= i < 15 -> 0 <= a < 2 ^ 64 -> a mod blk i = 0 ->
  if Z.testbit a (12 + i)
  then Z.lxor a (blk i) = a - blk i /\ Z.land a (lnot_w 64 (blk i)) = a - blk i /\ (a - blk i) mod blk (i + 1) = 0 /\ blk i <= a
  else Z.lxor a (blk i) = a + blk i /\ Z.land a (lnot_w 64 (blk i)) = a /\ a mod blk (i + 1) = 0.
Proof.
  intros Hi Ha Hm. pose proof (blk_pos i ltac:(lia)) as Hpos. pose proof (blk_succ i ltac:(lia)) as Hs.
  apply Z.mod_divide in Hm as [q Hq]; [| lia].
  assert (Hodd : Z.testbit a (12 + i) = Z.odd q).
  { rewrite Hq. unfold blk. replace (12 + i) with ((12 + i) + 0) at 2 by lia. rewrite Z.mul_pow2_bits_add by lia. apply Z.bit0_odd. }
  assert (Hpow : forall x, 0 <= x -> Z.testbit (blk i) x = (x =? 12 + i)) by (intros x Hx; unfold blk; rewrite Z.pow2_bits_eqb by lia; apply Z.eqb_sym).
  assert (Hland : Z.land a (lnot_w 64 (blk i)) = a - (if Z.testbit a (12 + i) then blk i else 0)).
  { replace (Z.land a (lnot_w 64 (blk i))) with (Z.ldiff a (blk i)).
    - unfold blk at 2. rewrite <- (land_pow2 a (12 + i)) by lia. fold (blk i).
      rewrite Z.sub_nocarry_ldiff.
      + apply Z.bits_inj'. intros x Hx. rewrite !Z.ldiff_spec, Z.land_spec. by destruct (Z.testbit a x), (Z.testbit (blk i) x).
      + apply Z.bits_inj'. intros x Hx. rewrite Z.ldiff_spec, Z.land_spec, Z.bits_0. by destruct (Z.testbit a x), (Z.testbit (blk i) x).
    - apply Z.bits_inj'. intros x Hx. rewrite Z.ldiff_spec, Z.land_spec, lnot64_bit by done.
      destruct (Z.ltb_spec x 64); [by rewrite andb_true_r|]. by rewrite (word_high 64 a) by lia. }
  destruct (Z.testbit a (12 + i)) eqn:Eb.
  - symmetry in Hodd. pose proof (Zodd_div2 q) as Hd. apply Zodd_bool_iff in Hodd. specialize (Hd Hodd).
    assert (Hx : Z.lxor a (blk i) = a - blk i).
    { assert (Hz : Z.land (Z.lxor a (blk i)) (blk i) = 0).
      { unfold blk at 2. rewrite land_pow2 by lia. rewrite Z.lxor_spec, Eb, Hpow, Z.eqb_refl by lia. done. }
      apply Z.add_nocarry_lxor in Hz. rewrite Z.lxor_assoc, Z.lxor_nilpotent, Z.lxor_0_r in Hz. lia. }
    assert (0 <= q) by nia. assert (1 <= q) by lia. split_and!; [done | done | | nia]. rewrite Hq, Hs. replace (q * blk i - blk i) with (Z.div2 q * (2 * blk i)) by nia. apply Z.mod_mul. lia.
  - symmetry in Hodd. assert (He : Z.even q = true) by (by rewrite <- Z.negb_odd, Hodd). apply Zeven_bool_iff, Zeven_div2 in He.
    split_and!; [| lia | rewrite Hq, Hs; replace (q * blk i) with (Z.div2 q * (2 * blk i)) by nia; apply Z.mod_mul; lia].
    symmetry. apply Z.add_nocarry_lxor. unfold blk. rewrite land_pow2 by lia. by rewrite Eb.
Qed.

(** The block in hand cannot be merged: it is of the greatest size, or its
    buddy is not a free block. *)
Definition maximal (L : free_lists) (k : nat) (a i : Z) : Prop := i = 15 \/ Z.lxor a (blk i) ∉ L k i.

(** A tag is right when the buddy in front is free. *)
Lemma buddy_tag s n L k a i : pmm_inv s n L -> tagged s L -> block_of n k i a -> i < 15 ->
  z2b (Z.land a (blk i)) && negb (_block_descriptor_get_prev_idx s a =? i) = true -> Z.lxor a (blk i) ∉ L k i.
Proof.
  intros Hi Ht Hblk Hlt [H1 H2]%andb_true_iff Hin. destruct (Hblk) as (Hk & Hir & Ha0 & Ham & Har). destruct (block_paged n k i a (i_n _ _ _ Hi) Hblk) as ([? _] & Hend & _).
  pose proof (buddy_cases a i ltac:(lia) ltac:(lia) Ham) as Hc. destruct (Z.testbit a (12 + i)) eqn:Eb.
  - destruct Hc as (Ex & _). pose proof (Ht k i _ Hin) as Htag. rewrite Ex in Htag. replace (a - blk i + blk i) with a in Htag by lia. unfold tag_of in Htag. rewrite Htag, Z.eqb_refl in H2. done.
  - unfold blk in H1. rewrite land_pow2, Eb in H1 by lia. done.
Qed.

(** Coalescing keeps the memory to be freed together: the free lists and the
    block in hand cover the same bytes; it stops when no buddy is free. *)
Lemma coalesce_ok m : forall s n L k a i, pmm_inv s n L -> fresh n k L i a -> tagged s L -> i + Z.of_nat m = 15 ->
  let '(s', a', i') := coalesce m s k a i in
  exists L', pmm_inv s' n L' /\ fresh n k L' i' a' /\ same_pages s s' /\ tagged s' L' /\ maximal L' k a' i' /\
    (forall k j b, b ∈ L' k j -> b ∈ L k j) /\ a' <= a /\ a + blk i <= a' + blk i' /\
    forall x, free L' x \/ inside x a' i' <-> free L x \/ inside x a i.
Proof.
  induction m as [| m IH]; intros s n L k a i Hi Hf Htg Hm; cbn [coalesce]; [exists L; split_and!; try done; try lia; left; lia|].
  destruct (Hf) as [(Hk & Hir & Ha0 & Ham & Har) Hap]. rewrite block_size by lia.
  destruct (block_paged n k i a (i_n _ _ _ Hi) (proj1 Hf)) as (Pa & Hend & _).
  destruct (_ && _) eqn:Ebr.
  { exists L. split_and!; try done; try lia. right. by eapply (buddy_tag s n); [| | apply Hf | lia |]. }
  fold (idx_of s (Z.lxor a (blk i))). destruct (Z.eqb_spec (idx_of s (Z.lxor a (blk i))) i) as [Eidx | Eidx]; cbn [negb].
  2: { exists L. split_and!; try done; try lia. right. intros Hin. by apply Eidx, (i_idx _ _ _ Hi k). }
  set (buddy := Z.lxor a (blk i)) in *. pose proof (blk_pos i ltac:(lia)) as Hpos. pose proof (blk_succ i ltac:(lia)) as Hs.
  pose proof (buddy_cases a i ltac:(lia) ltac:(lia) Ham) as Hc. fold buddy in Hc. set (lo := Z.land a (lnot_w 64 (blk i))) in *.
  assert (Hcases : lo = Z.min a buddy /\ (buddy = a + blk i \/ buddy = a - blk i) /\ lo mod blk (i + 1) = 0 /\ 0 <= buddy < 2 ^ 64).
  { destruct (Z.testbit a (12 + i)).
    - destruct Hc as (-> & -> & H3 & H4). split_and!; [lia | by right | done | lia | lia].
    - destruct Hc as (-> & -> & H3). split_and!; [lia | by left | done | lia | lia]. }
  clearbody buddy lo. clear Hc. destruct Hcases as (Hlo & Hbud & Hlm & Hbr).
  assert (Pb : paged buddy).
  { split; [lia|]. destruct Pa as [_ Hpm]. pose proof (blk_paged i ltac:(lia)) as Hbp.
    destruct Hbud as [-> | ->]; [rewrite Zplus_mod | rewrite Zminus_mod]; by rewrite Hpm, Hbp. }
  destruct (i_used _ _ _ Hi buddy Pb ltac:(lia)) as (k' & j' & Hin). pose proof (i_idx _ _ _ Hi _ _ _ Hin) as Ej.
  rewrite Eidx in Ej. subst j'. destruct (i_mem _ _ _ Hi _ _ _ Hin) as (Hk' & _ & Hb0 & _ & Hbk).
  assert (Hregion : k' = k /\ allocator_of lo = k).
  { assert (Hd : exists c, (Z.of_nat k + 1) * 2 ^ 28 = c * blk (i + 1)).
    { exists ((Z.of_nat k + 1) * 2 ^ (15 - i)). rewrite <- Z.mul_assoc. f_equal. unfold blk. rewrite <- Z.pow_add_r by lia. f_equal. lia. }
    assert (Hd' : exists c, Z.of_nat k * 2 ^ 28 = c * blk (i + 1)).
    { exists (Z.of_nat k * 2 ^ (15 - i)). rewrite <- Z.mul_assoc. f_equal. unfold blk. rewrite <- Z.pow_add_r by lia. f_equal. lia. }
    destruct Hd as [c Hc], Hd' as [c' Hc']. apply Z.mod_divide in Hlm as [q Hq]; [| lia].
    pose proof (allocator_range a ltac:(lia)) as Hra. rewrite Har in Hra.
    assert (Hlr : Z.of_nat k * 2 ^ 28 <= lo /\ lo + 2 * blk i <= (Z.of_nat k + 1) * 2 ^ 28).
    { rewrite Hc, Hc', Hq, Hs in *. assert (c' <= q) by nia. assert (q < c) by nia. nia. }
    pose proof (allocator_range lo ltac:(lia)). pose proof (allocator_range buddy ltac:(lia)). lia. }
  destruct Hregion as [-> Hlk]. apply list_elem_of_split in Hin as (l1 & l2 & HL).
  pose proof (unlink_ok s n L k i l1 buddy l2 Hi Hk ltac:(lia) HL) as Hi1. set (L1 := upd L k i (l1 ++ l2)) in *.
  assert (Hin : buddy ∈ L k i) by (rewrite HL; set_solver).
  assert (Hnb : ~ (buddy ∈ l1 ++ l2)).
  { destruct (i_seg _ _ _ Hi k i Hk ltac:(lia)) as [_ Hnd]. rewrite HL in Hnd. apply NoDup_app in Hnd as (_ & H1 & [H2 _]%NoDup_cons). set_solver. }
  assert (Hfree1 : forall x, free L1 x <-> free L x /\ ~ inside x buddy i).
  { intros x. apply (free_upd_remove s n); try done. intros b. rewrite HL. set_solver. }
  assert (Hf1 : fresh n k L1 (i + 1) lo).
  { split; [repeat split; try lia; done|]. intros k2 j2 a2 Ha2. assert (Ha2' : a2 ∈ L k2 j2 /\ a2 <> buddy).
    { apply upd_in in Ha2 as [(-> & -> & Ha2) | [Hne Ha2]]; [split; [rewrite HL; set_solver | by intros ->]|]. split; [done|]. intros ->. apply Hne. split.
      - by destruct (i_mem _ _ _ Hi _ _ _ Ha2) as (_ & _ & _ & _ & <-).
      - rewrite <- (i_idx _ _ _ Hi _ _ _ Ha2). done. }
    destruct Ha2' as [Ha2' Hne]. pose proof (Hap _ _ _ Ha2') as H1. pose proof (i_apart _ _ _ Hi _ _ _ _ _ _ Hin Ha2' ltac:(done)) as H2.
    destruct (i_mem _ _ _ Hi _ _ _ Ha2') as (_ & Hj2 & _). pose proof (blk_pos j2 ltac:(lia)). unfold apart in *. lia. }
  assert (Hsub1 : forall k' j' b, b ∈ L1 k' j' -> b ∈ L k' j') by (intros k' j' b [(-> & -> & Hb) | [_ Hb]]%upd_in; [rewrite HL; set_solver | done]).
  assert (Pbp : paged (prev_of s buddy)) by (destruct (neighbours s n L k i l1 buddy l2 Hi Hk ltac:(lia) HL) as (-> & _ & _ & Pp & _); done).
  assert (Htg1 : tagged (unlink_block s k buddy i) L1) by (apply (tagged_sub s _ L L1); [by apply tags_unlink | done | done]).
  specialize (IH (unlink_block s k buddy i) n L1 k lo (i + 1) Hi1 Hf1 Htg1 ltac:(lia)).
  destruct (coalesce m (unlink_block s k buddy i) k lo (i + 1)) as [[s' a'] i']. destruct IH as (L' & H1 & H2 & H3 & H5 & H6 & H7 & H8 & H9 & H4).
  exists L'. split_and!; [done | done | | done | done | by eauto | lia | lia |].
  - eapply same_pages_trans; [| exact H3]. by apply same_unlink.
  - intros x. rewrite H4, Hfree1. assert (Hbf : inside x buddy i -> free L x) by (intros Hx; by exists k, i, buddy).
    unfold inside in *. assert (Hdec : buddy <= x < buddy + blk i \/ ~ (buddy <= x < buddy + blk i)) by lia. split.
    + intros [[? _] | Hx]; [by left|]. destruct Hdec as [Hd | Hd]; [left; by apply Hbf | right; lia].
    + intros [Hx | Hx]; [destruct Hdec as [Hd | Hd]; [right; lia | by left] | right; lia].
Qed.

(** What giving back [2^i] pages at [a] does to the state. *)
Record deallocated (s s' : pmm_t) (n : nat) (L L' : free_lists) (i a : Z) : Prop := {
  de_state : pmm_state s' n L';
  de_free : forall x, free L' x <-> free L x \/ inside x a i;
  de_memory : memory s' = memory s;
  de_merged : exists k a' i', a' ∈ L' k i' /\ a' <= a /\ a + blk i <= a' + blk i' /\ maximal L' k a' i' /\
    forall k' j b, b ∈ L' k' j -> b ∈ L k' j \/ (k' = k /\ j = i' /\ b = a')
}.

Lemma push_pages s n L k a i : pmm_inv s n L -> (k < n)%nat -> 0 <= i < 16 -> same_pages s (push_block s k a i).
Proof.
  intros Hi Hk Hr. apply same_push; [| done]. destruct (i_bucket _ _ _ Hi k i Hk Hr) as [-> _]. cbn [tail].
  destruct (decide (L k i = [])) as [-> | Hne]; [apply paged_0|]. eapply inv_paged; [done | by apply last_in].
Qed.

Lemma push_free L k i a x : free (upd L k i (L k i ++ [a])) x <-> free L x \/ inside x a i.
Proof. apply free_upd_add. intros b. set_solver. Qed.

Lemma push_tagged s n L k a i : pmm_inv s n L -> fresh n k L i a -> tagged s L -> tagged (push_block s k a i) (upd L k i (L k i ++ [a])).
Proof.
  intros Hi Hf Ht. destruct (Hf) as [(Hk & Hr & _) _]. destruct (block_paged n k i a (i_n _ _ _ Hi) (proj1 Hf)) as (_ & _ & Pe). pose proof (blk_pos i ltac:(lia)).
  apply (tagged_step s s _ n k L _ i a (a + blk i) i Hi Hf); [lia | | | done].
  - intros b Pb. apply tags_push; try done. destruct (i_bucket _ _ _ Hi k i Hk Hr) as [-> _]. cbn [tail].
    destruct (decide (L k i = [])) as [-> | Hne]; [apply paged_0|]. eapply inv_paged; [done | by apply last_in].
  - intros k' j' b [(-> & -> & [Hb | ->%list_elem_of_singleton]%elem_of_app) | [_ Hb]]%upd_in; [by left | by right | by left].
Qed.

Lemma lxor_pow_neq a i : 0 <= i -> Z.lxor a (blk i) <> a.
Proof.
  intros Hi E. apply (f_equal (fun x => Z.testbit x (12 + i))) in E. rewrite Z.lxor_spec in E. unfold blk in E. rewrite Z.pow2_bits_true in E by lia. by destruct (Z.testbit a (12 + i)).
Qed.

Lemma dealloc_ok s n L address count counter :
  pmm_state s n L -> 0 < count < 2 ^ 64 -> request_index count < 16 ->
  fresh n (allocator_of address) L (request_index count) address ->
  exists s' L', pmm_dealloc s address count counter = Some (s', u64 (counter - 2 ^ request_index count))
    /\ deallocated s s' n L L' (request_index count) address.
Proof.
  intros (Hi & Hp & Hn & Hb & Htg) Hc Hr Hf. pose proof (request_index_spec count Hc) as (Hi0 & _). unfold pmm_dealloc.
  destruct (Z.eqb_spec count 0); [lia|]. set (i := request_index count) in *. clearbody i.
  destruct (Z.leb_spec PMM_ALLOCATOR_BUCKET_COUNT i) as [Hx | Hx]; [unfold PMM_ALLOCATOR_BUCKET_COUNT in Hx; lia|].
  destruct (block_paged n _ i address (i_n _ _ _ Hi) (proj1 Hf)) as (Pa & Hend & _).
  destruct (dirty_ok (Z.to_nat (Z.shiftr (_get_block_size i) PAGE_SIZE_SHIFT)) s address (i_data _ _ _ Hi) Pa) as (A1 & B1 & M1 & D1 & V1 & R1 & O1).
  { rewrite block_pages by lia. lia. }
  rewrite block_pages in R1, O1 by lia. set (s1 := dirty_pages _ s address) in *. assert (Htg1 : tagged s1 L) by (apply (tagged_sub s s1 L L); [apply tags_dirty | done | done]). clearbody s1.
  assert (Hi1 : pmm_inv s1 n L) by (by apply (inv_same s)).
  assert (Hready : forall a, paged a -> free L a \/ inside a address i -> page_ready s1 a).
  { intros a Pa' Ha. destruct (decide (address <= a < address + blk i)) as [Hin | Hout]; [by apply R1|].
    destruct Ha as [Ha | Ha]; [| by destruct Hout]. apply (ready_same s); [by apply O1 | intros; by rewrite M1 | by apply Hp]. }
  pose proof (coalesce_ok (Z.to_nat (PMM_ALLOCATOR_BUCKET_COUNT - 1 - i)) s1 n L _ address i Hi1 Hf Htg1) as Hco.
  specialize (Hco ltac:(unfold PMM_ALLOCATOR_BUCKET_COUNT; lia)).
  destruct (coalesce _ s1 _ address i) as [[s2 a2] i2]. destruct Hco as (L2 & Hi2 & Hf2 & Hs2 & Htg2 & Hmax2 & Hsub2 & Hle2 & Hge2 & Hfree2).
  destruct (Hf2) as [(Hk & Hi2r & _) _]. rewrite size_pages by lia.
  eexists _, (upd L2 (allocator_of address) i2 (L2 (allocator_of address) i2 ++ [a2])). split; [done|].
  pose proof (push_pages s2 n L2 (allocator_of address) a2 i2 Hi2 Hk Hi2r) as Hs3.
  pose proof (bucket_push_ok s2 n L2 _ a2 i2 Hi2 Hf2) as Hi3. pose proof (push_tagged s2 n L2 _ a2 i2 Hi2 Hf2 Htg2) as Htg3. set (s3 := push_block s2 _ a2 i2) in *. clearbody s3.
  assert (Hs13 : same_pages s1 s3) by (by eapply same_pages_trans). destruct Hs13 as (Hm & Hbal & Hps). split.
  - split; [done|]. split; [| split; [done|]; split; [lia | exact Htg3]]. intros a Pa' Ha. apply (ready_same s1); [done | intros; by rewrite Hm |].
    apply Hready; [done|]. apply Hfree2. by rewrite push_free in Ha.
  - intros x. rewrite push_free. apply Hfree2.
  - congruence.
  - exists (allocator_of address), a2, i2. split_and!; [rewrite upd_eq; set_solver | done | done | |].
    + destruct Hmax2 as [? | Hmax2]; [by left | right]. rewrite upd_eq. intros [Hin | Hin%list_elem_of_singleton]%elem_of_app; [done|]. by apply (lxor_pow_neq a2 i2 ltac:(lia)).
    + intros k' j b [(-> & -> & [Hb' | ->%list_elem_of_singleton]%elem_of_app) | [_ Hb']]%upd_in; [left; by apply Hsub2 | by right | left; by apply Hsub2].
Qed.

(** ** Registering memory *)

Lemma ctz_divides x : 0 < x -> x mod 2 ^ ctz x = 0.
Proof.
  intros Hx. destruct (ctz_spec x Hx) as (H1 & _ & H3). apply Z.bits_inj'. intros i Hi. rewrite Z.bits_0.
  destruct (Z.ltb_spec i (ctz x)); [by rewrite Z.mod_pow2_bits_low, H3 by lia | by rewrite Z.mod_pow2_bits_high by lia].
Qed.

Lemma mod_pow_le x m m' : 0 <= m <= m' -> x mod 2 ^ m' = 0 -> x mod 2 ^ m = 0.
Proof.
  intros Hm Hx. apply Z.mod_divide in Hx; [| lia]. apply Z.mod_divide; [lia|]. eapply Z.divide_trans; [| exact Hx].
  exists (2 ^ (m' - m)). rewrite <- Z.pow_add_r by lia. f_equal. lia.
Qed.

(** The size chosen for the block at [address] is aligned and fits. *)
Lemma pick_size address len : 0 < address < 2 ^ 63 -> address mod 4096 = 0 -> 4096 <= len < 2 ^ 63 ->
  let idx := clamp_idx (u32 (ctz address - PAGE_SIZE_SHIFT)) in
  let idx := if len <? _get_block_size idx then clamp_idx (u32 (63 - clz64 len - PAGE_SIZE_SHIFT)) else idx in
  0 <= idx < 16 /\ address mod blk idx = 0 /\ blk idx <= len.
Proof.
  intros Ha Hm Hl. unfold PAGE_SIZE_SHIFT. destruct (ctz_spec address ltac:(lia)) as (C1 & C2 & _). pose proof (ctz_divides address ltac:(lia)) as Cd.
  assert (C12 : 12 <= ctz address).
  { destruct (Z.leb_spec 12 (ctz address)); [done|]. exfalso. rewrite <- (Z.mod_pow2_bits_low address 12) in C2 by lia.
    change (2 ^ 12) with 4096 in C2. by rewrite Hm, Z.bits_0 in C2. }
  assert (C63 : ctz address < 63) by (destruct (Z.ltb_spec (ctz address) 63); [done|]; by rewrite (word_high 63) in C2 by lia).
  rewrite (u32_id (ctz address - 12)) by lia.
  assert (Hc : forall x, 0 <= x -> 0 <= clamp_idx x < 16 /\ clamp_idx x <= x).
  { intros x Hx. unfold clamp_idx, PMM_ALLOCATOR_BUCKET_COUNT. destruct (Z.leb_spec 16 x); lia. }
  destruct (Hc (ctz address - 12)) as [H1 H2]; [lia|]. set (i1 := clamp_idx (ctz address - 12)) in *. clearbody i1.
  assert (Hal : forall i, 0 <= i <= i1 -> address mod blk i = 0) by (intros i Hi; apply (mod_pow_le _ _ (ctz address)); [lia | done]).
  cbv zeta. rewrite block_size by lia. destruct (Z.ltb_spec len (blk i1)) as [Hlt | Hge]; [| split_and!; [lia | lia | apply Hal; lia | done]].
  unfold clz64. replace (63 - (63 - Z.log2 len) - 12) with (Z.log2 len - 12) by lia. pose proof (Z.log2_spec len ltac:(lia)) as Hlog.
  assert (L12 : 12 <= Z.log2 len) by (apply (Z.log2_le_pow2 len 12); lia).
  assert (Lup : Z.log2 len < 12 + i1) by (apply Z.log2_lt_pow2; [lia | exact Hlt]).
  rewrite u32_id by lia. destruct (Hc (Z.log2 len - 12)) as [H3 H4]; [lia|]. set (i2 := clamp_idx _) in *. clearbody i2.
  split_and!; [lia | lia | apply Hal; lia |]. unfold blk. transitivity (2 ^ Z.log2 len); [apply Z.pow_le_mono_r; lia | lia].
Qed.

Lemma range_ok fuel : forall s n L a e, pmm_state s n L -> 0 < a < e -> a mod 4096 = 0 -> e mod 4096 = 0 -> e <= Z.of_nat n * 2 ^ 28 ->
  (e - a) / 4096 <= Z.of_nat fuel ->
  (forall k j b, b ∈ L k j -> b + blk j <= a \/ e <= b) -> (forall b, paged b -> a <= b < e -> page_ready s b) ->
  exists s' L', add_range_loop fuel s a e = Some s' /\ pmm_state s' n L' /\ (forall x, free L' x <-> free L x \/ a <= x < e) /\ memory s' = memory s.
Proof.
  induction fuel as [| fuel IH]; intros s n L a e (Hi & Hp & Hn & Hb & Htg) Ha Hma Hme He Hf Hfr Hrd;
    assert (Hlen : 4096 <= e - a) by (pose proof (Z.div_mod a 4096); pose proof (Z.div_mod e 4096); lia).
  { pose proof (Z.div_le_lower_bound (e - a) 4096 1). lia. }
  assert (Hn35 : Z.of_nat n <= 2 ^ 35) by apply (i_n _ _ _ Hi).
  cbn [add_range_loop]. rewrite (u64_id (e - a)) by lia.
  destruct (pick_size a (e - a)) as (H1 & H2 & H3); [lia | done | lia |]. cbv zeta in H1, H2, H3.
  set (idx := if _ <? _ then _ else _) in *. clearbody idx. pose proof (blk_pos idx ltac:(lia)) as Hpos.
  rewrite block_size by lia. rewrite (u64_id (a + blk idx)) by lia.
  assert (Hblk : block_of n (allocator_of a) idx a).
  { repeat split; try lia; try done. pose proof (allocator_range a ltac:(lia)). lia. }
  assert (Hfresh : fresh n (allocator_of a) L idx a).
  { split; [done|]. intros k j b Hin. specialize (Hfr _ _ _ Hin). unfold apart. lia. }
  pose proof (bucket_push_ok s n L _ a idx Hi Hfresh) as Hi1. pose proof (push_pages s n L _ a idx Hi (proj1 Hblk) H1) as Hs1.
  pose proof (push_tagged s n L _ a idx Hi Hfresh Htg) as Htg1.
  set (L1 := upd L (allocator_of a) idx _) in *. set (s1 := push_block s (allocator_of a) a idx) in *. clearbody s1.
  assert (Hfree1 : forall x, free L1 x <-> free L x \/ inside x a idx) by (intros x; apply push_free).
  destruct Hs1 as (Hm1 & Hb1 & Hp1).
  assert (Hrd1 : forall b, paged b -> page_ready s b -> page_ready s1 b) by (intros b Pb; apply ready_same; [done | intros; by rewrite Hm1]).
  assert (Hst1 : pmm_state s1 n L1).
  { split; [done|]. split; [| split; [done|]; split; [lia | exact Htg1]]. intros b Pb Hbf. apply Hrd1; [done|]. apply Hfree1 in Hbf as [Hbf | Hbf]; [by apply Hp|].
    apply Hrd; [done|]. unfold inside in Hbf. lia. }
  destruct (Z.ltb_spec (a + blk idx) e) as [Hlt | Hge].
  - destruct (IH s1 n L1 (a + blk idx) e Hst1) as (s' & L' & E1 & E2 & E3 & E4); try lia; try done.
    + rewrite Zplus_mod, Hma, (blk_paged idx) by lia. done.
    + assert (Hq : (e - a) = (e - (a + blk idx)) + blk idx) by lia. rewrite Hq in Hf.
      assert ((e - (a + blk idx)) / 4096 + 1 <= (e - (a + blk idx) + blk idx) / 4096).
      { rewrite <- Z.div_add by lia. apply Z.div_le_mono; lia. }
      lia.
    + intros k j b [(-> & -> & Hin) | [_ Hin]]%upd_in; [| specialize (Hfr _ _ _ Hin); lia].
      apply elem_of_app in Hin as [Hin | ->%list_elem_of_singleton]; [specialize (Hfr _ _ _ Hin); lia | lia].
    + intros b Pb Hbr. apply Hrd1; [done|]. apply Hrd; [done | lia].
    + exists s', L'. split_and!; [done | done | | congruence]. intros x. rewrite E3, Hfree1. unfold inside.
      assert (x < a + blk idx \/ a + blk idx <= x) by lia. intuition lia.
  - exists s1, L1. split_and!; [done | done | | done]. intros x. rewrite Hfree1. unfold inside. replace (a + blk idx) with e by lia. done.
Qed.

(** No memory registered. *)
Definition no_free : free_lists := fun _ _ => [].

Lemma empty_state n : (0 < n)%nat -> Z.of_nat n < 2 ^ 32 -> pmm_state (empty_pmm n) n no_free.
Proof.
  intros H0 Hn.
  assert (Hget : forall k, (k < n)%nat -> get_allocator (empty_pmm n) k = empty_allocator).
  { intros k Hk. unfold get_allocator, empty_pmm. cbn [_pmm_allocators]. apply nth_lookup_Some. by apply lookup_replicate. }
  assert (Hbk : forall k j, (k < n)%nat -> 0 <= j < 16 -> get_bucket (empty_pmm n) k j = mk_bucket 0 0).
  { intros k j Hk Hj. unfold get_bucket. rewrite Hget by done. unfold empty_allocator. cbn [buckets]. apply nth_lookup_Some, lookup_replicate. split; [done | lia]. }
  split; [| split; [by intros a _ (k & j & b & Hin & _); apply not_elem_of_nil in Hin | split; [done|]; split; [cbn [balancer_index empty_pmm]; lia | by intros k j a Hin%not_elem_of_nil]]].
  split.
  - split; [apply length_replicate|]. intros k Hk. rewrite Hget by done. split; [done | cbn; lia].
  - lia.
  - intros p. change (0 <= 31 < 2 ^ 64). lia.
  - intros k j Hk Hj. split; [by apply Hbk|]. unfold bit. rewrite Hget by done. cbn [bucket_bitmap empty_allocator]. by rewrite Z.bits_0.
  - intros k j Hk Hj. split; [done | constructor].
  - by intros k j a Hin%not_elem_of_nil.
  - by intros k j a Hin%not_elem_of_nil.
  - intros a Pa Hlt. change (31 < 16) in Hlt. lia.
  - by intros k j a k' j' a' Hin%not_elem_of_nil.
Qed.

(** ** The background thread *)

(** Clearing a page, free or not, keeps the manager consistent. *)
Lemma reset_page_ok s n L a : pmm_state s n L -> paged a -> pmm_state (reset_page s a) n L.
Proof.
  intros Hst Pa. pose proof Hst as (Hi & Hp & Hn & Hb & Htg). unfold reset_page. set (d := _get_block_descriptor s a).
  destruct (_ && _); [| exact Hst]. set (s' := set_descriptor _ a _).
  assert (V : forall b, paged b -> view s' b = view s b).
  { intros b Pb. unfold view, prev_of, idx_of, next_of, _block_descriptor_get_prev, _block_descriptor_get_idx, s'.
    rewrite get_set_descriptor by done. by destruct (decide (b = a)) as [-> |]. }
  assert (D : data_ok s') by (apply data_ok_set; apply (i_data _ _ _ Hi)).
  split; [by apply (inv_same s)|]. split; [| split; [done|]; split; [exact Hb | apply (tagged_sub s s' L L); [by apply (same_tags_set (clear_page s a)) | done | done]]]. intros b Pb Hbf. specialize (Hp b Pb Hbf).
  unfold page_ready, s' in *. rewrite get_set_descriptor by done. destruct (decide (b = a)) as [-> | Hne].
  - right. right. split; [done|]. intros w [H1 H2]. cbn [memory set_descriptor clear_page].
    by rewrite (proj2 (Z.leb_le _ _) H1), (proj2 (Z.ltb_lt _ _) H2).
  - destruct Hp as [Hp | [Hp | [Hp Hz]]]; [by left | by right; left | right; right]. split; [exact Hp|]. intros w Hw.
    cbn [memory set_descriptor clear_page]. destruct (_ && _); [done | by apply Hz].
Qed.

Lemma reset_block_ok m : forall s n L a, pmm_state s n L -> paged a -> a + 4096 * Z.of_nat m <= 2 ^ 63 -> pmm_state (reset_block m s a) n L.
Proof.
  induction m as [| m IH]; intros s n L a Hs Pa Hle; [done|]. cbn [reset_block].
  destruct m as [| m]; [by apply reset_page_ok|]. apply IH; [by apply reset_page_ok | | change PAGE_SIZE with 4096; lia].
  destruct Pa as [? Ha]. change PAGE_SIZE with 4096. split; [lia|]. by rewrite Zplus_mod, Ha.
Qed.

(** ** The properties *)

(** C3: a request for [count] pages (at most 2^15) is served while some free
    block is large enough, within one round of the load balancer: the caller
    gets an aligned block of 2^i >= count pages that was free, every word of it
    is zero, exactly this block leaves the free memory, no other page changes,
    and the state stays consistent. *)
Theorem pmm_alloc_correct (s : pmm_t) (n : nat) (L : free_lists) (count counter : Z) (k : nat) (j : Z) :
  pmm_state s n L -> 0 < count < 2 ^ 64 -> request_index count < 16 -> request_index count <= j -> L k j <> [] ->
  exists s' L' out, pmm_alloc (S n) s count counter false = Some (s', u64 (counter + 2 ^ request_index count), out)
    /\ count <= 2 ^ request_index count < 2 * count
    /\ allocated s s' n L L' (request_index count) out /\ pmm_state s' n L'.
Proof.
  intros Hs Hc Hr Hj Hne. destruct (alloc_ok s n L count counter k j Hs Hc Hr Hj Hne) as (s' & L' & out & H1 & H2 & H3).
  exists s', L', out. split_and!; try done; by apply request_index_spec.
Qed.

(** Sixteen pages at 0x1000 of a machine with two regions. *)
Definition demo_pmm : pmm_t := default (empty_pmm 2) (_add_memory_range 16 (empty_pmm 2) 0x1000 0x11000).

Lemma demo_pmm_ok : exists L, pmm_state demo_pmm 2 L /\ (forall x, free L x <-> 0x1000 <= x < 0x11000) /\ exists j, 0 <= j /\ L 0%nat j <> [].
Proof.
  destruct (range_ok 16 (empty_pmm 2) 2 no_free 0x1000 0x11000) as (s & L & E1 & E2 & E3 & _).
  - apply empty_state; lia.
  - lia.
  - done.
  - done.
  - lia.
  - vm_compute. discriminate.
  - by intros k j b Hin%not_elem_of_nil.
  - intros b Pb Hb. right. left. reflexivity.
  - exists L. assert (demo_pmm = s) as ->.
    { unfold demo_pmm, _add_memory_range. rewrite (proj2 (Z.leb_gt 0x11000 0x1000)) by lia. by rewrite E1. }
    clear E1. split_and!; [done | |].
    + intros x. rewrite E3. split; [intros [(k & j & b & Hin & _) | Hx] | by right]; [by apply not_elem_of_nil in Hin | exact Hx].
    + destruct (E3 0x1000) as [_ Hf]. destruct Hf as (k & j & b & Hin & Hx); [right; lia|].
      destruct (i_mem _ _ _ (proj1 E2) _ _ _ Hin) as (Hk & Hj & Hb & _ & Hal). exists j. split; [lia|].
      assert (k = 0%nat) as -> by (pose proof (allocator_range b ltac:(lia)); unfold inside in Hx; lia).
      intros E0. by rewrite E0 in Hin; apply not_elem_of_nil in Hin.
Qed.

Lemma pmm_alloc_correct_witness : exists L s' L' out,
  pmm_alloc 3 demo_pmm 1 0 false = Some (s', u64 (0 + 2 ^ request_index 1), out)
    /\ 1 <= 2 ^ request_index 1 < 2 * 1
    /\ allocated demo_pmm s' 2 L L' (request_index 1) out /\ pmm_state s' 2 L'.
Proof.
  destruct demo_pmm_ok as (L & Hs & _ & j & Hj & Hne). exists L.
  apply (pmm_alloc_correct demo_pmm 2 L 1 0 0%nat j Hs); [lia | reflexivity | exact Hj | exact Hne].
Defined.

(** C4: giving back a block that was handed out (aligned, inside a region, no
    byte of it free) succeeds: exactly its bytes join the free memory, and they
    are merged with free buddies as far as possible: the free block that holds
    them is of the greatest size or its own buddy is not a free block, and it is
    the only new block.  The memory itself is not touched, no free page is
    wrongly taken for clean, and the state stays consistent. *)
Theorem pmm_dealloc_correct (s : pmm_t) (n : nat) (L : free_lists) (address count counter : Z) :
  pmm_state s n L -> 0 < count < 2 ^ 64 -> request_index count < 16 ->
  fresh n (allocator_of address) L (request_index count) address ->
  exists s' L', pmm_dealloc s address count counter = Some (s', u64 (counter - 2 ^ request_index count))
    /\ deallocated s s' n L L' (request_index count) address.
Proof. apply dealloc_ok. Qed.

Lemma pmm_dealloc_correct_witness : exists L s' L',
  pmm_dealloc demo_pmm 0x20000 3 9 = Some (s', u64 (9 - 2 ^ request_index 3))
    /\ deallocated demo_pmm s' 2 L L' (request_index 3) 0x20000.
Proof.
  destruct demo_pmm_ok as (L & Hs & Hf & _). exists L.
  apply (pmm_dealloc_correct demo_pmm 2 L 0x20000 3 9 Hs); [lia | reflexivity |].
  split; [repeat split; vm_compute; congruence || reflexivity || lia|].
  intros k j a Hin. destruct (i_mem _ _ _ (proj1 Hs) _ _ _ Hin) as (_ & Hj & _). pose proof (blk_pos j ltac:(lia)) as Hp.
  assert (Hlo : free L (a + blk j - 1)) by (exists k, j, a; split; [exact Hin | unfold inside; lia]).
  apply Hf in Hlo. unfold apart. change (request_index 3) with 2. lia.
Defined.

(** C5: registering a page-aligned range that holds no free memory yet makes
    exactly the bytes of the range free, in at most one iteration per page. *)
Theorem add_memory_range_correct (s : pmm_t) (n : nat) (L : free_lists) (a e : Z) (fuel : nat) :
  pmm_state s n L -> 0 < a < e -> a mod 4096 = 0 -> e mod 4096 = 0 -> e <= Z.of_nat n * 2 ^ 28 ->
  (e - a) / 4096 <= Z.of_nat fuel ->
  (forall k j b, b ∈ L k j -> b + blk j <= a \/ e <= b) -> (forall b, paged b -> a <= b < e -> page_ready s b) ->
  exists s' L', _add_memory_range fuel s a e = Some s' /\ pmm_state s' n L' /\ (forall x, free L' x <-> free L x \/ a <= x < e).
Proof.
  intros Hs Ha Hma Hme He Hf Hfr Hrd. destruct (range_ok fuel s n L a e Hs Ha Hma Hme He Hf Hfr Hrd) as (s' & L' & E1 & E2 & E3 & _).
  exists s', L'. unfold _add_memory_range. destruct (Z.leb_spec e a); [lia|]. done.
Qed.

Lemma add_memory_range_correct_witness : exists s' L', _add_memory_range 64 (empty_pmm 2) 0x3000 0x40000 = Some s'
  /\ pmm_state s' 2 L' /\ (forall x, free L' x <-> free no_free x \/ 0x3000 <= x < 0x40000).
Proof.
  apply (add_memory_range_correct (empty_pmm 2) 2 no_free 0x3000 0x40000 64).
  - apply empty_state; lia.
  - lia.
  - reflexivity.
  - reflexivity.
  - lia.
  - vm_compute. discriminate.
  - intros k j b Hin. apply not_elem_of_nil in Hin. destruct Hin.
  - intros b Pb Hb. right. left. reflexivity.
Defined.

(** When no allocator has a large enough block, the load balancer never stops
    looking: the call does not return, and the check for exhausted memory that
    follows is not reached. *)
Lemma pmm_alloc_exhausted (s : pmm_t) (count counter : Z) (low_memory : bool) :
  count <> 0 -> request_index count < 16 -> (forall k, has_block s k (request_index count) = false) ->
  forall fuel, pmm_alloc fuel s count counter low_memory = None.
Proof.
  intros Hc Hr Hno fuel. unfold pmm_alloc. destruct (Z.eqb_spec count 0); [done|].
  destruct (Z.leb_spec PMM_ALLOCATOR_BUCKET_COUNT (request_index count)) as [Hx | Hx]; [unfold PMM_ALLOCATOR_BUCKET_COUNT in Hx; lia|].
  assert (Hb : forall fuel s, (forall k, has_block s k (request_index count) = false) -> balance fuel s (request_index count) = None).
  { clear. induction fuel as [| fuel IH]; intros s Hno; [done|]. cbn [balance]. cbv zeta.
    match goal with |- (if z2b (Z.shiftr (bucket_bitmap (get_allocator ?t ?k)) _) then _ else _) = _ =>
      change (z2b (Z.shiftr (bucket_bitmap (get_allocator t k)) (request_index count))) with (has_block s k (request_index count)) end.
    rewrite Hno. by apply IH. }
  by rewrite Hb.
Qed.
