(* ===== verification/Pages.v ===== *)
(** * Page allocators: the interface between the physical memory manager and
    the allocators above it.

    A client asks for blocks of [2^i] pages and gives them back.
    [PageAllocator] are the two operations, [PageAllocatorLaws] what a client
    may rely on: [held p B] says that [B] are the blocks (address and size
    index) the client holds.  [pmm_pages] is the instance for the physical
    memory manager. *)
From stdpp Require Import base tactics list numbers option sets.
From Stdlib Require Import ZArith Lia.
From S2P Require Import Prelude Pmm PmmView PmmInv PmmSpec.
#[local] Open Scope Z_scope.

(** No two blocks overlap. *)
Fixpoint all_apart (B : list (Z * Z)) : Prop :=
  match B with
  | [] => True
  | (a, i) :: B => (forall b j, (b, j) ∈ B -> apart a i b j) /\ all_apart B
  end.

#[export] Instance all_apart_perm : Proper ((≡ₚ) ==> iff) all_apart.
Proof.
  assert (H : forall B B' : list (Z * Z), B ≡ₚ B' -> all_apart B -> all_apart B').
  { induction 1 as [| [a i] B B' HP IH | [a i] [b j] B | B B' B'' _ IH1 _ IH2]; cbn [all_apart]; [done | | | tauto].
    - intros [H1 H2]. split; [| by apply IH]. intros b j Hin. apply H1. by rewrite HP.
    - intros (H1 & H2 & H3). split_and!; [| | done].
      + intros c k [[= -> ->] | Hin]%elem_of_cons; [apply apart_sym, H1; by left | by apply H2].
      + intros c k Hin. apply H1. by right. }
  intros B B' HP. split; apply H; [done | by symmetry].
Qed.

Class PageAllocator (P : Type) := {
  page_alloc : P -> Z -> option (P * Z);
  page_dealloc : P -> Z -> Z -> option P
}.

(** [serves p i]: a block of [2^i] pages can be had. *)
Class PageAllocatorLaws (P : Type) `{PageAllocator P} := {
  held : P -> list (Z * Z) -> Prop;
  serves : P -> Z -> Prop;
  held_block p B a i : held p B -> (a, i) ∈ B -> 0 < a /\ a mod blk i = 0 /\ a + blk i <= 2 ^ 47 /\ 0 <= i < 16;
  held_apart p B : held p B -> all_apart B;
  page_alloc_law p B i : held p B -> 0 <= i < 16 -> serves p i ->
    exists p' a, page_alloc p (2 ^ i) = Some (p', a) /\ held p' ((a, i) :: B);
  page_dealloc_law p B1 B2 a i : held p (B1 ++ (a, i) :: B2) ->
    exists p', page_dealloc p a (2 ^ i) = Some p' /\ held p' (B1 ++ B2)
}.

(** ** The physical memory manager *)

(** The state with the counter of the client; [fuel] bounds the search for an
    allocator that has memory left. *)
Record client := mk_client { c_pmm : pmm_t; c_counter : Z }.

Definition search_fuel (s : pmm_t) : nat := S (length (_pmm_allocators s)).

#[export] Instance pmm_pages : PageAllocator client := {
  page_alloc c count :=
    r ← pmm_alloc (search_fuel (c_pmm c)) (c_pmm c) count (c_counter c) false;
    let '(s, counter, out) := (r : pmm_t * Z * Z) in Some (mk_client s counter, out);
  page_dealloc c address count :=
    r ← pmm_dealloc (c_pmm c) address count (c_counter c);
    let '(s, counter) := (r : pmm_t * Z) in Some (mk_client s counter)
}.

(** Memory reaches up to 2^47 at most: the kernel maps it in the higher half. *)
Record pmm_held (c : client) (B : list (Z * Z)) : Prop := {
  ph_state : exists n L, pmm_state (c_pmm c) n L /\ Z.of_nat n <= 2 ^ 19 /\
    (forall a i, (a, i) ∈ B -> fresh n (allocator_of a) L i a);
  ph_apart : all_apart B
}.

(** Some allocator has a block of at least [2^i] pages. *)
Definition pmm_serves (c : client) (i : Z) : Prop := exists k, has_block (c_pmm c) k i = true.

Lemma request_pow i : 0 <= i < 16 -> request_index (2 ^ i) = i.
Proof.
  intros Hi. assert (Hc : 0 < 2 ^ i < 2 ^ 64) by (split; [lia | apply Z.pow_lt_mono_r; lia]).
  destruct (request_index_spec _ Hc) as (H0 & H1 & H2). 
  assert (i <= request_index (2 ^ i)) by (apply (Z.pow_le_mono_r_iff 2); lia).
  assert (request_index (2 ^ i) < i + 1) by (apply (Z.pow_lt_mono_r_iff 2); rewrite ?Z.pow_add_r; lia). lia.
Qed.

Lemma block_end n k i a : block_of n k i a -> a + blk i <= (Z.of_nat k + 1) * 2 ^ 28.
Proof.
  intros (_ & Hi & Ha & Hal & <-). pose proof (allocator_range a ltac:(lia)). pose proof (blk_pos i ltac:(lia)).
  assert (Hc : (Z.of_nat (allocator_of a) + 1) * 2 ^ 28 = (Z.of_nat (allocator_of a) + 1) * 2 ^ (16 - i) * blk i).
  { rewrite <- Z.mul_assoc. f_equal. unfold blk. rewrite <- Z.pow_add_r by lia. f_equal. lia. }
  rewrite Hc in *. apply Z.mod_divide in Hal as [q Hq]; [| lia].
  assert (q < (Z.of_nat (allocator_of a) + 1) * 2 ^ (16 - i)) by nia. nia.
Qed.

(** Two blocks are apart when no byte is in both. *)
Lemma apart_bytes a i b j : 0 <= i -> 0 <= j -> (forall x, inside x a i -> ~ inside x b j) -> apart a i b j.
Proof.
  intros Hi Hj H. pose proof (blk_pos i Hi). pose proof (blk_pos j Hj). unfold apart, inside in *.
  pose proof (H a). pose proof (H b). lia.
Qed.

Lemma fresh_free n L k i a x : fresh n k L i a -> inside x a i -> ~ free L x.
Proof. intros [_ Hf] Hx (k' & j' & a' & Hin & Hx'). pose proof (Hf _ _ _ Hin). unfold apart, inside in *. lia. Qed.

Lemma free_fresh s n L k i a : pmm_inv s n L -> block_of n k i a -> (forall x, inside x a i -> ~ free L x) -> fresh n k L i a.
Proof.
  intros Hi Hb Hx. split; [done|]. intros k' j' a' Hin. destruct (i_mem _ _ _ Hi _ _ _ Hin) as (_ & Hj & _).
  destruct Hb as (_ & Hj' & _). apply apart_bytes; [lia | lia |]. intros x H1 H2. apply (Hx x H1). by exists k', j', a'.
Qed.

Lemma pmm_held_block c B a i : pmm_held c B -> (a, i) ∈ B -> 0 < a /\ a mod blk i = 0 /\ a + blk i <= 2 ^ 47 /\ 0 <= i < 16.
Proof.
  intros [(n & L & Hs & Hn & Hf) _] Hin. destruct (Hf _ _ Hin) as [Hb _]. pose proof (block_end _ _ _ _ Hb).
  destruct Hb as (Hk & Hi & Ha & Hal & _). split_and!; [done | done | | lia | lia]. nia.
Qed.

Lemma pmm_alloc_law c B i : pmm_held c B -> 0 <= i < 16 -> pmm_serves c i ->
  exists c' a, page_alloc c (2 ^ i) = Some (c', a) /\ pmm_held c' ((a, i) :: B).
Proof.
  intros [(n & L & Hs & Hn & Hf) Hap] Hi [k Hk]. destruct (first_list _ _ _ _ _ (proj1 Hs) Hi Hk) as (_ & Hj & Hne & _).
  assert (Hc : 0 < 2 ^ i < 2 ^ 64) by (split; [lia | apply Z.pow_lt_mono_r; lia]).
  destruct (alloc_ok (c_pmm c) n L (2 ^ i) (c_counter c) k _ Hs Hc ltac:(rewrite request_pow; lia) ltac:(rewrite request_pow by lia; apply Hj) Hne) as (s' & L' & a & E & Hal & Hs').
  destruct (i_shape _ _ _ (proj1 Hs)) as [Hlen _]. exists (mk_client s' (u64 (c_counter c + 2 ^ request_index (2 ^ i)))), a.
  cbn [page_alloc pmm_pages]. unfold search_fuel. rewrite Hlen, E. split; [done|]. rewrite request_pow in Hal by lia.
  destruct Hal as [_ _ (Ha & Hm & He) Hwas Hfree _ _].
  assert (Hnew : forall b j, (b, j) ∈ B -> apart a i b j).
  { intros b j Hin. pose proof (Hf _ _ Hin) as Hfr. destruct (Hfr) as [(_ & Hj' & _) _]. apply apart_bytes; [lia | lia |].
    intros x H1 H2. apply (fresh_free _ _ _ _ _ _ Hfr H2). by apply Hwas. }
  split.
  - exists n, L'. cbn [c_pmm]. split_and!; [done | done |]. intros b j [[= -> ->] | Hin]%elem_of_cons.
    + apply (free_fresh s'); [apply Hs' | | intros x Hx; rewrite Hfree; tauto].
      pose proof (allocator_range a ltac:(lia)). pose proof (blk_pos i ltac:(lia)). split_and!; try done; nia.
    + pose proof (Hf _ _ Hin) as Hfr. apply (free_fresh s'); [apply Hs' | apply Hfr |].
      intros x Hx. rewrite Hfree. intros [H _]. by apply (fresh_free _ _ _ _ _ _ Hfr Hx).
  - by split.
Qed.

Lemma pmm_dealloc_law c B1 B2 a i : pmm_held c (B1 ++ (a, i) :: B2) ->
  exists c', page_dealloc c a (2 ^ i) = Some c' /\ pmm_held c' (B1 ++ B2).
Proof.
  intros [(n & L & Hs & Hn & Hf) Hap]. pose proof (Hf a i ltac:(set_solver)) as Hfr. destruct (Hfr) as [(_ & Hi & _) _].
  assert (Hc : 0 < 2 ^ i < 2 ^ 64) by (split; [lia | apply Z.pow_lt_mono_r; lia]).
  destruct (dealloc_ok (c_pmm c) n L a (2 ^ i) (c_counter c) Hs Hc) as (s' & L' & E & [Hs' Hfree _ _]);
    [rewrite request_pow; lia | by rewrite request_pow by lia |].
  exists (mk_client s' (u64 (c_counter c - 2 ^ request_index (2 ^ i)))). cbn [page_dealloc pmm_pages]. rewrite E. split; [done|].
  rewrite request_pow in Hfree by lia. split.
  - exists n, L'. cbn [c_pmm]. split_and!; [done | done |]. intros b j Hin. pose proof (Hf b j ltac:(set_solver)) as Hfb.
    apply (free_fresh s'); [apply Hs' | apply Hfb |]. intros x Hx. rewrite Hfree. intros [H | H]; [by apply (fresh_free _ _ _ _ _ _ Hfb Hx)|].
    pose proof Hap as Hap'. rewrite <- Permutation_middle in Hap'. pose proof (proj1 Hap' _ _ Hin). unfold apart, inside in *. lia.
  - by rewrite <- Permutation_middle in Hap; destruct Hap.
Qed.

#[export] Instance pmm_pages_laws : PageAllocatorLaws client := {
  held := pmm_held;
  serves := pmm_serves;
  held_block := pmm_held_block;
  held_apart c B H := ph_apart c B H;
  page_alloc_law := pmm_alloc_law;
  page_dealloc_law := pmm_dealloc_law
}.
