(* ===== verification/Omm.v ===== *)
(** * The object allocator: objects of one size in pages
    ([src/src/kernel/memory/omm.c]).

    A page starts with a header and is cut into objects; the free objects of a
    page are linked through their first word.  The pages are in three doubly
    linked lists, by how many of their objects are in use.  Headers and object
    links are two memories: an object never overlaps a header, which is part of
    what [OmmSpec] proves.  Every operation holds the lock of the allocator.
    The name and the handle of an allocator play no part. *)
From stdpp Require Import base tactics list numbers option gmap.
From Stdlib Require Import ZArith Lia.
From S2P Require Import Prelude Pages.
#[local] Open Scope Z_scope.

Definition PAGE_SIZE_SHIFT : Z := 12.
Definition VMM_HIGHER_HALF_ADDRESS_OFFSET : Z := 0xffff800000000000.

(** [sizeof(omm_object_t)] and [sizeof(omm_page_header_t)] *)
Definition sizeof_object : Z := 8.
Definition sizeof_page_header : Z := 32.

Record omm_page_header_t := PageHeader {
  pg_prev : Z;
  pg_next : Z;
  pg_head : Z;
  pg_object_size : Z;
  pg_used_count : Z
}.

Record omm_allocator_t := Allocator {
  object_size : Z;
  alignment : Z;
  page_count : Z;
  max_used_count : Z;
  page_free_head : Z;
  page_used_head : Z;
  page_full_head : Z;
  allocation_count : Z;
  deallocation_count : Z
}.

(** [None]: a panic, or a division by zero. *)
Definition _init_allocator (object_size alignment page_count : Z) : option omm_allocator_t :=
  let object_size := if object_size <? sizeof_object then sizeof_object else object_size in
  if z2b (Z.land alignment (u64 (alignment - 1))) then None
  else if z2b (Z.land page_count (u64 (page_count - 1))) then None
  else
    let size := u32 (Z.land (u64 (object_size + alignment - 1)) (u64 (- alignment))) in
    let header := Z.land (u64 (sizeof_page_header + alignment - 1)) (u64 (- alignment)) in
    if size =? 0 then None
    else
      let max_used_count := u32 (u64 (Z.shiftl page_count PAGE_SIZE_SHIFT - header) / size) in
      Some (Allocator size (u32 alignment) (u32 page_count) max_used_count 0 0 0 0 0).

(** ** Lists of pages *)

Notation headers_t := (gmap Z omm_page_header_t).

Definition set_prev (h : omm_page_header_t) (prev : Z) : omm_page_header_t :=
  PageHeader prev (pg_next h) (pg_head h) (pg_object_size h) (pg_used_count h).
Definition set_next (h : omm_page_header_t) (next : Z) : omm_page_header_t :=
  PageHeader (pg_prev h) next (pg_head h) (pg_object_size h) (pg_used_count h).

(** Both return the new value of the list head. *)
Definition _allocator_add_page (hs : headers_t) (list_head page : Z) : option (headers_t * Z) :=
  h ← hs !! page;
  let hs := <[page := set_next (set_prev h 0) list_head]> hs in
  if z2b list_head then
    f ← hs !! list_head;
    Some (<[list_head := set_prev f page]> hs, page)
  else Some (hs, page).

Definition _allocator_remove_page (hs : headers_t) (list_head page : Z) : option (headers_t * Z) :=
  h ← hs !! page;
  r ← (if z2b (pg_prev h) then
         p ← hs !! pg_prev h;
         Some (<[pg_prev h := set_next p (pg_next h)]> hs, list_head)
       else Some (hs, pg_next h));
  let '(hs, list_head) := (r : headers_t * Z) in
  h ← hs !! page;
  if z2b (pg_next h) then
    n ← hs !! pg_next h;
    Some (<[pg_next h := set_prev n (pg_prev h)]> hs, list_head)
  else Some (hs, list_head).

Definition with_heads (a : omm_allocator_t) (free used full : Z) : omm_allocator_t :=
  Allocator (object_size a) (alignment a) (page_count a) (max_used_count a) free used full
    (allocation_count a) (deallocation_count a).

(** ** Allocation *)

Record omm_t (P : Type) := Omm {
  allocator : omm_allocator_t;
  headers : headers_t;
  objects : Z -> Z;
  pages : P
}.
Arguments Omm {_}. Arguments allocator {_}. Arguments headers {_}. Arguments objects {_}. Arguments pages {_}.

Definition set_link (m : Z -> Z) (object next : Z) : Z -> Z := fun x => if x =? object then next else m x.

(** Cut a page into objects, from offset [i] on. *)
Fixpoint link_objects (fuel : nat) (m : Z -> Z) (page_address size limit i head : Z) : option ((Z -> Z) * Z) :=
  match fuel with
  | O => None
  | S fuel =>
    if u64 (i + size) <=? limit then
      let object := u64 (page_address + i) in
      link_objects fuel (set_link m object head) page_address size limit (u64 (i + size)) object
    else Some (m, head)
  end.

Section omm.
Context `{PageAllocator P}.

Definition new_page (s : omm_t P) : option (omm_t P * Z) :=
  let a := allocator s in
  r ← page_alloc (pages s) (page_count a);
  let '(p, address) := (r : P * Z) in
  let page_address := u64 (address + VMM_HIGHER_HALF_ADDRESS_OFFSET) in
  let first := Z.land (u64 (sizeof_page_header + alignment a - 1)) (u64 (- alignment a)) in
  let limit := u32 (Z.shiftl (page_count a) PAGE_SIZE_SHIFT) in
  r ← link_objects (S (Z.to_nat limit)) (objects s) page_address (object_size a) limit first 0;
  let '(m, head) := (r : (Z -> Z) * Z) in
  let hs := <[page_address := PageHeader 0 0 head (object_size a) 0]> (headers s) in
  r ← _allocator_add_page hs (page_free_head a) page_address;
  let '(hs, free) := (r : headers_t * Z) in
  Some (Omm (with_heads a free (page_used_head a) (page_full_head a)) hs m p, page_address).

(** The page leaves the list of free pages, or of used ones, for the next. *)
Definition after_alloc (a : omm_allocator_t) (hs : headers_t) (page used_count : Z) : option (omm_allocator_t * headers_t) :=
  if used_count =? Z.shiftr (max_used_count a) 1 then
    r ← _allocator_remove_page hs (page_free_head a) page;
    let '(hs, free) := (r : headers_t * Z) in
    r ← _allocator_add_page hs (page_used_head a) page;
    let '(hs, used) := (r : headers_t * Z) in
    Some (with_heads a free used (page_full_head a), hs)
  else if used_count =? max_used_count a then
    r ← _allocator_remove_page hs (page_used_head a) page;
    let '(hs, used) := (r : headers_t * Z) in
    r ← _allocator_add_page hs (page_full_head a) page;
    let '(hs, full) := (r : headers_t * Z) in
    Some (with_heads a (page_free_head a) used full, hs)
  else Some (a, hs).

Definition count_allocation (a : omm_allocator_t) : omm_allocator_t :=
  Allocator (object_size a) (alignment a) (page_count a) (max_used_count a) (page_free_head a) (page_used_head a)
    (page_full_head a) (u64 (allocation_count a + 1)) (deallocation_count a).

(** [None]: no page is to be had, or a page of the lists has no object left. *)
Definition omm_alloc (s : omm_t P) : option (omm_t P * Z) :=
  let a := allocator s in
  let page := if z2b (page_used_head a) then page_used_head a else page_free_head a in
  r ← (if z2b page then Some (s, page) else new_page s);
  let '(s, page) := (r : omm_t P * Z) in
  h ← headers s !! page;
  let out := pg_head h in
  if out =? 0 then None
  else
    let used_count := u32 (pg_used_count h + 1) in
    let hs := <[page := PageHeader (pg_prev h) (pg_next h) (objects s out) (pg_object_size h) used_count]> (headers s) in
    r ← after_alloc (allocator s) hs page used_count;
    let '(a, hs) := (r : omm_allocator_t * headers_t) in
    Some (Omm (count_allocation a) hs (objects s) (pages s), out).

(** ** Deallocation *)

Definition before_dealloc (a : omm_allocator_t) (hs : headers_t) (page used_count : Z) : option (omm_allocator_t * headers_t) :=
  if used_count =? max_used_count a then
    r ← _allocator_remove_page hs (page_full_head a) page;
    let '(hs, full) := (r : headers_t * Z) in
    r ← _allocator_add_page hs (page_used_head a) page;
    let '(hs, used) := (r : headers_t * Z) in
    Some (with_heads a (page_free_head a) used full, hs)
  else if used_count =? Z.shiftr (max_used_count a) 1 then
    r ← _allocator_remove_page hs (page_used_head a) page;
    let '(hs, used) := (r : headers_t * Z) in
    r ← _allocator_add_page hs (page_free_head a) page;
    let '(hs, free) := (r : headers_t * Z) in
    Some (with_heads a free used (page_full_head a), hs)
  else Some (a, hs).

Definition count_deallocation (a : omm_allocator_t) : omm_allocator_t :=
  Allocator (object_size a) (alignment a) (page_count a) (max_used_count a) (page_free_head a) (page_used_head a)
    (page_full_head a) (allocation_count a) (u64 (deallocation_count a + 1)).

(** [None]: the panic for an object of another allocator. *)
Definition omm_dealloc (s : omm_t P) (object : Z) : option (omm_t P) :=
  let a := allocator s in
  let page := Z.land object (u64 (- u64 (Z.shiftl (page_count a) PAGE_SIZE_SHIFT))) in
  h ← headers s !! page;
  if negb (pg_object_size h =? object_size a) then None
  else
    let m := set_link (objects s) object (pg_head h) in
    let hs := <[page := PageHeader (pg_prev h) (pg_next h) object (pg_object_size h) (pg_used_count h)]> (headers s) in
    r ← before_dealloc a hs page (pg_used_count h);
    let '(a, hs) := (r : omm_allocator_t * headers_t) in
    h ← hs !! page;
    let used_count := u32 (pg_used_count h - 1) in
    let hs := <[page := PageHeader (pg_prev h) (pg_next h) (pg_head h) (pg_object_size h) used_count]> hs in
    if used_count =? 0 then
      r ← _allocator_remove_page hs (page_free_head a) page;
      let '(hs, free) := (r : headers_t * Z) in
      let a := with_heads a free (page_used_head a) (page_full_head a) in
      p ← (if z2b (page_count a) then page_dealloc (pages s) (u64 (page - VMM_HIGHER_HALF_ADDRESS_OFFSET)) (page_count a)
           else Some (pages s));
      Some (Omm (count_deallocation a) hs m p)
    else Some (Omm (count_deallocation a) hs m (pages s)).

End omm.
