(* ===== verification/OmmLists.v ===== *)
(** * The object allocator: the geometry of its pages, its page lists and its
    lists of free objects. *)
From stdpp Require Import base tactics list numbers option gmap sets.
From Stdlib Require Import ZArith Lia.
From S2P Require Import Prelude PmmInv Pages Omm.
#[local] Open Scope Z_scope.

(** ** Geometry of a page *)

Definition hdr (a : omm_allocator_t) : Z := round_up (Z.log2 (alignment a)) sizeof_page_header.

(** The size index of the blocks of pages. *)
Definition order (a : omm_allocator_t) : Z := Z.log2 (page_count a).

Record geometry (a : omm_allocator_t) : Prop := {
  g_pages : page_count a = 2 ^ order a /\ 0 <= order a < 16;
  g_align : alignment a = 2 ^ Z.log2 (alignment a) /\ 0 <= Z.log2 (alignment a) < 32;
  g_size : 8 <= object_size a /\ object_size a mod alignment a = 0;
  g_max : max_used_count a = (blk (order a) - hdr a) / object_size a;
  g_two : 2 <= max_used_count a
}.

Definition slot (a : omm_allocator_t) (p k : Z) : Z := p + hdr a + k * object_size a.

Definition is_slot (a : omm_allocator_t) (p x : Z) : Prop := exists k, 0 <= k < max_used_count a /\ x = slot a p k.

(** [p] is the (virtual) address of a page of the allocator. *)
Definition page_addr (a : omm_allocator_t) (p : Z) : Prop :=
  VMM_HIGHER_HALF_ADDRESS_OFFSET < p /\ p mod blk (order a) = 0 /\ p + blk (order a) <= 2 ^ 64.

Section geometry.
Context (a : omm_allocator_t) (G : geometry a).

Lemma geo_hdr : 32 <= hdr a.
Proof. destruct G as [_ [_ He] _ _ _]. apply (round_up_spec (Z.log2 (alignment a)) 32). lia. Qed.

Lemma geo_fit : hdr a + max_used_count a * object_size a <= blk (order a) < hdr a + (max_used_count a + 1) * object_size a.
Proof.
  destruct G as [_ _ [Hs _] Hm _]. rewrite Hm. pose proof (Z.div_mod (blk (order a) - hdr a) (object_size a)).
  pose proof (Z.mod_pos_bound (blk (order a) - hdr a) (object_size a)). lia.
Qed.

Lemma geo_blk : 4096 <= blk (order a) <= 2 ^ 27.
Proof. destruct G as [[_ Hi] _ _ _ _]. split; [apply blk_pos; lia | by apply blk_max]. Qed.

Lemma geo_bounds : 8 <= object_size a < 2 ^ 27 /\ 2 <= max_used_count a < 2 ^ 27.
Proof. pose proof geo_hdr. pose proof geo_fit. pose proof geo_blk. destruct G as [_ _ [Hs _] _ H2]. nia. Qed.

Lemma geo_limit : u32 (Z.shiftl (page_count a) PAGE_SIZE_SHIFT) = blk (order a)
  /\ u64 (Z.shiftl (page_count a) PAGE_SIZE_SHIFT) = 2 ^ (12 + order a).
Proof.
  pose proof geo_blk. destruct G as [[-> Hi] _ _ _ _].
  assert (E : Z.shiftl (2 ^ order a) PAGE_SIZE_SHIFT = blk (order a)).
  { change PAGE_SIZE_SHIFT with 12. rewrite Z.shiftl_mul_pow2 by done. unfold blk. rewrite <- Z.pow_add_r by lia. f_equal. lia. }
  rewrite E. rewrite u32_id, u64_id by lia. done.
Qed.

Lemma geo_first : Z.land (u64 (sizeof_page_header + alignment a - 1)) (u64 (- alignment a)) = hdr a.
Proof.
  destruct G as [_ [He Hr] _ _ _]. unfold hdr, round_up. rewrite He at 1 2. 
  assert (0 < 2 ^ Z.log2 (alignment a) < 2 ^ 32) by (split; [lia | apply Z.pow_lt_mono_r; lia]).
  unfold sizeof_page_header. rewrite u64_id by lia. apply land_round_down; lia.
Qed.

Lemma slot_inside p k : 0 <= k < max_used_count a -> p + 32 <= slot a p k /\ slot a p k + object_size a <= p + blk (order a).
Proof. intros Hk. pose proof geo_hdr. pose proof geo_fit. pose proof geo_bounds. unfold slot. nia. Qed.

Lemma slot_apart p k k' : k <> k' -> slot a p k + object_size a <= slot a p k' \/ slot a p k' + object_size a <= slot a p k.
Proof. intros Hk. pose proof geo_bounds. unfold slot. destruct (Z.lt_total k k') as [| [|]]; nia. Qed.

(** The page of an object is found by rounding down. *)
Lemma slot_page p x : page_addr a p -> is_slot a p x ->
  Z.land x (u64 (- u64 (Z.shiftl (page_count a) PAGE_SIZE_SHIFT))) = p.
Proof.
  intros (H1 & H2 & H3) (k & Hk & ->). pose proof (slot_inside p k Hk). pose proof geo_bounds. pose proof geo_blk.
  rewrite (proj2 geo_limit). destruct G as [[_ Hi] _ _ _ _]. unfold VMM_HIGHER_HALF_ADDRESS_OFFSET in *.
  rewrite land_round_down by lia. fold (blk (order a)). apply Z.mod_divide in H2 as [q ->]; [| lia].
  f_equal. symmetry. apply (Z.div_unique_pos _ _ _ (slot a (q * blk (order a)) k - q * blk (order a))); lia.
Qed.

Lemma slot_aligned p x : page_addr a p -> is_slot a p x -> x mod alignment a = 0.
Proof.
  intros (_ & H2 & _) (k & Hk & ->). pose proof geo_bounds. pose proof geo_fit. pose proof geo_hdr.
  destruct G as [[_ Hi] [He Hr] [_ Hs] _ _]. pose proof (round_up_spec (Z.log2 (alignment a)) 32 ltac:(lia)) as [Hh _].
  rewrite <- He in Hh. assert (Hpos : 0 < alignment a) by (rewrite He; lia).
  apply Z.mod_divide in H2 as [q ->]; [| pose proof geo_blk; lia]. apply Z.mod_divide in Hs as [r Hs]; [| lia].
  apply Z.mod_divide in Hh as [t Hh]; [| lia].
  assert (Hle : Z.log2 (alignment a) <= 12 + order a).
  { apply (Z.pow_le_mono_r_iff 2); [lia | lia |]. rewrite <- He. fold (blk (order a)).
    assert (0 < r) by nia. assert (alignment a <= object_size a) by nia. nia. }
  assert (Hb : blk (order a) = 2 ^ (12 + order a - Z.log2 (alignment a)) * alignment a).
  { rewrite He at 2. rewrite <- Z.pow_add_r by lia. unfold blk. f_equal. lia. }
  unfold slot, hdr, sizeof_page_header. rewrite Hh, Hs, Hb. apply Z.mod_divide; [lia|].
  exists (q * 2 ^ (12 + order a - Z.log2 (alignment a)) + t + k * r). ring.
Qed.

Lemma slot_word p x : page_addr a p -> is_slot a p x -> 0 < x < 2 ^ 64.
Proof.
  intros (H1 & _ & H3) (k & Hk & ->). pose proof (slot_inside p k Hk). pose proof geo_bounds.
  unfold VMM_HIGHER_HALF_ADDRESS_OFFSET in *. lia.
Qed.

End geometry.

(** ** The doubly linked lists of pages *)

Definition links (hs : headers_t) (x : Z) : option (Z * Z) := (fun h => (pg_prev h, pg_next h)) <$> hs !! x.
Definition body (hs : headers_t) (x : Z) : option (Z * Z * Z) :=
  (fun h => (pg_head h, pg_object_size h, pg_used_count h)) <$> hs !! x.

(** [l] is linked from [head] to [stop], after [prev]. *)
Fixpoint dseg (hs : headers_t) (prev head : Z) (l : list Z) (stop : Z) : Prop :=
  match l with
  | [] => head = stop
  | x :: l => head = x /\ x <> 0 /\ exists next, links hs x = Some (prev, next) /\ dseg hs x next l stop
  end.

Lemma last_cons_default (x : Z) l : forall d, List.last (x :: l) d = List.last l x.
Proof. revert x. induction l as [| y l IH]; intros x d; [done|]. change (List.last (y :: l) d = List.last (y :: l) x). by rewrite !IH. Qed.

Lemma dseg_app hs l1 l2 : forall prev head stop,
  dseg hs prev head (l1 ++ l2) stop <-> exists mid, dseg hs prev head l1 mid /\ dseg hs (List.last l1 prev) mid l2 stop.
Proof.
  induction l1 as [| x l1 IH]; intros prev head stop; cbn [dseg app].
  - split; [by exists head | by intros (mid & -> & H)].
  - rewrite last_cons_default. setoid_rewrite IH. naive_solver.
Qed.

Lemma dseg_ext hs hs' l : (forall x, x ∈ l -> links hs' x = links hs x) ->
  forall prev head stop, dseg hs prev head l stop -> dseg hs' prev head l stop.
Proof.
  induction l as [| x l IH]; intros He prev head stop; cbn [dseg]; [done|].
  intros (-> & Hx & next & Hl & Hd). split_and!; [done | done |]. exists next. rewrite He by by left. split; [done|].
  apply IH; [| done]. intros y Hy. apply He. by right.
Qed.

Lemma dseg_first hs prev head l : dseg hs prev head l 0 -> head = first_of l 0 /\ (z2b head = false -> l = []).
Proof. destruct l as [| x l]; cbn; [intros ->; done|]. intros (-> & Hx & _). split; [done|]. unfold z2b. by rewrite (proj2 (Z.eqb_neq x 0)). Qed.

(** What changing the links of one page does. *)
Lemma links_insert hs x h y : links (<[x := h]> hs) y = if decide (y = x) then Some (pg_prev h, pg_next h) else links hs y.
Proof. unfold links. destruct (decide (y = x)) as [-> | Hn]; [by rewrite lookup_insert_eq | by rewrite lookup_insert_ne]. Qed.

Lemma body_insert hs x h y : body (<[x := h]> hs) y =
  if decide (y = x) then Some (pg_head h, pg_object_size h, pg_used_count h) else body hs y.
Proof. unfold body. destruct (decide (y = x)) as [-> | Hn]; [by rewrite lookup_insert_eq | by rewrite lookup_insert_ne]. Qed.

Lemma body_header hs x b : body hs x = Some b -> exists h, hs !! x = Some h /\ b = (pg_head h, pg_object_size h, pg_used_count h).
Proof. unfold body. destruct (hs !! x) as [h|]; cbn; [| done]. intros [= <-]. by exists h. Qed.

Lemma links_header hs x l : links hs x = Some l -> exists h, hs !! x = Some h /\ l = (pg_prev h, pg_next h).
Proof. unfold links. destruct (hs !! x) as [h|]; cbn; [| done]. intros [= <-]. by exists h. Qed.

(** The effect of a list operation: the pages of [l] are relinked. *)
Definition relinked (hs hs' : headers_t) (l : list Z) : Prop :=
  (forall x, x ∉ l -> links hs' x = links hs x) /\ (forall x, body hs' x = body hs x).

Lemma relinked_set hs hs' l x h0 h : relinked hs hs' l -> x ∈ l -> hs' !! x = Some h0 ->
  (pg_head h, pg_object_size h, pg_used_count h) = (pg_head h0, pg_object_size h0, pg_used_count h0) -> relinked hs (<[x := h]> hs') l.
Proof.
  intros [H1 H2] Hx E Eb. split; intros y.
  - intros Hy. rewrite links_insert, decide_False by (by intros ->). by apply H1.
  - rewrite body_insert, <- H2. destruct (decide (y = x)) as [-> |]; [| done]. unfold body. rewrite E. cbn. by rewrite Eb.
Qed.

Lemma relinked_refl hs l : relinked hs hs l.
Proof. done. Qed.

Lemma add_page_ok hs head l x : dseg hs 0 head l 0 -> NoDup (x :: l) -> x <> 0 -> is_Some (hs !! x) ->
  exists hs', _allocator_add_page hs head x = Some (hs', x) /\ dseg hs' 0 x (x :: l) 0 /\ relinked hs hs' (x :: l).
Proof.
  intros Hd [Hx Hnd]%NoDup_cons H0 [h Eh]. unfold _allocator_add_page. rewrite Eh. cbn [mbind option_bind].
  set (hs1 := <[x := _]> hs).
  assert (R1 : relinked hs hs1 (x :: l)) by (apply (relinked_set _ _ _ _ h); [apply relinked_refl | by left | done | done]).
  destruct l as [| y l].
  - cbn in Hd. subst head. exists hs1. split_and!; [done | | done]. cbn. split_and!; [done | done |]. exists 0.
    subst hs1. by rewrite links_insert, decide_True.
  - destruct Hd as (-> & Hy & next & Hl & Hd). unfold z2b. rewrite (proj2 (Z.eqb_neq y 0)) by done. cbn [negb].
    apply links_header in Hl as (f & Ef & [= E1 E2]). assert (Hxy : x <> y) by set_solver.
    assert (E1' : hs1 !! y = Some f) by (subst hs1; by rewrite lookup_insert_ne). rewrite E1'. cbn [mbind option_bind].
    exists (<[y := set_prev f x]> hs1). split_and!; [done | | apply (relinked_set _ _ _ _ f); [done | set_solver | done | done]].
    cbn [dseg]. split_and!; [done | done |]. exists y. subst hs1. rewrite links_insert, decide_False, links_insert, decide_True by done.
    split_and!; [done | done | done |]. exists next. rewrite links_insert, decide_True by done. split; [cbn; by rewrite E2|].
    apply NoDup_cons in Hnd as [Hn _]. eapply dseg_ext; [| exact Hd]. intros z Hz. rewrite !links_insert, !decide_False; set_solver.
Qed.

Lemma remove_page_ok hs head l1 x l2 : dseg hs 0 head (l1 ++ x :: l2) 0 -> NoDup (l1 ++ x :: l2) ->
  exists hs' head', _allocator_remove_page hs head x = Some (hs', head') /\ dseg hs' 0 head' (l1 ++ l2) 0 /\
    relinked hs hs' (l1 ++ x :: l2).
Proof.
  intros Hd Hnd. apply dseg_app in Hd as (mid & Hd1 & (-> & Hx & next & Hl & Hd2)).
  apply links_header in Hl as (h & Eh & [= Ep En]). unfold _allocator_remove_page. rewrite Eh. cbn [mbind option_bind].
  rewrite <- Ep, <- En.
  set (r := if z2b _ then _ else _).
  assert (H1 : exists hs1 head1, r = Some (hs1, head1) /\ dseg hs1 0 head1 l1 next /\ relinked hs hs1 (l1 ++ x :: l2) /\
    (forall y, y ∉ l1 -> hs1 !! y = hs !! y)).
  { subst r. destruct l1 as [| y l1 _] using rev_ind.
    - cbn. exists hs, next. split_and!; [done | done | apply relinked_refl | done].
    - rewrite last_last in *. apply dseg_app in Hd1 as (m1 & Hd1 & (-> & Hy & n1 & Hl & ->)). clear Ep.
      apply links_header in Hl as (f & Ef & [= E1 E2]). unfold z2b. rewrite (proj2 (Z.eqb_neq y 0)) by done. cbn [negb].
      rewrite Ef. cbn [mbind option_bind]. exists (<[y := set_next f next]> hs), head. split_and!; [done | | |].
      + apply dseg_app. exists y. assert (Hny : y ∉ l1) by (apply NoDup_app in Hnd as (Hnd & _); apply NoDup_app in Hnd as (_ & Hnd & _); set_solver).
        split; [eapply dseg_ext; [| exact Hd1]; intros z Hz; rewrite links_insert, decide_False; set_solver|].
        cbn. split_and!; [done | done |]. exists next. rewrite links_insert, decide_True by done. cbn. by rewrite <- E1.
      + apply (relinked_set _ _ _ _ f); [apply relinked_refl | set_solver | done | done].
      + intros z Hz. rewrite lookup_insert_ne; set_solver. }
  clearbody r. destruct H1 as (hs1 & head1 & -> & D1 & R1 & Eq1). cbn [mbind option_bind].
  apply NoDup_app in Hnd as (_ & Hdis & [Hx2 Hnd2]%NoDup_cons).
  assert (Hx1 : x ∉ l1) by (intros Hin; apply (Hdis x Hin); by left). rewrite (Eq1 x Hx1), Eh. cbn [mbind option_bind]. rewrite <- Ep, <- En.
  destruct l2 as [| y l2].
  - cbn in Hd2. rewrite Hd2 in *. exists hs1, head1. rewrite app_nil_r. done.
  - destruct Hd2 as (-> & Hy & n2 & Hl & Hd2). apply links_header in Hl as (f & Ef & [= E1 E2]).
    assert (Hy1 : y ∉ l1) by (intros Hin; apply (Hdis y Hin); set_solver). rewrite <- (Eq1 y Hy1) in Ef.
    unfold z2b. rewrite (proj2 (Z.eqb_neq y 0)) by done. cbn [negb]. rewrite Ef. cbn [mbind option_bind].
    exists (<[y := set_prev f (List.last l1 0)]> hs1), head1. split_and!; [done | | apply (relinked_set _ _ _ _ f); [done | set_solver | done | done]].
    apply dseg_app. exists y. split; [eapply dseg_ext; [| exact D1]; intros z Hz; rewrite links_insert, decide_False; set_solver|].
    cbn [dseg]. split_and!; [done | done |]. exists n2. rewrite links_insert, decide_True by done. cbn. rewrite <- E2. split; [done|].
    apply NoDup_cons in Hnd2 as [Hn2 _]. eapply dseg_ext; [| exact Hd2]. intros z Hz. rewrite links_insert, decide_False by set_solver.
    unfold links. by rewrite Eq1 by (intros Hin; apply (Hdis z Hin); set_solver).
Qed.

Lemma relinked_trans hs hs' hs'' l : relinked hs hs' l -> relinked hs' hs'' l -> relinked hs hs'' l.
Proof. intros [A1 B1] [A2 B2]. split; intros x; [intros Hx; by rewrite A2, A1 | by rewrite B2]. Qed.

Lemma relinked_mono hs hs' l l' : relinked hs hs' l -> l ⊆ l' -> relinked hs hs' l'.
Proof. intros [A B] Hl. split; [| done]. intros x Hx. apply A. set_solver. Qed.

(** A page goes from one list to the front of another. *)
Definition move_page (hs : headers_t) (from to page : Z) : option (headers_t * Z * Z) :=
  r ← _allocator_remove_page hs from page;
  let '(hs, from) := (r : headers_t * Z) in
  r ← _allocator_add_page hs to page;
  let '(hs, to) := (r : headers_t * Z) in
  Some (hs, from, to).

Lemma move_page_ok hs from to l1 x l2 l : dseg hs 0 from (l1 ++ x :: l2) 0 -> dseg hs 0 to l 0 -> NoDup ((l1 ++ x :: l2) ++ l) ->
  exists hs' from', move_page hs from to x = Some (hs', from', x) /\ dseg hs' 0 from' (l1 ++ l2) 0 /\ dseg hs' 0 x (x :: l) 0 /\
    relinked hs hs' ((l1 ++ x :: l2) ++ l).
Proof.
  intros D1 D2 Hnd. pose proof Hnd as (Hn1 & Hdis & Hn2)%NoDup_app.
  assert (Hx : (x ∉ l1 ++ l2) /\ x ∉ l).
  { split; [| apply Hdis; set_solver]. rewrite <- Permutation_middle in Hn1. by apply NoDup_cons in Hn1 as [? _]. }
  destruct (remove_page_ok _ _ _ _ _ D1 Hn1) as (hs1 & from' & E1 & D1' & R1). unfold move_page. rewrite E1. cbn [mbind option_bind].
  apply dseg_app in D1 as (mid & _ & (_ & Hx0 & next & Hl & _)). apply links_header in Hl as (h & Eh & _).
  assert (D2' : dseg hs1 0 to l 0) by (eapply dseg_ext; [| exact D2]; intros y Hy; apply R1; intros Hin; by apply (Hdis y)).
  destruct (add_page_ok hs1 to l x D2') as (hs2 & E2 & D3 & R2).
  - constructor; tauto.
  - done.
  - assert (Hb : body hs1 x = body hs x) by apply R1. unfold body in Hb. rewrite Eh in Hb. destruct (hs1 !! x); [done | done].
  - rewrite E2. cbn [mbind option_bind]. exists hs2, from'. split_and!; [done | | done |].
    + eapply dseg_ext; [| exact D1']. intros y Hy. apply R2. intros [-> | Hin]%elem_of_cons; [tauto|]. apply (Hdis y); [set_solver | done].
    + eapply relinked_trans; [eapply relinked_mono; [exact R1 | set_solver] | eapply relinked_mono; [exact R2 | set_solver]].
Qed.

(** ** Free objects *)

Fixpoint chain (m : Z -> Z) (head : Z) (l : list Z) : Prop :=
  match l with
  | [] => head = 0
  | x :: l => head = x /\ x <> 0 /\ chain m (m x) l
  end.

Lemma chain_ext m m' l : (forall x, x ∈ l -> m' x = m x) -> forall head, chain m head l -> chain m' head l.
Proof.
  induction l as [| x l IH]; intros He head; cbn [chain]; [done|]. intros (-> & Hx & Hc). split_and!; [done | done |].
  rewrite He by by left. apply IH; [| done]. intros y Hy. apply He. by right.
Qed.

Lemma chain_set_link m x v l head : x ∉ l -> chain m head l -> chain (set_link m x v) head l.
Proof. intros Hx. apply chain_ext. intros y Hy. unfold set_link. by rewrite (proj2 (Z.eqb_neq y x)) by (intros ->; done). Qed.

Definition slots (a : omm_allocator_t) (p : Z) : list Z := slot a p <$> seqZ 0 (max_used_count a).

Lemma elem_slots a p x : x ∈ slots a p <-> is_slot a p x.
Proof. unfold slots, is_slot. rewrite list_elem_of_fmap. setoid_rewrite elem_of_seqZ. naive_solver lia. Qed.

Lemma length_slots a p : geometry a -> Z.of_nat (length (slots a p)) = max_used_count a.
Proof. intros G. pose proof (geo_bounds a G). unfold slots. rewrite length_fmap, length_seqZ. lia. Qed.

Lemma slot_inj a p k k' : geometry a -> slot a p k = slot a p k' -> k = k'.
Proof. intros G. pose proof (geo_bounds a G). unfold slot. intros E. nia. Qed.

Lemma nodup_slots a p : geometry a -> NoDup (slots a p).
Proof. intros G. apply NoDup_fmap_2_strong; [intros ? ? _ _; by apply slot_inj | apply NoDup_seqZ]. Qed.

(** Distinct slots of a page are at most [max_used_count]. *)
Lemma slots_bound a p l : geometry a -> NoDup l -> (forall x, x ∈ l -> is_slot a p x) -> Z.of_nat (length l) <= max_used_count a.
Proof.
  intros G Hn Hs. rewrite <- (length_slots a p G). apply inj_le, submseteq_length, NoDup_submseteq; [done|].
  intros x Hx. by apply elem_slots, Hs.
Qed.

Lemma slot_same_page a p q x : geometry a -> page_addr a p -> page_addr a q -> is_slot a p x -> is_slot a q x -> p = q.
Proof. intros G Hp Hq H1 H2. rewrite <- (slot_page a G p x Hp H1). by apply slot_page. Qed.

(** ** The three lists *)

Inductive cls := Free | Used | Full.

#[export] Instance cls_eq_dec : EqDecision cls.
Proof. solve_decision. Defined.

Definition head_of (a : omm_allocator_t) (c : cls) : Z :=
  match c with Free => page_free_head a | Used => page_used_head a | Full => page_full_head a end.

Definition set_head (a : omm_allocator_t) (c : cls) (v : Z) : omm_allocator_t :=
  match c with
  | Free => with_heads a v (page_used_head a) (page_full_head a)
  | Used => with_heads a (page_free_head a) v (page_full_head a)
  | Full => with_heads a (page_free_head a) (page_used_head a) v
  end.

Lemma head_set a c v c' : head_of (set_head a c v) c' = if decide (c' = c) then v else head_of a c'.
Proof. by destruct c, c'. Qed.

Lemma geometry_head a c v : geometry a -> geometry (set_head a c v).
Proof. destruct c; intros []; by constructor. Qed.

Definition page_lists := cls -> list Z.
Definition set_list (L : page_lists) (c : cls) (l : list Z) : page_lists := fun c' => if decide (c' = c) then l else L c'.
Definition listed (L : page_lists) (p : Z) : Prop := exists c, p ∈ L c.

Record lists_ok (a : omm_allocator_t) (hs : headers_t) (L : page_lists) : Prop := {
  l_seg : forall c, dseg hs 0 (head_of a c) (L c) 0;
  l_nodup : forall c, NoDup (L c);
  l_once : forall c c' p, p ∈ L c -> p ∈ L c' -> c = c'
}.

Lemma lists_ext a hs hs' L : (forall p, listed L p -> links hs' p = links hs p) -> lists_ok a hs L -> lists_ok a hs' L.
Proof. intros He [H1 H2 H3]. split; [| done | done]. intros c. eapply dseg_ext; [| apply H1]. intros p Hp. apply He. by exists c. Qed.

(** Who is in which list after a page has moved, left or come in. *)
Section membership.
Context (a : omm_allocator_t) (hs : headers_t) (L : page_lists) (OK : lists_ok a hs L).
Context (c : cls) (l1 : list Z) (p : Z) (l2 : list Z) (E : L c = l1 ++ p :: l2).

Lemma in_middle x : x ∈ L c <-> x = p \/ x ∈ l1 ++ l2.
Proof. rewrite E, !elem_of_app, elem_of_cons. tauto. Qed.

Lemma notin_middle : p ∉ l1 ++ l2.
Proof. pose proof (l_nodup _ _ _ OK c) as Hn. rewrite E, <- Permutation_middle in Hn. by apply NoDup_cons in Hn as [? _]. Qed.

Lemma in_only k : p ∈ L k <-> k = c.
Proof. split; [intros Hk; apply (l_once _ _ _ OK _ _ p Hk); apply in_middle; by left | intros ->; apply in_middle; by left]. Qed.

Lemma in_move c' k x : c <> c' ->
  x ∈ set_list (set_list L c (l1 ++ l2)) c' (p :: L c') k <-> (x = p /\ k = c') \/ (x <> p /\ x ∈ L k).
Proof.
  intros Hc. unfold set_list. pose proof notin_middle. pose proof (in_only k). pose proof (in_middle x). pose proof (in_only c').
  destruct (decide (x = p)) as [-> | Hx], (decide (k = c')) as [-> | Hk']; rewrite ?elem_of_cons; [tauto | | tauto |];
    destruct (decide (k = c)) as [-> | Hk]; tauto.
Qed.

Lemma in_drop k x : x ∈ set_list L c (l1 ++ l2) k <-> x <> p /\ x ∈ L k.
Proof.
  unfold set_list. pose proof notin_middle. pose proof (in_only k). pose proof (in_middle x).
  destruct (decide (x = p)) as [-> | Hx], (decide (k = c)) as [-> | Hk]; tauto.
Qed.
End membership.

Lemma in_push L c p k x : x ∈ set_list L c (p :: L c) k <-> (x = p /\ k = c) \/ x ∈ L k.
Proof. unfold set_list. destruct (decide (k = c)) as [-> | Hk]; rewrite ?elem_of_cons; tauto. Qed.

Lemma lists_move a hs L c c' l1 p l2 : lists_ok a hs L -> c <> c' -> L c = l1 ++ p :: l2 ->
  exists hs' from, move_page hs (head_of a c) (head_of a c') p = Some (hs', from, p) /\
    lists_ok (set_head (set_head a c from) c' p) hs' (set_list (set_list L c (l1 ++ l2)) c' (p :: L c')) /\
    (forall x, body hs' x = body hs x).
Proof.
  intros OK Hc E. destruct (OK) as [H1 H2 H3]. pose proof (H1 c) as D1. pose proof (H2 c) as N1. rewrite E in D1, N1.
  assert (Hp : p ∉ L c') by (intros Hin; apply Hc, (H3 c c' p); [rewrite E; set_solver | done]).
  assert (Hd : forall x, x ∈ l1 ++ p :: l2 -> x ∉ L c') by (intros x Hx Hx'; apply Hc, (H3 c c' x); [by rewrite E | done]).
  destruct (move_page_ok hs (head_of a c) (head_of a c') l1 p l2 (L c') D1 (H1 c')) as (hs' & from & E1 & D2 & D3 & [R1 R2]).
  { apply NoDup_app. split_and!; [done | done | apply H2]. }
  assert (Np : NoDup (l1 ++ l2) /\ p ∉ l1 ++ l2) by (rewrite <- Permutation_middle in N1; apply NoDup_cons in N1; tauto).
  exists hs', from. split_and!; [done | split | done].
  - intros k. rewrite !head_set. unfold set_list. destruct (decide (k = c')) as [-> | Hk']; [done|].
    destruct (decide (k = c)) as [-> | Hk]; [done|]. eapply dseg_ext; [| apply H1]. intros x Hx. apply R1.
    intros [Hin | Hin]%elem_of_app; [apply Hk; apply (H3 k c x); [done | by rewrite E] | by apply Hk', (H3 k c' x)].
  - intros k. unfold set_list. destruct (decide (k = c')) as [-> | Hk']; [by constructor|]. destruct (decide (k = c)); [tauto | done].
  - intros k k' x. rewrite !(in_move a hs L OK c l1 p l2 E) by done. pose proof (H3 k k' x). intuition congruence.
Qed.

Lemma lists_drop a hs L c l1 p l2 : lists_ok a hs L -> L c = l1 ++ p :: l2 ->
  exists hs' from, _allocator_remove_page hs (head_of a c) p = Some (hs', from) /\
    lists_ok (set_head a c from) hs' (set_list L c (l1 ++ l2)) /\ (forall x, body hs' x = body hs x).
Proof.
  intros OK E. destruct (OK) as [H1 H2 H3]. pose proof (H1 c) as D1. pose proof (H2 c) as N1. rewrite E in D1, N1.
  destruct (remove_page_ok _ _ _ _ _ D1 N1) as (hs' & from & E1 & D2 & [R1 R2]). exists hs', from. split_and!; [done | split | done].
  - intros k. rewrite head_set. unfold set_list. destruct (decide (k = c)) as [-> | Hk]; [done|]. eapply dseg_ext; [| apply H1].
    intros x Hx. apply R1. intros Hin. apply Hk, (H3 k c x); [done | by rewrite E].
  - intros k. unfold set_list. destruct (decide (k = c)); [| done]. rewrite <- Permutation_middle in N1. by apply NoDup_cons in N1 as [_ ?].
  - intros k k' x. rewrite !(in_drop a hs L OK c l1 p l2 E). pose proof (H3 k k' x). tauto.
Qed.

Lemma lists_push a hs L c p : lists_ok a hs L -> ~ listed L p -> p <> 0 -> is_Some (hs !! p) ->
  exists hs', _allocator_add_page hs (head_of a c) p = Some (hs', p) /\
    lists_ok (set_head a c p) hs' (set_list L c (p :: L c)) /\ (forall x, body hs' x = body hs x).
Proof.
  intros [H1 H2 H3] Hp H0 Hs. assert (Hn : forall k, p ∉ L k) by (intros k Hk; apply Hp; by exists k).
  destruct (add_page_ok hs (head_of a c) (L c) p (H1 c)) as (hs' & E1 & D2 & [R1 R2]); [by constructor | done | done |].
  exists hs'. split_and!; [done | split | done].
  - intros k. rewrite head_set. unfold set_list. destruct (decide (k = c)) as [-> | Hk]; [done|]. eapply dseg_ext; [| apply H1].
    intros x Hx. apply R1. intros [-> | Hin]%elem_of_cons; [by apply (Hn k) | by apply Hk, (H3 k c x)].
  - intros k. unfold set_list. destruct (decide (k = c)); [by constructor | done].
  - intros k k' x. rewrite !in_push. pose proof (H3 k k' x). pose proof (Hn k). pose proof (Hn k').
    intros [[-> ->] | Hk] [[Ex ->] | Hk']; subst; tauto.
Qed.

