(* ===== verification/OmmSpec.v ===== *)
(** * What the object allocator promises: objects that are handed out do not
    overlap each other or a page header, and pages without objects in use go
    back to the page allocator. *)
From stdpp Require Import base tactics list numbers option gmap sets.
From Stdlib Require Import ZArith Lia.
From S2P Require Import Prelude Pmm PmmInv PmmSpec Pages Omm OmmLists.
#[local] Open Scope Z_scope.

(** ** The state *)

(** The number of objects in use on a page whose free objects are [fl]. *)
Definition in_use (a : omm_allocator_t) (fl : list Z) : Z := max_used_count a - Z.of_nat (length fl).

Record page_ok (a : omm_allocator_t) (hs : headers_t) (m : Z -> Z) (p : Z) (fl : list Z) : Prop := {
  p_addr : page_addr a p;
  p_body : exists head, body hs p = Some (head, object_size a, in_use a fl) /\ chain m head fl;
  p_nodup : NoDup fl;
  p_slots : forall x, x ∈ fl -> is_slot a p x
}.

(** How many objects a page of each list has in use. *)
Definition class_ok (a : omm_allocator_t) (c : cls) (n : Z) : Prop :=
  match c with
  | Free => 0 <= n < max_used_count a / 2
  | Used => max_used_count a / 2 <= n < max_used_count a
  | Full => n = max_used_count a
  end.

(** The block of the page allocator that holds a page. *)
Definition page_block (a : omm_allocator_t) (p : Z) : Z * Z := (p - VMM_HIGHER_HALF_ADDRESS_OFFSET, order a).

Section state.
Context `{PageAllocatorLaws P}.

Definition pages_held (a : omm_allocator_t) (ps : P) (L : page_lists) : Prop :=
  exists B, held ps B /\ forall b, b ∈ B <-> exists p, listed L p /\ b = page_block a p.

Record core (s : omm_t P) (L : page_lists) (fls : Z -> list Z) : Prop := {
  c_geo : geometry (allocator s);
  c_lists : lists_ok (allocator s) (headers s) L;
  c_pages : forall p, listed L p -> page_ok (allocator s) (headers s) (objects s) p (fls p);
  c_held : pages_held (allocator s) (pages s) L
}.

(** [A] are the objects in use, [L] the pages of the allocator. *)
Record omm_state (s : omm_t P) (A : gset Z) (L : page_lists) (fls : Z -> list Z) : Prop := {
  o_core : core s L fls;
  o_class : forall c p, p ∈ L c -> class_ok (allocator s) c (in_use (allocator s) (fls p));
  o_busy : forall p, listed L p -> 0 < in_use (allocator s) (fls p);
  o_used : forall x, x ∈ A <-> exists p, listed L p /\ is_slot (allocator s) p x /\ x ∉ fls p
}.

End state.

(** Only the sizes of an allocator matter to its pages. *)
Definition same_shape (a a' : omm_allocator_t) : Prop :=
  object_size a' = object_size a /\ alignment a' = alignment a /\ page_count a' = page_count a /\ max_used_count a' = max_used_count a.

Section same_shape.
Context (a a' : omm_allocator_t) (S : same_shape a a').

Lemma shape_slot p x : is_slot a' p x <-> is_slot a p x.
Proof. destruct S as (H1 & H2 & H3 & H4). unfold is_slot, slot, hdr. by rewrite H1, H2, H4. Qed.

Lemma shape_geometry : geometry a -> geometry a'.
Proof. destruct S as (H1 & H2 & H3 & H4). intros []. by split; unfold hdr, order in *; rewrite ?H1, ?H2, ?H3, ?H4. Qed.

Lemma shape_page hs m p fl : page_ok a hs m p fl -> page_ok a' hs m p fl.
Proof.
  destruct (S) as (H1 & H2 & H3 & H4). intros []. split; [| | done | intros x; rewrite shape_slot; auto].
  - unfold page_addr, order in *. by rewrite H3.
  - unfold in_use. by rewrite H1, H4.
Qed.
End same_shape.

Lemma shape_heads a f u x : same_shape a (with_heads a f u x).
Proof. done. Qed.
Lemma shape_count a : same_shape a (count_allocation a) /\ same_shape a (count_deallocation a).
Proof. done. Qed.

(** *** Cutting a new page *)

Lemma link_objects_ok a p fuel : geometry a -> page_addr a p -> forall m k head l, 0 <= k <= max_used_count a -> 
  (Z.to_nat (max_used_count a - k) < fuel)%nat -> chain m head l -> (forall x, x ∈ l -> forall j, k <= j < max_used_count a -> x <> slot a p j) ->
  exists m' head', link_objects fuel m p (object_size a) (blk (order a)) (hdr a + k * object_size a) head = Some (m', head') /\
    chain m' head' (reverse (slot a p <$> seqZ k (max_used_count a - k)) ++ l) /\ (forall x, ~ is_slot a p x -> m' x = m x).
Proof.
  intros G Hp. pose proof (geo_bounds a G) as [Hs Hm]. pose proof (geo_fit a G) as Hfit. pose proof (geo_blk a G) as Hb. pose proof (geo_hdr a G) as Hh.
  induction fuel as [| fuel IH]; intros m k head l Hk Hf Hc Hl; [lia|]. cbn [link_objects].
  assert (Hw : 0 <= k * object_size a <= max_used_count a * object_size a) by nia.
  rewrite (u64_id (hdr a + k * object_size a + object_size a)) by lia. destruct (Z.leb_spec (hdr a + k * object_size a + object_size a) (blk (order a))) as [Hle | Hgt].
  - assert (Hlt : k < max_used_count a) by nia. assert (Hsk : is_slot a p (slot a p k)) by (exists k; split; [lia | done]).
    pose proof (slot_word a G p _ Hp Hsk) as Hr. replace (u64 (p + (hdr a + k * object_size a))) with (slot a p k) by (unfold slot in *; rewrite u64_id; lia).
    destruct (IH (set_link m (slot a p k) head) (k + 1) (slot a p k) (slot a p k :: l)) as (m' & head' & E & Hc' & He).
    + lia.
    + lia.
    + cbn. split_and!; [done | lia |]. unfold set_link at 2. rewrite Z.eqb_refl. apply chain_set_link; [| done].
      intros Hin. by apply (Hl _ Hin k ltac:(lia)).
    + intros x [-> | Hx]%elem_of_cons j Hj; [intros He%(slot_inj a p k j G); lia | apply Hl; [done | lia]].
    + exists m', head'. replace (hdr a + (k + 1) * object_size a) with (hdr a + k * object_size a + object_size a) in E by lia. split_and!; [done | |].
      * rewrite (seqZ_cons k) by lia. cbn [fmap list_fmap]. rewrite reverse_cons, <- app_assoc. cbn [app].
        replace (Z.succ k) with (k + 1) by lia. by replace (Z.pred (max_used_count a - k)) with (max_used_count a - (k + 1)) by lia.
      * intros x Hx. rewrite He by done. unfold set_link. by rewrite (proj2 (Z.eqb_neq x (slot a p k))) by (intros ->; done).
  - assert (k = max_used_count a) as -> by nia. exists m, head. rewrite Z.sub_diag. done.
Qed.

Lemma page_ok_ext a hs hs' m m' p fl : body hs' p = body hs p -> (forall x, x ∈ fl -> m' x = m x) -> page_ok a hs m p fl -> page_ok a hs' m' p fl.
Proof.
  intros Hb Hm [H1 (head & H2 & H3) H4 H5]. split; [done | | done | done]. exists head. rewrite Hb. split; [done|]. by apply (chain_ext m).
Qed.

Lemma offset_divides i : 0 <= i < 16 -> VMM_HIGHER_HALF_ADDRESS_OFFSET mod blk i = 0.
Proof.
  intros Hi. change VMM_HIGHER_HALF_ADDRESS_OFFSET with (131071 * 2 ^ 47). unfold blk.
  replace (2 ^ 47) with (2 ^ (35 - i) * 2 ^ (12 + i)) by (rewrite <- Z.pow_add_r by lia; f_equal; lia).
  rewrite Z.mul_assoc. apply Z.mod_mul. lia.
Qed.

Lemma block_page_addr a ad : geometry a -> 0 < ad /\ ad mod blk (order a) = 0 /\ ad + blk (order a) <= 2 ^ 47 /\ 0 <= order a < 16 ->
  u64 (ad + VMM_HIGHER_HALF_ADDRESS_OFFSET) = ad + VMM_HIGHER_HALF_ADDRESS_OFFSET /\ page_addr a (ad + VMM_HIGHER_HALF_ADDRESS_OFFSET).
Proof.
  intros G (H1 & H2 & H3 & H4). pose proof (geo_blk a G). pose proof (offset_divides _ H4) as Ho.
  split; [apply u64_id; unfold VMM_HIGHER_HALF_ADDRESS_OFFSET; lia|]. split_and!; [lia | | unfold VMM_HIGHER_HALF_ADDRESS_OFFSET; lia].
  by rewrite Zplus_mod, H2, Ho.
Qed.

(** Step through the two list operations that [Em : move_page ... = Some _] describes. *)
Ltac run_move Em :=
  unfold move_page in Em; cbn [head_of] in Em;
  destruct (_allocator_remove_page _ _ _) as [[? ?] |]; [| done]; cbn [mbind option_bind] in *;
  destruct (_allocator_add_page _ _ _) as [[? ?] |]; [| done]; cbn [mbind option_bind] in *; injection Em as -> -> ->.

Section alloc.
Context `{PageAllocatorLaws P}.

(** A page that is not listed yet: its block is new. *)
Lemma block_new a (ps : P) L B ad : (forall b, b ∈ B <-> exists p, listed L p /\ b = page_block a p) -> held ps ((ad, order a) :: B) ->
  0 <= order a -> ~ listed L (ad + VMM_HIGHER_HALF_ADDRESS_OFFSET).
Proof.
  intros HB Hh Ho Hp. destruct (held_apart _ _ Hh) as [Hap _]. specialize (Hap ad (order a)).
  assert (Hin : (ad, order a) ∈ B) by (apply HB; eexists; split; [exact Hp | unfold page_block; f_equal; lia]).
  apply Hap in Hin. unfold apart in Hin. pose proof (blk_pos (order a) Ho). lia.
Qed.

Lemma new_page_ok (s : omm_t P) L fls : core s L fls -> serves (pages s) (order (allocator s)) ->
  exists s' p fls', new_page s = Some (s', p) /\ core s' (set_list L Free (p :: L Free)) fls' /\ ~ listed L p /\
    same_shape (allocator s) (allocator s') /\ fls' p = reverse (slots (allocator s) p) /\ (forall q, q <> p -> fls' q = fls q).
Proof.
  intros [G HL HP (B & HB & HBL)] Hsv. set (a := allocator s) in *. destruct (G) as [[Hpc Ho] _ _ _ _].
  destruct (page_alloc_law _ _ _ HB Ho Hsv) as (ps & ad & Ea & Hh). unfold new_page. fold a. rewrite Hpc, Ea. cbn [mbind option_bind].
  destruct (block_page_addr a ad G (held_block _ _ _ _ Hh ltac:(by left))) as [Eu Hpa]. rewrite Eu, (geo_first a G), <- Hpc, (proj1 (geo_limit a G)).
  pose proof (block_new a ps L B ad HBL Hh ltac:(lia)) as Hnew. set (p := ad + VMM_HIGHER_HALF_ADDRESS_OFFSET) in *.
  pose proof (geo_bounds a G) as [Hs Hm]. pose proof (geo_fit a G). pose proof (geo_hdr a G).
  destruct (link_objects_ok a p (S (Z.to_nat (blk (order a)))) G Hpa (objects s) 0 0 []) as (m & head & El & Hc & Hme);
    [lia | nia | done | by intros x Hx%not_elem_of_nil |].
  rewrite Z.mul_0_l, Z.add_0_r in El. rewrite El. cbn [mbind option_bind]. rewrite app_nil_r, Z.sub_0_r in Hc.
  set (hs := <[p := _]> _). assert (HL' : lists_ok a hs L).
  { apply (lists_ext a (headers s)); [| done]. intros q Hq. subst hs. rewrite links_insert, decide_False; [done | by intros ->]. }
  destruct (lists_push a hs L Free p HL' Hnew) as (hs' & Ep & HL2 & Hb2).
  { destruct Hpa as (? & _). unfold VMM_HIGHER_HALF_ADDRESS_OFFSET in *. lia. }
  { subst hs. by rewrite lookup_insert_eq. }
  cbn [head_of] in Ep. rewrite Ep. cbn [mbind option_bind].
  exists (Omm (set_head a Free p) hs' m ps), p, (fun q => if decide (q = p) then reverse (slots a p) else fls q).
  split_and!; [done | | done | done | by rewrite decide_True | by intros q Hq; rewrite decide_False].
  split; cbn [allocator headers objects pages].
  - by apply geometry_head.
  - done.
  - intros q [c Hq]. apply in_push in Hq. apply (shape_page a); [done|]. destruct (decide (q = p)) as [-> | Hqp].
    + split; [done | | by rewrite reverse_Permutation; apply nodup_slots | intros x; rewrite elem_of_reverse; apply elem_slots].
      exists head. rewrite Hb2. subst hs. rewrite body_insert, decide_True by done. split; [| done].
      unfold in_use. rewrite length_reverse, length_slots by done. cbn. by rewrite Z.sub_diag.
    + assert (Hl : listed L q) by (exists c; tauto). apply (page_ok_ext _ (headers s) _ (objects s)); [| | by apply HP].
      * rewrite Hb2. subst hs. by rewrite body_insert, decide_False.
      * intros x Hx. apply Hme. intros Hx'. destruct (HP q Hl) as [Hqa _ _ Hqs]. apply Hqp, (slot_same_page a _ _ x); auto.
  - exists ((ad, order a) :: B). split; [done|]. intros b. rewrite elem_of_cons, HBL. unfold listed. setoid_rewrite in_push.
    assert (Eb : page_block a p = (ad, order a)) by (unfold page_block; f_equal; lia). change (page_block (set_head a Free p)) with (page_block a). split.
    + intros [-> | (q & [c Hq] & ->)]; [exists p; eauto | exists q; eauto].
    + intros (q & (c & [[-> ->] | Hq]) & ->); [by left | right; eauto].
Qed.
(** *** Changing one page, or the lists *)

Definition set_free (fls : Z -> list Z) (p : Z) (fl : list Z) : Z -> list Z := fun q => if decide (q = p) then fl else fls q.

Lemma core_page (s : omm_t P) L fls p h h' m fl : core s L fls -> headers s !! p = Some h -> listed L p ->
  page_ok (allocator s) (<[p := h']> (headers s)) m p fl -> pg_prev h' = pg_prev h -> pg_next h' = pg_next h ->
  (forall x, ~ is_slot (allocator s) p x -> m x = objects s x) ->
  core (Omm (allocator s) (<[p := h']> (headers s)) m (pages s)) L (set_free fls p fl).
Proof.
  intros [G HL HP HB] Eh Hp Hok E1 E2 Hm. split; cbn [allocator headers objects pages]; [done | | | done].
  - apply (lists_ext _ (headers s)); [| done]. intros q _. rewrite links_insert. destruct (decide (q = p)) as [-> |]; [| done].
    unfold links. by rewrite Eh, E1, E2.
  - intros q Hq. unfold set_free. destruct (decide (q = p)) as [-> | Hqp]; [done|].
    apply (page_ok_ext _ (headers s) _ (objects s)); [by rewrite body_insert, decide_False | | by apply HP].
    intros x Hx. apply Hm. intros Hx'. destruct (HP q Hq) as [Hqa _ _ Hqs], Hok as [Hpa _ _ _].
    apply Hqp, (slot_same_page (allocator s) _ _ x); auto.
Qed.

Lemma core_lists (s : omm_t P) L L' fls a hs : core s L fls -> lists_ok a hs L' -> same_shape (allocator s) a ->
  (forall p, body hs p = body (headers s) p) -> (forall p, listed L' p <-> listed L p) -> core (Omm a hs (objects s) (pages s)) L' fls.
Proof.
  intros [G _ HP (B & HB & HBL)] HL Hsh Hb Hl. split; cbn [allocator headers objects pages]; [by apply (shape_geometry (allocator s)) | done | |].
  - intros p Hp%Hl. apply (shape_page (allocator s)); [done|]. by apply (page_ok_ext _ (headers s) _ (objects s)); [| | apply HP].
  - exists B. split; [done|]. intros b. rewrite HBL. assert (Eb : page_block a = page_block (allocator s)) by (unfold page_block, order; by destruct Hsh as (_ & _ & -> & _)).
    rewrite Eb. split; intros (p & Hp & ->); exists p; by rewrite Hl in *.
Qed.

(** [p] is now in list [c]. *)
Definition moved (L L' : page_lists) (p : Z) (c : cls) : Prop := forall k q, q ∈ L' k <-> (q = p /\ k = c) \/ (q <> p /\ q ∈ L k).

Lemma moved_listed L L' p c : listed L p -> moved L L' p c -> forall q, listed L' q <-> listed L q.
Proof.
  intros Hp Hm q. unfold moved, listed in *. setoid_rewrite Hm. destruct (decide (q = p)) as [-> | Hq]; [| naive_solver].
  split; [done | intros _; exists c; by left].
Qed.

Lemma moved_refl a hs L p c : lists_ok a hs L -> p ∈ L c -> moved L L p c.
Proof.
  intros HL Hp k q. destruct (decide (q = p)) as [-> | Hq]; [| tauto]. split; [intros Hk; left; split; [done | by apply (l_once _ _ _ HL _ _ p)] | naive_solver].
Qed.

Lemma core_move (s : omm_t P) L fls c c' p : core s L fls -> c <> c' -> p ∈ L c ->
  exists hs from L', move_page (headers s) (head_of (allocator s) c) (head_of (allocator s) c') p = Some (hs, from, p) /\
    core (Omm (set_head (set_head (allocator s) c from) c' p) hs (objects s) (pages s)) L' fls /\ moved L L' p c'.
Proof.
  intros HC Hc Hp. pose proof (c_lists _ _ _ HC) as HL. destruct (list_elem_of_split _ _ Hp) as (l1 & l2 & E).
  destruct (lists_move _ _ _ _ _ _ _ _ HL Hc E) as (hs & from & Em & HL' & Hb). exists hs, from, (set_list (set_list L c (l1 ++ l2)) c' (p :: L c')).
  assert (Hmv : moved L (set_list (set_list L c (l1 ++ l2)) c' (p :: L c')) p c') by (intros k q; by apply (in_move _ _ _ HL _ _ _ _ E)).
  split_and!; [done | | done]. apply (core_lists s L); [done | done | by destruct c, c' | done |].
  eapply moved_listed; [by exists c | done].
Qed.

(** *** Taking an object *)

Lemma half_max a : Z.shiftr (max_used_count a) 1 = max_used_count a / 2.
Proof. by rewrite Z.shiftr_div_pow2. Qed.

(** [n] objects of [p] are in use, one more than before. *)
Lemma after_alloc_ok (s : omm_t P) L fls c p n : core s L fls -> p ∈ L c -> class_ok (allocator s) c (n - 1) -> c <> Full ->
  exists a hs L' c', after_alloc (allocator s) (headers s) p n = Some (a, hs) /\ core (Omm a hs (objects s) (pages s)) L' fls /\
    same_shape (allocator s) a /\ moved L L' p c' /\ class_ok (allocator s) c' n.
Proof.
  intros HC Hp Hn Hc. pose proof (geo_bounds _ (c_geo _ _ _ HC)) as [_ Hm]. unfold after_alloc. rewrite half_max.
  pose proof (Z.div_mod (max_used_count (allocator s)) 2). pose proof (Z.mod_pos_bound (max_used_count (allocator s)) 2).
  destruct (Z.eqb_spec n (max_used_count (allocator s) / 2)) as [E1 | E1]; [| destruct (Z.eqb_spec n (max_used_count (allocator s))) as [E2 | E2]].
  - assert (c = Free) as -> by (destruct c; cbn in Hn; [done | lia | done]).
    destruct (core_move s L fls Free Used p HC ltac:(done) Hp) as (hs & from & L' & Em & HC' & Hmv). run_move Em.
    eexists _, _, L', Used. split_and!; [done | exact HC' | done | done | cbn; lia].
  - assert (c = Used) as -> by (destruct c; cbn in Hn; [lia | done | done]).
    destruct (core_move s L fls Used Full p HC ltac:(done) Hp) as (hs & from & L' & Em & HC' & Hmv). run_move Em.
    eexists _, _, L', Full. split_and!; [done | exact HC' | done | done | cbn; lia].
  - exists (allocator s), (headers s), L, c. split_and!; [done | by destruct s | done | by eapply moved_refl; [apply HC |] |].
    destruct c; cbn in *; [lia | lia | done].
Qed.

(** The header of a page and the first of its free objects. *)
Lemma page_pop a hs m p x fl : geometry a -> page_ok a hs m p (x :: fl) ->
  exists h, hs !! p = Some h /\ pg_head h = x /\ x <> 0 /\ u32 (pg_used_count h + 1) = in_use a fl /\ pg_object_size h = object_size a /\
    0 <= in_use a (x :: fl) /\ in_use a fl = in_use a (x :: fl) + 1 /\ chain m (m x) fl.
Proof.
  intros G [Ha (head & Hb & Hc) Hn Hs]. apply body_header in Hb as (h & Eh & [= E1 E2 E3]). destruct Hc as (-> & Hx0 & Hc).
  pose proof (slots_bound a p _ G Hn Hs) as Hle. pose proof (geo_bounds a G). cbn [length] in *. unfold in_use in *.
  exists h. cbn [length] in *. rewrite <- E3. split_and!; try done; try lia. rewrite u32_id; lia.
Qed.

Lemma page_after_pop a hs m p x fl h : geometry a -> page_ok a hs m p (x :: fl) ->
  page_ok a (<[p := PageHeader (pg_prev h) (pg_next h) (m x) (object_size a) (in_use a fl)]> hs) m p fl.
Proof.
  intros G [Ha (head & Hb & (_ & _ & Hc)) Hn Hs]. split; [done | | by apply NoDup_cons in Hn as [_ ?] | intros y Hy; apply Hs; by right].
  exists (m x). rewrite body_insert, decide_True by done. done.
Qed.

(** The step of [omm_alloc] once the page is chosen. *)
Definition take_object (s : omm_t P) (page : Z) : option (omm_t P * Z) :=
  h ← headers s !! page;
  let out := pg_head h in
  if out =? 0 then None
  else
    let used_count := u32 (pg_used_count h + 1) in
    let hs := <[page := PageHeader (pg_prev h) (pg_next h) (objects s out) (pg_object_size h) used_count]> (headers s) in
    r ← after_alloc (allocator s) hs page used_count;
    let '(a, hs) := (r : omm_allocator_t * headers_t) in
    Some (Omm (count_allocation a) hs (objects s) (pages s), out).

Lemma core_count (s : omm_t P) L fls a : core s L fls -> same_shape (allocator s) a ->
  (forall c, head_of a c = head_of (allocator s) c) -> core (Omm a (headers s) (objects s) (pages s)) L fls.
Proof.
  intros HC Hs Hh. apply (core_lists s L); try done. destruct (c_lists _ _ _ HC) as [H1 H2 H3]. split; [| done | done].
  intros c. rewrite Hh. apply H1.
Qed.

Lemma take_object_ok (s : omm_t P) L fls c p x fl : core s L fls -> p ∈ L c -> c <> Full -> fls p = x :: fl ->
  class_ok (allocator s) c (in_use (allocator s) (fls p)) ->
  exists s' L' c', take_object s p = Some (s', x) /\ core s' L' (set_free fls p fl) /\ same_shape (allocator s) (allocator s') /\
    moved L L' p c' /\ class_ok (allocator s) c' (in_use (allocator s) fl).
Proof.
  intros HC Hp Hc Ef Hcl. pose proof (c_geo _ _ _ HC) as G. assert (Hl : listed L p) by (by exists c).
  pose proof (c_pages _ _ _ HC p Hl) as Hok. rewrite Ef in Hok, Hcl.
  destruct (page_pop _ _ _ _ _ _ G Hok) as (h & Eh & E1 & Hx0 & E2 & E3 & Hu & Hi & Hch). unfold take_object. rewrite Eh. cbn [mbind option_bind].
  rewrite E1, E2, E3, (proj2 (Z.eqb_neq x 0)) by done.
  pose proof (core_page s L fls p h _ (objects s) fl HC Eh Hl (page_after_pop _ _ _ _ _ _ h G Hok) eq_refl eq_refl ltac:(done)) as HC1.
  destruct (after_alloc_ok _ _ _ c p (in_use (allocator s) fl) HC1 Hp) as (a & hs & L' & c' & Ea & HC2 & Hsh & Hmv & Hcl').
  { cbn [allocator]. by replace (in_use (allocator s) fl - 1) with (in_use (allocator s) (x :: fl)) by lia. }
  { done. }
  cbn [allocator headers objects pages] in *. rewrite Ea. cbn [mbind option_bind]. eexists _, L', c'. split_and!; [done | | done | done | done].
  apply (core_count _ _ _ (count_allocation a)) in HC2; [done | done | by intros []].
Qed.

(** *** Choosing a page *)

(** An object is free, or a page is to be had. *)
Definition can_alloc (s : omm_t P) : Prop :=
  page_used_head (allocator s) <> 0 \/ page_free_head (allocator s) <> 0 \/ serves (pages s) (order (allocator s)).

Definition choose_page (s : omm_t P) : option (omm_t P * Z) :=
  let a := allocator s in
  let page := if z2b (page_used_head a) then page_used_head a else page_free_head a in
  if z2b page then Some (s, page) else new_page s.

Lemma omm_alloc_steps (s : omm_t P) : omm_alloc s = (r ← choose_page s; let '(s, page) := (r : omm_t P * Z) in take_object s page).
Proof. done. Qed.

(** What [omm_state] says of the pages other than [p]. *)
Definition others_ok (a : omm_allocator_t) (L : page_lists) (fls : Z -> list Z) (p : Z) : Prop :=
  forall c q, q ∈ L c -> q <> p -> class_ok a c (in_use a (fls q)) /\ 0 < in_use a (fls q).

Lemma choose_page_ok (s : omm_t P) A L fls : omm_state s A L fls -> can_alloc s ->
  exists s' p c L' fls', choose_page s = Some (s', p) /\ core s' L' fls' /\ same_shape (allocator s) (allocator s') /\ p ∈ L' c /\ c <> Full /\
    class_ok (allocator s) c (in_use (allocator s) (fls' p)) /\ others_ok (allocator s) L' fls' p /\
    (forall x, x ∈ A <-> exists q, listed L' q /\ is_slot (allocator s) q x /\ x ∉ fls' q).
Proof.
  intros [HC Hcl Hb HA] Hcan. destruct (c_lists _ _ _ HC) as [HD _ _]. unfold choose_page.
  assert (Hoth : forall p, others_ok (allocator s) L fls p) by (intros p c q Hq _; split; [by apply Hcl | apply Hb; by exists c]).
  pose proof (dseg_first _ _ _ _ (HD Used)) as [EU NU]. pose proof (dseg_first _ _ _ _ (HD Free)) as [EF NF]. cbn [head_of] in *.
  destruct (z2b (page_used_head (allocator s))) eqn:BU; [| destruct (z2b (page_free_head (allocator s))) eqn:BF].
  - assert (Hin : page_used_head (allocator s) ∈ L Used) by (rewrite EU in *; destruct (L Used); [done | by left]).
    rewrite BU. exists s, (page_used_head (allocator s)), Used, L, fls. split_and!; try done. by apply Hcl.
  - assert (Hin : page_free_head (allocator s) ∈ L Free) by (rewrite EF in *; destruct (L Free); [done | by left]).
    exists s, (page_free_head (allocator s)), Free, L, fls. split_and!; try done. by apply Hcl.
  - unfold z2b in BU, BF. rewrite negb_false_iff, Z.eqb_eq in BU, BF.
    assert (Hsv : serves (pages s) (order (allocator s))) by (destruct Hcan as [? | [? | ?]]; done).
    destruct (new_page_ok s L fls HC Hsv) as (s' & p & fls' & En & HC' & Hnew & Hsh & Hfp & Hfq).
    exists s', p, Free, (set_list L Free (p :: L Free)), fls'. pose proof (geo_bounds _ (c_geo _ _ _ HC)) as [_ Hm].
    assert (Hq : forall q, listed L q -> q <> p) by (intros q Hq ->; done).
    split_and!; [done | done | done | apply in_push; by left | done | | |].
    + rewrite Hfp. unfold in_use. rewrite length_reverse, length_slots by apply HC. unfold class_ok.
      pose proof (Z.div_le_mono 2 (max_used_count (allocator s)) 2 ltac:(lia) ltac:(lia)) as Hd. change (2 / 2) with 1 in Hd. lia.
    + intros c q Hin Hqp. apply in_push in Hin as [[-> ->] | Hin]; [done|]. rewrite Hfq by done. by apply (Hoth p).
    + intros x. rewrite HA. unfold listed. setoid_rewrite in_push. split.
      * intros (q & [c Hin] & Hx). exists q. split; [exists c; by right|]. rewrite Hfq; [done | apply Hq; by exists c].
      * intros (q & (c & [[-> ->] | Hin]) & Hx & Hnx); [rewrite Hfp in Hnx; exfalso; apply Hnx; by rewrite elem_of_reverse; apply elem_slots|].
        exists q. rewrite Hfq in Hnx by (apply Hq; by exists c). split; [by exists c | done].
Qed.

Lemma shape_trans a a' a'' : same_shape a a' -> same_shape a' a'' -> same_shape a a''.
Proof. unfold same_shape. intuition congruence. Qed.

Lemma shape_class a a' c n fl : same_shape a a' -> (class_ok a' c n <-> class_ok a c n) /\ in_use a' fl = in_use a fl.
Proof. intros (_ & _ & _ & E). unfold class_ok, in_use. by rewrite E. Qed.

Lemma state_intro (s : omm_t P) a A L fls : core s L fls -> same_shape a (allocator s) ->
  (forall k q, q ∈ L k -> class_ok a k (in_use a (fls q)) /\ 0 < in_use a (fls q)) ->
  (forall x, x ∈ A <-> exists q, listed L q /\ is_slot a q x /\ x ∉ fls q) -> omm_state s A L fls.
Proof.
  intros HC Hsh Hall HA. split; [done | | |].
  - intros k q Hq. destruct (shape_class a (allocator s) k (in_use a (fls q)) (fls q) Hsh) as [E1 E2]. rewrite E2, E1. by apply Hall.
  - intros q [k Hq]. rewrite (proj2 (shape_class a (allocator s) k 0 _ Hsh)). by apply (Hall k).
  - intros x. rewrite HA. split; intros (q & Hq & Hx); exists q; by rewrite (shape_slot a) in *.
Qed.

(** Put the description of one page back among the others. *)
Lemma state_of_page (s : omm_t P) a A L L' fls p c fl : core s L' (set_free fls p fl) -> same_shape a (allocator s) ->
  listed L p -> moved L L' p c -> others_ok a L fls p -> class_ok a c (in_use a fl) -> 0 < in_use a fl ->
  (forall x, x ∈ A <-> exists q, listed L q /\ is_slot a q x /\ x ∉ set_free fls p fl q) ->
  omm_state s A L' (set_free fls p fl).
Proof.
  intros HC Hsh Hp Hmv Hoth Hcl Hpos HA.
  assert (Hall : forall k q, q ∈ L' k -> class_ok a k (in_use a (set_free fls p fl q)) /\ 0 < in_use a (set_free fls p fl q)).
  { intros k q Hq. apply Hmv in Hq. unfold set_free. destruct (decide (q = p)) as [-> | Hqp]; destruct Hq as [[? ->] | [? Hq]]; try done. by apply Hoth. }
  apply (state_intro s a); [done | done | done |]. intros x. rewrite HA. split; intros (q & Hq & Hx); exists q; by rewrite (moved_listed _ _ _ _ Hp Hmv) in *.
Qed.

Lemma omm_alloc_ok (s : omm_t P) A L fls : omm_state s A L fls -> can_alloc s ->
  exists s' x L' fls', omm_alloc s = Some (s', x) /\ (x ∉ A) /\ omm_state s' ({[x]} ∪ A) L' fls' /\ same_shape (allocator s) (allocator s').
Proof.
  intros Hs Hcan. pose proof (c_geo _ _ _ (o_core _ _ _ _ Hs)) as G. rewrite omm_alloc_steps.
  destruct (choose_page_ok s A L fls Hs Hcan) as (s1 & p & c & L1 & fls1 & E1 & HC1 & Hsh1 & Hp & Hc & Hcl & Hoth & HA).
  rewrite E1. cbn [mbind option_bind]. pose proof (geo_bounds _ G) as [_ Hm].
  destruct (fls1 p) as [| x fl] eqn:Ef; [unfold in_use in Hcl; cbn in Hcl; destruct c; cbn in Hcl; [| lia | done];
    pose proof (Z.div_lt (max_used_count (allocator s)) 2); lia|]. rewrite <- Ef in Hcl.
  assert (Hl : listed L1 p) by (by exists c).
  destruct (take_object_ok s1 L1 fls1 c p x fl HC1 Hp Hc Ef) as (s2 & L2 & c2 & E2 & HC2 & Hsh2 & Hmv & Hcl2).
  { pose proof (shape_class _ _ c (in_use (allocator s) (fls1 p)) (fls1 p) Hsh1) as [H1 H2]. by rewrite H2, H1. }
  pose proof (c_pages _ _ _ HC1 p Hl) as [Ha _ Hn Hsl]. rewrite Ef in Hn, Hsl. pose proof Hn as [Hx Hn']%NoDup_cons.
  pose proof (Hsl x ltac:(by left)) as Hsx. rewrite (shape_slot _ _ Hsh1) in Hsx.
  assert (HxA : x ∉ A).
  { intros (q & Hq & Hxq & Hxf)%HA. assert (q = p) as ->; [| rewrite Ef in Hxf; set_solver].
    apply (slot_same_page (allocator s1) _ _ x); [apply HC1 | apply (c_pages _ _ _ HC1 q Hq) | done | by rewrite (shape_slot _ _ Hsh1)..]. }
  exists s2, x, L2, (set_free fls1 p fl). split_and!; [done | done | | by eapply shape_trans].
  pose proof (shape_class _ _ c2 (in_use (allocator s) fl) fl Hsh1) as [H1 H2]. rewrite H2, H1 in Hcl2.
  assert (Hpos : 0 <= in_use (allocator s) (fls1 p)) by (destruct c; cbn in Hcl; [lia | | done]; pose proof (Z.div_pos (max_used_count (allocator s)) 2); lia).
  apply (state_of_page s2 (allocator s) _ L1 L2 fls1 p c2 fl); try done; [by eapply shape_trans | unfold in_use in *; rewrite Ef in Hpos; cbn [length] in Hpos; lia|].
  intros y. rewrite elem_of_union, elem_of_singleton, HA. unfold set_free. split.
  - intros [-> | (q & Hq & Hyq & Hyf)]; [exists p; by rewrite decide_True|]. exists q. split_and!; [done | done |].
    destruct (decide (q = p)) as [-> |]; [rewrite Ef in Hyf; set_solver | done].
  - intros (q & Hq & Hyq & Hyf). destruct (decide (q = p)) as [-> |]; [| right; by exists q].
    destruct (decide (y = x)) as [-> |]; [by left | right; exists p; rewrite Ef; set_solver].
Qed.
End alloc.

(** ** Giving an object back *)

Lemma before_dealloc_ok a hs L c p n : geometry a -> lists_ok a hs L -> p ∈ L c -> class_ok a c n -> 0 < n ->
  exists a' hs' L' c', before_dealloc a hs p n = Some (a', hs') /\ lists_ok a' hs' L' /\ same_shape a a' /\ moved L L' p c' /\
    (forall x, body hs' x = body hs x) /\ class_ok a c' (n - 1).
Proof.
  intros G HL Hp Hn Hpos. pose proof (geo_bounds _ G) as [_ Hm]. unfold before_dealloc. rewrite half_max.
  pose proof (Z.div_mod (max_used_count a) 2). pose proof (Z.mod_pos_bound (max_used_count a) 2).
  destruct (list_elem_of_split _ _ Hp) as (l1 & l2 & E).
  destruct (Z.eqb_spec n (max_used_count a)) as [E1 | E1]; [| destruct (Z.eqb_spec n (max_used_count a / 2)) as [E2 | E2]].
  - assert (c = Full) as -> by (destruct c; cbn in Hn; [lia | lia | done]).
    destruct (lists_move a hs L Full Used l1 p l2 HL ltac:(done) E) as (hs' & from & Em & HL' & Hb). run_move Em.
    eexists _, _, _, Used. split_and!; [done | exact HL' | done | | done | cbn; lia]. intros k q. by apply (in_move _ _ _ HL _ _ _ _ E).
  - assert (c = Used) as -> by (destruct c; cbn in Hn; [lia | done | lia]).
    destruct (lists_move a hs L Used Free l1 p l2 HL ltac:(done) E) as (hs' & from & Em & HL' & Hb). run_move Em.
    eexists _, _, _, Free. split_and!; [done | exact HL' | done | | done | cbn; lia]. intros k q. by apply (in_move _ _ _ HL _ _ _ _ E).
  - exists a, hs, L, c. split_and!; [done | done | done | by eapply moved_refl | done |]. destruct c; cbn in *; lia.
Qed.

(** A page with one more free object. *)
Lemma page_after_push a hs m p x fl h : geometry a -> page_ok a hs m p fl -> is_slot a p x -> x ∉ fl ->
  page_ok a (<[p := PageHeader (pg_prev h) (pg_next h) x (object_size a) (in_use a (x :: fl))]> hs) (set_link m x (first_of fl 0)) p (x :: fl).
Proof.
  intros G [Ha (head & Hb & Hc) Hn Hs] Hx Hf. split; [done | | by constructor | intros y [-> | Hy]%elem_of_cons; auto].
  exists x. rewrite body_insert, decide_True by done. split; [done|]. pose proof (slot_word a G p x Ha Hx). cbn [chain]. split_and!; [done | lia |].
  unfold set_link at 2. rewrite Z.eqb_refl. apply chain_set_link; [done|]. destruct fl; cbn in *; [done | naive_solver].
Qed.

Lemma page_push a hs m p x fl : geometry a -> page_ok a hs m p fl -> is_slot a p x -> x ∉ fl ->
  exists h, hs !! p = Some h /\ pg_head h = first_of fl 0 /\ pg_object_size h = object_size a /\ pg_used_count h = in_use a fl /\
    0 <= in_use a (x :: fl) < 2 ^ 32 - 1 /\ in_use a (x :: fl) = in_use a fl - 1.
Proof.
  intros G [Ha (head & Hb & Hc) Hn Hs] Hx Hf. apply body_header in Hb as (h & Eh & [= E1 E2 E3]). exists h.
  pose proof (geo_bounds a G). pose proof (slots_bound a p (x :: fl) G ltac:(by constructor) ltac:(intros y [-> | Hy]%elem_of_cons; auto)) as Hle.
  unfold in_use in *. cbn [length] in *. split_and!; try done; try lia. rewrite <- E1. destruct fl; cbn in Hc; [done | naive_solver].
Qed.

Section dealloc.
Context `{PageAllocatorLaws P}.

(** The pages other than [p] are not affected by what happens to [p]. *)
Lemma pages_but (s : omm_t P) L fls a hs m p : core s L fls -> same_shape (allocator s) a -> page_addr (allocator s) p ->
  (forall q, q <> p -> body hs q = body (headers s) q) -> (forall x, ~ is_slot (allocator s) p x -> m x = objects s x) ->
  forall q, listed L q -> q <> p -> page_ok a hs m q (fls q).
Proof.
  intros HC Hsh Hp Hb Hm q Hq Hqp. pose proof (c_pages _ _ _ HC q Hq) as Hok. apply (shape_page (allocator s)); [done|].
  apply (page_ok_ext _ (headers s) _ (objects s)); [by apply Hb | | done]. intros x Hx. apply Hm. intros Hx'. destruct Hok as [Hqa _ _ Hqs].
  apply Hqp, (slot_same_page (allocator s) _ _ x); [apply HC | auto..].
Qed.

(** A page that leaves its list goes back to the page allocator. *)
Lemma held_drop a (ps : P) L L' p : pages_held a ps L -> listed L p -> (forall q, listed L' q <-> q <> p /\ listed L q) ->
  exists ps', page_dealloc ps (p - VMM_HIGHER_HALF_ADDRESS_OFFSET) (2 ^ order a) = Some ps' /\ pages_held a ps' L'.
Proof.
  intros (B & HB & HBL) Hp HL. assert (Hin : page_block a p ∈ B) by (apply HBL; by exists p).
  destruct (list_elem_of_split _ _ Hin) as (B1 & B2 & ->). destruct (page_dealloc_law _ _ _ _ _ HB) as (ps' & E & HB').
  exists ps'. split; [done|]. exists (B1 ++ B2). split; [done|].
  pose proof (held_apart _ _ HB) as Hap. rewrite <- Permutation_middle in Hap. destruct Hap as [Hap _].
  pose proof (held_block _ _ _ _ HB Hin) as (_ & _ & _ & Ho). pose proof (blk_pos (order a) ltac:(lia)).
  assert (Hnot : page_block a p ∉ B1 ++ B2) by (intros Hi; apply Hap in Hi; unfold apart in Hi; lia).
  intros b. specialize (HBL b). rewrite elem_of_app, elem_of_cons in HBL. split.
  - intros Hb. assert (Hb' : b ∈ B1 \/ b = page_block a p \/ b ∈ B2) by set_solver. apply HBL in Hb' as (q & Hq & ->). exists q.
    split; [| done]. apply HL. split; [by intros -> | done].
  - intros (q & [Hqp Hq]%HL & ->). destruct (proj2 HBL ltac:(by exists q)) as [? | [Eq | ?]]; [set_solver | | set_solver].
    exfalso. apply Hqp. unfold page_block in Eq. injection Eq. lia.
Qed.

(** The second half of [omm_dealloc]: the count, and the page if it is empty. *)
Definition finish_dealloc (a : omm_allocator_t) (hs : headers_t) (m : Z -> Z) (ps : P) (page : Z) : option (omm_t P) :=
  h ← hs !! page;
  let used_count := u32 (pg_used_count h - 1) in
  let hs := <[page := PageHeader (pg_prev h) (pg_next h) (pg_head h) (pg_object_size h) used_count]> hs in
  if used_count =? 0 then
    r ← _allocator_remove_page hs (page_free_head a) page;
    let '(hs, free) := (r : headers_t * Z) in
    let a := with_heads a free (page_used_head a) (page_full_head a) in
    p ← (if z2b (page_count a) then page_dealloc ps (u64 (page - VMM_HIGHER_HALF_ADDRESS_OFFSET)) (page_count a) else Some ps);
    Some (Omm (count_deallocation a) hs m p)
  else Some (Omm (count_deallocation a) hs m ps).

Lemma omm_dealloc_steps (s : omm_t P) x p h : p = Z.land x (u64 (- u64 (Z.shiftl (page_count (allocator s)) PAGE_SIZE_SHIFT))) ->
  headers s !! p = Some h -> pg_object_size h = object_size (allocator s) ->
  omm_dealloc s x =
    (r ← before_dealloc (allocator s) (<[p := PageHeader (pg_prev h) (pg_next h) x (pg_object_size h) (pg_used_count h)]> (headers s)) p (pg_used_count h);
     let '(a, hs) := (r : omm_allocator_t * headers_t) in finish_dealloc a hs (set_link (objects s) x (pg_head h)) (pages s) p).
Proof. intros -> Eh Es. unfold omm_dealloc. rewrite Eh. cbn [mbind option_bind]. by rewrite Es, Z.eqb_refl. Qed.

Lemma core_after_dealloc (s : omm_t P) a L L' fls fls' hs m ps : core s L fls -> same_shape (allocator s) a -> lists_ok a hs L' ->
  (forall q, listed L' q -> page_ok (count_deallocation a) hs m q (fls' q)) -> pages_held (allocator s) ps L' ->
  core (Omm (count_deallocation a) hs m ps) L' fls'.
Proof.
  intros HC Hsh [D1 D2 D3] Hpages (B & HB & HBL). split; cbn [allocator headers objects pages]; [| | done |].
  - apply (shape_geometry (allocator s)); [done | apply HC].
  - split; [| done | done]. intros k. specialize (D1 k). by destruct k.
  - exists B. split; [done|]. intros b. rewrite HBL. destruct Hsh as (_ & _ & S3 & _). unfold page_block, order. cbn. by rewrite S3.
Qed.

(** Both outcomes: the page is kept with one object less, or it is empty and
    goes back. *)
Lemma finish_dealloc_ok (s : omm_t P) a L L' fls p c hs m fl h x : core s L fls -> same_shape (allocator s) a -> lists_ok a hs L' ->
  listed L p -> moved L L' p c -> class_ok (allocator s) c (in_use (allocator s) (x :: fl)) -> 0 <= in_use (allocator s) (x :: fl) < 2 ^ 32 - 1 ->
  (forall q, q <> p -> body hs q = body (headers s) q) -> body hs p = Some (x, object_size (allocator s), in_use (allocator s) (x :: fl) + 1) ->
  (forall y, ~ is_slot (allocator s) p y -> m y = objects s y) ->
  page_ok (allocator s) (<[p := PageHeader (pg_prev h) (pg_next h) x (object_size (allocator s)) (in_use (allocator s) (x :: fl))]> (headers s)) m p (x :: fl) ->
  exists s', finish_dealloc a hs m (pages s) p = Some s' /\ same_shape (allocator s) (allocator s') /\
    (0 < in_use (allocator s) (x :: fl) -> core s' L' (set_free fls p (x :: fl))) /\
    (in_use (allocator s) (x :: fl) = 0 -> exists L'', core s' L'' (set_free fls p (x :: fl)) /\ forall k q, q ∈ L'' k <-> q <> p /\ q ∈ L k).
Proof.
  intros HC Hsh HL Hp Hmv Hcl Hn Hb Hbp Hm Hok. pose proof (c_geo _ _ _ HC) as G. set (n := in_use (allocator s) (x :: fl)) in *.
  apply body_header in Hbp as (h2 & Eh2 & [= B1 B2 B3]). unfold finish_dealloc. rewrite Eh2. cbn [mbind option_bind]. rewrite <- B1, <- B2, <- B3.
  replace (u32 (n + 1 - 1)) with n by (rewrite u32_id; lia). set (hs2 := <[p := _]> hs).
  assert (Hl2 : forall q, links hs2 q = links hs q).
  { intros q. subst hs2. rewrite links_insert. destruct (decide (q = p)) as [-> |]; [unfold links; by rewrite Eh2 | done]. }
  assert (Hb2 : forall q, q <> p -> body hs2 q = body (headers s) q) by (intros q Hq; subst hs2; rewrite body_insert, decide_False by done; by apply Hb).
  assert (HL2 : lists_ok a hs2 L') by (by apply (lists_ext a hs); [intros q _; apply Hl2 |]).
  assert (Hpages : forall a' hs', same_shape (allocator s) a' -> (forall q, body hs' q = body hs2 q) ->
    forall q, listed L q -> page_ok a' hs' m q (set_free fls p (x :: fl) q)).
  { intros a' hs' Hsh' Hbb q Hq. unfold set_free. destruct (decide (q = p)) as [-> | Hqp].
    - apply (shape_page (allocator s)); [done|]. eapply page_ok_ext; [| done | exact Hok]. rewrite Hbb. subst hs2. by rewrite !body_insert, !decide_True.
    - apply (pages_but s L fls a' hs' m p HC Hsh'); try done; [apply Hok|]. intros k Hk. rewrite Hbb. by apply Hb2. }
  pose proof (moved_listed _ _ _ _ Hp Hmv) as Hlist. pose proof (c_held _ _ _ HC) as Hheld.
  destruct (Z.eqb_spec n 0) as [E0 | E0].
  - assert (c = Free) as -> by (pose proof (geo_bounds _ G); pose proof (Z.div_le_mono 2 (max_used_count (allocator s)) 2 ltac:(lia) ltac:(lia)) as Hd;
      change (2 / 2) with 1 in Hd; destruct c; cbn in Hcl; [done | lia | lia]).
    assert (HpF : p ∈ L' Free) by (apply Hmv; by left). destruct (list_elem_of_split _ _ HpF) as (l1 & l2 & E).
    destruct (lists_drop a hs2 L' Free l1 p l2 HL2 E) as (hs3 & from & Er & HL3 & Hb3). cbn [head_of] in Er. rewrite Er. cbn [mbind option_bind].
    assert (Hdrop : forall k q, q ∈ set_list L' Free (l1 ++ l2) k <-> q <> p /\ q ∈ L k).
    { intros k q. rewrite (in_drop _ _ _ HL2 _ _ _ _ E), (Hmv k q). tauto. }
    assert (Hdl : forall q, listed (set_list L' Free (l1 ++ l2)) q <-> q <> p /\ listed L q).
    { intros q. unfold listed. setoid_rewrite Hdrop. naive_solver. }
    destruct (held_drop _ _ _ _ p Hheld Hp Hdl) as (ps' & Ed & Hh').
    destruct (Hsh) as (S1 & S2 & S3 & S4). cbn [page_count with_heads]. destruct (G) as [[Hpc Ho] _ _ _ _]. rewrite S3, Hpc.
    assert (z2b (2 ^ order (allocator s)) = true) as -> by (unfold z2b; rewrite (proj2 (Z.eqb_neq _ 0)); [done | lia]).
    pose proof (proj1 (p_addr _ _ _ _ _ Hok)) as Hlo. pose proof (p_addr _ _ _ _ _ Hok) as (_ & _ & Hhi). pose proof (geo_blk _ G).
    rewrite u64_id by (unfold VMM_HIGHER_HALF_ADDRESS_OFFSET in *; lia). rewrite Ed. cbn [mbind option_bind].
    eexists. split_and!; [done | done | lia |]. intros _. exists (set_list L' Free (l1 ++ l2)). split; [| done].
    apply (core_after_dealloc s _ L _ fls); [done | done | done | | done]. intros q [_ Hq]%Hdl. by apply Hpages.
  - eexists. split_and!; [done | done | | lia]. intros Hpos. apply (core_after_dealloc s _ L _ fls); [done | done | done | |].
    + intros q Hq%Hlist. by apply Hpages.
    + destruct Hheld as (B & HB & HBL). exists B. split; [done|]. intros b. rewrite HBL. split; intros (q & Hq & ->); exists q; by rewrite Hlist in *.
Qed.

(** The last object in use of page [p] is gone, and the page with it. *)
Lemma state_dropped (s : omm_t P) a A L L' fls p fl : core s L' (set_free fls p fl) -> same_shape a (allocator s) -> geometry a ->
  (forall k q, q ∈ L' k <-> q <> p /\ q ∈ L k) -> others_ok a L fls p -> in_use a fl = 0 ->
  NoDup fl -> (forall y, y ∈ fl -> is_slot a p y) ->
  (forall x, x ∈ A <-> exists q, listed L q /\ is_slot a q x /\ x ∉ set_free fls p fl q) ->
  omm_state s A L' (set_free fls p fl).
Proof.
  intros HC Hsh G HL Hoth H0' Hnd Hsl HA.
  assert (Hall : forall k q, q ∈ L' k -> class_ok a k (in_use a (set_free fls p fl q)) /\ 0 < in_use a (set_free fls p fl q)).
  { intros k q [Hqp Hq]%HL. unfold set_free. rewrite decide_False by done. by apply Hoth. }
  assert (Hfull : forall y, is_slot a p y -> y ∈ fl).
  { intros y Hy. destruct (decide (y ∈ fl)) as [| Hn]; [done|]. exfalso.
    pose proof (slots_bound a p (y :: fl) G ltac:(by constructor) ltac:(intros z [-> | Hz]%elem_of_cons; auto)) as Hle.
    unfold in_use in H0'. cbn [length] in Hle. lia. }
  apply (state_intro s a); [done | done | done |]. intros x. rewrite HA. split; intros (q & [k Hq] & Hx & Hxf); exists q; try done.
  - assert (Hqp : q <> p). { intros ->. apply Hxf. unfold set_free. rewrite decide_True by done. by apply Hfull. }
    split; [exists k; by apply HL | done].
  - apply HL in Hq as [Hqp Hq]. split; [by exists k | done].
Qed.

Lemma omm_dealloc_ok (s : omm_t P) A L fls x : omm_state s A L fls -> x ∈ A ->
  exists s' L' fls', omm_dealloc s x = Some s' /\ omm_state s' (A ∖ {[x]}) L' fls' /\ same_shape (allocator s) (allocator s').
Proof.
  intros [HC Hcl Hbusy HA] Hx. pose proof (c_geo _ _ _ HC) as G. destruct (proj1 (HA x) Hx) as (p & Hp & Hsx & Hxf). destruct (Hp) as [c Hc].
  pose proof (c_pages _ _ _ HC p Hp) as Hok. destruct (page_push _ _ _ _ _ _ G Hok Hsx Hxf) as (h & Eh & E1 & E2 & E3 & Hn & Hn').
  rewrite (omm_dealloc_steps s x p h); [| symmetry; apply slot_page; [done | apply Hok | done] | done | done]. rewrite E1, E2, E3.
  set (hs1 := <[p := _]> (headers s)).
  assert (HL1 : lists_ok (allocator s) hs1 L).
  { apply (lists_ext _ (headers s)); [| apply HC]. intros q _. subst hs1. rewrite links_insert. destruct (decide (q = p)) as [-> |]; [unfold links; by rewrite Eh | done]. }
  destruct (before_dealloc_ok _ hs1 L c p (in_use (allocator s) (fls p)) G HL1 Hc (Hcl c p Hc) (Hbusy p Hp)) as (a & hs & L' & c' & Eb & HL' & Hsh & Hmv & Hb & Hcl').
  rewrite Eb. cbn [mbind option_bind].
  assert (Hoth : others_ok (allocator s) L fls p) by (intros k q Hq _; split; [by apply Hcl | apply Hbusy; by exists k]).
  assert (HA' : forall y, y ∈ A ∖ {[x]} <-> exists q, listed L q /\ is_slot (allocator s) q y /\ y ∉ set_free fls p (x :: fls p) q).
  { intros y. rewrite elem_of_difference, elem_of_singleton, HA. unfold set_free. split.
    - intros [(q & Hq & Hyq & Hyf) Hyx]. exists q. destruct (decide (q = p)) as [-> |]; [set_solver | done].
    - intros (q & Hq & Hyq & Hyf). destruct (decide (q = p)) as [-> | Hqp]; [set_solver|]. split; [by exists q|].
      intros ->. apply Hqp, (slot_same_page (allocator s) _ _ x); [done | apply (c_pages _ _ _ HC q Hq) | apply Hok | done | done]. }
  destruct (finish_dealloc_ok s a L L' fls p c' hs (set_link (objects s) x (first_of (fls p) 0)) (fls p) h x HC Hsh HL' Hp Hmv) as (s' & Ef & Hsh' & H1 & H2).
  - by rewrite Hn'.
  - done.
  - intros q Hq. rewrite Hb. subst hs1. by rewrite body_insert, decide_False.
  - rewrite Hb. subst hs1. rewrite body_insert, decide_True by done. cbn. repeat f_equal. lia.
  - intros y Hy. unfold set_link. by rewrite (proj2 (Z.eqb_neq y x)) by (intros ->; done).
  - by apply page_after_push.
  - exists s'. rewrite Ef. destruct (Z.eq_dec (in_use (allocator s) (x :: fls p)) 0) as [E0 | E0].
    + destruct (H2 E0) as (L'' & HC' & HL''). exists L'', (set_free fls p (x :: fls p)). split_and!; [done | | done]. apply (state_dropped s' (allocator s) _ L L''); try done.
      * constructor; [done | apply Hok].
      * intros y [-> | Hy]%elem_of_cons; [done | by apply Hok].
    + exists L', (set_free fls p (x :: fls p)). split_and!; [done | | done].
      apply (state_of_page s' (allocator s) _ L L' fls p c'); try done; [by apply H1; lia | by rewrite Hn' | lia].
Qed.
End dealloc.

(** ** A new allocator *)

Lemma pow2_test n : 0 <= n < 64 -> z2b (Z.land (2 ^ n) (u64 (2 ^ n - 1))) = false.
Proof.
  intros Hn. assert (0 < 2 ^ n < 2 ^ 64) by (split; [lia | apply Z.pow_lt_mono_r; lia]). rewrite u64_id by lia.
  replace (2 ^ n - 1) with (Z.ones n) by (rewrite Z.ones_equiv; lia). by rewrite Z.land_ones, Z.mod_same by lia.
Qed.

Lemma omm_init_ok size e i : 0 <= size -> 0 <= e < 32 -> 0 <= i < 16 ->
  round_up e sizeof_page_header + 2 * round_up e (size `max` sizeof_object) <= blk i ->
  exists a, _init_allocator size (2 ^ e) (2 ^ i) = Some a /\ geometry a /\ size <= object_size a /\ alignment a = 2 ^ e /\
    page_free_head a = 0 /\ page_used_head a = 0 /\ page_full_head a = 0.
Proof.
  intros Hs He Hi Hfit. unfold _init_allocator. rewrite !pow2_test by lia.
  assert (Hmx : (if size <? sizeof_object then sizeof_object else size) = size `max` sizeof_object).
  { unfold sizeof_object. destruct (Z.ltb_spec size 8); lia. } rewrite Hmx. clear Hmx. set (sz := size `max` sizeof_object) in *.
  assert (Hsz : size <= sz /\ 8 <= sz) by (subst sz; unfold sizeof_object; lia).
  assert (Hpe : 1 <= 2 ^ e < 2 ^ 32) by (split; [lia | apply Z.pow_lt_mono_r; lia]).
  assert (Hpi : 1 <= 2 ^ i < 2 ^ 16) by (split; [lia | apply Z.pow_lt_mono_r; lia]).
  pose proof (blk_max i Hi) as Hbm. pose proof (round_up_spec e sz ltac:(lia)) as [Hm1 Hr1].
  pose proof (round_up_spec e sizeof_page_header ltac:(lia)) as [Hm2 Hr2]. unfold sizeof_page_header in *.
  rewrite (u64_id (sz + 2 ^ e - 1)), (u64_id (32 + 2 ^ e - 1)) by lia. rewrite !land_round_down by lia.
  fold (round_up e sz) (round_up e 32). rewrite (u32_id (round_up e sz)) by lia. rewrite (proj2 (Z.eqb_neq (round_up e sz) 0)) by lia.
  assert (Eb : Z.shiftl (2 ^ i) PAGE_SIZE_SHIFT = blk i).
  { change PAGE_SIZE_SHIFT with 12. rewrite Z.shiftl_mul_pow2 by lia. unfold blk. rewrite <- Z.pow_add_r by lia. f_equal. lia. }
  rewrite Eb, (u64_id (blk i - round_up e 32)) by lia.
  assert (Hq : 2 <= (blk i - round_up e 32) / round_up e sz < 2 ^ 27) by (split; [apply Z.div_le_lower_bound | apply Z.div_lt_upper_bound]; lia).
  eexists. split; [done|]. rewrite (u32_id (2 ^ e)), (u32_id (2 ^ i)), (u32_id (_ / _)) by lia.
  split_and!; try done; [| cbn [object_size]; lia]. split; unfold hdr, order; cbn [alignment object_size page_count max_used_count]; rewrite ?Z.log2_pow2 by lia.
  - done.
  - done.
  - split; [lia | done].
  - done.
  - lia.
Qed.

Section results.
Context `{PageAllocatorLaws P}.

(** [A] are the objects in use, [L] the pages. *)
Definition omm_holds (s : omm_t P) (A : gset Z) (L : page_lists) : Prop := exists fls, omm_state s A L fls.

Lemma omm_empty a m (ps : P) : geometry a -> page_free_head a = 0 -> page_used_head a = 0 -> page_full_head a = 0 -> held ps [] ->
  omm_holds (Omm a ∅ m ps) ∅ (fun _ => []).
Proof.
  intros G E1 E2 E3 Hh. exists (fun _ => []). assert (Hno : forall p, ~ listed (fun _ => []) p) by (by intros p [c Hp%not_elem_of_nil]).
  split; [| by intros c p Hp%not_elem_of_nil | by intros p Hp%Hno |].
  - split; [done | | by intros p Hp%Hno |].
    + split; [by intros []; cbn | intros c; constructor | by intros c c' p Hp%not_elem_of_nil].
    + exists []. split; [done|]. intros b. split; [by intros Hb%not_elem_of_nil | by intros (p & Hp%Hno & _)].
  - intros x. split; [set_solver | by intros (p & Hp%Hno & _)].
Qed.

(** Objects in use do not overlap, and lie outside of the page headers. *)
Lemma objects_separate (s : omm_t P) A L fls x : omm_state s A L fls -> x ∈ A ->
  x mod alignment (allocator s) = 0 /\
  (forall y, y ∈ A -> y <> x -> x + object_size (allocator s) <= y \/ y + object_size (allocator s) <= x) /\
  (forall p, listed L p -> x + object_size (allocator s) <= p \/ p + sizeof_page_header <= x).
Proof.
  intros [HC _ _ HA] (p & Hp & Hsx & _)%HA. pose proof (c_geo _ _ _ HC) as G.
  assert (Hadr : forall q, listed L q -> page_addr (allocator s) q) by (intros q Hq; apply (c_pages _ _ _ HC q Hq)).
  assert (Hsep : forall q, listed L q -> q <> p -> p + blk (order (allocator s)) <= q \/ q + blk (order (allocator s)) <= p).
  { intros q Hq Hqp. destruct (Hadr q Hq) as (_ & H1 & _), (Hadr p Hp) as (_ & H2 & _). pose proof (geo_blk _ G).
    apply Z.mod_divide in H1 as [u ->]; [| lia]. apply Z.mod_divide in H2 as [v ->]; [| lia]. assert (u <> v) by congruence.
    destruct (Z.lt_total u v) as [| [|]]; nia. }
  split; [by apply (slot_aligned _ G p); auto|]. destruct Hsx as (k & Hk & ->). pose proof (slot_inside _ G p k Hk) as [I1 I2]. split.
  - intros y (q & Hq & (j & Hj & ->) & _)%HA Hne. pose proof (slot_inside _ G q j Hj) as [J1 J2].
    destruct (Z.eq_dec q p) as [-> | Hqp]; [apply (slot_apart _ G); congruence | destruct (Hsep q Hq Hqp); lia].
  - intros q Hq. unfold sizeof_page_header. pose proof (geo_bounds _ G). pose proof (geo_blk _ G).
    destruct (Z.eq_dec q p) as [-> | Hqp]; [lia | destruct (Hsep q Hq Hqp); lia].
Qed.

(** With no object in use, no page is kept. *)
Lemma no_objects_no_pages (s : omm_t P) L fls : omm_state s ∅ L fls -> held (pages s) [].
Proof.
  intros [HC _ Hb HA]. pose proof (c_geo _ _ _ HC) as G. destruct (c_held _ _ _ HC) as (B & HB & HBL). destruct B as [| b B]; [done|]. exfalso.
  destruct (proj1 (HBL b) ltac:(by left)) as (p & Hp & _). specialize (Hb p Hp). pose proof (c_pages _ _ _ HC p Hp) as [_ _ Hn Hs].
  assert (Hall : forall x, is_slot (allocator s) p x -> x ∈ fls p).
  { intros x Hx. destruct (decide (x ∈ fls p)) as [| Hf]; [done|]. exfalso. assert (Hx0 : x ∈ (∅ : gset Z)) by (apply HA; by exists p). set_solver. }
  pose proof (submseteq_length _ _ (NoDup_submseteq _ _ (nodup_slots _ p G) ltac:(intros x Hx; by apply Hall, elem_slots))) as Hle.
  pose proof (length_slots _ p G). unfold in_use in Hb. lia.
Qed.

(** An object in use may be overwritten. *)
Lemma object_write_ok (s : omm_t P) A L fls x v : omm_state s A L fls -> x ∈ A ->
  omm_state (Omm (allocator s) (headers s) (set_link (objects s) x v) (pages s)) A L fls.
Proof.
  intros [[G HL HP HB] Hcl Hbusy HA] Hx. split; [| done | done | done]. split; cbn [allocator headers objects pages]; [done | done | | done].
  intros p Hp. apply (page_ok_ext _ (headers s) _ (objects s)); [done | | by apply HP]. intros y Hy. unfold set_link.
  rewrite (proj2 (Z.eqb_neq y x)); [done|]. intros ->. apply HA in Hx as (q & Hq & Hxq & Hxf).
  assert (p = q) as ->; [| done]. apply (slot_same_page (allocator s) _ _ x); [done | apply (HP p Hp) | apply (HP q Hq) | by apply (HP p Hp) | done].
Qed.
End results.

(** ** The properties *)

(** C6: while an object is free or a page is to be had, [omm_alloc] returns an
    aligned object that is not in use, overlaps no object in use and no page
    header, and the state stays consistent with one more object in use. *)
Theorem omm_alloc_correct `{PageAllocatorLaws P} (s : omm_t P) (A : gset Z) (L : page_lists) :
  omm_holds s A L -> can_alloc s ->
  exists s' x L', omm_alloc s = Some (s', x) /\ (x ∉ A) /\ omm_holds s' ({[x]} ∪ A) L' /\ x mod alignment (allocator s) = 0 /\
    (forall y, y ∈ A -> x + object_size (allocator s) <= y \/ y + object_size (allocator s) <= x) /\
    (forall p, listed L' p -> x + object_size (allocator s) <= p \/ p + sizeof_page_header <= x).
Proof.
  intros [fls Hs] Hc. destruct (omm_alloc_ok s A L fls Hs Hc) as (s' & x & L' & fls' & E & Hx & Hs' & (S1 & S2 & _)).
  destruct (objects_separate s' _ L' fls' x Hs' ltac:(set_solver)) as (H1 & H2 & H3). rewrite S1, S2 in *.
  exists s', x, L'. split_and!; [done | done | by exists fls' | done | | done]. intros y Hy. apply H2; [set_solver | by intros ->].
Qed.

(** An allocator of 24-byte objects over sixteen pages of memory. *)
Definition demo_allocator : omm_allocator_t := default (Allocator 0 0 0 0 0 0 0 0 0) (_init_allocator 24 8 1).
Definition demo_omm : omm_t client := Omm demo_allocator ∅ (fun _ => 0) (mk_client demo_pmm 0).

Lemma demo_omm_ok : omm_holds demo_omm ∅ (fun _ => []) /\ can_alloc demo_omm.
Proof.
  destruct (omm_init_ok 24 3 0) as (a & E & G & _ & _ & E1 & E2 & E3); [lia | lia | lia | vm_compute; discriminate |].
  split; [| right; right; exists 0%nat; vm_compute; reflexivity].
  assert (demo_allocator = a) as Ea by (unfold demo_allocator; change 8 with (2 ^ 3); change 1 with (2 ^ 0); by rewrite E).
  unfold demo_omm. rewrite Ea. apply omm_empty; [done | done | done | done |].
  destruct demo_pmm_ok as (L & Hs & _). split; [| done]. exists 2%nat, L. split_and!; [done | vm_compute; discriminate | by intros ? ? ?%not_elem_of_nil].
Qed.

Lemma omm_alloc_correct_witness : exists s' x L', omm_alloc demo_omm = Some (s', x) /\ (x ∉ (∅ : gset Z)) /\ omm_holds s' ({[x]} ∪ ∅) L' /\
  x mod alignment (allocator demo_omm) = 0 /\
  (forall y, y ∈ (∅ : gset Z) -> x + object_size (allocator demo_omm) <= y \/ y + object_size (allocator demo_omm) <= x) /\
  (forall p, listed L' p -> x + object_size (allocator demo_omm) <= p \/ p + sizeof_page_header <= x).
Proof. apply (omm_alloc_correct demo_omm ∅ (fun _ => [])); apply demo_omm_ok. Defined.

(** C7: an object in use can be given back, whatever was stored in it; the
    state stays consistent with the other objects in use, and when it was the
    last one every page is back at the page allocator. *)
Theorem omm_dealloc_correct `{PageAllocatorLaws P} (s : omm_t P) (A : gset Z) (L : page_lists) (x v : Z) :
  omm_holds s A L -> x ∈ A ->
  exists s' L', omm_dealloc (Omm (allocator s) (headers s) (set_link (objects s) x v) (pages s)) x = Some s' /\
    omm_holds s' (A ∖ {[x]}) L' /\ (A = {[x]} -> held (pages s') []).
Proof.
  intros [fls Hs] Hx. destruct (omm_dealloc_ok _ A L fls x (object_write_ok s A L fls x v Hs Hx) Hx) as (s' & L' & fls' & E & Hs' & _).
  exists s', L'. split_and!; [done | by exists fls' |]. intros ->. apply (no_objects_no_pages s' L' fls').
  by replace ({[x]} ∖ {[x]} : gset Z) with (∅ : gset Z) in Hs' by set_solver.
Qed.

Lemma omm_dealloc_correct_witness : exists s x s' L', omm_alloc demo_omm = Some (s, x) /\
  omm_dealloc (Omm (allocator s) (headers s) (set_link (objects s) x 7) (pages s)) x = Some s' /\
  omm_holds s' (({[x]} ∪ ∅) ∖ {[x]}) L' /\ (({[x]} ∪ ∅ : gset Z) = {[x]} -> held (pages s') []).
Proof.
  destruct demo_omm_ok as [[fls Hs] Hc]. destruct (omm_alloc_ok _ _ _ _ Hs Hc) as (s & x & L & fls' & E & _ & Hs' & _).
  assert (Hin : x ∈ ({[x]} ∪ ∅ : gset Z)) by (clear; set_solver).
  destruct (omm_dealloc_correct s ({[x]} ∪ ∅) L x 7 (ex_intro _ fls' Hs') Hin) as (s' & L' & H1 & H2 & H3).
  exists s, x, s', L'. exact (conj E (conj H1 (conj H2 H3))).
Defined.

(** An allocator whose pages hold a single object hands out one object; the
    next request finds the full page in the list of free pages and follows its
    empty list of objects. *)
Definition single_omm : omm_t client := Omm (default demo_allocator (_init_allocator 3000 8 1)) ∅ (fun _ => 0) (mk_client demo_pmm 0).

Lemma single_object_pages_fault : match omm_alloc single_omm with
  | Some (s, _) => has_block (c_pmm (pages s)) 0 0 = true /\ match omm_alloc s with None => true | Some _ => false end = true
  | None => False
  end.
Proof. vm_compute. split; reflexivity. Qed.
