(* ===== verification/Vmm.v ===== *)
(** * Page tables ([src/src/kernel/memory/vmm.c], [include/kernel/memory/vmm.h]).

    Four levels of tables of 512 entries.  A page map is the physical address of
    its top-level table; the tables are read and written through the mapping of
    physical memory at [VMM_HIGHER_HALF_ADDRESS_OFFSET].  [words] is that memory,
    in words of eight bytes; a pointer to an entry is either the field [toplevel]
    of the page map or an address in it.  Tables come from a page allocator, which
    hands out zeroed pages.  Bits 52 to 62 of the entry of a table count the
    entries in use in that table.  [None] is a panic. *)
From stdpp Require Import base tactics list numbers option.
From Stdlib Require Import ZArith Lia.
From S2P Require Import Prelude PmmView Pages.
#[local] Open Scope Z_scope.

Definition VMM_PAGE_FLAG_PRESENT : Z := 0x01.
Definition VMM_PAGE_FLAG_READWRITE : Z := 0x02.
Definition VMM_PAGE_FLAG_USER : Z := 0x04.
Definition VMM_PAGE_FLAG_LARGE : Z := 0x80.
Definition VMM_PAGE_FLAG_EXTRA_LARGE : Z := 0x0004000000000000.
Definition VMM_PAGE_FLAG_NOEXECUTE : Z := 0x8000000000000000.
Definition VMM_PAGE_COUNT_MASK : Z := 0x7ff0000000000000.
Definition VMM_PAGE_COUNT_SHIFT : Z := 52.
Definition VMM_PAGE_ADDRESS_MASK : Z := 0x0000fffffffff000.
Definition VMM_HIGHER_HALF_ADDRESS_OFFSET : Z := 0xffff800000000000.

Definition PAGE_SIZE_SHIFT : Z := 12.
Definition LARGE_PAGE_SIZE_SHIFT : Z := 21.
Definition EXTRA_LARGE_PAGE_SIZE_SHIFT : Z := 30.
Definition PAGE_SIZE : Z := 4096.
Definition LARGE_PAGE_SIZE : Z := 0x200000.
Definition EXTRA_LARGE_PAGE_SIZE : Z := 0x40000000.

(** [base&(-PAGE_SIZE)] *)
Definition pmm_align_down_address (base : Z) : Z := Z.land base (u64 (- PAGE_SIZE)).
Definition pmm_align_down_address_large (base : Z) : Z := Z.land base (u64 (- LARGE_PAGE_SIZE)).
Definition pmm_align_down_address_extra_large (base : Z) : Z := Z.land base (u64 (- EXTRA_LARGE_PAGE_SIZE)).
Definition pmm_align_up_address (base : Z) : Z := Z.land (u64 (base + PAGE_SIZE - 1)) (u64 (- PAGE_SIZE)).

(** A [u64*] to an entry. *)
Inductive entry_ptr := Toplevel | Entry (address : Z).

(** [vmm_pagemap_t] with the memory of the tables and the page allocator. *)
Record vmm_t (P : Type) := Vmm { toplevel : Z; words : Z -> Z; frames : P }.
Arguments Vmm {P} _ _ _.
Arguments toplevel {P} _.
Arguments words {P} _ _.
Arguments frames {P} _.

Section operations.
Context {P : Type} `{PageAllocator P}.
Implicit Types (s : vmm_t P) (table : entry_ptr).

(** [*table] and [*table=x] *)
Definition get s table : Z := match table with Toplevel => toplevel s | Entry a => words s a end.
Definition set s table (x : Z) : vmm_t P :=
  match table with
  | Toplevel => Vmm x (words s) (frames s)
  | Entry a => Vmm (toplevel s) (fun b => if b =? a then x else words s b) (frames s)
  end.

(** [pmm_alloc(1,_vmm_pmm_counter,0)]: the page is zero. *)
Definition alloc_table s : option (vmm_t P * Z) :=
  '(p, out) ← page_alloc (frames s) 1;
  let base := u64 (out + VMM_HIGHER_HALF_ADDRESS_OFFSET) in
  Some (Vmm (toplevel s) (fun b => if (base <=? b) && (b <? base + PAGE_SIZE) then 0 else words s b) p, out).

(** [pmm_dealloc(address,1,_vmm_pmm_counter)] *)
Definition dealloc_table s (address : Z) : option (vmm_t P) :=
  p ← page_dealloc (frames s) address 1;
  Some (Vmm (toplevel s) (words s) p).

Definition _get_table s table : Z := u64 (Z.land (get s table) VMM_PAGE_ADDRESS_MASK + VMM_HIGHER_HALF_ADDRESS_OFFSET).

(** [_get_table(table)->entries+index] *)
Definition entry_of s table (index : Z) : entry_ptr := Entry (_get_table s table + 8 * index).

Definition _decrease_length s table : option (vmm_t P * bool) :=
  if negb (z2b (Z.land (get s table) VMM_PAGE_FLAG_PRESENT)) then Some (s, false)
  else
    let s := set s table (u64 (get s table - Z.shiftl 1 VMM_PAGE_COUNT_SHIFT)) in
    if z2b (Z.land (get s table) VMM_PAGE_COUNT_MASK) then Some (s, false)
    else
      s ← dealloc_table s (Z.land (get s table) VMM_PAGE_ADDRESS_MASK);
      Some (set s table 0, true).

Definition _increase_length s table : vmm_t P :=
  if z2b (Z.land (get s table) VMM_PAGE_FLAG_PRESENT) then set s table (u64 (get s table + Z.shiftl 1 VMM_PAGE_COUNT_SHIFT)) else s.

Definition _increase_length_if_entry_empty s table (entry : Z) : vmm_t P :=
  if negb (z2b (get s (entry_of s table entry))) then _increase_length s table else s.

(** The tables below the first [limit] entries, then the table itself. *)
Fixpoint _delete_pagemap_recursive (level : nat) s table (limit : nat) : option (vmm_t P) :=
  let entry := get s table in
  if negb (z2b (Z.land entry VMM_PAGE_FLAG_PRESENT)) || z2b (Z.land entry VMM_PAGE_FLAG_LARGE) then Some s
  else
    s ← (match level with
         | S (S _ as level) =>
           foldl (fun acc i => s ← acc; _delete_pagemap_recursive level s (entry_of s table i) 512) (Some s) (seqZ 0 (Z.of_nat limit))
         | _ => Some s
         end);
    dealloc_table s (Z.land entry VMM_PAGE_ADDRESS_MASK).

(** [None] inside is the null pointer. *)
Definition _get_child_table s table (index : Z) (allocate_if_not_present : bool) : option (vmm_t P * option entry_ptr) :=
  let entry := entry_of s table index in
  if z2b (get s entry) then Some (s, Some entry)
  else if negb allocate_if_not_present then Some (s, None)
  else
    let s := _increase_length s table in
    '(s, out) ← alloc_table s;
    Some (set s entry (Z.lor (Z.lor (Z.lor out VMM_PAGE_FLAG_USER) VMM_PAGE_FLAG_READWRITE) VMM_PAGE_FLAG_PRESENT), Some entry).

(** [_get_child_table(table,index,0)], which changes nothing. *)
Definition find_child_table s table (index : Z) : option entry_ptr :=
  let entry := entry_of s table index in if z2b (get s entry) then Some entry else None.

(** The index at [level] 4 ([i]) to 1 ([l]). *)
Definition index (level virtual_address : Z) : Z := Z.land (Z.shiftr virtual_address (12 + 9 * (level - 1))) 0x1ff.

Definition _lookup_virtual_address s (virtual_address : Z) : option entry_ptr :=
  let i := index 4 virtual_address in let j := index 3 virtual_address in let k := index 2 virtual_address in let l := index 1 virtual_address in
  pml3 ← find_child_table s Toplevel i;
  if z2b (Z.land (get s (entry_of s pml3 j)) VMM_PAGE_FLAG_LARGE) then Some (entry_of s pml3 j)
  else
    pml2 ← find_child_table s pml3 j;
    if z2b (Z.land (get s (entry_of s pml2 k)) VMM_PAGE_FLAG_LARGE) then Some (entry_of s pml2 k)
    else
      pml1 ← find_child_table s pml2 k;
      Some (entry_of s pml1 l).

(** [if (_decrease_length(a)) ...] *)
Definition decrease_then s table (next : vmm_t P -> option (vmm_t P)) : option (vmm_t P) :=
  '(s, freed) ← _decrease_length s table;
  if freed : bool then next s else Some s.

Definition _unmap_page s (virtual_address : Z) : option (vmm_t P * Z) :=
  let i := index 4 virtual_address in let j := index 3 virtual_address in let k := index 2 virtual_address in let l := index 1 virtual_address in
  match find_child_table s Toplevel i with
  | None => Some (s, 0)
  | Some pml3 =>
    let entry := get s (entry_of s pml3 j) in
    if z2b (Z.land entry VMM_PAGE_FLAG_LARGE) then
      if z2b (Z.land virtual_address (EXTRA_LARGE_PAGE_SIZE - 1)) then Some (s, 0)
      else
        let s := set s (entry_of s pml3 j) 0 in
        s ← decrease_then s pml3 Some;
        Some (s, entry)
    else
      match find_child_table s pml3 j with
      | None => Some (s, 0)
      | Some pml2 =>
        let entry := get s (entry_of s pml2 k) in
        if z2b (Z.land entry VMM_PAGE_FLAG_LARGE) then
          if z2b (Z.land virtual_address (LARGE_PAGE_SIZE - 1)) then Some (s, 0)
          else
            let s := set s (entry_of s pml2 k) 0 in
            s ← decrease_then s pml2 (fun s => decrease_then s pml3 Some);
            Some (s, entry)
        else
          match find_child_table s pml2 k with
          | None => Some (s, 0)
          | Some pml1 =>
            let entry := get s (entry_of s pml1 l) in
            if negb (z2b entry) then Some (s, 0)
            else
              let s := set s (entry_of s pml1 l) 0 in
              s ← decrease_then s pml1 (fun s => decrease_then s pml2 (fun s => decrease_then s pml3 Some));
              Some (s, entry)
          end
      end
  end.

Definition vmm_pagemap_deinit s : option (vmm_t P) := _delete_pagemap_recursive 4 s Toplevel 256.

(** The word of a mapping. *)
Definition leaf_entry (physical_address flags : Z) : Z :=
  Z.lor (Z.land physical_address VMM_PAGE_ADDRESS_MASK) (Z.land flags (lnot_w 64 VMM_PAGE_FLAG_EXTRA_LARGE)).

(** Fill an entry of a table that exists; a mapping that is present is a panic. *)
Definition map_entry s table (index entry : Z) : option (vmm_t P) :=
  if z2b (Z.land (get s (entry_of s table index)) VMM_PAGE_FLAG_PRESENT) then None
  else
    let s := _increase_length_if_entry_empty s table index in
    Some (set s (entry_of s table index) entry).

Definition vmm_map_page s (physical_address virtual_address flags : Z) : option (vmm_t P) :=
  let i := index 4 virtual_address in let j := index 3 virtual_address in let k := index 2 virtual_address in let l := index 1 virtual_address in
  '(s, pml3) ← _get_child_table s Toplevel i true;
  pml3 ← pml3;
  if z2b (Z.land flags VMM_PAGE_FLAG_EXTRA_LARGE) then
    if negb (pmm_align_down_address_extra_large physical_address =? physical_address) || negb (pmm_align_down_address_extra_large virtual_address =? virtual_address)
    then None
    else map_entry s pml3 j (Z.lor (leaf_entry physical_address flags) VMM_PAGE_FLAG_LARGE)
  else
    '(s, pml2) ← _get_child_table s pml3 j true;
    pml2 ← pml2;
    if z2b (Z.land flags VMM_PAGE_FLAG_LARGE) then
      if negb (pmm_align_down_address_large physical_address =? physical_address) || negb (pmm_align_down_address_large virtual_address =? virtual_address)
      then None
      else map_entry s pml2 k (Z.lor (leaf_entry physical_address flags) VMM_PAGE_FLAG_LARGE)
    else
      if negb (pmm_align_down_address physical_address =? physical_address) || negb (pmm_align_down_address virtual_address =? virtual_address)
      then None
      else
        '(s, pml1) ← _get_child_table s pml2 k true;
        pml1 ← pml1;
        map_entry s pml1 l (leaf_entry physical_address flags).

Definition map_stride_shift (flags : Z) : Z :=
  if z2b (Z.land flags VMM_PAGE_FLAG_EXTRA_LARGE) then EXTRA_LARGE_PAGE_SIZE_SHIFT
  else if z2b (Z.land flags VMM_PAGE_FLAG_LARGE) then LARGE_PAGE_SIZE_SHIFT else PAGE_SIZE_SHIFT.

(** [while (index<count)], [n] rounds. *)
Fixpoint map_pages_loop (n : nat) s (physical_address virtual_address flags stride_shift index : Z) : option (vmm_t P) :=
  match n with
  | O => Some s
  | S n =>
    s ← vmm_map_page s (u64 (physical_address + u64 (Z.shiftl index stride_shift))) (u64 (virtual_address + u64 (Z.shiftl index stride_shift))) flags;
    map_pages_loop n s physical_address virtual_address flags stride_shift (u64 (index + 1))
  end.

Definition vmm_map_pages s (physical_address virtual_address flags count : Z) : option (vmm_t P) :=
  if count =? 0 then Some s
  else
    let stride_shift := map_stride_shift flags in
    let count := Z.shiftr count (stride_shift - PAGE_SIZE_SHIFT) in
    map_pages_loop (Z.to_nat count) s physical_address virtual_address flags stride_shift 0.

Definition vmm_unmap_page s (virtual_address : Z) : option (vmm_t P * Z) :=
  if z2b (Z.land virtual_address (PAGE_SIZE - 1)) then Some (s, 0) else _unmap_page s virtual_address.

Definition vmm_virtual_to_physical s (virtual_address : Z) : Z :=
  let i := index 4 virtual_address in let j := index 3 virtual_address in let k := index 2 virtual_address in let l := index 1 virtual_address in
  match find_child_table s Toplevel i with
  | None => 0
  | Some pml3 =>
    let entry := get s (entry_of s pml3 j) in
    if z2b (Z.land entry VMM_PAGE_FLAG_LARGE) then
      if z2b entry then Z.lor (Z.land entry VMM_PAGE_ADDRESS_MASK) (Z.land virtual_address (EXTRA_LARGE_PAGE_SIZE - 1)) else 0
    else
      match find_child_table s pml3 j with
      | None => 0
      | Some pml2 =>
        let entry := get s (entry_of s pml2 k) in
        if z2b (Z.land entry VMM_PAGE_FLAG_LARGE) then
          if z2b entry then Z.lor (Z.land entry VMM_PAGE_ADDRESS_MASK) (Z.land virtual_address (LARGE_PAGE_SIZE - 1)) else 0
        else
          match find_child_table s pml2 k with
          | None => 0
          | Some pml1 =>
            let entry := get s (entry_of s pml1 l) in
            if z2b entry then Z.lor (Z.land entry VMM_PAGE_ADDRESS_MASK) (Z.land virtual_address (PAGE_SIZE - 1)) else 0
          end
      end
  end.

(** The pages from the highest one down; the map is that of the kernel. *)
Fixpoint identity_map_loop (n : nat) s (address_aligned size : Z) : option (vmm_t P) :=
  if size =? 0 then Some s
  else
    match n with
    | O => None
    | S n =>
      let size := u64 (size - PAGE_SIZE) in
      let virtual_address := u64 (address_aligned + size + VMM_HIGHER_HALF_ADDRESS_OFFSET) in
      s ← (if z2b (vmm_virtual_to_physical s virtual_address) then Some s
           else vmm_map_page s (u64 (address_aligned + size)) virtual_address (Z.lor VMM_PAGE_FLAG_READWRITE VMM_PAGE_FLAG_PRESENT));
      identity_map_loop n s address_aligned size
    end.

Definition vmm_identity_map s (physical_address size : Z) : option (vmm_t P * Z) :=
  let out := u64 (physical_address + VMM_HIGHER_HALF_ADDRESS_OFFSET) in
  if size =? 0 then Some (s, out)
  else
    let size := pmm_align_up_address (u64 (size + physical_address - pmm_align_down_address physical_address)) in
    s ← identity_map_loop (Z.to_nat (size / PAGE_SIZE)) s (pmm_align_down_address physical_address) size;
    Some (s, out).

(** The invalidation of the processor's cache of translations is left out. *)
Fixpoint vmm_adjust_flags (count : nat) s (virtual_address set_flags clear_flags : Z) : vmm_t P :=
  match count with
  | O => s
  | S count =>
    let s := match _lookup_virtual_address s virtual_address with
             | Some entry => set s entry (Z.lor (Z.land (get s entry) (lnot_w 64 clear_flags)) set_flags)
             | None => s
             end in
    vmm_adjust_flags count s (u64 (virtual_address + PAGE_SIZE)) set_flags clear_flags
  end.

Definition user_accessible s (virtual_address : Z) : bool :=
  match _lookup_virtual_address s virtual_address with
  | Some entry => z2b (get s entry) && z2b (Z.land (get s entry) VMM_PAGE_FLAG_USER)
  | None => false
  end.

Fixpoint vmm_is_user_accessible (count : nat) s (virtual_address : Z) : bool :=
  match count with
  | O => true
  | S count => user_accessible s virtual_address && vmm_is_user_accessible count s (u64 (virtual_address + PAGE_SIZE))
  end.

(** A new page map: the kernel half is that of the kernel's map, whose top-level
    table is at [kernel]. *)
Definition vmm_pagemap_init s (kernel : Z) : option (vmm_t P) :=
  '(s, out) ← alloc_table s;
  let s := set s Toplevel out in
  Some (foldl (fun s i => set s (entry_of s Toplevel i) (get s (Entry (u64 (Z.land kernel VMM_PAGE_ADDRESS_MASK + VMM_HIGHER_HALF_ADDRESS_OFFSET) + 8 * i))))
    s (seqZ 256 256)).
End operations.
