(* ===== verification/VmmTree.v ===== *)
(** * Page tables as a tree
    The invariant of the tables of [Vmm.v] and the effect of its elementary steps.

    A table is named by its level [n] (4 is the top) and its number [p] among the
    tables of that level: the table [(n, p)] serves the addresses with
    [address / 2^(12 + 9 n) = p].  [F] gives the frame of each table; [M] is the
    content as a client sees it, a map from [(n, q)], the page number [q] at the
    size of level [n], to the word of the mapping. *)
From stdpp Require Import base tactics list numbers option gmap.
From Stdlib Require Import ZArith Lia.
From S2P Require Import Prelude PmmView PmmInv Pages Vmm.
#[local] Open Scope Z_scope.

Abbreviation key := (Z * Z)%type.
Abbreviation OFF := VMM_HIGHER_HALF_ADDRESS_OFFSET.

(** ** Counting *)

Fixpoint cnt (f : Z -> bool) (n : nat) : Z :=
  match n with O => 0 | S n => cnt f n + b2z (f (Z.of_nat n)) end.

Lemma cnt_ext f g n : (forall i, 0 <= i < Z.of_nat n -> f i = g i) -> cnt f n = cnt g n.
Proof. induction n as [| n IH]; intros H; cbn [cnt]; [done|]. rewrite IH, H by (intros; try apply H; lia). done. Qed.

Lemma cnt_range f n : 0 <= cnt f n <= Z.of_nat n.
Proof. induction n as [| n IH]; cbn [cnt]; [lia|]. destruct (f (Z.of_nat n)); cbn [b2z]; lia. Qed.

Lemma cnt_upd f n x v : 0 <= x < Z.of_nat n -> cnt (fun i => if i =? x then v else f i) n = cnt f n - b2z (f x) + b2z v.
Proof.
  induction n as [| n IH]; intros Hx; cbn [cnt]; [lia|]. destruct (Z.eqb_spec (Z.of_nat n) x) as [E | Hne].
  - rewrite E, (cnt_ext _ f); [lia|]. intros i Hi. destruct (Z.eqb_spec i x); [| done]. lia.
  - rewrite IH by lia. lia.
Qed.

Lemma cnt_pos f n x : 0 <= x < Z.of_nat n -> f x = true -> 0 < cnt f n.
Proof.
  induction n as [| n IH]; intros Hx Hf; cbn [cnt]; [lia|]. pose proof (cnt_range f n).
  destruct (Z.eq_dec (Z.of_nat n) x) as [-> | Hne]; [rewrite Hf; cbn [b2z]; lia|]. specialize (IH ltac:(lia) Hf). destruct (f (Z.of_nat n)); cbn [b2z]; lia.
Qed.

Lemma cnt_some f n : 0 < cnt f n -> exists x, 0 <= x < Z.of_nat n /\ f x = true.
Proof.
  induction n as [| n IH]; cbn [cnt]; intros H; [lia|]. destruct (f (Z.of_nat n)) eqn:E; [exists (Z.of_nat n); split; [lia | done]|]. cbn [b2z] in H.
  destruct IH as (x & Hx & Hf); [lia|]. exists x. split; [lia | done].
Qed.

(** ** Words *)

Lemma land_field e w s : 0 <= w -> 0 <= s -> Z.land e (Z.shiftl (Z.ones w) s) = (e / 2 ^ s) mod 2 ^ w * 2 ^ s.
Proof.
  intros Hw Hs. rewrite <- Z.land_ones, <- Z.shiftr_div_pow2, <- Z.shiftl_mul_pow2 by done. apply Z.bits_inj'. intros i Hi.
  rewrite Z.land_spec. destruct (Z.ltb_spec i s).
  - rewrite !Z.shiftl_spec_low by lia. by rewrite andb_false_r.
  - rewrite !Z.shiftl_spec, Z.land_spec, Z.shiftr_spec by lia. by replace (i - s + s) with i by lia.
Qed.

Lemma bit_test e i : 0 <= i -> z2b (Z.land e (2 ^ i)) = Z.testbit e i.
Proof. intros Hi. rewrite land_pow2 by done. destruct (Z.testbit e i); [| done]. unfold z2b. destruct (Z.eqb_spec (2 ^ i) 0); [lia | done]. Qed.

(** A page frame that can hold a table. *)
Definition frame_ok (b : Z) : Prop := 0 < b /\ b mod 4096 = 0 /\ b + 4096 <= 2 ^ 47.

(** An entry that points to the table [b], with [c] entries in use.  The flags may
    have been changed by the processor. *)
Definition table_entry (e b c : Z) : Prop :=
  exists f, e = b + f + c * 2 ^ 52 /\ 0 <= f < 4096 /\ Z.testbit f 0 = true /\ Z.testbit f 7 = false /\ 0 <= c < 2 ^ 11.

Lemma frame_eq b : frame_ok b -> b = 4096 * (b / 4096).
Proof. intros (_ & H & _). pose proof (Z.div_mod b 4096). lia. Qed.

Section entries.
Context (e b c : Z) (Hb : frame_ok b) (He : table_entry e b c).

Lemma entry_low i : 0 <= i < 12 -> exists f, 0 <= f < 4096 /\ e mod 4096 = f /\ Z.testbit e i = Z.testbit f i /\ Z.testbit f 0 = true /\ Z.testbit f 7 = false.
Proof using Hb He.
  intros Hi. destruct He as (f & -> & Hf & H0 & H7 & Hc). pose proof (frame_eq b Hb). exists f.
  assert (E : (b + f + c * 2 ^ 52) mod 4096 = f).
  { replace (b + f + c * 2 ^ 52) with (f + (b / 4096 + c * 2 ^ 40) * 4096) by lia. rewrite Z.mod_add by lia. apply Z.mod_small. lia. }
  split_and!; [lia | lia | done | | done | done]. rewrite <- E at 2. change 4096 with (2 ^ 12). by rewrite Z.mod_pow2_bits_low by lia.
Qed.

Lemma entry_present : z2b (Z.land e VMM_PAGE_FLAG_PRESENT) = true.
Proof using Hb He. change VMM_PAGE_FLAG_PRESENT with (2 ^ 0). rewrite bit_test by lia. by destruct (entry_low 0 ltac:(lia)) as (f & _ & _ & -> & ? & _). Qed.

Lemma entry_not_large : z2b (Z.land e VMM_PAGE_FLAG_LARGE) = false.
Proof using Hb He. change VMM_PAGE_FLAG_LARGE with (2 ^ 7). rewrite bit_test by lia. by destruct (entry_low 7 ltac:(lia)) as (f & _ & _ & -> & _ & ?). Qed.

Lemma entry_frame : Z.land e VMM_PAGE_ADDRESS_MASK = b.
Proof using Hb He.
  change VMM_PAGE_ADDRESS_MASK with (Z.shiftl (Z.ones 36) 12). rewrite land_field by lia. destruct He as (f & -> & Hf & _ & _ & Hc). pose proof (frame_eq b Hb). destruct Hb as (? & _ & ?).
  change (2 ^ 12) with 4096. replace (b + f + c * 2 ^ 52) with (f + (b / 4096 + c * 2 ^ 4 * 2 ^ 36) * 4096) by lia. rewrite Z.div_add, (Z.div_small f), Z.add_0_l, Z.mod_add by lia.
  rewrite Z.mod_small by lia. lia.
Qed.

Lemma entry_count : Z.land e VMM_PAGE_COUNT_MASK = c * 2 ^ 52.
Proof using Hb He.
  change VMM_PAGE_COUNT_MASK with (Z.shiftl (Z.ones 11) 52). rewrite land_field by lia. destruct He as (f & -> & Hf & _ & _ & Hc). destruct Hb as (? & _ & ?).
  rewrite Z.div_add, Z.div_small, Z.add_0_l, Z.mod_small by lia. done.
Qed.

Lemma entry_nonzero : e <> 0.
Proof using Hb He. pose proof entry_present as Hp. intros E. rewrite E in Hp. done. Qed.

Lemma entry_shift d : 0 <= c + d < 2 ^ 11 -> table_entry (u64 (e + d * 2 ^ 52)) b (c + d).
Proof using Hb He.
  destruct He as (f & -> & Hf & H0 & H7 & Hc). intros Hd. destruct Hb as (? & _ & ?). exists f. rewrite u64_id by lia. split_and!; try done; lia.
Qed.
End entries.

Lemma entry_unique e b c b' c' : frame_ok b -> frame_ok b' -> table_entry e b c -> table_entry e b' c' -> b = b' /\ c = c'.
Proof.
  intros Hb Hb' H1 H2. pose proof (entry_frame _ _ _ Hb H1). pose proof (entry_frame _ _ _ Hb' H2). pose proof (entry_count _ _ _ Hb H1). pose proof (entry_count _ _ _ Hb' H2). lia.
Qed.

(** The word that [_get_child_table] stores for a new table. *)
Lemma new_entry b : frame_ok b -> table_entry (Z.lor (Z.lor (Z.lor b VMM_PAGE_FLAG_USER) VMM_PAGE_FLAG_READWRITE) VMM_PAGE_FLAG_PRESENT) b 0.
Proof.
  intros Hb. exists 7. pose proof (frame_eq b Hb) as E. split_and!; try done. rewrite <- !Z.lor_assoc. change (Z.lor VMM_PAGE_FLAG_USER (Z.lor VMM_PAGE_FLAG_READWRITE VMM_PAGE_FLAG_PRESENT)) with 7.
  rewrite E, Z.mul_comm. change 4096 with (2 ^ 12). rewrite <- Z.shiftl_mul_pow2 by lia. rewrite lor_shiftl_add by lia.
  rewrite Z.shiftl_mul_pow2 by lia. lia.
Qed.

(** ** Slots *)

Definition slot (b x : Z) : Z := b + OFF + 8 * x.

Lemma table_slot_inj b x b' x' : frame_ok b -> frame_ok b' -> 0 <= x < 512 -> 0 <= x' < 512 -> slot b x = slot b' x' -> b = b' /\ x = x'.
Proof. intros H1 H2 Hx Hx' E. pose proof (frame_eq _ H1). pose proof (frame_eq _ H2). unfold slot in E. lia. Qed.

Definition upd (w : Z -> Z) (a v : Z) : Z -> Z := fun b => if b =? a then v else w b.

Lemma upd_same w a v : upd w a v a = v.
Proof. unfold upd. by rewrite Z.eqb_refl. Qed.

Lemma upd_slot w b x v b' x' : frame_ok b -> frame_ok b' -> 0 <= x < 512 -> 0 <= x' < 512 ->
  upd w (slot b x) v (slot b' x') = if decide (b' = b /\ x' = x) then v else w (slot b' x').
Proof.
  intros H1 H2 Hx Hx'. unfold upd. destruct (Z.eqb_spec (slot b' x') (slot b x)) as [E | Hne].
  - apply table_slot_inj in E; [| done..]. by rewrite decide_True.
  - rewrite decide_False; [done|]. intros [-> ->]. done.
Qed.

(** The entries in use of a table. *)
Definition nz (w : Z -> Z) (b : Z) : Z := cnt (fun x => z2b (w (slot b x))) 512.

Lemma nz_range w b : 0 <= nz w b <= 512.
Proof. pose proof (cnt_range (fun x => z2b (w (slot b x))) 512). unfold nz. lia. Qed.

Lemma nz_pos w b x : 0 <= x < 512 -> w (slot b x) <> 0 -> 0 < nz w b.
Proof. intros Hx Hw. apply (cnt_pos _ _ x); [lia|]. unfold z2b. by destruct (Z.eqb_spec (w (slot b x)) 0). Qed.

Lemma nz_some w b : 0 < nz w b -> exists x, 0 <= x < 512 /\ w (slot b x) <> 0.
Proof. unfold nz. intros H. destruct (cnt_some (fun x => z2b (w (slot b x))) 512 H) as (x & Hx & Hf). exists x. split; [lia|]. cbv beta in Hf. clear H. intros E. rewrite E in Hf. discriminate. Qed.

Lemma nz_ext w w' b : (forall x, 0 <= x < 512 -> w (slot b x) = w' (slot b x)) -> nz w b = nz w' b.
Proof. intros H. apply cnt_ext. intros i Hi. f_equal. apply H. lia. Qed.

Lemma nz_upd w b x v b' : frame_ok b -> frame_ok b' -> 0 <= x < 512 ->
  nz (upd w (slot b x) v) b' = if decide (b' = b) then nz w b - b2z (z2b (w (slot b x))) + b2z (z2b v) else nz w b'.
Proof.
  intros H1 H2 Hx. destruct (decide (b' = b)) as [-> | Hne].
  - pose proof (cnt_upd (fun y => z2b (w (slot b y))) 512 x (z2b v) ltac:(lia)) as E. cbv beta in E. unfold nz. rewrite <- E.
    apply cnt_ext. intros i Hi. rewrite upd_slot by (done || lia).
    destruct (Z.eqb_spec i x) as [-> | Hn]; [by rewrite decide_True | by rewrite decide_False by tauto].
  - apply nz_ext. intros y Hy. rewrite upd_slot by done. by rewrite decide_False by tauto.
Qed.

#[global] Opaque nz table_entry slot.

(** ** The invariant *)

Section tree.
(** The indices [lo <= x < hi] of the top-level table belong to the page map; the
    other entries are those of [W]. *)
Context (lo hi : Z) (W : Z -> Z).

Definition owned (n x : Z) : Prop := n = 4 -> lo <= x < hi.

(** The mapping at page [q] of the size of level [n]. *)
Definition leaf (w : Z -> Z) (F : gmap key Z) (n q : Z) : option Z :=
  if (1 <=? n) && (n <=? 3) then
    b ← F !! (n, q / 512);
    let e := w (slot b (q mod 512)) in
    if z2b e && ((n =? 1) || z2b (Z.land e VMM_PAGE_FLAG_LARGE)) then Some e else None
  else None.

(** Every entry of a table is empty, a mapping, or points to a table of the next
    level; the count of each table but [k] is right and not zero, that of [k] is
    [d] too large. *)
Record tree (w : Z -> Z) (top : Z) (F : gmap key Z) (k : key) (d : Z) (M : gmap key Z) : Prop := {
  t_top : F !! (4, 0) = Some top;
  t_level n p b : F !! (n, p) = Some b -> 1 <= n <= 4 /\ (n = 4 -> p = 0);
  t_frame n p b : F !! (n, p) = Some b -> frame_ok b;
  t_inj k1 k2 b : F !! k1 = Some b -> F !! k2 = Some b -> k1 = k2;
  t_parent n p b : F !! (n, p) = Some b -> n < 4 ->
    exists b', F !! (n + 1, p / 512) = Some b' /\ owned (n + 1) (p mod 512) /\
      table_entry (w (slot b' (p mod 512))) b (nz w b + (if decide ((n, p) = k) then d else 0));
  t_child n p b x : F !! (n, p) = Some b -> 1 < n -> 0 <= x < 512 -> owned n x -> w (slot b x) <> 0 ->
    (n < 4 /\ z2b (Z.land (w (slot b x)) VMM_PAGE_FLAG_LARGE) = true) \/ is_Some (F !! (n - 1, 512 * p + x));
  t_full n p b : F !! (n, p) = Some b -> n < 4 -> (n, p) <> k -> 0 < nz w b;
  t_shows n q : M !! (n, q) = leaf w F n q;
  t_others x : 0 <= x < 512 -> ~ (lo <= x < hi) -> w (slot top x) = W (slot top x)
}.

Lemma div_512 p x : 0 <= x < 512 -> (512 * p + x) / 512 = p.
Proof. intros Hx. replace (512 * p + x) with (x + p * 512) by lia. rewrite Z.div_add, Z.div_small by lia. lia. Qed.

Lemma mod_512 p x : 0 <= x < 512 -> (512 * p + x) mod 512 = x.
Proof. intros Hx. replace (512 * p + x) with (x + p * 512) by lia. rewrite Z.mod_add, Z.mod_small by lia. lia. Qed.

Lemma split_512 q : q = 512 * (q / 512) + q mod 512.
Proof. pose proof (Z.div_mod q 512). lia. Qed.

Lemma mod_512_range q : 0 <= q mod 512 < 512.
Proof. apply Z.mod_pos_bound. lia. Qed.

#[local] Hint Resolve mod_512_range : core.

Lemma nz_same w b x v b' : frame_ok b -> frame_ok b' -> 0 <= x < 512 -> z2b (w (slot b x)) = z2b v -> nz (upd w (slot b x) v) b' = nz w b'.
Proof. intros H1 H2 Hx E. rewrite nz_upd by done. destruct (decide (b' = b)) as [-> |]; [rewrite E; lia | done]. Qed.

Lemma z2b_nonzero x : x <> 0 -> z2b x = true.
Proof. unfold z2b. by destruct (Z.eqb_spec x 0). Qed.

Lemma z2b_true x : z2b x = true -> x <> 0.
Proof. intros E ->. done. Qed.

Lemma z2b_false x : z2b x = false -> x = 0.
Proof. unfold z2b. by destruct (Z.eqb_spec x 0). Qed.

(** Nothing depends on [d] at the top. *)
Lemma tree_refocus w top F k M k' d' : tree w top F k 0 M -> (k' = (4, 0) \/ d' = 0) -> (forall b, F !! k = Some b -> fst k < 4 -> 0 < nz w b) -> tree w top F k' d' M.
Proof.
  intros [] Hk Hf. split; try done.
  - intros n p b Hb Hn. destruct (t_parent0 n p b Hb Hn) as (b' & H1 & H2 & H3). exists b'. split_and!; [done | done |].
    replace (if decide ((n, p) = k') then d' else 0) with 0; [by destruct (decide ((n, p) = k))|].
    destruct (decide ((n, p) = k')) as [Ek |]; [| done]. destruct Hk as [-> | ->]; [| done]. injection Ek. lia.
  - intros n p b Hb Hn _. destruct (decide ((n, p) = k)) as [<- | Hne]; [by apply Hf | by eapply t_full0].
Qed.

Lemma tree_focus w top F M k : tree w top F (4, 0) 0 M -> tree w top F k 0 M.
Proof. intros HT. eapply tree_refocus; [done | by right |]. cbn. lia. Qed.

Lemma tree_top_any w top F d M d' : tree w top F (4, 0) d M -> tree w top F (4, 0) d' M.
Proof.
  intros []. split; [done | done | done | done | | done | done | done | done]. intros n p b Hb Hn. destruct (t_parent0 n p b Hb Hn) as (b' & H1 & H2 & H3). exists b'. split_and!; [done | done |].
  rewrite decide_False in H3 |- * by (intros [=]; lia). done.
Qed.

(** Case analysis on a decision of the goal. *)
Ltac gdecide H := match goal with |- context [decide ?X] => destruct (decide X) as [H | H] end.

(** The count of the table in focus changes. *)
Lemma tree_count w top F n p d M b b' e d' : tree w top F (n, p) d M -> n < 4 -> F !! (n, p) = Some b -> F !! (n + 1, p / 512) = Some b' ->
  table_entry e b (nz w b + d') -> tree (upd w (slot b' (p mod 512)) e) top F (n, p) d' M.
Proof.
  intros HT Hn Hb Hb' He. destruct (t_parent _ _ _ _ _ _ HT n p b Hb Hn) as (b'' & E & Hown & Hold). simplify_eq/=. rewrite decide_True in Hold by done.
  pose proof (t_frame _ _ _ _ _ _ HT) as HF. pose proof (HF _ _ _ Hb) as Fb. pose proof (HF _ _ _ Hb') as Fb'.
  pose proof (entry_nonzero _ _ _ Fb He) as Hnz. pose proof (entry_nonzero _ _ _ Fb Hold) as Hnz0.
  assert (Hs : forall b1, frame_ok b1 -> nz (upd w (slot b' (p mod 512)) e) b1 = nz w b1) by (intros; apply nz_same; [done | done | done | by rewrite !z2b_nonzero]).
  assert (Hat : forall n1 p1 x, F !! (n1, p1) = Some b' -> x = p mod 512 -> n1 = n + 1 /\ 512 * p1 + x = p).
  { intros n1 p1 x E1 ->. pose proof (t_inj _ _ _ _ _ _ HT _ _ _ E1 Hb'). simplify_eq. split; [done|]. by rewrite <- split_512. }
  destruct HT. split; try done.
  - intros n1 p1 b1 Hb1 Hn1. destruct (t_parent0 n1 p1 b1 Hb1 Hn1) as (b2 & H1 & H2 & H3). exists b2. split_and!; [done | done |].
    rewrite (Hs b1), upd_slot by eauto. destruct (decide (b2 = b' /\ p1 mod 512 = p mod 512)) as [[-> Hx] | Hd].
    + destruct (Hat _ _ _ H1 Hx) as [E1 E2]. rewrite <- split_512 in E2. assert (n1 = n) as -> by lia. subst p1. rewrite decide_True by done. by simplify_eq.
    + destruct (decide ((n1, p1) = (n, p))) as [Hk |]; [| done]. simplify_eq. naive_solver.
  - intros n1 p1 b1 x Hb1 Hn1 Hx Hox. rewrite upd_slot by eauto. gdecide Hd; [| by apply t_child0]. intros _. destruct Hd as [-> ->].
    destruct (Hat _ _ _ Hb1 eq_refl) as [-> ->]. right. replace (n + 1 - 1) with n by lia. by exists b.
  - intros n1 p1 b1 Hb1 Hn1 Hk. rewrite Hs by eauto. by eapply t_full0.
  - intros n1 q. rewrite t_shows0. unfold leaf. destruct ((1 <=? n1) && (n1 <=? 3)) eqn:El; [| done]. destruct (F !! (n1, q / 512)) as [b1 |] eqn:Hb1; [| done]. cbn [mbind option_bind].
    rewrite upd_slot by eauto. gdecide Hd; [| done]. destruct Hd as [-> Hx]. destruct (Hat _ _ _ Hb1 eq_refl) as [-> _].
    rewrite Hx, (entry_not_large _ _ _ Fb Hold), (entry_not_large _ _ _ Fb He). destruct (t_level0 _ _ _ Hb) as [Hn1 _]. destruct (Z.eqb_spec (n + 1) 1); [lia|]. by rewrite !andb_false_r.
  - intros x Hx Hnx. rewrite upd_slot by eauto. rewrite decide_False; [by apply t_others0|]. intros [Ht ->]. subst b'. destruct (Hat _ _ _ t_top0 eq_refl) as [E4 _]. apply Hnx, Hown. lia.
Qed.

(** A mapping is written or removed. *)
Lemma tree_leaf w top F n p d M b x e : tree w top F (n, p) d M -> n < 4 -> F !! (n, p) = Some b -> 0 <= x < 512 ->
  F !! (n - 1, 512 * p + x) = None -> (e = 0 \/ n = 1 \/ z2b (Z.land e VMM_PAGE_FLAG_LARGE) = true) ->
  tree (upd w (slot b x) e) top F (n, p) (d + b2z (z2b (w (slot b x))) - b2z (z2b e))
    (if z2b e then <[(n, 512 * p + x) := e]> M else delete (n, 512 * p + x) M).
Proof.
  intros HT Hn Hb Hx Hno He. pose proof (t_frame _ _ _ _ _ _ HT) as HF. pose proof (HF _ _ _ Hb) as Fb.
  assert (Hat : forall n1 p1, F !! (n1, p1) = Some b -> n1 = n /\ p1 = p).
  { intros n1 p1 E1. pose proof (t_inj _ _ _ _ _ _ HT _ _ _ E1 Hb). by simplify_eq. }
  destruct (t_level _ _ _ _ _ _ HT _ _ _ Hb) as [Hlev _].
  destruct HT. split; try done.
  - intros n1 p1 b1 Hb1 Hn1. destruct (t_parent0 n1 p1 b1 Hb1 Hn1) as (b2 & H1 & H2 & H3). exists b2. split_and!; [done | done |].
    rewrite nz_upd, upd_slot by eauto. rewrite (decide_False (P := b2 = b /\ _)).
    + destruct (decide (b1 = b)) as [-> | Hne].
      * destruct (Hat _ _ Hb1) as [-> ->]. rewrite decide_True in H3 |- * by done.
        replace (nz w b - b2z (z2b (w (slot b x))) + b2z (z2b e) + (d + b2z (z2b (w (slot b x))) - b2z (z2b e))) with (nz w b + d) by lia. done.
      * rewrite decide_False in H3 |- * by naive_solver. done.
    + intros [-> Hx1]. destruct (Hat _ _ H1) as [E1 E2]. rewrite <- E2, <- Hx1, <- split_512 in Hno. replace (n - 1) with n1 in Hno by lia. naive_solver.
  - intros n1 p1 b1 x1 Hb1 Hn1 Hx1 Ho. rewrite upd_slot by eauto. gdecide Hd; [| by apply t_child0]. destruct Hd as [-> ->]. destruct (Hat _ _ Hb1) as [-> ->].
    intros Hnz. left. split; [done|]. naive_solver lia.
  - intros n1 p1 b1 Hb1 Hn1 Hk. rewrite nz_upd by eauto. rewrite decide_False; [by eapply t_full0|]. intros ->. destruct (Hat _ _ Hb1) as [-> ->]. done.
  - intros n1 q. assert (Hq : forall (o : option Z), leaf (upd w (slot b x) e) F n1 q = (if decide ((n1, q) = (n, 512 * p + x)) then (if z2b e then Some e else None) else leaf w F n1 q)).
    { intros _. gdecide Hd.
      - simplify_eq. unfold leaf. replace ((1 <=? n) && (n <=? 3)) with true by (symmetry; apply andb_true_iff; lia). rewrite div_512, mod_512, Hb by done. cbn [mbind option_bind].
        rewrite upd_same. destruct (z2b e) eqn:E; [| done]. cbn [andb]. destruct He as [-> | [-> | ->]]; [done | done | by rewrite orb_true_r].
      - unfold leaf. destruct ((1 <=? n1) && (n1 <=? 3)); [| done]. destruct (F !! (n1, q / 512)) as [b1 |] eqn:Hb1; [| done]. cbn [mbind option_bind].
        rewrite upd_slot by eauto. rewrite decide_False; [done|]. intros [-> <-]. destruct (Hat _ _ Hb1) as [-> <-]. apply Hd. f_equal. apply split_512. }
    rewrite (Hq None), <- t_shows0. destruct (z2b e); gdecide Hd.
    + rewrite Hd. by rewrite lookup_insert_eq.
    + by rewrite lookup_insert_ne by (symmetry; naive_solver).
    + rewrite Hd. by rewrite lookup_delete_eq.
    + by rewrite lookup_delete_ne by (symmetry; naive_solver).
  - intros x1 Hx1 Hnx. rewrite upd_slot by eauto. rewrite decide_False; [by apply t_others0|]. intros [Ht _]. subst b. destruct (Hat _ _ t_top0). lia.
Qed.

(** Only the words of the tables matter. *)
Lemma tree_ext w w' top F k d M : tree w top F k d M ->
  (forall n p b x, F !! (n, p) = Some b -> 0 <= x < 512 -> w' (slot b x) = w (slot b x)) -> tree w' top F k d M.
Proof.
  intros [] Hw. assert (Hs : forall n p b, F !! (n, p) = Some b -> nz w' b = nz w b) by (intros n p b Hb; apply nz_ext; intros; by eapply Hw).
  split; [done | done | done | done | | | | |].
  - intros n p b Hb Hn. destruct (t_parent0 n p b Hb Hn) as (b' & H1 & H2 & H3). exists b'. split_and!; [done | done |]. by rewrite (Hs n p), (Hw (n + 1) (p / 512)).
  - intros n p b x Hb Hn Hx Ho. rewrite (Hw n p) by done. by apply t_child0.
  - intros n p b Hb Hn Hk. rewrite (Hs n p) by done. by eapply t_full0.
  - intros n q. rewrite t_shows0. unfold leaf. destruct ((1 <=? n) && (n <=? 3)); [| done]. destruct (F !! (n, q / 512)) as [b |] eqn:Hb; [| done]. cbn [mbind option_bind].
    by rewrite (Hw n (q / 512)).
  - intros x Hx Hnx. rewrite (Hw 4 0) by done. by apply t_others0.
Qed.

Lemma leaf_zero w F n q b : F !! (n, q / 512) = Some b -> w (slot b (q mod 512)) = 0 -> leaf w F n q = None.
Proof. intros Hb Hz. unfold leaf. destruct ((1 <=? n) && (n <=? 3)); [| done]. rewrite Hb. cbn [mbind option_bind]. by rewrite Hz. Qed.

Lemma nz_zero w b x : nz w b = 0 -> 0 <= x < 512 -> w (slot b x) = 0.
Proof. intros Hz Hx. destruct (Z.eq_dec (w (slot b x)) 0) as [| Hne]; [done|]. pose proof (nz_pos w b x Hx Hne). lia. Qed.

(** The entry of a table in [F] is not zero. *)
Lemma no_child w top F k d M n p b x : tree w top F k d M -> F !! (n, p) = Some b -> 0 <= x < 512 -> 1 < n -> w (slot b x) = 0 \/ z2b (Z.land (w (slot b x)) VMM_PAGE_FLAG_LARGE) = true ->
  F !! (n - 1, 512 * p + x) = None.
Proof.
  intros HT Hb Hx Hn Hw. destruct (F !! (n - 1, 512 * p + x)) as [a |] eqn:E; [| done]. destruct (t_level _ _ _ _ _ _ HT _ _ _ Hb) as [Hlev _].
  destruct (t_parent _ _ _ _ _ _ HT _ _ _ E ltac:(lia)) as (b' & H1 & _ & H3). rewrite div_512, mod_512 in * by done. replace (n - 1 + 1) with n in * by lia. simplify_eq/=.
  pose proof (t_frame _ _ _ _ _ _ HT _ _ _ E) as Fa. destruct Hw as [Hw | Hw]; [by apply (entry_nonzero _ _ _ Fa H3) in Hw | by rewrite (entry_not_large _ _ _ Fa H3) in Hw].
Qed.

(** A new, empty table [a] behind an entry of the table in focus, whose count is
    already one up. *)
Lemma tree_new w top F n p M b x a e : tree w top F (n, p) 1 M -> 1 < n -> F !! (n, p) = Some b -> 0 <= x < 512 -> owned n x -> w (slot b x) = 0 ->
  frame_ok a -> (forall k, F !! k <> Some a) -> nz w a = 0 -> table_entry e a 0 ->
  tree (upd w (slot b x) e) top (<[(n - 1, 512 * p + x) := a]> F) (n - 1, 512 * p + x) 0 M.
Proof.
  intros HT Hn Hb Hx Ho Hz Fa Ha Hza He. pose proof (no_child _ _ _ _ _ _ _ _ _ _ HT Hb Hx Hn (or_introl Hz)) as Hno. set (q := 512 * p + x) in *.
  pose proof (t_frame _ _ _ _ _ _ HT) as HF. pose proof (HF _ _ _ Hb) as Fb. destruct (t_level _ _ _ _ _ _ HT _ _ _ Hb) as [Hlev Hp0].
  pose proof (entry_nonzero _ _ _ Fa He) as Hne0.
  assert (Hat : forall n1 p1, F !! (n1, p1) = Some b -> n1 = n /\ p1 = p) by (intros n1 p1 E1; pose proof (t_inj _ _ _ _ _ _ HT _ _ _ E1 Hb); by simplify_eq).
  assert (Hab : b <> a) by (intros ->; by eapply Ha).
  assert (Hza' : nz (upd w (slot b x) e) a = 0) by (rewrite nz_upd, decide_False by done; done).
  assert (Hs : forall b1, frame_ok b1 -> b1 <> b -> nz (upd w (slot b x) e) b1 = nz w b1) by (intros; by rewrite nz_upd, decide_False by done).
  assert (Hsb : nz (upd w (slot b x) e) b = nz w b + 1) by (rewrite nz_upd, decide_True, Hz, (z2b_nonzero e) by done; cbn; lia).
  assert (Hframe : forall n1 p1 b1, <[(n - 1, q) := a]> F !! (n1, p1) = Some b1 -> frame_ok b1) by (intros ? ? ? [[_ <-] | [_ E]]%lookup_insert_Some; [done | eauto]).
  destruct HT. split.
  - rewrite lookup_insert_ne; [done | intros [=]; lia].
  - intros n1 p1 b1 [[[= <- <-] _] | [_ E]]%lookup_insert_Some; [lia | by eapply t_level0].
  - done.
  - intros k1 k2 b1 [[<- <-] | [_ E1]]%lookup_insert_Some [[<- E2] | [_ E2]]%lookup_insert_Some; [done | by apply Ha in E2 | subst; by apply Ha in E1 | by eapply t_inj0].
  - intros n1 p1 b1 E Hn1. apply lookup_insert_Some in E as [[[= <- <-] <-] | [Hk E]].
    + exists b. unfold q. rewrite div_512, mod_512 by done. replace (n - 1 + 1) with n by lia. rewrite lookup_insert_ne by (intros [=]; lia). split_and!; [done | done |].
      fold q. rewrite upd_same, decide_True by done. by rewrite Hza'.
    + destruct (t_parent0 n1 p1 b1 E Hn1) as (b2 & H1 & H2 & H3). exists b2. rewrite lookup_insert_ne by (intros E1; rewrite <- E1 in H1; congruence). split_and!; [done | done |].
      rewrite upd_slot by eauto. rewrite (decide_False (P := b2 = b /\ _)).
      * rewrite (decide_False (P := (n1, p1) = _)) by done. destruct (decide (b1 = b)) as [-> | Hb1].
        { destruct (Hat _ _ E) as [-> ->]. rewrite decide_True in H3 by done. by rewrite Hsb, Z.add_0_r. }
        { rewrite Hs by eauto. rewrite decide_False in H3; [done|]. intros [= -> ->]. congruence. }
      * intros [-> Hx1]. destruct (Hat _ _ H1) as [E1 E2]. apply Hk. f_equal; [lia|]. unfold q. rewrite <- E2, <- Hx1. symmetry. apply split_512.
  - intros n1 p1 b1 x1 E Hn1 Hx1 Ho1. apply lookup_insert_Some in E as [[[= <- <-] <-] | [Hk E]].
    + rewrite upd_slot by done. rewrite decide_False by naive_solver. by rewrite (nz_zero w a x1).
    + rewrite upd_slot by eauto. gdecide Hd.
      * destruct Hd as [-> ->]. destruct (Hat _ _ E) as [-> ->]. intros _. right. exists a. fold q. by rewrite lookup_insert_eq.
      * intros Hnz. destruct (t_child0 n1 p1 b1 x1 E Hn1 Hx1 Ho1 Hnz) as [? | [y Hy]]; [by left | right]. rewrite lookup_insert_ne by (intros E1; rewrite <- E1 in Hy; congruence). by exists y.
  - intros n1 p1 b1 E Hn1 Hk1. apply lookup_insert_Some in E as [[E1 _] | [_ E]]; [congruence|]. destruct (decide (b1 = b)) as [-> |].
    + rewrite Hsb. pose proof (nz_range w b). lia.
    + rewrite Hs by eauto. apply (t_full0 n1 p1); [done | done |]. intros [= -> ->]. congruence.
  - intros n1 q1. rewrite t_shows0. destruct (decide ((n1, q1 / 512) = (n - 1, q))) as [E1 | Hk].
    + rewrite (leaf_zero _ (<[_ := _]> F) _ _ a).
      * unfold leaf. destruct ((1 <=? n1) && (n1 <=? 3)); [| done]. by rewrite E1, Hno.
      * by rewrite E1, lookup_insert_eq.
      * rewrite upd_slot by done. rewrite decide_False by naive_solver. by apply nz_zero.
    + unfold leaf. destruct ((1 <=? n1) && (n1 <=? 3)); [| done]. rewrite lookup_insert_ne by done. destruct (F !! (n1, q1 / 512)) as [b1 |] eqn:Hb1; [| done]. cbn [mbind option_bind].
      rewrite upd_slot by eauto. gdecide Hd; [| done]. destruct Hd as [-> Hx1]. destruct (Hat _ _ Hb1) as [-> Hq]. rewrite Hx1, Hz, (entry_not_large _ _ _ Fa He).
      destruct (Z.eqb_spec n 1); [lia|]. by rewrite !andb_false_r.
  - intros x1 Hx1 Hnx. rewrite upd_slot by eauto. rewrite decide_False; [by apply t_others0|]. intros [Ht ->]. subst b. destruct (Hat _ _ t_top0). subst. by apply Hnx, Ho.
Qed.

(** The table in focus has no entries left and goes. *)
Lemma tree_free w top F n p M b b' : tree w top F (n, p) 0 M -> n < 4 -> F !! (n, p) = Some b -> F !! (n + 1, p / 512) = Some b' -> nz w b = 0 ->
  tree (upd w (slot b' (p mod 512)) 0) top (delete (n, p) F) (n + 1, p / 512) 1 M.
Proof.
  intros HT Hn Hb Hb' Hz. destruct (t_parent _ _ _ _ _ _ HT n p b Hb Hn) as (b'' & E & Hown & Hold). simplify_eq/=.
  pose proof (t_frame _ _ _ _ _ _ HT) as HF. pose proof (HF _ _ _ Hb) as Fb. pose proof (HF _ _ _ Hb') as Fb'. destruct (t_level _ _ _ _ _ _ HT _ _ _ Hb) as [Hlev _].
  pose proof (entry_nonzero _ _ _ Fb Hold) as Hnz0.
  assert (Hat : forall n1 p1, F !! (n1, p1) = Some b' -> n1 = n + 1 /\ p1 = p / 512) by (intros n1 p1 E1; pose proof (t_inj _ _ _ _ _ _ HT _ _ _ E1 Hb'); by simplify_eq).
  assert (Hs : forall b1, frame_ok b1 -> b1 <> b' -> nz (upd w (slot b' (p mod 512)) 0) b1 = nz w b1) by (intros; by rewrite nz_upd, decide_False by done).
  assert (Hsb : nz (upd w (slot b' (p mod 512)) 0) b' = nz w b' - 1) by (rewrite nz_upd, decide_True, z2b_nonzero by done; cbn; lia).
  destruct HT. split.
  - rewrite lookup_delete_ne; [done | intros [=]; lia].
  - intros n1 p1 b1 [_ E1]%lookup_delete_Some. by eapply t_level0.
  - intros n1 p1 b1 [_ E1]%lookup_delete_Some. by eapply t_frame0.
  - intros k1 k2 b1 [_ E1]%lookup_delete_Some [_ E2]%lookup_delete_Some. by eapply t_inj0.
  - intros n1 p1 b1 [Hk E1]%lookup_delete_Some Hn1. destruct (t_parent0 n1 p1 b1 E1 Hn1) as (b2 & H1 & H2 & H3). exists b2. split_and!; [| done |].
    + rewrite lookup_delete_ne; [done|]. intros E2. rewrite <- E2, Hb in H1. simplify_eq. rewrite (nz_zero w b2 (p1 mod 512)) in H3 by done.
      by apply (entry_nonzero _ _ _ (HF _ _ _ E1)) in H3.
    + rewrite upd_slot by eauto. rewrite (decide_False (P := b2 = b' /\ _)).
      * destruct (decide (b1 = b')) as [-> | Hb1].
        { destruct (Hat _ _ E1) as [-> ->]. rewrite decide_False in H3 by (intros [=]; lia). rewrite decide_True, Hsb by done. by replace (nz w b' - 1 + 1) with (nz w b' + 0) by lia. }
        { rewrite Hs by eauto. rewrite decide_False in H3 by done. rewrite decide_False; [done|]. intros [= -> ->]. congruence. }
      * intros [-> Hx1]. destruct (Hat _ _ H1) as [E2 E3]. apply Hk. f_equal; [lia|]. rewrite (split_512 p), (split_512 p1). lia.
  - intros n1 p1 b1 x1 [Hk E1]%lookup_delete_Some Hn1 Hx1 Ho1. rewrite upd_slot by eauto. gdecide Hd; [done|]. intros Hnz.
    destruct (t_child0 n1 p1 b1 x1 E1 Hn1 Hx1 Ho1 Hnz) as [? | [y Hy]]; [by left | right]. rewrite lookup_delete_ne; [by exists y|]. intros E2. apply Hd. simplify_eq.
    replace (n1 - 1 + 1) with n1 in * by lia. rewrite div_512 in Hb' by done. rewrite mod_512 by done. split; [congruence | done].
  - intros n1 p1 b1 [Hk E1]%lookup_delete_Some Hn1 Hk1. rewrite Hs; [by eapply t_full0 | eauto |]. intros ->. destruct (Hat _ _ E1) as [-> ->]. done.
  - intros n1 q1. rewrite t_shows0. destruct (decide ((n1, q1 / 512) = (n, p))) as [E1 | Hk].
    + rewrite (leaf_zero _ F _ _ b); [| by rewrite E1 | by apply nz_zero]. unfold leaf. destruct ((1 <=? n1) && (n1 <=? 3)); [| done]. by rewrite E1, lookup_delete_eq.
    + unfold leaf. destruct ((1 <=? n1) && (n1 <=? 3)); [| done]. rewrite lookup_delete_ne by done. destruct (F !! (n1, q1 / 512)) as [b1 |] eqn:Hb1; [| done]. cbn [mbind option_bind].
      rewrite upd_slot by eauto. gdecide Hd; [| done]. destruct Hd as [-> Hx1]. destruct (Hat _ _ Hb1) as [-> Hq]. rewrite Hx1, (entry_not_large _ _ _ Fb Hold).
      destruct (Z.eqb_spec (n + 1) 1); [lia|]. by rewrite !andb_false_r.
  - intros x1 Hx1 Hnx. rewrite upd_slot by eauto. rewrite decide_False; [by apply t_others0|]. intros [Ht ->]. subst b'. destruct (Hat _ _ t_top0). apply Hnx, Hown. lia.
Qed.
End tree.
