(* ===== verification/VmmSpec.v ===== *)
(** * What the page tables promise
    A page map behaves as a finite map from pages to mapping words: the operations
    of [Vmm.v] refine insertion, removal and lookup, keep exactly the tables that
    are needed, and touch no other memory. *)
From stdpp Require Import base tactics list numbers option gmap.
From Stdlib Require Import ZArith Lia.
From S2P Require Import Prelude PmmView PmmInv Pages Vmm VmmTree.
#[local] Open Scope Z_scope.

(** The page number of an address at the size of level [n]. *)
Definition pn (n va : Z) : Z := va mod 2 ^ 48 / 2 ^ (12 + 9 * (n - 1)).

Lemma pn_up n va : 1 <= n -> pn (n + 1) va = pn n va / 512.
Proof.
  intros Hn. unfold pn. change 512 with (2 ^ 9). rewrite Z.div_div, <- Z.pow_add_r by lia. do 2 f_equal. lia.
Qed.

Lemma index_pn n va : 1 <= n <= 4 -> index n va = pn n va mod 512.
Proof.
  intros Hn. unfold index, pn. change 0x1ff with (Z.ones 9). rewrite Z.land_ones by lia. rewrite Z.shiftr_div_pow2 by lia. change 512 with (2 ^ 9).
  apply Z.bits_inj'. intros i Hi. destruct (Z.ltb_spec i 9); [| by rewrite !Z.mod_pow2_bits_high by lia].
  rewrite !Z.mod_pow2_bits_low by lia. rewrite <- !Z.shiftr_div_pow2, !Z.shiftr_spec by lia. rewrite Z.mod_pow2_bits_low by lia. done.
Qed.

Lemma pn_split n va : 1 <= n <= 4 -> pn n va = 512 * pn (n + 1) va + index n va.
Proof. intros Hn. rewrite pn_up, index_pn by lia. apply split_512. Qed.

Lemma pn_top va : pn 5 va = 0.
Proof. unfold pn. apply Z.div_small. change (2 ^ (12 + 9 * (5 - 1))) with (2 ^ 48). apply Z.mod_pos_bound. lia. Qed.

Lemma pn_index va : pn 4 va = index 4 va.
Proof. rewrite pn_split by lia. change (4 + 1) with 5. rewrite pn_top. lia. Qed.

Lemma index_range n va : 1 <= n <= 4 -> 0 <= index n va < 512.
Proof. intros Hn. rewrite index_pn by done. apply mod_512_range. Qed.

#[local] Hint Resolve index_range mod_512_range : core.

(** [m] pages can be had, one after the other. *)
Fixpoint serves_n {P} `{PageAllocatorLaws P} (m : nat) (p : P) : Prop :=
  match m with
  | O => True
  | S m => serves p 0 /\ forall p' a, page_alloc p 1 = Some (p', a) -> serves_n m p'
  end.

Section spec.
Context {P : Type} `{PageAllocatorLaws P}.
(** [R]: the other blocks of the client of the page allocator. *)
Context (lo hi : Z) (W : Z -> Z) (R : list (Z * Z)).
Implicit Types (s : vmm_t P) (F M : gmap key Z).

Lemma serves_less m p : serves_n (S m) p -> serves_n m p.
Proof. revert p. induction m as [| m IH]; intros p; [done|]. intros [H1 H2]. split; [done|]. intros p' a E. apply IH. by eapply H2. Qed.

Definition blocks F : list (Z * Z) := (fun kb : key * Z => (kb.2, 0)) <$> map_to_list F.

Record pagemap s F (k : key) (d : Z) M : Prop := {
  pm_tree : tree lo hi W (words s) (toplevel s) F k d M;
  pm_held : exists B, B ≡ₚ blocks F ++ R /\ held (frames s) B;
  pm_rest a i x : (a, i) ∈ R -> a <= x < a + blk i -> words s (x + OFF) = W (x + OFF)
}.

Lemma blocks_elem F k b : F !! k = Some b -> (b, 0) ∈ blocks F.
Proof. intros Hb. apply list_elem_of_fmap. exists (k, b). split; [done|]. by apply elem_of_map_to_list. Qed.

Lemma blocks_insert F k b : F !! k = None -> blocks (<[k := b]> F) ≡ₚ (b, 0) :: blocks F.
Proof. intros Hk. unfold blocks. by rewrite map_to_list_insert. Qed.

Lemma blocks_delete F k b : F !! k = Some b -> blocks F ≡ₚ (b, 0) :: blocks (delete k F).
Proof. intros Hk. rewrite <- (insert_delete_id F k b) at 1 by done. apply blocks_insert. apply lookup_delete_eq. Qed.

Lemma block_frame a i : 0 < a -> a mod blk i = 0 -> a + blk i <= 2 ^ 47 -> i = 0 -> frame_ok a.
Proof. intros H1 H2 H3 ->. change (blk 0) with 4096 in *. done. Qed.

(** Tables are apart from the other blocks. *)
Lemma table_apart s F k d M k' b a i : pagemap s F k d M -> F !! k' = Some b -> (a, i) ∈ R -> apart b 0 a i.
Proof.
  intros HP Hb Ha. destruct (pm_held _ _ _ _ _ HP) as (B & HB & Hh). pose proof (held_apart _ _ Hh) as Hap. rewrite HB in Hap.
  apply blocks_elem in Hb. apply elem_of_Permutation in Hb as [l Hl]. rewrite Hl in Hap. cbn [app all_apart] in Hap. apply Hap. set_solver.
Qed.

#[local] Transparent slot.

Lemma rest_upd s F k d M k' b x v a i y : pagemap s F k d M -> F !! k' = Some b -> 0 <= x < 512 -> (a, i) ∈ R -> a <= y < a + blk i ->
  upd (words s) (slot b x) v (y + OFF) = words s (y + OFF).
Proof.
  intros HP Hb Hx Ha Hy. pose proof (table_apart _ _ _ _ _ _ _ _ _ HP Hb Ha) as Hap. unfold apart in Hap. change (blk 0) with 4096 in Hap.
  unfold upd, slot. destruct (Z.eqb_spec (y + OFF) (b + OFF + 8 * x)); [lia | done].
Qed.

(** The pointer to the entry of a table. *)
Definition ptr F (k : key) : entry_ptr :=
  if fst k =? 4 then Toplevel
  else match F !! (fst k + 1, snd k / 512) with Some b' => Entry (slot b' (snd k mod 512)) | None => Toplevel end.

Lemma entry_of_ok s F k d M n p b x : pagemap s F k d M -> F !! (n, p) = Some b -> entry_of s (ptr F (n, p)) x = Entry (slot b x).
Proof.
  intros HP Hb. pose proof (pm_tree _ _ _ _ _ HP) as HT. pose proof (t_frame _ _ _ _ _ _ _ _ _ HT _ _ _ Hb) as Fb. destruct (t_level _ _ _ _ _ _ _ _ _ HT _ _ _ Hb) as [Hn Hp].
  assert (E : Z.land (get s (ptr F (n, p))) VMM_PAGE_ADDRESS_MASK = b).
  { unfold ptr. cbn [fst snd]. destruct (Z.eqb_spec n 4) as [-> | Hne].
    - rewrite (Hp eq_refl) in Hb. rewrite (t_top _ _ _ _ _ _ _ _ _ HT) in Hb. injection Hb as <-. cbn [get]. pose proof (frame_eq _ Fb). destruct Fb as (? & _ & ?).
      change VMM_PAGE_ADDRESS_MASK with (Z.shiftl (Z.ones 36) 12). rewrite land_field by lia. change (2 ^ 12) with 4096. rewrite Z.mod_small by lia. lia.
    - destruct (t_parent _ _ _ _ _ _ _ _ _ HT _ _ _ Hb ltac:(lia)) as (b' & -> & _ & He). cbn [get]. by apply (entry_frame _ _ _ Fb He). }
  unfold entry_of, _get_table. rewrite E. destruct Fb as (? & _ & ?). rewrite u64_id by (change OFF with (2 ^ 64 - 2 ^ 47); lia). done.
Qed.

Lemma ptr_child F n p b x : F !! (n, p) = Some b -> n <= 4 -> 0 <= x < 512 -> ptr F (n - 1, 512 * p + x) = Entry (slot b x).
Proof. intros Hb Hn Hx. unfold ptr. cbn [fst snd]. destruct (Z.eqb_spec (n - 1) 4); [lia|]. rewrite div_512, mod_512 by done. replace (n - 1 + 1) with n by lia. by rewrite Hb. Qed.

Lemma ptr_more F F' n p b : F !! (n, p) = Some b -> F ⊆ F' -> (n = 4 \/ is_Some (F !! (n + 1, p / 512))) -> ptr F' (n, p) = ptr F (n, p).
Proof.
  intros Hb Hsub Hp. unfold ptr. cbn [fst snd]. destruct (Z.eqb_spec n 4); [done|]. destruct Hp as [| [b' Hb']]; [done|]. by rewrite Hb', (lookup_weaken _ _ _ _ Hb' Hsub).
Qed.

(** ** Elementary steps *)

Lemma pagemap_refocus s F k M k' : pagemap s F k 0 M -> (forall b, F !! k = Some b -> fst k < 4 -> 0 < nz (words s) b) -> pagemap s F k' 0 M.
Proof. intros [] Hf. split; [| done | done]. eapply tree_refocus; [done | by right | done]. Qed.

(** A store into the entry of the table in focus. *)
Lemma pagemap_count s F n p d M b e d' : pagemap s F (n, p) d M -> n < 4 -> F !! (n, p) = Some b -> table_entry e b (nz (words s) b + d') ->
  pagemap (set s (ptr F (n, p)) e) F (n, p) d' M.
Proof.
  intros HP Hn Hb He. pose proof (pm_tree _ _ _ _ _ HP) as HT. destruct (t_parent _ _ _ _ _ _ _ _ _ HT _ _ _ Hb Hn) as (b' & Hb' & _).
  unfold ptr. cbn [fst snd]. destruct (Z.eqb_spec n 4); [lia|]. rewrite Hb'. split; [by eapply tree_count | by apply HP |].
  intros a i x Ha Hx. rewrite <- (pm_rest _ _ _ _ _ HP a i x) by done. by eapply rest_upd.
Qed.

Lemma get_ptr s F n p d M b : pagemap s F (n, p) d M -> n < 4 -> F !! (n, p) = Some b -> table_entry (get s (ptr F (n, p))) b (nz (words s) b + d).
Proof.
  intros HP Hn Hb. destruct (t_parent _ _ _ _ _ _ _ _ _ (pm_tree _ _ _ _ _ HP) _ _ _ Hb Hn) as (b' & Hb' & _ & He). rewrite decide_True in He by done.
  unfold ptr. cbn [fst snd]. destruct (Z.eqb_spec n 4); [lia|]. by rewrite Hb'.
Qed.

Lemma top_not_present s F k d M : pagemap s F k d M -> z2b (Z.land (toplevel s) VMM_PAGE_FLAG_PRESENT) = false.
Proof.
  intros HP. pose proof (pm_tree _ _ _ _ _ HP) as HT. pose proof (frame_eq _ (t_frame _ _ _ _ _ _ _ _ _ HT _ _ _ (t_top _ _ _ _ _ _ _ _ _ HT))) as E.
  change VMM_PAGE_FLAG_PRESENT with (2 ^ 0). rewrite bit_test by lia. rewrite E. replace (4096 * (toplevel s / 4096)) with (toplevel s / 4096 * 2 ^ 12) by lia.
  by rewrite Z.mul_pow2_bits_low by lia.
Qed.

Lemma increase_ok s F n p d M b : pagemap s F (n, p) d M -> F !! (n, p) = Some b -> 0 <= d <= 1 -> pagemap (_increase_length s (ptr F (n, p))) F (n, p) (d + 1) M.
Proof.
  intros HP Hb Hd. destruct (t_level _ _ _ _ _ _ _ _ _ (pm_tree _ _ _ _ _ HP) _ _ _ Hb) as [Hn Hp]. unfold _increase_length. destruct (Z.eq_dec n 4) as [-> | Hne].
  - rewrite (Hp eq_refl) in *. change (get s (ptr F (4, 0))) with (toplevel s). rewrite (top_not_present _ _ _ _ _ HP). destruct HP. split; [| done | done]. by eapply tree_top_any.
  - pose proof (get_ptr _ _ _ _ _ _ _ HP ltac:(lia) Hb) as He. pose proof (t_frame _ _ _ _ _ _ _ _ _ (pm_tree _ _ _ _ _ HP) _ _ _ Hb) as Fb. rewrite (entry_present _ _ _ Fb He).
    pose proof (nz_range (words s) b). eapply pagemap_count; [done | lia | done |]. rewrite Z.add_assoc.
    change (Z.shiftl 1 VMM_PAGE_COUNT_SHIFT) with (1 * 2 ^ 52). apply entry_shift; [done | done | lia].
Qed.

(** Only the count changes. *)
Lemma increase_word s F k d M n p b x : pagemap s F k d M -> F !! (n, p) = Some b -> 0 <= x < 512 ->
  words (_increase_length s (ptr F (n, p))) (slot b x) = words s (slot b x) /\ frames (_increase_length s (ptr F (n, p))) = frames s.
Proof.
  intros HP Hb Hx. pose proof (pm_tree _ _ _ _ _ HP) as HT. pose proof (t_frame _ _ _ _ _ _ _ _ _ HT) as HF. unfold _increase_length.
  destruct (z2b (Z.land (get s (ptr F (n, p))) VMM_PAGE_FLAG_PRESENT)); [| done]. unfold ptr. cbn [fst snd]. destruct (Z.eqb_spec n 4); [done|].
  destruct (F !! (n + 1, p / 512)) as [b1 |] eqn:Hb1; [| done]. split; [| done]. cbn [set words]. set (v := u64 _). change (upd (words s) (slot b1 (p mod 512)) v (slot b x) = words s (slot b x)).
  rewrite upd_slot by eauto. rewrite decide_False; [done|]. intros [-> _]. pose proof (t_inj _ _ _ _ _ _ _ _ _ HT _ _ _ Hb Hb1) as E. injection E. lia.
Qed.

(** A page from the allocator is no table and belongs to nobody. *)
Lemma table_alloc_ok s F k d M : pagemap s F k d M -> serves (frames s) 0 ->
  exists s' a, alloc_table s = Some (s', a) /\ tree lo hi W (words s') (toplevel s') F k d M /\ frame_ok a /\ (forall k', F !! k' <> Some a) /\ nz (words s') a = 0 /\
    (exists B, B ≡ₚ (a, 0) :: blocks F ++ R /\ held (frames s') B) /\
    (forall b i x, (b, i) ∈ R -> b <= x < b + blk i -> words s' (x + OFF) = W (x + OFF)) /\
    page_alloc (frames s) 1 = Some (frames s', a) /\ (forall k' b x, F !! k' = Some b -> 0 <= x < 512 -> words s' (slot b x) = words s (slot b x)).
Proof.
  intros HP Hs. destruct (pm_held _ _ _ _ _ HP) as (B & HB & Hh). destruct (page_alloc_law _ _ 0 Hh ltac:(lia) Hs) as (p' & a & E & Hh'). change (2 ^ 0) with 1 in E.
  unfold alloc_table. rewrite E. cbn [mbind option_bind]. do 2 eexists. split; [done|]. cbn [words toplevel frames].
  destruct (held_block _ _ a 0 Hh' ltac:(set_solver)) as (Ha0 & Ham & Hab & _). assert (Fa : frame_ok a) by by eapply block_frame. change (blk 0) with 4096 in *.
  pose proof (held_apart _ _ Hh') as [Hap _]. assert (Eu : u64 (a + OFF) = a + OFF) by (rewrite u64_id by (change OFF with (2 ^ 64 - 2 ^ 47); lia); done). rewrite Eu.
  assert (Hnew : forall k' b, F !! k' = Some b -> b + 4096 <= a \/ a + 4096 <= b).
  { intros k' b Hb. specialize (Hap b 0). rewrite HB in Hap. specialize (Hap ltac:(apply elem_of_app; left; by eapply blocks_elem)). unfold apart in Hap. change (blk 0) with 4096 in Hap. lia. }
  assert (Hsame : forall k' b x, F !! k' = Some b -> 0 <= x < 512 -> (if (a + OFF <=? slot b x) && (slot b x <? a + OFF + PAGE_SIZE) then 0 else words s (slot b x)) = words s (slot b x)).
  { intros k' b x Hb Hx. specialize (Hnew _ _ Hb). unfold slot, PAGE_SIZE. destruct (Z.leb_spec (a + OFF) (b + OFF + 8 * x)); [| done]. destruct (Z.ltb_spec (b + OFF + 8 * x) (a + OFF + 4096)); [lia | done]. }
  split_and!; [| done | | | | | done | done].
  - eapply tree_ext; [apply HP|]. intros n p b x Hb Hx. by eapply Hsame.
  - intros k' Hk. specialize (Hnew _ _ Hk). lia.
  - destruct (Z.eq_dec (nz (fun b => if (a + OFF <=? b) && (b <? a + OFF + PAGE_SIZE) then 0 else words s b) a) 0) as [| Hne]; [done|]. exfalso. apply Hne.
    rewrite (nz_ext _ (fun _ => 0)); [done|]. intros x Hx. unfold slot, PAGE_SIZE. destruct (Z.leb_spec (a + OFF) (a + OFF + 8 * x)); [| lia]. destruct (Z.ltb_spec (a + OFF + 8 * x) (a + OFF + 4096)); [done | lia].
  - exists ((a, 0) :: B). split; [by rewrite HB | done].
  - intros b i x Hb Hx. rewrite <- (pm_rest _ _ _ _ _ HP b i x) by done. specialize (Hap b i). rewrite HB in Hap. specialize (Hap ltac:(set_solver)). unfold apart in Hap. change (blk 0) with 4096 in Hap. unfold PAGE_SIZE.
    destruct (Z.leb_spec (a + OFF) (x + OFF)); [| done]. destruct (Z.ltb_spec (x + OFF) (a + OFF + 4096)); [lia | done].
Qed.

(** What [_get_child_table] finds at an entry. *)
Lemma entry_cases s F k d M n p b x : pagemap s F k d M -> F !! (n, p) = Some b -> 1 < n -> 0 <= x < 512 -> owned lo hi n x ->
  let e := words s (slot b x) in
  (e = 0 /\ F !! (n - 1, 512 * p + x) = None /\ M !! (n, 512 * p + x) = None) \/
  (n < 4 /\ z2b (Z.land e VMM_PAGE_FLAG_LARGE) = true /\ e <> 0 /\ F !! (n - 1, 512 * p + x) = None /\ M !! (n, 512 * p + x) = Some e) \/
  (exists b' c, F !! (n - 1, 512 * p + x) = Some b' /\ table_entry e b' c /\ M !! (n, 512 * p + x) = None).
Proof.
  intros HP Hb Hn Hx Ho e. pose proof (pm_tree _ _ _ _ _ HP) as HT. pose proof (t_shows _ _ _ _ _ _ _ _ _ HT n (512 * p + x)) as Hm. unfold leaf in Hm. destruct (t_level _ _ _ _ _ _ _ _ _ HT _ _ _ Hb) as [Hlev _].
  rewrite div_512, mod_512, Hb in Hm by done. cbn [mbind option_bind] in Hm. change (words s (slot b x)) with e in Hm. destruct (Z.leb_spec 1 n); [| lia]. cbn [andb] in Hm. destruct (Z.eqb_spec n 1); [lia|]. cbn [orb] in Hm.
  destruct (Z.eq_dec e 0) as [Ez | Hnz]; [left | right].
  - split_and!; [done | eapply no_child; eauto | rewrite Hm, Ez; by destruct (n <=? 3)].
  - destruct (t_child _ _ _ _ _ _ _ _ _ HT n p b x Hb Hn Hx Ho Hnz) as [[H4 HL] | [b' Hb']]; [left | right].
    + split_and!; [done | done | done | eapply no_child; eauto |]. rewrite Hm. fold e in HL. rewrite HL, z2b_nonzero by done. destruct (Z.leb_spec n 3); [done | lia].
    + destruct (t_parent _ _ _ _ _ _ _ _ _ HT _ _ _ Hb' ltac:(lia)) as (b2 & Hb2 & _ & He2). rewrite div_512, mod_512 in * by done. replace (n - 1 + 1) with n in * by lia. simplify_eq/=.
      do 2 eexists. split_and!; [done | exact He2 |]. rewrite Hm. pose proof (t_frame _ _ _ _ _ _ _ _ _ HT _ _ _ Hb') as Fb'. unfold e. rewrite (entry_not_large _ _ _ Fb' He2). rewrite andb_false_r. by destruct (n <=? 3).
Qed.

Lemma get_child_ok s F n p M b x m : pagemap s F (n, p) 0 M -> F !! (n, p) = Some b -> 1 < n -> 0 <= x < 512 -> owned lo hi n x -> M !! (n, 512 * p + x) = None -> serves_n (S m) (frames s) ->
  exists s' F' b', _get_child_table s (ptr F (n, p)) x true = Some (s', Some (ptr F' (n - 1, 512 * p + x))) /\ pagemap s' F' (n - 1, 512 * p + x) 0 M /\
    F' !! (n - 1, 512 * p + x) = Some b' /\ serves_n m (frames s').
Proof.
  intros HP Hb Hn Hx Ho HM Hserve. destruct (t_level _ _ _ _ _ _ _ _ _ (pm_tree _ _ _ _ _ HP) _ _ _ Hb) as [Hlev _]. unfold _get_child_table. rewrite (entry_of_ok _ _ _ _ _ _ _ _ _ HP Hb). cbn [get].
  destruct (entry_cases _ _ _ _ _ _ _ _ x HP Hb Hn Hx Ho) as [(Ez & Hno & _) | [(_ & _ & _ & _ & HM') | (b' & c & Hb' & He & _)]]; [| congruence |].
  - rewrite Ez. cbn [z2b negb]. change (negb (0 =? 0)) with false. cbn [negb]. pose proof (increase_ok _ _ _ _ _ _ _ HP Hb ltac:(lia)) as HI. change (0 + 1) with 1 in HI.
    set (s1 := _increase_length s (ptr F (n, p))) in *.
    destruct (increase_word _ _ _ _ _ _ _ _ x HP Hb Hx) as [Ew1 Ef]. fold s1 in Ew1, Ef.
    destruct Hserve as [Hs0 Hs1]. destruct (table_alloc_ok _ _ _ _ _ HI ltac:(by rewrite Ef)) as (s2 & a & E2 & HT2 & Fa & Hnew & Hza & (B & HB & Hh) & Hrest & Epage & Hsame). rewrite E2. cbn [mbind option_bind].
    assert (Ez1 : words s2 (slot b x) = 0) by (rewrite (Hsame (n, p) b x) by done; by rewrite Ew1).
    exists (set s2 (Entry (slot b x)) (Z.lor (Z.lor (Z.lor a VMM_PAGE_FLAG_USER) VMM_PAGE_FLAG_READWRITE) VMM_PAGE_FLAG_PRESENT)), (<[(n - 1, 512 * p + x) := a]> F), a.
    assert (Hb2 : <[(n - 1, 512 * p + x) := a]> F !! (n, p) = Some b) by (rewrite lookup_insert_ne by (intros [=]; lia); done).
    split_and!; [by rewrite (ptr_child _ _ _ _ _ Hb2) by (done || lia) | | by rewrite lookup_insert_eq | apply (Hs1 _ a); cbn [set frames]; by rewrite <- Ef].
    split.
    + cbn [set words toplevel]. apply (tree_new lo hi W (words s2)); try done. by apply new_entry.
    + cbn [set frames]. exists B. split; [| done]. by rewrite HB, blocks_insert.
    + intros a' i y Ha' Hy. cbn [set words]. rewrite <- (Hrest a' i y) by done. pose proof (table_apart _ _ _ _ _ _ _ _ _ HP Hb Ha') as Hap. unfold apart in Hap. change (blk 0) with 4096 in Hap.
      unfold slot. destruct (Z.eqb_spec (y + OFF) (b + OFF + 8 * x)); [lia | done].
  - pose proof (t_frame _ _ _ _ _ _ _ _ _ (pm_tree _ _ _ _ _ HP) _ _ _ Hb') as Fb'. pose proof (entry_nonzero _ _ _ Fb' He) as Hnz. rewrite (z2b_nonzero _ Hnz).
    exists s, F, b'. split_and!; [by rewrite (ptr_child _ _ _ _ _ Hb) by (done || lia) | | done | by apply serves_less].
    eapply pagemap_refocus; [done|]. intros b1 E1 _. simplify_eq. by eapply nz_pos.
Qed.

(** The word of an entry that points to no table. *)
Lemma table_slot_word s F k d M n p b x : pagemap s F k d M -> F !! (n, p) = Some b -> n < 4 -> 0 <= x < 512 -> F !! (n - 1, 512 * p + x) = None ->
  words s (slot b x) = default 0 (M !! (n, 512 * p + x)).
Proof.
  intros HP Hb Hn Hx Hno. pose proof (pm_tree _ _ _ _ _ HP) as HT. destruct (t_level _ _ _ _ _ _ _ _ _ HT _ _ _ Hb) as [Hlev _]. destruct (Z.eq_dec n 1) as [-> | Hne].
  - rewrite (t_shows _ _ _ _ _ _ _ _ _ HT). unfold leaf. cbn [Z.leb Z.compare andb]. rewrite div_512, mod_512, Hb by done. cbn [mbind option_bind]. change (1 =? 1) with true. cbn [orb]. rewrite andb_true_r.
    destruct (z2b (words s (slot b x))) eqn:E; [done|]. by apply z2b_false in E.
  - destruct (entry_cases _ _ _ _ _ _ _ _ x HP Hb ltac:(lia) Hx ltac:(intros ?; lia)) as [(-> & _ & ->) | [(_ & _ & _ & _ & ->) | (b' & c & E & _)]]; [done | done | congruence].
Qed.

Lemma map_entry_ok s F M n p b x e : pagemap s F (n, p) 0 M -> F !! (n, p) = Some b -> n < 4 -> 0 <= x < 512 -> F !! (n - 1, 512 * p + x) = None ->
  e <> 0 -> (n = 1 \/ z2b (Z.land e VMM_PAGE_FLAG_LARGE) = true) -> (forall e0, M !! (n, 512 * p + x) = Some e0 -> Z.testbit e0 0 = false) ->
  exists s', map_entry s (ptr F (n, p)) x e = Some s' /\ pagemap s' F (4, 0) 0 (<[(n, 512 * p + x) := e]> M) /\ frames s' = frames s.
Proof.
  intros HP Hb Hn Hx Hno He HL Hp. pose proof (table_slot_word _ _ _ _ _ _ _ _ _ HP Hb Hn Hx Hno) as Ew. pose proof (t_frame _ _ _ _ _ _ _ _ _ (pm_tree _ _ _ _ _ HP)) as HF.
  unfold map_entry. rewrite (entry_of_ok _ _ _ _ _ _ _ _ _ HP Hb). cbn [get]. change VMM_PAGE_FLAG_PRESENT with (2 ^ 0). rewrite bit_test by lia.
  replace (Z.testbit (words s (slot b x)) 0) with false by (rewrite Ew; destruct (M !! (n, 512 * p + x)) as [e0 |]; [symmetry; by apply Hp | done]).
  set (s1 := _increase_length_if_entry_empty s (ptr F (n, p)) x).
  assert (H1 : pagemap s1 F (n, p) (1 - b2z (z2b (words s (slot b x)))) M /\ words s1 (slot b x) = words s (slot b x) /\ frames s1 = frames s).
  { unfold s1, _increase_length_if_entry_empty. rewrite (entry_of_ok _ _ _ _ _ _ _ _ _ HP Hb). cbn [get]. destruct (z2b (words s (slot b x))) eqn:E; cbn [negb b2z]; [by change (1 - 1) with 0 | change (1 - 0) with (0 + 1)].
    split; [by apply (increase_ok _ _ _ _ 0 _ b) | by eapply increase_word]. }
  destruct H1 as (HP1 & Ew1 & Ef). rewrite (entry_of_ok _ _ _ _ _ _ _ _ _ HP1 Hb). eexists. split_and!; [done | | by cbn [set frames]].
  assert (HP2 : pagemap (set s1 (Entry (slot b x)) e) F (n, p) 0 (<[(n, 512 * p + x) := e]> M)).
  { split; [| apply HP1 | intros a i y Ha Hy; rewrite <- (pm_rest _ _ _ _ _ HP1 a i y) by done; by eapply rest_upd].
    pose proof (tree_leaf lo hi W _ _ _ _ _ _ _ b x e (pm_tree _ _ _ _ _ HP1) Hn Hb Hx Hno ltac:(naive_solver)) as HT. rewrite Ew1, (z2b_nonzero e He) in HT.
    replace (1 - b2z (z2b (words s (slot b x))) + b2z (z2b (words s (slot b x))) - b2z true) with 0 in HT by (cbn [b2z]; lia). done. }
  eapply pagemap_refocus; [done|]. intros b1 E _. simplify_eq. apply (nz_pos _ _ x Hx). cbn [set words]. by rewrite Z.eqb_refl.
Qed.

(** ** Tables and mappings *)

Lemma table_up s F k d M m p b j : pagemap s F k d M -> F !! (m, p) = Some b -> m <= j <= 4 -> is_Some (F !! (j, p / 512 ^ (j - m))).
Proof.
  intros HP Hb [Hm Hj]. replace j with (m + (j - m)) in Hj |- * by lia. revert Hj. generalize (j - m) (Z.le_0_sub m j). intros i Hi. assert (0 <= i) as Hi0 by naive_solver. clear Hi.
  replace (m + i - m) with i by lia. revert i Hi0. apply (natlike_ind (fun i => m + i <= 4 -> is_Some (F !! (m + i, p / 512 ^ i)))).
  - intros _. rewrite Z.add_0_r, Z.div_1_r. by exists b.
  - intros i Hi IH Hj. destruct (IH ltac:(lia)) as [b1 Hb1]. destruct (t_parent _ _ _ _ _ _ _ _ _ (pm_tree _ _ _ _ _ HP) _ _ _ Hb1 ltac:(lia)) as (b2 & Hb2 & _). exists b2.
    rewrite Z.div_div in Hb2 by lia. rewrite Z.pow_succ_r by done. replace (m + Z.succ i) with (m + i + 1) by lia. by rewrite Z.mul_comm.
Qed.

(** A mapping lies in a table. *)
Lemma mapping_table s F k d M m q e : pagemap s F k d M -> M !! (m, q) = Some e -> 1 <= m <= 3 /\ exists b, F !! (m, q / 512) = Some b /\ e = words s (slot b (q mod 512)) /\ e <> 0 /\ (m = 1 \/ z2b (Z.land e VMM_PAGE_FLAG_LARGE) = true).
Proof.
  intros HP E. rewrite (t_shows _ _ _ _ _ _ _ _ _ (pm_tree _ _ _ _ _ HP)) in E. unfold leaf in E. destruct ((1 <=? m) && (m <=? 3)) eqn:Hm; [| done]. apply andb_true_iff in Hm as [H1%Z.leb_le H2%Z.leb_le].
  destruct (F !! (m, q / 512)) as [b |]; [| done]. cbn [mbind option_bind] in E. destruct (z2b (words s (slot b (q mod 512)))) eqn:Ez; [| done]. cbn [andb] in E. apply z2b_true in Ez.
  destruct ((m =? 1) || z2b (Z.land (words s (slot b (q mod 512))) VMM_PAGE_FLAG_LARGE)) eqn:El; [| done]. injection E as <-. split; [done|]. exists b. split_and!; [done | done | done |].
  apply orb_true_iff in El as [?%Z.eqb_eq | ?]; [by left | by right].
Qed.

(** No table is kept without a mapping below it. *)
Lemma table_needed s F k d M n p b : pagemap s F k d M -> F !! (n, p) = Some b -> n < 4 -> n < fst k -> exists m q, 1 <= m <= n /\ q / 512 ^ (n - m + 1) = p /\ is_Some (M !! (m, q)).
Proof.
  intros HP. assert (Hlev : forall n p b, F !! (n, p) = Some b -> 1 <= n) by (intros n0 p0 b0 E; by destruct (t_level _ _ _ _ _ _ _ _ _ (pm_tree _ _ _ _ _ HP) _ _ _ E) as [[? ?] _]).
  intros Hb Hn Hk. pose proof (Hlev _ _ _ Hb) as H1n. revert Hn Hk p b Hb. replace n with (n - 1 + 1) by lia. generalize (n - 1) (proj2 (Z.le_0_sub 1 n) H1n). clear n H1n.
  apply (natlike_ind (fun j => j + 1 < 4 -> j + 1 < fst k -> forall p b, F !! (j + 1, p) = Some b -> exists m q, 1 <= m <= j + 1 /\ q / 512 ^ (j + 1 - m + 1) = p /\ is_Some (M !! (m, q)))).
  - intros _ Hk p b Hb. pose proof (t_full _ _ _ _ _ _ _ _ _ (pm_tree _ _ _ _ _ HP) _ _ _ Hb ltac:(lia) ltac:(intros E; rewrite <- E in Hk; cbn in Hk; lia)) as Hf. destruct (nz_some _ _ Hf) as (x & Hx & Hw).
    exists 1, (512 * p + x). split_and!; [lia | lia | |]. { change (512 ^ (0 + 1 - 1 + 1)) with 512. by apply div_512. }
    pose proof (table_slot_word _ _ _ _ _ _ _ _ x HP Hb ltac:(lia) Hx) as Ew. change (0 + 1) with 1 in *. destruct (F !! (1 - 1, 512 * p + x)) as [b1 |] eqn:E; [by apply Hlev in E|]. rewrite (Ew eq_refl) in Hw.
    destruct (M !! (1, 512 * p + x)) as [e |]; [by exists e | done].
  - intros j Hj IH Hn Hk p b Hb. pose proof (t_full _ _ _ _ _ _ _ _ _ (pm_tree _ _ _ _ _ HP) _ _ _ Hb ltac:(lia) ltac:(intros E; rewrite <- E in Hk; cbn in Hk; lia)) as Hf. destruct (nz_some _ _ Hf) as (x & Hx & Hw).
    destruct (entry_cases _ _ _ _ _ _ _ _ x HP Hb ltac:(lia) Hx ltac:(intros ?; lia)) as [(Ez & _) | [(_ & _ & _ & _ & E) | (b' & c & Hb' & _)]]; [done | |].
    + exists (Z.succ j + 1), (512 * p + x). split_and!; [lia | lia | | by eexists]. replace (Z.succ j + 1 - (Z.succ j + 1) + 1) with 1 by lia. change (512 ^ 1) with 512. by apply div_512.
    + replace (Z.succ j + 1 - 1) with (j + 1) in Hb' by lia. destruct (IH ltac:(lia) ltac:(lia) _ _ Hb') as (m & q & Hm & Hq & HM). exists m, q. split_and!; [lia | lia | | done].
      replace (Z.succ j + 1 - m + 1) with (j + 1 - m + 1 + 1) by lia. rewrite Z.pow_add_r, <- Z.div_div, Hq by lia. change (512 ^ 1) with 512. by apply div_512.
Qed.

(** ** Mapping a page *)

Definition level_of (flags : Z) : Z :=
  if z2b (Z.land flags VMM_PAGE_FLAG_EXTRA_LARGE) then 3 else if z2b (Z.land flags VMM_PAGE_FLAG_LARGE) then 2 else 1.

Definition page_size (n : Z) : Z := 2 ^ (12 + 9 * (n - 1)).

Definition mapping_word (pa flags : Z) : Z :=
  if level_of flags =? 1 then leaf_entry pa flags else Z.lor (leaf_entry pa flags) VMM_PAGE_FLAG_LARGE.

(** Smaller pages inside of the page of [va] at level [n]. *)
Definition smaller M (n va : Z) : Prop := exists m q, 1 <= m < n /\ q / 512 ^ (n - m) = pn n va /\ is_Some (M !! (m, q)).

Definition map_allowed M (pa va flags : Z) : Prop :=
  let n := level_of flags in
  pa mod page_size n = 0 /\ va mod page_size n = 0 /\ (forall e, M !! (n, pn n va) = Some e -> Z.testbit e 0 = false) /\ ~ smaller M n va.

Lemma align_test x m : 0 <= m < 64 -> 0 <= x < 2 ^ 64 -> Z.land x (u64 (- 2 ^ m)) = x - x mod 2 ^ m.
Proof.
  intros Hm Hx. assert (Hp : 0 < 2 ^ m < 2 ^ 64) by (split; [lia | apply Z.pow_lt_mono_r; lia]).
  replace (u64 (- 2 ^ m)) with (Z.shiftl (Z.ones (64 - m)) m).
  - rewrite land_field by lia. rewrite Z.mod_small.
    + rewrite (Z.mod_eq x (2 ^ m)) by lia. lia.
    + split; [apply Z.div_pos; lia|]. apply Z.div_lt_upper_bound; [lia|]. rewrite <- Z.pow_add_r by lia. replace (m + (64 - m)) with 64 by lia. lia.
  - rewrite Z.shiftl_mul_pow2, Z.ones_equiv by lia. unfold u64, wrap. rewrite Z.mod_opp_l_nz by (rewrite ?Z.mod_small; lia). rewrite Z.mod_small by lia.
    replace (Z.pred (2 ^ (64 - m)) * 2 ^ m) with (2 ^ (64 - m) * 2 ^ m - 2 ^ m) by lia. rewrite <- Z.pow_add_r by lia. do 2 f_equal. lia.
Qed.

Lemma aligned_test x n : 1 <= n <= 3 -> 0 <= x < 2 ^ 64 -> (Z.land x (u64 (- page_size n)) =? x) = (x mod page_size n =? 0).
Proof.
  intros Hn Hx. unfold page_size. rewrite align_test by (done || lia). destruct (Z.eqb_spec (x mod 2 ^ (12 + 9 * (n - 1))) 0); [apply Z.eqb_eq; lia | apply Z.eqb_neq; lia].
Qed.

Lemma get_child_va s F n va M b m : pagemap s F (n, pn (n + 1) va) 0 M -> F !! (n, pn (n + 1) va) = Some b -> 1 < n <= 4 -> owned lo hi n (index n va) -> M !! (n, pn n va) = None -> serves_n (S m) (frames s) ->
  exists s' F' b', _get_child_table s (ptr F (n, pn (n + 1) va)) (index n va) true = Some (s', Some (ptr F' (n - 1, pn n va))) /\ pagemap s' F' (n - 1, pn n va) 0 M /\
    F' !! (n - 1, pn n va) = Some b' /\ serves_n m (frames s').
Proof. intros HP Hb Hn Ho HM Hs. rewrite (pn_split n) in HM |- * by lia. eapply get_child_ok; eauto; try lia. apply index_range. lia. Qed.

(** The last step of every size. *)
Lemma map_at_level s F n va M b e : pagemap s F (n, pn (n + 1) va) 0 M -> F !! (n, pn (n + 1) va) = Some b -> 1 <= n <= 3 -> e <> 0 -> (n = 1 \/ z2b (Z.land e VMM_PAGE_FLAG_LARGE) = true) ->
  ((forall e0, M !! (n, pn n va) = Some e0 -> Z.testbit e0 0 = false) -> F !! (n - 1, pn n va) = None ->
    exists s', map_entry s (ptr F (n, pn (n + 1) va)) (index n va) e = Some s' /\ pagemap s' F (4, 0) 0 (<[(n, pn n va) := e]> M) /\ frames s' = frames s) /\
  ((exists e0, M !! (n, pn n va) = Some e0 /\ Z.testbit e0 0 = true) \/ F !! (n - 1, pn n va) <> None -> map_entry s (ptr F (n, pn (n + 1) va)) (index n va) e = None).
Proof.
  intros HP Hb Hn He HL. pose proof (index_range n va ltac:(lia)) as Hx. rewrite (pn_split n) by lia. split.
  - intros Hp Hno. destruct (map_entry_ok _ _ _ _ _ _ (index n va) e HP Hb ltac:(lia) Hx Hno He HL Hp) as (s' & E & HP' & Ef). eauto.
  - intros Hc. unfold map_entry. rewrite (entry_of_ok _ _ _ _ _ _ _ _ _ HP Hb). cbn [get]. change VMM_PAGE_FLAG_PRESENT with (2 ^ 0). rewrite bit_test by lia.
    replace (Z.testbit (words s (slot b (index n va))) 0) with true; [done|]. symmetry. destruct (F !! (n - 1, 512 * pn (n + 1) va + index n va)) as [b' |] eqn:Hb'.
    + destruct (entry_cases _ _ _ _ _ _ _ _ (index n va) HP Hb) as [(_ & E & _) | [(_ & _ & _ & E & _) | (b1 & c & E & Ht & _)]]; [ | done | intros ?; lia | congruence | congruence |].
      * destruct (t_level _ _ _ _ _ _ _ _ _ (pm_tree _ _ _ _ _ HP) _ _ _ Hb'). lia.
      * pose proof (entry_present _ _ _ (t_frame _ _ _ _ _ _ _ _ _ (pm_tree _ _ _ _ _ HP) _ _ _ E) Ht) as Hpr. change VMM_PAGE_FLAG_PRESENT with (2 ^ 0) in Hpr. by rewrite bit_test in Hpr by lia.
    + destruct Hc as [(e0 & E0 & Hbit) | Hc]; [| done]. rewrite (table_slot_word _ _ _ _ _ _ _ _ _ HP Hb ltac:(lia) Hx Hb'), E0. done.
Qed.

(** Smaller pages mean a table. *)
Lemma smaller_table s F k d M n va b : pagemap s F k d M -> F !! (n, pn (n + 1) va) = Some b -> 1 <= n <= 3 -> smaller M n va -> F !! (n - 1, pn n va) <> None.
Proof.
  intros HP Hb Hn (m & q & Hm & Hq & [e He]). destruct (mapping_table _ _ _ _ _ _ _ _ HP He) as (_ & b1 & Hb1 & _). destruct (table_up _ _ _ _ _ _ _ _ (n - 1) HP Hb1 ltac:(lia)) as [b2 Hb2].
  rewrite Z.div_div in Hb2 by lia. change 512 with (512 ^ 1) in Hb2 at 1. rewrite <- Z.pow_add_r in Hb2 by lia. replace (1 + (n - 1 - m)) with (n - m) in Hb2 by lia. by rewrite <- Hq, Hb2.
Qed.

Lemma no_smaller_no_table s F k d M n va : pagemap s F k d M -> n <= fst k -> 1 <= n <= 3 -> ~ smaller M n va -> F !! (n - 1, pn n va) = None.
Proof.
  intros HP Hk Hn Hs. destruct (F !! (n - 1, pn n va)) as [b |] eqn:E; [| done]. exfalso. apply Hs. destruct (table_needed _ _ _ _ _ _ _ _ HP E ltac:(lia) ltac:(lia)) as (m & q & Hm & Hq & HM).
  exists m, q. split_and!; [lia | lia | | done]. by replace (n - 1 - m + 1) with (n - m) in Hq by lia.
Qed.

Lemma no_top_mapping s F k d M q : pagemap s F k d M -> M !! (4, q) = None.
Proof. intros HP. by rewrite (t_shows _ _ _ _ _ _ _ _ _ (pm_tree _ _ _ _ _ HP)). Qed.

Lemma lor_large x : z2b (Z.land (Z.lor x VMM_PAGE_FLAG_LARGE) VMM_PAGE_FLAG_LARGE) = true.
Proof. change VMM_PAGE_FLAG_LARGE with (2 ^ 7). rewrite bit_test, Z.lor_spec, Z.pow2_bits_true by lia. apply orb_true_r. Qed.

Lemma lor_large_nonzero x : Z.lor x VMM_PAGE_FLAG_LARGE <> 0.
Proof. intros E. apply Z.lor_eq_0_iff in E as [_ E]. done. Qed.

(** At the level of the page, after the tables above it are there. *)
Lemma map_finish s F n va M b pa flags e : pagemap s F (n, pn (n + 1) va) 0 M -> F !! (n, pn (n + 1) va) = Some b -> level_of flags = n -> 0 <= pa < 2 ^ 64 -> 0 <= va < 2 ^ 64 ->
  e <> 0 -> (n = 1 \/ z2b (Z.land e VMM_PAGE_FLAG_LARGE) = true) ->
  let r := if negb (Z.land pa (u64 (- page_size n)) =? pa) || negb (Z.land va (u64 (- page_size n)) =? va) then None
           else map_entry s (ptr F (n, pn (n + 1) va)) (index n va) e in
  (map_allowed M pa va flags -> exists s' F', r = Some s' /\ pagemap s' F' (4, 0) 0 (<[(n, pn n va) := e]> M) /\ frames s' = frames s) /\ (~ map_allowed M pa va flags -> r = None).
Proof.
  intros HP Hb Hlev Hpa Hva He HL r. assert (Hn : 1 <= n <= 3) by (unfold level_of in Hlev; destruct (z2b _); [lia | destruct (z2b _); lia]).
  unfold r, map_allowed. rewrite Hlev, !aligned_test by lia. destruct (map_at_level s F n va M b e HP Hb Hn He HL) as [Hyes Hnot].
  destruct (Z.eqb_spec (pa mod page_size n) 0) as [E1 |]; [| split; [naive_solver | done]]. destruct (Z.eqb_spec (va mod page_size n) 0) as [E2 |]; [| split; [naive_solver | done]]. cbn [negb orb]. split.
  - intros (_ & _ & Hp & Hs). destruct (Hyes Hp) as (s' & E & HP' & Ef); [eapply no_smaller_no_table; [exact HP | cbn; lia | lia | done]|]. eauto.
  - intros Hno. apply Hnot. destruct (F !! (n - 1, pn n va)) as [b1 |] eqn:Hb1; [by right | left]. destruct (M !! (n, pn n va)) as [e0 |].
    + exists e0. split; [done|]. destruct (Z.testbit e0 0) eqn:Eb; [done|]. exfalso. apply Hno. split_and!; [done | done | naive_solver |]. intros Hs. by eapply smaller_table.
    + exfalso. apply Hno. split_and!; [done | done | done |]. intros Hs. by eapply smaller_table.
Qed.

Lemma serves_after (j : nat) s (r : option (vmm_t P)) (Q : Prop) (M : gmap key Z) (U : Prop) : serves_n j (frames s) ->
  (Q -> exists s' F', r = Some s' /\ pagemap s' F' (4, 0) 0 M /\ frames s' = frames s) /\ U -> (Q -> exists s' F', r = Some s' /\ pagemap s' F' (4, 0) 0 M /\ serves_n j (frames s')) /\ U.
Proof. intros Hs [HQ HU]. split; [| done]. intros HQ'. destruct (HQ HQ') as (s' & F' & E & HP & Ef). exists s', F'. by rewrite Ef. Qed.

(** A smaller page is not mapped inside of a larger one, which the code does not
    check. *)
Lemma map_page_ok s F M pa va flags (j : nat) : pagemap s F (4, 0) 0 M -> 0 <= pa < 2 ^ 64 -> 0 <= va < 2 ^ 64 -> lo <= pn 4 va < hi ->
  mapping_word pa flags <> 0 -> (forall m, level_of flags < m <= 3 -> M !! (m, pn m va) = None) -> serves_n (3 + j) (frames s) ->
  let n := level_of flags in
  (map_allowed M pa va flags -> exists s' F', vmm_map_page s pa va flags = Some s' /\ pagemap s' F' (4, 0) 0 (<[(n, pn n va) := mapping_word pa flags]> M) /\ serves_n j (frames s')) /\
  (~ map_allowed M pa va flags -> vmm_map_page s pa va flags = None).
Proof.
  intros HP Hpa Hva Hown He Hbig Hserve n. pose proof (t_top _ _ _ _ _ _ _ _ _ (pm_tree _ _ _ _ _ HP)) as Ht. replace (4, 0) with (4, pn (4 + 1) va) in Ht, HP by (f_equal; apply pn_top).
  destruct (get_child_va s F 4 va M _ (2 + j) HP Ht ltac:(lia) ltac:(intros _; by rewrite <- pn_index) (no_top_mapping _ _ _ _ _ _ HP) Hserve) as (s3 & F3 & b3 & E3 & HP3 & Hb3 & Hs3).
  change (4 - 1) with 3 in *. change (ptr F (4, pn (4 + 1) va)) with Toplevel in E3. unfold vmm_map_page. rewrite E3. cbn [mbind option_bind]. unfold mapping_word in *. unfold n, level_of in Hbig, He |- *.
  destruct (z2b (Z.land flags VMM_PAGE_FLAG_EXTRA_LARGE)) eqn:Ex.
  { apply (serves_after _ s3 _ _ _ _ (serves_less _ _ (serves_less _ _ Hs3))).
    apply (map_finish s3 F3 3 va M b3); [done | done | unfold level_of; by rewrite Ex | done | done | apply lor_large_nonzero | right; apply lor_large]. }
  destruct (get_child_va s3 F3 3 va M b3 (1 + j) HP3 Hb3 ltac:(lia) ltac:(intros ?; lia) (Hbig 3 ltac:(destruct (z2b (Z.land flags VMM_PAGE_FLAG_LARGE)); lia)) Hs3) as (s2 & F2 & b2 & E2 & HP2 & Hb2 & Hs2).
  change (3 - 1) with 2 in *. change (3 + 1) with 4 in *. rewrite E2. cbn [mbind option_bind]. destruct (z2b (Z.land flags VMM_PAGE_FLAG_LARGE)) eqn:El.
  { apply (serves_after _ s2 _ _ _ _ (serves_less _ _ Hs2)).
    apply (map_finish s2 F2 2 va M b2); [done | done | unfold level_of; by rewrite Ex, El | done | done | apply lor_large_nonzero | right; apply lor_large]. }
  destruct (get_child_va s2 F2 2 va M b2 j HP2 Hb2 ltac:(lia) ltac:(intros ?; lia) (Hbig 2 ltac:(lia)) Hs2) as (s1 & F1 & b1 & E1 & HP1 & Hb1 & Hs1).
  change (2 - 1) with 1 in *. change (2 + 1) with 3 in *. rewrite E1. cbn [mbind option_bind].
  apply (serves_after _ s1 _ _ _ _ Hs1). apply (map_finish s1 F1 1 va M b1); [done | done | unfold level_of; by rewrite Ex, El | done | done | exact He | by left].
Qed.

(** ** Removing a page *)

Lemma pn_ups m n va : 1 <= m <= n -> pn n va = pn m va / 512 ^ (n - m).
Proof.
  intros Hm. unfold pn. change 512 with (2 ^ 9). rewrite <- Z.pow_mul_r by lia. rewrite Z.div_div, <- Z.pow_add_r by lia. do 2 f_equal. lia.
Qed.

(** Without a table there is nothing below. *)
Lemma nothing_below s F k d M n m va : pagemap s F k d M -> F !! (n, pn (n + 1) va) = None -> 1 <= m <= n -> n <= 4 -> M !! (m, pn m va) = None.
Proof.
  intros HP Hno Hm Hn. destruct (M !! (m, pn m va)) as [e |] eqn:E; [| done]. destruct (mapping_table _ _ _ _ _ _ _ _ HP E) as (_ & b & Hb & _).
  destruct (table_up _ _ _ _ _ _ _ _ n HP Hb ltac:(lia)) as [b1 Hb1]. rewrite <- pn_up in Hb1 by lia. replace (n - m) with (n + 1 - (m + 1)) in Hb1 by lia. rewrite <- pn_ups in Hb1 by lia. congruence.
Qed.

Lemma decrease_ok s F n p M b : pagemap s F (n, p) 1 M -> F !! (n, p) = Some b -> n < 4 ->
  exists s' (freed : bool), _decrease_length s (ptr F (n, p)) = Some (s', freed) /\
    if freed then pagemap s' (delete (n, p) F) (n + 1, p / 512) 1 M else pagemap s' F (4, 0) 0 M.
Proof.
  intros HP Hb Hn. pose proof (pm_tree _ _ _ _ _ HP) as HT. pose proof (t_frame _ _ _ _ _ _ _ _ _ HT _ _ _ Hb) as Fb. pose proof (get_ptr _ _ _ _ _ _ _ HP Hn Hb) as He. pose proof (nz_range (words s) b) as Hr.
  unfold _decrease_length. rewrite (entry_present _ _ _ Fb He). cbn [negb]. change (Z.shiftl 1 VMM_PAGE_COUNT_SHIFT) with (1 * 2 ^ 52).
  assert (He1 : table_entry (u64 (get s (ptr F (n, p)) - 1 * 2 ^ 52)) b (nz (words s) b + 0)).
  { replace (get s (ptr F (n, p)) - 1 * 2 ^ 52) with (get s (ptr F (n, p)) + (-1) * 2 ^ 52) by lia. replace (nz (words s) b + 0) with (nz (words s) b + 1 + -1) by lia. apply entry_shift; [done | done | lia]. }
  pose proof (pagemap_count _ _ _ _ _ _ _ _ 0 HP Hn Hb He1) as HP1. set (s1 := set s (ptr F (n, p)) _) in *.
  pose proof (get_ptr _ _ _ _ _ _ _ HP1 Hn Hb) as He2. rewrite Z.add_0_r in He2. rewrite (entry_count _ _ _ Fb He2), (entry_frame _ _ _ Fb He2).
  pose proof (nz_range (words s1) b) as Hr1. destruct (Z.eq_dec (nz (words s1) b) 0) as [Ez | Hnz].
  - rewrite Ez. change (z2b (0 * 2 ^ 52)) with false. cbn match. destruct (pm_held _ _ _ _ _ HP1) as (B & HB & Hh).
    assert (Hin : (b, 0) ∈ B) by (rewrite HB; apply elem_of_app; left; by eapply blocks_elem). apply list_elem_of_split in Hin as (B1 & B2 & ->).
    destruct (page_dealloc_law _ _ _ _ _ Hh) as (p' & E & Hh'). change (2 ^ 0) with 1 in E. unfold dealloc_table. rewrite E. cbn [mbind option_bind]. do 2 eexists. split; [done|]. cbn match.
    destruct (t_parent _ _ _ _ _ _ _ _ _ (pm_tree _ _ _ _ _ HP1) _ _ _ Hb Hn) as (b' & Hb' & _). unfold ptr. cbn [fst snd]. destruct (Z.eqb_spec n 4); [lia|]. rewrite Hb'. split.
    + cbn [set words toplevel]. by eapply tree_free; [apply HP1 | ..].
    + cbn [set frames]. exists (B1 ++ B2). split; [| done]. apply (Permutation_cons_inv (a := (b, 0))). rewrite Permutation_middle, HB. by rewrite (blocks_delete F (n, p) b).
    + intros a i x Ha Hx. cbn [set words]. rewrite <- (pm_rest _ _ _ _ _ HP1 a i x) by done. by eapply rest_upd.
  - rewrite z2b_nonzero by lia. do 2 eexists. split; [done|]. cbn match. eapply pagemap_refocus; [done|]. intros b1 E _. simplify_eq. lia.
Qed.

Lemma decrease_then_ok s F n p M b next : pagemap s F (n, p) 1 M -> F !! (n, p) = Some b -> n < 4 ->
  (forall s', pagemap s' (delete (n, p) F) (n + 1, p / 512) 1 M -> exists s2 F2, next s' = Some s2 /\ pagemap s2 F2 (4, 0) 0 M) ->
  exists s2 F2, decrease_then s (ptr F (n, p)) next = Some s2 /\ pagemap s2 F2 (4, 0) 0 M.
Proof.
  intros HP Hb Hn Hnext. destruct (decrease_ok _ _ _ _ _ _ HP Hb Hn) as (s' & freed & E & HP'). unfold decrease_then. rewrite E. cbn [mbind option_bind]. destruct freed; [by apply Hnext | eauto].
Qed.

Lemma ptr_delete F n p : ptr (delete (n, p) F) (n + 1, p / 512) = ptr F (n + 1, p / 512).
Proof. unfold ptr. cbn [fst snd]. rewrite lookup_delete_ne; [done|]. intros [=]. lia. Qed.

Lemma decrease_top s F M : pagemap s F (3 + 1, 0) 1 M -> exists s2 F2, Some s = Some s2 /\ pagemap s2 F2 (4, 0) 0 M.
Proof. intros []. exists s, F. split; [done|]. split; [by eapply tree_top_any | done | done]. Qed.

(** The chain of tables from level [n] up. *)
Lemma parent_in s F k d M n p b : pagemap s F k d M -> F !! (n, p) = Some b -> n < 4 -> exists b', F !! (n + 1, p / 512) = Some b'.
Proof. intros HP Hb Hn. destruct (t_parent _ _ _ _ _ _ _ _ _ (pm_tree _ _ _ _ _ HP) _ _ _ Hb Hn) as (b' & E & _). eauto. Qed.

Lemma decrease3 s F p M b : pagemap s F (3, p) 1 M -> F !! (3, p) = Some b -> exists s2 F2, decrease_then s (ptr F (3, p)) Some = Some s2 /\ pagemap s2 F2 (4, 0) 0 M.
Proof.
  intros HP Hb. eapply decrease_then_ok; [done | done | lia |]. intros s' HP'. destruct (parent_in _ _ _ _ _ _ _ _ HP Hb ltac:(lia)) as [b' Hb'].
  destruct (t_level _ _ _ _ _ _ _ _ _ (pm_tree _ _ _ _ _ HP) _ _ _ Hb') as [_ E]. rewrite (E eq_refl) in HP'. by eapply decrease_top.
Qed.

Lemma decrease2 s F p M b : pagemap s F (2, p) 1 M -> F !! (2, p) = Some b ->
  exists s2 F2, decrease_then s (ptr F (2, p)) (fun s => decrease_then s (ptr F (3, p / 512)) Some) = Some s2 /\ pagemap s2 F2 (4, 0) 0 M.
Proof.
  intros HP Hb. eapply decrease_then_ok; [done | done | lia |]. intros s' HP'. destruct (parent_in _ _ _ _ _ _ _ _ HP Hb ltac:(lia)) as [b' Hb'].
  pose proof (ptr_delete F 2 p) as E. change (2 + 1) with 3 in *. rewrite <- E. eapply decrease3; [done|]. rewrite lookup_delete_ne by (intros [=]). done.
Qed.

Lemma decrease1 s F p M b : pagemap s F (1, p) 1 M -> F !! (1, p) = Some b ->
  exists s2 F2, decrease_then s (ptr F (1, p)) (fun s => decrease_then s (ptr F (2, p / 512)) (fun s => decrease_then s (ptr F (3, p / 512 / 512)) Some)) = Some s2 /\ pagemap s2 F2 (4, 0) 0 M.
Proof.
  intros HP Hb. eapply decrease_then_ok; [done | done | lia |]. intros s' HP'. destruct (parent_in _ _ _ _ _ _ _ _ HP Hb ltac:(lia)) as [b' Hb'].
  pose proof (ptr_delete F 1 p) as E. change (1 + 1) with 2 in *. rewrite <- E. replace (ptr F (3, p / 512 / 512)) with (ptr (delete (1, p) F) (3, p / 512 / 512)).
  - eapply decrease2; [done|]. rewrite lookup_delete_ne by (intros [=]). done.
  - unfold ptr. cbn [fst snd]. rewrite lookup_delete_ne; [done|]. intros [=].
Qed.

(** ** Walking down *)

(** The mapping of an address, with its level. *)
Definition mapped M (va : Z) : option (Z * Z) :=
  match M !! (3, pn 3 va), M !! (2, pn 2 va), M !! (1, pn 1 va) with
  | Some e, _, _ => Some (3, e)
  | None, Some e, _ => Some (2, e)
  | None, None, Some e => Some (1, e)
  | None, None, None => None
  end.

(** The ways a walk ends; [e] is the entry read last, [b] its table. *)
Inductive walk s F M (va : Z) : Prop :=
| walk_none4 : find_child_table s Toplevel (index 4 va) = None -> mapped M va = None -> walk s F M va
| walk_large3 b e : let pml3 := ptr F (3, pn 4 va) in
    find_child_table s Toplevel (index 4 va) = Some pml3 -> F !! (3, pn 4 va) = Some b -> entry_of s pml3 (index 3 va) = Entry (slot b (index 3 va)) ->
    e = words s (slot b (index 3 va)) -> z2b (Z.land e VMM_PAGE_FLAG_LARGE) = true -> mapped M va = Some (3, e) -> walk s F M va
| walk_none3 b e : let pml3 := ptr F (3, pn 4 va) in
    find_child_table s Toplevel (index 4 va) = Some pml3 -> entry_of s pml3 (index 3 va) = Entry (slot b (index 3 va)) ->
    e = words s (slot b (index 3 va)) -> z2b (Z.land e VMM_PAGE_FLAG_LARGE) = false -> find_child_table s pml3 (index 3 va) = None -> mapped M va = None -> walk s F M va
| walk_large2 b' b e' e : let pml3 := ptr F (3, pn 4 va) in let pml2 := ptr F (2, pn 3 va) in
    find_child_table s Toplevel (index 4 va) = Some pml3 -> entry_of s pml3 (index 3 va) = Entry (slot b' (index 3 va)) ->
    e' = words s (slot b' (index 3 va)) -> z2b (Z.land e' VMM_PAGE_FLAG_LARGE) = false -> find_child_table s pml3 (index 3 va) = Some pml2 ->
    F !! (2, pn 3 va) = Some b -> entry_of s pml2 (index 2 va) = Entry (slot b (index 2 va)) ->
    e = words s (slot b (index 2 va)) -> z2b (Z.land e VMM_PAGE_FLAG_LARGE) = true -> mapped M va = Some (2, e) -> walk s F M va
| walk_none2 b' b e' e : let pml3 := ptr F (3, pn 4 va) in let pml2 := ptr F (2, pn 3 va) in
    find_child_table s Toplevel (index 4 va) = Some pml3 -> entry_of s pml3 (index 3 va) = Entry (slot b' (index 3 va)) ->
    e' = words s (slot b' (index 3 va)) -> z2b (Z.land e' VMM_PAGE_FLAG_LARGE) = false -> find_child_table s pml3 (index 3 va) = Some pml2 ->
    entry_of s pml2 (index 2 va) = Entry (slot b (index 2 va)) ->
    e = words s (slot b (index 2 va)) -> z2b (Z.land e VMM_PAGE_FLAG_LARGE) = false -> find_child_table s pml2 (index 2 va) = None -> mapped M va = None -> walk s F M va
| walk_leaf b' b2 b e' e2 e : let pml3 := ptr F (3, pn 4 va) in let pml2 := ptr F (2, pn 3 va) in let pml1 := ptr F (1, pn 2 va) in
    find_child_table s Toplevel (index 4 va) = Some pml3 -> entry_of s pml3 (index 3 va) = Entry (slot b' (index 3 va)) ->
    e' = words s (slot b' (index 3 va)) -> z2b (Z.land e' VMM_PAGE_FLAG_LARGE) = false -> find_child_table s pml3 (index 3 va) = Some pml2 ->
    entry_of s pml2 (index 2 va) = Entry (slot b2 (index 2 va)) ->
    e2 = words s (slot b2 (index 2 va)) -> z2b (Z.land e2 VMM_PAGE_FLAG_LARGE) = false -> find_child_table s pml2 (index 2 va) = Some pml1 ->
    F !! (1, pn 2 va) = Some b -> entry_of s pml1 (index 1 va) = Entry (slot b (index 1 va)) ->
    e = words s (slot b (index 1 va)) -> mapped M va = (if z2b e then Some (1, e) else None) -> walk s F M va.

(** One step of a walk. *)
Lemma step_cases s F k d M n va b : pagemap s F k d M -> F !! (n, pn (n + 1) va) = Some b -> 1 < n <= 4 -> owned lo hi n (index n va) ->
  let table := ptr F (n, pn (n + 1) va) in
  let e := words s (slot b (index n va)) in
  entry_of s table (index n va) = Entry (slot b (index n va)) /\
  ((find_child_table s table (index n va) = None /\ e = 0 /\ forall m, 1 <= m <= n -> M !! (m, pn m va) = None) \/
   (n < 4 /\ z2b (Z.land e VMM_PAGE_FLAG_LARGE) = true /\ M !! (n, pn n va) = Some e) \/
   (exists b', find_child_table s table (index n va) = Some (ptr F (n - 1, pn n va)) /\ F !! (n - 1, pn n va) = Some b' /\ z2b (Z.land e VMM_PAGE_FLAG_LARGE) = false /\ M !! (n, pn n va) = None)).
Proof.
  intros HP Hb Hn Ho table e. pose proof (entry_of_ok _ _ _ _ _ _ _ _ (index n va) HP Hb) as Ee. split; [done|]. unfold find_child_table. fold table in Ee. rewrite Ee. cbn [get]. fold e.
  pose proof (index_range n va ltac:(lia)) as Hx. pose proof (entry_cases _ _ _ _ _ _ _ _ _ HP Hb ltac:(lia) Hx Ho) as Hc. rewrite <- (pn_split n) in Hc by lia. fold e in Hc.
  destruct Hc as [(Ez & Hno & HM) | [(H4 & HL & _ & _ & HM) | (b' & c & Hb' & He & HM)]]; [left | right; left | right; right].
  - rewrite Ez. split_and!; [done | done |]. intros m Hm. destruct (Z.eq_dec m n) as [-> | Hne]; [done|]. eapply (nothing_below _ _ _ _ _ (n - 1)); [done | | lia | lia]. by replace (n - 1 + 1) with n by lia.
  - by split_and!.
  - pose proof (t_frame _ _ _ _ _ _ _ _ _ (pm_tree _ _ _ _ _ HP) _ _ _ Hb') as Fb'. exists b'. rewrite (z2b_nonzero e) by (by eapply entry_nonzero). split_and!; [| done | by eapply entry_not_large | done].
    rewrite (pn_split n) by lia. by rewrite (ptr_child _ _ _ _ _ Hb) by (done || lia).
Qed.

Lemma walk_ok s F k d M va : pagemap s F k d M -> lo <= pn 4 va < hi -> walk s F M va.
Proof.
  intros HP Hown. pose proof (t_top _ _ _ _ _ _ _ _ _ (pm_tree _ _ _ _ _ HP)) as Ht. replace (4, 0) with (4, pn (4 + 1) va) in Ht by (f_equal; apply pn_top).
  destruct (step_cases _ _ _ _ _ 4 va _ HP Ht ltac:(lia) ltac:(intros _; by rewrite <- pn_index)) as [E4 [(Ef & _ & HM) | [(? & _) | (b3 & Ef4 & Hb3 & _)]]]; [| lia |].
  { apply walk_none4; [done|]. unfold mapped. by rewrite !HM by lia. }
  change (ptr F (4, pn (4 + 1) va)) with Toplevel in *. change (4 - 1) with 3 in *.
  destruct (step_cases _ _ _ _ _ 3 va _ HP Hb3 ltac:(lia) ltac:(intros ?; lia)) as [E3 [(Ef & Ez & HM) | [(_ & HL & HM) | (b2 & Ef3 & Hb2 & HL3 & HM3)]]].
  { apply (walk_none3 _ _ _ _ b3 0); [done | done | done | done | done |]. unfold mapped. by rewrite !HM by lia. }
  { eapply (walk_large3 _ _ _ _ b3 _); [done | done | done | done | done |]. unfold mapped. by rewrite HM. }
  change (3 - 1) with 2 in *. change (3 + 1) with 4 in *.
  destruct (step_cases _ _ _ _ _ 2 va _ HP Hb2 ltac:(lia) ltac:(intros ?; lia)) as [E2 [(Ef & Ez & HM) | [(_ & HL & HM) | (b1 & Ef2 & Hb1 & HL2 & HM2)]]].
  { eapply (walk_none2 _ _ _ _ b3 b2 _ 0); [done | done | done | done | done | done | done | done | done |]. unfold mapped. by rewrite HM3, !HM by lia. }
  { eapply (walk_large2 _ _ _ _ b3 b2); [done | done | done | done | done | done | done | done | done |]. unfold mapped. by rewrite HM3, HM. }
  change (2 - 1) with 1 in *. change (2 + 1) with 3 in *.
  eapply (walk_leaf _ _ _ _ b3 b2 b1); [done | done | done | done | done | done | done | done | done | done | | done |].
  - by apply (entry_of_ok _ _ _ _ _ _ _ _ _ HP Hb1).
  - unfold mapped. rewrite HM3, HM2. pose proof (index_range 1 va ltac:(lia)) as Hx. rewrite (t_shows _ _ _ _ _ _ _ _ _ (pm_tree _ _ _ _ _ HP)). unfold leaf. cbn [Z.leb Z.compare andb].
    rewrite <- (pn_up 1), <- index_pn by lia. change (1 + 1) with 2. rewrite Hb1. cbn [mbind option_bind]. change (1 =? 1) with true. cbn [orb]. rewrite andb_true_r. by destruct (z2b (words s (slot b1 (index 1 va)))).
Qed.

(** ** Lookups *)

(** The physical address of a mapping, 0 without one. *)
Definition translate M (va : Z) : Z :=
  match mapped M va with
  | Some (n, e) => Z.lor (Z.land e VMM_PAGE_ADDRESS_MASK) (va mod page_size n)
  | None => 0
  end.

Lemma mapped_nonzero s F k d M va n e : pagemap s F k d M -> mapped M va = Some (n, e) -> M !! (n, pn n va) = Some e /\ e <> 0 /\ 1 <= n <= 3 /\ (n = 1 \/ z2b (Z.land e VMM_PAGE_FLAG_LARGE) = true).
Proof.
  intros HP E. assert (Hl : M !! (n, pn n va) = Some e).
  { unfold mapped in E. destruct (M !! (3, pn 3 va)) eqn:E3; [by simplify_eq|]. destruct (M !! (2, pn 2 va)) eqn:E2; [by simplify_eq|]. destruct (M !! (1, pn 1 va)) eqn:E1; by simplify_eq. }
  destruct (mapping_table _ _ _ _ _ _ _ _ HP Hl) as (Hn & b & _ & _ & Hnz & HL). done.
Qed.

Lemma land_low va n : 0 <= n -> Z.land va (2 ^ n - 1) = va mod 2 ^ n.
Proof. intros Hn. rewrite <- Z.land_ones by done. by rewrite Z.ones_equiv, Z.sub_1_r. Qed.

Lemma virtual_to_physical_ok s F k d M va : pagemap s F k d M -> lo <= pn 4 va < hi -> vmm_virtual_to_physical s va = translate M va.
Proof.
  intros HP Hown. unfold translate, vmm_virtual_to_physical.
  destruct (walk_ok _ _ _ _ _ va HP Hown) as [E4 Em | b e pml3 E4 Hb3 E3 -> HL Em | b e pml3 E4 E3 -> HL E3' Em | b' b e' e pml3 pml2 E4 E3 -> HL3 E3' Hb2 E2 -> HL Em
    | b' b e' e pml3 pml2 E4 E3 -> HL3 E3' E2 -> HL E2' Em | b' b2 b e' e2 e pml3 pml2 pml1 E4 E3 -> HL3 E3' E2 -> HL2 E2' Hb1 E1 -> Em]; rewrite Em, E4; try done; rewrite E3; cbn [get].
  - rewrite HL. destruct (mapped_nonzero _ _ _ _ _ _ _ _ HP Em) as (_ & Hnz & _). rewrite z2b_nonzero by done. f_equal. by apply (land_low va 30).
  - by rewrite HL, E3'.
  - rewrite HL3, E3', E2. cbn [get]. rewrite HL. destruct (mapped_nonzero _ _ _ _ _ _ _ _ HP Em) as (_ & Hnz & _). rewrite z2b_nonzero by done. f_equal. by apply (land_low va 21).
  - by rewrite HL3, E3', E2; cbn [get]; rewrite HL, E2'.
  - rewrite HL3, E3', E2. cbn [get]. rewrite HL2, E2', E1. cbn [get]. destruct (z2b (words s (slot b (index 1 va)))); [| done]. f_equal. by apply (land_low va 12).
Qed.

(** What [_lookup_virtual_address] points to. *)
Lemma lookup_ok s F k d M va : pagemap s F k d M -> lo <= pn 4 va < hi ->
  match mapped M va with
  | Some (n, e) => exists b, F !! (n, pn (n + 1) va) = Some b /\ _lookup_virtual_address s va = Some (Entry (slot b (index n va))) /\ e = words s (slot b (index n va))
  | None => match _lookup_virtual_address s va with Some table => get s table = 0 | None => True end
  end.
Proof.
  intros HP Hown. unfold _lookup_virtual_address.
  destruct (walk_ok _ _ _ _ _ va HP Hown) as [E4 Em | b e pml3 E4 Hb3 E3 -> HL Em | b e pml3 E4 E3 -> HL E3' Em | b' b e' e pml3 pml2 E4 E3 -> HL3 E3' Hb2 E2 -> HL Em
    | b' b e' e pml3 pml2 E4 E3 -> HL3 E3' E2 -> HL E2' Em | b' b2 b e' e2 e pml3 pml2 pml1 E4 E3 -> HL3 E3' E2 -> HL2 E2' Hb1 E1 -> Em]; rewrite Em, E4; cbn [mbind option_bind]; try done; rewrite E3; cbn [get].
  - rewrite HL. by exists b.
  - by rewrite HL, E3'.
  - rewrite HL3, E3'. cbn [mbind option_bind]. rewrite E2. cbn [get]. rewrite HL. by exists b.
  - rewrite HL3, E3'. cbn [mbind option_bind]. rewrite E2. cbn [get]. by rewrite HL, E2'.
  - rewrite HL3, E3'. cbn [mbind option_bind]. rewrite E2. cbn [get]. rewrite HL2, E2'. cbn [mbind option_bind]. rewrite E1. destruct (z2b (words s (slot b (index 1 va)))) eqn:Ez; [by exists b|]. cbn [get]. by apply z2b_false.
Qed.

(** The pages that a user may access. *)
Definition user_page M (va : Z) : bool := match mapped M va with Some (_, e) => Z.testbit e 2 | None => false end.

Lemma user_accessible_ok s F k d M va : pagemap s F k d M -> lo <= pn 4 va < hi -> user_accessible s va = user_page M va.
Proof.
  intros HP Hown. pose proof (lookup_ok _ _ _ _ _ va HP Hown) as Hl. unfold user_accessible, user_page. destruct (mapped M va) as [[n e] |] eqn:Em.
  - destruct Hl as (b & _ & -> & ->). cbn [get]. destruct (mapped_nonzero _ _ _ _ _ _ _ _ HP Em) as (_ & Hnz & _). rewrite z2b_nonzero by done. by apply (bit_test _ 2).
  - destruct (_lookup_virtual_address s va) as [table |]; [| done]. by rewrite Hl.
Qed.

(** ** Removal *)

(** An entry of the table in focus is emptied. *)
Lemma clear_ok s F M n va b e : pagemap s F (4, 0) 0 M -> F !! (n, pn (n + 1) va) = Some b -> 1 <= n <= 3 -> M !! (n, pn n va) = Some e -> e = words s (slot b (index n va)) ->
  pagemap (set s (Entry (slot b (index n va))) 0) F (n, pn (n + 1) va) 1 (delete (n, pn n va) M).
Proof.
  intros HP Hb Hn HM He. pose proof (index_range n va ltac:(lia)) as Hx. destruct (mapping_table _ _ _ _ _ _ _ _ HP HM) as (_ & _ & _ & _ & Hnz & HL).
  assert (Hno : F !! (n - 1, 512 * pn (n + 1) va + index n va) = None).
  { destruct (Z.eq_dec n 1) as [-> | Hn1].
    - destruct (F !! (1 - 1, 512 * pn (1 + 1) va + index 1 va)) as [b1 |] eqn:E; [| done]. destruct (t_level _ _ _ _ _ _ _ _ _ (pm_tree _ _ _ _ _ HP) _ _ _ E). lia.
    - eapply no_child; [apply HP | done | done | lia |]. right. rewrite <- He. naive_solver. }
  split; [| apply HP | intros a i y Ha Hy; rewrite <- (pm_rest _ _ _ _ _ HP a i y) by done; by eapply rest_upd].
  pose proof (tree_leaf lo hi W _ _ _ _ _ 0 _ b (index n va) 0 (tree_focus _ _ _ _ _ _ _ (n, pn (n + 1) va) (pm_tree _ _ _ _ _ HP)) ltac:(lia) Hb Hx Hno (or_introl eq_refl)) as HT.
  rewrite <- He, (z2b_nonzero e Hnz), <- pn_split in HT by lia. exact HT.
Qed.

Lemma unmap_ok s F M va : pagemap s F (4, 0) 0 M -> lo <= pn 4 va < hi ->
  match mapped M va with
  | Some (n, e) => if va mod page_size n =? 0 then exists s' F', vmm_unmap_page s va = Some (s', e) /\ pagemap s' F' (4, 0) 0 (delete (n, pn n va) M)
                   else vmm_unmap_page s va = Some (s, 0)
  | None => vmm_unmap_page s va = Some (s, 0)
  end.
Proof.
  intros HP Hown. unfold vmm_unmap_page. change (PAGE_SIZE - 1) with (2 ^ 12 - 1). rewrite land_low by lia. change (2 ^ 12) with (page_size 1). destruct (z2b (va mod page_size 1)) eqn:Ea.
  { destruct (mapped M va) as [[n e] |] eqn:Em; [| done]. destruct (mapped_nonzero _ _ _ _ _ _ _ _ HP Em) as (_ & _ & Hn & _). destruct (Z.eqb_spec (va mod page_size n) 0) as [E |]; [| done].
    exfalso. apply z2b_true in Ea. apply Ea. apply Z.mod_divide in E as [q ->]; [| unfold page_size; lia]. replace (page_size n) with (2 ^ (9 * (n - 1)) * page_size 1) by (unfold page_size; rewrite <- Z.pow_add_r by lia; f_equal; lia).
    rewrite Z.mul_assoc. by apply Z.mod_mul. }
  apply z2b_false in Ea. unfold _unmap_page.
  destruct (walk_ok _ _ _ _ _ va HP Hown) as [E4 Em | b e pml3 E4 Hb3 E3 He HL Em | b e pml3 E4 E3 -> HL E3' Em | b' b e' e pml3 pml2 E4 E3 -> HL3 E3' Hb2 E2 He HL Em
    | b' b e' e pml3 pml2 E4 E3 -> HL3 E3' E2 -> HL E2' Em | b' b2 b e' e2 e pml3 pml2 pml1 E4 E3 -> HL3 E3' E2 -> HL2 E2' Hb1 E1 He Em]; rewrite Em, E4; try done; rewrite E3; cbn [get].
  - rewrite <- He, HL. change (EXTRA_LARGE_PAGE_SIZE - 1) with (2 ^ 30 - 1). rewrite land_low by lia. change (2 ^ 30) with (page_size 3).
    destruct (Z.eqb_spec (va mod page_size 3) 0) as [-> | Hne]; [| by rewrite z2b_nonzero]. cbn match. change (z2b 0) with false. cbn match.
    destruct (decrease3 _ _ _ _ b (clear_ok s F M 3 va b e HP Hb3 ltac:(lia) (proj1 (mapped_nonzero _ _ _ _ _ _ _ _ HP Em)) He) Hb3) as (s2 & F2 & E & HP2). change (3 + 1) with 4 in E. fold pml3 in E. rewrite E. by exists s2, F2.
  - by rewrite HL, E3'.
  - rewrite HL3, E3', E2. cbn [get]. rewrite <- He, HL. change (LARGE_PAGE_SIZE - 1) with (2 ^ 21 - 1). rewrite land_low by lia. change (2 ^ 21) with (page_size 2).
    destruct (Z.eqb_spec (va mod page_size 2) 0) as [-> | Hne]; [| by rewrite z2b_nonzero]. cbn match. change (z2b 0) with false. cbn match.
    destruct (decrease2 _ _ _ _ b (clear_ok s F M 2 va b e HP Hb2 ltac:(lia) (proj1 (mapped_nonzero _ _ _ _ _ _ _ _ HP Em)) He) Hb2) as (s2 & F2 & E & HP2).
    change (2 + 1) with 3 in E. rewrite <- (pn_up 3) in E by lia. change (3 + 1) with 4 in E. fold pml2 pml3 in E. rewrite E. by exists s2, F2.
  - by rewrite HL3, E3', E2; cbn [get]; rewrite HL, E2'.
  - rewrite HL3, E3', E2. cbn [get]. rewrite HL2, E2', E1. cbn [get]. rewrite <- He. destruct (z2b e) eqn:Ez; [| done]. cbn [negb]. rewrite Ea.
    destruct (decrease1 _ _ _ _ b (clear_ok s F M 1 va b e HP Hb1 ltac:(lia) (proj1 (mapped_nonzero _ _ _ _ _ _ _ _ HP Em)) He) Hb1) as (s2 & F2 & E & HP2).
    change (1 + 1) with 2 in E. rewrite <- (pn_up 2), <- (pn_up (2 + 1)) in E by lia. change (2 + 1 + 1) with 4 in E. change (2 + 1) with 3 in E. fold pml1 pml2 pml3 in E. rewrite E. by exists s2, F2.
Qed.
End spec.
