(* ===== verification/VmmApi.v ===== *)
(** * Ranges of pages, new page maps, and the theorems about [vmm.c] *)
From stdpp Require Import base tactics list numbers option gmap.
From Stdlib Require Import ZArith Lia.
From S2P Require Import Prelude Pmm PmmView PmmInv PmmSpec Pages Vmm VmmTree VmmSpec.
#[local] Open Scope Z_scope.

#[local] Hint Resolve index_range mod_512_range : core.

Section api.
Context {P : Type} `{PageAllocatorLaws P}.
Context (lo hi : Z) (W : Z -> Z) (R : list (Z * Z)).
Implicit Types (s : vmm_t P) (M : gmap key Z).

(** The page map holds the mappings [M]; the top-level entries outside of
    [lo <= x < hi] and the blocks [R] hold what [W] says. *)
Definition vmm_holds s M : Prop := exists F, pagemap lo hi W R s F (4, 0) 0 M.

(** The top-level entry of an address belongs to the page map. *)
Definition in_map (va : Z) : Prop := lo <= pn 4 va < hi.

(** ** Flags of a range *)

Definition adjust_word (set_flags clear_flags e : Z) : Z := Z.lor (Z.land e (lnot_w 64 clear_flags)) set_flags.

(** The flags of [count] pages change; every page is mapped, and stays so with the
    same size. *)
Fixpoint adjusted (count : nat) M (va set_flags clear_flags : Z) : option (gmap key Z) :=
  match count with
  | O => Some M
  | S count =>
    '(n, e) ← mapped M va;
    let e := adjust_word set_flags clear_flags e in
    if z2b e && ((n =? 1) || z2b (Z.land e VMM_PAGE_FLAG_LARGE)) then adjusted count (<[(n, pn n va) := e]> M) (u64 (va + PAGE_SIZE)) set_flags clear_flags else None
  end.

(** Every page of a range. *)
Definition range_in (count : nat) (va : Z) : Prop := forall i, 0 <= i < Z.of_nat count -> in_map (va + i * PAGE_SIZE).

Lemma pn_mod n x y : x mod 2 ^ 48 = y mod 2 ^ 48 -> pn n x = pn n y.
Proof. intros E. unfold pn. by rewrite E. Qed.

Lemma pn_wrap n x y : pn n (u64 x + y) = pn n (x + y).
Proof. apply pn_mod. rewrite <- (Z.add_mod_idemp_l (u64 x)), <- (Z.add_mod_idemp_l x) by lia. f_equal. f_equal. apply (wrap_wrap_le 64 48). lia. Qed.

Lemma range_step count va : range_in (S count) va -> in_map va /\ range_in count (u64 (va + PAGE_SIZE)).
Proof.
  intros Hr. split; [specialize (Hr 0 ltac:(lia)); by rewrite Z.add_0_r in Hr|]. intros i Hi. unfold in_map. rewrite pn_wrap.
  replace (va + PAGE_SIZE + i * PAGE_SIZE) with (va + (i + 1) * PAGE_SIZE) by lia. apply Hr. lia.
Qed.

Lemma overwrite_ok s F M n va b e : pagemap lo hi W R s F (4, 0) 0 M -> F !! (n, pn (n + 1) va) = Some b -> 1 <= n <= 3 ->
  M !! (n, pn n va) = Some (words s (slot b (index n va))) -> e <> 0 -> (n = 1 \/ z2b (Z.land e VMM_PAGE_FLAG_LARGE) = true) ->
  pagemap lo hi W R (set s (Entry (slot b (index n va))) e) F (4, 0) 0 (<[(n, pn n va) := e]> M).
Proof.
  intros HP Hb Hn HM He HL. pose proof (index_range n va ltac:(lia)) as Hx. destruct (mapping_table _ _ _ _ _ _ _ _ _ _ _ _ HP HM) as (_ & _ & _ & _ & Hnz & HL0).
  pose proof (pm_tree _ _ _ _ _ _ _ _ _ HP) as HT.
  assert (Hno : F !! (n - 1, 512 * pn (n + 1) va + index n va) = None).
  { destruct (Z.eq_dec n 1) as [-> | Hn1].
    - destruct (F !! (1 - 1, 512 * pn (1 + 1) va + index 1 va)) as [b1 |] eqn:E; [| done]. destruct (t_level _ _ _ _ _ _ _ _ _ HT _ _ _ E). lia.
    - eapply no_child; [exact HT | done | done | lia |]. right. naive_solver. }
  assert (HP2 : pagemap lo hi W R (set s (Entry (slot b (index n va))) e) F (n, pn (n + 1) va) 0 (<[(n, pn n va) := e]> M)).
  { split; [| apply HP | intros a i y Ha Hy; rewrite <- (pm_rest _ _ _ _ _ _ _ _ _ HP a i y) by done; by eapply rest_upd].
    pose proof (tree_leaf lo hi W _ _ _ _ _ 0 _ b (index n va) e (tree_focus _ _ _ _ _ _ _ (n, pn (n + 1) va) HT) ltac:(lia) Hb Hx Hno ltac:(naive_solver)) as HT2.
    rewrite (z2b_nonzero e He), (z2b_nonzero _ Hnz), <- pn_split in HT2 by lia. exact HT2. }
  eapply pagemap_refocus; [exact HP2|]. intros b1 E _. simplify_eq. apply (nz_pos _ _ (index n va) Hx). cbn [set words]. by rewrite Z.eqb_refl.
Qed.

Lemma adjust_flags_ok count : forall s M va set_flags clear_flags M', vmm_holds s M -> range_in count va -> adjusted count M va set_flags clear_flags = Some M' ->
  vmm_holds (vmm_adjust_flags count s va set_flags clear_flags) M'.
Proof.
  induction count as [| count IH]; intros s M va sf cf M' HV Hr Ha; [by injection Ha as <-|]. destruct HV as [F HP]. apply range_step in Hr as [Hin Hr]. cbn [adjusted] in Ha.
  pose proof (lookup_ok _ _ _ _ _ _ _ _ _ va HP Hin) as Hl. destruct (mapped M va) as [[n e] |] eqn:Em; [| done]. cbn [mbind option_bind] in Ha. destruct Hl as (b & Hb & El & He).
  destruct (mapped_nonzero _ _ _ _ _ _ _ _ _ _ _ _ HP Em) as (HM & _ & Hn & _). destruct (z2b (adjust_word sf cf e)) eqn:Ez; [| done]. cbn [andb] in Ha.
  destruct ((n =? 1) || z2b (Z.land (adjust_word sf cf e) VMM_PAGE_FLAG_LARGE)) eqn:EL; [| done].
  change (vmm_adjust_flags (S count) s va sf cf) with (vmm_adjust_flags count (match _lookup_virtual_address s va with Some entry => set s entry (adjust_word sf cf (get s entry)) | None => s end) (u64 (va + PAGE_SIZE)) sf cf).
  rewrite El. cbn [get]. rewrite <- He. apply (IH _ (<[(n, pn n va) := adjust_word sf cf e]> M)); [| done | done]. exists F.
  apply overwrite_ok; [done | done | done | by rewrite <- He | by apply z2b_true |]. apply orb_true_iff in EL as [?%Z.eqb_eq | ?]; [by left | by right].
Qed.

Lemma user_page_wrap M x y : user_page M (u64 x + y) = user_page M (x + y).
Proof. unfold user_page, mapped. by rewrite !pn_wrap. Qed.

Lemma is_user_accessible_ok count : forall s M va, vmm_holds s M -> range_in count va ->
  vmm_is_user_accessible count s va = true <-> forall i, 0 <= i < Z.of_nat count -> user_page M (va + i * PAGE_SIZE) = true.
Proof.
  induction count as [| count IH]; intros s M va HV Hr; cbn [vmm_is_user_accessible]; [split; [lia | done]|]. pose proof HV as [F HP]. apply range_step in Hr as [Hin Hr].
  rewrite andb_true_iff, (user_accessible_ok _ _ _ _ _ _ _ _ _ _ HP Hin), (IH _ M _ HV Hr). split.
  - intros [H1 H2] i Hi. destruct (Z.eq_dec i 0) as [-> | Hne]; [by rewrite Z.add_0_r|]. specialize (H2 (i - 1) ltac:(lia)). rewrite user_page_wrap in H2. by replace (va + PAGE_SIZE + (i - 1) * PAGE_SIZE) with (va + i * PAGE_SIZE) in H2 by lia.
  - intros Ha. split; [specialize (Ha 0 ltac:(lia)); by rewrite Z.add_0_r in Ha|]. intros i Hi. rewrite user_page_wrap. replace (va + PAGE_SIZE + i * PAGE_SIZE) with (va + (i + 1) * PAGE_SIZE) by lia. apply Ha. lia.
Qed.

(** ** Mapping a range *)

(** Page [i] of a range of pages of level [n]. *)
Definition page_at (n a i : Z) : Z := a + i * page_size n.

Definition range_free M (n va N : Z) : Prop := forall i, 0 <= i < N ->
  let v := page_at n va i in in_map v /\ M !! (n, pn n v) = None /\ ~ smaller M n v /\ forall m, n < m <= 3 -> M !! (m, pn m v) = None.

Definition insert_range M (pa va flags N : Z) : gmap key Z :=
  let n := level_of flags in foldl (fun M i => <[(n, pn n (page_at n va i)) := mapping_word (page_at n pa i) flags]> M) M (seqZ 0 N).

Lemma insert_range_S M pa va flags N : 0 <= N ->
  let n := level_of flags in insert_range M pa va flags (N + 1) = <[(n, pn n (page_at n va N)) := mapping_word (page_at n pa N) flags]> (insert_range M pa va flags N).
Proof. intros HN n. unfold insert_range. rewrite seqZ_app by lia. rewrite foldl_app. by rewrite Z.add_0_l. Qed.

Lemma insert_range_other M pa va flags N m q : 0 <= N -> (m = level_of flags -> forall i, 0 <= i < N -> q <> pn m (page_at m va i)) -> insert_range M pa va flags N !! (m, q) = M !! (m, q).
Proof.
  intros HN. revert N HN. apply (natlike_ind (fun N => (m = level_of flags -> forall i, 0 <= i < N -> q <> pn m (page_at m va i)) -> insert_range M pa va flags N !! (m, q) = M !! (m, q))); [done|].
  intros N HN IH Hq. change (Z.succ N) with (N + 1). rewrite insert_range_S by done. rewrite lookup_insert_ne; [apply IH; intros E i Hi; apply Hq; [done | lia]|].
  intros [=]. subst m q. by apply (Hq eq_refl N); [lia|].
Qed.

Lemma level_range flags : 1 <= level_of flags <= 3.
Proof. unfold level_of. destruct (z2b (Z.land flags VMM_PAGE_FLAG_EXTRA_LARGE)); [lia|]. destruct (z2b (Z.land flags VMM_PAGE_FLAG_LARGE)); lia. Qed.

Lemma pn_page n va i : 1 <= n <= 3 -> 0 <= i -> va mod 2 ^ 48 + i * page_size n < 2 ^ 48 -> pn n (page_at n va i) = pn n va + i.
Proof.
  intros Hn Hi Hlt. unfold pn, page_at. pose proof (Z.mod_pos_bound va (2 ^ 48) ltac:(lia)) as Hm. assert (Hs : 0 < page_size n) by (unfold page_size; lia). assert (0 <= i * page_size n) by lia.
  rewrite <- Z.add_mod_idemp_l by lia. rewrite (Z.mod_small (va mod 2 ^ 48 + _)) by lia. fold (page_size n). by apply Z.div_add; lia.
Qed.

(** The numbers of pages and sizes of a range stay in 64 bits. *)
Definition range_ok (n pa va N : Z) : Prop :=
  0 <= pa /\ 0 <= va /\ pa mod page_size n = 0 /\ va mod page_size n = 0 /\ pa + N * page_size n <= 2 ^ 64 /\ va + N * page_size n <= 2 ^ 64 /\ va mod 2 ^ 48 + N * page_size n <= 2 ^ 48.

Lemma stride_size flags : 2 ^ map_stride_shift flags = page_size (level_of flags) /\ 0 <= map_stride_shift flags.
Proof. unfold map_stride_shift, level_of. destruct (z2b (Z.land flags VMM_PAGE_FLAG_EXTRA_LARGE)); [done|]. by destruct (z2b (Z.land flags VMM_PAGE_FLAG_LARGE)). Qed.

Lemma page_at_word n a i N : 1 <= n <= 3 -> 0 <= a -> 0 <= i < N -> a + N * page_size n <= 2 ^ 64 -> 0 <= page_at n a i < 2 ^ 64 /\ u64 (a + u64 (i * page_size n)) = page_at n a i.
Proof.
  intros Hn Ha Hi Hle. assert (Hs : 0 < page_size n) by (unfold page_size; lia). assert (i * page_size n + page_size n <= N * page_size n) by nia. assert (0 <= i * page_size n) by lia. unfold page_at.
  rewrite (u64_id (i * page_size n)), u64_id by lia. split; [lia | done].
Qed.

Lemma page_at_aligned n a i : 1 <= n <= 3 -> a mod page_size n = 0 -> page_at n a i mod page_size n = 0.
Proof. intros Hn Ha. unfold page_at. rewrite Z.mod_add by (unfold page_size; lia). done. Qed.

Lemma map_pages_loop_ok k : forall s M pa va flags N idx, vmm_holds s (insert_range M pa va flags idx) -> let n := level_of flags in
  range_ok n pa va N -> range_free M n va N -> (forall i, 0 <= i < N -> mapping_word (page_at n pa i) flags <> 0) -> 0 <= idx -> idx + Z.of_nat k = N -> N < 2 ^ 64 -> serves_n (3 * k) (frames s) ->
  exists s', map_pages_loop k s pa va flags (map_stride_shift flags) idx = Some s' /\ vmm_holds s' (insert_range M pa va flags N).
Proof.
  induction k as [| k IH]; intros s M pa va flags N idx HV n HR Hfree Hw Hidx Hk HN Hserve; cbn [map_pages_loop]; [replace N with idx by lia; by exists s|].
  destruct HR as (Hpa & Hva & Apa & Ava & Lpa & Lva & L48). pose proof (level_range flags) as Hn. fold n in Hn. destruct (stride_size flags) as [Es Hs0]. fold n in Es.
  rewrite Z.shiftl_mul_pow2 by done. rewrite Es. destruct (page_at_word n pa idx N Hn Hpa ltac:(lia) Lpa) as [Rpa ->]. destruct (page_at_word n va idx N Hn Hva ltac:(lia) Lva) as [Rva ->].
  assert (Hs : 0 < page_size n) by (unfold page_size; lia).
  assert (Hpn : forall i, 0 <= i < N -> pn n (page_at n va i) = pn n va + i) by (intros i Hi; apply pn_page; [done | lia | nia]).
  assert (Hsame : forall m q, (m = n -> q = pn n va + idx) -> insert_range M pa va flags idx !! (m, q) = M !! (m, q)).
  { intros m q Hq. apply insert_range_other; [done|]. fold n. intros -> i Hi. rewrite Hpn, Hq by (done || lia). lia. }
  destruct (Hfree idx ltac:(lia)) as (Hin & Hnone & Hsm & Hbig). destruct HV as [F HP].
  destruct (map_page_ok lo hi W R s F _ (page_at n pa idx) (page_at n va idx) flags (3 * k) HP Rpa Rva Hin (Hw idx ltac:(lia))) as [Hyes _].
  { intros m Hm. fold n in Hm. rewrite Hsame by lia. by apply Hbig. }
  { by replace (3 + 3 * k)%nat with (3 * S k)%nat by lia. }
  destruct Hyes as (s1 & F1 & E1 & HP1 & Hs1).
  { split_and!; fold n; [by apply page_at_aligned | by apply page_at_aligned | |].
    - rewrite Hsame by (intros _; by apply Hpn; lia). by rewrite Hnone.
    - intros (m & q & Hm & Hq & HM). apply Hsm. exists m, q. split_and!; [lia | lia | done |]. by rewrite Hsame in HM by lia. }
  rewrite E1. cbn [mbind option_bind]. rewrite u64_id by lia. apply (IH s1 M); try done; [| lia | lia]. exists F1. fold n in HP1. rewrite insert_range_S by done. done.
Qed.

End api.

(** ** A new page map *)

#[local] Transparent slot.

Lemma frame_slot b i : frame_ok b -> u64 (Z.land b VMM_PAGE_ADDRESS_MASK + OFF) + 8 * i = slot b i.
Proof.
  intros Fb. pose proof (frame_eq _ Fb) as E. destruct Fb as (? & _ & ?). change VMM_PAGE_ADDRESS_MASK with (Z.shiftl (Z.ones 36) 12). rewrite land_field by lia.
  change (2 ^ 12) with 4096. rewrite Z.mod_small by lia. replace (b / 4096 * 4096) with b by lia. rewrite u64_id by (change OFF with (2 ^ 64 - 2 ^ 47); lia). done.
Qed.

Lemma entry_mask b : frame_ok b -> u64 (Z.land b VMM_PAGE_ADDRESS_MASK + OFF) = u64 (b + OFF).
Proof. intros Fb. pose proof (frame_slot b 0 Fb) as E. unfold slot in E. destruct Fb as (? & _ & ?). rewrite (u64_id (b + OFF)) by (change OFF with (2 ^ 64 - 2 ^ 47); lia). lia. Qed.

Lemma slot_step b i : slot b i = slot b 0 + 8 * i.
Proof. unfold slot. lia. Qed.

Lemma slot_zero b : slot b 0 = b + OFF.
Proof. unfold slot. lia. Qed.

#[local] Opaque slot.

Lemma copy_ok {P} `{PageAllocator P} kernel l : forall s : vmm_t P, frame_ok (toplevel s) -> frame_ok kernel -> toplevel s <> kernel -> Forall (fun i => 0 <= i < 512) l ->
  let s' := foldl (fun s i => set s (entry_of s Toplevel i) (get s (Entry (u64 (Z.land kernel VMM_PAGE_ADDRESS_MASK + OFF) + 8 * i)))) s l in
  toplevel s' = toplevel s /\ frames s' = frames s /\
  (forall i, 0 <= i < 512 -> words s' (slot (toplevel s) i) = if decide (i ∈ l) then words s (slot kernel i) else words s (slot (toplevel s) i)) /\
  (forall y, (forall i, 0 <= i < 512 -> y <> slot (toplevel s) i) -> words s' y = words s y).
Proof.
  induction l as [| x l IH]; intros s Ht Hk Hne Hl; cbn [foldl].
  { split_and!; [done | done | | done]. intros i Hi. rewrite decide_False by apply not_elem_of_nil. done. }
  apply Forall_cons_1 in Hl as [Hx Hl]. rewrite (frame_slot kernel x Hk). set (s1 := set s (entry_of s Toplevel x) (get s (Entry (slot kernel x)))).
  assert (E1 : words s1 = upd (words s) (slot (toplevel s) x) (words s (slot kernel x)) /\ toplevel s1 = toplevel s /\ frames s1 = frames s).
  { unfold s1, entry_of, _get_table. cbn [get]. rewrite frame_slot by done. done. }
  destruct E1 as (Ew & Et & Ef). destruct (IH s1) as (I1 & I2 & I3 & I4); rewrite ?Et; [done | done | done | done |]. rewrite Et in I1, I3, I4. rewrite Ef in I2. split_and!; [done | done | |].
  - intros i Hi. rewrite I3, Ew, !upd_slot by done. rewrite (decide_False (P := kernel = _ /\ _)) by naive_solver.
    destruct (decide (i ∈ l)) as [Hin | Hnin]; [by rewrite decide_True by set_solver|]. destruct (decide (i = x)) as [-> | Hix]; [by rewrite decide_True, decide_True by set_solver|].
    rewrite decide_False by naive_solver. rewrite decide_False by set_solver. done.
  - intros y Hy. rewrite I4, Ew by done. unfold upd. destruct (Z.eqb_spec y (slot (toplevel s) x)) as [E |]; [by apply Hy in E | done].
Qed.

(** A block that holds the table of the kernel's page map. *)
Lemma pagemap_init_ok {P} `{PageAllocatorLaws P} (s : vmm_t P) B kernel : held (frames s) B -> serves (frames s) 0 -> (kernel, 0) ∈ B ->
  exists s', vmm_pagemap_init s kernel = Some s' /\ vmm_holds 0 256 (words s') B s' ∅ /\
    (forall i, 256 <= i < 512 -> words s' (slot (toplevel s') i) = words s (slot kernel i)) /\
    (forall a i x, (a, i) ∈ B -> a <= x < a + blk i -> words s' (x + OFF) = words s (x + OFF)).
Proof.
  intros Hh Hs Hk. destruct (page_alloc_law _ _ 0 Hh ltac:(lia) Hs) as (p' & a & E & Hh'). change (2 ^ 0) with 1 in E.
  destruct (held_block _ _ a 0 Hh' ltac:(set_solver)) as (Ha0 & Ham & Hab & _). assert (Fa : frame_ok a) by by eapply block_frame.
  destruct (held_block _ _ kernel 0 Hh Hk) as (Hk0 & Hkm & Hkb & _). assert (Fk : frame_ok kernel) by by eapply block_frame. change (blk 0) with 4096 in *.
  pose proof (held_apart _ _ Hh') as [Hap _]. assert (Hne : a <> kernel) by (intros ->; specialize (Hap kernel 0 Hk); unfold apart in Hap; change (blk 0) with 4096 in Hap; lia).
  unfold vmm_pagemap_init, alloc_table. rewrite E. cbn [mbind option_bind]. eexists. split; [done|]. set (s0 := set _ Toplevel a).
  assert (Hl : Forall (fun i => 0 <= i < 512) (seqZ 256 256)) by (apply Forall_forall; intros i Hi%elem_of_seqZ; lia).
  destruct (copy_ok kernel (seqZ 256 256) s0 Fa Fk Hne Hl) as (Et & Ef & Ein & Eout). set (s' := foldl _ s0 _) in *. change (toplevel s0) with a in *.
  assert (Hzero : forall i, 0 <= i < 512 -> words s0 (slot a i) = 0).
  { intros i Hi. unfold s0. cbn [set words]. replace (u64 (a + OFF)) with (slot a 0) by (rewrite <- (frame_slot a 0 Fa), (entry_mask a Fa); lia).
    pose proof (slot_step a i). unfold PAGE_SIZE. destruct (Z.leb_spec (slot a 0) (slot a i)); [| lia]. destruct (Z.ltb_spec (slot a i) (slot a 0 + 4096)); [done | lia]. }
  assert (Hother : forall b i x, (b, i) ∈ B -> b <= x < b + blk i -> words s' (x + OFF) = words s (x + OFF)).
  { intros b i x Hb Hx. specialize (Hap _ _ Hb). unfold apart in Hap. change (blk 0) with 4096 in Hap.
    rewrite Eout by (intros j Hj; pose proof (slot_step a j); pose proof (slot_zero a); lia). unfold s0. cbn [set words].
    replace (u64 (a + OFF)) with (slot a 0) by (rewrite <- (frame_slot a 0 Fa), (entry_mask a Fa); lia). pose proof (slot_zero a). unfold PAGE_SIZE.
    destruct (Z.leb_spec (slot a 0) (x + OFF)); [| done]. destruct (Z.ltb_spec (x + OFF) (slot a 0 + 4096)); [lia | done]. }
  assert (Hin0 : forall i, 256 <= i < 512 -> i ∈ seqZ 256 256) by (intros; apply elem_of_seqZ; lia).
  split_and!; [| | done].
  - exists {[(4, 0) := a]}. split; [| | done].
    + split.
      * by rewrite Et, lookup_singleton_eq.
      * intros n p b [[= <- <-] <-]%lookup_singleton_Some. lia.
      * intros n p b [_ <-]%lookup_singleton_Some. done.
      * intros k1 k2 b [<- _]%lookup_singleton_Some [<- _]%lookup_singleton_Some. done.
      * intros n p b [[= <- <-] <-]%lookup_singleton_Some. lia.
      * intros n p b x [[= <- <-] <-]%lookup_singleton_Some _ Hx Ho. rewrite Ein by done. rewrite decide_False by (rewrite elem_of_seqZ; specialize (Ho eq_refl); lia). by rewrite Hzero.
      * intros n p b [[= <- <-] <-]%lookup_singleton_Some. lia.
      * intros n q. rewrite lookup_empty. unfold leaf. destruct ((1 <=? n) && (n <=? 3)) eqn:En; [| done]. rewrite lookup_singleton_ne; [done|]. intros [=]. subst n. done.
      * done.
    + exists ((a, 0) :: B). split; [by unfold blocks; rewrite map_to_list_singleton|]. by rewrite Ef.
  - intros i Hi. rewrite Et, Ein by lia. rewrite decide_True by auto. unfold s0. cbn [set words].
    replace (u64 (a + OFF)) with (slot a 0) by (rewrite <- (frame_slot a 0 Fa), (entry_mask a Fa); lia). specialize (Hap _ _ Hk). unfold apart in Hap. change (blk 0) with 4096 in Hap.
    pose proof (slot_step a 0). pose proof (slot_zero a). pose proof (slot_step kernel i). pose proof (slot_zero kernel). unfold PAGE_SIZE.
    destruct (Z.leb_spec (slot a 0) (slot kernel i)); [| done]. destruct (Z.ltb_spec (slot kernel i) (slot a 0 + 4096)); [lia | done].
Qed.

(** ** Theorems *)

(** A map without mappings has no table but the top-level one. *)
Lemma empty_map_tables {P} `{PageAllocatorLaws P} lo hi W R (s : vmm_t P) : vmm_holds lo hi W R s ∅ -> exists B, B ≡ₚ (toplevel s, 0) :: R /\ held (frames s) B.
Proof.
  intros [F HP]. destruct (pm_held _ _ _ _ _ _ _ _ _ HP) as (B & HB & Hh). pose proof (pm_tree _ _ _ _ _ _ _ _ _ HP) as HT. exists B. split; [| done].
  assert (F = {[(4, 0) := toplevel s]}) as EF.
  { apply map_eq. intros [n p]. destruct (decide ((n, p) = (4, 0))) as [-> | Hne]; [by rewrite (t_top _ _ _ _ _ _ _ _ _ HT), lookup_singleton_eq|]. rewrite lookup_singleton_ne by done.
    destruct (F !! (n, p)) as [b |] eqn:E; [| done]. exfalso. destruct (t_level _ _ _ _ _ _ _ _ _ HT _ _ _ E) as [Hn Hp].
    destruct (Z.eq_dec n 4) as [-> | Hn4]; [by rewrite Hp in Hne|]. destruct (table_needed _ _ _ _ _ _ _ _ _ _ _ _ HP E ltac:(lia) ltac:(cbn; lia)) as (m & q & _ & _ & [e He]). by rewrite lookup_empty in He. }
  rewrite HB, EF. unfold blocks. by rewrite map_to_list_singleton.
Qed.

(** C8: for an address that no larger mapped page covers (the code does not check
    this: [vmm_map_inside_large]), a mapping word that is not zero and an allocator
    with frames for three tables: mapping a page inserts exactly its word under its
    page number, for each of the three page sizes; a misaligned address, a mapping
    that is present and smaller pages in the way are panics.  Memory outside of the
    tables and the top-level entries of other page maps stay as they are. *)
Theorem vmm_map_page_correct {P} `{PageAllocatorLaws P} lo hi W R (s : vmm_t P) M pa va flags :
  vmm_holds lo hi W R s M -> 0 <= pa < 2 ^ 64 -> 0 <= va < 2 ^ 64 -> in_map lo hi va -> mapping_word pa flags <> 0 ->
  (forall m, level_of flags < m <= 3 -> M !! (m, pn m va) = None) -> serves_n 3 (frames s) ->
  let n := level_of flags in
  (map_allowed M pa va flags -> exists s', vmm_map_page s pa va flags = Some s' /\ vmm_holds lo hi W R s' (<[(n, pn n va) := mapping_word pa flags]> M)) /\
  (~ map_allowed M pa va flags -> vmm_map_page s pa va flags = None).
Proof.
  intros [F HP] Hpa Hva Hin Hw Hbig Hs n. destruct (map_page_ok _ _ _ _ _ _ _ pa va flags 0 HP Hpa Hva Hin Hw Hbig Hs) as [Hyes Hno].
  split; [| done]. intros Ha. destruct (Hyes Ha) as (s' & F' & E & HP' & _). exists s'. split; [done | by exists F'].
Qed.

(** C9: unmapping returns the word of the mapping of an address and removes it,
    or changes nothing and returns 0 when there is none or the address is not the
    start of the page; when no mapping is left only the top-level table is. *)
Theorem vmm_unmap_page_correct {P} `{PageAllocatorLaws P} lo hi W R (s : vmm_t P) M va : vmm_holds lo hi W R s M -> in_map lo hi va ->
  match mapped M va with
  | Some (n, e) =>
    if va mod page_size n =? 0 then exists s', vmm_unmap_page s va = Some (s', e) /\ vmm_holds lo hi W R s' (delete (n, pn n va) M) /\
      (delete (n, pn n va) M = ∅ -> exists B, B ≡ₚ (toplevel s', 0) :: R /\ held (frames s') B)
    else vmm_unmap_page s va = Some (s, 0)
  | None => vmm_unmap_page s va = Some (s, 0)
  end.
Proof.
  intros [F HP] Hin. pose proof (unmap_ok _ _ _ _ _ _ _ va HP Hin) as Hu. destruct (mapped M va) as [[n e] |]; [| done]. destruct (va mod page_size n =? 0); [| done].
  destruct Hu as (s' & F' & E & HP'). assert (HV : vmm_holds lo hi W R s' (delete (n, pn n va) M)) by by exists F'. exists s'. split_and!; [done | done |].
  intros E0. rewrite E0 in HV. by eapply empty_map_tables.
Qed.

(** The queries answer from the mappings: the physical address of every
    address, the accessibility of every range of pages, and changed flags are those
    of the mappings of the range. *)
Theorem vmm_queries_correct {P} `{PageAllocatorLaws P} lo hi W R (s : vmm_t P) M va count set_flags clear_flags M' : vmm_holds lo hi W R s M -> in_map lo hi va -> range_in lo hi count va ->
  vmm_virtual_to_physical s va = translate M va /\
  (vmm_is_user_accessible count s va = true <-> forall i, 0 <= i < Z.of_nat count -> user_page M (va + i * PAGE_SIZE) = true) /\
  (adjusted count M va set_flags clear_flags = Some M' -> vmm_holds lo hi W R (vmm_adjust_flags count s va set_flags clear_flags) M').
Proof.
  intros HV Hin Hr. split_and!; [| by eapply is_user_accessible_ok | by apply adjust_flags_ok]. destruct HV as [F HP]. by eapply virtual_to_physical_ok.
Qed.

(** A range of pages is mapped page by page. *)
Theorem vmm_map_pages_correct {P} `{PageAllocatorLaws P} lo hi W R (s : vmm_t P) M pa va flags count : vmm_holds lo hi W R s M -> 0 <= count < 2 ^ 64 ->
  let n := level_of flags in let N := count / 512 ^ (n - 1) in
  range_ok n pa va N -> range_free lo hi M n va N -> (forall i, 0 <= i < N -> mapping_word (page_at n pa i) flags <> 0) -> serves_n (3 * Z.to_nat N) (frames s) ->
  exists s', vmm_map_pages s pa va flags count = Some s' /\ vmm_holds lo hi W R s' (insert_range M pa va flags N).
Proof.
  intros HV Hc n N HR Hfree Hw Hs. pose proof (level_range flags) as Hn. fold n in Hn. assert (Hp : 0 < 512 ^ (n - 1)) by (apply Z.pow_pos_nonneg; lia).
  assert (HN : 0 <= N < 2 ^ 64) by (split; [apply Z.div_pos; lia | apply Z.div_lt_upper_bound; [done | nia]]).
  unfold vmm_map_pages. destruct (Z.eqb_spec count 0) as [-> | Hne]; [exists s; split; [done|]; unfold N; by rewrite Z.div_0_l by lia|].
  assert (Esh : Z.shiftr count (map_stride_shift flags - PAGE_SIZE_SHIFT) = N).
  { destruct (stride_size flags) as [Es Hs0]. assert (12 <= map_stride_shift flags) by (unfold map_stride_shift; destruct (z2b _); [done|]; by destruct (z2b _)).
    unfold PAGE_SIZE_SHIFT. rewrite Z.shiftr_div_pow2 by lia. unfold N. f_equal. fold n in Es. unfold page_size in Es. apply Z.pow_inj_r in Es; [| lia | lia | lia]. rewrite Es. change 512 with (2 ^ 9). rewrite <- Z.pow_mul_r by lia. f_equal. lia. }
  rewrite Esh. eapply (map_pages_loop_ok lo hi W R (Z.to_nat N) s M); try done; [lia | lia].
Qed.

(** ** A process on a machine of sixteen pages *)

(** The first page is the kernel's top-level table. *)
Definition demo_frames : client * Z := default (mk_client demo_pmm 0, 0) (page_alloc (mk_client demo_pmm 0) 1).

Definition demo_vmm : vmm_t client :=
  let s := Vmm 0 (fun _ => 0) demo_frames.1 in default s (vmm_pagemap_init s demo_frames.2).

Definition demo_rest : list (Z * Z) := [(demo_frames.2, 0)].

Lemma demo_client_free : pmm_held (mk_client demo_pmm 0) [].
Proof.
  destruct demo_pmm_ok as (L & Hs & _). split; [| done]. exists 2%nat, L. split_and!; [done | vm_compute; discriminate | by intros ? ? ?%not_elem_of_nil].
Qed.

Lemma demo_vmm_ok : vmm_holds 0 256 (words demo_vmm) demo_rest demo_vmm ∅.
Proof.
  destruct (pmm_alloc_law (mk_client demo_pmm 0) [] 0 demo_client_free ltac:(lia)) as (c & a & E & Hh); [exists 0%nat; vm_compute; reflexivity|]. change (2 ^ 0) with 1 in E.
  assert (Ed : demo_frames = (c, a)) by (unfold demo_frames; by rewrite E). unfold demo_rest.
  destruct (pagemap_init_ok (Vmm 0 (fun _ => 0) demo_frames.1) [(demo_frames.2, 0)] demo_frames.2) as (s' & Es & HV & _).
  - rewrite Ed. exact Hh.
  - exists 0%nat. vm_compute. reflexivity.
  - by apply list_elem_of_singleton.
  - unfold demo_vmm. cbv zeta. rewrite Es. exact HV.
Qed.

Lemma demo_serves : serves_n 3 (frames demo_vmm).
Proof.
  split; [exists 0%nat; vm_compute; reflexivity|]. intros p1 a1 E1. vm_compute in E1. injection E1 as <- <-.
  split; [exists 0%nat; vm_compute; reflexivity|]. intros p2 a2 E2. vm_compute in E2. injection E2 as <- <-.
  split; [exists 0%nat; vm_compute; reflexivity|]. done.
Qed.

Lemma demo_allowed : map_allowed ∅ 0x7000 0x400000 7.
Proof. split_and!; [done | done | done |]. intros (m & q & Hm & _). change (level_of 7) with 1 in Hm. lia. Qed.

Lemma vmm_map_page_correct_witness : exists s', vmm_map_page demo_vmm 0x7000 0x400000 7 = Some s' /\
  vmm_holds 0 256 (words demo_vmm) demo_rest s' (<[(1, 0x400) := 0x7007]> ∅).
Proof.
  apply (vmm_map_page_correct 0 256 (words demo_vmm) demo_rest demo_vmm ∅ 0x7000 0x400000 7 demo_vmm_ok); [lia | lia | vm_compute; split; [discriminate | reflexivity] | discriminate | reflexivity | exact demo_serves | exact demo_allowed].
Defined.

(** The state after that. *)
Definition demo_mapped : vmm_t client := default demo_vmm (vmm_map_page demo_vmm 0x7000 0x400000 7).

Lemma demo_mapped_ok : vmm_holds 0 256 (words demo_vmm) demo_rest demo_mapped (<[(1, 0x400) := 0x7007]> ∅).
Proof.
  destruct demo_vmm_ok as [F HP]. destruct (map_page_ok 0 256 (words demo_vmm) demo_rest demo_vmm F ∅ 0x7000 0x400000 7 0 HP) as [Hyes _];
    [lia | lia | vm_compute; split; [discriminate | reflexivity] | discriminate | reflexivity | exact demo_serves |].
  destruct (Hyes demo_allowed) as (s' & F' & E & HP' & _). unfold demo_mapped. rewrite E. by exists F'.
Qed.

Lemma vmm_unmap_page_correct_witness : exists s', vmm_unmap_page demo_mapped 0x400000 = Some (s', 0x7007) /\
  exists B, B ≡ₚ (toplevel s', 0) :: demo_rest /\ held (frames s') B.
Proof.
  destruct (vmm_unmap_page_correct 0 256 (words demo_vmm) demo_rest demo_mapped (<[(1, 0x400) := 0x7007]> ∅) 0x400000 demo_mapped_ok) as (s' & E & _ & HB).
  - vm_compute. split; [discriminate | reflexivity].
  - exists s'. split; [exact E|]. apply HB. apply map_eq. intros [n p]. vm_compute. reflexivity.
Defined.

Lemma vmm_queries_correct_witness : vmm_virtual_to_physical demo_mapped 0x400123 = 0x7123 /\ vmm_is_user_accessible 1 demo_mapped 0x400123 = true.
Proof.
  destruct (vmm_queries_correct 0 256 (words demo_vmm) demo_rest demo_mapped (<[(1, 0x400) := 0x7007]> ∅) 0x400123 1 0 0 ∅ demo_mapped_ok) as (E1 & E2 & _).
  - vm_compute. split; [discriminate | reflexivity].
  - intros i Hi. replace i with 0 by lia. vm_compute. split; [discriminate | reflexivity].
  - split; [rewrite E1; vm_compute; reflexivity|]. apply E2. intros i Hi. replace i with 0 by lia. vm_compute. reflexivity.
Defined.

(** ** Defects *)

(** The top-level word has no flags, so releasing a page map releases nothing. *)
Lemma vmm_deinit_leaks {P} `{PageAllocatorLaws P} lo hi W R (s : vmm_t P) M : vmm_holds lo hi W R s M -> vmm_pagemap_deinit s = Some s.
Proof. intros [F HP]. unfold vmm_pagemap_deinit. cbn [_delete_pagemap_recursive get]. by rewrite (top_not_present _ _ _ _ _ _ _ _ _ HP). Qed.

(** Flags set on a page that is not mapped make its entry look used: the page that
    is mapped there later is not counted, and goes with the table when another page
    is unmapped. *)
Lemma vmm_adjust_empty_entry :
  let s := vmm_adjust_flags 1 demo_mapped 0x401000 VMM_PAGE_FLAG_NOEXECUTE 0 in
  let r := s ← vmm_map_page s 0x8000 0x401000 7; '(s', _) ← vmm_unmap_page s 0x400000; Some (vmm_virtual_to_physical s 0x401000, vmm_virtual_to_physical s' 0x401000) in
  r = Some (0x8000, 0).
Proof. vm_compute. reflexivity. Qed.

(** A small page inside of a large one: the word of the mapping is written into
    the memory of the large page. *)
Lemma vmm_map_inside_large :
  let r := s ← vmm_map_page demo_vmm 0x40000000 0x200000 (Z.lor VMM_PAGE_FLAG_LARGE 7); s' ← vmm_map_page s 0x7000 0x201000 7; Some (words s (slot 0x40000000 1), words s' (slot 0x40000000 1)) in
  r = Some (0, 0x7007).
Proof. vm_compute. reflexivity. Qed.

(** A table of the kernel half exists from the start, with the count 0, and is in
    the page maps of all processes; it goes with its last mapping. *)
Lemma vmm_kernel_table_freed :
  let r :=
    '(s, table) ← alloc_table demo_vmm;
    let s := set s (entry_of s Toplevel 256) (Z.lor table 7) in
    s ← vmm_map_page s 0x7000 0xffff800000000000 3;
    '(s, _) ← vmm_unmap_page s 0xffff800000000000;
    Some (get s (entry_of s Toplevel 256)) in
  r = Some 0.
Proof. vm_compute. reflexivity. Qed.
