(* ===== verification/Mmap.v ===== *)
(** * Address spaces ([src/src/kernel/mmap/mmap.c], [include/kernel/mmap/mmap.h]).

    An address space is a set of regions, kept in trees by address, and free
    space: free regions, found by address and by length, and the gap below
    [heap_address], from which new regions are cut when no free region is large
    enough.  The trees are seen through their maps ([TreeMap]); the free regions
    of one length are the list of their addresses, the head first.  Pages are
    mapped when they are touched ([mmap_handle_pf]), into the page tables of
    [Vmm.v].  [None] is a panic: an explicit one, or that of [rb_tree_insert_node]
    on a taken key.

    [file_size] and [file_page] are what [vfs_node_resize] and [vfs_node_read] say
    about a file: its size, and the words of the page at an offset. *)
From stdpp Require Import base tactics list numbers option gmap.
From Stdlib Require Import ZArith Lia.
From S2P Require Import Prelude TreeMap PmmView Pages Vmm.
#[local] Open Scope Z_scope.

Definition MMAP_STACK_GUARD_PAGE_COUNT : Z := 4.

Definition USER_MEMORY_FLAG_READ : Z := 1.
Definition USER_MEMORY_FLAG_WRITE : Z := 2.
Definition USER_MEMORY_FLAG_EXEC : Z := 4.
Definition USER_MEMORY_FLAG_FILE : Z := 8.
Definition USER_MEMORY_FLAG_NOWRITEBACK : Z := 16.
Definition USER_MEMORY_FLAG_STACK : Z := 32.

Definition MMAP_REGION_FLAG_FORCE : Z := 1.
Definition MMAP_REGION_FLAG_VMM_USER : Z := 2.
Definition MMAP_REGION_FLAG_VMM_WRITE : Z := 4.
Definition MMAP_REGION_FLAG_VMM_EXEC : Z := 8.
Definition MMAP_REGION_FLAG_COMMIT : Z := 16.
Definition MMAP_REGION_FLAG_EXTERNAL : Z := 32.
Definition MMAP_REGION_FLAG_NO_WRITEBACK : Z := 64.
Definition MMAP_REGION_FLAG_STACK : Z := 128.
Definition MMAP_REGION_FLAG_NO_ALLOC : Z := 256.

(** The key of a region is its address. *)
Record mmap_region_t := Region { r_length : Z; r_flags : Z; r_file : option Z }.

(** The trees and addresses of [mmap_t]. *)
Record space_t := Space {
  bottom_address : Z;
  break_address : Z;
  heap_address : Z;
  top_address : Z;
  address_tree : gmap Z mmap_region_t;
  length_tree : gmap Z (list Z);
  free_address_tree : gmap Z Z
}.

Definition set_heap (m : space_t) (x : Z) : space_t := Space (bottom_address m) (break_address m) x (top_address m) (address_tree m) (length_tree m) (free_address_tree m).
Definition set_regions (m : space_t) (t : gmap Z mmap_region_t) : space_t := Space (bottom_address m) (break_address m) (heap_address m) (top_address m) t (length_tree m) (free_address_tree m).
Definition set_free (m : space_t) (l : gmap Z (list Z)) (t : gmap Z Z) : space_t := Space (bottom_address m) (break_address m) (heap_address m) (top_address m) (address_tree m) l t.

(** [rb_tree_insert_node] *)
Definition insert_node {A} (t : gmap Z A) (key : Z) (x : A) : option (gmap Z A) := match t !! key with Some _ => None | None => Some (<[key := x]> t) end.

(** [address]: the key of the free region, [length] that of its group. *)
Definition _pop_free_region (m : space_t) (address length : Z) : space_t :=
  let l := filter (fun a => a <> address) (default [] (length_tree m !! length)) in
  set_free m (match l with [] => delete length (length_tree m) | _ => <[length := l]> (length_tree m) end) (delete address (free_address_tree m)).

(** The free region behind the new one is looked up and left alone. *)
Definition _push_free_region (m : space_t) (address length : Z) : option space_t :=
  let '(m, address, length) :=
    match lookup_decreasing (free_address_tree m) address with
    | Some (key, n) => if u64 (key + n) =? address then (_pop_free_region m key n, u64 (address - n), u64 (length + n)) else (m, address, length)
    | None => (m, address, length)
    end in
  if address =? heap_address m then Some (set_heap m (u64 (heap_address m + length)))
  else
    t ← insert_node (free_address_tree m) address length;
    Some (set_free m (<[length := address :: default [] (length_tree m !! length)]> (length_tree m)) t).

Definition guard_page_size (flags : Z) : Z :=
  if z2b (Z.land flags MMAP_REGION_FLAG_STACK) then Z.shiftl MMAP_STACK_GUARD_PAGE_COUNT PAGE_SIZE_SHIFT else 0.

(** The address for a region of [length] bytes: the first free region of the
    smallest length that is enough, or the end of the gap.  The inner [None] is
    the failed allocation. *)
Definition alloc_space (m : space_t) (length : Z) : option (space_t * option Z) :=
  match lookup_increasing (length_tree m) length with
  | Some (n, l) =>
    address ← head l;
    let m := _pop_free_region m address n in
    m ← (if length <? n then _push_free_region m (u64 (address + length)) (u64 (n - length)) else Some m);
    Some (m, Some address)
  | None =>
    if heap_address m <? u64 (break_address m + length) then Some (m, None)
    else let heap := u64 (heap_address m - length) in Some (set_heap m heap, Some heap)
  end.

(** The region that holds an address. *)
Definition find_region (m : space_t) (address : Z) : option (Z * mmap_region_t) :=
  match lookup_decreasing (address_tree m) address with
  | Some (key, region) => if u64 (key + r_length region) <=? address then None else Some (key, region)
  | None => None
  end.

(** [mmap_t] with its page tables and the reference counts of the files. *)
Record mmap_t (P : Type) := Mmap { space : space_t; pagemap : vmm_t P; references : gmap Z Z }.
Arguments Mmap {P} _ _ _.
Arguments space {P} _.
Arguments pagemap {P} _.
Arguments references {P} _.

Section operations.
Context {P : Type} `{PageAllocator P}.
Context (file_size : Z -> Z) (file_page : Z -> Z -> Z -> Z).
Implicit Types (m : mmap_t P) (region : mmap_region_t).

Definition set_space m (s : space_t) : mmap_t P := Mmap s (pagemap m) (references m).
Definition set_pagemap m (v : vmm_t P) : mmap_t P := Mmap (space m) v (references m).

(** [vfs_node_ref] and [vfs_node_unref] *)
Definition ref_file m (file : option Z) (d : Z) : mmap_t P :=
  match file with Some f => Mmap (space m) (pagemap m) (<[f := default 0 (references m !! f) + d]> (references m)) | None => m end.

(** The invalidation of the processor's cache of translations is left out. *)
Definition _unmap_address m (region : option mmap_region_t) (address : Z) : option (mmap_t P) :=
  '(v, entry) ← vmm_unmap_page (pagemap m) address;
  let entry := Z.land entry VMM_PAGE_ADDRESS_MASK in
  if entry =? 0 then Some (set_pagemap m v)
  else
    let external := match region with Some r => z2b (Z.land (r_flags r) MMAP_REGION_FLAG_EXTERNAL) | None => false end in
    if external then Some (set_pagemap m v)
    else
      let writeback := match region with
                       | Some r => match r_file r with Some _ => negb (z2b (Z.land (r_flags r) MMAP_REGION_FLAG_NO_WRITEBACK)) | None => false end
                       | None => false
                       end in
      if writeback then None
      else v ← dealloc_table v entry; Some (set_pagemap m v).

(** [for (address=0;address<region->length;address+=PAGE_SIZE)], [n] rounds. *)
Fixpoint unmap_loop (n : nat) m region (key address : Z) : option (mmap_t P) :=
  match n with
  | O => Some m
  | S n => m ← _unmap_address m (Some region) (u64 (key + address)); unmap_loop n m region key (address + PAGE_SIZE)
  end.

Definition _dealloc_region m (key : Z) region (push_free_region : bool) : option (mmap_t P) :=
  let m := set_space m (set_regions (space m) (delete key (address_tree (space m)))) in
  m ← unmap_loop (Z.to_nat ((r_length region + PAGE_SIZE - 1) / PAGE_SIZE)) m region key 0;
  let m := ref_file m (r_file region) (-1) in
  if push_free_region then
    let guard := guard_page_size (r_flags region) in
    s ← _push_free_region (space m) (u64 (key - guard)) (u64 (r_length region + guard));
    Some (set_space m s)
  else Some m.

Definition mmap_init (v : vmm_t P) (bottom top : Z) (references : gmap Z Z) : mmap_t P := Mmap (Space bottom bottom top top ∅ ∅ ∅) v references.

(** Regions are released from the lowest one on; then the free regions go. *)
Fixpoint mmap_deinit (fuel : nat) m : option (mmap_t P) :=
  match lookup_increasing (address_tree (space m)) 0 with
  | None => Some (set_space m (set_free (space m) ∅ (free_address_tree (space m))))
  | Some (key, region) =>
    match fuel with
    | O => None
    | S fuel => m ← _dealloc_region m key region false; mmap_deinit fuel m
    end
  end.

(** The content of the file, up to its end, in a new page. *)
Definition fill_page (v : vmm_t P) (out : Z) (f : Z -> Z) : vmm_t P :=
  Vmm (toplevel v) (fun b => let d := b - u64 (out + VMM_HIGHER_HALF_ADDRESS_OFFSET) in
    if (0 <=? d) && (d <? PAGE_SIZE) && (d mod 8 =? 0) then f (d / 8) else words v b) (frames v).

Definition page_flags region : Z :=
  let flags := VMM_PAGE_FLAG_PRESENT in
  let flags := if z2b (Z.land (r_flags region) MMAP_REGION_FLAG_VMM_USER) then Z.lor flags VMM_PAGE_FLAG_USER else flags in
  let flags := if z2b (Z.land (r_flags region) MMAP_REGION_FLAG_VMM_WRITE) then Z.lor flags VMM_PAGE_FLAG_READWRITE else flags in
  if negb (z2b (Z.land (r_flags region) MMAP_REGION_FLAG_VMM_EXEC)) then Z.lor flags VMM_PAGE_FLAG_NOEXECUTE else flags.

(** The content of a file is there when the faulting thread goes on. *)
Definition mmap_handle_pf m (address : Z) : option (mmap_t P * Z) :=
  match lookup_decreasing (address_tree (space m)) address with
  | None => Some (m, 0)
  | Some (key, region) =>
    if z2b (Z.land (r_flags region) MMAP_REGION_FLAG_NO_ALLOC) || (u64 (key + r_length region) <=? address) then Some (m, 0)
    else
      '(v, out) ← alloc_table (pagemap m);
      v ← vmm_map_page v out address (page_flags region);
      match r_file region with
      | None => Some (set_pagemap m v, out)
      | Some f => Some (set_pagemap m (fill_page v out (file_page f (u64 (address - key)))), out)
      end
  end.

(** [for (offset=address;offset<end;offset+=PAGE_SIZE)] *)
Fixpoint commit_loop (n : nat) m (offset : Z) : option (mmap_t P) :=
  match n with
  | O => Some m
  | S n => '(m, _) ← mmap_handle_pf m offset; commit_loop n m (u64 (offset + PAGE_SIZE))
  end.

(** The inner [None] is [NULL]. *)
Definition mmap_alloc m (address length flags : Z) (file : option Z) : option (mmap_t P * option Z) :=
  if z2b (Z.land (Z.lor address length) (PAGE_SIZE - 1)) then Some (m, None)
  else
    let length := match file with Some f => if length =? 0 then pmm_align_up_address (file_size f) else length | None => length end in
    if (length =? 0) || z2b (Z.shiftr length 47) then Some (m, None)
    else
      let guard := guard_page_size flags in
      let length := length + guard in
      '(s, found) ← (if address =? 0 then alloc_space (space m) length else Some (space m, Some address));
      match found with
      | None => Some (set_space m s, None)
      | Some address =>
        let m := ref_file (set_space m s) file 1 in
        let key := u64 (address + guard) in
        t ← insert_node (address_tree (space m)) key (Region (u64 (length - guard)) flags file);
        let m := set_space m (set_regions (space m) t) in
        m ← (if z2b (Z.land flags MMAP_REGION_FLAG_COMMIT) then commit_loop (Z.to_nat ((length - guard) / PAGE_SIZE)) m key else Some m);
        Some (m, Some key)
      end.

Definition mmap_dealloc m (address length : Z) : option (mmap_t P * bool) :=
  match find_region (space m) address with
  | None => Some (m, false)
  | Some (key, region) =>
    let length := if length =? 0 then u64 (key + r_length region - address) else length in
    if negb (key =? address) || negb (r_length region =? length) then None
    else m ← _dealloc_region m key region true; Some (m, true)
  end.

Definition mmap_dealloc_region m (key : Z) : option (mmap_t P) :=
  region ← address_tree (space m) !! key;
  _dealloc_region m key region true.

Definition mmap_lookup m (address : Z) : option (Z * mmap_region_t) := find_region (space m) address.

Definition mmap_unmap_address m (address : Z) : option (mmap_t P) := _unmap_address m (snd <$> find_region (space m) address) address.

(** ** System calls *)

Inductive result := Value (x : Z) | ERROR_OK | ERROR_NO_MEMORY | ERROR_INVALID_HANDLE | ERROR_DENIED | ERROR_INVALID_ARGUMENT (index : Z).

Definition map_flags (flags : Z) : Z :=
  let f := MMAP_REGION_FLAG_VMM_USER in
  let f := if z2b (Z.land flags USER_MEMORY_FLAG_WRITE) then Z.lor f MMAP_REGION_FLAG_VMM_WRITE else f in
  let f := if z2b (Z.land flags USER_MEMORY_FLAG_EXEC) then Z.lor f MMAP_REGION_FLAG_VMM_EXEC else f in
  let f := if z2b (Z.land flags USER_MEMORY_FLAG_NOWRITEBACK) then Z.lor f MMAP_REGION_FLAG_NO_WRITEBACK else f in
  if z2b (Z.land flags USER_MEMORY_FLAG_STACK) then Z.lor f MMAP_REGION_FLAG_STACK else f.

(** [fd]: the file of a descriptor, which [fd_get_node] references, and whether
    the descriptor allows input and output. *)
Definition syscall_memory_map m (size flags : Z) (fd : option (Z * bool)) : option (mmap_t P * result) :=
  let use := z2b (Z.land flags USER_MEMORY_FLAG_FILE) in
  match use, fd with
  | true, None => Some (m, ERROR_INVALID_HANDLE)
  | true, Some (f, false) => Some (ref_file m (Some f) 1, ERROR_DENIED)
  | _, _ =>
    let file := if use then fst <$> fd else None in
    let m := ref_file m file 1 in
    '(m, out) ← mmap_alloc m 0 (pmm_align_up_address size) (map_flags flags) file;
    let m := ref_file m file (-1) in
    Some (m, match out with Some key => Value key | None => ERROR_NO_MEMORY end)
  end.

(** [n] pages from [offset] on. *)
Fixpoint change_flags_loop (n : nat) m (offset set_flags : Z) : option (mmap_t P * result) :=
  match n with
  | O => Some (m, ERROR_OK)
  | S n =>
    '(m, there) ← (if z2b (vmm_virtual_to_physical (pagemap m) offset) then Some (m, true)
                   else '(m, out) ← mmap_handle_pf m offset; Some (m, z2b out));
    if there : bool then
      let m := set_pagemap m (vmm_adjust_flags 1 (pagemap m) offset set_flags (Z.lor VMM_PAGE_FLAG_NOEXECUTE VMM_PAGE_FLAG_READWRITE)) in
      change_flags_loop n m (u64 (offset + PAGE_SIZE)) set_flags
    else Some (m, ERROR_INVALID_ARGUMENT 0)
  end.

(** The number of rounds of [for (offset=address;offset<address+size;offset+=PAGE_SIZE)];
    the end wraps like the sum. *)
Definition syscall_memory_change_flags m (address size flags : Z) : option (mmap_t P * result) :=
  let set_flags := if z2b (Z.land flags USER_MEMORY_FLAG_WRITE) then VMM_PAGE_FLAG_READWRITE else 0 in
  let set_flags := if negb (z2b (Z.land flags USER_MEMORY_FLAG_EXEC)) then Z.lor set_flags VMM_PAGE_FLAG_NOEXECUTE else set_flags in
  let size := pmm_align_up_address (u64 (size + Z.land address (PAGE_SIZE - 1))) in
  let address := pmm_align_down_address address in
  change_flags_loop (Z.to_nat ((u64 (address + size) - address) / PAGE_SIZE)) m address set_flags.

Definition syscall_memory_get_size m (address : Z) : result :=
  match mmap_lookup m address with Some (_, region) => Value (r_length region) | None => ERROR_INVALID_ARGUMENT 0 end.

Definition syscall_memory_unmap m (address size : Z) : option (mmap_t P * result) :=
  '(m, done) ← mmap_dealloc m (pmm_align_down_address address) (pmm_align_up_address (u64 (size + Z.land address (PAGE_SIZE - 1))));
  Some (m, if done : bool then ERROR_OK else ERROR_INVALID_ARGUMENT 0).
End operations.
