(* ===== verification/MmapSpace.v ===== *)
(** * The space of an address space
    The free regions, the gap and the regions of [Mmap.v] never overlap; taking
    space and giving it back conserves it. *)
From stdpp Require Import base tactics list numbers option gmap.
From Stdlib Require Import ZArith Lia.
From S2P Require Import Prelude TreeMap Mmap.
#[local] Open Scope Z_scope.

(** The blocks that space is cut into: a free region, named by its address, or a
    region with the guard pages in front of it, named by its key. *)
Inductive block (m : space_t) : Z + Z -> Z -> Z -> Prop :=
| block_free a l : free_address_tree m !! a = Some l -> block m (inl a) a l
| block_used k r : address_tree m !! k = Some r -> block m (inr k) (k - guard_page_size (r_flags r)) (r_length r + guard_page_size (r_flags r)).

Definition apart (a l a' l' : Z) : Prop := a + l <= a' \/ a' + l' <= a.

(** A range that may become a block: beside the gap. *)
Definition range_ok (m : space_t) (a l : Z) : Prop := 0 < l /\ 0 <= a /\ a + l < 2 ^ 64 /\ (a + l <= break_address m \/ heap_address m <= a \/ heap_address m <= break_address m).

Record space_ok (m : space_t) : Prop := {
  so_bounds : 0 <= break_address m <= heap_address m /\ heap_address m < 2 ^ 64;
  so_block o a l : block m o a l -> range_ok m a l;
  so_apart o o' a l a' l' : block m o a l -> block m o' a' l' -> o <> o' -> apart a l a' l';
  so_groups l a : a ∈ default [] (length_tree m !! l) <-> free_address_tree m !! a = Some l;
  so_group l : length_tree m !! l <> Some [];
  so_length k r : address_tree m !! k = Some r -> 0 < r_length r
}.

(** The addresses that are free, and those in use. *)
Definition free_at (m : space_t) (x : Z) : Prop := exists a l, free_address_tree m !! a = Some l /\ a <= x < a + l.
Definition available (m : space_t) (x : Z) : Prop := free_at m x \/ break_address m <= x < heap_address m.
Definition in_use (m : space_t) (x : Z) : Prop := exists k r, address_tree m !! k = Some r /\ k - guard_page_size (r_flags r) <= x < k + r_length r.

Lemma guard_range flags : 0 <= guard_page_size flags <= 2 ^ 14.
Proof. unfold guard_page_size. destruct (z2b (Z.land flags MMAP_REGION_FLAG_STACK)); [change (Z.shiftl MMAP_STACK_GUARD_PAGE_COUNT Vmm.PAGE_SIZE_SHIFT) with (2 ^ 14)|]; lia. Qed.

(** ** Free regions *)

Lemma pop_lookup m a l l' : space_ok m -> free_address_tree m !! a = Some l -> default [] (length_tree (_pop_free_region m a l) !! l') = if decide (l' = l) then filter (fun x => x <> a) (default [] (length_tree m !! l)) else default [] (length_tree m !! l').
Proof.
  intros Hs Ha. unfold _pop_free_region. cbn [set_free length_tree]. destruct (filter _ (default [] (length_tree m !! l))) as [| x t] eqn:Ef.
  - destruct (decide (l' = l)) as [-> |]; [by rewrite lookup_delete_eq | by rewrite lookup_delete_ne].
  - destruct (decide (l' = l)) as [-> |]; [by rewrite lookup_insert_eq | by rewrite lookup_insert_ne].
Qed.

Lemma pop_region_ok m a l : space_ok m -> free_address_tree m !! a = Some l ->
  let m' := _pop_free_region m a l in
  space_ok m' /\ free_address_tree m' = delete a (free_address_tree m) /\ address_tree m' = address_tree m /\ heap_address m' = heap_address m /\ break_address m' = break_address m /\
  (forall o x n, block m' o x n -> block m o x n /\ apart a l x n).
Proof.
  intros Hs Ha m'. assert (Hsub : forall o x n, block m' o x n -> block m o x n /\ o <> inl a).
  { intros o x n [y k Hy | k r Hr]; cbn [m' _pop_free_region set_free free_address_tree address_tree] in *; [apply lookup_delete_Some in Hy as [Hne Hy]; split; [by constructor | congruence] | split; [by constructor | done]]. }
  split_and!; [| done | done | done | done |].
  - destruct Hs. split; [done | | | | | done].
    + intros o x n Hb. apply (so_block0 o), Hsub, Hb.
    + intros o o' x n x' n' Hb Hb'. apply so_apart0; by apply Hsub.
    + intros l' x. unfold m'. rewrite pop_lookup by done. cbn [_pop_free_region set_free free_address_tree]. destruct (decide (l' = l)) as [-> | Hne].
      * rewrite list_elem_of_filter, so_groups0, lookup_delete_Some. naive_solver.
      * rewrite so_groups0, lookup_delete_Some. split; [intros Hx; split; [congruence | done] | naive_solver].
    + intros l' E. unfold m' in E. cbn [_pop_free_region set_free length_tree] in E. destruct (filter _ _) as [| x t]; [apply lookup_delete_Some in E as [_ E] | apply lookup_insert_Some in E as [[_ E] | [_ E]]; [done|]]; by apply so_group0 in E.
  - intros o x n Hb. destruct (Hsub _ _ _ Hb) as [Hb0 Hne]. split; [done|]. eapply (so_apart _ Hs); [by constructor | exact Hb0 | congruence].
Qed.

(** A range that overlaps nothing. *)
Definition vacant (m : space_t) (a l : Z) : Prop := range_ok m a l /\ forall o a' l', block m o a' l' -> apart a l a' l'.

(** The range becomes a free region, or part of the gap. *)
Lemma push_plain m a l : space_ok m -> vacant m a l ->
  exists m', (if a =? heap_address m then Some (set_heap m (u64 (heap_address m + l)))
    else t ← insert_node (free_address_tree m) a l; Some (set_free m (<[l := a :: default [] (length_tree m !! l)]> (length_tree m)) t)) = Some m' /\
    space_ok m' /\ address_tree m' = address_tree m /\ break_address m' = break_address m /\ forall x, available m' x <-> available m x \/ a <= x < a + l.
Proof.
  intros Hs [(Hl & Ha & Hend & Hgap) Hv]. pose proof (so_bounds _ Hs) as [Hb Hb']. destruct (Z.eqb_spec a (heap_address m)) as [-> | Hne].
  - rewrite u64_id by lia. eexists. split; [done|]. split_and!; [| done | done |].
    + destruct Hs. split; cbn [set_heap break_address heap_address length_tree free_address_tree]; [lia | | | done | done | done].
      * intros o x n Hblk. assert (Hblk0 : block m o x n) by (destruct Hblk; by constructor). destruct (so_block0 _ _ _ Hblk0) as (H1 & H2 & H3 & H4). specialize (Hv _ _ _ Hblk0). unfold range_ok, apart in *. cbn [set_heap break_address heap_address]. lia.
      * intros o o' x n x' n' H1 H2. apply so_apart0; [destruct H1 | destruct H2]; by constructor.
    + intros x. unfold available, free_at. cbn [set_heap free_address_tree break_address heap_address]. split; [intros [H | H]; [tauto|]; lia | intros [[H | H] | H]; [by left | lia | lia]].
  - assert (Hfree : free_address_tree m !! a = None).
    { destruct (free_address_tree m !! a) as [n |] eqn:E; [| done]. specialize (Hv _ _ _ (block_free m a n E)). destruct (so_block _ Hs _ _ _ (block_free m a n E)) as (? & _). unfold apart in Hv. lia. }
    unfold insert_node. rewrite Hfree. cbn [mbind option_bind]. eexists. split; [done|]. set (m' := set_free _ _ _).
    assert (Hnew : forall o x n, block m' o x n -> block m o x n \/ (o = inl a /\ x = a /\ n = l)).
    { intros o x n [y k Hy | k r Hr]; cbn [m' set_free free_address_tree address_tree] in *; [apply lookup_insert_Some in Hy as [[<- <-] | [_ Hy]]; [by right | left; by constructor] | left; by constructor]. }
    split_and!; [| done | done |].
    + destruct Hs. split; cbn [m' set_free break_address heap_address length_tree free_address_tree]; [done | | | | | done].
      * intros o x n Hblk. destruct (Hnew _ _ _ Hblk) as [Hblk0 | (-> & -> & ->)]; [by apply so_block0 in Hblk0 | done].
      * intros o o' x n x' n' H1 H2 Hoo. destruct (Hnew _ _ _ H1) as [H1' | (-> & -> & ->)], (Hnew _ _ _ H2) as [H2' | (-> & -> & ->)]; [by eapply so_apart0 | | by eapply Hv | done].
        specialize (Hv _ _ _ H1'). unfold apart in *. lia.
      * intros n x. destruct (decide (n = l)) as [-> | Hnl].
        { rewrite lookup_insert_eq. cbn [from_option id]. rewrite elem_of_cons, so_groups0, lookup_insert_Some. split; [intros [-> | E]; [by left | right; split; [congruence | done]] | naive_solver]. }
        { rewrite lookup_insert_ne by done. rewrite so_groups0, lookup_insert_Some. split; [intros E; right; split; [congruence | done] | naive_solver]. }
      * intros n E. apply lookup_insert_Some in E as [[_ E] | [_ E]]; [done | by apply so_group0 in E].
    + intros x. unfold available, free_at. cbn [m' set_free free_address_tree break_address heap_address]. split.
      * intros [(y & n & Hy & Hx) | H]; [| tauto]. apply lookup_insert_Some in Hy as [[<- <-] | [_ Hy]]; [by right | left; left; eauto].
      * intros [[(y & n & Hy & Hx) | H] | H]; [| by right |]; left; [exists y, n | exists a, l]; rewrite lookup_insert_Some; [split; [right; split; [congruence | done] | done] | split; [by left | done]].
Qed.

Lemma push_region_ok m a l : space_ok m -> vacant m a l ->
  exists m', _push_free_region m a l = Some m' /\ space_ok m' /\ address_tree m' = address_tree m /\ break_address m' = break_address m /\ forall x, available m' x <-> available m x \/ a <= x < a + l.
Proof.
  intros Hs Hv. unfold _push_free_region. pose proof (decreasing_spec (free_address_tree m) a) as Hd. destruct (lookup_decreasing (free_address_tree m) a) as [[k n] |]; [| by apply push_plain].
  destruct Hd as (Hk & Hle & _). pose proof (so_block _ Hs _ _ _ (block_free m k n Hk)) as (Hn & Hk0 & Hend & Hkg). destruct Hv as [(Hl & Ha & Hae & Hag) Hv].
  rewrite u64_id by lia. destruct (Z.eqb_spec (k + n) a) as [E | Hne]; [| apply push_plain; [done | by split]].
  rewrite (u64_id (a - n)), (u64_id (l + n)) by lia. destruct (pop_region_ok m k n Hs Hk) as (Hs' & Ef & Er & Eh & Eb & Hsub). set (m1 := _pop_free_region m k n) in *.
  destruct (push_plain m1 (a - n) (l + n) Hs') as (m' & E' & Hs2 & Er' & Eb' & Hav).
  { split.
    - unfold range_ok. rewrite Eh, Eb. split_and!; [lia | lia | lia |]. pose proof (so_bounds _ Hs). lia.
    - intros o a' l' Hb. destruct (Hsub _ _ _ Hb) as [Hb0 Hap]. specialize (Hv _ _ _ Hb0). pose proof (so_block _ Hs _ _ _ Hb0) as (? & _). unfold apart in *. lia. }
  exists m'. split_and!; [exact E' | done | congruence | congruence |]. intros x. rewrite Hav. unfold available, free_at. rewrite Ef, Eh, Eb. split.
  - intros [[(y & j & Hy & Hx) | H] | H].
    + apply lookup_delete_Some in Hy as [_ Hy]. left. left. eauto.
    + tauto.
    + destruct (Z.lt_ge_cases x a); [left; left; exists k, n; split; [done | lia] | right; lia].
  - intros [[(y & j & Hy & Hx) | H] | H]; [| tauto | right; lia]. destruct (decide (y = k)) as [-> | Hyk]; [right; simplify_eq; lia|].
    left. left. exists y, j. rewrite lookup_delete_Some. by split.
Qed.

(** ** Points *)

Lemma vacant_points m a l x : vacant m a l -> a <= x < a + l -> ~ available m x /\ ~ in_use m x.
Proof.
  intros [(Hl & Ha & He & Hg) Hv] Hx. split.
  - intros [(y & n & Hy & Hxy) | H]; [| lia]. specialize (Hv _ _ _ (block_free m y n Hy)). unfold apart in Hv. lia.
  - intros (k & r & Hk & Hxk). specialize (Hv _ _ _ (block_used m k r Hk)). unfold apart in Hv. lia.
Qed.

Lemma points_vacant m a l : space_ok m -> 0 < l -> 0 <= a -> a + l < 2 ^ 64 -> (forall x, a <= x < a + l -> ~ available m x /\ ~ in_use m x) -> vacant m a l.
Proof.
  intros Hs Hl Ha He Hp. pose proof (so_bounds _ Hs). split.
  - split_and!; [done | done | done |]. destruct (Z.lt_ge_cases (Z.max a (break_address m)) (a + l)) as [H1 |]; [| lia].
    destruct (Z.lt_ge_cases (Z.max a (break_address m)) (heap_address m)) as [H2 |]; [| lia].
    destruct (Hp (Z.max a (break_address m)) ltac:(lia)) as [Hna _]. destruct Hna. right. lia.
  - intros o a' l' Hb. pose proof (so_block _ Hs _ _ _ Hb) as (Hl' & _). destruct (Z.lt_ge_cases (Z.max a a') (Z.min (a + l) (a' + l'))) as [H1 |]; [| unfold apart; lia].
    exfalso. destruct (Hp (Z.max a a') ltac:(lia)) as [Hna Hnu]. destruct Hb as [y n Hy | k r Hr].
    + apply Hna. left. exists y, n. split; [done | lia].
    + apply Hnu. exists k, r. split; [done | lia].
Qed.

Lemma in_use_same m m' x : address_tree m' = address_tree m -> in_use m' x <-> in_use m x.
Proof. intros E. unfold in_use. by rewrite E. Qed.

Lemma used_not_available m x : space_ok m -> in_use m x -> ~ available m x.
Proof.
  intros Hs (k & r & Hk & Hx) [(y & n & Hy & Hxy) | H].
  - pose proof (so_apart _ Hs _ _ _ _ _ _ (block_used m k r Hk) (block_free m y n Hy) ltac:(done)) as Ha. unfold apart in Ha. lia.
  - pose proof (so_block _ Hs _ _ _ (block_used m k r Hk)) as (_ & _ & _ & Hg). lia.
Qed.

(** ** Taking space *)

Lemma pop_points m a l x : space_ok m -> free_address_tree m !! a = Some l -> available (_pop_free_region m a l) x <-> available m x /\ ~ (a <= x < a + l).
Proof.
  intros Hs Ha. pose proof (so_block _ Hs _ _ _ (block_free m a l Ha)) as (_ & _ & _ & Hg). unfold available, free_at. cbn [_pop_free_region set_free free_address_tree heap_address break_address]. split.
  - intros [(y & n & Hy & Hx) | H]; [| split; [by right | lia]]. apply lookup_delete_Some in Hy as [Hne Hy]. split; [left; eauto|].
    pose proof (so_apart _ Hs _ _ _ _ _ _ (block_free m a l Ha) (block_free m y n Hy) ltac:(congruence)) as Hap. unfold apart in Hap. lia.
  - intros [[(y & n & Hy & Hx) | H] Hout]; [| by right]. left. exists y, n. rewrite lookup_delete_Some. split; [| done]. split; [| done]. intros ->. simplify_eq. lia.
Qed.

Definition taken (m m' : space_t) (a l : Z) : Prop :=
  vacant m' a l /\ (forall x, a <= x < a + l -> available m x) /\ forall x, available m' x <-> available m x /\ ~ (a <= x < a + l).

Lemma alloc_space_ok m l : space_ok m -> 0 < l -> break_address m + l < 2 ^ 64 ->
  exists m' found, alloc_space m l = Some (m', found) /\ space_ok m' /\ address_tree m' = address_tree m /\ break_address m' = break_address m /\
    match found with
    | Some a => taken m m' a l
    | None => m' = m /\ heap_address m < break_address m + l /\ forall a n, free_address_tree m !! a = Some n -> n < l
    end.
Proof.
  intros Hs Hl Hbl. unfold alloc_space. pose proof (increasing_spec (length_tree m) l) as Hi. destruct (lookup_increasing (length_tree m) l) as [[n g] |].
  - destruct Hi as (Hg & Hn & _). destruct g as [| a g]; [by apply (so_group _ Hs) in Hg|]. cbn [head mbind option_bind].
    assert (Ha : free_address_tree m !! a = Some n) by (apply (so_groups _ Hs); rewrite Hg; cbn; set_solver).
    pose proof (so_block _ Hs _ _ _ (block_free m a n Ha)) as (_ & Ha0 & Hae & Hag). destruct (pop_region_ok m a n Hs Ha) as (Hs1 & Ef & Er & Eh & Eb & Hsub). set (m1 := _pop_free_region m a n) in *.
    assert (Hp1 : forall x, available m1 x <-> available m x /\ ~ (a <= x < a + n)) by (intros x; by apply pop_points).
    assert (Hin : forall x, a <= x < a + n -> available m x) by (intros x Hx; left; exists a, n; by split).
    assert (Hu1 : forall x, a <= x < a + n -> ~ available m1 x /\ ~ in_use m1 x).
    { intros x Hx. split; [rewrite Hp1; tauto|]. rewrite in_use_same by exact Er. intros Hu. by eapply used_not_available; [| | apply Hin]. }
    destruct (Z.ltb_spec l n) as [Hlt | Hge].
    + rewrite (u64_id (a + l)), (u64_id (n - l)) by lia. destruct (push_region_ok m1 (a + l) (n - l) Hs1) as (m2 & E2 & Hs2 & Er2 & Eb2 & Hp2).
      { apply points_vacant; [done | lia | lia | lia |]. intros x Hx. apply Hu1. lia. }
      rewrite E2. cbn [mbind option_bind]. exists m2, (Some a). split_and!; [done | done | congruence | congruence |]. split_and!.
      * apply points_vacant; [done | done | lia | lia |]. intros x Hx. rewrite Hp2, (in_use_same m1) by done. destruct (Hu1 x ltac:(lia)). split; [| done]. intros [? | ?]; [done | lia].
      * intros x Hx. apply Hin. lia.
      * intros x. rewrite Hp2, Hp1. split; [intros [[? ?] | ?]; [split; [done | lia] | split; [apply Hin; lia | lia]] | intros [? ?]]. destruct (Z.lt_ge_cases x a); [left; split; [done | lia]|]. destruct (Z.lt_ge_cases x (a + n)); [right; lia | left; split; [done | lia]].
    + cbn [mbind option_bind]. replace n with l in * by lia. exists m1, (Some a). split_and!; [done | done | done | done |]. split_and!; [| done | done]. apply points_vacant; [done | done | lia | lia | done].
  - rewrite u64_id by (pose proof (so_bounds _ Hs); lia). destruct (Z.ltb_spec (heap_address m) (break_address m + l)) as [Hlt | Hge].
    + exists m, None. split_and!; try done. intros a n Ha. apply Hi. apply (so_groups _ Hs) in Ha. destruct (length_tree m !! n) as [g |]; [by eexists | by apply not_elem_of_nil in Ha].
    + pose proof (so_bounds _ Hs) as [Hb Hb']. rewrite u64_id by lia. do 2 eexists. split; [done|].
      assert (Hs' : space_ok (set_heap m (heap_address m - l))).
      { destruct Hs. split; cbn [set_heap break_address heap_address length_tree free_address_tree]; [lia | | | done | done | done].
        - intros o x n Hblk. assert (Hblk0 : block m o x n) by (destruct Hblk; by constructor). destruct (so_block0 _ _ _ Hblk0) as (H1 & H2 & H3 & H4). unfold range_ok. cbn [set_heap break_address heap_address]. lia.
        - intros o o' x n x' n' H1 H2. apply so_apart0; [destruct H1 | destruct H2]; by constructor. }
      assert (Hp : forall x, available (set_heap m (heap_address m - l)) x <-> available m x /\ ~ (heap_address m - l <= x < heap_address m - l + l)).
      { intros x. unfold available, free_at. cbn [set_heap free_address_tree break_address heap_address]. split; [intros [(y & n & Hy & Hx) | H] | intros [[H | H] Hn]; [by left | right; lia]].
        - split; [left; eauto|]. pose proof (so_block _ Hs _ _ _ (block_free m y n Hy)) as (_ & _ & _ & Hg). lia.
        - split; [right; lia | lia]. }
      split_and!; [done | done | done |]. split_and!; [| intros x Hx; right; lia | done].
      apply points_vacant; [done | done | lia | lia |]. intros x Hx. rewrite Hp. split; [lia|]. rewrite (in_use_same m) by done. intros Hu. apply (used_not_available _ _ Hs Hu). right. lia.
Qed.

(** ** Regions *)

Lemma insert_region_ok m a r : space_ok m -> 0 < r_length r -> let g := guard_page_size (r_flags r) in vacant m a (r_length r + g) ->
  exists t, insert_node (address_tree m) (u64 (a + g)) r = Some t /\ t = <[a + g := r]> (address_tree m) /\
    let m' := set_regions m t in space_ok m' /\ (forall x, available m' x <-> available m x) /\ forall x, in_use m' x <-> in_use m x \/ a <= x < a + r_length r + g.
Proof.
  intros Hs Hr g Hv. pose proof (guard_range (r_flags r)) as Hg. fold g in Hg. destruct Hv as [(Hl & Ha & He & Hgap) Hv]. rewrite u64_id by lia.
  assert (Hnew : address_tree m !! (a + g) = None).
  { destruct (address_tree m !! (a + g)) as [r' |] eqn:E; [| done]. pose proof (guard_range (r_flags r')). pose proof (so_block _ Hs _ _ _ (block_used m _ r' E)) as (? & _). specialize (Hv _ _ _ (block_used m _ r' E)). unfold apart in Hv.
    pose proof (so_length _ Hs _ _ E). lia. }
  unfold insert_node. rewrite Hnew. eexists. split; [done|]. split; [done|]. cbv zeta. set (m' := set_regions _ _).
  assert (Hb : forall o x n, block m' o x n -> block m o x n \/ (o = inr (a + g) /\ x = a /\ n = r_length r + g)).
  { intros o x n [y k Hy | k q Hq]; cbn [m' set_regions free_address_tree address_tree] in *; [left; by constructor|]. apply lookup_insert_Some in Hq as [[<- <-] | [_ Hq]]; [right; fold g; split_and!; [done | lia | done] | left; by constructor]. }
  split_and!; [| done |].
  - destruct Hs. split; cbn [m' set_regions break_address heap_address length_tree free_address_tree]; [done | | | done | done |].
    + intros o x n H1. destruct (Hb _ _ _ H1) as [H2 | (-> & -> & ->)]; [by apply so_block0 in H2 | done].
    + intros o o' x n x' n' H1 H2 Hne. destruct (Hb _ _ _ H1) as [H1' | (-> & -> & ->)], (Hb _ _ _ H2) as [H2' | (-> & -> & ->)]; [by eapply so_apart0 | | by eapply Hv | done].
      specialize (Hv _ _ _ H1'). unfold apart in *. lia.
    + intros k q Hq. cbn [m' set_regions address_tree] in Hq. apply lookup_insert_Some in Hq as [[_ <-] | [_ Hq]]; [done | by eapply so_length0].
  - intros x. unfold in_use. cbn [m' set_regions address_tree]. split.
    + intros (k & q & Hq & Hx). apply lookup_insert_Some in Hq as [[<- <-] | [_ Hq]]; [right; fold g in Hx; lia | left; eauto].
    + intros [(k & q & Hq & Hx) | Hx]; [exists k, q | exists (a + g), r]; rewrite lookup_insert_Some; [split; [right; split; [congruence | done] | done] | split; [by left | fold g; lia]].
Qed.

Lemma delete_region_ok m k r : space_ok m -> address_tree m !! k = Some r -> let g := guard_page_size (r_flags r) in
  let m' := set_regions m (delete k (address_tree m)) in
  space_ok m' /\ vacant m' (k - g) (r_length r + g) /\ (forall x, available m' x <-> available m x) /\ forall x, in_use m' x <-> in_use m x /\ ~ (k - g <= x < k + r_length r).
Proof.
  intros Hs Hk g m'. pose proof (so_block _ Hs _ _ _ (block_used m k r Hk)) as Hrange. fold g in Hrange.
  assert (Hb : forall o x n, block m' o x n -> block m o x n /\ o <> inr k).
  { intros o x n [y j Hy | j q Hq]; cbn [m' set_regions free_address_tree address_tree] in *; [split; [by constructor | done]|]. apply lookup_delete_Some in Hq as [Hne Hq]. split; [by constructor | congruence]. }
  split_and!; [| | done |].
  - destruct Hs. split; cbn [m' set_regions break_address heap_address length_tree free_address_tree]; [done | | | done | done |].
    + intros o x n H1. by apply (so_block0 o), Hb.
    + intros o o' x n x' n' H1 H2. apply so_apart0; by apply Hb.
    + intros j q Hq. cbn [m' set_regions address_tree] in Hq. apply lookup_delete_Some in Hq as [_ Hq]. by eapply so_length0.
  - split; [done|]. intros o x n H1. destruct (Hb _ _ _ H1) as [H2 Hne]. eapply (so_apart _ Hs); [by apply block_used | exact H2 | congruence].
  - intros x. unfold in_use. cbn [m' set_regions address_tree]. split.
    + intros (j & q & Hq & Hx). apply lookup_delete_Some in Hq as [Hne Hq]. split; [eauto|]. pose proof (so_apart _ Hs _ _ _ _ _ _ (block_used m k r Hk) (block_used m j q Hq) ltac:(congruence)) as Hap. unfold apart in Hap. unfold g. lia.
    + intros [(j & q & Hq & Hx) Hn]. exists j, q. rewrite lookup_delete_Some. split; [| done]. split; [| done]. intros ->. simplify_eq. unfold g in Hn. lia.
Qed.

(** The region of an address. *)
Lemma find_region_ok m x : space_ok m ->
  match find_region m x with
  | Some (k, r) => address_tree m !! k = Some r /\ k <= x < k + r_length r
  | None => forall k r, address_tree m !! k = Some r -> ~ (k <= x < k + r_length r)
  end.
Proof.
  intros Hs. unfold find_region. pose proof (so_length _ Hs) as Hl. pose proof (decreasing_spec (address_tree m) x) as Hd.
  assert (Hend : forall k r, address_tree m !! k = Some r -> 0 <= k /\ k + r_length r < 2 ^ 64) by (intros k r Hk; pose proof (guard_range (r_flags r)); pose proof (so_block _ Hs _ _ _ (block_used m k r Hk)) as (? & ? & ? & _); lia).
  destruct (lookup_decreasing (address_tree m) x) as [[k r] |].
  - destruct Hd as (Hk & Hle & Hmax). destruct (Hend _ _ Hk). pose proof (Hl _ _ Hk). rewrite u64_id by lia. destruct (Z.leb_spec (k + r_length r) x) as [Hge | Hlt]; [| split; [done | lia]].
    intros k' r' Hk' Hx. pose proof (Hmax k' ltac:(by eexists) ltac:(lia)) as Hkk. assert (k' <> k) by (intros ->; simplify_eq; lia).
    pose proof (so_apart _ Hs _ _ _ _ _ _ (block_used m k r Hk) (block_used m k' r' Hk') ltac:(congruence)) as Hap. pose proof (guard_range (r_flags r)). pose proof (guard_range (r_flags r')). unfold apart in Hap. lia.
  - intros k r Hk Hx. specialize (Hd k ltac:(by eexists)). lia.
Qed.
