(* ===== verification/MmapPages.v ===== *)
(** * The pages of an address space
    The page tables and the page frames under the regions of [Mmap.v]. *)
From stdpp Require Import base tactics list numbers option gmap.
From Stdlib Require Import ZArith Lia.
From S2P Require Import Prelude TreeMap PmmView PmmInv Pages Vmm VmmTree VmmSpec VmmApi Mmap MmapSpace.
#[local] Open Scope Z_scope.

(** Case analysis on the next test of the goal. *)
Ltac next_test := match goal with |- context [if ?b then _ else _] => destruct b end.

(** ** The top-level table stays *)

Section toplevel.
Context {P : Type} `{PageAllocator P}.
Implicit Types (s : vmm_t P).

Lemma alloc_table_top s s' a : alloc_table s = Some (s', a) -> toplevel s' = toplevel s.
Proof. unfold alloc_table. destruct (page_alloc (frames s) 1) as [[p out] |]; [| done]. cbn. by intros [= <- <-]. Qed.

Lemma dealloc_table_top s s' a : dealloc_table s a = Some s' -> toplevel s' = toplevel s.
Proof. unfold dealloc_table. destruct (page_dealloc (frames s) a 1); [| done]. cbn. by intros [= <-]. Qed.

Lemma increase_top s table : z2b (Z.land (toplevel s) VMM_PAGE_FLAG_PRESENT) = false -> toplevel (_increase_length s table) = toplevel s.
Proof. intros Hp. unfold _increase_length. destruct table as [| a]; [cbn [get]; by rewrite Hp|]. by next_test. Qed.

Lemma get_child_top s table i alloc s' r : z2b (Z.land (toplevel s) VMM_PAGE_FLAG_PRESENT) = false -> _get_child_table s table i alloc = Some (s', r) ->
  toplevel s' = toplevel s /\ (forall t, r = Some t -> exists a, t = Entry a).
Proof.
  intros Hp. unfold _get_child_table. destruct (z2b (get s (entry_of s table i))); [intros [= <- <-]; split; [done|]; intros t [= <-]; unfold entry_of; eauto|].
  destruct alloc; cbn [negb]; [| by intros [= <- <-]]. destruct (alloc_table (_increase_length s table)) as [[s1 out] |] eqn:E; [| done]. cbn [mbind option_bind]. intros [= <- <-]. split.
  - rewrite <- (increase_top s table Hp), <- (alloc_table_top _ _ _ E). done.
  - intros t [= <-]. unfold entry_of. eauto.
Qed.

Lemma map_entry_top s table i e s' : z2b (Z.land (toplevel s) VMM_PAGE_FLAG_PRESENT) = false -> map_entry s table i e = Some s' -> toplevel s' = toplevel s.
Proof.
  intros Hp. unfold map_entry. next_test; [done|]. intros [= <-]. transitivity (toplevel (_increase_length_if_entry_empty s table i)); [done|]. unfold _increase_length_if_entry_empty. next_test; [by apply increase_top | done].
Qed.

Lemma map_page_top s pa va flags s' : z2b (Z.land (toplevel s) VMM_PAGE_FLAG_PRESENT) = false -> vmm_map_page s pa va flags = Some s' -> toplevel s' = toplevel s.
Proof.
  intros Hp. unfold vmm_map_page. destruct (_get_child_table s Toplevel (index 4 va) true) as [[s3 p3] |] eqn:E3; [| done]. destruct (get_child_top _ _ _ _ _ _ Hp E3) as [T3 _]. cbn [mbind option_bind]. destruct p3 as [p3 |]; [| done].
  cbn [mbind option_bind]. rewrite <- T3 in Hp |- *. destruct (z2b (Z.land flags VMM_PAGE_FLAG_EXTRA_LARGE)); [next_test; [done | by apply map_entry_top]|].
  destruct (_get_child_table s3 p3 (index 3 va) true) as [[s2 p2] |] eqn:E2; [| done]. destruct (get_child_top _ _ _ _ _ _ Hp E2) as [T2 _]. cbn [mbind option_bind]. destruct p2 as [p2 |]; [| done].
  cbn [mbind option_bind]. rewrite <- T2 in Hp |- *. destruct (z2b (Z.land flags VMM_PAGE_FLAG_LARGE)); [next_test; [done | by apply map_entry_top]|].
  next_test; [done|]. destruct (_get_child_table s2 p2 (index 2 va) true) as [[s1 p1] |] eqn:E1; [| done]. destruct (get_child_top _ _ _ _ _ _ Hp E1) as [T1 _]. cbn [mbind option_bind]. destruct p1 as [p1 |]; [| done].
  cbn [mbind option_bind]. rewrite <- T1 in Hp |- *. by apply map_entry_top.
Qed.

Lemma decrease_top_same s a s' r : _decrease_length s (Entry a) = Some (s', r) -> toplevel s' = toplevel s.
Proof.
  unfold _decrease_length. next_test; [by intros [= <- <-]|]. set (s1 := set s (Entry a) _). next_test; [by intros [= <- <-]|].
  destruct (dealloc_table s1 _) as [s2 |] eqn:E; [| done]. cbn [mbind option_bind]. intros [= <- <-]. transitivity (toplevel s2); [done|]. by rewrite (dealloc_table_top _ _ _ E).
Qed.

Lemma decrease_then_top s a next s' : (forall s1 s2, next s1 = Some s2 -> toplevel s2 = toplevel s1) -> decrease_then s (Entry a) next = Some s' -> toplevel s' = toplevel s.
Proof.
  intros Hn. unfold decrease_then. destruct (_decrease_length s (Entry a)) as [[s1 freed] |] eqn:E; [| done]. cbn [mbind option_bind]. destruct freed; [| intros [= <-]]; rewrite <- (decrease_top_same _ _ _ _ E); [apply Hn | done].
Qed.

Lemma find_child_entry s table i t : find_child_table s table i = Some t -> exists a, t = Entry a.
Proof. unfold find_child_table. next_test; [| done]. intros [= <-]. unfold entry_of. eauto. Qed.

Lemma unmap_page_top s va s' e : vmm_unmap_page s va = Some (s', e) -> toplevel s' = toplevel s.
Proof.
  unfold vmm_unmap_page. next_test; [by intros [= <- <-]|]. unfold _unmap_page.
  destruct (find_child_table s Toplevel (index 4 va)) as [p3 |] eqn:E3; [| by intros [= <- <-]]. destruct (find_child_entry _ _ _ _ E3) as [a3 ->].
  destruct (z2b (Z.land (get s (entry_of s (Entry a3) (index 3 va))) VMM_PAGE_FLAG_LARGE)).
  { next_test; [by intros [= <- <-]|]. unfold entry_of. destruct (decrease_then _ _ _) as [s1 |] eqn:E; [| done]. cbn [mbind option_bind]. intros [= <- <-]. eapply decrease_then_top in E; [done | by intros ? ? [= <-]]. }
  destruct (find_child_table s (Entry a3) (index 3 va)) as [p2 |] eqn:E2; [| by intros [= <- <-]]. destruct (find_child_entry _ _ _ _ E2) as [a2 ->].
  destruct (z2b (Z.land (get s (entry_of s (Entry a2) (index 2 va))) VMM_PAGE_FLAG_LARGE)).
  { next_test; [by intros [= <- <-]|]. unfold entry_of. destruct (decrease_then _ _ _) as [s1 |] eqn:E; [| done]. cbn [mbind option_bind]. intros [= <- <-].
    eapply decrease_then_top in E; [done|]. intros s1' s2 E'. eapply decrease_then_top in E'; [done | by intros ? ? [= <-]]. }
  destruct (find_child_table s (Entry a2) (index 2 va)) as [p1 |] eqn:E1; [| by intros [= <- <-]]. destruct (find_child_entry _ _ _ _ E1) as [a1 ->].
  next_test; [by intros [= <- <-]|]. unfold entry_of. destruct (decrease_then _ _ _) as [s1 |] eqn:E; [| done]. cbn [mbind option_bind]. intros [= <- <-].
  eapply decrease_then_top in E; [done|]. intros s1' s2 E'. eapply decrease_then_top in E'; [done|]. intros s3 s4 E''. eapply decrease_then_top in E''; [done | by intros ? ? [= <-]].
Qed.
End toplevel.

(** ** Frames *)

Section pages.
Context {P : Type} `{PageAllocatorLaws P}.
Implicit Types (v : vmm_t P) (D : gmap Z Z) (T : gmap Z mmap_region_t) (R : list (Z * Z)).

(** The kernel half and the blocks [R] are the same in both. *)
Definition same_rest R v v' : Prop :=
  toplevel v' = toplevel v /\ (forall a i x, (a, i) ∈ R -> a <= x < a + blk i -> words v' (x + OFF) = words v (x + OFF)) /\
  forall x, 256 <= x < 512 -> words v' (slot (toplevel v) x) = words v (slot (toplevel v) x).

#[export] Instance same_rest_refl R : Reflexive (same_rest R).
Proof. by intros v. Qed.

#[export] Instance same_rest_trans R : Transitive (same_rest R).
Proof.
  intros v1 v2 v3 (T1 & R1 & K1) (T2 & R2 & K2). split_and!; [congruence | |].
  - intros a i x Ha Hx. by rewrite (R2 a i x), (R1 a i x).
  - intros x Hx. rewrite <- K1 by done. rewrite <- T1. by apply K2.
Qed.

Lemma same_rest_app R R' v v' : same_rest (R' ++ R) v v' -> same_rest R v v'.
Proof. intros (T1 & R1 & K1). split_and!; [done | | done]. intros a i x Ha. apply R1. set_solver. Qed.

(** The page tables hold [M], with the blocks [R] beside them. *)
Definition tables v R (M : gmap key Z) : Prop := vmm_holds 0 256 (words v) R v M.

Lemma tables_rebase v v' R M : vmm_holds 0 256 (words v) R v' M -> toplevel v' = toplevel v -> tables v' R M /\ same_rest R v v'.
Proof.
  intros [F HP] Et. pose proof HP as [HT Hh Hr]. split.
  - exists F. split; [| done | done]. destruct HT. by split.
  - split_and!; [done | done |]. intros x Hx. rewrite <- Et. apply (t_others _ _ _ _ _ _ _ _ _ HT); lia.
Qed.

Lemma tables_not_present v R M : tables v R M -> z2b (Z.land (toplevel v) VMM_PAGE_FLAG_PRESENT) = false.
Proof. intros [F HP]. by eapply top_not_present. Qed.

Lemma tables_perm v R R' M : tables v R M -> R ≡ₚ R' -> tables v R' M.
Proof. intros [F [HT (B & HB & Hh) Hr]] HR. exists F. split; [done | exists B; split; [by rewrite HB, HR | done] |]. intros a i x Ha. apply Hr. by rewrite HR. Qed.

(** A page is allocated beside the tables. *)
Lemma page_alloc_ok v R M m : tables v R M -> serves_n (S m) (frames v) ->
  exists v' a, alloc_table v = Some (v', a) /\ tables v' ((a, 0) :: R) M /\ same_rest R v v' /\ serves_n m (frames v') /\ frame_ok a /\ (forall i, 0 <= i < 512 -> words v' (slot a i) = 0).
Proof.
  intros [F HP] [Hs Hm]. destruct (table_alloc_ok _ _ _ _ _ _ _ _ _ HP Hs) as (v' & a & E & HT & Fa & Hnew & Hz & (B & HB & Hh) & Hr & Ep & Hw). exists v', a.
  pose proof (t_top _ _ _ _ _ _ _ _ _ (pm_tree _ _ _ _ _ _ _ _ _ HP)) as Ht. pose proof (t_top _ _ _ _ _ _ _ _ _ HT) as Ht'. split_and!; [done | | | by eapply Hm | done |].
  - exists F. split; [destruct HT; by split | exists B; split; [by rewrite HB, Permutation_middle | done] | done].
  - split_and!; [congruence | done |]. intros x Hx. by apply (Hw (4, 0)); [| lia].
  - intros i Hi. by apply nz_zero.
Qed.

Lemma page_dealloc_ok v R M a : tables v ((a, 0) :: R) M -> exists v', dealloc_table v a = Some v' /\ tables v' R M /\ same_rest R v v' /\ words v' = words v.
Proof.
  intros [F [HT (B & HB & Hh) Hr]]. assert (Hin : (a, 0) ∈ B) by (rewrite HB; set_solver). apply list_elem_of_split in Hin as (B1 & B2 & ->).
  destruct (page_dealloc_law _ _ _ _ _ Hh) as (p' & E & Hh'). change (2 ^ 0) with 1 in E. unfold dealloc_table. rewrite E. cbn [mbind option_bind]. eexists. split_and!; [done | | done | done].
  exists F. split; [done | | done]. exists (B1 ++ B2). split; [| done]. apply (Permutation_cons_inv (a := (a, 0))). rewrite Permutation_middle, HB. by rewrite Permutation_middle.
Qed.

(** ** Pages of regions *)

(** [D]: the frames of the pages of the address space, by page number. *)
Definition data D : list (Z * Z) := (fun qf : Z * Z => (qf.2, 0)) <$> map_to_list D.

Lemma data_insert D q f : D !! q = None -> data (<[q := f]> D) ≡ₚ (f, 0) :: data D.
Proof. intros Hq. unfold data. by rewrite map_to_list_insert. Qed.

Lemma data_delete D q f : D !! q = Some f -> data D ≡ₚ (f, 0) :: data (delete q D).
Proof. intros Hq. rewrite <- (insert_delete_id D q f) at 1 by done. apply data_insert. apply lookup_delete_eq. Qed.

Definition user_region (r : mmap_region_t) : bool := z2b (Z.land (r_flags r) MMAP_REGION_FLAG_VMM_USER).

(** Every mapping is a page of a region, present, for user code exactly if the
    region is, and maps a frame of its own. *)
Definition mappings_ok (M : gmap key Z) D T : Prop :=
  (forall q f, D !! q = Some f -> is_Some (M !! (1, q))) /\
  forall n q e, M !! (n, q) = Some e -> n = 1 /\ Z.testbit e 0 = true /\ D !! q = Some (Z.land e VMM_PAGE_ADDRESS_MASK) /\
    exists k r, T !! k = Some r /\ k <= 4096 * q < k + r_length r /\ Z.testbit e 2 = user_region r.

Definition pages_ok v D T R : Prop := exists M, tables v (data D ++ R) M /\ mappings_ok M D T.

(** The page of a user address. *)
Lemma user_page_number va : 0 <= va < 2 ^ 47 -> pn 1 va = va / 4096 /\ in_map 0 256 va.
Proof.
  intros Hva. unfold in_map, pn. rewrite Z.mod_small by lia. split; [done|]. change (2 ^ (12 + 9 * (4 - 1))) with (2 ^ 39).
  split; [apply Z.div_pos; lia | apply Z.div_lt_upper_bound; lia].
Qed.

Lemma mappings_small M D T m q : mappings_ok M D T -> m <> 1 -> M !! (m, q) = None.
Proof. intros [_ HM] Hm. destruct (M !! (m, q)) as [e |] eqn:E; [| done]. by destruct (HM _ _ _ E). Qed.

Lemma mappings_mapped M D T va : mappings_ok M D T -> 0 <= va < 2 ^ 47 ->
  mapped M va = match M !! (1, va / 4096) with Some e => Some (1, e) | None => None end.
Proof. intros HM Hva. unfold mapped. rewrite !(mappings_small M D T) by done. by rewrite (proj1 (user_page_number va Hva)). Qed.

Lemma mappings_frame M D T q : mappings_ok M D T -> D !! q = None <-> M !! (1, q) = None.
Proof.
  intros [H1 H2]. split.
  - intros HD. destruct (M !! (1, q)) as [e |] eqn:E; [| done]. destruct (H2 _ _ _ E) as (_ & _ & HD' & _). congruence.
  - intros HM. destruct (D !! q) as [f |] eqn:E; [| done]. destruct (H1 _ _ E). congruence.
Qed.

(** The page of a region goes, with its frame. *)
Definition releasable (r : mmap_region_t) : Prop :=
  z2b (Z.land (r_flags r) MMAP_REGION_FLAG_EXTERNAL) = false /\ (r_file r = None \/ z2b (Z.land (r_flags r) MMAP_REGION_FLAG_NO_WRITEBACK) = true).

Lemma unmap_address_ok (m : mmap_t P) D T R r va : pages_ok (pagemap m) D T R -> releasable r -> 0 <= va < 2 ^ 47 -> va mod 4096 = 0 ->
  exists v', _unmap_address m (Some r) va = Some (set_pagemap m v') /\ pages_ok v' (delete (va / 4096) D) T R /\ same_rest R (pagemap m) v'.
Proof.
  intros (M & HT & HM) [Hext Hwb] Hva Hal. destruct (user_page_number va Hva) as [Hpn Hin]. pose proof HT as [F HP]. pose proof (unmap_ok _ _ _ _ _ _ _ va HP Hin) as Hu.
  rewrite (mappings_mapped M D T) in Hu by done. unfold _unmap_address. destruct (M !! (1, va / 4096)) as [e |] eqn:Em.
  - change (page_size 1) with 4096 in Hu. rewrite Hal in Hu. cbn [Z.eqb] in Hu. destruct Hu as (v1 & F1 & E1 & HP1). rewrite E1. cbn [mbind option_bind].
    destruct (proj2 HM _ _ _ Em) as (_ & _ & HD & _). set (f := Z.land e VMM_PAGE_ADDRESS_MASK) in *.
    assert (HT1 : vmm_holds 0 256 (words (pagemap m)) (data D ++ R) v1 (delete (1, pn 1 va) M)) by by exists F1.
    destruct (tables_rebase _ _ _ _ HT1 (unmap_page_top _ _ _ _ E1)) as [HT2 Hsame]. rewrite Hpn in HT2.
    assert (Hf : f <> 0).
    { destruct HP as [_ (B & HB & Hh) _]. destruct (held_block _ _ f 0 Hh) as (Hf & _); [| lia]. rewrite HB. apply elem_of_app. right. apply elem_of_app. left. rewrite (data_delete D _ _ HD). set_solver. }
    destruct (Z.eqb_spec f 0) as [| Hf0]; [done|]. rewrite Hext. cbn [negb].
    replace (match r_file r with Some _ => negb (z2b (Z.land (r_flags r) MMAP_REGION_FLAG_NO_WRITEBACK)) | None => false end) with false by (destruct Hwb as [-> | ->]; [done | by destruct (r_file r)]).
    pose proof (data_delete D _ _ HD) as Hperm. destruct (page_dealloc_ok v1 (data (delete (va / 4096) D) ++ R) (delete (1, va / 4096) M) f) as (v2 & E2 & HT3 & Hs2 & _).
    { eapply tables_perm; [exact HT2|]. by rewrite Hperm. }
    rewrite E2. cbn [mbind option_bind]. exists v2. split_and!; [done | | etransitivity; [eapply same_rest_app, Hsame | eapply same_rest_app, Hs2]].
    exists (delete (1, va / 4096) M). split; [done|]. split.
    + intros q g Hq. apply lookup_delete_Some in Hq as [Hne Hq]. rewrite lookup_delete_ne by congruence. by apply (proj1 HM _ g).
    + intros n q e' E'. apply lookup_delete_Some in E' as [Hne E']. destruct (proj2 HM _ _ _ E') as (-> & Hp & HD' & Hreg). split_and!; [done | done | | done]. rewrite lookup_delete_ne by congruence. done.
  - rewrite Hu. cbn [mbind option_bind]. change (Z.land 0 VMM_PAGE_ADDRESS_MASK) with 0. cbn [Z.eqb]. exists (pagemap m). split_and!; [done | | done].
    exists M. rewrite delete_id by (by apply (mappings_frame M D T)). done.
Qed.

Lemma set_pagemap_twice (m : mmap_t P) v v' : set_pagemap (set_pagemap m v) v' = set_pagemap m v'.
Proof. done. Qed.

Lemma set_pagemap_id (m : mmap_t P) : set_pagemap m (pagemap m) = m.
Proof. by destruct m. Qed.

Lemma unmap_loop_ok n : forall (m : mmap_t P) D T R r key off, pages_ok (pagemap m) D T R -> releasable r -> 0 <= key -> key mod 4096 = 0 -> 0 <= off -> off mod 4096 = 0 -> key + off + 4096 * Z.of_nat n <= 2 ^ 47 ->
  exists v' D', unmap_loop n m r key off = Some (set_pagemap m v') /\ pages_ok v' D' T R /\ same_rest R (pagemap m) v' /\
    forall q, D' !! q = if decide (key + off <= 4096 * q < key + off + 4096 * Z.of_nat n) then None else D !! q.
Proof.
  induction n as [| n IH]; intros m D T R r key off HP Hr Hk Hka Ho Hoa Hend; cbn [unmap_loop].
  - exists (pagemap m), D. split_and!; [by rewrite set_pagemap_id | done | done |]. intros q. by rewrite decide_False by lia.
  - rewrite u64_id by lia. assert (Hal : (key + off) mod 4096 = 0) by (rewrite Z.add_mod, Hka, Hoa by lia; done).
    destruct (unmap_address_ok m D T R r (key + off) HP Hr ltac:(lia) Hal) as (v1 & E1 & HP1 & Hs1). rewrite E1. cbn [mbind option_bind].
    destruct (IH (set_pagemap m v1) (delete ((key + off) / 4096) D) T R r key (off + PAGE_SIZE)) as (v2 & D2 & E2 & HP2 & Hs2 & HD2); try done; [unfold PAGE_SIZE; lia | unfold PAGE_SIZE; rewrite Z.add_mod, Hoa by lia; done | unfold PAGE_SIZE; lia |].
    exists v2, D2. split_and!; [done | done | by etransitivity |]. intros q. rewrite HD2. unfold PAGE_SIZE. pose proof (Z.div_mod (key + off) 4096 ltac:(lia)) as Hdm. destruct (decide (q = (key + off) / 4096)) as [-> | Hq].
    + rewrite lookup_delete_eq. rewrite (decide_True (P := key + off <= _ < _)) by lia. by destruct (decide _).
    + rewrite lookup_delete_ne by done. destruct (decide (key + off <= 4096 * q < key + off + 4096 * Z.of_nat (S n))); destruct (decide (key + (off + 4096) <= 4096 * q < key + (off + 4096) + 4096 * Z.of_nat n)); try done; lia.
Qed.

(** ** Page faults *)

(** The word that a fault maps. *)
Lemma page_word a r : frame_ok a -> let e := mapping_word a (page_flags r) in
  level_of (page_flags r) = 1 /\ Z.land e VMM_PAGE_ADDRESS_MASK = a /\ Z.testbit e 0 = true /\ Z.testbit e 2 = user_region r.
Proof.
  intros Fa e. pose proof (frame_eq _ Fa) as Ea. destruct Fa as (Ha0 & _ & Ha47).
  assert (Em : Z.land a VMM_PAGE_ADDRESS_MASK = a) by (change VMM_PAGE_ADDRESS_MASK with (Z.shiftl (Z.ones 36) 12); rewrite land_field by lia; change (2 ^ 12) with 4096; rewrite Z.mod_small by lia; lia).
  assert (Elow : forall i, 0 <= i < 12 -> Z.testbit a i = false) by (intros i Hi; rewrite Ea; replace (4096 * (a / 4096)) with (a / 4096 * 2 ^ 12) by lia; apply Z.mul_pow2_bits_low; lia).
  assert (El : level_of (page_flags r) = 1) by (unfold page_flags; repeat (match goal with |- context [if ?b then _ else _] => destruct b end); reflexivity).
  assert (Hf : exists f, e = Z.lor a f /\ Z.land f VMM_PAGE_ADDRESS_MASK = 0 /\ Z.testbit f 0 = true /\ Z.testbit f 2 = user_region r).
  { exists (Z.land (page_flags r) (lnot_w 64 VMM_PAGE_FLAG_EXTRA_LARGE)). unfold e, mapping_word. rewrite El. unfold leaf_entry. rewrite Em. split; [done|]. unfold page_flags, user_region.
    destruct (z2b (Z.land (r_flags r) MMAP_REGION_FLAG_VMM_USER)); destruct (z2b (Z.land (r_flags r) MMAP_REGION_FLAG_VMM_WRITE)); destruct (z2b (Z.land (r_flags r) MMAP_REGION_FLAG_VMM_EXEC)); vm_compute; done. }
  destruct Hf as (f & -> & Hf0 & Hf1 & Hf2). split_and!; [done | | |].
  - by rewrite Z.land_lor_distr_l, Hf0, Z.lor_0_r.
  - by rewrite Z.lor_spec, Elow, Hf1 by lia.
  - by rewrite Z.lor_spec, Elow, Hf2 by lia.
Qed.

(** The entry of a page, as the processor finds it. *)
Definition page_entry v (va : Z) : option Z := get v <$> _lookup_virtual_address v va.

Lemma mapped_entry v R M D T va e : tables v R M -> mappings_ok M D T -> 0 <= va < 2 ^ 47 -> M !! (1, va / 4096) = Some e -> page_entry v va = Some e.
Proof.
  intros [F HP] HM Hva He. destruct (user_page_number va Hva) as [_ Hin]. pose proof (lookup_ok _ _ _ _ _ _ _ _ _ va HP Hin) as Hl. rewrite (mappings_mapped M D T va HM Hva), He in Hl.
  destruct Hl as (b & _ & El & Ew). unfold page_entry. rewrite El. cbn. by rewrite Ew.
Qed.

(** [e] maps the frame [a] with the rights of the region [r]: it is present, for
    user code, writable and executable as the region is, and nothing else. *)
Definition rights_of (r : mmap_region_t) (a e : Z) : Prop :=
  e = a + 1 + (if z2b (Z.land (r_flags r) MMAP_REGION_FLAG_VMM_WRITE) then 2 else 0) + (if z2b (Z.land (r_flags r) MMAP_REGION_FLAG_VMM_USER) then 4 else 0) +
    (if z2b (Z.land (r_flags r) MMAP_REGION_FLAG_VMM_EXEC) then 0 else 2 ^ 63).

Lemma page_word_rights a r : frame_ok a -> rights_of r a (mapping_word a (page_flags r)).
Proof.
  intros Fa. pose proof (frame_eq _ Fa) as Ea. destruct (page_word a r Fa) as (El & _). destruct Fa as (Ha0 & _ & Ha47).
  assert (Em : Z.land a VMM_PAGE_ADDRESS_MASK = a) by (change VMM_PAGE_ADDRESS_MASK with (Z.shiftl (Z.ones 36) 12); rewrite land_field by lia; change (2 ^ 12) with 4096; rewrite Z.mod_small by lia; lia).
  assert (Hb : forall i, i < 12 \/ 47 <= i -> Z.testbit a i = false).
  { intros i [Hi | Hi]; [| apply (word_high 47); lia]. destruct (Z.lt_ge_cases i 0); [by apply Z.testbit_neg_r|]. rewrite Ea. replace (4096 * (a / 4096)) with (a / 4096 * 2 ^ 12) by lia. by apply Z.mul_pow2_bits_low. }
  assert (Hadd : forall f, (forall i, 12 <= i < 47 -> Z.testbit f i = false) -> Z.lor a f = a + f).
  { intros f Hf. rewrite Z.add_nocarry_lxor, <- Z.lxor_lor; [done | |]; apply Z.bits_inj'; intros i Hi; rewrite Z.land_spec, Z.bits_0; (destruct (decide (12 <= i < 47)); [rewrite Hf by done; by rewrite andb_false_r | by rewrite Hb by lia]). }
  unfold rights_of, mapping_word. rewrite El. cbn [Z.eqb Pos.eqb]. unfold leaf_entry. rewrite Em. rewrite Hadd.
  - unfold page_flags. destruct (z2b (Z.land (r_flags r) MMAP_REGION_FLAG_VMM_USER)); destruct (z2b (Z.land (r_flags r) MMAP_REGION_FLAG_VMM_WRITE)); destruct (z2b (Z.land (r_flags r) MMAP_REGION_FLAG_VMM_EXEC)); cbn [negb];
      match goal with |- a + ?f = _ => let x := eval vm_compute in f in change f with x end; lia.
  - intros i Hi. assert (Hc : i ∈ seqZ 12 35) by (apply elem_of_seqZ; lia). clear -Hc. revert i Hc. apply Forall_forall. unfold page_flags.
    destruct (z2b (Z.land (r_flags r) MMAP_REGION_FLAG_VMM_USER)); destruct (z2b (Z.land (r_flags r) MMAP_REGION_FLAG_VMM_WRITE)); destruct (z2b (Z.land (r_flags r) MMAP_REGION_FLAG_VMM_EXEC)); vm_compute; repeat constructor.
Qed.

(** What a page that is filled holds. *)
Lemma fill_page_words v a f i : frame_ok a -> 0 <= i < 512 -> words (fill_page v a f) (slot a i) = f i.
Proof.
  intros (Ha0 & _ & Ha47) Hi. unfold fill_page. cbn [words]. rewrite slot_step, slot_zero. rewrite u64_id by (change VMM_HIGHER_HALF_ADDRESS_OFFSET with (2 ^ 64 - 2 ^ 47); lia). change VMM_HIGHER_HALF_ADDRESS_OFFSET with OFF. unfold PAGE_SIZE.
  replace (a + OFF + 8 * i - (a + OFF)) with (i * 8) by lia. destruct (Z.leb_spec 0 (i * 8)); [| lia]. destruct (Z.ltb_spec (i * 8) 4096); [| lia]. rewrite Z.mod_mul, Z.div_mul by lia. done.
Qed.

(** The words of a page, written over. *)
Lemma fill_page_tables v R M a f : tables v ((a, 0) :: R) M -> tables (fill_page v a f) ((a, 0) :: R) M /\ same_rest R v (fill_page v a f).
Proof.
  intros [F HP]. pose proof HP as [HT (B & HB & Hh) Hr]. assert (Hin : (a, 0) ∈ B) by (rewrite HB; set_solver). destruct (held_block _ _ _ _ Hh Hin) as (Ha0 & _ & Ha47 & _). change (blk 0) with 4096 in *.
  assert (Eu : u64 (a + OFF) = a + OFF) by (rewrite u64_id by (change OFF with (2 ^ 64 - 2 ^ 47); lia); done).
  assert (Hw : forall y, ~ (a + OFF <= y < a + OFF + 4096) -> words (fill_page v a f) y = words v y).
  { intros y Hy. unfold fill_page. cbn [words]. rewrite Eu. unfold PAGE_SIZE. destruct (Z.leb_spec 0 (y - (a + OFF))); [| done]. destruct (Z.ltb_spec (y - (a + OFF)) 4096); [lia | done]. }
  pose proof (held_apart _ _ Hh) as Hap. rewrite HB in Hap. rewrite <- Permutation_middle in Hap. destruct Hap as [Hap _].
  assert (Htab : forall n p b x, F !! (n, p) = Some b -> 0 <= x < 512 -> words (fill_page v a f) (slot b x) = words v (slot b x)).
  { intros n p b x Hb Hx. apply Hw. specialize (Hap b 0 ltac:(apply elem_of_app; left; by eapply blocks_elem)). unfold PmmInv.apart in Hap. change (blk 0) with 4096 in Hap. rewrite slot_step, slot_zero. lia. }
  assert (Hrest : forall b i x, (b, i) ∈ R -> b <= x < b + blk i -> words (fill_page v a f) (x + OFF) = words v (x + OFF)).
  { intros b i x Hb Hx. apply Hw. specialize (Hap b i ltac:(set_solver)). unfold PmmInv.apart in Hap. change (blk 0) with 4096 in Hap. lia. }
  split.
  - exists F. split; [| exists B; by split | done]. pose proof (tree_ext _ _ _ _ (words (fill_page v a f)) _ _ _ _ _ HT Htab) as HT'. destruct HT'. by split.
  - split_and!; [done | done |]. intros x Hx. apply (Htab 4 0); [apply HT | lia].
Qed.

(** A page of a region that is not mapped yet. *)
Lemma map_region_page v D T R k r va m : pages_ok v D T R -> T !! k = Some r -> k <= va < k + r_length r -> 0 <= va < 2 ^ 47 -> va mod 4096 = 0 -> D !! (va / 4096) = None -> serves_n (4 + m) (frames v) ->
  exists v1 a v2, alloc_table v = Some (v1, a) /\ vmm_map_page v1 a va (page_flags r) = Some v2 /\ (exists M, tables v2 (data (<[va / 4096 := a]> D) ++ R) M /\ mappings_ok M (<[va / 4096 := a]> D) T /\ M !! (1, va / 4096) = Some (mapping_word a (page_flags r))) /\ same_rest (data D ++ R) v v2 /\ frame_ok a /\
    (forall i, 0 <= i < 512 -> words v2 (slot a i) = 0) /\ vmm_virtual_to_physical v2 va = a /\ serves_n m (frames v2).
Proof.
  intros (M & HT & HM) Hk Hva Huser Hal HD Hs. destruct (page_alloc_ok _ _ _ (3 + m) HT Hs) as (v1 & a & E1 & HT1 & Hs1 & Hsv & Fa & Hz). destruct (page_word a r Fa) as (El & Ef & E0 & E2). destruct (user_page_number va Huser) as [Hpn Hin].
  pose proof (proj1 (mappings_frame M D T _ HM) HD) as HMn. pose proof HT1 as [F1 HP1]. assert (Ha64 : 0 <= a < 2 ^ 64) by (destruct Fa; lia).
  destruct (map_page_ok _ _ _ _ _ _ _ a va (page_flags r) m HP1 Ha64 ltac:(lia) Hin) as [Hyes _].
  { intros E. rewrite E in E0. by rewrite Z.bits_0 in E0. }
  { intros j Hj. rewrite El in Hj. eapply mappings_small; [done | lia]. }
  { exact Hsv. }
  destruct Hyes as (v2 & F2 & Em & HP2 & Hs2).
  { unfold map_allowed. rewrite El. split_and!; [by destruct Fa as (_ & ? & _) | done | rewrite Hpn, HMn; done |]. intros (j & q & Hj & _). lia. }
  rewrite El, Hpn in HP2. exists v1, a, v2. split; [done|]. split; [done|].
  assert (HV2 : vmm_holds 0 256 (words v1) ((a, 0) :: data D ++ R) v2 (<[(1, va / 4096) := mapping_word a (page_flags r)]> M)) by by exists F2.
  destruct (tables_rebase _ _ _ _ HV2 (map_page_top _ _ _ _ _ (tables_not_present _ _ _ HT1) Em)) as [HT2 Hsame].
  assert (HM2 : mappings_ok (<[(1, va / 4096) := mapping_word a (page_flags r)]> M) (<[va / 4096 := a]> D) T).
  { split.
    - intros q g Hq. apply lookup_insert_Some in Hq as [[<- _] | [Hne Hq]]; [rewrite lookup_insert_eq; by eexists|]. rewrite lookup_insert_ne by congruence. by apply (proj1 HM _ g).
    - intros n q e E. apply lookup_insert_Some in E as [[[= <- <-] <-] | [Hne E]].
      + rewrite Ef, lookup_insert_eq. split_and!; [done | done | done |]. exists k, r. pose proof (Z.div_mod va 4096 ltac:(lia)). split_and!; [done | lia | lia | done].
      + destruct (proj2 HM _ _ _ E) as (-> & Hp & HD' & Hreg). split_and!; [done | done | | done]. by rewrite lookup_insert_ne by congruence. }
  split_and!; [| | done | | | done].
  - exists (<[(1, va / 4096) := mapping_word a (page_flags r)]> M). split; [| split; [done | by rewrite lookup_insert_eq]]. eapply tables_perm; [exact HT2|]. by rewrite data_insert.
  - etransitivity; [exact Hs1|]. by apply (same_rest_app _ [(a, 0)]).
  - intros i Hi. destruct Hsame as (_ & Hr & _). rewrite slot_step, slot_zero. replace (a + OFF + 8 * i) with (a + 8 * i + OFF) by lia. rewrite (Hr a 0 (a + 8 * i)); [| set_solver | change (blk 0) with 4096; lia].
    rewrite <- (Hz i Hi), slot_step, slot_zero. f_equal. lia.
  - rewrite (virtual_to_physical_ok _ _ _ _ _ _ _ _ _ _ HP2 Hin). unfold translate. rewrite (mappings_mapped _ (<[va / 4096 := a]> D) T) by done. rewrite lookup_insert_eq, Ef. change (page_size 1) with 4096. rewrite Hal. apply Z.lor_0_r.
Qed.
End pages.
