(* ===== verification/MmapSpec.v ===== *)
(** * What an address space promises
    Regions are handed out from free space only and never overlap; their pages are
    mapped on demand, each to a frame of its own and with the rights of the region;
    a region that is released gives its space and its frames back. *)
From stdpp Require Import base tactics list numbers option gmap.
From Stdlib Require Import ZArith Lia.
From S2P Require Import Prelude TreeMap PmmView PmmInv Pages Vmm VmmTree VmmSpec VmmApi Mmap MmapSpace MmapPages.
#[local] Open Scope Z_scope.

Abbreviation regions m := (address_tree (space m)).

(** ** Pages and alignment *)

Definition aligned (m : space_t) : Prop := heap_address m mod 4096 = 0 /\ forall a l, free_address_tree m !! a = Some l -> a mod 4096 = 0 /\ l mod 4096 = 0.

Lemma u64_page x : u64 x mod 4096 = x mod 4096.
Proof. apply (wrap_wrap_le 64 12). lia. Qed.

Lemma add_page x y : x mod 4096 = 0 -> y mod 4096 = 0 -> (x + y) mod 4096 = 0.
Proof. intros Hx Hy. by rewrite Z.add_mod, Hx, Hy by lia. Qed.

Lemma sub_page x y : x mod 4096 = 0 -> y mod 4096 = 0 -> (x - y) mod 4096 = 0.
Proof. intros Hx Hy. by rewrite Zminus_mod, Hx, Hy. Qed.

Lemma pop_aligned m a l : aligned m -> aligned (_pop_free_region m a l).
Proof. intros [H1 H2]. split; [done|]. intros x n Hx. cbn [_pop_free_region set_free free_address_tree] in Hx. apply lookup_delete_Some in Hx as [_ Hx]. by apply H2. Qed.

Lemma push_aligned m a l m' : aligned m -> a mod 4096 = 0 -> l mod 4096 = 0 -> _push_free_region m a l = Some m' -> aligned m'.
Proof.
  intros Hm Ha Hl. unfold _push_free_region. match goal with |- context [match lookup_decreasing ?t0 ?a0 with Some p => @?f p | None => ?g end] => set (t := match lookup_decreasing t0 a0 with Some p => f p | None => g end) end.
  assert (Ht : aligned t.1.1 /\ t.1.2 mod 4096 = 0 /\ t.2 mod 4096 = 0).
  { unfold t. pose proof (decreasing_spec (free_address_tree m) a) as Hd. destruct (lookup_decreasing (free_address_tree m) a) as [[k n] |]; [| done]. destruct (u64 (k + n) =? a); [| done].
    destruct Hd as (Hk & _). destruct (proj2 Hm _ _ Hk). cbn [fst snd]. rewrite !u64_page. split_and!; [by apply pop_aligned | by apply sub_page | by apply add_page]. }
  destruct t as [[m1 a1] l1]. cbn [fst snd] in Ht. destruct Ht as (Hm1 & Ha1 & Hl1). destruct (a1 =? heap_address m1).
  - intros [= <-]. destruct Hm1 as [H1 H2]. split; [cbn [set_heap heap_address]; rewrite u64_page; by apply add_page | done].
  - unfold insert_node. destruct (free_address_tree m1 !! a1); [done|]. cbn [mbind option_bind]. intros [= <-]. destruct Hm1 as [H1 H2]. split; [done|].
    intros x n Hx. cbn [set_free free_address_tree] in Hx. apply lookup_insert_Some in Hx as [[<- <-] | [_ Hx]]; [done | by apply H2].
Qed.

Lemma alloc_aligned m l m' found : space_ok m -> aligned m -> l mod 4096 = 0 -> alloc_space m l = Some (m', found) -> aligned m' /\ forall a, found = Some a -> a mod 4096 = 0.
Proof.
  intros Hs Hm Hl. unfold alloc_space. pose proof (increasing_spec (length_tree m) l) as Hi. destruct (lookup_increasing (length_tree m) l) as [[n [| a g]] |]; [done | |].
  - destruct Hi as (Hg & _). cbn [head mbind option_bind]. assert (Ha : free_address_tree m !! a = Some n) by (apply (so_groups _ Hs); rewrite Hg; cbn; set_solver). destruct (proj2 Hm _ _ Ha) as [Ha1 Hn1].
    destruct (l <? n).
    + destruct (_push_free_region _ _ _) as [m2 |] eqn:E; [| done]. cbn [mbind option_bind]. intros [= <- <-]. split; [| by intros ? [= <-]].
      eapply push_aligned; [by apply (pop_aligned m a n) | | | exact E]; rewrite u64_page; [by apply add_page | by apply sub_page].
    + cbn [mbind option_bind]. intros [= <- <-]. split; [by apply pop_aligned | by intros ? [= <-]].
  - destruct (heap_address m <? u64 (break_address m + l)); intros [= <- <-]; [done|]. assert (u64 (heap_address m - l) mod 4096 = 0) by (rewrite u64_page; apply sub_page; [apply Hm | done]).
    split; [split; [done | apply Hm] | by intros ? [= <-]].
Qed.

Lemma guard_page flags : guard_page_size flags mod 4096 = 0.
Proof. unfold guard_page_size. by destruct (z2b (Z.land flags MMAP_REGION_FLAG_STACK)). Qed.

(** ** The invariant *)

Section spec.
Context {P : Type} `{PageAllocatorLaws P}.
Context (file_size : Z -> Z) (file_page : Z -> Z -> Z -> Z).
Implicit Types (m : mmap_t P) (D : gmap Z Z) (R : list (Z * Z)).

Definition region_ok (k : Z) (r : mmap_region_t) : Prop :=
  k mod 4096 = 0 /\ r_length r mod 4096 = 0 /\ k + r_length r <= 2 ^ 47 /\ z2b (Z.land (r_flags r) MMAP_REGION_FLAG_EXTERNAL) = false.

(** An address space of a process: everything is below 2^47, and [D] are the
    frames of its pages. *)
Record address_space m D R : Prop := {
  as_space : space_ok (space m);
  as_aligned : aligned (space m);
  as_region k r : regions m !! k = Some r -> region_ok k r;
  as_user : break_address (space m) <= 2 ^ 47 /\ forall x, available (space m) x -> x < 2 ^ 47;
  as_pages : pages_ok (pagemap m) D (regions m) R
}.

(** The bytes of a region. *)
Definition inside (k : Z) (r : mmap_region_t) (x : Z) : Prop := k <= x < k + r_length r.

Lemma region_bounds m D R k r : address_space m D R -> regions m !! k = Some r -> 0 <= k /\ 0 < r_length r /\ k + r_length r <= 2 ^ 47.
Proof.
  intros HA Hk. pose proof (guard_range (r_flags r)). pose proof (so_block _ (as_space _ _ _ HA) _ _ _ (block_used _ k r Hk)) as (_ & Hb & _).
  pose proof (so_length _ (as_space _ _ _ HA) _ _ Hk). destruct (as_region _ _ _ HA _ _ Hk) as (_ & _ & ? & _). lia.
Qed.

(** The region of an address, as the page fault handler finds it. *)
Lemma fault_region m D R x : address_space m D R ->
  match lookup_decreasing (regions m) x with
  | Some (k, r) => regions m !! k = Some r /\ u64 (k + r_length r) = k + r_length r /\ k <= x /\ (k + r_length r <= x -> forall k' r', regions m !! k' = Some r' -> ~ inside k' r' x)
  | None => forall k r, regions m !! k = Some r -> ~ inside k r x
  end.
Proof.
  intros HA. pose proof (find_region_ok _ x (as_space _ _ _ HA)) as Hf. unfold find_region in Hf. pose proof (decreasing_spec (regions m) x) as Hd. destruct (lookup_decreasing (regions m) x) as [[k r] |]; [| done].
  destruct Hd as (Hk & Hle & _). destruct (region_bounds _ _ _ _ _ HA Hk) as (? & ? & ?). rewrite u64_id in Hf |- * by lia. split_and!; [done | done | done |]. intros Hge. destruct (Z.leb_spec (k + r_length r) x); [done | lia].
Qed.

(** *** A fault *)

(** The words of a page after a fault: zeros, or the content of the file. *)
Definition page_content (k : Z) (r : mmap_region_t) (va i : Z) : Z := match r_file r with Some f => file_page f (va - k) i | None => 0 end.

Lemma handle_pf_ok m D R va j : address_space m D R -> 0 <= va < 2 ^ 47 -> va mod 4096 = 0 -> D !! (va / 4096) = None -> serves_n (4 + j) (frames (pagemap m)) ->
  (forall k r, regions m !! k = Some r -> inside k r va -> z2b (Z.land (r_flags r) MMAP_REGION_FLAG_NO_ALLOC) = false ->
    exists v a, mmap_handle_pf file_page m va = Some (set_pagemap m v, a) /\ address_space (set_pagemap m v) (<[va / 4096 := a]> D) R /\ same_rest (data D ++ R) (pagemap m) v /\
      vmm_virtual_to_physical v va = a /\ a <> 0 /\ ((forall i, 0 <= i < 512 -> words v (slot a i) = page_content k r va i) /\ exists e, page_entry v va = Some e /\ rights_of r a e) /\ serves_n j (frames v)) /\
  ((forall k r, regions m !! k = Some r -> inside k r va -> z2b (Z.land (r_flags r) MMAP_REGION_FLAG_NO_ALLOC) = true) -> mmap_handle_pf file_page m va = Some (m, 0)).
Proof.
  intros HA Hva Hal HD Hs. unfold mmap_handle_pf. pose proof (fault_region m D R va HA) as Hf. destruct (lookup_decreasing (regions m) va) as [[k r] |]; [| split; [intros k r Hk Hi; by apply Hf in Hi | done]].
  destruct Hf as (Hk & -> & Hle & Hout). destruct (Z.leb_spec (k + r_length r) va) as [Hge | Hlt].
  { rewrite orb_true_r. split; [intros k' r' Hk' Hi; by eapply Hout in Hi | done]. }
  rewrite orb_false_r. split.
  - intros k' r' Hk' Hi Hna. assert (k' = k /\ r' = r) as [-> ->].
    { destruct (decide (k' = k)) as [-> | Hne]; [by simplify_eq|]. pose proof (so_apart _ (as_space _ _ _ HA) _ _ _ _ _ _ (block_used _ k r Hk) (block_used _ k' r' Hk') ltac:(congruence)) as Hap.
      pose proof (guard_range (r_flags r)). pose proof (guard_range (r_flags r')). unfold apart, inside in *. lia. }
    rewrite Hna. destruct (map_region_page _ _ _ _ _ _ va j (as_pages _ _ _ HA) Hk Hi Hva Hal HD Hs) as (v1 & a & v2 & E1 & E2 & HP & Hsame & Fa & Hz & Ht & Hs2). rewrite E1. cbn [mbind option_bind]. rewrite E2. cbn [mbind option_bind].
    destruct HP as (M & HT & HM & He). assert (Hdata : data (<[va / 4096 := a]> D) ++ R ≡ₚ (a, 0) :: data D ++ R) by by rewrite data_insert.
    assert (HA2 : forall v, tables v (data (<[va / 4096 := a]> D) ++ R) M -> address_space (set_pagemap m v) (<[va / 4096 := a]> D) R) by (intros v HTv; destruct HA; split; try done; by exists M). assert (Ha : a <> 0) by (destruct Fa; lia).
    assert (Hent : forall v, tables v (data (<[va / 4096 := a]> D) ++ R) M -> exists e, page_entry v va = Some e /\ rights_of r a e) by (intros v HTv; eexists; split; [by eapply mapped_entry | by apply page_word_rights]).
    unfold page_content. destruct (r_file r) as [f |]; [| exists v2, a; split_and!; [done | by apply HA2 | done | done | done | done | by apply Hent | done]].
    destruct (region_bounds _ _ _ _ _ HA Hk) as (? & ? & ?). rewrite (u64_id (va - k)) by (unfold inside in Hi; lia). set (v3 := fill_page v2 a (file_page f (va - k))).
    assert (HT' : tables v2 ((a, 0) :: data D ++ R) M) by by eapply tables_perm.
    destruct (fill_page_tables v2 (data D ++ R) M a (file_page f (va - k)) HT') as [HT3 Hs3]. fold v3 in HT3, Hs3.
    assert (HP3 : tables v3 (data (<[va / 4096 := a]> D) ++ R) M) by by eapply tables_perm.
    exists v3, a. split_and!; [done | by apply HA2 | by etransitivity | | done | intros i Hi'; by apply fill_page_words | by apply Hent | done].
    destruct HT as [F HPm]. destruct HT3 as [F3 HP3m]. destruct (user_page_number va Hva) as [_ Hin]. rewrite (virtual_to_physical_ok _ _ _ _ _ _ _ _ _ _ HP3m Hin). by rewrite <- (virtual_to_physical_ok _ _ _ _ _ _ _ _ _ _ HPm Hin).
  - intros Hno. by rewrite (Hno k r Hk (conj Hle Hlt)).
Qed.

(** The pages of a region, one after the other. *)
Lemma commit_ok n : forall m D R k r off j, address_space m D R -> regions m !! k = Some r -> z2b (Z.land (r_flags r) MMAP_REGION_FLAG_NO_ALLOC) = false -> k <= off -> off mod 4096 = 0 ->
  off + 4096 * Z.of_nat n = k + r_length r -> (forall q, off <= 4096 * q < k + r_length r -> D !! q = None) -> serves_n (4 * n + j) (frames (pagemap m)) ->
  exists v D', commit_loop file_page n m off = Some (set_pagemap m v) /\ address_space (set_pagemap m v) D' R /\ same_rest R (pagemap m) v /\
    (forall q, ~ (off <= 4096 * q < k + r_length r) -> D' !! q = D !! q) /\ (forall q, off <= 4096 * q < k + r_length r -> is_Some (D' !! q)).
Proof.
  induction n as [| n IH]; intros m D R k r off j HA Hk Hna Hle Hal Hend HD Hs; cbn [commit_loop].
  - exists (pagemap m), D. rewrite set_pagemap_id. split_and!; [done | done | done | done |]. intros q Hq. lia.
  - destruct (region_bounds _ _ _ _ _ HA Hk) as (Hk0 & _ & Hk47). pose proof (Z.div_mod off 4096 ltac:(lia)) as Hdm.
    destruct (handle_pf_ok m D R off (4 * n + j) HA ltac:(lia) Hal ltac:(apply HD; lia)) as [Hyes _]; [by replace (4 + (4 * n + j))%nat with (4 * S n + j)%nat by lia|].
    destruct (Hyes k r Hk ltac:(unfold inside; lia) Hna) as (v & a & E & HA1 & Hs1 & _ & _ & _ & Hserve). rewrite E. cbn [mbind option_bind]. rewrite u64_id by (unfold PAGE_SIZE; lia).
    destruct (IH (set_pagemap m v) (<[off / 4096 := a]> D) R k r (off + PAGE_SIZE) j HA1 Hk Hna) as (v' & D' & E' & HA' & Hs' & Hout & Hin); unfold PAGE_SIZE in *; try lia; try done.
    { by apply add_page. }
    { intros q Hq. rewrite lookup_insert_ne by lia. apply HD. lia. }
    exists v', D'. split_and!; [done | done | etransitivity; [by eapply same_rest_app | exact Hs'] | |].
    + intros q Hq. rewrite Hout by lia. by rewrite lookup_insert_ne by lia.
    + intros q Hq. destruct (decide (q = off / 4096)) as [-> | Hne]; [| apply Hin; lia]. rewrite Hout by lia. rewrite lookup_insert_eq. by eexists.
Qed.

(** *** Allocation *)

(** A request that [mmap_alloc] serves from free space. *)
Definition request_ok (length flags : Z) : Prop := 0 < length < 2 ^ 47 /\ length mod 4096 = 0 /\ z2b (Z.land flags MMAP_REGION_FLAG_EXTERNAL) = false.

(** [m'] has the new region [k] of [length] bytes, cut from space that was free. *)
Definition region_added m m' (k length flags : Z) (file : option Z) : Prop :=
  let g := guard_page_size flags in
  regions m' = <[k := Region length flags file]> (regions m) /\ regions m !! k = None /\ k mod 4096 = 0 /\ 0 <= k /\
  (forall x, k - g <= x < k + length -> available (space m) x) /\
  (forall x, available (space m') x <-> available (space m) x /\ ~ (k - g <= x < k + length)) /\
  (forall x, in_use (space m') x <-> in_use (space m) x \/ k - g <= x < k + length).

Lemma shiftr_small x : 0 <= x < 2 ^ 47 -> z2b (Z.shiftr x 47) = false.
Proof. intros Hx. rewrite Z.shiftr_div_pow2 by lia. by rewrite Z.div_small. Qed.

Lemma mappings_more M D T k r : mappings_ok M D T -> T !! k = None -> mappings_ok M D (<[k := r]> T).
Proof.
  intros [H1 H2] Hk. split; [done|]. intros n q e E. destruct (H2 _ _ _ E) as (Hn & Hp & HD & k' & r' & Hk' & Hin). split_and!; [done | done | done |]. exists k', r'. rewrite lookup_insert_ne by congruence. done.
Qed.

(** [m'] has the new region [k] of [length] bytes in a range that was neither free nor in use. *)
Definition region_placed m m' (k length flags : Z) (file : option Z) : Prop :=
  let g := guard_page_size flags in
  regions m' = <[k := Region length flags file]> (regions m) /\ regions m !! k = None /\ k mod 4096 = 0 /\ 0 <= k /\
  (forall x, k - g <= x < k + length -> ~ available (space m) x /\ ~ in_use (space m) x) /\
  (forall x, available (space m') x <-> available (space m) x) /\
  (forall x, in_use (space m') x <-> in_use (space m) x \/ k - g <= x < k + length).

Definition committed (flags : Z) : bool := z2b (Z.land flags MMAP_REGION_FLAG_COMMIT).

(** The frames for the pages of a region that is to be committed. *)
Definition commit_ready m (length flags : Z) : Prop :=
  committed flags = true -> z2b (Z.land flags MMAP_REGION_FLAG_NO_ALLOC) = false /\ serves_n (4 * Z.to_nat (length / 4096)) (frames (pagemap m)).

(** The pages of the region [k]: mapped if the region is committed, otherwise none; other pages stay. *)
Definition region_pages D D' (k length flags : Z) : Prop :=
  (forall q, ~ (k <= 4096 * q < k + length) -> D' !! q = D !! q) /\
  forall q, k <= 4096 * q < k + length -> if committed flags then is_Some (D' !! q) else D' !! q = None.

Lemma address_space_refs s v r r' D R : address_space (Mmap s v r) D R -> address_space (Mmap s v r') D R.
Proof. intros []. by split. Qed.

Lemma ref_file_eq m file d : ref_file m file d = Mmap (space m) (pagemap m) (references (ref_file m file d)).
Proof. destruct file; [done | by destruct m]. Qed.

(** The page of a frame is in a region. *)
Lemma frame_region m D R q f : address_space m D R -> D !! q = Some f -> exists k r, regions m !! k = Some r /\ inside k r (4096 * q).
Proof. intros HA HD. destruct (as_pages _ _ _ HA) as (M & _ & HM). destruct (proj1 HM _ _ HD) as [e He]. destruct (proj2 HM _ _ _ He) as (_ & _ & _ & k & r & Hk & Hin & _). eauto. Qed.

Lemma unused_unmapped m D R q : address_space m D R -> ~ in_use (space m) (4096 * q) -> D !! q = None.
Proof.
  intros HA Hq. destruct (D !! q) as [f |] eqn:E; [| done]. exfalso. destruct (frame_region _ _ _ _ _ HA E) as (k & r & Hk & Hin). pose proof (guard_range (r_flags r)). apply Hq. exists k, r. unfold inside in Hin. split; [done | lia].
Qed.

(** The region goes into the tree; nothing is mapped yet. *)
Lemma insert_ok m D R a length flags file : address_space m D R -> request_ok length flags -> let g := guard_page_size flags in
  vacant (space m) a (length + g) -> a mod 4096 = 0 -> a + (length + g) <= 2 ^ 47 ->
  exists t, insert_node (regions m) (u64 (a + g)) (Region length flags file) = Some t /\ u64 (a + g) = a + g /\
    let m' := Mmap (set_regions (space m) t) (pagemap m) (references (ref_file m file 1)) in address_space m' D R /\ region_placed m m' (a + g) length flags file.
Proof.
  intros HA (Hlen & Hal & Hext) g Hv Ha Hend. pose proof (guard_range flags) as Hg. fold g in Hg. pose proof (guard_page flags) as Hgp. fold g in Hgp.
  destruct (insert_region_ok (space m) a (Region length flags file) (as_space _ _ _ HA)) as (t & Et & Ht & Hs' & Hav' & Hus'); [cbn; lia | exact Hv |]. cbn [r_length r_flags] in *. fold g in Et, Ht, Hus'.
  pose proof Hv as [(_ & Ha0 & _) _]. assert (Eu : u64 (a + g) = a + g) by (apply u64_id; lia). exists t. split; [done|]. split; [done|]. set (m' := Mmap (set_regions (space m) t) (pagemap m) (references (ref_file m file 1))).
  assert (Hfresh : regions m !! (a + g) = None) by (unfold insert_node in Et; rewrite Eu in Et; by destruct (address_tree (space m) !! (a + g))).
  split.
  - split; cbn [m' space pagemap set_regions address_tree break_address].
    + done.
    + apply (as_aligned _ _ _ HA).
    + intros k r Hk. rewrite Ht in Hk. apply lookup_insert_Some in Hk as [[<- <-] | [_ Hk]]; [| by apply (as_region _ _ _ HA)]. split_and!; cbn [r_length r_flags]; [by apply add_page | done | lia | done].
    + destruct (as_user _ _ _ HA) as [Hbr Hus]. split; [done|]. intros x Hx. apply Hav' in Hx. by apply Hus.
    + destruct (as_pages _ _ _ HA) as (M & HT & HM). exists M. split; [done|]. rewrite Ht. by apply mappings_more.
  - unfold region_placed. fold g. replace (a + g - g) with a by lia. replace (a + g + length) with (a + (length + g)) by lia. split_and!.
    + by cbn [m' space set_regions address_tree].
    + done.
    + by apply add_page.
    + lia.
    + intros x Hx. by apply (vacant_points _ _ _ _ Hv).
    + exact Hav'.
    + intros x. cbn [m' space]. rewrite Hus'. by replace (a + length + g) with (a + (length + g)) by lia.
Qed.

(** The end of [mmap_alloc]: the region is inserted and its pages are committed. *)
Definition place m (a length flags : Z) (file : option Z) : option (mmap_t P * option Z) :=
  let g := guard_page_size flags in
  let m := ref_file m file 1 in
  let key := u64 (a + g) in
  t ← insert_node (address_tree (space m)) key (Region (u64 (length + g - g)) flags file);
  let m := set_space m (set_regions (space m) t) in
  m ← (if z2b (Z.land flags MMAP_REGION_FLAG_COMMIT) then commit_loop file_page (Z.to_nat ((length + g - g) / PAGE_SIZE)) m key else Some m);
  Some (m, Some key).

Lemma place_ok m D R a length flags file : address_space m D R -> request_ok length flags -> commit_ready m length flags -> let g := guard_page_size flags in
  vacant (space m) a (length + g) -> a mod 4096 = 0 -> a + (length + g) <= 2 ^ 47 ->
  exists m' D', place m a length flags file = Some (m', Some (a + g)) /\ address_space m' D' R /\ region_placed m m' (a + g) length flags file /\ same_rest R (pagemap m) (pagemap m') /\
    references m' = references (ref_file m file 1) /\ region_pages D D' (a + g) length flags.
Proof.
  intros HA Hreq Hc g Hv Ha Hend. pose proof Hreq as (Hlen & Hal & _). destruct (insert_ok m D R a length flags file HA Hreq Hv Ha Hend) as (t & Et & Eu & HA' & Hp). fold g in Et, Eu, Hp. unfold place. fold g.
  rewrite (ref_file_eq m file 1). cbn [space pagemap]. replace (length + g - g) with length by lia. rewrite (u64_id length) by lia. rewrite Et, Eu. cbn [mbind option_bind]. set (m1 := set_space _ _).
  change m1 with (Mmap (set_regions (space m) t) (pagemap m) (references (ref_file m file 1))) in *. clear m1. set (m1 := Mmap (set_regions (space m) t) (pagemap m) (references (ref_file m file 1))) in *.
  pose proof (guard_range flags) as Hg. fold g in Hg.
  assert (Hun : forall q, a + g <= 4096 * q < a + g + length -> D !! q = None) by (intros q Hq; apply (unused_unmapped m D R q HA); apply Hp; fold g; lia).
  fold (committed flags). destruct (committed flags) eqn:Ec.
  - destruct (Hc Ec) as [Hna Hs]. destruct Hp as (Hreg & Hrest). assert (Hk : regions m1 !! (a + g) = Some (Region length flags file)) by by rewrite Hreg, lookup_insert_eq.
    pose proof (Z.div_mod length 4096 ltac:(lia)) as Hdm.
    destruct (commit_ok (Z.to_nat (length / 4096)) m1 D R (a + g) (Region length flags file) (a + g) 0 HA' Hk Hna) as (v & D' & Ev & HA2 & Hs2 & Hout & Hin); [lia | apply Hrest | cbn; lia | exact Hun | by rewrite Nat.add_0_r |].
    change (length / 4096) with (length / PAGE_SIZE) in Ev. rewrite Ev. cbn [mbind option_bind]. exists (set_pagemap m1 v), D'. split_and!; [done | done | by split | done | done |]. split; [done|]. rewrite Ec. exact Hin.
  - cbn [mbind option_bind]. exists m1, D. split_and!; [done | done | done | done | done |]. split; [done|]. rewrite Ec. exact Hun.
Qed.

(** A region in space that was taken before is cut from that space. *)
Lemma placed_added m m1 m' a l length flags file : taken (space m) (space m1) a l -> regions m1 = regions m -> l = length + guard_page_size flags ->
  region_placed m1 m' (a + guard_page_size flags) length flags file -> region_added m m' (a + guard_page_size flags) length flags file.
Proof.
  intros (_ & Hin & Hav) Er -> (H1 & H2 & H3 & H4 & _ & H6 & H7). rewrite Er in H1, H2. set (g := guard_page_size flags) in *. unfold region_added. fold g in H7 |- *. replace (a + g - g) with a in * by lia. split_and!; [done | done | done | done | | |].
  - intros x Hx. apply Hin. lia.
  - intros x. rewrite H6, Hav. by replace (a + (length + g)) with (a + g + length) by lia.
  - intros x. by rewrite H7, (in_use_same (space m) (space m1)).
Qed.

(** The bytes that a request is for: a request for 0 bytes of a file is for the whole file. *)
Definition request_length (length : Z) (file : option Z) : Z :=
  match file with Some f => if length =? 0 then pmm_align_up_address (file_size f) else length | None => length end.

Lemma low_bits x : z2b (Z.land x (PAGE_SIZE - 1)) = negb (x mod 4096 =? 0).
Proof. change (PAGE_SIZE - 1) with (2 ^ 12 - 1). by rewrite land_low by lia. Qed.

Lemma page_bits x y : z2b (Z.land (Z.lor x y) (PAGE_SIZE - 1)) = negb (x mod 4096 =? 0) || negb (y mod 4096 =? 0).
Proof.
  rewrite <- !low_bits, Z.land_lor_distr_l. unfold z2b. set (u := Z.land x _). set (w := Z.land y _). pose proof (Z.lor_eq_0_iff u w). destruct (Z.eqb_spec (Z.lor u w) 0), (Z.eqb_spec u 0), (Z.eqb_spec w 0); tauto.
Qed.

(** What [mmap_alloc] does with a request that it does not refuse at once. *)
Lemma mmap_alloc_body m address length flags file : address mod 4096 = 0 -> length mod 4096 = 0 -> request_ok (request_length length file) flags ->
  let len := request_length length file in let g := guard_page_size flags in
  mmap_alloc file_size file_page m address length flags file =
    ('(s, found) ← (if address =? 0 then alloc_space (space m) (len + g) else Some (space m, Some address));
     match found with None => Some (set_space m s, None) | Some a => place (set_space m s) a len flags file end).
Proof.
  intros Ha Hl (Hlen & _) len g. unfold mmap_alloc. rewrite page_bits, Ha, Hl. cbn [Z.eqb negb orb]. fold (request_length length file). fold len in Hlen |- *. destruct (Z.eqb_spec len 0); [lia|]. rewrite shiftr_small by lia. reflexivity.
Qed.

Lemma alloc_refused m address length flags file : address mod 4096 <> 0 \/ length mod 4096 <> 0 \/ request_length length file = 0 \/ 2 ^ 47 <= request_length length file ->
  mmap_alloc file_size file_page m address length flags file = Some (m, None).
Proof.
  intros Hbad. unfold mmap_alloc. rewrite page_bits. destruct (Z.eqb_spec (address mod 4096) 0); [| done]. destruct (Z.eqb_spec (length mod 4096) 0); [| done]. cbn [negb orb]. fold (request_length length file).
  destruct (Z.eqb_spec (request_length length file) 0); [done|]. cbn [orb]. assert (Hbig : 2 ^ 47 <= request_length length file) by tauto. rewrite Z.shiftr_div_pow2 by lia.
  pose proof (Z.div_le_lower_bound (request_length length file) (2 ^ 47) 1 ltac:(lia) ltac:(lia)). unfold z2b. destruct (Z.eqb_spec (request_length length file / 2 ^ 47) 0); [lia | done].
Qed.

(** A region at any address. *)
Lemma alloc_any_ok m D R length flags file : address_space m D R -> length mod 4096 = 0 -> let len := request_length length file in let g := guard_page_size flags in
  request_ok len flags -> commit_ready m len flags ->
  exists m' found, mmap_alloc file_size file_page m 0 length flags file = Some (m', found) /\
    match found with
    | Some k => exists D', address_space m' D' R /\ region_added m m' k len flags file /\ same_rest R (pagemap m) (pagemap m') /\
        references m' = references (ref_file m file 1) /\ region_pages D D' k len flags
    | None => m' = m /\ heap_address (space m) < break_address (space m) + len + g /\ forall a n, free_address_tree (space m) !! a = Some n -> n < len + g
    end.
Proof.
  intros HA Hl len g Hreq Hc. rewrite mmap_alloc_body by done. fold len g. change (0 =? 0) with true. cbn match. pose proof Hreq as (Hlen & Hal & _). pose proof (guard_range flags) as Hg. fold g in Hg. destruct (as_user _ _ _ HA) as [Hbr Hus].
  destruct (alloc_space_ok (space m) (len + g) (as_space _ _ _ HA) ltac:(lia) ltac:(lia)) as (s & found & E & Hs & Er & Eb & Hf).
  destruct (alloc_aligned _ _ _ _ (as_space _ _ _ HA) (as_aligned _ _ _ HA) (add_page _ _ Hal (guard_page flags)) E) as [Hals Hala]. rewrite E. cbn [mbind option_bind].
  destruct found as [a |]; [| destruct Hf as (-> & Hh & Hn); exists m, None; split_and!; [by destruct m | done | lia | done]]. pose proof Hf as (Hv & Hin & Hav).
  assert (HAs : address_space (set_space m s) D R).
  { split; cbn [set_space space pagemap]; [done | done | | |]; rewrite ?Er; [apply (as_region _ _ _ HA) | | apply (as_pages _ _ _ HA)]. rewrite Eb. split; [done|]. intros x Hx. apply Hav in Hx as [Hx _]. by apply Hus. }
  destruct (place_ok (set_space m s) D R a len flags file HAs Hreq Hc Hv (Hala a eq_refl)) as (m' & D' & E' & HA' & Hp & Hsame & Hrefs & Hpages).
  { pose proof (Hus _ (Hin (a + (len + g) - 1) ltac:(lia))). fold g. lia. }
  exists m', (Some (a + g)). split; [exact E'|]. exists D'. split_and!; [done | | exact Hsame | | exact Hpages].
  - by apply (placed_added m (set_space m s) m' a (len + g)).
  - rewrite Hrefs. by destruct file.
Qed.

(** A region at a given address. *)
Lemma alloc_at_ok m D R address length flags file : address_space m D R -> address mod 4096 = 0 -> length mod 4096 = 0 -> let len := request_length length file in let g := guard_page_size flags in
  request_ok len flags -> commit_ready m len flags -> 0 < address -> address + (len + g) <= 2 ^ 47 -> (forall x, address <= x < address + (len + g) -> ~ available (space m) x /\ ~ in_use (space m) x) ->
  exists m' D', mmap_alloc file_size file_page m address length flags file = Some (m', Some (address + g)) /\ address_space m' D' R /\ region_placed m m' (address + g) len flags file /\
    same_rest R (pagemap m) (pagemap m') /\ references m' = references (ref_file m file 1) /\ region_pages D D' (address + g) len flags.
Proof.
  intros HA Ha Hl len g Hreq Hc Ha0 Hend Hfree. rewrite mmap_alloc_body by done. fold len g. destruct (Z.eqb_spec address 0); [lia|]. cbn [mbind option_bind]. replace (set_space m (space m)) with m by by destruct m.
  pose proof Hreq as (Hlen & _). pose proof (guard_range flags) as Hg. fold g in Hg. apply place_ok; [done | done | done | | done | done]. apply points_vacant; [apply HA | fold g; lia | lia | fold g; lia | done].
Qed.

(** *** Release *)

Lemma mappings_less M D T k r : mappings_ok M D T -> T !! k = Some r -> (forall q, k <= 4096 * q < k + r_length r -> D !! q = None) -> mappings_ok M D (delete k T).
Proof.
  intros [H1 H2] Hk HD. split; [done|]. intros n q e E. destruct (H2 _ _ _ E) as (-> & Hp & HDq & k' & r' & Hk' & Hin & Hu). split_and!; [done | done | done |]. exists k', r'. rewrite lookup_delete_ne; [done|].
  intros <-. simplify_eq. rewrite HD in HDq by lia. done.
Qed.

Lemma dealloc_region_ok m D R k r : address_space m D R -> regions m !! k = Some r -> releasable r ->
  exists m' D', _dealloc_region m k r true = Some m' /\ address_space m' D' R /\ regions m' = delete k (regions m) /\ same_rest R (pagemap m) (pagemap m') /\
    references m' = references (ref_file m (r_file r) (-1)) /\ (forall q, D' !! q = if decide (inside k r (4096 * q)) then None else D !! q) /\
    (forall x, available (space m') x <-> available (space m) x \/ k - guard_page_size (r_flags r) <= x < k + r_length r).
Proof.
  intros HA Hk Hr. destruct (region_bounds _ _ _ _ _ HA Hk) as (Hk0 & Hl0 & Hk47). destruct (as_region _ _ _ HA _ _ Hk) as (Hka & Hla & _ & Hext). pose proof (guard_range (r_flags r)) as Hg. set (g := guard_page_size (r_flags r)) in *.
  destruct (delete_region_ok (space m) k r (as_space _ _ _ HA) Hk) as (Hs1 & Hv1 & Hav1 & Hus1). fold g in Hv1, Hus1. unfold _dealloc_region. set (s1 := set_regions (space m) (delete k (regions m))) in *.
  assert (En : Z.of_nat (Z.to_nat ((r_length r + PAGE_SIZE - 1) / PAGE_SIZE)) * 4096 = r_length r).
  { unfold PAGE_SIZE. pose proof (Z.div_mod (r_length r) 4096 ltac:(lia)). replace (r_length r + 4096 - 1) with (4095 + r_length r / 4096 * 4096) by lia. rewrite Z.div_add, Z.div_small by lia. lia. }
  destruct (unmap_loop_ok (Z.to_nat ((r_length r + PAGE_SIZE - 1) / PAGE_SIZE)) (set_space m s1) D (regions m) R r k 0 (as_pages _ _ _ HA) Hr Hk0 Hka ltac:(lia) eq_refl ltac:(lia)) as (v & D' & E & HP & Hsame & HD').
  rewrite E. cbn [mbind option_bind]. rewrite (ref_file_eq (set_pagemap (set_space m s1) v)). cbn [set_pagemap set_space space pagemap]. fold g.
  pose proof Hv1 as [(_ & Hkg & Hend & _) _]. rewrite (u64_id (k - g)), (u64_id (r_length r + g)) by lia. destruct (push_region_ok s1 (k - g) (r_length r + g) Hs1 Hv1) as (s2 & E2 & Hs2 & Er2 & Eb2 & Hav2). rewrite E2. cbn [mbind option_bind].
  do 2 eexists. split; [done|]. assert (HD2 : forall q, D' !! q = if decide (inside k r (4096 * q)) then None else D !! q).
  { intros q. rewrite HD'. destruct (decide (k + 0 <= _ < _)) as [Hi | Hi]; destruct (decide (inside k r (4096 * q))) as [Hj | Hj]; unfold inside in Hj; try done; lia. }
  assert (Hav : forall x, available s2 x <-> available (space m) x \/ k - g <= x < k + r_length r) by (intros x; rewrite Hav2, Hav1; by replace (k - g + (r_length r + g)) with (k + r_length r) by lia).
  split_and!; [| by cbn | done | cbn; by destruct (r_file r) | exact HD2 | exact Hav]. split; cbn [set_space space pagemap].
  - done.
  - eapply push_aligned; [| | | exact E2]; [apply (as_aligned _ _ _ HA) | apply sub_page; [done | apply guard_page] | apply add_page; [done | apply guard_page]].
  - intros k' r' Hk'. rewrite Er2 in Hk'. cbn [s1 set_regions address_tree] in Hk'. apply lookup_delete_Some in Hk' as [_ Hk']. by apply (as_region _ _ _ HA).
  - destruct (as_user _ _ _ HA) as [Hbr Hus]. rewrite Eb2. split; [done|]. intros x Hx. apply Hav in Hx as [Hx | Hx]; [by apply Hus | lia].
  - rewrite Er2. destruct HP as (M & HT & HM). exists M. split; [done|]. eapply mappings_less; [done | exact Hk |]. intros q Hq. rewrite HD2. by rewrite decide_True by exact Hq.
Qed.
End spec.

(** ** Theorems *)

(** A new address space. *)
Lemma mmap_init_ok {P} `{PageAllocatorLaws P} (v : vmm_t P) R bottom top refs : tables v R ∅ -> 0 <= bottom <= top -> top <= 2 ^ 47 -> top mod 4096 = 0 -> address_space (mmap_init v bottom top refs) ∅ R.
Proof.
  intros HT Hb Ht Ha. split; cbn [mmap_init space pagemap address_tree].
  - split; cbn [break_address heap_address length_tree free_address_tree address_tree]; [lia | | | | by intros l; rewrite lookup_empty | by intros k r; rewrite lookup_empty].
    + intros o a l [x n Hx | k r Hk]; [cbn [free_address_tree] in Hx; by rewrite lookup_empty in Hx | cbn [address_tree] in Hk; by rewrite lookup_empty in Hk].
    + intros o o' a l a' l' [x n Hx | k r Hk]; [cbn [free_address_tree] in Hx; by rewrite lookup_empty in Hx | cbn [address_tree] in Hk; by rewrite lookup_empty in Hk].
    + intros l a. rewrite !lookup_empty. cbn. split; [by intros ?%not_elem_of_nil | done].
  - split; [done|]. intros a l. cbn [free_address_tree]. by rewrite lookup_empty.
  - intros k r. by rewrite lookup_empty.
  - cbn [break_address]. split; [lia|]. intros x [(a & l & Hx & _) | Hx]; [cbn [space free_address_tree] in Hx; by rewrite lookup_empty in Hx | cbn [break_address heap_address] in Hx; lia].
  - exists ∅. unfold data. rewrite map_to_list_empty. split; [done|]. split; [by intros q f; rewrite lookup_empty | by intros n q e; rewrite lookup_empty].
Qed.

(** C10: requests for memory of their own, that is not for external regions.  A
    request that names no address gets a page-aligned region,
    with its guard pages, from addresses that were free and are not free any more;
    it fails only if no free region and not the rest of the heap is large enough.
    A request that names an address gets its region there, behind the guard pages,
    provided that the range is neither free space of the allocator nor in use (the
    code does not check it: [alloc_given_overlaps]).  In both cases existing
    regions, their pages and all other memory stay as they are, and a region that
    is to be committed, for whose pages there are frames, has all of them.  A misaligned address or length and a
    length of 0 or of 2^47 and more are refused. *)
Theorem mmap_alloc_correct {P} `{PageAllocatorLaws P} file_size file_page (m : mmap_t P) D R address length flags file : address_space m D R ->
  let len := request_length file_size length file in let g := guard_page_size flags in
  (address mod 4096 <> 0 \/ length mod 4096 <> 0 \/ len = 0 \/ 2 ^ 47 <= len -> mmap_alloc file_size file_page m address length flags file = Some (m, None)) /\
  (address mod 4096 = 0 -> length mod 4096 = 0 -> request_ok len flags -> commit_ready m len flags ->
    (address = 0 -> exists m' found, mmap_alloc file_size file_page m address length flags file = Some (m', found) /\
      match found with
      | Some k => exists D', address_space m' D' R /\ region_added m m' k len flags file /\ same_rest R (pagemap m) (pagemap m') /\
          references m' = references (ref_file m file 1) /\ region_pages D D' k len flags
      | None => m' = m /\ heap_address (space m) < break_address (space m) + len + g /\
          forall a n, free_address_tree (space m) !! a = Some n -> n < len + g
      end) /\
    (0 < address -> address + (len + g) <= 2 ^ 47 -> (forall x, address <= x < address + (len + g) -> ~ available (space m) x /\ ~ in_use (space m) x) ->
      exists m' D', mmap_alloc file_size file_page m address length flags file = Some (m', Some (address + g)) /\ address_space m' D' R /\ region_placed m m' (address + g) len flags file /\
        same_rest R (pagemap m) (pagemap m') /\ references m' = references (ref_file m file 1) /\ region_pages D D' (address + g) len flags)).
Proof.
  intros HA len g. split; [apply alloc_refused|]. intros Ha Hl Hreq Hc. split; [intros ->; by apply alloc_any_ok | by apply alloc_at_ok].
Qed.

(** C11: a fault on an address of a region, whose page is not mapped yet, maps a
    frame that belongs to nobody else: every word of it is zero, or that of the
    page of the file, and the entry of the page has exactly the rights of the
    region (present; for user code, writable and executable only if the region
    is).  Nothing else in memory changes; a fault outside of the regions, in a
    guard page or in a region that forbids it changes nothing. *)
Theorem mmap_fault_correct {P} `{PageAllocatorLaws P} file_page (m : mmap_t P) D R va : address_space m D R -> 0 <= va < 2 ^ 47 -> va mod 4096 = 0 -> D !! (va / 4096) = None -> serves_n 4 (frames (pagemap m)) ->
  (forall k r, regions m !! k = Some r -> inside k r va -> z2b (Z.land (r_flags r) MMAP_REGION_FLAG_NO_ALLOC) = false ->
    exists v a, mmap_handle_pf file_page m va = Some (set_pagemap m v, a) /\ address_space (set_pagemap m v) (<[va / 4096 := a]> D) R /\ same_rest (data D ++ R) (pagemap m) v /\
      vmm_virtual_to_physical v va = a /\ (forall i, 0 <= i < 512 -> words v (slot a i) = page_content file_page k r va i) /\
      exists e, page_entry v va = Some e /\ rights_of r a e) /\
  ((forall k r, regions m !! k = Some r -> inside k r va -> z2b (Z.land (r_flags r) MMAP_REGION_FLAG_NO_ALLOC) = true) -> mmap_handle_pf file_page m va = Some (m, 0)).
Proof.
  intros HA Hva Hal HD Hs. destruct (handle_pf_ok file_page m D R va 0 HA Hva Hal HD Hs) as [Hyes Hno]. split; [| done].
  intros k r Hk Hi Hna. destruct (Hyes k r Hk Hi Hna) as (v & a & E & HA' & Hsame & Ht & _ & (Hz & He) & _). exists v, a. by split_and!.
Qed.


(** ** A process *)

Definition demo_mmap : mmap_t client := mmap_init demo_vmm 0x10000 0x800000 ∅.

Definition no_file (_ _ _ : Z) : Z := 0.

Lemma demo_mmap_ok : address_space demo_mmap ∅ demo_rest.
Proof. apply mmap_init_ok; [exact demo_vmm_ok | lia | lia | done]. Qed.

(** Two pages for the program: readable and writable. *)
Definition demo_flags : Z := Z.lor MMAP_REGION_FLAG_VMM_USER MMAP_REGION_FLAG_VMM_WRITE.

Lemma demo_request : request_ok 0x2000 demo_flags.
Proof. split_and!; [lia | lia | done | done]. Qed.

Lemma demo_unused x : 0x1000000 <= x < 0x1002000 -> ~ available (space demo_mmap) x /\ ~ in_use (space demo_mmap) x.
Proof.
  intros Hx. split; [intros [(a & l & Ha & _) | Hh] | intros (k & r & Hk & _)].
  - cbn in Ha. by rewrite lookup_empty in Ha.
  - cbn in Hh. lia.
  - cbn in Hk. by rewrite lookup_empty in Hk.
Qed.

Lemma mmap_alloc_correct_witness : (exists m' D', mmap_alloc (fun _ => 0) no_file demo_mmap 0 0x2000 demo_flags None = Some (m', Some 0x7fe000) /\
  address_space m' D' demo_rest /\ region_added demo_mmap m' 0x7fe000 0x2000 demo_flags None) /\
  (exists m' D', mmap_alloc (fun _ => 0) no_file demo_mmap 0x1000000 0x2000 demo_flags None = Some (m', Some 0x1000000) /\ address_space m' D' demo_rest) /\
  mmap_alloc (fun _ => 0) no_file demo_mmap 0x1000 0x2001 demo_flags None = Some (demo_mmap, None).
Proof.
  split; [| split].
  - destruct (mmap_alloc_correct (fun _ => 0) no_file demo_mmap ∅ demo_rest 0 0x2000 demo_flags None demo_mmap_ok) as [_ Hyes].
    destruct (Hyes eq_refl eq_refl demo_request ltac:(discriminate)) as [Hany _]. destruct (Hany eq_refl) as (m' & found & E & Hf).
    assert (Ef : found = Some 0x7fe000) by (apply (f_equal (fmap snd)) in E; vm_compute in E; injection E as <-; reflexivity). rewrite Ef in *. destruct Hf as (D' & HA & Hadd & _). exists m', D'. exact (conj E (conj HA Hadd)).
  - destruct (mmap_alloc_correct (fun _ => 0) no_file demo_mmap ∅ demo_rest 0x1000000 0x2000 demo_flags None demo_mmap_ok) as [_ Hyes].
    destruct (Hyes eq_refl eq_refl demo_request ltac:(discriminate)) as [_ Hat]. destruct (Hat ltac:(lia) ltac:(vm_compute; discriminate)) as (m' & D' & E & HA & _); [| exists m', D'; exact (conj E HA)].
    intros x Hx. apply demo_unused. change (0x1000000 + (request_length (fun _ => 0) 0x2000 None + guard_page_size demo_flags)) with 0x1002000 in Hx. exact Hx.
  - apply (mmap_alloc_correct (fun _ => 0) no_file demo_mmap ∅ demo_rest 0x1000 0x2001 demo_flags None demo_mmap_ok). right. left. discriminate.
Defined.

Definition demo_region : mmap_t client := match mmap_alloc (fun _ => 0) no_file demo_mmap 0 0x2000 demo_flags None with Some (m, _) => m | None => demo_mmap end.

Lemma demo_region_ok : address_space demo_region ∅ demo_rest /\ regions demo_region !! 0x7fe000 = Some (Region 0x2000 demo_flags None).
Proof.
  destruct (alloc_any_ok (fun _ => 0) no_file demo_mmap ∅ demo_rest 0x2000 demo_flags None demo_mmap_ok eq_refl demo_request ltac:(discriminate)) as (m' & found & E & Hf).
  assert (Ef : found = Some 0x7fe000) by (apply (f_equal (fmap snd)) in E; vm_compute in E; injection E as <-; reflexivity). rewrite Ef in *. destruct Hf as (D' & HA & (Hr & _) & _ & _ & Hout & Hin). change (request_length (fun _ => 0) 0x2000 None) with 0x2000 in *.
  unfold demo_region. rewrite E. split; [| by rewrite Hr, lookup_insert_eq]. replace (∅ : gmap Z Z) with D'; [done|]. apply map_eq. intros q. rewrite lookup_empty.
  destruct (decide (0x7fe000 <= 4096 * q < 0x7fe000 + 0x2000)) as [Hq | Hq]; [by apply (Hin q Hq) | by rewrite Hout, lookup_empty].
Qed.

Lemma demo_serves4 : serves_n 4 (frames (pagemap demo_region)).
Proof.
  split; [exists 0%nat; vm_compute; reflexivity|]. intros p1 a1 E1. vm_compute in E1. injection E1 as <- <-.
  split; [exists 0%nat; vm_compute; reflexivity|]. intros p2 a2 E2. vm_compute in E2. injection E2 as <- <-.
  split; [exists 0%nat; vm_compute; reflexivity|]. intros p3 a3 E3. vm_compute in E3. injection E3 as <- <-.
  split; [exists 0%nat; vm_compute; reflexivity|]. done.
Qed.

Lemma mmap_fault_correct_witness : exists v a, mmap_handle_pf no_file demo_region 0x7ff000 = Some (set_pagemap demo_region v, a) /\
  address_space (set_pagemap demo_region v) (<[0x7ff := a]> ∅) demo_rest /\ vmm_virtual_to_physical v 0x7ff000 = a /\ words v (slot a 5) = 0 /\ page_entry v 0x7ff000 = Some (a + 1 + 2 + 4 + 2 ^ 63).
Proof.
  destruct demo_region_ok as [HA Hr]. destruct (mmap_fault_correct no_file demo_region ∅ demo_rest 0x7ff000 HA) as [Hyes _]; [lia | reflexivity | reflexivity | exact demo_serves4 |].
  destruct (Hyes 0x7fe000 (Region 0x2000 demo_flags None) Hr) as (v & a & E & HA' & _ & Ht & Hz & e & He & Hr'); [unfold inside; cbn; lia | reflexivity |]. exists v, a. rewrite Hr' in He. exact (conj E (conj HA' (conj Ht (conj (Hz 5 ltac:(lia)) He)))).
Defined.


(** ** Defects *)

(** A region at a given address is inserted whatever is there: the second region
    lies inside of the first one. *)
Lemma alloc_given_overlaps :
  ('(m, found) ← mmap_alloc (fun _ => 0) no_file demo_region 0x7ff000 0x1000 demo_flags None; Some (found, regions m !! 0x7fe000, regions m !! 0x7ff000)) =
  Some (Some 0x7ff000, Some (Region 0x2000 demo_flags None), Some (Region 0x1000 demo_flags None)).
Proof. vm_compute. reflexivity. Qed.

(** Unmapping a part of a region from user code is a panic of the kernel. *)
Lemma unmap_part_panics : syscall_memory_unmap demo_region 0x7ff000 0x1000 = None.
Proof. vm_compute. reflexivity. Qed.

(** So is unmapping a file that was mapped without [USER_MEMORY_FLAG_NOWRITEBACK]
    and touched. *)
Lemma unmap_file_panics :
  (r ← syscall_memory_map (fun _ => 0x1000) no_file demo_mmap 0x1000 USER_MEMORY_FLAG_FILE (Some (7, true));
   '(m, _) ← mmap_handle_pf no_file r.1 0x7ff000;
   Some (syscall_memory_unmap m 0x7ff000 0x1000)) = Some None.
Proof. vm_compute. reflexivity. Qed.

(** A descriptor without the right to map its file keeps a reference to it. *)
Lemma map_denied_leaks {P} `{PageAllocator P} file_size file_page (m : mmap_t P) size f : references m !! f = None ->
  exists m', syscall_memory_map file_size file_page m size USER_MEMORY_FLAG_FILE (Some (f, false)) = Some (m', ERROR_DENIED) /\ references m' !! f = Some 1.
Proof. intros Hf. eexists. split; [reflexivity|]. cbn [ref_file references]. by rewrite Hf, lookup_insert_eq. Qed.

(** The flags of pages of the kernel can be changed from user code: a page that is
    present and read-only becomes writable. *)
Lemma kernel_page_made_writable :
  (v ← vmm_map_page demo_vmm 0x7000 0xffff800000000000 VMM_PAGE_FLAG_PRESENT;
   '(m, r) ← syscall_memory_change_flags no_file (Mmap (space demo_mmap) v ∅) 0xffff800000000000 0x1000 (Z.lor USER_MEMORY_FLAG_WRITE USER_MEMORY_FLAG_EXEC);
   entry ← _lookup_virtual_address (pagemap m) 0xffff800000000000;
   Some (get v entry, get (pagemap m) entry, r)) = Some (0x7001, 0x7003, ERROR_OK).
Proof. vm_compute. reflexivity. Qed.
