(* ===== verification/Timer.v ===== *)
(** * Timers ([src/src/kernel/timer/timer.c], [include/kernel/timer/timer.h]).

    The timers that wait are in a tree by deadline.  A timer whose deadline is
    taken is meant to join a doubly linked chain behind the one in the tree; it
    is linked to itself instead, since the tree returns the node it was given
    ([RbTreeSpec.rb_insert_duplicate]).  A timer is named by its address, [NULL]
    is 0; the tree is seen through its map ([TreeMap]).  What is done to the
    events of the timers is recorded in [signals], the latest first.
    [None] is an access through a bad pointer or the panic of
    [rb_tree_insert_node] on a taken key.  The time is an argument of the functions
    that read the clock, [allowed] the answer of the access control list of the
    timer.  *)
From stdpp Require Import base tactics list numbers option gmap.
From Stdlib Require Import ZArith Lia.
From S2P Require Import Prelude TreeMap.
#[local] Open Scope Z_scope.

Definition TIMER_COUNT_ABSOLUTE_TIME : Z := 0.
Definition TIMER_COUNT_INFINITE : Z := 0xffffffffffffffff.

Record timer_t := Timer {
  key : Z;
  prev : Z;
  next : Z;
  interval : Z;
  count : Z;
  is_deleted : bool
}.

Inductive signal :=
| Dispatched (timer : Z)
| Activity (timer : Z) (active : bool)
| Deleted (timer : Z).

Record timers_t := Timers { _timer_tree : gmap Z Z; timers : gmap Z timer_t; signals : list signal }.

Definition set_key (x : Z) (t : timer_t) : timer_t := Timer x (prev t) (next t) (interval t) (count t) (is_deleted t).
Definition set_prev (x : Z) (t : timer_t) : timer_t := Timer (key t) x (next t) (interval t) (count t) (is_deleted t).
Definition set_next (x : Z) (t : timer_t) : timer_t := Timer (key t) (prev t) x (interval t) (count t) (is_deleted t).
Definition set_interval (x : Z) (t : timer_t) : timer_t := Timer (key t) (prev t) (next t) x (count t) (is_deleted t).
Definition set_count (x : Z) (t : timer_t) : timer_t := Timer (key t) (prev t) (next t) (interval t) x (is_deleted t).
Definition set_deleted (t : timer_t) : timer_t := Timer (key t) (prev t) (next t) (interval t) (count t) true.

(** A store to the timer at an address. *)
Definition update (s : timers_t) (timer : Z) (f : timer_t -> timer_t) : option timers_t :=
  t ← timers s !! timer;
  Some (Timers (_timer_tree s) (<[timer := f t]> (timers s)) (signals s)).

Definition set_tree (s : timers_t) (t : gmap Z Z) : timers_t := Timers t (timers s) (signals s).
Definition emit (s : timers_t) (x : signal) : timers_t := Timers (_timer_tree s) (timers s) (x :: signals s).

Definition _remove_from_chain (s : timers_t) (timer : Z) : option timers_t :=
  t ← timers s !! timer;
  s ← (if negb (prev t =? 0) then update s (prev t) (set_next (next t))
       else if negb (next t =? 0) then
         n ← timers s !! next t;
         match _timer_tree s !! key n with Some _ => None | None => Some (set_tree s (<[key n := next t]> (_timer_tree s))) end
       else Some s);
  s ← (if negb (next t =? 0) then update s (next t) (set_prev (prev t)) else Some s);
  update s timer (fun t => set_next 0 (set_prev 0 t)).

(** [timer] takes the place of its deadline in the tree.  When the deadline is
    taken [chain] is [timer] itself: the tree returns the node it was given. *)
Definition _schedule_timer (s : timers_t) (timer : Z) : option timers_t :=
  t ← timers s !! timer;
  let '(tree, chain) := lookup_or_insert (_timer_tree s) (key t) timer in
  let s := set_tree s tree in
  if chain =? 0 then Some s
  else
    c ← timers s !! chain;
    s ← (if negb (next c =? 0) then update s (next c) (set_prev timer) else Some s);
    s ← update s timer (set_prev chain);
    c ← timers s !! chain;
    s ← update s timer (set_next (next c));
    update s chain (set_next timer).

(** [if (!timer->prev&&timer->rb_node.key) rb_tree_remove_node(...)] *)
Definition remove_head (s : timers_t) (timer : Z) : option timers_t :=
  t ← timers s !! timer;
  Some (if (prev t =? 0) && negb (key t =? 0) then set_tree s (delete (key t) (_timer_tree s)) else s).

(** The memory of the timer goes with the handle. *)
Definition _timer_handle_destructor (s : timers_t) (timer : Z) : option timers_t :=
  t ← timers s !! timer;
  s ← (if is_deleted t then Some s
       else s ← remove_head s timer; s ← _remove_from_chain s timer; Some (emit s (Deleted timer)));
  Some (Timers (_timer_tree s) (delete timer (timers s)) (signals s)).

Definition timer_delete (s : timers_t) (timer : Z) (allowed : bool) : option timers_t :=
  if negb allowed then Some s
  else
    t ← timers s !! timer;
    if is_deleted t then Some s
    else
      s ← update s timer set_deleted;
      s ← remove_head s timer;
      s ← _remove_from_chain s timer;
      Some (emit s (Deleted timer)).

Definition timer_get_deadline (s : timers_t) (timer : Z) : option Z := key <$> timers s !! timer.

Definition timer_update (s : timers_t) (time timer interval count : Z) (allowed : bool) : option timers_t :=
  if negb allowed then Some s
  else
    t ← timers s !! timer;
    if is_deleted t then Some s
    else
      let s := emit s (Activity timer false) in
      s ← remove_head s timer;
      s ← update s timer (set_key 0);
      s ← _remove_from_chain s timer;
      s ← (if count =? TIMER_COUNT_ABSOLUTE_TIME then update s timer (fun t => set_count 0 (set_key interval t))
           else update s timer (fun t => set_count count (set_interval interval (set_key (u64 (time + interval)) t))));
      t ← timers s !! timer;
      if negb (key t =? 0) then _schedule_timer s timer else Some s.

(** [timer]: the address of the new object. *)
Definition timer_create (s : timers_t) (time timer interval count : Z) : option timers_t :=
  timer_update (Timers (_timer_tree s) (<[timer := Timer 0 0 0 0 0 false]> (timers s)) (signals s)) time timer interval count true.

(** The time until the next deadline, in microseconds. *)
Definition next_delay (s : timers_t) (time : Z) : Z :=
  match lookup_increasing (_timer_tree s) 0 with
  | Some (k, _) => if time <? k then u32 (u64 (k - time) / 1000) else 0
  | None => 0xffffffff
  end.

(** [busy]: the lock of the timer is taken. *)
Definition timer_dispatch_timers (s : timers_t) (time : Z) (busy : bool) : option (timers_t * Z) :=
  s ← match lookup_decreasing (_timer_tree s) time with
      | None => Some s
      | Some (k, timer) =>
        if busy then Some s
        else
          let s := set_tree s (delete k (_timer_tree s)) in
          s ← _remove_from_chain s timer;
          let s := emit s (Dispatched timer) in
          t ← timers s !! timer;
          if count t <=? 1 then
            let s := emit s (Activity timer true) in
            update s timer (fun t => set_count 0 (set_key 0 t))
          else
            s ← update s timer (fun t => set_key (u64 (time + interval t)) (set_count (u64 (count t - 1)) t));
            _schedule_timer s timer
      end;
  Some (s, next_delay s time).
