(* ===== verification/TimerSpec.v ===== *)
(** * What timers promise
    The tree of [Timer.v] holds exactly the timers that wait; updates, deletions
    and the dispatch of due timers keep it so.  A timer whose deadline is taken
    when it is scheduled is lost: it is linked to itself and never fires. *)
From stdpp Require Import base tactics list numbers option gmap.
From Stdlib Require Import ZArith Lia.
From S2P Require Import Prelude TreeMap Timer.
#[local] Open Scope Z_scope.

(** ** The state of a timer *)

Inductive status := Idle | Waiting | Lost | Gone.

#[global] Instance status_eq_dec : EqDecision status.
Proof. solve_decision. Defined.

Definition status_of (t : timer_t) : status :=
  if is_deleted t then Gone else if key t =? 0 then Idle else if prev t =? 0 then Waiting else Lost.

(** Only a lost timer has links, and they lead back to it. *)
Definition links_ok (t : Z) (tm : timer_t) : Prop :=
  let l := match status_of tm with Lost => t | _ => 0 end in prev tm = l /\ next tm = l.

(** The tree holds the timers that wait, under their deadlines. *)
Record timers_ok (s : timers_t) : Prop := {
  tk_null : timers s !! 0 = None;
  tk_links : forall t tm, timers s !! t = Some tm -> links_ok t tm;
  tk_tree : forall k t, _timer_tree s !! k = Some t <-> exists tm, timers s !! t = Some tm /\ status_of tm = Waiting /\ key tm = k
}.

(** What the caller sees of a timer: deadline, interval, count and status. *)
Definition payload (t : timer_t) : Z * Z * Z * status := (key t, interval t, count t, status_of t).

Definition view (s : timers_t) : gmap Z (Z * Z * Z * status) := payload <$> timers s.

(** Another timer waits for the deadline [k]. *)
Definition taken (s : timers_t) (t k : Z) : bool :=
  match _timer_tree s !! k with Some x => negb (x =? t) | None => false end.

Lemma taken_view s t k : timers_ok s -> taken s t k = true <-> exists x i c, x <> t /\ view s !! x = Some (k, i, c, Waiting).
Proof.
  intros Hok. unfold taken, view, payload. setoid_rewrite lookup_fmap. split.
  - destruct (_timer_tree s !! k) as [x |] eqn:E; [| done]. intros Hx. apply (tk_tree s Hok) in E as (tm & Et & Hs & <-). exists x, (interval tm), (count tm). rewrite Et. cbn. rewrite Hs. split; [lia | done].
  - intros (x & i & c & Hx & E). destruct (timers s !! x) as [tm |] eqn:Et; [| done]. cbn in E. simplify_eq. rewrite (proj2 (tk_tree s Hok (key tm) x)) by eauto. lia.
Qed.

(** The timer [t] is out of the tree and has no links; its record is [tm]. *)
Record parked (s : timers_t) (t : Z) (tm : timer_t) : Prop := {
  pk_rec : timers s !! t = Some tm;
  pk_prev : prev tm = 0;
  pk_next : next tm = 0;
  pk_null : t <> 0 /\ timers s !! 0 = None;
  pk_links : forall x tx, x <> t -> timers s !! x = Some tx -> links_ok x tx;
  pk_tree : forall k x, _timer_tree s !! k = Some x <-> x <> t /\ exists tx, timers s !! x = Some tx /\ status_of tx = Waiting /\ key tx = k
}.

(** A parked timer without a deadline to wait for is where it belongs. *)
Lemma parked_ok s t tm : parked s t tm -> status_of tm <> Waiting -> status_of tm <> Lost -> timers_ok s.
Proof.
  intros [Et Ep En [H0 Hnull] Hl Ht] Hw Hlost. split; [done | |].
  - intros x tx Ex. destruct (decide (x = t)) as [-> | Hx]; [| by eapply Hl]. rewrite Et in Ex. simplify_eq. unfold links_ok. by destruct (status_of tx).
  - intros k x. rewrite Ht. split; [by intros [_ ?]|]. intros (tx & Ex & Hs & Hk). split; [| eauto]. intros ->. congruence.
Qed.

Lemma update_eq s t tm f : timers s !! t = Some tm -> update s t f = Some (Timers (_timer_tree s) (<[t := f tm]> (timers s)) (signals s)).
Proof. intros Et. unfold update. by rewrite Et. Qed.

Lemma parked_set s t tm tm' l : parked s t tm -> prev tm' = 0 -> next tm' = 0 -> parked (Timers (_timer_tree s) (<[t := tm']> (timers s)) l) t tm'.
Proof.
  intros [Et Ep En [H0 Hnull] Hl Ht] Ep' En'. split; cbn [timers _timer_tree]; try done.
  - by rewrite lookup_insert_eq.
  - by rewrite lookup_insert_ne.
  - intros x tx Hx. rewrite lookup_insert_ne by done. by apply Hl.
  - intros k x. rewrite Ht. split; intros [Hx H]; (split; [done|]); [by rewrite lookup_insert_ne | by rewrite lookup_insert_ne in H].
Qed.

Lemma parked_emit s t tm x : parked s t tm -> parked (emit s x) t tm.
Proof. by intros []. Qed.

(** ** Taking a timer out *)

Lemma remove_head_eq s t tm : timers s !! t = Some tm ->
  remove_head s t = Some (set_tree s (if (prev tm =? 0) && negb (key tm =? 0) then delete (key tm) (_timer_tree s) else _timer_tree s)).
Proof. intros Et. unfold remove_head. rewrite Et. cbn. destruct s, (_ && _); done. Qed.

(** Of a timer without links, or linked to itself, only the links go. *)
Lemma remove_chain_self s t tm l : timers s !! t = Some tm -> prev tm = l -> next tm = l -> l = 0 \/ l = t /\ t <> 0 ->
  _remove_from_chain s t = Some (Timers (_timer_tree s) (<[t := set_next 0 (set_prev 0 tm)]> (timers s)) (signals s)).
Proof.
  intros Et Ep En Hl. unfold _remove_from_chain. rewrite Et. cbn [mbind option_bind]. rewrite Ep, En. destruct Hl as [-> | [-> Ht]].
  - cbn. by rewrite (update_eq s t tm).
  - destruct (Z.eqb_spec t 0); [done|]. cbn [negb]. rewrite (update_eq s t tm) by done. cbn [mbind option_bind].
    rewrite (update_eq _ t (set_next t tm)) by (cbn; by rewrite lookup_insert_eq). cbn [mbind option_bind timers _timer_tree signals].
    rewrite (update_eq _ t (set_prev t (set_next t tm))) by (cbn; by rewrite lookup_insert_eq). cbn [timers _timer_tree signals]. by rewrite !insert_insert_eq.
Qed.

(** The tree without the timer [t]. *)
Definition tree_without (s : timers_t) (tm : timer_t) : gmap Z Z :=
  match status_of tm with Waiting => delete (key tm) (_timer_tree s) | _ => _timer_tree s end.

Lemma tree_without_iff s t tm : timers_ok s -> timers s !! t = Some tm -> forall k x,
  tree_without s tm !! k = Some x <-> x <> t /\ exists tx, timers s !! x = Some tx /\ status_of tx = Waiting /\ key tx = k.
Proof.
  intros Hok Et k x. unfold tree_without. assert (Hout : status_of tm <> Waiting -> _timer_tree s !! k = Some x -> x <> t).
  { intros Hs E ->. apply (tk_tree s Hok) in E as (tx & Ex & ? & _). congruence. }
  assert (Hin : status_of tm = Waiting -> _timer_tree s !! key tm = Some t) by (intros; apply (tk_tree s Hok); eauto).
  destruct (status_of tm) eqn:Hs; try (rewrite (tk_tree s Hok) in *; split; [intros H; split; [by apply Hout | done] | by intros [_ ?]]).
  rewrite lookup_delete_Some, (tk_tree s Hok). specialize (Hin eq_refl). split.
  - intros [Hk (tx & Ex & Hsx & <-)]. split; [| eauto]. intros ->. congruence.
  - intros [Hx (tx & Ex & Hsx & <-)]. split; [| eauto]. intros E. rewrite E in Hin. rewrite (proj2 (tk_tree s Hok (key tx) x)) in Hin by eauto. congruence.
Qed.

(** The timer, whose record may have changed, is taken out. *)
Lemma park_timer_ok s t tm tm1 s1 : timers_ok s -> timers s !! t = Some tm -> _timer_tree s1 = tree_without s tm -> timers s1 = <[t := tm1]> (timers s) -> prev tm1 = prev tm -> next tm1 = next tm ->
  exists s', _remove_from_chain s1 t = Some s' /\ signals s' = signals s1 /\ timers s' = <[t := set_next 0 (set_prev 0 tm1)]> (timers s) /\ parked s' t (set_next 0 (set_prev 0 tm1)).
Proof.
  intros Hok Et Htree Es1 Ep1 En1. pose proof (tk_null s Hok) as Hnull. assert (H0 : t <> 0) by congruence. pose proof (tk_links s Hok t tm Et) as [Ep En].
  rewrite (remove_chain_self s1 t tm1 (prev tm)); [| by rewrite Es1, lookup_insert_eq | done | congruence | destruct (status_of tm); rewrite Ep; auto].
  eexists. split; [done|]. cbn [signals timers]. rewrite Es1, insert_insert_eq. split; [done|]. split; [done|]. split; cbn [timers _timer_tree]; try done.
  - by rewrite lookup_insert_eq.
  - by rewrite lookup_insert_ne.
  - intros x tx Hx. rewrite lookup_insert_ne by done. by apply (tk_links s Hok).
  - intros k x. rewrite Htree, (tree_without_iff s t tm Hok Et). split; intros [Hx H]; (split; [done|]); [by rewrite lookup_insert_ne | by rewrite lookup_insert_ne in H].
Qed.

Lemma head_tree s t tm : timers_ok s -> timers s !! t = Some tm -> is_deleted tm = false ->
  (if (prev tm =? 0) && negb (key tm =? 0) then delete (key tm) (_timer_tree s) else _timer_tree s) = tree_without s tm.
Proof. intros Hok Et Hd. unfold tree_without, status_of. rewrite Hd. by destruct (key tm =? 0), (prev tm =? 0). Qed.

(** ** Putting a timer in *)

(** What scheduling makes of a parked timer that has a deadline. *)
Definition placed (taken : bool) (k : Z) : status := if k =? 0 then Idle else if taken then Lost else Waiting.

(** The timers that wait are the same in the tree and outside of it. *)
Lemma taken_parked s s' t tm tm' k : timers_ok s -> timers s !! t = Some tm -> parked s' t tm' -> (forall x, x <> t -> timers s' !! x = timers s !! x) ->
  taken s t k = match _timer_tree s' !! k with Some _ => true | None => false end.
Proof.
  intros Hok Et Hp Hsame. unfold taken. destruct (_timer_tree s' !! k) as [x |] eqn:E.
  - apply (pk_tree _ _ _ Hp) in E as (Hx & tx & Ex & Hs & Hk). rewrite Hsame in Ex by done. rewrite (proj2 (tk_tree s Hok k x)) by eauto. lia.
  - destruct (_timer_tree s !! k) as [x |] eqn:Ek; [| done]. apply (tk_tree s Hok) in Ek as (tx & Ex & Hs & Hk). destruct (Z.eqb_spec x t) as [| Hx]; [done|].
    exfalso. rewrite <- Hsame in Ex by done. assert (_timer_tree s' !! k = Some x) by (apply (pk_tree _ _ _ Hp); eauto). congruence.
Qed.

Lemma place_timer_ok s t tm : parked s t tm -> is_deleted tm = false -> key tm <> 0 ->
  exists s', _schedule_timer s t = Some s' /\ timers_ok s' /\ signals s' = signals s /\
    view s' = <[t := (key tm, interval tm, count tm, match _timer_tree s !! key tm with Some _ => Lost | None => Waiting end)]> (view s).
Proof.
  intros Hp Hd Hk. pose proof Hp as [Et Ep En [H0 Hnull] Hl Ht]. unfold _schedule_timer, lookup_or_insert. rewrite Et. cbn [mbind option_bind]. destruct (_timer_tree s !! key tm) as [y |] eqn:Ey.
  - destruct (Z.eqb_spec t 0); [done|]. cbn [set_tree timers _timer_tree signals]. rewrite Et. cbn [mbind option_bind]. rewrite En. cbn [negb Z.eqb mbind option_bind].
    rewrite (update_eq _ t tm) by exact Et. cbn [mbind option_bind timers _timer_tree signals]. rewrite lookup_insert_eq. cbn [mbind option_bind].
    rewrite (update_eq _ t (set_prev t tm)) by (cbn; by rewrite lookup_insert_eq). cbn [mbind option_bind timers _timer_tree signals].
    rewrite (update_eq _ t (set_next (next (set_prev t tm)) (set_prev t tm))) by (cbn; by rewrite lookup_insert_eq). cbn [timers _timer_tree signals]. rewrite !insert_insert_eq.
    set (tm' := set_next t _). assert (Hs : status_of tm' = Lost) by (unfold status_of; cbn; rewrite Hd; destruct (Z.eqb_spec (key tm) 0), (Z.eqb_spec t 0); done).
    eexists. split; [done|]. split; [split; cbn [timers _timer_tree] | split; [done|]].
    + by rewrite lookup_insert_ne.
    + intros x tx [[<- <-] | [Hx Ex]]%lookup_insert_Some; [unfold links_ok; by rewrite Hs | by apply Hl].
    + intros k x. rewrite Ht. split; [intros (Hx & ?); by rewrite lookup_insert_ne|]. intros (tx & [[<- <-] | [Hx Ex]]%lookup_insert_Some & Hsx & Hkx); [congruence | eauto].
    + unfold view. cbn [timers]. rewrite fmap_insert. f_equal. unfold payload. by rewrite Hs.
  - cbn [Z.eqb]. assert (Hs : status_of tm = Waiting) by (unfold status_of; rewrite Hd, Ep; by destruct (Z.eqb_spec (key tm) 0)).
    eexists. split; [done|]. split; [split; cbn [set_tree timers _timer_tree] | split; [done|]].
    + done.
    + intros x tx Ex. destruct (decide (x = t)) as [-> | Hx]; [| by apply Hl]. rewrite Et in Ex. simplify_eq. unfold links_ok. by rewrite Hs.
    + intros k x. rewrite lookup_insert_Some, Ht. split.
      * intros [[<- <-] | (_ & _ & ?)]; eauto.
      * intros (tx & Ex & Hsx & Hkx). destruct (decide (x = t)) as [-> | Hx]; [left; split; [congruence | done] | right]. split; [| eauto]. intros E. assert (_timer_tree s !! k = Some x) by (apply Ht; eauto). congruence.
    + unfold view. cbn [timers set_tree]. symmetry. apply insert_id. rewrite lookup_fmap, Et. cbn. unfold payload. by rewrite Hs.
Qed.

(** A parked timer is given its deadline. *)
Lemma schedule_if_ok s s' t tm tm' : timers_ok s -> timers s !! t = Some tm -> parked s' t tm' -> (forall x, x <> t -> timers s' !! x = timers s !! x) -> is_deleted tm' = false ->
  exists s'', (if negb (key tm' =? 0) then _schedule_timer s' t else Some s') = Some s'' /\ timers_ok s'' /\ signals s'' = signals s' /\
    view s'' = <[t := (key tm', interval tm', count tm', placed (taken s t (key tm')) (key tm'))]> (view s).
Proof.
  intros Hok Et Hp Hsame Hd.
  assert (Hv : forall p, <[t := p]> (view s') = <[t := p]> (view s)).
  { intros p. apply map_eq. intros x. unfold view. destruct (decide (x = t)) as [-> | Hx]; [by rewrite !lookup_insert_eq|]. by rewrite !lookup_insert_ne, !lookup_fmap, Hsame. }
  unfold placed. destruct (Z.eqb_spec (key tm') 0) as [Ek | Ek]; cbn [negb].
  - assert (Hs : status_of tm' = Idle) by (unfold status_of; by rewrite Hd, Ek). exists s'. split; [done|]. split; [apply (parked_ok s' t tm' Hp); congruence|]. split; [done|]. rewrite <- Hv. symmetry. apply insert_id.
    unfold view. rewrite lookup_fmap, (pk_rec _ _ _ Hp). cbn. unfold payload. by rewrite Hs.
  - destruct (place_timer_ok s' t tm' Hp Hd Ek) as (s'' & E & H1 & H2 & H3). exists s''. split; [done|]. split; [done|]. split; [done|]. rewrite H3, Hv, (taken_parked s s' t tm tm') by done. by destruct (_timer_tree s' !! key tm').
Qed.

(** ** The operations *)

(** What [timer_update] and the destruction of a timer make of it. *)
Definition new_deadline (time interval' count' : Z) : Z := if count' =? TIMER_COUNT_ABSOLUTE_TIME then interval' else u64 (time + interval').

Definition updated (time interval' count' : Z) (tak : bool) (p : Z * Z * Z * status) : Z * Z * Z * status :=
  let '(_, i, _, _) := p in
  let k := new_deadline time interval' count' in
  if count' =? TIMER_COUNT_ABSOLUTE_TIME then (k, i, 0, placed tak k) else (k, interval', count', placed tak k).

Lemma update_ok s time t tm interval' count' : timers_ok s -> timers s !! t = Some tm -> is_deleted tm = false ->
  exists s', timer_update s time t interval' count' true = Some s' /\ timers_ok s' /\
    view s' = <[t := updated time interval' count' (taken s t (new_deadline time interval' count')) (payload tm)]> (view s) /\ signals s' = Activity t false :: signals s.
Proof.
  intros Hok Et Hd. unfold timer_update. cbn [negb]. rewrite Et. cbn [mbind option_bind]. rewrite Hd. rewrite (remove_head_eq (emit s _) t tm Et). cbn [mbind option_bind _timer_tree emit]. rewrite (head_tree s t tm) by done.
  rewrite (update_eq _ t tm (set_key 0)) by exact Et. cbn [mbind option_bind signals _timer_tree timers set_tree].
  match goal with |- context[_remove_from_chain ?x t] => destruct (park_timer_ok s t tm (set_key 0 tm) x Hok Et) as (s2 & -> & G1 & G2 & Hp); try done end. cbn [mbind option_bind signals] in *.
  set (tm2 := set_next 0 (set_prev 0 (set_key 0 tm))) in *.
  set (f := if count' =? TIMER_COUNT_ABSOLUTE_TIME then (fun t => set_count 0 (set_key interval' t)) else (fun t => set_count count' (set_interval interval' (set_key (u64 (time + interval')) t)))).
  replace (if count' =? TIMER_COUNT_ABSOLUTE_TIME then _ else _) with (update s2 t f) by (unfold f; by destruct (count' =? TIMER_COUNT_ABSOLUTE_TIME)).
  rewrite (update_eq s2 t tm2 f) by apply Hp. cbn [mbind option_bind timers]. rewrite lookup_insert_eq. cbn [mbind option_bind].
  assert (Hf : prev (f tm2) = 0 /\ next (f tm2) = 0 /\ is_deleted (f tm2) = false /\ key (f tm2) = new_deadline time interval' count') by (unfold f, new_deadline; by destruct (count' =? TIMER_COUNT_ABSOLUTE_TIME)).
  destruct Hf as (F1 & F2 & F3 & F4). destruct (schedule_if_ok s _ t tm (f tm2) Hok Et (parked_set s2 t tm2 (f tm2) (signals s2) Hp F1 F2)) as (s3 & -> & K1 & K2 & K3); [cbn [timers] | done |].
  - intros x Hx. by rewrite lookup_insert_ne, G2, lookup_insert_ne.
  - exists s3. split; [done|]. split; [done|]. split; [| rewrite K2; cbn; by rewrite G1]. rewrite K3, F4. f_equal. unfold f, updated, payload, new_deadline. by destruct (count' =? TIMER_COUNT_ABSOLUTE_TIME).
Qed.

Lemma timer_delete_ok s t tm : timers_ok s -> timers s !! t = Some tm -> is_deleted tm = false ->
  exists s', timer_delete s t true = Some s' /\ timers_ok s' /\ view s' = <[t := (key tm, interval tm, count tm, Gone)]> (view s) /\ signals s' = Deleted t :: signals s.
Proof.
  intros Hok Et Hd. unfold timer_delete. cbn [negb]. rewrite Et. cbn [mbind option_bind]. rewrite Hd. rewrite (update_eq _ t tm set_deleted Et). cbn [mbind option_bind].
  rewrite (remove_head_eq _ t (set_deleted tm)) by (cbn; by rewrite lookup_insert_eq). cbn [mbind option_bind prev key set_deleted _timer_tree]. rewrite (head_tree s t tm) by done.
  match goal with |- context[_remove_from_chain ?x t] => destruct (park_timer_ok s t tm (set_deleted tm) x Hok Et) as (s2 & -> & G1 & G2 & Hp); try done end. cbn [mbind option_bind signals set_tree] in *.
  eexists. split; [done|]. split; [eapply (parked_ok (emit s2 _) t); [by apply parked_emit | done..]|]. split; [| cbn; by rewrite G1]. unfold view. cbn [timers emit]. by rewrite G2, fmap_insert.
Qed.

(** Forgetting a parked timer. *)
Lemma parked_forget s t tm l : parked s t tm -> timers_ok (Timers (_timer_tree s) (delete t (timers s)) l).
Proof.
  intros [Et Ep En [H0 Hnull] Hl Ht]. split; cbn [timers _timer_tree].
  - by rewrite lookup_delete_ne.
  - intros x tx [Hx Ex]%lookup_delete_Some. by apply Hl.
  - intros k x. rewrite Ht. setoid_rewrite lookup_delete_Some. split; [intros (Hx & tx & ?) | intros (tx & [Hx ?] & ?)]; naive_solver.
Qed.

Lemma parked_gone s t tm : timers_ok s -> timers s !! t = Some tm -> is_deleted tm = true -> parked s t tm.
Proof.
  intros Hok Et Hd. pose proof (tk_links s Hok t tm Et) as [Ep En]. assert (Hs : status_of tm = Gone) by (unfold status_of; by rewrite Hd). rewrite Hs in *. split; try done.
  - pose proof (tk_null s Hok). split; [congruence | done].
  - intros x tx _. by apply (tk_links s Hok).
  - intros k x. rewrite (tk_tree s Hok). split; [| by intros [_ ?]]. intros (tx & Ex & Hx & Hk). split; [| eauto]. intros ->. congruence.
Qed.

Lemma destroy_ok s t tm : timers_ok s -> timers s !! t = Some tm ->
  exists s', _timer_handle_destructor s t = Some s' /\ timers_ok s' /\ view s' = delete t (view s) /\ signals s' = (if is_deleted tm then signals s else Deleted t :: signals s).
Proof.
  intros Hok Et. unfold _timer_handle_destructor. rewrite Et. cbn [mbind option_bind]. destruct (is_deleted tm) eqn:Hd.
  - cbn [mbind option_bind]. eexists. split; [done|]. split; [by eapply parked_forget, parked_gone|]. split; [unfold view; cbn; by rewrite fmap_delete | done].
  - rewrite (remove_head_eq s t tm Et). cbn [mbind option_bind]. rewrite (head_tree s t tm) by done.
    match goal with |- context[_remove_from_chain ?x t] => destruct (park_timer_ok s t tm tm x Hok Et) as (s2 & -> & G1 & G2 & Hp); try done end; [cbn; by rewrite insert_id|].
    cbn [mbind option_bind signals set_tree emit timers _timer_tree] in *. eexists. split; [done|]. cbn [signals]. split; [by eapply parked_forget|]. split; [| by rewrite G1].
    unfold view. cbn [timers]. by rewrite fmap_delete, G2, fmap_insert, delete_insert_eq.
Qed.

Lemma timer_create_ok s time t interval' count' : timers_ok s -> timers s !! t = None -> t <> 0 ->
  exists s', timer_create s time t interval' count' = Some s' /\ timers_ok s' /\
    view s' = <[t := updated time interval' count' (taken s t (new_deadline time interval' count')) (0, 0, 0, Idle)]> (view s) /\ signals s' = Activity t false :: signals s.
Proof.
  intros Hok Et Ht. unfold timer_create. set (s0 := Timers (_timer_tree s) (<[t := Timer 0 0 0 0 0 false]> (timers s)) (signals s)).
  assert (H0 : timers_ok s0).
  { split; cbn [timers _timer_tree s0].
    - rewrite lookup_insert_ne by done. apply Hok.
    - intros x tx [[<- <-] | [Hx Ex]]%lookup_insert_Some; [done | by apply Hok].
    - intros k x. rewrite (tk_tree s Hok). setoid_rewrite lookup_insert_Some. split; [intros (tx & Ex & ?) | intros (tx & [[<- <-] | [Hx Ex]] & Hs & ?)]; [exists tx; split; [right; split; [congruence | done] | done] | done | eauto]. }
  destruct (update_ok s0 time t (Timer 0 0 0 0 0 false) interval' count' H0) as (s' & E & H' & V & G); [cbn; by rewrite lookup_insert_eq | done |].
  exists s'. split; [done|]. split; [done|]. split; [| done]. rewrite V. unfold view. cbn [timers s0]. by rewrite fmap_insert, insert_insert_eq.
Qed.

(** ** Dispatching *)

(** A timer that waits for the deadline [k]. *)
Definition waiting (v : gmap Z (Z * Z * Z * status)) (t k : Z) : Prop := exists i c, v !! t = Some (k, i, c, Waiting).

Lemma waiting_tree s t k : timers_ok s -> waiting (view s) t k <-> _timer_tree s !! k = Some t.
Proof.
  intros Hok. rewrite (tk_tree s Hok). unfold waiting, view, payload. setoid_rewrite lookup_fmap. split.
  - intros (i & c & E). destruct (timers s !! t) as [tm |]; [| done]. cbn in E. simplify_eq. eauto.
  - intros (tm & Et & Hs & <-). rewrite Et. cbn. rewrite Hs. eauto.
Qed.

(** What becomes of a timer that is dispatched. *)
Definition dispatched (time : Z) (tak : bool) (p : Z * Z * Z * status) : Z * Z * Z * status :=
  let '(_, i, c, _) := p in if c <=? 1 then (0, i, 0, Idle) else let k := u64 (time + i) in (k, i, u64 (c - 1), placed tak k).

Definition dispatch_signals (t c : Z) : list signal := if c <=? 1 then [Activity t true; Dispatched t] else [Dispatched t].

Definition no_wrap (time : Z) (v : gmap Z (Z * Z * Z * status)) : Prop := forall t k i c d, v !! t = Some (k, i, c, d) -> u64 (time + i) <> 0.

Lemma timer_dispatch_ok s time : timers_ok s -> no_wrap time (view s) ->
  exists s', timer_dispatch_timers s time false = Some (s', next_delay s' time) /\ timers_ok s' /\
    ((forall t k, waiting (view s) t k -> time < k) /\ s' = s \/
     exists t k i c, view s !! t = Some (k, i, c, Waiting) /\ k <= time /\ (forall t' k', waiting (view s) t' k' -> k' <= time -> k' <= k) /\
       view s' = <[t := dispatched time (taken s t (u64 (time + i))) (k, i, c, Waiting)]> (view s) /\ signals s' = dispatch_signals t c ++ signals s).
Proof.
  intros Hok Hnw. unfold timer_dispatch_timers. pose proof (decreasing_spec (_timer_tree s) time) as Hdec. destruct (lookup_decreasing (_timer_tree s) time) as [[k t] |].
  2: { cbn. exists s. split; [done|]. split; [done|]. left. split; [| done]. intros t k Hw%waiting_tree; [| done]. apply Hdec. eauto. }
  destruct Hdec as (Hk & Hle & Hmax). pose proof Hk as Hw. apply (tk_tree s Hok) in Hw as (tm & Et & Hs & Ek).
  assert (Hd : is_deleted tm = false) by (unfold status_of in Hs; by destruct (is_deleted tm)).
  assert (Ht : delete k (_timer_tree s) = tree_without s tm) by (unfold tree_without; by rewrite Hs, Ek). rewrite Ht.
  match goal with |- context[_remove_from_chain ?x t] => destruct (park_timer_ok s t tm tm x Hok Et) as (s2 & -> & G1 & G2 & Hp); try done end; [cbn; by rewrite insert_id|].
  cbn [mbind option_bind timers emit set_tree signals _timer_tree] in *. set (tm2 := set_next 0 (set_prev 0 tm)) in *. rewrite G2, lookup_insert_eq. cbn [mbind option_bind]. change (count tm2) with (count tm). change (interval tm2) with (interval tm).
  assert (Hv : view s !! t = Some (k, interval tm, count tm, Waiting)) by (unfold view; rewrite lookup_fmap, Et; cbn; unfold payload; by rewrite Hs, Ek).
  assert (Hpick : forall t' k', waiting (view s) t' k' -> k' <= time -> k' <= k) by (intros t' k' Hw' Hle'; apply waiting_tree in Hw'; [| done]; apply Hmax; eauto).
  destruct (Z.leb_spec (count tm) 1) as [Hcnt | Hcnt].
  - rewrite (update_eq _ t tm2) by apply (pk_rec _ _ _ Hp). cbn [mbind option_bind]. eexists. split; [done|]. split.
    + eapply (parked_ok _ t (set_count 0 (set_key 0 tm2))); [| unfold status_of; cbn; by rewrite Hd..]. by eapply (parked_set s2).
    + right. exists t, k, (interval tm), (count tm). do 3 (split; [done|]). split; [| unfold dispatch_signals; cbn; rewrite G1; by destruct (Z.leb_spec (count tm) 1); [| lia]].
      unfold view. cbn [timers emit]. rewrite G2, insert_insert_eq, fmap_insert. f_equal. unfold dispatched, payload, status_of. cbn. rewrite Hd. by destruct (Z.leb_spec (count tm) 1); [| lia].
  - rewrite (update_eq _ t tm2) by apply (pk_rec _ _ _ Hp). cbn [mbind option_bind timers _timer_tree signals]. set (tm3 := set_key _ _).
    assert (Hp3 : parked (Timers (_timer_tree s2) (<[t := tm3]> (timers s2)) (Dispatched t :: signals s2)) t tm3) by by eapply parked_set.
    destruct (schedule_if_ok s _ t tm tm3 Hok Et Hp3) as (s3 & E3 & K1 & K2 & K3); [cbn [timers]; intros x Hx; by rewrite lookup_insert_ne, G2, lookup_insert_ne | done |].
    assert (Hk3 : key tm3 <> 0) by (cbn; by eapply Hnw). rewrite (proj2 (Z.eqb_neq _ _) Hk3) in E3. cbn [negb] in E3. cbn [emit timers _timer_tree signals] in *. rewrite E3. cbn [mbind option_bind].
    exists s3. split; [done|]. split; [done|]. right. exists t, k, (interval tm), (count tm). do 3 (split; [done|]). split; [| rewrite K2; cbn; rewrite G1; unfold dispatch_signals; by destruct (Z.leb_spec (count tm) 1); [lia|]].
    rewrite K3. f_equal. unfold dispatched. by destruct (Z.leb_spec (count tm) 1); [lia|].
Qed.

(** The delay never goes past a deadline. *)
Lemma next_delay_ok s time t k : timers_ok s -> 0 <= time -> 0 <= k < 2 ^ 64 -> waiting (view s) t k -> (forall t' k', waiting (view s) t' k' -> 0 <= k') -> 0 <= next_delay s time /\ next_delay s time * 1000 <= Z.max 0 (k - time).
Proof.
  intros Hok H0 Hk Hw Hpos. assert (Ht : is_Some (_timer_tree s !! k)) by (apply waiting_tree in Hw; eauto). unfold next_delay. pose proof (increasing_spec (_timer_tree s) 0) as Hi. destruct (lookup_increasing (_timer_tree s) 0) as [[q x] |]; [| specialize (Hi k Ht); lia].
  destruct Hi as (H1 & H2 & H3). specialize (H3 k Ht ltac:(lia)). destruct (Z.ltb_spec time q); [| lia]. rewrite u64_id by lia. pose proof (Z.div_pos (q - time) 1000 ltac:(lia) ltac:(lia)). unfold u32, wrap. pose proof (Z.mod_le ((q - time) / 1000) (2 ^ 32) ltac:(lia) ltac:(lia)). pose proof (Z.mul_div_le (q - time) 1000 ltac:(lia)).
  pose proof (Z.mod_pos_bound ((q - time) / 1000) (2 ^ 32)). lia.
Qed.

Lemma next_delay_none s time : timers_ok s -> (forall t k, ~ waiting (view s) t k) -> next_delay s time = 0xffffffff.
Proof. intros Hok Hno. unfold next_delay. rewrite increasing_none; [done|]. intros q [t Hq]. destruct (Hno t q). by apply waiting_tree. Qed.

Lemma next_delay_first s time t k : timers_ok s -> 0 <= k -> waiting (view s) t k -> (forall t' k', waiting (view s) t' k' -> k <= k') ->
  next_delay s time = if time <? k then u32 (u64 (k - time) / 1000) else 0.
Proof.
  intros Hok H0 Hw Hmin. unfold next_delay. rewrite (increasing_is _ 0 k t); [done | by apply waiting_tree | done |]. intros q [x Hq] _. apply (Hmin x). by apply waiting_tree.
Qed.

(** C16: Timers that are created, updated, deleted and destroyed: the tree holds exactly the timers that wait, each under its own deadline, and this stays so. An update gives the timer the deadline [time + interval] with its interval and count, or the absolute deadline; it then waits for it, unless the deadline is 0 (the timer is idle) or another timer waits for the same deadline: then the timer is lost, linked to itself and in no tree. A deletion takes it out for good, its destruction forgets it, whatever state it was in; no other timer changes its deadline, interval, count or state, and just the event of this timer is told. *)
Theorem timer_operations_correct s time t interval' count' : timers_ok s -> t <> 0 ->
  let k := new_deadline time interval' count' in
  (taken s t k = true <-> exists x i c, x <> t /\ view s !! x = Some (k, i, c, Waiting)) /\
  match timers s !! t with
  | None => exists s', timer_create s time t interval' count' = Some s' /\ timers_ok s' /\ view s' = <[t := updated time interval' count' (taken s t k) (0, 0, 0, Idle)]> (view s) /\ signals s' = Activity t false :: signals s
  | Some tm =>
    (if is_deleted tm then timer_update s time t interval' count' true = Some s /\ timer_delete s t true = Some s
     else (exists s', timer_update s time t interval' count' true = Some s' /\ timers_ok s' /\ view s' = <[t := updated time interval' count' (taken s t k) (payload tm)]> (view s) /\ signals s' = Activity t false :: signals s) /\
       exists s', timer_delete s t true = Some s' /\ timers_ok s' /\ view s' = <[t := (key tm, interval tm, count tm, Gone)]> (view s) /\ signals s' = Deleted t :: signals s) /\
    exists s', _timer_handle_destructor s t = Some s' /\ timers_ok s' /\ view s' = delete t (view s) /\ signals s' = (if is_deleted tm then signals s else Deleted t :: signals s)
  end.
Proof.
  intros Hok Ht k. split; [by apply taken_view|]. destruct (timers s !! t) as [tm |] eqn:Et; [| by apply timer_create_ok]. split; [| by apply destroy_ok]. destruct (is_deleted tm) eqn:Hd.
  - unfold timer_update, timer_delete. cbn [negb]. rewrite Et. cbn [mbind option_bind]. by rewrite Hd.
  - split; [by apply update_ok | by apply timer_delete_ok].
Qed.

(** C17: While no time plus interval wraps to 0, the dispatcher fires exactly one timer when some waiting timer is due, the one with the greatest deadline up to now: with its last shot it is retired, otherwise its next deadline is an interval from now and it waits for it, or is lost when another timer waits for that very deadline; no other timer changes, and when none is due nothing does. The delay it returns is the time to the first deadline of a timer that waits, in microseconds, never past it, and the largest one when none waits. *)
Theorem timer_dispatch_correct s time : timers_ok s -> 0 <= time -> no_wrap time (view s) ->
  exists s', timer_dispatch_timers s time false = Some (s', next_delay s' time) /\ timers_ok s' /\
    ((forall t k, waiting (view s) t k -> time < k) /\ s' = s \/
     exists t k i c, view s !! t = Some (k, i, c, Waiting) /\ k <= time /\ (forall t' k', waiting (view s) t' k' -> k' <= time -> k' <= k) /\
       view s' = <[t := dispatched time (taken s t (u64 (time + i))) (k, i, c, Waiting)]> (view s) /\ signals s' = dispatch_signals t c ++ signals s) /\
    ((forall t' k', waiting (view s') t' k' -> 0 <= k' < 2 ^ 64) -> forall t k, waiting (view s') t k ->
       0 <= next_delay s' time /\ next_delay s' time * 1000 <= Z.max 0 (k - time) /\
       ((forall t' k', waiting (view s') t' k' -> k <= k') -> next_delay s' time = if time <? k then u32 (u64 (k - time) / 1000) else 0)) /\
    ((forall t k, ~ waiting (view s') t k) -> next_delay s' time = 0xffffffff).
Proof.
  intros Hok H0 Hnw. destruct (timer_dispatch_ok s time Hok Hnw) as (s' & E & H' & Hcase). exists s'. split; [done|]. split; [done|]. split; [done|]. split.
  - intros Hr t k Hw. pose proof (Hr t k Hw). assert (Hpos : forall t' k', waiting (view s') t' k' -> 0 <= k') by (intros t' k' Hw'; by destruct (Hr t' k' Hw')).
    destruct (next_delay_ok s' time t k) as [D1 D2]; [done.. |]. split; [done|]. split; [done|]. intros Hmin. eapply next_delay_first; [done | lia | done | done].
  - by apply next_delay_none.
Qed.

(** ** Runs of the dispatcher *)

Fixpoint dispatch_all (s : timers_t) (times : list Z) : option timers_t :=
  match times with
  | [] => Some s
  | time :: times => '(s, _) ← timer_dispatch_timers s time false; dispatch_all s times
  end.

(** Between times that do not decrease, a timer without an interval stays due. *)
Fixpoint from (k : Z) (times : list Z) : Prop :=
  match times with
  | [] => True
  | time :: times => k <= time /\ from time times
  end.

Lemma from_mono x y l : x <= y -> from y l -> from x l.
Proof. intros Hxy. destruct l as [| z l]; cbn; [done | intros [? ?]; split; [lia | done]]. Qed.

Lemma no_wrap_dispatched v t p time tak time' : no_wrap time' v -> v !! t = Some p -> no_wrap time' (<[t := dispatched time tak p]> v).
Proof.
  intros H E t' k i c d. destruct p as [[[k0 i0] c0] d0]. unfold dispatched. rewrite lookup_insert_Some. intros [[<- Heq] | [_ E']]; [| by eapply H]. pose proof (H t k0 i0 c0 d0 E). by destruct (c0 <=? 1); simplify_eq.
Qed.

(** A timer may wait for ever: while another timer without an interval has shots left, the dispatcher serves that one, whose deadline is always the later one, and the timer with the earlier deadline is never dispatched. *)
Theorem timer_starvation s a d ia ca b k cb times : timers_ok s -> view s !! a = Some (d, ia, ca, Waiting) -> view s !! b = Some (k, 0, cb, Waiting) -> 0 < d < k -> from k times ->
  Z.of_nat (length times) < cb < 2 ^ 64 -> (forall time, time ∈ times -> time < 2 ^ 64 /\ no_wrap time (view s)) ->
  exists s', dispatch_all s times = Some s' /\ timers_ok s' /\ view s' !! a = Some (d, ia, ca, Waiting).
Proof.
  revert s k cb. induction times as [| time times IH]; intros s k cb Hok Ha Hb Hd Hfrom Hlen Hnw; cbn [dispatch_all]; [by exists s|]. cbn [from length] in *. destruct Hfrom as [Hk Hfrom]. destruct (Hnw time ltac:(set_solver)) as [Ht Hnwt].
  destruct (timer_dispatch_ok s time Hok Hnwt) as (s1 & -> & Hok1 & Hcase). cbn [mbind option_bind].
  destruct Hcase as [[Hno ->] | (t & q & i & c & E & Hq & Hmax & V & _)].
  { exfalso. assert (time < k); [| lia]. apply (Hno b k). unfold waiting. eauto. }
  assert (Hkq : k <= q) by (apply (Hmax b k); [unfold waiting; eauto | done]). assert (Hta : t <> a) by (intros ->; rewrite Ha in E; simplify_eq; lia).
  assert (Hnw1 : forall time', time' ∈ times -> time' < 2 ^ 64 /\ no_wrap time' (view s1)) by (intros time' Hin; destruct (Hnw time' ltac:(set_solver)) as [? Hn']; split; [done|]; rewrite V; by apply no_wrap_dispatched).
  assert (Ha1 : view s1 !! a = Some (d, ia, ca, Waiting)) by by rewrite V, lookup_insert_ne.
  destruct (decide (t = b)) as [-> | Htb]; [| apply (IH s1 k cb); try done; [by rewrite V, lookup_insert_ne | by apply (from_mono k time) | lia]].
  rewrite Hb in E. simplify_eq. apply (IH s1 time (c - 1)); try done; [| lia | lia]. rewrite V, lookup_insert_eq. unfold dispatched. destruct (Z.leb_spec c 1); [lia|]. rewrite !u64_id by lia. rewrite Z.add_0_r. unfold placed. destruct (Z.eqb_spec time 0); [lia|].
  destruct (taken s b time) eqn:Htk; [| done]. exfalso. apply (taken_view s b time Hok) in Htk as (x & ix & cx & Hx & Ex). pose proof (Hmax x time ltac:(unfold waiting; eauto) ltac:(lia)).
  assert (q = time) as -> by lia. assert (X1 : _timer_tree s !! time = Some x) by (apply waiting_tree; unfold waiting; eauto). assert (X2 : _timer_tree s !! time = Some b) by (apply waiting_tree; unfold waiting; eauto). congruence.
Qed.

(** A timer that is scheduled for a deadline another timer waits for never fires: it is lost, and the dispatcher never signals its event, however often it runs. *)
Theorem timer_lost s time t interval' count' x i c times : timers_ok s -> timers s !! t = None -> t <> 0 ->
  new_deadline time interval' count' <> 0 -> view s !! x = Some (new_deadline time interval' count', i, c, Waiting) ->
  (forall time', time' ∈ times -> no_wrap time' (<[t := updated time interval' count' true (0, 0, 0, Idle)]> (view s))) ->
  exists s1 s2, timer_create s time t interval' count' = Some s1 /\ dispatch_all s1 times = Some s2 /\
    view s2 !! t = Some (updated time interval' count' true (0, 0, 0, Idle)) /\ (Dispatched t ∈ signals s2 <-> Dispatched t ∈ signals s).
Proof.
  intros Hok Et Ht Hk Hx Hnw. destruct (timer_create_ok s time t interval' count' Hok Et Ht) as (s1 & E1 & Hok1 & V1 & G1). exists s1.
  assert (Htk : taken s t (new_deadline time interval' count') = true).
  { apply taken_view; [done|]. exists x, i, c. split; [| done]. intros ->. unfold view in Hx. by rewrite lookup_fmap, Et in Hx. }
  rewrite Htk in V1. set (p := updated time interval' count' true (0, 0, 0, Idle)) in *.
  assert (Hp : p.2 = Lost) by (unfold p, updated, placed; rewrite (proj2 (Z.eqb_neq _ _) Hk); by destruct (count' =? TIMER_COUNT_ABSOLUTE_TIME)).
  assert (Hrun : forall times s, timers_ok s -> view s !! t = Some p -> (forall time', time' ∈ times -> no_wrap time' (view s)) -> exists s2, dispatch_all s times = Some s2 /\ view s2 !! t = Some p /\ (Dispatched t ∈ signals s2 <-> Dispatched t ∈ signals s)).
  { clear -Hp. intros ts. induction ts as [| u ts IH]; intros s Hok Hv Hnw; cbn [dispatch_all]; [by exists s|].
    destruct (timer_dispatch_ok s u Hok) as (s1 & -> & Hok1 & Hcase); [apply Hnw; set_solver|]. cbn [mbind option_bind]. destruct Hcase as [[_ ->] | (y & q & i & c & E & _ & _ & V & G)]; [apply IH; [done | done | intros u' Hu; apply Hnw; set_solver]|].
    assert (Hy : y <> t) by (intros ->; rewrite Hv in E; injection E as E; by rewrite E in Hp). destruct (IH s1) as (s2 & E2 & V2 & G2); [done | by rewrite V, lookup_insert_ne | intros time' Hin; rewrite V; apply no_wrap_dispatched; [apply Hnw; set_solver | done] |].
    exists s2. split; [done|]. split; [done|]. rewrite G2, G, elem_of_app. unfold dispatch_signals. split; [intros [Hin |]; [exfalso | done] | auto]. destruct (c <=? 1); set_solver. }
  destruct (Hrun times s1 Hok1) as (s2 & E2 & V2 & G2); [by rewrite V1, lookup_insert_eq | by rewrite V1 |]. exists s2. split; [done|]. split; [done|]. split; [done|]. rewrite G2, G1. set_solver.
Qed.

(** *** Witnesses *)

(** Two timers, one due earlier, the other one without an interval. *)
Definition two_timers : timers_t := Timers (<[5 := 1]> (<[10 := 2]> ∅)) (<[1 := Timer 5 0 0 0 1 false]> (<[2 := Timer 10 0 0 0 TIMER_COUNT_INFINITE false]> ∅)) [].

Lemma two_timers_cases t tm : timers two_timers !! t = Some tm -> t = 1 /\ tm = Timer 5 0 0 0 1 false \/ t = 2 /\ tm = Timer 10 0 0 0 TIMER_COUNT_INFINITE false.
Proof. unfold two_timers. cbn [timers]. rewrite !lookup_insert_Some, lookup_empty. naive_solver. Qed.

Lemma two_timers_ok : timers_ok two_timers.
Proof.
  split; [done | by intros t tm [[-> ->] | [-> ->]]%two_timers_cases |]. intros k t. split.
  - unfold two_timers. cbn [_timer_tree timers]. rewrite !lookup_insert_Some, lookup_empty. intros [[<- <-] | [_ [[<- <-] | [_ ?]]]]; [by eexists.. | done].
  - intros (tm & [[-> ->] | [-> ->]]%two_timers_cases & _ & <-); done.
Qed.

Lemma two_timers_no_wrap time : 0 < time < 2 ^ 64 -> no_wrap time (view two_timers).
Proof.
  intros Ht t k i c d E. unfold view in E. rewrite lookup_fmap in E. destruct (timers two_timers !! t) as [tm |] eqn:Et; [| done]. cbn in E. apply two_timers_cases in Et as [[-> ->] | [-> ->]]; unfold payload in E; cbn [key interval count] in E; simplify_eq; rewrite Z.add_0_r, u64_id; lia.
Qed.

Lemma timer_operations_correct_witness : (exists s', timer_update two_timers 20 1 7 3 true = Some s' /\ timers_ok s' /\ view s' = <[1 := (27, 7, 3, Waiting)]> (view two_timers)) /\
  exists s', timer_update two_timers 3 1 7 3 true = Some s' /\ timers_ok s' /\ view s' = <[1 := (10, 7, 3, Lost)]> (view two_timers).
Proof.
  destruct (timer_operations_correct two_timers 20 1 7 3 two_timers_ok ltac:(done)) as [_ [[(s' & H1 & H2 & H3 & _) _] _]]. destruct (timer_operations_correct two_timers 3 1 7 3 two_timers_ok ltac:(done)) as [_ [[(s'' & K1 & K2 & K3 & _) _] _]].
  split; [exists s' | exists s'']; (split; [eassumption|]); (split; [eassumption|]); [exact H3 | exact K3].
Defined.

Lemma timer_dispatch_correct_witness : exists s', timer_dispatch_timers two_timers 20 false = Some (s', next_delay s' 20) /\ timers_ok s'.
Proof.
  destruct (timer_dispatch_correct two_timers 20 two_timers_ok ltac:(lia) (two_timers_no_wrap 20 ltac:(lia))) as (s' & H1 & H2 & _). exists s'. by split.
Defined.

Lemma timer_starvation_witness : exists s', dispatch_all two_timers [10; 20; 30; 40] = Some s' /\ timers_ok s' /\ view s' !! 1 = Some (5, 0, 1, Waiting).
Proof.
  apply (timer_starvation two_timers 1 5 0 1 2 10 TIMER_COUNT_INFINITE [10; 20; 30; 40] two_timers_ok); [reflexivity | reflexivity | lia | cbn; lia | unfold TIMER_COUNT_INFINITE; cbn; lia |].
  intros time Hin. assert (0 < time < 2 ^ 64) by (repeat (apply elem_of_cons in Hin as [-> | Hin]; [lia|]); by apply elem_of_nil in Hin). split; [lia | by apply two_timers_no_wrap].
Defined.

(** A third timer for the deadline 5 never fires. *)
Lemma timer_lost_witness : exists s1 s2, timer_create two_timers 2 3 3 1 = Some s1 /\ dispatch_all s1 [6; 12; 30] = Some s2 /\ view s2 !! 3 = Some (5, 3, 1, Lost) /\ (Dispatched 3 ∈ signals s2 <-> Dispatched 3 ∈ ([] : list signal)).
Proof.
  apply (timer_lost two_timers 2 3 3 1 1 0 1 [6; 12; 30] two_timers_ok); [reflexivity | done | done | reflexivity |].
  intros time Hin. assert (Ht : 0 < time < 31) by (repeat (apply elem_of_cons in Hin as [-> | Hin]; [lia|]); by apply elem_of_nil in Hin). intros t k i c d. rewrite lookup_insert_Some. intros [[<- E] | [_ E]].
  - cbn in E. simplify_eq. rewrite u64_id; lia.
  - apply (two_timers_no_wrap time ltac:(lia) t k i c d E).
Defined.
