(* ===== verification/LoadBalancer.v ===== *)
(** * The queues of the scheduler
    ([src/src/kernel/scheduler/load_balancer.c], and the enqueueing of
    [scheduler.c]).

    Threads that are ready wait in 64 queues, linked through the threads; the
    bitmap has a bit for each queue that is not empty.  A thread moves between
    the queues of its priority by its behaviour.  A thread is named by its
    address, [NULL] is 0.  [None] is an access through a bad pointer or outside
    of an array; [busy] tells the queues whose lock another processor holds. *)
From stdpp Require Import base tactics list numbers option gmap.
From Stdlib Require Import ZArith Lia.
From S2P Require Import Prelude.
#[local] Open Scope Z_scope.

Definition SCHEDULER_PRIORITY_BACKGROUND : Z := 0.
Definition SCHEDULER_PRIORITY_LOW : Z := 1.
Definition SCHEDULER_PRIORITY_NORMAL : Z := 2.
Definition SCHEDULER_PRIORITY_HIGH : Z := 3.
Definition SCHEDULER_PRIORITY_REALTIME : Z := 4.
Definition SCHEDULER_LOAD_BALANCER_QUEUE_COUNT : Z := 64.

Record thread_t := Thread {
  of_kernel : bool;
  priority : Z;
  queued : bool;
  queue_index : Z;
  forced_queue_index : Z;
  early_yield : bool;
  io_yield : bool;
  queue_next : Z
}.

Record queue_t := Queue { head_of : Z; tail_of : Z }.

Record balancer_t := Balancer { bitmap : Z; queues : list queue_t; threads : gmap Z thread_t; used_slot_count : Z; free_slot_count : Z }.

Definition priority_to_min_queue_index : list Z := [24; 16; 8; 2; 0].
Definition priority_to_max_queue_index : list Z := [31; 23; 15; 7; 1].

Definition table (l : list Z) (i : Z) : option Z := if 0 <=? i then l !! Z.to_nat i else None.

Definition _get_queue_index_offset (t : thread_t) : Z := if of_kernel t then 0 else Z.shiftr SCHEDULER_LOAD_BALANCER_QUEUE_COUNT 1.

Definition _get_queue_time_us (i : Z) : Z := 970 + 130 * Z.land i (Z.shiftr SCHEDULER_LOAD_BALANCER_QUEUE_COUNT 1 - 1).

Definition balancer_init (threads : gmap Z thread_t) : balancer_t := Balancer 0 (replicate 64 (Queue 0 0)) threads 0 0.

Definition set_index (t : thread_t) (i : Z) (early io : bool) : thread_t := Thread (of_kernel t) (priority t) (queued t) i (forced_queue_index t) early io (queue_next t).
Definition set_queue_next (t : thread_t) (x : Z) : thread_t := Thread (of_kernel t) (priority t) (queued t) (queue_index t) (forced_queue_index t) (early_yield t) (io_yield t) x.
Definition set_queued (t : thread_t) (x : bool) : thread_t := Thread (of_kernel t) (priority t) x (queue_index t) (forced_queue_index t) (early_yield t) (io_yield t) (queue_next t).

Definition set_queue (s : balancer_t) (bitmap' : Z) (i : Z) (q : queue_t) : balancer_t := Balancer bitmap' (<[Z.to_nat i := q]> (queues s)) (threads s) (used_slot_count s) (free_slot_count s).
Definition set_thread (s : balancer_t) (t : Z) (x : thread_t) : balancer_t := Balancer (bitmap s) (queues s) (<[t := x]> (threads s)) (used_slot_count s) (free_slot_count s).
Definition count_slot (s : balancer_t) (used free : Z) : balancer_t := Balancer (bitmap s) (queues s) (threads s) (u64 (used_slot_count s + used)) (u64 (free_slot_count s + free)).

Definition queue_at (s : balancer_t) (i : Z) : option queue_t := if 0 <=? i then queues s !! Z.to_nat i else None.

(** The queue that a thread is put into. *)
Definition choose_queue (t : thread_t) : option thread_t :=
  if z2b (forced_queue_index t) then Some (set_index t (forced_queue_index t) (early_yield t) (io_yield t))
  else
    let i := queue_index t in
    let i := if negb (early_yield t) && negb (io_yield t) && (i <? SCHEDULER_LOAD_BALANCER_QUEUE_COUNT - 1) then i + 1 else i in
    let i := if io_yield t && z2b i then i - 1 else i in
    min ← table priority_to_min_queue_index (priority t);
    max ← table priority_to_max_queue_index (priority t);
    let min := _get_queue_index_offset t + min in
    let max := _get_queue_index_offset t + max in
    let i := if i <? min then min else if max <? i then max else i in
    Some (set_index t i false false).

Definition scheduler_load_balancer_add (s : balancer_t) (thread : Z) : option balancer_t :=
  t ← threads s !! thread;
  t ← choose_queue t;
  q ← queue_at s (queue_index t);
  let s := set_thread s thread (set_queue_next t 0) in
  s ← (if z2b (tail_of q) then x ← threads s !! tail_of q; Some (set_thread s (tail_of q) (set_queue_next x thread)) else Some s);
  let head := if z2b (tail_of q) then head_of q else thread in
  Some (set_queue s (Z.lor (bitmap s) (Z.shiftl 1 (queue_index t))) (queue_index t) (Queue head thread)).

(** [(~mask)|(mask-1)] *)
Definition all_but_lowest (mask : Z) : Z := Z.lor (lnot_w 64 mask) (u64 (mask - 1)).

Fixpoint get_loop (fuel : nat) (s : balancer_t) (mask : Z) (busy : Z -> bool) : option (balancer_t * Z * Z) :=
  match fuel with
  | O => None
  | S fuel =>
    if mask =? 0 then Some (count_slot s 0 1, 0, 2500)
    else
      let i := ctz mask in
      let rest := Z.land mask (u64 (mask - 1)) in
      q ← queue_at s i;
      if busy i then get_loop fuel s rest busy
      else if head_of q =? 0 then get_loop fuel (set_queue s (Z.land (bitmap s) (all_but_lowest mask)) i q) rest busy
      else
        t ← threads s !! head_of q;
        let s := if queue_next t =? 0 then set_queue s (Z.land (bitmap s) (all_but_lowest mask)) i (Queue 0 0) else set_queue s (bitmap s) i (Queue (queue_next t) (tail_of q)) in
        Some (count_slot s 1 0, head_of q, _get_queue_time_us i)
  end.

(** The thread to run, [NULL] when there is none, and for how long. *)
Definition scheduler_load_balancer_get (s : balancer_t) (busy : Z -> bool) : option (balancer_t * Z * Z) := get_loop 65 s (bitmap s) busy.

(** [scheduler_load_balancer_remove] only panics. *)
Definition scheduler_load_balancer_remove (s : balancer_t) (thread : Z) : option balancer_t := None.

Definition scheduler_enqueue_thread (s : balancer_t) (thread : Z) : option balancer_t :=
  t ← threads s !! thread;
  if queued t then Some s
  else
    s ← scheduler_load_balancer_add s thread;
    t ← threads s !! thread;
    Some (set_thread s thread (set_queued t true)).

Definition scheduler_dequeue_thread_locked (s : balancer_t) (thread : Z) : option balancer_t :=
  t ← threads s !! thread;
  if negb (queued t) then Some s else scheduler_load_balancer_remove s thread.

(** The next thread, as the switch of threads takes it: it is running from then on. *)
Definition next_thread (s : balancer_t) (busy : Z -> bool) : option (balancer_t * Z * Z) :=
  '(s, thread, time_us) ← scheduler_load_balancer_get s busy;
  if thread =? 0 then Some (s, thread, time_us)
  else t ← threads s !! thread; Some (set_thread s thread (set_queued t false), thread, time_us).
