(* ===== verification/LoadBalancerSpec.v ===== *)
(** * What the queues of the scheduler promise
    The linked queues and the bitmap of [LoadBalancer.v] stand for 64 lists of
    threads: a thread is appended to a queue of its priority, and the first
    thread of the first queue runs next. *)
From stdpp Require Import base tactics list numbers option gmap.
From Stdlib Require Import ZArith Lia.
From S2P Require Import Prelude LoadBalancer.
#[local] Open Scope Z_scope.

(** ** Lists of lists *)

Lemma concat_insert_snoc (Q : list (list Z)) i l t : Q !! i = Some l -> concat (<[i := l ++ [t]]> Q) ≡ₚ t :: concat Q.
Proof.
  intros E. pose proof (lookup_lt_Some _ _ _ E). rewrite <- (take_drop_middle Q i l E) at 2. rewrite insert_take_drop, !concat_app by done. cbn [concat]. rewrite <- !(assoc (++)). cbn [app]. by rewrite !Permutation_middle.
Qed.

Lemma concat_insert_tail (Q : list (list Z)) i t l : Q !! i = Some (t :: l) -> concat Q ≡ₚ t :: concat (<[i := l]> Q).
Proof.
  intros E. pose proof (lookup_lt_Some _ _ _ E). rewrite <- (take_drop_middle Q i _ E) at 1. rewrite insert_take_drop, !concat_app by done. cbn [concat app]. symmetry. apply Permutation_middle.
Qed.

Lemma elem_of_queue (Q : list (list Z)) i l t : Q !! i = Some l -> t ∈ l -> t ∈ concat Q.
Proof. intros E Ht. apply list_elem_of_In, in_concat. exists l. split; apply list_elem_of_In; [by eapply list_elem_of_lookup_2 | done]. Qed.

Lemma queue_nodup (Q : list (list Z)) i l : Q !! i = Some l -> NoDup (concat Q) -> NoDup l.
Proof. intros E. rewrite <- (take_drop_middle Q i l E), concat_app. cbn [concat]. intros (_ & _ & H)%NoDup_app. by apply NoDup_app in H as [? _]. Qed.

Lemma queues_disjoint (Q : list (list Z)) i j l l' t : Q !! i = Some l -> Q !! j = Some l' -> NoDup (concat Q) -> t ∈ l -> t ∈ l' -> i = j.
Proof.
  intros Ei Ej Hn Ht Ht'. destruct (decide (i = j)) as [| Hne]; [done | exfalso]. rewrite <- (take_drop_middle Q i l Ei), concat_app in Hn. cbn [concat] in Hn. apply NoDup_app in Hn as (_ & H1 & H2). apply NoDup_app in H2 as (_ & H2 & _).
  destruct (decide (j < i)%nat).
  - apply (H1 t); [eapply (elem_of_queue _ j l'); [by rewrite lookup_take_lt | done] | set_solver].
  - apply (H2 t Ht). eapply (elem_of_queue _ (j - S i) l'); [| done]. rewrite lookup_drop. by replace (S i + (j - S i))%nat with j by lia.
Qed.

(** ** Queues in memory *)

Fixpoint chain (T : gmap Z thread_t) (l : list Z) : Prop :=
  match l with
  | [] => True
  | t :: l => t <> 0 /\ (exists th, T !! t = Some th /\ queue_next th = hd 0 l) /\ chain T l
  end.

Lemma queue_chain_ext T T' l : (forall t, t ∈ l -> T' !! t = T !! t) -> chain T l -> chain T' l.
Proof.
  induction l as [| t l IH]; intros E; cbn [chain]; [done|]. intros (H1 & (th & H2 & H3) & H4). split; [done|]. split; [exists th; rewrite E by set_solver; done|]. apply IH; [| done]. intros x Hx. apply E. set_solver.
Qed.

Lemma queue_chain_in T l t : chain T l -> t ∈ l -> t <> 0 /\ is_Some (T !! t).
Proof. induction l as [| x l IH]; cbn [chain]; [by intros _ ?%not_elem_of_nil|]. intros (H1 & (th & H2 & _) & H4) [-> | Hin]%elem_of_cons; [by split; [| eexists] | by apply IH]. Qed.

Lemma queue_chain_snoc T l t th z tz : chain T l -> NoDup l -> t ∉ l -> t <> 0 -> T !! t = Some th -> queue_next th = 0 -> l <> [] -> z = List.last l 0 -> T !! z = Some tz -> chain (<[z := set_queue_next tz t]> T) (l ++ [t]).
Proof.
  intros Hc Hn Ht H0 Et Enx Hne -> Ez. induction l as [| x l IH]; [done|]. cbn [chain app] in *. destruct Hc as (H1 & (tx & H2 & H3) & H4). apply NoDup_cons in Hn as [Hx Hn]. destruct l as [| y l].
  - cbn [List.last app chain hd] in *. rewrite Ez in H2. simplify_eq. split; [done|]. split; [eexists; rewrite lookup_insert_eq; by split|]. split; [done|]. split; [| done]. exists th. rewrite lookup_insert_ne by set_solver. done.
  - split; [done|]. assert (Hlast : List.last (y :: l) 0 ∈ y :: l) by (apply list_elem_of_In; destruct (exists_last (l := y :: l)) as (l' & z' & ->); [done|]; rewrite List.last_last; apply in_app_iff; right; by left).
    split; [exists tx; cbn [List.last] in *; rewrite lookup_insert_ne; [by cbn [app hd] in *|] | apply IH; (done || set_solver)]. intros E. apply Hx. by rewrite <- E.
Qed.

Record balancer_ok (s : balancer_t) (Q : list (list Z)) : Prop := {
  bo_queues : length (queues s) = 64%nat;
  bo_lists : length Q = 64%nat;
  bo_queue : forall i q l, queues s !! i = Some q -> Q !! i = Some l -> head_of q = hd 0 l /\ tail_of q = List.last l 0 /\ chain (threads s) l;
  bo_width : 0 <= bitmap s < 2 ^ 64;
  bo_bits : forall i l, Q !! i = Some l -> Z.testbit (bitmap s) (Z.of_nat i) = bool_decide (l <> []);
  bo_nodup : NoDup (concat Q)
}.

Lemma queue_is s Q i : balancer_ok s Q -> 0 <= i < 64 -> exists q l, queue_at s i = Some q /\ queues s !! Z.to_nat i = Some q /\ Q !! Z.to_nat i = Some l /\ head_of q = hd 0 l /\ tail_of q = List.last l 0 /\ chain (threads s) l.
Proof.
  intros Hok Hi. destruct (lookup_lt_is_Some_2 (queues s) (Z.to_nat i)) as [q Eq]; [rewrite (bo_queues _ _ Hok); lia|]. destruct (lookup_lt_is_Some_2 Q (Z.to_nat i)) as [l El]; [rewrite (bo_lists _ _ Hok); lia|].
  exists q, l. destruct (bo_queue _ _ Hok _ q l Eq El) as (H1 & H2 & H3). unfold queue_at. destruct (Z.leb_spec 0 i); [| lia]. by split_and!.
Qed.

Lemma last_nonzero T l : chain T l -> l <> [] -> List.last l 0 <> 0 /\ List.last l 0 ∈ l.
Proof.
  intros Hc Hne. assert (Hin : List.last l 0 ∈ l) by (apply list_elem_of_In; destruct (exists_last Hne) as (l' & z' & ->); rewrite List.last_last; apply in_app_iff; right; by left). split; [| done]. by destruct (queue_chain_in T l _ Hc Hin).
Qed.

(** One queue is replaced. *)
Lemma replace_queue s Q s' i q l l' Q' : balancer_ok s Q -> Q !! i = Some l -> (i < 64)%nat -> Q' = <[i := l']> Q -> queues s' = <[i := q]> (queues s) -> head_of q = hd 0 l' -> tail_of q = List.last l' 0 -> chain (threads s') l' ->
  (forall t, t ∉ l -> t ∉ l' -> threads s' !! t = threads s !! t) -> (forall t, t ∈ l' -> t ∈ l \/ t ∉ concat Q) -> 0 <= bitmap s' < 2 ^ 64 -> (forall j, 0 <= j < 64 -> Z.testbit (bitmap s') j = if j =? Z.of_nat i then bool_decide (l' <> []) else Z.testbit (bitmap s) j) -> NoDup (concat Q') ->
  balancer_ok s' Q'.
Proof.
  intros Hok El Hi -> Eq Hh Ht Hc Hsame Hnew Hw Hbits Hn. pose proof (bo_lists _ _ Hok) as HlQ. pose proof (bo_queues _ _ Hok) as Hlq. split; [by rewrite Eq, length_insert | by rewrite length_insert | | done | | done].
  - intros j qj lj Eqj Elj. rewrite Eq in Eqj. destruct (decide (j = i)) as [-> | Hne].
    + rewrite list_lookup_insert_eq in Eqj by lia. rewrite list_lookup_insert_eq in Elj by lia. by simplify_eq.
    + rewrite list_lookup_insert_ne in Eqj by done. rewrite list_lookup_insert_ne in Elj by done. destruct (bo_queue _ _ Hok j qj lj Eqj Elj) as (H1 & H2 & H3). split_and!; [done | done |]. eapply queue_chain_ext; [| exact H3]. intros t Htj.
      assert (t ∉ l) by (intros Htl; apply Hne; by apply (queues_disjoint Q j i lj l t Elj El (bo_nodup _ _ Hok))). apply Hsame; [done|]. intros [? | Hout]%Hnew; [done|]. by apply Hout, (elem_of_queue Q j lj).
  - intros j lj Elj. assert (Hj : (j < 64)%nat) by (apply lookup_lt_Some in Elj; by rewrite length_insert, HlQ in Elj). rewrite Hbits by lia. destruct (Z.eqb_spec (Z.of_nat j) (Z.of_nat i)) as [E | E].
    + assert (j = i) as -> by lia. rewrite list_lookup_insert_eq in Elj by lia. by simplify_eq.
    + rewrite list_lookup_insert_ne in Elj by lia. by apply (bo_bits _ _ Hok).
Qed.

(** ** Adding a thread *)

(** A thread the queues can hold: a priority with queues, or a fixed queue. *)
Definition wf_thread (t : thread_t) : Prop := 0 <= queue_index t /\ 0 <= forced_queue_index t < 64 /\ 0 <= priority t <= 4.

(** The first and the last queue of a priority; threads of the kernel come first. *)
Definition first_queue (t : thread_t) : Z := (if of_kernel t then 0 else 32) + nth (Z.to_nat (priority t)) [24; 16; 8; 2; 0] 0.
Definition last_queue (t : thread_t) : Z := (if of_kernel t then 0 else 32) + nth (Z.to_nat (priority t)) [31; 23; 15; 7; 1] 0.

Definition in_class (t : thread_t) (i : Z) : Prop := if z2b (forced_queue_index t) then i = forced_queue_index t else first_queue t <= i <= last_queue t.

Lemma choose_queue_ok t : wf_thread t -> exists t', choose_queue t = Some t' /\ 0 <= queue_index t' < 64 /\ in_class t (queue_index t') /\ wf_thread t' /\ queued t' = queued t /\ of_kernel t' = of_kernel t /\ priority t' = priority t /\ forced_queue_index t' = forced_queue_index t.
Proof.
  intros (Hi & Hf & Hp). unfold choose_queue, in_class, z2b. destruct (Z.eqb_spec (forced_queue_index t) 0) as [E | E]; cbn [negb].
  2: { eexists. split; [done|]. unfold wf_thread. cbn. split_and!; (done || lia). }
  assert (Hmin : table priority_to_min_queue_index (priority t) = Some (nth (Z.to_nat (priority t)) [24; 16; 8; 2; 0] 0) /\ table priority_to_max_queue_index (priority t) = Some (nth (Z.to_nat (priority t)) [31; 23; 15; 7; 1] 0) /\ 0 <= nth (Z.to_nat (priority t)) [24; 16; 8; 2; 0] 0 <= nth (Z.to_nat (priority t)) [31; 23; 15; 7; 1] 0 /\ nth (Z.to_nat (priority t)) [31; 23; 15; 7; 1] 0 < 32).
  { assert (Hc : priority t = 0 \/ priority t = 1 \/ priority t = 2 \/ priority t = 3 \/ priority t = 4) by lia. destruct Hc as [-> | [-> | [-> | [-> | ->]]]]; vm_compute; split_and!; congruence. }
  destruct Hmin as (-> & -> & H1 & H2). cbn [mbind option_bind]. eexists. split; [done|]. unfold first_queue, last_queue, _get_queue_index_offset, wf_thread. change (Z.shiftr SCHEDULER_LOAD_BALANCER_QUEUE_COUNT 1) with 32. cbn [queue_index set_index forced_queue_index priority of_kernel queued].
  match goal with |- context[if ?x <? ?a then ?a else if ?b <? ?x then ?b else ?x] => set (i := if x <? a then a else if b <? x then b else x); assert (Hr : a <= i <= b) by (unfold i; destruct (Z.ltb_spec x a); [lia|]; destruct (Z.ltb_spec b x); lia) end.
  split_and!; try done; destruct (of_kernel t); lia.
Qed.

Lemma pow2_bit i j : 0 <= i -> 0 <= j -> Z.testbit (Z.shiftl 1 i) j = (j =? i).
Proof. intros Hi Hj. rewrite Z.shiftl_1_l, Z.pow2_bits_eqb by done. apply Z.eqb_sym. Qed.

Lemma add_ok s Q t th th' : balancer_ok s Q -> t <> 0 -> t ∉ concat Q -> threads s !! t = Some th -> choose_queue th = Some th' -> 0 <= queue_index th' < 64 ->
  exists s' l, Q !! Z.to_nat (queue_index th') = Some l /\ scheduler_load_balancer_add s t = Some s' /\ balancer_ok s' (<[Z.to_nat (queue_index th') := l ++ [t]]> Q) /\ threads s' !! t = Some (set_queue_next th' 0) /\
    (forall x, x <> t -> exists n, threads s' !! x = (fun y => set_queue_next y (n y)) <$> threads s !! x).
Proof.
  intros Hok Ht0 Hout Et Ech Hi. destruct (queue_is s Q _ Hok Hi) as (q & l & Eq & Eq' & El & Hh & Htl & Hc). pose proof (queue_nodup Q _ l El (bo_nodup _ _ Hok)) as Hnl. assert (Htn : t ∉ l) by (intros Hin; apply Hout; by eapply elem_of_queue).
  unfold scheduler_load_balancer_add. rewrite Et. cbn [mbind option_bind]. rewrite Ech. cbn [mbind option_bind]. rewrite Eq. cbn [mbind option_bind].
  assert (Hbits : forall j, 0 <= j < 64 -> Z.testbit (Z.lor (bitmap s) (Z.shiftl 1 (queue_index th'))) j = if j =? Z.of_nat (Z.to_nat (queue_index th')) then bool_decide (l ++ [t] <> []) else Z.testbit (bitmap s) j).
  { intros j Hj. rewrite Z.lor_spec, pow2_bit, Z2Nat.id by lia. destruct (Z.eqb_spec j (queue_index th')); [rewrite orb_true_r; symmetry; apply bool_decide_eq_true; by destruct l | apply orb_false_r]. }
  assert (Hwidth : 0 <= Z.lor (bitmap s) (Z.shiftl 1 (queue_index th')) < 2 ^ 64).
  { apply width_of_bits; [lia|]. intros j Hj. rewrite Z.lor_spec, pow2_bit, (word_high 64) by (try apply (bo_width _ _ Hok); lia). destruct (Z.eqb_spec j (queue_index th')); [lia | done]. }
  assert (Hnd : NoDup (concat (<[Z.to_nat (queue_index th') := l ++ [t]]> Q))) by (rewrite (concat_insert_snoc Q _ l t El); apply NoDup_cons; split; [done | apply Hok]).
  assert (Hidn : forall y : thread_t, y = set_queue_next y (queue_next y)) by by intros [].
  destruct (decide (l = [])) as [-> | Hne].
  - cbn [List.last hd] in *. rewrite Htl. change (z2b 0) with false. cbn [mbind option_bind]. eexists _, []. split; [done|]. split; [done|]. split.
    + apply (replace_queue s Q _ (Z.to_nat (queue_index th')) (Queue t t) [] [t] (<[Z.to_nat (queue_index th') := [] ++ [t]]> Q)); [done | done | lia | done | done | done | done | | | | done | done | done].
      * cbn [threads set_queue set_thread chain hd]. split; [done|]. split; [| done]. exists (set_queue_next th' 0). by rewrite lookup_insert_eq.
      * intros x _ Hx. cbn [threads set_queue set_thread]. rewrite lookup_insert_ne; [done|]. set_solver.
      * intros x Hx. right. apply list_elem_of_singleton in Hx as ->. done.
    + cbn [threads set_queue set_thread]. split; [by rewrite lookup_insert_eq|]. intros x Hx. exists queue_next. rewrite lookup_insert_ne by done. destruct (threads s !! x) as [y |]; [cbn; by rewrite <- Hidn | done].
  - destruct (last_nonzero (threads s) l Hc Hne) as [Hz Hzin]. rewrite Htl. unfold z2b. destruct (Z.eqb_spec (List.last l 0) 0); [done|]. cbn [negb]. destruct (queue_chain_in _ _ _ Hc Hzin) as [_ [tz Ez]]. assert (Hzt : List.last l 0 <> t) by (intros E; by rewrite E in Hzin).
    cbn [threads set_thread]. rewrite lookup_insert_ne, Ez by done. cbn [mbind option_bind]. eexists _, l. split; [done|]. split; [done|]. split.
    + apply (replace_queue s Q _ (Z.to_nat (queue_index th')) (Queue (head_of q) t) l (l ++ [t]) (<[Z.to_nat (queue_index th') := l ++ [t]]> Q)); [done | done | lia | done | done | | | | | | done | done | done].
      * cbn [head_of]. rewrite Hh. by destruct l.
      * cbn [tail_of]. by rewrite List.last_last.
      * cbn [threads set_queue set_thread]. eapply (queue_chain_snoc _ l t (set_queue_next th' 0) _ tz); try done; [| by rewrite lookup_insert_eq | by rewrite lookup_insert_ne]. eapply queue_chain_ext; [| exact Hc]. intros x Hx. rewrite lookup_insert_ne; [done|]. by intros <-.
      * intros x Hx Hx'. cbn [threads set_queue set_thread]. rewrite !lookup_insert_ne; [done | set_solver | by intros E; rewrite E in Hzin].
      * intros x Hx. destruct (decide (x ∈ l)); [by left|]. right. assert (x = t) as -> by set_solver. done.
    + cbn [threads set_queue set_thread]. split; [rewrite lookup_insert_ne by done; by rewrite lookup_insert_eq|]. intros x Hx. destruct (decide (x = List.last l 0)) as [-> | Hxz].
      * exists (fun _ => t). by rewrite lookup_insert_eq, Ez.
      * exists queue_next. rewrite !lookup_insert_ne by done. destruct (threads s !! x) as [y |]; [cbn; by rewrite <- Hidn | done].
Qed.

(** ** Taking a thread *)

Lemma all_but_lowest_bit x mask j : 0 < mask < 2 ^ 64 -> 0 <= j < 64 -> Z.testbit (Z.land x (all_but_lowest mask)) j = Z.testbit x j && negb (j =? ctz mask).
Proof.
  intros Hm Hj. unfold all_but_lowest. rewrite Z.land_spec, Z.lor_spec, lnot_testbit, u64_id, pred_testbit by lia. destruct (ctz_spec mask ltac:(lia)) as (H0 & H1 & H2). f_equal. destruct (Z.ltb_spec j (ctz mask)).
  - rewrite H2 by done. destruct (Z.eqb_spec j (ctz mask)); [lia | done].
  - destruct (Z.eqb_spec j (ctz mask)) as [-> |]; [by rewrite H1 | by destruct (Z.testbit mask j)].
Qed.

(** The first queue that is neither empty nor busy. *)
Definition first_ready (Q : list (list Z)) (busy : Z -> bool) (i t : Z) (l : list Z) : Prop :=
  0 <= i < 64 /\ Q !! Z.to_nat i = Some (t :: l) /\ busy i = false /\ forall j l', 0 <= j < i -> Q !! Z.to_nat j = Some l' -> l' = [] \/ busy j = true.

Definition none_ready (Q : list (list Z)) (busy : Z -> bool) : Prop := forall j l', 0 <= j < 64 -> Q !! Z.to_nat j = Some l' -> l' = [] \/ busy j = true.

Lemma count_slot_ok s Q u f : balancer_ok s Q -> balancer_ok (count_slot s u f) Q.
Proof. by intros []. Qed.

Lemma bits_of s Q j l : balancer_ok s Q -> 0 <= j < 64 -> Q !! Z.to_nat j = Some l -> Z.testbit (bitmap s) j = bool_decide (l <> []).
Proof. intros Hok Hj El. rewrite <- (bo_bits _ _ Hok _ l El). by rewrite Z2Nat.id by lia. Qed.

Lemma get_loop_ok fuel s Q mask busy : balancer_ok s Q -> 0 <= mask < 2 ^ 64 -> (forall j, 0 <= j -> Z.testbit mask j = true -> Z.testbit (bitmap s) j = true) ->
  (forall j, 0 <= j < 64 -> Z.testbit (bitmap s) j = true -> Z.testbit mask j = false -> busy j = true) ->
  (exists k, 0 <= k <= 64 /\ (forall j, 0 <= j < k -> Z.testbit mask j = false) /\ 64 - k < Z.of_nat fuel) ->
  exists s' t time, get_loop fuel s mask busy = Some (s', t, time) /\
    (none_ready Q busy /\ t = 0 /\ time = 2500 /\ s' = count_slot s 0 1 \/
     exists i l, first_ready Q busy i t l /\ time = _get_queue_time_us i /\ balancer_ok s' (<[Z.to_nat i := l]> Q) /\ threads s' = threads s).
Proof.
  intros Hok. revert mask. induction fuel as [| fuel IH]; intros mask Hm Hsub Hbusy (k & Hk & Hlow & Hf); [lia|]. cbn [get_loop]. destruct (Z.eqb_spec mask 0) as [-> | Hnz].
  - eexists _, _, _. split; [done|]. left. split; [| done]. intros j l' Hj El. destruct l'; [by left | right]. apply Hbusy; [lia | | apply Z.bits_0]. rewrite (bits_of s Q j _ Hok Hj El). done.
  - destruct (ctz_spec mask ltac:(lia)) as (C0 & C1 & C2). set (i := ctz mask) in *. assert (Hi : i < 64) by (destruct (Z.ltb_spec i 64); [done|]; by rewrite (word_high 64) in C1 by lia). assert (Hki : k <= i) by (destruct (Z.ltb_spec i k); [by rewrite Hlow in C1 by lia | lia]).
    destruct (queue_is s Q i Hok ltac:(lia)) as (q & l & -> & Eq & El & Hh & Htl & Hc). cbn [mbind option_bind]. pose proof (bits_of s Q i l Hok ltac:(lia) El) as Hb. rewrite (Hsub i C0 C1) in Hb. symmetry in Hb. apply bool_decide_eq_true in Hb.
    destruct (clear_lowest mask ltac:(lia)) as [R1 R2]. fold i in R2. destruct (busy i) eqn:Ebusy.
    + apply IH; [done | | |].
      * intros j Hj Hbit. apply Hsub; [done|]. rewrite R2 in Hbit by done. by apply andb_true_iff in Hbit as [? _].
      * intros j Hj Hbit Hcl. rewrite R2 in Hcl by lia. destruct (Z.eqb_spec j i) as [-> |]; [done|]. apply Hbusy; [lia | done|]. by rewrite andb_true_r in Hcl.
      * exists (i + 1). split; [lia|]. split; [| lia]. intros j Hj. rewrite R2 by lia. destruct (Z.eqb_spec j i); [by rewrite andb_false_r | rewrite C2 by lia; done].
    + destruct l as [| t l]; [done|]. cbn [hd chain] in Hh, Hc. destruct Hc as (Ht0 & (th & Eth & Hnx) & Hc). rewrite Hh. destruct (Z.eqb_spec t 0); [done|]. rewrite Eth. cbn [mbind option_bind]. rewrite Hnx.
      assert (Hready : first_ready Q busy i t l).
      { split; [lia|]. split; [done|]. split; [done|]. intros j l' Hj El'. destruct l'; [by left | right]. apply Hbusy; [lia | | apply C2; lia]. by rewrite (bits_of s Q j _ Hok ltac:(lia) El'). }
      assert (Hnd : NoDup (concat (<[Z.to_nat i := l]> Q))) by (pose proof (bo_nodup _ _ Hok) as Hn; rewrite (concat_insert_tail Q _ t l El) in Hn; by apply NoDup_cons in Hn as [_ ?]).
      assert (Hsub' : forall x, x ∈ l -> x ∈ t :: l \/ x ∉ concat Q) by (intros x Hx; left; set_solver).
      eexists _, _, _. split; [done|]. right. exists i, l. split; [done|]. split; [done|]. destruct l as [| y l]; cbn [hd].
      * change (0 =? 0) with true. cbn iota. split; [| done]. apply count_slot_ok. apply (replace_queue s Q _ (Z.to_nat i) (Queue 0 0) [t] [] (<[Z.to_nat i := []]> Q)); [done | done | lia | done | done | done | done | done | done | done | | | done].
        -- cbn [bitmap set_queue]. pose proof (bo_width _ _ Hok). apply width_of_bits; [lia|]. intros j Hj. rewrite Z.land_spec, (word_high 64 (bitmap s)) by lia. done.
        -- intros j Hj. cbn [bitmap set_queue]. rewrite all_but_lowest_bit, Z2Nat.id by lia. fold i. destruct (Z.eqb_spec j i); [by rewrite andb_false_r | by rewrite andb_true_r].
      * destruct (queue_chain_in _ _ y Hc ltac:(set_solver)) as [Hy0 _]. destruct (Z.eqb_spec y 0); [done|]. split; [| done]. apply count_slot_ok. apply (replace_queue s Q _ (Z.to_nat i) (Queue y (tail_of q)) (t :: y :: l) (y :: l) (<[Z.to_nat i := y :: l]> Q)); [done | done | lia | done | done | done | done | done | done | done | apply Hok | | done].
        intros j Hj. cbn [bitmap set_queue]. rewrite Z2Nat.id by lia. destruct (Z.eqb_spec j i) as [-> |]; [by apply Hsub | done].
Qed.

Lemma get_ok s Q busy : balancer_ok s Q -> exists s' t time, scheduler_load_balancer_get s busy = Some (s', t, time) /\
  (none_ready Q busy /\ t = 0 /\ time = 2500 /\ s' = count_slot s 0 1 \/ exists i l, first_ready Q busy i t l /\ time = _get_queue_time_us i /\ balancer_ok s' (<[Z.to_nat i := l]> Q) /\ threads s' = threads s).
Proof.
  intros Hok. apply get_loop_ok; [done | apply Hok | done | |].
  - intros j Hj H1 H2. congruence.
  - exists 0. split_and!; [lia | lia | intros; lia | lia].
Qed.

(** ** The queues as lists of threads *)

Definition threads_wf (T : gmap Z thread_t) : Prop := forall t th, T !! t = Some th -> t <> 0 /\ wf_thread th.

Record ready (s : balancer_t) (Q : list (list Z)) : Prop := {
  re_ok : balancer_ok s Q;
  re_wf : threads_wf (threads s);
  re_queued : forall t th, threads s !! t = Some th -> (queued th = true <-> t ∈ concat Q)
}.

(** A thread changes its state only. *)
Lemma set_queued_ok s Q t th b : balancer_ok s Q -> threads s !! t = Some th -> balancer_ok (set_thread s t (set_queued th b)) Q.
Proof.
  intros Hok Et. destruct Hok as [H1 H2 H3 H4 H5 H6]. split; try done. intros i q l Eq El. destruct (H3 i q l Eq El) as (A & B & Hc). split_and!; [done | done |]. cbn [threads set_thread]. clear -Hc Et. induction l as [| x l IH]; cbn [chain] in *; [done|]. destruct Hc as (A & (tx & B & B') & D). split; [done|]. split; [| by apply IH].
  destruct (decide (x = t)) as [-> | Hx]; [rewrite Et in B; simplify_eq; eexists; rewrite lookup_insert_eq; by split | exists tx; by rewrite lookup_insert_ne].
Qed.

Lemma enqueue_ok s Q t th : ready s Q -> threads s !! t = Some th -> queued th = false ->
  exists s' i l, scheduler_enqueue_thread s t = Some s' /\ 0 <= i < 64 /\ in_class th i /\ Q !! Z.to_nat i = Some l /\ ready s' (<[Z.to_nat i := l ++ [t]]> Q).
Proof.
  intros [Hok Hwf Hq] Et Hnq. destruct (Hwf t th Et) as [Ht0 Hwt]. destruct (choose_queue_ok th Hwt) as (th' & Ech & Hi & Hin & Hwt' & Eq' & _). assert (Hout : t ∉ concat Q) by (intros Hin'; apply (Hq t th Et) in Hin'; congruence).
  destruct (add_ok s Q t th th' Hok Ht0 Hout Et Ech Hi) as (s1 & l & El & Eadd & Hok1 & Et1 & Hoth). unfold scheduler_enqueue_thread. rewrite Et. cbn [mbind option_bind]. rewrite Hnq, Eadd. cbn [mbind option_bind]. rewrite Et1. cbn [mbind option_bind]. eexists _, (queue_index th'), l. do 4 (split; [done|]). split.
  - by apply set_queued_ok.
  - intros x thx Ex. cbn [threads set_thread] in Ex. destruct (decide (x = t)) as [-> | Hx]; [rewrite lookup_insert_eq in Ex; by simplify_eq|]. rewrite lookup_insert_ne in Ex by done. destruct (Hoth x Hx) as [n En]. rewrite En in Ex. destruct (threads s !! x) as [y |] eqn:Ey; [| done]. cbn in Ex. simplify_eq. exact (Hwf x y Ey).
  - intros x thx Ex. cbn [threads set_thread] in Ex. rewrite (concat_insert_snoc Q _ l t El), elem_of_cons. destruct (decide (x = t)) as [-> | Hx]; [rewrite lookup_insert_eq in Ex; simplify_eq; split; [by left | done]|]. rewrite lookup_insert_ne in Ex by done. destruct (Hoth x Hx) as [n En]. rewrite En in Ex. destruct (threads s !! x) as [y |] eqn:Ey; [| done]. cbn in Ex. simplify_eq. cbn [queued set_queue_next]. rewrite (Hq x y Ey). split; [by right | by intros [|]].
Qed.

(** C18: The queues of the scheduler refine 64 lists of threads: a thread that becomes ready is appended to a queue of its class (its fixed queue, or one between the first and the last queue of its priority, threads of the kernel before the others), a thread that already waits is left alone; the next thread to run is the first one of the first queue that is not empty and whose lock is free, for the time of that queue, and no thread is lost or entered twice. *)
Theorem scheduler_queues_refine s Q : ready s Q ->
  (forall t th, threads s !! t = Some th ->
    if queued th then scheduler_enqueue_thread s t = Some s
    else exists s' i l, scheduler_enqueue_thread s t = Some s' /\ 0 <= i < 64 /\ in_class th i /\ Q !! Z.to_nat i = Some l /\ ready s' (<[Z.to_nat i := l ++ [t]]> Q)) /\
  forall busy, exists s' t time, next_thread s busy = Some (s', t, time) /\
    (none_ready Q busy /\ t = 0 /\ time = 2500 /\ ready s' Q \/ exists i l, first_ready Q busy i t l /\ time = 970 + 130 * (i mod 32) /\ ready s' (<[Z.to_nat i := l]> Q)).
Proof.
  intros Hr. split.
  - intros t th Et. destruct (queued th) eqn:Eq; [unfold scheduler_enqueue_thread; rewrite Et; cbn; by rewrite Eq | by apply enqueue_ok].
  - intros busy. destruct Hr as [Hok Hwf Hq]. destruct (get_ok s Q busy Hok) as (s1 & t & time & Eg & Hcase). unfold next_thread. rewrite Eg. cbn [mbind option_bind]. destruct Hcase as [(Hno & -> & -> & ->) | (i & l & Hf & -> & Hok1 & Eth)].
    + eexists _, _, _. split; [done|]. left. do 3 (split; [done|]). split; [by apply count_slot_ok | done | done].
    + destruct Hf as (Hi & El & Hb & Hmin). destruct (queue_is s Q i Hok Hi) as (q & l' & _ & _ & El' & _ & _ & Hc). rewrite El in El'. injection El' as <-. cbn [chain] in Hc. destruct Hc as (Ht0 & (th & Et & _) & _). destruct (Z.eqb_spec t 0); [done|]. rewrite Eth, Et. cbn [mbind option_bind].
      eexists _, _, _. split; [done|]. right. exists i, l. split; [done|]. split; [unfold _get_queue_time_us; change (Z.shiftr SCHEDULER_LOAD_BALANCER_QUEUE_COUNT 1 - 1) with (Z.ones 5); by rewrite Z.land_ones by lia|].
      pose proof (bo_nodup _ _ Hok) as Hn. rewrite (concat_insert_tail Q _ t l El) in Hn. apply NoDup_cons in Hn as [Htout _]. split.
      * apply set_queued_ok; [done | by rewrite Eth].
      * intros x thx Ex. cbn [threads set_thread] in Ex. rewrite Eth in Ex. apply lookup_insert_Some in Ex as [[<- <-] | [_ Ex]]; [by apply (Hwf t th) | by apply (Hwf x)].
      * intros x thx Ex. cbn [threads set_thread] in Ex. rewrite Eth in Ex. apply lookup_insert_Some in Ex as [[<- <-] | [Hx Ex]]; [by split|]. rewrite (Hq x thx Ex), (concat_insert_tail Q _ t l El), elem_of_cons. split; [by intros [-> |] | by right].
Qed.

(** Threads of the kernel run before the others, and threads of a higher priority before those of a lower one. *)
Lemma classes_ordered t t' i i' : wf_thread t -> wf_thread t' -> forced_queue_index t = 0 -> forced_queue_index t' = 0 -> in_class t i -> in_class t' i' ->
  of_kernel t = true /\ of_kernel t' = false \/ of_kernel t = of_kernel t' /\ priority t' < priority t -> i < i'.
Proof.
  intros (_ & _ & Hp) (_ & _ & Hp') E E'. unfold in_class, first_queue, last_queue. rewrite E, E'. cbn [z2b Z.eqb negb].
  assert (Hc : priority t = 0 \/ priority t = 1 \/ priority t = 2 \/ priority t = 3 \/ priority t = 4) by lia. assert (Hc' : priority t' = 0 \/ priority t' = 1 \/ priority t' = 2 \/ priority t' = 3 \/ priority t' = 4) by lia.
  destruct Hc as [-> | [-> | [-> | [-> | ->]]]], Hc' as [-> | [-> | [-> | [-> | ->]]]]; destruct (of_kernel t), (of_kernel t'); intros H1 H2 [[? ?] | [? ?]]; try discriminate; change (Z.to_nat 0) with 0%nat in *; change (Z.to_nat 1) with 1%nat in *; change (Z.to_nat 2) with 2%nat in *; change (Z.to_nat 3) with 3%nat in *; change (Z.to_nat 4) with 4%nat in *; cbn in H1, H2; lia.
Qed.

(** A thread that waits in a queue cannot be taken out: stopping it panics. *)
Theorem dequeue_panics s Q t th : ready s Q -> threads s !! t = Some th -> t ∈ concat Q -> scheduler_dequeue_thread_locked s t = None.
Proof. intros Hr Et Hin. unfold scheduler_dequeue_thread_locked. rewrite Et. cbn [mbind option_bind]. by rewrite (proj2 (re_queued _ _ Hr t th Et) Hin). Qed.

(** *** Witness *)

Definition two_threads : gmap Z thread_t := <[1 := Thread true 2 false 0 0 false false 0]> (<[2 := Thread false 4 false 0 0 false true 0]> ∅).

Lemma two_threads_ready : ready (balancer_init two_threads) (replicate 64 []).
Proof.
  assert (Hconcat : concat (replicate 64 ([] : list Z)) = []) by done. split; [split | |]; try done.
  - intros i q l Eq El. apply lookup_replicate in Eq as [-> _]. apply lookup_replicate in El as [-> _]. done.
  - intros i l El. apply lookup_replicate in El as [-> _]. cbn [bitmap balancer_init]. by rewrite Z.bits_0.
  - rewrite Hconcat. apply NoDup_nil_2.
  - intros t th Et. cbn [threads balancer_init] in Et. unfold two_threads in Et. apply lookup_insert_Some in Et as [[<- <-] | [_ Et]]; [| apply lookup_insert_Some in Et as [[<- <-] | [_ Et]]; [| by rewrite lookup_empty in Et]]; unfold wf_thread; cbn; lia.
  - intros t th Et. rewrite Hconcat. cbn [threads balancer_init] in Et. unfold two_threads in Et. apply lookup_insert_Some in Et as [[<- <-] | [_ Et]]; [| apply lookup_insert_Some in Et as [[<- <-] | [_ Et]]; [| by rewrite lookup_empty in Et]]; cbn; (split; [done | by intros ?%not_elem_of_nil]).
Qed.

Lemma scheduler_queues_refine_witness : exists s' i, scheduler_enqueue_thread (balancer_init two_threads) 2 = Some s' /\ 32 <= i <= 33 /\ ready s' (<[Z.to_nat i := [2]]> (replicate 64 [])).
Proof.
  destruct (scheduler_queues_refine (balancer_init two_threads) (replicate 64 []) two_threads_ready) as [H _]. destruct (H 2 (Thread false 4 false 0 0 false true 0) eq_refl) as (s' & i & l & H1 & H2 & H3 & H4 & H5).
  exists s', i. split; [exact H1|]. unfold in_class, first_queue, last_queue in H3. cbn in H3. split; [exact H3|]. apply lookup_replicate in H4 as [-> _]. exact H5.
Defined.
