(* ===== verification/Vfs.v ===== *)
(** * The virtual file system: nodes and paths
    ([src/src/kernel/vfs/node.c], [vfs.c]).

    Nodes are named by their addresses, [NULL] is 0.  The children of a node are
    a doubly linked list behind its first child, the newest first; a node that
    was looked up stays there.  Names and paths are lists of bytes without the
    terminating zero.  [None] is an access through a bad pointer, a [panic] or a
    loop that does not end; every file system has the function that releases a
    node.  The reference counts are not bounded: that 2^64 references exist is
    not modelled.  What a file system answers is a parameter: [fs_lookup] gives
    the node it creates for a name, with its address, and [fs_read_link] what
    [vfs_node_read] finds in a link, up to its first zero.  Permissions are
    those of [Id.v]. *)
From stdpp Require Import base tactics list numbers option gmap.
From Stdlib Require Import ZArith Lia.
From S2P Require Import Prelude Id.
#[local] Open Scope Z_scope.

Definition VFS_NODE_TYPE_MASK : Z := 7.
Definition VFS_NODE_TYPE_LINK : Z := 3.
Definition VFS_NODE_FLAG_VIRTUAL : Z := 16.
Definition VFS_NODE_FLAG_TEMPORARY : Z := 2048.
Definition VFS_LOOKUP_FLAG_FOLLOW_LINKS : Z := 1.
Definition VFS_LOOKUP_FLAG_FIND_LINKS : Z := 4.
Definition VFS_LOOKUP_LINK_FOUND : Z := 1.
Definition SMM_MAX_LENGTH : Z := 255.

Definition SLASH : Z := 0x2f.
Definition DOT : Z := 0x2e.
Definition TILDE : Z := 0x7e.

Record vfs_node_t := Node {
  flags : Z;
  rc : Z;
  name : list Z;
  parent : Z;
  prev_sibling : Z;
  next_sibling : Z;
  child : Z;
  node_uid : Z;
  node_gid : Z
}.

(** The nodes, with the root, home and working directory of the process. *)
Record vfs_t := Vfs { nodes : gmap Z vfs_node_t; vfs_root : Z; vfs_home : Z; vfs_cwd : Z }.

Definition set_rc (x : Z) (n : vfs_node_t) : vfs_node_t := Node (flags n) x (name n) (parent n) (prev_sibling n) (next_sibling n) (child n) (node_uid n) (node_gid n).
Definition set_parent (x : Z) (n : vfs_node_t) : vfs_node_t := Node (flags n) (rc n) (name n) x (prev_sibling n) (next_sibling n) (child n) (node_uid n) (node_gid n).
Definition set_prev_sibling (x : Z) (n : vfs_node_t) : vfs_node_t := Node (flags n) (rc n) (name n) (parent n) x (next_sibling n) (child n) (node_uid n) (node_gid n).
Definition set_next_sibling (x : Z) (n : vfs_node_t) : vfs_node_t := Node (flags n) (rc n) (name n) (parent n) (prev_sibling n) x (child n) (node_uid n) (node_gid n).
Definition set_child (x : Z) (n : vfs_node_t) : vfs_node_t := Node (flags n) (rc n) (name n) (parent n) (prev_sibling n) (next_sibling n) x (node_uid n) (node_gid n).
Definition set_name (x : list Z) (n : vfs_node_t) : vfs_node_t := Node (flags n) (rc n) x (parent n) (prev_sibling n) (next_sibling n) (child n) (node_uid n) (node_gid n).

Definition set_nodes (s : vfs_t) (t : gmap Z vfs_node_t) : vfs_t := Vfs t (vfs_root s) (vfs_home s) (vfs_cwd s).

Definition modify (s : vfs_t) (node : Z) (f : vfs_node_t -> vfs_node_t) : option vfs_t :=
  n ← nodes s !! node; Some (set_nodes s (<[node := f n]> (nodes s))).

(** ** Reference counts and children *)

Definition vfs_node_ref (s : vfs_t) (node : Z) : option vfs_t := modify s node (fun n => set_rc (rc n + 1) n).

(** The memory of the node is released; a node that is still referenced is waited for. *)
Definition vfs_node_delete (s : vfs_t) (node : Z) : option vfs_t :=
  n ← nodes s !! node;
  if z2b (parent n) || z2b (child n) || (1 <? rc n) then None else Some (set_nodes s (delete node (nodes s))).

Section unref.
Context (unref : vfs_t -> Z -> option vfs_t).

Definition dettach_with (s : vfs_t) (node : Z) : option vfs_t :=
  n ← nodes s !! node;
  if z2b (parent n) then
    s ← (if z2b (prev_sibling n) then modify s (prev_sibling n) (set_next_sibling (next_sibling n)) else modify s (parent n) (set_child (next_sibling n)));
    s ← (if z2b (next_sibling n) then modify s (next_sibling n) (set_prev_sibling (prev_sibling n)) else Some s);
    s ← unref s (parent n);
    modify s node (set_parent 0)
  else Some s.

Definition process_unref_with (s : vfs_t) (node : Z) : option vfs_t :=
  n ← nodes s !! node;
  if negb (z2b (parent n)) && negb (z2b (Z.land (flags n) VFS_NODE_FLAG_VIRTUAL)) then vfs_node_delete s node
  else if z2b (Z.land (flags n) VFS_NODE_FLAG_TEMPORARY) then s ← dettach_with s node; vfs_node_delete s node
  else Some s.
End unref.

(** [vfs_node_unref] and [_vfs_node_process_unref] call each other along the parents. *)
Fixpoint unref_loop (fuel : nat) (s : vfs_t) (node : Z) : option vfs_t :=
  match fuel with
  | O => None
  | S fuel =>
    n ← nodes s !! node;
    s ← modify s node (set_rc (rc n - 1));
    if rc n - 1 =? 0 then process_unref_with (unref_loop fuel) s node else Some s
  end.

Definition vfs_node_unref (s : vfs_t) (node : Z) : option vfs_t := unref_loop (S (size (nodes s))) s node.
Definition _vfs_node_process_unref (s : vfs_t) (node : Z) : option vfs_t := process_unref_with vfs_node_unref s node.
Definition vfs_node_dettach_child (s : vfs_t) (node : Z) : option vfs_t := dettach_with vfs_node_unref s node.

(** The list in front of the children of [node] gets a new first one. *)
Definition push_child (s : vfs_t) (node out : Z) : option vfs_t :=
  n ← nodes s !! node;
  s ← modify s out (set_next_sibling (child n));
  s ← (if z2b (child n) then modify s (child n) (set_prev_sibling out) else Some s);
  modify s node (set_child out).

Definition vfs_node_attach_child (s : vfs_t) (node child : Z) : option vfs_t :=
  c ← nodes s !! child;
  s ← (if z2b (parent c) then Some s else s ← vfs_node_ref s node; modify s child (set_parent node));
  push_child s node child.

Section lookup.
Context (ids : ids) (fs_lookup : vfs_t -> Z -> list Z -> option (Z * vfs_node_t)) (fs_read_link : vfs_t -> Z -> list Z).

(** The loop over the children that are known. *)
Fixpoint find_child (fuel : nat) (s : vfs_t) (out : Z) (nm : list Z) : option Z :=
  match fuel with
  | O => None
  | S fuel =>
    if out =? 0 then Some 0
    else n ← nodes s !! out; if bool_decide (name n = nm) then Some out else find_child fuel s (next_sibling n) nm
  end.

Definition vfs_node_lookup (s : vfs_t) (node : Z) (nm : list Z) : option (vfs_t * Z) :=
  n ← nodes s !! node;
  out ← find_child (S (size (nodes s))) s (child n) nm;
  if negb (out =? 0) then s ← vfs_node_ref s out; Some (s, out)
  else
    match fs_lookup s node nm with
    | None => Some (s, 0)
    | Some (out, x) =>
      let s := set_nodes s (<[out := x]> (nodes s)) in
      s ← vfs_node_ref s node;
      s ← modify s out (set_parent node);
      s ← push_child s node out;
      Some (s, out)
    end.

(** ** Paths *)

(** The length of the first component. *)
Fixpoint component (path : list Z) : nat :=
  match path with
  | [] => 0
  | c :: path => if c =? SLASH then 0 else S (component path)
  end.

(** What becomes of the node at which the walk stands: the walk ends with a result, or goes on. *)
Inductive link_result := Stop (out : Z) | Go (root : Z).

Section walk.
Context (lookup_flags uid gid : Z).

Definition wants_links : bool := z2b (Z.land lookup_flags (Z.lor VFS_LOOKUP_FLAG_FOLLOW_LINKS VFS_LOOKUP_FLAG_FIND_LINKS)).
Definition is_link (n : vfs_node_t) : bool := Z.land (flags n) VFS_NODE_TYPE_MASK =? VFS_NODE_TYPE_LINK.
Definition readable (n : vfs_node_t) : bool := _has_read_permissions ids (flags n) (node_uid n) (node_gid n) lookup_flags uid gid.

(** A link: [rec] looks its target up. *)
Definition follow (rec : vfs_t -> Z -> list Z -> option (vfs_t * Z)) (s : vfs_t) (root : Z) : option (vfs_t * link_result) :=
  n ← nodes s !! root;
  if wants_links && is_link n then
    if z2b (Z.land lookup_flags VFS_LOOKUP_FLAG_FIND_LINKS) then Some (s, Stop VFS_LOOKUP_LINK_FOUND)
    else if negb (readable n) then Some (s, Stop 0)
    else
      let buffer := fs_read_link s root in
      if bool_decide (buffer = []) then Some (s, Stop 0)
      else
        '(s, new_root) ← rec s (parent n) buffer;
        if new_root =? 0 then Some (s, Stop 0) else s ← vfs_node_unref s root; Some (s, Go new_root)
  else Some (s, Go root).

(** The node where a path starts, and the rest of the path. *)
Definition start_of (s : vfs_t) (base root : Z) (path : list Z) : Z * list Z :=
  match path with
  | c :: p =>
    if c =? SLASH then (base, p)
    else if (c =? TILDE) && (match p with [] => true | d :: _ => d =? SLASH end) then (vfs_home s, p)
    else (if root =? 0 then vfs_cwd s else root, path)
  | [] => (if root =? 0 then vfs_cwd s else root, path)
  end.

(** The result: the node, and for a missing last component its parent and name. *)
Abbreviation found := (Z * (Z * list Z))%type.

(** [_cleanup] *)
Definition cleanup (s : vfs_t) (base root out : Z) (p : Z * list Z) : option (vfs_t * found) :=
  s ← vfs_node_unref s base; s ← vfs_node_unref s root; Some (s, (out, p)).

Definition begin_walk (walk : vfs_t -> Z -> Z -> list Z -> option (vfs_t * found)) (s : vfs_t) (root : Z) (path : list Z) : option (vfs_t * found) :=
  let base := vfs_root s in
  s ← vfs_node_ref s base;
  let '(root, path) := start_of s base root path in
  s ← vfs_node_ref s root;
  walk s base root path.

Fixpoint walk (fuel : nat) (want_parent : bool) (s : vfs_t) (base root : Z) (path : list Z) : option (vfs_t * found) :=
  match fuel with
  | O => None
  | S fuel =>
    let rec s root path := '(s, (out, _)) ← begin_walk (walk fuel false) s root path; Some (s, out) in
    if root =? 0 then s ← vfs_node_unref s base; Some (s, (0, (0, [])))
    else
      '(s, r) ← follow rec s root;
      match r with
      | Stop out => cleanup s base root out (0, [])
      | Go root =>
        match path with
        | [] => s ← vfs_node_unref s base; Some (s, (root, (0, [])))
        | c :: p =>
          if c =? SLASH then walk fuel want_parent s base root p
          else
            let i := component path in
            if SMM_MAX_LENGTH <? Z.of_nat i then cleanup s base root 0 (0, [])
            else if bool_decide (take i path = [DOT]) then walk fuel want_parent s base root (drop i path)
            else if bool_decide (take i path = [DOT; DOT]) then
              n ← nodes s !! root;
              if negb (root =? base) && z2b (parent n) then
                s ← vfs_node_ref s (parent n); s ← vfs_node_unref s root; walk fuel want_parent s base (parent n) (drop i path)
              else walk fuel want_parent s base root (drop i path)
            else
              n ← nodes s !! root;
              if negb (readable n) then cleanup s base root 0 (0, [])
              else
                '(s, child) ← vfs_node_lookup s root (take i path);
                if (child =? 0) && want_parent then cleanup s base root 0 (if bool_decide (drop i path = []) then (root, take i path) else (0, []))
                else if child =? base then cleanup s base root 0 (0, [])
                else s ← vfs_node_unref s root; walk fuel want_parent s base child (drop i path)
        end
      end
  end.
End walk.

(** [want_parent]: the caller asks for the parent of a missing last component. *)
Definition vfs_lookup_for_creation (fuel : nat) (s : vfs_t) (root : Z) (path : list Z) (flags uid gid : Z) (want_parent : bool) : option (vfs_t * (Z * (Z * list Z))) :=
  begin_walk (walk (lookup_flags ids flags uid gid) uid gid fuel want_parent) s root path.

Definition vfs_lookup (fuel : nat) (s : vfs_t) (root : Z) (path : list Z) (flags uid gid : Z) : option (vfs_t * Z) :=
  '(s, (out, _)) ← vfs_lookup_for_creation fuel s root path flags uid gid false; Some (s, out).
End lookup.

(** [buffer[i..buffer_length)], [None] inside for a buffer that is too small. *)
Fixpoint path_loop (fuel : nat) (s : vfs_t) (base node i : Z) (acc : list Z) : option (option (list Z)) :=
  match fuel with
  | O => None
  | S fuel =>
    if (node =? 0) || (node =? base) then Some (if i =? 0 then None else Some acc)
    else
      n ← nodes s !! node;
      let k := Z.of_nat (length (name n)) + 1 in
      if i <? k then Some None else path_loop fuel s base (parent n) (i - k) (SLASH :: name n ++ acc)
  end.

Definition vfs_path (s : vfs_t) (node buffer_length : Z) : option (option (list Z)) :=
  r ← path_loop (S (size (nodes s))) s (vfs_root s) node buffer_length [];
  Some (match r with Some [] => Some [SLASH] | r => r end).
