(* ===== verification/VfsSpec.v ===== *)
(** * What the lookup of paths promises
    A lookup never leaves the root of its process, keeps the lists of children
    and takes exactly one reference, to the node it returns. *)
From stdpp Require Import base tactics list numbers option gmap fin_maps.
From Stdlib Require Import ZArith Lia.
From S2P Require Import Prelude Id Vfs.
#[local] Open Scope Z_scope.

(** ** The tree of nodes *)

(** The children from [c] on. *)
Fixpoint siblings (T : gmap Z vfs_node_t) (c : Z) (l : list Z) : Prop :=
  match l with
  | [] => c = 0
  | m :: l => c = m /\ m <> 0 /\ exists y, T !! m = Some y /\ siblings T (next_sibling y) l
  end.

(** [K n]: the children of [n], the newest first. *)
Record tree_ok (T : gmap Z vfs_node_t) (K : Z -> list Z) : Prop := {
  to_list : forall n x, T !! n = Some x -> siblings T (child x) (K n);
  to_nodup : forall n x, T !! n = Some x -> NoDup (K n);
  to_parent : forall n x m, T !! n = Some x -> m ∈ K n -> exists y, T !! m = Some y /\ parent y = n;
  to_child : forall m y, T !! m = Some y -> parent y <> 0 -> is_Some (T !! parent y) /\ m ∈ K (parent y);
  to_null : T !! 0 = None
}.

(** [n] is [r] or below it. *)
Inductive inside (T : gmap Z vfs_node_t) (r : Z) : Z -> Prop :=
| inside_here : is_Some (T !! r) -> inside T r r
| inside_below n x : T !! n = Some x -> parent x <> 0 -> inside T r (parent x) -> inside T r n.

(** Nodes stay, with their names, parents and permissions. *)
Definition fixed (x y : vfs_node_t) : Prop := flags y = flags x /\ name y = name x /\ parent y = parent x /\ node_uid y = node_uid x /\ node_gid y = node_gid x.
Definition evolves (T T' : gmap Z vfs_node_t) : Prop := forall n x, T !! n = Some x -> exists y, T' !! n = Some y /\ fixed x y.

#[export] Instance evolves_preorder : PreOrder evolves.
Proof.
  split.
  - intros T n x E. by exists x.
  - intros T1 T2 T3 H1 H2 n x E. destruct (H1 n x E) as (y & Ey & F1 & F2 & F3 & F4 & F5). destruct (H2 n y Ey) as (z & Ez & G1 & G2 & G3 & G4 & G5). exists z. split; [done|]. unfold fixed. split_and!; congruence.
Qed.

Lemma inside_in T r n : inside T r n -> is_Some (T !! n).
Proof. intros [| ? x E]; [done | by exists x]. Qed.

Lemma inside_evolves T T' r n : evolves T T' -> inside T r n -> inside T' r n.
Proof.
  intros He. induction 1 as [[x E] | n x E Hp _ IH].
  - destruct (He r x E) as (y & Ey & _). by apply inside_here; eexists.
  - destruct (He n x E) as (y & Ey & _ & _ & F & _). eapply inside_below; [exact Ey | congruence | by rewrite F].
Qed.

(** A node that was there is below another one only if it was before. *)
Lemma inside_back T T' K r n : tree_ok T K -> evolves T T' -> is_Some (T !! n) -> inside T' r n -> inside T r n.
Proof.
  intros HK He Hn Hin. induction Hin as [_ | n x' E' Hp _ IH]; [by apply inside_here|]. destruct Hn as [x E]. destruct (He n x E) as (y & Ey & _ & _ & F & _). rewrite E' in Ey. simplify_eq. rewrite F in *. destruct (to_child _ _ HK n x E Hp) as [Hs _]. eapply inside_below; [exact E | done | by apply IH].
Qed.

Lemma inside_parent T r n x : inside T r n -> n <> r -> T !! n = Some x -> parent x <> 0 /\ inside T r (parent x).
Proof. intros Hin Hne E. destruct Hin as [| n y Ey Hp Hin]; [done|]. rewrite E in Ey. by simplify_eq. Qed.

(** ** References *)

Definition kid_count (T : gmap Z vfs_node_t) (n : Z) : Z := Z.of_nat (size (filter (fun e : Z * vfs_node_t => parent e.2 = n) T)).

(** The references to [n] other than those of its children. *)
Definition outside (T : gmap Z vfs_node_t) (n : Z) : Z := match T !! n with Some x => rc x - kid_count T n | None => 0 end.

(** A change of a node that keeps its parent. *)
Lemma kid_count_update T n x y m : T !! n = Some x -> parent y = parent x -> kid_count (<[n := y]> T) m = kid_count T m.
Proof.
  intros E Hp. unfold kid_count. f_equal. destruct (decide (parent x = m)) as [Hm | Hm].
  - rewrite map_filter_insert_True by (cbn; congruence). rewrite map_size_insert_Some; [done|]. exists x. apply map_lookup_filter_Some. by split.
  - rewrite map_filter_insert_False by (cbn; congruence). f_equal. apply map_eq. intros i. apply option_eq. intros z. rewrite !map_lookup_filter_Some, lookup_delete_Some. cbn. split; [tauto|]. intros [Ei Hi]. split; [| done]. split; [| done]. intros <-. rewrite E in Ei. by simplify_eq.
Qed.

Lemma kid_count_new T n y m : T !! n = None -> kid_count (<[n := y]> T) m = kid_count T m + (if decide (parent y = m) then 1 else 0).
Proof.
  intros E. unfold kid_count. destruct (decide (parent y = m)) as [Hm | Hm].
  - rewrite map_filter_insert_True by (cbn; congruence). rewrite map_size_insert_None; [lia|]. apply map_lookup_filter_None. by left.
  - rewrite map_filter_insert_False by (cbn; congruence). rewrite delete_id by done. lia.
Qed.

Lemma kid_count_nonneg T n : 0 <= kid_count T n.
Proof. unfold kid_count. lia. Qed.

(** A node that nobody has as its parent. *)
Lemma kid_count_none T n : (forall m y, T !! m = Some y -> parent y <> n) -> kid_count T n = 0.
Proof.
  intros H. unfold kid_count. assert (filter (fun e : Z * vfs_node_t => parent e.2 = n) T = ∅) as ->; [| done]. apply map_eq. intros i. rewrite lookup_empty. apply map_lookup_filter_None. right. intros y E. cbn. by eapply H.
Qed.

Definition plus (held : Z -> Z) (n : Z) : Z -> Z := fun m => held m + (if decide (m = n) then 1 else 0).

(** Reached from [T0], with the references [held] on top of those of [T0]. *)
Record inv (T0 T : gmap Z vfs_node_t) (held : Z -> Z) : Prop := {
  iv_tree : exists K, tree_ok T K;
  iv_evolves : evolves T0 T;
  iv_refs : forall n, outside T n = outside T0 n + held n;
  iv_new : forall n x, T !! n = Some x -> T0 !! n = None -> parent x <> 0;
  iv_kept : forall n x, T !! n = Some x -> Z.land (flags x) VFS_NODE_FLAG_TEMPORARY = 0
}.

(** Nodes are not temporary, and those without a parent are virtual or referenced. *)
Definition stay (T : gmap Z vfs_node_t) : Prop := forall n x, T !! n = Some x -> Z.land (flags x) VFS_NODE_FLAG_TEMPORARY = 0 /\ (parent x = 0 -> Z.land (flags x) VFS_NODE_FLAG_VIRTUAL <> 0 \/ 1 <= outside T n).

Lemma inv_ext T0 T held held' : (forall n, held n = held' n) -> inv T0 T held -> inv T0 T held'.
Proof. intros E [H1 H2 H3 H4 H5]. split; try done. intros n. by rewrite H3, E. Qed.

Lemma inv_start T K : tree_ok T K -> stay T -> inv T T (fun _ => 0).
Proof. intros H1 H2. split; [by exists K | done | intros; lia | congruence |]. intros n x E. by destruct (H2 n x E). Qed.

Lemma siblings_update T n x y c l : T !! n = Some x -> next_sibling y = next_sibling x -> siblings T c l -> siblings (<[n := y]> T) c l.
Proof.
  intros E Hn. revert c. induction l as [| m l IH]; intros c; cbn [siblings]; [done|]. intros (-> & Hm & z & Ez & Hs). split; [done|]. split; [done|]. destruct (decide (m = n)) as [-> | Hne].
  - rewrite E in Ez. simplify_eq. exists y. rewrite lookup_insert_eq, Hn. by split; [| apply IH].
  - exists z. rewrite lookup_insert_ne by done. by split; [| apply IH].
Qed.

(** A change that keeps the place of a node in the tree. *)
Lemma tree_ok_update T K n x y : tree_ok T K -> T !! n = Some x -> parent y = parent x -> next_sibling y = next_sibling x -> child y = child x -> tree_ok (<[n := y]> T) K.
Proof.
  intros [H1 H2 H3 H4 H5] E Ep En Ec. split.
  - intros m z Em. apply lookup_insert_Some in Em as [[<- <-] | [_ Em]]; eapply siblings_update; try done; [rewrite Ec; by apply H1 | by apply H1].
  - intros m z Em. apply lookup_insert_Some in Em as [[<- <-] | [_ Em]]; by eapply H2.
  - intros m z k Em Hk. assert (is_Some (T !! m)) as [z' Ez'] by (apply lookup_insert_Some in Em as [[<- <-] | [_ Em]]; by eexists). destruct (H3 m z' k Ez' Hk) as (w & Ew & Hw). destruct (decide (k = n)) as [-> | Hne]; [exists y; rewrite lookup_insert_eq; split; [done | congruence] | exists w; by rewrite lookup_insert_ne].
  - intros m z Em Hz. assert (Hm : exists z', T !! m = Some z' /\ parent z' = parent z) by (apply lookup_insert_Some in Em as [[<- <-] | [_ Em]]; eauto). destruct Hm as (z' & Ez' & Hp). rewrite <- Hp in *. destruct (H4 m z' Ez' Hz) as [Hs Hin]. split; [| done]. by apply lookup_insert_is_Some'; right.
  - apply lookup_insert_None. split; [done|]. intros ->. congruence.
Qed.

Lemma evolves_set_rc T n x v : T !! n = Some x -> evolves T (<[n := set_rc v x]> T) /\ evolves (<[n := set_rc v x]> T) T.
Proof.
  intros E. split.
  - intros m y Ey. destruct (decide (m = n)) as [-> | Hne]; [rewrite E in Ey; simplify_eq; eexists; rewrite lookup_insert_eq; by split | exists y; by rewrite lookup_insert_ne].
  - intros m y Ey. apply lookup_insert_Some in Ey as [[<- <-] | [_ Ey]]; [by exists x | by exists y].
Qed.

Lemma set_rc_inv T0 T held n x v : inv T0 T held -> T !! n = Some x -> inv T0 (<[n := set_rc v x]> T) (fun m => held m + (if decide (m = n) then v - rc x else 0)).
Proof.
  intros [[K H1] H2 H3 H4 H5] E. split.
  - exists K. by eapply tree_ok_update.
  - etransitivity; [exact H2 | by apply evolves_set_rc].
  - intros m. specialize (H3 m). unfold outside in *. rewrite (kid_count_update T n x (set_rc v x)) by done. destruct (decide (m = n)) as [-> | Hne]; [rewrite lookup_insert_eq, E in *; cbn [rc set_rc]; lia | rewrite lookup_insert_ne by done; lia].
  - intros m y Ey. apply lookup_insert_Some in Ey as [[<- <-] | [_ Ey]]; [by apply (H4 n x) | by apply H4].
  - intros m y Ey. apply lookup_insert_Some in Ey as [[<- <-] | [_ Ey]]; [by apply (H5 n x) | by eapply H5].
Qed.

Lemma ref_ok T0 s held n : inv T0 (nodes s) held -> is_Some (nodes s !! n) -> exists T, vfs_node_ref s n = Some (set_nodes s T) /\ inv T0 T (plus held n) /\ evolves (nodes s) T.
Proof.
  intros Hi [x E]. unfold vfs_node_ref, modify. rewrite E. cbn [mbind option_bind]. eexists. split; [done|]. split.
  - eapply inv_ext; [| eapply (set_rc_inv T0 (nodes s) held n x); done]. intros m. unfold plus. destruct (decide (m = n)); lia.
  - by apply evolves_set_rc.
Qed.

(** A reference that is given back does not delete the node. *)
Lemma unref_explicit T0 s held n x : stay T0 -> inv T0 (nodes s) (plus held n) -> (forall m, 0 <= held m) -> nodes s !! n = Some x -> vfs_node_unref s n = Some (set_nodes s (<[n := set_rc (rc x - 1) x]> (nodes s))) /\ inv T0 (<[n := set_rc (rc x - 1) x]> (nodes s)) held.
Proof.
  intros Hstay Hi Hh E. unfold vfs_node_unref. cbn [unref_loop]. rewrite E. cbn [mbind option_bind]. unfold modify. rewrite E. cbn [mbind option_bind].
  assert (Hi' : inv T0 (<[n := set_rc (rc x - 1) x]> (nodes s)) held) by (eapply inv_ext; [| eapply (set_rc_inv T0 (nodes s) _ n x); done]; intros m; unfold plus; destruct (decide (m = n)); lia).
  split; [| done]. destruct (Z.eqb_spec (rc x - 1) 0) as [H0 | H0]; [| done]. unfold process_unref_with. cbn [nodes set_nodes]. rewrite lookup_insert_eq. cbn [mbind option_bind parent flags set_rc].
  rewrite (iv_kept _ _ _ Hi n x E). change (z2b 0) with false. cbn iota. destruct (negb (z2b (parent x)) && negb (z2b (Z.land (flags x) VFS_NODE_FLAG_VIRTUAL))) eqn:Ec; [exfalso | done].
  apply andb_true_iff in Ec as [Hp%negb_true_iff Hv%negb_true_iff]. unfold z2b in Hp, Hv. apply negb_false_iff in Hp, Hv. apply Z.eqb_eq in Hp, Hv. destruct (T0 !! n) as [x0 |] eqn:E0; [| by apply (iv_new _ _ _ Hi n x E E0)].
  destruct (iv_evolves _ _ _ Hi n x0 E0) as (x' & Ex' & F1 & _ & F3 & _). rewrite E in Ex'. simplify_eq. destruct (Hstay n x0 E0) as [_ Hs]. destruct (Hs ltac:(congruence)) as [Hvv | Hout]; [congruence|].
  pose proof (iv_refs _ _ _ Hi' n) as Hr. specialize (Hh n). unfold outside in Hr at 1. rewrite lookup_insert_eq in Hr. cbn [rc set_rc] in Hr. pose proof (kid_count_nonneg (<[n := set_rc (rc x' - 1) x']> (nodes s)) n). lia.
Qed.

Lemma unref_ok T0 s held n : stay T0 -> inv T0 (nodes s) (plus held n) -> (forall m, 0 <= held m) -> is_Some (nodes s !! n) -> exists T, vfs_node_unref s n = Some (set_nodes s T) /\ inv T0 T held /\ evolves (nodes s) T.
Proof. intros Hstay Hi Hh [x E]. destruct (unref_explicit T0 s held n x Hstay Hi Hh E) as [E' Hi']. eexists. split; [done|]. split; [done|]. by apply evolves_set_rc. Qed.

(** ** Finding a child *)

Lemma find_child_ok fuel s c l nm : siblings (nodes s) c l -> (length l < fuel)%nat ->
  exists o, find_child fuel s c nm = Some o /\
    (o = 0 /\ (forall m y, m ∈ l -> nodes s !! m = Some y -> name y <> nm) \/ o <> 0 /\ o ∈ l /\ exists y, nodes s !! o = Some y /\ name y = nm).
Proof.
  revert c l. induction fuel as [| fuel IH]; intros c l Hs Hf; [lia|]. cbn [find_child]. destruct l as [| m l]; cbn [siblings length] in *.
  - subst c. change (0 =? 0) with true. cbn iota. exists 0. split; [done|]. left. split; [done|]. by intros m y ?%not_elem_of_nil.
  - destruct Hs as (-> & Hm & y & Ey & Hs). destruct (Z.eqb_spec m 0); [done|]. rewrite Ey. cbn [mbind option_bind]. destruct (bool_decide_reflect (name y = nm)) as [Hnm | Hnm].
    + exists m. split; [done|]. right. split; [done|]. split; [set_solver | by exists y].
    + destruct (IH (next_sibling y) l Hs ltac:(lia)) as (o & Eo & Ho). exists o. split; [done|]. destruct Ho as [[-> Hno] | (Ho & Hin & Hy)]; [left; split; [done|]; intros k z [-> | Hk]%elem_of_cons Ez; [congruence | by eapply Hno] | right; split; [done|]; split; [set_solver | done]].
Qed.

(** What a new first child does to the other nodes. *)
Definition pushed (T T' : gmap Z vfs_node_t) (node out : Z) (x : vfs_node_t) : Prop :=
  T' !! out = Some x /\ forall m, m <> out -> match T !! m with
    | None => T' !! m = None
    | Some y => exists y', T' !! m = Some y' /\ fixed y y' /\ next_sibling y' = next_sibling y /\ child y' = (if decide (m = node) then out else child y) /\ rc y' = rc y + (if decide (m = node) then 1 else 0)
    end.

Lemma siblings_mono T T' c l : (forall m y, T !! m = Some y -> exists y', T' !! m = Some y' /\ next_sibling y' = next_sibling y) -> siblings T c l -> siblings T' c l.
Proof.
  intros He. revert c. induction l as [| m l IH]; intros c; cbn [siblings]; [done|]. intros (-> & Hm & y & Ey & Hs). split; [done|]. split; [done|]. destruct (He m y Ey) as (y' & Ey' & Hn). exists y'. split; [done|]. rewrite Hn. by apply IH.
Qed.

Lemma kid_count_pushed T T' node out x m : pushed T T' node out x -> T !! out = None -> parent x = node -> kid_count T' m = kid_count T m + (if decide (m = node) then 1 else 0).
Proof.
  intros [Hx Ho] Hout Hp. unfold kid_count. rewrite <- !size_dom.
  assert (Hset : dom (filter (fun e : Z * vfs_node_t => parent e.2 = m) T') = dom (filter (fun e : Z * vfs_node_t => parent e.2 = m) T) ∪ (if decide (m = node) then {[out]} else ∅)).
  { apply set_eq. intros k. rewrite elem_of_union, !elem_of_dom. split.
    - intros [y [Ey Hy]%map_lookup_filter_Some]. cbn in Hy. destruct (decide (k = out)) as [-> | Hk].
      + right. rewrite Hx in Ey. simplify_eq. destruct (decide _); [set_solver | congruence].
      + left. specialize (Ho k Hk). destruct (T !! k) as [z |] eqn:Ez; [| congruence]. destruct Ho as (y' & Ey' & (_ & _ & F & _) & _). exists z. apply map_lookup_filter_Some. split; [done|]. cbn. rewrite Ey in Ey'. simplify_eq. congruence.
    - intros [[y [Ey Hy]%map_lookup_filter_Some] | Hk].
      + cbn in Hy. assert (Hk : k <> out) by congruence. specialize (Ho k Hk). rewrite Ey in Ho. destruct Ho as (y' & Ey' & (_ & _ & F & _) & _). exists y'. apply map_lookup_filter_Some. split; [done|]. cbn. congruence.
      + destruct (decide (m = node)) as [-> |]; [| set_solver]. apply elem_of_singleton in Hk as ->. exists x. apply map_lookup_filter_Some. by split. }
  rewrite Hset. rewrite size_union.
  - destruct (decide (m = node)); [rewrite size_singleton | rewrite size_empty]; lia.
  - intros k [y [Ey _]%map_lookup_filter_Some]%elem_of_dom Hk. destruct (decide (m = node)); [| set_solver]. apply elem_of_singleton in Hk as ->. congruence.
Qed.

Lemma pushed_inv T0 T T' held node n out x : inv T0 T held -> T !! node = Some n -> T !! out = None -> out <> 0 -> pushed T T' node out x -> parent x = node -> child x = 0 -> next_sibling x = child n -> rc x = 1 -> Z.land (flags x) VFS_NODE_FLAG_TEMPORARY = 0 ->
  inv T0 T' (plus held out) /\ evolves T T'.
Proof.
  intros [[K HK] H2 H3 H4 H5] En Eo Ho0 HP Hp Hc Hns Hrc Hfl. pose proof HP as [Hx Hoth]. assert (Hn0 : node <> 0) by (intros ->; by rewrite (to_null _ _ HK) in En).
  assert (He : evolves T T') by (intros m y Ey; assert (Hm : m <> out) by congruence; specialize (Hoth m Hm); rewrite Ey in Hoth; destruct Hoth as (y' & Ey' & F & _); by exists y').
  assert (Hmono : forall m y, T !! m = Some y -> exists y', T' !! m = Some y' /\ next_sibling y' = next_sibling y) by (intros m y Ey; assert (Hm : m <> out) by congruence; specialize (Hoth m Hm); rewrite Ey in Hoth; destruct Hoth as (y' & Ey' & _ & F & _); by exists y').
  assert (Hback : forall m y', T' !! m = Some y' -> m = out /\ y' = x \/ m <> out /\ exists y, T !! m = Some y /\ fixed y y' /\ child y' = (if decide (m = node) then out else child y) /\ rc y' = rc y + (if decide (m = node) then 1 else 0)).
  { intros m y' Ey'. destruct (decide (m = out)) as [-> | Hm]; [left; split; [done | congruence]|]. right. split; [done|]. specialize (Hoth m Hm). destruct (T !! m) as [y |]; [| congruence]. destruct Hoth as (y2 & Ey2 & F & _ & G1 & G2). rewrite Ey' in Ey2. simplify_eq. by exists y. }
  assert (Hno : out ∉ K node) by (intros Hin; destruct (to_parent _ _ HK node n out En Hin) as (? & ? & _); congruence).
  split; [| done]. split.
  - exists (fun m => if decide (m = out) then [] else if decide (m = node) then out :: K node else K m). split.
    + intros m y' Ey'. destruct (Hback m y' Ey') as [[-> ->] | (Hm & y & Ey & F & G1 & G2)]; [destruct (decide (out = out)); [by cbn | done]|]. destruct (decide (m = out)); [done|]. rewrite G1. destruct (decide (m = node)) as [-> |].
      * cbn [siblings]. split; [done|]. split; [done|]. exists x. split; [done|]. rewrite Hns. eapply siblings_mono; [exact Hmono | by apply (to_list _ _ HK)].
      * eapply siblings_mono; [exact Hmono | by apply (to_list _ _ HK)].
    + intros m y' Ey'. destruct (Hback m y' Ey') as [[-> ->] | (Hm & y & Ey & _)]; [destruct (decide (out = out)); [apply NoDup_nil_2 | done]|]. destruct (decide (m = out)); [done|]. destruct (decide (m = node)) as [-> |]; [apply NoDup_cons; split; [done|] |]; by eapply (to_nodup _ _ HK).
    + intros m y' k Ey' Hk. destruct (decide (m = out)); [by apply not_elem_of_nil in Hk|]. destruct (Hback m y' Ey') as [[-> ->] | (Hm & y & Ey & _)]; [done|].
      assert (Hk' : k = out /\ m = node \/ k ∈ K m) by (destruct (decide (m = node)) as [-> |]; [apply elem_of_cons in Hk as [-> |]; [by left | by right] | by right]). destruct Hk' as [[-> ->] | Hk']; [by exists x|]. destruct (to_parent _ _ HK m y k Ey Hk') as (z & Ez & Hz). destruct (He k z Ez) as (z' & Ez' & _ & _ & F & _). exists z'. split; [done | congruence].
    + intros m y' Ey' Hpar. destruct (Hback m y' Ey') as [[-> ->] | (Hm & y & Ey & (_ & _ & F & _) & _)].
      * rewrite Hp. split; [destruct (He node n En) as (? & ? & _); by eexists|]. destruct (decide (node = out)); [congruence|]. destruct (decide (node = node)); [set_solver | done].
      * rewrite F in *. destruct (to_child _ _ HK m y Ey Hpar) as [[z Ez] Hin]. split; [destruct (He _ z Ez) as (? & ? & _); by eexists|]. destruct (decide (parent y = out)) as [E |]; [rewrite E in Ez; congruence|]. destruct (decide (parent y = node)) as [E |]; [rewrite E in Hin; set_solver | done].
    + specialize (Hoth 0 ltac:(congruence)). by rewrite (to_null _ _ HK) in Hoth.
  - by transitivity T.
  - intros m. specialize (H3 m). unfold outside in H3 at 1. unfold outside at 1. rewrite (kid_count_pushed T T' node out x m HP Eo Hp). unfold plus. destruct (decide (m = out)) as [-> | Hm].
    + rewrite Hx. assert (Hne : out <> node) by congruence. destruct (decide (out = node)); [done|]. rewrite Hrc, kid_count_none by (intros k z Ez Hz; destruct (to_child _ _ HK k z Ez ltac:(congruence)) as [[? ?] _]; congruence). rewrite Eo in H3. lia.
    + specialize (Hoth m Hm). destruct (T !! m) as [y |]; [| rewrite Hoth; lia]. destruct Hoth as (y' & -> & _ & _ & _ & ->). lia.
  - intros m y' Ey' H0. destruct (Hback m y' Ey') as [[-> ->] | (Hm & y & Ey & (_ & _ & F & _) & _)]; [congruence | rewrite F; by apply (H4 m)].
  - intros m y' Ey'. destruct (Hback m y' Ey') as [[-> ->] | (Hm & y & Ey & (F & _) & _)]; [done | rewrite F; by eapply H5].
Qed.

(** ** Looking a name up *)

(** What a file system promises of its lookup: a new node with one reference and no relatives. *)
Definition fs_ok (fs_lookup : vfs_t -> Z -> list Z -> option (Z * vfs_node_t)) : Prop := forall s node nm out x, fs_lookup s node nm = Some (out, x) ->
  out <> 0 /\ nodes s !! out = None /\ rc x = 1 /\ parent x = 0 /\ prev_sibling x = 0 /\ next_sibling x = 0 /\ child x = 0 /\ name x = nm /\ Z.land (flags x) VFS_NODE_FLAG_TEMPORARY = 0.

Lemma insert_new_ok s node n out x : nodes s !! node = Some n -> nodes s !! out = None -> (child n = 0 \/ is_Some (nodes s !! child n)) ->
  exists T', (s ← vfs_node_ref (set_nodes s (<[out := x]> (nodes s))) node; s ← modify s out (set_parent node); push_child s node out) = Some (set_nodes s T') /\ pushed (nodes s) T' node out (set_next_sibling (child n) (set_parent node x)).
Proof.
  intros En Eo Hc. assert (Hne : node <> out) by congruence. unfold vfs_node_ref, modify, push_child. cbn [nodes set_nodes]. rewrite lookup_insert_ne, En by done. cbn [mbind option_bind nodes set_nodes]. rewrite lookup_insert_ne, lookup_insert_eq by done. cbn [mbind option_bind nodes set_nodes].
  rewrite lookup_insert_ne, lookup_insert_eq by done. cbn [mbind option_bind child set_rc]. unfold modify. cbn [nodes set_nodes]. rewrite lookup_insert_eq. cbn [mbind option_bind nodes set_nodes]. unfold z2b. destruct (Z.eqb_spec (child n) 0) as [E0 | E0]; cbn [negb].
  - cbn [mbind option_bind nodes set_nodes]. rewrite !(lookup_insert_ne _ out node), lookup_insert_eq by done. cbn [mbind option_bind]. eexists. split; [done|]. split; [by rewrite lookup_insert_ne, lookup_insert_eq by done|]. intros m Hm. destruct (decide (m = node)) as [-> | Hmn].
    + rewrite En. eexists. rewrite lookup_insert_eq. split; [done|]. done.
    + rewrite !lookup_insert_ne by done. destruct (nodes s !! m) as [y |]; [| done]. exists y. split; [done|]. split; [done|]. by rewrite Z.add_0_r.
  - destruct Hc as [| [c Ec]]; [done|]. assert (Hco : child n <> out) by congruence. rewrite !(lookup_insert_ne _ out (child n)) by done. destruct (decide (child n = node)) as [Ecn | Ecn].
    + rewrite Ecn, lookup_insert_eq. cbn [mbind option_bind nodes set_nodes]. rewrite lookup_insert_eq. cbn [mbind option_bind]. eexists. split; [done|]. split; [rewrite !(lookup_insert_ne _ node out), lookup_insert_eq by done; by rewrite <- Ecn|]. intros m Hm. destruct (decide (m = node)) as [-> | Hmn].
      * rewrite En. eexists. rewrite lookup_insert_eq. split; [done|]. done.
      * rewrite !lookup_insert_ne by done. destruct (nodes s !! m) as [y |]; [| done]. exists y. split; [done|]. split; [done|]. by rewrite Z.add_0_r.
    + rewrite lookup_insert_ne, lookup_insert_ne, Ec by done. cbn [mbind option_bind nodes set_nodes]. rewrite (lookup_insert_ne _ (child n) node), !(lookup_insert_ne _ out node), lookup_insert_eq by done. cbn [mbind option_bind]. eexists. split; [done|]. split; [by rewrite !(lookup_insert_ne _ _ out), lookup_insert_eq by done|]. intros m Hm. destruct (decide (m = node)) as [-> | Hmn].
      * rewrite En. eexists. rewrite lookup_insert_eq. split; [done|]. done.
      * rewrite (lookup_insert_ne _ node m) by done. destruct (decide (m = child n)) as [-> | Hmc].
        -- rewrite Ec, lookup_insert_eq. eexists. split; [done|]. split; [done|]. by rewrite Z.add_0_r.
        -- rewrite !lookup_insert_ne by done. destruct (nodes s !! m) as [y |]; [| done]. exists y. split; [done|]. split; [done|]. by rewrite Z.add_0_r.
Qed.

Section lookup_spec.
Context (ids : ids) (fs_lookup : vfs_t -> Z -> list Z -> option (Z * vfs_node_t)) (fs_read_link : vfs_t -> Z -> list Z).
Context (Hfs : fs_ok fs_lookup).

Lemma node_lookup_ok T0 s held node n nm : inv T0 (nodes s) held -> nodes s !! node = Some n ->
  exists T out, vfs_node_lookup fs_lookup s node nm = Some (set_nodes s T, out) /\
    (out = 0 /\ T = nodes s \/ out <> 0 /\ inv T0 T (plus held out) /\ evolves (nodes s) T /\ exists y, T !! out = Some y /\ parent y = node /\ name y = nm).
Proof.
  intros Hi En. destruct (iv_tree _ _ _ Hi) as [K HK]. pose proof (to_list _ _ HK node n En) as Hs. pose proof (to_nodup _ _ HK node n En) as Hn.
  assert (Hin : forall m, m ∈ K node -> is_Some (nodes s !! m)) by (intros m Hm; destruct (to_parent _ _ HK node n m En Hm) as (y & Ey & _); by eexists). unfold vfs_node_lookup. rewrite En. cbn [mbind option_bind].
  destruct (find_child_ok (S (size (nodes s))) s (child n) (K node) nm Hs) as (o & -> & Ho); [pose proof (nodup_size (nodes s) (K node) Hn Hin); lia|]. cbn [mbind option_bind]. assert (Hid : s = set_nodes s (nodes s)) by by destruct s.
  destruct Ho as [[-> Hno] | (Ho & Hin' & y & Ey & Hy)].
  - change (0 =? 0) with true. cbn [negb]. destruct (fs_lookup s node nm) as [[out x] |] eqn:Ef.
    + destruct (Hfs s node nm out x Ef) as (F1 & F2 & F3 & F4 & F5 & F6 & F7 & F8 & F9).
      destruct (insert_new_ok s node n out x En F2) as (T' & Eins & HP); [destruct (K node) as [| c l]; cbn [siblings] in Hs; [by left | destruct Hs as (-> & _ & z & Ez & _); right; by eexists]|].
      destruct (pushed_inv T0 (nodes s) T' held node n out _ Hi En F2 F1 HP) as [Hi' He]; try done. exists T', out. split; [| right; split; [done|]; split; [done|]; split; [done|]; eexists; split; [apply HP | by cbn]].
      cbv zeta. revert Eins. destruct (vfs_node_ref _ node) as [s1 |]; [| done]. cbn [mbind option_bind]. destruct (modify s1 out _) as [s2 |]; [| done]. cbn [mbind option_bind]. intros ->. done.
    + exists (nodes s), 0. split; [by rewrite <- Hid | by left].
  - destruct (Z.eqb_spec o 0); [done|]. cbn [negb]. destruct (ref_ok T0 s held o Hi) as (T' & -> & Hi' & He); [by eexists|]. cbn [mbind option_bind]. exists T', o. split; [done|]. right. split; [done|]. split; [done|]. split; [done|].
    destruct (to_parent _ _ HK node n o En Hin') as (y' & Ey' & Hp). rewrite Ey in Ey'. simplify_eq. destruct (He o y' Ey) as (z & Ez & _ & F2 & F3 & _). exists z. split; [done|]. by rewrite F2, F3.
Qed.

(** ** Walking a path *)

Section walk_spec.
Context (fl uid gid : Z) (T0 : gmap Z vfs_node_t) (K0 : Z -> list Z) (Htree : tree_ok T0 K0) (Hstay : stay T0).

(** The directories of the process are below its root, which is no link and not below itself. *)
Record good (s : vfs_t) : Prop := {
  gd_top : exists x, T0 !! vfs_root s = Some x /\ (parent x <> 0 -> ~ inside T0 (vfs_root s) (parent x));
  gd_home : inside (nodes s) (vfs_root s) (vfs_home s);
  gd_cwd : inside (nodes s) (vfs_root s) (vfs_cwd s);
  gd_root : exists x, nodes s !! vfs_root s = Some x /\ is_link x = false
}.

Lemma good_evolves s T : good s -> evolves (nodes s) T -> good (set_nodes s T).
Proof.
  intros [H0 H1 H2 (x & Ex & Hl)] He. split; cbn [nodes set_nodes vfs_root vfs_home vfs_cwd]; [done | by eapply inside_evolves.. |]. destruct (He _ x Ex) as (y & Ey & F & _). exists y. split; [done|]. unfold is_link. by rewrite F.
Qed.

Definition finds_links : Prop := z2b (Z.land fl VFS_LOOKUP_FLAG_FIND_LINKS) = true.

(** The result [out] is owned by the caller. *)
Definition owned (s : vfs_t) (T : gmap Z vfs_node_t) (held : Z -> Z) (out : Z) : Prop :=
  out = 0 /\ inv T0 T held \/ (out = VFS_LOOKUP_LINK_FOUND /\ finds_links /\ inv T0 T held) \/ inside T (vfs_root s) out /\ inv T0 T (plus held out).

Definition rec_ok (rec : vfs_t -> Z -> list Z -> option (vfs_t * Z)) : Prop := forall s root path held, good s -> inv T0 (nodes s) held -> (forall m, 0 <= held m) -> root = 0 \/ inside (nodes s) (vfs_root s) root ->
  match rec s root path with
  | Some (s', out) => exists T, s' = set_nodes s T /\ evolves (nodes s) T /\ owned s T held out
  | None => True
  end.

Lemma plus_nonneg held n : (forall m, 0 <= held m) -> forall m, 0 <= plus held n m.
Proof. intros H m. unfold plus. specialize (H m). destruct (decide _); lia. Qed.

Lemma plus_swap held a b m : plus (plus held a) b m = plus (plus held b) a m.
Proof. unfold plus. lia. Qed.

Lemma inside_nonzero s T held n : inv T0 T held -> inside T s n -> n <> 0.
Proof. intros Hi Hin ->. destruct (iv_tree _ _ _ Hi) as [K HK]. destruct (inside_in _ _ _ Hin) as [x E]. by rewrite (to_null _ _ HK) in E. Qed.

Lemma follow_ok rec s H root : rec_ok rec -> good s -> (forall m, 0 <= H m) -> inside (nodes s) (vfs_root s) root -> inv T0 (nodes s) (plus H root) ->
  match follow ids fs_read_link fl uid gid rec s root with
  | None => wants_links fl = true
  | Some (s', Stop out) => exists T, s' = set_nodes s T /\ evolves (nodes s) T /\ inv T0 T (plus H root) /\ (out = 0 \/ out = VFS_LOOKUP_LINK_FOUND /\ finds_links)
  | Some (s', Go r) => exists T, s' = set_nodes s T /\ evolves (nodes s) T /\ inv T0 T (plus H r) /\ inside T (vfs_root s) r
  end.
Proof.
  intros Hrec Hg HH Hin Hi. assert (Hid : s = set_nodes s (nodes s)) by by destruct s. unfold follow. destruct (inside_in _ _ _ Hin) as [n En]. rewrite En. cbn [mbind option_bind].
  destruct (wants_links fl) eqn:Ewl; cbn [andb]; [| by exists (nodes s)]. destruct (is_link n) eqn:El; [| by exists (nodes s)].
  destruct (z2b (Z.land fl VFS_LOOKUP_FLAG_FIND_LINKS)) eqn:Efi; [exists (nodes s); split; [done|]; split; [done|]; split; [done|]; by right|]. destruct (readable ids fl uid gid n); cbn [negb]; [| exists (nodes s); split; [done|]; split; [done|]; split; [done|]; by left].
  destruct (bool_decide _); [exists (nodes s); split; [done|]; split; [done|]; split; [done|]; by left|].
  assert (Hp : parent n = 0 \/ inside (nodes s) (vfs_root s) (parent n)).
  { destruct (decide (root = vfs_root s)) as [-> | Hne]; [destruct (gd_root _ Hg) as (x & Ex & Hx); rewrite En in Ex; simplify_eq; congruence|]. right. by apply (inside_parent _ _ root n Hin Hne En). }
  pose proof (Hrec s (parent n) (fs_read_link s root) (plus H root) Hg Hi (plus_nonneg H root HH) Hp) as Hr. destruct (rec s (parent n) (fs_read_link s root)) as [[s1 new] |]; [| done]. cbn [mbind option_bind]. destruct Hr as (T & -> & He & Hown).
  destruct (Z.eqb_spec new 0) as [-> | Hnew].
  - exists T. split; [done|]. split; [done|]. split; [| by left]. destruct Hown as [[_ ?] | [(? & _) | [Hin0 Hi0]]]; [done | done |]. by destruct (inside_nonzero _ _ _ _ Hi0 Hin0).
  - destruct Hown as [[? _] | [(_ & Hfi & _) | [Hin1 Hi1]]]; [done | unfold finds_links in Hfi; congruence |].
    destruct (unref_ok T0 (set_nodes s T) (plus H new) root Hstay) as (T2 & -> & Hi2 & He2); [eapply inv_ext; [| exact Hi1]; intros m; apply plus_swap | by apply plus_nonneg | cbn; destruct (He root n En) as (? & ? & _); by eexists |].
    cbn [mbind option_bind]. exists T2. split; [done|]. cbn [nodes set_nodes] in He2. split; [by transitivity T|]. split; [done|]. by eapply inside_evolves.
Qed.

Lemma cleanup_ok s held base root out p : (forall m, 0 <= held m) -> inv T0 (nodes s) (plus (plus held base) root) -> is_Some (nodes s !! base) -> is_Some (nodes s !! root) ->
  exists T, cleanup s base root out p = Some (set_nodes s T, (out, p)) /\ inv T0 T held /\ evolves (nodes s) T.
Proof.
  intros HH Hi Hb [x Ex]. unfold cleanup. destruct (unref_ok T0 s (plus held root) base Hstay) as (T1 & -> & Hi1 & He1); [eapply inv_ext; [| exact Hi]; intros m; apply plus_swap | by apply plus_nonneg | done |]. cbn [mbind option_bind].
  destruct (unref_ok T0 (set_nodes s T1) held root Hstay) as (T2 & -> & Hi2 & He2); [done | done | cbn; destruct (He1 root x Ex) as (? & ? & _); by eexists |]. cbn [mbind option_bind]. exists T2. split; [done|]. split; [done|]. by transitivity T1.
Qed.

(** What the result of a walk promises. *)
Definition post (s : vfs_t) (held : Z -> Z) (r : vfs_t * (Z * (Z * list Z))) : Prop :=
  exists T, r.1 = set_nodes s T /\ evolves (nodes s) T /\ owned s T held r.2.1 /\ (r.2.2.1 = 0 \/ r.2.1 = 0 /\ inside T (vfs_root s) r.2.2.1).

Lemma post_evolves s T held r : evolves (nodes s) T -> post (set_nodes s T) held r -> post s held r.
Proof. intros He (T' & E & He' & Ho & Hp). exists T'. split; [done|]. split; [by transitivity T | done]. Qed.

Definition walks (walk : vfs_t -> Z -> Z -> list Z -> option (vfs_t * (Z * (Z * list Z)))) (bound : nat) : Prop := forall s root path held, good s -> (forall m, 0 <= held m) ->
  (root = 0 /\ inv T0 (nodes s) (plus held (vfs_root s)) \/ inside (nodes s) (vfs_root s) root /\ inv T0 (nodes s) (plus (plus held (vfs_root s)) root)) ->
  match walk s (vfs_root s) root path with Some r => post s held r | None => wants_links fl = true \/ (bound <= length path)%nat end.

Lemma begin_walk_ok walk bound s root path held : walks walk bound -> good s -> inv T0 (nodes s) held -> (forall m, 0 <= held m) -> root = 0 \/ inside (nodes s) (vfs_root s) root ->
  match begin_walk walk s root path with Some r => post s held r | None => wants_links fl = true \/ (bound <= length path)%nat end.
Proof.
  intros Hw Hg Hi HH Hr. unfold begin_walk. destruct (gd_root _ Hg) as (x & Ex & _). destruct (ref_ok T0 s held (vfs_root s) Hi) as (T1 & -> & Hi1 & He1); [by eexists|]. cbn [mbind option_bind]. pose proof (good_evolves _ _ Hg He1) as Hg1.
  destruct (start_of (set_nodes s T1) (vfs_root s) root path) as [r p] eqn:Es.
  assert (Hrp : inside T1 (vfs_root s) r /\ (length p <= length path)%nat).
  { assert (H0 : inside T1 (vfs_root s) (if root =? 0 then vfs_cwd s else root)) by (destruct (Z.eqb_spec root 0); [apply (gd_cwd _ Hg1) | destruct Hr; [done | by eapply inside_evolves]]). unfold start_of in Es. cbn [vfs_home vfs_cwd set_nodes] in Es. destruct path as [| c p']; [by simplify_eq|].
    destruct (c =? SLASH); [simplify_eq; split; [apply inside_here; destruct (He1 _ x Ex) as (? & ? & _); by eexists | cbn; lia]|]. destruct ((c =? TILDE) && _); simplify_eq; [split; [apply (gd_home _ Hg1) | cbn; lia] | done]. }
  destruct Hrp as [Hin Hlen]. destruct (ref_ok T0 (set_nodes s T1) (plus held (vfs_root s)) r Hi1) as (T2 & -> & Hi2 & He2); [by apply (inside_in T1 (vfs_root s))|]. cbn [mbind option_bind nodes set_nodes] in *.
  pose proof (Hw (set_nodes s T2) r p held) as Hres. cbn [nodes set_nodes vfs_root] in Hres. change (set_nodes (set_nodes s T1) T2) with (set_nodes s T2).
  assert (He : evolves (nodes s) T2) by by transitivity T1. specialize (Hres (good_evolves _ _ Hg He) HH (or_intror (conj (inside_evolves _ _ _ _ He2 Hin) Hi2))). destruct (walk (set_nodes s T2) (vfs_root s) r p) as [res |].
  - eapply post_evolves; [exact He | exact Hres].
  - destruct Hres as [? | ?]; [by left | right; lia].
Qed.

Lemma walk_rec_ok walk bound : walks walk bound -> rec_ok (fun s root path => '(s, (out, _)) ← begin_walk walk s root path; Some (s, out)).
Proof.
  intros Hw s root path held Hg Hi HH Hr. pose proof (begin_walk_ok walk bound s root path held Hw Hg Hi HH Hr) as Hres. destruct (begin_walk walk s root path) as [[s' [out p]] |]; [| done]. cbn [mbind option_bind]. destruct Hres as (T & E & He & Ho & _). by exists T.
Qed.

Lemma component_pos c p : c <> SLASH -> (1 <= component (c :: p))%nat.
Proof. intros Hc. cbn [component]. destruct (Z.eqb_spec c SLASH); [done | lia]. Qed.

(** The end of a walk at [root]. *)
Lemma walk_end_ok s held root p : good s -> (forall m, 0 <= held m) -> inside (nodes s) (vfs_root s) root -> inv T0 (nodes s) (plus (plus held (vfs_root s)) root) -> p.1 = 0 ->
  match (s' ← vfs_node_unref s (vfs_root s); Some (s', (root, p))) with Some r => post s held r | None => False end.
Proof.
  intros Hg HH Hin Hi Hp. destruct (gd_root _ Hg) as (x & Ex & _). destruct (unref_ok T0 s (plus held root) (vfs_root s) Hstay) as (T & -> & Hi' & He); [eapply inv_ext; [| exact Hi]; intros m; apply plus_swap | by apply plus_nonneg | by eexists |]. cbn.
  exists T. split; [done|]. split; [done|]. split; [right; right; split; [by eapply inside_evolves | done] | by left].
Qed.

(** A walk that is given up. *)
Lemma walk_stop_ok s held root out p : good s -> (forall m, 0 <= held m) -> inside (nodes s) (vfs_root s) root -> inv T0 (nodes s) (plus (plus held (vfs_root s)) root) -> out = 0 \/ out = VFS_LOOKUP_LINK_FOUND /\ finds_links -> p.1 = 0 \/ out = 0 /\ p.1 = root ->
  match cleanup s (vfs_root s) root out p with Some r => post s held r | None => False end.
Proof.
  intros Hg HH Hin Hi Ho Hp. destruct (gd_root _ Hg) as (x & Ex & _). destruct (cleanup_ok s held (vfs_root s) root out p HH Hi) as (T & -> & Hi' & He); [by eexists | by eapply inside_in|]. exists T. split; [done|]. split; [done|]. cbn [fst snd]. split.
  - destruct Ho as [-> | [-> Hf]]; [by left | right; by left].
  - destruct Hp as [? | [-> ->]]; [by left | right; split; [done | by eapply inside_evolves]].
Qed.

(** Going on after a step that changed the nodes. *)
Lemma walk_next wk bound s T held root p (path : list Z) : walks wk bound -> good s -> evolves (nodes s) T -> (forall m, 0 <= held m) ->
  (root = 0 /\ inv T0 T (plus held (vfs_root s)) \/ inside T (vfs_root s) root /\ inv T0 T (plus (plus held (vfs_root s)) root)) -> (length p < length path)%nat ->
  match wk (set_nodes s T) (vfs_root s) root p with Some r => post s held r | None => wants_links fl = true \/ (S bound <= length path)%nat end.
Proof.
  intros Hw Hg He HH Hr Hlen. pose proof (Hw (set_nodes s T) root p held (good_evolves _ _ Hg He) HH Hr) as Hres. cbn [vfs_root set_nodes] in Hres. destruct (wk (set_nodes s T) (vfs_root s) root p) as [r |]; [by eapply post_evolves | destruct Hres; [by left | right; lia]].
Qed.

Lemma strengthen {A} (o : option A) (P : A -> Prop) (Q : Prop) : match o with Some r => P r | None => False end -> match o with Some r => P r | None => Q end.
Proof. by destruct o. Qed.

Lemma walk_lookup_ok fuel want : walks (walk ids fs_lookup fs_read_link fl uid gid fuel want) fuel.
Proof.
  revert want. induction fuel as [| fuel IH]; intros want s root path held Hg HH Hr; cbn [walk]; [right; lia|]. destruct Hr as [[-> Hi] | [Hin Hi]].
  { change (0 =? 0) with true. cbn iota. destruct (gd_root _ Hg) as (x & Ex & _). destruct (unref_ok T0 s held (vfs_root s) Hstay Hi HH) as (T & -> & Hi' & He); [by eexists|]. cbn. exists T. split; [done|]. split; [done|]. split; [by left | by left]. }
  destruct (Z.eqb_spec root 0) as [-> | _]; [by destruct (inside_nonzero _ _ _ _ Hi Hin)|].
  pose proof (follow_ok _ s (plus held (vfs_root s)) root (walk_rec_ok _ fuel (IH false)) Hg (plus_nonneg _ _ HH) Hin Hi) as Hf. destruct (follow _ _ _ _ _ _ s root) as [[s1 [out | r]] |]; [| | by left]; cbn [mbind option_bind].
  { destruct Hf as (T & -> & He & Hi1 & Ho). apply strengthen. pose proof (walk_stop_ok (set_nodes s T) held root out (0, []) (good_evolves _ _ Hg He) HH (inside_evolves _ _ _ _ He Hin) Hi1 Ho (or_introl eq_refl)) as Hres. cbn [vfs_root set_nodes] in Hres. destruct (cleanup _ _ _ _ _); [by eapply post_evolves | done]. }
  destruct Hf as (T & -> & He & Hi1 & Hin1). clear root Hin Hi. pose proof (good_evolves _ _ Hg He) as Hg1. destruct path as [| c p].
  { apply strengthen. pose proof (walk_end_ok (set_nodes s T) held r (0, []) Hg1 HH Hin1 Hi1 eq_refl) as Hres. cbn [vfs_root set_nodes] in Hres. destruct (vfs_node_unref _ _); [cbn in *; by eapply post_evolves | done]. }
  assert (Hstop : forall q, q.1 = 0 \/ q.1 = r -> match cleanup (set_nodes s T) (vfs_root s) r 0 q with Some res => post s held res | None => wants_links fl = true \/ (S fuel <= length (c :: p))%nat end).
  { intros q Hq. apply strengthen. pose proof (walk_stop_ok (set_nodes s T) held r 0 q Hg1 HH Hin1 Hi1 (or_introl eq_refl)) as Hres. cbn [vfs_root set_nodes] in Hres. destruct (cleanup _ _ _ _ _); [eapply post_evolves; [exact He|]; apply Hres; destruct Hq; [by left | by right] | apply Hres; destruct Hq; [by left | by right]]. }
  destruct (Z.eqb_spec c SLASH) as [-> | Hc]; [apply (walk_next _ fuel); [apply IH | done | done | done | by right | cbn; lia]|]. pose proof (component_pos c p Hc) as Hcomp. set (i := component (c :: p)) in *.
  assert (Hlen : (length (drop i (c :: p)) < length (c :: p))%nat) by (rewrite length_drop; cbn [length]; lia).
  destruct (SMM_MAX_LENGTH <? Z.of_nat i); [apply Hstop; by left|]. destruct (bool_decide (take i (c :: p) = [DOT])); [apply (walk_next _ fuel); [apply IH | done | done | done | by right | done]|].
  destruct (inside_in _ _ _ Hin1) as [n En]. destruct (bool_decide (take i (c :: p) = [DOT; DOT])).
  - cbn [nodes set_nodes]. rewrite En. cbn [mbind option_bind]. destruct (negb (r =? vfs_root s) && z2b (parent n)) eqn:Eup; [| apply (walk_next _ fuel); [apply IH | done | done | done | by right | done]].
    apply andb_true_iff in Eup as [Hne%negb_true_iff _]. apply Z.eqb_neq in Hne. destruct (inside_parent _ _ r n Hin1 Hne En) as [_ Hinp]. destruct (ref_ok T0 (set_nodes s T) _ (parent n) Hi1 (inside_in _ _ _ Hinp)) as (T2 & -> & Hi2 & He2). cbn [mbind option_bind nodes set_nodes] in *.
    destruct (unref_ok T0 (set_nodes s T2) (plus (plus held (vfs_root s)) (parent n)) r Hstay) as (T3 & Eun & Hi3 & He3); [eapply inv_ext; [| exact Hi2]; intros m; apply plus_swap | by repeat apply plus_nonneg | cbn; destruct (He2 r n En) as (? & ? & _); by eexists |]. change (set_nodes (set_nodes s T) T2) with (set_nodes s T2). rewrite Eun. cbn [mbind option_bind nodes set_nodes] in *.
    assert (He' : evolves (nodes s) T3) by (transitivity T; [done|]; by transitivity T2). apply (walk_next _ fuel s T3); [apply IH | done | done | done | right; split; [| done] | done]. eapply inside_evolves; [exact He3|]. by eapply inside_evolves.
  - cbn [nodes set_nodes]. rewrite En. cbn [mbind option_bind]. destruct (readable ids fl uid gid n); cbn [negb]; [| apply Hstop; by left].
    destruct (node_lookup_ok T0 (set_nodes s T) _ r n (take i (c :: p)) Hi1 En) as (T2 & ch & -> & Hcase). cbn [mbind option_bind nodes set_nodes] in *. change (set_nodes (set_nodes s T) T2) with (set_nodes s T2). destruct Hcase as [[-> ->] | (Hch & Hi2 & He2 & y & Ey & Hy & _)].
    + change (0 =? 0) with true. cbn [andb]. destruct want; [apply Hstop; destruct (bool_decide _); [by right | by left]|]. destruct (Z.eqb_spec 0 (vfs_root s)) as [E0 | E0]; [apply Hstop; by left|].
      destruct (unref_ok T0 (set_nodes s T) (plus held (vfs_root s)) r Hstay Hi1) as (T3 & -> & Hi3 & He3); [by apply plus_nonneg | by eexists |]. cbn [mbind option_bind nodes set_nodes] in *. assert (He' : evolves (nodes s) T3) by by transitivity T. apply (walk_next _ fuel s T3); [apply IH | done | done | done | by left | done].
    + destruct (Z.eqb_spec ch 0); [done|]. cbn [andb]. assert (He12 : evolves (nodes s) T2) by by transitivity T. assert (Hin2 : inside T2 (vfs_root s) r) by exact (inside_evolves _ _ _ _ He2 Hin1). destruct (He2 r n En) as (n2 & En2 & _).
      destruct (Z.eqb_spec ch (vfs_root s)) as [-> | Hnb].
      * exfalso. destruct (gd_top _ Hg) as (x & Ex & Hx). destruct (iv_evolves _ _ _ Hi2 _ x Ex) as (x' & Ex' & _ & _ & F & _). assert (parent x = r) as Ep by congruence. assert (Hr0 : r <> 0) by by eapply (inside_nonzero _ _ _ _ Hi2). destruct (to_child _ _ Htree _ x Ex) as [Hrin _]; [congruence|].
        apply Hx; [congruence|]. rewrite Ep in *. eapply inside_back; [exact Htree | apply (iv_evolves _ _ _ Hi2) | done | done].
      * destruct (unref_ok T0 (set_nodes s T2) (plus (plus held (vfs_root s)) ch) r Hstay) as (T3 & -> & Hi3 & He3); [eapply inv_ext; [| exact Hi2]; intros m; apply plus_swap | by repeat apply plus_nonneg | by eexists |]. cbn [mbind option_bind nodes set_nodes] in *.
        assert (He' : evolves (nodes s) T3) by by transitivity T2. apply (walk_next _ fuel s T3); [apply IH | done | done | done | right; split; [| done] | done]. eapply inside_evolves; [exact He3|]. eapply inside_below; [exact Ey | | by rewrite Hy]. rewrite Hy. by eapply (inside_nonzero _ _ _ _ Hi2).
Qed.
End walk_spec.
End lookup_spec.

(** ** Confinement *)


(** *** Witness and defects *)

(** A root directory 10 with the link 11 ("l") in it. *)
Definition link_tree (a b : Z) : vfs_t := Vfs (<[10 := Node 2 a [] 0 0 0 11 0 0]> (<[11 := Node 3 b [0x6c] 10 0 0 0 0 0]> ∅)) 10 10 10.

Definition no_fs : vfs_t -> Z -> list Z -> option (Z * vfs_node_t) := fun _ _ _ => None.
Definition self_link : vfs_t -> Z -> list Z := fun _ _ => [0x6c].

Lemma link_tree_nodes a b n x : nodes (link_tree a b) !! n = Some x -> n = 10 /\ x = Node 2 a [] 0 0 0 11 0 0 \/ n = 11 /\ x = Node 3 b [0x6c] 10 0 0 0 0 0.
Proof. cbn [nodes link_tree]. intros [[<- <-] | [_ E]]%lookup_insert_Some; [by left|]. apply lookup_insert_Some in E as [[<- <-] | [_ E]]; [by right | by rewrite lookup_empty in E]. Qed.

Lemma link_tree_ok a b : tree_ok (nodes (link_tree a b)) (fun n => if decide (n = 10) then [11] else []).
Proof.
  split.
  - intros n x [[-> ->] | [-> ->]]%link_tree_nodes; cbn; [| done]. split; [done|]. split; [done|]. eexists. split; [reflexivity | done].
  - intros n x _. destruct (decide _); [apply NoDup_singleton | apply NoDup_nil_2].
  - intros n x m _ Hm. destruct (decide (n = 10)) as [-> |]; [apply list_elem_of_singleton in Hm as -> | by apply not_elem_of_nil in Hm]. eexists. split; [reflexivity | done].
  - intros m y [[-> ->] | [-> ->]]%link_tree_nodes; cbn; [done|]. intros _. split; [by eexists | by apply list_elem_of_singleton].
  - done.
Qed.

Lemma link_tree_good a b : good (nodes (link_tree a b)) (link_tree a b).
Proof.
  assert (H10 : inside (nodes (link_tree a b)) 10 10) by by apply inside_here; eexists. split; [eexists; split; [reflexivity | by cbn] | done | done | eexists; split; [reflexivity | done]].
Qed.


Lemma link_tree_ref a b : vfs_node_ref (link_tree a b) 10 = Some (link_tree (a + 1) b) /\ vfs_node_ref (link_tree a b) 11 = Some (link_tree a (b + 1)).
Proof.
  unfold vfs_node_ref, modify, link_tree. cbn [nodes]. rewrite lookup_insert_eq, lookup_insert_ne, lookup_insert_eq by done. cbn [mbind option_bind]. unfold set_nodes. cbn [vfs_root vfs_home vfs_cwd nodes]. split; [by rewrite insert_insert_eq|]. by rewrite (insert_insert_ne _ 11 10), insert_insert_eq by done.
Qed.

Lemma link_tree_unref a b : a <> 1 -> vfs_node_unref (link_tree a b) 10 = Some (link_tree (a - 1) b).
Proof.
  intros Ha. unfold vfs_node_unref. cbn [unref_loop]. unfold modify, link_tree. cbn [nodes]. rewrite lookup_insert_eq. cbn [mbind option_bind rc]. destruct (Z.eqb_spec (a - 1) 0); [lia|]. unfold set_nodes. cbn [vfs_root vfs_home vfs_cwd nodes]. by rewrite insert_insert_eq.
Qed.

Lemma link_tree_lookup a b : vfs_node_lookup no_fs (link_tree a b) 10 [0x6c] = Some (link_tree a (b + 1), 11).
Proof.
  unfold vfs_node_lookup. assert (E : nodes (link_tree a b) !! 10 = Some (Node 2 a [] 0 0 0 11 0 0)) by done. rewrite E. cbn [mbind option_bind child find_child]. change (11 =? 0) with false. cbn iota. assert (E' : nodes (link_tree a b) !! 11 = Some (Node 3 b [0x6c] 10 0 0 0 0 0)) by done. rewrite E'. cbn [mbind option_bind name].
  destruct (bool_decide_reflect ([0x6c] = [0x6c])); [| done]. cbn [mbind option_bind]. change (11 =? 0) with false. cbn [negb]. by rewrite (proj2 (link_tree_ref a b)).
Qed.

Lemma walk_link_loop fuel a b : 
  (2 <= a -> walk init_ids no_fs self_link 1 0 0 fuel false (link_tree a b) 10 10 [0x6c] = None) /\ (0 <= a -> walk init_ids no_fs self_link 1 0 0 fuel false (link_tree a b) 10 11 [] = None).
Proof.
  revert a b. induction fuel as [| fuel IH]; intros a b; [done|]. assert (E : nodes (link_tree a b) !! 10 = Some (Node 2 a [] 0 0 0 11 0 0)) by done. assert (E' : nodes (link_tree a b) !! 11 = Some (Node 3 b [0x6c] 10 0 0 0 0 0)) by done. split; intros Ha; cbn [walk]; unfold follow.
  - change (10 =? 0) with false. cbn iota. rewrite E. cbn [mbind option_bind]. change (wants_links 1 && is_link (Node 2 a [] 0 0 0 11 0 0)) with false. cbn iota. change (0x6c =? SLASH) with false. cbn iota.
    change (component [0x6c]) with 1%nat. change (SMM_MAX_LENGTH <? Z.of_nat 1) with false. cbn iota. change (take 1 [0x6c]) with [0x6c]. change (drop 1 [0x6c]) with (@nil Z). destruct (bool_decide_reflect ([0x6c] = [DOT])); [done|]. destruct (bool_decide_reflect ([0x6c] = [DOT; DOT])); [done|].
    rewrite ?E. cbn [mbind option_bind]. change (readable init_ids 1 0 0 (Node 2 a [] 0 0 0 11 0 0)) with true. cbn [negb]. rewrite link_tree_lookup. cbn [mbind option_bind]. change (11 =? 0) with false. cbn [andb]. change (11 =? 10) with false. cbn iota. rewrite link_tree_unref by lia. cbn [mbind option_bind]. apply IH. lia.
  - change (11 =? 0) with false. cbn iota. rewrite E'. cbn [mbind option_bind]. change (wants_links 1 && is_link (Node 3 b [0x6c] 10 0 0 0 0 0)) with true. cbn iota. change (z2b (Z.land 1 VFS_LOOKUP_FLAG_FIND_LINKS)) with false. cbn iota. change (readable init_ids 1 0 0 (Node 3 b [0x6c] 10 0 0 0 0 0)) with true. cbn [negb].
    change (self_link (link_tree a b) 11) with [0x6c]. destruct (bool_decide_reflect ([0x6c] = [])); [done|]. unfold begin_walk. change (vfs_root (link_tree a b)) with 10. rewrite (proj1 (link_tree_ref a b)). cbn [mbind option_bind]. change (start_of (link_tree (a + 1) b) 10 (parent (Node 3 b [0x6c] 10 0 0 0 0 0)) [0x6c]) with (10, [0x6c]). cbn iota.
    rewrite (proj1 (link_tree_ref (a + 1) b)). cbn [mbind option_bind]. by rewrite (proj1 (IH (a + 1 + 1) b)) by lia.
Qed.

(** A link to itself makes the lookup call itself without end: it has no result, with any number of steps. *)
Theorem link_loop_diverges fuel a b : 0 < a -> vfs_lookup init_ids no_fs self_link fuel (link_tree a b) 0 [SLASH; 0x6c] VFS_LOOKUP_FLAG_FOLLOW_LINKS 0 0 = None.
Proof.
  intros Ha. unfold vfs_lookup, vfs_lookup_for_creation. change (lookup_flags init_ids VFS_LOOKUP_FLAG_FOLLOW_LINKS 0 0) with 1. unfold begin_walk. change (vfs_root (link_tree a b)) with 10. rewrite (proj1 (link_tree_ref a b)). cbn [mbind option_bind]. change (start_of (link_tree (a + 1) b) 10 0 [SLASH; 0x6c]) with (10, [0x6c]). cbn iota.
  rewrite (proj1 (link_tree_ref (a + 1) b)). cbn [mbind option_bind]. by rewrite (proj1 (walk_link_loop fuel (a + 1 + 1) b)) by lia.
Qed.

(** Creating a file, as [_open] of [fd.c] does it: the missing node is made and attached, and the parent is released. *)
Definition create_missing (s : vfs_t) (path : list Z) (out : Z) : option vfs_t :=
  '(s, (_, (parent, nm))) ← vfs_lookup_for_creation init_ids no_fs self_link (S (length path)) s 0 path 0 0 0 true;
  let s := set_nodes s (<[out := Node 9 1 nm 0 0 0 0 0 0]> (nodes s)) in
  s ← vfs_node_attach_child s parent out;
  vfs_node_unref s parent.

(** The lookup gives the parent back before it returns it, so the caller releases a reference that it does not have: the directory loses one reference with each file that is created in it. *)
Theorem creation_drops_reference : exists s', create_missing (link_tree 5 1) [SLASH; 0x66] 12 = Some s' /\ outside (nodes (link_tree 5 1)) 10 = 4 /\ outside (nodes s') 10 = 3.
Proof. eexists. split; [vm_compute; reflexivity|]. split; vm_compute; reflexivity. Qed.
