(* ===== verification/VfsPath.v ===== *)
(** * The path of a node leads to the node
    [vfs_path] writes the names on the way up to the root; a lookup of these
    names comes down the same way. *)
From stdpp Require Import base tactics list numbers option gmap fin_maps.
From Stdlib Require Import ZArith Lia.
From S2P Require Import Prelude Id Vfs VfsSpec.
#[local] Open Scope Z_scope.

(** A name that is one component of a path, and no special one. *)
Definition good_name (nm : list Z) : Prop := nm <> [] /\ Forall (fun c => c <> SLASH) nm /\ Z.of_nat (length nm) <= SMM_MAX_LENGTH /\ nm <> [DOT] /\ nm <> [DOT; DOT].

(** The way down from [a]: each node with its name, which no other child of its parent has. *)
Fixpoint down (T : gmap Z vfs_node_t) (a : Z) (l : list (Z * list Z)) : Prop :=
  match l with
  | [] => True
  | (x, nm) :: l => good_name nm /\ (exists n, T !! x = Some n /\ parent n = a /\ name n = nm) /\ (forall m y, T !! m = Some y -> parent y = a -> name y = nm -> m = x) /\ down T x l
  end.

Definition path_of (l : list (Z * list Z)) : list Z := flat_map (fun e => SLASH :: e.2) l.
Definition last_of (a : Z) (l : list (Z * list Z)) : Z := List.last (map fst l) a.

Lemma last_of_cons a x nm l : last_of a ((x, nm) :: l) = last_of x l.
Proof. unfold last_of. cbn [map fst]. destruct l as [| e l]; [done|]. cbn [map]. revert e. induction l as [| e' l IH]; intros e; [done|]. cbn in *. apply IH. Qed.

Lemma last_of_snoc a l x nm : last_of a (l ++ [(x, nm)]) = x.
Proof. unfold last_of. rewrite map_app. apply List.last_last. Qed.

Lemma down_snoc T a l x nm : down T a (l ++ [(x, nm)]) -> down T a l /\ exists n, T !! x = Some n /\ parent n = last_of a l /\ name n = nm.
Proof.
  revert a. induction l as [| [y nm'] l IH]; intros a; cbn [app down].
  - intros (_ & H & _). by split.
  - intros (H1 & H2 & H3 & H4). destruct (IH y H4) as [H5 H6]. split; [done|]. by rewrite last_of_cons.
Qed.

(** The same nodes at the same places. *)
Lemma down_shape T T' a l : evolves T T' -> evolves T' T -> down T a l -> down T' a l.
Proof.
  intros He He'. revert a. induction l as [| [x nm] l IH]; intros a; cbn [down]; [done|]. intros (H1 & (n & E & Hp & Hn) & H3 & H4). split; [done|]. split; [| split; [| by apply IH]].
  - destruct (He x n E) as (n' & E' & _ & F2 & F3 & _). exists n'. split; [done|]. by rewrite F2, F3.
  - intros m y Ey Hy Hny. destruct (He' m y Ey) as (z & Ez & _ & F2 & F3 & _). apply (H3 m z Ez); congruence.
Qed.

(** ** Up *)

Lemma path_loop_ok fuel s base l i acc : down (nodes s) base l -> base <> 0 -> nodes s !! 0 = None -> Forall (fun e => e.1 <> base) l -> (length l < fuel)%nat -> Z.of_nat (length (path_of l)) < i ->
  path_loop fuel s base (last_of base l) i acc = Some (Some (path_of l ++ acc)).
Proof.
  revert fuel i acc. induction l as [| [x nm] l IH] using rev_ind; intros fuel i acc Hd Hb H0 Hne Hf Hi; (destruct fuel as [| fuel]; [lia|]); cbn [path_loop].
  - cbn [last_of map List.last path_of flat_map length] in *. rewrite Z.eqb_refl, orb_true_r. destruct (Z.eqb_spec i 0); [lia | done].
  - rewrite last_of_snoc. apply down_snoc in Hd as (Hd & n & En & Hp & Hn). apply Forall_app in Hne as [Hne Hx]. assert (Hx' : x <> base) by exact (Forall_inv Hx). destruct (Z.eqb_spec x 0) as [-> |]; [congruence|]. destruct (Z.eqb_spec x base); [congruence|]. cbn [orb]. rewrite En. cbn [mbind option_bind].
    unfold path_of in *. rewrite flat_map_app in *. cbn [flat_map snd] in *. rewrite app_nil_r in *. rewrite length_app in Hi. cbn [length] in Hi. rewrite length_app in Hf. cbn [length] in Hf. rewrite Hn. destruct (Z.ltb_spec i (Z.of_nat (length nm) + 1)); [lia|]. rewrite Hp, IH by (done || lia). by rewrite <- (assoc (++)).
Qed.

(** ** Down *)

Lemma component_name nm l : Forall (fun c => c <> SLASH) nm -> component (nm ++ path_of l) = length nm.
Proof.
  induction 1 as [| c nm Hc _ IH]; cbn [app].
  - destruct l as [| [x nm] l]; done.
  - cbn [component length]. destruct (Z.eqb_spec c SLASH); [done|]. by rewrite IH.
Qed.

Section down_spec.
Context (ids : ids) (fs_lookup : vfs_t -> Z -> list Z -> option (Z * vfs_node_t)) (fs_read_link : vfs_t -> Z -> list Z) (uid gid : Z) (T0 : gmap Z vfs_node_t) (Hstay : stay T0).

(** A child that is known is found. *)
Lemma lookup_cached held s root n x nm y : inv T0 (nodes s) held -> nodes s !! root = Some n -> root <> 0 -> nodes s !! x = Some y -> parent y = root -> name y = nm -> (forall m z, nodes s !! m = Some z -> parent z = root -> name z = nm -> m = x) ->
  vfs_node_lookup fs_lookup s root nm = Some (set_nodes s (<[x := set_rc (rc y + 1) y]> (nodes s)), x).
Proof.
  intros Hi En Hr Ex Hp Hn Hu. destruct (iv_tree _ _ _ Hi) as [K HK]. assert (Hin : forall m, m ∈ K root -> is_Some (nodes s !! m)) by (intros m Hm; destruct (to_parent _ _ HK root n m En Hm) as (z & Ez & _); by eexists).
  unfold vfs_node_lookup. rewrite En. cbn [mbind option_bind]. destruct (find_child_ok (S (size (nodes s))) s (child n) (K root) nm (to_list _ _ HK root n En)) as (o & -> & Ho); [pose proof (nodup_size (nodes s) (K root) (to_nodup _ _ HK root n En) Hin); lia|]. cbn [mbind option_bind].
  destruct Ho as [[-> Hno] | (Ho & Hin' & z & Ez & Hz)].
  - exfalso. destruct (to_child _ _ HK x y Ex) as [_ Hx]; [congruence|]. rewrite Hp in Hx. by apply (Hno x y Hx Ex).
  - destruct (to_parent _ _ HK root n o En Hin') as (z' & Ez' & Hpz). rewrite Ez in Ez'. simplify_eq. assert (o = x) as -> by by apply (Hu o z'). rewrite Ex in Ez. simplify_eq. destruct (Z.eqb_spec x 0); [done|]. cbn [negb]. unfold vfs_node_ref, modify. rewrite Ex. done.
Qed.

(** A slash is skipped. *)
Lemma walk_slash fuel s base root n p : root <> 0 -> nodes s !! root = Some n -> walk ids fs_lookup fs_read_link 0 uid gid (S fuel) false s base root (SLASH :: p) = walk ids fs_lookup fs_read_link 0 uid gid fuel false s base root p.
Proof. intros Hr En. cbn [walk]. destruct (Z.eqb_spec root 0); [done|]. unfold follow. by rewrite En. Qed.

Lemma walk_down fuel s held root l : good T0 s -> (forall m, 0 <= held m) -> inside (nodes s) (vfs_root s) root -> inv T0 (nodes s) (plus (plus held (vfs_root s)) root) -> down (nodes s) root l -> Forall (fun e => e.1 <> vfs_root s) l -> (length (path_of l) < fuel)%nat ->
  exists T, walk ids fs_lookup fs_read_link 0 uid gid fuel false s (vfs_root s) root (path_of l) = Some (set_nodes s T, (last_of root l, (0, []))).
Proof.
  revert fuel s root. induction l as [| [x nm] l IH]; intros fuel s root Hg HH Hin Hi Hd Hne Hf; (destruct fuel as [| fuel]; [lia|]); assert (Hr0 : root <> 0) by (by eapply (inside_nonzero T0)); destruct (inside_in _ _ _ Hin) as [n En].
  - cbn [walk]. destruct (Z.eqb_spec root 0); [done|]. unfold follow. rewrite En. cbn [mbind option_bind path_of flat_map]. change (wants_links 0) with false. cbn [andb mbind option_bind].
    destruct (gd_root _ _ Hg) as (b & Eb & _). destruct (unref_explicit T0 s (plus held root) (vfs_root s) b Hstay) as [-> _]; [eapply inv_ext; [| exact Hi]; intros m; apply plus_swap | by apply plus_nonneg | done |]. cbn. by eexists.
  - cbn [path_of flat_map snd app]. fold (path_of l). rewrite (walk_slash _ _ _ _ n) by done.
    cbn [down] in Hd. destruct Hd as ((N1 & N2 & N3 & N4 & N5) & (y & Ey & Hp & Hn) & Hu & Hd). cbn [path_of flat_map snd app] in Hf. fold (path_of l) in Hf. cbn [length] in Hf. rewrite length_app in Hf. destruct fuel as [| fuel]; [lia|]. cbn [walk]. destruct (Z.eqb_spec root 0); [done|]. unfold follow. rewrite En. cbn [mbind option_bind]. change (wants_links 0) with false. cbn [andb mbind option_bind].
    rewrite (component_name nm l N2), take_app_length, drop_app_length. destruct (nm ++ path_of l) as [| c q] eqn:Eq; [by destruct nm|]. assert (Hc : c <> SLASH) by (destruct nm as [| c' nm']; [done|]; injection Eq as -> _; exact (Forall_inv N2)). destruct (Z.eqb_spec c SLASH); [done|].
    destruct (Z.ltb_spec SMM_MAX_LENGTH (Z.of_nat (length nm))); [lia|]. destruct (bool_decide_reflect (nm = [DOT])); [done|]. destruct (bool_decide_reflect (nm = [DOT; DOT])); [done|]. rewrite ?En. cbn [mbind option_bind]. change (readable ids 0 uid gid n) with true. cbn [negb].
    rewrite (lookup_cached _ s root n x nm y Hi En Hr0 Ey Hp Hn Hu). cbn [mbind option_bind]. assert (Hx0 : x <> 0) by (intros ->; destruct (iv_tree _ _ _ Hi) as [K HK]; by rewrite (to_null _ _ HK) in Ey). destruct (Z.eqb_spec x 0); [done|]. cbn [andb]. apply Forall_cons in Hne as [Hxb Hne]. cbn in Hxb. destruct (Z.eqb_spec x (vfs_root s)); [done|].
    set (T1 := <[x := set_rc (rc y + 1) y]> (nodes s)). assert (Hi1 : inv T0 T1 (plus (plus (plus held (vfs_root s)) root) x)) by (eapply inv_ext; [| apply (set_rc_inv T0 (nodes s) _ x y (rc y + 1) Hi Ey)]; intros m; unfold plus; destruct (decide (m = x)); lia).
    destruct (evolves_set_rc (nodes s) x y (rc y + 1) Ey) as [He1 He1']. fold T1 in He1, He1'. destruct (He1 root n En) as (nr & En1 & _). destruct (unref_explicit T0 (set_nodes s T1) (plus (plus held (vfs_root s)) x) root nr Hstay) as [-> Hi2]; [eapply inv_ext; [| exact Hi1]; intros m; apply plus_swap | by repeat apply plus_nonneg | done |].
    cbn [mbind option_bind nodes set_nodes] in *. destruct (evolves_set_rc T1 root nr (rc nr - 1) En1) as [He2 He2']. set (T2 := <[root := set_rc (rc nr - 1) nr]> T1) in *. assert (He : evolves (nodes s) T2) by by transitivity T1. assert (He' : evolves T2 (nodes s)) by by transitivity T1.
    assert (Hnm : (1 <= length nm)%nat) by (destruct nm; [done | cbn; lia]). destruct (IH fuel (set_nodes s T2) x) as [T3 E3]; [by apply good_evolves | done | | done | by eapply down_shape | done | lia |].
    { cbn [nodes set_nodes vfs_root]. destruct (He x y Ey) as (y2 & Ey2 & _ & _ & F & _). eapply inside_below; [exact Ey2 | congruence |]. rewrite F, Hp. by eapply inside_evolves. }
    cbn [vfs_root set_nodes] in E3. rewrite last_of_cons. exists T3. exact E3.
Qed.
End down_spec.

(** C20: The path that [vfs_path] writes for a node leads a lookup back to that node, for every node below the root of the process whose name and whose parents' names are proper components that no sibling has; a buffer longer than the path is enough. *)
Theorem vfs_path_roundtrip ids fs_lookup fs_read_link s K l uid gid buffer_length : tree_ok (nodes s) K -> stay (nodes s) -> good (nodes s) s -> down (nodes s) (vfs_root s) l -> NoDup (map fst l) -> Forall (fun e => e.1 <> vfs_root s) l -> Z.of_nat (length (path_of l)) + 1 < buffer_length ->
  exists p s', vfs_path s (last_of (vfs_root s) l) buffer_length = Some (Some p) /\ p = (if decide (l = []) then [SLASH] else path_of l) /\ vfs_lookup ids fs_lookup fs_read_link (S (length p)) s 0 p 0 uid gid = Some (s', last_of (vfs_root s) l).
Proof.
  intros HK Hst Hg Hd Hn Hne Hb. destruct (gd_root _ _ Hg) as (r & Er & _). assert (Hr0 : vfs_root s <> 0) by (intros E; rewrite E in Er; by rewrite (to_null _ _ HK) in Er).
  assert (Hsz : (length l <= size (nodes s))%nat).
  { rewrite <- (length_map fst l). apply nodup_size; [done|]. clear -Hd. revert Hd. generalize (vfs_root s). induction l as [| [x nm] l IH]; intros a Hd m; [by intros ?%not_elem_of_nil|]. cbn [map fst down] in *. destruct Hd as (_ & (n & E & _) & _ & Hd). intros [-> | Hm]%elem_of_cons; [by eexists | by apply (IH x Hd)]. }
  assert (Hup : vfs_path s (last_of (vfs_root s) l) buffer_length = Some (Some (if decide (l = []) then [SLASH] else path_of l))).
  { unfold vfs_path. rewrite (path_loop_ok _ s (vfs_root s) l buffer_length [] Hd Hr0 (to_null _ _ HK) Hne) by lia. cbn [mbind option_bind]. rewrite app_nil_r. destruct (decide (l = [])) as [-> | Hl]; [done|]. destruct l as [| [x nm] l]; done. }
  assert (Hdown : exists q T, (if decide (l = []) then [SLASH] else path_of l) = SLASH :: q /\ begin_walk (walk ids fs_lookup fs_read_link 0 uid gid (S (S (length q))) false) s 0 (SLASH :: q) = Some (set_nodes s T, (last_of (vfs_root s) l, (0, [])))).
  { pose proof (inv_start _ K HK Hst) as Hi. destruct (evolves_set_rc (nodes s) (vfs_root s) r (rc r + 1) Er) as [He1 He1']. unfold begin_walk, vfs_node_ref, modify. rewrite Er. cbn [mbind option_bind]. set (T1 := <[vfs_root s := set_rc (rc r + 1) r]> (nodes s)) in *.
    assert (Er1 : T1 !! vfs_root s = Some (set_rc (rc r + 1) r)) by (unfold T1; by rewrite lookup_insert_eq).
    destruct (evolves_set_rc T1 (vfs_root s) _ (rc r + 1 + 1) Er1) as [He2 He2']. set (T2 := <[vfs_root s := set_rc (rc r + 1 + 1) (set_rc (rc r + 1) r)]> T1) in *. assert (He : evolves (nodes s) T2) by by transitivity T1. assert (He' : evolves T2 (nodes s)) by by transitivity T1.
    assert (Hi2 : inv (nodes s) T2 (plus (plus (fun _ => 0) (vfs_root s)) (vfs_root s))).
    { pose proof (set_rc_inv (nodes s) (nodes s) _ (vfs_root s) r (rc r + 1) Hi Er) as Hi1. pose proof (set_rc_inv (nodes s) T1 _ (vfs_root s) _ (rc r + 1 + 1) Hi1 Er1) as Hi2. eapply inv_ext; [| exact Hi2]. intros m. unfold plus. cbn [rc set_rc]. destruct (decide (m = vfs_root s)); lia. }
    assert (Hwalk : forall fuel, (length (path_of l) < fuel)%nat -> exists T, walk ids fs_lookup fs_read_link 0 uid gid fuel false (set_nodes s T2) (vfs_root s) (vfs_root s) (path_of l) = Some (set_nodes s T, (last_of (vfs_root s) l, (0, [])))).
    { intros fuel Hfuel. apply (walk_down ids fs_lookup fs_read_link uid gid (nodes s) Hst fuel (set_nodes s T2) (fun _ => 0)); [by apply good_evolves | done | apply inside_here; eexists; unfold T2; cbn; by rewrite lookup_insert_eq | done | by eapply down_shape | done | done]. }
    destruct l as [| [x nm] l'].
    - destruct (decide ([] = [])); [| done]. destruct (Hwalk 2%nat) as [T E]; [cbn; lia|]. exists [], T. split; [done|]. cbn [start_of]. change (SLASH =? SLASH) with true. cbn iota. cbn [nodes set_nodes]. rewrite Er1. exact E.
    - destruct (decide (_ = [])); [done|]. cbn [path_of flat_map snd app]. fold (path_of l'). destruct (Hwalk (S (S (S (length (nm ++ path_of l')))))) as [T E]; [cbn [path_of flat_map snd app length]; fold (path_of l'); lia|]. exists (nm ++ path_of l'), T. split; [done|]. cbn [start_of]. change (SLASH =? SLASH) with true. cbn iota. cbn [nodes set_nodes]. rewrite Er1. cbn [mbind option_bind rc set_rc].
      cbn [path_of flat_map snd app] in E. fold (path_of l') in E. rewrite (walk_slash _ _ _ _ _ _ _ _ _ (set_rc (rc r + 1 + 1) (set_rc (rc r + 1) r))) in E; [exact E | done | unfold T2; cbn; by rewrite lookup_insert_eq]. }
  destruct Hdown as (q & T & Eq & Ew). eexists _, (set_nodes s T). split; [exact Hup|]. split; [done|]. rewrite Eq. cbn [length]. unfold vfs_lookup, vfs_lookup_for_creation. change (lookup_flags ids 0 uid gid) with 0. by rewrite Ew.
Qed.

(** *** Witness *)

Lemma link_tree_down : down (nodes (link_tree 5 1)) 10 [(11, [0x6c])].
Proof.
  cbn [down]. split; [split_and!; [done | by apply Forall_singleton | done | done | done]|]. split; [eexists; split; [reflexivity | done]|]. split; [| done]. intros m y Hy Hp Hn. by destruct (link_tree_nodes _ _ m y Hy) as [[-> ->] | [-> ->]].
Qed.

Lemma vfs_path_roundtrip_witness : exists p s', vfs_path (link_tree 5 1) 11 64 = Some (Some p) /\ p = [SLASH; 0x6c] /\ vfs_lookup init_ids no_fs self_link (S (length p)) (link_tree 5 1) 0 p 0 0 0 = Some (s', 11).
Proof.
  destruct (vfs_path_roundtrip init_ids no_fs self_link (link_tree 5 1) (fun n => if decide (n = 10) then [11] else []) [(11, [0x6c])] 0 0 64) as (p & s' & H1 & H2 & H3); [apply link_tree_ok | | apply link_tree_good | apply link_tree_down | apply NoDup_singleton | apply Forall_singleton; discriminate | cbn; lia | exists p, s'; split; [exact H1 | split; [exact H2 | exact H3]]].
  intros n x Hn. destruct (link_tree_nodes _ _ n x Hn) as [[-> ->] | [-> ->]]; (split; [reflexivity|]); intros Hp; right; vm_compute; discriminate.
Defined.
