(* ===== verification/VfsLock.v ===== *)
(** * Locks of files ([src/src/kernel/vfs/lock.c]).

    A node may be locked for a thread, a process or a process group, named by a
    handle.  The lock ends with its handle, which is looked up in the handles
    of [Handle.v].  Callers are given by the handles of the thread, of its
    process and of its process group; the types of these handles are arguments
    (they are numbered when the kernel starts).  [None] is a bad access inside
    of the handles; the spin lock around the operations is [Locks.v]'s. *)
From stdpp Require Import base tactics list numbers gmap fin_maps.
From Stdlib Require Import ZArith Lia.
From S2P Require Import Prelude Acl Handle.
#[local] Open Scope Z_scope.

Inductive lock_type := VFS_NODE_LOCK_TYPE_NONE | VFS_NODE_LOCK_TYPE_PROCESS_GROUP | VFS_NODE_LOCK_TYPE_PROCESS | VFS_NODE_LOCK_TYPE_THREAD | VFS_NODE_LOCK_TYPE_INVALID.

#[export] Instance lock_type_eq_dec : EqDecision lock_type.
Proof. solve_decision. Defined.

Record vfs_node_lock_t := Lock { type : lock_type; handle : Z }.

(** A thread with its process and its process group; [is_kernel]: the process is [process_kernel]. *)
Record caller := Caller { thread : Z; process : Z; process_group : Z; is_kernel : bool }.

Definition vfs_lock_init : vfs_node_lock_t := Lock VFS_NODE_LOCK_TYPE_NONE 0.

Definition held_by (l : vfs_node_lock_t) (t : lock_type) (h : Z) : bool := bool_decide (type l = t) && (handle l =? h).

Definition _check_process_group (l : vfs_node_lock_t) (c : caller) : bool :=
  bool_decide (type l = VFS_NODE_LOCK_TYPE_NONE) || held_by l VFS_NODE_LOCK_TYPE_PROCESS_GROUP (process_group c).

Definition _check_process (l : vfs_node_lock_t) (c : caller) : bool :=
  bool_decide (type l = VFS_NODE_LOCK_TYPE_NONE) || held_by l VFS_NODE_LOCK_TYPE_PROCESS_GROUP (process_group c)
  || held_by l VFS_NODE_LOCK_TYPE_PROCESS (process c) || is_kernel c.

Definition _check_thread (l : vfs_node_lock_t) (c : caller) : bool :=
  bool_decide (type l = VFS_NODE_LOCK_TYPE_NONE) || held_by l VFS_NODE_LOCK_TYPE_PROCESS_GROUP (process_group c)
  || held_by l VFS_NODE_LOCK_TYPE_PROCESS (process c) || held_by l VFS_NODE_LOCK_TYPE_THREAD (thread c) || is_kernel c.

Definition _unlock_if_handle_closed (s : handles) (l : vfs_node_lock_t) : option (handles * vfs_node_lock_t) :=
  if handle l =? 0 then Some (s, l)
  else
    '(s, found) ← handle_lookup_and_acquire s (handle l) HANDLE_TYPE_ANY;
    if found : bool then '(s, _) ← handle_release s (handle l); Some (s, l)
    else Some (s, Lock VFS_NODE_LOCK_TYPE_NONE 0).

Section locks.
Context (thread_handle_type process_handle_type process_group_handle_type : Z).

Definition _get_type_from_handle (h : Z) : lock_type :=
  if h =? 0 then VFS_NODE_LOCK_TYPE_NONE
  else if HANDLE_ID_GET_TYPE h =? thread_handle_type then VFS_NODE_LOCK_TYPE_THREAD
  else if HANDLE_ID_GET_TYPE h =? process_handle_type then VFS_NODE_LOCK_TYPE_PROCESS
  else if HANDLE_ID_GET_TYPE h =? process_group_handle_type then VFS_NODE_LOCK_TYPE_PROCESS_GROUP
  else VFS_NODE_LOCK_TYPE_INVALID.

(** The common bodies of the three ways to test and to lock: [check] is the test of the caller. *)
Definition verify_with (check : vfs_node_lock_t -> bool) (s : handles) (l : vfs_node_lock_t) : option (handles * (vfs_node_lock_t * bool)) :=
  '(s, l) ← _unlock_if_handle_closed s l; Some (s, (l, check l)).

Definition lock_with (check : vfs_node_lock_t -> bool) (s : handles) (l : vfs_node_lock_t) (h : Z) : option (handles * (vfs_node_lock_t * bool)) :=
  let t := _get_type_from_handle h in
  if decide (t = VFS_NODE_LOCK_TYPE_INVALID) then Some (s, (l, false))
  else '(s, l) ← _unlock_if_handle_closed s l; Some (s, if check l then (Lock t h, true) else (l, false)).

Definition vfs_lock_verify_process_group s l c := verify_with (fun l => _check_process_group l c) s l.
Definition vfs_lock_verify_process s l c := verify_with (fun l => _check_process l c) s l.
Definition vfs_lock_verify_thread s l c := verify_with (fun l => _check_thread l c) s l.

Definition vfs_lock_lock_process_group s l c h := lock_with (fun l => _check_process_group l c) s l h.
Definition vfs_lock_lock_process s l c h := lock_with (fun l => _check_process l c) s l h.
Definition vfs_lock_lock_thread s l c h := lock_with (fun l => _check_thread l c) s l h.

(** ** Who may use a file *)

(** The type of a lock is that of its handle. *)
Definition lock_ok (l : vfs_node_lock_t) : Prop := type l = _get_type_from_handle (handle l) /\ type l <> VFS_NODE_LOCK_TYPE_INVALID.

(** The process group, process or thread belongs to the object of the handle. *)
Definition group_of (c : caller) (h : Z) : Prop := _get_type_from_handle h = VFS_NODE_LOCK_TYPE_PROCESS_GROUP /\ h = process_group c.
Definition process_of (c : caller) (h : Z) : Prop := group_of c h \/ _get_type_from_handle h = VFS_NODE_LOCK_TYPE_PROCESS /\ h = process c \/ is_kernel c = true.
Definition thread_of (c : caller) (h : Z) : Prop := process_of c h \/ _get_type_from_handle h = VFS_NODE_LOCK_TYPE_THREAD /\ h = thread c.

(** The object of the lock exists. *)
Definition in_force (s : handles) (l : vfs_node_lock_t) : Prop := handle l <> 0 /\ is_Some (lookup_handle s (handle l)).

(** [verify] and [lock] let exactly the callers [who] at a locked file. *)
Definition exclusive (s : handles) (l : vfs_node_lock_t) (who : Z -> Prop) (verify : option (handles * (vfs_node_lock_t * bool))) (lock : Z -> option (handles * (vfs_node_lock_t * bool))) : Prop :=
  (exists l' ok, verify = Some (s, (l', ok)) /\ lock_ok l' /\ (in_force s l -> l' = l) /\ (~ in_force s l -> type l' = VFS_NODE_LOCK_TYPE_NONE)
     /\ (ok = true <-> ~ in_force s l \/ who (handle l))) /\
  forall h, exists l' ok, lock h = Some (s, (l', ok)) /\ lock_ok l' /\
     (ok = true <-> _get_type_from_handle h <> VFS_NODE_LOCK_TYPE_INVALID /\ (~ in_force s l \/ who (handle l))) /\
     (ok = true -> handle l' = h) /\ (ok = false -> l' = l).

Lemma lookup_release s id h : lookup_handle s id = Some h -> 0 < rc h -> rc h + 1 < 2 ^ 64 ->
  exists s1, handle_lookup_and_acquire s id HANDLE_TYPE_ANY = Some (s1, true) /\ handle_release s1 id = Some (s, true).
Proof.
  intros Hl H0 H1. unfold handle_lookup_and_acquire, handle_get_descriptor. destruct (lookup_handle_Some _ _ _ Hl) as (d & Hd & Ht). rewrite Hd, Ht. cbn.
  rewrite (acquire_ok _ _ _ Hl) by lia. cbn [mbind option_bind]. eexists. split; [done|]. assert (Hs := lookup_store_eq s id (mk_handle (rc h + 1) (acl h)) h Hl). rewrite (release_more _ _ _ Hs) by (cbn [rc]; lia). cbn [rc acl]. f_equal. f_equal. replace (rc h + 1 - 1) with (rc h) by lia.
  unfold store_handle, handle_get_descriptor, set_types in *. rewrite Hd. cbn. rewrite lookup_insert_eq. cbn. rewrite !insert_insert_eq. destruct h as [r a]. cbn. 
  rewrite (insert_id (d_tree d) id {| rc := r; acl := a |} Ht).
  destruct s, d; cbn in *. f_equal. by apply insert_id.
Qed.

Lemma in_force_dec s l : in_force s l \/ ~ in_force s l.
Proof. unfold in_force. destruct (Z.eq_dec (handle l) 0); [right; by intros [? _]|]. destruct (lookup_handle s (handle l)); [left; by eauto | right; intros [_ [? ?]]; done]. Qed.

Lemma unlock_ok s l : handles_wf s -> (forall h, lookup_handle s (handle l) = Some h -> rc h + 1 < 2 ^ 64) -> lock_ok l ->
  exists l', _unlock_if_handle_closed s l = Some (s, l') /\ lock_ok l' /\ (in_force s l -> l' = l) /\ (~ in_force s l -> type l' = VFS_NODE_LOCK_TYPE_NONE).
Proof.
  intros Hw Hrc Hl. unfold _unlock_if_handle_closed, in_force. destruct (Z.eqb_spec (handle l) 0) as [E | E].
  - exists l. split; [done|]. split; [done|]. split; [done|]. intros _. destruct Hl as [-> _]. unfold _get_type_from_handle. by rewrite E.
  - destruct (lookup_handle s (handle l)) as [h |] eqn:El.
    + destruct (lookup_handle_Some _ _ _ El) as (d & Hd & Ht). destruct (wf_ids _ _ (proj2 (Hw _ _ Hd)) _ _ Ht) as (_ & _ & H0).
      destruct (lookup_release s _ h El) as (s1 & -> & Hr); [lia | by apply Hrc |]. cbn [mbind option_bind]. rewrite Hr. cbn [mbind option_bind]. exists l. split; [done|]. split; [done|]. split; [done|]. intros H. destruct H. split; [done | by eexists].
    + rewrite lookup_gone by done. eexists. split; [reflexivity|]. split; [done|]. split; [by intros [_ [? ?]] | done].
Qed.

Lemma in_force_typed s l : lock_ok l -> in_force s l -> type l <> VFS_NODE_LOCK_TYPE_NONE.
Proof. intros [-> _] [H0 _]. unfold _get_type_from_handle. rewrite (proj2 (Z.eqb_neq _ _) H0). by repeat case_match. Qed.

(** An operation whose test is right excludes. *)
Lemma exclusive_of s l who check : handles_wf s -> (forall h, lookup_handle s (handle l) = Some h -> rc h + 1 < 2 ^ 64) -> lock_ok l ->
  (forall l, lock_ok l -> check l = true <-> type l = VFS_NODE_LOCK_TYPE_NONE \/ who (handle l)) -> exclusive s l who (verify_with check s l) (lock_with check s l).
Proof.
  intros Hw Hrc Hl Hck. unfold verify_with, lock_with. destruct (unlock_ok s l Hw Hrc Hl) as (l' & -> & Hl' & Hin & Hout). cbn [mbind option_bind].
  assert (Hok : check l' = true <-> ~ in_force s l \/ who (handle l)).
  { rewrite Hck by done. destruct (in_force_dec s l) as [Hf | Hf]; [| by pose proof (Hout Hf); tauto]. rewrite (Hin Hf). pose proof (in_force_typed s l Hl Hf). tauto. }
  split; [by exists l', (check l')|]. intros h. destruct (decide _) as [Ei | Ei]; [exists l, false; split; [done|]; split; [done|]; split; [split; [done | by intros []] | done]|]. destruct (check l') eqn:Ec.
  - exists (Lock (_get_type_from_handle h) h), true. split; [done|]. split; [done|]. split; [tauto | done].
  - exists l', false. split; [done|]. split; [done|]. split; [intuition congruence|]. split; [done|]. intros _. apply Hin. destruct (in_force_dec s l) as [? | Hf]; [done|]. discriminate (proj2 Hok (or_introl Hf)).
Qed.

Lemma held_by_spec l t h : held_by l t h = true <-> type l = t /\ handle l = h.
Proof. unfold held_by. by rewrite andb_true_iff, bool_decide_eq_true, Z.eqb_eq. Qed.
End locks.

#[local] Ltac check_spec := intros l' [Hl' Hi']; unfold _check_process_group, _check_process, _check_thread, thread_of, process_of, group_of; rewrite <- Hl', ?orb_true_iff, ?held_by_spec, bool_decide_eq_true; intuition congruence.


