(* ===== verification/Notification.v ===== *)
(** * Notifications ([src/src/kernel/notification/notification.c]).

    A dispatcher keeps the notifications in a linked list behind an empty
    container; each consumer points at the container it read last, and a
    container counts the consumers that point at it.  Addresses of new
    containers and consumers are arguments (the allocator's answers).  The
    operations are atomic under the locks of the code; the event of a consumer
    is its [active] flag, on which a reader waits.  The counts are not bounded:
    2^64 consumers are not modelled.  [None] is an access through a bad
    pointer. *)
From stdpp Require Import base tactics list numbers option gmap.
From Stdlib Require Import ZArith Lia.
From S2P Require Import Prelude.
#[local] Open Scope Z_scope.

(** ** The code *)

(** The length is that of the data. *)
Record notification_t := Notification { type : Z; data : list Z }.

Record notification_container_t := Container { next : Z; content : notification_t; rc : Z }.

Record notification_consumer_t := Consumer { prev_consumer : Z; next_consumer : Z; last_read : Z; active : bool }.

Record notification_dispatcher_t := Dispatcher {
  containers : gmap Z notification_container_t;
  consumers : gmap Z notification_consumer_t;
  head : Z;
  tail : Z;
  consumer_head : Z
}.

Definition set_containers (s : notification_dispatcher_t) (T : gmap Z notification_container_t) : notification_dispatcher_t := Dispatcher T (consumers s) (head s) (tail s) (consumer_head s).
Definition set_consumers (s : notification_dispatcher_t) (C : gmap Z notification_consumer_t) : notification_dispatcher_t := Dispatcher (containers s) C (head s) (tail s) (consumer_head s).

Definition set_next (x : Z) (c : notification_container_t) : notification_container_t := Container x (content c) (rc c).
Definition add_rc (x : Z) (c : notification_container_t) : notification_container_t := Container (next c) (content c) (rc c + x).
Definition set_active (b : bool) (k : notification_consumer_t) : notification_consumer_t := Consumer (prev_consumer k) (next_consumer k) (last_read k) b.
Definition set_last (x : Z) (k : notification_consumer_t) : notification_consumer_t := Consumer (prev_consumer k) (next_consumer k) x (active k).
Definition set_prev_consumer (x : Z) (k : notification_consumer_t) : notification_consumer_t := Consumer x (next_consumer k) (last_read k) (active k).

Definition change {A} (f : A -> A) (a : Z) (T : gmap Z A) : option (gmap Z A) := x ← T !! a; Some (<[a := f x]> T).

Definition notification_dispatcher_create (container : Z) : notification_dispatcher_t :=
  Dispatcher {[container := Container 0 (Notification 0 []) 0]} ∅ container container 0.

(** The events of all consumers are dispatched. *)
Fixpoint dispatch_events (fuel : nat) (C : gmap Z notification_consumer_t) (k : Z) : option (gmap Z notification_consumer_t) :=
  match fuel with
  | O => None
  | S fuel =>
    if k =? 0 then Some C
    else x ← C !! k; dispatch_events fuel (<[k := set_active true x]> C) (next_consumer x)
  end.

Definition notification_dispatcher_dispatch (s : notification_dispatcher_t) (container : Z) (n : notification_t) : option notification_dispatcher_t :=
  let T := <[container := Container 0 n 0]> (containers s) in
  T ← change (set_next container) (tail s) T;
  C ← dispatch_events (S (size (consumers s))) (consumers s) (consumer_head s);
  Some (Dispatcher T C (head s) container (consumer_head s)).

Definition notification_consumer_create (s : notification_dispatcher_t) (consumer : Z) : option notification_dispatcher_t :=
  T ← change (add_rc 1) (head s) (containers s);
  let C := <[consumer := Consumer 0 (consumer_head s) (head s) false]> (consumers s) in
  C ← (if negb (consumer_head s =? 0) then change (set_prev_consumer consumer) (consumer_head s) C else Some C);
  Some (Dispatcher T C (head s) (tail s) consumer).

(** The loop that releases what nobody reads any more. *)
Fixpoint free_loop (fuel : nat) (T : gmap Z notification_container_t) (head : Z) : option (gmap Z notification_container_t) :=
  match fuel with
  | O => None
  | S fuel =>
    h ← T !! head;
    if next h =? 0 then Some T
    else
      n ← T !! next h;
      if negb (rc n =? 0) then Some T
      else free_loop fuel (delete (next h) (<[head := set_next (next n) h]> T)) head
  end.

(** [Waits]: the thread waits for the event; [Spins]: the event is active and there is nothing to read. *)
Inductive get_result := Got (n : notification_t) | Empty | Waits | Spins.

Definition notification_consumer_get (s : notification_dispatcher_t) (consumer : Z) (wait : bool) : option (notification_dispatcher_t * get_result) :=
  k ← consumers s !! consumer;
  let last_container := last_read k in
  l ← containers s !! last_container;
  if next l =? 0 then Some (s, if wait then if active k then Spins else Waits else Empty)
  else
    T ← change (add_rc 1) (next l) (containers s);
    n ← T !! next l;
    T ← change (add_rc (-1)) last_container T;
    let C := <[consumer := (if next n =? 0 then set_active false else id) (set_last (next l) k)]> (consumers s) in
    l ← T !! last_container;
    T ← (if negb (rc l =? 0) then Some T else free_loop (S (size T)) T (head s));
    Some (Dispatcher T C (head s) (tail s) (consumer_head s), Got (content n)).
