(* ===== verification/NotificationSpec.v ===== *)
(** * What notifications promise
    Each consumer has the list of the notifications it has not read; sending
    appends to all of them, reading takes the first one. *)
From stdpp Require Import base tactics list numbers option gmap fin_maps.
From Stdlib Require Import ZArith Lia.
From S2P Require Import Prelude Notification.
#[local] Open Scope Z_scope.

(** ** The invariant *)

(** The containers from [a] on. *)
Fixpoint chain (T : gmap Z notification_container_t) (a : Z) (l : list Z) : Prop :=
  match l with
  | [] => a = 0
  | m :: l => a = m /\ m <> 0 /\ exists x, T !! m = Some x /\ chain T (next x) l
  end.

(** The consumers from [a] on. *)
Fixpoint readers (C : gmap Z notification_consumer_t) (a : Z) (l : list Z) : Prop :=
  match l with
  | [] => a = 0
  | m :: l => a = m /\ m <> 0 /\ exists x, C !! m = Some x /\ readers C (next_consumer x) l
  end.

(** Where a consumer stands. *)
Definition at_ (C : gmap Z notification_consumer_t) (k : Z) : Z := default 0 (last_read <$> C !! k).

(** How many of the consumers stand at [m]. *)
Fixpoint count (f : Z -> Z) (ks : list Z) (m : Z) : Z :=
  match ks with
  | [] => 0
  | k :: ks => (if decide (f k = m) then 1 else 0) + count f ks m
  end.

(** What follows [m]. *)
Fixpoint after (m : Z) (l : list Z) : list Z :=
  match l with
  | [] => []
  | x :: l => if decide (x = m) then l else after m l
  end.

(** The notifications that the consumer [k] has not read, when [cs] are the containers. *)
Definition contents (T : gmap Z notification_container_t) (l : list Z) : list notification_t := omap (fun m => content <$> T !! m) l.
Definition pending (s : notification_dispatcher_t) (cs : list Z) (k : Z) : list notification_t := contents (containers s) (after (at_ (consumers s) k) (head s :: cs)).

(** [cs]: the containers behind the empty one; [ks]: the consumers. *)
Record inv (s : notification_dispatcher_t) (cs ks : list Z) : Prop := {
  iv_chain : chain (containers s) (head s) (head s :: cs);
  iv_nodup : NoDup (head s :: cs);
  iv_tail : List.last (head s :: cs) 0 = tail s;
  iv_dom : forall m, is_Some (containers s !! m) <-> m ∈ head s :: cs;
  iv_readers : readers (consumers s) (consumer_head s) ks;
  iv_readers_nodup : NoDup ks;
  iv_readers_dom : forall k, is_Some (consumers s !! k) <-> k ∈ ks;
  iv_at : forall k, k ∈ ks -> at_ (consumers s) k ∈ head s :: cs;
  iv_rc : forall m x, containers s !! m = Some x -> rc x = count (at_ (consumers s)) ks m;
  iv_active : forall k x, consumers s !! k = Some x -> active x = true -> after (last_read x) (head s :: cs) <> []
}.

(** ** Lists *)

Lemma chain_frame T T' a l : chain T a l -> (forall m x, m ∈ l -> T !! m = Some x -> exists y, T' !! m = Some y /\ next y = next x) -> chain T' a l.
Proof.
  revert a. induction l as [| m l IH]; intros a; [done|]. cbn. intros (-> & Hm & x & E & Hl) Hf. destruct (Hf m x) as (y & Ey & Hy); [left | done |]. split; [done|]. split; [done|]. exists y. split; [done|]. rewrite Hy. apply IH; [done|]. intros m' x' Hin. apply Hf. by right.
Qed.

Lemma readers_frame C C' a l : readers C a l -> (forall m x, m ∈ l -> C !! m = Some x -> exists y, C' !! m = Some y /\ next_consumer y = next_consumer x) -> readers C' a l.
Proof.
  revert a. induction l as [| m l IH]; intros a; [done|]. cbn. intros (-> & Hm & x & E & Hl) Hf. destruct (Hf m x) as (y & Ey & Hy); [left | done |]. split; [done|]. split; [done|]. exists y. split; [done|]. rewrite Hy. apply IH; [done|]. intros m' x' Hin. apply Hf. by right.
Qed.

Lemma count_ext f g ks m : (forall k, k ∈ ks -> f k = g k) -> count f ks m = count g ks m.
Proof. induction ks as [| k ks IH]; intros H; [done|]. cbn. rewrite (H k) by left. rewrite IH; [done|]. intros k' Hk. apply H. by right. Qed.

Lemma count_nonneg f ks m : 0 <= count f ks m.
Proof. induction ks as [| k ks IH]; cbn; [lia|]. destruct (decide _); lia. Qed.

Lemma count_zero f ks m k : count f ks m = 0 -> k ∈ ks -> f k <> m.
Proof.
  induction ks as [| k' ks IH]; [by intros _ ?%not_elem_of_nil|]. cbn. pose proof (count_nonneg f ks m). intros H0 [-> | Hk]%elem_of_cons; destruct (decide (f k' = m)); try lia. apply IH; [lia | done].
Qed.

Lemma count_none f ks m : (forall k, k ∈ ks -> f k <> m) -> count f ks m = 0.
Proof. induction ks as [| k ks IH]; intros H; [done|]. cbn. destruct (decide (f k = m)) as [E | _]; [by destruct (H k ltac:(left))|]. apply IH. intros k' Hk. apply H. by right. Qed.

Lemma count_move f g ks k m : NoDup ks -> k ∈ ks -> (forall k', k' <> k -> g k' = f k') -> count g ks m = count f ks m + (if decide (g k = m) then 1 else 0) - (if decide (f k = m) then 1 else 0).
Proof.
  intros Hn Hk Hg. induction ks as [| k' ks IH]; [by apply not_elem_of_nil in Hk|]. apply NoDup_cons in Hn as [Hk' Hn]. cbn. apply elem_of_cons in Hk as [-> | Hk].
  - rewrite (count_ext g f); [lia|]. intros k1 H1. apply Hg. intros ->. done.
  - rewrite IH by done. rewrite (Hg k') by (intros ->; done). lia.
Qed.

(** [after] along the chain. *)
Lemma after_split m l : m ∈ l -> exists l1, l = l1 ++ m :: after m l /\ m ∉ l1.
Proof.
  induction l as [| x l IH]; [by intros ?%not_elem_of_nil|]. intros Hm. cbn. destruct (decide (x = m)) as [-> | Hne]; [exists []; split; [done | apply not_elem_of_nil]|]. apply elem_of_cons in Hm as [-> | Hm]; [done|]. destruct (IH Hm) as (l1 & E & H1). exists (x :: l1). split; [cbn; by f_equal|]. by apply not_elem_of_cons.
Qed.

Lemma after_here m l1 l : m ∉ l1 -> after m (l1 ++ m :: l) = l.
Proof. induction l1 as [| x l1 IH]; cbn; [intros _; by destruct (decide (m = m))|]. intros [Hx Hl]%not_elem_of_cons. destruct (decide (x = m)); [congruence | by apply IH]. Qed.

Lemma after_snoc m l a : m ∈ l -> after m (l ++ [a]) = after m l ++ [a].
Proof. induction l as [| x l IH]; [by intros ?%not_elem_of_nil|]. cbn. destruct (decide (x = m)); [done|]. intros [-> | Hm]%elem_of_cons; [done | by apply IH]. Qed.

Lemma chain_app T a l1 l2 : chain T a (l1 ++ l2) -> exists b, chain T b l2.
Proof. revert a. induction l1 as [| x l1 IH]; intros a H; [by exists a|]. cbn in H. destruct H as (_ & _ & y & _ & H). by apply (IH (next y)). Qed.

(** The next container of [m], and what follows it. *)
Lemma chain_after T a l m x : chain T a l -> m ∈ l -> T !! m = Some x -> chain T (next x) (after m l).
Proof.
  revert a. induction l as [| y l IH]; intros a; [by intros _ ?%not_elem_of_nil|]. cbn. intros (-> & Hy & z & E & H). destruct (decide (y = m)) as [-> | Hne]; [intros _ E'; by simplify_eq|]. intros [-> | Hm]%elem_of_cons E'; [done|]. by apply (IH (next z)).
Qed.

Lemma after_next m b l l' : NoDup l -> m ∈ l -> after m l = b :: l' -> b ∈ l /\ after b l = l' /\ b <> m.
Proof.
  intros Hn Hm E. destruct (after_split m l Hm) as (l1 & El & _). rewrite E in El. rewrite El in *. apply NoDup_app in Hn as (Hn1 & Hd & Hn2). apply NoDup_cons in Hn2 as [Hm2 Hn2]. split; [apply elem_of_app; right; right; left|]. split.
  - replace (l1 ++ m :: b :: l') with ((l1 ++ [m]) ++ b :: l') by by rewrite <- (assoc_L (++)). apply after_here. rewrite not_elem_of_app, list_elem_of_singleton. split; [intros H; apply (Hd b H); right; left | intros ->; apply Hm2; left].
  - intros ->. apply Hm2. left.
Qed.

Lemma last_snoc_Z (l : list Z) a d : List.last (l ++ [a]) d = a.
Proof. apply List.last_last. Qed.

Lemma last_elem (l : list Z) d : l <> [] -> List.last l d ∈ l.
Proof. intros H. destruct (exists_last H) as (l' & a & ->). rewrite List.last_last. apply elem_of_app. right. left. Qed.

Lemma after_skip m l1 l : m ∉ l1 -> after m (l1 ++ l) = after m l.
Proof. induction l1 as [| x l1 IH]; [done|]. intros [Hx Hl]%not_elem_of_cons. cbn. destruct (decide (x = m)); [congruence | by apply IH]. Qed.

Lemma contents_frame T T' l : (forall m, m ∈ l -> content <$> T' !! m = content <$> T !! m) -> contents T' l = contents T l.
Proof. unfold contents. induction l as [| m l IH]; intros H; [done|]. cbn. rewrite (H m) by left. rewrite IH; [done|]. intros m' Hm. apply H. by right. Qed.

Lemma elem_after m x l : x ∈ after m l -> x ∈ l.
Proof. induction l as [| y l IH]; [done|]. cbn. destruct (decide (y = m)); intros H; [by right | right; by apply IH]. Qed.

Lemma chain_snoc T a l t x c n : chain T a (l ++ [t]) -> NoDup (l ++ [t]) -> c ∉ l ++ [t] -> c <> 0 -> T !! t = Some x -> chain (<[t := set_next c x]> (<[c := Container 0 n 0]> T)) a (l ++ [t; c]).
Proof.
  intros H Hn Hc Hc0 Ex. revert a H Hn Hc. induction l as [| y l IH]; intros a H Hn Hc; cbn in *.
  - destruct H as (-> & Ht & _). split; [done|]. split; [done|]. eexists. rewrite lookup_insert_eq. split; [done|]. cbn. split; [done|]. split; [done|]. rewrite lookup_insert_ne, lookup_insert_eq; [by eexists|]. intros ->. apply Hc. left.
  - destruct H as (-> & Hy & z & E & H). apply NoDup_cons in Hn as [Hy' Hn]. apply not_elem_of_cons in Hc as [Hcy Hc]. split; [done|]. split; [done|]. exists z. rewrite lookup_insert_ne by (intros ->; apply Hy', elem_of_app; right; left). rewrite lookup_insert_ne by done. split; [done|]. by apply IH.
Qed.

Lemma dispatch_events_ok fuel C a ks : readers C a ks -> NoDup ks -> (length ks < fuel)%nat ->
  exists C', dispatch_events fuel C a = Some C' /\ forall k, C' !! k = (if decide (k ∈ ks) then set_active true <$> C !! k else C !! k).
Proof.
  revert C a ks. induction fuel as [| fuel IH]; intros C a ks Hr Hn Hf; [lia|]. cbn [dispatch_events]. destruct ks as [| m ks]; cbn in Hr.
  - subst a. cbn. by exists C.
  - destruct Hr as (-> & Hm & x & E & Hr). apply NoDup_cons in Hn as [Hm' Hn]. destruct (Z.eqb_spec m 0); [done|]. rewrite E. cbn [mbind option_bind]. destruct (IH (<[m := set_active true x]> C) (next_consumer x) ks) as (C' & -> & HC); [| done | cbn in Hf; lia |].
    + eapply readers_frame; [exact Hr|]. intros m' x' Hin E'. exists x'. by rewrite lookup_insert_ne by (intros ->; done).
    + exists C'. split; [done|]. intros k. rewrite HC. destruct (decide (k = m)) as [-> | Hk].
      * rewrite lookup_insert_eq, E. destruct (decide (m ∈ ks)); [done|]. destruct (decide (m ∈ m :: ks)) as [| Hno]; [done|]. destruct Hno. left.
      * rewrite lookup_insert_ne by done. destruct (decide (k ∈ ks)) as [Hin | Hin], (decide (k ∈ m :: ks)) as [Hin' | Hin']; try done; [destruct Hin'; by right|]. apply elem_of_cons in Hin' as [? | ?]; done.
Qed.

(** What the release of containers leaves. *)
Lemma free_loop_ok fuel T h hx cs k y : T !! h = Some hx -> chain T h (h :: cs) -> NoDup (h :: cs) -> (length cs < fuel)%nat -> k ∈ cs -> T !! k = Some y -> rc y <> 0 ->
  exists fr rest T' hx', cs = fr ++ rest /\ free_loop fuel T h = Some T' /\ k ∈ rest /\ chain T' h (h :: rest) /\
    (forall m, m ∈ fr -> T' !! m = None /\ exists x, T !! m = Some x /\ rc x = 0) /\ (forall m, m ∉ h :: fr -> T' !! m = T !! m) /\ T' !! h = Some hx' /\ content hx' = content hx /\ rc hx' = rc hx.
Proof.
  revert T hx cs. induction fuel as [| fuel IH]; intros T hx cs Eh Hc Hn Hf Hk Ek Hrc; [lia|]. cbn [free_loop]. rewrite Eh. cbn [mbind option_bind]. cbn [chain] in Hc. destruct Hc as (_ & Hh & hx0 & E0 & Hc). rewrite Eh in E0. injection E0 as <-. destruct cs as [| c cs]; [by apply not_elem_of_nil in Hk|]. cbn [chain] in Hc. destruct Hc as (Hnext & Hc0 & x & Ex & Hc). rewrite Hnext. destruct (Z.eqb_spec c 0); [done|]. rewrite Ex. cbn [mbind option_bind].
  destruct (Z.eqb_spec (rc x) 0) as [Hz | Hz]; cbn [negb].
  - assert (Hkc : k <> c) by (intros ->; congruence). apply elem_of_cons in Hk as [-> | Hk]; [done|]. apply NoDup_cons in Hn as [Hhn Hn]. apply not_elem_of_cons in Hhn as [Hhc Hhn]. apply NoDup_cons in Hn as [Hcn Hn].
    set (T1 := delete c (<[h := set_next (next x) hx]> T)). assert (Hk1 : T1 !! k = Some y) by (unfold T1; rewrite lookup_delete_ne, lookup_insert_ne; [done | intros -> | done]; done).
    destruct (IH T1 (set_next (next x) hx) cs) as (fr & rest & T' & hx' & -> & -> & Hkr & Hch & Hfr & Hrest & Eh' & Hcon & Hrc'); [unfold T1; by rewrite lookup_delete_ne, lookup_insert_eq | | by apply NoDup_cons | cbn in Hf; lia | done | done | done |].
    + cbn [chain]. split; [done|]. split; [done|]. exists (set_next (next x) hx). split; [unfold T1; by rewrite lookup_delete_ne, lookup_insert_eq|]. cbn [next set_next]. eapply chain_frame; [exact Hc|]. intros m z Hm Ez. exists z. split; [| done]. unfold T1. rewrite lookup_delete_ne, lookup_insert_ne; [done | |]; intros ->; done.
    + exists (c :: fr), rest, T', hx'. split; [done|]. split; [done|]. split; [done|]. split; [done|]. split; [| split; [| done]].
      * intros m [-> | Hm]%elem_of_cons; [split; [| by exists x] | destruct (Hfr m Hm) as (H1 & z & Ez & Hrz); split; [done|]; exists z; split; [| done]; unfold T1 in Ez].
        -- rewrite Hrest; [unfold T1; by rewrite lookup_delete_eq|]. apply not_elem_of_cons. split; [done|]. intros Hin. apply Hcn. apply elem_of_app. by left.
        -- destruct (decide (m = c)) as [-> | Hmc]; [by rewrite lookup_delete_eq in Ez|]. rewrite lookup_delete_ne in Ez by done. rewrite lookup_insert_ne in Ez; [done|]. intros ->. apply Hhn. apply elem_of_app. by left.
      * intros m Hm. rewrite !not_elem_of_cons in Hm. destruct Hm as (Hm1 & Hm2 & Hm3). rewrite Hrest by (apply not_elem_of_cons; done). unfold T1. by rewrite lookup_delete_ne, lookup_insert_ne by done.
  - exists [], (c :: cs), T, hx. split; [done|]. split; [done|]. split; [done|]. split; [| split; [by intros m ?%not_elem_of_nil | done]]. cbn [chain]. split; [done|]. split; [done|]. exists hx. split; [done|]. split; [done|]. split; [done|]. by exists x.
Qed.

(** ** The operations *)

Lemma create_inv c : c <> 0 -> inv (notification_dispatcher_create c) [] [].
Proof.
  intros Hc. split; cbn [notification_dispatcher_create containers consumers head tail consumer_head].
  - cbn. split; [done|]. split; [done|]. eexists. rewrite lookup_singleton_eq. done.
  - apply NoDup_singleton.
  - done.
  - intros m. rewrite list_elem_of_singleton. destruct (decide (m = c)) as [-> | Hm]; [rewrite lookup_singleton_eq; split; [done | by eexists] | rewrite lookup_singleton_ne by done; split; [by intros [? ?] | done]].
  - done.
  - apply NoDup_nil_2.
  - intros k. rewrite lookup_empty. split; [by intros [? ?] | by intros ?%not_elem_of_nil].
  - by intros k ?%not_elem_of_nil.
  - intros m x [<- <-]%lookup_singleton_Some. done.
  - intros k x. by rewrite lookup_empty.
Qed.

Lemma at_Some C k x : C !! k = Some x -> at_ C k = last_read x.
Proof. unfold at_. by intros ->. Qed.

Lemma tail_split s cs ks : inv s cs ks -> exists l, head s :: cs = l ++ [tail s].
Proof. intros Hi. destruct (exists_last (l := head s :: cs)) as (l & a & E); [done|]. exists l. pose proof (iv_tail _ _ _ Hi) as Ht. rewrite E, last_snoc_Z in Ht. by subst a. Qed.

Lemma send_ok s cs ks a n : inv s cs ks -> a <> 0 -> containers s !! a = None ->
  exists s', notification_dispatcher_dispatch s a n = Some s' /\ inv s' (cs ++ [a]) ks /\
    forall k, k ∈ ks -> pending s' (cs ++ [a]) k = pending s cs k ++ [n] /\ exists x, consumers s' !! k = Some x /\ active x = true.
Proof.
  intros Hi Ha0 Ha. destruct (tail_split _ _ _ Hi) as [l El]. assert (Htin : tail s ∈ head s :: cs) by (rewrite El; apply elem_of_app; right; left). assert (Hanot : a ∉ head s :: cs) by (intros [? E]%(iv_dom _ _ _ Hi); congruence). assert (Hta : tail s <> a) by (intros E; rewrite E in Htin; done).
  destruct (proj2 (iv_dom _ _ _ Hi _) Htin) as [t Et]. destruct (dispatch_events_ok (S (size (consumers s))) (consumers s) (consumer_head s) ks (iv_readers _ _ _ Hi) (iv_readers_nodup _ _ _ Hi)) as (C & EC & HC).
  { pose proof (nodup_size (consumers s) ks (iv_readers_nodup _ _ _ Hi) (fun k => proj2 (iv_readers_dom _ _ _ Hi k))). lia. }
  unfold notification_dispatcher_dispatch, change. rewrite lookup_insert_ne, Et by done. cbn [mbind option_bind]. rewrite EC. cbn [mbind option_bind]. eexists. split; [done|]. set (T := <[tail s := set_next a t]> (<[a := Container 0 n 0]> (containers s))).
  assert (Hat : forall k, at_ C k = at_ (consumers s) k) by (intros k; unfold at_; rewrite HC; destruct (decide (k ∈ ks)); [by destruct (consumers s !! k) | done]).
  assert (HT : forall m, m <> a -> content <$> T !! m = content <$> containers s !! m /\ rc <$> T !! m = rc <$> containers s !! m).
  { intros m Hm. unfold T. destruct (decide (m = tail s)) as [-> | Hmt]; [by rewrite lookup_insert_eq, Et | by rewrite !lookup_insert_ne]. }
  assert (HTa : T !! a = Some (Container 0 n 0)) by (unfold T; by rewrite lookup_insert_ne, lookup_insert_eq).
  change (head s :: cs ++ [a]) with ((head s :: cs) ++ [a]) in *. split.
  - split; cbn [containers consumers head tail consumer_head]; try change (head s :: cs ++ [a]) with ((head s :: cs) ++ [a]).
    + rewrite El, <- (assoc_L (++)). cbn [app]. apply chain_snoc; [rewrite <- El; apply (iv_chain _ _ _ Hi) | rewrite <- El; apply (iv_nodup _ _ _ Hi) | by rewrite <- El | done | done].
    + apply NoDup_app. split; [apply (iv_nodup _ _ _ Hi)|]. split; [intros m Hm ->%list_elem_of_singleton; done | apply NoDup_singleton].
    + apply last_snoc_Z.
    + intros m. rewrite elem_of_app, list_elem_of_singleton. destruct (decide (m = a)) as [-> | Hm]; [rewrite HTa; split; [by right | by eexists]|]. destruct (HT m Hm) as [H1 _]. rewrite <- (iv_dom _ _ _ Hi m). rewrite <- (fmap_is_Some content), H1, fmap_is_Some. intuition.
    + eapply readers_frame; [apply (iv_readers _ _ _ Hi)|]. intros m x Hm Ex. rewrite HC, Ex. destruct (decide (m ∈ ks)); [by eexists | done].
    + apply (iv_readers_nodup _ _ _ Hi).
    + intros k. rewrite <- (iv_readers_dom _ _ _ Hi k), HC. destruct (decide (k ∈ ks)); [by rewrite fmap_is_Some | done].
    + intros k Hk. rewrite Hat. apply elem_of_app. left. by apply (iv_at _ _ _ Hi).
    + intros m x Ex. rewrite (count_ext _ (at_ (consumers s))) by (intros; apply Hat). destruct (decide (m = a)) as [-> | Hm].
      * rewrite HTa in Ex. injection Ex as <-. cbn. symmetry. apply count_none. intros k Hk E. apply Hanot. rewrite <- E. by apply (iv_at _ _ _ Hi).
      * destruct (HT m Hm) as [_ H2]. rewrite Ex in H2. destruct (containers s !! m) as [y |] eqn:Ey; [| done]. injection H2 as ->. by apply (iv_rc _ _ _ Hi).
    + intros k x Ex _. assert (Hk : last_read x ∈ head s :: cs).
      { rewrite <- (at_Some C k x Ex), Hat. apply (iv_at _ _ _ Hi). apply (iv_readers_dom _ _ _ Hi). rewrite HC in Ex. destruct (decide (k ∈ ks)); [destruct (consumers s !! k); [by eexists | done] | by eexists]. }
      change (head s :: cs ++ [a]) with ((head s :: cs) ++ [a]). rewrite after_snoc by done. by destruct (after _ _).
  - intros k Hk. unfold pending. cbn [containers consumers head]. rewrite Hat. change (head s :: cs ++ [a]) with ((head s :: cs) ++ [a]). rewrite after_snoc by (by apply (iv_at _ _ _ Hi)). split.
    + unfold contents. rewrite omap_app. f_equal; [| cbn; by rewrite HTa]. apply (contents_frame (containers s) T). intros m Hm. apply HT. intros ->. apply Hanot. by eapply elem_after.
    + rewrite HC. destruct (proj2 (iv_readers_dom _ _ _ Hi k) Hk) as [x ->]. destruct (decide (k ∈ ks)); [by eexists | done].
Qed.

Lemma consumer_create_ok s cs ks c : inv s cs ks -> c <> 0 -> consumers s !! c = None ->
  exists s', notification_consumer_create s c = Some s' /\ inv s' cs (c :: ks) /\ pending s' cs c = contents (containers s) cs /\ forall k, k ∈ ks -> pending s' cs k = pending s cs k.
Proof.
  intros Hi Hc0 Hc. destruct (proj2 (iv_dom _ _ _ Hi (head s))) as [h Eh]; [left|]. assert (Hcks : c ∉ ks) by (intros [? E]%(iv_readers_dom _ _ _ Hi); congruence). unfold notification_consumer_create, change. rewrite Eh. cbn [mbind option_bind].
  set (T := <[head s := add_rc 1 h]> (containers s)). set (C1 := <[c := Consumer 0 (consumer_head s) (head s) false]> (consumers s)).
  assert (HT : forall m, content <$> T !! m = content <$> containers s !! m /\ next <$> T !! m = next <$> containers s !! m /\ (rc <$> T !! m) = (fun x => rc x + if decide (head s = m) then 1 else 0) <$> containers s !! m).
  { intros m. unfold T. destruct (decide (head s = m)) as [<- | Hm]; [by rewrite lookup_insert_eq, Eh|]. rewrite lookup_insert_ne by done. split; [done|]. split; [done|]. destruct (containers s !! m); [cbn; f_equal; lia | done]. }
  assert (HC : exists C, (if negb (consumer_head s =? 0) then x ← C1 !! consumer_head s; Some (<[consumer_head s := set_prev_consumer c x]> C1) else Some C1) = Some C /\ (forall k, last_read <$> C !! k = last_read <$> C1 !! k /\ active <$> C !! k = active <$> C1 !! k /\ next_consumer <$> C !! k = next_consumer <$> C1 !! k)).
  { destruct (Z.eqb_spec (consumer_head s) 0) as [E | E]; cbn [negb]; [by exists C1|]. assert (is_Some (C1 !! consumer_head s)) as [x Ex].
    { pose proof (iv_readers _ _ _ Hi) as Hr. destruct ks as [| k ks]; [done|]. cbn in Hr. destruct Hr as (-> & _ & x & Ex & _). unfold C1. rewrite lookup_insert_ne; [by eexists|]. intros ->. apply Hcks. left. }
    rewrite Ex. cbn [mbind option_bind]. eexists. split; [done|]. intros k. destruct (decide (k = consumer_head s)) as [-> | Hk]; [by rewrite lookup_insert_eq, Ex | by rewrite lookup_insert_ne]. }
  destruct HC as (C & EC & HC). rewrite EC. cbn [mbind option_bind]. eexists. split; [done|].
  assert (Hat : at_ C c = head s /\ forall k, k <> c -> at_ C k = at_ (consumers s) k).
  { unfold at_. split; [| intros k Hk]; rewrite (proj1 (HC _)); unfold C1; [by rewrite lookup_insert_eq | by rewrite lookup_insert_ne by done]. }
  destruct Hat as [Hatc Hat]. assert (HatIn : forall k, k ∈ ks -> at_ C k = at_ (consumers s) k) by (intros k Hk; apply Hat; intros ->; done). split.
  - split; cbn [containers consumers head tail consumer_head].
    + eapply chain_frame; [apply (iv_chain _ _ _ Hi)|]. intros m x _ Ex. destruct (HT m) as (_ & H & _). rewrite Ex in H. destruct (T !! m) as [y |]; [| done]. injection H as H. by exists y.
    + apply (iv_nodup _ _ _ Hi).
    + apply (iv_tail _ _ _ Hi).
    + intros m. rewrite <- (iv_dom _ _ _ Hi m), <- (fmap_is_Some content), (proj1 (HT m)), fmap_is_Some. done.
    + cbn [readers]. split; [done|]. split; [done|]. destruct (HC c) as (_ & _ & H). unfold C1 in H. rewrite lookup_insert_eq in H. destruct (C !! c) as [x |]; [| done]. injection H as H. exists x. split; [done|]. rewrite H. eapply readers_frame; [apply (iv_readers _ _ _ Hi)|].
      intros m y Hm Ey. destruct (HC m) as (_ & _ & H'). unfold C1 in H'. rewrite lookup_insert_ne, Ey in H' by (intros ->; done). destruct (C !! m) as [z |]; [| done]. injection H' as H'. by exists z.
    + apply NoDup_cons. split; [done | apply (iv_readers_nodup _ _ _ Hi)].
    + intros k. rewrite elem_of_cons, <- (iv_readers_dom _ _ _ Hi k), <- (fmap_is_Some last_read), (proj1 (HC k)), fmap_is_Some. unfold C1. destruct (decide (k = c)) as [-> | Hk]; [rewrite lookup_insert_eq; split; [by left | by eexists] | rewrite lookup_insert_ne by done; intuition].
    + intros k [-> | Hk]%elem_of_cons; [rewrite Hatc; left | rewrite HatIn by done; by apply (iv_at _ _ _ Hi)].
    + intros m x Ex. destruct (HT m) as (_ & _ & H). rewrite Ex in H. destruct (containers s !! m) as [y |] eqn:Ey; [| done]. injection H as ->. cbn [count]. rewrite Hatc, (count_ext _ (at_ (consumers s))) by done. rewrite (iv_rc _ _ _ Hi m y Ey). lia.
    + intros k x Ex Hact. destruct (HC k) as (H1 & H2 & _). unfold C1 in H1, H2. rewrite Ex in H1, H2. destruct (decide (k = c)) as [-> | Hk]; [rewrite lookup_insert_eq in H2; injection H2 as H2; congruence|]. rewrite lookup_insert_ne in H1, H2 by done. destruct (consumers s !! k) as [y |] eqn:Ey; [| done]. injection H1 as ->. injection H2 as H2. apply (iv_active _ _ _ Hi k y Ey). congruence.
  - unfold pending. cbn [containers consumers head]. rewrite Hatc. split.
    + cbn [after]. destruct (decide (head s = head s)); [| done]. apply contents_frame. intros m _. apply HT.
    + intros k Hk. rewrite HatIn by done. apply contents_frame. intros m _. apply HT.
Qed.

(** Going on to the next container. *)
Lemma move_ok s cs ks k x m0 b l n : inv s cs ks -> consumers s !! k = Some x -> last_read x = m0 -> containers s !! m0 = Some l -> next l = b -> b <> 0 -> containers s !! b = Some n ->
  let s' := Dispatcher (<[m0 := add_rc (-1) l]> (<[b := add_rc 1 n]> (containers s))) (<[k := (if next n =? 0 then set_active false else id) (set_last b x)]> (consumers s)) (head s) (tail s) (consumer_head s) in
  inv s' cs ks /\ b ∈ cs /\ b <> m0 /\ at_ (consumers s') k = b /\ pending s cs k = content n :: pending s' cs k /\ forall k', k' ∈ ks -> k' <> k -> pending s' cs k' = pending s cs k' /\ at_ (consumers s') k' = at_ (consumers s) k'.
Proof.
  intros Hi Ex Hm0 El Hb Hb0 En s'. assert (Hk : k ∈ ks) by (apply (iv_readers_dom _ _ _ Hi); by eexists). assert (Hin : m0 ∈ head s :: cs) by (rewrite <- Hm0, <- (at_Some _ _ _ Ex); by apply (iv_at _ _ _ Hi)).
  pose proof (chain_after _ _ _ m0 l (iv_chain _ _ _ Hi) Hin El) as Hch. rewrite Hb in Hch. destruct (after m0 (head s :: cs)) as [| b' rest] eqn:Eaf; cbn [chain] in Hch; [done|]. destruct Hch as (<- & _ & n' & En' & Hrest). rewrite En in En'. injection En' as <-.
  destruct (after_next m0 b _ rest (iv_nodup _ _ _ Hi) Hin Eaf) as (Hbin & Hbaf & Hbm).
  assert (Hbcs : b ∈ cs).
  { apply elem_of_cons in Hbin as [-> | Hbin]; [| done]. exfalso. cbn [after] in Eaf. destruct (decide (head s = m0)) as [E | E]; [congruence|]. pose proof (iv_nodup _ _ _ Hi) as Hn. apply NoDup_cons in Hn as [Hn _]. apply Hn. apply (elem_after m0). rewrite Eaf. left. }
  set (y := (if next n =? 0 then set_active false else id) (set_last b x)). assert (Hy : last_read y = b /\ next_consumer y = next_consumer x) by (unfold y; by destruct (_ =? _)).
  assert (HC : forall k', k' <> k -> at_ (consumers s') k' = at_ (consumers s) k') by (intros k' Hk'; unfold at_, s'; cbn [consumers]; by rewrite lookup_insert_ne).
  assert (Hatk : at_ (consumers s') k = b) by (unfold at_, s'; cbn [consumers]; rewrite lookup_insert_eq; apply Hy).
  assert (HT : forall m, content <$> containers s' !! m = content <$> containers s !! m /\ next <$> containers s' !! m = next <$> containers s !! m /\ rc <$> containers s' !! m = (fun z => rc z + (if decide (b = m) then 1 else 0) - (if decide (m0 = m) then 1 else 0)) <$> containers s !! m).
  { intros m. unfold s'. cbn [containers]. destruct (decide (m0 = m)) as [<- | Hm]; [rewrite lookup_insert_eq, El; destruct (decide (b = m0)); [done|]; cbn; split; [done|]; split; [done|]; f_equal; lia|]. rewrite lookup_insert_ne by done.
    destruct (decide (b = m)) as [<- | Hm']; [rewrite lookup_insert_eq, En; cbn; split; [done|]; split; [done|]; f_equal; lia|]. rewrite lookup_insert_ne by done. split; [done|]. split; [done|]. destruct (containers s !! m); [cbn; f_equal; lia | done]. }
  split; [| split; [done|]; split; [done|]; split; [done|]; split].
  - split; try change (head s') with (head s); try change (tail s') with (tail s); try change (consumer_head s') with (consumer_head s).
    + eapply chain_frame; [apply (iv_chain _ _ _ Hi)|]. intros m z _ Ez. destruct (HT m) as (_ & H & _). rewrite Ez in H. destruct (containers s' !! m) as [w |]; [| done]. injection H as H. by exists w.
    + apply (iv_nodup _ _ _ Hi).
    + apply (iv_tail _ _ _ Hi).
    + intros m. rewrite <- (iv_dom _ _ _ Hi m), <- (fmap_is_Some content), (proj1 (HT m)), fmap_is_Some. done.
    + unfold s'. cbn [consumers consumer_head]. eapply readers_frame; [apply (iv_readers _ _ _ Hi)|]. intros m z _ Ez. destruct (decide (m = k)) as [-> | Hmk]; [rewrite lookup_insert_eq; exists y; split; [done|]; rewrite Ex in Ez; injection Ez as <-; apply Hy | rewrite lookup_insert_ne by done; by exists z].
    + apply (iv_readers_nodup _ _ _ Hi).
    + intros k'. rewrite <- (iv_readers_dom _ _ _ Hi k'). unfold s'. cbn [consumers]. destruct (decide (k' = k)) as [-> | Hk']; [rewrite lookup_insert_eq, Ex; split; by eexists | by rewrite lookup_insert_ne].
    + intros k' Hk'. destruct (decide (k' = k)) as [-> | Hne]; [by rewrite Hatk | rewrite HC by done; by apply (iv_at _ _ _ Hi)].
    + intros m z Ez. destruct (HT m) as (_ & _ & H). rewrite Ez in H. destruct (containers s !! m) as [w |] eqn:Ew; [| done]. injection H as ->. rewrite (count_move (at_ (consumers s)) (at_ (consumers s')) ks k m (iv_readers_nodup _ _ _ Hi) Hk HC). rewrite Hatk, (at_Some _ _ _ Ex), Hm0, (iv_rc _ _ _ Hi m w Ew). done.
    + intros k' z Ez Hact. unfold s' in Ez. cbn [consumers] in Ez. destruct (decide (k' = k)) as [-> | Hne].
      * rewrite lookup_insert_eq in Ez. injection Ez as <-. fold y in Hact |- *. rewrite (proj1 Hy), Hbaf. unfold y in Hact. destruct (Z.eqb_spec (next n) 0) as [Hz | Hz]; [done|]. intros ->. by cbn in Hrest.
      * rewrite lookup_insert_ne in Ez by done. by apply (iv_active _ _ _ Hi k' z).
  - unfold pending. rewrite Hatk, (at_Some _ _ _ Ex), Hm0, Eaf. change (head s') with (head s). rewrite Hbaf. unfold contents at 1. cbn [omap list_omap]. rewrite En. cbn. f_equal. symmetry. apply contents_frame. intros m _. apply HT.
  - intros k' Hk' Hne. rewrite HC by done. split; [| done]. unfold pending. rewrite HC by done. change (head s') with (head s). apply contents_frame. intros m _. apply HT.
Qed.

(** Releasing the containers that nobody stands at. *)
Lemma release_ok s cs ks k : inv s cs ks -> k ∈ ks -> at_ (consumers s) k ∈ cs ->
  exists T fr rest, free_loop (S (size (containers s))) (containers s) (head s) = Some T /\ cs = fr ++ rest /\ inv (set_containers s T) rest ks /\ (forall m, m ∈ fr -> T !! m = None) /\
    forall k', k' ∈ ks -> pending (set_containers s T) rest k' = (if decide (at_ (consumers s) k' = head s) then contents (containers s) rest else pending s cs k').
Proof.
  intros Hi Hk Hat. destruct (proj2 (iv_dom _ _ _ Hi (head s))) as [h Eh]; [left|]. destruct (proj2 (iv_dom _ _ _ Hi (at_ (consumers s) k))) as [y Ey]; [by right|].
  assert (Hrc : rc y <> 0) by (rewrite (iv_rc _ _ _ Hi _ y Ey); intros H0; by apply (count_zero _ _ _ k H0)).
  destruct (free_loop_ok (S (size (containers s))) (containers s) (head s) h cs (at_ (consumers s) k) y Eh (iv_chain _ _ _ Hi) (iv_nodup _ _ _ Hi)) as (fr & rest & T & h' & -> & Ef & Hkr & Hch & Hfr & Hrest & Eh' & Hcon & Hrch); [| done | done | done |].
  { pose proof (nodup_size (containers s) (head s :: cs) (iv_nodup _ _ _ Hi) (fun m => proj2 (iv_dom _ _ _ Hi m))) as Hs. cbn in Hs. lia. }
  pose proof (iv_nodup _ _ _ Hi) as Hn. apply NoDup_cons in Hn as [Hh Hn]. rewrite not_elem_of_app in Hh. destruct Hh as [Hhf Hhr]. apply NoDup_app in Hn as (_ & Hd & Hnr).
  assert (Hnot : forall m, m ∈ rest -> m ∉ head s :: fr) by (intros m Hm; apply not_elem_of_cons; split; [intros ->; done | intros Hf; by apply (Hd m Hf)]).
  assert (HatF : forall k', k' ∈ ks -> at_ (consumers s) k' ∉ fr).
  { intros k' Hk' Hf. destruct (Hfr _ Hf) as (_ & x & Ex & Hx). rewrite (iv_rc _ _ _ Hi _ x Ex) in Hx. by apply (count_zero _ _ _ k' Hx). }
  assert (Haf : forall m, m ∉ fr -> m <> head s -> after m (head s :: fr ++ rest) = after m (head s :: rest)).
  { intros m Hf Hm. change (head s :: fr ++ rest) with ((head s :: fr) ++ rest). change (head s :: rest) with ([head s] ++ rest). rewrite !after_skip; [done | by rewrite list_elem_of_singleton | by rewrite not_elem_of_cons]. }
  assert (Hne : rest <> []) by (intros ->; by apply not_elem_of_nil in Hkr).
  exists T, fr, rest. split; [done|]. split; [done|]. split; [| split; [intros m Hm; apply (Hfr m Hm) |]].
  - split; cbn [set_containers containers consumers head tail consumer_head].
    + done.
    + by apply NoDup_cons.
    + rewrite <- (iv_tail _ _ _ Hi). destruct (exists_last Hne) as (l & a & ->). change (head s :: fr ++ l ++ [a]) with ((head s :: fr) ++ l ++ [a]). rewrite (assoc_L (++)), last_snoc_Z. change (head s :: l ++ [a]) with ((head s :: l) ++ [a]). apply last_snoc_Z.
    + intros m. rewrite elem_of_cons. split.
      * intros [x Ex]. destruct (decide (m = head s)) as [-> | Hm]; [by left|]. right. assert (Hmf : m ∉ fr) by (intros Hf; destruct (Hfr m Hf); congruence). rewrite Hrest in Ex by (by rewrite not_elem_of_cons). assert (Hs : is_Some (containers s !! m)) by by eexists. apply (iv_dom _ _ _ Hi) in Hs. apply elem_of_cons in Hs as [? | Hs]; [done|]. by apply elem_of_app in Hs as [? | ?].
      * intros [-> | Hm]; [by eexists|]. rewrite Hrest by (by apply Hnot). apply (iv_dom _ _ _ Hi). right. apply elem_of_app. by right.
    + apply (iv_readers _ _ _ Hi).
    + apply (iv_readers_nodup _ _ _ Hi).
    + apply (iv_readers_dom _ _ _ Hi).
    + intros k' Hk'. pose proof (iv_at _ _ _ Hi k' Hk') as H. rewrite elem_of_cons, elem_of_app in H. destruct H as [-> | [H | H]]; [left | by destruct (HatF k' Hk') | by right].
    + intros m x Ex. destruct (decide (m = head s)) as [-> | Hm]; [rewrite Eh' in Ex; injection Ex as <-; rewrite Hrch; by apply (iv_rc _ _ _ Hi)|]. apply (iv_rc _ _ _ Hi). rewrite <- Hrest; [done|]. apply not_elem_of_cons. split; [done|]. intros Hf. destruct (Hfr m Hf). congruence.
    + intros k' x Ex Hact. assert (Hk' : k' ∈ ks) by (apply (iv_readers_dom _ _ _ Hi); by eexists). pose proof (iv_active _ _ _ Hi k' x Ex Hact) as H. pose proof (HatF k' Hk') as Hf. rewrite (at_Some _ _ _ Ex) in Hf. destruct (decide (last_read x = head s)) as [E | E]; [rewrite E; cbn; by destruct (decide (head s = head s))|]. by rewrite <- Haf.
  - intros k' Hk'. unfold pending. cbn [set_containers containers consumers head]. destruct (decide (at_ (consumers s) k' = head s)) as [E | E].
    + rewrite E. cbn [after]. destruct (decide (head s = head s)); [| done]. apply contents_frame. intros m Hm. by rewrite Hrest by (by apply Hnot).
    + rewrite <- Haf by auto. apply contents_frame. intros m Hm. assert (Hmr : m ∈ rest).
      { rewrite Haf in Hm by auto. cbn [after] in Hm. destruct (decide (head s = at_ (consumers s) k')); [done|]. by apply elem_after in Hm. }
      by rewrite Hrest by (by apply Hnot).
Qed.

Lemma pending_nil s cs ks k x l : inv s cs ks -> consumers s !! k = Some x -> containers s !! last_read x = Some l -> next l = 0 -> pending s cs k = [] /\ active x = false.
Proof.
  intros Hi Ex El Hn. assert (Hk : k ∈ ks) by (apply (iv_readers_dom _ _ _ Hi); by eexists). assert (Hin : last_read x ∈ head s :: cs) by (rewrite <- (at_Some _ _ _ Ex); by apply (iv_at _ _ _ Hi)). pose proof (chain_after _ _ _ _ l (iv_chain _ _ _ Hi) Hin El) as Hch. rewrite Hn in Hch.
  assert (Haf : after (last_read x) (head s :: cs) = []) by (destruct (after _ _); [done | cbn [chain] in Hch; by destruct Hch as (<- & ? & _)]).
  split; [unfold pending; by rewrite (at_Some _ _ _ Ex), Haf|]. destruct (active x) eqn:Ea; [| done]. by destruct (iv_active _ _ _ Hi k x Ex Ea).
Qed.

(** Reading, for the reader itself and for the others. *)
Lemma consumer_read_ok s cs ks k wait : inv s cs ks -> k ∈ ks ->
  exists s' cs' r, notification_consumer_get s k wait = Some (s', r) /\ inv s' cs' ks /\
    match pending s cs k with
    | [] => s' = s /\ cs' = cs /\ r = (if wait then Waits else Empty)
    | n :: rest => r = Got n /\ pending s' cs' k = rest
    end /\
    forall k', k' ∈ ks -> k' <> k -> pending s' cs' k' `suffix_of` pending s cs k' /\ (at_ (consumers s) k' <> head s -> pending s' cs' k' = pending s cs k').
Proof.
  intros Hi Hk. destruct (proj2 (iv_readers_dom _ _ _ Hi k) Hk) as [x Ex]. unfold notification_consumer_get. rewrite Ex. cbn [mbind option_bind]. assert (Hin : last_read x ∈ head s :: cs) by (rewrite <- (at_Some _ _ _ Ex); by apply (iv_at _ _ _ Hi)). destruct (proj2 (iv_dom _ _ _ Hi _) Hin) as [l El]. rewrite El. cbn [mbind option_bind].
  destruct (Z.eqb_spec (next l) 0) as [Hz | Hz].
  { destruct (pending_nil _ _ _ _ _ _ Hi Ex El Hz) as [-> ->]. exists s, cs, (if wait then Waits else Empty). split; [done|]. split; [done|]. split; [done|]. done. }
  assert (exists n, containers s !! next l = Some n) as [n En].
  { pose proof (chain_after _ _ _ _ l (iv_chain _ _ _ Hi) Hin El) as Hch. destruct (after _ _); cbn [chain] in Hch; [done|]. destruct Hch as (-> & _ & n & En & _). by exists n. }
  destruct (move_ok s cs ks k x _ _ l n Hi Ex eq_refl El eq_refl Hz En) as (Hi' & Hb & Hbm & Hatk & Hpend & Hoth). set (s1 := Dispatcher _ _ _ _ _) in *.
  unfold change. rewrite En. cbn [mbind option_bind]. rewrite lookup_insert_eq. cbn [mbind option_bind]. rewrite lookup_insert_ne, El by done. cbn [mbind option_bind]. rewrite lookup_insert_eq. cbn [mbind option_bind add_rc content next].
  destruct (negb (rc (add_rc (-1) l) =? 0)); cbn [mbind option_bind].
  - exists s1, cs, (Got (content n)). split; [done|]. split; [done|]. rewrite Hpend. split; [done|]. intros k' Hk' Hne. destruct (Hoth k' Hk' Hne) as [-> _]. done.
  - destruct (release_ok s1 cs ks k Hi' Hk) as (T & fr & rest & Ef & -> & Hi2 & _ & Hp2); [by rewrite Hatk|]. change (containers s1) with (<[last_read x := add_rc (-1) l]> (<[next l := add_rc 1 n]> (containers s))) in Ef. change (head s1) with (head s) in Ef. rewrite Ef. cbn [mbind option_bind].
    exists (set_containers s1 T), rest, (Got (content n)). split; [done|]. split; [done|]. rewrite Hpend. split.
    + split; [done|]. rewrite Hp2 by done. destruct (decide _) as [E | E]; [| done]. exfalso. rewrite Hatk in E. change (head s1) with (head s) in E. pose proof (iv_nodup _ _ _ Hi) as Hn. apply NoDup_cons in Hn as [Hn _]. by rewrite E in Hb.
    + intros k' Hk' Hne. rewrite Hp2 by done. destruct (Hoth k' Hk' Hne) as [Hpk Hak]. rewrite Hak. change (head s1) with (head s). destruct (decide (at_ (consumers s) k' = head s)) as [E | E]; [| by rewrite Hpk]. split; [| done].
      rewrite <- Hpk. unfold pending. rewrite Hak, E. change (head s1) with (head s). cbn [after]. destruct (decide (head s = head s)); [| done]. unfold contents. rewrite omap_app. by exists (omap (fun m => content <$> containers s1 !! m) fr).
Qed.

(** C22: Every consumer has a queue of the notifications it has not read.  Sending appends the notification to the queue of every consumer and wakes it.  Reading returns the first notification of the queue; with an empty queue it reports that, or waits for an event that is not active, and never spins.  Reading by one consumer does not change the queues of the others that have read something; a consumer that has read nothing keeps a final part of its queue.  A new consumer starts with all notifications that are kept. *)
Theorem notification_queues s cs ks : inv s cs ks ->
  (forall a n, a <> 0 -> containers s !! a = None -> exists s', notification_dispatcher_dispatch s a n = Some s' /\ inv s' (cs ++ [a]) ks /\
     forall k, k ∈ ks -> pending s' (cs ++ [a]) k = pending s cs k ++ [n] /\ exists x, consumers s' !! k = Some x /\ active x = true) /\
  (forall k wait, k ∈ ks -> exists s' cs' r, notification_consumer_get s k wait = Some (s', r) /\ inv s' cs' ks /\
     match pending s cs k with [] => s' = s /\ cs' = cs /\ r = (if wait then Waits else Empty) | n :: rest => r = Got n /\ pending s' cs' k = rest end /\
     forall k', k' ∈ ks -> k' <> k -> pending s' cs' k' `suffix_of` pending s cs k' /\ (at_ (consumers s) k' <> head s -> pending s' cs' k' = pending s cs k')) /\
  (forall k, k <> 0 -> consumers s !! k = None -> exists s', notification_consumer_create s k = Some s' /\ inv s' cs (k :: ks) /\ pending s' cs k = contents (containers s) cs /\ forall k', k' ∈ ks -> pending s' cs k' = pending s cs k').
Proof. intros Hi. split; [intros a n Ha Hn; by apply send_ok|]. split; [intros k wait Hk; by apply consumer_read_ok | intros k H0 Hk; by apply consumer_create_ok]. Qed.

Definition note (i : Z) : notification_t := Notification i [i].

Lemma notification_queues_witness : exists s, notification_dispatcher_dispatch (notification_dispatcher_create 100) 101 (note 7) = Some s /\ inv s [101] [].
Proof.
  destruct (notification_queues (notification_dispatcher_create 100) [] []) as (H & _); [apply create_inv; discriminate|].
  destruct (H 101 (note 7)) as (s & E & Hs & _); [discriminate | reflexivity | exists s; split; [exact E | exact Hs]].
Defined.

(** ** Two consumers *)

(** Two consumers are created, two notifications sent, and both read by the first consumer. *)
Definition two_readers : option (notification_dispatcher_t * (get_result * get_result)) :=
  let s := notification_dispatcher_create 100 in
  s ← notification_consumer_create s 1;
  s ← notification_consumer_create s 2;
  s ← notification_dispatcher_dispatch s 101 (note 7);
  s ← notification_dispatcher_dispatch s 102 (note 8);
  '(s, r1) ← notification_consumer_get s 1 true;
  '(s, r2) ← notification_consumer_get s 1 true;
  Some (s, (r1, r2)).

(** A consumer that has not read anything yet loses what another consumer reads: the empty container at the front is counted, but its count is not looked at when the containers behind it are released. *)
Theorem notification_lost : exists s, two_readers = Some (s, (Got (note 7), Got (note 8))) /\ snd <$> notification_consumer_get s 2 true = Some (Got (note 8)).
Proof. eexists. split; vm_compute; reflexivity. Qed.
