(* ===== verification/Amm.v ===== *)
(** * The arbitrary-size allocator: size classes, allocation and reallocation
    ([src/src/kernel/memory/amm.c]).

    A block is the class index in its header and the bytes behind it.  Classes
    below [PAGE_SIZE] come from the object allocators, the others from the
    page allocator; what either returns is the parameter [raw]. *)
From stdpp Require Import base tactics list numbers option.
From Stdlib Require Import ZArith Lia.
From S2P Require Import Prelude Bytes.
#[local] Open Scope Z_scope.

Definition PAGE_SIZE_SHIFT : Z := 12.
Definition PAGE_SIZE : Z := 4096.
Definition ALLOCATOR_COUNT : Z := 18.

(** [__builtin_clzll] of a non-zero word. *)
Definition clzll (x : Z) : Z := 63 - Z.log2 x.

Definition _size_to_index (size : Z) : Z :=
  let size := Z.land (u64 (size + 7)) 0xfffffffffffffff8 in
  let i := 60 - clzll size in
  let odd := b2z (z2b (Z.land size (size - 1))) in
  if Z.shiftl 3 (PAGE_SIZE_SHIFT - 2) <? size then u64 (Z.shiftl 8 (i + odd))
  else Z.shiftl i 1 + odd + b2z (Z.shiftl 3 (i + 2) <? size).

Definition _index_to_size (index : Z) : Z :=
  if PAGE_SIZE <=? index then index
  else Z.shiftl (Z.lor 8 (Z.shiftl (Z.land index 1) 4)) (Z.shiftr index 1 - Z.land index 1).

Record amm_block := AmmBlock { block_index : Z; block_data : list Z }.

Section amm.
(** The bytes behind the header of a fresh block of a class. *)
Context (raw : Z -> list Z).

Definition amm_alloc (len : Z) : option amm_block :=
  if len =? 0 then None
  else
    let index := _size_to_index (len + 8) in
    Some (AmmBlock index (list_inserts 0 (replicate (Z.to_nat len) 0) (raw index))).

(** The contents of the block once it is given back: all zeros. *)
Definition amm_dealloc (b : amm_block) : amm_block :=
  AmmBlock 0 (list_inserts 0 (replicate (Z.to_nat (_index_to_size (block_index b) - 8)) 0) (block_data b)).

Definition amm_realloc (ptr : option amm_block) (len : Z) : option amm_block :=
  match ptr with
  | None => amm_alloc len
  | Some b =>
    if len =? 0 then None
    else
      let index := _size_to_index (len + 8) in
      if index =? block_index b then Some b
      else
        let current_length := _index_to_size (block_index b) - 8 in
        out ← amm_alloc len;
        let n := if len <? current_length then len else current_length in
        Some (AmmBlock (block_index out) (list_inserts 0 (take (Z.to_nat n) (block_data b)) (block_data out)))
  end.
End amm.

(** ** Size classes *)

Definition round8 (size : Z) : Z := (size + 7) / 8 * 8.

Lemma round8_land size : 0 <= size < 2 ^ 63 -> Z.land (u64 (size + 7)) 0xfffffffffffffff8 = round8 size.
Proof.
  intros Hs. rewrite u64_id by lia. unfold round8. change 0xfffffffffffffff8 with (Z.shiftl (Z.ones 61) 3).
  change 8 with (2 ^ 3). rewrite <- Z.shiftl_mul_pow2, <- Z.shiftr_div_pow2 by lia. apply Z.bits_inj'. intros i Hi.
  rewrite Z.land_spec, !Z.shiftl_spec by lia. destruct (Z.ltb_spec i 3).
  - rewrite !(Z.testbit_neg_r _ (i - 3)) by lia. by rewrite andb_false_r.
  - rewrite Z.shiftr_spec by lia. replace (i - 3 + 3) with i by lia. destruct (Z.ltb_spec i 64).
    + rewrite Z.ones_spec_low by lia. by rewrite andb_true_r.
    + rewrite (word_high 64 (size + 7) i) by lia. done.
Qed.

(** [x&(x-1)] is zero exactly for powers of two. *)
Lemma land_pred_zero x : 0 < x -> (Z.land x (x - 1) =? 0) = (x =? 2 ^ Z.log2 x).
Proof.
  intros Hx. pose proof (Z.log2_spec x Hx) as [H1 H2]. set (L := Z.log2 x) in *. pose proof (Z.log2_nonneg x : 0 <= L) as HL.
  rewrite Z.pow_succ_r in H2 by done. destruct (Z.eqb_spec x (2 ^ L)) as [E0 | E0].
  - rewrite E0. apply Z.eqb_eq. replace (2 ^ L - 1) with (Z.ones L) by (rewrite Z.ones_equiv; lia).
    rewrite Z.land_ones by done. apply Z.mod_same. lia.
  - apply Z.eqb_neq. intros E1.
    assert (Hb : forall y, 2 ^ L <= y < 2 * 2 ^ L -> Z.testbit y L = true).
    { intros y Hy. assert (Z.log2 y = L) as <- by (apply Z.log2_unique; [done | rewrite Z.pow_succ_r by done; lia]).
      apply Z.bit_log2. lia. }
    assert (Ht : Z.testbit (Z.land x (x - 1)) L = true) by (rewrite Z.land_spec, !Hb by lia; done).
    by rewrite E1, Z.bits_0 in Ht.
Qed.

(** The small classes, checked one size at a time. *)
Definition small_ok (size : Z) : bool :=
  let index := _size_to_index size in
  (0 <=? index) && (index <? ALLOCATOR_COUNT) && negb (index =? 1) && (size <=? _index_to_size index) && (_index_to_size index <? 2 * size + 8).

Lemma small_classes size : 1 <= size <= 3072 -> small_ok size = true.
Proof.
  intros Hs. assert (Hall : forallb small_ok (seqZ 1 3072) = true) by (vm_compute; reflexivity).
  rewrite forallb_forall in Hall. apply Hall. apply list_elem_of_In, elem_of_seqZ. lia.
Qed.

(** The large classes are powers of two. *)
Lemma large_classes size : 3072 < size < 2 ^ 33 ->
  exists k, 12 <= k <= 34 /\ _size_to_index size = 2 ^ k /\ size <= 2 ^ k < 2 * size + 16.
Proof.
  intros Hs. unfold _size_to_index. rewrite round8_land by lia. set (s := round8 size).
  assert (Hr : size <= s < size + 8) by (subst s; unfold round8; Z.div_mod_to_equations; lia).
  assert (Hr8 : s mod 8 = 0) by (subst s; unfold round8; apply Z.mod_mul; lia).
  rewrite (proj2 (Z.ltb_lt _ s)) by (change (Z.shiftl 3 (PAGE_SIZE_SHIFT - 2)) with 3072; lia).
  pose proof (land_pred_zero s ltac:(lia)) as Hp. pose proof (Z.log2_spec s ltac:(lia)) as [H1 H2]. unfold clzll, z2b. rewrite Hp.
  set (L := Z.log2 s) in *. rewrite Z.pow_succ_r in H2 by apply Z.log2_nonneg.
  assert (HL : 11 <= L <= 33).
  { split; [apply Z.log2_le_pow2; lia|]. enough (L < 34) by lia. apply Z.log2_lt_pow2; lia. }
  assert (E8 : forall k, 0 <= k -> Z.shiftl 8 k = 2 ^ (k + 3)) by (intros k Hk; rewrite Z.shiftl_mul_pow2, Z.pow_add_r by lia; lia).
  assert (Hw : forall k, 11 <= k <= 34 -> u64 (2 ^ k) = 2 ^ k).
  { intros k Hk. apply u64_id. split; [lia|]. apply Z.pow_lt_mono_r; lia. }
  destruct (Z.eqb_spec s (2 ^ L)) as [E0 | E0]; cbn [negb b2z]; rewrite E8 by lia.
  - exists L. replace (60 - (63 - L) + 0 + 3) with L by lia. rewrite Hw by lia. split_and!; try lia.
    enough (L <> 11) by lia. intros ->. lia.
  - exists (L + 1). replace (60 - (63 - L) + 1 + 3) with (L + 1) by lia. rewrite Hw by lia. rewrite Z.pow_add_r by lia. split_and!; lia.
Qed.

(** Every request of 1 to 2^32 + 7 bytes, header included, gets a size
    class whose blocks hold it and are less than twice as large (plus 16
    bytes): either one of the object allocators that exist, never the
    missing class 1, or a whole power-of-two number of pages. *)
Theorem amm_size_classes (size : Z) : 1 <= size < 2 ^ 33 ->
  let index := _size_to_index size in
  size <= _index_to_size index < 2 * size + 16 /\
  ((0 <= index < ALLOCATOR_COUNT /\ index <> 1) \/ (exists k, 12 <= k <= 34 /\ index = 2 ^ k)).
Proof.
  intros Hs. cbv zeta. destruct (Z.leb_spec size 3072).
  - pose proof (small_classes size ltac:(lia)) as Hk. unfold small_ok in Hk. cbv zeta in Hk.
    rewrite !andb_true_iff, negb_true_iff, !Z.leb_le, !Z.ltb_lt, Z.eqb_neq in Hk. lia.
  - destruct (large_classes size ltac:(lia)) as (k & Hk & -> & Hb). split; [| right; eauto].
    pose proof (Z.pow_le_mono_r 2 12 k ltac:(lia) ltac:(lia)). unfold _index_to_size.
    rewrite (proj2 (Z.leb_le _ _)) by (unfold PAGE_SIZE; lia). done.
Qed.

Lemma amm_size_classes_witness :
  let index := _size_to_index 5000 in
  5000 <= _index_to_size index < 2 * 5000 + 16 /\
  ((0 <= index < ALLOCATOR_COUNT /\ index <> 1) \/ (exists k, 12 <= k <= 34 /\ index = 2 ^ k)).
Proof. apply (amm_size_classes 5000). lia. Defined.

(** ** Contents *)

Section contents.
Context (raw : Z -> list Z).
(** The blocks of a class are as large as the class says. *)
Context (Hraw : forall index, _index_to_size index - 8 <= Z.of_nat (length (raw index))).

Definition block_ok (b : amm_block) : Prop := _index_to_size (block_index b) - 8 <= Z.of_nat (length (block_data b)).

Lemma class_holds len : 1 <= len < 2 ^ 32 -> len <= _index_to_size (_size_to_index (len + 8)) - 8.
Proof.
  intros Hl. destruct (Z.leb_spec (len + 8) 3072).
  - pose proof (small_classes (len + 8) ltac:(lia)) as Hk. unfold small_ok in Hk. cbv zeta in Hk.
    rewrite !andb_true_iff, !Z.leb_le in Hk. lia.
  - destruct (large_classes (len + 8) ltac:(lia)) as (k & Hk & -> & Hb).
    pose proof (Z.pow_le_mono_r 2 12 k ltac:(lia) ltac:(lia)). unfold _index_to_size.
    rewrite (proj2 (Z.leb_le _ _)) by (unfold PAGE_SIZE; lia). lia.
Qed.

Lemma amm_alloc_zeroed len : 1 <= len < 2 ^ 32 ->
  exists b, amm_alloc raw len = Some b /\ block_ok b /\ block_index b = _size_to_index (len + 8) /\
    take (Z.to_nat len) (block_data b) = replicate (Z.to_nat len) 0.
Proof.
  intros Hl. unfold amm_alloc. rewrite (proj2 (Z.eqb_neq len 0)) by lia. eexists. split; [done|].
  pose proof (class_holds len Hl). pose proof (Hraw (_size_to_index (len + 8))). unfold block_ok. cbn [block_index block_data].
  rewrite length_inserts. split_and!; try done. rewrite list_inserts_0 by (rewrite length_replicate; lia).
  by rewrite take_app_length' by (rewrite length_replicate; lia).
Qed.

(** Reallocating keeps the common prefix of the old and the new contents. *)
Lemma amm_realloc_keeps b len : block_ok b -> 1 <= len < 2 ^ 32 -> 0 <= _index_to_size (block_index b) - 8 ->
  exists b', amm_realloc raw (Some b) len = Some b' /\ block_ok b' /\
    let n := Z.to_nat (Z.min len (_index_to_size (block_index b) - 8)) in take n (block_data b') = take n (block_data b).
Proof.
  intros Hb Hl Hcap. unfold amm_realloc. rewrite (proj2 (Z.eqb_neq len 0)) by lia.
  destruct (Z.eqb_spec (_size_to_index (len + 8)) (block_index b)) as [E0 | E0]; [by exists b|].
  destruct (amm_alloc_zeroed len Hl) as (b1 & -> & Hok & Hi & _). cbn [mbind option_bind]. eexists. split; [done|].
  pose proof (class_holds len Hl) as Hc. rewrite <- Hi in Hc. unfold block_ok in *. cbn [block_index block_data].
  rewrite length_inserts. split; [done|]. set (cur := _index_to_size (block_index b) - 8) in *.
  assert ((if len <? cur then len else cur) = Z.min len cur) as -> by (destruct (Z.ltb_spec len cur); lia).
  rewrite list_inserts_0 by (rewrite length_take; lia). rewrite take_app_length' by (rewrite length_take; lia). done.
Qed.
End contents.
