(* ===== verification/Format.v ===== *)
(** * [format_string]: bounded formatted printing into a buffer
    ([src/src/kernel/format/format.c]).

    The output cursor [format_buffer_state_t] is a record over the target
    memory; a template is the list of the bytes before its terminator; an
    argument list is the list of the values [__builtin_va_arg] will fetch, a
    pointer argument standing for the object it points to.  A fetch that does
    not match the argument, a read outside the pointed-to object and a write
    outside a local array are undefined in C: they give [None]. *)
From stdpp Require Import base tactics list numbers option.
From Stdlib Require Import ZArith Lia.
From S2P Require Import Prelude Bytes.
#[local] Open Scope Z_scope.

(** ** The output cursor *)

Record format_buffer_state_t := FormatState { out_buffer : mem; out_offset : Z; out_length : Z }.

Definition mem_set (b : mem) (i c : Z) : mem := fun j => if j =? i then c else b j.

Definition _buffer_state_add (st : format_buffer_state_t) (c : Z) : format_buffer_state_t :=
  FormatState (mem_set (out_buffer st) (out_offset st) (u8 c))
              (u32 (out_offset st + b2z (out_offset st <? out_length st))) (out_length st).

Definition adds (st : format_buffer_state_t) (text : list Z) : format_buffer_state_t :=
  foldl _buffer_state_add st text.

(** ** Numerals *)

Definition _format_base16_char (value : Z) : Z :=
  let value := Z.land (u8 value) 15 in
  u8 (value + if 9 <? value then 87 else 48).

(** The [do ... while (value)] loop that fills the local array from the least
    significant digit on; [next] is the remaining value. *)
Fixpoint digit_loop (digit next : Z -> Z) (fuel : nat) (buf : list Z) (i : nat) (value : Z) : option (list Z * nat) :=
  match fuel with
  | O => None
  | S fuel =>
    if decide (i < List.length buf)%nat then
      let buf := <[i := digit value]> buf in
      let i := S i in
      let value := next value in
      if value =? 0 then Some (buf, i) else digit_loop digit next fuel buf i value
    else None
  end.

(** [while (i){ i--; _buffer_state_add(out,buffer[i]); }] *)
Fixpoint add_reversed (buf : list Z) (i : nat) (out : format_buffer_state_t) : format_buffer_state_t :=
  match i with
  | O => out
  | S i => add_reversed buf i (_buffer_state_add out (nth i buf 0))
  end.

Definition _format_base10_int (value : Z) (out : format_buffer_state_t) : option format_buffer_state_t :=
  '(buf, i) ← digit_loop (fun value => value mod 10 + 48) (fun value => value / 10) 21 (replicate 20 0) 0 value;
  Some (add_reversed buf i out).

Definition _format_base16_int (value : Z) (out : format_buffer_state_t) : option format_buffer_state_t :=
  '(buf, i) ← digit_loop _format_base16_char (fun value => Z.shiftr value 4) 17 (replicate 16 0) 0 value;
  Some (add_reversed buf i out).

(** ** Arguments *)

Inductive va_arg :=
  | ArgInt (v : Z)                    (* an integer in a 64-bit argument slot *)
  | ArgStr (s : option (list Z))      (* [const char*]; [None] is the null pointer *)
  | ArgU8 (p : list Z)                (* [const u8*] *)
  | ArgU16 (p : list Z).              (* [const u16*] *)

Definition va_u64 (va : list va_arg) : option (Z * list va_arg) :=
  match va with ArgInt v :: va => Some (u64 v, va) | _ => None end.
Definition va_u32 (va : list va_arg) : option (Z * list va_arg) :=
  match va with ArgInt v :: va => Some (u32 v, va) | _ => None end.
Definition va_s64 (va : list va_arg) : option (Z * list va_arg) :=
  match va with ArgInt v :: va => Some (sext 64 v, va) | _ => None end.
Definition va_s32 (va : list va_arg) : option (Z * list va_arg) :=
  match va with ArgInt v :: va => Some (sext 32 v, va) | _ => None end.
Definition va_str (va : list va_arg) : option (option (list Z) * list va_arg) :=
  match va with ArgStr s :: va => Some (s, va) | _ => None end.
Definition va_u8_ptr (va : list va_arg) : option (list Z * list va_arg) :=
  match va with ArgU8 p :: va => Some (p, va) | _ => None end.
Definition va_u16_ptr (va : list va_arg) : option (list Z * list va_arg) :=
  match va with ArgU16 p :: va => Some (p, va) | _ => None end.

Definition FLAG_SHORT_SHORT : Z := 1.
Definition FLAG_SHORT : Z := 2.
Definition FLAG_LONG : Z := 4.
Definition FLAG_SIGN : Z := 8.
Definition FLAG_HEX : Z := 16.
Definition MASK_SIZE : Z := Z.lor (Z.lor FLAG_SHORT_SHORT FLAG_SHORT) FLAG_LONG.

Definition has (flags flag : Z) : bool := z2b (Z.land flags flag).

Definition _format_int (va : list va_arg) (flags : Z) (out : format_buffer_state_t)
    : option (format_buffer_state_t * list va_arg) :=
  '(data, va, out) ←
    (if has flags FLAG_SIGN then
       '(signed_data, va) ← (if has flags FLAG_LONG then va_s64 va else va_s32 va);
       let signed_data :=
         if has flags FLAG_SHORT then sext 16 signed_data
         else if has flags FLAG_SHORT_SHORT then sext 8 signed_data
         else signed_data in
       let '(signed_data, out) :=
         if signed_data <? 0 then (sext 64 (- signed_data), _buffer_state_add out 45) else (signed_data, out) in
       Some (u64 signed_data, va, out)
     else
       '(data, va) ← (if has flags FLAG_LONG then va_u64 va else va_u32 va);
       let data :=
         if has flags FLAG_SHORT then u16 data
         else if has flags FLAG_SHORT_SHORT then u8 data
         else data in
       Some (data, va, out));
  if data =? 0 then Some (_buffer_state_add out 48, va)
  else
    out ← (if negb (has flags FLAG_HEX) then _format_base10_int data out else _format_base16_int data out);
    Some (out, va).

(** ** The conversions of [format_string_va] *)

(** [%c] *)
Definition format_char (va : list va_arg) (out : format_buffer_state_t) :=
  '(c, va) ← va_s32 va; Some (_buffer_state_add out c, va).

(** The bytes of ["(null)"]. *)
Definition null_text : list Z := [40; 110; 117; 108; 108; 41].

(** [%s] *)
Definition format_str (va : list va_arg) (out : format_buffer_state_t) :=
  '(ptr, va) ← va_str va;
  let ptr := match ptr with None => null_text | Some s => s end in
  Some (foldl _buffer_state_add out ptr, va).

(** [%X] *)
Definition format_byte (va : list va_arg) (out : format_buffer_state_t) :=
  '(value, va) ← va_u32 va;
  let value := u8 value in
  let out := _buffer_state_add out (_format_base16_char (Z.shiftr value 4)) in
  Some (_buffer_state_add out (_format_base16_char value), va).

(** [%v] *)
Definition format_size (va : list va_arg) (out : format_buffer_state_t) :=
  '(size, va) ← va_u64 va;
  out ←
    (if size <? 0x400 then
       out ← _format_base10_int size out;
       Some (_buffer_state_add (_buffer_state_add out 32) 66)
     else if size <? 0x100000 then
       out ← _format_base10_int (Z.shiftr (u64 (size + 0x200)) 10) out;
       Some (_buffer_state_add (_buffer_state_add (_buffer_state_add out 32) 75) 66)
     else if size <? 0x40000000 then
       out ← _format_base10_int (Z.shiftr (u64 (size + 0x80000)) 20) out;
       Some (_buffer_state_add (_buffer_state_add (_buffer_state_add out 32) 77) 66)
     else if size <? 0x10000000000 then
       out ← _format_base10_int (Z.shiftr (u64 (size + 0x20000000)) 30) out;
       Some (_buffer_state_add (_buffer_state_add (_buffer_state_add out 32) 71) 66)
     else if size <? 0x4000000000000 then
       out ← _format_base10_int (Z.shiftr (u64 (size + 0x8000000000)) 40) out;
       Some (_buffer_state_add (_buffer_state_add (_buffer_state_add out 32) 84) 66)
     else if size <? 0x1000000000000000 then
       out ← _format_base10_int (Z.shiftr (u64 (size + 0x2000000000000)) 50) out;
       Some (_buffer_state_add (_buffer_state_add (_buffer_state_add out 32) 80) 66)
     else
       out ← _format_base10_int (Z.shiftr (u64 (size + 0x800000000000000)) 60) out;
       Some (_buffer_state_add (_buffer_state_add (_buffer_state_add out 32) 69) 66));
  Some (out, va).

(** [%p]: the loop counts [shift] down by four from 64. *)
Definition format_pointer (va : list va_arg) (out : format_buffer_state_t) :=
  '(address, va) ← va_u64 va;
  Some (foldl (fun out k =>
          let shift := 64 - 4 * k in
          let out := if shift =? 32 then _buffer_state_add out 95 else out in
          let shift := shift - 4 in
          _buffer_state_add out (_format_base16_char (Z.shiftr address shift))) out (seqZ 0 16), va).

(** A hexadecimal dump of [n] digits of [p], a separator before the digits [sep] selects. *)
Fixpoint hex_dump (p : list Z) (sep : Z -> bool) (c : Z) (ix : list Z) (out : format_buffer_state_t) : option format_buffer_state_t :=
  match ix with
  | [] => Some out
  | i :: ix =>
    let out := if sep i then _buffer_state_add out c else out in
    b ← p !! Z.to_nat (Z.shiftr i 1);
    hex_dump p sep c ix
      (_buffer_state_add out (_format_base16_char (Z.shiftr b (Z.shiftl (b2z (negb (z2b (Z.land i 1)))) 2))))
  end.

(** [%g] *)
Definition format_uuid (va : list va_arg) (out : format_buffer_state_t) :=
  '(uuid, va) ← va_u8_ptr va;
  out ← hex_dump uuid (fun i => (i =? 8) || (i =? 12) || (i =? 16) || (i =? 20)) 45 (seqZ 0 32) out;
  Some (out, va).

(** [%M] *)
Definition format_mac (va : list va_arg) (out : format_buffer_state_t) :=
  '(mac_address, va) ← va_u8_ptr va;
  out ← hex_dump mac_address (fun i => z2b i && negb (z2b (Z.land i 1))) 58 (seqZ 0 12) out;
  Some (out, va).

Fixpoint ip4_loop (ip4 : Z) (ix : list Z) (out : format_buffer_state_t) : option format_buffer_state_t :=
  match ix with
  | [] => Some out
  | i :: ix =>
    let out := if z2b i then _buffer_state_add out 46 else out in
    out ← _format_base10_int (Z.land (Z.shiftr ip4 (24 - Z.shiftl i 3)) 0xff) out;
    ip4_loop ip4 ix out
  end.

(** [%I] *)
Definition format_ip4 (va : list va_arg) (out : format_buffer_state_t) :=
  '(ip4, va) ← va_u32 va;
  out ← ip4_loop ip4 (seqZ 0 4) out;
  Some (out, va).

(** [for (;j<8&&!ip6[j];j++);] *)
Fixpoint zero_run_end (ip6 : list Z) (fuel : nat) (j : Z) : option Z :=
  match fuel with
  | O => None
  | S fuel =>
    if j <? 8 then
      w ← ip6 !! Z.to_nat j;
      if w =? 0 then zero_run_end ip6 fuel (j + 1) else Some j
    else Some j
  end.

(** The search for the run of zero groups [%j] contracts. *)
Fixpoint find_contraction (ip6 : list Z) (fuel : nat) (i contraction_index contraction_length : Z) : option (Z * Z) :=
  match fuel with
  | O => None
  | S fuel =>
    if i <? 8 then
      w ← ip6 !! Z.to_nat i;
      if z2b w then find_contraction ip6 fuel (i + 1) contraction_index contraction_length
      else
        j ← zero_run_end ip6 9 (i + 1);
        let '(contraction_index, contraction_length) :=
          if contraction_length <? j - i then (i, j - i) else (contraction_index, contraction_length) in
        let i := j - 1 in
        find_contraction ip6 fuel (i + 1) contraction_index contraction_length
    else Some (contraction_index, contraction_length)
  end.

Fixpoint ip6_short_loop (ip6 : list Z) (contraction_index contraction_length : Z) (fuel : nat) (i : Z)
    (need_separator : bool) (out : format_buffer_state_t) : option format_buffer_state_t :=
  match fuel with
  | O => None
  | S fuel =>
    if i <? 8 then
      if i =? contraction_index then
        let out := _buffer_state_add (_buffer_state_add out 58) 58 in
        let i := i + (contraction_length - 1) in
        ip6_short_loop ip6 contraction_index contraction_length fuel (i + 1) false out
      else
        let out := if need_separator then _buffer_state_add out 58 else out in
        w ← ip6 !! Z.to_nat i;
        out ← _format_base16_int w out;
        ip6_short_loop ip6 contraction_index contraction_length fuel (i + 1) true out
    else Some out
  end.

(** [%j] *)
Definition format_ip6_short (va : list va_arg) (out : format_buffer_state_t) :=
  '(ip6, va) ← va_u16_ptr va;
  '(contraction_index, contraction_length) ← find_contraction ip6 9 0 0xff 0;
  out ← ip6_short_loop ip6 contraction_index contraction_length 9 0 false out;
  Some (out, va).

Fixpoint ip6_full_loop (ip6 : list Z) (ix : list Z) (out : format_buffer_state_t) : option format_buffer_state_t :=
  match ix with
  | [] => Some out
  | i :: ix =>
    let out := if z2b i then _buffer_state_add out 58 else out in
    w ← ip6 !! Z.to_nat i;
    out ← _format_base16_int w out;
    ip6_full_loop ip6 ix out
  end.

(** [%J] *)
Definition format_ip6_full (va : list va_arg) (out : format_buffer_state_t) :=
  '(ip6, va) ← va_u16_ptr va;
  out ← ip6_full_loop ip6 (seqZ 0 8) out;
  Some (out, va).

(** ** The template *)

(** The [while (1)] loop over the size modifiers, entered after the first
    [template++]; [None] is the [goto _end] at the end of the template. *)
Fixpoint parse_flags (template : list Z) (flags : Z) : option (Z * list Z * Z) :=
  let clear := Z.land flags (lnot_w 8 MASK_SIZE) in
  match template with
  | [] => None
  | c :: rest =>
    if c =? 108 then parse_flags rest (Z.lor clear FLAG_LONG)
    else if c =? 104 then
      match rest with
      | c' :: rest' =>
        if c' =? 104 then parse_flags rest' (Z.lor clear FLAG_SHORT_SHORT)
        else parse_flags rest (Z.lor clear FLAG_SHORT)
      | [] => parse_flags rest (Z.lor clear FLAG_SHORT)
      end
    else Some (c, rest, flags)
  end.

Definition convert (c flags : Z) (va : list va_arg) (out : format_buffer_state_t)
    : option (format_buffer_state_t * list va_arg) :=
  if c =? 99 then format_char va out
  else if c =? 115 then format_str va out
  else if c =? 100 then _format_int va (Z.lor flags FLAG_SIGN) out
  else if c =? 117 then _format_int va flags out
  else if c =? 120 then _format_int va (Z.lor flags FLAG_HEX) out
  else if c =? 88 then format_byte va out
  else if c =? 118 then format_size va out
  else if c =? 112 then format_pointer va out
  else if c =? 103 then format_uuid va out
  else if c =? 77 then format_mac va out
  else if c =? 73 then format_ip4 va out
  else if c =? 106 then format_ip6_short va out
  else if c =? 74 then format_ip6_full va out
  else Some (_buffer_state_add (_buffer_state_add out 37) c, va).

(** The loop over the template; an iteration consumes at least one byte. *)
Fixpoint format_loop (fuel : nat) (template : list Z) (va : list va_arg) (out : format_buffer_state_t)
    : option format_buffer_state_t :=
  match template with
  | [] => Some out
  | c :: rest =>
    match fuel with
    | O => None
    | S fuel =>
      if negb (c =? 37) then format_loop fuel rest va (_buffer_state_add out c)
      else match parse_flags rest 0 with
      | None => Some out
      | Some (c, rest, flags) =>
        '(out, va) ← convert c flags va out;
        format_loop fuel rest va out
      end
    end
  end.

(** The number of characters stored and the buffer afterwards. *)
Definition format_string_va (b : mem) (len : Z) (template : list Z) (va : list va_arg) : option (Z * mem) :=
  if len =? 0 then Some (0, b)
  else
    out ← format_loop (List.length template) template va (FormatState b 0 (u32 (len - 1)));
    Some (out_offset out, mem_set (out_buffer out) (out_offset out) 0).
