(* ===== verification/FormatSpec.v ===== *)
(** * What [format_string] prints: a text-level specification of every
    conversion, the bounds of the buffer and the round trip of numerals. *)
From stdpp Require Import base tactics list numbers option sets.
From Stdlib Require Import ZArith Lia.
From S2P Require Import Prelude Bytes Format.
#[local] Open Scope Z_scope.

(** ** Text *)

Definition digit_char (d : Z) : Z := if d <? 10 then 48 + d else 87 + d.

(** The digits of [v] in base [b], least significant first. *)
Fixpoint lsd (fuel : nat) (b v : Z) : list Z :=
  match fuel with
  | O => []
  | S fuel => v mod b :: (if v / b =? 0 then [] else lsd fuel b (v / b))
  end.

(** The numeral of a 64-bit value. *)
Definition numeral (b v : Z) : list Z := digit_char <$> reverse (lsd 64 b v).

(** Exactly [n] digits. *)
Definition fixed (b : Z) (n : nat) (v : Z) : list Z :=
  (fun i => digit_char (v / b ^ Z.of_nat (n - 1 - i) mod b)) <$> seq 0 n.

Fixpoint join (sep : list Z) (ls : list (list Z)) : list Z :=
  match ls with
  | [] => []
  | [l] => l
  | l :: ls => l ++ sep ++ join sep ls
  end.

Definition signed_numeral (v : Z) : list Z := if v <? 0 then 45 :: numeral 10 (- v) else numeral 10 v.

(** The value an integer argument has at the size the flags select. *)
Definition int_width (flags : Z) : Z :=
  if has flags FLAG_SHORT then 16 else if has flags FLAG_SHORT_SHORT then 8 else if has flags FLAG_LONG then 64 else 32.

(** A size in the largest binary unit not above it, rounded to nearest. *)
Definition size_text (size : Z) : list Z :=
  if size <? 2 ^ 10 then numeral 10 size ++ [32; 66]
  else
    let e := Z.min 6 (Z.log2 size / 10) in
    numeral 10 (u64 (size + 2 ^ (10 * e - 1)) / 2 ^ (10 * e)) ++ [32; nth (Z.to_nat (e - 1)) [75; 77; 71; 84; 80; 69] 0; 66].

Definition uuid_text (p : list Z) : list Z :=
  let h := map (fixed 16 2) p in
  join [45] (map (@List.concat Z) [take 4 h; take 2 (drop 4 h); take 2 (drop 6 h); take 2 (drop 8 h); take 6 (drop 10 h)]).

Definition ip4_text (ip : Z) : list Z :=
  join [46] ((fun i => numeral 10 (ip / 256 ^ i mod 256)) <$> [3; 2; 1; 0]).

(** Leading zero groups of an address. *)
Fixpoint zeros (l : list Z) : nat :=
  match l with
  | w :: l => if w =? 0 then S (zeros l) else O
  | [] => O
  end.

(** The first longest run of zero groups. *)
Definition longest_run (l : list Z) : nat * nat :=
  foldl (fun '(i, n) k => if decide (n < zeros (drop k l))%nat then (k, zeros (drop k l)) else (i, n))
        (0%nat, 0%nat) (seq 0 (List.length l)).

Definition ip6_full_text (l : list Z) : list Z := join [58] (numeral 16 <$> l).

Definition ip6_short_text (l : list Z) : list Z :=
  let '(i, n) := longest_run l in
  if decide (n = 0)%nat then ip6_full_text l
  else ip6_full_text (take i l) ++ [58; 58] ++ ip6_full_text (drop (i + n) l).

(** The text of one conversion and the arguments it leaves. *)
Definition conversion (c flags : Z) (va : list va_arg) : option (list Z * list va_arg) :=
  match va with
  | ArgInt v :: va' =>
    if c =? 99 then Some ([u8 v], va')
    else if c =? 100 then Some (signed_numeral (sext (int_width flags) v), va')
    else if c =? 117 then Some (numeral 10 (wrap (int_width flags) v), va')
    else if c =? 120 then Some (numeral 16 (wrap (int_width flags) v), va')
    else if c =? 88 then Some (fixed 16 2 (u8 v), va')
    else if c =? 118 then Some (size_text (u64 v), va')
    else if c =? 112 then Some (fixed 16 8 (u64 v / 2 ^ 32) ++ [95] ++ fixed 16 8 (u64 v mod 2 ^ 32), va')
    else if c =? 73 then Some (ip4_text (u32 v), va')
    else if bool_decide (c ∈ [115; 103; 77; 106; 74]) then None else Some ([37; c], va)
  | ArgStr s :: va' =>
    if c =? 115 then Some (default null_text s, va')
    else if bool_decide (c ∈ [99; 100; 117; 120; 88; 118; 112; 73; 103; 77; 106; 74]) then None else Some ([37; c], va)
  | ArgU8 p :: va' =>
    if (c =? 103) && bool_decide (16 <= List.length p)%nat then Some (uuid_text (take 16 p), va')
    else if (c =? 77) && bool_decide (6 <= List.length p)%nat then Some (join [58] (fixed 16 2 <$> take 6 p), va')
    else if bool_decide (c ∈ [99; 100; 117; 120; 88; 118; 112; 73; 103; 77; 115; 106; 74]) then None else Some ([37; c], va)
  | ArgU16 p :: va' =>
    if (c =? 106) && bool_decide (8 <= List.length p)%nat then Some (ip6_short_text (take 8 p), va')
    else if (c =? 74) && bool_decide (8 <= List.length p)%nat then Some (ip6_full_text (take 8 p), va')
    else if bool_decide (c ∈ [99; 100; 117; 120; 88; 118; 112; 73; 103; 77; 115; 106; 74]) then None else Some ([37; c], va)
  | [] =>
    if bool_decide (c ∈ [99; 100; 117; 120; 88; 118; 112; 73; 103; 77; 115; 106; 74]) then None else Some ([37; c], va)
  end.

Fixpoint render (fuel : nat) (template : list Z) (va : list va_arg) : option (list Z) :=
  match template with
  | [] => Some []
  | c :: rest =>
    match fuel with
    | O => Some []
    | S fuel =>
      if decide (c = 37) then
        match parse_flags rest 0 with
        | None => Some []
        | Some (c, rest, flags) =>
          '(text, va) ← conversion c flags va;
          rest ← render fuel rest va;
          Some (text ++ rest)
        end
      else rest ← render fuel rest va; Some (c :: rest)
    end
  end.

Example render_demo :
  render 100 [97; 61; 37; 108; 100; 32; 37; 104; 104; 120; 32; 37; 115; 37] [ArgInt (-25); ArgInt 0x1ff; ArgStr None] =
  Some [97; 61; 45; 50; 53; 32; 102; 102; 32; 40; 110; 117; 108; 108; 41].
Proof. reflexivity. Qed.

(** ** The cursor *)

Lemma adds_app st t1 t2 : adds st (t1 ++ t2) = adds (adds st t1) t2.
Proof. apply foldl_app. Qed.

(** After [text] has been added to an empty buffer of [len] characters (and
    the terminator's place), its first [len] characters are there. *)
Lemma adds_spec b len text : 0 <= len < 2 ^ 32 - 1 -> bytes text ->
  let st := adds (FormatState b 0 len) text in
  let n := Z.min (Z.of_nat (List.length text)) len in
  out_length st = len /\ out_offset st = n /\ mem_read (out_buffer st) 0 n = take (Z.to_nat n) text /\
  (forall i, i < 0 \/ n < i -> out_buffer st i = b i).
Proof.
  intros Hlen. induction text as [| c text IH] using rev_ind; intros Hb; cbv zeta.
  { simpl. rewrite Z.min_l by lia. done. }
  apply Forall_app in Hb as [Hb Hc]. inversion_clear Hc as [| ? ? Hc0 _]. specialize (IH Hb). cbv zeta in IH.
  rewrite adds_app, length_app. set (st := adds _ text) in *. destruct IH as (Hl & Ho & Hr & Hf).
  simpl. rewrite Ho, Hl. replace (Z.of_nat (List.length text + 1)) with (Z.of_nat (List.length text) + 1) by lia.
  set (k := Z.of_nat (List.length text)) in *. split; [done|].
  assert (u8 c = c) as -> by (apply wrap_id; exact Hc0).
  destruct (Z.ltb_spec (Z.min k len) len) as [Hlt | Hge].
  - rewrite (Z.min_l (k + 1) len) by lia. assert (Z.min k len = k) as Hm by lia. rewrite Hm in *. simpl b2z. split; [apply u32_id; lia|]. split.
    + rewrite mem_read_add by lia. rewrite take_ge by (rewrite length_app; simpl; lia). f_equal.
      * rewrite <- (take_ge text (Z.to_nat k)) by lia. rewrite <- Hr. apply mem_read_ext. intros i Hi.
        unfold mem_set. destruct (Z.eqb_spec (0 + i) k); [lia | done].
      * unfold mem_read, mem_set. simpl. rewrite Z.add_0_r, Z.eqb_refl. done.
    + intros i Hi. unfold mem_set. destruct (Z.eqb_spec i k); [lia|]. apply Hf. lia.
  - rewrite (Z.min_r (k + 1) len) by lia. assert (Z.min k len = len) as Hm by lia. rewrite Hm in *. simpl b2z. rewrite Z.add_0_r. split; [apply u32_id; lia|]. split.
    + rewrite take_app_le by lia. rewrite <- Hr. apply mem_read_ext. intros i Hi.
      unfold mem_set. destruct (Z.eqb_spec (0 + i) len); [lia | done].
    + intros i Hi. unfold mem_set. destruct (Z.eqb_spec i len); [lia|]. apply Hf. lia.
Qed.

(** ** Numerals *)

Lemma add_reversed_adds buf i out : (i <= List.length buf)%nat ->
  add_reversed buf i out = adds out (reverse (take i buf)).
Proof.
  revert out. induction i as [| i IH]; intros out Hi; [done|]. simpl.
  destruct (lookup_lt_is_Some_2 buf i) as [x Hx]; [lia|].
  rewrite (take_S_r _ _ _ Hx), reverse_app, IH by lia. simpl. by rewrite (nth_lookup_Some _ _ _ _ Hx).
Qed.

Section digits.
Context (b : Z) (digit next : Z -> Z) (Hb : 1 < b).
Context (Hdigit : forall v, 0 <= v < 2 ^ 64 -> digit v = digit_char (v mod b)).
Context (Hnext : forall v, 0 <= v < 2 ^ 64 -> next v = v / b).

Lemma next_range v k : 0 <= v < b ^ Z.of_nat (S k) -> 0 <= v / b < b ^ Z.of_nat k.
Proof.
  intros [H1 H2]. split; [apply Z.div_pos; lia|]. apply Z.div_lt_upper_bound; [lia|].
  by rewrite Nat2Z.inj_succ, Z.pow_succ_r in H2 by lia.
Qed.

(** [k] digits are enough for a value below [b ^ k]: the array is not overrun. *)
Lemma digit_loop_spec k fuel buf i v : 0 <= v < 2 ^ 64 -> 0 <= v < b ^ Z.of_nat (S k) ->
  (i + S k <= List.length buf)%nat -> (k < fuel)%nat ->
  exists buf' i', digit_loop digit next fuel buf i v = Some (buf', i') /\ (i' <= List.length buf')%nat /\
    take i' buf' = take i buf ++ (digit_char <$> lsd fuel b v).
Proof.
  revert fuel buf i v. induction k as [| k IH]; intros [| fuel] buf i v Hv Hk Hi Hf; try lia;
    cbn [digit_loop lsd]; (rewrite decide_True by lia); rewrite Hdigit, Hnext by done.
  - rewrite Z.pow_1_r in Hk. rewrite Z.div_small by done. simpl (0 =? 0). cbv iota. do 2 eexists. split; [done|].
    rewrite length_insert. split; [lia|]. rewrite (take_S_r _ _ (digit_char (v mod b))) by (apply list_lookup_insert_eq; lia).
    by rewrite take_insert_ge by lia.
  - destruct (Z.eqb_spec (v / b) 0) as [E0 | E0].
    + do 2 eexists. split; [done|]. rewrite length_insert. split; [lia|].
      rewrite (take_S_r _ _ (digit_char (v mod b))) by (apply list_lookup_insert_eq; lia).
      by rewrite take_insert_ge by lia.
    + assert (Hv' : 0 <= v / b < 2 ^ 64) by (pose proof (Z.div_lt v b); lia || (split; [apply Z.div_pos; lia|]; apply Z.le_lt_trans with v; [apply Z.div_le_upper_bound; nia | lia])).
      destruct (IH fuel (<[i := digit_char (v mod b)]> buf) (S i) (v / b)) as (buf' & i' & -> & Hl & Ht);
        [done | by apply next_range | rewrite length_insert; lia | lia |].
      do 2 eexists. split; [done|]. split; [done|]. rewrite Ht, fmap_cons.
      rewrite (take_S_r _ _ (digit_char (v mod b))) by (apply list_lookup_insert_eq; lia).
      rewrite take_insert_ge by lia. by rewrite <- app_assoc.
Qed.

Lemma lsd_fuel k f1 f2 v : 0 <= v < b ^ Z.of_nat (S k) -> (k < f1)%nat -> (k < f2)%nat -> lsd f1 b v = lsd f2 b v.
Proof.
  revert f1 f2 v. induction k as [| k IH]; intros [| f1] [| f2] v Hv H1 H2; try lia; cbn [lsd]; f_equal.
  - rewrite Z.pow_1_r in Hv. by rewrite Z.div_small by done.
  - destruct (v / b =? 0); [done|]. apply IH; [by apply next_range | lia | lia].
Qed.

Lemma numeral_loop n v out : 0 <= v < 2 ^ 64 -> v < b ^ Z.of_nat (S n) -> (n < 64)%nat ->
  ('(buf, i) ← digit_loop digit next (S (S n)) (replicate (S n) 0) 0 v; Some (add_reversed buf i out)) =
  Some (adds out (numeral b v)).
Proof.
  intros Hv Hn H64. destruct (digit_loop_spec n (S (S n)) (replicate (S n) 0) 0 v) as (buf & i & -> & Hl & Ht);
    [done | lia | rewrite length_replicate; lia | lia |].
  simpl. rewrite add_reversed_adds, Ht by done. rewrite app_nil_l. unfold numeral.
  rewrite <- fmap_reverse. do 4 f_equal. apply (lsd_fuel n); [lia.. ].
Qed.
End digits.

Lemma format_base16_char_digit v : 0 <= v -> _format_base16_char v = digit_char (v mod 16).
Proof.
  intros Hv. unfold _format_base16_char, digit_char.
  assert (Z.land (u8 v) 15 = v mod 16) as ->.
  { change 15 with (Z.ones 4). rewrite wrap_ones by lia. by apply (wrap_wrap_le 8 4). }
  pose proof (Z.mod_pos_bound v 16 ltac:(lia)). unfold u8.
  destruct (Z.ltb_spec 9 (v mod 16)), (Z.ltb_spec (v mod 16) 10); try lia; rewrite wrap_id by (unfold is_width; lia); lia.
Qed.

Lemma base10_adds v out : 0 <= v < 2 ^ 64 -> _format_base10_int v out = Some (adds out (numeral 10 v)).
Proof.
  intros Hv. apply (numeral_loop 10 _ _ ltac:(lia)); try lia; try done.
  intros w Hw. unfold digit_char. pose proof (Z.mod_pos_bound w 10 ltac:(lia)).
  destruct (Z.ltb_spec (w mod 10) 10); lia.
Qed.

Lemma base16_adds v out : 0 <= v < 2 ^ 64 -> _format_base16_int v out = Some (adds out (numeral 16 v)).
Proof.
  intros Hv. apply (numeral_loop 16 _ _ ltac:(lia)); try lia.
  - intros w Hw. apply format_base16_char_digit. lia.
  - intros w Hw. by apply Z.shiftr_div_pow2.
Qed.

(** Fetching a matching argument. *)
Lemma bind_pair {A B C} (f : A -> B -> option C) a b : ('(x, y) ← Some (a, b); f x y) = f a b.
Proof. done. Qed.

Lemma seqZ_below n m : m <= n -> Forall (fun i => 0 <= i < n) (seqZ 0 m).
Proof. intros H. apply Forall_seqZ. lia. Qed.

Lemma adds1 out c : _buffer_state_add out c = adds out [c].
Proof. done. Qed.

(** *** Widths *)

Lemma sext_wrap w x : 0 < w -> wrap w (sext w x) = wrap w x.
Proof.
  intros Hw. unfold wrap, sext. rewrite Zminus_mod_idemp_l. f_equal. lia.
Qed.

Lemma sext_range w x : 0 < w -> - 2 ^ (w - 1) <= sext w x < 2 ^ (w - 1).
Proof.
  intros Hw. unfold sext. pose proof (Z.mod_pos_bound (x + 2 ^ (w - 1)) (2 ^ w) ltac:(lia)).
  replace (2 ^ w) with (2 * 2 ^ (w - 1)) in * by (rewrite <- Z.pow_succ_r by lia; f_equal; lia). lia.
Qed.

Lemma sext_of_wrap w v x : 0 < v <= w -> sext v (wrap w x) = sext v x.
Proof.
  intros Hv. unfold sext. f_equal. rewrite <- Zplus_mod_idemp_l. fold (wrap v (wrap w x)).
  rewrite wrap_wrap_le by lia. unfold wrap. by rewrite Zplus_mod_idemp_l.
Qed.

Lemma sext_sext v w x : 0 < v <= w -> sext v (sext w x) = sext v x.
Proof.
  intros Hv. rewrite <- (sext_of_wrap w v (sext w x)), sext_wrap, sext_of_wrap by lia. done.
Qed.

(** *** Integers *)

Lemma signed_data_adds s out : - 2 ^ 63 <= s < 2 ^ 63 ->
  let '(s', out') := if s <? 0 then (sext 64 (- s), _buffer_state_add out 45) else (s, out) in
  (if u64 s' =? 0 then Some (_buffer_state_add out' 48) else _format_base10_int (u64 s') out') = Some (adds out (signed_numeral s)).
Proof.
  intros Hs. unfold signed_numeral. destruct (Z.ltb_spec s 0).
  - assert (u64 (sext 64 (- s)) = - s) as -> by (unfold u64; rewrite sext_wrap by lia; apply wrap_id; unfold is_width; lia).
    destruct (Z.eqb_spec (- s) 0); [lia|]. rewrite base10_adds, adds1, <- adds_app by lia. done.
  - rewrite u64_id by lia. destruct (Z.eqb_spec s 0) as [-> | ?]; [done|]. apply base10_adds. lia.
Qed.

Lemma unsigned_data_adds u out (hex : bool) : 0 <= u < 2 ^ 64 ->
  (if u =? 0 then Some (_buffer_state_add out 48)
   else if negb hex then _format_base10_int u out else _format_base16_int u out) =
  Some (adds out (numeral (if hex then 16 else 10) u)).
Proof.
  intros Hu. destruct (Z.eqb_spec u 0) as [-> | ?]; [by destruct hex|].
  destruct hex; [apply base16_adds | apply base10_adds]; done.
Qed.

Definition size_flags (flags : Z) : Prop := flags ∈ [0; FLAG_SHORT_SHORT; FLAG_SHORT; FLAG_LONG].

Lemma parse_flags_split template flags c rest flags' : size_flags flags ->
  parse_flags template flags = Some (c, rest, flags') -> size_flags flags' /\ exists pre, template = pre ++ c :: rest.
Proof.
  remember (List.length template) as n eqn:Hn. revert template Hn flags.
  induction n as [n IH] using lt_wf_ind. intros [| x t] -> flags Hf H; [done|]. simpl in H.
  assert (Hc : Z.land flags (lnot_w 8 MASK_SIZE) = 0) by (unfold size_flags in Hf; set_unfold in Hf; naive_solver).
  assert (Hstep : forall t' f pre, t = pre ++ t' -> size_flags f -> parse_flags t' f = Some (c, rest, flags') ->
    size_flags flags' /\ exists pre, x :: t = pre ++ c :: rest).
  { intros t' f pre -> Hf' H'. apply (IH (List.length t')) in H' as [? [pre' ->]];
      [| rewrite ?length_app; simpl; rewrite ?length_app; lia | done | done].
    split; [done|]. exists (x :: pre ++ pre'). simpl. by rewrite <- app_assoc. }
  rewrite Hc in H. destruct (x =? 108); [apply (Hstep _ _ [] eq_refl) in H; [done | unfold size_flags; set_solver]|].
  destruct (x =? 104); [| simplify_eq; split; [done | by exists []]].
  destruct t as [| y t]; [done|].
  destruct (y =? 104); [apply (Hstep _ _ [y] eq_refl) in H | apply (Hstep _ _ [] eq_refl) in H]; try done; unfold size_flags; set_solver.
Qed.

Lemma format_int_signed v va flags out : size_flags flags ->
  _format_int (ArgInt v :: va) (Z.lor flags FLAG_SIGN) out =
  Some (adds out (signed_numeral (sext (int_width flags) v)), va).
Proof.
  intros Hf. unfold size_flags in Hf. set_unfold in Hf. unfold _format_int.
  assert (H64 : forall w, 0 < w <= 64 -> - 2 ^ 63 <= sext w v < 2 ^ 63).
  { intros w Hw. pose proof (sext_range w v ltac:(lia)). pose proof (Z.pow_le_mono_r 2 (w - 1) 63 ltac:(lia) ltac:(lia)). lia. }
  destruct Hf as [-> | [-> | [-> | [-> | []]]]]; simpl Z.lor; simpl; rewrite ?sext_sext by lia.
  all: match goal with |- context [if ?s <? 0 then _ else _] => set (x := s) end.
  all: (assert (Hs : - 2 ^ 63 <= x < 2 ^ 63) by (apply H64; lia)); pose proof (signed_data_adds x out Hs) as E.
  all: match goal with |- context [signed_numeral ?y] => change y with x end; clearbody x.
  all: destruct (x <? 0); simpl in E |- *; destruct (u64 _ =? 0); [congruence | by rewrite E | congruence | by rewrite E].
Qed.

Lemma format_int_unsigned v va flags (hex : bool) out : size_flags flags ->
  _format_int (ArgInt v :: va) (if hex then Z.lor flags FLAG_HEX else flags) out =
  Some (adds out (numeral (if hex then 16 else 10) (wrap (int_width flags) v)), va).
Proof.
  intros Hf. unfold size_flags in Hf. set_unfold in Hf. unfold _format_int.
  assert (H64 : forall w, 0 < w <= 64 -> 0 <= wrap w v < 2 ^ 64).
  { intros w Hw. pose proof (wrap_width w v ltac:(lia)) as [? ?]. pose proof (Z.pow_le_mono_r 2 w 64 ltac:(lia) ltac:(lia)). lia. }
  destruct Hf as [-> | [-> | [-> | [-> | []]]]], hex; simpl Z.lor; simpl; unfold u8, u16, u32;
    rewrite ?wrap_wrap_le by lia;
    [set (s := wrap 32 v) | set (s := wrap 32 v) | set (s := wrap 8 v) | set (s := wrap 8 v)
    | set (s := wrap 16 v) | set (s := wrap 16 v) | set (s := wrap 64 v) | set (s := wrap 64 v)];
    (assert (Hs : 0 <= s < 2 ^ 64) by (apply H64; lia));
    change (wrap (int_width _) v) with s; change (u64 v) with s;
    pose proof (unsigned_data_adds s out true Hs) as E; pose proof (unsigned_data_adds s out false Hs) as E';
    clearbody s; simpl in E, E' |- *; destruct (s =? 0); first [congruence | by rewrite E | by rewrite E'].
Qed.

(** *** Sizes *)

Lemma log2_unit k size : 0 <= k -> 2 ^ (10 * k) <= size < 2 ^ (10 * (k + 1)) -> Z.log2 size / 10 = k.
Proof.
  intros Hk [H1 H2]. pose proof (Z.pow_pos_nonneg 2 (10 * k) ltac:(lia) ltac:(lia)).
  assert (0 < size) by lia. apply Z.log2_le_pow2 in H1; [| lia]. apply Z.log2_lt_pow2 in H2; [| lia]. Z.div_mod_to_equations; lia.
Qed.

Lemma unit_text size out k c half shift : half = 2 ^ (10 * k - 1) -> shift = 10 * k -> 1 <= k <= 6 -> 0 <= size < 2 ^ 64 -> 2 ^ (10 * k) <= size ->
  (k < 6 -> size < 2 ^ (10 * (k + 1))) -> nth (Z.to_nat (k - 1)) [75; 77; 71; 84; 80; 69] 0 = c ->
  (out ← _format_base10_int (Z.shiftr (u64 (size + half)) shift) out;
   Some (_buffer_state_add (_buffer_state_add (_buffer_state_add out 32) c) 66)) = Some (adds out (size_text size)).
Proof.
  intros -> -> Hk Hs Hlo Hhi Hc. pose proof (u64_range (size + 2 ^ (10 * k - 1))) as Hr.
  rewrite Z.shiftr_div_pow2 by lia. rewrite base10_adds.
  2:{ split; [apply Z.div_pos; lia|]. apply Z.le_lt_trans with (u64 (size + 2 ^ (10 * k - 1))); [| lia].
      apply Z.div_le_upper_bound; [lia|]. pose proof (Z.pow_pos_nonneg 2 (10 * k) ltac:(lia) ltac:(lia)). nia. }
  simpl. rewrite !adds1, <- !adds_app. unfold size_text.
  pose proof (Z.pow_le_mono_r 2 10 (10 * k) ltac:(lia) ltac:(lia)). destruct (Z.ltb_spec size (2 ^ 10)); [lia|].
  assert (Z.min 6 (Z.log2 size / 10) = k) as ->.
  { destruct (decide (k < 6)); [rewrite (log2_unit k); [lia | lia | split; [done | by apply Hhi]]|]. assert (k = 6) as -> by lia.
    rewrite (log2_unit 6); [done | lia |]. split; [done|]. apply Z.lt_trans with (2 ^ 64); [lia | done]. }
  rewrite Hc. done.
Qed.

Lemma format_size_adds v va out :
  format_size (ArgInt v :: va) out = Some (adds out (size_text (u64 v)), va).
Proof.
  unfold format_size. cbn [va_u64 mbind option_bind]. pose proof (u64_range v) as Hr. set (size := u64 v) in *. clearbody size.
  destruct (Z.ltb_spec size 0x400).
  { rewrite base10_adds by lia. simpl. rewrite !adds1, <- !adds_app. unfold size_text.
    destruct (Z.ltb_spec size (2 ^ 10)); [| lia]. done. }
  pose proof (unit_text size out) as U.
  destruct (Z.ltb_spec size 0x100000); [by rewrite (U 1 75 0x200 10) by (done || simpl; lia)|].
  destruct (Z.ltb_spec size 0x40000000); [by rewrite (U 2 77 0x80000 20) by (done || simpl; lia)|].
  destruct (Z.ltb_spec size 0x10000000000); [by rewrite (U 3 71 0x20000000 30) by (done || simpl; lia)|].
  destruct (Z.ltb_spec size 0x4000000000000); [by rewrite (U 4 84 0x8000000000 40) by (done || simpl; lia)|].
  destruct (Z.ltb_spec size 0x1000000000000000); [by rewrite (U 5 80 0x2000000000000 50) by (done || simpl; lia)|].
  by rewrite (U 6 69 0x800000000000000 60) by (done || simpl; lia).
Qed.

(** *** Fixed-width hexadecimal *)

Lemma fixed_hex_digit v k : 0 <= v -> 0 <= k -> _format_base16_char (Z.shiftr v (4 * k)) = digit_char (v / 16 ^ k mod 16).
Proof.
  intros Hv Hk. assert (Z.shiftr v (4 * k) = v / 16 ^ k) as E0.
  { rewrite Z.shiftr_div_pow2 by lia. by rewrite Z.pow_mul_r by lia. }
  rewrite E0. apply format_base16_char_digit. apply Z.div_pos; [lia | by apply Z.pow_pos_nonneg].
Qed.

Lemma digit_of_mod v n k : 0 <= k < n -> (v mod 16 ^ n) / 16 ^ k mod 16 = v / 16 ^ k mod 16.
Proof.
  intros Hk. replace n with (k + (1 + (n - k - 1))) by lia. rewrite !Z.pow_add_r, Z.pow_1_r by lia.
  set (p := 16 ^ k). set (q := 16 ^ (n - k - 1)). assert (0 < p) by (by apply Z.pow_pos_nonneg; lia).
  assert (0 < q) by (by apply Z.pow_pos_nonneg; lia). rewrite (Z.mod_eq v (p * (16 * q))) by nia.
  replace (v - p * (16 * q) * (v / (p * (16 * q)))) with (v + (- (v / (p * (16 * q))) * q * 16) * p) by ring.
  rewrite Z.div_add by lia. by rewrite Z.mod_add by lia.
Qed.

Lemma foldl_adds {A} (f : format_buffer_state_t -> A -> format_buffer_state_t) (t : A -> list Z) l out :
  (forall out a, f out a = adds out (t a)) -> foldl f out l = adds out (flat_map t l).
Proof. intros Hf. revert out. induction l as [| a l IH]; intros out; [done|]. simpl. by rewrite adds_app, Hf, IH. Qed.

Lemma format_pointer_adds v va out :
  format_pointer (ArgInt v :: va) out =
  Some (adds out (fixed 16 8 (u64 v / 2 ^ 32) ++ [95] ++ fixed 16 8 (u64 v mod 2 ^ 32)), va).
Proof.
  unfold format_pointer. cbn [va_u64 mbind option_bind]. pose proof (u64_range v) as Hr. set (a := u64 v) in *. clearbody a.
  rewrite (foldl_adds _ (fun k => (if 64 - 4 * k =? 32 then [95] else []) ++ [_format_base16_char (Z.shiftr a (4 * (15 - k)))])).
  2:{ intros o k. rewrite adds_app, adds1. replace (64 - 4 * k - 4) with (4 * (15 - k)) by lia. by destruct (_ =? 32). }
  apply (f_equal (fun t => Some (adds out t, va))).
  change (flat_map _ (seqZ 0 16)) with (((fun k => _format_base16_char (Z.shiftr a (4 * k))) <$> [15;14;13;12;11;10;9;8]) ++
    [95] ++ ((fun k => _format_base16_char (Z.shiftr a (4 * k))) <$> [7;6;5;4;3;2;1;0])).
  f_equal; [| f_equal].
  - unfold fixed. cbn [fmap list_fmap seq]. repeat f_equal; rewrite fixed_hex_digit by lia;
      do 2 f_equal; rewrite Z.div_div by lia; f_equal.
  - unfold fixed. cbn [fmap list_fmap seq]. change (2 ^ 32) with (16 ^ 8). repeat f_equal; rewrite fixed_hex_digit by lia;
      f_equal; symmetry; apply (digit_of_mod a 8); lia.
Qed.

(** The digit [i] of a dump of [p]. *)
Definition dump_digit (p : list Z) (i : Z) : Z :=
  digit_char (nth (Z.to_nat (Z.shiftr i 1)) p 0 / 16 ^ (1 - Z.land i 1) mod 16).

Lemma hex_dump_adds p sep c ix out : bytes p -> Forall (fun i => 0 <= i < 2 * Z.of_nat (List.length p)) ix ->
  hex_dump p sep c ix out = Some (adds out (flat_map (fun i => (if sep i then [c] else []) ++ [dump_digit p i]) ix)).
Proof.
  intros Hp Hix. revert out. induction Hix as [| i ix Hi _ IH]; intros out; [done|]. cbn [hex_dump flat_map].
  assert (Hr : 0 <= Z.shiftr i 1 < Z.of_nat (List.length p)) by (rewrite Z.shiftr_div_pow2 by lia; Z.div_mod_to_equations; lia).
  destruct (lookup_lt_is_Some_2 p (Z.to_nat (Z.shiftr i 1))) as [b Hb]; [lia|]. rewrite Hb. cbn [mbind option_bind].
  rewrite IH, adds_app, adds_app. do 2 f_equal. unfold dump_digit. rewrite (nth_lookup_Some _ _ _ _ Hb).
  assert (Hb0 : 0 <= b) by (eapply Forall_lookup_1 in Hp; [| exact Hb]; simpl in Hp; lia).
  assert (Hl : Z.land i 1 = 0 \/ Z.land i 1 = 1).
  { pose proof (Z.land_ones i 1 ltac:(lia)) as E0. change (Z.ones 1) with 1 in E0. change (2 ^ 1) with 2 in E0.
    rewrite E0. Z.div_mod_to_equations; lia. }
  rewrite adds1. f_equal; [by destruct (sep i)|]. f_equal.
  destruct Hl as [-> | ->]; [apply (fixed_hex_digit b 1) | apply (fixed_hex_digit b 0)]; lia.
Qed.

Lemma long_list {A} n (p : list A) : (n <= List.length p)%nat -> List.length (take n p) = n.
Proof. intros H. rewrite length_take. lia. Qed.

(** Only the first [n] elements of a long enough list are looked at. *)
Lemma hex_dump_take n p sep c ix out : (n <= List.length p)%nat -> Forall (fun i => 0 <= i < 2 * Z.of_nat n) ix ->
  hex_dump p sep c ix out = hex_dump (take n p) sep c ix out.
Proof.
  intros Hn Hix. revert out. induction Hix as [| i ix Hi _ IH]; intros out; [done|]. cbn [hex_dump].
  assert (Hr : 0 <= Z.shiftr i 1 < Z.of_nat n) by (rewrite Z.shiftr_div_pow2 by lia; Z.div_mod_to_equations; lia).
  rewrite lookup_take_lt by lia. destruct (p !! _); [| done]. apply IH.
Qed.

Lemma fixed_2 b : fixed 16 2 b = [digit_char (b / 16 ^ 1 mod 16); digit_char (b / 16 ^ 0 mod 16)].
Proof. done. Qed.

(** The shapes of the two dumps, for any digit function [d]. *)
Lemma uuid_shape (d : Z -> Z -> Z) (q : list Z) : List.length q = 16%nat ->
  let h := map (fun b => [d b 1; d b 0]) q in
  flat_map (fun i => (if (i =? 8) || (i =? 12) || (i =? 16) || (i =? 20) then [45] else []) ++
                     [d (nth (Z.to_nat (Z.shiftr i 1)) q 0) (1 - Z.land i 1)]) (seqZ 0 32) =
  join [45] (map (@List.concat Z) [take 4 h; take 2 (drop 4 h); take 2 (drop 6 h); take 2 (drop 8 h); take 6 (drop 10 h)]).
Proof. intros Hq. do 16 (destruct q as [| ? q]; [done|]). by destruct q. Qed.

Lemma mac_shape (d : Z -> Z -> Z) (q : list Z) : List.length q = 6%nat ->
  flat_map (fun i => (if z2b i && negb (z2b (Z.land i 1)) then [58] else []) ++
                     [d (nth (Z.to_nat (Z.shiftr i 1)) q 0) (1 - Z.land i 1)]) (seqZ 0 12) =
  join [58] (map (fun b => [d b 1; d b 0]) q).
Proof. intros Hq. do 6 (destruct q as [| ? q]; [done|]). by destruct q. Qed.

Lemma format_uuid_adds p va out : bytes p -> (16 <= List.length p)%nat ->
  format_uuid (ArgU8 p :: va) out = Some (adds out (uuid_text (take 16 p)), va).
Proof.
  intros Hp Hn. unfold format_uuid. change (va_u8_ptr (ArgU8 p :: va)) with (Some (p, va)). rewrite bind_pair.
  rewrite (hex_dump_take 16) by (done || by apply seqZ_below). pose proof (long_list _ _ Hn) as Hl.
  rewrite hex_dump_adds; [| by apply bytes_take | rewrite Hl; by apply seqZ_below].
  apply (f_equal (fun t => Some (adds out t, va))).
  unfold uuid_text. rewrite (map_ext _ _ fixed_2). unfold dump_digit.
  apply (uuid_shape (fun b k => digit_char (b / 16 ^ k mod 16)) _ Hl).
Qed.

Lemma format_mac_adds p va out : bytes p -> (6 <= List.length p)%nat ->
  format_mac (ArgU8 p :: va) out = Some (adds out (join [58] (fixed 16 2 <$> take 6 p)), va).
Proof.
  intros Hp Hn. unfold format_mac. change (va_u8_ptr (ArgU8 p :: va)) with (Some (p, va)). rewrite bind_pair.
  rewrite (hex_dump_take 6) by (done || by apply seqZ_below). pose proof (long_list _ _ Hn) as Hl.
  rewrite hex_dump_adds; [| by apply bytes_take | rewrite Hl; by apply seqZ_below].
  apply (f_equal (fun t => Some (adds out t, va))).
  change (fixed 16 2 <$> take 6 p) with (map (fixed 16 2) (take 6 p)). rewrite (map_ext _ _ fixed_2). unfold dump_digit.
  apply (mac_shape (fun b k => digit_char (b / 16 ^ k mod 16)) _ Hl).
Qed.

Lemma format_byte_adds v va out :
  format_byte (ArgInt v :: va) out = Some (adds out (fixed 16 2 (u8 v)), va).
Proof.
  unfold format_byte. cbn [va_u32 mbind option_bind]. unfold u32, u8 at 1 2. rewrite wrap_wrap_le by lia.
  fold (u8 v). pose proof (u8_range v). rewrite (fixed_hex_digit _ 1) by lia.
  rewrite <- (Z.shiftr_0_r (u8 v)) at 2. by rewrite (fixed_hex_digit _ 0) by lia.
Qed.

Lemma format_ip4_adds v va out :
  format_ip4 (ArgInt v :: va) out = Some (adds out (ip4_text (u32 v)), va).
Proof.
  unfold format_ip4. cbn [va_u32 mbind option_bind]. set (ip := u32 v).
  assert (Hd : forall k o, 0 <= k -> _format_base10_int (Z.land (Z.shiftr ip (8 * k)) 0xff) o = Some (adds o (numeral 10 (ip / 256 ^ k mod 256)))).
  { intros k o Hk. rewrite land_255, Z.shiftr_div_pow2, Z.pow_mul_r by lia. change (2 ^ 8) with 256.
    apply base10_adds. pose proof (Z.mod_pos_bound (ip / 256 ^ k) 256 ltac:(lia)). lia. }
  change (seqZ 0 4) with [0; 1; 2; 3]. cbn [ip4_loop].
  rewrite (Hd 3) by lia. cbn [mbind option_bind]. rewrite (Hd 2) by lia. cbn [mbind option_bind].
  rewrite (Hd 1) by lia. cbn [mbind option_bind]. rewrite (Hd 0) by lia. cbn [mbind option_bind].
  cbn [z2b negb Z.eqb]. unfold ip4_text. cbn [fmap list_fmap join]. rewrite !adds_app. done.
Qed.

(** *** IPv6 addresses *)

Lemma ip6_full_loop_adds p ix out : Forall (fun w => 0 <= w < 2 ^ 16) p ->
  Forall (fun i => 0 <= i < Z.of_nat (List.length p)) ix ->
  ip6_full_loop p ix out =
  Some (adds out (flat_map (fun i => (if z2b i then [58] else []) ++ numeral 16 (nth (Z.to_nat i) p 0)) ix)).
Proof.
  intros Hp Hix. revert out. induction Hix as [| i ix Hi _ IH]; intros out; [done|]. cbn [ip6_full_loop flat_map].
  destruct (lookup_lt_is_Some_2 p (Z.to_nat i)) as [w Hw]; [lia|]. rewrite Hw. cbn [mbind option_bind].
  rewrite base16_adds by (eapply Forall_lookup_1 in Hp; [| exact Hw]; simpl in Hp; lia). cbn [mbind option_bind].
  rewrite IH, !adds_app, (nth_lookup_Some _ _ _ _ Hw). do 3 f_equal. by destruct (z2b i).
Qed.

Definition seg_text (sep : bool) (l : list Z) : list Z :=
  if sep then flat_map (fun w => 58 :: numeral 16 w) l else ip6_full_text l.

Lemma seg_text_cons sep w l :
  seg_text sep (w :: l) = (if sep then [58] else []) ++ numeral 16 w ++ seg_text true l.
Proof.
  destruct sep; [done|]. cbn [seg_text app]. unfold ip6_full_text. revert w.
  induction l as [| w' l IH]; intros w; [simpl; by rewrite app_nil_r|].
  specialize (IH w'). rewrite fmap_cons in IH. rewrite !fmap_cons. cbn [join flat_map]. f_equal. cbn [app]. f_equal. exact IH.
Qed.

Lemma ip6_full_text_dump l : List.length l = 8%nat ->
  flat_map (fun i => (if z2b i then [58] else []) ++ numeral 16 (nth (Z.to_nat i) l 0)) (seqZ 0 8) = ip6_full_text l.
Proof.
  intros Hl. do 8 (destruct l as [| ? l]; [done|]). destruct l; [| done].
  change (ip6_full_text ?k) with (seg_text false k). by rewrite !seg_text_cons.
Qed.

Lemma format_ip6_full_adds p va out : Forall (fun w => 0 <= w < 2 ^ 16) p -> (8 <= List.length p)%nat ->
  format_ip6_full (ArgU16 p :: va) out = Some (adds out (ip6_full_text (take 8 p)), va).
Proof.
  intros Hp Hn. unfold format_ip6_full. change (va_u16_ptr (ArgU16 p :: va)) with (Some (p, va)). rewrite bind_pair.
  rewrite ip6_full_loop_adds; [| done | apply seqZ_below; lia].
  apply (f_equal (fun t => Some (adds out t, va))). rewrite <- ip6_full_text_dump by by apply long_list.
  do 8 (destruct p as [| ? p]; [simpl in Hn; lia|]). done.
Qed.

Section contraction.
Context (p q : list Z) (Hpq : forall i, (i < 8)%nat -> (fun w => w =? 0) <$> p !! i = (fun w => w =? 0) <$> q !! i).

Lemma zero_run_end_ext fuel j : 0 <= j -> zero_run_end p fuel j = zero_run_end q fuel j.
Proof.
  revert j. induction fuel as [| fuel IH]; intros j Hj; [done|]. simpl. destruct (Z.ltb_spec j 8); [| done].
  specialize (Hpq (Z.to_nat j) ltac:(lia)). destruct (p !! Z.to_nat j), (q !! Z.to_nat j); try done.
  simpl in *. injection Hpq as ->. rewrite IH by lia. done.
Qed.

Lemma zero_run_end_ge l fuel j k : zero_run_end l fuel j = Some k -> j <= k.
Proof.
  revert j. induction fuel as [| fuel IH]; intros j; [done|]. simpl. destruct (j <? 8); [| intros [= ->]; lia].
  destruct (l !! _); [| done]. simpl. destruct (_ =? 0); [| intros [= ->]; lia]. intros Hk%IH. lia.
Qed.

Lemma find_contraction_ext fuel i ci cl : 0 <= i -> find_contraction p fuel i ci cl = find_contraction q fuel i ci cl.
Proof.
  revert i ci cl. induction fuel as [| fuel IH]; intros i ci cl Hi; [done|].
  cbn [find_contraction]. destruct (Z.ltb_spec i 8); [| done].
  pose proof (Hpq (Z.to_nat i) ltac:(lia)) as H0. destruct (p !! Z.to_nat i), (q !! Z.to_nat i); try done.
  cbn [mbind option_bind]. injection H0 as E0. unfold z2b. rewrite E0. destruct (negb _); [apply IH; lia|].
  rewrite zero_run_end_ext by lia. destruct (zero_run_end q 9 (i + 1)) as [j|] eqn:Ej; [| done]. cbn [mbind option_bind].
  apply zero_run_end_ge in Ej. destruct (cl <? j - i); apply IH; lia.
Qed.
End contraction.

(** Only which groups are zero matters to the choice of the run. *)
Definition pattern (l : list Z) : list Z := map (fun w => b2z (negb (w =? 0))) l.

Lemma zeros_pattern l : zeros (pattern l) = zeros l.
Proof. induction l as [| w l IH]; [done|]. simpl. destruct (w =? 0); simpl; congruence. Qed.

Lemma longest_run_pattern l : longest_run (pattern l) = longest_run l.
Proof.
  unfold longest_run. rewrite (length_map _ l : List.length (pattern l) = _). generalize (0%nat, 0%nat) as a.
  induction (seq 0 (List.length l)) as [| k ks IH]; intros [i n]; [done|]. simpl.
  assert (drop k (pattern l) = pattern (drop k l)) as -> by apply skipn_map. rewrite zeros_pattern. apply IH.
Qed.

Lemma find_contraction_longest l : List.length l = 8%nat ->
  let '(i, n) := longest_run l in
  find_contraction l 9 0 0xff 0 = Some (if decide (n = 0)%nat then (0xff, 0) else (Z.of_nat i, Z.of_nat n)) /\
  (i + n <= 8)%nat.
Proof.
  intros Hl. rewrite (find_contraction_ext l (pattern l)); [| | lia].
  2:{ intros i Hi. unfold pattern. rewrite lookup_map. destruct (l !! i) as [w|]; [| done]. simpl. by destruct (w =? 0). }
  rewrite <- longest_run_pattern. unfold pattern. do 8 (destruct l as [| ? l]; [done|]). destruct l; [| done].
  cbn [map]. repeat match goal with |- context [b2z (negb (?w =? 0))] => destruct (w =? 0) end;
    vm_compute; (split; [reflexivity | lia]).
Qed.

(** [m] groups from [k] on that the contraction does not touch. *)
Lemma short_loop_segment l ci cl m fuel k sep out : Forall (fun w => 0 <= w < 2 ^ 16) l -> List.length l = 8%nat ->
  (k + m <= 8)%nat -> (ci < Z.of_nat k \/ Z.of_nat (k + m) <= ci) ->
  ip6_short_loop l ci cl (m + fuel) (Z.of_nat k) sep out =
  ip6_short_loop l ci cl fuel (Z.of_nat (k + m)) (if decide (m = 0)%nat then sep else true)
    (adds out (seg_text sep (take m (drop k l)))).
Proof.
  intros Hl H8. revert k sep out. induction m as [| m IH]; intros k sep out Hk Hci.
  { rewrite Nat.add_0_r. rewrite take_0. by destruct sep. }
  cbn [Nat.add ip6_short_loop]. destruct (Z.ltb_spec (Z.of_nat k) 8); [| lia].
  destruct (Z.eqb_spec (Z.of_nat k) ci); [lia|]. rewrite Nat2Z.id.
  destruct (lookup_lt_is_Some_2 l k) as [w Hw]; [lia|]. rewrite Hw. cbn [mbind option_bind].
  rewrite base16_adds by (eapply Forall_lookup_1 in Hl; [| exact Hw]; simpl in Hl; lia). cbn [mbind option_bind].
  replace (Z.of_nat k + 1) with (Z.of_nat (S k)) by lia. rewrite IH by lia.
  rewrite (drop_S _ _ _ Hw), firstn_cons, seg_text_cons, !adds_app.
  replace (S k + m)%nat with (k + S m)%nat by lia. f_equal; [by destruct (decide (m = 0)%nat)|].
  by destruct sep.
Qed.

Lemma ip6_short_loop_take p n ci cl fuel i sep out : (8 <= List.length p)%nat -> n = 8%nat -> 0 <= i -> 0 <= cl ->
  ip6_short_loop p ci cl fuel i sep out = ip6_short_loop (take n p) ci cl fuel i sep out.
Proof.
  intros Hp -> Hi Hcl. revert i sep out Hi. induction fuel as [| fuel IH]; intros i sep out Hi; [done|]. cbn [ip6_short_loop].
  destruct (Z.ltb_spec i 8); [| done]. destruct (i =? ci); [apply IH; lia|].
  rewrite lookup_take_lt by lia. destruct (p !! Z.to_nat i) as [w|]; [| done]. cbn [mbind option_bind].
  destruct (_format_base16_int w _); [| done]. cbn [mbind option_bind]. apply IH. lia.
Qed.

Lemma format_ip6_short_adds p va out : Forall (fun w => 0 <= w < 2 ^ 16) p -> (8 <= List.length p)%nat ->
  format_ip6_short (ArgU16 p :: va) out = Some (adds out (ip6_short_text (take 8 p)), va).
Proof.
  intros Hp Hn. unfold format_ip6_short. change (va_u16_ptr (ArgU16 p :: va)) with (Some (p, va)). rewrite bind_pair.
  rewrite (find_contraction_ext p (take 8 p)); [| | lia].
  2:{ intros i Hi. by rewrite lookup_take_lt. }
  pose proof (long_list _ _ Hn) as H8. assert (Hq : Forall (fun w => 0 <= w < 2 ^ 16) (take 8 p)) by by apply Forall_take.
  pose proof (find_contraction_longest (take 8 p) H8) as Hf. unfold ip6_short_text.
  destruct (longest_run (take 8 p)) as [i n]. destruct Hf as [-> Hin]. destruct (decide (n = 0)%nat) as [-> | Hn0]; rewrite bind_pair.
  - rewrite (ip6_short_loop_take _ 8) by lia. generalize dependent (take 8 p). intros q H8 Hq. clear p Hn Hp.
    rewrite (short_loop_segment q 0xff 0 8 1 0) by (done || lia). cbn [ip6_short_loop].
    change (Z.of_nat (0 + 8) <? 8) with false. cbv iota. by rewrite (take_ge q) by (simpl; lia).
  - rewrite (ip6_short_loop_take _ 8) by lia. generalize dependent (take 8 p). intros q H8 Hq. clear p Hn Hp.
    replace 9%nat with (i + (1 + (8 - (i + n) + (n - 0))))%nat by lia.
    rewrite (short_loop_segment q _ _ i _ 0) by (done || lia).
    cbn [Nat.add ip6_short_loop]. destruct (Z.ltb_spec (Z.of_nat i) 8); [| lia]. rewrite Z.eqb_refl.
    replace (Z.of_nat i + (Z.of_nat n - 1) + 1) with (Z.of_nat (i + n)) by lia.
    rewrite short_loop_segment by (done || lia). replace (Z.of_nat (i + n + (8 - (i + n)))) with 8 by lia.
    destruct (n - 0)%nat eqn:En; [lia|]. cbn [ip6_short_loop]. change (8 <? 8) with false. cbv iota.
    cbn [mbind option_bind seg_text]. rewrite !adds1, <- !adds_app, drop_0.
    rewrite (take_ge (drop _ q)) by (rewrite length_drop; lia). done.
Qed.

(** ** Conversions and templates *)

(** Arguments whose pointed-to objects hold values of their C type. *)
Definition arg_ok (a : va_arg) : Prop :=
  match a with
  | ArgInt _ => True
  | ArgStr s => bytes (default [] s)
  | ArgU8 p => bytes p
  | ArgU16 p => Forall (fun w => 0 <= w < 2 ^ 16) p
  end.

Definition letters : list Z := [99; 115; 100; 117; 120; 88; 118; 112; 103; 77; 73; 106; 74].

Lemma all_letters (l : list Z) c : forallb (fun k => bool_decide (k ∈ letters)) l = true -> c ∈ l -> c ∈ letters.
Proof.
  intros Hl Hc. rewrite forallb_forall in Hl. apply list_elem_of_In in Hc. by apply Hl, bool_decide_eq_true in Hc.
Qed.

Lemma convert_adds c flags va text va' out : size_flags flags -> Forall arg_ok va ->
  conversion c flags va = Some (text, va') ->
  convert c flags va out = Some (adds out text, va') /\ Forall arg_ok va'.
Proof.
  intros Hf Hva H. destruct (decide (c ∈ letters)) as [Hc | Hc].
  - unfold letters in Hc. set_unfold in Hc. unfold convert.
    destruct va as [| a va]; [naive_solver|]. inversion_clear Hva as [| ? ? Ha Hva']. unfold conversion in H.
    destruct a; repeat destruct Hc as [-> | Hc]; try done; cbn [Z.eqb Pos.eqb andb] in H |- *.
    all: try (destruct (bool_decide _) eqn:Hlen in H; [apply bool_decide_eq_true in Hlen | done]); injection H as <- <-; (split; [| done]).
    + unfold format_char. cbn [va_s32 mbind option_bind]. unfold _buffer_state_add, adds. simpl. unfold _buffer_state_add, u8.
      by rewrite <- (wrap_wrap_le 32 8 (sext 32 v)), sext_wrap, !wrap_wrap_le by lia.
    + by apply format_int_signed.
    + by apply (format_int_unsigned _ _ _ false).
    + by apply (format_int_unsigned _ _ _ true).
    + apply format_byte_adds.
    + apply format_size_adds.
    + apply format_pointer_adds.
    + apply format_ip4_adds.
    + by destruct s.
    + by apply format_uuid_adds.
    + by apply format_mac_adds.
    + by apply format_ip6_short_adds.
    + by apply format_ip6_full_adds.
  - assert (Hne : forall k, bool_decide (k ∈ letters) = true -> (c =? k) = false).
    { intros k Hk%bool_decide_eq_true. apply Z.eqb_neq. congruence. }
    unfold convert. rewrite !Hne by reflexivity.
    assert (conversion c flags va = Some ([37; c], va)) as E.
    { unfold conversion. rewrite !Hne by reflexivity. cbn [andb].
      destruct va as [| [] va]; rewrite bool_decide_eq_false_2; try done;
        intros Hin; apply Hc; revert Hin; apply all_letters; reflexivity. }
    rewrite E in H. injection H as <- <-. done.
Qed.

(** *** The text is made of bytes *)

Lemma digit_char_bytes l : Forall (fun d => 0 <= d < 16) l -> bytes (digit_char <$> l).
Proof.
  intros Hl. apply Forall_fmap. eapply Forall_impl; [exact Hl|]. intros d Hd. simpl in *. unfold digit_char. destruct (d <? 10); lia.
Qed.

Lemma lsd_digits fuel b v : 1 < b <= 16 -> Forall (fun d => 0 <= d < 16) (lsd fuel b v).
Proof.
  intros Hb. revert v. induction fuel as [| fuel IH]; intros v; [done|]. simpl. pose proof (Z.mod_pos_bound v b ltac:(lia)).
  constructor; [lia|]. destruct (v / b =? 0); [done | apply IH].
Qed.

Lemma numeral_bytes b v : 1 < b <= 16 -> bytes (numeral b v).
Proof. intros Hb. apply digit_char_bytes, Forall_reverse. by apply lsd_digits. Qed.

Lemma fixed_bytes n v : bytes (fixed 16 n v).
Proof.
  unfold fixed. apply Forall_fmap, Forall_true. intros i. simpl.
  pose proof (Z.mod_pos_bound (v / 16 ^ Z.of_nat (n - 1 - i)) 16 ltac:(lia)). unfold digit_char. destruct (_ <? 10); lia.
Qed.

Lemma join_bytes sep ls : bytes sep -> Forall bytes ls -> bytes (join sep ls).
Proof.
  intros Hs. induction 1 as [| l [| l' ls] Hl Hls IH]; [constructor | done |].
  apply Forall_app. split; [done|]. apply Forall_app. done.
Qed.

Lemma concat_bytes ls : Forall bytes ls -> bytes (List.concat ls).
Proof. induction 1; [constructor|]. simpl. by apply Forall_app. Qed.

Lemma ip6_full_bytes l : bytes (ip6_full_text l).
Proof. apply join_bytes; [by repeat constructor|]. apply Forall_fmap, Forall_true. intros w. by apply numeral_bytes. Qed.

Lemma map_fixed_bytes n l : Forall bytes (map (fixed 16 n) l).
Proof. induction l; constructor; [apply fixed_bytes | done]. Qed.

Lemma uuid_bytes p : bytes (uuid_text p).
Proof.
  unfold uuid_text. apply join_bytes; [by repeat constructor|]. pose proof (map_fixed_bytes 2 p) as Hh.
  repeat (apply Forall_cons; split); [apply concat_bytes.. | constructor]; auto using Forall_take, Forall_drop.
Qed.

Lemma conversion_bytes c flags va text va' : 0 <= c < 256 -> Forall arg_ok va ->
  conversion c flags va = Some (text, va') -> bytes text.
Proof.
  intros Hc Hva H. assert (Hp : bytes [37; c]) by (repeat constructor; lia).
  destruct va as [| a va]; [| inversion_clear Hva as [| ? ? Ha _]; destruct a]; unfold conversion in H;
    repeat case_match; simplify_eq; try done; try apply ip6_full_bytes; try apply uuid_bytes; try by apply numeral_bytes.
  - repeat constructor; apply u8_range.
  - unfold signed_numeral. case_match; [constructor; [lia|]|]; by apply numeral_bytes.
  - apply fixed_bytes.
  - unfold size_text. case_match; (apply Forall_app; split; [by apply numeral_bytes | by repeat constructor || (repeat constructor; try lia; apply bytes_nth; by repeat constructor)]).
  - apply Forall_app; split; [apply fixed_bytes | constructor; [lia | apply fixed_bytes]].
  - apply join_bytes; [by repeat constructor|]. repeat constructor; by apply numeral_bytes.
  - destruct s; [done | by repeat constructor].
  - apply join_bytes; [by repeat constructor|]. apply map_fixed_bytes.
  - unfold ip6_short_text. destruct (longest_run _) as [i n]. case_match; [apply ip6_full_bytes|].
    apply Forall_app; split; [apply ip6_full_bytes|]. do 2 (constructor; [lia|]). apply ip6_full_bytes.
Qed.

Lemma format_loop_render fuel template va text out : (List.length template <= fuel)%nat -> bytes template -> Forall arg_ok va ->
  render fuel template va = Some text -> format_loop fuel template va out = Some (adds out text) /\ bytes text.
Proof.
  revert template va text out. induction fuel as [| fuel IH]; intros [| c t] va text out Hlen Hb Hva H; simpl in Hlen; try lia.
  1, 2: simpl in *; simplify_eq; split; [done | constructor].
  inversion_clear Hb as [| ? ? Hc Ht]. cbn [render format_loop] in *. destruct (decide (c = 37)) as [-> | Hne].
  - cbn [Z.eqb Pos.eqb negb]. destruct (parse_flags t 0) as [[[c rest] flags]|] eqn:Hp; [| simplify_eq; split; [done | constructor]].
    apply parse_flags_split in Hp as [Hf [pre ->]]; [| unfold size_flags; set_solver].
    apply Forall_app in Ht as [_ Ht]. inversion_clear Ht as [| ? ? Hc' Hrest]. rewrite length_app in Hlen. simpl in Hlen.
    destruct (conversion c flags va) as [[txt va']|] eqn:Hcv; [| done]. rewrite bind_pair in H.
    destruct (render fuel rest va') as [txt'|] eqn:Hr; [| done]. injection H as <-.
    destruct (convert_adds _ _ _ _ _ out Hf Hva Hcv) as [-> Hva']. rewrite bind_pair.
    destruct (IH rest va' txt' (adds out txt) ltac:(lia) Hrest Hva' Hr) as [-> Hb']. rewrite adds_app. split; [done|].
    apply Forall_app. split; [| done]. exact (conversion_bytes _ _ _ _ _ Hc' Hva Hcv).
  - destruct (Z.eqb_spec c 37); [done|]. cbn [negb]. destruct (render fuel t va) as [txt|] eqn:Hr; [| done]. injection H as <-.
    destruct (IH t va txt (_buffer_state_add out c) ltac:(lia) Ht Hva Hr) as [-> Hb']. split; [done | by constructor].
Qed.

(** What a template prints, for arguments that match it. *)
Definition printed (template : list Z) (va : list va_arg) : option (list Z) := render (List.length template) template va.

(** The buffer afterwards. *)
Lemma format_string_result b len template va text :
  0 < len < 2 ^ 32 -> bytes template -> Forall arg_ok va -> printed template va = Some text ->
  exists n b', format_string_va b len template va = Some (n, b') /\
    n = Z.min (Z.of_nat (List.length text)) (len - 1) /\ mem_read b' 0 n = take (Z.to_nat n) text /\ b' n = 0 /\
    (forall i, i < 0 \/ n < i -> b' i = b i).
Proof.
  intros Hlen Hb Hva Hp. unfold format_string_va. destruct (Z.eqb_spec len 0); [lia|]. rewrite u32_id by lia.
  destruct (format_loop_render _ _ _ _ (FormatState b 0 (len - 1)) (le_n _) Hb Hva Hp) as [-> Ht]. cbn [mbind option_bind].
  destruct (adds_spec b (len - 1) text ltac:(lia) Ht) as (Hl & Ho & Hr & Hf).
  set (st := adds _ text) in *. rewrite Ho. do 2 eexists. split; [done|]. split; [done|]. split; [| split].
  - rewrite <- Hr. apply mem_read_ext. intros i Hi. unfold mem_set. destruct (Z.eqb_spec (0 + i) (Z.min (Z.of_nat (List.length text)) (len - 1))); [lia | done].
  - unfold mem_set. by rewrite Z.eqb_refl.
  - intros i Hi. unfold mem_set. destruct (Z.eqb_spec i (Z.min (Z.of_nat (List.length text)) (len - 1))); [lia|]. by apply Hf.
Qed.

(** ** Reading numerals back *)

Definition char_digit (c : Z) : Z := if c <? 58 then c - 48 else c - 87.
Definition read_numeral (b : Z) (l : list Z) : Z := foldl (fun a c => a * b + char_digit c) 0 l.
Definition read_signed (l : list Z) : Z :=
  match l with
  | [] => 0
  | c :: l' => if c =? 45 then - read_numeral 10 l' else read_numeral 10 l
  end.

Lemma char_digit_char d : 0 <= d < 16 -> char_digit (digit_char d) = d.
Proof. intros Hd. unfold char_digit, digit_char. destruct (Z.ltb_spec d 10); zcases; lia. Qed.

Lemma read_numeral_lsd k fuel b v : 1 < b <= 16 -> 0 <= v < b ^ Z.of_nat (S k) -> (k < fuel)%nat ->
  read_numeral b (digit_char <$> reverse (lsd fuel b v)) = v.
Proof.
  intros Hb. revert fuel v. induction k as [| k IH]; intros [| fuel] v Hv Hf; try lia; cbn [lsd];
    pose proof (Z.mod_pos_bound v b ltac:(lia)); rewrite reverse_cons, fmap_app; unfold read_numeral; rewrite foldl_app.
  - rewrite Z.pow_1_r in Hv. rewrite Z.div_small by lia. cbn. rewrite char_digit_char by lia. rewrite Z.mod_small; lia.
  - destruct (Z.eqb_spec (v / b) 0) as [E0 | E0].
    + cbn. rewrite char_digit_char by lia. rewrite (Z.div_mod v b) at 2 by lia. lia.
    + fold (read_numeral b (digit_char <$> reverse (lsd fuel b (v / b)))).
      rewrite IH; [| apply (next_range b ltac:(lia)); exact Hv | lia]. cbn. rewrite char_digit_char by lia.
      rewrite (Z.div_mod v b) at 3 by lia. lia.
Qed.

Lemma lsd_length k fuel b v : 1 < b -> 0 <= v < b ^ Z.of_nat (S k) -> (1 <= List.length (lsd (S fuel) b v) <= S k)%nat.
Proof.
  intros Hb. revert fuel v. induction k as [| k IH]; intros fuel v Hv; cbn [lsd List.length].
  - rewrite Z.pow_1_r in Hv. rewrite Z.div_small by lia. simpl. lia.
  - destruct (v / b =? 0); [simpl; lia|]. destruct fuel as [| fuel]; [simpl; lia|].
    pose proof (IH fuel (v / b) (next_range b Hb v (S k) Hv)). lia.
Qed.

Lemma numeral_length k b v : 1 < b -> 0 <= v < b ^ Z.of_nat (S k) -> (1 <= List.length (numeral b v) <= S k)%nat.
Proof. intros Hb Hv. unfold numeral. rewrite length_fmap, length_reverse. by apply lsd_length. Qed.

Lemma read_numeral_numeral b v : b = 10 \/ b = 16 -> 0 <= v < 2 ^ 64 -> read_numeral b (numeral b v) = v.
Proof.
  intros Hb Hv. apply (read_numeral_lsd 19); [lia | | lia].
  destruct Hb as [-> | ->]; (split; [apply Hv|]); (apply Z.lt_le_trans with (2 ^ 64); [apply Hv | by vm_compute]).
Qed.

(** A numeral starts with a digit, not with a sign. *)
Lemma numeral_head v : exists c l, numeral 10 v = c :: l /\ c <> 45.
Proof.
  unfold numeral. pose proof (lsd_digits 64 10 v ltac:(lia)) as Hd. apply Forall_reverse in Hd.
  assert (Hl : lsd 64 10 v <> []) by done. destruct (reverse (lsd 64 10 v)) as [| d l] eqn:E0.
  - by apply (f_equal reverse) in E0; rewrite reverse_involutive in E0.
  - inversion_clear Hd as [| ? ? H0 _]. exists (digit_char d), (digit_char <$> l). split; [done|].
    unfold digit_char. destruct (d <? 10); lia.
Qed.

Lemma read_signed_numeral s : - 2 ^ 63 <= s < 2 ^ 63 -> read_signed (signed_numeral s) = s.
Proof.
  intros Hs. unfold signed_numeral. destruct (Z.ltb_spec s 0).
  - cbn [read_signed]. rewrite Z.eqb_refl, read_numeral_numeral by (lia || auto). lia.
  - destruct (numeral_head s) as (c & l & E0 & Hc). rewrite E0. cbn [read_signed].
    destruct (Z.eqb_spec c 45); [done|]. rewrite <- E0. apply read_numeral_numeral; [auto | lia].
Qed.

(** C27: formatting into a buffer of [len] bytes stores the printed text cut to
    [len - 1] characters, terminates it, returns its length, and writes nowhere
    else: for every template, every conversion and every matching argument list
    the output stays inside the buffer. *)
Theorem format_string_correct b len template va text :
  0 < len < 2 ^ 32 -> bytes template -> Forall arg_ok va -> printed template va = Some text ->
  exists n b', format_string_va b len template va = Some (n, b') /\
    n = Z.min (Z.of_nat (List.length text)) (len - 1) /\ mem_read b' 0 n = take (Z.to_nat n) text /\ b' n = 0 /\
    (forall i, i < 0 \/ n < i -> b' i = b i).
Proof. apply format_string_result. Qed.

(** ["%ld %j"] into eleven bytes. *)
Lemma format_string_correct_witness :
  let template := [37; 108; 100; 32; 37; 106] in
  let va := [ArgInt (-25); ArgU16 [0xfe80; 0; 0; 0; 1; 0; 0; 2]] in
  let text := [45; 50; 53; 32; 102; 101; 56; 48; 58; 58; 49; 58; 48; 58; 48; 58; 50] in
  exists n b', format_string_va (fun _ => 255) 11 template va = Some (n, b') /\
    n = Z.min (Z.of_nat (List.length text)) (11 - 1) /\ mem_read b' 0 n = take (Z.to_nat n) text /\ b' n = 0 /\
    (forall i, i < 0 \/ n < i -> b' i = 255).
Proof.
  apply (format_string_correct (fun _ => 255) 11 [37; 108; 100; 32; 37; 106] [ArgInt (-25); ArgU16 [0xfe80; 0; 0; 0; 1; 0; 0; 2]]).
  - lia.
  - repeat constructor; lia.
  - repeat constructor; lia.
  - vm_compute. reflexivity.
Defined.

(** A number printed with [%ld] (in a buffer of at least 21 bytes) or with
    [%lx] (at least 17 bytes) reads back as the number, the sign and the most
    negative value included. *)
Theorem format_number_roundtrip b len v : 21 <= len < 2 ^ 32 ->
  (exists n b', format_string_va b len [37; 108; 100] [ArgInt v] = Some (n, b') /\
     read_signed (mem_read b' 0 n) = sext 64 v) /\
  (exists n b', format_string_va b len [37; 108; 120] [ArgInt v] = Some (n, b') /\
     read_numeral 16 (mem_read b' 0 n) = u64 v).
Proof.
  intros Hlen. pose proof (u64_range v) as Hu. pose proof (sext_range 64 v ltac:(lia)) as Hs.
  assert (Hva : Forall arg_ok [ArgInt v]) by (repeat constructor).
  split.
  - destruct (format_string_result b len [37; 108; 100] [ArgInt v] (signed_numeral (sext 64 v) ++ [])) as (n & b' & E0 & Hn & Hr & _);
      [lia | repeat constructor; lia | done | reflexivity |].
    exists n, b'. split; [done|]. rewrite Hr, app_nil_r in *. rewrite take_ge; [by apply read_signed_numeral|].
    enough (List.length (signed_numeral (sext 64 v)) <= 20)%nat by lia.
    unfold signed_numeral. destruct (Z.ltb_spec (sext 64 v) 0); cbn [List.length];
      [pose proof (numeral_length 18 10 (- sext 64 v)) | pose proof (numeral_length 18 10 (sext 64 v))]; lia.
  - destruct (format_string_result b len [37; 108; 120] [ArgInt v] (numeral 16 (u64 v) ++ [])) as (n & b' & E0 & Hn & Hr & _);
      [lia | repeat constructor; lia | done | reflexivity |].
    exists n, b'. split; [done|]. rewrite Hr, app_nil_r in *. rewrite take_ge; [apply read_numeral_numeral; auto|].
    pose proof (numeral_length 15 16 (u64 v)). lia.
Qed.

Lemma format_number_roundtrip_witness :
  exists n b', format_string_va (fun _ => 7) 21 [37; 108; 100] [ArgInt (- 2 ^ 63)] = Some (n, b') /\
    read_signed (mem_read b' 0 n) = - 2 ^ 63.
Proof. apply (proj1 (format_number_roundtrip (fun _ => 7) 21 (- 2 ^ 63) ltac:(lia))). Defined.

(** [%v] adds half a unit before it shifts; within half an exabyte of [2 ^ 64]
    the sum wraps and the size prints as ["0 EB"]. *)
Lemma size_wraps size : 2 ^ 64 - 2 ^ 59 <= size < 2 ^ 64 -> size_text size = [48; 32; 69; 66].
Proof.
  intros H. unfold size_text. destruct (Z.ltb_spec size (2 ^ 10)); [lia|].
  assert (Z.min 6 (Z.log2 size / 10) = 6) as ->.
  { rewrite (log2_unit 6); [done | lia |]. split; [lia|]. apply Z.lt_trans with (2 ^ 64); [lia | done]. }
  assert (u64 (size + 2 ^ (10 * 6 - 1)) = size + 2 ^ 59 - 2 ^ 64) as ->.
  { unfold u64, wrap. change (10 * 6 - 1) with 59. rewrite <- (Z.mod_small (size + 2 ^ 59 - 2 ^ 64) (2 ^ 64)) by lia.
    rewrite <- (Z.mod_add (size + 2 ^ 59 - 2 ^ 64) 1 (2 ^ 64)) by lia. f_equal. lia. }
  rewrite Z.div_small by lia. reflexivity.
Qed.
