(* ===== verification/Writer.v ===== *)
(** * Buffered writers ([src/src/kernel/writer/writer.c]).

    A writer collects appended data in a two-megabyte buffer and emits it to a
    file or to a growing memory block.  What the writer needs from either is
    the interface [Backend]; the writer is correct against every instance. *)
From stdpp Require Import base tactics list numbers.
From Stdlib Require Import ZArith Lia.
From S2P Require Import Prelude Bytes.
#[local] Open Scope Z_scope.

(** ** Storage behind a writer

    [resize] is [vfs_node_resize] or [amm_realloc], [write_at] is
    [vfs_node_write] or [mem_copy]: resizing keeps the common prefix, writing
    inside the object replaces exactly the written range. *)
Class Backend (B : Type) := {
  contents : B -> list Z;
  resize : B -> Z -> B;
  write_at : B -> Z -> list Z -> B;
  resize_length b n : 0 <= n -> Z.of_nat (length (contents (resize b n))) = n;
  resize_keeps b n k : Z.of_nat k <= n -> (k <= length (contents b))%nat ->
    take k (contents (resize b n)) = take k (contents b);
  write_at_contents b off l : 0 <= off -> off + Z.of_nat (length l) <= Z.of_nat (length (contents b)) ->
    contents (write_at b off l) = list_inserts (Z.to_nat off) l (contents b)
}.

Definition WRITER_BUFFER_SIZE : Z := 2097152.

Record writer_t (B : Type) := Writer {
  backend : B;
  buffer : list Z;
  offset : Z;
  size : Z
}.
Arguments Writer {B}. Arguments backend {B}. Arguments buffer {B}. Arguments offset {B}. Arguments size {B}.

Section writer.
Context `{Backend B}.

Definition _emit_data (writer : writer_t B) (data : list Z) : writer_t B :=
  let size' := u64 (size writer + Z.of_nat (length data)) in
  let node := resize (backend writer) size' in
  Writer (write_at node (size' - Z.of_nat (length data)) data) (buffer writer) (offset writer) size'.

(** [mapped] is the content of the freshly mapped buffer region. *)
Definition writer_init (node : B) (mapped : list Z) : writer_t B := Writer node mapped 0 0.

Definition writer_deinit (writer : writer_t B) : Z * B :=
  let writer :=
    if z2b (offset writer) then _emit_data writer (take (Z.to_nat (offset writer)) (buffer writer)) else writer in
  (size writer, backend writer).

Definition set_buffer (writer : writer_t B) (at_ : Z) (data : list Z) (offset' : Z) : writer_t B :=
  Writer (backend writer) (list_inserts (Z.to_nat at_) data (buffer writer)) offset' (size writer).

(** What is left of an append once the full buffer has been emitted. *)
Definition append_rest (writer : writer_t B) (data : list Z) (len : Z) : writer_t B :=
  let '(writer, data, len) :=
    if WRITER_BUFFER_SIZE <=? len then
      let space := Z.land len (u64 (- WRITER_BUFFER_SIZE)) in
      (_emit_data writer (take (Z.to_nat space) data), drop (Z.to_nat space) data, len - space)
    else (writer, data, len) in
  set_buffer writer 0 data len.

Definition writer_append (writer : writer_t B) (data : list Z) : writer_t B :=
  let len := Z.of_nat (length data) in
  if len =? 0 then writer
  else
    let space := WRITER_BUFFER_SIZE - offset writer in
    let space := if len <? space then len else space in
    let writer := set_buffer writer (offset writer) (take (Z.to_nat space) data) (offset writer + space) in
    let data := drop (Z.to_nat space) data in
    let len := len - space in
    if offset writer <? WRITER_BUFFER_SIZE then writer
    else
      let writer := _emit_data writer (take (Z.to_nat WRITER_BUFFER_SIZE) (buffer writer)) in
      append_rest writer data len.

Definition writer_flush (writer : writer_t B) : writer_t B :=
  if z2b (offset writer) then
    let writer := _emit_data writer (take (Z.to_nat (offset writer)) (buffer writer)) in
    Writer (backend writer) (buffer writer) 0 (size writer)
  else writer.

(** [writer_append_char] and the fixed-width variants of the header. *)
Definition writer_append_u8 (writer : writer_t B) (value : Z) : writer_t B := writer_append writer [u8 value].
Definition writer_append_u32 (writer : writer_t B) (value : Z) : writer_t B := writer_append writer (store_le32 (u32 value)).

(** ** What a writer holds *)

(** [holds w l]: the bytes appended so far are [l], split between the
    storage and the buffer. *)
Definition holds (w : writer_t B) (l : list Z) : Prop :=
  0 <= offset w < WRITER_BUFFER_SIZE /\ Z.of_nat (length (buffer w)) = WRITER_BUFFER_SIZE /\
  0 <= size w /\ Z.of_nat (length l) = size w + offset w /\
  (size w <> 0 -> contents (backend w) = take (Z.to_nat (size w)) l) /\
  take (Z.to_nat (offset w)) (buffer w) = drop (Z.to_nat (size w)) l.

Lemma emit_contents w data l : 0 <= size w -> size w + Z.of_nat (length data) < 2 ^ 64 -> (length data <> 0)%nat ->
  (size w <> 0 -> contents (backend w) = l) -> Z.of_nat (length l) = size w ->
  contents (backend (_emit_data w data)) = l ++ data /\ size (_emit_data w data) = size w + Z.of_nat (length data).
Proof.
  intros Hs Hb Hd Hc Hl. unfold _emit_data. simpl. rewrite u64_id by lia. split; [| done].
  set (n := size w + Z.of_nat (length data)). pose proof (resize_length (backend w) n ltac:(lia)) as Hr.
  rewrite write_at_contents by lia. replace (n - Z.of_nat (length data)) with (size w) by lia.
  rewrite list_inserts_at by lia. rewrite drop_ge, app_nil_r by lia. f_equal.
  destruct (decide (size w = 0)) as [E0 | E0].
  - rewrite E0, take_0. symmetry. apply nil_length_inv. lia.
  - specialize (Hc E0). rewrite resize_keeps by (rewrite ?Hc; lia). rewrite Hc. apply take_ge. lia.
Qed.

Lemma writer_init_holds node mapped : Z.of_nat (length mapped) = WRITER_BUFFER_SIZE -> holds (writer_init node mapped) [].
Proof. intros Hm. unfold holds, writer_init, WRITER_BUFFER_SIZE. simpl. split_and!; done || lia. Qed.

Lemma flush_holds w l : holds w l -> Z.of_nat (length l) < 2 ^ 64 -> holds (writer_flush w) l.
Proof.
  intros (Ho & Hbuf & Hs & Hl & Hc & Ht) Hb. unfold writer_flush, z2b. destruct (Z.eqb_spec (offset w) 0) as [E0 | E0]; [done|].
  cbn [negb]. rewrite Ht. set (d := drop _ l). assert (Hd : Z.of_nat (length d) = offset w) by (subst d; rewrite length_drop; lia).
  destruct (emit_contents w d (take (Z.to_nat (size w)) l)) as [Hc' Hs'];
    [done | lia | lia | done | rewrite length_take; lia |].
  unfold holds. simpl in *. rewrite Hc', Hs'. subst d. rewrite take_drop.
  split_and!; [lia | lia | done | lia | lia | |].
  - intros _. rewrite take_ge; [done | lia].
  - rewrite take_0, drop_ge; [done | lia].
Qed.

Lemma deinit_holds w l : holds w l -> Z.of_nat (length l) < 2 ^ 64 ->
  fst (writer_deinit w) = Z.of_nat (length l) /\ (l <> [] -> contents (snd (writer_deinit w)) = l).
Proof.
  intros (Ho & Hbuf & Hs & Hl & Hc & Ht) Hb. unfold writer_deinit, z2b. destruct (Z.eqb_spec (offset w) 0) as [E0 | E0]; cbn [negb fst snd].
  - split; [lia|]. intros Hne. rewrite Hc; [apply take_ge; lia|]. destruct l; [done | simpl in *; lia].
  - rewrite Ht. set (d := drop _ l). assert (Hd : Z.of_nat (length d) = offset w) by (subst d; rewrite length_drop; lia).
    destruct (emit_contents w d (take (Z.to_nat (size w)) l)) as [Hc' Hs'];
      [done | lia | lia | done | rewrite length_take; lia |].
    rewrite Hc', Hs'. subst d. rewrite take_drop. split; [lia | done].
Qed.

Lemma take_inserts (buf d : list Z) o : (o + length d <= length buf)%nat ->
  take (o + length d) (list_inserts o d buf) = take o buf ++ d.
Proof.
  intros Hl. rewrite list_inserts_at, app_assoc by done. rewrite take_app_le by (rewrite length_app, length_take; lia).
  apply take_ge. rewrite length_app, length_take. lia.
Qed.

(** [length&(-WRITER_BUFFER_SIZE)] rounds down to whole buffers. *)
Lemma whole_buffers len : 0 <= len < 2 ^ 64 ->
  Z.land len (u64 (- WRITER_BUFFER_SIZE)) = len / WRITER_BUFFER_SIZE * WRITER_BUFFER_SIZE.
Proof. intros Hlen. change WRITER_BUFFER_SIZE with (2 ^ 21). by apply land_round_down. Qed.

(** Emitting [data] when the buffer is spent moves the boundary. *)
Lemma emit_prefix w l data : 0 <= size w -> (size w <> 0 -> contents (backend w) = l) -> Z.of_nat (length l) = size w ->
  size w + Z.of_nat (length data) < 2 ^ 64 -> (length data <> 0)%nat ->
  let w' := _emit_data w data in
  contents (backend w') = l ++ data /\ size w' = size w + Z.of_nat (length data) /\ buffer w' = buffer w.
Proof. intros Hs Hc Hl Hb Hd. destruct (emit_contents w data l) as [H1 H2]; done. Qed.

(** The rest of an append whose first part has filled and emitted the buffer. *)
Lemma append_rest_holds w l data len : 0 < size w -> contents (backend w) = l -> Z.of_nat (length l) = size w ->
  Z.of_nat (length (buffer w)) = WRITER_BUFFER_SIZE -> len = Z.of_nat (length data) -> size w + len < 2 ^ 64 ->
  holds (append_rest w data len) (l ++ data).
Proof.
  intros Hs Hc Hl Hbuf Hlen Hb. unfold append_rest.
  assert (Hfin : forall w l data, 0 < size w -> contents (backend w) = l -> Z.of_nat (length l) = size w ->
    Z.of_nat (length (buffer w)) = WRITER_BUFFER_SIZE -> Z.of_nat (length data) < WRITER_BUFFER_SIZE ->
    holds (set_buffer w 0 data (Z.of_nat (length data))) (l ++ data)).
  { clear. intros w l data Hs Hc Hl Hbuf Hd. unfold holds, set_buffer. cbn [backend buffer offset size].
    rewrite length_app, length_inserts. split_and!; try lia.
    - intros _. rewrite take_app_le by lia. rewrite take_ge; [done | lia].
    - rewrite drop_app_ge by lia. replace (Z.to_nat (size w) - length l)%nat with 0%nat by lia. rewrite drop_0, Nat2Z.id.
      apply (take_inserts _ _ 0). lia. }
  destruct (Z.leb_spec WRITER_BUFFER_SIZE len) as [Hge | Hlt]; [| subst len; by apply Hfin].
  cbv zeta. rewrite whole_buffers by lia. set (space := len / WRITER_BUFFER_SIZE * WRITER_BUFFER_SIZE).
  assert (Hsp : 0 < space <= len /\ len - space < WRITER_BUFFER_SIZE)
    by (subst space; unfold WRITER_BUFFER_SIZE in *; Z.div_mod_to_equations; lia).
  set (d1 := take (Z.to_nat space) data). set (d2 := drop (Z.to_nat space) data).
  assert (Hd1 : Z.of_nat (length d1) = space) by (subst d1 len; rewrite length_take; lia).
  assert (Hd2 : Z.of_nat (length d2) = len - space) by (subst d2 len; rewrite length_drop; lia).
  destruct (emit_prefix w l d1) as (Hc1 & Hs1 & Hb1); [lia | done | done | lia | lia |].
  rewrite <- Hd2, <- (take_drop (Z.to_nat space) data), app_assoc. apply Hfin; try done.
  - lia.
  - fold d1. rewrite length_app. lia.
  - fold d2. lia.
Qed.

Lemma append_holds w l data : holds w l -> Z.of_nat (length l + length data) < 2 ^ 64 -> holds (writer_append w data) (l ++ data).
Proof.
  intros (Ho & Hbuf & Hs & Hl & Hc & Ht) Hb. unfold writer_append.
  set (len := Z.of_nat (length data)). destruct (Z.eqb_spec len 0) as [E0 | E0].
  { assert (data = []) as -> by (apply nil_length_inv; lia). rewrite app_nil_r. done. }
  set (space0 := WRITER_BUFFER_SIZE - offset w). set (space := if len <? space0 then len else space0).
  assert (Hsp : 1 <= space <= len /\ space <= space0) by (subst space; destruct (Z.ltb_spec len space0); lia).
  cbn [offset set_buffer buffer]. set (d1 := take (Z.to_nat space) data). set (d2 := drop (Z.to_nat space) data).
  assert (Hd1 : Z.of_nat (length d1) = space) by (subst d1 len; rewrite length_take; lia).
  assert (Hd2 : Z.of_nat (length d2) = len - space) by (subst d2 len; rewrite length_drop; lia).
  assert (Hd : data = d1 ++ d2) by (subst d1 d2; by rewrite take_drop).
  assert (Hpre : take (Z.to_nat (offset w + space)) (list_inserts (Z.to_nat (offset w)) d1 (buffer w)) = drop (Z.to_nat (size w)) l ++ d1).
  { replace (Z.to_nat (offset w + space)) with (Z.to_nat (offset w) + length d1)%nat by lia. rewrite take_inserts by lia. by rewrite Ht. }
  destruct (Z.ltb_spec (offset w + space) WRITER_BUFFER_SIZE) as [Hlt | Hge].
  - assert (space = len) by (subst space; destruct (Z.ltb_spec len space0); lia).
    assert (data = d1) as E1 by (rewrite Hd at 1; rewrite (nil_length_inv d2) by lia; by rewrite app_nil_r). rewrite <- E1 in *.
    unfold holds, set_buffer. cbn [backend buffer offset size]. rewrite length_app, length_inserts.
    split_and!; try lia.
    + intros Hs0. rewrite Hc, take_app_le by (done || lia). done.
    + rewrite Hpre, drop_app_le by lia. done.
  - assert (offset w + space = WRITER_BUFFER_SIZE) as E1 by lia. rewrite E1 in Hpre. unfold set_buffer.
    cbn [buffer]. rewrite Hpre. set (full := drop (Z.to_nat (size w)) l ++ d1).
    assert (Hfull : Z.of_nat (length full) = WRITER_BUFFER_SIZE) by (subst full; rewrite length_app, length_drop; lia).
    set (w1 := {| backend := backend w |}).
    destruct (emit_prefix w1 (take (Z.to_nat (size w)) l) full) as (Hc1 & Hs1 & Hb1);
      [done | done | simpl; rewrite length_take; lia | simpl; lia | unfold WRITER_BUFFER_SIZE in *; lia |].
    assert (Hl1 : take (Z.to_nat (size w)) l ++ full = l ++ d1) by (subst full; by rewrite app_assoc, take_drop).
    rewrite Hl1 in Hc1. set (w2 := _emit_data w1 full) in *. cbn [size buffer w1] in Hs1, Hb1.
    assert (Hbw : Z.of_nat (length (buffer w2)) = WRITER_BUFFER_SIZE) by (rewrite Hb1, length_inserts; done).
    assert (Hw2 : 0 < size w2) by (unfold WRITER_BUFFER_SIZE in *; lia).
    assert (Hl2 : Z.of_nat (length (l ++ d1)) = size w2) by (rewrite length_app; lia).
    replace (l ++ data) with ((l ++ d1) ++ d2) by (rewrite <- app_assoc, Hd; done).
    apply (append_rest_holds w2 (l ++ d1) d2 (len - space)); lia || done.
Qed.

(** ** Sequences of operations *)

Inductive writer_op := Append (data : list Z) | Flush.

Definition writer_step (w : writer_t B) (o : writer_op) : writer_t B :=
  match o with Append data => writer_append w data | Flush => writer_flush w end.

Definition appended (ops : list writer_op) : list Z :=
  List.concat (map (fun o => match o with Append data => data | Flush => [] end) ops).

Lemma steps_hold ops w l : holds w l -> Z.of_nat (length (l ++ appended ops)) < 2 ^ 64 ->
  holds (foldl writer_step w ops) (l ++ appended ops).
Proof.
  revert w l. induction ops as [| o ops IH]; intros w l Hw Hb; [by rewrite app_nil_r|]. simpl. unfold appended in *. simpl in *.
  destruct o as [data |].
  - rewrite app_assoc in *. apply IH; [| done]. apply append_holds; [done|]. rewrite !length_app in Hb. lia.
  - apply IH; [| done]. apply flush_holds; [done|]. rewrite !length_app in Hb. lia.
Qed.

(** The bytes a sequence of appends and flushes leaves behind. *)
Lemma writer_run node mapped ops :
  Z.of_nat (length mapped) = WRITER_BUFFER_SIZE -> Z.of_nat (length (appended ops)) < 2 ^ 64 ->
  let '(n, node') := writer_deinit (foldl writer_step (writer_init node mapped) ops) in
  n = Z.of_nat (length (appended ops)) /\ (appended ops <> [] -> contents node' = appended ops).
Proof.
  intros Hm Hb. pose proof (steps_hold ops _ [] (writer_init_holds node mapped Hm) Hb) as Hh.
  destruct (deinit_holds _ _ Hh Hb) as [H1 H2]. destruct (writer_deinit _). done.
Qed.

(** C28: whatever the sizes of the pieces and wherever flushes happen, the
    storage behind a writer ends up with exactly the bytes that were appended,
    in order, and closing returns their number. *)
Theorem writer_refines node mapped ops :
  Z.of_nat (length mapped) = WRITER_BUFFER_SIZE -> Z.of_nat (length (appended ops)) < 2 ^ 64 ->
  let '(n, node') := writer_deinit (foldl writer_step (writer_init node mapped) ops) in
  n = Z.of_nat (length (appended ops)) /\ (appended ops <> [] -> contents node' = appended ops).
Proof. apply writer_run. Qed.
End writer.

(** ** The memory backend: a block grown with [amm_realloc] *)

Lemma memory_resize_length (b : list Z) n : 0 <= n ->
  Z.of_nat (length (take (Z.to_nat n) b ++ replicate (Z.to_nat n - length b) 0)) = n.
Proof. intros Hn. rewrite length_app, length_take, length_replicate. lia. Qed.

Lemma memory_resize_keeps (b : list Z) n k : Z.of_nat k <= n -> (k <= length b)%nat ->
  take k (take (Z.to_nat n) b ++ replicate (Z.to_nat n - length b) 0) = take k b.
Proof.
  intros Hk Hl. rewrite take_app_le by (rewrite length_take; lia). rewrite take_take. f_equal. lia.
Qed.

#[export] Instance memory_backend : Backend (list Z) := {
  contents b := b;
  resize b n := take (Z.to_nat n) b ++ replicate (Z.to_nat n - length b) 0;
  write_at b off l := list_inserts (Z.to_nat off) l b;
  resize_length := memory_resize_length;
  resize_keeps := memory_resize_keeps;
  write_at_contents b off l _ _ := eq_refl
}.

Lemma writer_refines_witness :
  let '(n, node') := writer_deinit (foldl writer_step (writer_init ([] : list Z) (replicate (Z.to_nat WRITER_BUFFER_SIZE) 0))
                                      [Append [1; 2; 3]; Flush; Append [4]; Append []]) in
  n = 4 /\ ([1; 2; 3; 4] <> [] -> contents node' = [1; 2; 3; 4]).
Proof.
  apply (writer_refines [] (replicate (Z.to_nat WRITER_BUFFER_SIZE) 0) [Append [1; 2; 3]; Flush; Append [4]; Append []]).
  - rewrite length_replicate. apply Z2Nat.id. discriminate.
  - reflexivity.
Defined.
