(* ===== verification/Config.v ===== *)
(** * Configuration trees and their binary file format
    ([src/src/kernel/config/config.c], first part).

    A tag is a node of the tree; its identifier names the object
    [omm_alloc(_config_tag_allocator)] returned, so that double frees can be
    stated.  Input is read from memory [m] between the addresses [data] and
    [end_]; output goes through a writer. *)
From stdpp Require Import base tactics list numbers option.
From Stdlib Require Import ZArith Lia.
From S2P Require Import Prelude Bytes MemUtil StrEqual Writer.
#[local] Open Scope Z_scope.

Definition CONFIG_TAG_TYPE_NONE : Z := 0.
Definition CONFIG_TAG_TYPE_ARRAY : Z := 1.
Definition CONFIG_TAG_TYPE_STRING : Z := 2.
Definition CONFIG_TAG_TYPE_INT : Z := 3.
Definition CONFIG_TAG_TYPE_INT_NEGATIVE : Z := 4.

(** [config_tag_t]; the union follows the type.  The parent pointer of a tag is
    its place in the tree. *)
Inductive config_tag :=
  | TagOther (id : Z) (name : string_t) (type : Z)
  | TagArray (id : Z) (name : string_t) (data : list config_tag)
  | TagString (id : Z) (name : string_t) (string : option string_t)
  | TagInt (id : Z) (name : string_t) (int_ : Z).

Definition tag_id (t : config_tag) : Z :=
  match t with TagOther id _ _ | TagArray id _ _ | TagString id _ _ | TagInt id _ _ => id end.
Definition tag_name (t : config_tag) : string_t :=
  match t with TagOther _ n _ | TagArray _ n _ | TagString _ n _ | TagInt _ n _ => n end.

(** ** Trees *)

Definition config_tag_create (id type : Z) (name : string_t) : config_tag :=
  if type =? CONFIG_TAG_TYPE_ARRAY then TagArray id name []
  else if type =? CONFIG_TAG_TYPE_STRING then TagString id name (Some (smm_of []))
  else if (type =? CONFIG_TAG_TYPE_INT) || (type =? CONFIG_TAG_TYPE_INT_NEGATIVE) then TagInt id name 0
  else TagOther id name type.

(** The objects freed, in order. *)
Fixpoint config_tag_delete (t : config_tag) : list Z :=
  match t with
  | TagArray id _ data => List.concat (map config_tag_delete data) ++ [id]
  | _ => [tag_id t]
  end.

(** [None] is the panic on a parent that is not an array. *)
Definition config_tag_attach (tag child : config_tag) : option config_tag :=
  match tag with
  | TagArray id name data => Some (TagArray id name (data ++ [child]))
  | _ => None
  end.

(** The search loop of [config_tag_find] from index [pointer] on. *)
Fixpoint find_from (data : list config_tag) (name : string_t) (pointer : Z) : option (Z * config_tag) :=
  match data with
  | [] => None
  | t :: data => if smm_equal (tag_name t) name then Some (pointer + 1, t) else find_from data name (pointer + 1)
  end.

(** The next pointer and the tag found; [None] is the return value 0. *)
Definition config_tag_find (tag : config_tag) (name : string_t) (pointer : Z) : option (Z * config_tag) :=
  match tag with
  | TagArray _ _ data => find_from (drop (Z.to_nat pointer) data) name pointer
  | _ => None
  end.

(** ** Parsing the binary format *)

Definition load16_at (m : mem) (a : Z) : Z := m a + 256 * m (a + 1).
Definition load32_at (m : mem) (a : Z) : Z := load16_at m a + 2 ^ 16 * load16_at m (a + 2).

Inductive parse_result :=
  | ParseOk (data : Z) (out : config_tag) (next : Z)
  | ParseNull (slot : option config_tag) (freed : list Z) (next : Z)
      (* [NULL]; what [*out] is left pointing to and the objects freed on the way *)
  | ParseFault   (* memory outside an object is written, or undefined behaviour *)
  | ParseFuel.

Definition option_slot (slot : option config_tag) : list config_tag := match slot with Some t => [t] | None => [] end.

(** [value|=((u64)data[i])<<(i<<3)] for [i] below the length. *)
Definition load_int (m : mem) (data tag_length : Z) : Z :=
  foldl (fun value i => Z.lor value (Z.shiftl (m (data + i)) (Z.shiftl i 3))) 0 (seqZ 0 tag_length).

Section parse.
Context (m : mem) (strlen_fuel : nat) (end_ : Z).

(** The children loop; [acc] are the slots filled so far.  A child that fails
    leaves its slot as [slot] says before the whole array is deleted. *)
Fixpoint parse_children (parse : Z -> Z -> parse_result) (n : nat) (id : Z) (name : string_t)
    (data next : Z) (acc : list config_tag) : parse_result :=
  match n with
  | O => ParseOk data (TagArray id name acc) next
  | S n =>
    match parse data next with
    | ParseOk data child next => parse_children parse n id name data next (acc ++ [child])
    | ParseNull slot freed next =>
      let out := TagArray id name (acc ++ option_slot slot) in
      ParseNull (Some out) (freed ++ config_tag_delete out) next
    | r => r
    end
  end.

(** What follows the header. *)
Definition parse_body (parse : Z -> Z -> parse_result) (type id : Z) (name : string_t) (tag_length data next : Z) : parse_result :=
  if type =? CONFIG_TAG_TYPE_ARRAY then
    (* [amm_alloc] takes a [u32]; [mem_fill] clears all slots *)
    if u32 (8 + tag_length * 8) <? 8 + tag_length * 8 then ParseFault
    else parse_children parse (Z.to_nat tag_length) id name data next []
  else if type =? CONFIG_TAG_TYPE_STRING then
    if end_ <? data + tag_length then ParseNull (Some (TagString id name None)) [id] next
    else match smm_alloc strlen_fuel m data tag_length with
         | None => ParseFault
         | Some string => ParseOk (data + tag_length) (TagString id name (Some string)) next
         end
  else if (type =? CONFIG_TAG_TYPE_INT) || (type =? CONFIG_TAG_TYPE_INT_NEGATIVE) then
    if end_ <? data + tag_length then ParseNull (Some (TagOther id name type)) [id] next
    else if 8 <? tag_length then ParseFault
    else
      let value := sext 64 (load_int m data tag_length) in
      let value := if type =? CONFIG_TAG_TYPE_INT_NEGATIVE then sext 64 (- value) else value in
      ParseOk (data + tag_length) (TagInt id name value) next
  else ParseOk data (TagOther id name type) next.

Fixpoint _parse_binary_tag (fuel : nat) (data next : Z) : parse_result :=
  match fuel with
  | O => ParseFuel
  | S fuel =>
    if end_ <? data + 4 then ParseNull None [] next
    else
      let type := m data in
      let name_length := m (data + 1) in
      let header_length := load16_at m (data + 2) in
      let data := data + 4 in
      if end_ <? data + name_length + (if header_length =? 0xffff then 4 else 0) then ParseNull None [] next
      else
        let id := next in
        let next := next + 1 in
        match smm_alloc strlen_fuel m data name_length with
        | None => ParseFault
        | Some name =>
          let data := data + name_length in
          let '(tag_length, data) :=
            if header_length =? 0xffff then (load32_at m data, data + 4) else (header_length, data) in
          parse_body (_parse_binary_tag fuel) type id name tag_length data next
        end
  end.
End parse.

(** ** Saving *)

(** [__builtin_clzll] of a non-zero word. *)
Definition clz (x : Z) : Z := 63 - Z.log2 x.

Definition magnitude (int_ : Z) : Z := u64 (if int_ <? 0 then - int_ else int_).

Definition saved_type (t : config_tag) : Z :=
  match t with
  | TagOther _ _ type => type
  | TagArray _ _ _ => CONFIG_TAG_TYPE_ARRAY
  | TagString _ _ _ => CONFIG_TAG_TYPE_STRING
  | TagInt _ _ int_ => if int_ <? 0 then CONFIG_TAG_TYPE_INT_NEGATIVE else CONFIG_TAG_TYPE_INT
  end.

Definition saved_length (t : config_tag) : Z :=
  match t with
  | TagOther _ _ _ => 0
  | TagArray _ _ data => Z.of_nat (length data)
  | TagString _ _ string => match string with Some s => s_length s | None => 0 end
  | TagInt _ _ int_ => if int_ =? 0 then 0 else Z.shiftr (64 - clz (magnitude int_) + 7) 3
  end.

Section save.
Context `{Backend B}.

Definition save_header (writer : writer_t B) (t : config_tag) : writer_t B :=
  let tag_length := saved_length t in
  let name := tag_name t in
  let clipped := if tag_length <? 0xffff then tag_length else 0xffff in
  let writer := writer_append writer [u8 (saved_type t); u8 (s_length name); u8 clipped; u8 (Z.shiftr clipped 8)] in
  let writer := writer_append writer (s_data name) in
  if 0xffff <=? tag_length then writer_append_u32 writer tag_length else writer.

Fixpoint _save_binary_tag (writer : writer_t B) (t : config_tag) : writer_t B :=
  let writer := save_header writer t in
  match t with
  | TagArray _ _ data => foldl _save_binary_tag writer data
  | TagString _ _ string => writer_append writer (match string with Some s => s_data s | None => [] end)
  | TagInt _ _ int_ =>
    foldl (fun writer i => writer_append_u8 writer (Z.shiftr (magnitude int_) (Z.shiftl i 3))) writer
          (seqZ 0 (saved_length t))
  | TagOther _ _ _ => writer
  end.
End save.
