(* ===== verification/ConfigSpec.v ===== *)
(** * The binary configuration format: what is written, and reading it back. *)
From stdpp Require Import base tactics list numbers option.
From Stdlib Require Import ZArith Lia.
From S2P Require Import Prelude Bytes MemUtil StrEqual Writer Config.
#[local] Open Scope Z_scope.

(** ** Induction over trees *)

Section tag_induction.
Context (P : config_tag -> Prop).
Context (Hother : forall id name type, P (TagOther id name type)).
Context (Harray : forall id name data, Forall P data -> P (TagArray id name data)).
Context (Hstring : forall id name string, P (TagString id name string)).
Context (Hint : forall id name int_, P (TagInt id name int_)).

Fixpoint tag_ind (t : config_tag) : P t :=
  match t with
  | TagOther id name type => Hother id name type
  | TagArray id name data =>
    Harray id name data ((fix go (l : list config_tag) : Forall P l :=
      match l with [] => Forall_nil_2 P | t :: l => Forall_cons_2 P t l (tag_ind t) (go l) end) data)
  | TagString id name string => Hstring id name string
  | TagInt id name int_ => Hint id name int_
  end.
End tag_induction.

(** ** The bytes of a tree *)

Definition clipped (n : Z) : Z := if n <? 0xffff then n else 0xffff.

Definition header_bytes (t : config_tag) : list Z :=
  [u8 (saved_type t); u8 (s_length (tag_name t)); u8 (clipped (saved_length t)); u8 (Z.shiftr (clipped (saved_length t)) 8)]
  ++ s_data (tag_name t) ++ (if 0xffff <=? saved_length t then store_le32 (u32 (saved_length t)) else []).

Definition int_bytes (v n : Z) : list Z := (fun i => u8 (Z.shiftr v (Z.shiftl i 3))) <$> seqZ 0 n.

Fixpoint bin (t : config_tag) : list Z :=
  header_bytes t ++
  match t with
  | TagArray _ _ data => List.concat (map bin data)
  | TagString _ _ string => match string with Some s => s_data s | None => [] end
  | TagInt _ _ int_ => int_bytes (magnitude int_) (saved_length t)
  | TagOther _ _ _ => []
  end.

(** A string object that holds the characters of a C string. *)
Definition string_ok (s : string_t) : Prop := exists l, s = smm_of l /\ bytes l.

Definition name_ok (n : string_t) : Prop := string_ok n /\ s_length n < 256.

(** The trees the format can represent. *)
Fixpoint tag_ok (t : config_tag) : Prop :=
  name_ok (tag_name t) /\
  match t with
  | TagOther _ _ type => type = CONFIG_TAG_TYPE_NONE \/ 4 < type < 256
  | TagArray _ _ data => Z.of_nat (length data) < 2 ^ 29 - 1 /\ fold_right (fun t P => tag_ok t /\ P) True data
  | TagString _ _ string => match string with Some s => string_ok s /\ s_length s < 2 ^ 32 | None => False end
  | TagInt _ _ int_ => - 2 ^ 63 <= int_ < 2 ^ 63
  end.

Lemma tag_ok_children id name data : tag_ok (TagArray id name data) -> Forall tag_ok data.
Proof. intros (_ & _ & H). induction data as [| t data IH]; [done|]. destruct H. constructor; auto. Qed.

Fixpoint depth (t : config_tag) : nat :=
  match t with TagArray _ _ data => S (fold_right Nat.max 0%nat (map depth data)) | _ => 1%nat end.

Lemma depth_children id name data fuel : (depth (TagArray id name data) <= S fuel)%nat -> Forall (fun t => (depth t <= fuel)%nat) data.
Proof.
  simpl. intros H. induction data as [| t data IH]; [done|]. simpl in H. constructor; [lia | apply IH; lia].
Qed.

(** ** Saving *)

Section save.
Context `{Backend B}.
Implicit Type w : writer_t B.

Lemma appends_hold {A} (f : A -> list Z) (xs : list A) w l : holds w l ->
  Z.of_nat (length (l ++ List.concat (map f xs))) < 2 ^ 64 ->
  holds (foldl (fun w x => writer_append w (f x)) w xs) (l ++ List.concat (map f xs)).
Proof.
  revert w l. induction xs as [| x xs IH]; intros w l Hw Hb; [by rewrite app_nil_r|]. simpl in *.
  rewrite app_assoc in *. apply IH; [| done]. apply append_holds; [done|]. rewrite !length_app in Hb. lia.
Qed.

Lemma save_header_holds w l t : holds w l -> Z.of_nat (length (l ++ header_bytes t)) < 2 ^ 64 ->
  holds (save_header w t) (l ++ header_bytes t).
Proof.
  intros Hw Hb. unfold save_header, header_bytes in *. fold (clipped (saved_length t)). rewrite !app_assoc in *.
  assert (Hl : Z.of_nat (length ((l ++ [u8 (saved_type t); u8 (s_length (tag_name t)); u8 (clipped (saved_length t)); u8 (Z.shiftr (clipped (saved_length t)) 8)]) ++ s_data (tag_name t))) < 2 ^ 64)
    by (rewrite length_app in Hb; lia).
  assert (H1 := append_holds _ _ [u8 (saved_type t); u8 (s_length (tag_name t)); u8 (clipped (saved_length t)); u8 (Z.shiftr (clipped (saved_length t)) 8)] Hw).
  rewrite !length_app in Hl. specialize (H1 ltac:(lia)).
  apply (append_holds _ _ (s_data (tag_name t))) in H1; [| rewrite !length_app; lia].
  destruct (0xffff <=? saved_length t) in Hb |- *; [| by rewrite app_nil_r]. unfold writer_append_u32. apply append_holds; [done|].
  rewrite !length_app in Hb. rewrite !length_app. lia.
Qed.

(** Saving a tree appends its bytes. *)
Lemma save_binary_holds t : forall w l, holds w l -> Z.of_nat (length (l ++ bin t)) < 2 ^ 64 ->
  holds (_save_binary_tag w t) (l ++ bin t).
Proof.
  induction t as [id name type | id name data IH | id name string | id name int_] using tag_ind; intros w l Hw Hb;
    cbn [bin _save_binary_tag] in *; rewrite app_assoc in *;
    match type of Hb with context [header_bytes ?t] =>
      assert (Hh : holds (save_header w t) (l ++ header_bytes t))
        by (apply save_header_holds; [exact Hw | clear -Hb; rewrite length_app in Hb; lia])
    end.
  - by rewrite app_nil_r.
  - revert Hh Hb. generalize (l ++ header_bytes (TagArray id name data)) as l0.
    generalize (save_header w (TagArray id name data)) as w0. clear w l Hw.
    induction IH as [| t data Ht _ IHd]; intros w l Hw Hb; [by rewrite app_nil_r|]. simpl in *.
    rewrite app_assoc in *. apply IHd; [| done]. apply Ht; [done|]. rewrite length_app in Hb. lia.
  - apply append_holds; [done|]. rewrite length_app in Hb. lia.
  - assert (Hc : forall n, int_bytes (magnitude int_) n = List.concat (map (fun i => [u8 (Z.shiftr (magnitude int_) (Z.shiftl i 3))]) (seqZ 0 n))).
    { intros n. unfold int_bytes. induction (seqZ 0 n); [done|]. simpl. f_equal. done. }
    rewrite Hc in *. apply (appends_hold (fun i => [u8 (Z.shiftr (magnitude int_) (Z.shiftl i 3))])); done.
Qed.
End save.

(** ** Reading back *)

(** The bytes [l] are in memory at [a]. *)
Definition stored (m : mem) (a : Z) (l : list Z) : Prop := mem_read m a (Z.of_nat (length l)) = l.

Lemma stored_app m a l1 l2 : stored m a (l1 ++ l2) -> stored m a l1 /\ stored m (a + Z.of_nat (length l1)) l2.
Proof.
  unfold stored. rewrite length_app, Nat2Z.inj_add, mem_read_add by lia. intros E0.
  apply app_inj_1 in E0; [done|]. rewrite length_mem_read. lia.
Qed.

Lemma stored_cons m a x l : stored m a (x :: l) -> m a = x /\ stored m (a + 1) l.
Proof.
  intros Hs. destruct (stored_app m a [x] l Hs) as [H1 H2]. split; [| done].
  unfold stored, mem_read in H1. simpl in H1. injection H1. by rewrite Z.add_0_r.
Qed.

Lemma stored_lookup m a l i x : stored m a l -> l !! i = Some x -> m (a + Z.of_nat i) = x.
Proof.
  intros Hs Hi. rewrite <- Hs, lookup_mem_read in Hi. case_match; simplify_eq. done.
Qed.

Lemma word16_bytes c : 0 <= c < 2 ^ 16 -> u8 c + 256 * u8 (Z.shiftr c 8) = c.
Proof.
  intros Hc. unfold u8, wrap. rewrite Z.shiftr_div_pow2 by lia. change (2 ^ 8) with 256.
  rewrite (Z.mod_small (c / 256)) by (split; [apply Z.div_pos | apply Z.div_lt_upper_bound]; lia).
  pose proof (Z.div_mod c 256). lia.
Qed.

Lemma stored_load32 m a x : word32 x -> stored m a (store_le32 x) -> load32_at m a = x.
Proof.
  intros Hx Hs. unfold load32_at, load16_at. unfold store_le32 in Hs. cbn [map seq] in Hs.
  repeat (apply stored_cons in Hs as [?Hm Hs]). change (8 * Z.of_nat 0) with 0 in *. change (8 * Z.of_nat 1) with 8 in *.
  change (8 * Z.of_nat 2) with 16 in *. change (8 * Z.of_nat 3) with 24 in *.
  replace (a + 1 + 1) with (a + 2) in * by lia. replace (a + 2 + 1) with (a + 3) in * by lia.
  rewrite Hm, Hm0, Hm1, Hm2, !land_255, !Z.shiftr_div_pow2, Z.pow_0_r, Z.div_1_r by lia.
  pose proof (word_bytes x Hx). lia.
Qed.

Lemma load_int_stored m a v n : 0 <= v -> stored m a (int_bytes v n) -> 0 <= n ->
  load_int m a n = v mod 2 ^ (8 * n).
Proof.
  intros Hv Hs Hn. unfold load_int.
  assert (Hm : forall i, 0 <= i < n -> m (a + i) = u8 (Z.shiftr v (8 * i))).
  { intros i Hi. replace i with (Z.of_nat (Z.to_nat i)) at 1 by lia. apply (stored_lookup _ _ _ _ _ Hs).
    unfold int_bytes. rewrite list_lookup_fmap, lookup_seqZ_lt by lia. simpl. do 2 f_equal.
    rewrite Z.shiftl_mul_pow2 by lia. f_equal. lia. }
  replace (seqZ 0 n) with (seqZ 0 (Z.of_nat (Z.to_nat n))) by (f_equal; lia).
  replace (8 * n) with (8 * Z.of_nat (Z.to_nat n)) by lia.
  assert (Hk : forall k, (k <= Z.to_nat n)%nat -> foldl (fun value i => Z.lor value (Z.shiftl (m (a + i)) (Z.shiftl i 3))) 0 (seqZ 0 (Z.of_nat k)) = v mod 2 ^ (8 * Z.of_nat k)).
  { induction k as [| k IH]; intros Hk; [by rewrite Z.mod_1_r|].
    replace (Z.of_nat (S k)) with (Z.of_nat k + 1) by lia. rewrite seqZ_app, foldl_app, IH by lia.
    change (seqZ (0 + Z.of_nat k) 1) with [0 + (0 + Z.of_nat k)]. rewrite !Z.add_0_l. cbn [foldl]. rewrite Hm by lia. rewrite (Z.shiftl_mul_pow2 (Z.of_nat k)) by lia. change (2 ^ 3) with 8. rewrite (Z.mul_comm _ 8).
    rewrite Z.lor_comm, lor_shiftl_add by (lia || apply Z.mod_pos_bound; lia). unfold u8, wrap. rewrite Z.shiftr_div_pow2 by lia.
    replace (8 * (Z.of_nat k + 1)) with (8 * Z.of_nat k + 8) by lia. rewrite Z.pow_add_r by lia.
    rewrite Z.rem_mul_r by lia. lia. }
  apply Hk. lia.
Qed.

Lemma int_length v : 0 < v < 2 ^ 64 ->
  let n := Z.shiftr (64 - clz v + 7) 3 in 1 <= n <= 8 /\ v < 2 ^ (8 * n).
Proof.
  intros Hv. cbv zeta. unfold clz. rewrite Z.shiftr_div_pow2 by lia. change (2 ^ 3) with 8.
  pose proof (Z.log2_spec v ltac:(lia)) as [_ H2]. pose proof (Z.log2_nonneg v).
  assert (Z.log2 v < 64) by (apply Z.log2_lt_pow2; lia). set (n := (64 - (63 - Z.log2 v) + 7) / 8).
  assert (Z.succ (Z.log2 v) <= 8 * n /\ 1 <= n <= 8) by (subst n; Z.div_mod_to_equations; lia).
  split; [lia|]. apply Z.lt_le_trans with (2 ^ Z.succ (Z.log2 v)); [done|]. apply Z.pow_le_mono_r; lia.
Qed.

(** The integer of a tag comes back. *)
Lemma int_roundtrip int_ : - 2 ^ 63 <= int_ < 2 ^ 63 ->
  let v := sext 64 (magnitude int_) in (if int_ <? 0 then sext 64 (- v) else v) = int_.
Proof.
  intros Hi v. subst v. unfold magnitude. destruct (Z.ltb_spec int_ 0).
  - rewrite u64_id by lia. destruct (Z.eqb_spec int_ (- 2 ^ 63)) as [-> | ?]; [reflexivity|].
    assert (sext 64 (- int_) = - int_) as -> by (unfold sext; rewrite Z.mod_small; lia).
    unfold sext. rewrite Z.mod_small; lia.
  - rewrite u64_id by lia. unfold sext. rewrite Z.mod_small; lia.
Qed.

(** [smm_alloc] takes a length of 0 for "up to the terminator": an empty string
    is read back as whatever follows it.  All other strings are preserved. *)
Definition string_like (s s' : string_t) : Prop := s_data s <> [] -> s' = s.

Inductive tag_like : config_tag -> config_tag -> Prop :=
  | like_other id id' n n' type : string_like n n' -> tag_like (TagOther id n type) (TagOther id' n' type)
  | like_array id id' n n' d d' : string_like n n' -> Forall2 tag_like d d' -> tag_like (TagArray id n d) (TagArray id' n' d')
  | like_string id id' n n' s s' : string_like n n' -> string_like s s' ->
      tag_like (TagString id n (Some s)) (TagString id' n' (Some s'))
  | like_int id id' n n' v : string_like n n' -> tag_like (TagInt id n v) (TagInt id' n' v).

Section read_back.
Context (m : mem) (strlen_fuel : nat) (end_ : Z).
(** Somewhere behind every position of the data is a zero byte. *)
Context (Hterm : forall p, exists l, cstr m p l /\ (length l < strlen_fuel)%nat).

Lemma alloc_stored s a : string_ok s -> stored m a (s_data s) ->
  exists s', smm_alloc strlen_fuel m a (s_length s) = Some s' /\ string_like s s'.
Proof.
  intros (l & -> & Hl) Hs. cbn [smm_of s_length s_data] in *. unfold smm_alloc.
  destruct (Z.eqb_spec (Z.of_nat (length l)) 0) as [E0 | E0].
  - destruct (Hterm a) as (l0 & Hc & Hf). pose proof (smm_length_ok m a l0 strlen_fuel 0) as Hlen.
    change (Z.of_nat 0) with 0 in Hlen. rewrite Z.add_0_r in Hlen. rewrite (Hlen Hc Hf). eexists. split; [done|].
    intros Hne. destruct l; [done | simpl in *; lia].
  - eexists. split; [done|]. intros _. unfold stored in Hs. by rewrite Hs.
Qed.

Lemma clipped_range n : 0 <= n -> 0 <= clipped n < 2 ^ 16.
Proof. intros Hn. unfold clipped. destruct (Z.ltb_spec n 0xffff); lia. Qed.

Lemma string_ok_length s : string_ok s -> s_length s = Z.of_nat (length (s_data s)).
Proof. by intros (l & -> & _). Qed.

Lemma saved_length_range t : tag_ok t -> 0 <= saved_length t < 2 ^ 32.
Proof.
  destruct t as [id n ty | id n d | id n [s|] | id n v]; intros [_ H]; cbn [saved_length].
  - lia.
  - destruct H. lia.
  - destruct H as [(l & -> & _) H]. simpl in *. lia.
  - destruct H.
  - destruct (Z.eqb_spec v 0); [lia|]. pose proof (int_length (magnitude v)) as Hl.
    assert (0 < magnitude v < 2 ^ 64) by (unfold magnitude; destruct (Z.ltb_spec v 0); rewrite u64_id; lia).
    cbv zeta in Hl. lia.
Qed.

Lemma saved_type_range t : tag_ok t -> 0 <= saved_type t < 256.
Proof.
  destruct t as [id n ty | id n d | id n s | id n v]; intros [_ H]; simpl; unfold CONFIG_TAG_TYPE_NONE, CONFIG_TAG_TYPE_ARRAY,
    CONFIG_TAG_TYPE_STRING, CONFIG_TAG_TYPE_INT, CONFIG_TAG_TYPE_INT_NEGATIVE in *; try lia. destruct (v <? 0); lia.
Qed.

(** The header of a saved tag: the fields the parser sees. *)
Lemma header_fields t a : tag_ok t -> stored m a (header_bytes t) ->
  m a = saved_type t /\ m (a + 1) = s_length (tag_name t) /\ load16_at m (a + 2) = clipped (saved_length t) /\
  stored m (a + 4) (s_data (tag_name t)) /\
  (0xffff <= saved_length t -> load32_at m (a + 4 + s_length (tag_name t)) = saved_length t) /\
  Z.of_nat (length (header_bytes t)) = 4 + s_length (tag_name t) + (if 0xffff <=? saved_length t then 4 else 0).
Proof.
  intros Hok Hs. pose proof (saved_type_range t Hok) as Hty. pose proof (saved_length_range t Hok) as Hlr.
  assert (Hn : name_ok (tag_name t)) by (destruct t; apply Hok). destruct Hn as [Hns Hn256].
  pose proof (string_ok_length _ Hns) as Hnl. unfold header_bytes in *.
  apply stored_app in Hs as [Hs1 Hs2]. apply stored_app in Hs2 as [Hs2 Hs3]. cbn [length] in Hs2, Hs3. change (Z.of_nat 4) with 4 in *.
  apply stored_cons in Hs1 as [H1 Hs1]. apply stored_cons in Hs1 as [H2 Hs1].
  apply stored_cons in Hs1 as [H3 Hs1]. apply stored_cons in Hs1 as [H4 _].
  replace (a + 1 + 1) with (a + 2) in * by lia.
  assert (Hu : forall x, 0 <= x < 256 -> u8 x = x) by (intros; by apply wrap_id).
  rewrite Hu in H1 by lia. rewrite Hu in H2 by lia. split_and!; try done.
  - unfold load16_at. rewrite H3, H4. apply word16_bytes. apply clipped_range. lia.
  - intros Hge. rewrite (proj2 (Z.leb_le _ _) Hge) in Hs3. rewrite <- Hnl in Hs3.
    rewrite (u32_id (saved_length t)) in Hs3 by lia. by apply stored_load32.
  - rewrite length_app, length_app. cbn [length]. destruct (0xffff <=? saved_length t); cbn; lia.
Qed.

Lemma parse_children_like (parse : Z -> Z -> parse_result) id name : forall data data' a next acc acc',
  Forall (fun t => forall a next, stored m a (bin t) -> a + Z.of_nat (length (bin t)) <= end_ ->
    exists t' next', parse a next = ParseOk (a + Z.of_nat (length (bin t))) t' next' /\ tag_like t t') data ->
  data' = List.concat (map bin data) -> stored m a data' -> a + Z.of_nat (length data') <= end_ -> Forall2 tag_like acc acc' ->
  exists d' next', parse_children parse (length data) id name a next acc' =
    ParseOk (a + Z.of_nat (length data')) (TagArray id name d') next' /\ Forall2 tag_like (acc ++ data) d'.
Proof.
  induction data as [| t data IH]; intros data' a next acc acc' Hp -> Hs Hend Hacc.
  { exists acc', next. rewrite app_nil_r. split; [| done]. simpl. by rewrite Z.add_0_r. }
  inversion_clear Hp as [| ? ? Ht Hp']. cbn [map List.concat length] in *. apply stored_app in Hs as [Hs1 Hs2].
  rewrite length_app in *. cbn [parse_children]. destruct (Ht a next Hs1 ltac:(lia)) as (t' & next' & -> & Hlike).
  destruct (IH _ (a + Z.of_nat (length (bin t))) next' (acc ++ [t]) (acc' ++ [t']) Hp' eq_refl Hs2 ltac:(lia)) as (d' & next'' & E0 & Hd').
  { apply Forall2_app; [done | by repeat constructor]. }
  exists d', next''. rewrite E0, <- app_assoc in *. split; [f_equal; lia | done].
Qed.

(** A saved tag: its header is recognised and the body is parsed. *)
Lemma parse_header t fuel a next : tag_ok t -> stored m a (header_bytes t) ->
  a + Z.of_nat (length (header_bytes t)) <= end_ ->
  exists name, string_like (tag_name t) name /\
    _parse_binary_tag m strlen_fuel end_ (S fuel) a next =
    parse_body m strlen_fuel end_ (_parse_binary_tag m strlen_fuel end_ fuel) (saved_type t) next name (saved_length t)
      (a + Z.of_nat (length (header_bytes t))) (next + 1).
Proof.
  intros Hok Hh Hend. destruct (header_fields t a Hok Hh) as (H1 & H2 & H3 & H4 & H5 & H6).
  pose proof (saved_length_range t Hok) as Hr. assert (Hn : name_ok (tag_name t)) by (destruct t; apply Hok).
  destruct (alloc_stored (tag_name t) (a + 4) (proj1 Hn) H4) as (name & Ha & Hlike). exists name. split; [done|].
  pose proof (string_ok_length _ (proj1 Hn)). cbn [_parse_binary_tag]. rewrite H1, H2, H3.
  assert (Hc : (clipped (saved_length t) =? 0xffff) = (0xffff <=? saved_length t)).
  { unfold clipped. destruct (Z.ltb_spec (saved_length t) 0xffff), (Z.leb_spec 0xffff (saved_length t)); lia. }
  rewrite Hc, H6 in *. rewrite (proj2 (Z.ltb_ge end_ (a + 4))) by (destruct (0xffff <=? _); lia).
  rewrite (proj2 (Z.ltb_ge end_ _)) by lia. rewrite Ha. destruct (Z.leb_spec 0xffff (saved_length t)) as [Hge | Hlt].
  - rewrite H5 by done. f_equal; lia.
  - unfold clipped. rewrite (proj2 (Z.ltb_lt _ _) Hlt). f_equal; lia.
Qed.

(** Parsing a saved tree. *)
Lemma parse_bin t : forall fuel a next, tag_ok t -> stored m a (bin t) -> a + Z.of_nat (length (bin t)) <= end_ ->
  (depth t <= fuel)%nat ->
  exists t' next', _parse_binary_tag m strlen_fuel end_ fuel a next = ParseOk (a + Z.of_nat (length (bin t))) t' next' /\ tag_like t t'.
Proof.
  induction t as [id n ty | id n d IH | id n s | id n v] using tag_ind; intros [| fuel] a next Hok Hs Hend Hfuel;
    try (simpl in Hfuel; lia).
  all: cbn [bin] in *; apply stored_app in Hs as [Hh Hs]; rewrite length_app in *.
  all: destruct (parse_header _ fuel a next Hok Hh ltac:(lia)) as (name & Hname & ->); pose proof (saved_length_range _ Hok) as Hr.
  all: set (h := Z.of_nat (length (header_bytes _))) in *; rewrite Nat2Z.inj_add, Z.add_assoc in *; fold h in Hend |- *.
  all: unfold parse_body; pose proof Hok as Hok0; destruct Hok as [_ Hok]; cbn [saved_type saved_length tag_name] in *.
  - destruct (Z.eqb_spec ty CONFIG_TAG_TYPE_ARRAY), (Z.eqb_spec ty CONFIG_TAG_TYPE_STRING), (Z.eqb_spec ty CONFIG_TAG_TYPE_INT),
      (Z.eqb_spec ty CONFIG_TAG_TYPE_INT_NEGATIVE); unfold CONFIG_TAG_TYPE_NONE, CONFIG_TAG_TYPE_ARRAY, CONFIG_TAG_TYPE_STRING,
      CONFIG_TAG_TYPE_INT, CONFIG_TAG_TYPE_INT_NEGATIVE in *; try lia. cbn [orb].
    do 2 eexists. split; [by rewrite Z.add_0_r | by constructor].
  - rewrite Z.eqb_refl. destruct Hok as [Hlen Hch]. rewrite u32_id, Z.ltb_irrefl, Nat2Z.id by lia.
    destruct (parse_children_like (_parse_binary_tag m strlen_fuel end_ fuel) next name d (List.concat (map bin d)) (a + h) (next + 1) [] [])
      as (d' & next' & E0 & Hd'); [| reflexivity | exact Hs | done | constructor |].
    + pose proof (tag_ok_children _ _ _ Hok0) as Hoks. pose proof (depth_children _ _ _ _ Hfuel) as Hdep.
      rewrite Forall_forall in Hoks, Hdep, IH |- *. intros t Ht a0 next0 Hs0 Hend0. apply IH; auto.
    + rewrite E0. do 2 eexists. split; [done | by constructor].
  - change (CONFIG_TAG_TYPE_STRING =? CONFIG_TAG_TYPE_ARRAY) with false. rewrite Z.eqb_refl.
    destruct s as [s|]; [| done]. destruct Hok as [Hs1 Hs2]. rewrite (string_ok_length _ Hs1) in *.
    rewrite (proj2 (Z.ltb_ge _ _)) by lia. rewrite <- (string_ok_length _ Hs1) in *.
    destruct (alloc_stored s (a + h) Hs1 Hs) as (s' & -> & Hlike). do 2 eexists. split; [| by constructor].
    by rewrite (string_ok_length _ Hs1).
  - assert (Hm : 0 <= magnitude v < 2 ^ 64) by apply u64_range.
    set (n0 := if v =? 0 then 0 else _) in *. assert (Hn0 : 0 <= n0 <= 8 /\ magnitude v < 2 ^ (8 * n0)).
    { subst n0. destruct (Z.eqb_spec v 0) as [-> | Hv]; [done|]. pose proof (int_length (magnitude v)) as Hl. cbv zeta in Hl.
      assert (0 < magnitude v) by (unfold magnitude; destruct (Z.ltb_spec v 0); rewrite u64_id; lia). lia. }
    unfold int_bytes in Hend at 1. rewrite length_fmap, length_seqZ in Hend.
    assert (Hl : load_int m (a + h) n0 = magnitude v).
    { rewrite (load_int_stored _ _ (magnitude v)) by (done || lia). apply Z.mod_small. lia. }
    rewrite (proj2 (Z.ltb_ge end_ (a + h + n0))) by lia. rewrite (proj2 (Z.ltb_ge 8 n0)), Hl by lia.
    exists (TagInt next name v), (next + 1). split; [| by constructor].
    pose proof (int_roundtrip v Hok) as Hv. cbv zeta in Hv. unfold int_bytes. rewrite length_fmap, length_seqZ, Z2Nat.id by lia.
    destruct (v <? 0); cbn; by rewrite Hv.
Qed.
End read_back.
