(* ===== verification/ConfigFile.v ===== *)
(** * Binary configuration files: header, encryption and integrity check
    ([src/src/kernel/config/config.c]: [_parse_binary_config] and the binary
    branch of [config_save_to_file]).

    This file composes the tree format, the writer, PBKDF2, HMAC-SHA-256 and
    AES-CBC. *)
From stdpp Require Import base tactics list numbers option.
From Stdlib Require Import ZArith Lia.
From S2P Require Import Prelude Bytes MemUtil StrEqual Sha256 Hmac Aes Writer Config ConfigSpec.
#[local] Open Scope Z_scope.

Definition CONFIG_BINARY_FILE_SIGNATURE : Z := 0x80474643.
Definition CONFIG_BINARY_FILE_VERSION : Z := 1.
Definition COFNIG_BINARY_FILE_FLAG_COMPRESSED : Z := 1.
Definition COFNIG_BINARY_FILE_FLAG_ENCRYPTED : Z := 2.
Definition CONFIG_ENCRYPTION_PBKDF2_ITERATIONS : nat := 1024.

(** [config_file_header_t] is packed: ten bytes. *)
Definition file_header_bytes (flags size : Z) : list Z :=
  store_le32 CONFIG_BINARY_FILE_SIGNATURE ++ [CONFIG_BINARY_FILE_VERSION; flags] ++ store_le32 (u32 size).

(** The password argument: [NULL], [CONFIG_PASSWORD_MASTER_KEY] or a C string. *)
Inductive password_t := NoPassword | MasterKey | Password (chars : list Z).

#[export] Instance password_eq_dec : EqDecision password_t.
Proof. solve_decision. Defined.

Inductive load_result := Loaded (out : config_tag) | LoadNull | LoadFault.

Section config_file.
Context (keyring_master_key : list Z).

Definition password_bytes (password : password_t) : list Z :=
  match password with NoPassword => [] | MasterKey => keyring_master_key | Password chars => chars end.

(** [heap] is the content of the block PBKDF2 allocates. *)
Definition derive_key (heap : list Z) (password : password_t) (salt : list Z) : option (list Z) :=
  pbkdf2_compute heap (password_bytes password) salt _pbkdf2_prf_hmac_sha256_data CONFIG_ENCRYPTION_PBKDF2_ITERATIONS 48.

(** The comparison loop over the 32 bytes of the two codes. *)
Definition hmac_difference (a b : list Z) : Z := foldl Z.lor 0 (zip_with Z.lxor a b).

(** The decrypted data, [inl] for an early return. *)
Definition decrypt_config (m : mem) (data len : Z) (password : password_t) (stack heap : list Z) : load_result + list Z :=
  if len <? 48 then inl LoadNull
  else
    let stored_hmac := mem_read m data 32 in
    let salt := mem_read m (data + 32) 16 in
    let data := data + 48 in
    let len := len - 48 in
    match password with
    | NoPassword => inl LoadFault  (* [smm_length(NULL)] *)
    | _ =>
      match derive_key heap password salt with
      | None => inl LoadFault
      | Some aes_key_and_iv =>
        if 2 ^ 32 <=? len then inl LoadFault  (* [amm_alloc] takes a [u32] *)
        else
          match aes_cbc_process (take 32 aes_key_and_iv) (drop 32 aes_key_and_iv) AES_FLAG_DECRYPTION (mem_read m data len) false with
          | None => inl LoadFault
          | Some decoded_data =>
            match hmac_compute stack salt decoded_data _hmac_sha256_function_data with
            | None => inl LoadFault
            | Some hmac => if z2b (hmac_difference hmac stored_hmac) then inl LoadNull else inr decoded_data
            end
          end
      end
    end.

Definition load_of (r : parse_result) : load_result :=
  match r with ParseOk _ out _ => Loaded out | ParseNull _ _ _ => LoadNull | _ => LoadFault end.

(** [decoded_at] is the address of the block for the decrypted data. *)
Definition _parse_binary_config (m : mem) (data len : Z) (password : password_t)
    (stack heap : list Z) (decoded_at : Z) (strlen_fuel fuel : nat) : load_result :=
  if (len <? 10) || negb (load32_at m data =? CONFIG_BINARY_FILE_SIGNATURE)
     || negb (m (data + 4) =? CONFIG_BINARY_FILE_VERSION) || (len <? load32_at m (data + 6))
  then LoadNull
  else
    let flags := m (data + 5) in
    let len := u64 (load32_at m (data + 6) - 10) in
    let data := data + 10 in
    let compressed := z2b (Z.land flags COFNIG_BINARY_FILE_FLAG_COMPRESSED) in
    if z2b (Z.land flags COFNIG_BINARY_FILE_FLAG_ENCRYPTED) then
      match decrypt_config m data len password stack heap with
      | inl r => r
      | inr decoded_data =>
        if compressed then LoadFault  (* panic *)
        else load_of (_parse_binary_tag (mem_write m decoded_at decoded_data) strlen_fuel
                        (u64 (decoded_at + (len - 48))) fuel decoded_at 0)
      end
    else if compressed then LoadFault
    else load_of (_parse_binary_tag m strlen_fuel (u64 (data + len)) fuel data 0).

Section save.
Context `{Backend B}.

(** ["ABCDEFGHIJKLMNO"] *)
Definition padding_text : list Z := [65; 66; 67; 68; 69; 70; 71; 72; 73; 74; 75; 76; 77; 78; 79].

(** The padded tree in a memory block. *)
Definition save_to_memory (mapped : list Z) (t : config_tag) : list Z :=
  let memory_writer := _save_binary_tag (writer_init ([] : list Z) mapped) t in
  let memory_writer := writer_flush memory_writer in
  let memory_writer := writer_append memory_writer
    (take (Z.to_nat (Z.land (u64 (- size memory_writer)) 15)) padding_text) in
  snd (writer_deinit memory_writer).

(** [salt] is what [random_generate] returns; [None] is a panic. *)
Definition save_encrypted (writer : writer_t B) (mapped : list Z) (t : config_tag) (password : password_t)
    (salt stack heap : list Z) : option (writer_t B) :=
  let buffer := save_to_memory mapped t in
  hmac ← hmac_compute stack salt buffer _hmac_sha256_function_data;
  let writer := writer_append writer (hmac ++ salt) in
  aes_key_and_iv ← derive_key heap password salt;
  buffer ← aes_cbc_process (take 32 aes_key_and_iv) (drop 32 aes_key_and_iv) AES_FLAG_ENCRYPTION buffer true;
  Some (writer_append writer buffer).

(** [mapped] and [mapped'] are the buffer regions of the two writers. *)
Definition config_save_binary (file : B) (mapped mapped' : list Z) (t : config_tag) (password : password_t)
    (salt stack heap : list Z) : option B :=
  let flags := match password with NoPassword => 0 | _ => COFNIG_BINARY_FILE_FLAG_ENCRYPTED end in
  let writer := writer_init file mapped in
  let writer := writer_append writer (file_header_bytes flags 0xffffffff) in
  writer ← match password with
           | NoPassword => Some (_save_binary_tag writer t)
           | _ => save_encrypted writer mapped' t password salt stack heap
           end;
  let '(size, file) := writer_deinit writer in
  Some (write_at file 0 (file_header_bytes flags size)).
End save.
End config_file.
