(* ===== verification/ConfigFileSpec.v ===== *)
(** * Saving a configuration to a binary file and loading it back, with and
    without encryption. *)
From stdpp Require Import base tactics list numbers option.
From Stdlib Require Import ZArith Lia.
From S2P Require Import Prelude Bytes MemUtil StrEqual Sha256 Hmac Aes Writer Config ConfigSpec ConfigFile.
#[local] Open Scope Z_scope.

(** ** Key material *)

Lemma lxor_byte a b : 0 <= a < 256 -> 0 <= b < 256 -> 0 <= Z.lxor a b < 256.
Proof.
  intros Ha Hb. change 256 with (2 ^ 8) in *. apply width_of_bits; [lia|]. intros i Hi.
  by rewrite Z.lxor_spec, (word_high 8 a), (word_high 8 b).
Qed.

Lemma xor_prefix_bytes out l : bytes out -> bytes l -> bytes (xor_prefix out l) /\ length (xor_prefix out l) = length out.
Proof.
  intros Ho. revert l. induction Ho as [| b out Hb Ho IH]; intros l Hl; [split; [constructor | done]|]. destruct Hl as [| x l Hx Hl]; [split; [by constructor | done]|].
  destruct (IH l Hl) as [H1 H2]. cbn [xor_prefix length]. rewrite H2. split; [| done]. constructor; [by apply lxor_byte | done].
Qed.

Lemma xor_at_bytes off out l : bytes out -> bytes l -> bytes (xor_at out off l) /\ length (xor_at out off l) = length out.
Proof.
  intros Ho. revert off. induction Ho as [| b out Hb Ho IH]; intros [| off] Hl.
  1, 2: split; [constructor | done].
  { apply xor_prefix_bytes; [by constructor | done]. }
  destruct (IH off Hl) as [H1 H2]. cbn [xor_at length]. rewrite H2. split; [by constructor | done].
Qed.

Lemma list_inserts_bytes i k l : bytes k -> bytes l -> bytes (list_inserts i k l).
Proof.
  intros Hk. revert i. induction Hk as [| x k Hx Hk IH]; intros i Hl; [done|]. simpl. apply Forall_insert; [by apply IH | exact Hx].
Qed.

Lemma land_byte x : 0 <= Z.land x 0xff < 256.
Proof. rewrite land_255. by apply Z.mod_pos_bound. Qed.

Lemma store_le32_bytes x : bytes (store_le32 x).
Proof. repeat (constructor; [apply land_byte|]). constructor. Qed.

Lemma result_bytes s : bytes (result s).
Proof. unfold result. cbn [map List.concat]. rewrite app_nil_r. repeat (apply Forall_app; split); apply store_le32_bytes. Qed.

Lemma prf_sha256_bytes a b : bytes (prf_callback _pbkdf2_prf_hmac_sha256_data a b).
Proof.
  change (bytes (default [] (hmac_compute (replicate BUFFER_SIZE 0) a b _hmac_sha256_function_data))).
  unfold hmac_compute. change (BUFFER_SIZE <? _)%nat with false. cbv iota.
  destruct (if (_ <? length a)%nat then _ else _) as [buf n]. apply result_bytes.
Qed.

Section key_bytes.
Context (prf : prf_t) (password salt : list Z) (Hprf : forall a b, bytes (prf_callback prf a b)) (Hsalt : bytes salt).

Lemma inner_bytes n : forall input buf out off chunk, bytes buf -> bytes out ->
  let '(buf', out') := pbkdf2_inner n prf password input buf out off chunk in
  bytes buf' /\ bytes out' /\ length out' = length out.
Proof.
  induction n as [| n IH]; intros input buf out off chunk Hb Ho; [done|]. cbn [pbkdf2_inner].
  set (buf' := list_inserts 0 _ buf). assert (Hb' : bytes buf') by (apply list_inserts_bytes; auto).
  destruct (xor_at_bytes off out (take chunk buf') Ho (Forall_take _ _ _ Hb')) as [H1 H2].
  specialize (IH (prf_output_size prf) buf' _ off chunk Hb' H1). destruct (pbkdf2_inner n _ _ _ _ _ _ _). by rewrite H2 in IH.
Qed.

Lemma outer_bytes fuel : forall iterations buf out i off n out', bytes buf -> bytes out ->
  pbkdf2_outer fuel prf password salt iterations buf out i off n = Some out' -> bytes out' /\ length out' = length out.
Proof.
  induction fuel as [| fuel IH]; intros iterations buf out i off n out' Hb Ho; [done|]. cbn [pbkdf2_outer].
  destruct (n <=? off)%nat; [intros [= <-]; done|]. set (chunk := if (_ <? _)%nat then _ else _).
  set (buf' := list_inserts (length salt) _ _). assert (Hb' : bytes buf').
  { apply list_inserts_bytes; [apply store_le32_bytes|]. by apply list_inserts_bytes. }
  pose proof (inner_bytes iterations (length salt + 4) buf' out off chunk Hb' Ho) as Hi.
  destruct (pbkdf2_inner _ _ _ _ _ _ _ _) as [buf'' out'']. destruct Hi as (H1 & H2 & H3).
  intros E0. destruct (IH _ _ _ _ _ _ _ H1 H2 E0) as [H4 H5]. split; [done | congruence].
Qed.
End key_bytes.

Lemma compute_bytes heap prf pw salt iters n out : (forall a b, bytes (prf_callback prf a b)) -> bytes salt -> bytes heap ->
  pbkdf2_compute heap pw salt prf iters n = Some out -> bytes out /\ length out = n.
Proof.
  intros Hp Hs Hh. unfold pbkdf2_compute. intros E0. apply outer_bytes in E0 as [H1 H2]; try done.
  - split; [done|]. by rewrite H2, length_replicate.
  - by apply Forall_take.
  - apply Forall_replicate. lia.
Qed.

(** The key does not depend on what the allocated block held. *)
Lemma compute_key pw salt iters : bytes salt -> length salt = 16%nat ->
  exists k, bytes k /\ length k = 48%nat /\
    forall heap, (36 <= length heap)%nat -> pbkdf2_compute heap pw salt _pbkdf2_prf_hmac_sha256_data iters 48 = Some k.
Proof.
  intros Hs Hl. pose proof (pbkdf2_ok _pbkdf2_prf_hmac_sha256_data pw salt iters prf_sha256_length ltac:(simpl; lia)) as Hk.
  set (k := Rfc8018.pbkdf2 _ _ _ _ _) in *. clearbody k.
  assert (Hk' : forall heap, (36 <= length heap)%nat -> pbkdf2_compute heap pw salt _pbkdf2_prf_hmac_sha256_data iters 48 = Some (k 48%nat)).
  { intros heap Hh. apply Hk; [lia | simpl; lia | done]. }
  clear Hk. exists (k 48%nat).
  destruct (compute_bytes (replicate 36 0) _pbkdf2_prf_hmac_sha256_data pw salt iters 48 (k 48%nat) prf_sha256_bytes Hs); [| | done].
  - apply Forall_replicate. lia.
  - apply Hk'. by rewrite length_replicate.
Qed.

(** ** The bytes of a tree and their padding *)

Lemma u8_byte x : 0 <= u8 x < 256.
Proof. apply u8_range. Qed.

Lemma string_ok_bytes s : string_ok s -> bytes (s_data s).
Proof. by intros (l & -> & Hl). Qed.

Lemma header_bytes_bytes t : tag_ok t -> bytes (header_bytes t).
Proof.
  intros Hok. assert (Hn : name_ok (tag_name t)) by (destruct t; apply Hok). unfold header_bytes.
  apply Forall_app. split; [repeat (constructor; [apply u8_byte|]); constructor|].
  apply Forall_app. split; [by apply string_ok_bytes, Hn|]. destruct (_ <=? _); [apply store_le32_bytes | constructor].
Qed.

Lemma bin_bytes t : tag_ok t -> bytes (bin t).
Proof.
  induction t as [id n ty | id n d IH | id n s | id n v] using tag_ind; intros Hok; cbn [bin]; apply Forall_app;
    (split; [by apply header_bytes_bytes|]).
  - constructor.
  - apply tag_ok_children in Hok. induction IH as [| t d Ht _ IHd]; [constructor|]. inversion_clear Hok.
    cbn [map List.concat]. apply Forall_app. split; [by apply Ht | by apply IHd].
  - destruct Hok as [_ Hok]. destruct s; [by apply string_ok_bytes, Hok | done].
  - unfold int_bytes. apply Forall_fmap, Forall_true. intros i. apply u8_byte.
Qed.

Lemma header_length t : (4 <= length (header_bytes t))%nat.
Proof. unfold header_bytes. rewrite length_app. simpl. lia. Qed.

Lemma bin_nonempty t : (4 <= length (bin t))%nat.
Proof. destruct t; cbn [bin]; rewrite length_app; pose proof header_length; match goal with |- context [header_bytes ?t] => pose proof (header_length t) end; lia. Qed.

(** The number of padding bytes. *)
Definition pad_length (n : Z) : Z := Z.land (u64 (- n)) 15.

Lemma pad_length_spec n : 0 <= pad_length n < 16 /\ (n + pad_length n) mod 16 = 0.
Proof.
  unfold pad_length. change 15 with (Z.ones 4). rewrite wrap_ones by lia. unfold u64. rewrite wrap_wrap_le by lia.
  unfold wrap. change (2 ^ 4) with 16. split; [by apply Z.mod_pos_bound|]. rewrite Zplus_mod_idemp_r. by rewrite Z.add_opp_diag_r.
Qed.

Definition padded (t : config_tag) : list Z :=
  bin t ++ take (Z.to_nat (pad_length (Z.of_nat (length (bin t))))) padding_text.

Lemma padded_length t : Z.of_nat (length (padded t)) = Z.of_nat (length (bin t)) + pad_length (Z.of_nat (length (bin t))).
Proof.
  unfold padded. rewrite length_app, length_take. pose proof (pad_length_spec (Z.of_nat (length (bin t)))) as [H _].
  change (length padding_text) with 15%nat. lia.
Qed.

Lemma padded_bytes t : tag_ok t -> bytes (padded t).
Proof. intros Hok. apply Forall_app. split; [by apply bin_bytes|]. apply Forall_take. repeat constructor; lia. Qed.

Lemma save_to_memory_ok mapped t : Z.of_nat (length mapped) = WRITER_BUFFER_SIZE -> Z.of_nat (length (bin t)) < 2 ^ 63 ->
  save_to_memory mapped t = padded t.
Proof.
  intros Hm Hb. unfold save_to_memory. pose proof (bin_nonempty t) as Hne.
  pose proof (save_binary_holds t _ [] (writer_init_holds ([] : list Z) mapped Hm)) as Hw. cbn [app] in Hw. specialize (Hw ltac:(lia)).
  assert (Hf : holds (writer_flush (_save_binary_tag (writer_init ([] : list Z) mapped) t)) (bin t)) by (apply flush_holds; [done | lia]).
  set (w := writer_flush _) in *. assert (Hs : size w = Z.of_nat (length (bin t))).
  { destruct Hf as (Ho & _ & _ & Hl & _). assert (offset w = 0); [| lia].
    subst w. unfold writer_flush, z2b. clear. destruct (Z.eqb_spec (offset (_save_binary_tag (writer_init [] mapped) t)) 0); cbn [negb]; done. }
  rewrite Hs. fold (pad_length (Z.of_nat (length (bin t)))). pose proof (padded_length t) as Hp.
  pose proof (pad_length_spec (Z.of_nat (length (bin t)))) as [Hr _].
  pose proof (append_holds _ _ (take (Z.to_nat (pad_length (Z.of_nat (length (bin t))))) padding_text) Hf) as Ha.
  fold (padded t) in Ha. unfold padded in Hp. rewrite length_app in Hp. specialize (Ha ltac:(lia)).
  destruct (deinit_holds _ _ Ha) as [_ Hc]; [rewrite padded_length; lia|]. apply Hc. unfold padded. destruct (bin t); [simpl in Hne; lia | done].
Qed.

(** Binding a value; used by rewriting, so that the rest is not evaluated. *)
Lemma bind_some {A C} (f : A -> option C) a : (Some a ≫= f) = f a.
Proof. reflexivity. Qed.

(** ** Files *)

Lemma file_header_length flags n : length (file_header_bytes flags n) = 10%nat.
Proof. reflexivity. Qed.

(** The header written last replaces the provisional one. *)
Lemma finish_file `{Backend B} (w : writer_t B) flags body : holds w (file_header_bytes flags 0xffffffff ++ body) ->
  Z.of_nat (length body) < 2 ^ 32 ->
  let '(n, file) := writer_deinit w in
  n = 10 + Z.of_nat (length body) /\ contents (write_at file 0 (file_header_bytes flags n)) = file_header_bytes flags n ++ body.
Proof.
  intros Hw Hb. destruct (deinit_holds _ _ Hw) as [Hn Hc]; [rewrite length_app, file_header_length; lia|].
  destruct (writer_deinit w) as [n file]. cbn [fst snd] in *. rewrite length_app, file_header_length in Hn.
  split; [lia|]. assert (Hne : file_header_bytes flags 0xffffffff ++ body <> []) by done. specialize (Hc Hne).
  rewrite write_at_contents by (rewrite ?Hc, ?length_app, ?file_header_length; lia). rewrite Hc.
  rewrite list_inserts_0 by (rewrite length_app, !file_header_length; lia). done.
Qed.

(** What the loader sees of a file header. *)
Lemma load_file_header m data flags n body : stored m data (file_header_bytes flags n ++ body) -> 0 <= n < 2 ^ 32 ->
  load32_at m data = CONFIG_BINARY_FILE_SIGNATURE /\ m (data + 4) = CONFIG_BINARY_FILE_VERSION /\ m (data + 5) = flags /\
  load32_at m (data + 6) = n /\ stored m (data + 10) body.
Proof.
  intros Hs Hn. apply stored_app in Hs as [Hh Hbody]. rewrite file_header_length in Hbody. unfold file_header_bytes in Hh.
  apply stored_app in Hh as [H1 H2]. apply stored_app in H2 as [H2 H3].
  change (Z.of_nat (length (store_le32 CONFIG_BINARY_FILE_SIGNATURE))) with 4 in *.
  change (Z.of_nat (length [CONFIG_BINARY_FILE_VERSION; flags])) with 2 in *. rewrite u32_id in H3 by lia.
  apply stored_cons in H2 as [H2 H4]. apply stored_cons in H4 as [H4 _].
  replace (data + 4 + 1) with (data + 5) in H4 by lia. replace (data + 4 + 2) with (data + 6) in H3 by lia.
  split_and!; try done; apply stored_load32; done.
Qed.

Lemma hmac_difference_refl a : hmac_difference a a = 0.
Proof.
  unfold hmac_difference. assert (Hz : Forall (fun x => x = 0) (zip_with Z.lxor a a)).
  { induction a as [| x a IH]; constructor; [apply Z.lxor_nilpotent | done]. }
  induction Hz as [| x l -> _ IH]; [done | exact IH].
Qed.

Lemma stored_mem_write m a l : stored (mem_write m a l) a l.
Proof. apply mem_read_write. Qed.

Lemma stored_prefix m a l1 l2 : stored m a (l1 ++ l2) -> stored m a l1.
Proof. intros H. exact (proj1 (stored_app _ _ _ _ H)). Qed.

(** A zero byte within reach of every address. *)
Definition terminated (m : mem) (fuel : nat) : Prop := forall p, exists l, cstr m p l /\ (length l < fuel)%nat.

Section roundtrip.
Context `{Backend B} (keyring_master_key : list Z).
Context (t : config_tag) (Hok : tag_ok t) (Hsize : Z.of_nat (length (bin t)) < 2 ^ 31).
Context (file : B) (mapped mapped' salt stack heap : list Z).
Context (Hmapped : Z.of_nat (length mapped) = WRITER_BUFFER_SIZE) (Hmapped' : Z.of_nat (length mapped') = WRITER_BUFFER_SIZE).
Context (Hsalt : bytes salt) (Hsalt16 : length salt = 16%nat) (Hstack : length stack = BUFFER_SIZE) (Hheap : (36 <= length heap)%nat).

Lemma start_holds flags : holds (writer_append (writer_init file mapped) (file_header_bytes flags 0xffffffff)) (file_header_bytes flags 0xffffffff).
Proof. apply (append_holds _ []); [by apply writer_init_holds|]. rewrite file_header_length. done. Qed.

(** The file an unencrypted save leaves. *)
Lemma save_plain : exists f, config_save_binary keyring_master_key file mapped mapped' t NoPassword salt stack heap = Some f /\
  contents f = file_header_bytes 0 (10 + Z.of_nat (length (bin t))) ++ bin t.
Proof.
  unfold config_save_binary. rewrite bind_some. pose proof (save_binary_holds t _ _ (start_holds 0)) as Hw.
  rewrite length_app, file_header_length in Hw. specialize (Hw ltac:(lia)).
  pose proof (finish_file _ 0 (bin t) Hw ltac:(lia)) as Hf. destruct (writer_deinit _) as [n f']. destruct Hf as [-> Hf].
  eexists. split; [done | exact Hf].
Qed.

(** The file an encrypted save leaves; [k] is the derived key and vector. *)
Lemma save_crypt password k cipher hmac : password <> NoPassword ->
  derive_key keyring_master_key heap password salt = Some k ->
  hmac_compute stack salt (padded t) _hmac_sha256_function_data = Some hmac -> length hmac = 32%nat ->
  aes_cbc_process (take 32 k) (drop 32 k) AES_FLAG_ENCRYPTION (padded t) true = Some cipher -> length cipher = length (padded t) ->
  exists f, config_save_binary keyring_master_key file mapped mapped' t password salt stack heap = Some f /\
    contents f = file_header_bytes 2 (58 + Z.of_nat (length (padded t))) ++ (hmac ++ salt) ++ cipher.
Proof.
  intros Hp Hk Hh Hhl Hc Hcl. unfold config_save_binary. pose proof (padded_length t) as Hpl.
  pose proof (pad_length_spec (Z.of_nat (length (bin t)))) as [Hr _].
  assert (Hs : save_encrypted keyring_master_key (writer_append (writer_init file mapped) (file_header_bytes 2 0xffffffff))
    mapped' t password salt stack heap = Some (writer_append (writer_append (writer_append (writer_init file mapped)
      (file_header_bytes 2 0xffffffff)) (hmac ++ salt)) cipher)).
  { unfold save_encrypted. rewrite save_to_memory_ok by lia. rewrite Hh, bind_some, Hk, bind_some, Hc, bind_some. reflexivity. }
  clear Hk Hh Hc.
  pose proof (append_holds _ _ (hmac ++ salt) (start_holds 2)) as Hw. rewrite file_header_length, length_app in Hw.
  specialize (Hw ltac:(lia)). apply (append_holds _ _ cipher) in Hw; [| rewrite !length_app, file_header_length; lia].
  rewrite <- app_assoc in Hw. apply finish_file in Hw; [| rewrite !length_app; lia].
  destruct password; [congruence | |]; change COFNIG_BINARY_FILE_FLAG_ENCRYPTED with 2; rewrite Hs, bind_some;
    (destruct (writer_deinit _) as [n f']; destruct Hw as [Hn Hf]; eexists; split; [reflexivity|]; rewrite !length_app in Hn;
     replace (58 + Z.of_nat (length (padded t))) with n by lia; exact Hf).
Qed.
End roundtrip.

Section load.
Context (keyring_master_key : list Z) (t : config_tag) (Hok : tag_ok t) (Hsize : Z.of_nat (length (bin t)) < 2 ^ 31).
Context (m : mem) (data len : Z) (Hdata : 0 <= data) (Hend : data + len < 2 ^ 64).
Context (stack heap : list Z) (Hstack : length stack = BUFFER_SIZE) (Hheap : (36 <= length heap)%nat).
Context (decoded_at : Z) (Hdecoded : 0 <= decoded_at < 2 ^ 63) (strlen_fuel fuel : nat) (Hfuel : (depth t <= fuel)%nat).

(** The checks of the header pass. *)
Lemma header_accepted flags n body : stored m data (file_header_bytes flags n ++ body) -> n = 10 + Z.of_nat (length body) ->
  n <= len -> n < 2 ^ 32 ->
  ((len <? 10) || negb (load32_at m data =? CONFIG_BINARY_FILE_SIGNATURE)
     || negb (m (data + 4) =? CONFIG_BINARY_FILE_VERSION) || (len <? load32_at m (data + 6))) = false /\
  m (data + 5) = flags /\ u64 (load32_at m (data + 6) - 10) = Z.of_nat (length body) /\ stored m (data + 10) body.
Proof.
  intros Hs Hn Hlen Hb. destruct (load_file_header _ _ _ _ _ Hs ltac:(lia)) as (H1 & H2 & H3 & H4 & H5).
  rewrite H1, H2, H4, !Z.eqb_refl. cbn [negb orb]. rewrite !(proj2 (Z.ltb_ge _ _)) by lia. split_and!; try done.
  rewrite u64_id; lia.
Qed.

Lemma load_plain password : stored m data (file_header_bytes 0 (10 + Z.of_nat (length (bin t))) ++ bin t) ->
  10 + Z.of_nat (length (bin t)) <= len -> terminated m strlen_fuel ->
  exists t', _parse_binary_config keyring_master_key m data len password stack heap decoded_at strlen_fuel fuel = Loaded t' /\ tag_like t t'.
Proof.
  intros Hs Hlen Hterm. destruct (header_accepted _ _ _ Hs eq_refl ltac:(lia) ltac:(lia)) as (E0 & E1 & E2 & Hb).
  unfold _parse_binary_config. rewrite E0, E1, E2.
  change (z2b (Z.land 0 COFNIG_BINARY_FILE_FLAG_ENCRYPTED)) with false.
  change (z2b (Z.land 0 COFNIG_BINARY_FILE_FLAG_COMPRESSED)) with false. cbv iota. rewrite u64_id by lia.
  destruct (parse_bin m strlen_fuel (data + 10 + Z.of_nat (length (bin t))) Hterm t fuel (data + 10) 0 Hok Hb ltac:(lia) Hfuel)
    as (t' & next & -> & Hlike). exists t'. done.
Qed.

Lemma load_crypt password k cipher hmac salt : password <> NoPassword -> length salt = 16%nat ->
  derive_key keyring_master_key heap password salt = Some k ->
  hmac_compute stack salt (padded t) _hmac_sha256_function_data = Some hmac -> length hmac = 32%nat ->
  aes_cbc_process (take 32 k) (drop 32 k) AES_FLAG_DECRYPTION cipher false = Some (padded t) -> length cipher = length (padded t) ->
  stored m data (file_header_bytes 2 (58 + Z.of_nat (length (padded t))) ++ (hmac ++ salt) ++ cipher) ->
  58 + Z.of_nat (length (padded t)) <= len -> terminated (mem_write m decoded_at (padded t)) strlen_fuel ->
  exists t', _parse_binary_config keyring_master_key m data len password stack heap decoded_at strlen_fuel fuel = Loaded t' /\ tag_like t t'.
Proof.
  intros Hp Hs16 Hk Hh Hhl Hc Hcl Hs Hlen Hterm. pose proof (padded_length t) as Hpl.
  pose proof (pad_length_spec (Z.of_nat (length (bin t)))) as [Hr _].
  assert (Hbl : Z.of_nat (length ((hmac ++ salt) ++ cipher)) = 48 + Z.of_nat (length (padded t))) by (rewrite !length_app; lia).
  destruct (header_accepted _ _ _ Hs ltac:(lia) ltac:(lia) ltac:(lia)) as (E0 & E1 & E2 & Hb). rewrite Hbl in E2.
  assert (Hd : decrypt_config keyring_master_key m (data + 10) (48 + Z.of_nat (length (padded t))) password stack heap = inr (padded t)).
  { rewrite <- app_assoc in Hb. apply stored_app in Hb as [Hb1 Hb]. apply stored_app in Hb as [Hb2 Hb3]. rewrite Hhl, Hs16 in *.
    unfold decrypt_config. rewrite (proj2 (Z.ltb_ge _ 48)) by lia. unfold stored in Hb1, Hb2, Hb3. rewrite Hhl in Hb1. rewrite Hs16 in Hb2.
    change (Z.of_nat 32) with 32 in *. change (Z.of_nat 16) with 16 in *. rewrite Hb1, Hb2, Hk.
    replace (48 + Z.of_nat (length (padded t)) - 48) with (Z.of_nat (length cipher)) by lia.
    replace (data + 10 + 32 + 16) with (data + 10 + 48) in Hb3 by lia. rewrite Hb3, Hc, Hh, hmac_difference_refl.
    rewrite (proj2 (Z.leb_gt _ _)) by lia. destruct password; [congruence | reflexivity | reflexivity]. }
  clear Hk Hh Hc. unfold _parse_binary_config. rewrite E0, E1, E2, Hd. change (z2b (Z.land 2 COFNIG_BINARY_FILE_FLAG_ENCRYPTED)) with true.
  change (z2b (Z.land 2 COFNIG_BINARY_FILE_FLAG_COMPRESSED)) with false. cbv iota.
  replace (decoded_at + (48 + Z.of_nat (length (padded t)) - 48)) with (decoded_at + Z.of_nat (length (padded t))) by lia.
  rewrite u64_id by lia.
  destruct (parse_bin _ strlen_fuel (decoded_at + Z.of_nat (length (padded t))) Hterm t fuel decoded_at 0 Hok
    (stored_prefix _ _ _ _ (stored_mem_write m decoded_at (padded t))) ltac:(lia) Hfuel) as (t' & next & -> & Hlike). exists t'. done.
Qed.
End load.

(** ** End to end *)

(** The codes and the cipher text of an encrypted save exist. *)
Lemma crypt_parts keyring_master_key t password salt : tag_ok t -> bytes salt -> length salt = 16%nat ->
  exists k cipher hmac,
    (forall heap, (36 <= length heap)%nat -> derive_key keyring_master_key heap password salt = Some k) /\
    (forall stack, length stack = BUFFER_SIZE -> hmac_compute stack salt (padded t) _hmac_sha256_function_data = Some hmac) /\
    length hmac = 32%nat /\
    aes_cbc_process (take 32 k) (drop 32 k) AES_FLAG_ENCRYPTION (padded t) true = Some cipher /\
    aes_cbc_process (take 32 k) (drop 32 k) AES_FLAG_DECRYPTION cipher false = Some (padded t) /\
    length cipher = length (padded t).
Proof.
  intros Hok Hs Hs16. destruct (compute_key (password_bytes keyring_master_key password) salt CONFIG_ENCRYPTION_PBKDF2_ITERATIONS Hs Hs16)
    as (k & Hkb & Hkl & Hk).
  pose proof (pad_length_spec (Z.of_nat (length (bin t)))) as [_ Hm]. rewrite <- padded_length in Hm.
  destruct (cbc_process_roundtrip (take 32 k) (drop 32 k) (padded t) true) as (cipher & Hc1 & Hcl & Hc2).
  - split; [by apply Forall_take|]. right. right. rewrite length_take. lia.
  - by apply Forall_drop.
  - rewrite length_drop. lia.
  - by apply padded_bytes.
  - apply Nat2Z.inj. by rewrite Nat2Z.inj_mod.
  - exists k, cipher, (Rfc2104.hmac Fips.sha256 64 salt (padded t)). split_and!; try assumption.
    + intros stack Hst. apply hmac_sha256_ok; [assumption | assumption | by apply padded_bytes].
    + apply digest_length.
Qed.

(** C26: a configuration saved to a binary file, in the clear or encrypted with
    the master key or a password, loads back from it with the same password:
    the tree has the same shape, the same integers and the same non-empty names
    and strings, whatever the temporary buffers held, and the integrity check
    of an encrypted file passes. *)
Theorem config_file_roundtrip `{Backend B} (keyring_master_key : list Z) (t : config_tag) (password : password_t)
    (file : B) (mapped mapped' salt stack heap : list Z) :
  tag_ok t -> Z.of_nat (length (bin t)) < 2 ^ 31 ->
  Z.of_nat (length mapped) = WRITER_BUFFER_SIZE -> Z.of_nat (length mapped') = WRITER_BUFFER_SIZE ->
  bytes salt -> length salt = 16%nat -> length stack = BUFFER_SIZE -> (36 <= length heap)%nat ->
  exists f, config_save_binary keyring_master_key file mapped mapped' t password salt stack heap = Some f /\
    forall (m : mem) (data len decoded_at : Z) (stack' heap' : list Z) (strlen_fuel fuel : nat),
      0 <= data -> data + len < 2 ^ 64 -> stored m data (contents f) -> Z.of_nat (length (contents f)) <= len ->
      0 <= decoded_at < 2 ^ 63 -> length stack' = BUFFER_SIZE -> (36 <= length heap')%nat ->
      terminated m strlen_fuel -> terminated (mem_write m decoded_at (padded t)) strlen_fuel -> (depth t <= fuel)%nat ->
      exists t', _parse_binary_config keyring_master_key m data len password stack' heap' decoded_at strlen_fuel fuel = Loaded t' /\
        tag_like t t'.
Proof.
  intros Hok Hsize Hm Hm' Hs Hs16 Hst Hh. destruct (decide (password = NoPassword)) as [-> | Hp].
  - destruct (save_plain keyring_master_key t Hsize file mapped mapped' salt stack heap Hm Hs16 Hst Hh) as (f & -> & Hf).
    exists f. split; [reflexivity|]. rewrite Hf. intros m data len decoded_at stack' heap' sf fuel Hd He Hst' Hl Hda Hs' Hh' Ht _ Hfu.
    rewrite length_app, file_header_length in Hl. apply load_plain; assumption || lia.
  - destruct (crypt_parts keyring_master_key t password salt Hok Hs Hs16) as (k & cipher & hmac & Hk & Hhm & Hhl & Hc1 & Hc2 & Hcl).
    destruct (save_crypt keyring_master_key t Hsize file mapped mapped' salt stack heap Hm Hm' Hs16 Hst Hh password k cipher hmac
      Hp (Hk heap Hh) (Hhm stack Hst) Hhl Hc1 Hcl) as (f & -> & Hf).
    exists f. split; [reflexivity|]. rewrite Hf. intros m data len decoded_at stack' heap' sf fuel Hd He Hst' Hl Hda Hs' Hh' _ Ht Hfu.
    rewrite !length_app, file_header_length in Hl.
    eapply load_crypt; [assumption .. | | exact (Hk heap' Hh') | exact (Hhm stack' Hs') | | exact Hc2 | | | |]; assumption || lia.
Qed.

Definition demo_config : config_tag :=
  TagArray 0 (smm_of []) [TagInt 1 (smm_of [107; 101; 121]) (-5); TagString 2 (smm_of [110]) (Some (smm_of [97; 98; 99]))].

Lemma demo_config_ok : tag_ok demo_config.
Proof.
  assert (Hs : forall l, bytes l -> string_ok (smm_of l)) by (intros l Hl; by exists l).
  unfold demo_config, tag_ok, name_ok. cbn [tag_name fold_right].
  split_and!; try (apply Hs; repeat constructor; lia); try done; cbn; lia.
Qed.

Lemma config_file_roundtrip_witness :
  exists f, config_save_binary [1; 2; 3] ([] : list Z) (replicate (Z.to_nat WRITER_BUFFER_SIZE) 0) (replicate (Z.to_nat WRITER_BUFFER_SIZE) 1)
      demo_config (Password [112; 119]) (replicate 16 7) (replicate BUFFER_SIZE 9) (replicate 36 0) = Some f /\
    forall (m : mem) (data len decoded_at : Z) (stack' heap' : list Z) (strlen_fuel fuel : nat),
      0 <= data -> data + len < 2 ^ 64 -> stored m data (contents f) -> Z.of_nat (length (contents f)) <= len ->
      0 <= decoded_at < 2 ^ 63 -> length stack' = BUFFER_SIZE -> (36 <= length heap')%nat ->
      terminated m strlen_fuel -> terminated (mem_write m decoded_at (padded demo_config)) strlen_fuel -> (depth demo_config <= fuel)%nat ->
      exists t', _parse_binary_config [1; 2; 3] m data len (Password [112; 119]) stack' heap' decoded_at strlen_fuel fuel = Loaded t' /\
        tag_like demo_config t'.
Proof.
  apply (config_file_roundtrip [1; 2; 3] demo_config (Password [112; 119]) ([] : list Z)).
  - exact demo_config_ok.
  - reflexivity.
  - rewrite length_replicate. apply Z2Nat.id. discriminate.
  - rewrite length_replicate. apply Z2Nat.id. discriminate.
  - apply Forall_replicate. lia.
  - apply length_replicate.
  - apply length_replicate.
  - rewrite length_replicate. lia.
Defined.

(** ** What the parser does with other input *)

Definition demo_memory (l : list Z) : mem := mem_write (fun _ => 0) 4096 l.

(** Names and strings of length 0 are read with [smm_alloc(data,0)]: an unnamed
    array with an unnamed 5 in it comes back with the following bytes as names. *)
Lemma unnamed_tags_named :
  let t := TagArray 0 (smm_of []) [TagInt 1 (smm_of []) 5] in
  _parse_binary_tag (demo_memory (bin t)) 20 (4096 + Z.of_nat (length (bin t))) 5 4096 0 =
  ParseOk (4096 + Z.of_nat (length (bin t))) (TagArray 0 (smm_of [3]) [TagInt 1 (smm_of [5]) 5]) 2.
Proof. vm_compute. reflexivity. Qed.

(** A child that fails after it was allocated is freed by its own error path
    and again by the error path of its parent, whose slot still points to it. *)
Lemma truncated_child_freed_twice :
  let file := [1; 1; 1; 0; 97; 2; 1; 9; 0; 98] in
  exists slot, _parse_binary_tag (demo_memory file) 20 (4096 + 10) 5 4096 0 = ParseNull slot [1; 1; 0] 2.
Proof. eexists. vm_compute. reflexivity. Qed.

(** The size of the slot array is truncated to 32 bits, the number of slots that
    are cleared is not. *)
Lemma huge_array_overflows :
  let file := [1; 1; 255; 255; 97; 0; 0; 0; 0x20] in
  _parse_binary_tag (demo_memory file) 20 (4096 + 9) 5 4096 0 = ParseFault.
Proof. vm_compute. reflexivity. Qed.

(** An encrypted file given to a caller without a password dereferences [NULL]. *)
Lemma encrypted_without_password key stack heap m data len : 48 <= len ->
  decrypt_config key m data len NoPassword stack heap = inl LoadFault.
Proof. intros Hlen. unfold decrypt_config. destruct (Z.ltb_spec len 48); [lia | done]. Qed.
