(* ===== verification/ConfigText.v ===== *)
(** * The text configuration format ([src/src/kernel/config/config.c]:
    [_parse_text_config], [_save_text_tag] and the text branch of
    [config_save_to_file]).

    The parser walks memory [m] from [data] to [end_].  The array [out] it is
    filling and the arrays around it (the [parent] chain) form a stack of
    frames; a closed array is appended to the frame below it. *)
From stdpp Require Import base tactics list numbers option.
From Stdlib Require Import ZArith Lia.
From S2P Require Import Prelude Bytes MemUtil StrEqual Writer Config ConfigSpec ConfigFile.
#[local] Open Scope Z_scope.

(** ** Character classes *)

Definition CONFIG_TEXT_FILE_IS_WHITESPACE (c : Z) : bool := (c =? 0) || (c =? 32) || (c =? 9) || (c =? 10) || (c =? 13).
Definition CONFIG_TEXT_FILE_IS_NUMBER (c : Z) : bool := (48 <=? c) && (c <=? 57).
Definition CONFIG_TEXT_FILE_IS_IDENTIFIER_START (c : Z) : bool :=
  ((65 <=? c) && (c <=? 90)) || ((97 <=? c) && (c <=? 122)) || (c =? 95) || (c =? 46) || (c =? 36) || (c =? 58) || (c =? 47).
Definition CONFIG_TEXT_FILE_IS_IDENTIFIER (c : Z) : bool :=
  CONFIG_TEXT_FILE_IS_IDENTIFIER_START c || CONFIG_TEXT_FILE_IS_NUMBER c || (c =? 45).

(** White space other than a line end. *)
Definition is_blank (c : Z) : bool := negb (c =? 10) && CONFIG_TEXT_FILE_IS_WHITESPACE c.

(** ** The parser *)

Record frame := Frame { f_id : Z; f_name : string_t; f_children : list config_tag }.

Definition close_frame (f : frame) : config_tag := TagArray (f_id f) (f_name f) (f_children f).

Definition attach (f : frame) (t : config_tag) : frame := Frame (f_id f) (f_name f) (f_children f ++ [t]).

Record text_state := TextState { ts_data : Z; ts_out : frame; ts_parents : list frame; ts_next : Z }.

Inductive step_result := SContinue (st : text_state) | SBreak | SNull | SPanic | SFault.

Section parse.
Context (m : mem) (strlen_fuel : nat) (end_ : Z).

(** [for (;data<end&&p(data[0]);data++);] *)
Fixpoint skip_loop (p : Z -> bool) (fuel : nat) (data : Z) : Z :=
  match fuel with
  | O => data
  | S fuel => if (data <? end_) && p (m data) then skip_loop p fuel (data + 1) else data
  end.
Definition skip (p : Z -> bool) (data : Z) : Z := skip_loop p (Z.to_nat (end_ - data)) data.

(** The [do ... while] loop over digits, which does not look at [end]. *)
Fixpoint read_number (fuel : nat) (data value : Z) : option (Z * Z) :=
  match fuel with
  | O => None
  | S fuel =>
    let value := sext 64 (value * 10 + m data - 48) in
    let data := data + 1 in
    if CONFIG_TEXT_FILE_IS_NUMBER (m data) then read_number fuel data value else Some (data, value)
  end.

Definition unescape (c : Z) : option Z :=
  if c =? 116 then Some 9 else if c =? 110 then Some 10 else if c =? 114 then Some 13
  else if c =? 98 then Some 8 else if c =? 118 then Some 11 else None.

(** The quoted-string loop: where it stops and the buffer; [None] is a panic. *)
Fixpoint read_quoted (fuel : nat) (data : Z) (buf : list Z) : option (Z * list Z) :=
  match fuel with
  | O => None
  | S fuel =>
    if (data <? end_) && negb (m data =? 34) then
      if negb (m data =? 92) then read_quoted fuel (data + 1) (buf ++ [m data])
      else if data + 1 =? end_ then None
      else match unescape (m (data + 1)) with
           | None => None
           | Some c => read_quoted fuel (data + 2) (buf ++ [c])
           end
    else if data =? end_ then None else Some (data, buf)
  end.

(** [for (;string_length&&(data[string_length-1]==' '||...=='\t');string_length--);] *)
Fixpoint trim (data : Z) (string_length : nat) : nat :=
  match string_length with
  | O => O
  | S n => if (m (data + Z.of_nat n) =? 32) || (m (data + Z.of_nat n) =? 9) then trim data n else S n
  end.

Definition attach_new (st : text_state) (data : Z) (t : config_tag) : step_result :=
  SContinue (TextState data (attach (ts_out st) t) (ts_parents st) (ts_next st + 1)).

Definition is_unquoted (c : Z) : bool := negb (c =? 10) && negb (c =? 35) && negb (c =? 44).

(** The value after the name and the optional ['=']. *)
Definition parse_string (st : text_state) (name : string_t) (data : Z) : step_result :=
  if m data =? 34 then
    match read_quoted (S (Z.to_nat (end_ - data))) (data + 1) [] with
    | None => SPanic
    | Some (data, buf) =>
      (* an empty buffer is the null pointer with the length 0 *)
      match buf with
      | [] => SFault
      | _ => attach_new st data (TagString (ts_next st) name (Some (smm_of buf)))
      end
    end
  else
    let string_length := Z.of_nat (trim data (Z.to_nat (skip is_unquoted data - data))) in
    match smm_alloc strlen_fuel m data string_length with
    | None => SFault
    | Some string => attach_new st (data + string_length) (TagString (ts_next st) name (Some string))
    end.

Definition ends_number (c : Z) : bool := (c =? 0) || (c =? 10) || (c =? 44) || (c =? 35).

Definition parse_value (st : text_state) (name : string_t) (data : Z) : step_result :=
  if data =? end_ then attach_new st data (TagOther (ts_next st) name CONFIG_TAG_TYPE_NONE)
  else if m data =? 35 then SContinue (TextState (skip (fun c => negb (c =? 10)) data) (ts_out st) (ts_parents st) (ts_next st))
  else if m data =? 123 then
    SContinue (TextState (data + 1) (Frame (ts_next st) name []) (ts_out st :: ts_parents st) (ts_next st + 1))
  else
    let signed := (m data =? 45) || (m data =? 43) in
    if CONFIG_TEXT_FILE_IS_NUMBER (m data) || (signed && CONFIG_TEXT_FILE_IS_NUMBER (m (data + 1))) then
      match read_number strlen_fuel (if signed then data + 1 else data) 0 with
      | None => SFault
      | Some (data', value) =>
        if ends_number (m data') then
          attach_new st data' (TagInt (ts_next st) name (if m data =? 45 then sext 64 (- value) else value))
        else parse_string st name data
      end
    else parse_string st name data.

(** One iteration of the main loop. *)
Definition text_step (st : text_state) : step_result :=
  let data := skip CONFIG_TEXT_FILE_IS_WHITESPACE (ts_data st) in
  if end_ <=? data then SBreak
  else
    let named :=
      if CONFIG_TEXT_FILE_IS_IDENTIFIER_START (m data) then
        let data' := skip CONFIG_TEXT_FILE_IS_IDENTIFIER data in
        name ← smm_alloc strlen_fuel m data (data' - data);
        Some (name, skip is_blank data')
      else Some (smm_of [], data) in
    match named with
    | None => SFault
    | Some (name, data) =>
      if (data =? end_) || (m data =? 44) || (m data =? 10) then
        if s_length name =? 0 then SContinue (TextState data (ts_out st) (ts_parents st) (ts_next st))
        else attach_new st data (TagOther (ts_next st) name CONFIG_TAG_TYPE_NONE)
      else if m data =? 125 then
        let '(out, next) :=
          if z2b (s_length name) then (attach (ts_out st) (TagOther (ts_next st) name CONFIG_TAG_TYPE_NONE), ts_next st + 1)
          else (ts_out st, ts_next st) in
        match ts_parents st with
        | [] => SPanic
        | parent :: parents => SContinue (TextState (data + 1) (attach parent (close_frame out)) parents next)
        end
      else if z2b (s_length name) || (m data =? 61) then
        if negb (m data =? 61) then SNull
        else parse_value st name (skip is_blank (data + 1))
      else parse_value st name data
    end.

Inductive text_result := TextTag (out : config_tag) | TextNull | TextPanic | TextFault | TextFuel.

Fixpoint text_loop (fuel : nat) (st : text_state) : text_result :=
  if ts_data st <? end_ then
    match fuel with
    | O => TextFuel
    | S fuel =>
      match text_step st with
      | SContinue st => text_loop fuel st
      | SBreak => TextTag (close_frame (ts_out st))
      | SNull => TextNull
      | SPanic => TextPanic
      | SFault => TextFault
      end
    end
  else TextTag (close_frame (ts_out st)).
End parse.

Definition _parse_text_config (m : mem) (strlen_fuel fuel : nat) (data len : Z) : text_result :=
  text_loop m strlen_fuel (data + len) fuel (TextState data (Frame 0 (smm_of []) []) [] 1).

(** [config_load]: the signature selects the format. *)
Definition config_load (keyring_master_key : list Z) (m : mem) (data len : Z) (password : password_t)
    (stack heap : list Z) (decoded_at : Z) (strlen_fuel fuel : nat) : text_result :=
  if (4 <=? len) && (load32_at m data =? CONFIG_BINARY_FILE_SIGNATURE) then
    match _parse_binary_config keyring_master_key m data len password stack heap decoded_at strlen_fuel fuel with
    | Loaded out => TextTag out
    | LoadNull => TextNull
    | LoadFault => TextFault
    end
  else _parse_text_config m strlen_fuel fuel data len.

(** ** Saving *)

(** Whether [_check_tag_name] is silent. *)
Definition _check_tag_name (t : config_tag) : bool :=
  match s_data (tag_name t) with
  | [] => true
  | c :: l => CONFIG_TEXT_FILE_IS_IDENTIFIER_START c && forallb CONFIG_TEXT_FILE_IS_IDENTIFIER l
  end.

(** The digits of an integer, filled from the end of a 20-byte array; [%] and
    [/] truncate towards zero. *)
Fixpoint int_digits (fuel : nat) (value : Z) (acc : list Z) : option (list Z) :=
  match fuel with
  | O => None
  | S fuel =>
    let acc := u8 (Z.rem value 10 + 48) :: acc in
    let value := Z.quot value 10 in
    if value =? 0 then Some acc else int_digits fuel value acc
  end.

Section save.
Context `{Backend B}.

Definition writer_append_char (writer : writer_t B) (c : Z) : writer_t B := writer_append writer [c].

Definition _save_level (writer : writer_t B) (level : nat) : writer_t B :=
  foldl writer_append_char writer (replicate level 9).

(** Every child followed by a line end. *)
Fixpoint save_children (save : writer_t B -> config_tag -> option (writer_t B)) (writer : writer_t B) (data : list config_tag)
    : option (writer_t B) :=
  match data with
  | [] => Some writer
  | t :: data =>
    writer ← save writer t;
    save_children save (writer_append_char writer 10) data
  end.

(** [None] is the panic on a string or an overrun of the digit array. *)
Fixpoint _save_text_tag (writer : writer_t B) (t : config_tag) (level : nat) : option (writer_t B) :=
  let writer := _save_level writer level in
  let writer := writer_append writer (s_data (tag_name t)) in
  match t with
  | TagOther _ _ type =>
    Some (if type =? CONFIG_TAG_TYPE_NONE then writer
          else if z2b (s_length (tag_name t)) then writer_append_char writer 61 else writer)
  | TagArray _ name data =>
    let writer := if z2b (s_length name) then writer_append_char writer 61 else writer in
    let writer := writer_append_char writer 123 in
    match data with
    | [] => Some (writer_append_char writer 125)
    | _ =>
      let writer := writer_append_char writer 10 in
      writer ← save_children (fun writer t => _save_text_tag writer t (S level)) writer data;
      Some (writer_append_char (_save_level writer level) 125)
    end
  | TagString _ _ _ => None
  | TagInt _ name int_ =>
    let writer := if z2b (s_length name) then writer_append_char writer 61 else writer in
    let '(writer, value) :=
      if int_ <? 0 then (writer_append_char writer 45, sext 64 (- int_)) else (writer, int_) in
    digits ← int_digits 20 value [];
    Some (writer_append writer digits)
  end.

(** The text branch of [config_save_to_file]. *)
Definition config_save_text (file : B) (mapped : list Z) (t : config_tag) : option B :=
  let writer := writer_init file mapped in
  writer ← match t with
           | TagArray _ _ data => save_children (fun writer t => _save_text_tag writer t 0) writer data
           | _ => writer ← _save_text_tag writer t 0; Some (writer_append_char writer 10)
           end;
  Some (snd (writer_deinit writer)).

Definition CONFIG_SAVE_FLAG_TEXT : Z := 2.

Definition config_save_to_file (keyring_master_key : list Z) (file : B) (mapped mapped' : list Z) (t : config_tag)
    (password : password_t) (flags : Z) (salt stack heap : list Z) : option B :=
  if z2b (Z.land flags CONFIG_SAVE_FLAG_TEXT) then config_save_text file mapped t
  else config_save_binary keyring_master_key file mapped mapped' t password salt stack heap.
End save.
