(* ===== verification/ConfigTextSpec.v ===== *)
(** * The text configuration format: saving and reading back, and the inputs
    the parser does not handle. *)
From stdpp Require Import base tactics list numbers option.
From Stdlib Require Import ZArith Lia.
From S2P Require Import Prelude Bytes MemUtil StrEqual Format FormatSpec Writer Config ConfigSpec ConfigFile ConfigFileSpec ConfigText.
#[local] Open Scope Z_scope.

(** ** The text of a tree *)

Definition tabs (level : nat) : list Z := replicate level 9.

Definition name_text (n : string_t) : list Z := s_data n ++ (if z2b (s_length n) then [61] else []).

(** Without the leading tabs. *)
Fixpoint text (level : nat) (t : config_tag) : list Z :=
  match t with
  | TagOther _ n _ => s_data n
  | TagArray _ n data =>
    name_text n ++ [123] ++
    (match data with
     | [] => []
     | _ => [10] ++ List.concat (map (fun t => tabs (S level) ++ text (S level) t ++ [10]) data) ++ tabs level
     end) ++ [125]
  | TagString _ _ _ => []
  | TagInt _ n v => name_text n ++ signed_numeral v
  end.

Definition ident_ok (l : list Z) : Prop :=
  match l with
  | [] => True
  | c :: l => CONFIG_TEXT_FILE_IS_IDENTIFIER_START c = true /\ Forall (fun c => CONFIG_TEXT_FILE_IS_IDENTIFIER c = true) l
  end.

(** The trees the text format can represent: no strings, names are
    identifiers, no integer is the most negative one, and a tag without a value
    has a name. *)
Fixpoint text_ok (t : config_tag) : Prop :=
  (exists l, tag_name t = smm_of l /\ ident_ok l) /\
  match t with
  | TagOther _ n type => type = CONFIG_TAG_TYPE_NONE /\ s_data n <> []
  | TagArray _ _ data => fold_right (fun t P => text_ok t /\ P) True data
  | TagString _ _ _ => False
  | TagInt _ _ v => - 2 ^ 63 < v < 2 ^ 63
  end.

Lemma text_ok_children id name data : text_ok (TagArray id name data) -> Forall text_ok data.
Proof. intros [_ H]. induction data as [| t data IH]; [done|]. destruct H. constructor; auto. Qed.

(** A tree without its object identifiers. *)
Fixpoint strip (t : config_tag) : config_tag :=
  match t with
  | TagOther _ n type => TagOther 0 n type
  | TagArray _ n data => TagArray 0 n (map strip data)
  | TagString _ n s => TagString 0 n s
  | TagInt _ n v => TagInt 0 n v
  end.

(** ** Saving *)

Section save.
Context `{Backend B}.
Implicit Type w : writer_t B.

Lemma int_digits_numeral fuel v acc : 0 <= v < 10 ^ Z.of_nat fuel -> (0 < fuel)%nat ->
  int_digits fuel v acc = Some ((digit_char <$> reverse (lsd fuel 10 v)) ++ acc).
Proof.
  revert v acc. induction fuel as [| fuel IH]; intros v acc Hv Hf; [lia|]. cbn [int_digits lsd].
  rewrite Z.rem_mod_nonneg, Z.quot_div_nonneg by lia. pose proof (Z.mod_pos_bound v 10 ltac:(lia)).
  assert (u8 (v mod 10 + 48) = digit_char (v mod 10)) as ->.
  { unfold digit_char. destruct (Z.ltb_spec (v mod 10) 10); [| lia]. rewrite Z.add_comm. apply wrap_id. unfold is_width. lia. }
  rewrite reverse_cons, fmap_app. destruct (Z.eqb_spec (v / 10) 0); [by rewrite <- app_assoc|].
  rewrite IH, <- app_assoc; [done | | ].
  - apply (next_range 10 ltac:(lia)). lia.
  - destruct fuel; [| lia]. simpl in Hv. rewrite Z.div_small in n by lia. done.
Qed.

Lemma int_digits_ok v : 0 <= v < 2 ^ 63 -> int_digits 20 v [] = Some (numeral 10 v).
Proof.
  intros Hv. assert (Hv' : 0 <= v < 10 ^ Z.of_nat 20).
  { split; [apply Hv|]. apply Z.lt_le_trans with (2 ^ 63); [apply Hv | by vm_compute]. }
  rewrite int_digits_numeral by (assumption || lia). rewrite app_nil_r. unfold numeral.
  apply (f_equal (fun l => Some (digit_char <$> reverse l))).
  apply (lsd_fuel 10 ltac:(lia) 19); [exact Hv' | lia | lia].
Qed.

Lemma level_holds w l level : holds w l -> Z.of_nat (length (l ++ tabs level)) < 2 ^ 64 -> holds (_save_level w level) (l ++ tabs level).
Proof.
  intros Hw Hb. assert (Hc : tabs level = List.concat (map (fun c => [c]) (replicate level 9))).
  { clear. unfold tabs. induction level as [| n IH]; [done|]. simpl. by rewrite <- IH. }
  rewrite Hc in *. apply (appends_hold (fun c => [c])); done.
Qed.

Lemma name_holds w l n : holds w l -> Z.of_nat (length (l ++ name_text n)) < 2 ^ 64 ->
  holds (if z2b (s_length n) then writer_append_char (writer_append w (s_data n)) 61 else writer_append w (s_data n)) (l ++ name_text n).
Proof.
  intros Hw Hb. unfold name_text in *. rewrite app_assoc in *. rewrite !length_app in Hb.
  assert (H1 : holds (writer_append w (s_data n)) (l ++ s_data n)) by (apply append_holds; [done | lia]).
  destruct (z2b (s_length n)); [| by rewrite app_nil_r]. apply append_holds; [done|]. rewrite length_app. cbn [length] in *. lia.
Qed.

Definition line (level : nat) (t : config_tag) : list Z := tabs level ++ text level t ++ [10].

Lemma save_children_holds (save : writer_t B -> config_tag -> option (writer_t B)) level data : forall w l,
  Forall (fun t => forall w l, holds w l -> Z.of_nat (length (l ++ tabs level ++ text level t)) < 2 ^ 64 ->
    exists w', save w t = Some w' /\ holds w' (l ++ tabs level ++ text level t)) data ->
  holds w l -> Z.of_nat (length (l ++ List.concat (map (line level) data))) < 2 ^ 64 ->
  exists w', save_children save w data = Some w' /\ holds w' (l ++ List.concat (map (line level) data)).
Proof.
  induction data as [| t data IH]; intros w l Hd Hw Hb.
  { exists w. by rewrite app_nil_r. }
  inversion_clear Hd as [| ? ? Ht Hd']. cbn [map List.concat save_children] in *. rewrite app_assoc in *.
  assert (Hll : l ++ line level t = (l ++ tabs level ++ text level t) ++ [10]) by (unfold line; by rewrite <- !app_assoc).
  rewrite Hll in *. rewrite length_app in Hb.
  assert (Hb' : Z.of_nat (length ((l ++ tabs level ++ text level t) ++ [10])) < 2 ^ 64) by lia.
  destruct (Ht w l Hw) as (w1 & -> & Hw1); [rewrite length_app in Hb'; lia|]. cbn [mbind option_bind].
  apply IH; [done | | rewrite length_app; lia]. apply append_holds; [done|]. rewrite length_app in Hb'. lia.
Qed.

(** The text after the name of an array. *)
Definition array_text (level : nat) (data : list config_tag) : list Z :=
  [123] ++ (match data with [] => [] | _ => [10] ++ List.concat (map (line (S level)) data) ++ tabs level end) ++ [125].

Lemma text_array level id n data : text level (TagArray id n data) = name_text n ++ array_text level data.
Proof. by destruct data. Qed.

(** Saving a tag appends its tabs and its text. *)
Lemma save_text_holds t : forall w l level, text_ok t -> holds w l -> Z.of_nat (length (l ++ tabs level ++ text level t)) < 2 ^ 64 ->
  exists w', _save_text_tag w t level = Some w' /\ holds w' (l ++ tabs level ++ text level t).
Proof.
  induction t as [id n type | id n data IH | id n s | id n v] using tag_ind; intros w l level Hok Hw Hb;
    rewrite app_assoc in *; (assert (Hl : holds (_save_level w level) (l ++ tabs level))
      by (apply level_holds; [done | clear -Hb; rewrite length_app in Hb; lia]));
    cbn [_save_text_tag]; generalize dependent (_save_level w level); generalize dependent (l ++ tabs level); clear w l Hw; intros l Hb w Hw.
  - destruct Hok as [_ [-> _]]. eexists. split; [done|]. apply append_holds; [done|]. rewrite length_app in Hb. done.
  - rewrite text_array, app_assoc in *. pose proof (name_holds w l n Hw) as Hn. rewrite length_app in Hb. specialize (Hn ltac:(lia)).
    cbn [tag_name]. set (w1 := if z2b (s_length n) then _ else _) in *. clearbody w1. generalize dependent (l ++ name_text n).
    clear w l Hw. intros l Hb Hw. unfold array_text in *. apply text_ok_children in Hok.
    assert (H1 : holds (writer_append_char w1 123) (l ++ [123])) by (apply append_holds; [done | rewrite length_app in Hb; cbn [length] in *; lia]).
    destruct data as [| t0 data].
    + eexists. split; [done|]. replace (l ++ [123] ++ [] ++ [125]) with ((l ++ [123]) ++ [125]) by by rewrite <- app_assoc.
      apply append_holds; [done|]. rewrite length_app. cbn [length app] in *. lia.
    + generalize dependent (t0 :: data). clear t0 data. intros data IH Hok Hb.
      replace (l ++ [123] ++ ([10] ++ List.concat (map (line (S level)) data) ++ tabs level) ++ [125])
        with (((((l ++ [123]) ++ [10]) ++ List.concat (map (line (S level)) data)) ++ tabs level) ++ [125]) by by rewrite <- !app_assoc.
      rewrite !length_app in Hb.
      assert (H2 : holds (writer_append_char (writer_append_char w1 123) 10) ((l ++ [123]) ++ [10]))
        by (apply append_holds; [done | rewrite length_app; cbn [length] in *; lia]).
      destruct (save_children_holds (fun writer t => _save_text_tag writer t (S level)) (S level) data
        (writer_append_char (writer_append_char w1 123) 10) ((l ++ [123]) ++ [10])) as (w2 & -> & H3).
      * rewrite Forall_forall in IH, Hok |- *. intros t Ht w l0 Hw0 Hb0. by apply IH; auto.
      * done.
      * rewrite !length_app. lia.
      * cbn [mbind option_bind]. eexists. split; [done|]. apply append_holds; [apply level_holds; [done|] |]; rewrite !length_app; lia.
  - by destruct Hok.
  - destruct Hok as [_ Hv]. cbn [text tag_name] in *. rewrite app_assoc in *. pose proof (name_holds w l n Hw) as Hn.
    rewrite length_app in Hb. specialize (Hn ltac:(lia)). set (w1 := if z2b (s_length n) then _ else _) in *. clearbody w1.
    generalize dependent (l ++ name_text n). clear w l Hw. intros l Hb Hw. unfold signed_numeral in *.
    destruct (Z.ltb_spec v 0).
    + assert (sext 64 (- v) = - v) as -> by (unfold sext; rewrite Z.mod_small; lia). rewrite int_digits_ok by lia.
      cbn [mbind option_bind]. eexists. split; [done|]. replace (l ++ 45 :: numeral 10 (- v)) with ((l ++ [45]) ++ numeral 10 (- v))
        by by rewrite <- app_assoc.
      cbn [length] in Hb. apply append_holds; [apply append_holds; [done | cbn; lia]|]. rewrite length_app. cbn [length]. lia.
    + rewrite int_digits_ok by lia. cbn [mbind option_bind]. eexists. split; [done|]. by apply append_holds.
Qed.
End save.

(** ** Reading back *)

Section read.
Context (m : mem) (strlen_fuel : nat) (end_ : Z).

Lemma skip_stored p l a x rest : stored m a (l ++ x :: rest) -> Forall (fun c => p c = true) l -> p x = false ->
  a + Z.of_nat (length l) < end_ -> skip m end_ p a = a + Z.of_nat (length l).
Proof.
  intros Hs Hl Hx Hend. unfold skip.
  assert (Hf : (length l < Z.to_nat (end_ - a))%nat) by lia. revert Hf. generalize (Z.to_nat (end_ - a)) as fuel. intros fuel Hf.
  revert a Hs Hend fuel Hf. induction Hl as [| c l Hc _ IH]; intros a Hs Hend [| fuel] Hf; cbn [length app] in *; try lia; cbn [skip_loop].
  - apply stored_cons in Hs as [-> _]. rewrite Hx, andb_false_r. lia.
  - apply stored_cons in Hs as [-> Hs]. rewrite Hc, (proj2 (Z.ltb_lt _ _)) by lia. cbn [andb]. rewrite IH by (done || lia). lia.
Qed.

Lemma skip_none p a x : m a = x -> p x = false -> skip m end_ p a = a.
Proof.
  intros <- Hx. unfold skip. destruct (Z.to_nat (end_ - a)); [done|]. cbn [skip_loop]. by rewrite Hx, andb_false_r.
Qed.

(** How a value starts. *)
Definition value_start (x : Z) : Prop := x = 123 \/ x = 45 \/ 48 <= x <= 57.

Lemma value_start_class x : value_start x ->
  CONFIG_TEXT_FILE_IS_WHITESPACE x = false /\ CONFIG_TEXT_FILE_IS_IDENTIFIER_START x = false /\ is_blank x = false /\
  (x =? 44) = false /\ (x =? 10) = false /\ (x =? 125) = false /\ (x =? 61) = false /\ (x =? 35) = false.
Proof.
  intros Hx. assert (Hv : x = 123 \/ x = 45 \/ x = 48 \/ x = 49 \/ x = 50 \/ x = 51 \/ x = 52 \/ x = 53 \/ x = 54 \/
    x = 55 \/ x = 56 \/ x = 57) by (unfold value_start in Hx; lia).
  clear Hx. repeat (destruct Hv as [-> | Hv]; [by vm_compute|]). subst. by vm_compute.
Qed.

Lemma ident_head l c : ident_ok (c :: l) -> Forall (fun c => CONFIG_TEXT_FILE_IS_IDENTIFIER c = true) (c :: l) /\
  CONFIG_TEXT_FILE_IS_IDENTIFIER_START c = true /\ CONFIG_TEXT_FILE_IS_WHITESPACE c = false.
Proof.
  intros [H1 H2]. split_and!; [| done |].
  - constructor; [| done]. unfold CONFIG_TEXT_FILE_IS_IDENTIFIER. by rewrite H1.
  - revert H1. unfold CONFIG_TEXT_FILE_IS_IDENTIFIER_START, CONFIG_TEXT_FILE_IS_WHITESPACE. intros H1.
    repeat (apply orb_false_iff; split); apply Z.eqb_neq; intros ->; vm_compute in H1; done.
Qed.

Definition white (l : list Z) : Prop := Forall (fun c => CONFIG_TEXT_FILE_IS_WHITESPACE c = true) l.

(** Past the white space and the name. *)
Definition after (st : text_state) (data : Z) (t : config_tag) : text_state :=
  TextState data (attach (ts_out st) t) (ts_parents st) (ts_next st + 1).

Lemma step_named st ws c l x rest : ident_ok (c :: l) -> white ws -> x = 10 \/ x = 61 ->
  stored m (ts_data st) (ws ++ (c :: l) ++ x :: rest) ->
  let a := ts_data st + Z.of_nat (length (ws ++ c :: l)) in a < end_ ->
  text_step m strlen_fuel end_ st =
  if x =? 10 then SContinue (after st a (TagOther (ts_next st) (smm_of (c :: l)) CONFIG_TAG_TYPE_NONE))
  else parse_value m strlen_fuel end_ st (smm_of (c :: l)) (skip m end_ is_blank (a + 1)).
Proof.
  intros Hid Hws Hx Hs a Ha. destruct (ident_head l c Hid) as (Hall & Hstart & Hnw). unfold text_step.
  subst a. rewrite length_app in *. set (b := ts_data st + Z.of_nat (length ws)).
  assert (Hskip : skip m end_ CONFIG_TEXT_FILE_IS_WHITESPACE (ts_data st) = b).
  { apply (skip_stored _ _ _ c (l ++ x :: rest)); [exact Hs | exact Hws | exact Hnw | cbn [length] in *; lia]. }
  rewrite Hskip. apply stored_app in Hs as [_ Hs]. fold b in Hs. rewrite (proj2 (Z.leb_gt end_ b)) by lia.
  destruct (stored_cons _ _ _ _ Hs) as [Hb _]. rewrite Hb, Hstart.
  assert (Hxi : CONFIG_TEXT_FILE_IS_IDENTIFIER x = false) by (destruct Hx as [-> | ->]; reflexivity).
  rewrite (skip_stored CONFIG_TEXT_FILE_IS_IDENTIFIER (c :: l) b x rest) by (assumption || lia).
  apply stored_app in Hs as [Hn Hs]. destruct (stored_cons _ _ _ _ Hs) as [Hmx _].
  set (e := b + Z.of_nat (length (c :: l))) in *.
  assert (Hal : smm_alloc strlen_fuel m b (e - b) = Some (smm_of (c :: l))).
  { unfold smm_alloc. replace (e - b) with (Z.of_nat (length (c :: l))) by lia. rewrite (proj2 (Z.eqb_neq _ 0)) by (cbn [length]; lia).
    unfold stored in Hn. by rewrite Hn. }
  rewrite Hal. cbn [mbind option_bind]. rewrite (skip_none _ _ _ Hmx) by (destruct Hx as [-> | ->]; reflexivity).
  rewrite Hmx. replace (ts_data st + Z.of_nat (length ws + length (c :: l))) with e by lia.
  rewrite (proj2 (Z.eqb_neq e end_)) by lia. destruct Hx as [-> | ->]; reflexivity.
Qed.

(** A value with an optional name. *)
Lemma step_value st ws l x rest : ident_ok l -> white ws -> value_start x ->
  stored m (ts_data st) (ws ++ name_text (smm_of l) ++ x :: rest) ->
  let a := ts_data st + Z.of_nat (length (ws ++ name_text (smm_of l))) in a < end_ ->
  text_step m strlen_fuel end_ st = parse_value m strlen_fuel end_ st (smm_of l) a.
Proof.
  intros Hid Hws Hx Hs a Ha. destruct (value_start_class x Hx) as (X1 & X2 & X3 & X4 & X5 & X6 & X7 & X8).
  destruct l as [| c l].
  - subst a. change (name_text (smm_of [])) with (@nil Z) in *. rewrite app_nil_r in Ha |- *. cbn [app] in Hs. unfold text_step.
    set (a := ts_data st + Z.of_nat (length ws)) in *. rewrite (skip_stored _ ws _ x rest) by (done || lia). fold a. rewrite (proj2 (Z.leb_gt end_ a)) by lia.
    apply stored_app in Hs as [_ Hs]. apply stored_cons in Hs as [Hmx _]. fold a in Hmx. rewrite Hmx, X2. cbv iota beta zeta.
    rewrite Hmx, X4, X5, X6, X7, (proj2 (Z.eqb_neq a end_)) by lia. reflexivity.
  - assert (E0 : name_text (smm_of (c :: l)) = (c :: l) ++ [61]) by reflexivity. rewrite E0 in *. rewrite <- app_assoc in Hs.
    change ([61] ++ x :: rest) with (61 :: x :: rest) in Hs. subst a.
    assert (El : Z.of_nat (length (ws ++ (c :: l) ++ [61])) = Z.of_nat (length (ws ++ c :: l)) + 1)
      by (rewrite !length_app; cbn [length]; lia).
    rewrite E0, El in Ha. rewrite E0, El. rewrite (step_named st ws c l 61 (x :: rest)) by (assumption || auto || lia). change (61 =? 10) with false. cbv iota. f_equal.
    rewrite app_assoc in Hs. apply stored_app in Hs as [_ Hs]. apply stored_cons in Hs as [_ Hs]. apply stored_cons in Hs as [Hmx _].
    rewrite (skip_none _ _ _ Hmx X3). lia.
Qed.

(** Digits. *)
Lemma digits_grow ds : forall v, Forall (fun c => 48 <= c <= 57) ds -> 0 <= v ->
  v <= foldl (fun a c => a * 10 + char_digit c) v ds.
Proof.
  induction ds as [| c ds IH]; intros v Hds Hv; [simpl; lia|]. inversion_clear Hds as [| ? ? Hc Hds']. simpl.
  assert (char_digit c = c - 48) as -> by (unfold char_digit; destruct (Z.ltb_spec c 58); lia).
  specialize (IH (v * 10 + (c - 48)) Hds' ltac:(lia)). lia.
Qed.

Lemma read_number_stored x rest : CONFIG_TEXT_FILE_IS_NUMBER x = false -> forall ds fuel a v c,
  Forall (fun c => 48 <= c <= 57) (c :: ds) -> stored m a ((c :: ds) ++ x :: rest) -> 0 <= v ->
  foldl (fun a c => a * 10 + char_digit c) v (c :: ds) < 2 ^ 63 -> (length ds < fuel)%nat ->
  read_number m fuel a v = Some (a + Z.of_nat (length (c :: ds)), foldl (fun a c => a * 10 + char_digit c) v (c :: ds)).
Proof.
  intros Hx. induction ds as [| c' ds IH]; intros [| fuel] a v c Hd Hs Hv Hb Hf; cbn [length] in Hf; try lia;
    inversion_clear Hd as [| ? ? Hc Hd']; apply stored_cons in Hs as [Hm Hs]; cbn [read_number].
  all: assert (Hval : sext 64 (v * 10 + m a - 48) = v * 10 + char_digit c).
  1, 3: rewrite Hm; assert (char_digit c = c - 48) as E0 by (unfold char_digit; destruct (Z.ltb_spec c 58); lia); rewrite E0;
    cbn [foldl] in Hb; rewrite E0 in Hb.
  - unfold sext. rewrite Z.mod_small; cbn [foldl] in Hb; lia.
  - pose proof (digits_grow (c' :: ds) (v * 10 + (c - 48)) Hd' ltac:(lia)) as Hg. cbn [foldl] in Hg. unfold sext. rewrite Z.mod_small; lia.
  - rewrite Hval. apply stored_cons in Hs as [-> _]. rewrite Hx. done.
  - rewrite Hval. destruct (stored_cons _ _ _ _ Hs) as [Hm' _]. rewrite Hm'.
    assert (CONFIG_TEXT_FILE_IS_NUMBER c' = true) as -> by (inversion_clear Hd'; unfold CONFIG_TEXT_FILE_IS_NUMBER; lia).
    rewrite (IH fuel (a + 1) (v * 10 + char_digit c) c'); try done; try lia.
    + do 2 f_equal. cbn [length]. lia.
    + unfold char_digit. destruct (Z.ltb_spec c 58); lia.
Qed.
End read.

Lemma lsd_below fuel b v : 1 < b -> Forall (fun d => 0 <= d < b) (lsd fuel b v).
Proof.
  intros Hb. revert v. induction fuel as [| fuel IH]; intros v; [constructor|]. simpl. pose proof (Z.mod_pos_bound v b ltac:(lia)).
  constructor; [done|]. destruct (v / b =? 0); [constructor | apply IH].
Qed.

Lemma numeral_digits v : Forall (fun c => 48 <= c <= 57) (numeral 10 v).
Proof.
  unfold numeral. apply Forall_fmap. pose proof (lsd_below 64 10 v ltac:(lia)) as Hl. apply Forall_reverse in Hl.
  revert Hl. apply Forall_impl.
  intros d Hd. simpl in *. unfold digit_char. destruct (Z.ltb_spec d 10); lia.
Qed.

Section loop.
Context (m : mem) (strlen_fuel : nat) (end_ : Z) (Hfuel : (20 <= strlen_fuel)%nat).

(** The value of an integer tag. *)
Lemma parse_int st name a v rest : - 2 ^ 63 < v < 2 ^ 63 -> stored m a (signed_numeral v ++ 10 :: rest) ->
  a + Z.of_nat (length (signed_numeral v)) < end_ ->
  parse_value m strlen_fuel end_ st name a =
  SContinue (after st (a + Z.of_nat (length (signed_numeral v))) (TagInt (ts_next st) name v)).
Proof.
  intros Hv Hs Hend. unfold parse_value. rewrite (proj2 (Z.eqb_neq a end_)) by lia.
  assert (Hnum : forall u b, 0 <= u < 2 ^ 63 -> stored m b (numeral 10 u ++ 10 :: rest) ->
    exists c, m b = c /\ 48 <= c <= 57 /\ read_number m strlen_fuel b 0 = Some (b + Z.of_nat (length (numeral 10 u)), u) /\
      m (b + Z.of_nat (length (numeral 10 u))) = 10).
  { intros u b Hu Hsu. pose proof (numeral_digits u) as Hd. pose proof (read_numeral_numeral 10 u ltac:(auto) ltac:(lia)) as Hr.
    pose proof (numeral_length 18 10 u ltac:(lia)) as Hl. destruct (stored_app _ _ _ _ Hsu) as [_ H10]. apply stored_cons in H10 as [H10 _].
    destruct (numeral 10 u) as [| c ds]; [simpl in Hl; lia|]. exists c. split; [by apply stored_cons in Hsu as [-> _]|].
    split; [by inversion Hd|]. split; [| done]. rewrite (read_number_stored m 10 rest eq_refl ds strlen_fuel b 0 c Hd Hsu ltac:(lia)).
    - do 2 f_equal. exact Hr.
    - fold (read_numeral 10 (c :: ds)). lia.
    - specialize (Hl ltac:(lia)). cbn [length] in Hl. lia. }
  unfold signed_numeral in *. destruct (Z.ltb_spec v 0).
  - cbn [app length] in *. apply stored_cons in Hs as [Hm Hs]. rewrite Hm.
    destruct (Hnum (- v) (a + 1) ltac:(lia) Hs) as (c & Hc & Hcr & Hrd & H10). rewrite Hc.
    change (45 =? 35) with false. change (45 =? 123) with false. change (45 =? 45) with true. cbn [orb].
    change (CONFIG_TEXT_FILE_IS_NUMBER 45) with false. cbn [orb andb].
    assert (CONFIG_TEXT_FILE_IS_NUMBER c = true) as -> by (unfold CONFIG_TEXT_FILE_IS_NUMBER; lia).
    rewrite Hrd, H10. change (ends_number 10) with true. cbv iota.
    assert (sext 64 (- - v) = v) as -> by (unfold sext; rewrite Z.mod_small; lia).
    replace (a + Z.of_nat (S (length (numeral 10 (- v))))) with (a + 1 + Z.of_nat (length (numeral 10 (- v)))) by lia. reflexivity.
  - destruct (Hnum v a ltac:(lia) Hs) as (c & Hc & Hcr & Hrd & H10). rewrite Hc.
    rewrite (proj2 (Z.eqb_neq c 35)), (proj2 (Z.eqb_neq c 123)), (proj2 (Z.eqb_neq c 45)), (proj2 (Z.eqb_neq c 43)) by lia.
    assert (CONFIG_TEXT_FILE_IS_NUMBER c = true) as -> by (unfold CONFIG_TEXT_FILE_IS_NUMBER; lia). cbn [orb andb].
    rewrite Hrd, H10. reflexivity.
Qed.

(** Iterations of the main loop a tag takes. *)
Fixpoint iters (t : config_tag) : nat :=
  match t with TagArray _ _ data => (2 + fold_right Nat.add 0 (map iters data))%nat | _ => 1%nat end.

Definition loop_reads (level : nat) (t : config_tag) : Prop := forall ws rest st fuel, white ws ->
  stored m (ts_data st) (ws ++ text level t ++ 10 :: rest) ->
  ts_data st + Z.of_nat (length (ws ++ text level t)) < end_ ->
  exists t' next', strip t' = strip t /\
    text_loop m strlen_fuel end_ (iters t + fuel) st =
    text_loop m strlen_fuel end_ fuel
      (TextState (ts_data st + Z.of_nat (length (ws ++ text level t))) (attach (ts_out st) t') (ts_parents st) next').

Lemma loop_step st fuel st' : ts_data st < end_ -> text_step m strlen_fuel end_ st = SContinue st' ->
  text_loop m strlen_fuel end_ (S fuel) st = text_loop m strlen_fuel end_ fuel st'.
Proof. intros H1 H2. cbn [text_loop]. rewrite (proj2 (Z.ltb_lt _ _) H1), H2. done. Qed.

Lemma loop_children level data : Forall (loop_reads level) data -> forall ws tail st fuel, white ws ->
  stored m (ts_data st) (ws ++ List.concat (map (line level) data) ++ tail) ->
  ts_data st + Z.of_nat (length (ws ++ List.concat (map (line level) data))) <= end_ ->
  exists ds' next' a' ws', map strip ds' = map strip data /\ white ws' /\ stored m a' (ws' ++ tail) /\
    a' + Z.of_nat (length ws') = ts_data st + Z.of_nat (length (ws ++ List.concat (map (line level) data))) /\
    text_loop m strlen_fuel end_ (fold_right Nat.add 0%nat (map iters data) + fuel) st =
    text_loop m strlen_fuel end_ fuel
      (TextState a' (Frame (f_id (ts_out st)) (f_name (ts_out st)) (f_children (ts_out st) ++ ds')) (ts_parents st) next').
Proof.
  induction 1 as [| t data Ht _ IH]; intros ws tail st fuel Hws Hs Hend.
  { exists [], (ts_next st), (ts_data st), ws. rewrite !app_nil_r in *. split_and!; try done. by destruct st as [? [] ? ?]. }
  cbn [map List.concat fold_right] in *. unfold line in Hs at 1, Hend at 1. rewrite <- !app_assoc in Hs.
  assert (Hl : white (ws ++ tabs level)).
  { apply Forall_app. split; [done|]. apply Forall_replicate. done. }
  rewrite app_assoc in Hs. rewrite !length_app in Hend. cbn [length] in Hend.
  destruct (Ht (ws ++ tabs level) (List.concat (map (line level) data) ++ tail) st
    (fold_right Nat.add 0%nat (map iters data) + fuel)%nat Hl Hs) as (t' & next' & Hstrip & Hloop); [rewrite !length_app; lia|].
  rewrite <- Nat.add_assoc, Hloop. rewrite (app_assoc (ws ++ tabs level)) in Hs. apply stored_app in Hs as [_ Hs].
  destruct (IH [10] tail (TextState (ts_data st + Z.of_nat (length ((ws ++ tabs level) ++ text level t))) (attach (ts_out st) t') (ts_parents st) next')
    fuel) as (ds' & next'' & a' & ws' & H1 & H2 & H3 & H4 & H5).
  - by repeat constructor.
  - exact Hs.
  - cbn [ts_data]. rewrite !length_app. cbn [length]. lia.
  - exists (t' :: ds'), next'', a', ws'. split_and!; try done.
    + cbn [map]. by rewrite Hstrip, H1.
    + rewrite H4. cbn [ts_data]. unfold line at 2. rewrite !length_app. cbn [length]. lia.
    + rewrite H5. cbn [ts_out ts_parents attach f_id f_name f_children]. by rewrite <- app_assoc.
Qed.

Lemma step_close st ws rest p ps : white ws -> stored m (ts_data st) (ws ++ 125 :: rest) ->
  ts_data st + Z.of_nat (length ws) < end_ -> ts_parents st = p :: ps ->
  text_step m strlen_fuel end_ st =
  SContinue (TextState (ts_data st + Z.of_nat (length ws) + 1) (attach p (close_frame (ts_out st))) ps (ts_next st)).
Proof.
  intros Hws Hs Hend Hp. unfold text_step. rewrite (skip_stored m end_ _ ws _ 125 rest) by (done || lia).
  set (a := ts_data st + Z.of_nat (length ws)) in *. rewrite (proj2 (Z.leb_gt end_ a)) by lia.
  apply stored_app in Hs as [_ Hs]. apply stored_cons in Hs as [Hm _]. fold a in Hm. rewrite Hm.
  change (CONFIG_TEXT_FILE_IS_IDENTIFIER_START 125) with false. cbv iota beta zeta. rewrite Hm, (proj2 (Z.eqb_neq a end_)) by lia.
  change (125 =? 44) with false. change (125 =? 10) with false. change (125 =? 125) with true. rewrite Hp. reflexivity.
Qed.

Lemma signed_numeral_start v : exists x xs, signed_numeral v = x :: xs /\ value_start x.
Proof.
  unfold signed_numeral, value_start. destruct (v <? 0); [eexists _, _; split; [done | auto]|].
  destruct (numeral_head v) as (c & l & E0 & _). pose proof (numeral_digits v) as Hd. rewrite E0 in *.
  eexists _, _. split; [done|]. inversion_clear Hd. auto.
Qed.

Lemma parse_open st name a : a < end_ -> m a = 123 ->
  parse_value m strlen_fuel end_ st name a =
  SContinue (TextState (a + 1) (Frame (ts_next st) name []) (ts_out st :: ts_parents st) (ts_next st + 1)).
Proof. intros Ha Hm. unfold parse_value. rewrite Hm, (proj2 (Z.eqb_neq a end_)) by lia. reflexivity. Qed.

(** The body of an array, from behind its opening bracket. *)
Lemma loop_body level data : Forall (loop_reads (S level)) data -> forall rest st p ps fuel,
  stored m (ts_data st) ((match data with [] => [] | _ => [10] ++ List.concat (map (line (S level)) data) ++ tabs level end) ++ 125 :: rest) ->
  ts_data st + Z.of_nat (length (match data with [] => [] | _ => [10] ++ List.concat (map (line (S level)) data) ++ tabs level end)) < end_ ->
  ts_parents st = p :: ps -> f_children (ts_out st) = [] ->
  exists ds' next', map strip ds' = map strip data /\
    text_loop m strlen_fuel end_ (fold_right Nat.add 0%nat (map iters data) + S fuel) st =
    text_loop m strlen_fuel end_ fuel
      (TextState (ts_data st + Z.of_nat (length (match data with [] => [] | _ => [10] ++ List.concat (map (line (S level)) data) ++ tabs level end)) + 1)
                 (attach p (TagArray (f_id (ts_out st)) (f_name (ts_out st)) ds')) ps next').
Proof.
  intros Hd rest st p ps fuel Hs Hend Hp Hch. destruct data as [| t0 data].
  - exists [], (ts_next st). split; [done|]. cbn [map fold_right app length Nat.add] in *.
    rewrite (loop_step st fuel _ ltac:(lia) (step_close st [] rest p ps ltac:(constructor) Hs ltac:(simpl; lia) Hp)).
    unfold close_frame. rewrite Hch. reflexivity.
  - generalize dependent (t0 :: data). clear t0 data. intros data Hd Hs Hend. rewrite <- !app_assoc in Hs. rewrite !length_app in Hend.
    destruct (loop_children (S level) data Hd [10] (tabs level ++ 125 :: rest) st (S fuel)) as (ds' & next' & a' & ws' & H1 & H2 & H3 & H4 & H5).
    + by repeat constructor.
    + exact Hs.
    + rewrite length_app. lia.
    + exists ds', next'. split; [done|]. rewrite H5, Hch. cbn [app]. set (st' := TextState a' _ _ _).
      rewrite app_assoc in H3. rewrite length_app in H4.
      assert (Hw : white (ws' ++ tabs level)) by (apply Forall_app; split; [done | by apply Forall_replicate]).
      rewrite (loop_step st' fuel _ ltac:(cbn [ts_data st']; lia)
        (step_close st' (ws' ++ tabs level) rest p ps Hw H3 ltac:(cbn [ts_data st']; rewrite length_app; lia) Hp)).
      cbn [ts_data ts_out ts_next st']. unfold close_frame. cbn [f_id f_name f_children].
      replace (a' + Z.of_nat (length (ws' ++ tabs level)) + 1)
        with (ts_data st + Z.of_nat (length ([10] ++ List.concat (map (line (S level)) data) ++ tabs level)) + 1)
        by (rewrite !length_app in *; lia). reflexivity.
Qed.

Lemma loop_text t : text_ok t -> forall level, loop_reads level t.
Proof.
  induction t as [id n type | id n data IH | id n s | id n v] using tag_ind; intros Hok level ws rest st fuel Hws Hs Hend.
  - destruct Hok as [(l & Hn & Hid) [-> Hne]]. cbn [tag_name] in Hn. subst n. cbn [smm_of s_data text] in *.
    destruct l as [| c l]; [done|]. exists (TagOther (ts_next st) (smm_of (c :: l)) CONFIG_TAG_TYPE_NONE), (ts_next st + 1). split; [done|].
    apply loop_step; [lia|]. rewrite (step_named m strlen_fuel end_ st ws c l 10 rest) by (assumption || auto). reflexivity.
  - pose proof (text_ok_children _ _ _ Hok) as Hch. destruct Hok as [(l & Hn & Hid) _]. cbn [tag_name] in Hn. subst n.
    assert (Hd : Forall (loop_reads (S level)) data).
    { clear -IH Hch. induction IH as [| t data Ht _ IHd]; [constructor|]. inversion_clear Hch. constructor; [by apply Ht | by apply IHd]. }
    rewrite text_array in *. unfold array_text in *.
    set (body := match data with [] => [] | _ => _ end) in *. cbn [iters].
    rewrite <- !app_assoc in Hs. change ([123] ++ body ++ [125] ++ 10 :: rest) with (123 :: body ++ 125 :: 10 :: rest) in Hs.
    rewrite (app_assoc ws) in *. rewrite !length_app in Hend. cbn [length] in Hend.
    set (a := ts_data st + Z.of_nat (length (ws ++ name_text (smm_of l)))) in *.
    assert (Ha : a + 2 + Z.of_nat (length body) < end_) by (subst a; rewrite length_app; lia). clear Hend.
    assert (Hda : ts_data st <= a) by (subst a; lia).
    assert (Hstep : text_step m strlen_fuel end_ st =
      SContinue (TextState (a + 1) (Frame (ts_next st) (smm_of l) []) (ts_out st :: ts_parents st) (ts_next st + 1))).
    { rewrite (step_value m strlen_fuel end_ st ws l 123 (body ++ 125 :: 10 :: rest)); [| done | done | by left | by rewrite app_assoc | fold a; lia].
      fold a. apply parse_open; [lia|]. apply stored_app in Hs as [_ Hs]. by apply stored_cons in Hs as [? _]. }
    apply stored_app in Hs as [_ Hs]. apply stored_cons in Hs as [_ Hs]. fold a in Hs.
    set (st1 := TextState (a + 1) (Frame (ts_next st) (smm_of l) []) (ts_out st :: ts_parents st) (ts_next st + 1)) in *.
    destruct (loop_body level data Hd (10 :: rest) st1 (ts_out st) (ts_parents st) fuel Hs) as (ds' & next' & H1 & H2);
      [cbn [ts_data st1]; fold body; lia | done | done |].
    exists (TagArray (ts_next st) (smm_of l) ds'), next'. split; [cbn [strip]; by rewrite H1|].
    replace (2 + fold_right Nat.add 0 (map iters data) + fuel)%nat with (S (fold_right Nat.add 0 (map iters data) + S fuel))%nat by lia.
    rewrite (loop_step st _ st1) by (done || lia). rewrite H2. fold body. cbn [ts_data st1 ts_out f_id f_name].
    replace (ts_data st + Z.of_nat (length ((ws ++ name_text (smm_of l)) ++ [123] ++ body ++ [125]))) with (a + 1 + Z.of_nat (length body) + 1)
      by (subst a; rewrite !length_app; cbn [length]; lia). reflexivity.
  - by destruct Hok.
  - destruct Hok as [(l & Hn & Hid) Hv]. cbn [tag_name] in Hn. subst n. cbn [text] in *.
    rewrite <- (app_assoc (name_text _)) in Hs. rewrite app_assoc in *.
    destruct (signed_numeral_start v) as (x & xs & E0 & Hx). set (a := ts_data st + Z.of_nat (length (ws ++ name_text (smm_of l)))) in *.
    exists (TagInt (ts_next st) (smm_of l) v), (ts_next st + 1). split; [done|]. rewrite !length_app in Hend. apply loop_step; [lia|].
    rewrite (step_value m strlen_fuel end_ st ws l x (xs ++ 10 :: rest)); [| done | done | done | | fold a; subst a; rewrite length_app, E0 in *; cbn [length] in Hend; lia].
    + fold a. apply stored_app in Hs as [_ Hs]. rewrite (parse_int st _ a v rest Hv Hs) by (subst a; rewrite length_app; lia).
      unfold after. do 2 f_equal. subst a. rewrite !length_app. lia.
    + rewrite app_comm_cons, <- E0. by rewrite app_assoc.
Qed.
End loop.

Lemma iters_bound t : text_ok t -> forall level, (iters t <= length (text level t))%nat.
Proof.
  induction t as [id n type | id n data IH | id n s | id n v] using tag_ind; intros Hok level.
  - destruct Hok as [_ [_ Hne]]. cbn [iters text]. destruct (s_data n); [done | simpl; lia].
  - pose proof (text_ok_children _ _ _ Hok) as Hch. rewrite text_array. unfold array_text. rewrite !length_app. cbn [iters length].
    assert (Hs : (fold_right Nat.add 0 (map iters data) <= length (List.concat (map (line (S level)) data)))%nat).
    { clear -IH Hch. induction IH as [| t data Ht _ IHd]; [done|]. inversion_clear Hch as [| ? ? H1 H2]. cbn [map fold_right List.concat].
      unfold line at 1. rewrite !length_app. specialize (Ht H1 (S level)). specialize (IHd H2). lia. }
    destruct data; [simpl; lia|]. rewrite !length_app. lia.
  - by destruct Hok.
  - cbn [iters text]. rewrite length_app. destruct (signed_numeral_start v) as (x & xs & -> & _). simpl. lia.
Qed.

Lemma iters_lines data : Forall text_ok data -> forall level,
  (fold_right Nat.add 0%nat (map iters data) <= length (List.concat (map (line level) data)))%nat.
Proof.
  intros Hok level. induction Hok as [| t data H1 _ IHd]; [done|]. cbn [map fold_right List.concat].
  unfold line at 1. rewrite !length_app. pose proof (iters_bound t H1 level). lia.
Qed.

(** At the end of the file. *)
Lemma loop_end m sf end_ ws out parents next a fuel : white ws -> stored m a ws -> a + Z.of_nat (length ws) = end_ ->
  text_loop m sf end_ (S fuel) (TextState a out parents next) = TextTag (close_frame out).
Proof.
  intros Hws Hs Hend. cbn [text_loop ts_data ts_out]. destruct (Z.ltb_spec a end_) as [Hlt | Hge]; [| done].
  unfold text_step. cbn [ts_data]. assert (skip m end_ CONFIG_TEXT_FILE_IS_WHITESPACE a = end_) as ->.
  { unfold skip. replace (Z.to_nat (end_ - a)) with (length ws) by lia. clear Hlt. revert a Hs Hend.
    induction Hws as [| c ws Hc _ IH]; intros a Hs Hend; cbn [length skip_loop] in *; [lia|].
    apply stored_cons in Hs as [-> Hs]. rewrite Hc, (proj2 (Z.ltb_lt a end_)) by lia. cbn [andb]. apply IH; [done | lia]. }
  by rewrite Z.leb_refl.
Qed.

(** Parsing the lines of a root array. *)
Lemma parse_lines m sf fuel a data : Forall text_ok data -> (20 <= sf)%nat ->
  stored m a (List.concat (map (line 0) data)) -> (length (List.concat (map (line 0) data)) < fuel)%nat ->
  exists ds', map strip ds' = map strip data /\
    _parse_text_config m sf fuel a (Z.of_nat (length (List.concat (map (line 0) data)))) = TextTag (TagArray 0 (smm_of []) ds').
Proof.
  intros Hok Hsf Hs Hf. set (lines := List.concat (map (line 0) data)) in *. pose proof (iters_lines data Hok 0) as Hi. fold lines in Hi.
  unfold _parse_text_config. set (st := TextState a (Frame 0 (smm_of []) []) [] 1).
  assert (Hd : Forall (loop_reads m sf (a + Z.of_nat (length lines)) 0) data).
  { clear -Hok Hsf. generalize (a + Z.of_nat (length lines)). clear lines. intros e.
    induction Hok; [constructor | constructor; [by apply loop_text | done]]. }
  destruct (loop_children m sf (a + Z.of_nat (length lines)) Hsf 0 data Hd [] [] st (S (fuel - fold_right Nat.add 0%nat (map iters data) - 1)))
    as (ds' & next' & a' & ws' & H1 & H2 & H3 & H4 & H5).
  - constructor.
  - cbn [ts_data st app]. by rewrite app_nil_r.
  - cbn [ts_data st app]. fold lines. lia.
  - exists ds'. split; [done|].
    replace fuel with (fold_right Nat.add 0 (map iters data) + S (fuel - fold_right Nat.add 0 (map iters data) - 1))%nat by lia.
    rewrite H5. cbn [app ts_data st] in H4. fold lines in H4. rewrite app_nil_r in H3.
    rewrite (loop_end _ _ _ ws') by (done || lia). reflexivity.
Qed.

(** C30: a tree whose root has children, whose names are identifiers, and which
    has no strings, no most negative integer ([int_min_text]) and no nameless tag
    without a value, saved in text form, a text of less than 2^63 bytes, parses
    back to the same tree (names, integers, nesting and order), and the parser
    terminates within one iteration per byte. *)
Theorem config_text_roundtrip `{Backend B} (id : Z) (name : string_t) (data : list config_tag) (file : B) (mapped : list Z) :
  text_ok (TagArray id name data) -> data <> [] -> Z.of_nat (length mapped) = WRITER_BUFFER_SIZE ->
  Z.of_nat (length (List.concat (map (line 0) data))) < 2 ^ 63 ->
  exists f, config_save_text file mapped (TagArray id name data) = Some f /\
    forall (m : mem) (a : Z) (strlen_fuel fuel : nat),
      (20 <= strlen_fuel)%nat -> stored m a (contents f) -> (length (contents f) < fuel)%nat ->
      exists ds', map strip ds' = map strip data /\
        _parse_text_config m strlen_fuel fuel a (Z.of_nat (length (contents f))) = TextTag (TagArray 0 (smm_of []) ds').
Proof.
  intros Hok Hne Hm Hb. pose proof (text_ok_children _ _ _ Hok) as Hch. unfold config_save_text.
  destruct (save_children_holds (fun writer t => _save_text_tag writer t 0) 0 data (writer_init file mapped) []) as (w & -> & Hw).
  - rewrite Forall_forall in Hch |- *. intros t Ht w l Hw Hl. apply save_text_holds; auto.
  - by apply writer_init_holds.
  - cbn [app]. lia.
  - cbn [mbind option_bind app] in *. eexists. split; [done|]. intros m a sf fuel Hsf Hs Hf.
    destruct (deinit_holds _ _ Hw ltac:(lia)) as [_ Hc]. rewrite Hc in *; [by apply parse_lines|..].
    all: destruct data as [| t data]; [done|]; unfold line; cbn [map List.concat]; intros E0;
      apply (f_equal length) in E0; rewrite !length_app in E0; simpl in E0; lia.
Qed.

(** [a={ -7 b }] and [c=9]. *)
Definition demo_tree : list config_tag :=
  [TagArray 1 (smm_of [97]) [TagInt 2 (smm_of []) (-7); TagOther 3 (smm_of [98]) CONFIG_TAG_TYPE_NONE]; TagInt 4 (smm_of [99]) 9].

Lemma config_text_roundtrip_witness :
  exists f, config_save_text ([] : list Z) (replicate (Z.to_nat WRITER_BUFFER_SIZE) 0) (TagArray 0 (smm_of []) demo_tree) = Some f /\
    forall (m : mem) (a : Z) (strlen_fuel fuel : nat),
      (20 <= strlen_fuel)%nat -> stored m a (contents f) -> (length (contents f) < fuel)%nat ->
      exists ds', map strip ds' = map strip demo_tree /\
        _parse_text_config m strlen_fuel fuel a (Z.of_nat (length (contents f))) = TextTag (TagArray 0 (smm_of []) ds').
Proof.
  apply (config_text_roundtrip 0 (smm_of []) demo_tree ([] : list Z)).
  - unfold demo_tree, text_ok. cbn [tag_name fold_right].
    split_and!; try done; try lia; first [by exists [] | by exists [97] | by exists [98] | by exists [99]].
  - discriminate.
  - rewrite length_replicate. apply Z2Nat.id. discriminate.
  - reflexivity.
Defined.

(** ** Input the parser does not handle *)

Definition parse_demo (fuel : nat) (l : list Z) : text_result :=
  _parse_text_config (demo_memory l) 40 fuel 4096 (Z.of_nat (length l)).

(** At a comma an iteration without a name changes nothing. *)
Lemma comma_stuck m sf end_ st : ts_data st < end_ -> m (ts_data st) = 44 -> text_step m sf end_ st = SContinue st.
Proof.
  intros Hd Hm. unfold text_step. rewrite (skip_none m end_ _ _ _ Hm) by reflexivity. rewrite (proj2 (Z.leb_gt end_ _)) by lia.
  rewrite Hm. change (CONFIG_TEXT_FILE_IS_IDENTIFIER_START 44) with false. cbv iota beta zeta. rewrite Hm.
  rewrite (proj2 (Z.eqb_neq _ end_)) by lia. destruct st. reflexivity.
Qed.

Lemma comma_loops m sf end_ fuel : forall st, ts_data st < end_ -> m (ts_data st) = 44 -> text_loop m sf end_ fuel st = TextFuel.
Proof.
  induction fuel as [| fuel IH]; intros st Hd Hm; cbn [text_loop]; rewrite (proj2 (Z.ltb_lt _ _) Hd); [done|].
  rewrite (comma_stuck m sf end_ st Hd Hm). by apply IH.
Qed.

(** The parser never terminates on a file with a comma between two tags:
    ["a,b"] uses up any amount of fuel, because an iteration that starts at a
    comma does not move. *)
Theorem comma_diverges (fuel : nat) : parse_demo fuel [97; 44; 98] = TextFuel.
Proof.
  unfold parse_demo, _parse_text_config. destruct fuel as [| fuel]; [reflexivity|]. cbn [text_loop].
  change (ts_data _ <? 4096 + Z.of_nat (length [97; 44; 98])) with true. cbv iota.
  assert (E0 : text_step (demo_memory [97; 44; 98]) 40 (4096 + Z.of_nat (length [97; 44; 98])) (TextState 4096 (Frame 0 (smm_of []) []) [] 1) =
    SContinue (TextState 4097 (Frame 0 (smm_of []) [TagOther 1 (smm_of [97]) 0]) [] 2)) by (vm_compute; reflexivity).
  rewrite E0. apply comma_loops; reflexivity.
Qed.

(** The closing quote of a quoted string is not consumed: the next iteration
    takes it for an opening one, and the single quoted value of a file panics. *)
Lemma quoted_string_panics : parse_demo 50 [97; 61; 34; 120; 34; 10] = TextPanic.
Proof. vm_compute. reflexivity. Qed.

(** An empty quoted string has no buffer: [smm_alloc(NULL,0)]. *)
Lemma empty_quoted_string_faults : parse_demo 50 [97; 61; 34; 34; 10] = TextFault.
Proof. vm_compute. reflexivity. Qed.

(** An empty value is allocated with the length 0 and swallows the rest of the
    file as the value; the rest is then parsed again. *)
Lemma empty_value_swallows :
  parse_demo 50 [97; 61; 10; 98; 61; 49; 10] =
  TextTag (TagArray 0 (smm_of []) [TagString 1 (smm_of [97]) (Some (smm_of [10; 98; 61; 49; 10])); TagInt 2 (smm_of [98]) 1]).
Proof. vm_compute. reflexivity. Qed.

(** Without the closing bracket the inner array is returned, not the root. *)
Lemma unbalanced_returns_inner :
  parse_demo 50 [97; 61; 123; 98; 10] = TextTag (TagArray 1 (smm_of [97]) [TagOther 2 (smm_of [98]) CONFIG_TAG_TYPE_NONE]).
Proof. vm_compute. reflexivity. Qed.

(** The most negative integer stays negative when its sign is removed, and its
    digits come out as other characters. *)
Lemma int_min_text : int_digits 20 (sext 64 (- - 2 ^ 63)) [] =
  Some [39; 46; 46; 45; 45; 41; 46; 48; 45; 42; 40; 43; 44; 41; 41; 43; 40; 48; 40].
Proof. vm_compute. reflexivity. Qed.
